(* ===== verification/_CoqProject ===== *)
-Q . S2P
Prelude.v
Machine.v
V4vTypes.v
V4vRing.v
V4vRingSafe.v
V4vRingSpec.v
V4vInsert.v
V4vQueue.v
V4vWorld.v
V4vOps.v
V4vInv.v
V4vTable.v
V4vWorldInv.v
V4vLife.v
V4vProps.v
V4vSpace.v
V4vSystem.v
EventChannel.v
EventChannelProps.v
Rangeset.v
RangesetOps.v
RangesetProps.v
Vpic.v
VpicInv.v
VpicOps.v
VpicProps.v
HvmState.v
Vlapic.v
Vioapic.v
HvmIrq.v
VioapicInv.v
VioapicOps.v
VioapicProps.v
HvmIrqOps.v
HvmIrqRun.v
VlapicRegs.v
VlapicProps.v
HvmLapic.v
HvmIrqSystem.v
HvmIrqProps.v
HvmSave.v
HvmStream.v
HvmIrqSave.v
HvmIrqRestore.v
HvmIrqSaveProps.v
Vpt.v
VptOps.v
VptLists.v
VptSystem.v
VptTicks.v
VptProps.v
Calendar.v
TimerDev.v
PmTimer.v
Hpet.v
Rtc.v
TimerDevInv.v
HpetRegs.v
RtcRun.v
TimerSystem.v
TimerProps.v
RtcProps.v
TimerSave.v
TimerSaveProps.v
HostTimer.v
HostHeap.v
HostTimerInv.v
HostTimerOps.v
HostTimerRun.v
HostTimerSoftirq.v
HostTimerHost.v
HostTimerProps.v
SimpleTree.v
SimpleTreeBuild.v
SimpleTreeFind.v
SimpleTreeProps.v
DubTree.v
LruCache.v
HashTable.v
ChunkCache.v
