(* ===== verification/Prelude.v ===== *)
(** * uXen: a verification of components of the hypervisor and of its image format

    uXen is a type-2 hypervisor derived from Xen: its core under src/xen runs
    inside the kernel of the host (domain 0) and runs guests as other domains.
    This development models parts of that core, as it is built for uXen
    (64 bit, [__UXEN__] defined), as executable functions and proves what the
    rest of the system relies on.

    ** The parts and their files

    - V4V, xen/common/v4v.c with xen/include/xen/v4v.h and
      xen/include/public/v4v.h: message rings in guest memory through which
      domains talk.  [V4vTypes]: the structures and their layout in bytes.
      [V4vRing]: the ring buffer, from [v4v_ring_map_page] to
      [v4v_ringbuf_insert].  [V4vQueue]: the receiver, [v4v_copy_out], and
      the abstract queue.  [V4vWorld]: domains, the lookups of
      xen/common/domain.c, the hash table of rings, pending notifications and
      signals.  [V4vOps]: channels, registration, sending, notification, the
      hypercall [do_v4v_op] and the life cycle of a domain's rings.  The
      others hold the proofs: [V4vRingSafe] (memory safety of the ring),
      [V4vRingSpec] and [V4vInsert] (what an insertion writes), [V4vInv],
      [V4vTable], [V4vWorldInv] (the invariant of the tables under every
      hypercall), [V4vLife] (references to pages; reachable
      states), [V4vProps], [V4vSpace], [V4vSystem] (the properties, and runs that
      show defects).
    - Event channels, xen/common/event_channel.c: [EventChannel] (ports,
      buckets, the operations, the invariant of a table), [EventChannelProps].
    - Rangesets, xen/common/rangeset.c: [Rangeset] (the operations, ordered
      lists), [RangesetOps], [RangesetProps].
    - The 8259 interrupt controllers, xen/arch/x86/hvm/vpic.c: [Vpic] (state,
      ports, lines, acknowledge), [VpicInv] (priorities, the invariant of the
      INT lines), [VpicOps] (every operation), [VpicProps].
    - Interrupt distribution, xen/arch/x86/hvm/irq.c, vioapic.c and vlapic.c:
      [HvmState] (the interrupt hardware of a domain as one record),
      [Vlapic] (bitmaps of vectors, priorities, destinations, acknowledge),
      [VlapicRegs] (registers, inter-processor interrupts, INIT and SIPI, timer,
      reset), [Vioapic] (registers, delivery, end of interrupt), [HvmIrq] (wires,
      router, callback, the interrupt a vcpu takes).  Proofs:
      [VioapicInv], [VioapicOps], [VioapicProps]; [HvmIrqOps] (what the counters count),
      [HvmIrqRun], [HvmLapic] (registers stay in the range of their types; accesses
      to the local APICs), [HvmIrqSystem] (the operations as a transition system and
      its invariant), [HvmIrqProps]; [VlapicProps] (who receives an
      inter-processor interrupt).
    - Platform timers, xen/arch/x86/hvm/vpt.c: [Vpt] (the timers and their lists,
      missed ticks, descheduling, delivery, creation, the guest's time).  Proofs:
      [VptOps] (the lists), [VptLists] (the invariant under every
      operation; whose interrupt is raised), [VptTicks] (the account
      of ticks), [VptSystem] (the operations, together with those of the interrupt
      hardware, as a transition system; who changes a timer), [VptProps].
    - Timer devices, xen/arch/x86/hvm/i8254.c, pmtimer.c, hpet.c and rtc.c, with
      the calendar of xen/common/time.c and the wall clock of
      xen/arch/x86/time.c: [Calendar] ([gmtime] and [mktime]), [TimerDev]
      (the state of the devices over that of the platform timers; the PIT
      and the speaker port), [PmTimer], [Hpet], [Rtc].  Proofs: [TimerDevInv] (the
      invariant; the classes [TimerClient], [TimerOwner], [PitClient],
      [PmtClient] and [RtcClient] say which properties of a domain the parts of the
      devices respect, and the lemmas on these parts are proved against them),
      [HpetRegs] (every register of the HPET),
      [RtcRun] (every access to the clock; the alarm against a search
      for the next match; what the computations of the clock give),
      [RtcProps] (with its interrupt flag and its line), [TimerSystem] (the start of the devices; the accesses,
      together with the operations on the platform timers, as a transition
      system; what the parts leave alone; the PM timer's account),
      [TimerProps].
    - Timers of the hypervisor, xen/common/timer.c with [reprogram_timer] of
      xen/uxen/time.c and the soft interrupts of xen/common/softirq.c:
      [HostTimer] (timers, the heap and the lists of a processor or vcpu, the
      calls, the soft interrupt, sleep of the host, processors that go).
      Proofs: [HostHeap] (the loops of the heap), [HostTimerInv] (the
      invariant; leaving and entering a structure), [HostTimerOps] (every
      call; which timers the host knows of), [HostTimerRun] (the functions of
      timers, under the class [WorkRules]; the loops of the soft interrupt),
      [HostTimerSoftirq] (the whole of it), [HostTimerHost] (sleep,
      processors and vcpus), [HostTimerProps] (all of it as a transition
      system, under the class [HostClock]).
    - Save and restore, xen/common/hvm/save.c, xen/include/xen/hvm/save.h and
      xen/arch/x86/hvm/save.c: [HvmSave] (records, handlers, the stream),
      [HvmStream] (one record; the class [StreamLaws], what the
      stream asks of the handlers of a table, and the whole stream under it),
      [HvmIrqSave] (the handlers of the 8259s, the IO-APIC, the local APICs and
      the wires),
      [HvmIrqRestore] (what the handlers load), [HvmIrqSaveProps] (they
      fulfil the contract; the round trip); [TimerSave] (the
      handlers of the timer devices), [TimerSaveProps] (their round trip).
    - Swap images, dm/block-swap of the device model: [SimpleTree] (simpletree.c
      and simpletree.h: an index tree in one piece of memory, filled by sorted insertions,
      finished, written to a file and only searched afterwards), [DubTree]
      (dubtree.c: the lookup of blocks in the levels of an image, each an index tree,
      the youngest first), [LruCache] (lrucache.h: the tree of bits that names
      the chunk to close next), [HashTable] (hashtable.c: the table that finds the line of a
      chunk), [ChunkCache] (dubtree.c: taking, returning and freeing
      chunks, over the cache and the map that the table stands for).  Proofs: [SimpleTreeBuild] (what a state of the memory
      represents; allocation and insertion keep it), [SimpleTreeFind] (the
      finished tree, search, iteration), [SimpleTreeProps] (user data and
      images).
    [Prelude] (this file) has the integers, the monad, the rules to reason
    about it and lemmas on lists of bytes; [Machine] what the components use
    of the rest of the hypervisor.

    ** How code is modelled

    A [w]-bit integer is a [Z]; where the code can wrap, the conversion is
    written out ([u8], [u16], [u32], [u64], [s32]).  A function that changes
    state is a computation of the monad [SE]: it returns [Ok], [Err] (a
    negative errno, whatever was changed before stays changed) or [Bug], the
    end of the hypervisor: [BUG], a failed [ASSERT], a null pointer or an
    index outside of an array.  A structure is a [Record], a chain of a hash
    table or a list of the code a list, a table of domains a [gmap].  Memory
    is a function from frames and offsets to bytes; an access to a mapped frame
    that is not within its page is [Bug].

    Code outside of the components is reached through the class [HostEnv]:
    guest memory accesses, the allocator, page mapping and the
    physical-to-machine translation.  Its members take the number of accesses
    made before, so two accesses to the same address may give different
    answers, as they do when another processor runs in between.  [HostEnvOk]
    states what the copy functions are documented to do.

    Loops over data are structural recursion.  Some loops carry fuel: the
    copy loops of the ring ([page_loop], with [page_fuel len] = [len / 4096 +
    2], one round per page the range touches; running out is [Bug], and the
    safety theorems show it does not happen), the loop over the ports of
    [evtchn_destroy] (4097 rounds for 4096 ports), the loop that absorbs
    ranges (the length of the list), the round of [vlapic_lowest_prio] (the
    number of vcpus) and the loop of [hvm_load] (one round for every 8 bytes
    of the buffer, the size of a descriptor; the round trip theorem shows that
    it is enough).  The loops of the soft interrupt of the timers end with an error
    when their fuel is used up ([NOT_ENDED]); [softirq_runs_due_timers] shows that
    one round for every overdue timer and one more is enough.  The loops of the heap
    have a round for every level and cannot run out.  The loops of [gmtime] have fuel for the rounds they make: 44 for
    the periods of 400 years of times before 1970 (a 40-bit time needs no more,
    [before_1970_spec]), one for every 365 days for the years.

    The retries of [rebuild] have fuel, and running out of it is the error [NOT_ENDED]: whether a new
    seed fits depends on the random numbers; an insertion into a free place ends without it.  The search for a
    line without users tries every line once, which [chunk_cache_safe] shows to be enough.

    The recursion of [simpletree_insert_inner] has fuel for the 16 levels, the search one
    round more, the binary search one for every key and one; that they are
    enough is part of the theorems, whose bounds on the number of entries
    follow from the [int] that counts nodes and from the 16 levels.  The widths of the nodes are
    the class [Shape]; [simpletree_shape] has those of the code, for which only the
    number of nodes is a limit ([simpletree_capacity]).

    ** What the theorems show

    - V4V: an insertion writes only within the pages of its ring whatever guests
      and environment do; a ring with its two ends refines a bounded queue of
      messages; refusals, lengths that wrap, the space reported, the
      notification of refused senders; every hypercall keeps the tables well
      formed and none stops the hypervisor while the host's drivers run
      ([env_ui_running]); the hash table is a map; the
      policy of channels and the isolation of a guest's sends; the account of
      page references; registration and destruction.
    - Event channels: allocation of the lowest free port, the life of a host
      channel, closing, the invariant under every operation, destruction.
    - Rangesets: addition is union, removal is difference but for a gap that
      the code fills, the queries decide inclusion and intersection, the
      report visits the intersection; one list for each set.
    - 8259: the request delivered is the one of highest priority, the INT
      lines match the requests after every sequence of operations, no
      [BUG_ON] is reached, the vector returned is the one programmed.
    - Interrupts: in every reachable state the counters of links and GSIs are
      the numbers of asserted sources and do not wrap; a level-triggered
      interrupt is delivered when its pin is asserted or unmasked, and an end
      of interrupt redelivers what is still asserted; a fixed-mode interrupt reaches exactly the vcpus that
      match its destination; an inter-processor interrupt reaches exactly the
      vcpus it names, in lowest-priority mode the one with the lowest
      priority; redirection entries read back.
    - Timers: every operation whose periods and interrupts are in range
      ([vop_ok]) keeps the lists of timers and does not stop the
      hypervisor; the guest's time increases whatever the host's clock does;
      missed ticks are accounted exactly, and in the replaying mode the guest
      gets one tick per period; the timer due first interrupts; what a mask
      suspends is resumed.
    - Timer devices: no access to the PIT, the PM timer or the HPET fails, from
      their start on and whatever else happens to the timers, for a guest that
      keeps the HPET's interrupts and periods in range ([polite], whose need
      two runs show); every enabled comparator has its timer; the registers stay well
      formed; the PM timer is exact in the scale of the code, whose distance from
      3.579545 MHz is bounded; a latched count reads back; the HPET's
      counter stops and goes on; its comparators are the next tick.
    - The clock: [gmtime] is the Gregorian calendar and [mktime] its inverse; the
      registers show the local time in every mode; the alarm is set to the next
      time that matches, but for ends of hours and minutes that are named; a
      source that is pending and enabled raises IRQ 8.
    - Timers of the hypervisor: in every reachable state each timer is in the
      structure its status says, the heaps are ordered and the lists sorted, and no
      call stops the hypervisor, nor does a soft interrupt of processor 0 or of a
      vcpu; every timer that is set has a soft interrupt
      pending or a deadline for which the host was asked in time, and none runs
      early; such a soft interrupt ends and runs what is due, once and in order; sleep
      of the host keeps the time that is left.
    - Save and restore: a buffer of the size [hvm_save_size] is enough, and a
      restored domain has the controllers, local APICs, wires, routes and counters of the
      saved one, with the timers of the local APICs running, and satisfies the
      invariant of the interrupt hardware; the timer
      devices are restored too, with the time of the domain they are loaded into.
    - Swap images: an image reads back as the entries and the user data that
      were written, search finds the first entry that is not below the key, the
      lookup takes every block from the youngest level that has it, and the cache
      evicts each line once in a round, one that was touched last; the hash table is a map;
      the file of a chunk is open as long as somebody uses it (and until its line is needed), no
      file is lost or closed twice and none is removed under its users.

    ** Not modelled

    Locks, reference counts of domains, printing, XSM and debugging aids.
    Concurrency appears only through the environment, whose answers are
    arbitrary; operations of one component are atomic, as their locks make
    them.  The account of references leaves frame 0 out, which
    [v4v_ring_remove_mfns] takes for an empty entry.  The remaining components of the
    hypervisor (memory management, the scheduler, VMX and SVM), the rest of the device
    model, the drivers and the tools are not modelled.  Of the swap images the merge of levels and the
    reads and writes of chunks are left out; memory is taken to be there.  In [VlapicRegs] the
    periodic timer that a local APIC creates and destroys is an event of the log,
    as are the pausing and the reset of vcpus; [Vpt] has the timers themselves.
    The host's clock is a function from the number of reads made before to a
    time, without any assumption unless a theorem states one.  Of the save stream the handlers of
    the other devices and [hvm_save_one] are missing.  The reset of the timer devices is a definition that no operation of
    [TimerSystem] runs: the suspension that calls it is not built for uXen.
    The functions of the hypervisor's timers are an argument of [HostTimer], the
    calls they make in a state; that no other call comes between
    [suspend_timers] and [resume_timers] is part of the step of a sleep.  The event
    that tells a processor of a soft interrupt, and the other soft interrupts, are
    left out; so are the dump of the queues and the count of suspended timers. *)

From stdpp Require Import base list numbers gmap.
From Stdlib Require Import ZArith Lia.

Open Scope Z_scope.

(** ** Machine integers

    A [w]-bit C integer is a [Z]; the wrap-around of the C conversions is
    written out with these functions. *)

Definition u8 (x : Z) : Z := x mod 2 ^ 8.
Definition u16 (x : Z) : Z := x mod 2 ^ 16.
Definition u32 (x : Z) : Z := x mod 2 ^ 32.
Definition u64 (x : Z) : Z := x mod 2 ^ 64.
(** Two's complement reading of the low 32 bits: conversion to [int]. *)
Definition s32 (x : Z) : Z := (x + 2 ^ 31) mod 2 ^ 32 - 2 ^ 31.
(** Conversion of an [int] to the 64-bit [size_t]. *)
Definition size_of_int (x : Z) : Z := u64 x.

(** [lia] with the equations of quotients and remainders. *)
Ltac zlia := Z.div_mod_to_equations; lia.

(** ** Results, and a state monad with errors

    A C function that returns [0] or [-errno] is a computation whose result
    is [Ok] or [Err (- errno)]; whatever it changed before failing stays
    changed.  [Bug] is the end of the hypervisor: [BUG()], a failed [ASSERT]
    or a dereference of a null pointer. *)

Inductive res (A : Type) : Type :=
| Ok (a : A)
| Err (e : Z)
| Bug.
Arguments Ok {A} a.
Arguments Err {A} e.
Arguments Bug {A}.

Definition SE (S A : Type) : Type := S -> S * res A.

Section Monad.
Context {S : Type}.

Definition ret {A} (a : A) : SE S A := fun s => (s, Ok a).
Definition fail {A} (e : Z) : SE S A := fun s => (s, Err e).
Definition bug {A} : SE S A := fun s => (s, Bug).
Definition bind {A B} (m : SE S A) (k : A -> SE S B) : SE S B :=
  fun s => match m s with
           | (s', Ok a) => k a s'
           | (s', Err e) => (s', Err e)
           | (s', Bug) => (s', Bug)
           end.
Definition get : SE S S := fun s => (s, Ok s).
Definition gets {A} (f : S -> A) : SE S A := fun s => (s, Ok (f s)).
Definition modify (f : S -> S) : SE S unit := fun s => (f s, Ok tt).
Definition when (b : bool) (m : SE S unit) : SE S unit :=
  if b then m else ret tt.
(** [if (b) return e;] *)
Definition fail_if (b : bool) (e : Z) : SE S unit :=
  if b then fail e else ret tt.
(** [BUG_ON(b)] *)
Definition bug_if (b : bool) : SE S unit := if b then bug else ret tt.
(** [ret = m();] the code of a computation as a value, [0] for success. *)
Definition code (m : SE S unit) : SE S Z :=
  fun s => match m s with
           | (s', Ok _) => (s', Ok 0)
           | (s', Err e) => (s', Ok e)
           | (s', Bug) => (s', Bug)
           end.
(** The value [h e] in place of the failure [e]. *)
Definition recover {A} (m : SE S A) (h : Z -> A) : SE S A :=
  fun s => match m s with
           | (s', Ok a) => (s', Ok a)
           | (s', Err e) => (s', Ok (h e))
           | (s', Bug) => (s', Bug)
           end.
(** Continue with [h e] after the failure [e]. *)
Definition catch {A} (m : SE S A) (h : Z -> SE S A) : SE S A :=
  fun s => match m s with
           | (s', Ok a) => (s', Ok a)
           | (s', Err e) => h e s'
           | (s', Bug) => (s', Bug)
           end.
End Monad.

(** A computation on a part of the state. *)
Definition zoom {S T A} (get_part : S -> T) (set_part : T -> S -> S)
    (m : SE T A) : SE S A :=
  fun s => let '(t, r) := m (get_part s) in (set_part t s, r).

Declare Scope se_scope.
Delimit Scope se_scope with se.
Notation "x <- m ;; k" := (bind m (fun x => k))
  (at level 100, m at next level, k at level 200, right associativity)
  : se_scope.
Notation "m ;; k" := (bind m (fun _ => k))
  (at level 100, k at level 200, right associativity) : se_scope.

(** What a run of a computation preserves and ensures. *)
Definition preserves {S A} (I : S -> Prop) (m : SE S A) : Prop :=
  forall s, I s -> I (fst (m s)).

(** ** Bytes, little-endian fields, slices *)

Fixpoint le_bytes (n : nat) (z : Z) : list Z :=
  match n with
  | O => []
  | S n => z mod 256 :: le_bytes n (z / 256)
  end.

Fixpoint le_val (l : list Z) : Z :=
  match l with
  | [] => 0
  | b :: l => b + 256 * le_val l
  end.

(** The [n] bytes of [l] at offset [off]. *)
Definition slice (off n : Z) (l : list Z) : list Z :=
  take (Z.to_nat n) (drop (Z.to_nat off) l).

(** The integer field of [n] bytes at offset [off] of a structure. *)
Definition field (off n : Z) (l : list Z) : Z := le_val (slice off n l).

Definition znth (l : list Z) (i : Z) : Z := default 0 (l !! Z.to_nat i).

Definition zlen {A} (l : list A) : Z := Z.of_nat (length l).

(** ** Reasoning about computations

    [safe I R m]: from a state where [I] holds, [m] does not end in [Bug],
    keeps [I] and changes the state only as [R] allows.  [sat s m Q] is the
    functional form: what [m] does from the state [s]. *)

Definition safe {S A} (I : S -> Prop) (R : S -> S -> Prop) (m : SE S A)
  : Prop :=
  forall s, I s -> I (fst (m s)) /\ R s (fst (m s)) /\ snd (m s) <> Bug.

Definition sat {S A} (s : S) (m : SE S A) (Q : S -> res A -> Prop) : Prop :=
  Q (fst (m s)) (snd (m s)).

Section Rules.
Context {S : Type}.
Implicit Types (I : S -> Prop) (R : S -> S -> Prop).

Lemma sat_ret {A} s (a : A) (Q : S -> res A -> Prop) :
  Q s (Ok a) -> sat s (ret a) Q.
Proof. done. Qed.

Lemma sat_bind {A B} s (m : SE S A) (k : A -> SE S B) Q :
  sat s m (fun s' r => match r with
                       | Ok a => sat s' (k a) Q
                       | Err e => Q s' (Err e)
                       | Bug => Q s' Bug
                       end) ->
  sat s (bind m k) Q.
Proof. unfold sat, bind. destruct (m s) as [s' []]; done. Qed.

Lemma sat_weaken {A} s (m : SE S A) (Q Q' : S -> res A -> Prop) :
  sat s m Q -> (forall s' r, Q s' r -> Q' s' r) -> sat s m Q'.
Proof. unfold sat. eauto. Qed.

Context (I : S -> Prop) (R : S -> S -> Prop).
Context `{HR : !PreOrder R}.

Lemma safe_ret {A} (a : A) : safe I R (ret a).
Proof. intros s Hs. simpl. repeat split; [done|reflexivity|done]. Qed.
Lemma safe_fail {A} e : safe I R (fail (A := A) e).
Proof. intros s Hs. simpl. repeat split; [done|reflexivity|done]. Qed.
Lemma safe_gets {A} (f : S -> A) : safe I R (gets f).
Proof. intros s Hs. simpl. repeat split; [done|reflexivity|done]. Qed.
Lemma safe_get : safe I R get.
Proof. intros s Hs. simpl. repeat split; [done|reflexivity|done]. Qed.
Lemma safe_fail_if b e : safe I R (fail_if b e).
Proof. destruct b; [apply safe_fail|apply safe_ret]. Qed.

Lemma safe_bind {A B} (m : SE S A) (k : A -> SE S B) :
  safe I R m -> (forall a, safe I R (k a)) -> safe I R (bind m k).
Proof.
  intros Hm Hk s Hs. destruct (Hm s Hs) as (H1 & H2 & H3).
  unfold bind. destruct (m s) as [s' [a|e|]]; simpl in *; [|done..].
  destruct (Hk a s' H1) as (H4 & H5 & H6).
  repeat split; [done|by etrans|done].
Qed.

(** The continuation may use what the first part ensures of the state. *)
Lemma safe_bind_post {A B} (P : A -> S -> Prop) (m : SE S A)
    (k : A -> SE S B) :
  safe I R m ->
  (forall s a s', I s -> m s = (s', Ok a) -> P a s') ->
  (forall a, safe (fun s => I s /\ P a s) R (k a)) ->
  safe I R (bind m k).
Proof.
  intros Hm HP Hk s Hs. destruct (Hm s Hs) as (H1 & H2 & H3).
  unfold bind. destruct (m s) as [s' [a|e|]] eqn:Em; simpl in *; [|done..].
  destruct (Hk a s' (conj H1 (HP _ _ _ Hs Em))) as ((H4 & _) & H5 & H6).
  repeat split; [done|by etrans|done].
Qed.

(** A fact that does not depend on the state. *)
Lemma safe_pure {A} (P : Prop) (m : SE S A) :
  (P -> safe I R m) -> safe (fun s => I s /\ P) R m.
Proof. intros Hm s (Hs & HP). destruct (Hm HP s Hs) as (? & ? & ?). done. Qed.

Lemma safe_code (m : SE S unit) : safe I R m -> safe I R (code m).
Proof.
  intros Hm s Hs. destruct (Hm s Hs) as (H1 & H2 & H3).
  unfold code. destruct (m s) as [s' []]; done.
Qed.

Lemma safe_recover {A} (m : SE S A) h : safe I R m -> safe I R (recover m h).
Proof.
  intros Hm s Hs. destruct (Hm s Hs) as (H1 & H2 & H3).
  unfold recover. destruct (m s) as [s' []]; done.
Qed.

Lemma safe_catch {A} (m : SE S A) h :
  safe I R m -> (forall e, safe I R (h e)) -> safe I R (catch m h).
Proof.
  intros Hm Hh s Hs. destruct (Hm s Hs) as (H1 & H2 & H3).
  unfold catch. destruct (m s) as [s' [a|e|]]; simpl in *; [done| |done].
  destruct (Hh e s' H1) as (H4 & H5 & H6).
  repeat split; [done|by etrans|done].
Qed.

Lemma safe_modify f :
  (forall s, I s -> I (f s) /\ R s (f s)) -> safe I R (modify f).
Proof. intros Hf s Hs. simpl. destruct (Hf s Hs). done. Qed.

Lemma safe_when b m : safe I R m -> safe I R (when b m).
Proof. destruct b; [done|]. intros _. apply safe_ret. Qed.
End Rules.

(** Invariants whatever the result: the rules for [preserves]. *)
Section Preserves.
Context {S : Type} (I : S -> Prop).

Lemma preserves_ret {A} (a : A) : preserves I (ret a).
Proof. by intros s Hs. Qed.
Lemma preserves_fail {A} e : preserves I (fail (A := A) e).
Proof. by intros s Hs. Qed.
Lemma preserves_bug {A} : preserves I (bug (A := A)).
Proof. by intros s Hs. Qed.
Lemma preserves_gets {A} (f : S -> A) : preserves I (gets f).
Proof. by intros s Hs. Qed.
Lemma preserves_get : preserves I get.
Proof. by intros s Hs. Qed.
Lemma preserves_fail_if b e : preserves I (fail_if b e).
Proof. by destruct b; intros s Hs. Qed.
Lemma preserves_bug_if b : preserves I (bug_if b).
Proof. by destruct b; intros s Hs. Qed.
Lemma preserves_when b m : preserves I m -> preserves I (when b m).
Proof. destruct b; [done|]. by intros _ s Hs. Qed.

Lemma preserves_bind {A B} (m : SE S A) (k : A -> SE S B) :
  preserves I m -> (forall a, preserves I (k a)) -> preserves I (bind m k).
Proof.
  intros Hm Hk s Hs. specialize (Hm s Hs). unfold bind.
  destruct (m s) as [s' []]; simpl in *; [by apply Hk|done..].
Qed.

(** The continuation may use the state it starts from. *)
Lemma preserves_bind_get {B} (k : S -> SE S B) :
  (forall s, I s -> I (fst (k s s))) -> preserves I (bind get k).
Proof. intros Hk s Hs. by apply Hk. Qed.
Lemma preserves_bind_gets {A B} (f : S -> A) (k : A -> SE S B) :
  (forall s, I s -> I (fst (k (f s) s))) -> preserves I (bind (gets f) k).
Proof. intros Hk s Hs. by apply Hk. Qed.

Lemma preserves_bind_gets_with {A B} (f : S -> A) (k : A -> SE S B) :
  (forall s, I s -> preserves I (k (f s))) -> preserves I (bind (gets f) k).
Proof. intros Hk s Hs. by apply (Hk s). Qed.
Lemma preserves_bind_get_with {B} (k : S -> SE S B) :
  (forall s, I s -> preserves I (k s)) -> preserves I (bind get k).
Proof. intros Hk s Hs. by apply (Hk s). Qed.

Lemma preserves_modify f : (forall s, I s -> I (f s)) -> preserves I (modify f).
Proof. intros Hf s Hs. by apply Hf. Qed.
Lemma preserves_code m : preserves I m -> preserves I (code m).
Proof.
  intros Hm s Hs. specialize (Hm s Hs). unfold code. by destruct (m s) as [? []].
Qed.
Lemma preserves_recover {A} (m : SE S A) h :
  preserves I m -> preserves I (recover m h).
Proof.
  intros Hm s Hs. specialize (Hm s Hs). unfold recover.
  by destruct (m s) as [? []].
Qed.
Lemma preserves_catch {A} (m : SE S A) h :
  preserves I m -> (forall e, preserves I (h e)) -> preserves I (catch m h).
Proof.
  intros Hm Hh s Hs. specialize (Hm s Hs). unfold catch.
  destruct (m s) as [? []]; simpl in *; [done|by apply Hh|done].
Qed.

(** What [safe] shows of an invariant. *)
Lemma safe_preserves {A} R (m : SE S A) : safe I R m -> preserves I m.
Proof. intros Hm s Hs. apply Hm, Hs. Qed.
End Preserves.

(** ** Total correctness

    [wp m Q s]: from the state [s] the computation succeeds, with a result and
    a state that satisfy [Q]. *)
Definition wp {S A} (m : SE S A) (Q : A -> S -> Prop) (s : S) : Prop :=
  match m s with (s', Ok a) => Q a s' | _ => False end.

Section Wp.
Context {S : Type}.

Lemma wp_ret {A} (a : A) (Q : A -> S -> Prop) s : Q a s -> wp (ret a) Q s.
Proof. done. Qed.
Lemma wp_bind {A B} (m : SE S A) (k : A -> SE S B) Q s :
  wp m (fun a => wp (k a) Q) s -> wp (bind m k) Q s.
Proof. unfold wp, bind. by destruct (m s) as [s' []]. Qed.
(** A step of two parts, before the rest. *)
Lemma wp_bind_bind {A B C} (m : SE S A) (k : A -> SE S B) (r : B -> SE S C) Q s :
  wp (bind m k) (fun b => wp (r b) Q) s -> wp (bind m (fun a => bind (k a) r)) Q s.
Proof.
  unfold wp, bind. destruct (m s) as [s' [a| |]]; [|done|done].
  by destruct (k a s') as [s'' []].
Qed.
Lemma wp_mono {A} (m : SE S A) (Q Q' : A -> S -> Prop) s :
  wp m Q s -> (forall a s', Q a s' -> Q' a s') -> wp m Q' s.
Proof. unfold wp. destruct (m s) as [s' []]; eauto. Qed.
Lemma wp_get (Q : S -> S -> Prop) s : Q s s -> wp get Q s.
Proof. done. Qed.
Lemma wp_gets {A} (f : S -> A) (Q : A -> S -> Prop) s : Q (f s) s -> wp (gets f) Q s.
Proof. done. Qed.
Lemma wp_modify f (Q : unit -> S -> Prop) s : Q tt (f s) -> wp (modify f) Q s.
Proof. done. Qed.
Lemma wp_bug_if b (Q : unit -> S -> Prop) s : b = false -> Q tt s -> wp (bug_if b) Q s.
Proof. by intros ->. Qed.
Lemma wp_fail_if b e (Q : unit -> S -> Prop) s : b = false -> Q tt s -> wp (fail_if b e) Q s.
Proof. by intros ->. Qed.
Lemma wp_when b m (Q : unit -> S -> Prop) s :
  (b = true -> wp m Q s) -> (b = false -> Q tt s) -> wp (when b m) Q s.
Proof. intros H1 H2. destruct b; [by apply H1|by apply H2]. Qed.
Lemma wp_eq {A} (m : SE S A) (Q : A -> S -> Prop) s s' a :
  m s = (s', Ok a) -> Q a s' -> wp m Q s.
Proof. unfold wp. by intros ->. Qed.
Lemma wp_inv {A} (m : SE S A) (Q : A -> S -> Prop) s :
  wp m Q s -> exists s' a, m s = (s', Ok a) /\ Q a s'.
Proof. unfold wp. destruct (m s) as [s' [a| |]]; [eauto|done|done]. Qed.
Lemma wp_run (m : SE S unit) s s' : wp m (fun _ x => x = s') s -> m s = (s', Ok tt).
Proof. unfold wp. destruct (m s) as [x [[]| |]]; [by intros ->|done|done]. Qed.
Lemma wp_zoom {T A} (gp : S -> T) sp (m : SE T A) (Q : A -> S -> Prop) s :
  wp m (fun a t => Q a (sp t s)) (gp s) -> wp (zoom gp sp m) Q s.
Proof. unfold wp, zoom. by destruct (m (gp s)) as [t []]. Qed.
End Wp.

(** One step of a computation whose first part is a primitive of the monad. *)
Ltac wp_step :=
  lazymatch goal with
  | |- wp (bind _ _) _ _ => apply wp_bind; wp_step
  | |- wp (ret _) _ _ => apply wp_ret
  | |- wp get _ _ => apply wp_get
  | |- wp (gets _) _ _ => apply wp_gets
  | |- wp (modify _) _ _ => apply wp_modify
  | |- _ => idtac
  end.


Create HintDb keep discriminated.
#[export] Hint Resolve preserves_ret preserves_fail preserves_bug
  preserves_gets preserves_get preserves_fail_if preserves_bug_if
  preserves_when preserves_code preserves_recover : keep.
Ltac se_keep :=
  repeat first
    [ progress intros
    | solve [auto with keep]
    | match goal with
      | |- preserves _ (bind _ _) => apply preserves_bind
      | |- preserves _ (catch _ _) => apply preserves_catch
      | |- preserves _ (when _ _) => apply preserves_when
      | |- preserves _ (code _) => apply preserves_code
      | |- preserves _ (recover _ _) => apply preserves_recover
      | |- preserves _ (let '(_, _) := ?x in _) => destruct x
      | |- preserves _ (if ?b then _ else _) => destruct b eqn:?
      | |- preserves _ (match ?x with _ => _ end) => destruct x eqn:?
      end ].

Create HintDb se discriminated.
#[export] Hint Resolve safe_ret safe_fail safe_gets safe_get safe_fail_if
  safe_code safe_recover safe_when : se.
(** Take a computation apart into the operations it is made of. *)
Ltac se_safe :=
  repeat first
    [ progress intros
    | solve [auto with se typeclass_instances]
    | match goal with
      | |- safe _ _ (bind _ _) => apply safe_bind
      | |- safe _ _ (let '(_, _) := ?x in _) => destruct x
      | |- safe _ _ (if ?b then _ else _) => destruct b eqn:?
      | |- safe _ _ (match ?x with _ => _ end) => destruct x eqn:?
      end ].

(** Pre- and postconditions: from [P], [m] does not end in [Bug], establishes
    [Q] when it returns a value and [X] when it fails. *)
Definition triple {S A} (P : S -> Prop) (m : SE S A) (Q : A -> S -> Prop)
    (X : S -> Prop) : Prop :=
  forall s, P s -> match m s with
                   | (s', Ok a) => Q a s'
                   | (s', Err _) => X s'
                   | (_, Bug) => False
                   end.

Section Triples.
Context {S : Type}.
Implicit Types (P X : S -> Prop).

Lemma triple_ret {A} (a : A) P Q X : (forall s, P s -> Q a s) -> triple P (ret a) Q X.
Proof. intros H s Hs. by apply H. Qed.
Lemma triple_fail {A} e P (Q : A -> S -> Prop) X :
  (forall s, P s -> X s) -> triple P (fail e) Q X.
Proof. intros H s Hs. by apply H. Qed.
Lemma triple_fail_if b e P X :
  (forall s, P s -> X s) -> triple P (fail_if b e) (fun _ s => P s /\ b = false) X.
Proof. intros H s Hs. destruct b; [by apply H|done]. Qed.
Lemma triple_bind {A B} (m : SE S A) (k : A -> SE S B) P R Q X :
  triple P m R X -> (forall a, triple (R a) (k a) Q X) -> triple P (bind m k) Q X.
Proof.
  intros Hm Hk s Hs. specialize (Hm s Hs). unfold bind.
  destruct (m s) as [s' []]; [by apply Hk|done..].
Qed.
Lemma triple_bind_assoc {A B C} (m : SE S A) (k : A -> SE S B) (k' : B -> SE S C)
    P Q X :
  triple P (bind (bind m k) k') Q X -> triple P (bind m (fun a => bind (k a) k')) Q X.
Proof.
  intros H s Hs. specialize (H s Hs). revert H. unfold bind.
  by destruct (m s) as [s' []].
Qed.
(** The continuation may use the state it starts from. *)
Lemma triple_bind_gets {A B} (f : S -> A) (k : A -> SE S B) P Q X :
  (forall s, P s -> triple (eq s) (k (f s)) Q X) -> triple P (bind (gets f) k) Q X.
Proof. intros Hk s Hs. by apply (Hk s). Qed.
Lemma triple_bind_get {B} (k : S -> SE S B) P Q X :
  (forall s, P s -> triple (eq s) (k s) Q X) -> triple P (bind get k) Q X.
Proof. intros Hk s Hs. by apply (Hk s). Qed.
Lemma triple_pre {A} (m : SE S A) P P' Q X :
  (forall s, P s -> P' s) -> triple P' m Q X -> triple P m Q X.
Proof. intros HP Hm s Hs. by apply Hm, HP. Qed.
Lemma triple_post {A} (m : SE S A) P (Q Q' : A -> S -> Prop) X :
  triple P m Q' X -> (forall a s, Q' a s -> Q a s) -> triple P m Q X.
Proof.
  intros Hm HQ s Hs. specialize (Hm s Hs). destruct (m s) as [s' []]; auto.
Qed.
Lemma triple_strengthen_err {A} (m : SE S A) P Q (X X' : S -> Prop) :
  triple P m Q X' -> (forall s, X' s -> X s) -> triple P m Q X.
Proof.
  intros Hm HX s Hs. specialize (Hm s Hs). destruct (m s) as [s' []]; auto.
Qed.
(** A second property the computation keeps on the way. *)
Lemma triple_and {A} (m : SE S A) P Q X (B : S -> Prop) :
  triple P m Q X -> (forall s, P s -> B s -> B (fst (m s))) ->
  triple (fun s => P s /\ B s) m (fun a s => Q a s /\ B s) (fun s => X s /\ B s).
Proof.
  intros Hm HB s [Hs Hb]. specialize (Hm s Hs). specialize (HB s Hs Hb).
  by destruct (m s) as [s' []].
Qed.
Lemma triple_pure {A} (m : SE S A) (F : Prop) P Q X :
  (F -> triple P m Q X) -> triple (fun s => P s /\ F) m Q X.
Proof. intros Hm s [Hs HF]. by apply Hm. Qed.
Lemma triple_modify f P (Q : unit -> S -> Prop) X :
  (forall s, P s -> Q tt (f s)) -> triple P (modify f) Q X.
Proof. intros H s Hs. by apply H. Qed.
Lemma triple_bug_if b P X :
  (forall s, P s -> b = false) -> triple P (bug_if b) (fun _ => P) X.
Proof. intros H s Hs. rewrite (H s Hs). done. Qed.
Lemma triple_when b m P X :
  triple P m (fun _ => P) X -> triple P (when b m) (fun _ => P) X.
Proof. destruct b; [done|]. intros _. by apply triple_ret. Qed.
Lemma triple_code m P (Q : S -> Prop) X :
  triple P m (fun _ => Q) Q -> triple P (code m) (fun _ => Q) X.
Proof.
  intros Hm s Hs. specialize (Hm s Hs). unfold code. by destruct (m s) as [s' []].
Qed.
Lemma triple_catch {A} (m : SE S A) h P Q R X :
  triple P m Q R -> (forall e, triple R (h e) Q X) -> triple P (catch m h) Q X.
Proof.
  intros Hm Hh s Hs. specialize (Hm s Hs). unfold catch.
  destruct (m s) as [s' []]; [done|by apply Hh|done].
Qed.
Lemma safe_triple {A} I R (m : SE S A) : safe I R m -> triple I m (fun _ => I) I.
Proof.
  intros Hm s Hs. destruct (Hm s Hs) as (H1 & _ & H3).
  by destruct (m s) as [s' []].
Qed.
(** An invariant, and no [Bug]. *)
Lemma triple_inv {A} I (m : SE S A) :
  preserves I m -> (forall s, I s -> snd (m s) <> Bug) ->
  triple I m (fun _ => I) I.
Proof.
  intros Hm Hb s Hs. specialize (Hm s Hs). specialize (Hb s Hs).
  by destruct (m s) as [s' []].
Qed.
End Triples.

Lemma triple_sound_at {S A} (P I : S -> Prop) (m : SE S A) s :
  triple P m (fun _ => I) I -> P s -> I (fst (m s)) /\ snd (m s) <> Bug.
Proof. intros Hm Hs. specialize (Hm s Hs). by destruct (m s) as [? []]. Qed.

(** Every failure of [m] has a code in [P]. *)
Definition errors {S A} (P : Z -> Prop) (m : SE S A) : Prop :=
  forall s, match snd (m s) with Err e => P e | _ => True end.

Section Errors.
Context {S : Type} (P : Z -> Prop).
Lemma errors_ret {A} (a : A) : errors P (ret (S := S) a).
Proof. done. Qed.
Lemma errors_get : errors P (get (S := S)).
Proof. done. Qed.
Lemma errors_gets {A} (f : S -> A) : errors P (gets f).
Proof. done. Qed.
Lemma errors_modify (f : S -> S) : errors P (modify f).
Proof. done. Qed.
Lemma errors_bug {A} : errors P (bug (S := S) (A := A)).
Proof. done. Qed.
Lemma errors_fail {A} e : P e -> errors P (fail (S := S) (A := A) e).
Proof. by intros He s. Qed.
Lemma errors_fail_if b e : P e -> errors P (fail_if (S := S) b e).
Proof. by destruct b; intros He s. Qed.
Lemma errors_bug_if b : errors P (bug_if (S := S) b).
Proof. by destruct b. Qed.
Lemma errors_bind {A B} (m : SE S A) (k : A -> SE S B) :
  errors P m -> (forall a, errors P (k a)) -> errors P (bind m k).
Proof.
  intros Hm Hk s. specialize (Hm s). unfold bind.
  destruct (m s) as [s' []]; [by apply Hk|done..].
Qed.
Lemma errors_zoom {T A} (g : S -> T) (f : T -> S -> S) (m : SE T A) :
  errors P m -> errors P (zoom g f m).
Proof.
  intros Hm s. specialize (Hm (g s)). unfold zoom. by destruct (m (g s)) as [? []].
Qed.
End Errors.

Create HintDb errs discriminated.
#[export] Hint Resolve errors_ret errors_get errors_gets errors_modify errors_bug errors_bug_if
  errors_fail errors_fail_if errors_zoom : errs.
Ltac se_errors :=
  repeat first
    [ progress intros
    | solve [auto with errs]
    | match goal with
      | |- errors _ (bind _ _) => apply errors_bind
      | |- errors _ (if ?b then _ else _) => destruct b eqn:?
      | |- errors _ (match ?x with _ => _ end) => destruct x eqn:?
      end ].

(** [sound I m]: [m] keeps [I] and does not end in [Bug]. *)
Definition any {S : Type} (_ _ : S) : Prop := True.
#[export] Instance any_preorder {S} : PreOrder (@any S).
Proof. by split. Qed.
Abbreviation sound I m := (safe I any m).

Lemma sound_triple {S A} (I : S -> Prop) (m : SE S A) :
  triple I m (fun _ => I) I <-> sound I m.
Proof.
  split; [|apply safe_triple]. intros Hm s Hs. specialize (Hm s Hs).
  by destruct (m s) as [s' []].
Qed.
Lemma sound_bind_gets {S A B} (I : S -> Prop) (f : S -> A) (k : A -> SE S B) :
  (forall s, I s -> sound I (k (f s))) -> sound I (bind (gets f) k).
Proof. intros Hk s Hs. by apply (Hk s). Qed.
Lemma sound_modify {S} (I : S -> Prop) f :
  (forall s, I s -> I (f s)) -> sound I (modify f).
Proof. intros Hf. apply safe_modify. intros s Hs. split; [by apply Hf|done]. Qed.
Lemma sound_zoom {S T A} (g : S -> T) (f : T -> S -> S) (m : SE T A)
    (I : S -> Prop) :
  (forall t s, I s -> I (f t s)) -> sound (fun _ => True) m -> sound I (zoom g f m).
Proof.
  intros HI Hm s Hs. unfold zoom. destruct (Hm (g s) Logic.I) as (_ & _ & Hb).
  destruct (m (g s)) as [t r]; simpl in *. split; [by apply HI|done].
Qed.

(** A computation on a part of the state, and what it does not touch. *)
Lemma triple_zoom {S T A} (g : S -> T) (f : T -> S -> S) (m : SE T A)
    (P : T -> Prop) (F : S -> Prop) (Q : A -> T -> Prop) (X : T -> Prop) :
  (forall t s, g (f t s) = t) -> (forall t s, F s -> F (f t s)) ->
  triple P m Q X ->
  triple (fun s => P (g s) /\ F s) (zoom g f m) (fun a s => Q a (g s) /\ F s)
    (fun s => X (g s) /\ F s).
Proof.
  intros Hg HF Hm s [Hs HFs]. specialize (Hm _ Hs). unfold zoom.
  destruct (m (g s)) as [t []]; [|split..|done]; rewrite ?Hg; auto.
Qed.

(** ** Lists indexed by [Z] *)

Lemma zlen_nonneg {A} (l : list A) : 0 <= zlen l.
Proof. unfold zlen. lia. Qed.

Lemma zlen_app {A} (l1 l2 : list A) : zlen (l1 ++ l2) = zlen l1 + zlen l2.
Proof. unfold zlen. rewrite length_app. lia. Qed.

Lemma zlen_take (n : Z) {A} (l : list A) :
  0 <= n <= zlen l -> zlen (take (Z.to_nat n) l) = n.
Proof. unfold zlen. rewrite length_take. lia. Qed.

Lemma zlen_drop (n : Z) {A} (l : list A) :
  0 <= n <= zlen l -> zlen (drop (Z.to_nat n) l) = zlen l - n.
Proof. unfold zlen. rewrite length_drop. lia. Qed.


Lemma znth_app l1 l2 i : 0 <= i ->
  znth (l1 ++ l2) i =
  if i <? zlen l1 then znth l1 i else znth l2 (i - zlen l1).
Proof.
  intros Hi. unfold znth, zlen. destruct (Z.ltb_spec i (Z.of_nat (length l1))).
  - rewrite lookup_app_l; [done|lia].
  - rewrite lookup_app_r; [|lia]. do 2 f_equal. lia.
Qed.

Lemma znth_take l n i : 0 <= i < n -> znth (take (Z.to_nat n) l) i = znth l i.
Proof. intros H. unfold znth. rewrite lookup_take_lt; [done|lia]. Qed.

Lemma znth_drop l n i : 0 <= n -> 0 <= i ->
  znth (drop (Z.to_nat n) l) i = znth l (n + i).
Proof. intros. unfold znth. rewrite lookup_drop. do 2 f_equal. lia. Qed.

Lemma zlist_eq l1 l2 :
  zlen l1 = zlen l2 ->
  (forall i, 0 <= i < zlen l1 -> znth l1 i = znth l2 i) -> l1 = l2.
Proof.
  unfold zlen, znth. intros Hlen H.
  apply list_eq_same_length with (n := length l1); [lia|done|].
  intros i x y Hi Hx Hy. specialize (H (Z.of_nat i)).
  rewrite Nat2Z.id, Hx, Hy in H. apply H. lia.
Qed.

(** The bytes [f a, f (a + 1), ...]. *)
Definition tabulate (f : Z -> Z) (a n : Z) : list Z :=
  map (fun j => f (a + j)) (seqZ 0 n).

Lemma zlen_tabulate f a n : 0 <= n -> zlen (tabulate f a n) = n.
Proof. intros. unfold zlen, tabulate. rewrite length_map, length_seqZ. lia. Qed.

Lemma znth_tabulate f a n i : 0 <= i < n -> znth (tabulate f a n) i = f (a + i).
Proof.
  intros Hi. unfold znth, tabulate. rewrite list_lookup_fmap.
  rewrite lookup_seqZ_lt by lia. simpl. f_equal. lia.
Qed.

Lemma tabulate_split f a n m : 0 <= m <= n ->
  tabulate f a n = tabulate f a m ++ tabulate f (a + m) (n - m).
Proof.
  intros H. apply zlist_eq.
  - rewrite zlen_app, !zlen_tabulate by lia. lia.
  - rewrite zlen_tabulate by lia. intros i Hi.
    rewrite znth_app, zlen_tabulate by lia.
    destruct (Z.ltb_spec i m); rewrite !znth_tabulate by lia; f_equal; lia.
Qed.

Lemma slice_tabulate f a n off k : 0 <= off -> 0 <= k -> off + k <= n ->
  slice off k (tabulate f a n) = tabulate f (a + off) k.
Proof.
  intros. unfold slice.
  assert (zlen (drop (Z.to_nat off) (tabulate f a n)) = n - off)
    by (rewrite zlen_drop; rewrite zlen_tabulate; lia).
  apply zlist_eq.
  - rewrite zlen_take, zlen_tabulate; lia.
  - rewrite zlen_take by lia. intros i Hi.
    rewrite znth_take, znth_drop, !znth_tabulate by lia. f_equal. lia.
Qed.

Lemma tabulate_ext f h a b n :
  (forall i, 0 <= i < n -> f (a + i) = h (b + i)) ->
  tabulate f a n = tabulate h b n.
Proof.
  intros H. unfold tabulate. apply list_fmap_ext. intros i x Hx.
  apply lookup_seqZ in Hx. apply H. lia.
Qed.

(** ** Little-endian fields *)

Lemma length_le_bytes n z : length (le_bytes n z) = n.
Proof. revert z. induction n; intros; simpl; auto. Qed.

Lemma zlen_le_bytes n z : zlen (le_bytes n z) = Z.of_nat n.
Proof. unfold zlen. by rewrite length_le_bytes. Qed.

Lemma le_val_bytes n z : le_val (le_bytes n z) = z mod 256 ^ Z.of_nat n.
Proof.
  revert z. induction n as [|n IH]; intros z.
  - simpl. by rewrite Z.mod_1_r.
  - cbn [le_bytes le_val]. rewrite IH, Nat2Z.inj_succ, Z.pow_succ_r by lia.
    rewrite (Z.rem_mul_r z 256) by lia. lia.
Qed.

Lemma le_val_range l : Forall (fun b => 0 <= b < 256) l ->
  0 <= le_val l < 256 ^ zlen l.
Proof.
  unfold zlen. induction 1 as [|b l Hb _ IH]; cbn [le_val length]; [lia|].
  rewrite Nat2Z.inj_succ, Z.pow_succ_r by lia. lia.
Qed.

(** A field of bytes is in the range of its type. *)
Lemma field_range off n l : 0 <= n -> Forall (fun b => 0 <= b < 256) l ->
  0 <= field off n l < 256 ^ n.
Proof.
  intros Hn Hl. unfold field, slice.
  pose proof (le_val_range (take (Z.to_nat n) (drop (Z.to_nat off) l))
    (Forall_take _ _ _ (Forall_drop _ _ _ Hl))) as H.
  assert (zlen (take (Z.to_nat n) (drop (Z.to_nat off) l)) <= n).
  { unfold zlen. rewrite length_take. lia. }
  pose proof (zlen_nonneg (take (Z.to_nat n) (drop (Z.to_nat off) l))).
  split; [lia|]. eapply Z.lt_le_trans; [apply H|]. by apply Z.pow_le_mono_r.
Qed.

Lemma le_bytes_val l : Forall (fun b => 0 <= b < 256) l ->
  le_bytes (length l) (le_val l) = l.
Proof.
  induction 1 as [|b l Hb _ IH]; cbn [le_bytes le_val length]; [done|].
  f_equal.
  - rewrite Z.mul_comm, Z_mod_plus_full. by apply Z.mod_small.
  - rewrite Z.mul_comm, Z.div_add, Z.div_small by lia. apply IH.
Qed.

(** ** Wrap-around *)

Lemma u32_small x : 0 <= x < 2 ^ 32 -> u32 x = x.
Proof. apply Z.mod_small. Qed.
Lemma u64_small x : 0 <= x < 2 ^ 64 -> u64 x = x.
Proof. apply Z.mod_small. Qed.
Lemma u32_range x : 0 <= u32 x < 2 ^ 32.
Proof. apply Z.mod_pos_bound. lia. Qed.
Lemma s32_small x : - 2 ^ 31 <= x < 2 ^ 31 -> s32 x = x.
Proof. intros. unfold s32. rewrite Z.mod_small; lia. Qed.
Lemma s32_range x : - 2 ^ 31 <= s32 x < 2 ^ 31.
Proof. unfold s32. pose proof (Z.mod_pos_bound (x + 2 ^ 31) (2 ^ 32)). lia. Qed.
Lemma size_of_int_small x : 0 <= x < 2 ^ 31 -> size_of_int x = x.
Proof. intros. apply u64_small. lia. Qed.
