(* ===== verification/Machine.v ===== *)
(** * Machine: what the V4V code uses of the rest of the hypervisor

    The frames of machine memory, the references taken on them, the log of
    what leaves the component (interrupts, upcalls, writes to guest memory)
    and the environment: guest memory accesses, the allocator, page mapping
    and the physical-to-machine translation.  The environment is a class
    whose members are arguments of every definition that uses them.  Every
    access is indexed by the number of accesses made before it, so nothing
    is assumed about two accesses to the same address giving the same
    answer: another virtual CPU may run in between. *)

From stdpp Require Import base list numbers gmap.
From Stdlib Require Import ZArith Lia.
From S2P Require Import Prelude.

Open Scope Z_scope.
Open Scope se_scope.

Definition PAGE_SHIFT : Z := 12.
Definition PAGE_SIZE : Z := 4096.

(** Domain ids from this one on are not ids of domains. *)
Definition DOMID_FIRST_RESERVED : Z := 0x7FF0.

(** ** Error codes (xen/include/xen/errno.h) *)

Definition EPERM : Z := 1.
Definition ENOENT : Z := 2.
Definition ESRCH : Z := 3.
Definition EAGAIN : Z := 11.
Definition ENOMEM : Z := 12.
Definition EFAULT : Z := 14.
Definition EEXIST : Z := 17.
Definition ENODEV : Z := 19.
Definition EINVAL : Z := 22.
Definition ENOSPC : Z := 28.
Definition ENOSYS : Z := 40.
Definition EMSGSIZE : Z := 90.
Definition ECONNREFUSED : Z := 111.
Definition ECONTINUATION : Z := 129.
Definition ERETRY : Z := 132.

(** ** The environment *)

Class HostEnv : Type := {
  (** [raw_copy_from_guest_errno]: the bytes copied before the access ended,
      and its result, [0] or [-errno]. *)
  env_guest_read : nat -> Z -> Z -> list Z * Z;
  (** [raw_copy_to_guest_errno]: [0] or [-errno]. *)
  env_guest_write : nat -> Z -> list Z -> Z;
  (** [guest_handle_okay(p, nr)] for elements of the given size. *)
  env_handle_ok : Z -> Z -> Z -> bool;
  (** [xmalloc] gives memory. *)
  env_xmalloc : nat -> bool;
  (** [alloc_xenheap_page] gives a page. *)
  env_alloc_xenheap_page : nat -> bool;
  (** [map_domain_page_global(mfn)] gives a mapping. *)
  env_map_page : nat -> Z -> bool;
  (** [get_gfn_unshare(d, pfn)]. *)
  env_get_gfn_unshare : nat -> Z -> Z -> Z;
  env_mfn_retry : Z -> bool;
  env_mfn_valid : Z -> bool;
  env_mfn_valid_page : Z -> bool;
  (** [get_page(page, d)]. *)
  env_get_page : nat -> Z -> Z -> bool;
  (** [check_free_pages_needed(0)]. *)
  env_free_pages_needed : nat -> bool;
  (** [uxen_info->ui_running], and that [ui_signal_v4v] is set. *)
  env_ui_running : bool;
  env_ui_signal_v4v : bool
}.

(** What the copy functions are documented to do: a successful copy moves
    all the bytes, and a failure is a negative code. *)
Class HostEnvOk (E : HostEnv) : Prop := {
  env_read_ok : forall t a n, 0 <= n ->
    snd (env_guest_read t a n) = 0 -> zlen (fst (env_guest_read t a n)) = n;
  env_read_bound : forall t a n, 0 <= n ->
    zlen (fst (env_guest_read t a n)) <= n;
  env_read_bytes : forall t a n,
    Forall (fun b => 0 <= b < 256) (fst (env_guest_read t a n));
  env_read_errno : forall t a n, snd (env_guest_read t a n) <= 0;
  env_write_errno : forall t a bs, env_guest_write t a bs <= 0
}.

(** ** The machine *)

Inductive event : Type :=
| EvHostUpcall                     (** [UI_HOST_CALL(ui_signal_v4v)] *)
| EvIrqPulse (d : Z)               (** ISA irq 7 asserted and deasserted *)
| EvGuestWrite (a : Z) (bs : list Z)
| EvRetry                          (** [hcall_preempted_retry = 1] *)
| EvHostSignal (d v opaque : Z).   (** [hostsched_signal_event] of a vcpu *)

Abbreviation memory := (Z -> Z -> Z).

Record machine : Type := {
  m_time : nat;        (** accesses to the environment so far *)
  m_mem : memory;      (** frame, offset in the page: byte *)
  m_refs : Z -> Z;     (** references taken with [get_page], by frame *)
  m_log : list event   (** newest first *)
}.

Definition set_mem (f : memory) (m : machine) : machine :=
  {| m_time := m_time m; m_mem := f; m_refs := m_refs m; m_log := m_log m |}.
Definition set_refs (f : Z -> Z) (m : machine) : machine :=
  {| m_time := m_time m; m_mem := m_mem m; m_refs := f; m_log := m_log m |}.
Definition set_log (l : list event) (m : machine) : machine :=
  {| m_time := m_time m; m_mem := m_mem m; m_refs := m_refs m; m_log := l |}.
Definition set_time (t : nat) (m : machine) : machine :=
  {| m_time := t; m_mem := m_mem m; m_refs := m_refs m; m_log := m_log m |}.

(** [memcpy] into a mapped frame. *)
Definition mem_write (f off : Z) (bs : list Z) (mem : memory) : memory :=
  fun g o => if (g =? f) && (off <=? o) && (o <? off + zlen bs)
             then znth bs (o - off) else mem g o.

(** [memcpy] out of a mapped frame. *)
Definition mem_read (f off n : Z) (mem : memory) : list Z :=
  tabulate (mem f) off n.

Definition tick : SE machine nat :=
  fun m => (set_time (S (m_time m)) m, Ok (m_time m)).

Definition log (e : event) : SE machine unit :=
  modify (fun m => set_log (e :: m_log m) m).

(** [n] bytes at [off] are inside one page.  A mapping covers one page: an
    access that leaves it is [Bug]. *)
Definition in_page (off n : Z) : bool :=
  (0 <=? off) && (0 <=? n) && (off + n <=? PAGE_SIZE).

Definition write_frame (f off n : Z) (bs : list Z) : SE machine unit :=
  bug_if (negb (in_page off n));;
  modify (fun m => set_mem (mem_write f off (take (Z.to_nat n) bs) (m_mem m)) m).

Definition read_frame (f off n : Z) : SE machine (list Z) :=
  bug_if (negb (in_page off n));;
  gets (fun m => mem_read f off n (m_mem m)).

Lemma in_page_true off n : 0 <= off -> 0 <= n -> off + n <= PAGE_SIZE ->
  in_page off n = true.
Proof. intros. unfold in_page. rewrite !andb_true_iff, !Z.leb_le. done. Qed.

Lemma write_frame_errors P f off n bs : errors P (write_frame f off n bs).
Proof. unfold write_frame. se_errors. Qed.
Lemma read_frame_errors P f off n : errors P (read_frame f off n).
Proof. unfold read_frame. se_errors. Qed.
#[export] Hint Resolve write_frame_errors read_frame_errors : errs.

Section Access.
Context `{E : HostEnv}.

(** A guest read: the bytes copied and the code, as values. *)
Definition guest_read (a n : Z) : SE machine (list Z * Z) :=
  t <- tick;; ret (env_guest_read t a n).

(** [ret = copy_from_guest_errno(...); if (ret) return ret;] *)
Definition copy_from_guest_errno (a n : Z) : SE machine (list Z) :=
  r <- guest_read a n;;
  if snd r =? 0 then ret (fst r) else fail (snd r).

(** [ret = copy_field_to_guest_errno(...); if (ret) return ret;] *)
Definition copy_to_guest_errno (a : Z) (bs : list Z) : SE machine unit :=
  t <- tick;;
  if env_guest_write t a bs =? 0 then log (EvGuestWrite a bs)
  else fail (env_guest_write t a bs).

Definition xmalloc : SE machine bool := t <- tick;; ret (env_xmalloc t).

Definition put_page (f : Z) : SE machine unit :=
  modify (fun m => set_refs (fun g => if g =? f then m_refs m g - 1
                                      else m_refs m g) m).

Definition get_page (f d : Z) : SE machine bool :=
  t <- tick;;
  if env_get_page t f d
  then modify (fun m => set_refs (fun g => if g =? f then m_refs m g + 1
                                           else m_refs m g) m);; ret true
  else ret false.
End Access.
