(* ===== verification/V4vTypes.v ===== *)
(** * V4V: constants and structures

    xen/include/public/v4v.h and xen/include/xen/v4v.h: the layouts of the
    structures shared with the guests, as the offsets of their fields in the
    bytes, and the hypervisor's own records. *)

From stdpp Require Import base list numbers gmap.
From Stdlib Require Import ZArith Lia.
From S2P Require Import Prelude Machine.

Open Scope Z_scope.
Open Scope se_scope.

(** ** Constants *)

Definition V4V_RING_MAX_SIZE : Z := 16777216.
Definition V4V_MAX_RING_SIZE : Z := 16777216.
Definition V4V_RING_MAGIC : Z := 0xac67e163e7267f2f.
Definition V4V_PFN_LIST_MAGIC : Z := 0x91dd6159045b302d.
Definition V4V_RING_DATA_MAGIC : Z := 0x4ce4d30fbc82e92a.
Definition V4V_DOMID_SELF : Z := 0x7FF0.
Definition V4V_DOMID_DM : Z := 0x7FF1.
Definition V4V_DOMID_UUID : Z := 0x7FFE.
Definition V4V_DOMID_INVALID : Z := 0x7FFF.
Definition V4V_DOMID_NONE : Z := V4V_DOMID_INVALID.
Definition V4V_DOMID_ANY : Z := V4V_DOMID_INVALID.
Definition V4V_PORT_NONE : Z := 0.
Definition V4V_HTABLE_SIZE : Z := 32.

Definition V4V_RING_DATA_F_EMPTY : Z := 1.
Definition V4V_RING_DATA_F_EXISTS : Z := 2.
Definition V4V_RING_DATA_F_PENDING : Z := 4.
Definition V4V_RING_DATA_F_SUFFICIENT : Z := 8.

(** [V4V_ROUNDUP(a)], before the conversion to the type of [a]. *)
Definition V4V_ROUNDUP (a : Z) : Z := Z.land (a + 15) (Z.lnot 15).

Arguments V4V_ROUNDUP : simpl never.

(** Sizes of the packed structures. *)
Definition sizeof_v4v_iov : Z := 16.
Definition sizeof_v4v_addr : Z := 6.
Definition sizeof_v4v_ring_id : Z := 8.
Definition sizeof_v4v_ring : Z := 64.
Definition sizeof_v4v_ring_message_header : Z := 16.
Definition sizeof_v4v_pfn_list : Z := 40.
Definition sizeof_v4v_ring_data : Z := 48.
Definition sizeof_v4v_ring_data_ent : Z := 16.

(** ** Structures shared with the guests *)

Record v4v_addr : Type := { addr_port : Z; addr_domain : Z }.

Record v4v_ring_id : Type := { id_addr : v4v_addr; partner : Z }.

#[export] Instance v4v_addr_eq_dec : EqDecision v4v_addr.
Proof. solve_decision. Defined.
#[export] Instance v4v_ring_id_eq_dec : EqDecision v4v_ring_id.
Proof. solve_decision. Defined.

Record v4v_iov : Type := { iov_base : Z; iov_len : Z }.

Record v4v_ring : Type := {
  r_magic : Z;
  r_id : v4v_ring_id;
  r_len : Z;
  r_rx_ptr : Z;
  r_tx_ptr : Z
}.

Record v4v_ring_data_ent : Type := {
  ent_ring : v4v_addr;
  ent_flags : Z;
  space_required : Z;
  max_message_size : Z
}.

Record v4v_ring_message_header : Type := {
  mh_len : Z;
  mh_source : v4v_addr;
  mh_protocol : Z
}.

Definition v4v_addr_of_bytes (bs : list Z) : v4v_addr :=
  {| addr_port := field 0 4 bs; addr_domain := field 4 2 bs |}.

Definition v4v_ring_id_of_bytes (bs : list Z) : v4v_ring_id :=
  {| id_addr := v4v_addr_of_bytes bs; partner := field 6 2 bs |}.

Definition v4v_iov_of_bytes (bs : list Z) : v4v_iov :=
  {| iov_base := field 0 8 bs; iov_len := field 8 8 bs |}.

Definition v4v_ring_of_bytes (bs : list Z) : v4v_ring :=
  {| r_magic := field 0 8 bs;
     r_id := v4v_ring_id_of_bytes (drop 8 bs);
     r_len := field 16 4 bs;
     r_rx_ptr := field 20 4 bs;
     r_tx_ptr := field 24 4 bs |}.

Definition offsetof_ring_id : Z := 8.
Definition offsetof_rx_ptr : Z := 20.
Definition offsetof_tx_ptr : Z := 24.

Definition v4v_ring_data_ent_of_bytes (bs : list Z) : v4v_ring_data_ent :=
  {| ent_ring := v4v_addr_of_bytes bs;
     ent_flags := field 6 2 bs;
     space_required := field 8 4 bs;
     max_message_size := field 12 4 bs |}.

Definition offsetof_ent_flags : Z := 6.
Definition offsetof_ent_max_message_size : Z := 12.

Definition bytes_of_v4v_addr (a : v4v_addr) : list Z :=
  le_bytes 4 (addr_port a) ++ le_bytes 2 (addr_domain a).

Definition bytes_of_v4v_ring_id (i : v4v_ring_id) : list Z :=
  bytes_of_v4v_addr (id_addr i) ++ le_bytes 2 (partner i).

(** The header of a message, its [pad] zero. *)
Definition bytes_of_message_header (mh : v4v_ring_message_header) : list Z :=
  le_bytes 4 (mh_len mh) ++ bytes_of_v4v_addr (mh_source mh) ++ le_bytes 2 0
    ++ le_bytes 4 (mh_protocol mh).

Definition message_header_of_bytes (bs : list Z) : v4v_ring_message_header :=
  {| mh_len := field 0 4 bs;
     mh_source := v4v_addr_of_bytes (drop 4 bs);
     mh_protocol := field 12 4 bs |}.

(** ** The hypervisor's records *)

Record v4v_pending_ent : Type := { ent_id : Z; ent_len : Z }.

(** [mfns] and [mfn_mapping] are [None] for a null pointer, and otherwise
    the initialised part of the array, the first [nmfns] of its [npage]
    entries.  A mapping is named by the frame it maps; [None] is an entry
    that is not mapped. *)
Record v4v_ring_info : Type := {
  ri_id : v4v_ring_id;
  ri_len : Z;
  ri_tx_ptr : Z;
  ri_ring : Z;
  ri_npage : Z;
  ri_nmfns : Z;
  ri_mfns : option (list Z);
  ri_mfn_mapping : option (list (option Z));
  ri_pending : list v4v_pending_ent
}.

Definition set_ri_len (x : Z) (r : v4v_ring_info) : v4v_ring_info :=
  {| ri_id := ri_id r; ri_len := x; ri_tx_ptr := ri_tx_ptr r;
     ri_ring := ri_ring r; ri_npage := ri_npage r; ri_nmfns := ri_nmfns r;
     ri_mfns := ri_mfns r; ri_mfn_mapping := ri_mfn_mapping r;
     ri_pending := ri_pending r |}.
Definition set_ri_tx_ptr (x : Z) (r : v4v_ring_info) : v4v_ring_info :=
  {| ri_id := ri_id r; ri_len := ri_len r; ri_tx_ptr := x;
     ri_ring := ri_ring r; ri_npage := ri_npage r; ri_nmfns := ri_nmfns r;
     ri_mfns := ri_mfns r; ri_mfn_mapping := ri_mfn_mapping r;
     ri_pending := ri_pending r |}.
Definition set_ri_ring (x : Z) (r : v4v_ring_info) : v4v_ring_info :=
  {| ri_id := ri_id r; ri_len := ri_len r; ri_tx_ptr := ri_tx_ptr r;
     ri_ring := x; ri_npage := ri_npage r; ri_nmfns := ri_nmfns r;
     ri_mfns := ri_mfns r; ri_mfn_mapping := ri_mfn_mapping r;
     ri_pending := ri_pending r |}.
(** The four fields that describe the pages of the ring. *)
Definition set_ri_pages (np nm : Z) (ms : option (list Z))
    (mm : option (list (option Z))) (r : v4v_ring_info) : v4v_ring_info :=
  {| ri_id := ri_id r; ri_len := ri_len r; ri_tx_ptr := ri_tx_ptr r;
     ri_ring := ri_ring r; ri_npage := np; ri_nmfns := nm;
     ri_mfns := ms; ri_mfn_mapping := mm; ri_pending := ri_pending r |}.
Definition set_ri_mapping (mm : option (list (option Z))) (r : v4v_ring_info)
  : v4v_ring_info :=
  set_ri_pages (ri_npage r) (ri_nmfns r) (ri_mfns r) mm r.
Definition set_ri_pending (p : list v4v_pending_ent) (r : v4v_ring_info)
  : v4v_ring_info :=
  {| ri_id := ri_id r; ri_len := ri_len r; ri_tx_ptr := ri_tx_ptr r;
     ri_ring := ri_ring r; ri_npage := ri_npage r; ri_nmfns := ri_nmfns r;
     ri_mfns := ri_mfns r; ri_mfn_mapping := ri_mfn_mapping r;
     ri_pending := p |}.

(** [v4v_hash_fn] *)
Definition v4v_hash_fn (id : v4v_ring_id) : Z :=
  let h := u16 (Z.shiftr (addr_port (id_addr id)) 16) in
  let h := Z.lxor h (u16 (addr_port (id_addr id))) in
  let h := Z.lxor h (addr_domain (id_addr id)) in
  let h := Z.lxor h (partner id) in
  Z.land h (V4V_HTABLE_SIZE - 1).

Arguments v4v_hash_fn : simpl never.

(** The [ring_hash] table: [V4V_HTABLE_SIZE] lists, newest entry first. *)
Record v4v_domain : Type := { ring_hash : list (list v4v_ring_info) }.

(** ** State of the operations on one ring *)

Record rstate : Type := { rs_m : machine; rs_ri : v4v_ring_info }.

Definition on_machine {A} (m : SE machine A) : SE rstate A :=
  zoom rs_m (fun x s => {| rs_m := x; rs_ri := rs_ri s |}) m.

Definition set_ring (f : v4v_ring_info -> v4v_ring_info) : SE rstate unit :=
  modify (fun s => {| rs_m := rs_m s; rs_ri := f (rs_ri s) |}).

(** ** Facts about the layouts *)

Lemma V4V_ROUNDUP_div a : V4V_ROUNDUP a = 16 * ((a + 15) / 16).
Proof.
  unfold V4V_ROUNDUP. change 15 with (Z.ones 4) at 2.
  rewrite <- Z.ldiff_land, Z.ldiff_ones_r, Z.shiftl_mul_pow2,
    Z.shiftr_div_pow2 by lia. change (2 ^ 4) with 16. lia.
Qed.

Lemma V4V_ROUNDUP_bounds a : a <= V4V_ROUNDUP a < a + 16.
Proof. rewrite V4V_ROUNDUP_div. zlia. Qed.

Lemma V4V_ROUNDUP_mod a : V4V_ROUNDUP a mod 16 = 0.
Proof. rewrite V4V_ROUNDUP_div, Z.mul_comm. apply Z_mod_mult. Qed.

Lemma V4V_ROUNDUP_aligned a : a mod 16 = 0 -> V4V_ROUNDUP a = a.
Proof. rewrite V4V_ROUNDUP_div. zlia. Qed.

Lemma zlen_message_header mh : zlen (bytes_of_message_header mh) = 16.
Proof.
  unfold bytes_of_message_header, bytes_of_v4v_addr.
  by rewrite !zlen_app, !zlen_le_bytes.
Qed.
