(* ===== verification/V4vRing.v ===== *)
(** * V4V: the ring buffer

    The operations of xen/common/v4v.c on one registered ring: mapping its
    pages, copying in and out of them, the space left, and the insertion of
    a message ([v4v_ringbuf_insert]). *)

From stdpp Require Import base list numbers gmap.
From Stdlib Require Import ZArith Lia.
From S2P Require Import Prelude Machine V4vTypes.

Open Scope Z_scope.
Open Scope se_scope.

Section Ring.
Context `{E : HostEnv}.

(** ** Pages *)

(** [v4v_ring_unmap] *)
Definition v4v_ring_unmap (ri : v4v_ring_info) : v4v_ring_info :=
  match ri_mfn_mapping ri with
  | None => ri
  | Some mm => set_ri_mapping (Some (map (fun _ => None) mm)) ri
  end.

(** [v4v_ring_map_page]: the mapping of page [i], made when missing. *)
Definition v4v_ring_map_page (i : Z) : SE rstate Z :=
  ri <- gets rs_ri;;
  fail_if (ri_nmfns ri <=? i) (- EFAULT);;
  match ri_mfns ri, ri_mfn_mapping ri with
  | Some mfns, Some mm =>
      match mm !! Z.to_nat i, mfns !! Z.to_nat i with
      | Some (Some page), _ => ret page
      | Some None, Some mfn =>
          t <- on_machine tick;;
          if env_map_page t mfn
          then set_ring (set_ri_mapping
                           (Some (<[Z.to_nat i := Some mfn]> mm)));;
               ret mfn
          else fail (- EFAULT)
      | _, _ => bug
      end
  | _, _ => bug
  end.

(** The loop the three copy functions share: a chunk up to the end of the
    page while the rest does not fit in it, then the last chunk. *)
Fixpoint page_loop {A} (chunk : Z -> Z -> Z -> A -> SE rstate A)
    (fuel : nat) (page offset len : Z) (acc : A) : SE rstate A :=
  match fuel with
  | O => bug
  | S fuel =>
      if PAGE_SIZE <? u32 (offset + len)
      then acc <- chunk page offset (PAGE_SIZE - offset) acc;;
           page_loop chunk fuel (page + 1) 0
             (u32 (len - (PAGE_SIZE - offset))) acc
      else chunk page offset len acc
  end.

(** One iteration per page the range touches. *)
Definition page_fuel (len : Z) : nat := S (S (Z.to_nat (len / PAGE_SIZE))).

(** [v4v_memcpy_from_guest_ring] *)
Definition v4v_memcpy_from_guest_ring (offset len : Z) : SE rstate (list Z) :=
  page_loop
    (fun page off n dst =>
       src <- v4v_ring_map_page page;;
       bs <- on_machine (read_frame src off n);;
       ret (dst ++ bs))
    (page_fuel len) (Z.shiftr offset PAGE_SHIFT)
    (Z.land offset (PAGE_SIZE - 1)) len [].

(** [v4v_update_tx_ptr] *)
Definition v4v_update_tx_ptr (tx_ptr : Z) : SE rstate unit :=
  dst <- v4v_ring_map_page 0;;
  on_machine (write_frame dst offsetof_tx_ptr 4 (le_bytes 4 tx_ptr)).

(** [v4v_memcpy_to_guest_ring] *)
Definition v4v_memcpy_to_guest_ring (offset : Z) (src : list Z) (len : Z)
  : SE rstate unit :=
  page_loop
    (fun page off n src =>
       dst <- v4v_ring_map_page page;;
       on_machine (write_frame dst off n src);;
       ret (drop (Z.to_nat n) src))
    (page_fuel len) (Z.shiftr offset PAGE_SHIFT)
    (Z.land offset (PAGE_SIZE - 1)) len src;;
  ret tt.

(** [v4v_memcpy_to_guest_ring_from_guest] *)
Definition v4v_memcpy_to_guest_ring_from_guest (offset src_hnd len : Z)
  : SE rstate unit :=
  let off0 := Z.land offset (PAGE_SIZE - 1) in
  fail_if ((V4V_RING_MAX_SIZE <? len) || (V4V_RING_MAX_SIZE <? off0))
    (- EFAULT);;
  page_loop
    (fun page off n hnd =>
       dst <- v4v_ring_map_page page;;
       r <- on_machine (guest_read hnd n);;
       on_machine (write_frame dst off n (fst r));;
       fail_if (negb (snd r =? 0)) (snd r);;
       ret (hnd + n))
    (page_fuel len) (Z.shiftr offset PAGE_SHIFT) off0 len src_hnd;;
  ret tt.

(** ** Pointers and space *)

(** [v4v_ringbuf_get_rx_ptr] *)
Definition v4v_ringbuf_get_rx_ptr : SE rstate Z :=
  ri <- gets rs_ri;;
  fail_if ((ri_nmfns ri =? 0) || (ri_nmfns ri <? ri_npage ri)) (- EINVAL);;
  src <- v4v_ring_map_page 0;;
  bs <- on_machine (read_frame src offsetof_rx_ptr 4);;
  ret (le_val bs).

(** The arithmetic of [v4v_ringbuf_payload_space] on the pointers. *)
Definition payload_space (len tx rx : Z) : Z :=
  if rx =? tx then u32 (len - sizeof_v4v_ring_message_header)
  else
    let r := s32 (rx - tx) in
    let r := if r <? 0 then s32 (r + len) else r in
    let r := s32 (r - sizeof_v4v_ring_message_header) in
    let r := s32 (r - V4V_ROUNDUP 1) in
    if r <? 0 then 0 else r.

(** [v4v_ringbuf_payload_space] *)
Definition v4v_ringbuf_payload_space : SE rstate Z :=
  ri <- gets rs_ri;;
  if ri_len ri =? 0 then ret 0
  else
    recover
      (rx <- v4v_ringbuf_get_rx_ptr;;
       ret (payload_space (ri_len ri) (ri_tx_ptr ri) rx))
      (fun _ => 0).

(** [v4v_sanitize_ring] *)
Definition v4v_sanitize_ring (ring : v4v_ring) (ri : v4v_ring_info)
  : v4v_ring :=
  let rx := u32 (V4V_ROUNDUP (r_rx_ptr ring)) in
  {| r_magic := r_magic ring;
     r_id := r_id ring;
     r_len := ri_len ri;
     r_rx_ptr := if ri_len ri <=? rx then 0 else rx;
     r_tx_ptr := ri_tx_ptr ri |}.

(** [v4v_iov_count]; [n] is the number of entries left. *)
Fixpoint v4v_iov_count (n : nat) (iovs done : Z) : SE rstate Z :=
  match n with
  | O => ret done
  | S n =>
      bs <- on_machine (copy_from_guest_errno iovs sizeof_v4v_iov);;
      let iov := v4v_iov_of_bytes bs in
      fail_if (V4V_RING_MAX_SIZE <? iov_len iov) (- EINVAL);;
      let done := done + iov_len iov in
      fail_if (V4V_RING_MAX_SIZE <? done) (- EINVAL);;
      v4v_iov_count n (iovs + sizeof_v4v_iov) done
  end.

(** ** Insertion *)

(** The space between the pointers of a sanitized ring. *)
Definition ring_space (ring : v4v_ring) : Z :=
  if r_rx_ptr ring =? r_tx_ptr ring then s32 (r_len ring)
  else
    let sp := s32 (r_rx_ptr ring - r_tx_ptr ring) in
    if sp <? 0 then s32 (sp + r_len ring) else sp.

(** [V4V_ROUNDUP(len) + sizeof(struct v4v_ring_message_header)], a [size_t];
    [len] is a 32-bit [ssize_t]. *)
Definition message_size (len : Z) : Z :=
  u64 (size_of_int (s32 (V4V_ROUNDUP len)) + sizeof_v4v_ring_message_header).

(** Copy [iov_len] bytes of the payload to the ring at [tx], wrapping at
    its end; the new [tx]. *)
Definition insert_piece (buf iov_len tx : Z) : SE rstate Z :=
  rlen <- gets (fun s => ri_len (rs_ri s));;
  let sp := s32 (rlen - tx) in
  p <- (if u32 sp <? iov_len
        then v4v_memcpy_to_guest_ring_from_guest
               (u32 (tx + sizeof_v4v_ring)) buf (u32 sp);;
             ret (0, u32 (iov_len - sp), buf + sp)
        else ret (tx, iov_len, buf));;
  let '(tx, iov_len, buf) := p in
  v4v_memcpy_to_guest_ring_from_guest (u32 (tx + sizeof_v4v_ring))
    buf iov_len;;
  let tx := u32 (tx + iov_len) in
  ret (if tx =? rlen then 0 else tx).

(** The [do { } while (niov--)] loop; [n] is [niov]. *)
Fixpoint insert_loop (n : nat) (iovs buf len tx : Z) : SE rstate Z :=
  p <- match n with
       | O => ret (buf, u32 len)
       | S _ =>
           bs <- on_machine (copy_from_guest_errno iovs sizeof_v4v_iov);;
           let iov := v4v_iov_of_bytes bs in
           ret (iov_base iov, u32 (iov_len iov))
       end;;
  let '(buf, iov_len) := p in
  match n, iov_len =? 0 with
  | S n', true => insert_loop n' (iovs + sizeof_v4v_iov) buf len tx
  | _, _ =>
      fail_if (V4V_MAX_RING_SIZE <? iov_len) (- EINVAL);;
      fail_if (negb (env_handle_ok buf iov_len 1)) (- EFAULT);;
      fail_if (u32 len <? iov_len) (- EFAULT);;
      q <- (if iov_len =? 0 then ret (len, tx)
            else tx <- insert_piece buf iov_len tx;;
                 ret (s32 (len - iov_len), tx));;
      match n with
      | O => ret (snd q)
      | S n' => insert_loop n' (iovs + sizeof_v4v_iov) buf (fst q) (snd q)
      end
  end.

(** The [do { } while (0)] block of [v4v_ringbuf_insert]. *)
Definition insert_message (src_id : v4v_ring_id) (proto buf len iovs : Z)
    (niov : nat) : SE rstate unit :=
  bs <- v4v_memcpy_from_guest_ring 0 sizeof_v4v_ring;;
  ri <- gets rs_ri;;
  let ring := v4v_sanitize_ring (v4v_ring_of_bytes bs) ri in
  fail_if (size_of_int (ring_space ring) <=? message_size len) (- EAGAIN);;
  let mh := {| mh_len := u32 (len + sizeof_v4v_ring_message_header);
               mh_source := id_addr src_id;
               mh_protocol := proto |} in
  let tx := r_tx_ptr ring in
  v4v_memcpy_to_guest_ring (u32 (tx + sizeof_v4v_ring))
    (bytes_of_message_header mh) sizeof_v4v_ring_message_header;;
  let tx := u32 (tx + sizeof_v4v_ring_message_header) in
  let tx := if tx =? ri_len ri then 0 else tx in
  tx <- insert_loop niov iovs buf len tx;;
  let tx := u32 (V4V_ROUNDUP tx) in
  let tx := if ri_len ri <=? tx then u32 (tx - ri_len ri) else tx in
  set_ring (set_ri_tx_ptr tx);;
  v4v_update_tx_ptr tx.

(** [v4v_ringbuf_insert]: its return value, and the length it leaves in
    [*_len]. *)
Definition v4v_ringbuf_insert (src_id : v4v_ring_id)
    (proto buf len0 iovs niov : Z) : SE rstate (Z * Z) :=
  ri <- gets rs_ri;;
  if ri_len ri =? 0 then ret (- EAGAIN, 0)
  else
    len <- (if niov =? 0 then ret len0
            else recover (v4v_iov_count (Z.to_nat niov) iovs 0) id);;
    if negb (niov =? 0) && (len <? 0) then ret (len, len0)
    else if ri_len ri <=? message_size len then ret (- EMSGSIZE, len)
    else
      r <- code (insert_message src_id proto buf len iovs (Z.to_nat niov));;
      ret (r, len).
End Ring.

Arguments page_fuel : simpl never.
