(* ===== verification/V4vRingSafe.v ===== *)
(** * V4V: an insertion stays inside the ring

    Whatever the guests do with their memory and whatever the environment
    answers, the operations on a ring write only to the frames of that ring
    and leave the record of its pages as it is.  Nothing is assumed of the
    pointers: they are under the control of the receiving guest. *)

From stdpp Require Import base list numbers gmap.
From Stdlib Require Import ZArith Lia.
From S2P Require Import Prelude Machine V4vTypes V4vRing.

Open Scope Z_scope.
Open Scope se_scope.

(** The page arrays of a ring are consistent: both null, or both with
    [nmfns] initialised entries, every mapping that of its frame. *)
Definition pages_ok (ri : v4v_ring_info) : Prop :=
  match ri_mfns ri, ri_mfn_mapping ri with
  | Some mfns, Some mm =>
      zlen mfns = ri_nmfns ri /\ length mm = length mfns /\
      (forall i f, mm !! i = Some (Some f) -> mfns !! i = Some f)
  | None, None => ri_nmfns ri = 0
  | _, _ => False
  end.

Definition frames (ri : v4v_ring_info) : list Z := default [] (ri_mfns ri).

(** The record is the same but for the mappings and the cached [tx_ptr]. *)
Definition same_ring (r r' : v4v_ring_info) : Prop :=
  ri_id r' = ri_id r /\ ri_len r' = ri_len r /\ ri_ring r' = ri_ring r /\
  ri_npage r' = ri_npage r /\ ri_nmfns r' = ri_nmfns r /\
  ri_mfns r' = ri_mfns r /\ ri_pending r' = ri_pending r.

(** Memory outside the pages of the ring, the references on frames and the
    log are as they were. *)
Definition confined (s s' : rstate) : Prop :=
  same_ring (rs_ri s) (rs_ri s') /\
  (forall f o, f ∉ frames (rs_ri s) \/ ~ 0 <= o < PAGE_SIZE ->
     m_mem (rs_m s') f o = m_mem (rs_m s) f o) /\
  m_refs (rs_m s') = m_refs (rs_m s) /\ m_log (rs_m s') = m_log (rs_m s).

Definition ring_ok (s : rstate) : Prop := pages_ok (rs_ri s).

#[export] Instance same_ring_preorder : PreOrder same_ring.
Proof.
  split; [by repeat split|]. intros r1 r2 r3 H12 H23.
  unfold same_ring in *. destruct_and!. split_and!; congruence.
Qed.

#[export] Instance confined_preorder : PreOrder confined.
Proof.
  split.
  - intros s. split; [reflexivity|done].
  - intros s1 s2 s3 (R12 & M12 & F12 & L12) (R23 & M23 & F23 & L23).
    split; [by etrans|]. split; [|split; congruence].
    intros f o Hf. rewrite M23, M12; [done|done|].
    unfold frames in *. destruct R12 as (_ & _ & _ & _ & _ & -> & _). done.
Qed.

Section Safe.
Context `{E : HostEnv}.

Lemma tick_safe : safe ring_ok confined (on_machine tick).
Proof. intros s Hs. split; [done|]. split; [by split|done]. Qed.

Lemma guest_read_safe a n : safe ring_ok confined (on_machine (guest_read a n)).
Proof. intros s Hs. split; [done|]. split; [by split|done]. Qed.

Lemma copy_from_guest_safe a n :
  safe ring_ok confined (on_machine (copy_from_guest_errno a n)).
Proof.
  intros s Hs. unfold on_machine, zoom, copy_from_guest_errno, bind. simpl.
  destruct (_ =? 0); simpl; (split; [done|split; [by split|done]]).
Qed.

Lemma map_page_safe i : 0 <= i ->
  safe ring_ok confined (v4v_ring_map_page i).
Proof.
  intros Hi s Hs. unfold v4v_ring_map_page, bind, gets, fail_if. simpl.
  destruct (Z.leb_spec (ri_nmfns (rs_ri s)) i) as [|Hlt]; simpl.
  { by repeat split. }
  pose proof Hs as Hp. unfold ring_ok, pages_ok in Hp.
  destruct (ri_mfns (rs_ri s)) as [mfns|] eqn:Em;
    destruct (ri_mfn_mapping (rs_ri s)) as [mm|] eqn:Emm; try done; [|lia].
  destruct Hp as (Hn & Hl & Hmm). unfold zlen in Hn.
  destruct (lookup_lt_is_Some_2 mm (Z.to_nat i)) as [pg Hpg]; [lia|].
  destruct (lookup_lt_is_Some_2 mfns (Z.to_nat i)) as [mfn Hmfn]; [lia|].
  rewrite Hpg, Hmfn. destruct pg as [page|]; simpl; [by repeat split|].
  destruct (env_map_page _ mfn); simpl; [|by repeat split].
  split; [|split; [|done]].
  - unfold ring_ok, pages_ok. simpl. rewrite Em.
    split; [done|]. rewrite length_insert. split; [done|].
    intros j f. rewrite list_lookup_insert. case_decide as Hj.
    + destruct Hj as [<- _]. by intros [= <-].
    + apply Hmm.
  - repeat split.
Qed.

(** The page returned is one of the ring's frames. *)
Lemma map_page_frame i s s' f : ring_ok s ->
  v4v_ring_map_page i s = (s', Ok f) -> f ∈ frames (rs_ri s').
Proof.
  intros Hs. unfold v4v_ring_map_page, bind, gets, fail_if. simpl.
  destruct (_ <=? i); simpl; [done|].
  unfold ring_ok, pages_ok in Hs.
  destruct (ri_mfns (rs_ri s)) as [mfns|] eqn:Em;
    destruct (ri_mfn_mapping (rs_ri s)) as [mm|] eqn:Emm; try done.
  destruct Hs as (_ & _ & Hmm).
  destruct (mm !! Z.to_nat i) as [[pg|]|] eqn:Hpg; simpl.
  - intros [= <- <-]. unfold frames. rewrite Em. simpl.
    eapply list_elem_of_lookup_2, Hmm, Hpg.
  - destruct (mfns !! Z.to_nat i) as [mfn|] eqn:Hmfn; [|done].
    destruct (env_map_page _ mfn); simpl; [|done].
    intros [= <- <-]. unfold frames. simpl. rewrite Em. simpl.
    by eapply list_elem_of_lookup_2.
  - done.
Qed.

Lemma write_frame_safe f off n bs : 0 <= off -> 0 <= n -> off + n <= PAGE_SIZE ->
  safe (fun s => ring_ok s /\ f ∈ frames (rs_ri s)) confined
    (on_machine (write_frame f off n bs)).
Proof.
  intros Ho Hn Hp s (Hs & Hf). unfold on_machine, zoom, write_frame, bind.
  rewrite in_page_true by done. simpl. split; [done|]. split; [|done].
  split; [reflexivity|]. split; [|done].
  intros g o Hg. simpl. unfold mem_write.
  destruct (Z.eqb_spec g f) as [->|]; [|done]. destruct Hg as [Hg|Hg]; [done|].
  assert (zlen (take (Z.to_nat n) bs) <= n) by (unfold zlen; rewrite length_take; lia).
  destruct (Z.leb_spec off o), (Z.ltb_spec o (off + zlen (take (Z.to_nat n) bs)));
    simpl; try done. exfalso. lia.
Qed.

Lemma read_frame_spec f off n s : 0 <= off -> 0 <= n -> off + n <= PAGE_SIZE ->
  on_machine (read_frame f off n) s = (s, Ok (mem_read f off n (m_mem (rs_m s)))).
Proof.
  intros. unfold on_machine, zoom, read_frame, bind. rewrite in_page_true by done.
  by destruct s.
Qed.

Lemma read_frame_safe f off n : 0 <= off -> 0 <= n -> off + n <= PAGE_SIZE ->
  safe ring_ok confined (on_machine (read_frame f off n)).
Proof.
  intros Ho Hn Hp s Hs. rewrite read_frame_spec by done. by repeat split.
Qed.

(** What holds of the ring still knows its frames. *)
Lemma safe_frame {A} f (m : SE rstate A) :
  safe ring_ok confined m ->
  safe (fun s => ring_ok s /\ f ∈ frames (rs_ri s)) confined m.
Proof.
  intros Hm s (Hs & Hf). destruct (Hm s Hs) as (H1 & H2 & H3).
  repeat split; try done; [|apply H2..].
  unfold frames in *. destruct H2 as ((_ & _ & _ & _ & _ & -> & _) & _). done.
Qed.

(** Map a page, then write to it. *)
Lemma map_write_safe {A} i (k : Z -> SE rstate A) : 0 <= i ->
  (forall f, safe (fun s => ring_ok s /\ f ∈ frames (rs_ri s)) confined (k f)) ->
  safe ring_ok confined (bind (v4v_ring_map_page i) k).
Proof.
  intros Hi Hk.
  apply (safe_bind_post _ _ (fun f s => f ∈ frames (rs_ri s))).
  - by apply map_page_safe.
  - intros s f s' Hs Hm. by eapply map_page_frame.
  - done.
Qed.

(** The loop over the pages does not run out of fuel. *)
Lemma page_loop_safe {A} (chunk : Z -> Z -> Z -> A -> SE rstate A) fuel :
  (forall page off n acc, 0 <= page -> 0 <= off -> 0 <= n -> off + n <= PAGE_SIZE ->
     safe ring_ok confined (chunk page off n acc)) ->
  forall page off n acc, 0 <= page -> 0 <= off <= PAGE_SIZE -> 0 <= n ->
    off + n < 2 ^ 32 -> (1 <= fuel)%nat ->
    off + n <= PAGE_SIZE * Z.of_nat fuel ->
    safe ring_ok confined (page_loop chunk fuel page off n acc).
Proof.
  intros Hc. induction fuel as [|fuel IH]; intros; [lia|].
  cbn [page_loop]. unfold PAGE_SIZE in *. rewrite u32_small by lia.
  destruct (Z.ltb_spec 4096 (off + n)); [|apply Hc; lia].
  apply safe_bind; [apply _|apply Hc; lia|]. intros acc'.
  rewrite u32_small by lia. apply IH; lia.
Qed.

Lemma page_loop_fuel {A} (chunk : Z -> Z -> Z -> A -> SE rstate A)
    offset n acc :
  (forall page off n acc, 0 <= page -> 0 <= off -> 0 <= n -> off + n <= PAGE_SIZE ->
     safe ring_ok confined (chunk page off n acc)) ->
  0 <= offset -> 0 <= n <= V4V_RING_MAX_SIZE ->
  safe ring_ok confined
    (page_loop chunk (page_fuel n) (Z.shiftr offset PAGE_SHIFT)
       (Z.land offset (PAGE_SIZE - 1)) n acc).
Proof.
  intros Hc Ho Hn. unfold V4V_RING_MAX_SIZE in Hn.
  change (PAGE_SIZE - 1) with (Z.ones 12). rewrite Z.land_ones by lia.
  pose proof (Z.mod_pos_bound offset (2 ^ 12)).
  pose proof (Z.div_mod n PAGE_SIZE). unfold PAGE_SIZE, page_fuel in *.
  pose proof (Z.mod_pos_bound n 4096).
  pose proof (Z.div_pos n 4096).
  apply page_loop_safe; unfold PAGE_SIZE;
    [done|by apply Z.shiftr_nonneg|lia..].
Qed.

Lemma memcpy_from_safe offset n : 0 <= offset ->
  0 <= n <= V4V_RING_MAX_SIZE ->
  safe ring_ok confined (v4v_memcpy_from_guest_ring offset n).
Proof.
  intros Ho Hn. apply page_loop_fuel; [|done..].
  intros. apply safe_bind; [apply _|by apply map_page_safe|]. intros f.
  apply safe_bind; [apply _|by apply read_frame_safe|]. se_safe.
Qed.

Lemma update_tx_ptr_safe tx : safe ring_ok confined (v4v_update_tx_ptr tx).
Proof. apply map_write_safe; [done|]. intros. by apply write_frame_safe. Qed.

Lemma memcpy_to_safe offset src n : 0 <= offset ->
  0 <= n <= V4V_RING_MAX_SIZE ->
  safe ring_ok confined (v4v_memcpy_to_guest_ring offset src n).
Proof.
  intros Ho Hn. apply safe_bind; [apply _| |intros; apply safe_ret, _].
  apply page_loop_fuel; [|done..]. intros.
  apply map_write_safe; [done|]. intros f.
  apply safe_bind; [apply _|by apply write_frame_safe|]. se_safe.
Qed.

Lemma memcpy_from_guest_safe offset hnd n : 0 <= offset -> 0 <= n ->
  safe ring_ok confined (v4v_memcpy_to_guest_ring_from_guest offset hnd n).
Proof.
  intros Ho Hn. unfold v4v_memcpy_to_guest_ring_from_guest.
  destruct (Z.ltb_spec V4V_RING_MAX_SIZE n); cbn [orb].
  { intros s Hs. by repeat split. }
  apply safe_bind; [apply _|apply safe_fail_if, _|]. intros [].
  apply safe_bind; [apply _| |intros; apply safe_ret, _].
  apply page_loop_fuel; [|lia..]. intros.
  apply map_write_safe; [done|]. intros f.
  apply safe_bind; [apply _|apply safe_frame, guest_read_safe|]. intros r.
  apply safe_bind; [apply _|by apply write_frame_safe|]. se_safe.
Qed.

Lemma get_rx_ptr_safe : safe ring_ok confined v4v_ringbuf_get_rx_ptr.
Proof.
  unfold v4v_ringbuf_get_rx_ptr.
  do 2 (apply safe_bind; [apply _|auto with se typeclass_instances|intros ?]).
  apply safe_bind; [apply _|by apply map_page_safe|]. intros f.
  apply safe_bind; [apply _|by apply read_frame_safe|]. se_safe.
Qed.

Lemma payload_space_safe : safe ring_ok confined v4v_ringbuf_payload_space.
Proof.
  pose proof get_rx_ptr_safe. unfold v4v_ringbuf_payload_space. se_safe.
  apply safe_recover. se_safe.
Qed.

Lemma iov_count_safe n iovs done :
  safe ring_ok confined (v4v_iov_count n iovs done).
Proof.
  pose proof copy_from_guest_safe.
  revert iovs done. induction n; intros; cbn [v4v_iov_count]; se_safe.
Qed.

Lemma insert_piece_safe buf n tx : 0 <= n ->
  safe ring_ok confined (insert_piece buf n tx).
Proof.
  intros Hn. pose proof u32_range as Hu.
  assert (forall o h k, safe ring_ok confined
    (v4v_memcpy_to_guest_ring_from_guest (u32 o) h (u32 k))).
  { intros. apply memcpy_from_guest_safe; apply Hu. }
  unfold insert_piece. apply safe_bind; [apply _|apply safe_gets, _|].
  intros rlen.
  apply (safe_bind_post _ _ (fun p _ => 0 <= p.1.2)); [se_safe| |].
  { intros s [[tx' n'] b'] s' _. destruct (_ <? n); simpl.
    - unfold bind. destruct (v4v_memcpy_to_guest_ring_from_guest _ _ _ s)
        as [? []]; try done. intros [= _ _ <- _]. apply Hu.
    - by intros [= _ _ <- _]. }
  intros [[tx' n'] b']. apply safe_pure. simpl. intros Hn'.
  assert (safe ring_ok confined (v4v_memcpy_to_guest_ring_from_guest
    (u32 (tx' + sizeof_v4v_ring)) b' n')).
  { apply memcpy_from_guest_safe; [apply Hu|done]. }
  se_safe.
Qed.

Lemma insert_loop_safe n iovs buf len tx :
  safe ring_ok confined (insert_loop n iovs buf len tx).
Proof.
  pose proof copy_from_guest_safe. pose proof u32_range as Hu.
  revert iovs buf len tx. induction n as [|n IH]; intros; cbn [insert_loop].
  - apply (safe_bind_post _ _ (fun p _ => 0 <= p.2)); [se_safe| |].
    { intros s p s' _ [= _ <-]. apply Hu. }
    intros [b k]. apply safe_pure. intros Hk. simpl in Hk.
    pose proof (insert_piece_safe b k tx Hk). se_safe.
  - apply (safe_bind_post _ _ (fun p _ => 0 <= p.2)); [se_safe| |].
    { intros s p s' _. unfold bind.
      destruct (on_machine _ s) as [? []]; try done.
      intros [= _ <-]. apply Hu. }
    intros [b k]. apply safe_pure. intros Hk. simpl in Hk.
    pose proof (insert_piece_safe b k tx Hk). se_safe.
Qed.

Lemma insert_message_safe src_id proto buf len iovs niov :
  safe ring_ok confined (insert_message src_id proto buf len iovs niov).
Proof.
  pose proof u32_range as Hu. unfold insert_message.
  apply safe_bind; [apply _|by apply memcpy_from_safe|]. intros bs.
  apply safe_bind; [apply _|apply safe_gets, _|]. intros ri. simpl.
  apply safe_bind; [apply _|apply safe_fail_if, _|]. intros _.
  apply safe_bind; [apply _|apply memcpy_to_safe; [apply Hu|done]|]. intros _.
  apply safe_bind; [apply _|apply insert_loop_safe|]. intros tx.
  apply safe_bind; [apply _| |intros _; apply update_tx_ptr_safe].
  apply safe_modify. intros s Hs. split; [done|]. by repeat split.
Qed.

Lemma insert_safe src_id proto buf len iovs niov :
  safe ring_ok confined
    (v4v_ringbuf_insert src_id proto buf len iovs niov).
Proof.
  pose proof iov_count_safe. pose proof insert_message_safe.
  unfold v4v_ringbuf_insert. se_safe; apply safe_recover; se_safe.
Qed.
End Safe.
