(* ===== verification/V4vRingSpec.v ===== *)
(** * V4V: what an insertion leaves in the ring

    The pages of a ring seen as one array of bytes, and the copies page by
    page seen as writes to that array; the ring behind its header seen as a
    circular array, and [v4v_ringbuf_insert] as one circular write of header
    and payload. *)

From stdpp Require Import base list numbers gmap.
From Stdlib Require Import ZArith Lia.
From S2P Require Import Prelude Machine V4vTypes V4vRing V4vRingSafe.

Open Scope Z_scope.
Open Scope se_scope.

(** An environment that serves: pages map, handles are accepted, and the
    sending guest's memory is [g] and does not change. *)
Class Serves (E : HostEnv) (g : Z -> Z) : Prop := {
  serves_map : forall t f, env_map_page t f = true;
  serves_read : forall t a n, 0 <= n -> env_guest_read t a n = (tabulate g a n, 0);
  serves_handle : forall a n k, env_handle_ok a n k = true;
  serves_bytes : forall a, 0 <= g a < 256
}.

(** Byte [o] of the pages [mfns] laid end to end. *)
Definition lin (mem : memory) (mfns : list Z) (o : Z) : Z :=
  match mfns !! Z.to_nat (o / PAGE_SIZE) with
  | Some f => mem f (o mod PAGE_SIZE)
  | None => 0
  end.

Definition lin_write (off : Z) (bs : list Z) (v : Z -> Z) (o : Z) : Z :=
  if (off <=? o) && (o <? off + zlen bs) then znth bs (o - off) else v o.

Lemma lin_write_app off b1 b2 v o : 
  lin_write (off + zlen b1) b2 (lin_write off b1 v) o =
  lin_write off (b1 ++ b2) v o.
Proof.
  unfold lin_write. rewrite zlen_app.
  pose proof (zlen_nonneg b1). pose proof (zlen_nonneg b2).
  destruct (Z.leb_spec off o), (Z.leb_spec (off + zlen b1) o),
    (Z.ltb_spec o (off + zlen b1 + zlen b2)), (Z.ltb_spec o (off + zlen b1)),
    (Z.ltb_spec o (off + (zlen b1 + zlen b2))); simpl; try lia; try done.
  - rewrite znth_app by lia. destruct (Z.ltb_spec (o - off) (zlen b1)); [lia|].
    f_equal. lia.
  - rewrite znth_app by lia. destruct (Z.ltb_spec (o - off) (zlen b1)); [done|lia].
Qed.

(** A write inside one page. *)
Lemma lin_mem_write mem mfns page f off bs o :
  NoDup mfns -> mfns !! Z.to_nat page = Some f -> 0 <= page -> 0 <= off ->
  off + zlen bs <= PAGE_SIZE -> 0 <= o ->
  lin (mem_write f off bs mem) mfns o =
  lin_write (page * PAGE_SIZE + off) bs (lin mem mfns) o.
Proof.
  intros Hnd Hf Hp Ho Hle Ho'. unfold PAGE_SIZE in *.
  unfold lin, lin_write, mem_write, PAGE_SIZE.
  pose proof (Z.div_mod o 4096). pose proof (Z.mod_pos_bound o 4096).
  destruct (decide (o / 4096 = page)) as [<-|Hne].
  - rewrite Hf, Z.eqb_refl. simpl.
    destruct (Z.leb_spec off (o mod 4096)),
      (Z.leb_spec (o / 4096 * 4096 + off) o); try lia; simpl; [|done].
    destruct (Z.ltb_spec (o mod 4096) (off + zlen bs)),
      (Z.ltb_spec o (o / 4096 * 4096 + off + zlen bs)); try lia.
    f_equal. lia.
  - destruct (Z.leb_spec (page * 4096 + off) o),
      (Z.ltb_spec o (page * 4096 + off + zlen bs)); simpl; try lia;
    (destruct (mfns !! Z.to_nat (o / 4096)) as [f'|] eqn:Hf'; [|done]);
    (destruct (Z.eqb_spec f' f) as [->|]; [|done]);
    exfalso; apply Hne;
    pose proof (NoDup_lookup _ _ _ _ Hnd Hf Hf');
    pose proof (Z.div_pos o 4096); lia.
Qed.

(** Only mappings and the clock changed. *)
Definition touch (s s' : rstate) : Prop :=
  same_ring (rs_ri s) (rs_ri s') /\ ri_tx_ptr (rs_ri s') = ri_tx_ptr (rs_ri s) /\
  ring_ok s' /\ m_mem (rs_m s') = m_mem (rs_m s).

(** The bytes of the ring went from [v] to [w v]. *)
Definition writes (mfns : list Z) (w : (Z -> Z) -> Z -> Z) (s s' : rstate)
  : Prop :=
  same_ring (rs_ri s) (rs_ri s') /\ ri_tx_ptr (rs_ri s') = ri_tx_ptr (rs_ri s) /\
  ring_ok s' /\
  (forall o, 0 <= o ->
     lin (m_mem (rs_m s')) mfns o = w (lin (m_mem (rs_m s)) mfns) o).

Lemma writes_touch mfns w s1 s2 s3 :
  touch s1 s2 -> writes mfns w s2 s3 -> writes mfns w s1 s3.
Proof.
  intros (R12 & T12 & _ & M12) (R23 & T23 & O3 & M23).
  split; [by etrans|]. split; [congruence|]. split; [done|].
  intros o Ho. by rewrite M23, M12.
Qed.

Lemma writes_app mfns off b1 b2 s1 s2 s3 :
  writes mfns (lin_write off b1) s1 s2 ->
  writes mfns (lin_write (off + zlen b1) b2) s2 s3 ->
  writes mfns (lin_write off (b1 ++ b2)) s1 s3.
Proof.
  intros (R12 & T12 & _ & M12) (R23 & T23 & O3 & M23).
  split; [by etrans|]. split; [congruence|]. split; [done|].
  intros o Ho. rewrite M23, <- lin_write_app by done.
  unfold lin_write at 1 3. by rewrite M12.
Qed.

Definition has_pages (mfns : list Z) (s : rstate) : Prop :=
  ring_ok s /\ ri_mfns (rs_ri s) = Some mfns.

Lemma has_pages_same mfns s s' :
  has_pages mfns s -> same_ring (rs_ri s) (rs_ri s') -> ring_ok s' ->
  has_pages mfns s'.
Proof.
  intros (_ & Hm) (_ & _ & _ & _ & _ & Hs & _) Ho. split; [done|congruence].
Qed.

Section Spec.
Context `{E : HostEnv} (g : Z -> Z) {HE : Serves E g}.
Context (mfns : list Z) (Hnd : NoDup mfns).

Lemma map_page_spec s i :
  has_pages mfns s -> 0 <= i < zlen mfns ->
  exists s' f, v4v_ring_map_page i s = (s', Ok f) /\
    mfns !! Z.to_nat i = Some f /\ touch s s'.
Proof.
  intros (Hs & Em) Hi. pose proof Hs as Hp. unfold ring_ok, pages_ok in Hp.
  pose proof (map_page_safe i (proj1 Hi) s Hs) as (Hs' & Hc & Hb).
  unfold v4v_ring_map_page, bind, gets, fail_if in *. simpl in *.
  rewrite Em in *.
  destruct (ri_mfn_mapping (rs_ri s)) as [mm|] eqn:Emm; [|done].
  destruct Hp as (Hn & Hl & Hmm). unfold zlen in Hn, Hi.
  destruct (Z.leb_spec (ri_nmfns (rs_ri s)) i); [lia|]. simpl in *.
  destruct (lookup_lt_is_Some_2 mm (Z.to_nat i)) as [pg Hpg]; [lia|].
  destruct (lookup_lt_is_Some_2 mfns (Z.to_nat i)) as [mfn Hmfn]; [lia|].
  rewrite Hpg, Hmfn in *. destruct pg as [page|]; simpl in *.
  - exists s, page. apply Hmm in Hpg. rewrite Hmfn in Hpg.
    simplify_eq. split; [done|]. split; [done|]. by repeat split.
  - rewrite serves_map in *. simpl in *. eexists _, mfn.
    split; [done|]. split; [done|].
    destruct Hc as (Hc & _). by split.
Qed.

(** The loop over the pages, for any source of bytes: [data a n] are the
    next [n] bytes of [a] and [next a n] is what is left. *)
Section Loop.
Context {A : Type} (data : A -> Z -> list Z) (next : A -> Z -> A).
Context (valid : A -> Z -> Prop) (chunk : Z -> Z -> Z -> A -> SE rstate A).
Context (Hlen : forall a n, 0 <= n -> valid a n -> zlen (data a n) = n).
Context (Hsplit : forall a n m, 0 <= n <= m -> valid a m ->
  data a m = data a n ++ data (next a n) (m - n) /\
  valid a n /\ valid (next a n) (m - n)).
Context (Hchunk : forall s page off n a,
  has_pages mfns s -> 0 <= page < zlen mfns -> 0 <= off -> 0 <= n ->
  off + n <= PAGE_SIZE -> valid a n ->
  exists s', chunk page off n a s = (s', Ok (next a n)) /\
    writes mfns (lin_write (page * PAGE_SIZE + off) (data a n)) s s').

Lemma page_loop_writes fuel s page off n a :
  has_pages mfns s -> 0 <= page -> 0 <= off < PAGE_SIZE -> 0 < n ->
  off + n < 2 ^ 32 -> (1 <= fuel)%nat ->
  off + n <= PAGE_SIZE * Z.of_nat fuel ->
  page * PAGE_SIZE + off + n <= PAGE_SIZE * zlen mfns -> valid a n ->
  exists s' r, page_loop chunk fuel page off n a s = (s', Ok r) /\
    writes mfns (lin_write (page * PAGE_SIZE + off) (data a n)) s s'.
Proof using Hlen Hsplit Hchunk.
  revert s page off n a. induction fuel as [|fuel IH]; intros; [lia|].
  cbn [page_loop]. rewrite u32_small by lia.
  destruct (Z.ltb_spec PAGE_SIZE (off + n)); unfold PAGE_SIZE in *.
  - destruct (Hsplit a (4096 - off) n) as (Hd & Hv1 & Hv2); [lia|done|].
    destruct (Hchunk s page off (4096 - off) a) as (s1 & Hs1 & Hw1);
      [done|lia..|done|].
    unfold bind. rewrite Hs1, u32_small by lia.
    pose proof (Hlen a (4096 - off) ltac:(lia) Hv1) as Hl.
    destruct (IH s1 (page + 1) 0 (n - (4096 - off)) (next a (4096 - off)))
      as (s2 & r & Hs2 & Hw2); try lia; [|done|].
    { by eapply has_pages_same; [done|apply Hw1..]. }
    exists s2, r. split; [done|]. rewrite Hd. eapply writes_app; [done|].
    rewrite Hl. by replace (page * 4096 + off + (4096 - off))
      with ((page + 1) * 4096 + 0) by lia.
  - destruct (Hchunk s page off n a) as (s1 & Hs1 & Hw1); [done|lia..|done|].
    by exists s1, (next a n).
Qed.

Lemma page_loop_at s offset n a :
  has_pages mfns s -> 0 <= offset -> 0 < n <= V4V_RING_MAX_SIZE ->
  offset + n <= PAGE_SIZE * zlen mfns -> valid a n ->
  exists s' r,
    page_loop chunk (page_fuel n) (Z.shiftr offset PAGE_SHIFT)
      (Z.land offset (PAGE_SIZE - 1)) n a s = (s', Ok r) /\
    writes mfns (lin_write offset (data a n)) s s'.
Proof using Hlen Hsplit Hchunk.
  intros Hs Ho Hn Hle Hv. unfold V4V_RING_MAX_SIZE in Hn.
  unfold PAGE_SIZE in Hle.
  change (PAGE_SIZE - 1) with (Z.ones 12). rewrite Z.land_ones by lia.
  rewrite Z.shiftr_div_pow2 by done. unfold PAGE_SHIFT.
  change (2 ^ 12) with 4096.
  pose proof (Z.mod_pos_bound offset 4096). pose proof (Z.div_pos offset 4096).
  pose proof (Z.div_mod offset 4096).
  pose proof (Z.div_mod n 4096). pose proof (Z.mod_pos_bound n 4096).
  pose proof (Z.div_pos n 4096).
  destruct (page_loop_writes (page_fuel n) s (offset / 4096) (offset mod 4096)
    n a) as (s' & r & Hr & Hw); unfold page_fuel, PAGE_SIZE in *;
    [done|lia..|done|].
  exists s', r. split; [done|].
  by replace (offset / 4096 * 4096 + offset mod 4096) with offset in Hw by lia.
Qed.
End Loop.

Lemma write_page_spec s i off n bs :
  has_pages mfns s -> 0 <= i < zlen mfns -> 0 <= off ->
  0 <= n <= zlen bs -> off + n <= PAGE_SIZE ->
  exists s' f s'', v4v_ring_map_page i s = (s', Ok f) /\
    on_machine (write_frame f off n bs) s' = (s'', Ok tt) /\
    writes mfns (lin_write (i * PAGE_SIZE + off) (take (Z.to_nat n) bs)) s s''.
Proof using HE Hnd.
  intros Hs Hi Ho Hn Hle. destruct (map_page_spec s i Hs Hi) as (s' & f & Hm & Hf & Ht).
  exists s', f. unfold on_machine, zoom, write_frame, bind.
  rewrite in_page_true by lia.
  eexists. split; [done|]. split; [done|]. eapply writes_touch; [done|].
  destruct Ht as (_ & _ & Hok & _). split; [reflexivity|]. split; [done|].
  split; [done|]. intros o Ho'. simpl. apply lin_mem_write; try done; rewrite ?zlen_take by lia; lia.
Qed.

Lemma memcpy_to_spec s offset src :
  has_pages mfns s -> 0 <= offset -> 0 < zlen src <= V4V_RING_MAX_SIZE ->
  offset + zlen src <= PAGE_SIZE * zlen mfns ->
  exists s', v4v_memcpy_to_guest_ring offset src (zlen src) s = (s', Ok tt) /\
    writes mfns (lin_write offset src) s s'.
Proof using HE Hnd.
  intros Hs Ho Hn Hle. unfold v4v_memcpy_to_guest_ring, bind at 1.
  destruct (page_loop_at (fun l n => take (Z.to_nat n) l)
    (fun l n => drop (Z.to_nat n) l) (fun l n => n <= zlen l)
    (fun page off n src =>
       dst <- v4v_ring_map_page page;;
       on_machine (write_frame dst off n src);;
       ret (drop (Z.to_nat n) src)))
    with (s := s) (offset := offset) (n := zlen src) (a := src)
    as (s' & r & -> & Hw); try done.
  - intros l n H1 H2. by apply zlen_take.
  - intros l n m H1 H2. split; [|rewrite zlen_drop; lia].
    rewrite <- (take_drop (Z.to_nat n) (take (Z.to_nat m) l)).
    rewrite take_take, take_drop_commute. f_equal; [f_equal; lia|].
    f_equal. f_equal. lia.
  - intros s0 page off n l H1 H2 H3 H4 H5 H6.
    destruct (write_page_spec s0 page off n l) as (s1 & f & s2 & Hm & Hf & Hw); [done..|].
    unfold bind. rewrite Hm, Hf. by exists s2.
  - exists s'. split; [done|].
    by rewrite take_ge in Hw by (unfold zlen; lia).
Qed.

Lemma memcpy_from_guest_spec s offset hnd n :
  has_pages mfns s -> 0 <= offset -> 0 < n <= V4V_RING_MAX_SIZE ->
  offset + n <= PAGE_SIZE * zlen mfns ->
  exists s', v4v_memcpy_to_guest_ring_from_guest offset hnd n s = (s', Ok tt) /\
    writes mfns (lin_write offset (tabulate g hnd n)) s s'.
Proof using HE Hnd.
  intros Hs Ho Hn Hle. unfold v4v_memcpy_to_guest_ring_from_guest.
  assert (Z.land offset (PAGE_SIZE - 1) <= V4V_RING_MAX_SIZE).
  { change (PAGE_SIZE - 1) with (Z.ones 12). rewrite Z.land_ones by lia.
    pose proof (Z.mod_pos_bound offset (2 ^ 12)). unfold V4V_RING_MAX_SIZE. lia. }
  destruct (Z.ltb_spec V4V_RING_MAX_SIZE n); [lia|].
  destruct (Z.ltb_spec V4V_RING_MAX_SIZE (Z.land offset (PAGE_SIZE - 1))); [lia|].
  cbn [orb fail_if]. unfold bind at 1, ret at 1. unfold bind at 1.
  destruct (page_loop_at (tabulate g) Z.add (fun _ _ => True)
    (fun page off n hnd =>
       dst <- v4v_ring_map_page page;;
       r <- on_machine (guest_read hnd n);;
       on_machine (write_frame dst off n (fst r));;
       fail_if (negb (snd r =? 0)) (snd r);;
       ret (hnd + n)))
    with (s := s) (offset := offset) (n := n) (a := hnd)
    as (s' & r & -> & Hw); try done.
  - intros l k G1 _. by apply zlen_tabulate.
  - intros l k m G1 _. split; [by apply tabulate_split|done].
  - intros s0 page off k l G1 G2 G3 G4 G5 _.
    destruct (write_page_spec s0 page off k (tabulate g l k))
      as (s1 & f & s2 & Hm & Hf & Hw); [done..|by rewrite zlen_tabulate|done|].
    rewrite take_ge in Hw by (pose proof (zlen_tabulate g l k G4); unfold zlen in *; lia).
    unfold on_machine, zoom, write_frame, bind in Hf |- *. rewrite in_page_true in Hf by done.
    rewrite Hm. simpl in Hf |- *. rewrite serves_read by done. simpl. rewrite in_page_true by done. simpl.
    eexists. split; [done|]. injection Hf as <-.
    by rewrite (take_ge (tabulate g l k)) in * by (pose proof (zlen_tabulate g l k G4); unfold zlen in *; lia).
  - by exists s'.
Qed.
End Spec.
