(* ===== verification/V4vInsert.v ===== *)
(** * V4V: the insertion of a message as one circular write *)

From stdpp Require Import base list numbers gmap.
From Stdlib Require Import ZArith Lia.
From S2P Require Import Prelude Machine V4vTypes V4vRing V4vRingSafe V4vRingSpec.

Open Scope Z_scope.
Open Scope se_scope.

(** [bs] written at [tx] to a circular array of [L] bytes. *)
Definition cwrite (L tx : Z) (bs : list Z) (d : Z -> Z) (k : Z) : Z :=
  let j := (k - tx) mod L in
  if j <? zlen bs then znth bs j else d k.

(** The bytes of the ring behind its header. *)
Definition rdata (s : rstate) (mfns : list Z) (k : Z) : Z :=
  lin (m_mem (rs_m s)) mfns (sizeof_v4v_ring + k).

(** [bs] went to the ring at [tx]; the pages outside it did not change. *)
Definition cwrites (mfns : list Z) (L tx : Z) (bs : list Z) (s s' : rstate)
  : Prop :=
  same_ring (rs_ri s) (rs_ri s') /\ ri_tx_ptr (rs_ri s') = ri_tx_ptr (rs_ri s) /\
  ring_ok s' /\
  (forall k, 0 <= k < L -> rdata s' mfns k = cwrite L tx bs (rdata s mfns) k) /\
  (forall o, 0 <= o < sizeof_v4v_ring \/ sizeof_v4v_ring + L <= o ->
     lin (m_mem (rs_m s')) mfns o = lin (m_mem (rs_m s)) mfns o).

Lemma mod_shift a b L : 0 < L -> 0 <= a + b * L < L -> a mod L = a + b * L.
Proof. intros HL H. symmetry. apply (Z.mod_unique _ _ (- b)); lia. Qed.

Lemma cwrite_app L tx a b d k :
  0 < L -> zlen a + zlen b <= L -> 0 <= k < L ->
  cwrite L ((tx + zlen a) mod L) b (cwrite L tx a d) k = cwrite L tx (a ++ b) d k.
Proof.
  intros HL Hle Hk. unfold cwrite. rewrite zlen_app.
  pose proof (zlen_nonneg a). pose proof (zlen_nonneg b).
  rewrite Zminus_mod_idemp_r.
  replace (k - (tx + zlen a)) with (k - tx - zlen a) by lia.
  rewrite <- (Zminus_mod_idemp_l (k - tx)).
  pose proof (Z.mod_pos_bound (k - tx) L HL). set (j := (k - tx) mod L) in *.
  destruct (decide (j < zlen a)).
  - rewrite (mod_shift (j - zlen a) 1) by lia.
    destruct (Z.ltb_spec (j - zlen a + 1 * L) (zlen b)); [lia|].
    destruct (Z.ltb_spec j (zlen a)), (Z.ltb_spec j (zlen a + zlen b)); try lia.
    rewrite znth_app by lia. by destruct (Z.ltb_spec j (zlen a)); [|lia].
  - rewrite (mod_shift (j - zlen a) 0) by lia.
    destruct (Z.ltb_spec j (zlen a)), (Z.ltb_spec (j - zlen a + 0 * L) (zlen b)),
      (Z.ltb_spec j (zlen a + zlen b)); try lia.
    rewrite znth_app by lia. destruct (Z.ltb_spec j (zlen a)); [lia|].
    f_equal. lia.
Qed.

Lemma cwrites_app mfns L tx a b s1 s2 s3 :
  0 < L -> zlen a + zlen b <= L ->
  cwrites mfns L tx a s1 s2 ->
  cwrites mfns L ((tx + zlen a) mod L) b s2 s3 ->
  cwrites mfns L tx (a ++ b) s1 s3.
Proof.
  intros HL Hle (R12 & T12 & _ & D12 & O12) (R23 & T23 & K3 & D23 & O23).
  split; [by etrans|]. split; [congruence|]. split; [done|]. split.
  - intros k Hk. rewrite D23, <- cwrite_app by done.
    unfold cwrite at 1 3. by rewrite D12.
  - intros o Ho. by rewrite O23, O12.
Qed.

Lemma cwrites_nil mfns L tx s : 0 < L -> ring_ok s -> cwrites mfns L tx [] s s.
Proof.
  intros HL Hs. split; [reflexivity|]. split; [done|]. split; [done|].
  split; [|done]. intros k Hk. unfold cwrite. change (zlen []) with 0.
  pose proof (Z.mod_pos_bound (k - tx) L HL).
  by destruct (Z.ltb_spec ((k - tx) mod L) 0); [lia|].
Qed.

(** A write that does not reach the end of the ring. *)
Lemma writes_cwrites mfns L tx bs s s' :
  0 <= tx < L -> tx + zlen bs <= L ->
  writes mfns (lin_write (tx + sizeof_v4v_ring) bs) s s' ->
  cwrites mfns L tx bs s s'.
Proof.
  intros Htx Hle (R & T & K & M). pose proof (zlen_nonneg bs).
  split; [done|]. split; [done|]. split; [done|].
  unfold rdata, cwrite, sizeof_v4v_ring in *. split.
  - intros k Hk. rewrite M by lia. unfold lin_write.
    destruct (Z.leb_spec (tx + 64) (64 + k)); simpl.
    + rewrite (mod_shift _ 0) by lia.
      destruct (Z.ltb_spec (64 + k) (tx + 64 + zlen bs)),
        (Z.ltb_spec (k - tx + 0 * L) (zlen bs)); try lia.
      f_equal. lia.
    + rewrite (mod_shift _ 1) by lia.
      by destruct (Z.ltb_spec (k - tx + 1 * L) (zlen bs)); [lia|].
  - intros o Ho. rewrite M by lia. unfold lin_write.
    destruct (Z.leb_spec (tx + 64) o), (Z.ltb_spec o (tx + 64 + zlen bs));
      simpl; lia.
Qed.

(** The bytes [insert_loop] sends: [n] buffers, then what is left of [len]
    from the last one. *)
Fixpoint loop_payload (g : Z -> Z) (n : nat) (iovs buf len : Z) : list Z :=
  match n with
  | O => tabulate g buf len
  | S n =>
      let iov := v4v_iov_of_bytes (tabulate g iovs sizeof_v4v_iov) in
      tabulate g (iov_base iov) (iov_len iov) ++
      loop_payload g n (iovs + sizeof_v4v_iov) (iov_base iov)
        (len - iov_len iov)
  end.

(** The buffers fit in [len] bytes, one after the other. *)
Fixpoint iovs_fit (g : Z -> Z) (n : nat) (iovs len : Z) : Prop :=
  match n with
  | O => True
  | S n =>
      let iov := v4v_iov_of_bytes (tabulate g iovs sizeof_v4v_iov) in
      0 <= iov_len iov <= len /\
      iovs_fit g n (iovs + sizeof_v4v_iov) (len - iov_len iov)
  end.

Fixpoint iov_total (g : Z -> Z) (n : nat) (iovs : Z) : Z :=
  match n with
  | O => 0
  | S n =>
      iov_len (v4v_iov_of_bytes (tabulate g iovs sizeof_v4v_iov)) +
      iov_total g n (iovs + sizeof_v4v_iov)
  end.

Lemma zlen_loop_payload g n iovs buf len :
  0 <= len -> iovs_fit g n iovs len -> zlen (loop_payload g n iovs buf len) = len.
Proof.
  revert iovs buf len. induction n as [|n IH]; intros iovs buf len Hl Hf.
  - by apply zlen_tabulate.
  - cbn [loop_payload iovs_fit] in *. destruct Hf as [Hi Hf].
    rewrite zlen_app, zlen_tabulate, IH by (done || lia). lia.
Qed.

(** A ring of [L] bytes on the pages [mfns]. *)
Definition ring_at (mfns : list Z) (L : Z) (s : rstate) : Prop :=
  has_pages mfns s /\ ri_len (rs_ri s) = L /\
  sizeof_v4v_ring + L <= PAGE_SIZE * zlen mfns /\
  0 < L <= V4V_RING_MAX_SIZE.

Lemma ring_at_same mfns L s s' :
  ring_at mfns L s -> same_ring (rs_ri s) (rs_ri s') -> ring_ok s' ->
  ring_at mfns L s'.
Proof.
  intros (Hp & Hl & Hle & HL) Hr Ho. split; [by eapply has_pages_same|].
  split; [|done]. destruct Hr as (_ & -> & _). done.
Qed.

Section Insert.
Context `{E : HostEnv} (g : Z -> Z) {HE : Serves E g}.
Context (mfns : list Z) (Hnd : NoDup mfns) (L : Z).

Lemma memcpy_piece_spec s tx buf n :
  ring_at mfns L s -> 0 <= tx < L -> 0 < n -> tx + n <= L ->
  exists s', v4v_memcpy_to_guest_ring_from_guest (u32 (tx + sizeof_v4v_ring))
               buf n s = (s', Ok tt) /\
    cwrites mfns L tx (tabulate g buf n) s s'.
Proof using HE Hnd.
  intros (Hp & Hl & Hle & HL) Htx Hn Hn'.
  unfold V4V_RING_MAX_SIZE, sizeof_v4v_ring in *.
  rewrite u32_small by lia.
  destruct (memcpy_from_guest_spec g mfns Hnd s (tx + 64) buf n)
    as (s' & Hs' & Hw); [done|unfold V4V_RING_MAX_SIZE; lia..|].
  exists s'. split; [done|]. apply writes_cwrites; [done| |done].
  by rewrite zlen_tabulate by lia.
Qed.

Lemma insert_piece_spec s tx buf n :
  ring_at mfns L s -> 0 <= tx < L -> 0 < n <= L ->
  exists s', insert_piece buf n tx s = (s', Ok ((tx + n) mod L)) /\
    cwrites mfns L tx (tabulate g buf n) s s'.
Proof using HE Hnd.
  intros Hr Htx Hn. pose proof Hr as (_ & Hl & _ & HL).
  unfold V4V_RING_MAX_SIZE in HL.
  unfold insert_piece, bind at 1, gets. rewrite Hl. cbn [fst snd].
  rewrite s32_small by lia. rewrite (u32_small (L - tx)) by lia.
  destruct (Z.ltb_spec (L - tx) n) as [Hw|Hw].
  - destruct (memcpy_piece_spec s tx buf (L - tx)) as (s1 & H1 & C1);
      [done|lia..|].
    destruct (memcpy_piece_spec s1 0 (buf + (L - tx)) (n - (L - tx)))
      as (s2 & H2 & C2); [by eapply ring_at_same; [done|apply C1..]|lia..|].
    unfold bind. rewrite H1. unfold ret at 1. rewrite (u32_small (n - _)) by lia.
    rewrite H2. rewrite u32_small by lia. exists s2. split.
    + destruct (Z.eqb_spec (0 + (n - (L - tx))) L); [lia|].
      unfold ret. do 2 f_equal. rewrite (mod_shift (tx + n) (-1)); lia.
    + rewrite (tabulate_split g buf n (L - tx)) by lia.
      eapply cwrites_app; [lia| |done|]; rewrite ?zlen_tabulate by lia; [lia|].
      replace (tx + (L - tx)) with L by lia. by rewrite Z_mod_same_full.
  - destruct (memcpy_piece_spec s tx buf n) as (s1 & H1 & C1); [done|lia..|].
    unfold bind, ret at 1. rewrite H1. rewrite u32_small by lia.
    exists s1. split; [|done]. unfold ret. do 2 f_equal.
    destruct (Z.eqb_spec (tx + n) L) as [->|];
      [by rewrite Z_mod_same_full|rewrite Z.mod_small; lia].
Qed.

(** One access to the environment later. *)
Definition later (s : rstate) : rstate :=
  {| rs_m := set_time (S (m_time (rs_m s))) (rs_m s); rs_ri := rs_ri s |}.

Lemma copy_from_guest_spec s a n : 0 <= n ->
  on_machine (copy_from_guest_errno a n) s = (later s, Ok (tabulate g a n)).
Proof using HE.
  intros Hn. unfold on_machine, zoom, copy_from_guest_errno, bind. simpl.
  by rewrite serves_read.
Qed.

Lemma cwrites_later tx bs s s' :
  cwrites mfns L tx bs (later s) s' -> cwrites mfns L tx bs s s'.
Proof. done. Qed.

Lemma ring_at_later s : ring_at mfns L s -> ring_at mfns L (later s).
Proof. done. Qed.

(** The step of the loop that copies a buffer, when it is not empty. *)
Lemma insert_step_spec s tx buf k :
  ring_at mfns L s -> 0 <= tx < L -> 0 <= k <= L ->
  forall len, exists s',
    (if k =? 0 then ret (len, tx)
     else tx <- insert_piece buf k tx;; ret (s32 (len - k), tx)) s =
    (s', Ok (if k =? 0 then len else s32 (len - k), (tx + k) mod L)) /\
    cwrites mfns L tx (tabulate g buf k) s s'.
Proof using HE Hnd.
  intros Hr Htx Hk len. destruct (Z.eqb_spec k 0) as [->|].
  - exists s. rewrite Z.add_0_r, Z.mod_small by done. split; [done|].
    apply cwrites_nil; [lia|apply Hr].
  - destruct (insert_piece_spec s tx buf k) as (s' & Hs' & C);
      [done|done|lia|].
    exists s'. unfold bind. rewrite Hs'. done.
Qed.

Lemma insert_loop_spec n s iovs buf len tx :
  ring_at mfns L s -> 0 <= tx < L -> 0 <= len <= L -> iovs_fit g n iovs len ->
  exists s', insert_loop n iovs buf len tx s = (s', Ok ((tx + len) mod L)) /\
    cwrites mfns L tx (loop_payload g n iovs buf len) s s'.
Proof using HE Hnd.
  revert s iovs buf len tx.
  induction n as [|n IH]; intros s iovs buf len tx Hr Htx Hl Hf;
    pose proof Hr as (_ & _ & _ & HL); unfold V4V_RING_MAX_SIZE in HL;
    cbn [insert_loop iovs_fit loop_payload] in *.
  - unfold bind at 1, ret at 1. rewrite u32_small by lia.
    replace (V4V_MAX_RING_SIZE <? len) with false
      by (symmetry; apply Z.ltb_ge; unfold V4V_MAX_RING_SIZE; lia).
    rewrite serves_handle, Z.ltb_irrefl.
    destruct (insert_step_spec s tx buf len Hr Htx Hl len) as (s' & Hs' & C).
    exists s'. split; [|done]. 
    unfold bind at 1 2 3. cbn [negb fail_if]. unfold ret at 1 2 3.
    unfold bind at 1. by rewrite Hs'.
  - destruct Hf as [Hi Hf]. set (iov := v4v_iov_of_bytes _) in *.
    unfold bind at 1 2. rewrite copy_from_guest_spec by done.
    fold iov. unfold ret at 1. rewrite u32_small by lia.
    apply ring_at_later in Hr.
    destruct (Z.eqb_spec (iov_len iov) 0) as [E0|E0].
    + rewrite E0 in *. rewrite Z.sub_0_r in *.
      destruct (IH (later s) (iovs + sizeof_v4v_iov) (iov_base iov) len tx)
        as (s' & Hs' & C); [done..|].
      exists s'. split; [done|]. by apply cwrites_later.
    + replace (V4V_MAX_RING_SIZE <? iov_len iov) with false
        by (symmetry; apply Z.ltb_ge; unfold V4V_MAX_RING_SIZE; lia).
      rewrite serves_handle, u32_small by lia.
      replace (len <? iov_len iov) with false
        by (symmetry; apply Z.ltb_ge; lia).
      destruct (insert_step_spec (later s) tx (iov_base iov) (iov_len iov) Hr
        Htx ltac:(lia) len) as (s1 & H1 & C1).
      apply Z.eqb_neq in E0. rewrite E0 in H1.
      rewrite s32_small in H1 by lia.
      destruct (IH s1 (iovs + sizeof_v4v_iov) (iov_base iov)
        (len - iov_len iov) ((tx + iov_len iov) mod L)) as (s2 & H2 & C2).
      * by eapply ring_at_same; [done|apply C1..].
      * apply Z.mod_pos_bound. lia.
      * lia.
      * done.
      * exists s2. split.
        -- cbn [negb fail_if]. unfold bind at 1 2 3, ret at 1 2 3.
           rewrite s32_small by lia. unfold bind at 1.
           rewrite H1. cbn [fst snd]. rewrite H2. do 2 f_equal.
           rewrite Zplus_mod_idemp_l. f_equal. lia.
        -- apply cwrites_later. eapply cwrites_app; [lia| |done|].
           ++ rewrite zlen_tabulate, zlen_loop_payload by (done || lia). lia.
           ++ by rewrite zlen_tabulate by lia.
Qed.

(** ** The length of a vector of buffers *)

Lemma iov_count_spec n s iovs done :
  0 <= done -> iovs_fit g n iovs (iov_total g n iovs) ->
  done + iov_total g n iovs <= V4V_RING_MAX_SIZE ->
  exists s', v4v_iov_count n iovs done s = (s', Ok (done + iov_total g n iovs)) /\
    rs_ri s' = rs_ri s /\ m_mem (rs_m s') = m_mem (rs_m s).
Proof using HE.
  revert s iovs done. induction n as [|n IH]; intros s iovs done Hd Hf Hle;
    cbn [v4v_iov_count iov_total iovs_fit] in *.
  - exists s. by rewrite Z.add_0_r.
  - set (iov := v4v_iov_of_bytes _) in *.
    replace (iov_len iov + iov_total g n (iovs + sizeof_v4v_iov) - iov_len iov)
      with (iov_total g n (iovs + sizeof_v4v_iov)) in Hf by lia.
    destruct Hf as [Hi Hf].
    unfold bind at 1. rewrite copy_from_guest_spec by done. fold iov.
    destruct (Z.ltb_spec V4V_RING_MAX_SIZE (iov_len iov)); [lia|].
    destruct (Z.ltb_spec V4V_RING_MAX_SIZE (done + iov_len iov)); [lia|].
    destruct (IH (later s) (iovs + sizeof_v4v_iov) (done + iov_len iov))
      as (s' & Hs' & HR & HM); [lia|done|lia|].
    exists s'. unfold bind, fail_if, ret. rewrite Hs'.
    split; [do 2 f_equal; lia|done].
Qed.

(** ** The whole insertion *)

Lemma read_header_spec s :
  ring_at mfns L s ->
  exists s', v4v_memcpy_from_guest_ring 0 sizeof_v4v_ring s =
    (s', Ok (tabulate (lin (m_mem (rs_m s)) mfns) 0 sizeof_v4v_ring)) /\
    touch s s'.
Proof using HE.
  intros (Hp & _ & Hle & HL). unfold PAGE_SIZE, sizeof_v4v_ring in *.
  destruct (map_page_spec g mfns s 0 Hp) as (s' & f & Hm & Hf & Ht); [lia|].
  exists s'. split; [|done]. unfold v4v_memcpy_from_guest_ring.
  change (page_fuel 64) with 2%nat. change (Z.shiftr 0 PAGE_SHIFT) with 0.
  change (Z.land 0 (PAGE_SIZE - 1)) with 0. cbn [page_loop].
  change (PAGE_SIZE <? u32 (0 + 64)) with false. unfold bind. rewrite Hm, read_frame_spec by done. simpl.
  unfold ret. do 2 f_equal. destruct Ht as (_ & _ & _ & ->).
  apply tabulate_ext. intros i Hi. unfold lin, PAGE_SIZE. simpl.
  rewrite Z.div_small, Z.mod_small by lia. by rewrite Hf.
Qed.

Lemma update_tx_ptr_spec s tx :
  ring_at mfns L s ->
  exists s', v4v_update_tx_ptr tx s = (s', Ok tt) /\
    writes mfns (lin_write offsetof_tx_ptr (le_bytes 4 tx)) s s'.
Proof using HE Hnd.
  intros (Hp & _ & Hle & HL). unfold PAGE_SIZE, sizeof_v4v_ring in *.
  destruct (write_page_spec g mfns Hnd s 0 offsetof_tx_ptr 4 (le_bytes 4 tx))
    as (s1 & f & s2 & Hm & Hf & Hw); [done|lia|done|by rewrite zlen_le_bytes|done|].
  unfold v4v_update_tx_ptr, bind. rewrite Hm, Hf. exists s2. split; [done|].
  by rewrite take_ge in Hw by (rewrite length_le_bytes; done).
Qed.
End Insert.

(** The pointer of the reader, as the ring has it and as it is used. *)
Definition ring_rx (mfns : list Z) (s : rstate) : Z :=
  le_val (tabulate (lin (m_mem (rs_m s)) mfns) offsetof_rx_ptr 4).

Definition sane_rx (L rx : Z) : Z :=
  let r := u32 (V4V_ROUNDUP rx) in if L <=? r then 0 else r.

(** Bytes from [tx] to [rx]; all of them when the ring is empty. *)
Definition free_space (L tx rx : Z) : Z :=
  if rx =? tx then L else (rx - tx) mod L.

Lemma ring_space_free ring :
  0 < r_len ring <= V4V_RING_MAX_SIZE ->
  0 <= r_rx_ptr ring < r_len ring -> 0 <= r_tx_ptr ring < r_len ring ->
  ring_space ring = free_space (r_len ring) (r_tx_ptr ring) (r_rx_ptr ring).
Proof.
  unfold V4V_RING_MAX_SIZE, ring_space, free_space. intros HL Hr Ht.
  destruct (_ =? _); [apply s32_small; lia|].
  rewrite (s32_small (_ - _)) by lia.
  destruct (Z.ltb_spec (r_rx_ptr ring - r_tx_ptr ring) 0).
  - rewrite s32_small, (mod_shift _ 1) by lia. lia.
  - rewrite Z.mod_small; lia.
Qed.

Lemma message_size_small n : 0 <= n <= V4V_RING_MAX_SIZE ->
  message_size n = V4V_ROUNDUP n + 16.
Proof.
  unfold V4V_RING_MAX_SIZE, message_size, sizeof_v4v_ring_message_header.
  intros Hn. pose proof (V4V_ROUNDUP_bounds n).
  rewrite s32_small by lia. rewrite (size_of_int_small (V4V_ROUNDUP n)) by lia.
  apply u64_small. lia.
Qed.

Lemma sane_rx_range L rx : 0 < L -> 0 <= sane_rx L rx < L.
Proof.
  intros HL. unfold sane_rx. pose proof (u32_range (V4V_ROUNDUP rx)).
  destruct (Z.leb_spec L (u32 (V4V_ROUNDUP rx))); lia.
Qed.

Lemma free_space_range L tx rx : 0 < L -> 0 <= tx < L -> 0 <= rx < L ->
  0 < free_space L tx rx <= L.
Proof.
  intros HL Ht Hr. unfold free_space. destruct (Z.eqb_spec rx tx); [lia|].
  destruct (decide (tx < rx)).
  - rewrite Z.mod_small; lia.
  - rewrite (mod_shift _ 1); lia.
Qed.

(** Where the next message starts: the padding does not run past the end. *)
Lemma next_tx L tx n : 0 < L <= V4V_RING_MAX_SIZE -> L mod 16 = 0 ->
  0 <= tx < L -> tx mod 16 = 0 -> 0 <= n -> V4V_ROUNDUP n + 16 < L ->
  let t := (((tx + 16) mod L) + n) mod L in
  let t := u32 (V4V_ROUNDUP t) in
  (if L <=? t then u32 (t - L) else t) = (tx + 16 + V4V_ROUNDUP n) mod L.
Proof.
  unfold V4V_RING_MAX_SIZE. intros HL HLm Htx Htm Hn Hfit. simpl.
  rewrite Zplus_mod_idemp_l. rewrite V4V_ROUNDUP_div in *.
  pose proof (Z.mod_pos_bound (tx + 16 + n) L ltac:(lia)) as Hb.
  rewrite u32_small by zlia.
  rewrite V4V_ROUNDUP_div.
  assert (exists q, L = 16 * q /\ exists t, tx = 16 * t) as (q & Hq & t & Ht).
  { exists (L / 16). split; [zlia|]. exists (tx / 16). zlia. }
  destruct (Z.ltb_spec (tx + 16 + n) L).
  - rewrite (Z.mod_small (tx + 16 + n)) in * by lia.
    destruct (Z.leb_spec L (16 * ((tx + 16 + n + 15) / 16))).
    + assert (16 * ((tx + 16 + n + 15) / 16) = L) by zlia.
      rewrite u32_small by lia. rewrite (mod_shift _ (-1)); zlia.
    + rewrite Z.mod_small; zlia.
  - rewrite (mod_shift (tx + 16 + n) (-1)) in * by zlia.
    destruct (Z.leb_spec L (16 * ((tx + 16 + n + -1 * L + 15) / 16))); [zlia|].
    rewrite (mod_shift _ (-1)); zlia.
Qed.

(** The message [bs], header and payload, was put in the ring at [tx]: its
    bytes are there, both copies of [tx_ptr] are past its padding, and
    nothing else in the pages changed. *)
Definition inserted (mfns : list Z) (L tx : Z) (bs : list Z) (s s' : rstate)
  : Prop :=
  let tx' := (tx + V4V_ROUNDUP (zlen bs)) mod L in
  same_ring (rs_ri s) (rs_ri s') /\ ring_ok s' /\
  ri_tx_ptr (rs_ri s') = tx' /\
  (forall k, 0 <= k < L -> rdata s' mfns k = cwrite L tx bs (rdata s mfns) k) /\
  (forall o, 0 <= o < sizeof_v4v_ring ->
     lin (m_mem (rs_m s')) mfns o =
     lin_write offsetof_tx_ptr (le_bytes 4 tx') (lin (m_mem (rs_m s)) mfns) o) /\
  (forall o, sizeof_v4v_ring + L <= o ->
     lin (m_mem (rs_m s')) mfns o = lin (m_mem (rs_m s)) mfns o).

(** The message a call sends. *)
Definition message_bytes (src : v4v_addr) (proto : Z) (payload : list Z)
  : list Z :=
  bytes_of_message_header
    {| mh_len := u32 (zlen payload + sizeof_v4v_ring_message_header);
       mh_source := src; mh_protocol := proto |} ++ payload.

(** A writer's view of a well-formed ring. *)
Definition tx_ok (L : Z) (s : rstate) : Prop :=
  L mod 16 = 0 /\ 0 <= ri_tx_ptr (rs_ri s) < L /\ ri_tx_ptr (rs_ri s) mod 16 = 0.

Lemma V4V_ROUNDUP_add16 n : V4V_ROUNDUP (16 + n) = 16 + V4V_ROUNDUP n.
Proof. rewrite !V4V_ROUNDUP_div. zlia. Qed.

Section Message.
Context `{E : HostEnv} (g : Z -> Z) {HE : Serves E g}.
Context (mfns : list Z) (Hnd : NoDup mfns) (L : Z).

(** Committing [tx'] after the bytes [bs] went in at [tx]. *)
Lemma commit_spec s s1 tx bs :
  ring_at mfns L s -> cwrites mfns L tx bs s s1 ->
  let tx' := (tx + V4V_ROUNDUP (zlen bs)) mod L in
  exists s', (set_ring (set_ri_tx_ptr tx');; v4v_update_tx_ptr tx') s1 =
    (s', Ok tt) /\ inserted mfns L tx bs s s'.
Proof using HE Hnd.
  intros Hr (R1 & _ & K1 & D1 & O1) tx'.
  set (s2 := {| rs_m := rs_m s1; rs_ri := set_ri_tx_ptr tx' (rs_ri s1) |}).
  assert (same_ring (rs_ri s) (rs_ri s2)) as R2 by apply R1.
  assert (ring_at mfns L s2) as Hr2 by (by eapply ring_at_same).
  destruct (update_tx_ptr_spec g mfns Hnd L s2 tx' Hr2)
    as (s3 & H3 & R3 & T3 & K3 & W3).
  change (m_mem (rs_m s2)) with (m_mem (rs_m s1)) in W3.
  exists s3. split; [done|]. split; [by etrans|]. split; [done|].
  split; [done|].
  assert (forall o, 0 <= o -> o < offsetof_tx_ptr \/ offsetof_tx_ptr + 4 <= o ->
    lin (m_mem (rs_m s3)) mfns o = lin (m_mem (rs_m s1)) mfns o) as Hout.
  { intros o Ho Ho'. rewrite W3 by done. unfold lin_write.
    rewrite zlen_le_bytes. change (Z.of_nat 4) with 4.
    destruct (Z.leb_spec offsetof_tx_ptr o),
      (Z.ltb_spec o (offsetof_tx_ptr + 4)); simpl; lia. }
  unfold sizeof_v4v_ring, offsetof_tx_ptr in *. split; [|split].
  - intros k Hk. unfold rdata, sizeof_v4v_ring. rewrite Hout by lia. by apply D1.
  - intros o Ho. rewrite W3 by lia. unfold lin_write. by rewrite O1 by lia.
  - intros o Ho. pose proof Hr as (_ & _ & _ & HL).
    rewrite Hout by lia. apply O1. by right.
Qed.

Lemma header_spec s tx mh :
  ring_at mfns L s -> L mod 16 = 0 -> 0 <= tx < L -> tx mod 16 = 0 ->
  exists s', v4v_memcpy_to_guest_ring (u32 (tx + sizeof_v4v_ring))
      (bytes_of_message_header mh) sizeof_v4v_ring_message_header s = (s', Ok tt) /\
    cwrites mfns L tx (bytes_of_message_header mh) s s'.
Proof using HE Hnd.
  intros (Hp & _ & Hle & HL) HLm Htx Htm.
  unfold V4V_RING_MAX_SIZE, sizeof_v4v_ring in *. rewrite u32_small by lia.
  assert (tx + 16 <= L) by zlia.
  destruct (memcpy_to_spec g mfns Hnd s (tx + 64) (bytes_of_message_header mh))
    as (s' & Hs' & Hw); rewrite ?zlen_message_header;
    [done|lia|done|lia|].
  rewrite zlen_message_header in Hs'. exists s'. split; [done|].
  apply writes_cwrites; [done|by rewrite zlen_message_header|done].
Qed.

(** Header, payload and commit, once the space is known to be there. *)
Lemma send_spec s src proto buf len iovs niov :
  ring_at mfns L s -> L mod 16 = 0 ->
  let tx := ri_tx_ptr (rs_ri s) in
  0 <= tx < L -> tx mod 16 = 0 ->
  0 <= len -> iovs_fit g niov iovs len -> V4V_ROUNDUP len + 16 < L ->
  let mh := {| mh_len := u32 (len + sizeof_v4v_ring_message_header);
               mh_source := src; mh_protocol := proto |} in
  exists s',
    (v4v_memcpy_to_guest_ring (u32 (tx + sizeof_v4v_ring))
       (bytes_of_message_header mh) sizeof_v4v_ring_message_header;;
     let tx := u32 (tx + sizeof_v4v_ring_message_header) in
     let tx := if tx =? L then 0 else tx in
     tx <- insert_loop niov iovs buf len tx;;
     let tx := u32 (V4V_ROUNDUP tx) in
     let tx := if L <=? tx then u32 (tx - L) else tx in
     set_ring (set_ri_tx_ptr tx);;
     v4v_update_tx_ptr tx) s = (s', Ok tt) /\
    inserted mfns L tx
      (message_bytes src proto (loop_payload g niov iovs buf len)) s s'.
Proof using HE Hnd.
  intros Hr HLm tx Htx Htm Hlen Hfit Hfree mh.
  pose proof Hr as (_ & _ & _ & HL). pose proof (V4V_ROUNDUP_bounds len).
  destruct (header_spec s tx mh Hr HLm Htx Htm) as (s1 & H1 & C1).
  assert ((if u32 (tx + sizeof_v4v_ring_message_header) =? L then 0
           else u32 (tx + sizeof_v4v_ring_message_header)) = (tx + 16) mod L)
    as Etx.
  { unfold sizeof_v4v_ring_message_header, V4V_RING_MAX_SIZE in *.
    rewrite u32_small by lia. assert (tx + 16 <= L) by zlia.
    destruct (Z.eqb_spec (tx + 16) L) as [->|];
      [by rewrite Z_mod_same_full|rewrite Z.mod_small; lia]. }
  destruct (insert_loop_spec g mfns Hnd L niov s1 iovs buf len ((tx + 16) mod L))
    as (s2 & H2 & C2);
    [by eapply ring_at_same; [done|apply C1..]|apply Z.mod_pos_bound; lia|lia|done|].
  assert (cwrites mfns L tx (message_bytes src proto
    (loop_payload g niov iovs buf len)) s s2) as C.
  { unfold message_bytes. rewrite zlen_loop_payload by done. fold mh.
    eapply cwrites_app; [lia| |done|]; rewrite zlen_message_header; [|done].
    rewrite zlen_loop_payload by done. lia. }
  destruct (commit_spec s s2 tx _ Hr C) as (s3 & H3 & Hins).
  exists s3. split; [|done]. unfold bind at 1. rewrite H1. cbv zeta. rewrite Etx.
  unfold bind at 1. rewrite H2. rewrite next_tx by done.
  rewrite <- H3. unfold message_bytes.
  rewrite zlen_app, zlen_message_header, V4V_ROUNDUP_add16, zlen_loop_payload
    by done. by rewrite Z.add_assoc.
Qed.

Lemma insert_message_spec s src proto buf len iovs niov :
  ring_at mfns L s -> tx_ok L s ->
  0 <= len -> iovs_fit g niov iovs len ->
  let tx := ri_tx_ptr (rs_ri s) in
  V4V_ROUNDUP len + 16 < free_space L tx (sane_rx L (ring_rx mfns s)) ->
  exists s', insert_message src proto buf len iovs niov s = (s', Ok tt) /\
    inserted mfns L tx
      (message_bytes (id_addr src) proto (loop_payload g niov iovs buf len)) s s'.
Proof using HE Hnd.
  intros Hr (HLm & Htx & Htm) Hlen Hfit tx Hfree.
  pose proof Hr as (Hp & Hl & Hle & HL).
  pose proof (V4V_ROUNDUP_bounds len) as Hround.
  pose proof (sane_rx_range L (ring_rx mfns s) ltac:(lia)) as Hrx.
  pose proof (free_space_range L tx _ ltac:(lia) Htx Hrx) as Hfr.
  unfold V4V_RING_MAX_SIZE in HL.
  destruct (read_header_spec g mfns L s Hr) as (s1 & H1 & T1).
  pose proof T1 as (R1 & TX1 & K1 & M1).
  assert (ri_len (rs_ri s1) = L) as HL1 by (destruct R1 as (_ & -> & _); done).
  destruct (send_spec s1 (id_addr src) proto buf len iovs niov)
    as (s2 & H2 & Hins); rewrite ?TX1; try done;
    [by eapply ring_at_same|lia|].
  exists s2. split.
  - unfold insert_message. unfold bind at 1. rewrite H1.
    unfold bind at 1, gets. cbv zeta. set (ring := v4v_sanitize_ring _ _).
    assert (r_rx_ptr ring = sane_rx L (ring_rx mfns s)) as Erx.
    { subst ring. unfold v4v_sanitize_ring, sane_rx, ring_rx. simpl. rewrite HL1.
      unfold field. by rewrite slice_tabulate by done. }
    assert (r_tx_ptr ring = tx) as Etx by done.
    assert (r_len ring = L) as El by done.
    rewrite ring_space_free
      by (rewrite ?Erx, ?Etx, ?El; unfold V4V_RING_MAX_SIZE; lia).
    rewrite Erx, Etx, El, message_size_small by (unfold V4V_RING_MAX_SIZE; lia).
    rewrite size_of_int_small by lia.
    destruct (Z.leb_spec (free_space L tx (sane_rx L (ring_rx mfns s)))
      (V4V_ROUNDUP len + 16)); [lia|].
    cbn [fail_if]. unfold bind at 1, ret at 1. rewrite HL1.
    rewrite TX1 in H2. exact H2.
  - rewrite TX1 in Hins. fold tx in Hins.
    destruct Hins as (I1 & I2 & I3 & I4 & I5 & I6). rewrite M1 in I5, I6.
    unfold inserted. split; [by etrans|]. split; [done|]. split; [done|].
    split; [|done]. intros k Hk. rewrite I4 by done. unfold cwrite, rdata.
    by rewrite M1.
Qed.

(** [v4v_ringbuf_insert] when there is room: it returns [0] and the length,
    and the message is in the ring. *)
Lemma insert_spec s src proto buf len0 iovs niov :
  ring_at mfns L s -> tx_ok L s -> 0 <= niov ->
  let n := if niov =? 0 then len0 else iov_total g (Z.to_nat niov) iovs in
  0 <= n -> iovs_fit g (Z.to_nat niov) iovs n ->
  let tx := ri_tx_ptr (rs_ri s) in
  V4V_ROUNDUP n + 16 < free_space L tx (sane_rx L (ring_rx mfns s)) ->
  exists s', v4v_ringbuf_insert src proto buf len0 iovs niov s =
    (s', Ok (0, n)) /\
    inserted mfns L tx (message_bytes (id_addr src) proto
      (loop_payload g (Z.to_nat niov) iovs buf n)) s s'.
Proof using HE Hnd.
  intros Hr Ht Hniov n Hn Hfit tx Hfree.
  pose proof Hr as (_ & Hl & _ & HL). pose proof Ht as (_ & Htx & _).
  pose proof (V4V_ROUNDUP_bounds n).
  pose proof (sane_rx_range L (ring_rx mfns s) ltac:(lia)) as Hrx.
  pose proof (free_space_range L tx _ ltac:(lia) Htx Hrx) as Hfr.
  unfold V4V_RING_MAX_SIZE in HL.
  assert (exists s1, (if niov =? 0 then ret len0
    else recover (v4v_iov_count (Z.to_nat niov) iovs 0) id) s = (s1, Ok n) /\
    rs_ri s1 = rs_ri s /\ m_mem (rs_m s1) = m_mem (rs_m s))
    as (s1 & H1 & R1 & M1).
  { subst n. destruct (niov =? 0); [by exists s|].
    destruct (iov_count_spec g (Z.to_nat niov) s iovs 0) as (s1 & H1 & ? & ?);
      [done|done|unfold V4V_RING_MAX_SIZE; lia|].
    exists s1. unfold recover. by rewrite H1. }
  assert (ring_rx mfns s1 = ring_rx mfns s) as Erx
    by (unfold ring_rx; by rewrite M1).
  destruct (insert_message_spec s1 src proto buf n iovs (Z.to_nat niov))
    as (s2 & H2 & Hins); rewrite ?R1, ?Erx; try done.
  { by eapply ring_at_same; [done|rewrite R1|unfold ring_ok; rewrite R1; apply Hr]. }
  { unfold tx_ok. by rewrite R1. }
  exists s2. split.
  - unfold v4v_ringbuf_insert. unfold bind at 1, gets.
    rewrite Hl. destruct (Z.eqb_spec L 0); [lia|].
    unfold bind at 1. rewrite H1.
    destruct (Z.ltb_spec n 0); [lia|]. rewrite andb_false_r.
    rewrite message_size_small by (unfold V4V_RING_MAX_SIZE; lia).
    destruct (Z.leb_spec L (V4V_ROUNDUP n + 16)); [lia|].
    unfold bind, code. by rewrite H2.
  - unfold inserted, rdata, cwrite in *. rewrite R1 in Hins.
    by rewrite M1 in Hins.
Qed.
End Message.
