(* ===== verification/V4vQueue.v ===== *)
(** * V4V: the reader, and the ring as a queue of messages

    [v4v_copy_out] of xen/include/public/v4v.h, the function with which a
    guest takes the next message out of its ring, and the refinement: the
    bytes between the two pointers are a first-in first-out queue of
    messages, to which [v4v_ringbuf_insert] appends and from which
    [v4v_copy_out] takes. *)

From stdpp Require Import base list numbers gmap.
From Stdlib Require Import ZArith Lia.
From S2P Require Import Prelude Machine V4vTypes V4vRing V4vRingSafe.
From S2P Require Import V4vRingSpec V4vInsert.

Open Scope Z_scope.

(** ** The reader's side *)

(** A ring as the guest that owns it sees it. *)
Record guest_ring : Type := {
  gr_len : Z;
  gr_rx_ptr : Z;
  gr_tx_ptr : Z;
  gr_ring : Z -> Z
}.

Definition set_gr_rx_ptr (x : Z) (r : guest_ring) : guest_ring :=
  {| gr_len := gr_len r; gr_rx_ptr := x; gr_tx_ptr := gr_tx_ptr r;
     gr_ring := gr_ring r |}.

(** [v4v_ring_bytes_to_read] *)
Definition v4v_ring_bytes_to_read (r : guest_ring) : Z :=
  let ret := s32 (gr_tx_ptr r - gr_rx_ptr r) in
  if 0 <=? ret then ret else u32 (gr_len r + ret).

(** What a call that finds a message gives: the return value, [*from],
    [*protocol] and the bytes written to the buffer. *)
Record copied : Type := {
  co_ret : Z;
  co_from : v4v_addr;
  co_protocol : Z;
  co_buf : list Z
}.

(** [v4v_copy_out]: [None] is the return value [-1]; [has_buf] tells whether
    the buffer is given, [t] is its size. *)
Definition v4v_copy_out (r : guest_ring) (has_buf : bool) (t : Z)
    (consume : bool) : guest_ring * option copied :=
  let btr := v4v_ring_bytes_to_read r in
  let rxp := gr_rx_ptr r in
  if btr <? sizeof_v4v_ring_message_header then (r, None)
  else
    let mh := message_header_of_bytes
                (tabulate (gr_ring r) rxp sizeof_v4v_ring_message_header) in
    let len := mh_len mh in
    if btr <? len then (r, None)
    else
      let rxp := u32 (rxp + sizeof_v4v_ring_message_header) in
      let rxp := if rxp =? gr_len r then 0 else rxp in
      let len := u32 (len - sizeof_v4v_ring_message_header) in
      let ret := s32 len in
      let bte := u32 (gr_len r - rxp) in
      let '(buf, rxp, len, t) :=
        if bte <? len then
          if t <? bte
          then (if has_buf then tabulate (gr_ring r) rxp t else [],
                0, u32 (len - bte), 0)
          else (if has_buf then tabulate (gr_ring r) rxp bte else [],
                0, u32 (len - bte), t - bte)
        else ([], rxp, len, t) in
      let buf :=
        if has_buf && negb (t =? 0)
        then buf ++ tabulate (gr_ring r) rxp (if t <? len then t else len)
        else buf in
      let rxp := u32 (rxp + u32 (V4V_ROUNDUP len)) in
      let rxp := if rxp =? gr_len r then 0 else rxp in
      (if consume then set_gr_rx_ptr rxp r else r,
       Some {| co_ret := ret; co_from := mh_source mh;
               co_protocol := mh_protocol mh; co_buf := buf |}).

(** ** The abstract queue *)

Record message : Type := {
  msg_source : v4v_addr;
  msg_protocol : Z;
  msg_payload : list Z
}.

(** The fields of a message are in the range of their types. *)
Definition message_ok (m : message) : Prop :=
  0 <= addr_port (msg_source m) < 2 ^ 32 /\
  0 <= addr_domain (msg_source m) < 2 ^ 16 /\
  0 <= msg_protocol m < 2 ^ 32.

Definition bytes_of_message (m : message) : list Z :=
  message_bytes (msg_source m) (msg_protocol m) (msg_payload m).

(** Bytes a message takes in the ring, with its padding. *)
Definition msg_size (m : message) : Z :=
  sizeof_v4v_ring_message_header + V4V_ROUNDUP (zlen (msg_payload m)).

Fixpoint queue_size (q : list message) : Z :=
  match q with
  | [] => 0
  | m :: q => msg_size m + queue_size q
  end.

(** The circular array [d] has the message [m] at [p]. *)
Definition msg_at (d : Z -> Z) (L p : Z) (m : message) : Prop :=
  forall j, 0 <= j < zlen (bytes_of_message m) ->
    d ((p + j) mod L) = znth (bytes_of_message m) j.

Fixpoint queue_at (d : Z -> Z) (L p : Z) (q : list message) : Prop :=
  match q with
  | [] => True
  | m :: q => msg_at d L p m /\ message_ok m /\ queue_at d L (p + msg_size m) q
  end.

(** The ring [d] with the pointers [rx] and [tx] holds the queue [q]. *)
Record holds (d : Z -> Z) (L rx tx : Z) (q : list message) : Prop := {
  holds_len : 0 < L <= V4V_RING_MAX_SIZE /\ L mod 16 = 0;
  holds_rx : 0 <= rx < L /\ rx mod 16 = 0;
  holds_tx : tx = (rx + queue_size q) mod L;
  holds_size : queue_size q < L;
  holds_msgs : queue_at d L rx q
}.

(** ** Facts about the layout of the queue *)

Lemma message_header_roundtrip mh :
  0 <= mh_len mh < 2 ^ 32 -> 0 <= addr_port (mh_source mh) < 2 ^ 32 ->
  0 <= addr_domain (mh_source mh) < 2 ^ 16 -> 0 <= mh_protocol mh < 2 ^ 32 ->
  message_header_of_bytes (bytes_of_message_header mh) = mh.
Proof.
  destruct mh as [l [p d] pr]. simpl. intros Hl Hp Hd Hpr.
  transitivity {| mh_len := le_val (le_bytes 4 l);
    mh_source := {| addr_port := le_val (le_bytes 4 p);
                    addr_domain := le_val (le_bytes 2 d) |};
    mh_protocol := le_val (le_bytes 4 pr) |}; [reflexivity|].
  rewrite !le_val_bytes. by rewrite !Z.mod_small.
Qed.

Lemma zlen_message m :
  zlen (bytes_of_message m) = 16 + zlen (msg_payload m).
Proof.
  unfold bytes_of_message, message_bytes.
  by rewrite zlen_app, zlen_message_header.
Qed.

Lemma msg_size_bounds m :
  zlen (bytes_of_message m) <= msg_size m /\ 16 <= msg_size m /\
  msg_size m mod 16 = 0.
Proof.
  rewrite zlen_message. unfold msg_size, sizeof_v4v_ring_message_header.
  pose proof (V4V_ROUNDUP_bounds (zlen (msg_payload m))).
  pose proof (zlen_nonneg (msg_payload m)).
  rewrite V4V_ROUNDUP_div in *. split; [lia|]. split; [lia|zlia].
Qed.

Lemma queue_size_bounds q : 0 <= queue_size q /\ queue_size q mod 16 = 0.
Proof.
  induction q as [|m q IH]; simpl; [done|].
  pose proof (msg_size_bounds m). zlia.
Qed.

Lemma queue_size_app q1 q2 : queue_size (q1 ++ q2) = queue_size q1 + queue_size q2.
Proof. induction q1; simpl; lia. Qed.

(** A queue depends only on the bytes it occupies. *)
Lemma queue_at_ext d d' L p q :
  (forall j, 0 <= j < queue_size q -> d ((p + j) mod L) = d' ((p + j) mod L)) ->
  queue_at d L p q -> queue_at d' L p q.
Proof.
  revert p. induction q as [|m q IH]; intros p Hd Hq; [done|].
  simpl in *. destruct Hq as (Hm & Hok & Hq).
  pose proof (msg_size_bounds m). pose proof (queue_size_bounds q).
  split; [|split; [done|]].
  - intros j Hj. rewrite <- Hd by lia. by apply Hm.
  - apply IH; [|done]. intros j Hj.
    rewrite <- Z.add_assoc. apply Hd. lia.
Qed.

Lemma queue_at_app d L p q m :
  queue_at d L p q -> msg_at d L (p + queue_size q) m -> message_ok m ->
  queue_at d L p (q ++ [m]).
Proof.
  revert p. induction q as [|m' q IH]; intros p Hq Hm Hok; simpl in *.
  - by rewrite Z.add_0_r in Hm.
  - destruct Hq as (? & ? & ?). split; [done|]. split; [done|].
    apply IH; [done| |done]. by rewrite <- Z.add_assoc.
Qed.

Lemma queue_at_mod d L p q : queue_at d L (p mod L) q <-> queue_at d L p q.
Proof.
  revert p. induction q as [|m q IH]; intros p; simpl; [done|].
  assert (msg_at d L (p mod L) m <-> msg_at d L p m) as ->.
  { unfold msg_at. split; intros H j Hj; specialize (H j Hj);
      by rewrite Zplus_mod_idemp_l in *. }
  rewrite <- (IH (p mod L + _)), Zplus_mod_idemp_l, IH. done.
Qed.

(** ** The queue and its two ends *)

Lemma holds_free_space d L rx tx q :
  holds d L rx tx q -> free_space L tx rx = L - queue_size q.
Proof.
  intros [[HL _] [Hrx _] Htx Hsz _]. unfold free_space. subst tx.
  pose proof (queue_size_bounds q) as [Hq _].
  destruct (Z.eqb_spec rx ((rx + queue_size q) mod L)) as [E|E].
  - destruct (decide (rx + queue_size q < L)).
    + rewrite Z.mod_small in E by lia. lia.
    + rewrite (mod_shift _ (-1)) in E by lia. lia.
  - destruct (decide (rx + queue_size q < L)).
    + rewrite (Z.mod_small (rx + queue_size q)) in * by lia.
      rewrite (mod_shift _ 1); lia.
    + rewrite (mod_shift (rx + queue_size q) (-1)) in * by lia.
      rewrite (mod_shift _ 0); lia.
Qed.

(** Appending a message that leaves at least one byte free. *)
Lemma holds_append d d' L rx tx q m :
  holds d L rx tx q -> message_ok m -> queue_size q + msg_size m < L ->
  (forall k, 0 <= k < L -> d' k = cwrite L tx (bytes_of_message m) d k) ->
  holds d' L rx ((tx + msg_size m) mod L) (q ++ [m]).
Proof.
  intros [[HL HLm] Hrx Htx Hsz Hq] Hok Hfit Hd'.
  pose proof (msg_size_bounds m) as (Hms & _). pose proof (queue_size_bounds q) as [Hqs _].
  assert (forall j, d' ((rx + j) mod L) =
    let i := (j - queue_size q) mod L in
    if i <? zlen (bytes_of_message m) then znth (bytes_of_message m) i
    else d ((rx + j) mod L)) as Hpos.
  { intros j. rewrite Hd' by (apply Z.mod_pos_bound; lia).
    unfold cwrite. subst tx. rewrite <- Zminus_mod.
    by replace (rx + j - (rx + queue_size q)) with (j - queue_size q) by lia. }
  split; [done|done| | |].
  - rewrite queue_size_app. simpl. subst tx. rewrite Zplus_mod_idemp_l. f_equal. lia.
  - rewrite queue_size_app. simpl. lia.
  - apply queue_at_app; [|intros j Hj|done].
    + eapply queue_at_ext; [|done]. intros j Hj. rewrite Hpos. cbv zeta.
      rewrite (mod_shift (j - queue_size q) 1) by lia.
      by destruct (Z.ltb_spec (j - queue_size q + 1 * L)
        (zlen (bytes_of_message m))); [lia|].
    + rewrite <- Z.add_assoc, Hpos. cbv zeta.
      replace (queue_size q + j - queue_size q) with j by lia.
      rewrite Z.mod_small by lia.
      by destruct (Z.ltb_spec j (zlen (bytes_of_message m))); [|lia].
Qed.

Lemma bytes_to_read_holds r q :
  holds (gr_ring r) (gr_len r) (gr_rx_ptr r) (gr_tx_ptr r) q ->
  v4v_ring_bytes_to_read r = queue_size q.
Proof.
  intros [[HL _] [Hrx _] Htx Hsz _]. unfold v4v_ring_bytes_to_read.
  pose proof (queue_size_bounds q) as [Hq _]. unfold V4V_RING_MAX_SIZE in HL.
  rewrite Htx. pose proof (Z.mod_pos_bound (gr_rx_ptr r + queue_size q) (gr_len r)).
  rewrite s32_small by lia.
  destruct (decide (gr_rx_ptr r + queue_size q < gr_len r)).
  - rewrite Z.mod_small by lia. destruct (Z.leb_spec 0 (gr_rx_ptr r + queue_size q - gr_rx_ptr r)); lia.
  - rewrite (mod_shift _ (-1)) by lia.
    destruct (Z.leb_spec 0 (gr_rx_ptr r + queue_size q + -1 * gr_len r - gr_rx_ptr r)); [lia|].
    rewrite u32_small; lia.
Qed.

(** Consecutive payload bytes in the ring. *)
Lemma payload_piece d L p m a k b :
  msg_at d L p m -> 0 <= a -> 0 <= k -> a + k <= zlen (msg_payload m) ->
  (forall j, 0 <= j < k -> (p + 16 + a + j) mod L = b + j) ->
  tabulate d b k = take (Z.to_nat k) (drop (Z.to_nat a) (msg_payload m)).
Proof.
  intros Hm Ha Hk Hle Hpos.
  assert (zlen (drop (Z.to_nat a) (msg_payload m)) = zlen (msg_payload m) - a)
    by (apply zlen_drop; lia).
  apply zlist_eq.
  - rewrite zlen_tabulate, zlen_take; lia.
  - rewrite zlen_tabulate by done. intros j Hj.
    rewrite znth_tabulate, znth_take, znth_drop by lia.
    rewrite <- Hpos by done.
    replace (p + 16 + a + j) with (p + (16 + (a + j))) by lia.
    rewrite Hm by (rewrite zlen_message; lia).
    unfold bytes_of_message, message_bytes.
    rewrite znth_app, zlen_message_header by lia.
    destruct (Z.ltb_spec (16 + (a + j)) 16); [lia|]. f_equal. lia.
Qed.

(** The header of the message at [p], a multiple of 16, does not wrap. *)
Lemma header_piece d L p m :
  0 <= p < L -> p mod 16 = 0 -> L mod 16 = 0 -> msg_at d L p m -> message_ok m ->
  zlen (msg_payload m) + 16 < 2 ^ 32 ->
  message_header_of_bytes (tabulate d p 16) =
  {| mh_len := zlen (msg_payload m) + 16; mh_source := msg_source m;
     mh_protocol := msg_protocol m |}.
Proof.
  intros Hp Hpm HLm Hm (Hok1 & Hok2 & Hok3) Hn.
  pose proof (zlen_nonneg (msg_payload m)).
  set (mh := {| mh_len := zlen (msg_payload m) + 16; mh_source := msg_source m;
     mh_protocol := msg_protocol m |}).
  assert (tabulate d p 16 = bytes_of_message_header mh) as ->.
  { apply zlist_eq; [by rewrite zlen_tabulate, zlen_message_header|].
    rewrite zlen_tabulate by done. intros j Hj.
    rewrite znth_tabulate by done.
    replace (p + j) with ((p + j) mod L) by (apply Z.mod_small; zlia).
    rewrite Hm by (rewrite zlen_message; lia).
    unfold bytes_of_message, message_bytes.
    rewrite znth_app, zlen_message_header by lia.
    destruct (Z.ltb_spec j 16); [|lia].
    unfold sizeof_v4v_ring_message_header. by rewrite u32_small by lia. }
  apply message_header_roundtrip; simpl; lia.
Qed.

(** The copying part of [v4v_copy_out] gives a prefix of the payload. *)
Definition copy_payload (d : Z -> Z) (L rxp len t : Z) : list Z :=
  let bte := L - rxp in
  if bte <? len then
    if t <? bte then tabulate d rxp t
    else tabulate d rxp bte ++
         (if t - bte =? 0 then []
          else tabulate d 0 (if t - bte <? len - bte then t - bte else len - bte))
  else if t =? 0 then [] else tabulate d rxp (if t <? len then t else len).

Lemma copy_payload_take d L p m t :
  0 < L -> msg_at d L p m -> zlen (msg_payload m) <= L -> 0 <= t ->
  copy_payload d L ((p + 16) mod L) (zlen (msg_payload m)) t =
  take (Z.to_nat t) (msg_payload m).
Proof.
  intros HL Hm Hn Ht. pose proof (zlen_nonneg (msg_payload m)).
  set (n := zlen (msg_payload m)) in *.
  pose proof (Z.mod_pos_bound (p + 16) L HL) as Hr.
  set (rxp := (p + 16) mod L) in *.
  assert (forall a k b, 0 <= a -> 0 <= k -> a + k <= n ->
    (forall j, 0 <= j < k -> (rxp + a + j) mod L = b + j) ->
    tabulate d b k = take (Z.to_nat k) (drop (Z.to_nat a) (msg_payload m))) as Hp.
  { intros a k b Ha Hk Hle Hj. eapply payload_piece; [done..|].
    intros j Hj'. rewrite <- Hj by done. unfold rxp.
    rewrite <- (Z.add_assoc ((p + 16) mod L)), Zplus_mod_idemp_l. f_equal. lia. }
  assert (forall k, n <= k -> take (Z.to_nat k) (msg_payload m) = msg_payload m)
    as Hge by (intros; apply take_ge; unfold n, zlen in *; lia).
  unfold copy_payload. destruct (Z.ltb_spec (L - rxp) n).
  - destruct (Z.ltb_spec t (L - rxp)).
    { apply (Hp 0); [lia..|]. intros. rewrite Z.mod_small; lia. }
    rewrite (Hp 0 (L - rxp)) by first [lia | intros; rewrite Z.mod_small; lia].
    change (Z.to_nat 0) with 0%nat. rewrite drop_0.
    destruct (Z.eqb_spec (t - (L - rxp)) 0).
    { rewrite app_nil_r. do 2 f_equal. lia. }
    rewrite (Hp (L - rxp)) by
      first [destruct (Z.ltb_spec (t - (L - rxp)) (n - (L - rxp))); lia
            | destruct (Z.ltb_spec (t - (L - rxp)) (n - (L - rxp))); intros;
              rewrite (mod_shift _ (-1)); lia].
    rewrite take_take_drop, <- Z2Nat.inj_add
      by (destruct (Z.ltb_spec (t - (L - rxp)) (n - (L - rxp))); lia).
    destruct (Z.ltb_spec (t - (L - rxp)) (n - (L - rxp))); [f_equal; lia|].
    rewrite !Hge by lia. done.
  - destruct (Z.eqb_spec t 0) as [->|]; [done|].
    rewrite (Hp 0) by
      first [destruct (Z.ltb_spec t n); lia
            | destruct (Z.ltb_spec t n); intros; rewrite Z.mod_small; lia].
    change (Z.to_nat 0) with 0%nat. rewrite drop_0.
    destruct (Z.ltb_spec t n); [done|]. by rewrite !Hge by lia.
Qed.

(** Where the reader goes next. *)
Lemma next_rx L p n : 0 < L <= V4V_RING_MAX_SIZE -> L mod 16 = 0 -> 0 <= p < L ->
  p mod 16 = 0 -> 0 <= n -> 16 + V4V_ROUNDUP n < L ->
  let rxp := (p + 16) mod L in
  let bte := L - rxp in
  let '(rxp, len) := if bte <? n then (0, n - bte) else (rxp, n) in
  let rxp := u32 (rxp + u32 (V4V_ROUNDUP len)) in
  (if rxp =? L then 0 else rxp) = (p + (16 + V4V_ROUNDUP n)) mod L.
Proof.
  unfold V4V_RING_MAX_SIZE. intros HL HLm Hp Hpm Hn Hfit. simpl.
  rewrite V4V_ROUNDUP_div in *.
  assert (exists q, L = 16 * q /\ exists t, p = 16 * t) as (q & Hq & t & Ht).
  { exists (L / 16). split; [zlia|]. exists (p / 16). zlia. }
  pose proof (Z.mod_pos_bound (p + 16) L ltac:(lia)) as Hr.
  assert ((p + 16) mod L = if p + 16 =? L then 0 else p + 16) as Er.
  { destruct (Z.eqb_spec (p + 16) L) as [->|];
      [by rewrite Z_mod_same_full|apply Z.mod_small; zlia]. }
  destruct (Z.ltb_spec (L - (p + 16) mod L) n); rewrite V4V_ROUNDUP_div;
    rewrite (u32_small (16 * _)) by zlia; rewrite u32_small by zlia;
    rewrite Er in *.
  - assert (16 * ((n - (L - (if p + 16 =? L then 0 else p + 16)) + 15) / 16) =
      16 * ((n + 15) / 16) - (L - (if p + 16 =? L then 0 else p + 16))) as Ew
      by (destruct (p + 16 =? L); zlia).
    rewrite Ew. destruct (Z.eqb_spec (p + 16) L).
    + rewrite (mod_shift _ (-1)) by zlia.
      destruct (Z.eqb_spec (0 + (16 * ((n + 15) / 16) - (L - 0))) L); zlia.
    + rewrite (mod_shift _ (-1)) by zlia.
      destruct (Z.eqb_spec (0 + (16 * ((n + 15) / 16) - (L - (p + 16)))) L); zlia.
  - destruct (Z.eqb_spec (p + 16) L).
    + rewrite (mod_shift _ (-1)) by zlia.
      destruct (Z.eqb_spec (0 + 16 * ((n + 15) / 16)) L); zlia.
    + destruct (Z.eqb_spec (p + 16 + 16 * ((n + 15) / 16)) L).
      * rewrite (mod_shift _ (-1)) by zlia. zlia.
      * rewrite Z.mod_small; zlia.
Qed.

(** An empty queue gives nothing to read. *)
Lemma copy_out_nil r has_buf t consume :
  holds (gr_ring r) (gr_len r) (gr_rx_ptr r) (gr_tx_ptr r) [] ->
  v4v_copy_out r has_buf t consume = (r, None).
Proof.
  intros H. unfold v4v_copy_out. by rewrite (bytes_to_read_holds r [] H).
Qed.

(** The reader's end moves past the first message. *)
Lemma holds_tail d L rx tx m q :
  holds d L rx tx (m :: q) -> holds d L ((rx + msg_size m) mod L) tx q.
Proof.
  intros [[HL HLm] [Hrx Hrm] Htx Hsz Hq]. simpl in *.
  pose proof (msg_size_bounds m) as (_ & Hm & Hmm).
  split; [done| | |lia|].
  - split; [apply Z.mod_pos_bound; lia|].
    rewrite Z.mod_mod_divide; [zlia|].
    by apply Z.mod_divide.
  - rewrite Zplus_mod_idemp_l, Htx. f_equal. lia.
  - apply queue_at_mod, Hq.
Qed.

Lemma copy_out_cons r m q has_buf t consume :
  holds (gr_ring r) (gr_len r) (gr_rx_ptr r) (gr_tx_ptr r) (m :: q) -> 0 <= t ->
  v4v_copy_out r has_buf t consume =
  (if consume
   then set_gr_rx_ptr ((gr_rx_ptr r + msg_size m) mod gr_len r) r else r,
   Some {| co_ret := zlen (msg_payload m); co_from := msg_source m;
           co_protocol := msg_protocol m;
           co_buf := if has_buf then take (Z.to_nat t) (msg_payload m) else [] |}).
Proof.
  intros Hh Ht. pose proof (bytes_to_read_holds _ _ Hh) as Hbtr.
  destruct Hh as [[HL HLm] [Hrx Hrm] Htx Hsz Hq]. simpl in Hq, Hsz.
  destruct Hq as (Hm & Hok & _).
  pose proof (queue_size_bounds q) as [Hqs _].
  pose proof (zlen_nonneg (msg_payload m)) as Hn.
  pose proof (V4V_ROUNDUP_bounds (zlen (msg_payload m))) as Hround.
  unfold V4V_RING_MAX_SIZE in HL. 
  pose proof (next_rx (gr_len r) (gr_rx_ptr r) (zlen (msg_payload m)) HL HLm Hrx
    Hrm Hn) as Hnext.
  pose proof (copy_payload_take (gr_ring r) (gr_len r) (gr_rx_ptr r) m t
    ltac:(lia) Hm) as Hcopy.
  unfold msg_size, sizeof_v4v_ring_message_header in *.
  specialize (Hnext ltac:(lia)). specialize (Hcopy ltac:(lia) Ht).
  unfold v4v_copy_out. rewrite Hbtr. unfold sizeof_v4v_ring_message_header.
  cbn [queue_size]. unfold msg_size, sizeof_v4v_ring_message_header.
  rewrite (header_piece _ (gr_len r) _ m) by (done || lia). cbn [mh_len mh_source mh_protocol].
  set (n := zlen (msg_payload m)) in *. set (L := gr_len r) in *.
  destruct (Z.ltb_spec (16 + V4V_ROUNDUP n + queue_size q) 16); [lia|].
  destruct (Z.ltb_spec (16 + V4V_ROUNDUP n + queue_size q) (n + 16)); [lia|].
  rewrite (u32_small (gr_rx_ptr r + 16)) by lia.
  assert ((if gr_rx_ptr r + 16 =? L then 0 else gr_rx_ptr r + 16) =
    (gr_rx_ptr r + 16) mod L) as ->.
  { destruct (Z.eqb_spec (gr_rx_ptr r + 16) L) as [->|];
      [by rewrite Z_mod_same_full|symmetry; apply Z.mod_small; zlia]. }
  pose proof (Z.mod_pos_bound (gr_rx_ptr r + 16) L ltac:(lia)).
  rewrite (u32_small (n + 16 - 16)) by lia. replace (n + 16 - 16) with n by lia.
  rewrite s32_small, (u32_small (L - _)) by lia.
  cbv zeta in Hnext. unfold copy_payload in Hcopy.
  destruct (Z.ltb_spec (L - (gr_rx_ptr r + 16) mod L) n).
  - rewrite (u32_small (n - _)) by lia.
    destruct (Z.ltb_spec t (L - (gr_rx_ptr r + 16) mod L)); rewrite Hnext.
    + destruct has_buf; simpl; [by rewrite Hcopy|done].
    + destruct has_buf; simpl; [|done]. rewrite <- Hcopy.
      destruct (_ =? 0); simpl; [by rewrite app_nil_r|done].
  - rewrite Hnext. destruct has_buf; simpl; [|done]. rewrite <- Hcopy.
    destruct (t =? 0); done.
Qed.
