(* ===== verification/V4vWorld.v ===== *)
(** * V4V: domains, signals and the table of rings

    The part of [struct domain] the V4V code uses, the lookups of
    xen/common/domain.c, the signalling of a domain, the hash table of the
    rings of a domain and the pending notifications of a ring. *)

From stdpp Require Import base list numbers gmap.
From Stdlib Require Import ZArith Lia.
From S2P Require Import Prelude Machine V4vTypes V4vRing.

Open Scope Z_scope.
Open Scope se_scope.

(** [dom_destroyed]: the reference count carries [DOMAIN_DESTROYED], so
    [get_domain] fails.  References to domains are taken and dropped in
    pairs within each operation and are not counted here. *)
Record domain : Type := {
  domain_id : Z;
  dom_destroyed : bool;
  is_dying : bool;
  shutdown_crash : bool;
  v4v_token : list Z;
  d_v4v : option v4v_domain
}.

Definition set_d_v4v (v : option v4v_domain) (d : domain) : domain :=
  {| domain_id := domain_id d; dom_destroyed := dom_destroyed d;
     is_dying := is_dying d; shutdown_crash := shutdown_crash d;
     v4v_token := v4v_token d; d_v4v := v |}.

(** [domain_array] and [domain_list], the latter as domain ids in order. *)
Record world : Type := {
  w_m : machine;
  w_doms : gmap Z domain;
  w_domlist : list Z
}.

Definition set_w_m (m : machine) (w : world) : world :=
  {| w_m := m; w_doms := w_doms w; w_domlist := w_domlist w |}.
Definition set_w_doms (ds : gmap Z domain) (w : world) : world :=
  {| w_m := w_m w; w_doms := ds; w_domlist := w_domlist w |}.

(** The calling virtual CPU: [current->domain], [is_privileged],
    [is_sys_privileged], and the domain of [target_vmis] when it owns it. *)
Record caller : Type := {
  cur_domain : Z;
  cur_privileged : bool;
  cur_sys_privileged : bool;
  cur_target : option Z
}.

Definition in_machine {A} (m : SE machine A) : SE world A :=
  zoom w_m set_w_m m.

(** ** Domains (xen/common/domain.c, xen/include/xen/sched.h) *)

Definition IS_HOST (d : Z) : bool := d =? 0.

(** [IS_PRIV_FOR(current->domain, t)] *)
Definition IS_PRIV_FOR (c : caller) (t : Z) : bool :=
  if IS_HOST (cur_domain c)
  then cur_privileged c || bool_decide (cur_target c = Some t)
  else cur_domain c =? t.

(** [get_domain_by_id] *)
Definition get_domain_by_id (w : world) (id : Z) : option domain :=
  if DOMID_FIRST_RESERVED <=? id then None
  else match w_doms w !! id with
       | Some d => if dom_destroyed d then None else Some d
       | None => None
       end.

(** [rcu_lock_domain_by_id] *)
Definition rcu_lock_domain_by_id (w : world) (id : Z) : option domain :=
  if DOMID_FIRST_RESERVED <=? id then None else w_doms w !! id.

(** [rcu_lock_remote_target_domain_by_id] *)
Definition rcu_lock_remote_target_domain_by_id (c : caller) (id : Z)
  : SE world domain :=
  w <- get;;
  match rcu_lock_domain_by_id w id with
  | None => fail (- ESRCH)
  | Some d =>
      fail_if ((domain_id d =? cur_domain c)
               || negb (IS_PRIV_FOR c (domain_id d))) (- EPERM);;
      ret d
  end.

(** [rcu_lock_domain_by_uuid(uuid, UUID_V4V_TOKEN)]: the first domain of the
    list with that token. *)
Fixpoint rcu_lock_domain_by_uuid (w : world) (l : list Z) (token : list Z)
  : option domain :=
  match l with
  | [] => None
  | i :: l =>
      match w_doms w !! i with
      | Some d => if decide (v4v_token d = token) then Some d
                  else rcu_lock_domain_by_uuid w l token
      | None => rcu_lock_domain_by_uuid w l token
      end
  end.

(** ** The table of rings of a domain *)

(** The chain of the hash table an id belongs to. *)
Definition bucket (vd : v4v_domain) (id : v4v_ring_id) : list v4v_ring_info :=
  default [] (ring_hash vd !! Z.to_nat (v4v_hash_fn id)).

Definition set_bucket (id : v4v_ring_id) (l : list v4v_ring_info)
    (vd : v4v_domain) : v4v_domain :=
  {| ring_hash := <[Z.to_nat (v4v_hash_fn id) := l]> (ring_hash vd) |}.

(** [v4v_ring_find_info] *)
Definition v4v_ring_find_info (vd : v4v_domain) (id : v4v_ring_id)
  : option v4v_ring_info :=
  List.find (fun ri => bool_decide (ri_id ri = id)) (bucket vd id).

(** [v4v_ring_find_info_by_addr]; [did] is the domain of the table. *)
Definition v4v_ring_find_info_by_addr (vd : v4v_domain) (did : Z)
    (a : v4v_addr) (p : Z) : option v4v_ring_info :=
  let addr := {| addr_port := addr_port a; addr_domain := did |} in
  match v4v_ring_find_info vd {| id_addr := addr; partner := p |} with
  | Some ri => Some ri
  | None =>
      v4v_ring_find_info vd {| id_addr := addr; partner := V4V_DOMID_NONE |}
  end.

(** Write back the record a pointer to it has changed. *)
Fixpoint chain_store (ri : v4v_ring_info) (l : list v4v_ring_info)
  : list v4v_ring_info :=
  match l with
  | [] => []
  | r :: l => if decide (ri_id r = ri_id ri) then ri :: l
              else r :: chain_store ri l
  end.

Definition ring_store (ri : v4v_ring_info) (vd : v4v_domain) : v4v_domain :=
  set_bucket (ri_id ri) (chain_store ri (bucket vd (ri_id ri))) vd.

(** [hlist_add_head(&ring_info->node, &v4v->ring_hash[hash])] *)
Definition ring_link (ri : v4v_ring_info) (vd : v4v_domain) : v4v_domain :=
  set_bucket (ri_id ri) (ri :: bucket vd (ri_id ri)) vd.

(** [hlist_del(&ring_info->node)] *)
Fixpoint chain_del (id : v4v_ring_id) (l : list v4v_ring_info)
  : list v4v_ring_info :=
  match l with
  | [] => []
  | r :: l => if decide (ri_id r = id) then l else r :: chain_del id l
  end.

Definition ring_unlink (id : v4v_ring_id) (vd : v4v_domain) : v4v_domain :=
  set_bucket id (chain_del id (bucket vd id)) vd.

(** The record [v4v_ring_add] and [v4v_ring_create] allocate. *)
Definition new_ring_info (id : v4v_ring_id) : v4v_ring_info :=
  {| ri_id := id; ri_len := 0; ri_tx_ptr := 0; ri_ring := 0; ri_npage := 0;
     ri_nmfns := 0; ri_mfns := None; ri_mfn_mapping := None;
     ri_pending := [] |}.

(** ** Access to the state *)

(** [d->v4v] *)
Definition domain_v4v (did : Z) : SE world (option v4v_domain) :=
  w <- get;;
  match w_doms w !! did with
  | None => bug
  | Some d => ret (d_v4v d)
  end.

(** [d->v4v] where the code dereferences it. *)
Definition deref_v4v (did : Z) : SE world v4v_domain :=
  v <- domain_v4v did;;
  match v with Some vd => ret vd | None => bug end.

Definition set_domain_v4v (did : Z) (v : option v4v_domain) : SE world unit :=
  modify (fun w => set_w_doms (alter (set_d_v4v v) did (w_doms w)) w).

(** Run an operation on the ring [ri_id] names in the table of [did]. *)
Definition on_ring {A} (did : Z) (id : v4v_ring_id) (m : SE rstate A)
  : SE world A :=
  fun w =>
    match w_doms w !! did with
    | Some d =>
        match d_v4v d with
        | Some vd =>
            match v4v_ring_find_info vd id with
            | Some ri =>
                let '(s, r) := m {| rs_m := w_m w; rs_ri := ri |} in
                ({| w_m := rs_m s;
                    w_doms := alter (set_d_v4v (Some (ring_store (rs_ri s) vd)))
                                did (w_doms w);
                    w_domlist := w_domlist w |}, r)
            | None => (w, Bug)
            end
        | None => (w, Bug)
        end
    | None => (w, Bug)
    end.

(** ** Signals *)

Section Signals.
Context `{E : HostEnv}.

(** [v4v_signal_domain]; [deliver_via_upcall] is the test for domain 0. *)
Definition v4v_signal_domain (did : Z) : SE world unit :=
  bug_if (negb env_ui_running);;
  w <- get;;
  match w_doms w !! did with
  | None => bug
  | Some d =>
      match d_v4v d with
      | None => ret tt
      | Some _ =>
          if domain_id d =? 0
          then when env_ui_signal_v4v (in_machine (log EvHostUpcall))
          else in_machine (log (EvIrqPulse did))
      end
  end.

(** [v4v_signal_domid] *)
Definition v4v_signal_domid (id : Z) : SE world unit :=
  w <- get;;
  match get_domain_by_id w id with
  | None => ret tt
  | Some d => v4v_signal_domain (domain_id d)
  end.
End Signals.

(** ** Pending notifications *)

(** [v4v_pending_find]: the entries that now fit move to [to_notify]. *)
Fixpoint v4v_pending_find (pending : list v4v_pending_ent) (space : Z)
    (to_notify : list v4v_pending_ent)
  : list v4v_pending_ent * list v4v_pending_ent :=
  match pending with
  | [] => ([], to_notify)
  | e :: l =>
      if ent_len e <=? space
      then v4v_pending_find l space (e :: to_notify)
      else let '(p, n) := v4v_pending_find l space to_notify in (e :: p, n)
  end.

(** The loop of [v4v_pending_requeue]: [None] when no entry has the id. *)
Fixpoint pending_raise (pending : list v4v_pending_ent) (src_id len : Z)
  : option (list v4v_pending_ent) :=
  match pending with
  | [] => None
  | e :: l =>
      if ent_id e =? src_id
      then Some ((if ent_len e <? u32 len
                  then {| ent_id := ent_id e; ent_len := u32 len |}
                  else e) :: l)
      else match pending_raise l src_id len with
           | Some l => Some (e :: l)
           | None => None
           end
  end.

(** [v4v_pending_cancel] *)
Definition v4v_pending_cancel (src_id : Z) : SE rstate unit :=
  set_ring (fun ri => set_ri_pending
    (List.filter (fun e => negb (ent_id e =? src_id)) (ri_pending ri)) ri).

Section Pending.
Context `{E : HostEnv}.

(** [v4v_pending_queue] *)
Definition v4v_pending_queue (src_id len : Z) : SE rstate unit :=
  ok <- on_machine xmalloc;;
  fail_if (negb ok) (- ENOMEM);;
  set_ring (fun ri => set_ri_pending
    ({| ent_id := src_id; ent_len := u32 len |} :: ri_pending ri) ri).

(** [v4v_pending_requeue] *)
Definition v4v_pending_requeue (src_id len : Z) : SE rstate unit :=
  ri <- gets rs_ri;;
  match pending_raise (ri_pending ri) src_id len with
  | Some p => set_ring (set_ri_pending p)
  | None => v4v_pending_queue src_id len
  end.

(** [v4v_pending_notify] *)
Fixpoint v4v_pending_notify (to_notify : list v4v_pending_ent)
  : SE world unit :=
  match to_notify with
  | [] => ret tt
  | e :: l => v4v_signal_domid (ent_id e);; v4v_pending_notify l
  end.
End Pending.
