(* ===== verification/V4vOps.v ===== *)
(** * V4V: the hypercalls

    Registration and removal of rings, sending, notification, and the entry
    point [do_v4v_op], with the life cycle of a domain's V4V state.  Each
    operation runs to its end: the locks L1, L2 and L3 of v4v.c, under which
    it runs, are not represented. *)

From stdpp Require Import base list numbers gmap.
From Stdlib Require Import ZArith Lia.
From S2P Require Import Prelude Machine V4vTypes V4vRing V4vWorld.

Open Scope Z_scope.
Open Scope se_scope.

Definition V4V_VALIDATE_PREAUTH : Z := 1.
Definition v4v_dm_domid : Z := 0.

Definition V4VOP_register_ring : Z := 1.
Definition V4VOP_unregister_ring : Z := 2.
Definition V4VOP_send : Z := 3.
Definition V4VOP_notify : Z := 4.
Definition V4VOP_sendv : Z := 5.
Definition V4VOP_create_ring : Z := 7.

(** [mfns_dont_belong_xen] *)
Definition mfns_dont_belong_xen (did : Z) : bool := IS_HOST did.

(** [v4v_can_do_create] *)
Definition v4v_can_do_create (c : caller) : bool := IS_HOST (cur_domain c).

(** ** Channels *)

(** [v4v_resolve_token] *)
Definition v4v_resolve_token (token : list Z) : SE world Z :=
  w <- get;;
  match rcu_lock_domain_by_uuid w (w_domlist w) token with
  | None => fail (- ENOENT)
  | Some d => ret (domain_id d)
  end.

(** [v4v_validate_channel]: the ids [*s_id] and [*d_id] it leaves. *)
Definition v4v_validate_channel (c : caller) (s_id d_id flags : Z)
  : SE world (Z * Z) :=
  p <- (if IS_HOST (cur_domain c)
        then (if Z.land flags V4V_VALIDATE_PREAUTH =? 0
              then rcu_lock_remote_target_domain_by_id c d_id;; ret tt
              else ret tt);;
             ret (s_id, d_id)
        else
          let s_id := if s_id =? V4V_DOMID_ANY then cur_domain c else s_id in
          fail_if (negb (s_id =? cur_domain c)) (- EPERM);;
          if d_id =? V4V_DOMID_DM then ret (s_id, v4v_dm_domid)
          else fail (- EPERM));;
  let '(s_id, d_id) := p in
  fail_if ((V4V_DOMID_SELF <=? s_id) && negb (s_id =? V4V_DOMID_ANY))
    (- ENOENT);;
  fail_if ((V4V_DOMID_SELF <=? d_id) && negb (d_id =? V4V_DOMID_ANY))
    (- ENOENT);;
  ret (s_id, d_id).

Section Ops.
Context `{E : HostEnv} (c : caller).

(** ** The pages of a ring *)

(** The loop of [v4v_ring_remove_mfns] over the frames. *)
Fixpoint put_frames (mfns : list Z) : SE machine unit :=
  match mfns with
  | [] => ret tt
  | f :: l => when (negb (f =? 0)) (put_page f);; put_frames l
  end.

(** [v4v_ring_remove_mfns] *)
Definition v4v_ring_remove_mfns (put_pages : bool) : SE rstate unit :=
  ri <- gets rs_ri;;
  match ri_mfns ri with
  | None => ret tt
  | Some mfns =>
      bug_if (bool_decide (ri_mfn_mapping ri = None));;
      set_ring v4v_ring_unmap;;
      when put_pages (on_machine (put_frames mfns));;
      set_ring (set_ri_pages 0 0 None None)
  end.

(** [v4v_ring_reset] *)
Definition v4v_ring_reset (put_pages : bool) : SE rstate unit :=
  v4v_ring_remove_mfns put_pages;;
  set_ring (fun ri =>
    set_ri_pages (ri_npage ri) 0 (ri_mfns ri) (ri_mfn_mapping ri)
      (set_ri_ring 0 (set_ri_tx_ptr 0 (set_ri_len 0 ri)))).

(** [v4v_find_ring_mfn] *)
Definition v4v_find_ring_mfn (did pfn : Z) : SE machine Z :=
  if mfns_dont_belong_xen did
  then fail_if (negb (cur_sys_privileged c)) (- EPERM);;
       fail_if (negb (env_mfn_valid pfn)) (- EINVAL);;
       ret pfn
  else
    t <- tick;;
    let mfn := env_get_gfn_unshare t did pfn in
    fail_if (env_mfn_retry mfn) (- ECONTINUATION);;
    fail_if (negb (env_mfn_valid_page mfn)) (- EINVAL);;
    ok <- get_page mfn did;;
    fail_if (negb ok) (- EINVAL);;
    ret mfn.

(** Entry [i] of the guest's list of pages. *)
Definition read_pfn (pfn_hnd i : Z) : SE machine Z :=
  bs <- copy_from_guest_errno (pfn_hnd + 8 * i) 8;;
  ret (le_val bs).

(** The first loop of [v4v_find_ring_mfns]: do the pages still translate
    to the frames [mfns], from number [i] on?  An error ends the loop and
    counts as a difference. *)
Fixpoint same_mfns (did pfn_hnd i : Z) (mfns : list Z) : SE machine bool :=
  match mfns with
  | [] => ret true
  | f :: l =>
      r <- recover (pfn <- read_pfn pfn_hnd i;;
                    mfn <- v4v_find_ring_mfn did pfn;;
                    when (negb (mfns_dont_belong_xen did)) (put_page mfn);;
                    ret (mfn =? f)) (fun _ => false);;
      if r then same_mfns did pfn_hnd (i + 1) l else ret false
  end.

(** The second loop: [n] entries are missing, [i] is the next one.  The
    result tells whether the loop ran to its end; it is left early when
    the hypercall has to be retried with more free pages. *)
Fixpoint fill_mfns (did pfn_hnd : Z) (n : nat) (i : Z) : SE rstate bool :=
  match n with
  | O => ret true
  | S n =>
      t <- on_machine tick;;
      if env_free_pages_needed t
      then on_machine (log EvRetry);; ret false
      else
        pfn <- on_machine (read_pfn pfn_hnd i);;
        mfn <- on_machine (v4v_find_ring_mfn did pfn);;
        set_ring (fun ri =>
          set_ri_pages (ri_npage ri) (i + 1)
            (option_map (fun l => l ++ [mfn]) (ri_mfns ri))
            (option_map (fun l => l ++ [None]) (ri_mfn_mapping ri)) ri);;
        fill_mfns did pfn_hnd n (i + 1)
  end.

(** The part of [v4v_find_ring_mfns] for a ring that has pages. *)
Definition recheck_mfns (did pfn_hnd npage : Z) : SE rstate unit :=
  ri <- gets rs_ri;;
  match ri_mfns ri with
  | None => ret tt
  | Some mfns =>
      same <- (if ri_npage ri =? npage
               then on_machine (same_mfns did pfn_hnd 0 mfns)
               else ret false);;
      when (negb same)
        (v4v_ring_remove_mfns (negb (mfns_dont_belong_xen (cur_domain c))))
  end.

(** The allocation of the arrays. *)
Definition alloc_mfns (npage : Z) : SE rstate unit :=
  ri <- gets rs_ri;;
  match ri_mfns ri with
  | Some _ => ret tt
  | None =>
      ok <- on_machine xmalloc;;
      fail_if (negb ok) (- ENOMEM);;
      ok <- on_machine xmalloc;;
      fail_if (negb ok) (- ENOMEM);;
      set_ring (fun ri =>
        set_ri_pages npage (ri_nmfns ri) (Some []) (Some []) ri)
  end.

(** [v4v_find_ring_mfns] *)
Definition v4v_find_ring_mfns (did pfn_list_hnd len : Z) : SE rstate unit :=
  bs <- on_machine (copy_from_guest_errno pfn_list_hnd sizeof_v4v_pfn_list);;
  let npage := field 8 4 bs in
  fail_if (negb (field 0 8 bs =? V4V_PFN_LIST_MAGIC)) (- EINVAL);;
  fail_if (u32 (Z.shiftl npage PAGE_SHIFT) <? len) (- EINVAL);;
  fail_if (Z.shiftr V4V_MAX_RING_SIZE PAGE_SHIFT <? npage) (- EINVAL);;
  let pfn_hnd := pfn_list_hnd + sizeof_v4v_pfn_list in
  recheck_mfns did pfn_hnd npage;;
  alloc_mfns npage;;
  ri <- gets rs_ri;;
  bug_if (negb (ri_npage ri =? npage));;
  if ri_nmfns ri =? ri_npage ri then ret tt
  else
    complete <-
      catch (fill_mfns did pfn_hnd (Z.to_nat (ri_npage ri - ri_nmfns ri))
               (ri_nmfns ri))
        (fun e =>
           when (negb (e =? - ECONTINUATION))
             (v4v_ring_remove_mfns
                (negb (mfns_dont_belong_xen (cur_domain c))));;
           fail e);;
    if complete : bool then ret tt else fail (- ERETRY).

(** ** Notifications *)

(** [v4v_notify_ring] *)
Definition v4v_notify_ring (to_notify : list v4v_pending_ent)
  : SE rstate (list v4v_pending_ent) :=
  ri <- gets rs_ri;;
  space <- (if ri_len ri =? 0 then ret 0 else v4v_ringbuf_payload_space);;
  if space =? 0 then ret to_notify
  else
    ri <- gets rs_ri;;
    let '(p, n) := v4v_pending_find (ri_pending ri) space to_notify in
    set_ring (set_ri_pending p);;
    ret n.

(** [v4v_notify_ring] for the rings of a chain, in order. *)
Fixpoint notify_chain (l : list v4v_ring_info)
    (to_notify : list v4v_pending_ent)
  : SE machine (list v4v_ring_info * list v4v_pending_ent) :=
  match l with
  | [] => ret ([], to_notify)
  | ri :: l =>
      p <- (fun m => let '(s, r) := v4v_notify_ring to_notify
                                      {| rs_m := m; rs_ri := ri |} in
                     (rs_m s, match r with
                              | Ok n => Ok (rs_ri s, n)
                              | Err e => Err e
                              | Bug => Bug
                              end));;
      let '(ri, to_notify) := p in
      q <- notify_chain l to_notify;;
      ret (ri :: fst q, snd q)
  end.

(** The loop over the chains of the table. *)
Fixpoint notify_table (ls : list (list v4v_ring_info))
    (to_notify : list v4v_pending_ent)
  : SE machine (list (list v4v_ring_info) * list v4v_pending_ent) :=
  match ls with
  | [] => ret ([], to_notify)
  | l :: ls =>
      p <- notify_chain l to_notify;;
      q <- notify_table ls (snd p);;
      ret (fst p :: fst q, snd q)
  end.

(** [v4v_notify_check_pending] *)
Definition v4v_notify_check_pending (did : Z) : SE world unit :=
  vd <- deref_v4v did;;
  p <- in_machine (notify_table (ring_hash vd) []);;
  set_domain_v4v did (Some {| ring_hash := fst p |});;
  v4v_pending_notify (snd p).

(** The answer of [v4v_fill_ring_data] for a ring: the flags and the
    largest message. *)
Definition ring_data_of (src_id required : Z) : SE rstate (Z * Z) :=
  ri <- gets rs_ri;;
  let max := u32 (ri_len ri - sizeof_v4v_ring_message_header
                  - V4V_ROUNDUP 1) in
  space <- v4v_ringbuf_payload_space;;
  flag <- (if required <=? space
           then v4v_pending_cancel src_id;; ret V4V_RING_DATA_F_SUFFICIENT
           else code (v4v_pending_requeue src_id required);;
                ret V4V_RING_DATA_F_PENDING);;
  let flags := Z.lor V4V_RING_DATA_F_EXISTS flag in
  ret (if space =? max then Z.lor flags V4V_RING_DATA_F_EMPTY else flags, max).

(** [v4v_fill_ring_data] *)
Definition v4v_fill_ring_data (src_d hnd : Z) : SE world unit :=
  bs <- in_machine (copy_from_guest_errno hnd sizeof_v4v_ring_data_ent);;
  let ent := v4v_ring_data_ent_of_bytes bs in
  ids <- v4v_validate_channel c src_d (addr_domain (ent_ring ent))
           V4V_VALIDATE_PREAUTH;;
  let '(src_id, dst_id) := ids in
  w <- get;;
  let found :=
    match get_domain_by_id w dst_id with
    | Some d =>
        match d_v4v d with
        | Some vd =>
            option_map (fun ri => (domain_id d, ri_id ri))
              (v4v_ring_find_info_by_addr vd (domain_id d) (ent_ring ent) src_id)
        | None => None
        end
    | None => None
    end in
  r <- match found with
       | Some (did, id) => on_ring did id (ring_data_of src_id (space_required ent))
       | None => ret (0, max_message_size ent)
       end;;
  in_machine (copy_to_guest_errno (hnd + offsetof_ent_flags)
                (le_bytes 2 (fst r)));;
  in_machine (copy_to_guest_errno (hnd + offsetof_ent_max_message_size)
                (le_bytes 4 (snd r))).

(** [v4v_fill_ring_datas]; [n] is the number of entries left. *)
Fixpoint v4v_fill_ring_datas (n : nat) (d hnd : Z) : SE world unit :=
  match n with
  | O => ret tt
  | S n => v4v_fill_ring_data d hnd;;
           v4v_fill_ring_datas n d (hnd + sizeof_v4v_ring_data_ent)
  end.

(** [v4v_notify] *)
Definition v4v_notify (d hnd : Z) : SE world unit :=
  v <- domain_v4v d;;
  fail_if (bool_decide (v = None)) (- ENODEV);;
  v4v_notify_check_pending d;;
  if hnd =? 0 then ret tt
  else
    bs <- in_machine (copy_from_guest_errno hnd 8);;
    fail_if (negb (le_val bs =? V4V_RING_DATA_MAGIC)) (- EINVAL);;
    bs <- in_machine (copy_from_guest_errno hnd sizeof_v4v_ring_data);;
    v4v_fill_ring_datas (Z.to_nat (field 8 4 bs)) d
      (hnd + sizeof_v4v_ring_data).

(** ** Registration *)

(** [v4v_ring_remove_info] *)
Definition v4v_ring_remove_info (did : Z) (id : v4v_ring_id)
    (put_pages : bool) : SE world unit :=
  on_ring did id (set_ring (set_ri_pending []);;
                  v4v_ring_remove_mfns put_pages);;
  vd <- deref_v4v did;;
  set_domain_v4v did (Some (ring_unlink id vd)).

(** [v4v_ring_remove] *)
Definition v4v_ring_remove (d ring_hnd : Z) : SE world unit :=
  v <- domain_v4v d;;
  fail_if (bool_decide (v = None)) (- EINVAL);;
  bs <- in_machine (copy_from_guest_errno ring_hnd sizeof_v4v_ring);;
  let ring := v4v_ring_of_bytes bs in
  fail_if (negb (r_magic ring =? V4V_RING_MAGIC)) (- EINVAL);;
  ids <- v4v_validate_channel c d (partner (r_id ring)) V4V_VALIDATE_PREAUTH;;
  let id := {| id_addr := {| addr_port := addr_port (id_addr (r_id ring));
                             addr_domain := fst ids |};
               partner := snd ids |} in
  vd <- deref_v4v d;;
  match v4v_ring_find_info vd id with
  | Some _ => v4v_ring_remove_info d id (negb (mfns_dont_belong_xen d))
  | None => fail (- ENOENT)
  end.

(** [v4v_ring_create].  When the allocation fails the code prints the
    message of the failure with [ring_info->nmfns], [ring_info] null. *)
Definition v4v_ring_create (d ring_id_hnd : Z) : SE world unit :=
  fail_if (negb (v4v_can_do_create c)) (- EPERM);;
  bs <- in_machine (copy_from_guest_errno ring_id_hnd sizeof_v4v_ring_id);;
  let rid := v4v_ring_id_of_bytes bs in
  let p := if partner rid =? V4V_DOMID_ANY then partner rid else d in
  ids <- v4v_validate_channel c (addr_domain (id_addr rid)) p
           V4V_VALIDATE_PREAUTH;;
  let id := {| id_addr := {| addr_port := addr_port (id_addr rid);
                             addr_domain := fst ids |};
               partner := snd ids |} in
  w <- get;;
  match get_domain_by_id w (addr_domain (id_addr id)) with
  | None => fail (- ENOENT)
  | Some dst =>
      match d_v4v dst with
      | None => fail (- ENOENT)
      | Some vd =>
          match v4v_ring_find_info vd id with
          | Some _ => ret tt
          | None =>
              ok <- in_machine xmalloc;;
              bug_if (negb ok);;
              set_domain_v4v (domain_id dst)
                (Some (ring_link (new_ring_info id) vd))
          end
      end
  end.

(** The checks of [v4v_ring_add] on the header of the ring. *)
Definition ring_header_ok (ring : v4v_ring) : bool :=
  negb ((r_len ring <? sizeof_v4v_ring_message_header + V4V_ROUNDUP 1
                       + V4V_ROUNDUP 1)
        || negb (u32 (V4V_ROUNDUP (r_len ring)) =? r_len ring)).

(** The [tx_ptr] [v4v_ring_add] continues with, and whether it is new. *)
Definition ring_add_tx_ptr (ring : v4v_ring) : Z * bool :=
  if (r_len ring <=? r_tx_ptr ring)
     || negb (u32 (V4V_ROUNDUP (r_tx_ptr ring)) =? r_tx_ptr ring)
  then let tx := u32 (V4V_ROUNDUP (r_rx_ptr ring)) in
       (if r_len ring <=? tx then 0 else tx, true)
  else (r_tx_ptr ring, false).

(** The last part of [v4v_ring_add], on the record of the ring. *)
Definition ring_attach (d tx ring_hnd pfn_list_hnd len : Z) : SE rstate unit :=
  set_ring (fun ri => set_ri_ring ring_hnd (set_ri_tx_ptr tx ri));;
  v4v_find_ring_mfns d pfn_list_hnd len;;
  v4v_ring_map_page 0;;
  set_ring (set_ri_len len).

(** [v4v_ring_add] *)
Definition v4v_ring_add (d ring_hnd pfn_list_hnd idtoken fail_exist : Z)
  : SE world unit :=
  fail_if (negb (Z.land ring_hnd (PAGE_SIZE - 1) =? 0)) (- EINVAL);;
  v <- domain_v4v d;;
  fail_if (bool_decide (v = None)) (- EINVAL);;
  bs <- in_machine (copy_from_guest_errno ring_hnd sizeof_v4v_ring);;
  let ring := v4v_ring_of_bytes bs in
  fail_if (negb (r_magic ring =? V4V_RING_MAGIC)) (- EINVAL);;
  fail_if (negb (ring_header_ok ring)) (- EINVAL);;
  fail_if (V4V_MAX_RING_SIZE <? r_len ring) (- EINVAL);;
  let requested := partner (r_id ring) in
  pa <- (if requested =? V4V_DOMID_UUID
         then tok <- in_machine (copy_from_guest_errno idtoken 16);;
              p <- v4v_resolve_token tok;;
              ret (p, V4V_VALIDATE_PREAUTH)
         else ret (requested, 0));;
  ids <- v4v_validate_channel c d (fst pa) (snd pa);;
  let addr := {| addr_port := addr_port (id_addr (r_id ring));
                 addr_domain := fst ids |} in
  let id := {| id_addr := addr; partner := snd ids |} in
  in_machine (copy_to_guest_errno (ring_hnd + offsetof_ring_id)
    (bytes_of_v4v_ring_id
       {| id_addr := addr;
          partner := if requested =? V4V_DOMID_DM then requested
                     else snd ids |}));;
  let '(tx, fresh) := ring_add_tx_ptr ring in
  when fresh (in_machine (copy_to_guest_errno (ring_hnd + offsetof_tx_ptr)
                            (le_bytes 4 tx)));;
  vd <- deref_v4v d;;
  match v4v_ring_find_info vd id with
  | Some ri =>
      fail_if (negb (fail_exist =? 0) && negb (ri_len ri =? 0)) (- EEXIST)
  | None =>
      ok <- in_machine xmalloc;;
      fail_if (negb ok) (- ENOMEM);;
      set_domain_v4v d (Some (ring_link (new_ring_info id) vd))
  end;;
  on_ring d id (ring_attach d tx ring_hnd pfn_list_hnd (r_len ring));;
  v4v_notify_check_pending d.

(** ** Sending *)

(** Insertion and, when there is no room, the notification to make. *)
Definition ring_send (src_id : v4v_ring_id) (proto buf len iovs niov : Z)
  : SE rstate (Z * Z) :=
  r <- v4v_ringbuf_insert src_id proto buf len iovs niov;;
  if fst r =? - EAGAIN
  then q <- code (v4v_pending_requeue (addr_domain (id_addr src_id)) (snd r));;
       ret (if q =? 0 then fst r else - ENOMEM, snd r)
  else ret r.

(** [v4v_send]: the length sent, or the error. *)
Definition v4v_send (src_d : Z) (src dst : v4v_addr)
    (proto buf len iovs niov : Z) : SE world Z :=
  v <- domain_v4v src_d;;
  fail_if (bool_decide (v = None)) (- EINVAL);;
  ids <- v4v_validate_channel c (addr_domain src) (addr_domain dst)
           V4V_VALIDATE_PREAUTH;;
  let src_id := {| id_addr := {| addr_port := addr_port src;
                                 addr_domain := fst ids |};
                   partner := snd ids |} in
  w <- get;;
  match get_domain_by_id w (snd ids) with
  | None => fail (- ECONNREFUSED)
  | Some dst_d =>
      match d_v4v dst_d with
      | None => fail (- ECONNREFUSED)
      | Some vd =>
          match v4v_ring_find_info_by_addr vd (domain_id dst_d) dst (fst ids) with
          | None => v4v_signal_domain (domain_id dst_d);;
                    fail (- ECONNREFUSED)
          | Some ri =>
              r <- on_ring (domain_id dst_d) (ri_id ri)
                     (ring_send src_id proto buf len iovs niov);;
              if fst r =? 0
              then v4v_signal_domain (domain_id dst_d);; ret (snd r)
              else fail (fst r)
          end
      end
  end.

(** ** The hypercall *)

(** [V4VOP_send] and [V4VOP_sendv] up to the call of [v4v_send]: the two
    addresses.  [rc] is [0] once the first copy has succeeded, and [None]
    is the return of that value. *)
Definition read_addrs (arg1 arg2 : Z) : SE world (option (v4v_addr * v4v_addr)) :=
  fail_if (negb (env_handle_ok arg1 1 sizeof_v4v_addr)) (- EFAULT);;
  bs <- in_machine (copy_from_guest_errno arg1 sizeof_v4v_addr);;
  let src := v4v_addr_of_bytes bs in
  if negb (env_handle_ok arg2 1 sizeof_v4v_addr) then ret None
  else
    bs <- in_machine (copy_from_guest_errno arg2 sizeof_v4v_addr);;
    ret (Some ({| addr_port := addr_port src; addr_domain := cur_domain c |},
               v4v_addr_of_bytes bs)).

(** [do_v4v_op]: the value returned. *)
Definition do_v4v_op (cmd arg1 arg2 arg3 arg4 arg5 : Z) : SE world Z :=
  let d := cur_domain c in
  fail_if (IS_HOST d && negb (cur_sys_privileged c)) (- EPERM);;
  if cmd =? V4VOP_register_ring then
    fail_if (negb (env_handle_ok arg1 1 sizeof_v4v_ring)) (- EFAULT);;
    fail_if (negb (env_handle_ok arg2 1 sizeof_v4v_pfn_list)) (- EFAULT);;
    fail_if (negb (env_handle_ok arg3 1 16)) (- EFAULT);;
    v4v_ring_add d arg1 arg2 arg3 arg4;; ret 0
  else if cmd =? V4VOP_unregister_ring then
    fail_if (negb (env_handle_ok arg1 1 sizeof_v4v_ring)) (- EFAULT);;
    v4v_ring_remove d arg1;; ret 0
  else if cmd =? V4VOP_send then
    a <- read_addrs arg1 arg2;;
    match a with
    | None => ret 0
    | Some (src, dst) => v4v_send d src dst arg5 arg3 (s32 arg4) 0 0
    end
  else if cmd =? V4VOP_sendv then
    a <- read_addrs arg1 arg2;;
    match a with
    | None => ret 0
    | Some (src, dst) =>
        if negb (env_handle_ok arg3 arg4 sizeof_v4v_iov) then ret 0
        else v4v_send d src dst arg5 0 0 arg3 arg4
    end
  else if cmd =? V4VOP_notify then
    v4v_notify d arg1;; ret 0
  else if cmd =? V4VOP_create_ring then
    fail_if (negb (env_handle_ok arg1 1 sizeof_v4v_ring_id)) (- EFAULT);;
    v4v_ring_create d arg1;; ret 0
  else fail (- ENOSYS).

(** ** The life cycle *)

(** An operation on every ring of a chain, and of the table. *)
Fixpoint each_ring (f : SE rstate unit) (l : list v4v_ring_info)
  : SE machine (list v4v_ring_info) :=
  match l with
  | [] => ret []
  | ri :: l =>
      ri <- (fun m => let '(s, r) := f {| rs_m := m; rs_ri := ri |} in
                      (rs_m s, match r with
                               | Ok _ => Ok (rs_ri s)
                               | Err e => Err e
                               | Bug => Bug
                               end));;
      l <- each_ring f l;;
      ret (ri :: l)
  end.

Fixpoint each_chain (f : SE rstate unit) (ls : list (list v4v_ring_info))
  : SE machine (list (list v4v_ring_info)) :=
  match ls with
  | [] => ret []
  | l :: ls =>
      l <- each_ring f l;;
      ls <- each_chain f ls;;
      ret (l :: ls)
  end.

(** [v4v_init] *)
Definition v4v_init (did : Z) : SE world unit :=
  ok <- in_machine xmalloc;;
  fail_if (negb ok) (- ENOMEM);;
  set_domain_v4v did
    (Some {| ring_hash := replicate (Z.to_nat V4V_HTABLE_SIZE) [] |}).

(** [v4v_destroy]: the rings are taken out and freed one by one, then the
    table is. *)
Definition v4v_destroy (did : Z) : SE world unit :=
  w <- get;;
  match w_doms w !! did with
  | None => bug
  | Some d =>
      bug_if (negb (is_dying d));;
      match d_v4v d with
      | Some vd =>
          in_machine (each_chain
            (set_ring (set_ri_pending []);;
             v4v_ring_remove_mfns (negb (mfns_dont_belong_xen did)))
            (ring_hash vd));;
          ret tt
      | None => ret tt
      end;;
      set_domain_v4v did None
  end.

(** [v4v_shutdown_for_suspend] *)
Definition v4v_shutdown_for_suspend (did : Z) : SE world unit :=
  w <- get;;
  match w_doms w !! did with
  | None => ret tt
  | Some d =>
      bug_if (shutdown_crash d);;
      match dom_destroyed d, d_v4v d with
      | false, Some vd =>
          h <- in_machine (each_chain
                 (v4v_ring_reset (negb (mfns_dont_belong_xen did)))
                 (ring_hash vd));;
          set_domain_v4v did (Some {| ring_hash := h |})
      | _, _ => ret tt
      end
  end.

(** [v4v_resume] *)
Definition v4v_resume (did : Z) : SE world unit :=
  w <- get;;
  match w_doms w !! did with
  | None => ret tt
  | Some d => if dom_destroyed d then ret tt else v4v_signal_domain did
  end.
End Ops.
