(* ===== verification/V4vInv.v ===== *)
(** * V4V: the invariant of the rings of a domain

    What holds of every record the hypervisor keeps for a ring, and that
    every operation on the ring keeps it, whatever the guests and the
    environment do. *)

From stdpp Require Import base list numbers gmap.
From Stdlib Require Import ZArith Lia.
From S2P Require Import Prelude Machine V4vTypes V4vRing V4vRingSafe.
From S2P Require Import V4vWorld V4vOps.

Open Scope Z_scope.
Open Scope se_scope.

(** The length is that of a placeholder or of an accepted ring; [tx_ptr] is
    a multiple of 16; there is one pending notification for a domain at most;
    a ring has pages only while it has arrays for them. *)
Record ring_fields_ok (ri : v4v_ring_info) : Prop := {
  rf_len : ri_len ri = 0 \/ 48 <= ri_len ri <= V4V_MAX_RING_SIZE;
  rf_len16 : ri_len ri mod 16 = 0;
  rf_tx : 0 <= ri_tx_ptr ri < 2 ^ 32 /\ ri_tx_ptr ri mod 16 = 0;
  rf_pages : 0 <= ri_nmfns ri <= ri_npage ri /\
             ri_npage ri <= Z.shiftr V4V_MAX_RING_SIZE PAGE_SHIFT;
  rf_null : ri_mfns ri = None -> ri_npage ri = 0;
  rf_pending : NoDup (map ent_id (ri_pending ri))
}.

Definition ring_inv (id : v4v_ring_id) (s : rstate) : Prop :=
  ri_id (rs_ri s) = id /\ ring_ok s /\ ring_fields_ok (rs_ri s).

(** ** Operations that only map pages

    A property of the record that does not look at the mappings is kept by
    all the copies. *)
Section Keep.
Context `{E : HostEnv}.
Context (P : v4v_ring_info -> Prop).
Context (HP : forall mm r, P r -> P (set_ri_mapping mm r)).
Local Abbreviation keeps := (preserves (fun s => P (rs_ri s))).

Lemma on_machine_keeps {A} (m : SE machine A) : keeps (on_machine m).
Proof. intros s Hs. unfold on_machine, zoom. by destruct (m (rs_m s)). Qed.

Lemma map_page_keeps i : keeps (v4v_ring_map_page i).
Proof using HP.
  intros s Hs. unfold v4v_ring_map_page, bind, gets, fail_if. simpl.
  destruct (_ <=? i); simpl; [done|].
  destruct (ri_mfns (rs_ri s)), (ri_mfn_mapping (rs_ri s)); try done.
  destruct (_ !! _) as [[]|]; simpl; [done| |done].
  destruct (_ !! _); simpl; [|done].
  destruct (env_map_page _ _); simpl; auto.
Qed.

Lemma page_loop_keeps {A} (chunk : Z -> Z -> Z -> A -> SE rstate A) fuel :
  (forall page off n acc, keeps (chunk page off n acc)) ->
  forall page off n acc, keeps (page_loop chunk fuel page off n acc).
Proof.
  intros Hc. induction fuel; intros; cbn [page_loop]; se_keep.
Qed.

Local Hint Resolve on_machine_keeps map_page_keeps : keep.

Lemma memcpy_from_keeps o n : keeps (v4v_memcpy_from_guest_ring o n).
Proof using HP. apply page_loop_keeps. se_keep. Qed.
Lemma memcpy_to_keeps o src n : keeps (v4v_memcpy_to_guest_ring o src n).
Proof using HP.
  unfold v4v_memcpy_to_guest_ring. apply preserves_bind; [|se_keep].
  apply page_loop_keeps. se_keep.
Qed.
Lemma memcpy_from_guest_keeps o hnd n :
  keeps (v4v_memcpy_to_guest_ring_from_guest o hnd n).
Proof using HP.
  unfold v4v_memcpy_to_guest_ring_from_guest.
  apply preserves_bind; [se_keep|]. intros _.
  apply preserves_bind; [|se_keep]. apply page_loop_keeps. se_keep.
Qed.
Lemma payload_space_keeps : keeps v4v_ringbuf_payload_space.
Proof using HP. unfold v4v_ringbuf_payload_space, v4v_ringbuf_get_rx_ptr. se_keep. Qed.
Lemma iov_count_keeps n iovs x : keeps (v4v_iov_count n iovs x).
Proof. revert iovs x. induction n; intros; cbn [v4v_iov_count]; se_keep. Qed.

Local Hint Resolve memcpy_from_keeps memcpy_to_keeps memcpy_from_guest_keeps
  iov_count_keeps : keep.

Lemma insert_loop_keeps n iovs buf len tx : keeps (insert_loop n iovs buf len tx).
Proof using HP.
  assert (forall b k t, keeps (insert_piece b k t)).
  { intros. unfold insert_piece. se_keep. }
  revert iovs buf len tx. induction n; intros; cbn [insert_loop]; se_keep.
Qed.
End Keep.

(** ** The insertion *)

Section RingInv.
Context `{E : HostEnv} (id : v4v_ring_id).

Lemma fields_mapping mm r : ring_fields_ok r -> ring_fields_ok (set_ri_mapping mm r).
Proof. by intros []. Qed.

(** The new [tx_ptr] is a multiple of 16. *)
Lemma new_tx_aligned L t : L mod 16 = 0 ->
  let x := u32 (V4V_ROUNDUP t) in
  let x := if L <=? x then u32 (x - L) else x in
  0 <= x < 2 ^ 32 /\ x mod 16 = 0.
Proof.
  intros HL. assert (forall y, y mod 16 = 0 -> u32 y mod 16 = 0) as Hu.
  { intros y Hy. unfold u32. change (2 ^ 32) with (16 * 2 ^ 28). zlia. }
  pose proof (Hu _ (V4V_ROUNDUP_mod t)) as H1. pose proof (u32_range (V4V_ROUNDUP t)).
  cbv zeta. destruct (_ <=? _); [|done]. split; [apply u32_range|].
  apply Hu. zlia.
Qed.

Lemma insert_message_fields src proto buf len iovs niov :
  preserves (fun s => ring_fields_ok (rs_ri s))
    (insert_message src proto buf len iovs niov).
Proof.
  pose proof fields_mapping as HP. unfold insert_message.
  apply preserves_bind; [by apply memcpy_from_keeps|]. intros bs.
  apply preserves_bind_gets_with. intros s1 Hs1. cbv zeta.
  apply preserves_bind; [se_keep|]. intros _.
  apply preserves_bind; [by apply memcpy_to_keeps|]. intros _.
  apply preserves_bind; [by apply insert_loop_keeps|]. intros tx.
  apply preserves_bind.
  - apply preserves_modify. intros s []. split; try done. simpl.
    apply new_tx_aligned, Hs1.
  - intros _. unfold v4v_update_tx_ptr.
    apply preserves_bind; [by apply map_page_keeps|]. intros.
    apply (on_machine_keeps ring_fields_ok).
Qed.

(** ** Operations on one ring *)

Local Abbreviation I := (ring_inv id).

(** What is confined to the ring and keeps the fields keeps the invariant. *)
Lemma confined_sound {A} (m : SE rstate A) :
  safe ring_ok confined m -> preserves (fun s => ring_fields_ok (rs_ri s)) m ->
  sound I m.
Proof.
  intros Hm Hf s (Hid & Hok & Hfi). destruct (Hm s Hok) as (H1 & (H2 & _) & H3).
  split; [|done]. split; [|split; [done|by apply Hf]].
  destruct H2 as (-> & _). done.
Qed.

Lemma on_machine_sound {A} (m : SE machine A) :
  sound (fun _ => True) m -> sound I (on_machine m).
Proof. apply sound_zoom. by intros. Qed.

Lemma tick_sound : sound (fun _ => True) tick.
Proof. done. Qed.
Lemma log_sound e : sound (fun _ => True) (log e).
Proof. done. Qed.
Lemma xmalloc_sound : sound (fun _ => True) xmalloc.
Proof. done. Qed.
Lemma put_page_sound f : sound (fun _ => True) (put_page f).
Proof. done. Qed.
Lemma get_page_sound f d : sound (fun _ => True) (get_page f d).
Proof.
  intros m _. unfold get_page, bind, tick, modify, ret.
  by destruct (env_get_page _ _ _).
Qed.
Lemma copy_from_sound a n : sound (fun _ => True) (copy_from_guest_errno a n).
Proof.
  intros m _. unfold copy_from_guest_errno, guest_read, bind, ret. simpl.
  by destruct (_ =? _).
Qed.
Lemma copy_to_sound a bs : sound (fun _ => True) (copy_to_guest_errno a bs).
Proof.
  intros m _. unfold copy_to_guest_errno, bind. simpl. by destruct (_ =? _).
Qed.
Local Hint Resolve tick_sound log_sound xmalloc_sound put_page_sound
  get_page_sound copy_from_sound copy_to_sound on_machine_sound : se.

Lemma put_frames_sound l : sound (fun _ => True) (put_frames l).
Proof. induction l; simpl; se_safe. Qed.
Lemma read_pfn_sound h i : sound (fun _ => True) (read_pfn h i).
Proof. unfold read_pfn. se_safe. Qed.
Lemma find_ring_mfn_sound c did pfn :
  sound (fun _ => True) (v4v_find_ring_mfn c did pfn).
Proof. unfold v4v_find_ring_mfn. se_safe. Qed.
Local Hint Resolve put_frames_sound read_pfn_sound find_ring_mfn_sound : se.
Lemma same_mfns_sound c did h i mfns :
  sound (fun _ => True) (same_mfns c did h i mfns).
Proof.
  revert i. induction mfns; intros; simpl; se_safe. apply safe_recover. se_safe.
Qed.
Local Hint Resolve same_mfns_sound : se.

Lemma insert_sound src proto buf len iovs niov :
  sound I (v4v_ringbuf_insert src proto buf len iovs niov).
Proof.
  apply confined_sound; [apply insert_safe|].
  pose proof insert_message_fields.
  pose proof (iov_count_keeps ring_fields_ok). unfold v4v_ringbuf_insert. se_keep.
Qed.

Lemma payload_space_sound : sound I v4v_ringbuf_payload_space.
Proof.
  apply confined_sound; [apply payload_space_safe|].
  apply (payload_space_keeps ring_fields_ok), fields_mapping.
Qed.

Lemma map_page_sound i : 0 <= i -> sound I (v4v_ring_map_page i).
Proof.
  intros. apply confined_sound; [by apply map_page_safe|].
  apply (map_page_keeps ring_fields_ok), fields_mapping.
Qed.
Local Hint Resolve insert_sound payload_space_sound : se.

(** *** Pending notifications *)

Lemma pending_raise_ids p x len p' :
  pending_raise p x len = Some p' -> map ent_id p' = map ent_id p.
Proof.
  revert p'. induction p as [|e p IH]; intros p'; simpl; [done|].
  destruct (_ =? _); [intros [= <-]; by destruct (_ <? _)|].
  destruct (pending_raise p x len) as [l|]; [|done]. intros [= <-].
  simpl. f_equal. by apply IH.
Qed.

Lemma pending_raise_none p x len :
  pending_raise p x len = None -> x ∉ map ent_id p.
Proof.
  induction p as [|e p IH]; simpl; [by intros _ ?%elem_of_nil|].
  destruct (Z.eqb_spec (ent_id e) x); [done|].
  destruct (pending_raise p x len); [done|]. intros _.
  rewrite elem_of_cons. intros [->|]; [done|]. by apply IH.
Qed.

Lemma pending_find_sublist p space n :
  sublist (v4v_pending_find p space n).1 p.
Proof.
  revert n. induction p as [|e p IH]; intros n; simpl; [done|].
  destruct (_ <=? _); [by apply sublist_cons|].
  specialize (IH n). destruct (v4v_pending_find p space n). by apply sublist_skip.
Qed.

Lemma set_pending_sound f :
  (forall ri, NoDup (map ent_id (ri_pending ri)) -> NoDup (map ent_id (f ri))) ->
  sound I (set_ring (fun ri => set_ri_pending (f ri) ri)).
Proof.
  intros Hf. apply sound_modify. intros s (Hid & Hok & []).
  split; [done|]. split; [done|]. split; try done. simpl. by apply Hf.
Qed.

Lemma NoDup_sublist_ids (p q : list v4v_pending_ent) :
  sublist p q -> NoDup (map ent_id q) -> NoDup (map ent_id p).
Proof.
  intros Hs Hq. eapply sublist_NoDup; [done|]. clear Hq.
  induction Hs; simpl; by constructor.
Qed.

Lemma filter_sublist {A} (f : A -> bool) l : sublist (List.filter f l) l.
Proof.
  induction l as [|x l IH]; simpl; [done|].
  destruct (f x); [by apply sublist_skip|by apply sublist_cons].
Qed.

Lemma pending_cancel_sound x : sound I (v4v_pending_cancel x).
Proof.
  apply set_pending_sound. intros ri. apply NoDup_sublist_ids, filter_sublist.
Qed.

Lemma pending_requeue_sound x len : sound I (v4v_pending_requeue x len).
Proof.
  apply sound_triple, triple_bind_gets. intros s Hs.
  pose proof Hs as (Hid & Hok & Hf).
  destruct (pending_raise _ _ _) as [p|] eqn:Ep.
  - apply triple_modify. intros ? <-. split; [done|]. split; [done|].
    destruct Hf. split; try done. simpl. by rewrite (pending_raise_ids _ _ _ _ Ep).
  - intros ? <-. apply pending_raise_none in Ep.
    unfold v4v_pending_queue, bind, on_machine, zoom, xmalloc, ret. simpl.
    destruct (env_xmalloc _); simpl; [|done].
    split; [done|]. split; [done|]. destruct Hf. split; try done. simpl.
    by apply NoDup_cons.
Qed.
Local Hint Resolve pending_cancel_sound pending_requeue_sound : se.

Lemma notify_ring_sound n : sound I (v4v_notify_ring n).
Proof.
  unfold v4v_notify_ring. apply safe_bind; [apply _|se_safe|]. intros ri.
  apply safe_bind; [apply _|se_safe|]. intros space.
  destruct (space =? 0); [se_safe|].
  apply sound_triple, triple_bind_gets. intros s (Hid & Hok & Hf).
  pose proof (pending_find_sublist (ri_pending (rs_ri s)) space n) as Hsub.
  destruct (v4v_pending_find _ _ _) as [p q]. intros ? <-.
  split; [done|]. split; [done|]. destruct Hf. split; try done. simpl.
  by eapply NoDup_sublist_ids.
Qed.

Lemma ring_data_sound x req : sound I (ring_data_of x req).
Proof. unfold ring_data_of. se_safe. Qed.

Lemma ring_send_sound src proto buf len iovs niov :
  sound I (ring_send src proto buf len iovs niov).
Proof. unfold ring_send. se_safe. Qed.

(** *** Pages *)

Lemma unmap_inv s : I s ->
  I {| rs_m := rs_m s; rs_ri := v4v_ring_unmap (rs_ri s) |}.
Proof.
  intros (Hid & Hok & Hf). unfold v4v_ring_unmap.
  destruct (ri_mfn_mapping (rs_ri s)) as [mm|] eqn:Emm; [|done].
  split; [done|]. split; [|by destruct Hf].
  unfold ring_ok, pages_ok in *. simpl. rewrite Emm in Hok.
  destruct (ri_mfns (rs_ri s)); [|done]. destruct Hok as (? & ? & _).
  rewrite length_map. split; [done|]. split; [done|].
  intros i f Hi. apply list_lookup_fmap_Some in Hi as (? & [=] & _).
Qed.

(** The ring has no pages. *)
Definition no_pages (s : rstate) : Prop := ri_mfns (rs_ri s) = None.

Lemma remove_mfns_spec put :
  triple I (v4v_ring_remove_mfns put) (fun _ s => I s /\ no_pages s) I.
Proof.
  apply triple_bind_gets. intros s Hs. destruct (ri_mfns (rs_ri s)) as [l|] eqn:El.
  - apply (triple_bind _ _ _ (fun _ => I)).
    { apply (triple_pre _ _ (eq s)); [done|].
      apply (triple_post _ _ _ (fun _ => eq s)); [apply triple_bug_if|by intros ? ? <-].
      intros _ _. pose proof Hs as (_ & Hok & _). unfold ring_ok, pages_ok in Hok.
      rewrite El in Hok. by destruct (ri_mfn_mapping _). }
    intros _. apply (triple_bind _ _ _ (fun _ => I)).
    { apply triple_modify, unmap_inv. }
    intros _. apply (triple_bind _ _ _ (fun _ => I)).
    { apply sound_triple. se_safe. }
    intros _. apply triple_modify. intros s1 (Hid & Hok & []).
    split; [|done]. split; [done|]. split; [done|]. by split.
  - apply triple_ret. by intros ? <-.
Qed.

Lemma remove_mfns_sound put : sound I (v4v_ring_remove_mfns put).
Proof.
  apply sound_triple. eapply triple_post; [apply remove_mfns_spec|]. by intros ? ? [].
Qed.
Local Hint Resolve remove_mfns_sound : se.

Lemma ring_reset_sound put : sound I (v4v_ring_reset put).
Proof.
  apply sound_triple. eapply triple_bind; [apply remove_mfns_spec|]. intros [].
  apply triple_modify. intros s ((Hid & Hok & []) & Hn). unfold no_pages in Hn.
  split; [done|]. unfold ring_ok, pages_ok in *. simpl. rewrite Hn in *.
  split; [by destruct (ri_mfn_mapping _)|]. split; try done; simpl; auto; lia.
Qed.

(** The state of a ring of [np] pages while its arrays are filled up. *)
Definition filling (np : Z) (s : rstate) : Prop :=
  I s /\ ri_npage (rs_ri s) = np /\ ri_mfns (rs_ri s) <> None.

Lemma fill_step np i f s :
  filling np s -> ri_nmfns (rs_ri s) = i -> i < np ->
  let s' := {| rs_m := rs_m s; rs_ri := set_ri_pages (ri_npage (rs_ri s)) (i + 1)
    (option_map (fun l => l ++ [f]) (ri_mfns (rs_ri s)))
    (option_map (fun l => l ++ [None]) (ri_mfn_mapping (rs_ri s))) (rs_ri s) |} in
  filling np s' /\ ri_nmfns (rs_ri s') = i + 1.
Proof.
  intros ((Hid & Hok & Hf) & Hnp & Hm) Hi Hlt. simpl. split; [|done].
  unfold ring_ok, pages_ok in Hok.
  destruct (ri_mfns (rs_ri s)) as [l|] eqn:El; [|done].
  destruct (ri_mfn_mapping (rs_ri s)) as [mm|] eqn:Emm; [|done].
  destruct Hok as (Hlen & Hmm & Hmap).
  split; [|by rewrite ?El]. split; [done|]. split.
  - unfold ring_ok, pages_ok. simpl. rewrite zlen_app, !length_app, Hmm.
    split; [unfold zlen at 2; simpl; lia|]. split; [done|]. intros j g Hj.
    apply lookup_app_Some in Hj as [Hj|[_ Hj]].
    + apply lookup_app_l_Some, Hmap, Hj.
    + by apply list_lookup_singleton_Some in Hj as [_ [=]].
  - destruct Hf. split; try done. simpl. lia.
Qed.

(** All the pages of the ring have been found. *)
Definition filled (np : Z) (s : rstate) : Prop :=
  filling np s /\ ri_nmfns (rs_ri s) = np.

Lemma fill_mfns_spec c did h np n i :
  np = i + Z.of_nat n ->
  triple (fun s => filling np s /\ ri_nmfns (rs_ri s) = i) (fill_mfns c did h n i)
    (fun b s => I s /\ (b = true -> filled np s)) I.
Proof.
  revert i. induction n as [|n IH]; intros i Hn; cbn [fill_mfns].
  { apply triple_ret. intros s [Hs Hi]. split; [apply Hs|]. intros _. split; [done|lia]. }
  assert (forall A (m : SE machine A), sound (fun _ => True) m ->
    triple (fun s => filling np s /\ ri_nmfns (rs_ri s) = i) (on_machine m)
      (fun _ s => filling np s /\ ri_nmfns (rs_ri s) = i) I) as Hom.
  { intros A m Hm s1 [Hs1 Hi1]. unfold on_machine, zoom.
    destruct (Hm (rs_m s1) Logic.I) as (_ & _ & Hb).
    destruct (m (rs_m s1)) as [? []]; [done|apply Hs1|done]. }
  eapply triple_bind; [apply Hom, tick_sound|]. intros t.
  destruct (env_free_pages_needed t).
  { eapply triple_bind; [apply Hom, log_sound|]. intros [].
    apply triple_ret. by intros ? [[] ?]. }
  eapply triple_bind; [apply Hom, read_pfn_sound|]. intros pfn.
  eapply triple_bind; [apply Hom, find_ring_mfn_sound|]. intros mfn.
  apply (triple_bind _ _ _ (fun _ s => filling np s /\ ri_nmfns (rs_ri s) = i + 1));
    [|intros _; apply (IH (i + 1)); lia].
  apply triple_modify. intros s1 [Hs1 Hi1]. apply fill_step; [done|done|lia].
Qed.

Context {HO : HostEnvOk E}.

Lemma copy_from_bytes a n P X : (forall s, P s -> I s) -> (forall s, I s -> X s) ->
  (forall s m, P s -> P {| rs_m := m; rs_ri := rs_ri s |}) ->
  triple P (on_machine (copy_from_guest_errno a n))
    (fun bs s => P s /\ Forall (fun b => 0 <= b < 256) bs) X.
Proof using HO.
  intros HI HX HP s Hs. unfold on_machine, zoom, copy_from_guest_errno, bind. simpl.
  destruct (_ =? 0); simpl; [|by apply HX, HI, HP].
  split; [by apply HP|apply env_read_bytes].
Qed.

Lemma recheck_mfns_spec c did h np :
  triple I (recheck_mfns c did h np)
    (fun _ s => I s /\ (no_pages s \/ ri_npage (rs_ri s) = np)) I.
Proof.
  apply triple_bind_gets. intros s Hs. destruct (ri_mfns (rs_ri s)) as [l|] eqn:El.
  2: { apply triple_ret. intros ? <-. split; [done|by left]. }
  apply (triple_bind _ _ _ (fun b s' => I s' /\
    (b = true -> ri_npage (rs_ri s') = np))).
  - destruct (Z.eqb_spec (ri_npage (rs_ri s)) np) as [Hnp|].
    + intros ? <-. destruct (same_mfns_sound c did h 0 l (rs_m s) Logic.I) as (_ & _ & Hb).
      unfold on_machine, zoom. destruct (same_mfns _ _ _ _ _ _) as [m []]; simpl in *;
        [|done|done]. split; [done|]. by intros _.
    + apply triple_ret. by intros ? <-.
  - intros [].
    + apply triple_ret. intros ? [? Hnp]. split; [done|]. right. by apply Hnp.
    + eapply triple_pre; [|eapply triple_post; [apply remove_mfns_spec|]].
      * by intros ? [].
      * intros _ ? []. split; [done|by left].
Qed.

Lemma alloc_mfns_spec np :
  0 <= np <= Z.shiftr V4V_MAX_RING_SIZE PAGE_SHIFT ->
  triple (fun s => I s /\ (no_pages s \/ ri_npage (rs_ri s) = np)) (alloc_mfns np)
    (fun _ => filling np) I.
Proof.
  intros Hnp. apply triple_bind_gets. intros s [Hs Hor].
  unfold no_pages in Hor. destruct (ri_mfns (rs_ri s)) as [l|] eqn:El.
  { apply triple_ret. intros ? <-. destruct Hor as [|]; [done|].
    split; [done|]. split; [done|]. by rewrite El. }
  intros ? <-. unfold bind, on_machine, zoom, xmalloc, fail_if, ret. simpl.
  destruct (env_xmalloc _); simpl; [|done].
  destruct (env_xmalloc _); simpl; [|done].
  pose proof Hs as (Hid & Hok & Hf). unfold ring_ok, pages_ok in Hok.
  rewrite El in Hok. destruct (ri_mfn_mapping (rs_ri s)); [done|].
  split; [|done]. split; [done|]. split.
  - unfold ring_ok, pages_ok. simpl. by rewrite Hok.
  - destruct Hf. split; simpl; try done. rewrite Hok. lia.
Qed.

(** The whole of [v4v_find_ring_mfns], with a property [B] that its parts
    keep. *)
Section FindMfns.
Context (B : rstate -> Prop) (c : caller) (did : Z).
Context (HBc : forall a n s, B s -> B (fst (on_machine (copy_from_guest_errno a n) s))).
Context (HBr : forall h np s, I s -> B s -> B (fst (recheck_mfns c did h np s))).
Context (HBa : forall np s, B s -> B (fst (alloc_mfns np s))).
Context (HBf : forall h n i s, ri_mfns (rs_ri s) <> None -> B s ->
  B (fst (fill_mfns c did h n i s))).
Context (HBm : forall s, I s -> B s ->
  B (fst (v4v_ring_remove_mfns (negb (mfns_dont_belong_xen (cur_domain c))) s))).
Local Abbreviation IB := (fun s => I s /\ B s).

(** The part that fills up the arrays. *)
Lemma fill_or_remove_spec h np s : filling np s -> B s ->
  triple (eq s)
    (catch (fill_mfns c did h (Z.to_nat (np - ri_nmfns (rs_ri s))) (ri_nmfns (rs_ri s)))
       (fun e =>
          when (negb (e =? - ECONTINUATION))
            (v4v_ring_remove_mfns (negb (mfns_dont_belong_xen (cur_domain c))));;
          fail e))
    (fun b s => (I s /\ (b = true -> filled np s)) /\ B s) IB.
Proof using HBf HBm.
  intros Hs Hb. pose proof Hs as ((_ & _ & Hf) & Hnp & Hm).
  pose proof (rf_pages _ Hf). apply (triple_catch _ _ _ _ IB).
  - apply (triple_pre _ _ (fun s' => (filling np s' /\
      ri_nmfns (rs_ri s') = ri_nmfns (rs_ri s)) /\ B s')); [by intros ? <-|].
    apply triple_and; [apply fill_mfns_spec; lia|].
    intros s1 [[_ [_ Hm1]] _] Hb1. by apply HBf.
  - intros e. apply (triple_bind _ _ _ (fun _ => IB)); [|by intros _; apply triple_fail].
    apply triple_when, triple_and; [apply sound_triple; se_safe|]. by apply HBm.
Qed.

(** [BUG_ON(ring_info->npage != npage)] does not fire; success leaves a ring
    with all its pages, enough for [len] bytes, and a failure a ring without
    pages or with a part of them. *)
Lemma find_ring_mfns_spec h len :
  triple IB (v4v_find_ring_mfns c did h len)
    (fun _ s => IB s /\ exists np, filled np s /\ len <= PAGE_SIZE * np) IB.
Proof using HO HBc HBr HBa HBf HBm.
  unfold v4v_find_ring_mfns. eapply triple_bind.
  { apply (triple_and _ I (fun bs s => I s /\ Forall (fun b => 0 <= b < 256) bs));
      [by apply copy_from_bytes|]. intros. by apply HBc. }
  intros bs. apply (triple_pre _ _ (fun s => IB s /\ Forall (fun b => 0 <= b < 256) bs));
    [by intros ? [[] ?]|].
  apply triple_pure. intros Hbs. pose proof (field_range 8 4 bs ltac:(lia) Hbs).
  cbv zeta. set (np := field 8 4 bs) in *.
  eapply triple_bind; [by apply triple_fail_if|]. intros []. apply triple_pure. intros _.
  eapply triple_bind; [by apply triple_fail_if|]. intros []. apply triple_pure.
  intros Hlen%Z.ltb_ge.
  eapply triple_bind; [by apply triple_fail_if|]. intros [].
  apply triple_pure. intros Hle%Z.ltb_ge.
  assert (len <= PAGE_SIZE * np) as Hpages.
  { change (Z.shiftr V4V_MAX_RING_SIZE PAGE_SHIFT) with 4096 in Hle.
    unfold PAGE_SHIFT, PAGE_SIZE in *. rewrite Z.shiftl_mul_pow2 in Hlen by done.
    change (2 ^ 12) with 4096 in Hlen. rewrite u32_small in Hlen; lia. }
  eapply triple_bind.
  { apply triple_and; [apply recheck_mfns_spec|]. intros. by apply HBr. }
  intros []. eapply triple_bind.
  { apply triple_and; [apply alloc_mfns_spec; lia|]. intros. by apply HBa. }
  intros []. apply triple_bind_gets. intros s [Hs Hb]. pose proof Hs as (HI & Hnp & Hm).
  rewrite Hnp, Z.eqb_refl. unfold bind at 1. cbn [bug_if negb].
  destruct (Z.eqb_spec (ri_nmfns (rs_ri s)) np) as [He|_].
  { apply triple_ret. intros ? <-. split; [done|]. by exists np. }
  eapply triple_bind; [by apply fill_or_remove_spec|]. intros [].
  - apply triple_ret. intros s' [[H1 H2] H3]. split; [done|]. exists np. by split; [apply H2|].
  - apply triple_fail. by intros s' [[H1 _] H3].
Qed.
End FindMfns.

Lemma find_ring_mfns_filled c did h len :
  triple I (v4v_find_ring_mfns c did h len)
    (fun _ s => I s /\ exists np, filled np s /\ len <= PAGE_SIZE * np) I.
Proof using HO.
  pose proof (find_ring_mfns_spec (fun _ => True) c did) as H.
  intros s Hs. specialize (H ltac:(done) ltac:(done) ltac:(done) ltac:(done) ltac:(done)
    h len s (conj Hs Logic.I)).
  destruct (v4v_find_ring_mfns c did h len s) as [s' []]; [|by destruct H|done].
  destruct H as [[H1 _] H2]. done.
Qed.

Lemma find_ring_mfns_sound c did h len : sound I (v4v_find_ring_mfns c did h len).
Proof using HO.
  apply sound_triple. eapply triple_post; [apply find_ring_mfns_filled|]. by intros ? ? [].
Qed.

(** The end of a registration, for a header [v4v_ring_add] accepts. *)
Lemma ring_attach_sound c d tx hnd pl len :
  0 <= tx < 2 ^ 32 -> tx mod 16 = 0 ->
  48 <= len <= V4V_MAX_RING_SIZE -> len mod 16 = 0 ->
  sound I (ring_attach c d tx hnd pl len).
Proof using HO.
  intros Htx Htm Hlen Hlm. unfold ring_attach.
  apply safe_bind; [apply _| |intros _].
  { apply sound_modify. intros s (Hid & Hok & []). split; [done|]. split; [done|].
    by split. }
  apply safe_bind; [apply _|apply find_ring_mfns_sound|]. intros _.
  apply safe_bind; [apply _|by apply map_page_sound|]. intros _.
  apply sound_modify. intros s (Hid & Hok & []). split; [done|]. split; [done|].
  split; try done. by right.
Qed.
End RingInv.
