(* ===== verification/V4vTable.v ===== *)
(** * V4V: the table of rings

    The hash table of a domain is a finite map from ring ids to records: the
    lookup, the insertion and the removal of v4v.c are those of a map, and
    every record satisfies the invariant of its ring. *)

From stdpp Require Import base list numbers gmap.
From Stdlib Require Import ZArith Lia.
From S2P Require Import Prelude Machine V4vTypes V4vRing V4vRingSafe.
From S2P Require Import V4vWorld V4vOps V4vInv.

Open Scope Z_scope.
Open Scope se_scope.

(** A record in the table of the domain [did]. *)
Definition ri_ok (did : Z) (ri : v4v_ring_info) : Prop :=
  addr_domain (id_addr (ri_id ri)) = did /\ pages_ok ri /\ ring_fields_ok ri.

(** Chain [i] has the ids that hash to [i], each of them once. *)
Definition chain_ok (did : Z) (i : nat) (l : list v4v_ring_info) : Prop :=
  NoDup (map ri_id l) /\
  Forall (fun ri => Z.to_nat (v4v_hash_fn (ri_id ri)) = i /\ ri_ok did ri) l.

Definition table_ok (did : Z) (vd : v4v_domain) : Prop :=
  length (ring_hash vd) = Z.to_nat V4V_HTABLE_SIZE /\
  forall i l, ring_hash vd !! i = Some l -> chain_ok did i l.

Lemma ring_inv_ri_ok did m ri :
  ri_ok did ri <->
  addr_domain (id_addr (ri_id ri)) = did /\
  ring_inv (ri_id ri) {| rs_m := m; rs_ri := ri |}.
Proof. unfold ri_ok, ring_inv, ring_ok. simpl. tauto. Qed.

Lemma hash_range id : (Z.to_nat (v4v_hash_fn id) < Z.to_nat V4V_HTABLE_SIZE)%nat.
Proof.
  unfold v4v_hash_fn. change (V4V_HTABLE_SIZE - 1) with (Z.ones 5).
  rewrite Z.land_ones by lia. change (2 ^ 5) with V4V_HTABLE_SIZE.
  set (x := Z.lxor _ _). pose proof (Z.mod_pos_bound x V4V_HTABLE_SIZE ltac:(done)).
  lia.
Qed.

Lemma new_ring_ok id : ri_ok (addr_domain (id_addr id)) (new_ring_info id).
Proof.
  split; [done|]. split; [done|]. split; simpl; try done; [by left|constructor].
Qed.

(** ** Chains *)

Lemma chain_find_ids l id :
  List.find (fun ri => bool_decide (ri_id ri = id)) l = None <->
  id ∉ map ri_id l.
Proof.
  induction l as [|r l IH]; simpl.
  - split; [by intros _ ?%elem_of_nil|done].
  - rewrite elem_of_cons. case_bool_decide as H.
    + split; [done|]. intros []. by left.
    + rewrite IH. intuition congruence.
Qed.

Lemma chain_find_Some l id ri :
  List.find (fun ri => bool_decide (ri_id ri = id)) l = Some ri ->
  ri ∈ l /\ ri_id ri = id.
Proof.
  intros [Hin Hb]%List.find_some. apply bool_decide_eq_true in Hb.
  split; [by apply list_elem_of_In|done].
Qed.

Lemma chain_store_ids ri l : map ri_id (chain_store ri l) = map ri_id l.
Proof.
  induction l as [|r l IH]; simpl; [done|].
  case_decide as H; simpl; [by rewrite H|by rewrite IH].
Qed.

Lemma chain_store_find ri l id :
  List.find (fun r => bool_decide (ri_id r = id)) (chain_store ri l) =
  if decide (ri_id ri = id)
  then option_map (fun _ => ri) (List.find (fun r => bool_decide (ri_id r = id)) l)
  else List.find (fun r => bool_decide (ri_id r = id)) l.
Proof.
  induction l as [|r l IH]; simpl; [by case_decide|].
  repeat (case_bool_decide || case_decide || simpl); subst; try done; congruence.
Qed.

Lemma chain_del_find id' l id :
  NoDup (map ri_id l) ->
  List.find (fun r => bool_decide (ri_id r = id)) (chain_del id' l) =
  if decide (id' = id) then None
  else List.find (fun r => bool_decide (ri_id r = id)) l.
Proof.
  induction l as [|r l IH]; simpl; [by case_decide|].
  intros [Hn Hnd]%NoDup_cons. specialize (IH Hnd).
  destruct (decide (ri_id r = id')) as [<-|H1]; simpl.
  - destruct (decide (ri_id r = id)) as [<-|H2]; [by apply chain_find_ids|].
    by rewrite bool_decide_eq_false_2.
  - rewrite IH. case_bool_decide; [|done]. by case_decide; [congruence|].
Qed.

Lemma chain_store_Forall (P : v4v_ring_info -> Prop) ri l :
  P ri -> Forall P l -> Forall P (chain_store ri l).
Proof.
  intros Hri. induction 1; simpl; [constructor|]. case_decide; by constructor.
Qed.

Lemma chain_del_sublist id l : sublist (chain_del id l) l.
Proof.
  induction l as [|r l IH]; simpl; [done|].
  case_decide; [by apply sublist_cons|by apply sublist_skip].
Qed.

Lemma chain_ok_sublist did i l l' : sublist l' l -> chain_ok did i l -> chain_ok did i l'.
Proof.
  intros Hs [Hn Hf]. split.
  - eapply sublist_NoDup; [done|]. clear Hn Hf. induction Hs; simpl; by constructor.
  - clear Hn. induction Hs; inversion Hf; subst; auto.
Qed.

(** ** The table as a map *)

Section Table.
Context (did : Z).

Lemma bucket_ok vd id : table_ok did vd ->
  chain_ok did (Z.to_nat (v4v_hash_fn id)) (bucket vd id).
Proof.
  intros [Hlen Hok]. unfold bucket.
  destruct (lookup_lt_is_Some_2 (ring_hash vd) (Z.to_nat (v4v_hash_fn id))) as [l Hl].
  { rewrite Hlen. apply hash_range. }
  rewrite Hl. by apply Hok.
Qed.

Lemma set_bucket_ok vd id l : table_ok did vd ->
  chain_ok did (Z.to_nat (v4v_hash_fn id)) l -> table_ok did (set_bucket id l vd).
Proof.
  intros [Hlen Hok] Hl. unfold set_bucket. split; cbn [ring_hash]; [by rewrite length_insert|].
  intros i l' Hi. apply list_lookup_insert_Some in Hi as [(<- & -> & _)|[_ Hi]];
    [done|by apply Hok].
Qed.

Lemma bucket_set_same vd id id' l : table_ok did vd ->
  v4v_hash_fn id' = v4v_hash_fn id -> bucket (set_bucket id l vd) id' = l.
Proof.
  intros [Hlen _] He. unfold bucket, set_bucket. cbn [ring_hash]. rewrite He, list_lookup_insert_eq; [done|].
  rewrite Hlen. apply hash_range.
Qed.

Lemma hash_nonneg id : 0 <= v4v_hash_fn id.
Proof.
  unfold v4v_hash_fn. apply Z.land_nonneg. right. done.
Qed.

Lemma bucket_set_other vd id id' l :
  v4v_hash_fn id' <> v4v_hash_fn id -> bucket (set_bucket id l vd) id' = bucket vd id'.
Proof.
  intros He. unfold bucket, set_bucket. cbn [ring_hash]. rewrite list_lookup_insert_ne; [done|].
  pose proof (hash_nonneg id). pose proof (hash_nonneg id'). lia.
Qed.

(** The chain of an id decides its lookup. *)
Lemma find_set_bucket vd id l id' : table_ok did vd ->
  v4v_ring_find_info (set_bucket id l vd) id' =
  if decide (v4v_hash_fn id' = v4v_hash_fn id)
  then List.find (fun r => bool_decide (ri_id r = id')) l
  else v4v_ring_find_info vd id'.
Proof.
  intros Hok. unfold v4v_ring_find_info. case_decide.
  - by rewrite bucket_set_same.
  - by rewrite bucket_set_other.
Qed.

Lemma find_info_ok vd id ri : table_ok did vd ->
  v4v_ring_find_info vd id = Some ri -> ri_id ri = id /\ ri_ok did ri.
Proof.
  intros Hok Hf. pose proof (bucket_ok vd id Hok) as [_ Hl].
  apply chain_find_Some in Hf as [Hin Hid]. split; [done|].
  rewrite Forall_forall in Hl. by apply Hl.
Qed.

Lemma find_ring_store vd ri id : table_ok did vd ->
  v4v_ring_find_info (ring_store ri vd) id =
  if decide (ri_id ri = id)
  then option_map (fun _ => ri) (v4v_ring_find_info vd id)
  else v4v_ring_find_info vd id.
Proof.
  intros Hok. unfold ring_store. rewrite find_set_bucket by done.
  rewrite chain_store_find. unfold v4v_ring_find_info.
  case_decide as H1; case_decide as H2; subst; try done; unfold bucket; congruence.
Qed.

Lemma find_ring_link vd ri id : table_ok did vd ->
  v4v_ring_find_info (ring_link ri vd) id =
  if decide (ri_id ri = id) then Some ri else v4v_ring_find_info vd id.
Proof.
  intros Hok. unfold ring_link. rewrite find_set_bucket by done.
  cbn [List.find]. destruct (decide (ri_id ri = id)) as [<-|Hne].
  - rewrite bool_decide_eq_true_2 by done. by rewrite decide_True.
  - rewrite bool_decide_eq_false_2 by done. unfold v4v_ring_find_info, bucket.
    case_decide; congruence.
Qed.

Lemma find_ring_unlink vd id' id : table_ok did vd ->
  v4v_ring_find_info (ring_unlink id' vd) id =
  if decide (id' = id) then None else v4v_ring_find_info vd id.
Proof.
  intros Hok. unfold ring_unlink. rewrite find_set_bucket by done.
  rewrite chain_del_find by apply (bucket_ok vd id' Hok).
  unfold v4v_ring_find_info.
  case_decide as H1; case_decide as H2; subst; try done; unfold bucket; congruence.
Qed.

Lemma ring_store_ok vd ri : table_ok did vd -> ri_ok did ri ->
  table_ok did (ring_store ri vd).
Proof.
  intros Hok Hri. unfold ring_store. apply set_bucket_ok; [done|].
  destruct (bucket_ok vd (ri_id ri) Hok) as [Hn Hf].
  split; [by rewrite chain_store_ids|]. by apply chain_store_Forall.
Qed.

Lemma ring_link_ok vd ri : table_ok did vd -> ri_ok did ri ->
  v4v_ring_find_info vd (ri_id ri) = None -> table_ok did (ring_link ri vd).
Proof.
  intros Hok Hri Hf%chain_find_ids. unfold ring_link. apply set_bucket_ok; [done|].
  destruct (bucket_ok vd (ri_id ri) Hok). split; [by apply NoDup_cons|by constructor].
Qed.

Lemma ring_unlink_ok vd id : table_ok did vd -> table_ok did (ring_unlink id vd).
Proof.
  intros Hok. unfold ring_unlink. apply set_bucket_ok; [done|].
  eapply chain_ok_sublist; [apply chain_del_sublist|by apply bucket_ok].
Qed.

Lemma empty_table_ok :
  table_ok did {| ring_hash := replicate (Z.to_nat V4V_HTABLE_SIZE) [] |}.
Proof.
  split; [done|]. cbn [ring_hash]. intros i l [-> _]%lookup_replicate. by repeat constructor.
Qed.
End Table.
