(* ===== verification/V4vWorldInv.v ===== *)
(** * V4V: the invariant of all the tables, kept by every hypercall

    Whatever a guest passes to [do_v4v_op], and whatever the environment
    answers, the tables of all the domains stay well formed and the
    hypervisor does not stop. *)

From stdpp Require Import base list numbers gmap.
From Stdlib Require Import ZArith Lia.
From S2P Require Import Prelude Machine V4vTypes V4vRing V4vRingSafe.
From S2P Require Import V4vWorld V4vOps V4vInv V4vTable.

Open Scope Z_scope.
Open Scope se_scope.

(** A domain is in [domain_array] under its id, its table is well formed. *)
Definition domain_ok (k : Z) (d : domain) : Prop :=
  domain_id d = k /\ 0 <= k < DOMID_FIRST_RESERVED /\
  forall vd, d_v4v d = Some vd -> table_ok k vd.

Definition world_ok (w : world) : Prop :=
  forall k d, w_doms w !! k = Some d -> domain_ok k d.

(** The domain [did] exists; with [v], it has V4V state. *)
Definition present (v : bool) (did : Z) (w : world) : Prop :=
  exists d, w_doms w !! did = Some d /\ (v = true -> is_Some (d_v4v d)).

Definition world_inv (v : bool) (did : Z) (w : world) : Prop :=
  world_ok w /\ present v did w.

Lemma present_weaken v did w : present v did w -> present false did w.
Proof. intros (d & Hd & _). by exists d. Qed.

Lemma set_table_inv v did k vd w :
  world_inv v did w -> table_ok k vd ->
  world_inv v did (set_w_doms (alter (set_d_v4v (Some vd)) k (w_doms w)) w).
Proof.
  intros [Hw (d & Hd & Hv)] Ht. split.
  - intros k' d' Hk. simpl in Hk. apply lookup_alter_Some in Hk
      as [(<- & d0 & Hd0 & ->)|[_ Hk]]; [|by apply Hw].
    destruct (Hw _ _ Hd0) as (Hid & Hr & _). split; [done|]. split; [done|].
    by intros ? [= <-].
  - destruct (decide (k = did)) as [->|Hne].
    + exists (set_d_v4v (Some vd) d). simpl. rewrite lookup_alter_eq, Hd. by eauto.
    + exists d. simpl. by rewrite lookup_alter_ne.
Qed.

Lemma set_machine_inv v did m w : world_inv v did w -> world_inv v did (set_w_m m w).
Proof. done. Qed.

Lemma get_domain_by_id_Some w id d :
  get_domain_by_id w id = Some d -> w_doms w !! id = Some d.
Proof.
  unfold get_domain_by_id. destruct (_ <=? id); [done|].
  destruct (w_doms w !! id) as [d'|]; [|done]. by destruct (dom_destroyed d').
Qed.

Lemma by_uuid_In w l tok d :
  rcu_lock_domain_by_uuid w l tok = Some d -> exists k, w_doms w !! k = Some d.
Proof.
  induction l as [|i l IH]; simpl; [done|].
  destruct (w_doms w !! i) as [d'|] eqn:Ei; [|done].
  case_decide; [|done]. intros [= ->]. by exists i.
Qed.

Section WorldInv.
Context `{E : HostEnv} {HO : HostEnvOk E} (c : caller).
Context (Hrun : env_ui_running = true).

Lemma in_machine_sound {A} v did (m : SE machine A) :
  sound (fun _ => True) m -> sound (world_inv v did) (in_machine m).
Proof. by apply sound_zoom. Qed.

Local Hint Resolve tick_sound log_sound xmalloc_sound copy_from_sound
  copy_to_sound in_machine_sound : se.

(** ** Signals *)

Lemma signal_domain_sound v did k :
  triple (fun w => world_inv v did w /\ present false k w) (v4v_signal_domain k)
    (fun _ => world_inv v did) (world_inv v did).
Proof using Hrun.
  unfold v4v_signal_domain. rewrite Hrun. unfold bind at 1. cbn [bug_if negb].
  apply triple_bind_get. intros w [Hw (d & -> & _)].
  destruct (d_v4v d); [|by apply triple_ret; intros ? <-].
  apply (triple_pre _ _ (world_inv v did)); [by intros ? <-|].
  apply sound_triple. se_safe.
Qed.

Lemma signal_domid_sound v did id : sound (world_inv v did) (v4v_signal_domid id).
Proof using Hrun.
  apply sound_triple, triple_bind_get. intros w Hw.
  destruct (get_domain_by_id w id) as [d|] eqn:Ed; [|by apply triple_ret; intros ? <-].
  eapply triple_pre; [|apply signal_domain_sound]. intros ? <-. split; [done|].
  apply get_domain_by_id_Some in Ed. destruct Hw as [Hw _].
  destruct (Hw _ _ Ed) as (-> & _). by exists d.
Qed.

Lemma pending_notify_sound v did n : sound (world_inv v did) (v4v_pending_notify n).
Proof using Hrun.
  pose proof signal_domid_sound. induction n; simpl; se_safe.
Qed.

(** ** An operation on a ring of the table *)

(** The ring [id] is in the table of [k]. *)
Definition has_ring (k : Z) (id : v4v_ring_id) (w : world) : Prop :=
  exists d vd ri, w_doms w !! k = Some d /\ d_v4v d = Some vd /\
    v4v_ring_find_info vd id = Some ri.

Lemma on_ring_sound {A} v did k id (m : SE rstate A) :
  sound (ring_inv id) m ->
  triple (fun w => world_inv v did w /\ has_ring k id w) (on_ring k id m)
    (fun _ => world_inv v did) (world_inv v did).
Proof.
  intros Hm w [Hw (d & vd & ri & Hd & Hvd & Hri)]. unfold on_ring.
  rewrite Hd, Hvd, Hri. pose proof Hw as [Hok _].
  destruct (Hok _ _ Hd) as (_ & _ & Ht). specialize (Ht _ Hvd).
  destruct (find_info_ok _ _ _ _ Ht Hri) as [Hid Hrok].
  pose proof Hrok as (Hdom & Hinv)%(ring_inv_ri_ok _ (w_m w)).
  rewrite Hid in Hinv. destruct (Hm _ Hinv) as (Hpost & _ & Hb).
  destruct (m _) as [s r]; simpl in *.
  assert (table_ok k (ring_store (rs_ri s) vd)) as Ht'.
  { apply ring_store_ok; [done|]. destruct Hpost as (Hid' & ? & ?).
    split; [|done]. by rewrite Hid', <- Hid. }
  pose proof (set_table_inv _ _ k _ _ (set_machine_inv _ _ (rs_m s) _ Hw) Ht').
  by destruct r.
Qed.

Lemma on_ring_present {A} k id (m : SE rstate A) w k' :
  present false k' w -> present false k' (fst (on_ring k id m w)).
Proof.
  intros (d' & Hd' & _). unfold on_ring.
  destruct (w_doms w !! k) as [d|] eqn:Ed; [|by exists d'].
  destruct (d_v4v d) as [vd|]; [|by exists d'].
  destruct (v4v_ring_find_info vd id); [|by exists d'].
  destruct (m _) as [s r]. unfold present. simpl.
  destruct (decide (k = k')) as [->|].
  - rewrite lookup_alter_eq, Hd'. by eexists.
  - rewrite lookup_alter_ne by done. by exists d'.
Qed.

(** The ring [v4v_ring_find_info_by_addr] gives is in the table. *)
Lemma find_by_addr_find vd k a p ri : table_ok k vd ->
  v4v_ring_find_info_by_addr vd k a p = Some ri ->
  v4v_ring_find_info vd (ri_id ri) = Some ri.
Proof.
  intros Ht. unfold v4v_ring_find_info_by_addr.
  destruct (v4v_ring_find_info vd _) as [r|] eqn:E1.
  - intros [= <-]. by destruct (find_info_ok _ _ _ _ Ht E1) as [-> _].
  - intros E2. by destruct (find_info_ok _ _ _ _ Ht E2) as [-> _].
Qed.

(** ** The table as a whole *)

Lemma payload_space_no_err s e : snd (v4v_ringbuf_payload_space s) <> Err e.
Proof.
  unfold v4v_ringbuf_payload_space. unfold bind at 1, gets.
  destruct (_ =? 0); [done|]. unfold recover. by destruct (bind _ _ s) as [? []].
Qed.

Lemma notify_ring_total k n ri m : ri_ok k ri ->
  exists s n', v4v_notify_ring n {| rs_m := m; rs_ri := ri |} = (s, Ok n') /\
    ri_ok k (rs_ri s) /\ ri_id (rs_ri s) = ri_id ri.
Proof.
  intros Hri. pose proof Hri as (Hdom & Hinv)%(ring_inv_ri_ok _ m).
  destruct (notify_ring_sound (ri_id ri) n _ Hinv) as ((Hid & Hok & Hf) & _ & Hb).
  destruct (v4v_notify_ring n _) as [s [n'|e|]] eqn:En; simpl in *; [| |done].
  - exists s, n'. split; [done|]. split; [|done]. split; [by rewrite Hid|done].
  - exfalso. revert En. unfold v4v_notify_ring. unfold bind at 1, gets at 1.
    cbn [rs_ri]. unfold bind at 1.
    assert (forall e, snd ((if ri_len ri =? 0 then ret 0 else
      v4v_ringbuf_payload_space) {| rs_m := m; rs_ri := ri |}) <> Err e) as Hn.
    { destruct (_ =? 0); [done|apply payload_space_no_err]. }
    revert Hn. generalize ((if ri_len ri =? 0 then ret 0 else
      v4v_ringbuf_payload_space) {| rs_m := m; rs_ri := ri |}).
    intros [s' [sp|e'|]] Hn; [|by destruct (Hn e')|done].
    destruct (sp =? 0); [done|]. unfold bind, gets.
    by destruct (v4v_pending_find _ _ _).
Qed.

Lemma notify_chain_total k i l n m : chain_ok k i l ->
  exists m' l' n', notify_chain l n m = (m', Ok (l', n')) /\
    map ri_id l' = map ri_id l /\ chain_ok k i l'.
Proof.
  revert n m. induction l as [|ri l IH]; intros n m [Hnd Hf]; simpl.
  { eexists _, _, _. done. }
  apply NoDup_cons in Hnd as [Hni Hnd]. apply Forall_cons in Hf as [[Hh Hri] Hf].
  destruct (notify_ring_total k n ri m Hri) as (s & n1 & H1 & Hri1 & Hid1).
  destruct (IH n1 (rs_m s)) as (m2 & l2 & n2 & H2 & Hids & Hnd2 & Hf2); [done|].
  unfold bind. rewrite H1. simpl. rewrite H2. eexists _, _, _. split; [done|].
  simpl. rewrite Hid1, Hids. split; [done|]. split; simpl.
  - rewrite Hid1, Hids. by apply NoDup_cons.
  - constructor; [by rewrite Hid1|done].
Qed.

Lemma notify_table_total k j ls n m :
  (forall i l, ls !! i = Some l -> chain_ok k (j + i) l) ->
  exists m' ls' n', notify_table ls n m = (m', Ok (ls', n')) /\
    length ls' = length ls /\ (forall i l, ls' !! i = Some l -> chain_ok k (j + i) l).
Proof.
  revert j n m. induction ls as [|l ls IH]; intros j n m Hls; simpl.
  { by eexists _, _, _. }
  destruct (notify_chain_total k j l n m) as (m1 & l1 & n1 & H1 & _ & Hl1).
  { rewrite <- (Nat.add_0_r j). by apply Hls. }
  destruct (IH (S j) n1 m1) as (m2 & ls2 & n2 & H2 & Hlen & Hls2).
  { intros i l' Hi. rewrite Nat.add_succ_comm. by apply (Hls (S i)). }
  unfold bind. rewrite H1. simpl. rewrite H2. eexists _, _, _. split; [done|].
  split; [simpl; by rewrite Hlen|]. intros [|i] l'; simpl.
  - intros [= <-]. by rewrite Nat.add_0_r.
  - intros Hi. rewrite <- Nat.add_succ_comm. by apply Hls2.
Qed.

Lemma deref_v4v_spec v did :
  triple (world_inv true did) (deref_v4v did)
    (fun vd w => world_inv v did w /\ table_ok did vd) (world_inv v did).
Proof.
  intros w (Hw & d & Hd & Hv). destruct (Hv eq_refl) as [vd Hvd].
  unfold deref_v4v, domain_v4v, bind, get, ret. rewrite Hd, Hvd.
  split; [|by eapply Hw]. split; [done|]. exists d. split; [done|]. by rewrite Hvd.
Qed.

Lemma notify_check_pending_sound v did :
  triple (world_inv true did) (v4v_notify_check_pending did)
    (fun _ => world_inv v did) (world_inv v did).
Proof using Hrun.
  eapply triple_bind; [apply (deref_v4v_spec v)|]. intros vd.
  apply triple_pure. intros [Hlen Ht].
  apply (triple_bind _ _ _ (fun p w => world_inv v did w /\
    table_ok did {| ring_hash := fst p |})).
  - intros w Hw. unfold in_machine, zoom.
    destruct (notify_table_total did 0 (ring_hash vd) [] (w_m w)) as
      (m' & ls' & n' & -> & Hlen' & Hls'); [done|].
    split; [done|]. split; simpl; [by rewrite Hlen'|done].
  - intros [ls n]. apply triple_pure. intros Ht'. simpl in *.
    apply (triple_bind _ _ _ (fun _ => world_inv v did)).
    + apply triple_modify. intros w Hw. by apply set_table_inv.
    + intros _. apply sound_triple, pending_notify_sound.
Qed.

(** ** Channels *)

(** The validation of a channel looks only; for the caller's own id it
    leaves that id. *)
Lemma validate_channel_spec P s_id d_id flags :
  triple P (v4v_validate_channel c s_id d_id flags)
    (fun ids w => P w /\ (s_id = cur_domain c -> fst ids = cur_domain c)) P.
Proof.
  intros w Hw. unfold v4v_validate_channel, rcu_lock_remote_target_domain_by_id.
  unfold fail_if, bind, get, ret, fail.
  destruct (IS_HOST (cur_domain c)).
  - destruct (_ =? 0).
    + destruct (rcu_lock_domain_by_id w d_id); [|done].
      destruct (_ || _); [done|]. repeat destruct (_ && _); done.
    + by repeat destruct (_ && _).
  - destruct (negb _) eqn:Es; [done|]. apply negb_false_iff, Z.eqb_eq in Es.
    destruct (d_id =? _); [|done]. by repeat destruct (_ && _).
Qed.

Lemma resolve_token_sound v did tok :
  sound (world_inv v did) (v4v_resolve_token tok).
Proof.
  intros w Hw. unfold v4v_resolve_token, bind, get.
  by destruct (rcu_lock_domain_by_uuid _ _ _).
Qed.

Lemma domain_v4v_spec v did :
  triple (world_inv v did) (domain_v4v did)
    (fun o w => world_inv v did w /\ (is_Some o -> world_inv true did w))
    (world_inv v did).
Proof.
  intros w (Hw & d & Hd & Hv). unfold domain_v4v, bind, get, ret. rewrite Hd.
  split; [split; [done|by exists d]|]. intros Ho. split; [done|]. by exists d.
Qed.

Lemma world_inv_weaken did w : world_inv true did w -> world_inv false did w.
Proof. intros (Hw & Hp). split; [done|]. by eapply present_weaken. Qed.

(** [if (!d->v4v) return e;] and the rest of the function. *)
Lemma check_v4v_sound {A} did e (k : SE world A) :
  sound (world_inv true did) k ->
  sound (world_inv false did)
    (o <- domain_v4v did;; fail_if (bool_decide (o = None)) e;; k).
Proof.
  intros Hk. apply sound_triple. eapply triple_bind; [apply domain_v4v_spec|].
  intros o w [Hw Ho]. unfold bind, fail_if. case_bool_decide; [done|].
  assert (world_inv true did w) as Hw1 by (apply Ho; by destruct o; [eexists|]).
  destruct (Hk w Hw1) as (Hpost & _ & Hb). apply world_inv_weaken in Hpost.
  unfold ret. by destruct (k w) as [? []].
Qed.

(** ** Notification *)

Local Abbreviation cur := (cur_domain c).

(** The ring an entry of the caller's list asks about. *)
Lemma fill_ring_data_sound v hnd :
  sound (world_inv v cur) (v4v_fill_ring_data c cur hnd).
Proof.
  apply sound_triple. unfold v4v_fill_ring_data.
  apply (triple_bind _ _ _ (fun _ => world_inv v cur)).
  { apply sound_triple. se_safe. }
  intros bs. cbv zeta. set (ent := v4v_ring_data_ent_of_bytes bs).
  eapply triple_bind; [apply validate_channel_spec|]. intros [src dst].
  apply triple_pure. intros _. apply triple_bind_get. intros w Hw.
  apply (triple_bind _ _ _ (fun _ => world_inv v cur)).
  2: { intros r. apply sound_triple. se_safe. }
  destruct (get_domain_by_id w dst) as [d|] eqn:Ed;
    [|by apply triple_ret; intros ? <-].
  destruct (d_v4v d) as [vd|] eqn:Evd; [|by apply triple_ret; intros ? <-].
  destruct (v4v_ring_find_info_by_addr vd (domain_id d) (ent_ring ent) src)
    as [ri|] eqn:Eri; simpl; [|by apply triple_ret; intros ? <-].
  eapply triple_pre; [|apply on_ring_sound, ring_data_sound].
  intros ? <-. split; [done|]. apply get_domain_by_id_Some in Ed.
  destruct Hw as [Hw _]. destruct (Hw _ _ Ed) as (Hid & _ & Ht).
  rewrite Hid in *. exists d, vd, ri. split; [done|]. split; [done|].
  eapply find_by_addr_find; [by apply Ht|done].
Qed.

Lemma fill_ring_datas_sound v n hnd :
  sound (world_inv v cur) (v4v_fill_ring_datas c n cur hnd).
Proof.
  pose proof fill_ring_data_sound. revert hnd.
  induction n; intros; simpl; se_safe.
Qed.

Lemma notify_sound hnd : sound (world_inv false cur) (v4v_notify c cur hnd).
Proof using Hrun.
  apply check_v4v_sound.
  pose proof (fill_ring_datas_sound true).
  pose proof (proj1 (sound_triple _ _) (notify_check_pending_sound true cur)).
  se_safe.
Qed.

(** ** Removal *)

Lemma remove_info_sound id put :
  triple (fun w => world_inv true cur w /\ has_ring cur id w)
    (v4v_ring_remove_info cur id put)
    (fun _ => world_inv true cur) (world_inv true cur).
Proof.
  unfold v4v_ring_remove_info.
  apply (triple_bind _ _ _ (fun _ => world_inv true cur)).
  { apply on_ring_sound. pose proof remove_mfns_sound.
    pose proof (set_pending_sound id (fun _ => [])).
    apply safe_bind; [apply _| |auto]. apply H0. intros. constructor. }
  intros _. eapply triple_bind; [apply (deref_v4v_spec true)|]. intros vd.
  apply triple_pure. intros Ht. apply triple_modify. intros w Hw.
  by apply set_table_inv, ring_unlink_ok.
Qed.

Lemma ring_remove_sound hnd : sound (world_inv false cur) (v4v_ring_remove c cur hnd).
Proof.
  apply check_v4v_sound, sound_triple.
  apply (triple_bind _ _ _ (fun _ => world_inv true cur)).
  { apply sound_triple. se_safe. }
  intros bs. cbv zeta. apply (triple_bind _ _ _ (fun _ => world_inv true cur)).
  { apply sound_triple. se_safe. }
  intros _. eapply triple_bind; [apply validate_channel_spec|]. intros ids.
  apply triple_pure. intros _.
  intros w Hw. pose proof Hw as (Hok & d & Hd & Hv). destruct (Hv eq_refl) as [vd Hvd].
  set (id := {| id_addr := _ |}). unfold deref_v4v, domain_v4v, bind, get, ret.
  rewrite Hd, Hvd. destruct (v4v_ring_find_info vd id) as [ri|] eqn:Eri; [|done].
  apply (remove_info_sound id _ w). split; [done|]. by exists d, vd, ri.
Qed.

(** ** Creation and registration *)

(** The creation keeps the invariant; it stops the hypervisor only when the
    allocation fails. *)
Lemma ring_create_run hnd w : world_inv false cur w ->
  world_inv false cur (fst (v4v_ring_create c cur hnd w)) /\
  (snd (v4v_ring_create c cur hnd w) = Bug -> exists t, env_xmalloc t = false).
Proof.
  set (Post := fun x : world * res unit => world_inv false cur (fst x) /\
    (snd x = Bug -> exists t, env_xmalloc t = false)).
  assert (forall A (m : SE world A) (k : A -> SE world unit),
    triple (world_inv false cur) m (fun _ => world_inv false cur) (world_inv false cur) ->
    (forall a w, world_inv false cur w -> Post (k a w)) ->
    forall w, world_inv false cur w -> Post (bind m k w)) as Hbind.
  { intros A m k Hm Hk w0 Hw0. specialize (Hm w0 Hw0). unfold bind.
    destruct (m w0) as [w1 []]; [by apply Hk|by split|done]. }
  change (world_inv false cur w -> Post (v4v_ring_create c cur hnd w)). revert w.
  unfold v4v_ring_create. apply Hbind; [apply sound_triple; se_safe|]. intros _.
  apply Hbind; [apply sound_triple; se_safe|]. intros bs. cbv zeta. apply Hbind.
  { eapply triple_post; [apply validate_channel_spec|]. by intros ? ? []. }
  intros ids w Hw. set (id := {| id_addr := _; partner := snd ids |}).
  unfold bind at 1, get. destruct (get_domain_by_id w _) as [d|] eqn:Ed; [|by split].
  destruct (d_v4v d) as [vd|] eqn:Evd; [|by split].
  destruct (v4v_ring_find_info vd id) eqn:Eri; [by split|].
  unfold in_machine, zoom, xmalloc, bind, bug_if, ret. simpl.
  destruct (env_xmalloc _) eqn:Ex; simpl; (split; [|by eauto]); [|done].
  apply get_domain_by_id_Some in Ed.
  pose proof Hw as [Hok _]. destruct (Hok _ _ Ed) as (Hid & _ & Ht).
  apply (set_table_inv _ _ _ _ (set_w_m _ w)); [done|].
  rewrite Hid. apply ring_link_ok; [by apply Ht| |done]. apply (new_ring_ok id).
Qed.

(** What the checks of the header ensure. *)
Lemma ring_header_ok_spec ring : 0 <= r_len ring < 2 ^ 32 ->
  ring_header_ok ring = true -> 48 <= r_len ring /\ r_len ring mod 16 = 0.
Proof.
  intros Hr. unfold ring_header_ok. rewrite negb_true_iff, orb_false_iff, negb_false_iff.
  change (_ + _ + _) with 48. intros [H1%Z.ltb_ge H2%Z.eqb_eq]. split; [done|].
  rewrite <- H2. pose proof (V4V_ROUNDUP_mod (r_len ring)). unfold u32.
  change (2 ^ 32) with (16 * 2 ^ 28). zlia.
Qed.

Lemma ring_add_tx_ptr_spec ring : 0 <= r_tx_ptr ring < 2 ^ 32 ->
  0 <= fst (ring_add_tx_ptr ring) < 2 ^ 32 /\
  fst (ring_add_tx_ptr ring) mod 16 = 0.
Proof.
  intros Hr. unfold ring_add_tx_ptr.
  assert (forall x, u32 (V4V_ROUNDUP x) mod 16 = 0) as Hu.
  { intros x. pose proof (V4V_ROUNDUP_mod x). unfold u32.
    change (2 ^ 32) with (16 * 2 ^ 28). zlia. }
  destruct (_ || _) eqn:E1; cbn [fst].
  - clear E1. destruct (r_len ring <=? u32 (V4V_ROUNDUP (r_rx_ptr ring))).
    + clear. done.
    + split; [apply u32_range|apply Hu].
  - apply orb_false_iff in E1 as [_ E1]. apply negb_false_iff, Z.eqb_eq in E1.
    split; [done|]. by rewrite <- E1.
Qed.

Lemma ring_of_bytes_range bs : Forall (fun b => 0 <= b < 256) bs ->
  0 <= r_len (v4v_ring_of_bytes bs) < 2 ^ 32 /\
  0 <= r_tx_ptr (v4v_ring_of_bytes bs) < 2 ^ 32.
Proof.
  intros Hb. split; [apply (field_range 16 4)|apply (field_range 24 4)]; done.
Qed.

(** The caller's record for [id], found or linked into the table. *)
Lemma find_or_link_spec fe id : addr_domain (id_addr id) = cur ->
  triple (world_inv true cur)
    (vd <- deref_v4v cur;;
     match v4v_ring_find_info vd id with
     | Some ri => fail_if (negb (fe =? 0) && negb (ri_len ri =? 0)) (- EEXIST)
     | None =>
         ok <- in_machine xmalloc;;
         fail_if (negb ok) (- ENOMEM);;
         set_domain_v4v cur (Some (ring_link (new_ring_info id) vd))
     end)
    (fun _ w => world_inv true cur w /\ has_ring cur id w) (world_inv true cur).
Proof.
  intros Hid w Hw. pose proof Hw as (Hok & d & Hd & Hv).
  destruct (Hv eq_refl) as [vd Hvd]. unfold deref_v4v, domain_v4v, bind, get, ret.
  rewrite Hd, Hvd. destruct (Hok _ _ Hd) as (_ & _ & Ht). specialize (Ht _ Hvd).
  destruct (v4v_ring_find_info vd id) as [ri|] eqn:Eri.
  - unfold fail_if. destruct (_ && _); [done|]. split; [done|]. by exists d, vd, ri.
  - unfold in_machine, zoom, xmalloc, bind, fail_if, ret. simpl.
    destruct (env_xmalloc _); simpl; [|done]. split.
    + apply (set_table_inv _ _ _ _ (set_w_m _ w)); [done|].
      apply ring_link_ok; [done| |done]. rewrite <- Hid. apply new_ring_ok.
    + exists (set_d_v4v (Some (ring_link (new_ring_info id) vd)) d),
        (ring_link (new_ring_info id) vd), (new_ring_info id).
      unfold set_w_doms. cbn [w_doms]. rewrite lookup_alter_eq, Hd. split; [done|].
      split; [done|]. rewrite (find_ring_link cur) by done. by rewrite decide_True.
Qed.

Lemma copy_from_bytes_world v did a n :
  triple (world_inv v did) (in_machine (copy_from_guest_errno a n))
    (fun bs w => world_inv v did w /\ Forall (fun b => 0 <= b < 256) bs)
    (world_inv v did).
Proof using HO.
  intros w Hw. unfold in_machine, zoom, copy_from_guest_errno, bind. simpl.
  destruct (_ =? 0); simpl; [|done]. split; [done|apply env_read_bytes].
Qed.

Lemma ring_add_sound hnd pl tok fe :
  sound (world_inv false cur) (v4v_ring_add c cur hnd pl tok fe).
Proof using HO Hrun.
  unfold v4v_ring_add. apply safe_bind; [apply _|se_safe|]. intros _.
  apply check_v4v_sound, sound_triple.
  eapply triple_bind; [apply copy_from_bytes_world|]. intros bs.
  apply triple_pure. intros Hbs. cbv zeta. set (ring := v4v_ring_of_bytes bs).
  destruct (ring_of_bytes_range bs Hbs) as [Hlr Htr]. fold ring in Hlr, Htr.
  apply (triple_bind _ _ _ (fun _ => world_inv true cur)).
  { apply sound_triple. se_safe. }
  intros _. eapply triple_bind; [by apply triple_fail_if|]. intros [].
  apply triple_pure. intros Hhok%negb_false_iff.
  eapply triple_bind; [by apply triple_fail_if|]. intros [].
  apply triple_pure. intros Hmax%Z.ltb_ge.
  destruct (ring_header_ok_spec ring Hlr Hhok) as [Hlen Hlm].
  destruct (ring_add_tx_ptr_spec ring Htr) as [Htx Htm].
  apply (triple_bind _ _ _ (fun _ => world_inv true cur)).
  { pose proof resolve_token_sound. apply sound_triple. se_safe. }
  intros pa. eapply triple_bind; [apply validate_channel_spec|]. intros ids.
  apply triple_pure. intros Hids. specialize (Hids eq_refl).
  apply (triple_bind _ _ _ (fun _ => world_inv true cur)).
  { apply sound_triple. se_safe. }
  intros _. destruct (ring_add_tx_ptr ring) as [tx fresh]. simpl in Htx, Htm.
  apply (triple_bind _ _ _ (fun _ => world_inv true cur)).
  { apply sound_triple. se_safe. }
  intros _. apply triple_bind_assoc. eapply triple_bind.
  { by apply find_or_link_spec. }
  intros []. apply (triple_bind _ _ _ (fun _ => world_inv true cur)).
  { apply on_ring_sound. by apply ring_attach_sound. }
  intros _. apply notify_check_pending_sound.
Qed.

(** ** Sending *)

Lemma send_sound src dst proto buf len iovs niov :
  sound (world_inv false cur) (v4v_send c cur src dst proto buf len iovs niov).
Proof using Hrun.
  apply check_v4v_sound, sound_triple.
  eapply triple_bind; [apply validate_channel_spec|]. intros ids.
  apply triple_pure. intros _. cbv zeta. apply triple_bind_get. intros w Hw.
  destruct (get_domain_by_id w _) as [d|] eqn:Ed; [|by apply triple_fail; intros ? <-].
  destruct (d_v4v d) as [vd|] eqn:Evd; [|by apply triple_fail; intros ? <-].
  apply get_domain_by_id_Some in Ed. pose proof Hw as [Hok _].
  destruct (Hok _ _ Ed) as (Hid & _ & Ht). rewrite Hid in *.
  assert (present false (snd ids) w) as Hp by (by exists d).
  destruct (v4v_ring_find_info_by_addr vd _ dst _) as [ri|] eqn:Eri.
  - apply (triple_bind _ _ _ (fun _ w => world_inv true cur w /\
      present false (snd ids) w)).
    + intros ? <-. apply find_by_addr_find in Eri; [|by apply Ht].
      pose proof (on_ring_sound true cur (snd ids) (ri_id ri) _ (ring_send_sound
        (ri_id ri) {| id_addr := {| addr_port := addr_port src; addr_domain := fst ids |};
          partner := snd ids |} proto buf len iovs niov) w) as H.
      specialize (H (conj Hw (ex_intro _ d (ex_intro _ vd (ex_intro _ ri
        (conj Ed (conj Evd Eri))))))).
      pose proof (on_ring_present (snd ids) (ri_id ri) (ring_send
        {| id_addr := {| addr_port := addr_port src; addr_domain := fst ids |};
           partner := snd ids |} proto buf len iovs niov) w (snd ids) Hp) as H'.
      by destruct (on_ring _ _ _ w) as [? []].
    + intros r. destruct (fst r =? 0).
      * eapply triple_bind; [apply signal_domain_sound|]. intros [].
        by apply triple_ret.
      * apply triple_fail. by intros ? [].
  - apply (triple_bind _ _ _ (fun _ => world_inv true cur)); [|by intros; apply triple_fail].
    eapply triple_pre; [|apply signal_domain_sound]. by intros ? <-.
Qed.

(** ** The hypercall and the life cycle *)

Lemma read_addrs_sound v did a1 a2 : sound (world_inv v did) (read_addrs c a1 a2).
Proof. unfold read_addrs. se_safe. Qed.

Lemma ring_create_sound hnd : (forall t, env_xmalloc t = true) ->
  sound (world_inv false cur) (v4v_ring_create c cur hnd).
Proof.
  intros Hmem w Hw. destruct (ring_create_run hnd w Hw) as [H1 H2].
  split; [done|]. split; [done|]. intros (t & Ht)%H2. by rewrite Hmem in Ht.
Qed.

Lemma do_v4v_op_sound cmd a1 a2 a3 a4 a5 :
  (cmd = V4VOP_create_ring -> forall t, env_xmalloc t = true) ->
  sound (world_inv false cur) (do_v4v_op c cmd a1 a2 a3 a4 a5).
Proof using HO Hrun.
  intros Hmem. pose proof ring_add_sound. pose proof ring_remove_sound.
  pose proof send_sound. pose proof notify_sound. pose proof read_addrs_sound.
  unfold do_v4v_op. apply safe_bind; [apply _|se_safe|]. intros _.
  destruct (cmd =? V4VOP_register_ring); [se_safe|].
  destruct (cmd =? V4VOP_unregister_ring); [se_safe|].
  destruct (cmd =? V4VOP_send); [se_safe|].
  destruct (cmd =? V4VOP_sendv); [se_safe|].
  destruct (cmd =? V4VOP_notify); [se_safe|].
  destruct (Z.eqb_spec cmd V4VOP_create_ring) as [->|]; [|se_safe].
  pose proof (fun h => ring_create_sound h (Hmem eq_refl)). se_safe.
Qed.

(** The hypercall keeps the invariant also when an allocation fails. *)
Lemma do_v4v_op_preserves cmd a1 a2 a3 a4 a5 :
  preserves (world_inv false cur) (do_v4v_op c cmd a1 a2 a3 a4 a5).
Proof using HO Hrun.
  destruct (Z.eq_dec cmd V4VOP_create_ring) as [->|].
  - apply preserves_bind; [se_keep|]. intros _.
    change (preserves (world_inv false cur)
      (fail_if (negb (env_handle_ok a1 1 sizeof_v4v_ring_id)) (- EFAULT);;
       v4v_ring_create c cur a1;; ret 0)).
    apply preserves_bind; [se_keep|]. intros _.
    apply preserves_bind; [|se_keep]. intros w Hw. by apply ring_create_run.
  - by eapply safe_preserves, do_v4v_op_sound.
Qed.
End WorldInv.
