(* ===== verification/V4vLife.v ===== *)
(** * V4V: references on the frames of a ring

    A registered ring of a guest holds one reference ([get_page]) on each of
    its frames, taken when the frame is found and dropped when the frames are
    removed; no failure in between loses or duplicates one. *)

From stdpp Require Import base list numbers gmap.
From Stdlib Require Import ZArith Lia.
From S2P Require Import Prelude Machine V4vTypes V4vRing V4vRingSafe V4vWorld V4vOps V4vInv V4vTable V4vWorldInv.

Open Scope Z_scope.
Open Scope se_scope.

Definition occurrences (f : Z) (l : list Z) : Z :=
  Z.of_nat (count_occ Z.eq_dec l f).

(** The references are those of [base] and one for each frame of the ring.
    Frame 0 is never a ring page: [v4v_ring_remove_mfns] takes it for an
    entry without a frame. *)
Definition balanced (base : Z -> Z) (s : rstate) : Prop :=
  forall f, f <> 0 ->
    m_refs (rs_m s) f = base f + occurrences f (frames (rs_ri s)).

Lemma occurrences_app f l1 l2 :
  occurrences f (l1 ++ l2) = occurrences f l1 + occurrences f l2.
Proof. unfold occurrences. rewrite count_occ_app. lia. Qed.

Lemma occurrences_one f g : occurrences f [g] = if f =? g then 1 else 0.
Proof.
  unfold occurrences. simpl. destruct (Z.eq_dec g f), (Z.eqb_spec f g); simpl; lia.
Qed.

(** A computation that leaves the references as they are. *)
Definition same_refs (m m' : machine) : Prop := m_refs m' = m_refs m.
#[export] Instance same_refs_preorder : PreOrder same_refs.
Proof. split; unfold same_refs; [done|]. intros ???. congruence. Qed.

Section Refs.
Context `{E : HostEnv} (c : caller) (did : Z) (base : Z -> Z).
Context (Hguest : mfns_dont_belong_xen did = false).

(** ** Dropping the references *)

Lemma put_frames_spec l m :
  exists m', put_frames l m = (m', Ok tt) /\
    m_mem m' = m_mem m /\ m_log m' = m_log m /\ m_time m' = m_time m /\
    forall f, f <> 0 -> m_refs m' f = m_refs m f - occurrences f l.
Proof.
  revert m. induction l as [|g l IH]; intros m.
  { exists m. repeat split. intros. change (occurrences f []) with 0. lia. }
  cbn [put_frames]. unfold bind, when. destruct (Z.eqb_spec g 0) as [->|Hg]; simpl.
  - destruct (IH m) as (m' & H & Hm & Hl & Ht & Hr). exists m'. repeat split; try done.
    intros f Hf. rewrite Hr by done. change (0 :: l) with ([0] ++ l).
    rewrite occurrences_app, occurrences_one. destruct (Z.eqb_spec f 0); lia.
  - match goal with |- exists _, put_frames l ?m1 = _ /\ _ =>
      destruct (IH m1) as (m' & H & Hm & Hl & Ht & Hr) end.
    exists m'. repeat split; try done. intros f Hf. rewrite Hr by done. simpl.
    change (g :: l) with ([g] ++ l). rewrite occurrences_app, occurrences_one.
    destruct (Z.eqb_spec f g); lia.
Qed.

Definition without_pages (ri : v4v_ring_info) : v4v_ring_info :=
  match ri_mfns ri with
  | Some _ => set_ri_pages 0 0 None None ri
  | None => ri
  end.

Lemma frames_without_pages ri : frames (without_pages ri) = [].
Proof.
  unfold without_pages, frames. destruct (ri_mfns ri) eqn:El; simpl; by rewrite ?El.
Qed.

(** [v4v_ring_remove_mfns] does not fail; what it leaves. *)
Lemma remove_mfns_eq put s : ring_ok s ->
  exists m', v4v_ring_remove_mfns put s =
    ({| rs_m := m'; rs_ri := without_pages (rs_ri s) |}, Ok tt) /\
    m_mem m' = m_mem (rs_m s) /\ m_log m' = m_log (rs_m s) /\
    forall f, f <> 0 -> m_refs m' f =
      m_refs (rs_m s) f - if put then occurrences f (frames (rs_ri s)) else 0.
Proof.
  intros Hok. unfold v4v_ring_remove_mfns, bind at 1, gets, frames, without_pages.
  unfold ring_ok, pages_ok in Hok. destruct (ri_mfns (rs_ri s)) as [l|].
  - destruct (ri_mfn_mapping (rs_ri s)) as [mm|] eqn:Emm; [|done].
    unfold bind, bug_if, set_ring, modify, when. simpl.
    destruct put; simpl.
    + unfold on_machine, zoom. simpl.
      destruct (put_frames_spec l (rs_m s)) as (m' & -> & Hm & Hl & _ & Hr).
      exists m'. split; [|done]. unfold v4v_ring_unmap. by rewrite Emm.
    + exists (rs_m s). split; [unfold v4v_ring_unmap; by rewrite Emm|].
      repeat split. intros. lia.
  - exists (rs_m s). split; [by destruct s|]. repeat split. intros.
    change (occurrences f (default [] None)) with 0. destruct put; lia.
Qed.

Lemma remove_mfns_balanced s : ring_ok s -> balanced base s ->
  balanced base (fst (v4v_ring_remove_mfns true s)) /\
  frames (rs_ri (fst (v4v_ring_remove_mfns true s))) = [].
Proof.
  intros Hok Hb. destruct (remove_mfns_eq true s Hok) as (m' & -> & _ & _ & Hr).
  cbn [fst rs_ri]. pose proof (frames_without_pages (rs_ri s)) as Hf.
  split; [|done]. intros f Hf0. simpl. rewrite Hr, Hf, Hb by done.
  change (occurrences f []) with 0. lia.
Qed.

(** ** Taking them *)

Lemma find_ring_mfn_refs pfn m :
  let '(m', r) := v4v_find_ring_mfn c did pfn m in
  match r with
  | Ok f => forall g, m_refs m' g = m_refs m g + occurrences g [f]
  | _ => m_refs m' = m_refs m
  end.
Proof using Hguest.
  unfold v4v_find_ring_mfn. rewrite Hguest. unfold bind, tick, fail_if. simpl.
  destruct (env_mfn_retry _); simpl; [done|].
  destruct (env_mfn_valid_page _); simpl; [|done].
  unfold get_page, bind, tick. simpl. destruct (env_get_page _ _ _); simpl; [|done].
  intros g. rewrite occurrences_one. destruct (g =? _); lia.
Qed.

Lemma read_pfn_refs h i m : m_refs (fst (read_pfn h i m)) = m_refs m.
Proof.
  unfold read_pfn, copy_from_guest_errno, guest_read, bind, tick, ret. simpl.
  by destruct (_ =? 0).
Qed.

Lemma same_mfns_refs h i l m f :
  m_refs (fst (same_mfns c did h i l m)) f = m_refs m f.
Proof using Hguest.
  revert i m. induction l as [|g l IH]; intros i m; [done|].
  cbn [same_mfns]. unfold bind at 1.
  set (body := recover _ _). assert (forall m, m_refs (fst (body m)) f = m_refs m f) as Hbody.
  { intros m0. unfold body, recover, bind.
    pose proof (read_pfn_refs h i m0) as H1.
    destruct (read_pfn h i m0) as [m1 [pfn|e|]]; simpl in *; [|congruence..].
    pose proof (find_ring_mfn_refs pfn m1) as H2.
    destruct (v4v_find_ring_mfn c did pfn m1) as [m2 [mfn|e|]]; simpl in *;
      [|congruence..].
    rewrite Hguest. simpl. rewrite H2, occurrences_one, H1.
    destruct (f =? mfn); lia. }
  specialize (Hbody m). destruct (body m) as [m1 [[]|e|]]; simpl in *; try done.
  by rewrite IH.
Qed.

Lemma fill_mfns_balanced h n i s : ri_mfns (rs_ri s) <> None -> balanced base s ->
  balanced base (fst (fill_mfns c did h n i s)).
Proof using Hguest.
  revert i s. induction n as [|n IH]; intros i s Hm Hb; cbn [fill_mfns]; [done|].
  unfold bind at 1, on_machine at 1, zoom, tick. cbn [rs_m rs_ri].
  destruct (env_free_pages_needed _); [done|].
  set (s1 := {| rs_m := _; rs_ri := rs_ri s |}).
  assert (balanced base s1) as Hb1 by done. unfold bind at 1, on_machine at 1, zoom.
  pose proof (read_pfn_refs h i (rs_m s1)) as H1.
  destruct (read_pfn h i (rs_m s1)) as [m2 [pfn|e|]]; simpl in H1;
    [|by intros f Hf; simpl; rewrite H1; apply Hb1..].
  unfold bind at 1, on_machine at 1, zoom. cbn [rs_m rs_ri].
  pose proof (find_ring_mfn_refs pfn m2) as H2.
  destruct (v4v_find_ring_mfn c did pfn m2) as [m3 [mfn|e|]]; cbn [rs_ri];
    [|by intros f Hf; simpl; rewrite H2, H1; apply Hb1..].
  unfold bind at 1, set_ring, modify. apply IH.
  - simpl. by destruct (ri_mfns (rs_ri s)).
  - intros f Hf. unfold frames. simpl. rewrite H2, H1.
    specialize (Hb f Hf). unfold frames in Hb. simpl in Hb |- *. rewrite Hb.
    destruct (ri_mfns (rs_ri s)) as [l|]; [|done]. simpl.
    rewrite occurrences_app. lia.
Qed.

Context {HO : HostEnvOk E} (id : v4v_ring_id) (Hcur : cur_domain c = did).
Local Abbreviation I := (fun s => ring_inv id s /\ balanced base s).

Lemma on_machine_balanced {A} (m : SE machine A) s :
  (forall x, m_refs (fst (m x)) = m_refs x) -> balanced base s ->
  balanced base (fst (on_machine m s)).
Proof.
  intros Hm Hb f Hf. unfold on_machine, zoom. specialize (Hm (rs_m s)).
  destruct (m (rs_m s)) as [m' r]; simpl in *. rewrite Hm. by apply Hb.
Qed.

Lemma recheck_mfns_balanced h np s : ring_inv id s -> balanced base s ->
  balanced base (fst (recheck_mfns c did h np s)).
Proof using Hguest Hcur.
  intros HI Hb. unfold recheck_mfns, bind at 1, gets.
  destruct (ri_mfns (rs_ri s)) as [l|]; [|done].
  assert (forall s, ring_ok s -> balanced base s ->
    balanced base (fst (v4v_ring_remove_mfns true s))) as Hrm.
  { intros. by apply remove_mfns_balanced. }
  rewrite Hcur, Hguest. unfold bind. destruct (_ =? np).
  - unfold on_machine, zoom. pose proof (fun f => same_mfns_refs h 0 l (rs_m s) f) as Hs.
    destruct (same_mfns _ _ _ _ _ _) as [m' [b|e|]]; simpl in *;
      [|by intros f Hf; simpl; rewrite Hs; apply Hb..].
    assert (balanced base {| rs_m := m'; rs_ri := rs_ri s |})
      by (intros f Hf; simpl; rewrite Hs; by apply Hb).
    destruct b; [done|]. apply Hrm; [apply HI|done].
  - simpl. apply Hrm; [apply HI|done].
Qed.

Lemma alloc_mfns_balanced np s : balanced base s ->
  balanced base (fst (alloc_mfns np s)).
Proof.
  intros Hb. unfold alloc_mfns, bind at 1, gets.
  destruct (ri_mfns (rs_ri s)) as [l|] eqn:El; [done|].
  unfold bind, on_machine, zoom, xmalloc, fail_if, ret. simpl.
  destruct (env_xmalloc _); simpl; [|done]. destruct (env_xmalloc _); simpl; [|done].
  intros f Hf. specialize (Hb f Hf). unfold frames in *. rewrite El in Hb. done.
Qed.

Lemma find_ring_mfns_balanced h len :
  triple I (v4v_find_ring_mfns c did h len) (fun _ => I) I.
Proof using HO Hguest Hcur.
  eapply triple_post; [apply find_ring_mfns_spec|by intros ? ? []].
  - done.
  - intros. apply on_machine_balanced; [|done]. intros.
    unfold copy_from_guest_errno, guest_read, bind, ret. simpl. by destruct (_ =? 0).
  - intros. by apply recheck_mfns_balanced.
  - intros. by apply alloc_mfns_balanced.
  - intros. by apply fill_mfns_balanced.
  - intros s [_ [Hok _]] Hb. rewrite Hcur, Hguest. by apply remove_mfns_balanced.
Qed.
End Refs.

(** * V4V: the life cycle of a domain's V4V state, and reachable states

    [v4v_init], [v4v_destroy], [v4v_shutdown_for_suspend] and [v4v_resume],
    what destruction and suspension give back, and the states any sequence of
    hypercalls and life-cycle events can reach. *)

(** The frames of the rings of a chain, and of a table. *)
Definition chain_frames (l : list v4v_ring_info) : list Z := flat_map frames l.
Definition table_frames (ls : list (list v4v_ring_info)) : list Z :=
  flat_map chain_frames ls.

(** ** An operation on every ring *)

Section Each.
Context `{E : HostEnv} (k : Z) (put : bool) (f : SE rstate unit).
(** The operation takes the pages away, and nothing else of what a table
    promises. *)
Context (Hf : forall s, ri_ok k (rs_ri s) -> exists s', f s = (s', Ok tt) /\
  ri_ok k (rs_ri s') /\ ri_id (rs_ri s') = ri_id (rs_ri s) /\
  frames (rs_ri s') = [] /\ m_mem (rs_m s') = m_mem (rs_m s) /\
  forall g, g <> 0 -> m_refs (rs_m s') g =
    m_refs (rs_m s) g - if put then occurrences g (frames (rs_ri s)) else 0).

Lemma each_ring_spec i l m : chain_ok k i l ->
  exists m' l', each_ring f l m = (m', Ok l') /\
    map ri_id l' = map ri_id l /\ chain_ok k i l' /\ chain_frames l' = [] /\
    m_mem m' = m_mem m /\
    forall g, g <> 0 -> m_refs m' g =
      m_refs m g - if put then occurrences g (chain_frames l) else 0.
Proof using Hf.
  revert m. induction l as [|ri l IH]; intros m [Hnd Hall]; simpl.
  { exists m, []. repeat split; try done. intros g Hg.
    change (occurrences g _) with 0. destruct put; lia. }
  apply NoDup_cons in Hnd as [Hni Hnd]. apply Forall_cons in Hall as [[Hh Hri] Hall].
  destruct (Hf {| rs_m := m; rs_ri := ri |} Hri)
    as (s & H1 & Hri1 & Hid1 & Hfr1 & Hm1 & Hr1).
  destruct (IH (rs_m s)) as (m2 & l2 & H2 & Hids & [Hnd2 Hf2] & Hfr2 & Hm2 & Hr2);
    [done|].
  unfold bind. rewrite H1. cbn [rs_m rs_ri]. rewrite H2. eexists m2, _. split; [done|].
  simpl in *. rewrite Hid1, Hids. split; [done|]. split; [|split; [|split]].
  - split; simpl; [by rewrite Hid1, Hids; apply NoDup_cons|].
    constructor; [by rewrite Hid1|done].
  - unfold chain_frames in *. simpl. by rewrite Hfr1, Hfr2.
  - congruence.
  - intros g Hg. rewrite Hr2, Hr1 by done. unfold chain_frames.
    cbn [flat_map]. rewrite occurrences_app. destruct put; lia.
Qed.

Lemma each_chain_spec j ls m :
  (forall i l, ls !! i = Some l -> chain_ok k (j + i) l) ->
  exists m' ls', each_chain f ls m = (m', Ok ls') /\
    length ls' = length ls /\
    (forall i l, ls' !! i = Some l -> chain_ok k (j + i) l) /\
    table_frames ls' = [] /\ m_mem m' = m_mem m /\
    forall g, g <> 0 -> m_refs m' g =
      m_refs m g - if put then occurrences g (table_frames ls) else 0.
Proof using Hf.
  revert j m. induction ls as [|l ls IH]; intros j m Hls; simpl.
  { exists m, []. repeat split; try done. intros g Hg.
    change (occurrences g _) with 0. destruct put; lia. }
  destruct (each_ring_spec j l m) as (m1 & l1 & H1 & _ & Hl1 & Hfr1 & Hm1 & Hr1).
  { rewrite <- (Nat.add_0_r j). by apply Hls. }
  destruct (IH (S j) m1) as (m2 & ls2 & H2 & Hlen & Hls2 & Hfr2 & Hm2 & Hr2).
  { intros i l' Hi. rewrite Nat.add_succ_comm. by apply (Hls (S i)). }
  unfold bind. rewrite H1, H2. eexists m2, _. split; [done|].
  split; [simpl; by rewrite Hlen|]. split; [|split; [|split]].
  - intros [|i] l'; simpl.
    + intros [= <-]. by rewrite Nat.add_0_r.
    + intros Hi. rewrite <- Nat.add_succ_comm. by apply Hls2.
  - unfold table_frames in *. simpl. by rewrite Hfr1, Hfr2.
  - congruence.
  - intros g Hg. rewrite Hr2, Hr1 by done. unfold table_frames.
    cbn [flat_map]. rewrite occurrences_app. destruct put; lia.
Qed.
End Each.

(** ** Removal and reset of one ring *)

Section RingEnd.
Context `{E : HostEnv} (k : Z) (put : bool).

Lemma destroy_ring_spec s : ri_ok k (rs_ri s) ->
  exists s', (set_ring (set_ri_pending []);; v4v_ring_remove_mfns put) s = (s', Ok tt) /\
    ri_ok k (rs_ri s') /\ ri_id (rs_ri s') = ri_id (rs_ri s) /\
    frames (rs_ri s') = [] /\ m_mem (rs_m s') = m_mem (rs_m s) /\
    forall g, g <> 0 -> m_refs (rs_m s') g =
      m_refs (rs_m s) g - if put then occurrences g (frames (rs_ri s)) else 0.
Proof.
  intros (Hdom & Hok & Hf). unfold bind, set_ring, modify.
  set (s1 := {| rs_m := rs_m s; rs_ri := set_ri_pending [] (rs_ri s) |}).
  assert (ring_inv (ri_id (rs_ri s)) s1) as Hi.
  { split; [done|]. split; [done|]. destruct Hf. split; try done. constructor. }
  destruct (remove_mfns_eq put s1) as (m' & Heq & Hm & _ & Hr); [done|].
  destruct (remove_mfns_sound (ri_id (rs_ri s)) put s1 Hi) as ((Hid & Hok' & Hf') & _).
  rewrite Heq in *. eexists. split; [done|]. cbn [fst rs_ri rs_m] in *.
  split; [split; [by rewrite Hid|done]|]. split; [done|].
  split; [apply frames_without_pages|]. done.
Qed.

Lemma reset_ring_spec s : ri_ok k (rs_ri s) ->
  exists s', v4v_ring_reset put s = (s', Ok tt) /\
    ri_ok k (rs_ri s') /\ ri_id (rs_ri s') = ri_id (rs_ri s) /\
    frames (rs_ri s') = [] /\ m_mem (rs_m s') = m_mem (rs_m s) /\
    forall g, g <> 0 -> m_refs (rs_m s') g =
      m_refs (rs_m s) g - if put then occurrences g (frames (rs_ri s)) else 0.
Proof.
  intros (Hdom & Hok & Hf).
  destruct (ring_reset_sound (ri_id (rs_ri s)) put s) as ((Hid & Hok' & Hf') & _);
    [done|].
  destruct (remove_mfns_eq put s) as (m' & Heq & Hm & _ & Hr); [done|].
  unfold v4v_ring_reset, bind in *. rewrite Heq in *. eexists. split; [done|].
  cbn [fst rs_ri rs_m set_ring modify] in *.
  split; [split; [by rewrite Hid|done]|]. split; [done|].
  split; [|done]. exact (frames_without_pages (rs_ri s)).
Qed.
End RingEnd.

(** ** Destruction and suspension of a domain's state *)

(** The references held for a table are given back. *)
Definition refs_returned (put : bool) (o : option v4v_domain) (w w' : world) : Prop :=
  forall g, g <> 0 -> m_refs (w_m w') g = m_refs (w_m w) g -
    match o with
    | Some vd => if put then occurrences g (table_frames (ring_hash vd)) else 0
    | None => 0
    end.

Section Life.
Context `{E : HostEnv} (did : Z).
Local Abbreviation put := (negb (mfns_dont_belong_xen did)).

Lemma destroy_spec w d : world_ok w -> w_doms w !! did = Some d -> is_dying d = true ->
  exists w', v4v_destroy did w = (w', Ok tt) /\
    w_doms w' = alter (set_d_v4v None) did (w_doms w) /\
    m_mem (w_m w') = m_mem (w_m w) /\ refs_returned put (d_v4v d) w w'.
Proof.
  intros Hw Hd Hdy. destruct (Hw _ _ Hd) as (_ & _ & Ht).
  pose proof (destroy_ring_spec did put) as Hf. unfold v4v_destroy.
  set (f := (set_ring _;; _)) in *. unfold bind at 1, get. rewrite Hd, Hdy. unfold bind at 1.
  cbn [bug_if negb]. unfold bind at 1, ret at 1. destruct (d_v4v d) as [vd|].
  - destruct (Ht vd eq_refl) as [_ Hch].
    destruct (each_chain_spec did put f Hf 0
      (ring_hash vd) (w_m w) Hch) as (m' & ls' & H1 & _ & _ & _ & Hm & Hr).
    unfold in_machine, zoom, bind. rewrite H1. eexists. split; [done|].
    split; [done|]. split; [done|]. exact Hr.
  - eexists. split; [done|]. split; [done|]. split; [done|]. intros g Hg. simpl. lia.
Qed.

Lemma suspend_spec w d vd : world_ok w -> w_doms w !! did = Some d ->
  shutdown_crash d = false -> dom_destroyed d = false -> d_v4v d = Some vd ->
  exists w' vd', v4v_shutdown_for_suspend did w = (w', Ok tt) /\
    w_doms w' = alter (set_d_v4v (Some vd')) did (w_doms w) /\
    table_ok did vd' /\ table_frames (ring_hash vd') = [] /\
    m_mem (w_m w') = m_mem (w_m w) /\ refs_returned put (d_v4v d) w w'.
Proof.
  intros Hw Hd Hc Hde Hvd. destruct (Hw _ _ Hd) as (_ & _ & Ht).
  destruct (Ht vd Hvd) as [Hlen Hch].
  unfold v4v_shutdown_for_suspend, bind at 1, get. rewrite Hd, Hc.
  unfold bind at 1. cbn [bug_if]. unfold ret at 1. rewrite Hde, Hvd.
  destruct (each_chain_spec did put _ (reset_ring_spec did put) 0
    (ring_hash vd) (w_m w) Hch) as (m' & ls' & H1 & Hlen' & Hch' & Hfr & Hm & Hr).
  unfold in_machine, zoom, bind. rewrite H1. eexists _, {| ring_hash := ls' |}.
  split; [done|]. split; [done|]. split; [split; [cbn [ring_hash]; by rewrite Hlen'|done]|].
  split; [done|]. split; [done|]. exact Hr.
Qed.
End Life.

(** ** Reachable states *)

Lemma alter_v4v_ok w w' k o :
  world_ok w -> (forall vd, o = Some vd -> table_ok k vd) ->
  world_ok (set_w_doms (alter (set_d_v4v o) k (w_doms w)) w').
Proof.
  intros Hw Ht k' d' Hk. simpl in Hk. apply lookup_alter_Some in Hk
    as [(<- & d0 & Hd0 & ->)|[_ Hk]]; [|by apply Hw].
  destruct (Hw _ _ Hd0) as (Hid & Hr & _). split; [done|]. split; [done|]. apply Ht.
Qed.

Lemma world_ok_doms w' ds : w_doms w' = ds ->
  world_ok (set_w_doms ds w') -> world_ok w'.
Proof. intros <- Hw k d Hk. by apply Hw. Qed.

Section Reach.
Context `{E : HostEnv} {HO : HostEnvOk E} (Hrun : env_ui_running = true).

(** What happens outside of the V4V code: guests and devices change memory,
    domains are created without V4V state and taken out of the list, their
    flags change. *)
Definition outside (w w' : world) : Prop :=
  forall k d', w_doms w' !! k = Some d' ->
    domain_id d' = k /\ 0 <= k < DOMID_FIRST_RESERVED /\
    (d_v4v d' = None \/ exists d, w_doms w !! k = Some d /\ d_v4v d' = d_v4v d).

(** One event: a hypercall of a domain, a step of the life cycle of one, or a
    step outside; the hypervisor goes on only when it did not stop. *)
Inductive step : world -> world -> Prop :=
| step_op c cmd a1 a2 a3 a4 a5 w w' r :
    is_Some (w_doms w !! cur_domain c) ->
    do_v4v_op c cmd a1 a2 a3 a4 a5 w = (w', r) -> r <> Bug -> step w w'
| step_init did w w' r : v4v_init did w = (w', r) -> r <> Bug -> step w w'
| step_destroy did w w' r : v4v_destroy did w = (w', r) -> r <> Bug -> step w w'
| step_suspend did w w' r :
    v4v_shutdown_for_suspend did w = (w', r) -> r <> Bug -> step w w'
| step_resume did w w' r : v4v_resume did w = (w', r) -> r <> Bug -> step w w'
| step_outside w w' : outside w w' -> step w w'.

Inductive reachable : world -> Prop :=
| reach_boot w : w_doms w = ∅ -> reachable w
| reach_step w w' : reachable w -> step w w' -> reachable w'.

Lemma init_ok did w : world_ok w -> world_ok (fst (v4v_init did w)).
Proof.
  intros Hw. unfold v4v_init, in_machine, zoom, xmalloc, bind, fail_if, ret. simpl.
  destruct (env_xmalloc _); cbn -[replicate]; [|done].
  apply alter_v4v_ok; [done|]. intros ? [= <-]. apply empty_table_ok.
Qed.

Lemma resume_ok did w : world_ok w -> world_ok (fst (v4v_resume did w)).
Proof using Hrun.
  intros Hw. unfold v4v_resume, bind at 1, get.
  destruct (w_doms w !! did) as [d|] eqn:Ed; [|done].
  destruct (dom_destroyed d); [done|].
  destruct (triple_sound_at _ _ _ w (signal_domain_sound Hrun false did did)) as [[H _] _].
  - split; [split; [done|]|]; by exists d.
  - done.
Qed.

Lemma step_ok w w' : world_ok w -> step w w' -> world_ok w'.
Proof using HO Hrun.
  intros Hw Hs. destruct Hs as
    [c cmd a1 a2 a3 a4 a5 w w' r [d Hd] Hop _|did w w' r Hi _|did w w' r Hde Hb|
     did w w' r Hsu Hb|did w w' r Hre _|w w' Hout].
  - assert (world_inv false (cur_domain c) w) as Hi by (split; [done|by exists d]).
    destruct (do_v4v_op_preserves c Hrun cmd a1 a2 a3 a4 a5 w Hi) as [H _].
    by rewrite Hop in H.
  - pose proof (init_ok did w Hw) as H. by rewrite Hi in H.
  - revert Hde. unfold v4v_destroy. destruct (w_doms w !! did) as [d|] eqn:Ed.
    + destruct (is_dying d) eqn:Edy.
      * destruct (destroy_spec did w d Hw Ed Edy) as (w1 & H1 & Hdoms & _).
        unfold v4v_destroy in H1. rewrite H1. intros [= <- <-].
        by apply (world_ok_doms _ _ Hdoms), alter_v4v_ok.
      * unfold bind, get. rewrite Ed, Edy. intros [= <- <-]. done.
    + unfold bind, get. rewrite Ed. by intros [= <- <-].
  - revert Hsu. destruct (w_doms w !! did) as [d|] eqn:Ed.
    2: { unfold v4v_shutdown_for_suspend, bind, get. rewrite Ed. by intros [= <- <-]. }
    destruct (shutdown_crash d) eqn:Ec.
    { unfold v4v_shutdown_for_suspend, bind, get. rewrite Ed, Ec. by intros [= <- <-]. }
    destruct (dom_destroyed d) eqn:Edd.
    { unfold v4v_shutdown_for_suspend, bind, get. rewrite Ed, Ec, Edd.
      by intros [= <- <-]. }
    destruct (d_v4v d) as [vd|] eqn:Ev.
    + destruct (suspend_spec did w d vd Hw Ed Ec Edd Ev) as (w1 & vd1 & -> & Hdoms & Ht & _).
      intros [= <- <-]. apply (world_ok_doms _ _ Hdoms), alter_v4v_ok; [done|].
      by intros ? [= <-].
    + unfold v4v_shutdown_for_suspend, bind, get. rewrite Ed, Ec, Edd, Ev.
      by intros [= <- <-].
  - pose proof (resume_ok did w Hw) as H. by rewrite Hre in H.
  - intros k d' Hk. destruct (Hout k d' Hk) as (Hid & Hr & Hv).
    split; [done|]. split; [done|]. intros vd Hvd.
    destruct Hv as [Hn|(d & Hd & Heq)]; [congruence|].
    apply (Hw _ _ Hd). congruence.
Qed.

Lemma reachable_ok w : reachable w -> world_ok w.
Proof using HO Hrun.
  induction 1 as [w Hw|w w' _ IH Hs].
  - intros k d. rewrite Hw. by rewrite lookup_empty.
  - by eapply step_ok.
Qed.
End Reach.
