(* ===== verification/V4vProps.v ===== *)
(** * V4V: the ring as a bounded queue between two domains

    The properties of the ring buffer: an insertion stays inside the ring
    whatever the guests do; on a well-formed ring it appends to a queue of
    messages, or changes nothing; the reader takes messages in the order in
    which they were sent. *)

From stdpp Require Import base list numbers gmap.
From Stdlib Require Import ZArith Lia.
From S2P Require Import Prelude Machine V4vTypes V4vRing V4vRingSafe V4vRingSpec.
From S2P Require Import V4vInsert V4vQueue.

Open Scope Z_scope.
Open Scope se_scope.

(** ** A concrete environment

    Guest memory is [g], every service is granted, the physical-to-machine
    translation is the identity. *)
Definition plain_env (g : Z -> Z) : HostEnv := {|
  env_guest_read := fun _ a n => (tabulate g a n, 0);
  env_guest_write := fun _ _ _ => 0;
  env_handle_ok := fun _ _ _ => true;
  env_xmalloc := fun _ => true;
  env_alloc_xenheap_page := fun _ => true;
  env_map_page := fun _ _ => true;
  env_get_gfn_unshare := fun _ _ pfn => pfn;
  env_mfn_retry := fun _ => false;
  env_mfn_valid := fun _ => true;
  env_mfn_valid_page := fun _ => true;
  env_get_page := fun _ _ _ => true;
  env_free_pages_needed := fun _ => false;
  env_ui_running := true;
  env_ui_signal_v4v := true
|}.

Definition byte_memory (g : Z -> Z) : Prop := forall a, 0 <= g a < 256.

Lemma plain_env_serves g : byte_memory g -> Serves (plain_env g) g.
Proof. by split. Qed.

Lemma plain_env_ok g : byte_memory g -> HostEnvOk (plain_env g).
Proof.
  intros Hg. split; simpl; try done.
  - intros. by apply zlen_tabulate.
  - intros. by rewrite zlen_tabulate.
  - intros _ a n. unfold tabulate. apply Forall_forall. intros x Hx.
    apply list_elem_of_In, in_map_iff in Hx as (j & <- & _). apply Hg.
Qed.

Definition count_up (a : Z) : Z := a mod 256.
Lemma count_up_bytes : byte_memory count_up.
Proof. intros a. apply Z.mod_pos_bound. done. Qed.

(** A ring of 256 bytes in one page, its two pointers at [p]. *)
Definition small_ring (p : Z) : rstate := {|
  rs_m := {| m_time := 0;
             m_mem := fun f o => if (o =? 20) then p else 0;
             m_refs := fun _ => 0; m_log := [] |};
  rs_ri := {| ri_id := {| id_addr := {| addr_port := 5; addr_domain := 0 |};
                          partner := 3 |};
              ri_len := 256; ri_tx_ptr := p; ri_ring := 0; ri_npage := 1;
              ri_nmfns := 1; ri_mfns := Some [7]; ri_mfn_mapping := Some [None];
              ri_pending := [] |} |}.

Definition sender_id : v4v_ring_id :=
  {| id_addr := {| addr_port := 9; addr_domain := 3 |}; partner := 0 |}.

Lemma small_ring_ok p : ring_ok (small_ring p).
Proof. split; [done|]. split; [done|]. by intros [|i] f. Qed.

Lemma small_ring_at p : ring_at [7] 256 (small_ring p).
Proof.
  split; [split; [apply small_ring_ok|done]|]. split; [done|].
  unfold V4V_RING_MAX_SIZE. split; [vm_compute; discriminate|lia].
Qed.

(** ** Isolation of the ring's pages *)

(** C1: whatever the guests and the environment do (any guest memory, faults,
    failing maps, changing answers), an insertion into a ring whose page
    arrays are consistent does not stop the hypervisor, keeps the arrays
    consistent, and changes no memory outside the pages of that ring, no
    reference and no log entry.  Every access stays inside the page whose mapping
    it uses: one that leaves it would stop the hypervisor. *)
Theorem insert_confined `{E : HostEnv} s src proto buf len iovs niov :
  ring_ok s ->
  let '(s', r) := v4v_ringbuf_insert src proto buf len iovs niov s in
  r <> Bug /\ ring_ok s' /\ same_ring (rs_ri s) (rs_ri s') /\
  (forall f o, f ∉ frames (rs_ri s) \/ ~ 0 <= o < PAGE_SIZE ->
     m_mem (rs_m s') f o = m_mem (rs_m s) f o) /\
  m_refs (rs_m s') = m_refs (rs_m s) /\ m_log (rs_m s') = m_log (rs_m s).
Proof.
  intros Hs. destruct (insert_safe src proto buf len iovs niov s Hs) as (H1 & H2 & H3).
  destruct (v4v_ringbuf_insert _ _ _ _ _ _ s) as [s' r]. by destruct H2 as (? & ? & ?).
Qed.

Lemma insert_confined_witness :
  let '(s', r) := @v4v_ringbuf_insert (plain_env count_up) sender_id 1 0 20 0 0
                    (small_ring 240) in
  r = Ok (0, 20) /\ ring_ok s' /\ m_mem (rs_m s') 8 100 = 0.
Proof.
  pose proof (@insert_confined (plain_env count_up) (small_ring 240) sender_id 1 0 20 0 0
    (small_ring_ok 240)) as H.
  assert (snd (@v4v_ringbuf_insert (plain_env count_up) sender_id 1 0 20 0 0
    (small_ring 240)) = Ok (0, 20)) as Hr by (vm_compute; reflexivity).
  destruct (v4v_ringbuf_insert _ _ _ _ _ _ _) as [s' r]. simpl in Hr.
  destruct H as (_ & Hok & _ & Hm & _). split; [done|]. split; [done|].
  rewrite Hm; [done|]. left. apply not_elem_of_cons. split; [done|]. apply not_elem_of_nil.
Defined.

(** ** The ring as a queue *)

(** The fields of the header in the shared page. *)
Definition shared_field (mfns : list Z) (s : rstate) (off : Z) : Z :=
  le_val (tabulate (lin (m_mem (rs_m s)) mfns) off 4).

(** The ring on the pages [mfns] holds the queue [q], and both sides agree on
    the length and on [tx_ptr]. *)
Record ring_queue (mfns : list Z) (L : Z) (s : rstate) (q : list message) : Prop := {
  rq_at : ring_at mfns L s;
  rq_nodup : NoDup mfns;
  rq_holds : holds (rdata s mfns) L (ring_rx mfns s) (ri_tx_ptr (rs_ri s)) q;
  rq_len : shared_field mfns s 16 = L;
  rq_tx : shared_field mfns s offsetof_tx_ptr = ri_tx_ptr (rs_ri s)
}.

Lemma sane_rx_aligned L rx : 0 <= rx < L -> L <= V4V_RING_MAX_SIZE ->
  rx mod 16 = 0 -> sane_rx L rx = rx.
Proof.
  unfold V4V_RING_MAX_SIZE. intros Hr HL Hm. unfold sane_rx.
  rewrite V4V_ROUNDUP_aligned, u32_small by (done || lia).
  destruct (Z.leb_spec L rx); lia.
Qed.

Lemma holds_tx_ok d L rx tx q : holds d L rx tx q ->
  L mod 16 = 0 /\ 0 <= tx < L /\ tx mod 16 = 0.
Proof.
  intros [[HL HLm] [Hr Hrm] -> Hsz _]. split; [done|].
  split; [apply Z.mod_pos_bound; lia|]. pose proof (queue_size_bounds q) as [_ Hq].
  rewrite Z.mod_mod_divide by (by apply Z.mod_divide).
  rewrite Z.add_mod, Hrm, Hq by done. done.
Qed.

(** Reading next to a write, and what was written. *)
Lemma tabulate_write_out w bs v off n : 0 <= n -> off + n <= w \/ w + zlen bs <= off ->
  tabulate (lin_write w bs v) off n = tabulate v off n.
Proof.
  intros Hn Hd. apply tabulate_ext. intros i Hi. unfold lin_write.
  destruct (Z.leb_spec w (off + i)), (Z.ltb_spec (off + i) (w + zlen bs)); simpl; lia.
Qed.

Lemma tabulate_write_in w bs v : tabulate (lin_write w bs v) w (zlen bs) = bs.
Proof.
  pose proof (zlen_nonneg bs). apply zlist_eq; [by apply zlen_tabulate|].
  rewrite zlen_tabulate by done. intros i Hi. rewrite znth_tabulate by done.
  unfold lin_write. destruct (Z.leb_spec w (w + i)), (Z.ltb_spec (w + i) (w + zlen bs));
    simpl; try lia. f_equal. lia.
Qed.

(** The header after a write of four bytes to it. *)
Lemma header_after mfns s s' w x off :
  (forall o, 0 <= o < sizeof_v4v_ring -> lin (m_mem (rs_m s')) mfns o =
     lin_write w (le_bytes 4 x) (lin (m_mem (rs_m s)) mfns) o) ->
  0 <= off -> off + 4 <= sizeof_v4v_ring -> 0 <= x < 2 ^ 32 ->
  w = off \/ off + 4 <= w \/ w + 4 <= off ->
  shared_field mfns s' off = if w =? off then x else shared_field mfns s off.
Proof.
  intros Hl Ho Hs Hx Hd. unfold shared_field.
  rewrite (tabulate_ext _ (lin_write w (le_bytes 4 x) (lin (m_mem (rs_m s)) mfns)) off off)
    by (intros; apply Hl; lia).
  destruct (Z.eqb_spec w off) as [->|].
  - pose proof (tabulate_write_in off (le_bytes 4 x) (lin (m_mem (rs_m s)) mfns)) as H.
    rewrite zlen_le_bytes in H. change (Z.of_nat 4) with 4 in H. rewrite H, le_val_bytes. by apply Z.mod_small.
  - rewrite tabulate_write_out; [done|done|]. rewrite zlen_le_bytes. lia.
Qed.

Section Queue.
Context `{E : HostEnv} (g : Z -> Z) {HE : Serves E g}.
Context (mfns : list Z) (L : Z).

(** What a send asks for: [n] bytes, from the buffer or the vector. *)
Definition send_len (len iovs niov : Z) : Z :=
  if niov =? 0 then len else iov_total g (Z.to_nat niov) iovs.

Definition send_ok (src : v4v_ring_id) (proto len iovs niov : Z) : Prop :=
  let n := send_len len iovs niov in
  0 <= niov /\ 0 <= n <= V4V_RING_MAX_SIZE /\ iovs_fit g (Z.to_nat niov) iovs n /\
  0 <= addr_port (id_addr src) < 2 ^ 32 /\ 0 <= addr_domain (id_addr src) < 2 ^ 16 /\
  0 <= proto < 2 ^ 32.

Definition sent_message (src : v4v_ring_id) (proto buf len iovs niov : Z) : message :=
  {| msg_source := id_addr src; msg_protocol := proto;
     msg_payload := loop_payload g (Z.to_nat niov) iovs buf (send_len len iovs niov) |}.

Lemma zlen_sent src proto buf len iovs niov : send_ok src proto len iovs niov ->
  zlen (msg_payload (sent_message src proto buf len iovs niov)) = send_len len iovs niov.
Proof. intros (_ & Hn & Hf & _). apply zlen_loop_payload; [apply Hn|done]. Qed.

Lemma insert_enqueue s q src proto buf len iovs niov :
  ring_queue mfns L s q -> send_ok src proto len iovs niov ->
  let m := sent_message src proto buf len iovs niov in
  queue_size q + msg_size m < L ->
  exists s', v4v_ringbuf_insert src proto buf len iovs niov s =
    (s', Ok (0, send_len len iovs niov)) /\ ring_queue mfns L s' (q ++ [m]).
Proof using HE.
  intros [Hat Hnd Hh Hlen Htx] Hok m Hroom. pose proof Hok as (Hniov & Hn & Hfit & Hp & Hd & Hpr).
  pose proof (holds_tx_ok _ _ _ _ _ Hh) as Htxok.
  pose proof (holds_rx _ _ _ _ _ Hh) as [Hrx Hrxm].
  pose proof Hat as (_ & _ & _ & HL). unfold V4V_RING_MAX_SIZE in HL.
  assert (msg_size m = 16 + V4V_ROUNDUP (send_len len iovs niov)) as Hms.
  { unfold msg_size. unfold m. by rewrite zlen_sent. }
  assert (sane_rx L (ring_rx mfns s) = ring_rx mfns s) as Hsane
    by (apply sane_rx_aligned; [done|unfold V4V_RING_MAX_SIZE; lia|done]).
  destruct (insert_spec g mfns Hnd L s src proto buf len iovs niov) as (s' & Hs' & Hins);
    [done..|apply Hn|done| |].
  { rewrite Hsane, (holds_free_space _ _ _ _ _ Hh). fold (send_len len iovs niov). lia. }
  exists s'. split; [done|]. fold (send_len len iovs niov) in Hins.
  change (message_bytes _ _ _) with (bytes_of_message m) in Hins.
  destruct Hins as (Hr & Ho & Htx' & Hdata & Hhdr & _).
  assert (V4V_ROUNDUP (zlen (bytes_of_message m)) = msg_size m) as Hsz.
  { rewrite zlen_message, V4V_ROUNDUP_add16. done. }
  rewrite Hsz in *. set (tx' := (_ + msg_size m) mod L) in *.
  assert (0 <= tx' < L) as Htxr by (apply Z.mod_pos_bound; lia).
  pose proof (fun off => header_after mfns s s' offsetof_tx_ptr tx' off Hhdr) as Hfld.
  unfold offsetof_tx_ptr, sizeof_v4v_ring in *.
  split; [by eapply ring_at_same|done| | |].
  - rewrite Htx'. change (ring_rx mfns s') with (shared_field mfns s' 20).
    rewrite Hfld by lia. cbn [Z.eqb Pos.eqb].
    apply holds_append with (d := rdata s mfns); [done|by split|lia|done].
  - rewrite Hfld by lia. done.
  - unfold offsetof_tx_ptr. rewrite Hfld by lia. done.
Qed.

(** A state with the same memory and the same ring holds the same queue. *)
Lemma ring_queue_touch s s' q : touch s s' -> ring_queue mfns L s q ->
  ring_queue mfns L s' q.
Proof.
  intros (R & T & K & M) [Hat Hnd Hh Hlen Htx].
  unfold ring_rx, rdata, shared_field in *.
  split; unfold ring_rx, rdata, shared_field; rewrite ?M, ?T; try done.
  by eapply ring_at_same.
Qed.

Lemma insert_message_full s q src proto buf len iovs niov :
  ring_queue mfns L s q -> 0 <= len <= V4V_RING_MAX_SIZE ->
  L - queue_size q <= V4V_ROUNDUP len + 16 ->
  exists s', insert_message src proto buf len iovs niov s = (s', Err (- EAGAIN)) /\
    touch s s'.
Proof using HE.
  intros [Hat Hnd Hh Hlen Htx] Hl Hroom.
  pose proof (holds_tx_ok _ _ _ _ _ Hh) as (_ & Htxr & _).
  pose proof (holds_rx _ _ _ _ _ Hh) as [Hrx Hrxm].
  pose proof Hat as (_ & _ & _ & HL).
  assert (sane_rx L (ring_rx mfns s) = ring_rx mfns s) as Hsane
    by (apply sane_rx_aligned; [done|apply HL|done]).
  destruct (read_header_spec g mfns L s Hat) as (s1 & H1 & T1).
  pose proof T1 as (R1 & TX1 & K1 & M1).
  assert (ri_len (rs_ri s1) = L) as HL1
    by (destruct R1 as (_ & -> & _); apply Hat).
  exists s1. split; [|done]. unfold insert_message. unfold bind at 1. rewrite H1.
  unfold bind at 1, gets. cbv zeta. set (ring := v4v_sanitize_ring _ _).
  assert (r_rx_ptr ring = ring_rx mfns s) as Erx.
  { rewrite <- Hsane. subst ring. unfold v4v_sanitize_ring, sane_rx, ring_rx. simpl.
    rewrite HL1. unfold field. by rewrite slice_tabulate by done. }
  assert (r_tx_ptr ring = ri_tx_ptr (rs_ri s)) as Etx by (rewrite <- TX1; done).
  assert (r_len ring = L) as El by done.
  unfold V4V_RING_MAX_SIZE in *.
  rewrite ring_space_free
    by (rewrite ?Erx, ?Etx, ?El; unfold V4V_RING_MAX_SIZE; lia).
  rewrite Erx, Etx, El, (holds_free_space _ _ _ _ _ Hh).
  rewrite message_size_small by (unfold V4V_RING_MAX_SIZE; lia).
  pose proof (holds_size _ _ _ _ _ Hh). pose proof (queue_size_bounds q).
  rewrite size_of_int_small by lia.
  destruct (Z.leb_spec (L - queue_size q) (V4V_ROUNDUP len + 16)); [done|lia].
Qed.

(** The answer when there is no room. *)
Definition refusal (n : Z) : Z :=
  if L <=? V4V_ROUNDUP n + sizeof_v4v_ring_message_header then - EMSGSIZE else - EAGAIN.

Lemma insert_full s q src proto buf len iovs niov :
  ring_queue mfns L s q -> send_ok src proto len iovs niov ->
  L <= queue_size q + msg_size (sent_message src proto buf len iovs niov) ->
  exists s', v4v_ringbuf_insert src proto buf len iovs niov s =
    (s', Ok (refusal (send_len len iovs niov), send_len len iovs niov)) /\
    touch s s'.
Proof using HE.
  intros Hq Hok Hroom. pose proof Hok as (Hniov & Hn & Hfit & _).
  unfold msg_size in Hroom. rewrite zlen_sent in Hroom by done.
  set (n := send_len len iovs niov) in *.
  pose proof (rq_at _ _ _ _ Hq) as (Hp & HL & _ & HLr).
  assert (exists s1, (if niov =? 0 then ret len
    else recover (v4v_iov_count (Z.to_nat niov) iovs 0) id) s = (s1, Ok n) /\
    rs_ri s1 = rs_ri s /\ m_mem (rs_m s1) = m_mem (rs_m s)) as (s1 & H1 & R1 & M1).
  { subst n. unfold send_len in *. destruct (niov =? 0); [by exists s|].
    destruct (iov_count_spec g (Z.to_nat niov) s iovs 0) as (s1 & H1 & ? & ?);
      [done|done|lia|].
    exists s1. unfold recover. by rewrite H1. }
  assert (touch s s1) as T1.
  { split; [by rewrite R1|]. split; [by rewrite R1|]. split; [|done].
    unfold ring_ok. rewrite R1. apply Hp. }
  unfold v4v_ringbuf_insert, refusal. unfold bind at 1, gets.
  rewrite HL. destruct (Z.eqb_spec L 0); [lia|].
  unfold bind at 1. rewrite H1. destruct (Z.ltb_spec n 0); [lia|].
  rewrite andb_false_r, message_size_small by done.
  unfold sizeof_v4v_ring_message_header in *.
  destruct (Z.leb_spec L (V4V_ROUNDUP n + 16)); [by exists s1|].
  destruct (insert_message_full s1 q src proto buf n iovs (Z.to_nat niov))
    as (s2 & H2 & T2); [by eapply ring_queue_touch|done|lia|].
  exists s2. unfold bind, code. rewrite H2. split; [done|].
  destruct T1 as (RA & TA & _ & MA), T2 as (RB & TB & KB & MB).
  split; [by etrans|]. split; [congruence|]. split; [done|congruence].
Qed.

(** ** The reader *)

(** The ring as the guest that owns it sees it in its memory. *)
Definition guest_view (s : rstate) : guest_ring :=
  {| gr_len := shared_field mfns s 16; gr_rx_ptr := ring_rx mfns s;
     gr_tx_ptr := shared_field mfns s offsetof_tx_ptr; gr_ring := rdata s mfns |}.

(** The guest takes a message out, into a buffer of [t] bytes: the store to
    [rx_ptr] goes to the first page of the ring. *)
Definition guest_receive (t : Z) (s : rstate) : rstate * option copied :=
  let '(r, o) := v4v_copy_out (guest_view s) true t true in
  match o, mfns with
  | Some _, f :: _ =>
      ({| rs_m := set_mem (mem_write f offsetof_rx_ptr (le_bytes 4 (gr_rx_ptr r))
                             (m_mem (rs_m s))) (rs_m s);
          rs_ri := rs_ri s |}, o)
  | _, _ => (s, o)
  end.

(** A store to the header leaves the rest of the ring as it is. *)
Lemma store_rx_queue s q f l x : mfns = f :: l -> ring_queue mfns L s q ->
  0 <= x < 2 ^ 32 -> forall q',
  holds (rdata s mfns) L x (ri_tx_ptr (rs_ri s)) q' ->
  ring_queue mfns L
    {| rs_m := set_mem (mem_write f offsetof_rx_ptr (le_bytes 4 x) (m_mem (rs_m s)))
                 (rs_m s); rs_ri := rs_ri s |} q'.
Proof.
  intros Hm [Hat Hnd Hh Hlen Htx] Hx q' Hh'. set (s' := {| rs_m := _ |}).
  assert (forall o, 0 <= o -> lin (m_mem (rs_m s')) mfns o =
    lin_write offsetof_rx_ptr (le_bytes 4 x) (lin (m_mem (rs_m s)) mfns) o) as Hw.
  { intros o Ho. subst s'. cbn [rs_m m_mem set_mem].
    rewrite (lin_mem_write _ _ 0); [done|done| |done..]. by rewrite Hm. }
  assert (forall o, 0 <= o < sizeof_v4v_ring -> lin (m_mem (rs_m s')) mfns o =
    lin_write offsetof_rx_ptr (le_bytes 4 x) (lin (m_mem (rs_m s)) mfns) o) as Hw'
    by (intros; apply Hw; lia).
  pose proof (fun off => header_after mfns s s' offsetof_rx_ptr x off Hw') as Hfld.
  unfold offsetof_rx_ptr, sizeof_v4v_ring in *.
  split; [done|done| | |].
  - change (ring_rx mfns s') with (shared_field mfns s' 20). rewrite Hfld by lia. rewrite Z.eqb_refl.
    destruct Hh' as [H1 H2 H3 H4 H5]. split; [done..|].
    eapply queue_at_ext; [|done]. intros j Hj. unfold rdata.
    pose proof (Z.mod_pos_bound (x + j) L ltac:(lia)).
    unfold sizeof_v4v_ring. rewrite Hw by lia. unfold lin_write.
    rewrite zlen_le_bytes. change (Z.of_nat 4) with 4.
    destruct (Z.ltb_spec (64 + (x + j) mod L) (20 + 4)); [lia|].
    by rewrite andb_false_r.
  - rewrite Hfld by lia. done.
  - unfold offsetof_tx_ptr. rewrite Hfld by lia. done.
Qed.

(** What the reader gets of a message, with a buffer of [t] bytes. *)
Definition delivered (m : message) (t : Z) : copied :=
  {| co_ret := zlen (msg_payload m); co_from := msg_source m;
     co_protocol := msg_protocol m; co_buf := take (Z.to_nat t) (msg_payload m) |}.

Lemma receive_nil s t : ring_queue mfns L s [] -> guest_receive t s = (s, None).
Proof.
  intros [Hat Hnd Hh Hlen Htx]. unfold guest_receive.
  rewrite copy_out_nil; [done|]. unfold guest_view. simpl. by rewrite Hlen, Htx.
Qed.

Lemma receive_cons s m q t : ring_queue mfns L s (m :: q) -> 0 <= t ->
  exists s', guest_receive t s = (s', Some (delivered m t)) /\ ring_queue mfns L s' q.
Proof.
  intros Hq Ht. pose proof Hq as [Hat Hnd Hh Hlen Htx]. unfold guest_receive.
  assert (gr_len (guest_view s) = L) as Hgl by done.
  rewrite (copy_out_cons (guest_view s) m q); [|unfold guest_view; simpl; by rewrite Hlen, Htx|done].
  rewrite Hgl. cbn [gr_rx_ptr guest_view set_gr_rx_ptr].
  pose proof Hat as (_ & _ & Hle & HL).
  destruct mfns as [|f l] eqn:Em; [unfold sizeof_v4v_ring in Hle; change (zlen []) with 0 in Hle; lia|].
  eexists. split; [reflexivity|]. rewrite <- Em in *.
  apply holds_tail in Hh. unfold V4V_RING_MAX_SIZE in HL.
  pose proof (holds_rx _ _ _ _ _ Hh) as [Hr _].
  eapply store_rx_queue; [done|done|lia|done].
Qed.

(** ** Sequences of operations *)

Inductive ring_op : Type :=
| Send (src : v4v_ring_id) (proto buf len iovs niov : Z)
| Receive (t : Z).

Inductive ring_out : Type :=
| Sent (code len : Z)
| Received (o : option copied)
| Stopped.

Definition run_op (op : ring_op) (s : rstate) : rstate * ring_out :=
  match op with
  | Send src proto buf len iovs niov =>
      match v4v_ringbuf_insert src proto buf len iovs niov s with
      | (s', Ok (r, n)) => (s', Sent r n)
      | (s', _) => (s', Stopped)
      end
  | Receive t => let '(s', o) := guest_receive t s in (s', Received o)
  end.

(** A bounded first-in first-out queue of messages. *)
Definition spec_op (op : ring_op) (q : list message) : list message * ring_out :=
  match op with
  | Send src proto buf len iovs niov =>
      let m := sent_message src proto buf len iovs niov in
      let n := send_len len iovs niov in
      if queue_size q + msg_size m <? L then (q ++ [m], Sent 0 n)
      else (q, Sent (refusal n) n)
  | Receive t =>
      match q with
      | [] => ([], Received None)
      | m :: q => (q, Received (Some (delivered m t)))
      end
  end.

Definition op_ok (op : ring_op) : Prop :=
  match op with
  | Send src proto buf len iovs niov => send_ok src proto len iovs niov
  | Receive t => 0 <= t
  end.

Fixpoint run_ops (ops : list ring_op) (s : rstate) : rstate * list ring_out :=
  match ops with
  | [] => (s, [])
  | op :: ops => let '(s, o) := run_op op s in
                 let '(s, os) := run_ops ops s in (s, o :: os)
  end.

Fixpoint spec_ops (ops : list ring_op) (q : list message)
  : list message * list ring_out :=
  match ops with
  | [] => (q, [])
  | op :: ops => let '(q, o) := spec_op op q in
                 let '(q, os) := spec_ops ops q in (q, o :: os)
  end.

Lemma run_op_simulates op s q : ring_queue mfns L s q -> op_ok op ->
  snd (run_op op s) = snd (spec_op op q) /\
  ring_queue mfns L (fst (run_op op s)) (fst (spec_op op q)).
Proof using HE.
  intros Hq Hok. destruct op as [src proto buf len iovs niov|t]; simpl in *.
  - destruct (Z.ltb_spec (queue_size q +
      msg_size (sent_message src proto buf len iovs niov)) L).
    + destruct (insert_enqueue s q src proto buf len iovs niov) as (s' & -> & Hq'); done.
    + destruct (insert_full s q src proto buf len iovs niov) as (s' & -> & Ht); [done..|].
      split; [done|]. by eapply ring_queue_touch.
  - destruct q as [|m q]; [by rewrite receive_nil|].
    by destruct (receive_cons s m q t Hq Hok) as (s' & -> & Hq').
Qed.

Lemma run_ops_simulates ops s q : ring_queue mfns L s q -> Forall op_ok ops ->
  snd (run_ops ops s) = snd (spec_ops ops q) /\
  ring_queue mfns L (fst (run_ops ops s)) (fst (spec_ops ops q)).
Proof using HE.
  intros Hq Hok. revert s q Hq.
  induction Hok as [|op ops Hop _ IH]; intros s q Hq; [done|]. simpl.
  destruct (run_op_simulates op s q Hq Hop) as [Ho Hq1].
  destruct (run_op op s) as [s1 o1], (spec_op op q) as [q1 o1']. simpl in *.
  destruct (IH s1 q1 Hq1) as [Hos Hq2].
  destruct (run_ops ops s1), (spec_ops ops q1). simpl in *. by subst.
Qed.
End Queue.

(** C2: on a well-formed ring, any sequence of sends ([v4v_ringbuf_insert]) and
    receives ([v4v_copy_out] with the store to [rx_ptr]) gives the results of
    a bounded first-in first-out queue: a message that fits is appended and
    answered with [0] and its length, one that does not is refused with
    [-EMSGSIZE] or [-EAGAIN] and changes nothing, and the reader gets the
    messages in order, each with its source, protocol and bytes; the ring is
    well formed again at the end. *)
Theorem ring_refines_queue `{E : HostEnv} (g : Z -> Z) (HE : Serves E g) mfns L ops s q :
  ring_queue mfns L s q -> Forall (op_ok g) ops ->
  snd (run_ops mfns ops s) = snd (spec_ops g L ops q) /\
  ring_queue mfns L (fst (run_ops mfns ops s)) (fst (spec_ops g L ops q)).
Proof. apply run_ops_simulates. done. Qed.

(** A ring of 256 bytes, empty, its pointers 16 bytes before the end. *)
Definition shared_ring : rstate := {|
  rs_m := {| m_time := 0;
             m_mem := fun f o => if (o =? 20) || (o =? 24) then 240
                                 else if o =? 17 then 1 else 0;
             m_refs := fun _ => 0; m_log := [] |};
  rs_ri := rs_ri (small_ring 240) |}.

Lemma shared_ring_queue : ring_queue [7] 256 shared_ring [].
Proof.
  split.
  - split; [split; [|done]|].
    + split; [done|]. split; [done|]. by intros [|i] f.
    + split; [done|]. unfold V4V_RING_MAX_SIZE. split; [vm_compute; discriminate|lia].
  - apply NoDup_singleton.
  - split; [by vm_compute|by vm_compute|by vm_compute|by vm_compute|done].
  - by vm_compute.
  - by vm_compute.
Qed.

(** A send that goes round the end of the ring, one that is refused and two
    receives. *)
Definition example_ops : list ring_op :=
  [Send sender_id 1 1000 20 0 0; Send sender_id 1 0 241 0 0; Receive 64; Receive 64].

Lemma example_ops_ok : Forall (op_ok count_up) example_ops.
Proof.
  repeat constructor; simpl; unfold V4V_RING_MAX_SIZE, send_len; simpl; lia.
Qed.

Lemma ring_refines_queue_witness :
  snd (@run_ops (plain_env count_up) [7] example_ops shared_ring) =
  [Sent 0 20; Sent (- EMSGSIZE) 241;
   Received (Some {| co_ret := 20; co_from := id_addr sender_id; co_protocol := 1;
                     co_buf := tabulate count_up 1000 20 |});
   Received None].
Proof.
  destruct (@ring_refines_queue (plain_env count_up) count_up
    (plain_env_serves _ count_up_bytes) [7] 256 example_ops shared_ring []
    shared_ring_queue example_ops_ok) as [H _].
  rewrite H. vm_compute. reflexivity.
Defined.

(** C3: a message that does not fit is answered with [-EMSGSIZE] when it could
    never fit, with [-EAGAIN] otherwise, and no byte of the memory of the
    machine has changed. *)
Theorem insert_refused `{E : HostEnv} (g : Z -> Z) (HE : Serves E g) mfns L s q
    src proto buf len iovs niov :
  ring_queue mfns L s q -> send_ok g src proto len iovs niov ->
  L <= queue_size q + msg_size (sent_message g src proto buf len iovs niov) ->
  exists s', v4v_ringbuf_insert src proto buf len iovs niov s =
    (s', Ok (if L <=? V4V_ROUNDUP (send_len g len iovs niov) + 16
             then - EMSGSIZE else - EAGAIN, send_len g len iovs niov)) /\
    m_mem (rs_m s') = m_mem (rs_m s) /\ ri_tx_ptr (rs_ri s') = ri_tx_ptr (rs_ri s).
Proof.
  intros Hq Hok Hroom.
  destruct (insert_full g mfns L s q src proto buf len iovs niov Hq Hok Hroom)
    as (s' & Hs' & (_ & HT & _ & HM)).
  by exists s'.
Qed.

Lemma insert_refused_witness :
  exists s', @v4v_ringbuf_insert (plain_env count_up) sender_id 1 0 300 0 0 shared_ring =
    (s', Ok (- EMSGSIZE, 300)) /\ m_mem (rs_m s') = m_mem (rs_m shared_ring).
Proof.
  destruct (@insert_refused (plain_env count_up) count_up
    (plain_env_serves _ count_up_bytes) [7] 256 shared_ring [] sender_id 1 0 300 0 0)
    as (s' & H & Hm & _).
  - apply shared_ring_queue.
  - repeat split; unfold V4V_RING_MAX_SIZE, send_len; simpl; lia.
  - vm_compute. discriminate.
  - exists s'. split; [exact H|exact Hm].
Defined.
