(* ===== verification/V4vSpace.v ===== *)
(** * V4V: the space a ring reports, and the notifications it leads to

    [v4v_ringbuf_payload_space] against the room the insertion requires, the
    flags of [v4v_fill_ring_data], and the lists of pending notifications. *)

From stdpp Require Import base list numbers gmap.
From Stdlib Require Import ZArith Lia.
From S2P Require Import Prelude Machine V4vTypes V4vRing V4vRingSafe V4vRingSpec.
From S2P Require Import V4vInsert V4vQueue V4vWorld V4vOps V4vInv V4vProps.

Open Scope Z_scope.
Open Scope se_scope.

Section Space.
Context `{E : HostEnv} (g : Z -> Z) {HE : Serves E g}.
Context (mfns : list Z) (L : Z).

(** All the pages of the ring have been found. *)
Definition complete (s : rstate) : Prop := ri_npage (rs_ri s) = zlen mfns.

Lemma get_rx_ptr_spec s q : ring_queue mfns L s q -> complete s ->
  exists s', v4v_ringbuf_get_rx_ptr s = (s', Ok (ring_rx mfns s)) /\ touch s s'.
Proof using HE.
  intros [Hat _ _ _ _] Hc. pose proof Hat as (Hp & _ & Hle & HL).
  pose proof Hp as [Hok Hm]. unfold PAGE_SIZE, sizeof_v4v_ring in *.
  assert (ri_nmfns (rs_ri s) = zlen mfns) as Hn.
  { unfold ring_ok, pages_ok in Hok. rewrite Hm in Hok.
    destruct (ri_mfn_mapping (rs_ri s)); [|done]. by destruct Hok as [-> _]. }
  destruct (map_page_spec g mfns s 0 Hp) as (s' & f & H1 & Hf & Ht); [lia|].
  exists s'. split; [|done]. unfold v4v_ringbuf_get_rx_ptr. unfold bind at 1, gets.
  unfold complete in Hc. rewrite Hn, Hc. destruct (Z.eqb_spec (zlen mfns) 0); [lia|].
  rewrite Z.ltb_irrefl. cbn [orb fail_if]. unfold bind, ret at 1. rewrite H1, read_frame_spec by done.
  unfold ret. do 2 f_equal. destruct Ht as (_ & _ & _ & ->).
  unfold mem_read, ring_rx. f_equal. apply tabulate_ext. intros i Hi. unfold lin, offsetof_rx_ptr in *.
  rewrite Z.div_small, Z.mod_small by (unfold PAGE_SIZE; lia).
  change (Z.to_nat 0) with 0%nat in *. by rewrite Hf.
Qed.

Lemma payload_space_holds d rx tx q : holds d L rx tx q ->
  payload_space L tx rx =
  if decide (q = []) then L - 16 else Z.max 0 (L - queue_size q - 32).
Proof.
  intros Hh. pose proof Hh as [[HL HLm] [Hrx Hrm] Htx Hsz _].
  pose proof (queue_size_bounds q) as [Hq0 Hqm]. unfold V4V_RING_MAX_SIZE in HL.
  pose proof (holds_free_space _ _ _ _ _ Hh) as Hfree.
  unfold payload_space, sizeof_v4v_ring_message_header.
  change (V4V_ROUNDUP 1) with 16. unfold free_space in Hfree.
  pose proof (holds_tx_ok _ _ _ _ _ Hh) as (_ & Htxr & _).
  destruct (Z.eqb_spec rx tx) as [Heq|Hne].
  - assert (queue_size q = 0) as Hz by lia.
    destruct q as [|m q]; [rewrite decide_True by done; apply u32_small; zlia|].
    simpl in Hz. pose proof (msg_size_bounds m). pose proof (queue_size_bounds q). lia.
  - destruct q as [|m q].
    { exfalso. simpl in *. rewrite Z.add_0_r, Z.mod_small in Htx by lia. lia. }
    rewrite decide_False by done. set (qs := queue_size (m :: q)) in *.
    rewrite (s32_small (rx - tx)) by lia.
    assert ((if rx - tx <? 0 then s32 (rx - tx + L) else rx - tx) = L - qs) as ->.
    { rewrite <- Hfree. destruct (Z.ltb_spec (rx - tx) 0).
      - rewrite s32_small, (mod_shift (rx - tx) 1) by lia. lia.
      - symmetry. apply Z.mod_small. lia. }
    rewrite (s32_small (L - qs - 16)), s32_small by lia.
    destruct (Z.ltb_spec (L - qs - 16 - 16) 0); lia.
Qed.

Lemma payload_space_spec s q : ring_queue mfns L s q -> complete s ->
  exists s', v4v_ringbuf_payload_space s =
    (s', Ok (if decide (q = []) then L - 16 else Z.max 0 (L - queue_size q - 32))) /\
    touch s s'.
Proof using HE.
  intros Hq Hc. destruct (get_rx_ptr_spec s q Hq Hc) as (s' & H1 & Ht).
  exists s'. split; [|done]. pose proof (rq_at _ _ _ _ Hq) as (_ & HL & _ & HLr).
  unfold v4v_ringbuf_payload_space. unfold bind at 1, gets. rewrite HL.
  destruct (Z.eqb_spec L 0); [lia|]. unfold recover, bind. rewrite H1.
  unfold ret. rewrite (payload_space_holds _ _ _ _ (rq_holds _ _ _ _ Hq)). done.
Qed.
End Space.

(** C4: the space the hypervisor reports decides whether a message of [n]
    bytes (at least one) would be accepted: exactly, for a ring that is not
    empty; for an empty ring it is 16 bytes more than fit, so that messages of
    [L - 31] to [L - 16] bytes are announced as fitting and refused. *)
Theorem payload_space_exact `{E : HostEnv} (g : Z -> Z) (HE : Serves E g) mfns L s q n :
  ring_queue mfns L s q -> complete mfns s -> 1 <= n ->
  exists s' space, v4v_ringbuf_payload_space s = (s', Ok space) /\
    m_mem (rs_m s') = m_mem (rs_m s) /\
    (n <= space <-> queue_size q + (16 + V4V_ROUNDUP n) < L + (if decide (q = []) then 16 else 0)).
Proof.
  intros Hq Hc Hn. destruct (payload_space_spec g mfns L s q Hq Hc) as (s' & H1 & Ht).
  eexists s', _. split; [exact H1|]. split; [apply Ht|].
  pose proof (rq_holds _ _ _ _ Hq) as [[HL HLm] _ _ Hsz _].
  pose proof (queue_size_bounds q) as [Hq0 Hqm]. rewrite V4V_ROUNDUP_div. case_decide as Hd.
  - subst q. cbn [queue_size] in *. zlia.
  - zlia.
Qed.

(** The ring [shared_ring] after a message of 20 bytes. *)
Definition one_message : rstate :=
  fst (@v4v_ringbuf_insert (plain_env count_up) sender_id 1 1000 20 0 0 shared_ring).

Definition message_20 : message :=
  {| msg_source := id_addr sender_id; msg_protocol := 1;
     msg_payload := tabulate count_up 1000 20 |}.

Lemma one_message_queue : ring_queue [7] 256 one_message [message_20].
Proof.
  destruct (@insert_enqueue (plain_env count_up) count_up (plain_env_serves _ count_up_bytes)
    [7] 256 shared_ring [] sender_id 1 1000 20 0 0) as (s' & H & Hq).
  - apply shared_ring_queue.
  - repeat split; unfold V4V_RING_MAX_SIZE, send_len; simpl; lia.
  - by vm_compute.
  - unfold one_message. by rewrite H.
Qed.

Lemma payload_space_exact_witness :
  exists s' space, @v4v_ringbuf_payload_space (plain_env count_up) one_message =
    (s', Ok space) /\ 176 <= space.
Proof.
  destruct (@payload_space_exact (plain_env count_up) count_up
    (plain_env_serves _ count_up_bytes) [7] 256 one_message [message_20] 176
    one_message_queue ltac:(vm_compute; reflexivity) ltac:(lia))
    as (s' & space & H & _ & Hn).
  exists s', space. split; [exact H|]. apply Hn. vm_compute. reflexivity.
Defined.

(** For an empty ring of [L] bytes the space reported is [L - 16], so
    [v4v_fill_ring_data] answers [SUFFICIENT] for messages of up to [L - 16]
    bytes, while [v4v_ringbuf_insert] refuses every message of more than
    [L - 32] bytes with [-EMSGSIZE]. *)
Theorem empty_ring_space_overstated `{E : HostEnv} (g : Z -> Z) (HE : Serves E g)
    mfns L s src proto buf n :
  ring_queue mfns L s [] -> complete mfns s -> L - 32 < n <= L - 16 ->
  send_ok g src proto n 0 0 ->
  snd (v4v_ringbuf_payload_space s) = Ok (L - 16) /\
  snd (v4v_ringbuf_insert src proto buf n 0 0 s) = Ok (- EMSGSIZE, n).
Proof.
  intros Hq Hc Hn Hok. split.
  - destruct (payload_space_spec g mfns L s [] Hq Hc) as (s' & -> & _). done.
  - pose proof (rq_holds _ _ _ _ Hq) as [[HL HLm] _ _ _ _].
    pose proof (V4V_ROUNDUP_div n) as Hr.
    destruct (insert_full g mfns L s [] src proto buf n 0 0 Hq Hok) as (s' & -> & _).
    + unfold msg_size. rewrite zlen_sent by done. unfold send_len, sizeof_v4v_ring_message_header.
      cbn [Z.eqb queue_size]. zlia.
    + unfold refusal, send_len, sizeof_v4v_ring_message_header. cbn [Z.eqb snd].
      destruct (Z.leb_spec L (V4V_ROUNDUP n + 16)); [done|zlia].
Qed.

Lemma empty_ring_space_overstated_witness :
  snd (@v4v_ringbuf_payload_space (plain_env count_up) shared_ring) = Ok 240 /\
  snd (@v4v_ringbuf_insert (plain_env count_up) sender_id 1 0 240 0 0 shared_ring) =
  Ok (- EMSGSIZE, 240).
Proof.
  apply (@empty_ring_space_overstated (plain_env count_up) count_up
    (plain_env_serves _ count_up_bytes) [7] 256 shared_ring sender_id 1 0 240
    shared_ring_queue).
  - reflexivity.
  - lia.
  - repeat split; unfold V4V_RING_MAX_SIZE, send_len; simpl; lia.
Defined.

(** ** Pending notifications *)

Lemma pending_find_spec p space n :
  v4v_pending_find p space n =
  (List.filter (fun e => space <? ent_len e) p,
   rev (List.filter (fun e => ent_len e <=? space) p) ++ n).
Proof.
  revert n. induction p as [|e p IH]; intros n; simpl; [done|].
  destruct (Z.leb_spec (ent_len e) space), (Z.ltb_spec space (ent_len e)); try lia.
  - rewrite IH. simpl. by rewrite <- app_assoc.
  - by rewrite IH.
Qed.

(** The entry of [x] after a request for [len] bytes. *)
Lemma pending_raise_spec p x len p' : pending_raise p x len = Some p' ->
  (exists e, e ∈ p' /\ ent_id e = x /\ u32 len <= ent_len e) /\
  forall e, ent_id e <> x -> (e ∈ p' <-> e ∈ p).
Proof.
  revert p'. induction p as [|e p IH]; intros p'; simpl; [done|].
  destruct (Z.eqb_spec (ent_id e) x) as [Heq|Hne].
  - intros [= <-]. split.
    + eexists. split; [apply list_elem_of_here|].
      destruct (Z.ltb_spec (ent_len e) (u32 len)); simpl; split; (done || lia).
    + intros e' He'. rewrite !elem_of_cons.
      destruct (ent_len e <? u32 len); simpl; split; intros [->|]; auto; by destruct He'.
  - destruct (pending_raise p x len) as [l|] eqn:El; [|done]. intros [= <-].
    destruct (IH l eq_refl) as [(e0 & He0 & Hid & Hlen) Hoth]. split.
    + exists e0. split; [by apply list_elem_of_further|done].
    + intros e' He'. rewrite !elem_of_cons. by rewrite Hoth.
Qed.

(** [p'] is [p] with an entry of [x] for [len] bytes at least. *)
Definition queued (x len : Z) (p p' : list v4v_pending_ent) : Prop :=
  (exists e, e ∈ p' /\ ent_id e = x /\ len <= ent_len e) /\
  forall e, ent_id e <> x -> (e ∈ p' <-> e ∈ p).

Lemma requeue_queued `{E : HostEnv} x len s s' :
  v4v_pending_requeue x len s = (s', Ok tt) ->
  queued x (u32 len) (ri_pending (rs_ri s)) (ri_pending (rs_ri s')) /\
  rs_ri s' = set_ri_pending (ri_pending (rs_ri s')) (rs_ri s) /\
  m_mem (rs_m s') = m_mem (rs_m s).
Proof.
  unfold v4v_pending_requeue, bind at 1, gets.
  destruct (pending_raise _ _ _) as [p|] eqn:Ep.
  - intros [= <-]. simpl. split; [|done]. by apply pending_raise_spec.
  - unfold v4v_pending_queue, bind, on_machine, zoom, xmalloc, fail_if, ret. simpl.
    destruct (env_xmalloc _); [|done]. intros [= <-]. simpl. split; [|done]. split.
    + eexists. split; [apply list_elem_of_here|]. by simpl.
    + intros e He. rewrite elem_of_cons. split; [|by right].
      intros [->|]; [by destruct He|done].
Qed.

Lemma requeue_no_bug `{E : HostEnv} x len s s' :
  v4v_pending_requeue x len s <> (s', Bug).
Proof.
  unfold v4v_pending_requeue, bind at 1, gets. destruct (pending_raise _ _ _); [done|].
  unfold v4v_pending_queue, bind, on_machine, zoom, xmalloc, fail_if, ret. simpl.
  by destruct (env_xmalloc _).
Qed.

(** A request fails only for want of memory. *)
Lemma requeue_err `{E : HostEnv} x len s s' e :
  v4v_pending_requeue x len s = (s', Err e) ->
  e = - ENOMEM /\ exists t, env_xmalloc t = false.
Proof.
  unfold v4v_pending_requeue, bind at 1, gets. destruct (pending_raise _ _ _); [done|].
  unfold v4v_pending_queue, bind, on_machine, zoom, xmalloc, fail_if, ret. simpl.
  destruct (env_xmalloc _) eqn:Ex; [done|]. intros [= <- <-]. by eauto.
Qed.

(** The list of pending notifications is no part of the queue. *)
Lemma ring_queue_pending mfns L s s' q p : ring_queue mfns L s q ->
  rs_ri s' = set_ri_pending p (rs_ri s) -> m_mem (rs_m s') = m_mem (rs_m s) ->
  ring_queue mfns L s' q.
Proof.
  intros [[[Hok Hm] Hat] Hnd Hh Hl Ht] Hri HM.
  unfold shared_field, ring_rx, rdata in *.
  split; unfold ring_at, has_pages, ring_ok, shared_field, ring_rx, rdata;
    rewrite ?HM, ?Hri; done.
Qed.

(** A sender refused for lack of space is remembered: when [v4v_send]'s
    insertion answers [-EAGAIN] (and not [-ENOMEM]), the ring has a pending
    entry for the sending domain of at least the refused length, the entries
    of all other domains are the ones it had, and the memory of the ring is
    unchanged. *)
Theorem refused_sender_is_queued `{E : HostEnv} (g : Z -> Z) (HE : Serves E g) mfns L s q
    src proto buf len iovs niov s' n :
  ring_queue mfns L s q -> send_ok g src proto len iovs niov ->
  ring_send src proto buf len iovs niov s = (s', Ok (- EAGAIN, n)) ->
  n = send_len g len iovs niov /\
  queued (addr_domain (id_addr src)) n (ri_pending (rs_ri s)) (ri_pending (rs_ri s')) /\
  m_mem (rs_m s') = m_mem (rs_m s) /\ ring_queue mfns L s' q.
Proof.
  intros Hq Hok. unfold ring_send, bind at 1.
  destruct (Z.ltb_spec (queue_size q +
    msg_size (sent_message g src proto buf len iovs niov)) L) as [Hroom|Hroom].
  { destruct (insert_enqueue g mfns L s q src proto buf len iovs niov) as (s1 & -> & _);
      [done..|]. by intros [= _ _]. }
  destruct (insert_full g mfns L s q src proto buf len iovs niov Hq Hok Hroom)
    as (s1 & -> & T1). cbn [fst snd].
  pose proof T1 as (R1 & _ & _ & M1). pose proof (ring_queue_touch mfns L s s1 q T1 Hq) as Hq1.
  unfold refusal. destruct (L <=? _); [by intros [=]|]. cbn [Z.eqb].
  rewrite Z.eqb_refl. unfold bind, code.
  destruct (v4v_pending_requeue _ _ s1) as [s2 [[]|e|]] eqn:Er; [| |done].
  - cbn [Z.eqb]. intros [= <- <-]. split; [done|].
    destruct (requeue_queued _ _ _ _ Er) as (Hqd & Hri & Hm).
    destruct Hok as (_ & Hn & _). unfold V4V_RING_MAX_SIZE in Hn.
    rewrite u32_small in Hqd by lia.
    destruct R1 as (_ & _ & _ & _ & _ & _ & HP). rewrite HP in Hqd.
    split; [done|]. split; [congruence|]. by eapply ring_queue_pending.
  - apply requeue_err in Er as [-> _]. by intros [=].
Qed.

Lemma refused_sender_is_queued_witness :
  let s' := fst (@ring_send (plain_env count_up) sender_id 1 0 200 0 0 one_message) in
  queued 3 200 [] (ri_pending (rs_ri s')).
Proof.
  intros s'.
  assert (snd (@ring_send (plain_env count_up) sender_id 1 0 200 0 0 one_message) =
    Ok (- EAGAIN, 200)) as Hr by (vm_compute; reflexivity).
  destruct (@refused_sender_is_queued (plain_env count_up) count_up
    (plain_env_serves _ count_up_bytes) [7] 256 one_message [message_20]
    sender_id 1 0 200 0 0 s' 200) as (_ & H & _).
  - apply one_message_queue.
  - repeat split; unfold V4V_RING_MAX_SIZE, send_len; simpl; lia.
  - subst s'. destruct (ring_send _ _ _ _ _ _ _) as [s2 r]. simpl in *. by rewrite Hr.
  - exact H.
Defined.

(** C7: when the owner of a well-formed ring asks for notifications
    ([v4v_notify_ring]), the pending entries are divided exactly: an entry for
    [k] bytes leaves the ring and its domain is signalled when a message of
    [max 1 k] bytes would now be accepted, or would be with 16 bytes more in an
    empty ring (the space an empty ring reports is 16 bytes too large); every
    other entry stays; nobody else is signalled and the messages in the ring stay.
    So no entry of at least one byte stays when its message would be accepted;
    one of no bytes, as a ring without length records them, stays as long as
    only an empty message would be. *)
Theorem notify_ring_wakes `{E : HostEnv} (g : Z -> Z) (HE : Serves E g) mfns L s q n :
  ring_queue mfns L s q -> complete mfns s ->
  exists s' n', v4v_notify_ring n s = (s', Ok n') /\ ring_queue mfns L s' q /\
    let room e := queue_size q + (16 + V4V_ROUNDUP (Z.max 1 (ent_len e))) <
                  L + (if decide (q = []) then 16 else 0) in
    (forall e, e ∈ ri_pending (rs_ri s') <-> e ∈ ri_pending (rs_ri s) /\ ~ room e) /\
    (forall e, e ∈ n' <-> e ∈ n \/ e ∈ ri_pending (rs_ri s) /\ room e).
Proof.
  intros Hq Hc. destruct (payload_space_spec g mfns L s q Hq Hc) as (s1 & H1 & T1).
  set (space := if decide (q = []) then _ else _) in H1.
  pose proof (rq_at _ _ _ _ Hq) as (_ & HL & _ & _).
  pose proof (rq_holds _ _ _ _ Hq) as [[HLr HLm] _ _ Hsz _].
  pose proof (queue_size_bounds q) as [Hq0 Hqm].
  pose proof (ring_queue_touch mfns L s s1 q T1 Hq) as Hq1.
  destruct T1 as ((_ & _ & _ & _ & _ & _ & HP) & _).
  set (room := fun e : v4v_pending_ent => _ < _).
  assert (forall e, room e <-> space <> 0 /\ ent_len e <= space) as Hsp.
  { intros e. subst space. unfold room. rewrite V4V_ROUNDUP_div. case_decide as Hd.
    - subst q. cbn [queue_size] in *. zlia.
    - zlia. }
  unfold v4v_notify_ring. unfold bind at 1, gets. rewrite HL.
  destruct (Z.eqb_spec L 0); [lia|]. unfold bind at 1. rewrite H1.
  destruct (Z.eqb_spec space 0) as [Hz|Hz].
  - exists s1, n. split; [done|]. split; [done|]. rewrite HP. cbv zeta.
    split; intros e; rewrite (Hsp e); tauto.
  - unfold bind, gets. rewrite pending_find_spec, HP. eexists _, _. split; [done|].
    split; [by eapply ring_queue_pending|]. cbn [rs_ri ri_pending set_ri_pending]. cbv zeta.
    split; intros e; rewrite (Hsp e).
    + rewrite list_elem_of_In, filter_In, <- list_elem_of_In, Z.ltb_lt. intuition lia.
    + rewrite elem_of_app, list_elem_of_In, <- in_rev, filter_In, <- list_elem_of_In, Z.leb_le.
      tauto.
Qed.

(** The ring [shared_ring] with two domains waiting. *)
Definition waiting_ring : rstate :=
  {| rs_m := rs_m shared_ring;
     rs_ri := set_ri_pending [{| ent_id := 3; ent_len := 100 |};
                              {| ent_id := 4; ent_len := 250 |}] (rs_ri shared_ring) |}.

Lemma waiting_ring_queue : ring_queue [7] 256 waiting_ring [].
Proof. by eapply ring_queue_pending; [apply shared_ring_queue|..]. Qed.

Lemma notify_ring_wakes_witness :
  exists s' n', @v4v_notify_ring (plain_env count_up) [] waiting_ring = (s', Ok n') /\
    {| ent_id := 3; ent_len := 100 |} ∈ n'.
Proof.
  destruct (@notify_ring_wakes (plain_env count_up) count_up
    (plain_env_serves _ count_up_bytes) [7] 256 waiting_ring [] []
    waiting_ring_queue eq_refl) as (s' & n' & H & _ & _ & Hw).
  exists s', n'. split; [exact H|]. apply Hw. right. split.
  - apply list_elem_of_here.
  - vm_compute. reflexivity.
Defined.

(** the answer of [v4v_fill_ring_data] for a well-formed ring: the largest
    message is [L - 32]; the flags are [EXISTS] with [SUFFICIENT] or
    [PENDING], and never [EMPTY], not even for an empty ring; with
    [SUFFICIENT] the asking domain has no pending entry left, with [PENDING]
    and memory for an entry it has one for at least the length asked for. *)
Theorem ring_data_answer `{E : HostEnv} (g : Z -> Z) (HE : Serves E g) mfns L s q x req :
  ring_queue mfns L s q -> complete mfns s -> 48 <= L -> 0 <= req < 2 ^ 32 ->
  (forall t, env_xmalloc t = true) ->
  let space := if decide (q = []) then L - 16 else Z.max 0 (L - queue_size q - 32) in
  exists s', ring_data_of x req s =
    (s', Ok (if req <=? space
             then Z.lor V4V_RING_DATA_F_EXISTS V4V_RING_DATA_F_SUFFICIENT
             else Z.lor V4V_RING_DATA_F_EXISTS V4V_RING_DATA_F_PENDING, L - 32)) /\
    ring_queue mfns L s' q /\
    (if req <=? space then forall e, e ∈ ri_pending (rs_ri s') -> ent_id e <> x
     else queued x req (ri_pending (rs_ri s)) (ri_pending (rs_ri s'))).
Proof.
  intros Hq Hc HL48 Hreq Hmem space.
  destruct (payload_space_spec g mfns L s q Hq Hc) as (s1 & H1 & T1). fold space in H1.
  pose proof (rq_at _ _ _ _ Hq) as (_ & HL & _ & HLr). unfold V4V_RING_MAX_SIZE in HLr.
  pose proof (ring_queue_touch mfns L s s1 q T1 Hq) as Hq1.
  destruct T1 as ((_ & _ & _ & _ & _ & _ & HP) & _).
  assert ((space =? u32 (L - sizeof_v4v_ring_message_header - V4V_ROUNDUP 1)) = false)
    as Hne.
  { unfold sizeof_v4v_ring_message_header. change (V4V_ROUNDUP 1) with 16.
    rewrite u32_small by lia. apply Z.eqb_neq. subst space. case_decide as Hd; [lia|].
    destruct q as [|m q]; [done|]. cbn [queue_size].
    pose proof (msg_size_bounds m). pose proof (queue_size_bounds q). lia. }
  assert (u32 (L - sizeof_v4v_ring_message_header - V4V_ROUNDUP 1) = L - 32) as Hmax.
  { unfold sizeof_v4v_ring_message_header. change (V4V_ROUNDUP 1) with 16.
    rewrite u32_small; lia. }
  unfold ring_data_of. unfold bind at 1, gets. rewrite HL. unfold bind at 1. rewrite H1.
  destruct (Z.leb_spec req space).
  - unfold bind, v4v_pending_cancel, set_ring, modify, ret. rewrite Hne, Hmax.
    eexists. split; [done|]. split; [by eapply ring_queue_pending|].
    cbn [rs_ri ri_pending set_ri_pending]. intros e He.
    rewrite list_elem_of_In, filter_In, negb_true_iff, Z.eqb_neq in He. tauto.
  - unfold bind, code.
    destruct (v4v_pending_requeue x req s1) as [s2 [[]|e|]] eqn:Er.
    + unfold ret. rewrite Hne, Hmax. exists s2. split; [done|].
      destruct (requeue_queued _ _ _ _ Er) as (Hqd & Hri & Hm).
      rewrite u32_small, HP in Hqd by lia. split; [by eapply ring_queue_pending|done].
    + apply requeue_err in Er as (_ & t & Ht). by rewrite Hmem in Ht.
    + by apply requeue_no_bug in Er.
Qed.

Lemma ring_data_answer_witness :
  exists s', @ring_data_of (plain_env count_up) 3 100 shared_ring =
    (s', Ok (Z.lor V4V_RING_DATA_F_EXISTS V4V_RING_DATA_F_SUFFICIENT, 224)) /\
    ring_queue [7] 256 s' [].
Proof.
  destruct (@ring_data_answer (plain_env count_up) count_up
    (plain_env_serves _ count_up_bytes) [7] 256 shared_ring [] 3 100
    shared_ring_queue eq_refl ltac:(lia) ltac:(lia) ltac:(done)) as (s' & H & Hq & _).
  exists s'. split; [exact H|exact Hq].
Defined.

(** ** Lengths that are not lengths *)

Section BadLength.
Context `{E : HostEnv}.
Local Abbreviation same_tx t := (fun r : v4v_ring_info => ri_tx_ptr r = t).

(** The loop refuses a length that is not one of a message. *)
Lemma insert_loop_bad_len iovs buf len tx s :
  V4V_MAX_RING_SIZE < u32 len ->
  insert_loop 0 iovs buf len tx s = (s, Err (- EINVAL)).
Proof.
  intros Hb. cbn [insert_loop]. unfold bind at 1, ret at 1.
  destruct (Z.ltb_spec V4V_MAX_RING_SIZE (u32 len)); [done|lia].
Qed.

Local Abbreviation nonzero := (fun e : Z => e <> 0).

Lemma map_page_errors i : errors nonzero (v4v_ring_map_page i).
Proof.
  unfold v4v_ring_map_page, set_ring, on_machine. se_errors.
  all: first [by apply errors_fail | by apply errors_zoom].
Qed.

Lemma page_loop_errors {A} (chunk : Z -> Z -> Z -> A -> SE rstate A) fuel :
  (forall page off n acc, errors nonzero (chunk page off n acc)) ->
  forall page off n acc, errors nonzero (page_loop chunk fuel page off n acc).
Proof. intros Hc. induction fuel; intros; cbn [page_loop]; se_errors. Qed.

Lemma memcpy_from_errors o n : errors nonzero (v4v_memcpy_from_guest_ring o n).
Proof. apply page_loop_errors. pose proof map_page_errors. unfold on_machine. se_errors. Qed.
Lemma memcpy_to_errors o src n : errors nonzero (v4v_memcpy_to_guest_ring o src n).
Proof.
  apply errors_bind; [|se_errors]. apply page_loop_errors. pose proof map_page_errors.
  unfold on_machine. se_errors.
Qed.

(** Nothing is committed before the length is looked at. *)
Lemma insert_message_bad_len src proto buf len iovs s : ring_ok s ->
  V4V_MAX_RING_SIZE < u32 len ->
  exists s' e, insert_message src proto buf len iovs 0 s = (s', Err e) /\ e <> 0 /\
    ri_tx_ptr (rs_ri s') = ri_tx_ptr (rs_ri s).
Proof.
  intros Hok Hbad. set (P := fun r : v4v_ring_info => ri_tx_ptr r = ri_tx_ptr (rs_ri s)).
  assert (forall mm r, P r -> P (set_ri_mapping mm r)) as HP by done.
  pose proof (u32_range) as Hu. unfold insert_message. unfold bind at 1.
  pose proof (memcpy_from_keeps P HP 0 sizeof_v4v_ring s eq_refl) as K1.
  pose proof (memcpy_from_errors 0 sizeof_v4v_ring s) as E1.
  destruct (memcpy_from_safe 0 sizeof_v4v_ring ltac:(lia) ltac:(done) s Hok)
    as (Hok1 & _ & B1).
  destruct (v4v_memcpy_from_guest_ring _ _ s) as [s1 [bs|e|]]; cbn [fst snd] in *;
    [|by exists s1, e|done].
  unfold bind at 1, gets. cbv zeta.
  destruct (_ <=? message_size len); [by eexists s1, _|].
  unfold bind at 1. cbn [fail_if]. unfold ret at 1. unfold bind at 1.
  set (tx := u32 (_ + sizeof_v4v_ring)). set (hdr := bytes_of_message_header _).
  pose proof (memcpy_to_keeps P HP tx hdr sizeof_v4v_ring_message_header s1 K1) as K2.
  pose proof (memcpy_to_errors tx hdr sizeof_v4v_ring_message_header s1) as E2.
  destruct (memcpy_to_safe tx hdr sizeof_v4v_ring_message_header (proj1 (Hu _))
    ltac:(done) s1 Hok1) as (_ & _ & B2).
  destruct (v4v_memcpy_to_guest_ring _ _ _ s1) as [s2 [[]|e|]]; cbn [fst snd] in *;
    [|by exists s2, e|done].
  unfold bind at 1. rewrite insert_loop_bad_len by done. by eexists s2, _.
Qed.
End BadLength.

(** C9: [len] is the 32-bit signed length of [V4VOP_send].  Whatever the
    environment does, a length that is negative or larger than the largest
    ring is refused with an error, also where the size of the message wraps
    round to a small number ([len] from [-31] to [-1]); [tx_ptr] stays where
    it was, so nothing is delivered. *)
Theorem bad_length_not_committed `{E : HostEnv} s src proto buf len iovs :
  ring_ok s -> - 2 ^ 31 <= len < 2 ^ 31 -> len < 0 \/ V4V_RING_MAX_SIZE < len ->
  exists s' r n, v4v_ringbuf_insert src proto buf len iovs 0 s = (s', Ok (r, n)) /\
    r <> 0 /\ ri_tx_ptr (rs_ri s') = ri_tx_ptr (rs_ri s).
Proof.
  intros Hok Hr Hbad.
  assert (V4V_MAX_RING_SIZE < u32 len) as Hu.
  { unfold V4V_MAX_RING_SIZE, V4V_RING_MAX_SIZE, u32 in *.
    destruct Hbad; [|rewrite Z.mod_small; lia].
    rewrite <- (Z_mod_plus_full len 1), Z.mod_small; lia. }
  unfold v4v_ringbuf_insert. unfold bind at 1, gets.
  destruct (ri_len (rs_ri s) =? 0); [by eexists s, _, _|].
  unfold bind at 1. cbn [Z.eqb]. unfold ret at 1. cbn [negb andb].
  destruct (_ <=? message_size len); [by eexists s, _, _|].
  destruct (insert_message_bad_len src proto buf len iovs s Hok Hu)
    as (s' & e & He & Hne & Htx).
  unfold bind, code. change (Z.to_nat 0) with 0%nat. rewrite He. by exists s', e, len.
Qed.

Lemma bad_length_not_committed_witness :
  exists s' r n, @v4v_ringbuf_insert (plain_env count_up) sender_id 1 0 (-16) 0 0
    (small_ring 0) = (s', Ok (r, n)) /\ r <> 0 /\ ri_tx_ptr (rs_ri s') = 0.
Proof.
  exact (@bad_length_not_committed (plain_env count_up) (small_ring 0) sender_id 1 0 (-16) 0
    (small_ring_ok 0) ltac:(lia) ltac:(lia)).
Defined.
