(* ===== verification/V4vSystem.v ===== *)
(** * V4V: properties of the hypercalls

    The invariant of all tables, who may reach whose ring, the references on
    the pages of rings, registration, and the signals that leave the
    component. *)

From stdpp Require Import base list numbers gmap.
From Stdlib Require Import ZArith Lia.
From S2P Require Import Prelude Machine V4vTypes V4vRing V4vRingSafe V4vRingSpec V4vInsert V4vQueue V4vWorld V4vOps.
From S2P Require Import V4vInv V4vTable V4vWorldInv V4vLife V4vProps V4vSpace.

Open Scope Z_scope.
Open Scope se_scope.

(** ** A concrete system

    The host (domain 0) and two guests, 3 and 4, each with an empty table. *)

Definition empty_table : v4v_domain :=
  {| ring_hash := replicate (Z.to_nat V4V_HTABLE_SIZE) [] |}.

Definition plain_domain (k : Z) : domain :=
  {| domain_id := k; dom_destroyed := false; is_dying := false;
     shutdown_crash := false; v4v_token := [k]; d_v4v := Some empty_table |}.

Definition plain_world : world :=
  {| w_m := {| m_time := 0; m_mem := fun _ _ => 0; m_refs := fun _ => 0; m_log := [] |};
     w_doms := <[0 := plain_domain 0]> (<[3 := plain_domain 3]>
                 (<[4 := plain_domain 4]> ∅));
     w_domlist := [0; 3; 4] |}.

Definition host_caller : caller :=
  {| cur_domain := 0; cur_privileged := true; cur_sys_privileged := true;
     cur_target := None |}.
Definition guest_caller (k : Z) : caller :=
  {| cur_domain := k; cur_privileged := false; cur_sys_privileged := false;
     cur_target := None |}.

Lemma plain_world_ok : world_ok plain_world.
Proof.
  intros k d. unfold plain_world. simpl. rewrite !lookup_insert_Some, lookup_empty.
  intros [[<- <-]|[_ [[<- <-]|[_ [[<- <-]|[_ ?]]]]]]; [| | |done];
    (split; [done|]; split; [done|]; intros ? [= <-]; apply empty_table_ok).
Qed.

(** The memory of a caller that has a ring header of 256 bytes for port 5 and
    partner [p] at 0x10000, the list of its only page, 7, at 0x20000, the
    address (port 5, domain [p]) at 0x30000 and data at 0x40000. *)
Definition caller_memory (p : Z) (a : Z) : Z :=
  let header := le_bytes 8 V4V_RING_MAGIC
                ++ bytes_of_v4v_ring_id {| id_addr := {| addr_port := 5; addr_domain := 0 |};
                                           partner := p |}
                ++ le_bytes 4 256 ++ le_bytes 4 0 ++ le_bytes 4 0 in
  let pages := le_bytes 8 V4V_PFN_LIST_MAGIC ++ le_bytes 4 1 ++ replicate 28 0
               ++ le_bytes 8 7 in
  let addr := bytes_of_v4v_addr {| addr_port := 5; addr_domain := p |} in
  if (0x10000 <=? a) && (a <? 0x20000) then znth header (a - 0x10000)
  else if (0x20000 <=? a) && (a <? 0x30000) then znth pages (a - 0x20000)
  else if (0x30000 <=? a) && (a <? 0x40000) then znth addr (a - 0x30000)
  else a mod 256.

Lemma znth_bytes l i : Forall (fun b => 0 <= b < 256) l -> 0 <= znth l i < 256.
Proof.
  intros Hl. unfold znth. destruct (l !! Z.to_nat i) eqn:El; simpl; [|lia].
  by eapply Forall_lookup_1 in Hl.
Qed.

Lemma le_bytes_bytes n z : Forall (fun b => 0 <= b < 256) (le_bytes n z).
Proof.
  revert z. induction n; intros; simpl; constructor; [|done].
  by apply Z.mod_pos_bound.
Qed.

Lemma caller_memory_bytes p : byte_memory (caller_memory p).
Proof.
  intros a. unfold caller_memory, bytes_of_v4v_ring_id, bytes_of_v4v_addr.
  pose proof le_bytes_bytes as Hb.
  assert (Forall (fun b => 0 <= b < 256) (replicate 28 0)) by (apply Forall_replicate; lia).
  repeat case_match; [apply znth_bytes; repeat (apply Forall_app; split); auto..|].
  by apply Z.mod_pos_bound.
Qed.

(** ** The invariant *)

(** C10: from any state in which the tables are well formed and the caller is a
    domain, no hypercall, with any command and any arguments, whatever the
    guest's memory holds and the copies, mappings and allocations answer, stops
    the hypervisor ([BUG], a failed assertion, a null pointer, an access outside of a page, running
    out of fuel), on two conditions: [ui_running] is set, as the host's drivers
    keep it from the start of the hypervisor until they have shut it down (without it every
    signal to a domain is a [BUG]), and an allocation for [V4VOP_create_ring]
    does not fail; and the tables are well formed afterwards, whether the
    hypercall succeeds or not. *)
Theorem hypercall_safe `{E : HostEnv} (HO : HostEnvOk E) c cmd a1 a2 a3 a4 a5 w :
  env_ui_running = true ->
  (cmd = V4VOP_create_ring -> forall t, env_xmalloc t = true) ->
  world_ok w -> is_Some (w_doms w !! cur_domain c) ->
  let '(w', r) := do_v4v_op c cmd a1 a2 a3 a4 a5 w in
  r <> Bug /\ world_ok w' /\ is_Some (w_doms w' !! cur_domain c).
Proof.
  intros Hrun Hmem Hw [d Hd].
  destruct (do_v4v_op_sound c Hrun cmd a1 a2 a3 a4 a5 Hmem w) as ((H1 & d' & H2 & _) & _ & H3).
  - split; [done|]. by exists d.
  - destruct (do_v4v_op _ _ _ _ _ _ _ w) as [w' r]. simpl in *. rewrite H2. by eauto.
Qed.

Lemma hypercall_safe_witness :
  let '(w', r) := @do_v4v_op (plain_env (caller_memory 3)) host_caller
    V4VOP_register_ring 0x10000 0x20000 0 0 0 plain_world in
  r <> Bug /\ world_ok w' /\ is_Some (w_doms w' !! 0).
Proof.
  apply (@hypercall_safe (plain_env (caller_memory 3))
    (plain_env_ok _ (caller_memory_bytes 3)) host_caller).
  - reflexivity.
  - discriminate.
  - apply plain_world_ok.
  - exists (plain_domain 0). reflexivity.
Defined.

(** C11: in every state the system can reach from boot, while [ui_running] is set, by any sequence of
    hypercalls of any domains, initialisation, destruction, suspension and
    resumption of domains and changes outside of the V4V code, every table
    has its 32 chains, every ring is in the chain its id hashes to and only
    once, carries its domain's id, has consistent page arrays, a length and a
    [tx_ptr] that are multiples of 16 in range, and one pending notification
    for a domain at most. *)
Theorem reachable_tables_ok `{E : HostEnv} (HO : HostEnvOk E) w k d vd i l ri :
  env_ui_running = true -> reachable w ->
  w_doms w !! k = Some d -> d_v4v d = Some vd ->
  ring_hash vd !! i = Some l -> ri ∈ l ->
  length (ring_hash vd) = 32%nat /\ Z.to_nat (v4v_hash_fn (ri_id ri)) = i /\
  NoDup (map ri_id l) /\ addr_domain (id_addr (ri_id ri)) = k /\
  pages_ok ri /\ ring_fields_ok ri.
Proof.
  intros Hrun Hre Hd Hvd Hl Hri.
  destruct (reachable_ok Hrun w Hre k d Hd) as (_ & _ & Ht).
  destruct (Ht vd Hvd) as [Hlen Hch]. destruct (Hch i l Hl) as [Hnd Hall].
  rewrite Forall_forall in Hall. destruct (Hall ri Hri) as [Hh (Hdom & Hp & Hf)]. done.
Qed.

(** Boot, three domains, V4V state for domain 0, a ring of it. *)
Definition bare_world : world :=
  {| w_m := w_m plain_world; w_doms := set_d_v4v None <$> w_doms plain_world;
     w_domlist := [0; 3; 4] |}.
Definition host_ring_world : world :=
  fst (@do_v4v_op (plain_env (caller_memory 3)) host_caller V4VOP_register_ring
         0x10000 0x20000 0 0 0 (fst (@v4v_init (plain_env (caller_memory 3)) 0 bare_world))).

Lemma host_ring_reachable : @reachable (plain_env (caller_memory 3)) host_ring_world.
Proof.
  unfold host_ring_world. set (w1 := fst (v4v_init 0 bare_world)).
  apply (reach_step w1); [apply (reach_step bare_world)|].
  - eapply reach_step; [apply (reach_boot {| w_m := w_m plain_world; w_doms := ∅;
      w_domlist := [] |}); done|].
    apply step_outside. intros k d'. unfold bare_world. cbn [w_doms].
    rewrite lookup_fmap_Some. intros (d & <- & Hd).
    destruct (plain_world_ok k d Hd) as (Hid & Hr & _). split; [done|].
    split; [done|]. by left.
  - apply (step_init 0 _ _ (Ok tt)); [|done]. by vm_compute.
  - apply (step_op host_caller V4VOP_register_ring 0x10000 0x20000 0 0 0 _ _ (Ok 0));
      [| |done].
    + exists (plain_domain 0). by vm_compute.
    + by vm_compute.
Qed.

(** The domain 0 of that state, and its ring. *)
Definition host_domain : domain :=
  default (plain_domain 0) (w_doms host_ring_world !! 0).
Definition host_table : v4v_domain := default empty_table (d_v4v host_domain).

Lemma reachable_tables_ok_witness :
  exists i l ri, ring_hash host_table !! i = Some l /\ ri ∈ l /\
    Z.to_nat (v4v_hash_fn (ri_id ri)) = i /\ ring_fields_ok ri.
Proof.
  assert (exists ri, ring_hash host_table !! 6%nat = Some [ri]) as [ri Hri]
    by (eexists; vm_compute; reflexivity).
  destruct (@reachable_tables_ok (plain_env (caller_memory 3))
    (plain_env_ok _ (caller_memory_bytes 3)) host_ring_world 0 host_domain host_table
    6 [ri] ri eq_refl host_ring_reachable) as (_ & Hh & _ & _ & _ & Hf).
  - vm_compute. reflexivity.
  - vm_compute. reflexivity.
  - exact Hri.
  - apply list_elem_of_here.
  - exists 6%nat, [ri], ri. split; [exact Hri|]. split; [apply list_elem_of_here|].
    split; [exact Hh|exact Hf].
Defined.

(** ** The table *)

(** the hash table is a finite map from ring ids to records: after linking
    a new record, storing a changed one or unlinking one, the lookup of an id
    gives what a map would, for every id; and each of them keeps the table
    well formed. *)
Theorem table_is_a_map did vd ri id : table_ok did vd ->
  v4v_ring_find_info (ring_link ri vd) id =
    (if decide (ri_id ri = id) then Some ri else v4v_ring_find_info vd id) /\
  v4v_ring_find_info (ring_store ri vd) id =
    (if decide (ri_id ri = id) then option_map (fun _ => ri) (v4v_ring_find_info vd id)
     else v4v_ring_find_info vd id) /\
  v4v_ring_find_info (ring_unlink (ri_id ri) vd) id =
    (if decide (ri_id ri = id) then None else v4v_ring_find_info vd id) /\
  (ri_ok did ri -> table_ok did (ring_store ri vd)) /\
  (ri_ok did ri -> v4v_ring_find_info vd (ri_id ri) = None ->
     table_ok did (ring_link ri vd)) /\
  table_ok did (ring_unlink (ri_id ri) vd).
Proof.
  intros Ht. split; [by apply (find_ring_link did)|].
  split; [by apply (find_ring_store did)|]. split; [by apply (find_ring_unlink did)|].
  split; [by apply ring_store_ok|]. split; [by apply ring_link_ok|].
  by apply ring_unlink_ok.
Qed.

Lemma table_is_a_map_witness :
  let id := {| id_addr := {| addr_port := 5; addr_domain := 0 |}; partner := 3 |} in
  v4v_ring_find_info (ring_link (new_ring_info id) empty_table) id =
  Some (new_ring_info id).
Proof.
  intros id. destruct (table_is_a_map 0 empty_table (new_ring_info id) id
    (empty_table_ok 0)) as (H & _).
  rewrite H. vm_compute. reflexivity.
Defined.

(** ** Channels *)

(** A guest's channel: to the device model, or refused. *)
Lemma validate_channel_guest c s_id d_id flags w :
  0 <= cur_domain c < V4V_DOMID_SELF -> IS_HOST (cur_domain c) = false ->
  v4v_validate_channel c s_id d_id flags w = (w, Ok (cur_domain c, v4v_dm_domid)) /\
    d_id = V4V_DOMID_DM \/
  v4v_validate_channel c s_id d_id flags w = (w, Err (- EPERM)) /\
    (s_id = V4V_DOMID_ANY \/ s_id = cur_domain c -> d_id <> V4V_DOMID_DM).
Proof.
  intros Hc Hh. unfold v4v_validate_channel. rewrite Hh. unfold bind, fail_if, ret, fail.
  destruct (Z.eqb_spec s_id V4V_DOMID_ANY) as [->|].
  - rewrite Z.eqb_refl. cbn [negb]. destruct (Z.eqb_spec d_id V4V_DOMID_DM); [|by right].
    destruct (Z.leb_spec V4V_DOMID_SELF (cur_domain c)); [lia|]. by left.
  - destruct (Z.eqb_spec s_id (cur_domain c)) as [->|]; cbn [negb].
    + destruct (Z.eqb_spec d_id V4V_DOMID_DM); [|by right].
      destruct (Z.leb_spec V4V_DOMID_SELF (cur_domain c)); [lia|]. by left.
    + right. split; [done|]. by intros [].
Qed.

(** for a guest, [v4v_validate_channel] accepts exactly the channel from
    the guest itself (or [ANY]) to [V4V_DOMID_DM], as the pair (own id,
    domain 0), and refuses every other pair with [-EPERM]; for the host it
    leaves the ids as they are, refuses reserved ids other than [ANY], and
    without pre-authorisation requires that the destination exists, is not
    the caller and is a domain the caller has privilege for. *)
Theorem validate_channel_decides c s_id d_id flags w :
  0 <= cur_domain c < V4V_DOMID_SELF ->
  (IS_HOST (cur_domain c) = false ->
   v4v_validate_channel c s_id d_id flags w =
     (w, if ((s_id =? V4V_DOMID_ANY) || (s_id =? cur_domain c)) && (d_id =? V4V_DOMID_DM)
         then Ok (cur_domain c, v4v_dm_domid) else Err (- EPERM))) /\
  (IS_HOST (cur_domain c) = true -> forall ids,
   v4v_validate_channel c s_id d_id flags w = (w, Ok ids) <->
     ids = (s_id, d_id) /\
     (s_id < V4V_DOMID_SELF \/ s_id = V4V_DOMID_ANY) /\
     (d_id < V4V_DOMID_SELF \/ d_id = V4V_DOMID_ANY) /\
     (Z.land flags V4V_VALIDATE_PREAUTH = 0 ->
      exists d, rcu_lock_domain_by_id w d_id = Some d /\ domain_id d <> cur_domain c /\
                IS_PRIV_FOR c (domain_id d) = true)).
Proof.
  intros Hc. split; intros Hh; unfold v4v_validate_channel; rewrite Hh.
  - unfold bind, fail_if, ret, fail.
    destruct (Z.eqb_spec s_id V4V_DOMID_ANY) as [->|]; cbn [orb].
    + rewrite Z.eqb_refl. cbn [negb]. destruct (d_id =? V4V_DOMID_DM); [|done].
      destruct (Z.leb_spec V4V_DOMID_SELF (cur_domain c)); [lia|]. done.
    + destruct (Z.eqb_spec s_id (cur_domain c)) as [->|]; cbn [negb andb]; [|done].
      destruct (d_id =? V4V_DOMID_DM); [|done].
      destruct (Z.leb_spec V4V_DOMID_SELF (cur_domain c)); [lia|]. done.
  - intros ids. unfold rcu_lock_remote_target_domain_by_id, bind, fail_if, ret, fail, get.
    destruct (Z.eqb_spec (Z.land flags V4V_VALIDATE_PREAUTH) 0) as [Hp|Hp];
      [destruct (rcu_lock_domain_by_id w d_id) as [d|];
        [destruct (Z.eqb_spec (domain_id d) (cur_domain c)) as [He|He]; cbn [orb];
          [|destruct (IS_PRIV_FOR c (domain_id d)) eqn:Epr; cbn [negb]]|]|];
      destruct (Z.leb_spec V4V_DOMID_SELF s_id), (Z.eqb_spec s_id V4V_DOMID_ANY),
        (Z.leb_spec V4V_DOMID_SELF d_id), (Z.eqb_spec d_id V4V_DOMID_ANY); cbn [negb andb];
      (split; [intros [= <-]; repeat split; auto; intros; eauto; lia|]);
      intros (-> & Hs & Hd & Hpp); try done; try lia;
      destruct (Hpp Hp) as (d' & [= <-] & ? & ?) || destruct (Hpp Hp) as (? & [=] & _);
      congruence.
Qed.

Lemma validate_channel_decides_witness :
  v4v_validate_channel (guest_caller 3) V4V_DOMID_ANY V4V_DOMID_DM 0 plain_world =
    (plain_world, Ok (3, 0)) /\
  v4v_validate_channel (guest_caller 3) 3 4 0 plain_world = (plain_world, Err (- EPERM)).
Proof.
  destruct (validate_channel_decides (guest_caller 3) V4V_DOMID_ANY V4V_DOMID_DM 0
    plain_world ltac:(by vm_compute)) as [H1 _].
  destruct (validate_channel_decides (guest_caller 3) 3 4 0 plain_world
    ltac:(by vm_compute)) as [H2 _].
  split; [rewrite H1; reflexivity|rewrite H2; reflexivity].
Defined.

(** ** Isolation of a guest's send *)

(** A ring that the domain [from] has sent to: the same ring, but for the
    mappings, [tx_ptr] and the notifications that [from] waits for. *)
Definition ring_sent_to (from : Z) (r r' : v4v_ring_info) : Prop :=
  ri_id r' = ri_id r /\ ri_len r' = ri_len r /\ ri_ring r' = ri_ring r /\
  ri_npage r' = ri_npage r /\ ri_nmfns r' = ri_nmfns r /\ ri_mfns r' = ri_mfns r /\
  forall e, ent_id e <> from -> (e ∈ ri_pending r' <-> e ∈ ri_pending r).

(** Memory outside the pages of the ring and the references are as they were. *)
Definition contained (from : Z) (s s' : rstate) : Prop :=
  ring_sent_to from (rs_ri s) (rs_ri s') /\
  (forall f o, f ∉ frames (rs_ri s) \/ ~ 0 <= o < PAGE_SIZE -> m_mem (rs_m s') f o = m_mem (rs_m s) f o) /\
  m_refs (rs_m s') = m_refs (rs_m s).

#[export] Instance contained_preorder from : PreOrder (contained from).
Proof.
  split; [by intros s|].
  intros s1 s2 s3 ((I1 & I2 & I3 & I4 & I5 & F12 & P12) & M12 & R12) ((J1 & J2 & J3 & J4 & J5 & F23 & P23) & M23 & R23).
  split; [|split; [|congruence]].
  - unfold ring_sent_to. split_and!; [congruence..|]. intros e He. by rewrite P23, P12.
  - intros f o Hf. rewrite M23, M12; [done|done|]. unfold frames in *. by rewrite F12.
Qed.

Section SendIsolation.
Context `{E : HostEnv}.

Lemma requeue_contained x len : safe ring_ok (contained x) (v4v_pending_requeue x len).
Proof.
  intros s Hs. destruct (v4v_pending_requeue x len s) as [s' [[]|e|]] eqn:Er.
  - destruct (requeue_queued _ _ _ _ Er) as ([_ Hoth] & Hri & Hm).
    assert (m_refs (rs_m s') = m_refs (rs_m s)) as Hr.
    { revert Er. unfold v4v_pending_requeue, v4v_pending_queue, bind, gets, on_machine, zoom, xmalloc, fail_if, ret.
      destruct (pending_raise _ _ _); simpl; [by intros [= <-]|]. destruct (env_xmalloc _); [by intros [= <-]|done]. }
    cbn [fst snd]. split; [unfold ring_ok; by rewrite Hri|]. split; [|done]. split; [|by rewrite Hm].
    unfold ring_sent_to. split_and!; [by rewrite Hri..|done].
  - revert Er. unfold v4v_pending_requeue, v4v_pending_queue, bind, gets, on_machine, zoom, xmalloc, fail_if, ret.
    destruct (pending_raise _ _ _); simpl; [done|]. destruct (env_xmalloc _); [done|]. intros [= <- <-]. by repeat split.
  - by apply requeue_no_bug in Er.
Qed.

Lemma ring_send_contained src proto buf len iovs niov :
  safe ring_ok (contained (addr_domain (id_addr src))) (ring_send src proto buf len iovs niov).
Proof.
  pose proof requeue_contained as Hr. unfold ring_send. apply safe_bind; [apply _| |].
  - intros s Hs. destruct (insert_safe src proto buf len iovs niov s Hs) as (H1 & H2 & H3).
    split; [done|]. split; [|done]. destruct H2 as ((Hi & H4 & H5 & H6 & H7 & Hm & HP) & HM & HR & _).
    split; [|done]. unfold ring_sent_to. split_and!; [done..|]. intros e _. by rewrite HP.
  - intros r. se_safe.
Qed.

Lemma signal_domain_mem k w :
  let '(w', _) := v4v_signal_domain k w in
  w_doms w' = w_doms w /\ w_domlist w' = w_domlist w /\
  m_mem (w_m w') = m_mem (w_m w) /\ m_refs (w_m w') = m_refs (w_m w).
Proof.
  unfold v4v_signal_domain, bind, bug_if, get. destruct env_ui_running; simpl; [|done].
  destruct (w_doms w !! k) as [d|]; [|done]. destruct (d_v4v d); [|done].
  unfold when. by destruct (_ =? 0), env_ui_signal_v4v.
Qed.

(** The ring [ri] of the table of [k] is one that a send to [dst] from the
    domain [from] may reach. *)
Definition may_reach (w : world) (k : Z) (dst : v4v_addr) (from : Z)
    (ri : v4v_ring_info) : Prop :=
  (exists d vd, w_doms w !! k = Some d /\ d_v4v d = Some vd /\
     v4v_ring_find_info vd (ri_id ri) = Some ri) /\
  addr_port (id_addr (ri_id ri)) = addr_port dst /\
  (partner (ri_id ri) = from \/ partner (ri_id ri) = V4V_DOMID_NONE).

(** The rings of a table, each as it was or, if it may be reached, sent to. *)
Definition rings_sent_to (w : world) (k : Z) (dst : v4v_addr) (from : Z) (vd vd' : v4v_domain) : Prop :=
  forall id, v4v_ring_find_info vd' id = v4v_ring_find_info vd id \/
    exists ri ri', v4v_ring_find_info vd id = Some ri /\ may_reach w k dst from ri /\
      v4v_ring_find_info vd' id = Some ri' /\ ring_sent_to from ri ri'.
Definition domain_sent_to (w : world) (k : Z) (dst : v4v_addr) (from : Z) (d d' : domain) : Prop :=
  d' = set_d_v4v (d_v4v d') d /\ option_Forall2 (rings_sent_to w k dst from) (d_v4v d) (d_v4v d').

(** What a send may change. *)
Definition send_confined (w : world) (k : Z) (dst : v4v_addr) (from : Z) (w' : world)
  : Prop :=
  (forall j, j <> k -> w_doms w' !! j = w_doms w !! j) /\
  option_Forall2 (domain_sent_to w k dst from) (w_doms w !! k) (w_doms w' !! k) /\
  w_domlist w' = w_domlist w /\ m_refs (w_m w') = m_refs (w_m w) /\
  (forall f o, (forall ri, may_reach w k dst from ri -> f ∉ frames ri) \/ ~ 0 <= o < PAGE_SIZE ->
     m_mem (w_m w') f o = m_mem (w_m w) f o).

Lemma send_confined_refl w k dst from : send_confined w k dst from w.
Proof.
  split; [done|]. split; [|done]. destruct (w_doms w !! k) as [d|]; constructor. split; [by destruct d|].
  destruct (d_v4v d); constructor. intros id. by left.
Qed.

Lemma find_by_addr_reach w k d vd dst from ri :
  w_doms w !! k = Some d -> d_v4v d = Some vd -> table_ok k vd ->
  v4v_ring_find_info_by_addr vd k dst from = Some ri -> may_reach w k dst from ri.
Proof.
  intros Hd Hvd Ht Hri. pose proof (find_by_addr_find _ _ _ _ _ Ht Hri) as Hf.
  split; [by exists d, vd|]. clear Hf. revert Hri. unfold v4v_ring_find_info_by_addr.
  destruct (v4v_ring_find_info vd {| id_addr := _; partner := from |}) as [r|] eqn:E1.
  - intros [= ->]. destruct (find_info_ok _ _ _ _ Ht E1) as [-> _]. by split; [|left].
  - intros E2. destruct (find_info_ok _ _ _ _ Ht E2) as [-> _]. by split; [|right].
Qed.

Lemma on_ring_send_confined w k dst from ri src proto buf len iovs niov :
  world_ok w -> addr_domain (id_addr src) = from -> may_reach w k dst from ri ->
  send_confined w k dst from
    (fst (on_ring k (ri_id ri) (ring_send src proto buf len iovs niov) w)).
Proof.
  intros Hw <- Hre. pose proof Hre as ((d & vd & Hd & Hvd & Hri) & _).
  unfold on_ring. rewrite Hd, Hvd, Hri. destruct (Hw _ _ Hd) as (_ & _ & Ht).
  destruct (find_info_ok _ _ _ _ (Ht vd Hvd) Hri) as [_ (_ & Hok & _)].
  destruct (ring_send_contained src proto buf len iovs niov
    {| rs_m := w_m w; rs_ri := ri |} Hok) as (_ & (Hs & HM & HR) & _).
  destruct (ring_send _ _ _ _ _ _ _) as [s r]. simpl in *.
  split; [intros j Hj; cbn [w_doms]; by rewrite lookup_alter_ne|]. split; [|split; [done|split; [done|]]].
  - cbn [w_doms]. rewrite lookup_alter_eq, Hd. constructor. split; [done|]. cbn [d_v4v set_d_v4v].
    rewrite Hvd. constructor. intros id. rewrite (find_ring_store k) by auto.
    destruct Hs as [Hi Hs]. case_decide as He; [|by left]. right. subst id. rewrite Hi, Hri. exists ri, (rs_ri s).
    split_and!; [done..|]. split; done.
  - intros f o Hf. apply HM. destruct Hf as [Hf|Hf]; [left; by apply Hf|by right].
Qed.

Lemma send_confined_signal w k dst from w1 j :
  send_confined w k dst from w1 ->
  send_confined w k dst from (fst (v4v_signal_domain j w1)).
Proof.
  intros (H1 & H2 & H3 & H4 & H5). pose proof (signal_domain_mem j w1) as Hs.
  destruct (v4v_signal_domain j w1) as [w2 r]. destruct Hs as (D & DL & M & R).
  unfold send_confined. simpl. rewrite D, DL, M, R. done.
Qed.
End SendIsolation.

(** C14: a guest's send, with any source and destination address in its
    arguments, changes only rings of domain 0 with the destination's port whose
    partner is the guest itself or [NONE], and memory in the pages of these: no
    other domain's state, no record of another ring of domain 0 and no reference
    changes; of a ring that it reaches only the mappings, [tx_ptr] and the guest's own
    pending notifications change, not the pages, the length or what other
    domains wait for; and any destination other than [V4V_DOMID_DM] is
    refused with [-EPERM]. *)
Theorem guest_send_isolated `{E : HostEnv} c src dst proto buf len iovs niov w :
  world_ok w -> IS_HOST (cur_domain c) = false -> 0 <= cur_domain c < V4V_DOMID_SELF ->
  is_Some (w_doms w !! cur_domain c ≫= d_v4v) ->
  let '(w', r) := v4v_send c (cur_domain c) src dst proto buf len iovs niov w in
  send_confined w 0 dst (cur_domain c) w' /\
  (addr_domain dst <> V4V_DOMID_DM -> w' = w /\ r = Err (- EPERM)).
Proof.
  intros Hw Hh Hc Hcur.
  destruct (w_doms w !! cur_domain c) as [dc|] eqn:Edc; [|by destruct Hcur].
  simpl in Hcur. destruct Hcur as [vdc Hvdc].
  unfold v4v_send. unfold bind at 1, domain_v4v. unfold bind at 1, get. rewrite Edc, Hvdc.
  unfold ret at 1. rewrite bool_decide_eq_false_2 by done. cbn [fail_if].
  unfold bind at 1, ret at 1. unfold bind at 1.
  destruct (validate_channel_guest c (addr_domain src) (addr_domain dst)
    V4V_VALIDATE_PREAUTH w Hc Hh) as [[-> Hdm]|[-> Hdm]].
  2: { split; [apply send_confined_refl|done]. }
  cbn [fst snd]. unfold bind at 1, get, v4v_dm_domid.
  assert (forall w1 r, send_confined w 0 dst (cur_domain c) w1 ->
    let '(w', r) := (w1, r) : world * res Z in send_confined w 0 dst (cur_domain c) w' /\
    (addr_domain dst <> V4V_DOMID_DM -> w' = w /\ r = Err (- EPERM))) as Hfin by done.
  destruct (get_domain_by_id w 0) as [d|] eqn:Ed; [|by apply Hfin, send_confined_refl].
  destruct (d_v4v d) as [vd|] eqn:Evd; [|by apply Hfin, send_confined_refl].
  apply get_domain_by_id_Some in Ed. destruct (Hw _ _ Ed) as (Hid & _ & Ht). rewrite Hid.
  destruct (v4v_ring_find_info_by_addr vd 0 dst (cur_domain c)) as [ri|] eqn:Eri.
  - pose proof (find_by_addr_reach w 0 d vd dst _ ri Ed Evd (Ht vd Evd) Eri) as Hre.
    unfold bind at 1. match goal with |- context [ring_send ?a _ _ _ _ _] =>
      pose proof (on_ring_send_confined w 0 dst (cur_domain c) ri a proto buf len iovs niov
        Hw eq_refl Hre) as Hon end.
    destruct (on_ring _ _ _ w) as [w1 [r|e|]]; cbn [fst] in Hon; [|by apply Hfin..].
    destruct (fst r =? 0); [|by apply Hfin]. unfold bind.
    pose proof (send_confined_signal _ _ _ _ _ 0 Hon) as Hs.
    destruct (v4v_signal_domain 0 w1) as [w2 []]; exact (Hfin _ _ Hs).
  - unfold bind. pose proof (send_confined_signal _ _ _ _ _ 0
      (send_confined_refl w 0 dst (cur_domain c))) as Hs.
    destruct (v4v_signal_domain 0 w) as [w2 []]; exact (Hfin _ _ Hs).
Qed.

(** The system after domain 0 has registered a ring for guest 3. *)
Definition served_world : world :=
  fst (@do_v4v_op (plain_env (caller_memory 3)) host_caller V4VOP_register_ring
         0x10000 0x20000 0 0 0 plain_world).

Lemma served_world_ok : world_ok served_world.
Proof.
  apply (@do_v4v_op_preserves (plain_env (caller_memory 3))
    (plain_env_ok _ (caller_memory_bytes 3)) host_caller eq_refl).
  split; [apply plain_world_ok|]. exists (plain_domain 0). by vm_compute.
Qed.

Lemma guest_send_isolated_witness :
  let '(w', r) := @v4v_send (plain_env count_up) (guest_caller 3) 3
    {| addr_port := 9; addr_domain := 3 |}
    {| addr_port := 5; addr_domain := V4V_DOMID_DM |} 1 0x40000 20 0 0 served_world in
  r = Ok 20 /\ w_doms w' !! 4 = w_doms served_world !! 4.
Proof.
  pose proof (@guest_send_isolated (plain_env count_up) (guest_caller 3)
    {| addr_port := 9; addr_domain := 3 |}
    {| addr_port := 5; addr_domain := V4V_DOMID_DM |} 1 0x40000 20 0 0 served_world
    served_world_ok eq_refl ltac:(by vm_compute)
    ltac:(eexists; vm_compute; reflexivity)) as H.
  assert (snd (@v4v_send (plain_env count_up) (guest_caller 3) 3
    {| addr_port := 9; addr_domain := 3 |}
    {| addr_port := 5; addr_domain := V4V_DOMID_DM |} 1 0x40000 20 0 0 served_world) = Ok 20)
    as Hr by (vm_compute; reflexivity).
  cbn [cur_domain guest_caller] in H.
  destruct (v4v_send _ _ _ _ _ _ _ _ _ _) as [w' r]. destruct H as [(H1 & _) _].
  split; [exact Hr|]. apply H1. discriminate.
Defined.

(** ** References on pages *)

(** Registering the pages of a guest's ring ([v4v_find_ring_mfns], called
    for a new ring and for one registered again) keeps the account of
    references exact on every path, success or failure: each frame carries
    the references it had from elsewhere and one for each time it is a page
    of the ring. *)
Theorem registration_keeps_references `{E : HostEnv} (HO : HostEnvOk E) c did base id h len s :
  mfns_dont_belong_xen did = false -> cur_domain c = did ->
  ring_inv id s -> balanced base s ->
  let '(s', r) := v4v_find_ring_mfns c did h len s in
  r <> Bug /\ ring_inv id s' /\ balanced base s'.
Proof.
  intros Hg Hcur Hi Hb.
  pose proof (find_ring_mfns_balanced c did base Hg id Hcur h len s (conj Hi Hb)) as H.
  by destruct (v4v_find_ring_mfns c did h len s) as [s' []]; destruct H.
Qed.

(** A ring of guest 3 that has just been created. *)
Definition guest_ring_id : v4v_ring_id :=
  {| id_addr := {| addr_port := 5; addr_domain := 3 |}; partner := 0 |}.
Definition new_ring_state : rstate :=
  {| rs_m := w_m plain_world; rs_ri := new_ring_info guest_ring_id |}.

Lemma registration_keeps_references_witness :
  let '(s', r) := @v4v_find_ring_mfns (plain_env (caller_memory 0)) (guest_caller 3) 3
    0x20000 256 new_ring_state in
  r = Ok tt /\ m_refs (rs_m s') 7 = 1.
Proof.
  assert (snd (@v4v_find_ring_mfns (plain_env (caller_memory 0)) (guest_caller 3) 3
    0x20000 256 new_ring_state) = Ok tt /\
    ri_mfns (rs_ri (fst (@v4v_find_ring_mfns (plain_env (caller_memory 0)) (guest_caller 3) 3
    0x20000 256 new_ring_state))) = Some [7]) as [Hr Hm] by (vm_compute; done).
  pose proof (@registration_keeps_references (plain_env (caller_memory 0))
    (plain_env_ok _ (caller_memory_bytes 0)) (guest_caller 3) 3 (fun _ => 0) guest_ring_id
    0x20000 256 new_ring_state eq_refl eq_refl) as H.
  destruct (v4v_find_ring_mfns _ _ _ _ _) as [s' r]. simpl in Hr, Hm.
  destruct H as (_ & _ & H).
  - split; [reflexivity|]. apply (new_ring_ok guest_ring_id).
  - intros f _. reflexivity.
  - split; [exact Hr|]. rewrite (H 7) by discriminate. unfold frames. rewrite Hm.
    reflexivity.
Defined.

(** destroying a domain's V4V state succeeds when the domain is dying,
    removes the state, leaves the other domains and all memory as they are,
    and gives back exactly the references its rings held (for a guest; the
    host's pages are not counted). *)
Theorem destroy_returns_references did w d :
  world_ok w -> w_doms w !! did = Some d -> is_dying d = true ->
  exists w', v4v_destroy did w = (w', Ok tt) /\
    w_doms w' !! did = Some (set_d_v4v None d) /\
    (forall k, k <> did -> w_doms w' !! k = w_doms w !! k) /\
    m_mem (w_m w') = m_mem (w_m w) /\
    forall f, f <> 0 -> m_refs (w_m w') f = m_refs (w_m w) f -
      match d_v4v d with
      | Some vd => if IS_HOST did then 0 else occurrences f (table_frames (ring_hash vd))
      | None => 0
      end.
Proof.
  intros Hw Hd Hdy. destruct (destroy_spec did w d Hw Hd Hdy) as (w' & H & HD & HM & HR).
  exists w'. split; [done|]. rewrite HD. split; [by rewrite lookup_alter_eq, Hd|].
  split; [intros k Hk; by rewrite lookup_alter_ne|]. split; [done|].
  intros f Hf. rewrite (HR f Hf). unfold mfns_dont_belong_xen.
  by destruct (d_v4v d), (IS_HOST did).
Qed.

(** A domain on its way out. *)
Definition dying (k : Z) (w : world) : world :=
  set_w_doms (alter (fun d => {| domain_id := domain_id d; dom_destroyed := true;
    is_dying := true; shutdown_crash := false; v4v_token := v4v_token d;
    d_v4v := d_v4v d |}) k (w_doms w)) w.

Lemma dying_ok k w : world_ok w -> world_ok (dying k w).
Proof.
  intros Hw j d. cbn [w_doms set_w_doms dying].
  intros [(<- & d0 & Hd0 & ->)|[_ Hd]]%lookup_alter_Some; [|by apply Hw].
  destruct (Hw _ _ Hd0) as (H1 & H2 & H3). split; [exact H1|]. split; [exact H2|exact H3].
Qed.

(** Guest 3 with a ring, dying. *)
Definition dying_world : world :=
  dying 3 (fst (@do_v4v_op (plain_env (caller_memory V4V_DOMID_DM)) (guest_caller 3)
                  V4VOP_register_ring 0x10000 0x20000 0 0 0 plain_world)).

Lemma dying_world_ok : world_ok dying_world.
Proof.
  apply dying_ok, (@do_v4v_op_preserves (plain_env (caller_memory V4V_DOMID_DM))
    (plain_env_ok _ (caller_memory_bytes _)) (guest_caller 3) eq_refl).
  split; [apply plain_world_ok|]. exists (plain_domain 3). by vm_compute.
Qed.

Lemma destroy_returns_references_witness :
  m_refs (w_m dying_world) 7 = 1 /\
  exists w', v4v_destroy 3 dying_world = (w', Ok tt) /\
    m_refs (w_m w') 7 = 0.
Proof.
  split; [vm_compute; reflexivity|].
  assert (exists d, w_doms dying_world !! 3 = Some d) as [d Hd]
    by (eexists; vm_compute; reflexivity).
  assert (is_dying d = true /\ match d_v4v d with
    | Some vd => if IS_HOST 3 then 0 else occurrences 7 (table_frames (ring_hash vd))
    | None => 0 end = 1 /\ m_refs (w_m dying_world) 7 = 1) as (Hdy & Ho & Hr).
  { revert d Hd. vm_compute. intros d [= <-]. done. }
  destruct (destroy_returns_references 3 dying_world d
    dying_world_ok Hd Hdy) as (w' & H & _ & _ & _ & HR).
  exists w'. split; [exact H|]. rewrite (HR 7) by discriminate. rewrite Ho, Hr. reflexivity.
Defined.

(** ** Registration *)

Section Registration.
Context `{E : HostEnv} (P : v4v_ring_info -> Prop).
Context (HP : forall np nm ms mm r, P r -> P (set_ri_pages np nm ms mm r)).
Local Abbreviation keeps := (preserves (fun s => P (rs_ri s))).

Lemma set_pages_keeps f : (forall r, P r -> P (f r)) -> keeps (set_ring f).
Proof. intros Hf. apply preserves_modify. intros s Hs. by apply Hf. Qed.

Lemma remove_mfns_keeps put : keeps (v4v_ring_remove_mfns put).
Proof using HP.
  pose proof (@on_machine_keeps P). pose proof set_pages_keeps as Hs.
  assert (forall r, P r -> P (v4v_ring_unmap r)).
  { intros r Hr. unfold v4v_ring_unmap. destruct (ri_mfn_mapping r); [by apply HP|done]. }
  assert (keeps (set_ring (set_ri_pages 0 0 None None))) by (apply Hs; auto).
  assert (keeps (set_ring v4v_ring_unmap)) by (by apply Hs).
  unfold v4v_ring_remove_mfns. se_keep.
Qed.

(** Finding the pages changes only the fields for the pages. *)
Lemma find_ring_mfns_keeps c did h len : keeps (v4v_find_ring_mfns c did h len).
Proof using HP.
  pose proof (@on_machine_keeps P). pose proof set_pages_keeps.
  pose proof remove_mfns_keeps.
  assert (forall h n i, keeps (fill_mfns c did h n i)).
  { intros h0 n. induction n; intros i; cbn [fill_mfns]; se_keep. }
  assert (forall np, keeps (alloc_mfns np)).
  { intros np. unfold alloc_mfns. se_keep. }
  unfold v4v_find_ring_mfns, recheck_mfns. se_keep.
Qed.
End Registration.

Lemma ring_add_tx_ptr_lt ring : 0 <= r_tx_ptr ring < 2 ^ 32 -> 0 < r_len ring ->
  0 <= fst (ring_add_tx_ptr ring) < r_len ring.
Proof.
  intros Hr HL. unfold ring_add_tx_ptr.
  pose proof (u32_range (V4V_ROUNDUP (r_rx_ptr ring))) as Hu.
  destruct (Z.leb_spec (r_len ring) (r_tx_ptr ring)); cbn [orb fst].
  - destruct (Z.leb_spec (r_len ring) (u32 (V4V_ROUNDUP (r_rx_ptr ring)))); lia.
  - destruct (negb _); cbn [fst]; [|lia].
    destruct (Z.leb_spec (r_len ring) (u32 (V4V_ROUNDUP (r_rx_ptr ring)))); lia.
Qed.

(** a registration that succeeds leaves a ring ready for use: its length
    is the one of the header, [tx_ptr] is inside the ring and a multiple of
    16, every page of the list has been found, and the pages hold at least as
    many bytes as the ring is long; whatever state an earlier registration
    of the same ring left. *)
Theorem registration_ready `{E : HostEnv} (HO : HostEnvOk E) c d id ring hnd pl s s' :
  ring_inv id s -> 0 <= r_len ring < 2 ^ 32 -> 0 <= r_tx_ptr ring < 2 ^ 32 ->
  ring_header_ok ring = true -> r_len ring <= V4V_MAX_RING_SIZE ->
  ring_attach c d (fst (ring_add_tx_ptr ring)) hnd pl (r_len ring) s = (s', Ok tt) ->
  ring_inv id s' /\ ri_len (rs_ri s') = r_len ring /\
  0 <= ri_tx_ptr (rs_ri s') < ri_len (rs_ri s') /\ ri_tx_ptr (rs_ri s') mod 16 = 0 /\
  exists mfns, ri_mfns (rs_ri s') = Some mfns /\ zlen mfns = ri_npage (rs_ri s') /\
    r_len ring <= PAGE_SIZE * zlen mfns.
Proof.
  intros Hi Hlr Htr Hok Hmax Hrun.
  destruct (ring_header_ok_spec ring Hlr Hok) as [Hlen Hlm].
  destruct (ring_add_tx_ptr_spec ring Htr) as [Htx Htm].
  pose proof (ring_add_tx_ptr_lt ring Htr ltac:(lia)) as Htl.
  set (tx := fst (ring_add_tx_ptr ring)) in *.
  set (T := fun r : v4v_ring_info => ri_tx_ptr r = tx).
  unfold ring_attach, set_ring, modify, bind in Hrun.
  set (s1 := {| rs_m := rs_m s; rs_ri := _ |}) in Hrun.
  assert (ring_inv id s1) as Hi1.
  { destruct Hi as (H1 & H2 & []). split; [done|]. split; [done|]. by split. }
  pose proof (find_ring_mfns_filled id c d pl (r_len ring) s1 Hi1) as H2.
  pose proof (find_ring_mfns_keeps T ltac:(done) c d pl (r_len ring) s1 eq_refl) as T2.
  destruct (v4v_find_ring_mfns _ _ _ _ s1) as [s2 [[]|e|]]; [|done..]. simpl in T2.
  destruct H2 as (Hi2 & np & ((_ & Hnp & Hm) & Hnm) & Hle).
  destruct (map_page_sound id 0 ltac:(lia) s2 Hi2) as (Hi3 & _ & _).
  destruct (map_page_safe 0 ltac:(lia) s2 (proj1 (proj2 Hi2))) as (_ & (Hr & _) & _).
  pose proof (map_page_keeps T ltac:(done) 0 s2 T2) as T3.
  destruct (v4v_ring_map_page 0 s2) as [s3 [f|e|]]; [|done..].
  injection Hrun as <-. cbn [fst rs_ri ri_len ri_tx_ptr ri_mfns ri_npage set_ri_len] in *.
  split; [|split; [done|]].
  { destruct Hi3 as (H1 & H2 & []). split; [done|]. split; [done|]. split; try done.
    right. simpl. lia. }
  rewrite T3. split; [done|]. split; [done|].
  destruct Hr as (_ & _ & _ & Hr1 & _ & Hr2 & _). destruct Hi2 as (_ & Hok2 & _).
  unfold ring_ok, pages_ok in Hok2. rewrite Hr2, Hr1, Hnp.
  destruct (ri_mfns (rs_ri s2)) as [l|]; [|done].
  destruct (ri_mfn_mapping (rs_ri s2)); [|done]. destruct Hok2 as (Hz & _).
  exists l. split; [done|]. rewrite Hz, Hnm. done.
Qed.

(** The ring header in the memory of the caller. *)
Definition header_in (g : Z -> Z) : v4v_ring :=
  v4v_ring_of_bytes (tabulate g 0x10000 sizeof_v4v_ring).

Lemma registration_ready_witness :
  let ring := header_in (caller_memory 0) in
  let s' := fst (@ring_attach (plain_env (caller_memory 0)) (guest_caller 3) 3
    (fst (ring_add_tx_ptr ring)) 0x10000 0x20000 (r_len ring) new_ring_state) in
  ri_len (rs_ri s') = 256 /\ ring_inv guest_ring_id s'.
Proof.
  intros ring s'.
  assert (snd (@ring_attach (plain_env (caller_memory 0)) (guest_caller 3) 3
    (fst (ring_add_tx_ptr ring)) 0x10000 0x20000 (r_len ring) new_ring_state) = Ok tt) as Hr
    by (vm_compute; reflexivity).
  destruct (@registration_ready (plain_env (caller_memory 0))
    (plain_env_ok _ (caller_memory_bytes 0)) (guest_caller 3) 3 guest_ring_id ring
    0x10000 0x20000 new_ring_state s') as (Hi & Hl & _).
  - split; [reflexivity|]. apply (new_ring_ok guest_ring_id).
  - vm_compute. split; [discriminate|reflexivity].
  - vm_compute. split; [discriminate|reflexivity].
  - vm_compute. reflexivity.
  - vm_compute. discriminate.
  - subst s'. destruct (ring_attach _ _ _ _ _ _ _) as [s2 r]. simpl in *. by rewrite Hr.
  - split; [|exact Hi]. rewrite Hl. vm_compute. reflexivity.
Defined.

(** ** Signals *)

Definition signalled (k : Z) (l : list event) : Prop :=
  if k =? 0 then EvHostUpcall ∈ l else EvIrqPulse k ∈ l.

Lemma signal_domid_log `{E : HostEnv} w k :
  env_ui_running = true -> env_ui_signal_v4v = true -> world_ok w ->
  exists w', v4v_signal_domid k w = (w', Ok tt) /\ w_doms w' = w_doms w /\
    (forall e, e ∈ m_log (w_m w) -> e ∈ m_log (w_m w')) /\
    (forall d, get_domain_by_id w k = Some d -> d_v4v d <> None ->
       signalled k (m_log (w_m w'))).
Proof.
  intros Hrun Hsig Hw. unfold v4v_signal_domid, bind at 1, get.
  destruct (get_domain_by_id w k) as [d|] eqn:Ed; [|by exists w].
  pose proof (get_domain_by_id_Some _ _ _ Ed) as Hd. destruct (Hw _ _ Hd) as (Hid & _).
  rewrite Hid. unfold v4v_signal_domain, bind, bug_if, get, ret.
  rewrite Hrun. cbn [negb]. rewrite Hd. destruct (d_v4v d) as [vd|] eqn:Evd.
  2: { exists w. repeat split; try done. intros ? [= <-]. by rewrite Evd. }
  rewrite Hid. unfold signalled, in_machine, zoom, log, modify, when. rewrite Hsig.
  destruct (k =? 0); (eexists; split; [reflexivity|]; split; [done|]);
    (split; [intros e He; by right|intros; left]).
Qed.

(** The domains collected by the notification are signalled: for every
    entry of the list whose domain exists and has V4V state the log has the
    host upcall (domain 0) or the interrupt pulse of that domain, and no
    entry makes the loop stop. *)
Theorem pending_notify_signals `{E : HostEnv} l w :
  env_ui_running = true -> env_ui_signal_v4v = true -> world_ok w ->
  exists w', v4v_pending_notify l w = (w', Ok tt) /\ w_doms w' = w_doms w /\
    forall e d, e ∈ l -> get_domain_by_id w (ent_id e) = Some d -> d_v4v d <> None ->
      signalled (ent_id e) (m_log (w_m w')).
Proof.
  intros Hrun Hsig Hw.
  enough (exists w', v4v_pending_notify l w = (w', Ok tt) /\ w_doms w' = w_doms w /\
    (forall e, e ∈ m_log (w_m w) -> e ∈ m_log (w_m w')) /\
    forall e d, e ∈ l -> get_domain_by_id w (ent_id e) = Some d -> d_v4v d <> None ->
      signalled (ent_id e) (m_log (w_m w'))) as (w' & H1 & H2 & _ & H3) by (by exists w').
  revert w Hw. induction l as [|e l IH]; intros w Hw.
  { exists w. repeat split; try done. by intros ? ? ?%elem_of_nil. }
  destruct (signal_domid_log w (ent_id e) Hrun Hsig Hw) as (w1 & H1 & D1 & L1 & S1).
  destruct (IH w1) as (w2 & H2 & D2 & L2 & S2).
  { intros k d. rewrite D1. apply Hw. }
  exists w2. cbn [v4v_pending_notify]. unfold bind. rewrite H1. split; [done|].
  split; [congruence|]. split; [auto|]. intros e0 d [->|He0]%elem_of_cons Hd Hv.
  - specialize (S1 d Hd Hv). unfold signalled in *. destruct (_ =? 0); auto.
  - apply (S2 e0 d); [done| |done]. unfold get_domain_by_id in *. by rewrite D1.
Qed.

Lemma pending_notify_signals_witness :
  exists w', @v4v_pending_notify (plain_env count_up) [{| ent_id := 3; ent_len := 100 |}]
    plain_world = (w', Ok tt) /\ EvIrqPulse 3 ∈ m_log (w_m w').
Proof.
  destruct (@pending_notify_signals (plain_env count_up) [{| ent_id := 3; ent_len := 100 |}]
    plain_world eq_refl eq_refl plain_world_ok) as (w' & H & _ & Hs).
  exists w'. split; [exact H|].
  apply (Hs {| ent_id := 3; ent_len := 100 |} (plain_domain 3)).
  - apply list_elem_of_here.
  - vm_compute. reflexivity.
  - discriminate.
Defined.

(** * V4V: where the code does less than it means to

    Executions of the model that show a registration, a creation and a send
    going wrong; each is a run of the definitions on concrete values. *)

(** A caller with a header of [len] bytes and [tx_ptr], and a list of one
    page with the given magic number. *)
Definition ring_memory (len tx magic : Z) (a : Z) : Z :=
  let header := le_bytes 8 V4V_RING_MAGIC
                ++ bytes_of_v4v_ring_id {| id_addr := {| addr_port := 5; addr_domain := 0 |};
                                           partner := 3 |}
                ++ le_bytes 4 len ++ le_bytes 4 0 ++ le_bytes 4 tx in
  let pages := le_bytes 8 magic ++ le_bytes 4 1 ++ replicate 28 0 ++ le_bytes 8 7 in
  if (0x10000 <=? a) && (a <? 0x20000) then znth header (a - 0x10000)
  else znth pages (a - 0x20000).

Definition attach (len tx magic : Z) (s : rstate) : rstate * res unit :=
  let g := ring_memory len tx magic in
  let ring := header_in g in
  @ring_attach (plain_env g) host_caller 0 (fst (ring_add_tx_ptr ring)) 0x10000 0x20000
    (r_len ring) s.

(** A ring of 4096 bytes behind a header of 64 bytes is accepted on one page
    of 4096 bytes: the check of the length leaves the header out.  A message
    that reaches the missing bytes is refused with [-EFAULT] when there is
    room for it. *)
Theorem short_ring_accepted :
  let '(s1, r1) := attach 4096 0 V4V_PFN_LIST_MAGIC new_ring_state in
  r1 = Ok tt /\ ri_len (rs_ri s1) = 4096 /\ ri_mfns (rs_ri s1) = Some [7] /\
  PAGE_SIZE * zlen [7] < sizeof_v4v_ring + ri_len (rs_ri s1) /\
  snd (@v4v_ringbuf_insert (plain_env count_up) sender_id 1 0 4040 0 0 s1) =
    Ok (- EFAULT, 4040).
Proof. vm_compute. repeat split. Qed.

(** A registration that fails after [tx_ptr] has been stored leaves the length
    of the earlier, successful one: [tx_ptr] is then outside of the ring. *)
Theorem failed_registration_moves_tx_ptr :
  let '(s1, r1) := attach 256 0 V4V_PFN_LIST_MAGIC new_ring_state in
  let '(s2, r2) := attach 4096 512 0 s1 in
  r1 = Ok tt /\ r2 = Err (- EINVAL) /\
  ri_len (rs_ri s2) = 256 /\ ri_tx_ptr (rs_ri s2) = 512.
Proof. vm_compute. repeat split. Qed.

(** An environment whose allocator has no memory. *)
Definition no_memory_env (g : Z -> Z) : HostEnv := {|
  env_guest_read := fun _ a n => (tabulate g a n, 0);
  env_guest_write := fun _ _ _ => 0;
  env_handle_ok := fun _ _ _ => true;
  env_xmalloc := fun _ => false;
  env_alloc_xenheap_page := fun _ => true;
  env_map_page := fun _ _ => true;
  env_get_gfn_unshare := fun _ _ pfn => pfn;
  env_mfn_retry := fun _ => false;
  env_mfn_valid := fun _ => true;
  env_mfn_valid_page := fun _ => true;
  env_get_page := fun _ _ _ => true;
  env_free_pages_needed := fun _ => false;
  env_ui_running := true;
  env_ui_signal_v4v := true
|}.

(** [V4VOP_create_ring] without memory for the record dereferences the null
    pointer in the message it prints, and does not return [-ENOMEM]. *)
Theorem create_ring_without_memory_stops :
  snd (@do_v4v_op (no_memory_env (fun a => if a =? 4 then 3 else 0)) host_caller
         V4VOP_create_ring 0 0 0 0 0 plain_world) = Bug.
Proof. vm_compute. reflexivity. Qed.

(** [V4VOP_send] with a destination handle that is not acceptable returns [0],
    the value of the successful copy of the source address, in place of
    [-EFAULT]; nothing is sent. *)
Theorem send_bad_handle_returns_zero `{E : HostEnv} c a1 a2 a3 a4 a5 w :
  IS_HOST (cur_domain c) = false ->
  env_handle_ok a1 1 sizeof_v4v_addr = true ->
  (forall t, snd (env_guest_read t a1 sizeof_v4v_addr) = 0) ->
  env_handle_ok a2 1 sizeof_v4v_addr = false ->
  let '(w', r) := do_v4v_op c V4VOP_send a1 a2 a3 a4 a5 w in
  r = Ok 0 /\ w_doms w' = w_doms w /\ m_mem (w_m w') = m_mem (w_m w) /\
  m_log (w_m w') = m_log (w_m w).
Proof.
  intros Hh H1 Hc H2. unfold do_v4v_op. rewrite Hh. cbn [andb fail_if].
  unfold bind at 1, ret at 1.
  change (V4VOP_send =? V4VOP_register_ring) with false.
  change (V4VOP_send =? V4VOP_unregister_ring) with false. rewrite Z.eqb_refl.
  unfold read_addrs. rewrite H1, H2. unfold bind, fail_if, ret, in_machine, zoom,
    copy_from_guest_errno, guest_read, bind. simpl. by rewrite Hc.
Qed.
