(* ===== verification/EventChannel.v ===== *)
(** * Event channels

    xen/common/event_channel.c as it is built for uXen: a domain's table of
    channels, allocated in buckets of a page; channels consumed by the
    hypervisor, bound to the host and signalled to its scheduler. *)

From stdpp Require Import base list numbers gmap.
From Stdlib Require Import ZArith Lia.
From S2P Require Import Prelude Machine.

Open Scope Z_scope.
Open Scope se_scope.

(** ** Data (xen/include/xen/sched.h, xen/include/public/event_channel.h) *)

Definition EVTCHNS_PER_BUCKET : Z := 256.
Definition NR_EVTCHN_BUCKETS : Z := 16.
Definition MAX_EVTCHNS : Z := 4096.
Definition EVTCHNOP_bind_host : Z := 8.
Definition sizeof_evtchn_bind_host : Z := 16.

Inductive ecs : Type := ECS_FREE | ECS_RESERVED | ECS_UNBOUND | ECS_HOST.

#[export] Instance ecs_eq_dec : EqDecision ecs.
Proof. solve_decision. Defined.

(** The union [u] of [struct evtchn], by the member last written. *)
Inductive evtchn_u : Type :=
| u_zero
| u_unbound (remote_domid : Z)
| u_host (host_opaque : Z).

#[export] Instance evtchn_u_eq_dec : EqDecision evtchn_u.
Proof. solve_decision. Defined.

Record evtchn : Type := {
  state : ecs;
  consumer_is_xen : bool;
  notify_vcpu_id : Z;
  chn_u : evtchn_u
}.

(** A channel of a page that has just been cleared. *)
Definition evtchn_zero : evtchn :=
  {| state := ECS_FREE; consumer_is_xen := false; notify_vcpu_id := 0; chn_u := u_zero |}.

(** What the code uses of [struct domain]; [evtchn_pending] is the bit mask of
    the shared page. *)
Record evdom : Type := {
  ed_is_dying : bool;
  ed_evtchn : list (option (list evtchn));
  ed_pending : Z
}.

Definition set_ed_evtchn (l : list (option (list evtchn))) (d : evdom) : evdom :=
  {| ed_is_dying := ed_is_dying d; ed_evtchn := l; ed_pending := ed_pending d |}.
Definition set_ed_pending (x : Z) (d : evdom) : evdom :=
  {| ed_is_dying := ed_is_dying d; ed_evtchn := ed_evtchn d; ed_pending := x |}.

Record evstate : Type := { es_m : machine; es_doms : gmap Z evdom }.

Definition ev_machine {A} (m : SE machine A) : SE evstate A :=
  zoom es_m (fun x s => {| es_m := x; es_doms := es_doms s |}) m.

(** [d], which the caller holds a pointer to. *)
Definition ev_domain (did : Z) : SE evstate evdom :=
  s <- get;;
  match es_doms s !! did with Some d => ret d | None => bug end.

Definition set_ev_domain (did : Z) (d : evdom) : SE evstate unit :=
  modify (fun s => {| es_m := es_m s; es_doms := <[did := d]> (es_doms s) |}).

(** ** Ports *)

(** [bucket_from_port] *)
Definition bucket_from_port (d : evdom) (p : Z) : option (list evtchn) :=
  mjoin (ed_evtchn d !! Z.to_nat (p / EVTCHNS_PER_BUCKET)).

(** [port_is_valid] *)
Definition port_is_valid (d : evdom) (p : Z) : bool :=
  (0 <=? p) && (p <? MAX_EVTCHNS) && bool_decide (bucket_from_port d p <> None).

(** [evtchn_from_port]; [None] is an access through a null pointer. *)
Definition evtchn_from_port (d : evdom) (p : Z) : option evtchn :=
  bucket_from_port d p ≫= fun b => b !! Z.to_nat (Z.land p (EVTCHNS_PER_BUCKET - 1)).

(** A store to the channel of a port. *)
Definition set_evtchn (p : Z) (c : evtchn) (d : evdom) : evdom :=
  set_ed_evtchn
    (alter (fmap (M := option) (fun b => <[Z.to_nat (Z.land p (EVTCHNS_PER_BUCKET - 1)) := c]> b))
       (Z.to_nat (p / EVTCHNS_PER_BUCKET)) (ed_evtchn d)) d.

(** [bucket_from_port(d, port) = chn], the page cleared. *)
Definition add_bucket (p : Z) (d : evdom) : evdom :=
  set_ed_evtchn
    (<[Z.to_nat (p / EVTCHNS_PER_BUCKET) :=
       Some (replicate (Z.to_nat EVTCHNS_PER_BUCKET) evtchn_zero)]> (ed_evtchn d)) d.

(** The loop of [get_free_port]: the first free port, or the port at which
    the loop ends. *)
Fixpoint scan_ports (d : evdom) (fuel : nat) (port : Z) : option Z * Z :=
  match fuel with
  | O => (None, port)
  | S fuel =>
      if port_is_valid d port then
        match evtchn_from_port d port with
        | Some c => if decide (state c = ECS_FREE) then (Some port, port)
                    else scan_ports d fuel (port + 1)
        | None => (None, port)
        end
      else (None, port)
  end.

(** The channel of a port that is valid. *)
Definition channel (did port : Z) : SE evstate evtchn :=
  d <- ev_domain did;;
  match evtchn_from_port d port with Some c => ret c | None => bug end.

Definition update_channel (did port : Z) (f : evtchn -> evtchn) : SE evstate unit :=
  d <- ev_domain did;;
  match evtchn_from_port d port with
  | Some c => set_ev_domain did (set_evtchn port (f c) d)
  | None => bug
  end.

Definition set_state (x : ecs) (c : evtchn) : evtchn :=
  {| state := x; consumer_is_xen := consumer_is_xen c;
     notify_vcpu_id := notify_vcpu_id c; chn_u := chn_u c |}.
Definition set_consumer_is_xen (x : bool) (c : evtchn) : evtchn :=
  {| state := state c; consumer_is_xen := x;
     notify_vcpu_id := notify_vcpu_id c; chn_u := chn_u c |}.

Section Evtchn.
Context `{E : HostEnv}.

(** [get_free_port] *)
Definition get_free_port (did : Z) : SE evstate Z :=
  d <- ev_domain did;;
  fail_if (ed_is_dying d) (- EINVAL);;
  match scan_ports d (S (Z.to_nat MAX_EVTCHNS)) 0 with
  | (Some port, _) => ret port
  | (None, port) =>
      fail_if (port =? MAX_EVTCHNS) (- ENOSPC);;
      t <- ev_machine tick;;
      fail_if (negb (env_alloc_xenheap_page t)) (- ENOMEM);;
      set_ev_domain did (add_bucket port d);;
      ret port
  end.

(** [evtchn_bind_host]; [cur] is the calling domain. *)
Definition evtchn_bind_host (cur remote_dom remote_port host_opaque : Z)
  : SE evstate unit :=
  fail_if (host_opaque =? 0) (- EINVAL);;
  fail_if (negb (cur =? 0)) (- EPERM);;
  s <- get;;
  match (if DOMID_FIRST_RESERVED <=? remote_dom then None else es_doms s !! remote_dom) with
  | None => fail (- ESRCH)
  | Some rd =>
      let port := s32 remote_port in
      fail_if (negb (port_is_valid rd port)) (- EINVAL);;
      c <- channel remote_dom port;;
      fail_if (negb (bool_decide (state c = ECS_UNBOUND)
                     && bool_decide (chn_u c = u_unbound cur))) (- EINVAL);;
      update_channel remote_dom port (fun c =>
        {| state := ECS_HOST; consumer_is_xen := consumer_is_xen c;
           notify_vcpu_id := notify_vcpu_id c; chn_u := u_host host_opaque |})
  end.

(** [__evtchn_close] *)
Definition evtchn_close (did port : Z) : SE evstate unit :=
  d <- ev_domain did;;
  fail_if (negb (port_is_valid d port)) (- EINVAL);;
  c <- channel did port;;
  fail_if (consumer_is_xen c) (- EINVAL);;
  match state c with
  | ECS_FREE | ECS_RESERVED => fail (- EINVAL)
  | ECS_UNBOUND | ECS_HOST =>
      set_ev_domain did (set_ed_pending (Z.clearbit (ed_pending d) port) d);;
      update_channel did port (fun c =>
        {| state := ECS_FREE; consumer_is_xen := consumer_is_xen c;
           notify_vcpu_id := 0; chn_u := chn_u c |})
  end.

(** [do_event_channel_op] *)
Definition do_event_channel_op (cur cmd arg : Z) : SE evstate unit :=
  if cmd =? EVTCHNOP_bind_host then
    r <- ev_machine (guest_read arg sizeof_evtchn_bind_host);;
    fail_if (negb (snd r =? 0)) (- EFAULT);;
    evtchn_bind_host cur (field 0 2 (fst r)) (field 4 4 (fst r)) (field 8 8 (fst r));;
    t <- ev_machine tick;;
    if env_guest_write t arg (fst r) =? 0 then ev_machine (log (EvGuestWrite arg (fst r)))
    else fail (- EFAULT)
  else fail (- ENOSYS).

(** [alloc_unbound_xen_event_channel], for a vcpu of [did]. *)
Definition alloc_unbound_xen_event_channel (did vcpu_id remote_domid : Z)
  : SE evstate Z :=
  port <- get_free_port did;;
  update_channel did port (fun _ =>
    {| state := ECS_UNBOUND; consumer_is_xen := true; notify_vcpu_id := vcpu_id;
       chn_u := u_unbound remote_domid |});;
  ret port.

(** [free_xen_event_channel] *)
Definition free_xen_event_channel (did port : Z) : SE evstate unit :=
  d <- ev_domain did;;
  if ed_is_dying d then ret tt
  else
    sane <- (if port_is_valid d port
             then c <- channel did port;;
                  when (consumer_is_xen c)
                    (update_channel did port (set_consumer_is_xen false));;
                  ret (consumer_is_xen c)
             else ret false);;
    if sane : bool then code (evtchn_close did port);; ret tt else ret tt.

(** [notify_via_xen_event_channel] *)
Definition notify_via_xen_event_channel (did lport : Z) : SE evstate unit :=
  d <- ev_domain did;;
  if ed_is_dying d then ret tt
  else if port_is_valid d lport then
    c <- channel did lport;;
    if negb (consumer_is_xen c) then ret tt
    else match state c, chn_u c with
         | ECS_HOST, u_host o =>
             ev_machine (log (EvHostSignal did (notify_vcpu_id c) o))
         | ECS_HOST, _ => bug
         | _, _ => ret tt
         end
  else ret tt.

(** [xen_event_channel_host_opaque]: [0] is the null pointer. *)
Definition xen_event_channel_host_opaque (did lport : Z) : SE evstate Z :=
  d <- ev_domain did;;
  if ed_is_dying d then ret 0
  else
    bug_if (negb (port_is_valid d lport));;
    c <- channel did lport;;
    bug_if (negb (consumer_is_xen c));;
    match state c, chn_u c with
    | ECS_HOST, u_host o => ret o
    | ECS_HOST, _ => bug
    | _, _ => ret 0
    end.

(** [evtchn_init] *)
Definition evtchn_init (did : Z) : SE evstate unit :=
  p <- recover (get_free_port did) (fun e => e);;
  fail_if (negb (p =? 0)) (- EINVAL);;
  update_channel did 0 (set_state ECS_RESERVED).

(** The loop of [evtchn_destroy] over the ports, from [port] on. *)
Fixpoint close_ports (did : Z) (fuel : nat) (port : Z) : SE evstate unit :=
  match fuel with
  | O => ret tt
  | S fuel =>
      d <- ev_domain did;;
      if port_is_valid d port then
        update_channel did port (set_consumer_is_xen false);;
        code (evtchn_close did port);;
        close_ports did fuel (port + 1)
      else ret tt
  end.

(** [evtchn_destroy] *)
Definition evtchn_destroy (did : Z) : SE evstate unit :=
  d <- ev_domain did;;
  bug_if (negb (ed_is_dying d));;
  close_ports did (S (Z.to_nat MAX_EVTCHNS)) 0;;
  d <- ev_domain did;;
  set_ev_domain did
    (set_ed_evtchn (replicate (Z.to_nat NR_EVTCHN_BUCKETS) None) d).
End Evtchn.

(** * Event channels: the table of ports

    The buckets seen as one map from ports to channels, the invariant of the
    table, and what the scan for a free port finds. *)

(** The state of a channel says which member of the union is in use; a channel
    the hypervisor consumes is unbound or bound to the host; a free channel
    notifies vcpu 0. *)
Definition chan_ok (c : evtchn) : Prop :=
  match state c with
  | ECS_FREE | ECS_RESERVED => consumer_is_xen c = false /\ notify_vcpu_id c = 0
  | ECS_UNBOUND => exists r, chn_u c = u_unbound r
  | ECS_HOST => exists o, o <> 0 /\ chn_u c = u_host o
  end.

(** 16 buckets, allocated from the first one on, each of 256 channels. *)
Record ports_ok (d : evdom) : Prop := {
  po_len : length (ed_evtchn d) = Z.to_nat NR_EVTCHN_BUCKETS;
  po_bucket : forall i b, ed_evtchn d !! i = Some (Some b) ->
    length b = Z.to_nat EVTCHNS_PER_BUCKET /\ Forall chan_ok b;
  po_prefix : forall i j b, ed_evtchn d !! j = Some (Some b) -> (i <= j)%nat ->
    exists b', ed_evtchn d !! i = Some (Some b')
}.

(** The channel of a port, for a port that is valid. *)
Definition chan (d : evdom) (p : Z) : option evtchn :=
  if port_is_valid d p then evtchn_from_port d p else None.

(** ** The two halves of a port *)

Lemma land_mod p : Z.land p (EVTCHNS_PER_BUCKET - 1) = p mod 256.
Proof. change (EVTCHNS_PER_BUCKET - 1) with (Z.ones 8). by rewrite Z.land_ones. Qed.

Lemma port_halves p q : 0 <= p -> 0 <= q ->
  Z.to_nat (p / 256) = Z.to_nat (q / 256) ->
  Z.to_nat (p mod 256) = Z.to_nat (q mod 256) -> p = q.
Proof. intros Hp Hq. zlia. Qed.

Lemma bucket_Some d p b :
  bucket_from_port d p = Some b <-> ed_evtchn d !! Z.to_nat (p / 256) = Some (Some b).
Proof.
  unfold bucket_from_port, EVTCHNS_PER_BUCKET.
  destruct (ed_evtchn d !! _) as [[b'|]|]; simpl; split; congruence.
Qed.

Lemma valid_bucket d p : port_is_valid d p = true <->
  0 <= p < MAX_EVTCHNS /\ exists b, bucket_from_port d p = Some b.
Proof.
  unfold port_is_valid. rewrite !andb_true_iff, Z.leb_le, Z.ltb_lt, bool_decide_eq_true.
  destruct (bucket_from_port d p) as [b|]; split; try tauto.
  - intros [H _]. split; [tauto|]. by exists b.
  - intros (H & _). split; [tauto|done].
  - by intros (_ & b & ?).
Qed.

Lemma chan_valid d p : ports_ok d -> port_is_valid d p = true ->
  exists c, evtchn_from_port d p = Some c /\ chan_ok c.
Proof.
  intros Hok (Hp & b & Hb)%valid_bucket. unfold evtchn_from_port. rewrite Hb. simpl.
  apply bucket_Some in Hb. destruct (po_bucket d Hok _ _ Hb) as [Hlen Hall].
  rewrite land_mod. pose proof (Z.mod_pos_bound p 256 ltac:(done)).
  destruct (lookup_lt_is_Some_2 b (Z.to_nat (p mod 256))) as [c Hc].
  { rewrite Hlen. unfold EVTCHNS_PER_BUCKET. lia. }
  exists c. split; [done|]. by eapply Forall_lookup_1.
Qed.

Lemma chan_Some d p c : chan d p = Some c ->
  port_is_valid d p = true /\ evtchn_from_port d p = Some c.
Proof. unfold chan. by destruct (port_is_valid d p). Qed.

Lemma chan_Some_ok d p c : ports_ok d -> chan d p = Some c -> chan_ok c.
Proof.
  intros Hok [Hv Hc]%chan_Some. destruct (chan_valid d p Hok Hv) as (c' & Hc' & ?).
  congruence.
Qed.

Lemma chan_None d p : ports_ok d -> chan d p = None <-> port_is_valid d p = false.
Proof.
  intros Hok. unfold chan. destruct (port_is_valid d p) eqn:Ev; [|done].
  destruct (chan_valid d p Hok Ev) as (c & -> & _). done.
Qed.

(** Ports below a valid one are valid. *)
Lemma valid_below d p q : ports_ok d -> port_is_valid d p = true -> 0 <= q <= p ->
  port_is_valid d q = true.
Proof.
  intros Hok (Hp & b & Hb)%valid_bucket Hq. apply valid_bucket.
  split; [lia|]. apply bucket_Some in Hb.
  destruct (po_prefix d Hok (Z.to_nat (q / 256)) _ _ Hb) as [b' Hb'].
  { apply Z2Nat.inj_le; [zlia|zlia|]. apply Z.div_le_mono; [done|lia]. }
  exists b'. by apply bucket_Some.
Qed.

(** ** Stores *)

Lemma set_evtchn_bucket d p c i :
  ed_evtchn (set_evtchn p c d) !! i =
  (if decide (i = Z.to_nat (p / 256))
   then fmap (fmap (M := option) (fun b => <[Z.to_nat (p mod 256) := c]> b))
          (ed_evtchn d !! i)
   else ed_evtchn d !! i).
Proof.
  unfold set_evtchn. rewrite land_mod. cbn [ed_evtchn set_ed_evtchn].
  change (p / EVTCHNS_PER_BUCKET) with (p / 256). case_decide as Hi.
  - subst i. by rewrite list_lookup_alter_eq.
  - by rewrite list_lookup_alter_ne.
Qed.

Lemma set_evtchn_valid d p c q :
  port_is_valid (set_evtchn p c d) q = port_is_valid d q.
Proof.
  unfold port_is_valid, bucket_from_port. change (q / EVTCHNS_PER_BUCKET) with (q / 256).
  rewrite set_evtchn_bucket. f_equal. case_decide as Hi; [|done].
  apply bool_decide_ext. destruct (ed_evtchn d !! _) as [[b|]|]; simpl; done.
Qed.

Lemma set_evtchn_chan d p c q : ports_ok d -> port_is_valid d p = true ->
  chan (set_evtchn p c d) q = if decide (p = q) then Some c else chan d q.
Proof.
  intros Hok Hp. unfold chan. rewrite set_evtchn_valid.
  destruct (port_is_valid d q) eqn:Hq; [|case_decide; congruence].
  pose proof Hp as (Hp' & bp & Hbp)%valid_bucket.
  pose proof Hq as (Hq' & bq & Hbq)%valid_bucket.
  apply bucket_Some in Hbp, Hbq. unfold evtchn_from_port, bucket_from_port.
  rewrite land_mod. change (q / EVTCHNS_PER_BUCKET) with (q / 256).
  rewrite set_evtchn_bucket, Hbq.
  destruct (decide (Z.to_nat (q / 256) = Z.to_nat (p / 256))) as [Hi|Hi]; simpl.
  - rewrite list_lookup_insert. destruct (po_bucket d Hok _ _ Hbq) as [Hlen _].
    pose proof (Z.mod_pos_bound q 256 ltac:(done)). rewrite Hlen.
    unfold EVTCHNS_PER_BUCKET. case_decide as Hj; case_decide as Hpq; try done.
    + exfalso. apply Hpq, port_halves; [lia|lia|done|]. lia.
    + exfalso. apply Hj. subst q. split; [done|lia].
  - case_decide; [congruence|done].
Qed.

Lemma set_evtchn_ok d p c : ports_ok d -> chan_ok c -> ports_ok (set_evtchn p c d).
Proof.
  intros [Hlen Hb Hpre] Hc. split.
  - unfold set_evtchn. cbn [ed_evtchn set_ed_evtchn]. by rewrite length_alter.
  - intros i b. rewrite set_evtchn_bucket. case_decide; [|apply Hb].
    destruct (ed_evtchn d !! i) as [[b0|]|] eqn:E0; simpl; [|done|done].
    intros [= <-]. destruct (Hb _ _ E0) as [H1 H2]. rewrite length_insert.
    split; [done|]. by apply Forall_insert.
  - intros i j b. rewrite !set_evtchn_bucket. intros Hj Hij.
    assert (exists b0, ed_evtchn d !! j = Some (Some b0)) as [b0 Hb0].
    { revert Hj. case_decide; [|by eauto].
      destruct (ed_evtchn d !! j) as [[b0|]|]; simpl; [by eauto|done|done]. }
    destruct (Hpre i j b0 Hb0 Hij) as [b' Hb']. rewrite Hb'.
    destruct (decide (i = Z.to_nat (p / 256))); eexists; reflexivity.
Qed.

(** ** A new bucket *)

(** The next bucket of the table starts at [p]. *)
Definition next_bucket (d : evdom) (p : Z) : Prop :=
  0 <= p < MAX_EVTCHNS /\ p mod 256 = 0 /\ port_is_valid d p = false /\
  forall q, 0 <= q < p -> port_is_valid d q = true.

Lemma add_bucket_lookup d p i : ports_ok d -> 0 <= p < MAX_EVTCHNS ->
  ed_evtchn (add_bucket p d) !! i =
  (if decide (i = Z.to_nat (p / 256)) then Some (Some (replicate 256 evtchn_zero))
   else ed_evtchn d !! i).
Proof.
  intros Hok Hp. unfold add_bucket. cbn [ed_evtchn set_ed_evtchn].
  change (p / EVTCHNS_PER_BUCKET) with (p / 256). case_decide as Hi.
  - subst i. apply list_lookup_insert_eq. rewrite (po_len d Hok).
    unfold MAX_EVTCHNS, NR_EVTCHN_BUCKETS in *. apply Z2Nat.inj_lt; zlia.
  - by apply list_lookup_insert_ne.
Qed.

Lemma add_bucket_chan d p q : ports_ok d -> next_bucket d p ->
  chan (add_bucket p d) q =
  if decide (p <= q < p + 256) then Some evtchn_zero else chan d q.
Proof.
  intros Hok (Hp & Hpm & Hpv & Hbelow). unfold MAX_EVTCHNS in *.
  destruct (decide (0 <= q < 4096)) as [Hq|Hq].
  2: { assert (forall d', port_is_valid d' q = false) as Hv.
       { intros d'. unfold port_is_valid, MAX_EVTCHNS.
         destruct (Z.leb_spec 0 q), (Z.ltb_spec q 4096); try done; lia. }
       unfold chan. rewrite !Hv. rewrite decide_False; [done|]. zlia. }
  unfold chan, port_is_valid, evtchn_from_port, bucket_from_port, MAX_EVTCHNS.
  rewrite land_mod. change (q / EVTCHNS_PER_BUCKET) with (q / 256).
  rewrite add_bucket_lookup by done.
  assert ((0 <=? q) && (q <? 4096) = true) as -> by lia. cbn [andb].
  destruct (decide (Z.to_nat (q / 256) = Z.to_nat (p / 256))) as [Hi|Hi].
  - rewrite decide_True by zlia. rewrite bool_decide_eq_true_2 by done.
    change (mjoin (Some ?x)) with x. cbn [mbind option_bind].
    apply lookup_replicate. split; [done|]. pose proof (Z.mod_pos_bound q 256). lia.
  - rewrite decide_False by zlia. done.
Qed.

Lemma add_bucket_ok d p : ports_ok d -> next_bucket d p -> ports_ok (add_bucket p d).
Proof.
  intros Hok (Hp & Hpm & Hpv & Hbelow). split.
  - unfold add_bucket. cbn [ed_evtchn set_ed_evtchn]. rewrite length_insert.
    apply (po_len d Hok).
  - intros i b. rewrite add_bucket_lookup by done. case_decide; [|apply (po_bucket d Hok)].
    intros Hb. apply (inj Some), (inj Some) in Hb. subst b.
    rewrite length_replicate. split; [done|]. by apply Forall_replicate.
  - intros i j b. rewrite !add_bucket_lookup by done. intros Hj Hij.
    destruct (decide (i = Z.to_nat (p / 256))) as [Hi|Hi]; [eexists; reflexivity|].
    destruct (decide (j = Z.to_nat (p / 256))) as [Hj'|Hj']; [|by eapply po_prefix].
    assert (port_is_valid d (256 * Z.of_nat i) = true) as Hv.
    { apply Hbelow. zlia. }
    apply valid_bucket in Hv as (_ & b' & Hb'%bucket_Some). exists b'.
    rewrite <- Hb'. f_equal. rewrite Z.mul_comm, Z.div_mul by done. lia.
Qed.

(** ** The scan for a free port *)

(** Every port from [a] up to [b] has a channel that is in use. *)
Definition in_use (d : evdom) (a b : Z) : Prop :=
  forall q, a <= q < b -> exists c, chan d q = Some c /\ state c <> ECS_FREE.

Lemma scan_ports_spec d fuel port : ports_ok d -> 0 <= port <= MAX_EVTCHNS ->
  MAX_EVTCHNS - port < Z.of_nat fuel ->
  let '(o, p) := scan_ports d fuel port in
  port <= p <= MAX_EVTCHNS /\ in_use d port p /\
  match o with
  | Some p' => p' = p /\ exists c, chan d p = Some c /\ state c = ECS_FREE
  | None => port_is_valid d p = false
  end.
Proof.
  intros Hok. revert port. induction fuel as [|fuel IH]; intros port Hp Hf; [lia|].
  cbn [scan_ports]. destruct (port_is_valid d port) eqn:Hv.
  2: { split; [lia|]. split; [|done]. intros q Hq. lia. }
  pose proof Hv as (Hlt & _)%valid_bucket. destruct (chan_valid d port Hok Hv) as (c & Hc & _).
  rewrite Hc. assert (chan d port = Some c) as Hch by (unfold chan; by rewrite Hv).
  destruct (decide (state c = ECS_FREE)) as [Hs|Hs].
  - split; [lia|]. split; [intros q Hq; lia|]. by eauto.
  - specialize (IH (port + 1) ltac:(lia) ltac:(lia)).
    destruct (scan_ports d fuel (port + 1)) as [o p]. destruct IH as (H1 & H2 & H3).
    split; [lia|]. split; [|done]. intros q Hq. destruct (decide (q = port)) as [->|].
    + by exists c.
    + apply H2. lia.
Qed.

(** The scan that ends before the last port ends at a new bucket. *)
Lemma scan_end_next_bucket d p : ports_ok d -> 0 <= p < MAX_EVTCHNS ->
  in_use d 0 p -> port_is_valid d p = false -> next_bucket d p.
Proof.
  intros Hok Hp Huse Hv.
  assert (forall q, 0 <= q < p -> port_is_valid d q = true) as Hbelow.
  { intros q Hq. destruct (Huse q Hq) as (c & [? _]%chan_Some & _). done. }
  split; [done|]. split; [|done].
  destruct (decide (p mod 256 = 0)) as [|Hm]; [done|]. exfalso.
  assert (0 <= p - 1 < p) as Hr by zlia.
  pose proof (Hbelow (p - 1) Hr) as (_ & b & Hb%bucket_Some)%valid_bucket.
  replace ((p - 1) / 256) with (p / 256) in Hb by zlia.
  apply bucket_Some in Hb. apply not_true_iff_false in Hv. apply Hv, valid_bucket. by eauto.
Qed.

(** [d'] has the channels of [d], and free channels for some more ports. *)
Definition grows (d d' : evdom) : Prop :=
  ed_is_dying d' = ed_is_dying d /\ ed_pending d' = ed_pending d /\
  forall q, chan d' q = chan d q \/ chan d q = None /\ chan d' q = Some evtchn_zero.

(** All domains have well-formed tables. *)
Definition ev_ok (s : evstate) : Prop :=
  forall k d, es_doms s !! k = Some d -> ports_ok d.

(** Only the table of [did] changed, from [d] to [d']. *)
Definition only_table (did : Z) (d' : evdom) (s s' : evstate) : Prop :=
  es_doms s' = <[did := d']> (es_doms s) /\ m_mem (es_m s') = m_mem (es_m s).

Section GetFreePort.
Context `{E : HostEnv}.

Lemma get_free_port_spec did s d : es_doms s !! did = Some d -> ports_ok d ->
  ed_is_dying d = false ->
  let '(s', r) := get_free_port did s in
  m_log (es_m s') = m_log (es_m s) /\
  match r with
  | Ok p => 0 <= p < MAX_EVTCHNS /\ in_use d 0 p /\
      exists d' c, only_table did d' s s' /\ ports_ok d' /\ grows d d' /\
        chan d' p = Some c /\ state c = ECS_FREE
  | Err e => es_doms s' = es_doms s /\
      (e = - ENOSPC /\ in_use d 0 MAX_EVTCHNS \/
       e = - ENOMEM /\ env_alloc_xenheap_page (m_time (es_m s)) = false /\
       exists p, next_bucket d p /\ in_use d 0 p)
  | Bug => False
  end.
Proof.
  intros Hd Hok Hdy. unfold get_free_port, ev_domain.
  pose proof (scan_ports_spec d (S (Z.to_nat MAX_EVTCHNS)) 0 Hok ltac:(done) ltac:(done)) as Hs.
  unfold bind at 1 2, get. rewrite Hd. unfold ret at 1. rewrite Hdy.
  unfold bind at 1. cbn [fail_if]. unfold ret at 1.
  destruct (scan_ports d _ 0) as [[p'|] p]; destruct Hs as (Hr & Huse & Ho).
  - destruct Ho as (-> & c & Hc & Hf).
    assert (port_is_valid d p = true) as Hv by (by apply chan_Some in Hc as []).
    pose proof Hv as (Hp & _)%valid_bucket. simpl. split; [done|]. split; [done|].
    split; [done|]. exists d, c. split; [split; [by rewrite insert_id|done]|].
    split; [done|]. split; [|done]. split; [done|]. split; [done|]. by left.
  - destruct (Z.eqb_spec p MAX_EVTCHNS) as [->|Hne]; unfold bind, fail_if, ret; simpl.
    { split; [done|]. split; [done|]. by left. }
    assert (next_bucket d p) as Hnb by (apply scan_end_next_bucket; [done|lia|done|done]).
    destruct (env_alloc_xenheap_page _) eqn:Ea; simpl.
    2: { split; [done|]. split; [done|]. right. by eauto. }
    split; [done|]. split; [lia|]. split; [done|]. exists (add_bucket p d), evtchn_zero.
    split; [done|]. split; [by apply add_bucket_ok|]. split.
    + split; [done|]. split; [done|]. intros q. rewrite add_bucket_chan by done.
      case_decide as Hq; [|by left]. right. split; [|done]. apply chan_None; [done|].
      destruct Hnb as (Hp' & Hpm & Hpv & _). apply not_true_iff_false. intros Hvq.
      apply not_true_iff_false in Hpv. apply Hpv. eapply valid_below; [done..|lia].
    + rewrite add_bucket_chan by done. rewrite decide_True by lia. done.
Qed.
End GetFreePort.
