(* ===== verification/EventChannelProps.v ===== *)
(** * Event channels: the operations

    Each operation on the table of ports, on every branch; the life of a
    channel from its allocation by the hypervisor to the signal at the host. *)

From stdpp Require Import base list numbers gmap.
From Stdlib Require Import ZArith Lia.
From S2P Require Import Prelude Machine EventChannel.

Open Scope Z_scope.
Open Scope se_scope.

(** ** Stepping through the operations *)

Lemma ev_domain_eq did s d : es_doms s !! did = Some d -> ev_domain did s = (s, Ok d).
Proof. intros Hd. unfold ev_domain, bind, get. by rewrite Hd. Qed.

Lemma channel_eq did p s d c : es_doms s !! did = Some d -> chan d p = Some c ->
  channel did p s = (s, Ok c).
Proof.
  intros Hd [_ Hc]%chan_Some. unfold channel, bind.
  rewrite (ev_domain_eq _ _ _ Hd). by rewrite Hc.
Qed.

(** The state with the table of [did] replaced. *)
Definition with_table (did : Z) (d : evdom) (s : evstate) : evstate :=
  {| es_m := es_m s; es_doms := <[did := d]> (es_doms s) |}.

Lemma update_channel_eq did p f s d c : es_doms s !! did = Some d -> chan d p = Some c ->
  update_channel did p f s = (with_table did (set_evtchn p (f c) d) s, Ok tt).
Proof.
  intros Hd [_ Hc]%chan_Some. unfold update_channel, bind.
  rewrite (ev_domain_eq _ _ _ Hd), Hc. done.
Qed.

Lemma with_table_ok did d s : ev_ok s -> ports_ok d -> ev_ok (with_table did d s).
Proof.
  intros Hs Hd k d'. unfold with_table. cbn [es_doms].
  rewrite lookup_insert_Some. intros [[_ <-]|[_ Hk]]; [done|by eapply Hs].
Qed.

Lemma with_table_twice did d d' s :
  with_table did d' (with_table did d s) = with_table did d' s.
Proof. unfold with_table. simpl. by rewrite insert_insert_eq. Qed.

(** The channel of port [p] became [c]; all other channels are the same. *)
Definition chan_set (p : Z) (c : evtchn) (d d' : evdom) : Prop :=
  chan d' p = Some c /\ (forall q, q <> p -> chan d' q = chan d q) /\
  ed_is_dying d' = ed_is_dying d.

Lemma set_evtchn_spec d p c0 c : ports_ok d -> chan d p = Some c0 -> chan_ok c ->
  ports_ok (set_evtchn p c d) /\ chan_set p c d (set_evtchn p c d) /\
  ed_pending (set_evtchn p c d) = ed_pending d.
Proof.
  intros Hok [Hv _]%chan_Some Hc. split; [by apply set_evtchn_ok|]. split; [|done].
  split; [|split; [|done]].
  - rewrite set_evtchn_chan by done. by rewrite decide_True.
  - intros q Hq. rewrite set_evtchn_chan by done. by rewrite decide_False.
Qed.

Lemma set_pending_chan x d q : chan (set_ed_pending x d) q = chan d q.
Proof. done. Qed.

Section Ops.
Context `{E : HostEnv}.

(** ** Allocation *)

Definition unbound_chan (vcpu_id remote_domid : Z) : evtchn :=
  {| state := ECS_UNBOUND; consumer_is_xen := true; notify_vcpu_id := vcpu_id;
     chn_u := u_unbound remote_domid |}.

Lemma alloc_unbound_spec did vcpu_id remote s d : ev_ok s -> es_doms s !! did = Some d ->
  let '(s', r) := alloc_unbound_xen_event_channel did vcpu_id remote s in
  ev_ok s' /\
  match r with
  | Ok p => ed_is_dying d = false /\ 0 <= p < MAX_EVTCHNS /\ in_use d 0 p /\
      (forall c, chan d p = Some c -> state c = ECS_FREE) /\
      exists d', only_table did d' s s' /\ ports_ok d' /\
        ed_is_dying d' = false /\ chan d' p = Some (unbound_chan vcpu_id remote) /\
        forall q, q <> p -> chan d' q = chan d q \/
                            chan d q = None /\ chan d' q = Some evtchn_zero
  | Err e => es_doms s' = es_doms s /\
      (e = - EINVAL /\ ed_is_dying d = true \/ e = - ENOSPC /\ in_use d 0 MAX_EVTCHNS \/
       e = - ENOMEM /\ env_alloc_xenheap_page (m_time (es_m s)) = false)
  | Bug => False
  end.
Proof.
  intros Hs Hd. pose proof (Hs _ _ Hd) as Hok.
  unfold alloc_unbound_xen_event_channel. unfold bind at 1.
  destruct (ed_is_dying d) eqn:Hdy.
  { unfold get_free_port. unfold bind at 1. rewrite (ev_domain_eq _ _ _ Hd), Hdy.
    split; [done|]. split; [done|]. by left. }
  pose proof (get_free_port_spec did s d Hd Hok Hdy) as Hg.
  destruct (get_free_port did s) as [s1 [p|e|]]; [| |by destruct Hg].
  2: { destruct Hg as (_ & HD & He). split; [intros k d0; rewrite HD; apply Hs|].
       split; [done|]. right. destruct He as [[]|(? & ? & _)]; [by left|by right]. }
  destruct Hg as (_ & Hp & Huse & d1 & c & [HD HM] & Hok1 & Hgr & Hc & Hf).
  assert (es_doms s1 !! did = Some d1) as Hd1 by (by rewrite HD, lookup_insert_eq).
  unfold bind. rewrite (update_channel_eq _ _ _ _ _ _ Hd1 Hc). unfold ret.
  fold (unbound_chan vcpu_id remote).
  destruct (set_evtchn_spec d1 p c (unbound_chan vcpu_id remote) Hok1 Hc) as (H1 & H2 & _).
  { by exists remote. }
  split.
  { apply with_table_ok; [|done]. intros k d0. rewrite HD, lookup_insert_Some.
    intros [[_ <-]|[_ ?]]; [done|by eapply Hs]. }
  split; [done|]. split; [done|]. split; [done|]. destruct Hgr as (Hdy1 & _ & Hgr). split.
  { intros c0 Hc0. destruct (Hgr p) as [Heq|[Hn _]]; congruence. }
  exists (set_evtchn p (unbound_chan vcpu_id remote) d1). destruct H2 as (Hp2 & Hq2 & Hdy2).
  split; [split; [|done]|split; [done|split; [congruence|split; [done|]]]].
  - unfold with_table. cbn [es_doms]. by rewrite HD, insert_insert_eq.
  - intros q Hq. rewrite Hq2 by done. apply Hgr.
Qed.

(** ** Closing *)

(** The channel once it is closed. *)
Definition closed_chan (c : evtchn) : evtchn :=
  {| state := ECS_FREE; consumer_is_xen := consumer_is_xen c; notify_vcpu_id := 0;
     chn_u := chn_u c |}.

(** May the guest side close it? *)
Definition closable (d : evdom) (p : Z) : option evtchn :=
  match chan d p with
  | Some c => if consumer_is_xen c then None
              else match state c with ECS_UNBOUND | ECS_HOST => Some c | _ => None end
  | None => None
  end.

(** The table after the port was closed. *)
Definition closed_table (p : Z) (c : evtchn) (d : evdom) : evdom :=
  set_evtchn p (closed_chan c) (set_ed_pending (Z.clearbit (ed_pending d) p) d).

Lemma evtchn_close_eq did p s d : ports_ok d -> es_doms s !! did = Some d ->
  evtchn_close did p s =
  match closable d p with
  | Some c => (with_table did (closed_table p c d) s, Ok tt)
  | None => (s, Err (- EINVAL))
  end.
Proof.
  intros Hok Hd. unfold evtchn_close, closable. unfold bind at 1.
  rewrite (ev_domain_eq _ _ _ Hd). destruct (chan d p) as [c|] eqn:Hc.
  - pose proof Hc as [Hv _]%chan_Some. rewrite Hv. unfold bind at 1. cbn [fail_if negb].
    unfold ret at 1, bind at 1. rewrite (channel_eq _ _ _ _ _ Hd Hc).
    unfold bind at 1. destruct (consumer_is_xen c) eqn:Hx; [done|]. cbn [fail_if].
    unfold ret at 1.
    assert (forall k, (set_ev_domain did (set_ed_pending (Z.clearbit (ed_pending d) p) d);;
      update_channel did p k) s = (with_table did (set_evtchn p (k c)
        (set_ed_pending (Z.clearbit (ed_pending d) p) d)) s, Ok tt)) as Hrun.
    { intros k. unfold bind, set_ev_domain, modify.
      rewrite (update_channel_eq _ _ _ _ (set_ed_pending (Z.clearbit (ed_pending d) p) d) c);
        [|cbn [es_doms]; by rewrite lookup_insert_eq|done].
      unfold with_table. cbn [es_m es_doms]. by rewrite insert_insert_eq. }
    destruct (state c); [done|done|apply Hrun|apply Hrun].
  - apply chan_None in Hc; [|done]. by rewrite Hc.
Qed.

Lemma closed_table_spec p c d : ports_ok d -> closable d p = Some c ->
  ports_ok (closed_table p c d) /\ chan_set p (closed_chan c) d (closed_table p c d) /\
  ed_pending (closed_table p c d) = Z.clearbit (ed_pending d) p.
Proof.
  intros Hok Hcl. unfold closable in Hcl. destruct (chan d p) as [c0|] eqn:Hc; [|done].
  destruct (consumer_is_xen c0) eqn:Hx; [done|].
  assert (c0 = c) as -> by (by destruct (state c0); simplify_eq).
  unfold closed_table. set (d0 := set_ed_pending _ d).
  destruct (set_evtchn_spec d0 p c (closed_chan c)) as (H1 & H2 & H3); [by destruct Hok|done|by split|].
  split; [done|]. split; [exact H2|exact H3].
Qed.

(** ** Binding to the host *)

Definition host_chan (opaque : Z) (c : evtchn) : evtchn :=
  {| state := ECS_HOST; consumer_is_xen := consumer_is_xen c;
     notify_vcpu_id := notify_vcpu_id c; chn_u := u_host opaque |}.

(** The channel waits for the domain [cur]. *)
Definition bindable (d : evdom) (p cur : Z) : option evtchn :=
  match chan d p with
  | Some c => if decide (state c = ECS_UNBOUND /\ chn_u c = u_unbound cur)
              then Some c else None
  | None => None
  end.

Lemma evtchn_bind_host_eq cur rdom rport o s : ev_ok s ->
  evtchn_bind_host cur rdom rport o s =
  if o =? 0 then (s, Err (- EINVAL))
  else if negb (cur =? 0) then (s, Err (- EPERM))
  else match (if DOMID_FIRST_RESERVED <=? rdom then None else es_doms s !! rdom) with
       | None => (s, Err (- ESRCH))
       | Some d =>
           match bindable d (s32 rport) cur with
           | Some c => (with_table rdom (set_evtchn (s32 rport) (host_chan o c) d) s, Ok tt)
           | None => (s, Err (- EINVAL))
           end
       end.
Proof.
  intros Hs. unfold evtchn_bind_host. unfold bind at 1, fail_if at 1.
  destruct (o =? 0); [done|]. unfold ret at 1, bind at 1, fail_if at 1.
  destruct (negb (cur =? 0)); [done|]. unfold ret at 1, bind at 1, get.
  destruct (DOMID_FIRST_RESERVED <=? rdom); [done|].
  destruct (es_doms s !! rdom) as [d|] eqn:Hd; [|done]. pose proof (Hs _ _ Hd) as Hok.
  unfold bindable. destruct (chan d (s32 rport)) as [c|] eqn:Hc.
  - pose proof Hc as [Hv _]%chan_Some. rewrite Hv. unfold bind at 1. cbn [fail_if negb].
    unfold ret at 1, bind at 1. rewrite (channel_eq _ _ _ _ _ Hd Hc).
    case_decide as Hb.
    + destruct Hb as [Hb1 Hb2]. rewrite !bool_decide_eq_true_2 by done. cbn [andb negb fail_if].
      unfold bind, ret. by rewrite (update_channel_eq _ _ _ _ _ _ Hd Hc).
    + unfold bind, fail_if. case_bool_decide; case_bool_decide; cbn [andb negb]; tauto.
  - apply chan_None in Hc; [|done]. by rewrite Hc.
Qed.

Lemma bindable_spec d p cur o c : ports_ok d -> bindable d p cur = Some c -> o <> 0 ->
  chan d p = Some c /\ ports_ok (set_evtchn p (host_chan o c) d) /\
  chan_set p (host_chan o c) d (set_evtchn p (host_chan o c) d).
Proof.
  intros Hok Hb Ho. unfold bindable in Hb. destruct (chan d p) as [c0|] eqn:Hc; [|done].
  case_decide; [|done]. injection Hb as ->.
  destruct (set_evtchn_spec d p c (host_chan o c) Hok Hc) as (H1 & H2 & _); [|done].
  by exists o.
Qed.

(** ** Freeing *)

(** The table after the hypervisor gave up the channel. *)
Definition freed_table (p : Z) (c : evtchn) (d : evdom) : evdom :=
  closed_table p (set_consumer_is_xen false c)
    (set_evtchn p (set_consumer_is_xen false c) d).

(** The channel, if the hypervisor consumes it. *)
Definition xen_chan (d : evdom) (p : Z) : option evtchn :=
  match chan d p with
  | Some c => if consumer_is_xen c then Some c else None
  | None => None
  end.

Lemma xen_chan_Some d p c : ports_ok d -> xen_chan d p = Some c ->
  chan d p = Some c /\ consumer_is_xen c = true /\
  (state c = ECS_UNBOUND \/ state c = ECS_HOST) /\ chan_ok (set_consumer_is_xen false c).
Proof.
  intros Hok. unfold xen_chan. destruct (chan d p) as [c0|] eqn:Hc; [|done].
  destruct (consumer_is_xen c0) eqn:Hx; [|done]. intros [= <-].
  pose proof (chan_Some_ok d p c0 Hok Hc) as Hco. unfold chan_ok in *. simpl.
  destruct (state c0); [destruct Hco; congruence|destruct Hco; congruence|by auto|by auto].
Qed.

(** Giving up a channel: what [free_xen_event_channel] and [evtchn_destroy] do. *)
Lemma release_spec did p s d c : ev_ok s -> es_doms s !! did = Some d ->
  xen_chan d p = Some c ->
  (update_channel did p (set_consumer_is_xen false);; evtchn_close did p) s =
    (with_table did (freed_table p c d) s, Ok tt) /\
  ports_ok (freed_table p c d) /\
  chan_set p (closed_chan (set_consumer_is_xen false c)) d (freed_table p c d) /\
  ed_pending (freed_table p c d) = Z.clearbit (ed_pending d) p.
Proof.
  intros Hs Hd Hx. pose proof (Hs _ _ Hd) as Hok.
  destruct (xen_chan_Some d p c Hok Hx) as (Hc & Hxen & Hst & Hok').
  destruct (set_evtchn_spec d p c (set_consumer_is_xen false c) Hok Hc Hok')
    as (Hok1 & (Hc1 & Hq1 & Hdy1) & Hp1).
  set (d1 := set_evtchn p (set_consumer_is_xen false c) d) in *.
  assert (closable d1 p = Some (set_consumer_is_xen false c)) as Hcl.
  { unfold closable. rewrite Hc1. simpl. by destruct Hst as [-> | ->]. }
  destruct (closed_table_spec p _ d1 Hok1 Hcl) as (Hok2 & (Hc2 & Hq2 & Hdy2) & Hp2).
  unfold freed_table. fold d1. rewrite Hp1 in Hp2.
  split; [|split; [done|split; [|done]]].
  - unfold bind. rewrite (update_channel_eq _ _ _ _ _ _ Hd Hc). fold d1.
    rewrite (evtchn_close_eq did p _ d1), Hcl;
      [|done|unfold with_table; cbn [es_doms]; by rewrite lookup_insert_eq].
    by rewrite with_table_twice.
  - split; [done|]. split; [|by rewrite Hdy2]. intros q Hq. by rewrite Hq2, Hq1.
Qed.

Lemma free_xen_event_channel_eq did p s d : ev_ok s -> es_doms s !! did = Some d ->
  free_xen_event_channel did p s =
  if ed_is_dying d then (s, Ok tt)
  else match xen_chan d p with
       | Some c => (with_table did (freed_table p c d) s, Ok tt)
       | None => (s, Ok tt)
       end.
Proof.
  intros Hs Hd. pose proof (Hs _ _ Hd) as Hok. unfold free_xen_event_channel.
  unfold bind at 1. rewrite (ev_domain_eq _ _ _ Hd). destruct (ed_is_dying d); [done|].
  destruct (xen_chan d p) as [c|] eqn:Hx.
  - destruct (xen_chan_Some d p c Hok Hx) as (Hc & Hxen & _).
    destruct (release_spec did p s d c Hs Hd Hx) as (Hrun & _).
    pose proof Hc as [Hv _]%chan_Some. rewrite Hv. unfold bind in Hrun |- *.
    rewrite (channel_eq _ _ _ _ _ Hd Hc), Hxen. unfold when, ret, code.
    destruct (update_channel did p _ s) as [s1 [[]|e|]]; [|done..]. by rewrite Hrun.
  - unfold xen_chan in Hx. destruct (chan d p) as [c|] eqn:Hc.
    + pose proof Hc as [Hv _]%chan_Some. rewrite Hv. unfold bind.
      rewrite (channel_eq _ _ _ _ _ Hd Hc). by destruct (consumer_is_xen c).
    + apply chan_None in Hc; [|done]. by rewrite Hc.
Qed.

(** ** Notification *)

Lemma notify_eq did p s d : ev_ok s -> es_doms s !! did = Some d ->
  notify_via_xen_event_channel did p s =
  (match (if ed_is_dying d then None else xen_chan d p) with
   | Some {| state := ECS_HOST; notify_vcpu_id := v; chn_u := u_host o |} =>
       {| es_m := set_log (EvHostSignal did v o :: m_log (es_m s)) (es_m s);
          es_doms := es_doms s |}
   | _ => s
   end, Ok tt).
Proof.
  intros Hs Hd. pose proof (Hs _ _ Hd) as Hok. unfold notify_via_xen_event_channel.
  unfold bind at 1. rewrite (ev_domain_eq _ _ _ Hd). destruct (ed_is_dying d); [done|].
  unfold xen_chan. destruct (chan d p) as [c|] eqn:Hc.
  - pose proof Hc as [Hv _]%chan_Some. rewrite Hv. unfold bind.
    rewrite (channel_eq _ _ _ _ _ Hd Hc).
    pose proof (chan_Some_ok d p c Hok Hc) as Hco. destruct c as [st x v un].
    cbn [consumer_is_xen state chn_u notify_vcpu_id] in *. destruct x; [|done].
    destruct st; try done. destruct Hco as (o & _ & Hu). simpl in Hu. by subst un.
  - apply chan_None in Hc; [|done]. by rewrite Hc.
Qed.

Lemma host_opaque_eq did p s d c : ev_ok s -> es_doms s !! did = Some d ->
  ed_is_dying d = false -> xen_chan d p = Some c ->
  xen_event_channel_host_opaque did p s =
  (s, Ok match chn_u c with
         | u_host o => if decide (state c = ECS_HOST) then o else 0
         | _ => 0
         end).
Proof.
  intros Hs Hd Hdy Hx. pose proof (Hs _ _ Hd) as Hok.
  destruct (xen_chan_Some d p c Hok Hx) as (Hc & Hxen & Hst & _).
  unfold xen_event_channel_host_opaque. unfold bind at 1.
  rewrite (ev_domain_eq _ _ _ Hd), Hdy. pose proof Hc as [Hv _]%chan_Some. rewrite Hv.
  unfold bind at 1. cbn [bug_if negb]. unfold ret at 1, bind at 1.
  rewrite (channel_eq _ _ _ _ _ Hd Hc), Hxen. unfold bind, bug_if, ret. simpl.
  pose proof (chan_Some_ok d p c Hok Hc) as Hco. unfold chan_ok in Hco.
  destruct Hst as [Hst|Hst]; rewrite Hst in Hco |- *.
  - destruct Hco as [r ->]. done.
  - destruct Hco as (o & _ & ->). by rewrite decide_True.
Qed.

(** ** The end of a domain's channels *)

Definition idle (c : evtchn) : Prop := state c = ECS_FREE \/ state c = ECS_RESERVED.

Lemma chan_set_valid p c d d' q : ports_ok d -> ports_ok d' -> chan_set p c d d' ->
  port_is_valid d p = true -> port_is_valid d' q = port_is_valid d q.
Proof.
  intros Hok Hok' (Hc & Hq & _) Hv. destruct (decide (q = p)) as [->|Hne].
  - rewrite Hv. by apply chan_Some in Hc as [-> _].
  - specialize (Hq q Hne). destruct (port_is_valid d q) eqn:E1.
    + destruct (chan_valid d q Hok E1) as (c1 & Hc1 & _).
      assert (chan d' q = Some c1) as H by (rewrite Hq; unfold chan; by rewrite E1).
      by apply chan_Some in H as [-> _].
    + apply (chan_None d q Hok) in E1. rewrite E1 in Hq. by apply chan_None in Hq.
Qed.

(** One step of the loop of [evtchn_destroy]. *)
Lemma close_port_spec did p s d c : ev_ok s -> es_doms s !! did = Some d ->
  chan d p = Some c ->
  exists d' c', (forall A (k : Z -> SE evstate A) , exists e,
      (update_channel did p (set_consumer_is_xen false);;
       e <- code (evtchn_close did p);; k e) s = k e (with_table did d' s)) /\
    ports_ok d' /\ chan_set p c' d d' /\ idle c'.
Proof.
  intros Hs Hd Hc. pose proof (Hs _ _ Hd) as Hok. pose proof (chan_Some_ok d p c Hok Hc) as Hco.
  assert (chan_ok (set_consumer_is_xen false c)) as Hco'.
  { unfold chan_ok in *. simpl. destruct (state c); [by destruct Hco|by destruct Hco|done|done]. }
  destruct (set_evtchn_spec d p c (set_consumer_is_xen false c) Hok Hc Hco')
    as (Hok1 & (Hc1 & Hq1 & Hdy1) & _).
  set (d1 := set_evtchn p (set_consumer_is_xen false c) d) in *.
  assert (es_doms (with_table did d1 s) !! did = Some d1) as Hd1
    by (unfold with_table; cbn [es_doms]; by rewrite lookup_insert_eq).
  destruct (closable d1 p) as [c1|] eqn:Hcl.
  - destruct (closed_table_spec p c1 d1 Hok1 Hcl) as (Hok2 & (Hc2 & Hq2 & Hdy2) & _).
    exists (closed_table p c1 d1), (closed_chan c1). split; [|split; [done|split; [|by left]]].
    + intros A k. exists 0. unfold bind at 1. rewrite (update_channel_eq _ _ _ _ _ _ Hd Hc).
      fold d1. unfold bind, code. rewrite (evtchn_close_eq did p _ d1 Hok1 Hd1), Hcl.
      by rewrite with_table_twice.
    + split; [done|]. split; [|congruence]. intros q Hq. by rewrite Hq2, Hq1.
  - exists d1, (set_consumer_is_xen false c). split; [|split; [done|split; [done|]]].
    + intros A k. exists (- EINVAL). unfold bind at 1. rewrite (update_channel_eq _ _ _ _ _ _ Hd Hc).
      fold d1. unfold bind, code. by rewrite (evtchn_close_eq did p _ d1 Hok1 Hd1), Hcl.
    + unfold closable in Hcl. rewrite Hc1 in Hcl. simpl in Hcl. unfold idle. simpl.
      destruct (state c); auto; done.
Qed.

Lemma close_ports_spec did fuel port s d : ev_ok s -> es_doms s !! did = Some d ->
  0 <= port <= MAX_EVTCHNS -> MAX_EVTCHNS - port < Z.of_nat fuel ->
  exists d', close_ports did fuel port s = (with_table did d' s, Ok tt) /\
    ports_ok d' /\ ed_is_dying d' = ed_is_dying d /\
    (forall q, port_is_valid d' q = port_is_valid d q) /\
    (forall q, q < port -> chan d' q = chan d q) /\
    (forall q c, port <= q -> chan d' q = Some c -> idle c).
Proof.
  revert port s d. induction fuel as [|fuel IH]; intros port s d Hs Hd Hp Hf; [lia|].
  pose proof (Hs _ _ Hd) as Hok. cbn [close_ports]. unfold bind at 1.
  rewrite (ev_domain_eq _ _ _ Hd). destruct (port_is_valid d port) eqn:Hv.
  - pose proof Hv as (Hlt & _)%valid_bucket. destruct (chan_valid d port Hok Hv) as (c & Hc & _).
    assert (chan d port = Some c) as Hch by (unfold chan; by rewrite Hv).
    destruct (close_port_spec did port s d c Hs Hd Hch) as (d1 & c1 & Hrun & Hok1 & Hcs & Hidle).
    destruct (Hrun unit (fun _ => close_ports did fuel (port + 1))) as [e ->].
    destruct (IH (port + 1) (with_table did d1 s) d1) as (d2 & H2 & Hok2 & Hdy2 & Hv2 & Hlo2 & Hhi2).
    + by apply with_table_ok.
    + unfold with_table. cbn [es_doms]. by rewrite lookup_insert_eq.
    + lia.
    + lia.
    + exists d2. rewrite H2, with_table_twice. split; [done|]. split; [done|].
      destruct Hcs as (Hc1 & Hq1 & Hdy1). split; [congruence|].
      split; [|split].
      * intros q. rewrite Hv2. by eapply (chan_set_valid port c1).
      * intros q Hq. rewrite Hlo2, Hq1 by lia. done.
      * intros q c2 Hq Hc2. destruct (decide (q = port)) as [->|]; [|eapply Hhi2; [|done]; lia].
        rewrite Hlo2 in Hc2 by lia. congruence.
  - exists d. split; [|split; [done|split; [done|split; [done|split; [done|]]]]].
    + unfold with_table. rewrite insert_id by done. by destruct s.
    + intros q c Hq Hc. exfalso. apply chan_Some in Hc as [Hvq _].
      rewrite (valid_below d q port Hok Hvq) in Hv; [done|]. lia.
Qed.

Lemma evtchn_destroy_spec did s d : ev_ok s -> es_doms s !! did = Some d ->
  ed_is_dying d = true ->
  exists d', evtchn_destroy did s = (with_table did d' s, Ok tt) /\
    ports_ok d' /\ ed_is_dying d' = true /\ forall p, port_is_valid d' p = false.
Proof.
  intros Hs Hd Hdy. unfold evtchn_destroy. unfold bind at 1.
  rewrite (ev_domain_eq _ _ _ Hd), Hdy. unfold bind at 1. cbn [bug_if negb]. unfold ret at 1.
  destruct (close_ports_spec did (S (Z.to_nat MAX_EVTCHNS)) 0 s d Hs Hd ltac:(done) ltac:(done))
    as (d1 & H1 & Hok1 & Hdy1 & _).
  set (fuel := S (Z.to_nat MAX_EVTCHNS)) in *. unfold bind at 1. rewrite H1. unfold bind.
  rewrite (ev_domain_eq did (with_table did d1 s) d1)
    by (unfold with_table; cbn [es_doms]; by rewrite lookup_insert_eq).
  exists (set_ed_evtchn (replicate (Z.to_nat NR_EVTCHN_BUCKETS) None) d1).
  split; [|split; [|split; [by rewrite <- Hdy, <- Hdy1|]]].
  - unfold set_ev_domain, modify, with_table. cbn [es_m es_doms]. by rewrite insert_insert_eq.
  - split; cbn [ed_evtchn set_ed_evtchn].
    + by rewrite length_replicate.
    + by intros i b [[=] _]%lookup_replicate.
    + by intros i j b [[=] _]%lookup_replicate.
  - intros p. apply not_true_iff_false. intros (_ & b & Hb%bucket_Some)%valid_bucket.
    cbn [ed_evtchn set_ed_evtchn] in Hb. by apply lookup_replicate in Hb as [[=] _].
Qed.
End Ops.

(** ** Examples: domains 0 and 3, without channels and with the table set up *)

Definition no_ports (dying : bool) : evdom :=
  {| ed_is_dying := dying; ed_evtchn := replicate (Z.to_nat NR_EVTCHN_BUCKETS) None;
     ed_pending := 0 |}.
Definition ev_env : HostEnv := {|
  env_guest_read := fun _ a n => (tabulate (fun _ => 0) a n, 0);
  env_guest_write := fun _ _ _ => 0;
  env_handle_ok := fun _ _ _ => true;
  env_xmalloc := fun _ => true;
  env_alloc_xenheap_page := fun _ => true;
  env_map_page := fun _ _ => true;
  env_get_gfn_unshare := fun _ _ pfn => pfn;
  env_mfn_retry := fun _ => false;
  env_mfn_valid := fun _ => true;
  env_mfn_valid_page := fun _ => true;
  env_get_page := fun _ _ _ => true;
  env_free_pages_needed := fun _ => false;
  env_ui_running := true;
  env_ui_signal_v4v := true
|}.
Definition ev_boot : evstate :=
  {| es_m := {| m_time := 0; m_mem := fun _ _ => 0; m_refs := fun _ => 0; m_log := [] |};
     es_doms := <[0 := no_ports false]> (<[3 := no_ports false]> ∅) |}.

Lemma no_ports_ok b : ports_ok (no_ports b).
Proof.
  split; cbn [ed_evtchn no_ports].
  - by rewrite length_replicate.
  - by intros i l [[=] _]%lookup_replicate.
  - by intros i j l [[=] _]%lookup_replicate.
Qed.

Lemma ev_boot_ok : ev_ok ev_boot.
Proof.
  intros k d. unfold ev_boot. cbn [es_doms]. rewrite !lookup_insert_Some, lookup_empty.
  intros [[_ <-]|[_ [[_ <-]|[_ ?]]]]; [apply no_ports_ok..|done].
Qed.

(** A channel bound to the host, and what can be done with it. *)
Lemma host_channel_works `{E : HostEnv} did v o p s d :
  ev_ok s -> es_doms s !! did = Some d -> ed_is_dying d = false ->
  0 <= did < DOMID_FIRST_RESERVED -> 0 <= p < MAX_EVTCHNS ->
  chan d p = Some (host_chan o (unbound_chan v 0)) ->
  exists s3,
    notify_via_xen_event_channel did p s =
      ({| es_m := set_log (EvHostSignal did v o :: m_log (es_m s)) (es_m s);
          es_doms := es_doms s |}, Ok tt) /\
    xen_event_channel_host_opaque did p s = (s, Ok o) /\
    (forall o', snd (evtchn_bind_host 0 did p o' s) = Err (- EINVAL)) /\
    free_xen_event_channel did p s = (s3, Ok tt) /\
    (exists d3 c3, es_doms s3 !! did = Some d3 /\ chan d3 p = Some c3 /\
       state c3 = ECS_FREE) /\
    notify_via_xen_event_channel did p s3 = (s3, Ok tt).
Proof.
  intros Hs Hd Hdy Hdid Hp Hc. set (c := host_chan o (unbound_chan v 0)) in *.
  assert (xen_chan d p = Some c) as Hx by (unfold xen_chan; by rewrite Hc).
  destruct (release_spec did p s d _ Hs Hd Hx) as (_ & Hok3 & (Hc3 & _ & Hdy3) & _).
  set (d3 := freed_table p c d) in *.
  assert (es_doms (with_table did d3 s) !! did = Some d3) as Hd3
    by (unfold with_table; cbn [es_doms]; by rewrite lookup_insert_eq).
  exists (with_table did d3 s). split; [|split; [|split; [|split; [|split]]]].
  - by rewrite (notify_eq did p s d Hs Hd), Hdy, Hx.
  - rewrite (host_opaque_eq did p s d c Hs Hd Hdy Hx). done.
  - intros o'. rewrite evtchn_bind_host_eq by done. destruct (o' =? 0); [done|].
    destruct (Z.leb_spec DOMID_FIRST_RESERVED did); [lia|].
    rewrite s32_small by (unfold MAX_EVTCHNS in Hp; lia). rewrite Hd.
    unfold bindable. rewrite Hc. by rewrite decide_False by (by intros [? _]).
  - by rewrite (free_xen_event_channel_eq did p s d Hs Hd), Hdy, Hx.
  - by eexists d3, _.
  - rewrite (notify_eq did p _ d3 (with_table_ok did d3 s Hs Hok3) Hd3).
    unfold xen_chan. rewrite Hc3. by destruct (ed_is_dying d3).
Qed.

(** ** Properties *)

(** the hypervisor's allocation of a channel gives the lowest port that is
    not in use: every port below it has a channel in use, the port itself was
    free or not yet backed by a page; afterwards it is an unbound channel
    consumed by the hypervisor for the given vcpu and remote domain, and
    every other channel of the domain, and every other domain, is unchanged.
    It fails only for a dying domain, with all 4096 ports in use or without
    memory for a page, and then changes no table. *)
Theorem alloc_lowest_free_port `{E : HostEnv} did vcpu_id remote s d :
  ev_ok s -> es_doms s !! did = Some d ->
  let '(s', r) := alloc_unbound_xen_event_channel did vcpu_id remote s in
  ev_ok s' /\
  match r with
  | Ok p => ed_is_dying d = false /\ 0 <= p < MAX_EVTCHNS /\ in_use d 0 p /\
      (forall c, chan d p = Some c -> state c = ECS_FREE) /\
      exists d', only_table did d' s s' /\ ports_ok d' /\
        ed_is_dying d' = false /\ chan d' p = Some (unbound_chan vcpu_id remote) /\
        forall q, q <> p -> chan d' q = chan d q \/
                            chan d q = None /\ chan d' q = Some evtchn_zero
  | Err e => es_doms s' = es_doms s /\
      (e = - EINVAL /\ ed_is_dying d = true \/ e = - ENOSPC /\ in_use d 0 MAX_EVTCHNS \/
       e = - ENOMEM /\ env_alloc_xenheap_page (m_time (es_m s)) = false)
  | Bug => False
  end.
Proof. apply alloc_unbound_spec. Qed.

Lemma alloc_lowest_free_port_witness :
  let '(s', r) := @alloc_unbound_xen_event_channel ev_env 3 1 0 ev_boot in
  r = Ok 0 /\ ev_ok s'.
Proof.
  pose proof (@alloc_lowest_free_port ev_env 3 1 0 ev_boot (no_ports false) ev_boot_ok
    ltac:(vm_compute; reflexivity)) as H.
  assert (snd (@alloc_unbound_xen_event_channel ev_env 3 1 0 ev_boot) = Ok 0) as Hr
    by (vm_compute; reflexivity).
  destruct (alloc_unbound_xen_event_channel 3 1 0 ev_boot) as [s' r]. simpl in Hr.
  split; [exact Hr|]. destruct H as [H _]. exact H.
Defined.

(** the life of a host channel: once [alloc_unbound_xen_event_channel] has
    given port [p] for a vcpu with domain 0 as the remote side, the binding by
    domain 0 ([evtchn_bind_host], with an opaque value that is not null)
    succeeds; from then on [notify_via_xen_event_channel] signals exactly that
    vcpu with that value and [xen_event_channel_host_opaque] returns it; a
    second binding is refused; and [free_xen_event_channel] makes the port
    free again, after which a notification does nothing. *)
Theorem host_channel_life `{E : HostEnv} did v o p s s1 d :
  ev_ok s -> es_doms s !! did = Some d -> 0 <= did < DOMID_FIRST_RESERVED -> o <> 0 ->
  alloc_unbound_xen_event_channel did v 0 s = (s1, Ok p) ->
  exists s2 s3, evtchn_bind_host 0 did p o s1 = (s2, Ok tt) /\
    notify_via_xen_event_channel did p s2 =
      ({| es_m := set_log (EvHostSignal did v o :: m_log (es_m s2)) (es_m s2);
          es_doms := es_doms s2 |}, Ok tt) /\
    xen_event_channel_host_opaque did p s2 = (s2, Ok o) /\
    (forall o', snd (evtchn_bind_host 0 did p o' s2) = Err (- EINVAL)) /\
    free_xen_event_channel did p s2 = (s3, Ok tt) /\
    (exists d3 c3, es_doms s3 !! did = Some d3 /\ chan d3 p = Some c3 /\
       state c3 = ECS_FREE) /\
    notify_via_xen_event_channel did p s3 = (s3, Ok tt).
Proof.
  intros Hs Hd Hdid Ho Ha. pose proof (alloc_unbound_spec did v 0 s d Hs Hd) as Hspec.
  rewrite Ha in Hspec.
  destruct Hspec as (Hs1 & _ & Hp & _ & _ & d1 & [HD _] & Hok1 & Hdy1 & Hc1 & _).
  assert (es_doms s1 !! did = Some d1) as Hd1 by (by rewrite HD, lookup_insert_eq).
  assert (bindable d1 p 0 = Some (unbound_chan v 0)) as Hb
    by (unfold bindable; rewrite Hc1; by rewrite decide_True).
  destruct (bindable_spec d1 p 0 o _ Hok1 Hb Ho) as (_ & Hok2 & (Hc2 & _ & Hdy2)).
  set (d2 := set_evtchn p (host_chan o (unbound_chan v 0)) d1) in *.
  assert (es_doms (with_table did d2 s1) !! did = Some d2) as Hd2
    by (unfold with_table; cbn [es_doms]; by rewrite lookup_insert_eq).
  destruct (host_channel_works did v o p (with_table did d2 s1) d2) as (s3 & H); try done.
  { by apply with_table_ok. }
  exists (with_table did d2 s1), s3. split; [|done].
  rewrite evtchn_bind_host_eq by done. destruct (Z.eqb_spec o 0); [done|].
  destruct (Z.leb_spec DOMID_FIRST_RESERVED did); [lia|].
  rewrite s32_small by (unfold MAX_EVTCHNS in Hp; lia). by rewrite Hd1, Hb.
Qed.

Lemma host_channel_life_witness :
  let s1 := fst (@alloc_unbound_xen_event_channel ev_env 3 1 0 ev_boot) in
  exists s2, evtchn_bind_host 0 3 0 0xabcd s1 = (s2, Ok tt) /\
    xen_event_channel_host_opaque 3 0 s2 = (s2, Ok 0xabcd).
Proof.
  intros s1.
  assert (snd (@alloc_unbound_xen_event_channel ev_env 3 1 0 ev_boot) = Ok 0) as Hr
    by (vm_compute; reflexivity).
  destruct (@host_channel_life ev_env 3 1 0xabcd 0 ev_boot s1 (no_ports false) ev_boot_ok)
    as (s2 & s3 & H1 & _ & H2 & _).
  - vm_compute. reflexivity.
  - vm_compute. split; [discriminate|reflexivity].
  - discriminate.
  - subst s1. destruct (alloc_unbound_xen_event_channel _ _ _ _) as [s' r].
    simpl in *. by rewrite Hr.
  - exists s2. split; [exact H1|exact H2].
Defined.

(** C21: [__evtchn_close] closes exactly the channels that are unbound or bound
    to the host and not consumed by the hypervisor: the port is free
    afterwards, its vcpu 0, its pending bit clear, and nothing else changes;
    for every other port, of a free, reserved or consumed channel or without
    a channel, it returns [-EINVAL] and changes nothing. *)
Theorem close_exactly_guest_channels did p s d :
  ev_ok s -> es_doms s !! did = Some d ->
  match chan d p with
  | Some c =>
      if decide (consumer_is_xen c = false /\ (state c = ECS_UNBOUND \/ state c = ECS_HOST))
      then exists d', evtchn_close did p s = (with_table did d' s, Ok tt) /\ ports_ok d' /\
             chan_set p {| state := ECS_FREE; consumer_is_xen := false;
                           notify_vcpu_id := 0; chn_u := chn_u c |} d d' /\
             ed_pending d' = Z.clearbit (ed_pending d) p
      else evtchn_close did p s = (s, Err (- EINVAL))
  | None => evtchn_close did p s = (s, Err (- EINVAL))
  end.
Proof.
  intros Hs Hd. pose proof (Hs _ _ Hd) as Hok. pose proof (evtchn_close_eq did p s d Hok Hd) as He.
  unfold closable in He. destruct (chan d p) as [c|] eqn:Hc; [|done].
  case_decide as Hdec.
  - destruct Hdec as [Hx Hst].
    assert (closable d p = Some c) as Hcl
      by (unfold closable; rewrite Hc, Hx; by destruct Hst as [-> | ->]).
    destruct (closed_table_spec p c d Hok Hcl) as (H1 & H2 & H3).
    exists (closed_table p c d). rewrite Hx in He. unfold closed_chan in H2. rewrite Hx in H2.
    split; [by destruct Hst as [Hst|Hst]; rewrite Hst in He|done].
  - destruct (consumer_is_xen c); [done|]. destruct (state c); [done|done|tauto|tauto].
Qed.

(** Domain 3 with a channel at port 0 that is consumed by the hypervisor. *)
Definition ev_one : evstate := fst (@alloc_unbound_xen_event_channel ev_env 3 1 0 ev_boot).
Lemma ev_one_ok : ev_ok ev_one.
Proof.
  pose proof (@alloc_unbound_spec ev_env 3 1 0 ev_boot (no_ports false) ev_boot_ok
    ltac:(by vm_compute)) as H.
  unfold ev_one. destruct (alloc_unbound_xen_event_channel _ _ _ _) as [s' r]. apply H.
Qed.

Lemma close_exactly_guest_channels_witness :
  evtchn_close 3 0 ev_one = (ev_one, Err (- EINVAL)).
Proof.
  assert (exists d, es_doms ev_one !! 3 = Some d /\ chan d 0 = Some (unbound_chan 1 0))
    as (d & Hd & Hc) by (eexists; split; vm_compute; reflexivity).
  pose proof (close_exactly_guest_channels 3 0 ev_one d ev_one_ok Hd) as H.
  rewrite Hc in H. rewrite decide_False in H by (intros [H0 _]; discriminate H0). exact H.
Defined.

(** The operations the rest of the hypervisor and the guests can start. *)
Inductive evop : Type :=
| OpHypercall (cur cmd arg : Z)
| OpAlloc (did vcpu_id remote : Z)
| OpFree (did port : Z)
| OpNotify (did port : Z)
| OpOpaque (did port : Z)
| OpInit (did : Z)
| OpDestroy (did : Z).

Definition run_evop `{E : HostEnv} (op : evop) : SE evstate unit :=
  match op with
  | OpHypercall cur cmd arg => do_event_channel_op cur cmd arg
  | OpAlloc did v r => alloc_unbound_xen_event_channel did v r;; ret tt
  | OpFree did port => free_xen_event_channel did port
  | OpNotify did port => notify_via_xen_event_channel did port
  | OpOpaque did port => xen_event_channel_host_opaque did port;; ret tt
  | OpInit did => evtchn_init did
  | OpDestroy did => evtchn_destroy did
  end.

(** The caller's obligation: a pointer to a domain is to one that exists, a
    domain whose channels are destroyed is dying, and the port asked for
    its host value, unless the domain is dying, is that of a channel of the
    hypervisor (the two [ASSERT]s of [xen_event_channel_host_opaque]). *)
Definition evop_ok (op : evop) (s : evstate) : Prop :=
  match op with
  | OpHypercall _ _ _ => True
  | OpAlloc did _ _ | OpFree did _ | OpNotify did _ | OpInit did =>
      is_Some (es_doms s !! did)
  | OpOpaque did port => exists d, es_doms s !! did = Some d /\
      (ed_is_dying d = false -> exists c, chan d port = Some c /\ consumer_is_xen c = true)
  | OpDestroy did => exists d, es_doms s !! did = Some d /\ ed_is_dying d = true
  end.

Lemma hypercall_ev_sound `{E : HostEnv} cur cmd arg :
  sound ev_ok (do_event_channel_op cur cmd arg).
Proof.
  assert (forall A (m : SE machine A), sound (fun _ => True) m -> sound ev_ok (ev_machine m))
    as Hm by (intros; by apply sound_zoom).
  assert (forall a b c0 d, sound ev_ok (evtchn_bind_host a b c0 d)) as Hb.
  { intros a b c0 o s Hs. rewrite evtchn_bind_host_eq by done.
    destruct (Z.eqb_spec o 0); [done|]. destruct (negb _); [done|].
    destruct (DOMID_FIRST_RESERVED <=? b); [done|].
    destruct (es_doms s !! b) as [d|] eqn:Hd; [|done].
    destruct (bindable d (s32 c0) a) as [c|] eqn:Eb; [|done].
    destruct (bindable_spec d (s32 c0) a o c (Hs _ _ Hd) Eb) as (_ & Hok & _); [done|].
    split; [by apply with_table_ok|done]. }
  assert (sound ev_ok (ev_machine (guest_read arg sizeof_evtchn_bind_host))) by (by apply Hm).
  assert (sound ev_ok (ev_machine tick)) by (by apply Hm).
  assert (forall e, sound ev_ok (ev_machine (log e))) by (intros; by apply Hm).
  unfold do_event_channel_op. se_safe.
Qed.

Lemma init_ev_sound `{E : HostEnv} did s d : ev_ok s -> es_doms s !! did = Some d ->
  ev_ok (fst (evtchn_init did s)) /\ snd (evtchn_init did s) <> Bug.
Proof.
  intros Hs Hd. pose proof (Hs _ _ Hd) as Hok.
  apply (triple_sound_at (eq s)); [|done]. unfold evtchn_init.
  apply (triple_bind _ _ _ (fun p s1 => ev_ok s1 /\
    (p = 0 -> exists d1 c, es_doms s1 !! did = Some d1 /\ chan d1 0 = Some c /\
       state c = ECS_FREE))).
  - intros ? <-. unfold recover. destruct (ed_is_dying d) eqn:Hdy.
    { unfold get_free_port, bind. rewrite (ev_domain_eq _ _ _ Hd), Hdy. done. }
    pose proof (get_free_port_spec did s d Hd Hok Hdy) as Hg.
    destruct (get_free_port did s) as [s1 [p|e|]]; [| |by destruct Hg].
    + destruct Hg as (_ & Hp & _ & d1 & c & [HD _] & Hok1 & _ & Hc & Hf). split.
      * intros k d0. rewrite HD, lookup_insert_Some.
        intros [[_ <-]|[_ ?]]; [done|by eapply Hs].
      * intros ->. exists d1, c. by rewrite HD, lookup_insert_eq.
    + destruct Hg as (_ & HD & He). split; [intros k d0; rewrite HD; apply Hs|].
      intros ->. by destruct He as [[]|[]].
  - intros p s1 [Hs1 Hp]. unfold bind, fail_if. destruct (Z.eqb_spec p 0) as [->|]; [|done].
    destruct (Hp eq_refl) as (d1 & c & Hd1 & Hc & Hf). cbn [negb]. unfold ret.
    rewrite (update_channel_eq did 0 _ s1 d1 c Hd1 Hc). apply with_table_ok; [done|].
    apply set_evtchn_ok; [by eapply Hs1|].
    pose proof (chan_Some_ok d1 0 c (Hs1 _ _ Hd1) Hc) as Hco. unfold chan_ok in *.
    by rewrite Hf in Hco.
Qed.

Lemma opaque_ev_sound did p s d : ev_ok s -> es_doms s !! did = Some d ->
  (ed_is_dying d = false -> exists c, chan d p = Some c /\ consumer_is_xen c = true) ->
  ev_ok (fst ((xen_event_channel_host_opaque did p;; ret tt) s)) /\
  snd ((xen_event_channel_host_opaque did p;; ret tt) s) <> Bug.
Proof.
  intros Hs Hd Hop. enough (exists o, xen_event_channel_host_opaque did p s = (s, Ok o)) as [o E]
    by (unfold bind; by rewrite E).
  unfold xen_event_channel_host_opaque, bind. rewrite (ev_domain_eq _ _ _ Hd).
  destruct (ed_is_dying d); [by exists 0|].
  destruct (Hop eq_refl) as (c & Hc & Hx). pose proof Hc as [Hv _]%chan_Some. rewrite Hv.
  cbn [bug_if negb]. unfold ret at 1. rewrite (channel_eq _ _ _ _ _ Hd Hc), Hx.
  pose proof (chan_Some_ok d p c (Hs _ _ Hd) Hc) as Hco. unfold chan_ok in Hco. simpl.
  destruct (state c); try (by exists 0). destruct Hco as (o & _ & ->). by exists o.
Qed.

(** C22: the invariant of the tables of channels (16 buckets allocated from the
    first, each of 256 channels, every channel in a state that agrees with
    its fields) is kept by every operation on any arguments, and none of them
    stops the hypervisor, given that pointers are to existing domains, that
    only dying domains are destroyed and that [xen_event_channel_host_opaque] is called for
    a channel of the hypervisor, as it asserts; running out of memory and
    failing guest accesses included. *)
Theorem event_channel_invariant `{E : HostEnv} op s :
  ev_ok s -> evop_ok op s ->
  let '(s', r) := run_evop op s in r <> Bug /\ ev_ok s'.
Proof.
  intros Hs Hop. enough (ev_ok (fst (run_evop op s)) /\ snd (run_evop op s) <> Bug) as H
    by (destruct (run_evop op s); tauto).
  destruct op as [cur cmd arg|did v r|did p|did p|did p|did|did]; simpl in Hop |- *.
  - by destruct (hypercall_ev_sound cur cmd arg s Hs) as (? & _ & ?).
  - destruct Hop as [d Hd]. pose proof (alloc_unbound_spec did v r s d Hs Hd) as H. unfold bind.
    by destruct (alloc_unbound_xen_event_channel did v r s) as [s' []]; destruct H.
  - destruct Hop as [d Hd]. rewrite (free_xen_event_channel_eq did p s d Hs Hd).
    destruct (ed_is_dying d); [done|]. destruct (xen_chan d p) as [c|] eqn:Hx; [|done].
    destruct (release_spec did p s d c Hs Hd Hx) as (_ & Hok & _).
    split; [by apply with_table_ok|done].
  - destruct Hop as [d Hd]. rewrite (notify_eq did p s d Hs Hd). split; [|done]. simpl.
    by destruct (if ed_is_dying d then None else xen_chan d p) as [[[] ? ? []]|].
  - destruct Hop as (d & Hd & Hop). by eapply opaque_ev_sound.
  - destruct Hop as [d Hd]. by eapply init_ev_sound.
  - destruct Hop as (d & Hd & Hdy).
    destruct (evtchn_destroy_spec did s d Hs Hd Hdy) as (d' & -> & Hok & _).
    split; [by apply with_table_ok|done].
Qed.

Lemma event_channel_invariant_witness :
  let '(s', r) := @run_evop ev_env (OpInit 3) ev_boot in r = Ok tt /\ ev_ok s'.
Proof.
  pose proof (@event_channel_invariant ev_env (OpInit 3) ev_boot ev_boot_ok
    ltac:(eexists; vm_compute; reflexivity)) as H.
  assert (snd (@run_evop ev_env (OpInit 3) ev_boot) = Ok tt) as Hr by (vm_compute; reflexivity).
  destruct (run_evop (OpInit 3) ev_boot) as [s' r]. split; [exact Hr|]. apply H.
Defined.

(** C23: destroying a dying domain's channels always succeeds: it ends with no
    valid port, no bucket left, and the tables of all other domains and the
    log unchanged; before the buckets are dropped, the loop over the ports has
    left every channel free or reserved. *)
Theorem destroy_closes_all_channels did s d :
  ev_ok s -> es_doms s !! did = Some d -> ed_is_dying d = true ->
  (exists d1, close_ports did (S (Z.to_nat MAX_EVTCHNS)) 0 s = (with_table did d1 s, Ok tt) /\
     forall p c, 0 <= p -> chan d1 p = Some c -> state c = ECS_FREE \/ state c = ECS_RESERVED) /\
  exists d', evtchn_destroy did s = (with_table did d' s, Ok tt) /\
    forall p, port_is_valid d' p = false.
Proof.
  intros Hs Hd Hdy. split.
  - destruct (close_ports_spec did (S (Z.to_nat MAX_EVTCHNS)) 0 s d Hs Hd ltac:(done) ltac:(done))
      as (d1 & H1 & _ & _ & _ & _ & Hidle).
    exists d1. split; [done|]. exact Hidle.
  - destruct (evtchn_destroy_spec did s d Hs Hd Hdy) as (d' & H1 & _ & _ & Hv). by exists d'.
Qed.

(** Domain 3 dying. *)
Definition ev_dying : evstate :=
  {| es_m := es_m ev_boot; es_doms := <[3 := no_ports true]> (es_doms ev_boot) |}.

Lemma destroy_closes_all_channels_witness :
  exists d', evtchn_destroy 3 ev_dying = (with_table 3 d' ev_dying, Ok tt) /\
    port_is_valid d' 0 = false.
Proof.
  destruct (destroy_closes_all_channels 3 ev_dying (no_ports true)) as [_ (d' & H & Hv)].
  - intros k d. unfold ev_dying. cbn [es_doms]. rewrite lookup_insert_Some.
    intros [[_ <-]|[_ Hk]]; [apply no_ports_ok|by eapply ev_boot_ok].
  - vm_compute. reflexivity.
  - reflexivity.
  - exists d'. split; [exact H|apply Hv].
Defined.
