(* ===== verification/Rangeset.v ===== *)
(** * Rangesets

    xen/common/rangeset.c: sets of unsigned longs kept as an ordered list of
    inclusive ranges.  The list is a Rocq list, a pointer into it the index
    of the entry.  XSM is not enabled: its hooks return [0]. *)

From stdpp Require Import base list numbers gmap.
From Stdlib Require Import ZArith Lia.
From S2P Require Import Prelude Machine.

Open Scope Z_scope.
Open Scope se_scope.

Record range : Type := { rg_s : Z; rg_e : Z }.

(** The list of ranges of a set, and the machine for its allocations. *)
Record rgstate : Type := { rg_m : machine; rg_list : list range }.

Definition rg_machine {A} (m : SE machine A) : SE rgstate A :=
  zoom rg_m (fun x r => {| rg_m := x; rg_list := rg_list r |}) m.

Definition set_list (l : list range) : SE rgstate unit :=
  modify (fun r => {| rg_m := rg_m r; rg_list := l |}).

(** ** The list *)

(** The loop of [find_range], from entry number [i] on; [x] is the entry
    before. *)
Fixpoint find_range_from (l : list range) (s : Z) (i : nat) (x : option nat)
  : option nat :=
  match l with
  | [] => x
  | y :: l => if s <? rg_s y then x else find_range_from l s (S i) (Some i)
  end.

(** [find_range] *)
Definition find_range (l : list range) (s : Z) : option nat :=
  find_range_from l s 0 None.

(** [first_range] *)
Definition first_range (l : list range) : option nat :=
  match l with [] => None | _ => Some 0%nat end.

(** [next_range] *)
Definition next_range (l : list range) (x : nat) : option nat :=
  if decide (S x < length l)%nat then Some (S x) else None.

(** [insert_range]: the list, and the number of the new entry. *)
Definition insert_range (l : list range) (x : option nat) (y : range)
  : list range * nat :=
  let i := match x with Some i => S i | None => 0%nat end in
  (take i l ++ y :: drop i l, i).

(** [destroy_range] *)
Definition destroy_range (l : list range) (x : nat) : list range := delete x l.

(** [x->s = v], [x->e = v] *)
Definition set_s (l : list range) (x : nat) (v : Z) : list range :=
  alter (fun r => {| rg_s := v; rg_e := rg_e r |}) x l.
Definition set_e (l : list range) (x : nat) (v : Z) : list range :=
  alter (fun r => {| rg_s := rg_s r; rg_e := v |}) x l.

(** A range through a pointer that is not null. *)
Definition deref (l : list range) (x : nat) : SE rgstate range :=
  match l !! x with Some r => ret r | None => bug end.
Definition deref_ptr (x : option nat) : SE rgstate nat :=
  match x with Some i => ret i | None => bug end.

(** ** Addition *)

(** [rangeset_add_range], the loop that removes the ranges covered by the one
    at [x]; [fuel] is the length of the list. *)
Fixpoint absorb (fuel : nat) (l : list range) (x : nat) : list range :=
  match fuel with
  | O => l
  | S fuel =>
      match next_range l x with
      | None => l
      | Some y =>
          match l !! x, l !! y with
          | Some rx, Some ry =>
              if rg_e rx <? rg_e ry then l else absorb fuel (destroy_range l y) x
          | _, _ => l
          end
      end
  end.

(** The end of [rangeset_add_range]: the range at [x] joined with the next
    one when they touch. *)
Definition join_next (l : list range) (x : nat) : list range :=
  match next_range l x with
  | None => l
  | Some y =>
      match l !! x, l !! y with
      | Some rx, Some ry =>
          if u64 (rg_e rx + 1) =? rg_s ry
          then destroy_range (set_e l x (rg_e ry)) y else l
      | _, _ => l
      end
  end.

(** Does the range end before [s] without touching it? *)
Definition apart (r : range) (s : Z) : bool :=
  (rg_e r <? s) && negb (u64 (rg_e r + 1) =? s).

Section Rangeset.
Context `{E : HostEnv}.

(** [rangeset_add_range] *)
Definition rangeset_add_range (s e : Z) : SE rgstate unit :=
  bug_if (e <? s);;
  l <- gets rg_list;;
  let x := find_range l s in
  let y := find_range l e in
  p <- (if decide (x = y) then
          fresh <- match x with
                   | None => ret true
                   | Some i => r <- deref l i;; ret (apart r s)
                   end;;
          if fresh : bool then
            ok <- rg_machine xmalloc;;
            fail_if (negb ok) (- ENOMEM);;
            ret (insert_range l y {| rg_s := s; rg_e := e |})
          else
            i <- deref_ptr x;;
            r <- deref l i;;
            ret (if rg_e r <? e then set_e l i e else l, i)
        else
          p <- match x with
               | None => i <- deref_ptr (first_range l);; ret (set_s l i s, i)
               | Some i =>
                   r <- deref l i;;
                   if apart r s
                   then j <- deref_ptr (next_range l i);; ret (set_s l j s, j)
                   else ret (l, i)
               end;;
          let '(l, i) := p in
          j <- deref_ptr y;;
          ry <- deref l j;;
          let l := set_e l i (if e <? rg_e ry then rg_e ry else e) in
          ret (absorb (length l) l i, i));;
  let '(l, i) := p in
  set_list (join_next l i).

(** ** Removal *)

(** [while ( x != y )] of [rangeset_remove_range]: the entries from [x] up to
    [y] go; their number is [n]. *)
Fixpoint destroy_upto (n : nat) (l : list range) (x : nat) : list range :=
  match n with
  | O => l
  | S n => destroy_upto n (destroy_range l x) x
  end.

(** [rangeset_remove_range] *)
Definition rangeset_remove_range (s e : Z) : SE rgstate unit :=
  bug_if (e <? s);;
  l <- gets rg_list;;
  let x := find_range l s in
  let y := find_range l e in
  if decide (x = y) then
    match x with
    | None => ret tt
    | Some i =>
        r <- deref l i;;
        if rg_e r <? s then ret tt
        else if (rg_s r <? s) && (e <? rg_e r) then
          ok <- rg_machine xmalloc;;
          fail_if (negb ok) (- ENOMEM);;
          set_list (fst (insert_range (set_e l i (u64 (s - 1))) (Some i)
                           {| rg_s := u64 (e + 1); rg_e := rg_e r |}))
        else if (rg_s r =? s) && (rg_e r <=? e) then set_list (destroy_range l i)
        else if rg_s r =? s then set_list (set_s l i (u64 (e + 1)))
        else if rg_e r <=? e then set_list (set_e l i (u64 (s - 1)))
        else ret tt
    end
  else
    i <- match x with Some i => ret i | None => deref_ptr (first_range l) end;;
    r <- deref l i;;
    p <- (if rg_s r <? s
          then j <- deref_ptr (next_range l i);; ret (set_e l i (u64 (s - 1)), j)
          else ret (l, i));;
    let '(l, i) := p in
    j <- deref_ptr y;;
    let l := set_s (destroy_upto (j - i) l i) i (u64 (e + 1)) in
    r <- deref l i;;
    set_list (if rg_e r <? rg_s r then destroy_range l i else l).

(** ** Queries *)

(** [rangeset_contains_range] *)
Definition rangeset_contains_range (s e : Z) : SE rgstate bool :=
  bug_if (e <? s);;
  l <- gets rg_list;;
  match find_range l s with
  | None => ret false
  | Some i => r <- deref l i;; ret (e <=? rg_e r)
  end.

(** [rangeset_overlaps_range] *)
Definition rangeset_overlaps_range (s e : Z) : SE rgstate bool :=
  bug_if (e <? s);;
  l <- gets rg_list;;
  match find_range l e with
  | None => ret false
  | Some i => r <- deref l i;; ret (s <=? rg_e r)
  end.

(** [rangeset_report_ranges], from the list of ranges at the pointer [x] on;
    the callback works on a context. *)
Fixpoint report_from {C} (cb : Z -> Z -> C -> Z * C) (l : list range) (s e : Z)
    (ctxt : C) : Z * C :=
  match l with
  | [] => (0, ctxt)
  | x :: l =>
      if e <? rg_s x then (0, ctxt)
      else
        let '(rc, ctxt) :=
          if s <=? rg_e x then cb (Z.max (rg_s x) s) (Z.min (rg_e x) e) ctxt
          else (0, ctxt) in
        if rc =? 0 then report_from cb l s e ctxt else (rc, ctxt)
  end.

Definition rangeset_report_ranges {C} (cb : Z -> Z -> C -> Z * C) (s e : Z) (ctxt : C)
  : SE rgstate (Z * C) :=
  l <- gets rg_list;;
  ret (match find_range l s with
       | None => (0, ctxt)
       | Some i => report_from cb (drop i l) s e ctxt
       end).

(** [rangeset_add_singleton], [rangeset_remove_singleton],
    [rangeset_contains_singleton], [rangeset_is_empty] of a set *)
Definition rangeset_add_singleton (s : Z) : SE rgstate unit := rangeset_add_range s s.
Definition rangeset_remove_singleton (s : Z) : SE rgstate unit := rangeset_remove_range s s.
Definition rangeset_contains_singleton (s : Z) : SE rgstate bool :=
  rangeset_contains_range s s.
Definition rangeset_is_empty : SE rgstate bool :=
  gets (fun r => bool_decide (rg_list r = [])).
End Rangeset.

(** * Rangesets: the ordered list

    [wf]: the ranges are in order and any two of them are separated by at
    least one number, so that a set has one representation.  What
    [find_range] and the list operations do on such a list. *)

Implicit Types (l A B M : list range) (r x y : range) (s e n lo : Z).

Definition ULONG_MAX : Z := 2 ^ 64 - 1.

(** [n] is in the set. *)
Definition mem l n : Prop := Exists (fun r => rg_s r <= n <= rg_e r) l.

(** The ranges are in order, from [lo] on, and do not touch. *)
Fixpoint wf_from lo l : Prop :=
  match l with
  | [] => True
  | r :: l => lo <= rg_s r <= rg_e r /\ rg_e r <= ULONG_MAX /\ wf_from (rg_e r + 2) l
  end.

Definition wf l : Prop := wf_from 0 l.

(** The first number at which a range may follow [l]. *)
Fixpoint after lo l : Z :=
  match l with
  | [] => lo
  | r :: l => after (rg_e r + 2) l
  end.

Lemma wf_from_app lo A B :
  wf_from lo (A ++ B) <-> wf_from lo A /\ wf_from (after lo A) B.
Proof.
  revert lo. induction A as [|r A IH]; intros lo; simpl; [tauto|].
  rewrite IH. tauto.
Qed.

Lemma wf_from_mono lo lo' l : lo' <= lo -> wf_from lo l -> wf_from lo' l.
Proof. destruct l; simpl; intuition lia. Qed.

Lemma after_ge lo l : wf_from lo l -> lo <= after lo l.
Proof.
  revert lo. induction l as [|r l IH]; intros lo; simpl; [lia|].
  intros (H1 & _ & H2). specialize (IH _ H2). lia.
Qed.

Lemma after_bound lo l : wf_from lo l -> lo <= ULONG_MAX + 2 -> after lo l <= ULONG_MAX + 2.
Proof.
  revert lo. induction l as [|r l IH]; intros lo; simpl; [lia|].
  intros (H1 & H3 & H2) ?. apply IH; [done|lia].
Qed.

Lemma after_app lo A B : after lo (A ++ B) = after (after lo A) B.
Proof. revert lo. induction A as [|r A IH]; intros lo; simpl; auto. Qed.

Lemma mem_nil n : ~ mem [] n.
Proof. intros H. inversion H. Qed.
Lemma mem_cons r l n : mem (r :: l) n <-> rg_s r <= n <= rg_e r \/ mem l n.
Proof. unfold mem. by rewrite Exists_cons. Qed.
Lemma mem_app A B n : mem (A ++ B) n <-> mem A n \/ mem B n.
Proof. unfold mem. by rewrite Exists_app. Qed.

Lemma mem_bounds lo l n : wf_from lo l -> mem l n -> lo <= n /\ n + 2 <= after lo l.
Proof.
  revert lo. induction l as [|r l IH]; intros lo.
  { intros _ H. by apply mem_nil in H. }
  rewrite mem_cons. simpl. intros (H1 & _ & H2) [?|H].
  - pose proof (after_ge _ _ H2). lia.
  - specialize (IH _ H2 H). lia.
Qed.

Lemma mem_low lo l n : wf_from lo l -> mem l n -> lo <= n.
Proof. intros H1 H2. by destruct (mem_bounds _ _ _ H1 H2). Qed.
Lemma mem_high lo l n : wf_from lo l -> mem l n -> n + 2 <= after lo l.
Proof. intros H1 H2. by destruct (mem_bounds _ _ _ H1 H2). Qed.

(** ** [find_range] *)

(** All ranges of [l] start above [s]. *)
Definition above s l : Prop := Forall (fun r => s < rg_s r) l.

Lemma wf_above lo l s : wf_from lo l -> s < lo -> above s l.
Proof.
  unfold above. revert lo. induction l as [|r l IH]; intros lo; simpl; [constructor|].
  intros (H1 & _ & H2) ?. constructor; [lia|]. apply (IH _ H2). lia.
Qed.

Lemma above_not_mem s l n : above s l -> n <= s -> ~ mem l n.
Proof.
  unfold above, mem. intros Ha Hn He. apply Exists_exists in He as (r & Hr & ?).
  rewrite Forall_forall in Ha. specialize (Ha r Hr). lia.
Qed.

Lemma above_wf s lo l : wf_from lo l -> above s l -> wf_from (Z.max lo (s + 1)) l.
Proof. destruct l as [|r l]; simpl; [done|]. intros H [? _]%Forall_cons. intuition lia. Qed.

(** What [find_range] gives: [None] when all ranges start above [s], otherwise
    the last one that does not. *)
Inductive found l s : option nat -> Prop :=
| found_none : above s l -> found l s None
| found_some A x B :
    l = A ++ x :: B -> rg_s x <= s -> above s B -> found l s (Some (length A)).

Lemma find_range_from_spec lo l s i o : wf_from lo l ->
  find_range_from l s i o = o /\ above s l \/
  exists A x B, l = A ++ x :: B /\ rg_s x <= s /\ above s B /\
    find_range_from l s i o = Some (i + length A)%nat.
Proof.
  revert lo i o. induction l as [|r l IH]; intros lo i o; simpl; [left; by split; [|constructor]|].
  intros (H1 & H3 & H2). case_match eqn:Hs.
  { left. split; [done|]. apply (wf_above (rg_s r)); [|lia].
    simpl. auto with lia. }
  right. destruct (IH _ (S i) (Some i) H2) as [[-> Ha]|(A & x & B & -> & Hx & Ha & ->)].
  - exists [], r, l. repeat split; [lia|done|]. simpl. f_equal; lia.
  - exists (r :: A), x, B. repeat split; [done|done|]. simpl. f_equal; lia.
Qed.

Lemma find_range_found l s : wf l -> found l s (find_range l s).
Proof.
  intros H. unfold find_range.
  destruct (find_range_from_spec 0 l s 0 None H) as [[-> Ha]|(A & x & B & -> & Hx & Ha & ->)].
  - by constructor.
  - by econstructor.
Qed.

(** Two searches: [y] is at [x] or behind it. *)
Lemma two_splits A x B A' y B' s e :
  A ++ x :: B = A' ++ y :: B' -> s <= e -> above s B -> above e B' -> rg_s y <= e ->
  rg_s x <= s ->
  A = A' /\ x = y /\ B = B' \/
  exists M, B = M ++ y :: B' /\ A' = A ++ x :: M.
Proof.
  unfold above. intros Heq Hse HB HB' Hy Hx.
  apply app_eq_inv in Heq as [(M & HA & HM)|(M & HA & HM)].
  - destruct M as [|z M]; simplify_eq/=.
    + left. by rewrite app_nil_r.
    + apply Forall_app in HB' as [_ [? _]%Forall_cons]. lia.
  - destruct M as [|z M]; simplify_eq/=.
    + left. by rewrite app_nil_r.
    + right. by exists M.
Qed.

(** ** Pointers into the list *)

(** The same list, and the pointer to the entry behind [r]. *)
Lemma snoc_list A r B : A ++ r :: B = (A ++ [r]) ++ B.
Proof. by rewrite <- app_assoc. Qed.
Lemma snoc_length A r : S (length A) = length (A ++ [r]).
Proof. rewrite length_app. simpl. lia. Qed.

Lemma list_lookup_at A r B : (A ++ r :: B) !! length A = Some r.
Proof. by apply list_lookup_middle. Qed.

Lemma lookup_second A r y B : (A ++ r :: y :: B) !! S (length A) = Some y.
Proof. rewrite lookup_app_r by lia. by replace (S (length A) - length A)%nat with 1%nat by lia. Qed.

Lemma set_s_at A r B v :
  set_s (A ++ r :: B) (length A) v = A ++ {| rg_s := v; rg_e := rg_e r |} :: B.
Proof.
  unfold set_s. rewrite alter_app_r_alt by lia. by rewrite Nat.sub_diag.
Qed.
Lemma set_e_at A r B v :
  set_e (A ++ r :: B) (length A) v = A ++ {| rg_s := rg_s r; rg_e := v |} :: B.
Proof.
  unfold set_e. rewrite alter_app_r_alt by lia. by rewrite Nat.sub_diag.
Qed.

Lemma destroy_at A r B : destroy_range (A ++ r :: B) (length A) = A ++ B.
Proof. apply delete_middle. Qed.
Lemma destroy_second A r y B : destroy_range (A ++ r :: y :: B) (S (length A)) = A ++ r :: B.
Proof.
  rewrite (snoc_list A r (y :: B)), (snoc_list A r B), (snoc_length A r).
  apply delete_middle.
Qed.

Lemma next_range_at A r B :
  next_range (A ++ r :: B) (length A) =
  match B with [] => None | _ => Some (S (length A)) end.
Proof.
  unfold next_range. rewrite length_app. simpl.
  destruct B; [rewrite decide_False|rewrite decide_True]; simpl; try done; lia.
Qed.

Lemma insert_after A r B y :
  insert_range (A ++ r :: B) (Some (length A)) y = (A ++ r :: y :: B, S (length A)).
Proof.
  unfold insert_range. f_equal.
  rewrite (snoc_list A r B), (snoc_list A r (y :: B)), (snoc_length A r).
  by rewrite take_app_length, drop_app_length.
Qed.

(** ** The loops *)

(** [absorb] drops the ranges that end within the one at [x]. *)
Lemma absorb_spec A r M B fuel : (length M < fuel)%nat ->
  Forall (fun x => rg_e x <= rg_e r) M ->
  match B with [] => True | y :: _ => rg_e r < rg_e y end ->
  absorb fuel (A ++ r :: M ++ B) (length A) = A ++ r :: B.
Proof.
  revert fuel. induction M as [|x M IH]; intros [|fuel] Hf HM HB; simpl in Hf; try lia.
  - cbn [absorb app]. rewrite next_range_at. destruct B as [|y B]; [done|].
    rewrite list_lookup_at, lookup_second. by rewrite (proj2 (Z.ltb_lt _ _) HB).
  - apply Forall_cons in HM as [Hx HM]. cbn [absorb app]. rewrite next_range_at.
    rewrite list_lookup_at, lookup_second. rewrite (proj2 (Z.ltb_ge _ _) Hx).
    rewrite destroy_second. apply IH; [lia|done|done].
Qed.

(** [destroy_upto] drops the ranges in front of the last one. *)
Lemma destroy_upto_spec A M B :
  destroy_upto (length M) (A ++ M ++ B) (length A) = A ++ B.
Proof.
  induction M as [|x M IH]; [done|]. cbn [destroy_upto length app].
  by rewrite destroy_at.
Qed.

(** [join_next] restores the separation behind the range that grew. *)
Lemma join_next_spec A r B : wf A -> after 0 A <= rg_s r <= rg_e r -> rg_e r <= ULONG_MAX ->
  wf_from (rg_e r + 1) B ->
  let l' := join_next (A ++ r :: B) (length A) in
  wf l' /\ forall n, mem l' n <-> mem A n \/ rg_s r <= n <= rg_e r \/ mem B n.
Proof.
  intros HA Hr Hmax HB. unfold join_next. rewrite next_range_at.
  destruct B as [|y B]; simpl.
  { split; [apply wf_from_app; simpl; auto with lia|].
    intros n. rewrite mem_app, mem_cons. tauto. }
  rewrite list_lookup_at, lookup_second. simpl in HB. unfold ULONG_MAX in *.
  destruct HB as (H1 & H2 & H3). pose proof (after_ge _ _ HA).
  assert (u64 (rg_e r + 1) = rg_e r + 1) as -> by (unfold u64; apply Z.mod_small; lia).
  case_match eqn:Ht.
  - rewrite set_e_at, destroy_second. split.
    + apply wf_from_app. simpl. unfold ULONG_MAX. auto with lia.
    + intros n. rewrite mem_app, !mem_cons. simpl. intuition lia.
  - split.
    + apply wf_from_app. simpl. unfold ULONG_MAX. repeat split; auto with lia.
    + intros n. by rewrite mem_app, !mem_cons.
Qed.
