(* ===== verification/RangesetOps.v ===== *)
(** * Rangesets: each operation on an ordered list

    The branches of the addition and the removal, the two queries, the report
    and that a set has one ordered list. *)

From stdpp Require Import base list numbers gmap.
From Stdlib Require Import ZArith Lia.
From S2P Require Import Prelude Machine Rangeset.

Open Scope Z_scope.
Open Scope se_scope.

Implicit Types (l A B M : list range) (r x y : range) (s e n lo : Z).

Abbreviation in_range s e n := (s <= n <= e) (only parsing).

Lemma rg_xmalloc_eq `{E : HostEnv} st :
  rg_machine xmalloc st =
  ({| rg_m := set_time (S (m_time (rg_m st))) (rg_m st); rg_list := rg_list st |},
   Ok (env_xmalloc (m_time (rg_m st)))).
Proof. done. Qed.

(** Take a computation on a set apart. *)
Ltac rg_run :=
  cbv beta iota zeta delta [bind gets ret bug bug_if fail_if deref deref_ptr fail
    set_list modify negb rg_list rg_m];
  rewrite ?rg_xmalloc_eq; cbn [rg_list rg_m fst snd].

(** ** Addition *)

(** The range at [A] has grown over [M]: what the rest of
    [rangeset_add_range] makes of it. *)
Lemma grow_spec A r M B : wf A -> after 0 A <= rg_s r <= rg_e r -> rg_e r <= ULONG_MAX ->
  Forall (fun x => rg_e x <= rg_e r) M -> wf_from (rg_e r + 1) B ->
  let l := A ++ r :: M ++ B in
  let l' := join_next (absorb (length l) l (length A)) (length A) in
  wf l' /\ forall n, mem l' n <-> mem A n \/ in_range (rg_s r) (rg_e r) n \/ mem B n.
Proof.
  intros HA Hr Hmax HM HB l. unfold l. rewrite absorb_spec.
  - by apply join_next_spec.
  - rewrite !length_app. simpl. rewrite length_app. lia.
  - done.
  - destruct B as [|y B]; [done|]. simpl in HB. lia.
Qed.

Lemma wf_ends lo M y B : wf_from lo (M ++ y :: B) -> Forall (fun x => rg_e x <= rg_e y) M.
Proof.
  revert lo. induction M as [|x M IH]; intros lo; simpl; [constructor|].
  intros (H1 & _ & H2). constructor; [|by eapply IH].
  apply wf_from_app in H2 as [HM Hy]. pose proof (after_ge _ _ HM). simpl in Hy. lia.
Qed.

(** The ranges [M ++ [y]] that start within [s, e] are replaced by one: the
    first of them is moved to [s], and the last end or [e] is its end. *)
Lemma cover_spec A z T M y B s e :
  wf (A ++ M ++ y :: B) -> z :: T = M ++ [y] -> after 0 A <= s <= e -> e <= ULONG_MAX ->
  above s (M ++ [y]) -> rg_s y <= e -> above e B ->
  let E := if e <? rg_e y then rg_e y else e in
  let l := A ++ {| rg_s := s; rg_e := E |} :: T ++ B in
  let l' := join_next (absorb (length l) l (length A)) (length A) in
  wf l' /\ forall n, mem l' n <-> mem (A ++ M ++ y :: B) n \/ in_range s e n.
Proof.
  intros Hw Hz Hs He Ha Hy HB E l. subst l. unfold wf in Hw.
  apply wf_from_app in Hw as [HA Hw]. pose proof (wf_ends _ _ _ _ Hw) as Hends.
  apply wf_from_app in Hw as [HM Hw]. simpl in Hw. destruct Hw as (H1 & H2 & H3).
  assert (e <= E /\ rg_e y <= E /\ (E = e \/ E = rg_e y) /\ E <= ULONG_MAX) as HE
    by (unfold E; case_match eqn:Hlt; lia).
  assert (HT : Forall (fun x => rg_e x <= E) T).
  { assert (Forall (fun x => rg_e x <= E) (z :: T)) as [_ ?]%Forall_cons; [|done].
    rewrite Hz. apply Forall_app; split; [|constructor; [lia|constructor]].
    eapply Forall_impl; [exact Hends|]. simpl. lia. }
  assert (HB' : wf_from (E + 1) B).
  { apply (wf_from_mono (Z.max (rg_e y + 2) (e + 1))); [lia|]. by apply above_wf. }
  destruct (grow_spec A {| rg_s := s; rg_e := E |} T B) as [Hl Hm]; simpl in *;
    [done|lia|lia|done|done|].
  split; [done|]. intros n. rewrite Hm, !mem_app, mem_cons.
  split.
  - intros [?|[?|?]]; [auto| |auto].
    destruct (decide (n <= e)) as [?|?]; [right; lia|]. left; right; right; left. lia.
  - intros [[?|[Hn|[?|?]]]|?]; [auto| |right; left|auto|right; left; lia].
    + right; left. pose proof (mem_high _ _ _ HM Hn).
      destruct (decide (s <= n)); [lia|]. exfalso.
      apply (above_not_mem s (M ++ [y]) n); [done|lia|]. rewrite mem_app. auto.
    + apply Forall_app in Ha as [_ [? _]%Forall_cons]. lia.
Qed.

Lemma apart_spec r s : 0 <= rg_e r -> s <= ULONG_MAX -> apart r s = (rg_e r + 1 <? s).
Proof.
  unfold apart, ULONG_MAX. intros H1 H2. destruct (Z.ltb_spec (rg_e r) s) as [?|?]; simpl.
  - unfold u64. rewrite Z.mod_small by lia.
    destruct (Z.eqb_spec (rg_e r + 1) s), (Z.ltb_spec (rg_e r + 1) s); simpl; lia.
  - symmetry. apply Z.ltb_ge. lia.
Qed.

(** Neither search finds a range, or both find the same. *)
Lemma add_same_spec A B s e : wf (A ++ B) -> after 0 A <= s <= e -> e <= ULONG_MAX ->
  above e B ->
  let l' := join_next (A ++ {| rg_s := s; rg_e := e |} :: B) (length A) in
  wf l' /\ forall n, mem l' n <-> mem (A ++ B) n \/ in_range s e n.
Proof.
  intros [HA HB]%wf_from_app Hs He Ha.
  destruct (join_next_spec A {| rg_s := s; rg_e := e |} B) as [Hl Hm]; simpl;
    [done|lia|lia| |].
  { apply (wf_from_mono (Z.max (after 0 A) (e + 1))); [lia|]. by apply above_wf. }
  split; [done|]. intros n. rewrite Hm, mem_app. simpl. tauto.
Qed.

(** The search finds a range that touches the new one. *)
Lemma add_touch_spec A x B s e : wf (A ++ x :: B) -> rg_s x <= s <= rg_e x + 1 -> s <= e ->
  e <= ULONG_MAX -> above e B ->
  let l := A ++ x :: B in
  let l' := join_next (if rg_e x <? e then set_e l (length A) e else l) (length A) in
  wf l' /\ forall n, mem l' n <-> mem (A ++ x :: B) n \/ in_range s e n.
Proof.
  intros [HA (H1 & H2 & HB)]%wf_from_app Hs Hse He Ha l.
  assert ((if rg_e x <? e then set_e l (length A) e else l) =
          A ++ {| rg_s := rg_s x; rg_e := Z.max (rg_e x) e |} :: B) as ->.
  { unfold l. case_match eqn:Hlt; [rewrite set_e_at|destruct x; simpl in *];
      do 2 f_equal; f_equal; lia. }
  destruct (join_next_spec A {| rg_s := rg_s x; rg_e := Z.max (rg_e x) e |} B) as [Hl Hm];
    simpl; [done|lia|lia| |].
  { apply (wf_from_mono (Z.max (rg_e x + 2) (e + 1))); [lia|]. by apply above_wf. }
  split; [done|]. intros n. rewrite Hm, mem_app, mem_cons. simpl. intuition lia.
Qed.

Lemma set_s_lookup l i v j r : l !! j = Some r ->
  exists r', set_s l i v !! j = Some r' /\ rg_e r' = rg_e r.
Proof.
  intros Hj. unfold set_s. destruct (decide (i = j)) as [->|Hne].
  - rewrite list_lookup_alter_eq, Hj. simpl. eauto.
  - rewrite list_lookup_alter_ne by done. eauto.
Qed.

(** A range of [M ++ [y]] gets the start [s] and covers [M ++ [y]]. *)
Lemma add_cover_spec A z T M y B s e j :
  wf (A ++ M ++ y :: B) -> z :: T = M ++ [y] -> after 0 A <= s <= e -> e <= ULONG_MAX ->
  above s (M ++ [y]) -> rg_s y <= e -> above e B -> (A ++ M ++ y :: B) !! j = Some y ->
  exists ry, let l := set_s (A ++ M ++ y :: B) (length A) s in
  l !! j = Some ry /\
  let l1 := set_e l (length A) (if e <? rg_e ry then rg_e ry else e) in
  let l' := join_next (absorb (length l1) l1 (length A)) (length A) in
  wf l' /\ forall n, mem l' n <-> mem (A ++ M ++ y :: B) n \/ in_range s e n.
Proof.
  intros Hw Hz Hs He Ha Hy HB Hj.
  destruct (set_s_lookup _ (length A) s _ _ Hj) as (ry & Hry & Hre).
  exists ry. cbv zeta. split; [done|]. rewrite Hre.
  pose proof (cover_spec A z T M y B s e Hw Hz Hs He Ha Hy HB) as Hc. cbv zeta in Hc.
  assert (A ++ M ++ y :: B = A ++ z :: T ++ B) as Heq.
  { f_equal. by rewrite (snoc_list M y B), <- Hz. }
  rewrite Heq in *. rewrite set_s_at, set_e_at. exact Hc.
Qed.

(** A range that touches the new one covers [M ++ [y]]. *)
Lemma add_bridge_spec A x M y B s e :
  wf (A ++ x :: M ++ y :: B) -> rg_s x <= s <= rg_e x + 1 -> s <= e -> e <= ULONG_MAX ->
  rg_s y <= e -> above e B ->
  let l1 := set_e (A ++ x :: M ++ y :: B) (length A) (if e <? rg_e y then rg_e y else e) in
  let l' := join_next (absorb (length l1) l1 (length A)) (length A) in
  wf l' /\ forall n, mem l' n <-> mem (A ++ x :: M ++ y :: B) n \/ in_range s e n.
Proof.
  intros Hw Hs Hse He Hy HB. cbv zeta. rewrite set_e_at.
  set (E := if e <? rg_e y then rg_e y else e).
  unfold wf in Hw. apply wf_from_app in Hw as [HA (H1 & H2 & Hw)].
  pose proof (wf_ends _ _ _ _ Hw) as Hends.
  apply wf_from_app in Hw as [HM (H3 & H4 & HB2)]. pose proof (after_ge _ _ HM).
  assert (e <= E /\ rg_e y <= E /\ (E = e \/ E = rg_e y) /\ E <= ULONG_MAX) as HE
    by (unfold E; case_match eqn:Hlt; lia).
  destruct (grow_spec A {| rg_s := rg_s x; rg_e := E |} (M ++ [y]) B) as [Hl Hm];
    cbn [rg_s rg_e] in *; [done|lia|lia| | |].
  { apply Forall_app; split; [|constructor; [lia|constructor]].
    eapply Forall_impl; [exact Hends|]. simpl. lia. }
  { apply (wf_from_mono (Z.max (rg_e y + 2) (e + 1))); [lia|]. by apply above_wf. }
  rewrite <- (snoc_list M y B) in *. split; [done|]. intros n.
  rewrite Hm, mem_app, mem_cons, mem_app, mem_cons. split.
  - intros [?|[?|?]]; [tauto| |tauto].
    destruct (decide (n <= rg_e x)); [left; right; left; lia|].
    destruct (decide (n <= e)); [right; lia|]. left; do 3 right; left. lia.
  - intros [[?|[?|[Hn|[?|?]]]]|?]; [tauto|right; left; lia| |right; left; lia|tauto|right; left; lia].
    pose proof (mem_bounds _ _ _ HM Hn). right; left. lia.
Qed.

(** What an addition of [s, e] does, on every branch. *)
Definition added `{E : HostEnv} (st : rgstate) s e (out : rgstate * res unit) : Prop :=
  let '(st', res) := out in
  match res with
  | Ok _ => wf (rg_list st') /\
      forall n, mem (rg_list st') n <-> mem (rg_list st) n \/ in_range s e n
  | Err c => c = - ENOMEM /\ rg_list st' = rg_list st /\
      env_xmalloc (m_time (rg_m st)) = false /\
      forall n, in_range s e n -> ~ mem (rg_list st) n
  | Bug => False
  end.

Section Add.
Context `{E : HostEnv} (m : machine).

(** All ranges start above [s]. *)
Lemma add_below_spec l s e o : wf l -> 0 <= s <= e -> e <= ULONG_MAX ->
  above s l -> find_range l s = None -> found l e o -> find_range l e = o ->
  added {| rg_m := m; rg_list := l |} s e
    (rangeset_add_range s e {| rg_m := m; rg_list := l |}).
Proof.
  intros Hw Hs He Hx Fx Fy Ho. unfold rangeset_add_range, added.
  rewrite (proj2 (Z.ltb_ge e s)) by lia. rg_run. rewrite Fx, Ho.
  destruct Fy as [Hy|A' y B' -> Hys HB'].
  - rewrite decide_True by done. rg_run.
    destruct (env_xmalloc _); rg_run.
    + by apply (add_same_spec [] l).
    + repeat split. intros n ?. apply (above_not_mem e); [done|lia].
  - rewrite decide_False by done. rg_run.
    destruct (A' ++ [y]) as [|z T] eqn:HT; [by destruct A'|].
    destruct (add_cover_spec [] z T A' y B' s e (length A')) as (ry & Hry & Hl);
      cbn [app after]; [done|done|lia|done| |done|done|apply list_lookup_at|].
    { rewrite snoc_list in Hx. by apply Forall_app in Hx as [? _]. }
    cbn [app length] in Hry, Hl.
    assert (first_range (A' ++ y :: B') = Some 0%nat) as -> by (by destruct A'). rg_run.
    rewrite Hry. rg_run. exact Hl.
Qed.

(** Both searches find [x]. *)
Lemma add_at_spec A x B s e : wf (A ++ x :: B) -> 0 <= s <= e -> e <= ULONG_MAX ->
  rg_s x <= s -> above e B -> find_range (A ++ x :: B) s = Some (length A) ->
  find_range (A ++ x :: B) e = Some (length A) ->
  added {| rg_m := m; rg_list := A ++ x :: B |} s e
    (rangeset_add_range s e {| rg_m := m; rg_list := A ++ x :: B |}).
Proof.
  intros Hw Hs He Hxs HB Fx Fy. unfold rangeset_add_range, added.
  rewrite (proj2 (Z.ltb_ge e s)) by lia. rg_run. rewrite Fx, Fy, decide_True by done.
  rg_run. rewrite list_lookup_at. rg_run.
  pose proof Hw as [HA [Hx HB2]]%wf_from_app. pose proof (after_ge _ _ HA).
  rewrite apart_spec by lia. destruct (Z.ltb_spec (rg_e x + 1) s); rg_run.
  - destruct (env_xmalloc _); rg_run.
    + rewrite insert_after. rg_run. rewrite (snoc_length A x), (snoc_list A x B) in *.
      rewrite (snoc_list A x (_ :: B)).
      apply add_same_spec; [done| |done|done]. rewrite after_app. simpl. lia.
    + repeat split. intros n Hn [Hm|[?|Hm]%mem_cons]%mem_app; [|lia|].
      * pose proof (mem_high _ _ _ HA Hm). lia.
      * by apply (above_not_mem e B n); [|lia|].
  - apply add_touch_spec; [done|lia|lia|done|done].
Qed.

(** The search for [e] finds a range behind [x]. *)
Lemma add_across_spec A x M y B s e : wf (A ++ x :: M ++ y :: B) -> 0 <= s <= e ->
  e <= ULONG_MAX -> rg_s x <= s -> above s (M ++ y :: B) -> rg_s y <= e -> above e B ->
  find_range (A ++ x :: M ++ y :: B) s = Some (length A) ->
  find_range (A ++ x :: M ++ y :: B) e = Some (length (A ++ x :: M)) ->
  added {| rg_m := m; rg_list := A ++ x :: M ++ y :: B |} s e
    (rangeset_add_range s e {| rg_m := m; rg_list := A ++ x :: M ++ y :: B |}).
Proof.
  intros Hw Hs He Hxs HB Hys HB' Fx Fy. unfold rangeset_add_range, added.
  rewrite (proj2 (Z.ltb_ge e s)) by lia. rg_run. rewrite Fx, Fy.
  rewrite decide_False by (rewrite length_app; simpl; intros [=]; lia). rg_run.
  rewrite list_lookup_at. rg_run.
  pose proof Hw as [HA [Hx HB2]]%wf_from_app. pose proof (after_ge _ _ HA).
  assert ((A ++ x :: M ++ y :: B) !! length (A ++ x :: M) = Some y) as Hly.
  { change (x :: M ++ y :: B) with ((x :: M) ++ y :: B). rewrite app_assoc.
    apply list_lookup_at. }
  rewrite apart_spec by lia. destruct (Z.ltb_spec (rg_e x + 1) s); rg_run.
  - destruct (M ++ [y]) as [|z T] eqn:HT; [by destruct M|].
    destruct (add_cover_spec (A ++ [x]) z T M y B s e (length (A ++ x :: M)))
      as (ry & Hry & Hl); rewrite <- ?(snoc_list A x (M ++ y :: B));
      [done|done|rewrite after_app; simpl; lia|done| |done|done|done|].
    { rewrite snoc_list in HB. by apply Forall_app in HB as [? _]. }
    rewrite next_range_at. rewrite <- (snoc_list A x (M ++ y :: B)), <- snoc_length in *.
    destruct (M ++ y :: B) eqn:HMB; [by destruct M|]. rg_run. rewrite Hry. rg_run. exact Hl.
  - rewrite Hly. rg_run. apply add_bridge_spec; [done|lia|lia|done|done|done].
Qed.
End Add.

(** [rangeset_add_range], on every branch. *)
Lemma add_range_spec `{E : HostEnv} s e st : wf (rg_list st) -> 0 <= s <= e ->
  e <= ULONG_MAX -> added st s e (rangeset_add_range s e st).
Proof.
  destruct st as [m l]. cbn [rg_list]. intros Hw Hs He.
  pose proof (find_range_found l s Hw) as F. pose proof (find_range_found l e Hw) as G.
  destruct (find_range l s) as [i|] eqn:Fx; inversion F as [Hx|A x B HAB Hxs HB Hi]; subst.
  2: by eapply add_below_spec.
  destruct (find_range _ e) as [j|] eqn:Fy; inversion G as [Hy|A' y B' HAB' Hys HB' Hj]; subst.
  - destruct (two_splits _ _ _ _ _ _ s e HAB') as [(<- & <- & <-)|(M & -> & ->)];
      try done; [lia| |].
    + by apply add_at_spec.
    + by apply add_across_spec.
  - apply Forall_app in Hy as [_ [? _]%Forall_cons]. lia.
Qed.

(** ** Removal *)

(** The gap between a range that ends before [s] and [s]: where
    [rangeset_remove_range] stretches that range when another one starts
    within [s, e]. *)
Definition filled_gap l s e n : Prop :=
  exists i r, find_range l s = Some i /\ l !! i = Some r /\
    find_range l e <> Some i /\ rg_e r < n < s.

(** The loop of the removal and what follows it. *)
Lemma cut_spec A M y B e : wf A -> 0 <= after 0 A <= e + 1 -> e < ULONG_MAX ->
  rg_e y <= ULONG_MAX -> wf_from (rg_e y + 2) B -> above e B ->
  exists ry,
  let l1 := set_s (destroy_upto (length M) (A ++ M ++ y :: B) (length A)) (length A)
              (u64 (e + 1)) in
  l1 !! length A = Some ry /\
  let l' := if rg_e ry <? rg_s ry then destroy_range l1 (length A) else l1 in
  wf l' /\ forall n, mem l' n <-> mem A n \/ in_range (e + 1) (rg_e y) n \/ mem B n.
Proof.
  intros HA Hs He Hy HB Ha. unfold ULONG_MAX in *.
  exists {| rg_s := e + 1; rg_e := rg_e y |}. cbv zeta.
  assert (u64 (e + 1) = e + 1) as -> by (unfold u64; apply Z.mod_small; lia).
  rewrite destroy_upto_spec, set_s_at. split; [apply list_lookup_at|]. cbn [rg_e rg_s].
  destruct (Z.ltb_spec (rg_e y) (e + 1)).
  - rewrite destroy_at. split.
    + apply wf_from_app. split; [done|].
      apply (wf_from_mono (Z.max (rg_e y + 2) (e + 1))); [lia|]. by apply above_wf.
    + intros n. rewrite mem_app. intuition lia.
  - split.
    + apply wf_from_app. unfold ULONG_MAX. simpl. auto with lia.
    + intros n. by rewrite mem_app, mem_cons.
Qed.

(** The range [x] is replaced by what is left of it. *)
Lemma hole_spec A x B C s e : wf (A ++ x :: B) -> rg_s x <= s <= e -> above e B ->
  wf_from (rg_s x) C -> after (rg_s x) C <= rg_e x + 2 ->
  (forall n, mem C n <-> in_range (rg_s x) (rg_e x) n /\ ~ in_range s e n) ->
  wf (A ++ C ++ B) /\
  forall n, mem (A ++ C ++ B) n <-> mem (A ++ x :: B) n /\ ~ in_range s e n.
Proof.
  intros [HA (H1 & H2 & HB)]%wf_from_app Hs Ha HC Haf Hm. split.
  - apply wf_from_app. split; [done|]. apply wf_from_app. split.
    + apply (wf_from_mono (rg_s x)); [lia|done].
    + apply (wf_from_mono (rg_e x + 2)); [|done]. destruct C; simpl in *; [lia|done].
  - intros n. rewrite !mem_app, mem_cons, Hm.
    assert (mem A n -> ~ in_range s e n) by (intros Hn%(mem_high _ _ _ HA); lia).
    assert (mem B n -> ~ in_range s e n)
      by (intros Hn ?; by apply (above_not_mem e B n); [|lia|]).
    tauto.
Qed.

Ltac hole C :=
  apply (hole_spec _ _ _ C);
  [ assumption | assumption | assumption | simpl; unfold ULONG_MAX; auto with lia
  | simpl; lia
  | let n := fresh "n" in
    intros n; rewrite ?mem_cons; pose proof (mem_nil n); simpl; intuition lia ].

(** The two ends of the removed part are in or behind the same range. *)
Lemma remove_same_spec `{E : HostEnv} A x B s e st :
  rg_list st = A ++ x :: B -> wf (A ++ x :: B) -> rg_s x <= s <= e -> e <= ULONG_MAX ->
  above e B -> find_range (rg_list st) s = Some (length A) ->
  find_range (rg_list st) e = Some (length A) ->
  let '(st', res) := rangeset_remove_range s e st in
  match res with
  | Ok _ => wf (rg_list st') /\
      forall n, mem (rg_list st') n <-> mem (rg_list st) n /\ ~ in_range s e n
  | Err c => c = - ENOMEM /\ rg_list st' = rg_list st /\
      env_xmalloc (m_time (rg_m st)) = false /\ rg_s x < s /\ e < rg_e x
  | Bug => False
  end.
Proof.
  destruct st as [m l]. cbn [rg_list rg_m]. intros -> Hw Hs He Ha Hx Hy.
  unfold rangeset_remove_range. rewrite (proj2 (Z.ltb_ge e s)) by lia. rg_run.
  rewrite Hx, Hy, decide_True by done. rg_run. rewrite list_lookup_at. rg_run.
  assert (0 <= rg_s x /\ rg_s x <= rg_e x <= ULONG_MAX) as Hb.
  { apply wf_from_app in Hw as [HA (? & ? & ?)]. pose proof (after_ge _ _ HA). lia. }
  unfold ULONG_MAX in Hb, He.
  destruct (Z.ltb_spec (rg_e x) s); rg_run.
  { hole [x]. }
  assert (u64 (s - 1) = s - 1 \/ s = 0) as Hs1.
  { destruct (decide (s = 0)); [auto|]. left. unfold u64. apply Z.mod_small. lia. }
  destruct (Z.ltb_spec (rg_s x) s), (Z.ltb_spec e (rg_e x)); cbn [andb]; rg_run.
  - destruct (env_xmalloc _); rg_run; [|done]. destruct Hs1 as [->|?]; [|lia].
    rewrite set_e_at, insert_after. cbn [fst].
    assert (u64 (e + 1) = e + 1) as -> by (unfold u64; apply Z.mod_small; lia).
    hole [{| rg_s := rg_s x; rg_e := s - 1 |}; {| rg_s := e + 1; rg_e := rg_e x |}].
  - destruct Hs1 as [->|?]; [|lia]. rewrite (proj2 (Z.eqb_neq _ _)) by lia. cbn [andb].
    rewrite (proj2 (Z.leb_le _ _)) by lia. rg_run. rewrite set_e_at.
    hole [{| rg_s := rg_s x; rg_e := s - 1 |}].
  - rewrite (proj2 (Z.eqb_eq _ _)) by lia. rewrite (proj2 (Z.leb_gt _ _)) by lia. rg_run.
    assert (u64 (e + 1) = e + 1) as -> by (unfold u64; apply Z.mod_small; lia).
    rewrite set_s_at. hole [{| rg_s := e + 1; rg_e := rg_e x |}].
  - rewrite (proj2 (Z.eqb_eq _ _)) by lia. rewrite (proj2 (Z.leb_le _ _)) by lia. rg_run.
    rewrite destroy_at. hole (@nil range).
Qed.

(** What a removal that succeeds leaves: the difference, and the filled gap. *)
Definition removed l s e l' : Prop :=
  wf l' /\ forall n, mem l' n <-> mem l n /\ ~ in_range s e n \/ filled_gap l s e n.

(** No range starts at or below [s], and the last one that starts within
    [s, e] is [y]. *)
Lemma remove_below_spec `{E : HostEnv} M y B s e st :
  rg_list st = M ++ y :: B -> wf (M ++ y :: B) -> 0 <= s <= e -> e < ULONG_MAX ->
  above s (M ++ y :: B) -> rg_s y <= e -> above e B ->
  find_range (rg_list st) s = None -> find_range (rg_list st) e = Some (length M) ->
  let '(st', res) := rangeset_remove_range s e st in
  res = Ok tt /\ removed (rg_list st) s e (rg_list st').
Proof.
  destruct st as [m l]. cbn [rg_list rg_m]. intros -> Hw Hs He Hab Hy Ha Fx Fy.
  unfold rangeset_remove_range. rewrite (proj2 (Z.ltb_ge e s)) by lia. rg_run.
  rewrite Fx, Fy, decide_False by done. rg_run. unfold first_range.
  destruct (M ++ y :: B) as [|z T] eqn:HT; [by destruct M|]. rg_run.
  assert (s < rg_s z) by (by apply Forall_cons in Hab as [? _]).
  cbn [lookup list_lookup]. rg_run. rewrite (proj2 (Z.ltb_ge _ _)) by lia. rg_run.
  rewrite Nat.sub_0_r, <- HT in *.
  apply wf_from_app in Hw as [HM (H1 & H2 & HB)].
  destruct (cut_spec [] M y B e) as (ry & Hry & Hl & Hm); simpl; try done; [lia|].
  cbn [app length] in *. rewrite Hry. rg_run. split; [done|]. split; [done|].
  intros n. rewrite Hm. unfold filled_gap. rewrite Fx.
  assert (mem B n -> ~ in_range s e n)
    by (intros Hn ?; by apply (above_not_mem e B n); [|lia|]).
  assert (mem M n -> in_range s e n).
  { intros Hn. pose proof (mem_high _ _ _ HM Hn). split; [|lia].
    destruct (decide (s <= n)); [done|]. exfalso.
    apply (above_not_mem s (M ++ y :: B) n); [done|lia|]. rewrite mem_app. auto. }
  assert (s < rg_s y) by (apply Forall_app in Hab as [_ [? _]%Forall_cons]; lia).
  rewrite mem_app, mem_cons. split.
  - intros [Hn|[?|?]]; [by apply mem_nil in Hn| |tauto]. left. lia.
  - intros [[[?|[?|?]] ?]|(i & ? & ? & _)]; [tauto| |tauto|done].
    right; left. lia.
Qed.

(** What is left of [A ++ x :: M ++ y :: B] when [x] ends at [s - 1] and [y]
    starts at [e + 1]. *)
Lemma across_mem A x M y B s e n (P : Prop) :
  wf (A ++ x :: M ++ y :: B) -> rg_s x <= s <= e -> above s (M ++ y :: B) -> rg_s y <= e ->
  above e B -> find_range (A ++ x :: M ++ y :: B) s = Some (length A) ->
  find_range (A ++ x :: M ++ y :: B) e = Some (length (A ++ x :: M)) ->
  (P <-> mem A n \/ in_range (rg_s x) (s - 1) n \/ in_range (e + 1) (rg_e y) n \/ mem B n) ->
  P <-> mem (A ++ x :: M ++ y :: B) n /\ ~ in_range s e n \/
        filled_gap (A ++ x :: M ++ y :: B) s e n.
Proof.
  intros [HA (H1 & H2 & HT)]%wf_from_app Hs Hab Hy Ha Fx Fy ->.
  assert (filled_gap (A ++ x :: M ++ y :: B) s e n <-> rg_e x < n < s) as ->.
  { unfold filled_gap. rewrite Fx, Fy. split.
    - intros (i & r & [= <-] & Hr & _ & ?). rewrite list_lookup_at in Hr. by simplify_eq.
    - intros ?. exists (length A), x. rewrite list_lookup_at.
      rewrite length_app. simpl. repeat split; try lia. intros [=]. lia. }
  apply wf_from_app in HT as [HM (H3 & H4 & HB)].
  assert (mem A n -> ~ in_range s e n) by (intros Hn%(mem_high _ _ _ HA); lia).
  assert (mem B n -> ~ in_range s e n)
    by (intros Hn ?; by apply (above_not_mem e B n); [|lia|]).
  assert (mem M n -> in_range s e n).
  { intros Hn. pose proof (mem_high _ _ _ HM Hn). split; [|lia].
    destruct (decide (s <= n)); [done|]. exfalso.
    apply (above_not_mem s (M ++ y :: B) n); [done|lia|]. rewrite mem_app. auto. }
  assert (s < rg_s y) by (apply Forall_app in Hab as [_ [? _]%Forall_cons]; lia).
  rewrite mem_app, mem_cons, mem_app, mem_cons. split.
  - intros [?|[?|[?|?]]]; [tauto| |left; split; [do 3 right; left|]; lia|tauto].
    destruct (decide (n <= rg_e x)); [left|right; lia]. split; [right; left; lia|lia].
  - intros [[[?|[?|[?|[?|?]]]] ?]|?]; [tauto| |tauto| |tauto|right; left; lia].
    + destruct (decide (n < s)); [right; left; lia|]. exfalso.
      pose proof (after_ge _ _ HM). lia.
    + right; right; left. lia.
Qed.

(** The search for [s] finds [x], and the one for [e] the range [y] behind it. *)
Lemma remove_across_spec `{E : HostEnv} A x M y B s e st :
  rg_list st = A ++ x :: M ++ y :: B -> wf (A ++ x :: M ++ y :: B) ->
  rg_s x <= s <= e -> e < ULONG_MAX -> above s (M ++ y :: B) -> rg_s y <= e -> above e B ->
  find_range (rg_list st) s = Some (length A) ->
  find_range (rg_list st) e = Some (length (A ++ x :: M)) ->
  let '(st', res) := rangeset_remove_range s e st in
  res = Ok tt /\ removed (rg_list st) s e (rg_list st').
Proof.
  destruct st as [m l]. cbn [rg_list rg_m]. intros -> Hw Hs He Hab Hy Ha Fx Fy.
  unfold rangeset_remove_range. rewrite (proj2 (Z.ltb_ge e s)) by lia. rg_run.
  assert (length A <> length (A ++ x :: M)) by (rewrite length_app; simpl; lia).
  rewrite Fx, Fy, decide_False by congruence. rg_run. rewrite list_lookup_at. rg_run.
  pose proof Hw as [HA (H1 & H2 & HT)]%wf_from_app. pose proof (after_ge _ _ HA) as Haf.
  pose proof HT as [HM (H3 & H4 & HB)]%wf_from_app. pose proof (after_ge _ _ HM).
  unfold removed. destruct (Z.ltb_spec (rg_s x) s); rg_run.
  - rewrite next_range_at. destruct (M ++ y :: B) eqn:HMB; [by destruct M|]. rewrite <- HMB in *.
    rg_run. rewrite set_e_at, (snoc_list A _ (M ++ y :: B)).
    rewrite (snoc_length A {| rg_s := rg_s x; rg_e := u64 (s - 1) |}).
    replace (length (A ++ x :: M) - _)%nat with (length M) by (rewrite !length_app; simpl; lia).
    assert (u64 (s - 1) = s - 1) as -> by (unfold u64, ULONG_MAX in *; apply Z.mod_small; lia).
    destruct (cut_spec (A ++ [{| rg_s := rg_s x; rg_e := s - 1 |}]) M y B e)
      as (ry & Hry & Hl & Hm);
      rewrite ?after_app; simpl; try done; [apply wf_from_app; simpl; auto with lia|lia|].
    rewrite Hry. rg_run. split; [done|]. split; [done|]. intros n.
    apply across_mem; try done. rewrite Hm, mem_app, mem_cons. pose proof (mem_nil n). tauto.
  - replace (length (A ++ x :: M) - _)%nat with (length (x :: M))
      by (rewrite !length_app; simpl; lia).
    destruct (cut_spec A (x :: M) y B e) as (ry & Hry & Hl & Hm); try done; [lia|].
    cbn [app] in *. rewrite Hry. rg_run. split; [done|]. split; [done|]. intros n.
    apply across_mem; try done. rewrite Hm. intuition lia.
Qed.

(** ** Queries *)

(** The range that holds [n] is the one the search for [n] finds. *)
Lemma found_mem l n o : wf l -> found l n o ->
  mem l n <-> exists i r, o = Some i /\ l !! i = Some r /\ n <= rg_e r.
Proof.
  intros Hw Hf. destruct Hf as [Ha|A x B -> Hx Ha].
  - split; [intros Hm; by apply (above_not_mem _ _ _ Ha (Z.le_refl n)) in Hm|by intros (i & r & ? & _)].
  - apply wf_from_app in Hw as [HA (H1 & H2 & HB)]. rewrite mem_app, mem_cons. split.
    + intros [Hm|[?|Hm]]; [|by exists (length A), x; rewrite list_lookup_at; auto with lia|].
      * pose proof (mem_high _ _ _ HA Hm). lia.
      * by apply (above_not_mem _ _ _ Ha (Z.le_refl n)) in Hm.
    + intros (i & r & [= <-] & Hr & ?). rewrite list_lookup_at in Hr. simplify_eq.
      right; left. lia.
Qed.

(** The range that follows starts behind a gap. *)
Lemma end_gap A x B : wf (A ++ x :: B) -> ~ mem (A ++ x :: B) (rg_e x + 1).
Proof.
  intros [HA (H1 & H2 & HB)]%wf_from_app [Hm|[?|Hm]%mem_cons]%mem_app; [|lia|].
  - pose proof (mem_high _ _ _ HA Hm). lia.
  - pose proof (mem_low _ _ _ HB Hm). lia.
Qed.

Lemma contains_spec st s e : wf (rg_list st) -> s <= e ->
  exists b, rangeset_contains_range s e st = (st, Ok b) /\
    (b = true <-> forall n, in_range s e n -> mem (rg_list st) n).
Proof.
  destruct st as [m l]. cbn [rg_list]. intros Hw Hs. unfold rangeset_contains_range.
  rewrite (proj2 (Z.ltb_ge e s)) by lia. rg_run.
  pose proof (find_range_found l s Hw) as F. pose proof (found_mem _ _ _ Hw F) as Hm.
  destruct F as [Ha|A x B -> Hx Ha].
  - eexists; split; [done|]. split; [done|]. intros Hall.
    apply (above_not_mem s l s) in Ha; [|lia]. by destruct Ha; apply Hall.
  - rewrite list_lookup_at. eexists; split; [done|]. rewrite Z.leb_le. split.
    + intros ? n ?. rewrite mem_app, mem_cons. right; left. lia.
    + intros Hall. destruct (decide (e <= rg_e x)) as [?|?]; [done|].
      assert (mem (A ++ x :: B) s) as (i & r & [= <-] & Hr & ?)%Hm by (apply Hall; lia).
      rewrite list_lookup_at in Hr. simplify_eq. destruct (end_gap _ _ _ Hw). apply Hall. lia.
Qed.

Lemma overlaps_spec st s e : wf (rg_list st) -> s <= e ->
  exists b, rangeset_overlaps_range s e st = (st, Ok b) /\
    (b = true <-> exists n, in_range s e n /\ mem (rg_list st) n).
Proof.
  destruct st as [m l]. cbn [rg_list]. intros Hw Hs. unfold rangeset_overlaps_range.
  rewrite (proj2 (Z.ltb_ge e s)) by lia. rg_run.
  destruct (find_range_found l e Hw) as [Ha|A x B -> Hx Ha].
  - eexists; split; [done|]. split; [done|]. intros (n & ? & Hm).
    by apply (above_not_mem e) in Hm; [|done|lia].
  - rewrite list_lookup_at. eexists; split; [done|]. rewrite Z.leb_le.
    pose proof Hw as [HA (H1 & H2 & HB)]%wf_from_app. split.
    + intros ?. exists (Z.max s (rg_s x)). rewrite mem_app, mem_cons.
      split; [lia|]. right; left. lia.
    + intros (n & Hn & [Hm|[?|Hm]%mem_cons]%mem_app); [|lia|].
      * pose proof (mem_high _ _ _ HA Hm). lia.
      * by apply (above_not_mem e) in Hm; [|done|lia].
Qed.

(** ** Reports *)

(** The parts of the ranges within [s, e]. *)
Fixpoint clipped l s e : list (Z * Z) :=
  match l with
  | [] => []
  | x :: l =>
      if (s <=? rg_e x) && (rg_s x <=? e)
      then (Z.max (rg_s x) s, Z.min (rg_e x) e) :: clipped l s e else clipped l s e
  end.

(** The callback on each part, until it fails. *)
Fixpoint run_callbacks {C} (cb : Z -> Z -> C -> Z * C) (ps : list (Z * Z)) (ctxt : C)
  : Z * C :=
  match ps with
  | [] => (0, ctxt)
  | (a, b) :: ps =>
      let '(rc, ctxt) := cb a b ctxt in
      if rc =? 0 then run_callbacks cb ps ctxt else (rc, ctxt)
  end.

Lemma clipped_none lo l s e : wf_from lo l -> e < lo -> clipped l s e = [].
Proof.
  revert lo. induction l as [|x l IH]; intros lo; simpl; [done|].
  intros (H1 & _ & H2) ?. rewrite (proj2 (Z.leb_gt (rg_s x) e)) by lia.
  rewrite andb_false_r. apply (IH _ H2). lia.
Qed.

Lemma clipped_skip A l s e : Forall (fun x => rg_e x < s) A ->
  clipped (A ++ l) s e = clipped l s e.
Proof.
  induction A as [|x A IH]; [done|]. intros [? ?]%Forall_cons. simpl.
  rewrite (proj2 (Z.leb_gt s (rg_e x))) by lia. by apply IH.
Qed.

Lemma report_from_spec {C} (cb : Z -> Z -> C -> Z * C) lo l s e ctxt : wf_from lo l ->
  report_from cb l s e ctxt = run_callbacks cb (clipped l s e) ctxt.
Proof.
  revert lo ctxt. induction l as [|x l IH]; intros lo ctxt; [done|].
  cbn [report_from clipped wf_from]. intros (H1 & _ & H2).
  destruct (Z.ltb_spec e (rg_s x)) as [Hlt|Hge].
  - rewrite (proj2 (Z.leb_gt (rg_s x) e)) by lia. rewrite andb_false_r.
    by rewrite (clipped_none _ _ _ _ H2) by lia.
  - rewrite (proj2 (Z.leb_le _ _) Hge), andb_true_r. destruct (s <=? rg_e x); simpl.
    + destruct (cb _ _ _) as [rc ctxt']. destruct (rc =? 0); [|done]. by eapply IH.
    + by eapply IH.
Qed.

Lemma clipped_mem l s e n :
  Exists (fun p => fst p <= n <= snd p) (clipped l s e) <-> mem l n /\ in_range s e n.
Proof.
  induction l as [|x l IH]; simpl.
  { rewrite Exists_nil. pose proof (mem_nil n). tauto. }
  rewrite mem_cons. destruct (Z.leb_spec s (rg_e x)), (Z.leb_spec (rg_s x) e); simpl;
    rewrite ?Exists_cons, IH; simpl; intuition lia.
Qed.

Lemma wf_ends_before lo A x B s : wf_from lo (A ++ x :: B) -> rg_s x <= s ->
  Forall (fun z => rg_e z < s) A.
Proof.
  revert lo. induction A as [|z A IH]; intros lo; simpl; [constructor|].
  intros (H1 & _ & H2) Hx. constructor; [|by eapply IH].
  apply wf_from_app in H2 as [HA Hy]. pose proof (after_ge _ _ HA). simpl in Hy. lia.
Qed.

Lemma report_ranges_spec {C} (cb : Z -> Z -> C -> Z * C) s e ctxt st i :
  wf (rg_list st) -> find_range (rg_list st) s = Some i ->
  rangeset_report_ranges cb s e ctxt st =
    (st, Ok (run_callbacks cb (clipped (rg_list st) s e) ctxt)).
Proof.
  destruct st as [m l]. cbn [rg_list]. intros Hw Hi. unfold rangeset_report_ranges.
  rg_run. rewrite Hi. pose proof (find_range_found l s Hw) as F. rewrite Hi in F.
  inversion F as [|A x B -> Hx Ha HA]; subst. rewrite drop_app_length.
  pose proof Hw as [_ HB]%wf_from_app. rewrite (report_from_spec cb _ _ _ _ _ HB).
  by rewrite clipped_skip by (by eapply wf_ends_before).
Qed.

(** ** One representation *)

Lemma wf_first lo r l : wf_from lo (r :: l) -> mem (r :: l) (rg_s r) /\
  mem (r :: l) (rg_e r) /\ ~ mem (r :: l) (rg_e r + 1) /\
  forall n, mem (r :: l) n -> rg_s r <= n.
Proof.
  cbn [wf_from]. intros (H1 & H2 & HB). rewrite !mem_cons.
  split; [left; lia|]. split; [left; lia|]. split.
  - intros [?|Hm]; [lia|]. pose proof (mem_low _ _ _ HB Hm). lia.
  - intros n [?|Hm]%mem_cons; [lia|]. pose proof (mem_low _ _ _ HB Hm). lia.
Qed.

Lemma tail_mem lo r l n : wf_from lo (r :: l) -> mem l n <-> mem (r :: l) n /\ rg_e r < n.
Proof.
  cbn [wf_from]. intros (H1 & H2 & HB). rewrite mem_cons. split; [|intuition lia].
  intros Hm. pose proof (mem_low _ _ _ HB Hm). auto with lia.
Qed.

Lemma wf_unique l1 l2 lo1 lo2 : wf_from lo1 l1 -> wf_from lo2 l2 ->
  (forall n, mem l1 n <-> mem l2 n) -> l1 = l2.
Proof.
  revert l2 lo1 lo2. induction l1 as [|r1 l1 IH]; intros [|r2 l2] lo1 lo2 H1 H2 Hm; [done|..].
  - destruct (wf_first _ _ _ H2) as [Hs _]. by apply Hm, mem_nil in Hs.
  - destruct (wf_first _ _ _ H1) as [Hs _]. by apply Hm, mem_nil in Hs.
  - destruct (wf_first _ _ _ H1) as (A1 & A2 & A3 & A4).
    destruct (wf_first _ _ _ H2) as (B1 & B2 & B3 & B4).
    rewrite Hm in A1, A2, A3. rewrite <- Hm in B1, B2, B3.
    assert (rg_s r1 = rg_s r2) as Hs by (apply A4 in B1; apply B4 in A1; lia).
    assert (rg_e r1 = rg_e r2) as He.
    { rewrite mem_cons in A3, B3. cbn [wf_from] in H1, H2.
      destruct (Z.lt_trichotomy (rg_e r1) (rg_e r2)) as [?|[?|?]]; [|done|].
      - destruct A3. left. lia.
      - destruct B3. left. lia. }
    f_equal; [destruct r1, r2; simpl in *; congruence|].
    apply (IH l2 (rg_e r1 + 2) (rg_e r2 + 2)); [apply H1|apply H2|].
    intros n. rewrite (tail_mem _ _ _ n H1), (tail_mem _ _ _ n H2), Hm, He. done.
Qed.

(** Two additions with memory for them: the union of both. *)
Lemma two_additions `{E : HostEnv} s1 e1 s2 e2 st :
  (forall t, env_xmalloc t = true) -> wf (rg_list st) ->
  0 <= s1 <= e1 -> e1 <= ULONG_MAX -> 0 <= s2 <= e2 -> e2 <= ULONG_MAX ->
  exists a, (rangeset_add_range s1 e1;; rangeset_add_range s2 e2) st = (a, Ok tt) /\
    wf (rg_list a) /\
    forall n, mem (rg_list a) n <->
      mem (rg_list st) n \/ in_range s1 e1 n \/ in_range s2 e2 n.
Proof.
  intros Hx Hw H1 H1' H2 H2'. unfold bind.
  pose proof (add_range_spec s1 e1 st Hw H1 H1') as Ha. unfold added in Ha.
  destruct (rangeset_add_range s1 e1 st) as [a [[]|c|]]; [| |done].
  2: { destruct Ha as (_ & _ & Hf & _). by rewrite Hx in Hf. }
  destruct Ha as [Hwa Hma].
  pose proof (add_range_spec s2 e2 a Hwa H2 H2') as Hb. unfold added in Hb.
  destruct (rangeset_add_range s2 e2 a) as [b [[]|c|]]; [| |done].
  2: { destruct Hb as (_ & _ & Hf & _). by rewrite Hx in Hf. }
  destruct Hb as [Hwb Hmb]. exists b. split; [done|]. split; [done|].
  intros n. rewrite Hmb, Hma. tauto.
Qed.

(** [rangeset_remove_range], on every branch. *)
Lemma remove_range_spec `{E : HostEnv} s e st : wf (rg_list st) -> 0 <= s <= e ->
  e < ULONG_MAX ->
  let '(st', res) := rangeset_remove_range s e st in
  match res with
  | Ok _ => removed (rg_list st) s e (rg_list st')
  | Err c => c = - ENOMEM /\ rg_list st' = rg_list st /\
      env_xmalloc (m_time (rg_m st)) = false /\
      forall n, in_range (s - 1) (e + 1) n -> mem (rg_list st) n
  | Bug => False
  end.
Proof.
  intros Hw Hs He. destruct st as [m l]. cbn [rg_list] in *.
  pose proof (find_range_found l s Hw) as F. pose proof (find_range_found l e Hw) as G.
  destruct (find_range l s) as [i|] eqn:Fx; inversion F as [Hx|A x B HAB Hxs HB Hi]; subst;
    (destruct (find_range _ e) as [j|] eqn:Fy;
      inversion G as [Hy|A' y B' HAB' Hys HB' Hj]; subst).
  - destruct (two_splits _ _ _ _ _ _ s e HAB') as [(<- & <- & <-)|(M & -> & ->)];
      try done; [lia| |].
    + pose proof (remove_same_spec A x B s e {| rg_m := m; rg_list := A ++ x :: B |}) as H.
      cbn [rg_list rg_m] in H. specialize (H eq_refl Hw).
      destruct (rangeset_remove_range s e _) as [st' [[]|c|]]; [| |by apply H; auto with lia].
      2: { destruct H as (H1 & H2 & H3 & H4); [lia|lia|done|done|done|].
           split; [done|]. split; [done|]. split; [done|]. intros n ?. cbn [rg_list].
           rewrite mem_app, mem_cons. right; left. lia. }
      destruct H as [H1 H2]; [lia|lia|done|done|done|]. split; [done|]. intros n.
      rewrite H2. unfold filled_gap. rewrite Fx, Fy. split; [tauto|].
      intros [?|(i & r & [= <-] & _ & Hn & _)]; [done|by destruct Hn].
    + pose proof (remove_across_spec A x M y B' s e
        {| rg_m := m; rg_list := A ++ x :: M ++ y :: B' |}) as H.
      cbn [rg_list rg_m] in H. specialize (H eq_refl Hw).
      destruct (rangeset_remove_range s e _) as [st' r].
      destruct H as [-> H]; [lia|lia|done|done|done|done|done|done].
  - apply Forall_app in Hy as [_ [? _]%Forall_cons]. lia.
  - pose proof (remove_below_spec A' y B' s e {| rg_m := m; rg_list := A' ++ y :: B' |}) as H.
    cbn [rg_list rg_m] in H. specialize (H eq_refl Hw).
    destruct (rangeset_remove_range s e _) as [st' r].
    destruct H as [-> H]; [lia|lia|done|done|done|done|done|done].
  - unfold rangeset_remove_range. rewrite (proj2 (Z.ltb_ge e s)) by lia. rg_run.
    rewrite Fx, Fy, decide_True by done. rg_run. split; [done|]. intros n.
    unfold filled_gap. rewrite Fx. split; [|intros [[? _]|(i & ? & ? & _)]; done].
    intros Hn. left. split; [done|]. intros ?. by apply (above_not_mem e l n); [|lia|].
Qed.
