(* ===== verification/RangesetProps.v ===== *)
(** * Rangesets: the operations are set operations

    Addition is union, removal is difference but for the gap that
    [rangeset_remove_range] may fill, the two queries decide inclusion and
    intersection, and a report visits the parts of the ranges within the
    bounds.  The last part runs the cases where the code does less. *)

From stdpp Require Import base list numbers gmap.
From Stdlib Require Import ZArith Lia.
From S2P Require Import Prelude Machine Rangeset RangesetOps.

Open Scope Z_scope.
Open Scope se_scope.

(** ** A set for the examples *)

(** An environment whose allocations succeed as [ok] says. *)
Definition rg_env (ok : bool) : HostEnv := {|
  env_guest_read := fun _ _ n => (replicate (Z.to_nat n) 0, 0);
  env_guest_write := fun _ _ _ => 0;
  env_handle_ok := fun _ _ _ => true;
  env_xmalloc := fun _ => ok;
  env_alloc_xenheap_page := fun _ => true;
  env_map_page := fun _ _ => true;
  env_get_gfn_unshare := fun _ _ pfn => pfn;
  env_mfn_retry := fun _ => false;
  env_mfn_valid := fun _ => true;
  env_mfn_valid_page := fun _ => true;
  env_get_page := fun _ _ _ => true;
  env_free_pages_needed := fun _ => false;
  env_ui_running := true;
  env_ui_signal_v4v := true
|}.

Definition rg (s e : Z) : range := {| rg_s := s; rg_e := e |}.

Definition set_of (l : list range) : rgstate :=
  {| rg_m := {| m_time := 0; m_mem := fun _ _ => 0; m_refs := fun _ => 0; m_log := [] |};
     rg_list := l |}.

Definition three : list range := [rg 0 5; rg 20 30; rg 40 50].

Lemma three_wf : wf three.
Proof. vm_compute. intuition congruence. Qed.

(** ** Addition *)

(** C24: On an ordered list, [rangeset_add_range] returns [0] and leaves an
    ordered list of exactly the union with [[s, e]], or it returns [-ENOMEM]
    with the set as it was; the latter only when the allocation failed and
    no number of [[s, e]] was in the set. *)
Theorem add_range_is_union `{E : HostEnv} s e st :
  wf (rg_list st) -> 0 <= s <= e -> e <= ULONG_MAX ->
  let '(st', res) := rangeset_add_range s e st in
  match res with
  | Ok _ => wf (rg_list st') /\
      forall n, mem (rg_list st') n <-> mem (rg_list st) n \/ s <= n <= e
  | Err c => c = - ENOMEM /\ rg_list st' = rg_list st /\
      env_xmalloc (m_time (rg_m st)) = false /\
      forall n, s <= n <= e -> ~ mem (rg_list st) n
  | Bug => False
  end.
Proof. apply add_range_spec. Qed.

Lemma add_range_is_union_witness :
  let '(st', res) := @rangeset_add_range (rg_env true) 6 41 (set_of three) in
  res = Ok tt /\ rg_list st' = [rg 0 50] /\
  match res with
  | Ok _ => wf (rg_list st') /\
      forall n, mem (rg_list st') n <-> mem three n \/ 6 <= n <= 41
  | _ => False
  end.
Proof.
  split; [vm_compute; reflexivity|]. split; [vm_compute; reflexivity|].
  assert (wf (rg_list (set_of three))) as Hw by exact three_wf.
  assert (0 <= 6 <= 41) as Hs by lia. assert (41 <= ULONG_MAX) as He by (unfold ULONG_MAX; lia).
  exact (@add_range_is_union (rg_env true) 6 41 (set_of three) Hw Hs He).
Defined.

(** The list is determined by the set: two additions leave the same list
    in whichever order they are made, when the allocations succeed. *)
Theorem additions_commute `{E : HostEnv} s1 e1 s2 e2 st :
  (forall t, env_xmalloc t = true) -> wf (rg_list st) ->
  0 <= s1 <= e1 -> e1 <= ULONG_MAX -> 0 <= s2 <= e2 -> e2 <= ULONG_MAX ->
  let '(a, ra) := (rangeset_add_range s1 e1;; rangeset_add_range s2 e2) st in
  let '(b, rb) := (rangeset_add_range s2 e2;; rangeset_add_range s1 e1) st in
  ra = Ok tt /\ rb = Ok tt /\ rg_list a = rg_list b.
Proof.
  intros Hx Hw H1 H1' H2 H2'.
  destruct (two_additions s1 e1 s2 e2 st Hx Hw H1 H1' H2 H2') as (a & -> & Ha & Hma).
  destruct (two_additions s2 e2 s1 e1 st Hx Hw H2 H2' H1 H1') as (b & -> & Hb & Hmb).
  split; [done|]. split; [done|]. apply (wf_unique _ _ 0 0 Ha Hb).
  intros n. rewrite Hma, Hmb. tauto.
Qed.

Lemma additions_commute_witness :
  let '(a, ra) := (@rangeset_add_range (rg_env true) 60 70;;
                   @rangeset_add_range (rg_env true) 4 25) (set_of three) in
  let '(b, rb) := (@rangeset_add_range (rg_env true) 4 25;;
                   @rangeset_add_range (rg_env true) 60 70) (set_of three) in
  rg_list a = [rg 0 30; rg 40 50; rg 60 70] /\
  ra = Ok tt /\ rb = Ok tt /\ rg_list a = rg_list b.
Proof.
  split; [vm_compute; reflexivity|].
  apply (@additions_commute (rg_env true) 60 70 4 25 (set_of three));
    [reflexivity|exact three_wf|unfold ULONG_MAX; lia..].
Defined.

(** ** Removal *)

(** On an ordered list and below [ULONG_MAX], [rangeset_remove_range]
    leaves an ordered list of the difference with [[s, e]] and nothing else,
    but for one case: when the search for [s] and the one for [e] find
    different ranges, the first of which ends before [s], the numbers between
    that end and [s] are in the set afterwards.  [-ENOMEM] leaves the set as
    it was, and is only returned when the removal would split a range and the
    allocation failed. *)
Theorem remove_range_is_difference `{E : HostEnv} s e st :
  wf (rg_list st) -> 0 <= s <= e -> e < ULONG_MAX ->
  let '(st', res) := rangeset_remove_range s e st in
  match res with
  | Ok _ => wf (rg_list st') /\
      forall n, mem (rg_list st') n <->
        mem (rg_list st) n /\ ~ (s <= n <= e) \/ filled_gap (rg_list st) s e n
  | Err c => c = - ENOMEM /\ rg_list st' = rg_list st /\
      env_xmalloc (m_time (rg_m st)) = false /\
      forall n, s - 1 <= n <= e + 1 -> mem (rg_list st) n
  | Bug => False
  end.
Proof. apply remove_range_spec. Qed.

Lemma remove_range_is_difference_witness :
  let '(st', res) := @rangeset_remove_range (rg_env true) 25 44 (set_of three) in
  res = Ok tt /\ rg_list st' = [rg 0 5; rg 20 24; rg 45 50] /\
  match res with
  | Ok _ => wf (rg_list st') /\
      forall n, mem (rg_list st') n <->
        mem three n /\ ~ (25 <= n <= 44) \/ filled_gap three 25 44 n
  | _ => False
  end.
Proof.
  split; [vm_compute; reflexivity|]. split; [vm_compute; reflexivity|].
  assert (wf (rg_list (set_of three))) as Hw by exact three_wf.
  assert (0 <= 25 <= 44) as Hs by lia. assert (44 < ULONG_MAX) as He by (unfold ULONG_MAX; lia).
  exact (@remove_range_is_difference (rg_env true) 25 44 (set_of three) Hw Hs He).
Defined.

(** ** Queries *)

(** On an ordered list, [rangeset_contains_range] decides whether all of
    [[s, e]] is in the set and [rangeset_overlaps_range] whether any of it is;
    neither changes the set. *)
Theorem queries_decide s e st : wf (rg_list st) -> s <= e ->
  exists c o,
    rangeset_contains_range s e st = (st, Ok c) /\
    rangeset_overlaps_range s e st = (st, Ok o) /\
    (c = true <-> forall n, s <= n <= e -> mem (rg_list st) n) /\
    (o = true <-> exists n, s <= n <= e /\ mem (rg_list st) n).
Proof.
  intros Hw Hs. destruct (contains_spec st s e Hw Hs) as (c & Hc & ?).
  destruct (overlaps_spec st s e Hw Hs) as (o & Ho & ?). by exists c, o.
Qed.

Lemma queries_decide_witness :
  rangeset_contains_range 20 31 (set_of three) = (set_of three, Ok false) /\
  rangeset_overlaps_range 20 31 (set_of three) = (set_of three, Ok true) /\
  exists c o,
    rangeset_contains_range 20 31 (set_of three) = (set_of three, Ok c) /\
    rangeset_overlaps_range 20 31 (set_of three) = (set_of three, Ok o) /\
    (c = true <-> forall n, 20 <= n <= 31 -> mem three n) /\
    (o = true <-> exists n, 20 <= n <= 31 /\ mem three n).
Proof.
  split; [reflexivity|]. split; [reflexivity|].
  apply (queries_decide 20 31 (set_of three)); [exact three_wf|lia].
Defined.

(** When some range starts at or below [s], [rangeset_report_ranges]
    calls the callback on the non-empty parts of the ranges within [[s, e]],
    lowest first, until it fails, and returns its last code; together the
    parts are the set within [[s, e]]. *)
Theorem report_visits_intersection {C} (cb : Z -> Z -> C -> Z * C) s e ctxt st i :
  wf (rg_list st) -> find_range (rg_list st) s = Some i ->
  rangeset_report_ranges cb s e ctxt st =
    (st, Ok (run_callbacks cb (clipped (rg_list st) s e) ctxt)) /\
  forall n, Exists (fun p => fst p <= n <= snd p) (clipped (rg_list st) s e) <->
    mem (rg_list st) n /\ s <= n <= e.
Proof.
  intros Hw Hi. split; [|intros n; apply clipped_mem].
  by rewrite (report_ranges_spec cb s e ctxt st i Hw Hi).
Qed.

(** Collects the parts. *)
Definition collect (a b : Z) (acc : list (Z * Z)) : Z * list (Z * Z) := (0, acc ++ [(a, b)]).

Lemma report_visits_intersection_witness :
  rangeset_report_ranges collect 3 44 [] (set_of three) =
    (set_of three, Ok (0, [(3, 5); (20, 30); (40, 44)])) /\
  rangeset_report_ranges collect 3 44 [] (set_of three) =
    (set_of three, Ok (run_callbacks collect (clipped three 3 44) [])) /\
  forall n, Exists (fun p => fst p <= n <= snd p) (clipped three 3 44) <->
    mem three n /\ 3 <= n <= 44.
Proof.
  split; [reflexivity|].
  apply (report_visits_intersection collect 3 44 [] (set_of three) 0%nat);
    [exact three_wf|reflexivity].
Defined.

(** ** Where the code does less than it means to *)

(** A removal of [10 .. 25] puts the numbers from [6] to [9] into the set. *)
Theorem remove_range_fills_gap :
  let '(st', res) := @rangeset_remove_range (rg_env true) 10 25 (set_of three) in
  res = Ok tt /\ rg_list st' = [rg 0 9; rg 26 30; rg 40 50].
Proof. vm_compute. split; reflexivity. Qed.

(** A removal up to [ULONG_MAX] that reaches several ranges leaves the last
    one, from [0] on: [e + 1] wraps. *)
Theorem remove_range_to_max_wraps :
  let '(st', res) := @rangeset_remove_range (rg_env true) 25 ULONG_MAX (set_of three) in
  res = Ok tt /\ rg_list st' = [rg 0 5; rg 20 24; rg 0 50] /\ ~ wf (rg_list st').
Proof.
  split; [vm_compute; reflexivity|]. split; [vm_compute; reflexivity|].
  vm_compute. intuition congruence.
Qed.

(** A report that starts below the first range visits nothing. *)
Theorem report_below_first_range_is_empty :
  rangeset_report_ranges collect 0 100 [] (set_of [rg 20 30]) =
    (set_of [rg 20 30], Ok (0, [])) /\ mem [rg 20 30] 25.
Proof. split; [reflexivity|]. constructor. simpl. lia. Qed.
