(* ===== verification/Vpic.v ===== *)
(** * The virtual 8259 interrupt controllers

    xen/arch/x86/hvm/vpic.c: the master and the slave PIC of a domain, the
    guest's accesses to their ports, the edges of the interrupt lines and the
    acknowledge cycle.  A pointer to a controller is its index in
    [d->arch.hvm_domain.vpic[2]]; [--vpic] and [vpic++] leave the array at its
    ends, which is [Bug].  [vlapic_accept_pic_intr] is an argument. *)

From stdpp Require Import base list numbers.
From Stdlib Require Import ZArith Lia.
From S2P Require Import Prelude.

Open Scope Z_scope.
Open Scope se_scope.

(** ** State *)

Record hvm_hw_vpic : Type := {
  irr : Z;
  imr : Z;
  isr : Z;
  irq_base : Z;
  init_state : Z;     (** 4 bits *)
  priority_add : Z;   (** 4 bits *)
  readsel_isr : bool;
  poll : bool;
  auto_eoi : bool;
  rotate_on_auto_eoi : bool;
  special_fully_nested_mode : bool;
  special_mask_mode : bool;
  is_master : bool;
  elcr : Z;
  int_output : bool
}.

Definition set_irr (x : Z) (v : hvm_hw_vpic) : hvm_hw_vpic :=
  {| irr := x; imr := imr v; isr := isr v; irq_base := irq_base v;
     init_state := init_state v; priority_add := priority_add v;
     readsel_isr := readsel_isr v; poll := poll v; auto_eoi := auto_eoi v;
     rotate_on_auto_eoi := rotate_on_auto_eoi v;
     special_fully_nested_mode := special_fully_nested_mode v;
     special_mask_mode := special_mask_mode v; is_master := is_master v;
     elcr := elcr v; int_output := int_output v |}.
Definition set_imr (x : Z) (v : hvm_hw_vpic) : hvm_hw_vpic :=
  {| irr := irr v; imr := x; isr := isr v; irq_base := irq_base v;
     init_state := init_state v; priority_add := priority_add v;
     readsel_isr := readsel_isr v; poll := poll v; auto_eoi := auto_eoi v;
     rotate_on_auto_eoi := rotate_on_auto_eoi v;
     special_fully_nested_mode := special_fully_nested_mode v;
     special_mask_mode := special_mask_mode v; is_master := is_master v;
     elcr := elcr v; int_output := int_output v |}.
Definition set_isr (x : Z) (v : hvm_hw_vpic) : hvm_hw_vpic :=
  {| irr := irr v; imr := imr v; isr := x; irq_base := irq_base v;
     init_state := init_state v; priority_add := priority_add v;
     readsel_isr := readsel_isr v; poll := poll v; auto_eoi := auto_eoi v;
     rotate_on_auto_eoi := rotate_on_auto_eoi v;
     special_fully_nested_mode := special_fully_nested_mode v;
     special_mask_mode := special_mask_mode v; is_master := is_master v;
     elcr := elcr v; int_output := int_output v |}.
Definition set_init (base st : Z) (v : hvm_hw_vpic) : hvm_hw_vpic :=
  {| irr := irr v; imr := imr v; isr := isr v; irq_base := base;
     init_state := st; priority_add := priority_add v;
     readsel_isr := readsel_isr v; poll := poll v; auto_eoi := auto_eoi v;
     rotate_on_auto_eoi := rotate_on_auto_eoi v;
     special_fully_nested_mode := special_fully_nested_mode v;
     special_mask_mode := special_mask_mode v; is_master := is_master v;
     elcr := elcr v; int_output := int_output v |}.
Definition set_priority_add (x : Z) (v : hvm_hw_vpic) : hvm_hw_vpic :=
  {| irr := irr v; imr := imr v; isr := isr v; irq_base := irq_base v;
     init_state := init_state v; priority_add := x;
     readsel_isr := readsel_isr v; poll := poll v; auto_eoi := auto_eoi v;
     rotate_on_auto_eoi := rotate_on_auto_eoi v;
     special_fully_nested_mode := special_fully_nested_mode v;
     special_mask_mode := special_mask_mode v; is_master := is_master v;
     elcr := elcr v; int_output := int_output v |}.
(** The bits that OCW2, OCW3, ICW1 and ICW4 set. *)
Definition set_modes (rs p ae rot sf sm : bool) (v : hvm_hw_vpic) : hvm_hw_vpic :=
  {| irr := irr v; imr := imr v; isr := isr v; irq_base := irq_base v;
     init_state := init_state v; priority_add := priority_add v;
     readsel_isr := rs; poll := p; auto_eoi := ae; rotate_on_auto_eoi := rot;
     special_fully_nested_mode := sf; special_mask_mode := sm;
     is_master := is_master v; elcr := elcr v; int_output := int_output v |}.
Definition set_elcr (x : Z) (v : hvm_hw_vpic) : hvm_hw_vpic :=
  {| irr := irr v; imr := imr v; isr := isr v; irq_base := irq_base v;
     init_state := init_state v; priority_add := priority_add v;
     readsel_isr := readsel_isr v; poll := poll v; auto_eoi := auto_eoi v;
     rotate_on_auto_eoi := rotate_on_auto_eoi v;
     special_fully_nested_mode := special_fully_nested_mode v;
     special_mask_mode := special_mask_mode v; is_master := is_master v;
     elcr := x; int_output := int_output v |}.
Definition set_int_output (x : bool) (v : hvm_hw_vpic) : hvm_hw_vpic :=
  {| irr := irr v; imr := imr v; isr := isr v; irq_base := irq_base v;
     init_state := init_state v; priority_add := priority_add v;
     readsel_isr := readsel_isr v; poll := poll v; auto_eoi := auto_eoi v;
     rotate_on_auto_eoi := rotate_on_auto_eoi v;
     special_fully_nested_mode := special_fully_nested_mode v;
     special_mask_mode := special_mask_mode v; is_master := is_master v;
     elcr := elcr v; int_output := x |}.

(** What the controllers do to the rest of the domain. *)
Inductive pic_event : Type :=
| PicKick (v : Z)       (** [vcpu_kick(v)] *)
| PicUnmask             (** [pt_may_unmask_irq(d, NULL)] *)
| PicPortio (port size : Z).   (** [register_portio_handler] *)

(** The controllers of a domain, its [i8259_target] and the log. *)
Record pics : Type := {
  pic0 : hvm_hw_vpic;
  pic1 : hvm_hw_vpic;
  i8259_target : option Z;
  pic_log : list pic_event    (** newest first *)
}.

Definition pic_of (p : pics) (i : nat) : option hvm_hw_vpic :=
  match i with O => Some (pic0 p) | S O => Some (pic1 p) | _ => None end.

Definition vpic (i : nat) : SE pics hvm_hw_vpic :=
  p <- get;; match pic_of p i with Some v => ret v | None => bug end.

Definition upd_pic (i : nat) (f : hvm_hw_vpic -> hvm_hw_vpic) : SE pics unit :=
  match i with
  | O => modify (fun p => {| pic0 := f (pic0 p); pic1 := pic1 p;
                             i8259_target := i8259_target p; pic_log := pic_log p |})
  | S O => modify (fun p => {| pic0 := pic0 p; pic1 := f (pic1 p);
                               i8259_target := i8259_target p; pic_log := pic_log p |})
  | _ => bug
  end.

Definition pic_emit (e : pic_event) : SE pics unit :=
  modify (fun p => {| pic0 := pic0 p; pic1 := pic1 p; i8259_target := i8259_target p;
                      pic_log := e :: pic_log p |}).

(** ** Priorities *)

(** [ror %cl, %b1] on the byte [m] *)
Definition ror8 (m k : Z) : Z :=
  u8 (Z.lor (Z.shiftr m (k mod 8)) (Z.shiftl m (8 - k mod 8))).

(** [bsf]: the index of the lowest of the [n] bits from [i] on that is set. *)
Fixpoint bsf (n : nat) (m i : Z) : Z :=
  match n with
  | O => i
  | S n => if Z.testbit m i then i else bsf n m (i + 1)
  end.

Definition VPIC_PRIO_NONE : Z := 8.

Definition vpic_get_priority (v : hvm_hw_vpic) (mask : Z) : Z :=
  if mask =? 0 then VPIC_PRIO_NONE else bsf 8 (ror8 mask (priority_add v)) 0.

(** [x & ~y] *)
Definition clear (x y : Z) : Z := Z.land x (Z.lnot y).

Definition vpic_get_highest_priority_irq (v : hvm_hw_vpic) : Z :=
  let mask := clear (irr v) (imr v) in
  let priority := vpic_get_priority v mask in
  if priority =? VPIC_PRIO_NONE then -1
  else
    let irq := Z.land (priority + priority_add v) 7 in
    let mask := isr v in
    let mask := if special_fully_nested_mode v && is_master v && (irq =? 2)
                then clear mask (Z.shiftl 1 2) else mask in
    let mask := if special_mask_mode v then clear mask (imr v) else mask in
    let cur_priority := vpic_get_priority v mask in
    if priority <? cur_priority then irq else -1.

(** ** The INT line *)

(** [vpic_update_int_output]: the slave's line is IR2 of the master. *)
Fixpoint vpic_update_int_output (i : nat) : SE pics unit :=
  v <- vpic i;;
  let irq := vpic_get_highest_priority_irq v in
  if Bool.eqb (int_output v) (0 <=? irq) then ret tt
  else
    let out := negb (int_output v) in
    upd_pic i (set_int_output out);;
    if out then
      if is_master v then
        t <- gets i8259_target;;
        match t with Some c => pic_emit (PicKick c) | None => ret tt end
      else
        match i with
        | O => bug
        | S j =>
            upd_pic j (fun m => set_irr (Z.lor (irr m) (Z.shiftl 1 2)) m);;
            vpic_update_int_output j
        end
    else if negb (is_master v) then
      match i with
      | O => bug
      | S j =>
          upd_pic j (fun m => set_irr (clear (irr m) (Z.shiftl 1 2)) m);;
          vpic_update_int_output j
      end
    else ret tt.

(** [__vpic_intack] *)
Definition intack_update (irq : Z) (v : hvm_hw_vpic) : hvm_hw_vpic :=
  let mask := u8 (Z.shiftl 1 irq) in
  let v := if Z.land (elcr v) mask =? 0 then set_irr (clear (irr v) mask) v else v in
  if negb (auto_eoi v) then set_isr (Z.lor (isr v) mask) v
  else if rotate_on_auto_eoi v then set_priority_add (Z.land (irq + 1) 7) v
  else v.

Definition do_intack (i : nat) (irq : Z) : SE pics unit :=
  upd_pic i (intack_update irq);; vpic_update_int_output i.

(** [vpic_intack] *)
Definition vpic_intack (i : nat) : SE pics Z :=
  v <- vpic i;;
  if negb (int_output v) then ret (-1)
  else
    let irq := vpic_get_highest_priority_irq v in
    bug_if (irq <? 0);;
    do_intack i irq;;
    if (irq =? 2) && is_master v then
      v <- vpic (S i);;
      let irq := vpic_get_highest_priority_irq v in
      bug_if (irq <? 0);;
      do_intack (S i) irq;;
      ret (irq + 8)
    else ret irq.

(** ** The guest's ports *)

(** ICW1 *)
Definition write_icw1 (val : Z) (v : hvm_hw_vpic) : hvm_hw_vpic :=
  let v := set_irr (Z.land (irr v) (elcr v)) v in
  let v := set_isr 0 (set_imr 0 v) in
  let v := set_priority_add 0 v in
  let ic4 := Z.testbit val 0 in
  let v := set_modes false false (ic4 && auto_eoi v) false
             (ic4 && special_fully_nested_mode v) false v in
  set_init (irq_base v) (Z.lor (Z.shiftl (Z.land val 3) 2) 1) v.

(** OCW3 *)
Definition write_ocw3 (val : Z) (v : hvm_hw_vpic) : hvm_hw_vpic :=
  set_modes (if Z.testbit val 1 then Z.testbit val 0 else readsel_isr v)
    (Z.testbit val 2 || poll v) (auto_eoi v) (rotate_on_auto_eoi v)
    (special_fully_nested_mode v)
    (if Z.testbit val 6 then Z.testbit val 5 else special_mask_mode v) v.

(** OCW2 *)
Definition write_ocw2 (val : Z) (v : hvm_hw_vpic) : hvm_hw_vpic :=
  let cmd := Z.shiftr val 5 in
  if (cmd =? 0) || (cmd =? 4) then
    set_modes (readsel_isr v) (poll v) (auto_eoi v) (Z.testbit cmd 2)
      (special_fully_nested_mode v) (special_mask_mode v) v
  else if (cmd =? 1) || (cmd =? 5) then
    let mask := isr v in
    let mask := if special_mask_mode v then clear mask (imr v) else mask in
    let priority := vpic_get_priority v mask in
    if priority =? VPIC_PRIO_NONE then v
    else
      let irq := Z.land (priority + priority_add v) 7 in
      let v := set_isr (clear (isr v) (Z.shiftl 1 irq)) v in
      if cmd =? 5 then set_priority_add (Z.land (irq + 1) 7) v else v
  else if (cmd =? 3) || (cmd =? 7) then
    let irq := Z.land val 7 in
    let v := set_isr (clear (isr v) (Z.shiftl 1 irq)) v in
    if cmd =? 7 then set_priority_add (Z.land (irq + 1) 7) v else v
  else if cmd =? 6 then set_priority_add (Z.land (val + 1) 7) v
  else v.

(** A write at A=1: OCW1, or the next word of the initialisation. *)
Definition write_icw3 (v : hvm_hw_vpic) : hvm_hw_vpic :=
  let st := (init_state v + 1) mod 16 in
  set_init (irq_base v) (if Z.testbit st 2 then st else 0) v.

Definition write_a1 (val : Z) (v : hvm_hw_vpic) : hvm_hw_vpic :=
  let st := Z.land (init_state v) 3 in
  if st =? 0 then set_imr val v
  else if st =? 1 then
    let v := set_init (Z.land val 0xf8) ((init_state v + 1) mod 16) v in
    if negb (Z.testbit (init_state v) 3) then v else write_icw3 v
  else if st =? 2 then write_icw3 v
  else
    set_init (irq_base v) 0
      (set_modes (readsel_isr v) (poll v) (Z.testbit val 1) (rotate_on_auto_eoi v)
         (Z.testbit val 4) (special_mask_mode v) v).

(** The lines the write may have unmasked. *)
Definition unmasked (addr val : Z) (v : hvm_hw_vpic) : Z :=
  if negb (Z.testbit addr 0) then (if Z.testbit val 4 then imr v else 0)
  else if Z.land (init_state v) 3 =? 0 then clear (imr v) val else 0.

(** [vpic_ioport_write]; [val] is a byte.  The specific EOIs return before
    the end of the function, but unmask nothing. *)
Definition vpic_ioport_write (i : nat) (addr val : Z) : SE pics unit :=
  v <- vpic i;;
  upd_pic i
    (if negb (Z.testbit addr 0) then
       if Z.testbit val 4 then write_icw1 val
       else if Z.testbit val 3 then write_ocw3 val
       else write_ocw2 val
     else write_a1 val);;
  vpic_update_int_output i;;
  when (negb (unmasked addr val v =? 0)) (pic_emit PicUnmask).

(** [vpic_ioport_read] *)
Definition vpic_ioport_read (i : nat) (addr : Z) : SE pics Z :=
  v <- vpic i;;
  if poll v then
    upd_pic i (fun v => set_modes (readsel_isr v) false (auto_eoi v)
                          (rotate_on_auto_eoi v) (special_fully_nested_mode v)
                          (special_mask_mode v) v);;
    vpic_intack i
  else if negb (Z.testbit addr 0) then ret (if readsel_isr v then isr v else irr v)
  else ret (imr v).

(** [vpic_intercept_pic_io]: the value of [*val] afterwards. *)
Definition vpic_intercept_pic_io (write : bool) (port bytes val : Z) : SE pics Z :=
  if negb (bytes =? 1) then ret val
  else
    let i := Z.to_nat (Z.shiftr port 7) in
    if write then vpic_ioport_write i port (u8 val);; ret val
    else r <- vpic_ioport_read i port;; ret (u8 r).

Definition vpic_elcr_mask (v : hvm_hw_vpic) : Z := if is_master v then 0xf8 else 0xde.

(** [vpic_intercept_elcr_io]: the value of [*val] afterwards. *)
Definition vpic_intercept_elcr_io (write : bool) (port bytes val : Z) : SE pics Z :=
  bug_if (negb (bytes =? 1));;
  let i := Z.to_nat (Z.land port 1) in
  v <- vpic i;;
  if write then
    let data := Z.land val (vpic_elcr_mask v) in
    let data := if is_master v then Z.lor data (Z.shiftl 1 2) else data in
    upd_pic i (set_elcr (u8 data));; ret val
  else ret (Z.land (elcr v) (vpic_elcr_mask v)).

(** ** Reset, lines and acknowledge *)

Definition zero_vpic : hvm_hw_vpic :=
  {| irr := 0; imr := 0; isr := 0; irq_base := 0; init_state := 0; priority_add := 0;
     readsel_isr := false; poll := false; auto_eoi := false;
     rotate_on_auto_eoi := false; special_fully_nested_mode := false;
     special_mask_mode := false; is_master := false; elcr := 0; int_output := false |}.

Definition master_vpic : hvm_hw_vpic :=
  {| irr := 0; imr := 0; isr := 0; irq_base := 0; init_state := 0; priority_add := 0;
     readsel_isr := false; poll := false; auto_eoi := false;
     rotate_on_auto_eoi := false; special_fully_nested_mode := false;
     special_mask_mode := false; is_master := true; elcr := Z.shiftl 1 2;
     int_output := false |}.

Definition vpic_reset : SE pics unit :=
  upd_pic 0 (fun _ => master_vpic);; upd_pic 1 (fun _ => zero_vpic).

Definition vpic_init : SE pics unit :=
  vpic_reset;;
  pic_emit (PicPortio 0x20 2);; pic_emit (PicPortio 0xa0 2);;
  pic_emit (PicPortio 0x4d0 1);; pic_emit (PicPortio 0x4d1 1).

(** [irq] is that of the [ASSERT]; the caller holds the lock. *)
Definition vpic_irq_positive_edge (irq : Z) : SE pics unit :=
  let i := Z.to_nat (Z.shiftr irq 3) in
  let mask := u8 (Z.shiftl 1 (Z.land irq 7)) in
  bug_if (15 <? irq);;
  if irq =? 2 then ret tt
  else
    upd_pic i (fun v => set_irr (Z.lor (irr v) mask) v);;
    v <- vpic i;;
    when (Z.land (imr v) mask =? 0) (vpic_update_int_output i).

Definition vpic_irq_negative_edge (irq : Z) : SE pics unit :=
  let i := Z.to_nat (Z.shiftr irq 3) in
  let mask := u8 (Z.shiftl 1 (Z.land irq 7)) in
  bug_if (15 <? irq);;
  if irq =? 2 then ret tt
  else
    upd_pic i (fun v => set_irr (clear (irr v) mask) v);;
    v <- vpic i;;
    when (Z.land (imr v) mask =? 0) (vpic_update_int_output i).

(** [vpic_ack_pending_irq]; [accept] is [vlapic_accept_pic_intr(v)]. *)
Definition vpic_ack_pending_irq (accept : bool) : SE pics Z :=
  v <- vpic 0;;
  if negb accept || negb (int_output v) then ret (-1)
  else
    irq <- vpic_intack 0;;
    if irq =? -1 then ret (-1)
    else
      v <- vpic (Z.to_nat (Z.shiftr irq 3));;
      ret (irq_base v + Z.land irq 7).
