(* ===== verification/VpicInv.v ===== *)
(** * The 8259 controllers: priorities and the INT lines

    What the rotation and the bit scan of [vpic_get_priority] find, the
    contract of [vpic_get_highest_priority_irq], and the invariant of the two
    controllers: each INT line is up exactly when a request should be
    delivered, and the slave's line is IR2 of the master. *)

From stdpp Require Import base list numbers.
From Stdlib Require Import ZArith Lia.
From S2P Require Import Prelude Vpic.

Open Scope Z_scope.
Open Scope se_scope.

Implicit Types (v : hvm_hw_vpic) (p : pics).

(** ** Bytes *)

Definition byte (x : Z) : Prop := 0 <= x < 256.

Lemma byte_bits x : byte x <-> 0 <= x /\ forall j, 8 <= j -> Z.testbit x j = false.
Proof.
  split.
  - intros [H1 H2]. split; [done|]. intros j Hj. destruct (decide (x = 0)) as [->|?].
    + apply Z.testbit_0_l.
    + apply Z.bits_above_log2; [done|]. enough (Z.log2 x < 8) by lia.
      apply Z.log2_lt_pow2; lia.
  - intros [H1 H2]. split; [done|]. destruct (Z.lt_ge_cases x 256) as [?|Hge]; [done|].
    exfalso. assert (8 <= Z.log2 x) as Hl by (apply (Z.log2_le_pow2 x 8); lia).
    specialize (H2 _ Hl). rewrite Z.bit_log2 in H2; [done|lia].
Qed.

Lemma byte_land x y : byte x -> byte (Z.land x y).
Proof.
  rewrite !byte_bits. intros [H1 H2]. split; [apply Z.land_nonneg; auto|].
  intros j Hj. by rewrite Z.land_spec, H2.
Qed.
Lemma byte_clear x y : byte x -> byte (clear x y).
Proof. apply byte_land. Qed.
Lemma byte_lor x y : byte x -> byte y -> byte (Z.lor x y).
Proof.
  rewrite !byte_bits. intros [H1 H2] [H3 H4]. split; [by apply Z.lor_nonneg|].
  intros j Hj. by rewrite Z.lor_spec, H2, H4.
Qed.
Lemma byte_u8 x : byte (u8 x).
Proof. apply Z.mod_pos_bound. lia. Qed.
Lemma byte_0 : byte 0.
Proof. unfold byte. lia. Qed.

Lemma clear_bit x y j : 0 <= j -> Z.testbit (clear x y) j = Z.testbit x j && negb (Z.testbit y j).
Proof. intros Hj. unfold clear. by rewrite Z.land_spec, Z.lnot_spec. Qed.

(** [1 << i] *)
Lemma bit_mask i j : 0 <= i -> 0 <= j -> Z.testbit (Z.shiftl 1 i) j = (j =? i).
Proof.
  intros Hi Hj. rewrite Z.shiftl_1_l, Z.pow2_bits_eqb by done. apply Z.eqb_sym.
Qed.
Lemma byte_mask i : 0 <= i < 8 -> byte (Z.shiftl 1 i).
Proof.
  intros Hi. rewrite Z.shiftl_1_l. unfold byte. split; [apply Z.pow_nonneg; lia|].
  change 256 with (2 ^ 8). apply Z.pow_lt_mono_r; lia.
Qed.
Lemma u8_mask i : 0 <= i < 8 -> u8 (Z.shiftl 1 i) = Z.shiftl 1 i.
Proof. intros Hi. apply Z.mod_small. by apply byte_mask. Qed.
Lemma land_mask_0 x i : 0 <= i -> (Z.land x (Z.shiftl 1 i) =? 0) = negb (Z.testbit x i).
Proof.
  intros Hi. destruct (Z.eqb_spec (Z.land x (Z.shiftl 1 i)) 0) as [H|H].
  - apply (f_equal (fun z => Z.testbit z i)) in H.
    rewrite Z.land_spec, bit_mask, Z.eqb_refl, Z.testbit_0_l, andb_true_r in H by lia.
    by rewrite H.
  - destruct (Z.testbit x i) eqn:Hx; [done|]. destruct H. apply Z.bits_inj'. intros j Hj.
    rewrite Z.land_spec, bit_mask, Z.testbit_0_l by lia.
    destruct (Z.eqb_spec j i) as [->|]; [by rewrite Hx|by rewrite andb_false_r].
Qed.
Lemma land_7 x : 0 <= Z.land x 7 < 8 /\ Z.land x 7 = x mod 8.
Proof.
  assert (Z.land x 7 = x mod 8) as -> by (change 7 with (Z.ones 3); apply Z.land_ones; lia).
  split; [apply Z.mod_pos_bound; lia|done].
Qed.

Create HintDb byte discriminated.
#[export] Hint Resolve byte_land byte_clear byte_lor byte_u8 byte_0 byte_mask : byte.

(** ** Priorities *)

(** The priority of line [j] when [pa] is the highest: 0 is first. *)
Definition rank (pa j : Z) : Z := (j - pa) mod 8.

(** What [vpic_get_priority] is to return. *)
Definition prio_ok (m pa pr : Z) : bool :=
  if m =? 0 then pr =? VPIC_PRIO_NONE
  else (0 <=? pr) && (pr <? 8) && Z.testbit m ((pr + pa) mod 8) &&
       forallb (fun q => negb (Z.testbit m ((q + pa) mod 8))) (seqZ 0 pr).

Lemma prio_table :
  forallb (fun m => forallb (fun pa =>
    prio_ok m pa (if m =? 0 then VPIC_PRIO_NONE else bsf 8 (ror8 m pa) 0))
    (seqZ 0 8)) (seqZ 0 256) = true.
Proof. vm_compute. reflexivity. Qed.

Lemma get_priority_ok v m : byte m -> 0 <= priority_add v < 8 ->
  prio_ok m (priority_add v) (vpic_get_priority v m) = true.
Proof.
  intros Hm Hp. pose proof prio_table as H. rewrite forallb_forall in H.
  assert (In m (seqZ 0 256)) as Hin.
  { apply list_elem_of_In, elem_of_seqZ. unfold byte in Hm. lia. }
  specialize (H m Hin). rewrite forallb_forall in H. unfold vpic_get_priority. apply H.
  apply list_elem_of_In, elem_of_seqZ. lia.
Qed.

(** No line of [m], or the line of [m] with the least rank. *)
Lemma get_priority_spec v m : byte m -> 0 <= priority_add v < 8 ->
  let pr := vpic_get_priority v m in
  pr = VPIC_PRIO_NONE /\ m = 0 \/
  exists j, 0 <= j < 8 /\ Z.testbit m j = true /\ pr = rank (priority_add v) j /\
    j = Z.land (pr + priority_add v) 7 /\
    forall k, 0 <= k < 8 -> Z.testbit m k = true -> pr <= rank (priority_add v) k.
Proof.
  intros Hm Hp pr. pose proof (get_priority_ok v m Hm Hp) as H. fold pr in H.
  unfold prio_ok in H. destruct (Z.eqb_spec m 0) as [->|Hm0].
  { left. apply Z.eqb_eq in H. done. }
  right. apply andb_prop in H as [H Hq]. apply andb_prop in H as [H Hb].
  apply andb_prop in H as [H0 H8]. apply Z.leb_le in H0. apply Z.ltb_lt in H8.
  exists ((pr + priority_add v) mod 8). unfold rank.
  split; [apply Z.mod_pos_bound; lia|]. split; [done|].
  split; [zlia|]. split; [by rewrite (proj2 (land_7 _))|].
  intros k Hk Hbk. destruct (Z.le_gt_cases pr ((k - priority_add v) mod 8)) as [?|Hlt]; [done|].
  exfalso. rewrite forallb_forall in Hq.
  assert (In ((k - priority_add v) mod 8) (seqZ 0 pr)) as Hin.
  { apply list_elem_of_In, elem_of_seqZ.
    pose proof (Z.mod_pos_bound (k - priority_add v) 8). lia. }
  apply Hq in Hin. apply negb_true_iff in Hin.
  assert (((k - priority_add v) mod 8 + priority_add v) mod 8 = k) as Hk' by zlia.
  rewrite Hk' in Hin. congruence.
Qed.

(** ** The request to deliver *)

Definition fields_ok v : Prop :=
  byte (irr v) /\ byte (imr v) /\ byte (isr v) /\ byte (elcr v) /\
  0 <= priority_add v < 8 /\ 0 <= init_state v < 16.

(** Line [j] requests an interrupt and is not masked. *)
Definition requested v (j : Z) : bool := Z.testbit (irr v) j && negb (Z.testbit (imr v) j).

(** Line [j] is in service and holds back a request on [irq]: but for the
    slave's line in special fully nested mode, and for masked lines in
    special mask mode. *)
Definition holds v (irq j : Z) : bool :=
  Z.testbit (isr v) j &&
  negb (special_fully_nested_mode v && is_master v && (irq =? 2) && (j =? 2)) &&
  negb (special_mask_mode v && Z.testbit (imr v) j).

(** The request that is to be delivered: the first of those made, ahead of
    all that are in service. *)
Definition deliverable v (irq : Z) : Prop :=
  0 <= irq < 8 /\ requested v irq = true /\
  (forall j, 0 <= j < 8 -> requested v j = true ->
     rank (priority_add v) irq <= rank (priority_add v) j) /\
  (forall j, 0 <= j < 8 -> holds v irq j = true ->
     rank (priority_add v) irq < rank (priority_add v) j).

Lemma rank_inj pa i j : 0 <= i < 8 -> 0 <= j < 8 -> rank pa i = rank pa j -> i = j.
Proof. unfold rank. intros. zlia. Qed.

Lemma deliverable_unique v i j : deliverable v i -> deliverable v j -> i = j.
Proof.
  intros (Hi & Ri & Mi & _) (Hj & Rj & Mj & _).
  apply (rank_inj (priority_add v)); [done|done|].
  specialize (Mi j Hj Rj). specialize (Mj i Hi Ri). lia.
Qed.

(** The in-service mask of the code is [holds]. *)
Lemma service_mask v irq : fields_ok v ->
  let mask := isr v in
  let mask := if special_fully_nested_mode v && is_master v && (irq =? 2)
              then clear mask (Z.shiftl 1 2) else mask in
  let mask := if special_mask_mode v then clear mask (imr v) else mask in
  byte mask /\ forall j, 0 <= j -> Z.testbit mask j = holds v irq j.
Proof.
  intros (_ & Hm & Hs & _) mask0 mask1 mask2.
  assert (byte mask1) as H1 by (unfold mask1; case_match; auto with byte).
  split; [unfold mask2; case_match; auto with byte|].
  intros j Hj. unfold holds, mask2.
  assert (Z.testbit mask1 j = Z.testbit (isr v) j &&
    negb (special_fully_nested_mode v && is_master v && (irq =? 2) && (j =? 2))) as Hm1.
  { unfold mask1, mask0. case_match; simpl; [|by rewrite andb_true_r].
    rewrite clear_bit, bit_mask by lia. done. }
  case_match; simpl; [rewrite clear_bit by done|]; rewrite Hm1; [done|].
  by rewrite andb_true_r.
Qed.

Lemma request_mask v : fields_ok v -> byte (clear (irr v) (imr v)) /\
  forall j, 0 <= j -> Z.testbit (clear (irr v) (imr v)) j = requested v j.
Proof.
  intros (Hi & _). split; [auto with byte|]. intros j Hj. by rewrite clear_bit.
Qed.

Lemma rank_lt_8 pa j : rank pa j < 8.
Proof. apply Z.mod_pos_bound. lia. Qed.

(** [vpic_get_highest_priority_irq] finds the request to deliver. *)
Lemma highest_spec v : fields_ok v ->
  let irq := vpic_get_highest_priority_irq v in
  deliverable v irq \/ irq = -1 /\ forall j, ~ deliverable v j.
Proof.
  intros Hok. pose proof (request_mask v Hok) as [Hb Hreq].
  pose proof Hok as (_ & _ & _ & _ & Hp & _). unfold vpic_get_highest_priority_irq. cbv zeta.
  destruct (get_priority_spec v _ Hb Hp) as [[-> H0]|(irq & Hirq & Hbit & Hpr & Hland & Hmin)].
  { right. split; [done|]. intros j (Hj & Hr & _). rewrite <- Hreq, H0 in Hr by lia.
    by rewrite Z.testbit_0_l in Hr. }
  rewrite <- Hland. pose proof (rank_lt_8 (priority_add v) irq).
  rewrite (proj2 (Z.eqb_neq _ _)) by (unfold VPIC_PRIO_NONE; lia).
  destruct (service_mask v irq Hok) as [Hsb Hsv]. cbv zeta in Hsb, Hsv.
  set (sm := if special_mask_mode v then _ else _) in *.
  assert (Hfirst : forall j, 0 <= j < 8 -> requested v j = true ->
    rank (priority_add v) irq <= rank (priority_add v) j).
  { intros j Hj Hr. rewrite <- Hpr. apply Hmin; [done|]. rewrite Hreq; [done|lia]. }
  rewrite Hreq in Hbit by lia. rewrite Hpr.
  destruct (get_priority_spec v sm Hsb Hp) as [[-> H0]|(k & Hk & Hkb & -> & _ & Hkmin)].
  - left. rewrite (proj2 (Z.ltb_lt _ _)) by (unfold VPIC_PRIO_NONE; lia).
    split; [done|]. split; [done|]. split; [done|]. intros j Hj Hh.
    rewrite <- Hsv, H0, Z.testbit_0_l in Hh by lia. done.
  - rewrite Hsv in Hkb by lia. destruct (Z.ltb_spec (rank (priority_add v) irq) (rank (priority_add v) k)).
    + left. split; [done|]. split; [done|]. split; [done|]. intros j Hj Hh.
      rewrite <- Hsv in Hh by lia. specialize (Hkmin j Hj Hh). lia.
    + right. split; [done|]. intros j Hd. assert (j = irq) as ->.
      { destruct Hd as (Hj & Hr & Hf & _). apply (rank_inj (priority_add v)); [done|done|].
        specialize (Hfirst j Hj Hr). specialize (Hf irq Hirq Hbit). lia. }
      destruct Hd as (_ & _ & _ & Hd). specialize (Hd k Hk Hkb). lia.
Qed.

Lemma highest_bound v : fields_ok v -> -1 <= vpic_get_highest_priority_irq v < 8.
Proof. intros Hok. destruct (highest_spec v Hok) as [[? _]|[-> _]]; lia. Qed.

(** ** The two controllers *)

(** The INT line is to be up. *)
Definition raised v : bool := 0 <=? vpic_get_highest_priority_irq v.

Definition int_ok v : Prop := int_output v = raised v.

(** The wiring: what holds even while a controller is being changed. *)
Definition wired p : Prop :=
  fields_ok (pic0 p) /\ fields_ok (pic1 p) /\
  is_master (pic0 p) = true /\ is_master (pic1 p) = false /\
  Z.testbit (elcr (pic0 p)) 2 = true /\
  Z.testbit (irr (pic0 p)) 2 = int_output (pic1 p).

Definition pics_ok p : Prop := wired p /\ int_ok (pic0 p) /\ int_ok (pic1 p).

(** One controller replaced. *)
Definition with_pic (i : nat) v p : pics :=
  match i with
  | O => {| pic0 := v; pic1 := pic1 p; i8259_target := i8259_target p; pic_log := pic_log p |}
  | _ => {| pic0 := pic0 p; pic1 := v; i8259_target := i8259_target p; pic_log := pic_log p |}
  end.

Definition kicked p : list pic_event :=
  match i8259_target p with Some c => PicKick c :: pic_log p | None => pic_log p end.

(** After [vpic_update_int_output] of the master. *)
Definition master_updated p : pics :=
  {| pic0 := set_int_output (raised (pic0 p)) (pic0 p); pic1 := pic1 p;
     i8259_target := i8259_target p;
     pic_log := if negb (int_output (pic0 p)) && raised (pic0 p) then kicked p
                else pic_log p |}.

(** The slave's line at the master. *)
Definition line2 (up : bool) v : hvm_hw_vpic :=
  set_irr (if up then Z.lor (irr v) (Z.shiftl 1 2) else clear (irr v) (Z.shiftl 1 2)) v.

(** After [vpic_update_int_output] of the slave. *)
Definition slave_updated p : pics :=
  if Bool.eqb (int_output (pic1 p)) (raised (pic1 p)) then p
  else master_updated (with_pic 0 (line2 (raised (pic1 p)) (pic0 p))
         (with_pic 1 (set_int_output (raised (pic1 p)) (pic1 p)) p)).

Lemma set_int_output_same v : set_int_output (int_output v) v = v.
Proof. by destruct v. Qed.

(** Take a computation on the controllers apart. *)
Ltac pic_run :=
  cbv beta iota zeta delta [bind ret get gets vpic pic_of modify bug upd_pic bug_if when
    pic_emit];
  cbn [pic0 pic1 i8259_target pic_log negb].

Lemma update_master p : is_master (pic0 p) = true ->
  vpic_update_int_output 0 p = (master_updated p, Ok tt).
Proof.
  intros Hm. cbn [vpic_update_int_output]. pic_run.
  fold (raised (pic0 p)). unfold master_updated, kicked.
  destruct (Bool.eqb (int_output (pic0 p)) (raised (pic0 p))) eqn:He.
  - apply eqb_prop in He. rewrite <- He, set_int_output_same.
    destruct (int_output (pic0 p)); by destruct p.
  - rewrite Hm. destruct (int_output (pic0 p)), (raised (pic0 p)); try done.
    cbn. by destruct (i8259_target p).
Qed.

(** The equation of the slave's update. *)
Lemma update_slave_unfold :
  vpic_update_int_output 1 =
  (v <- vpic 1;;
   if Bool.eqb (int_output v) (raised v) then ret tt
   else
     upd_pic 1 (set_int_output (negb (int_output v)));;
     if negb (int_output v) then
       if is_master v then
         t <- gets i8259_target;;
         match t with Some c => pic_emit (PicKick c) | None => ret tt end
       else upd_pic 0 (line2 true);; vpic_update_int_output 0
     else if negb (is_master v) then
       upd_pic 0 (line2 false);; vpic_update_int_output 0
     else ret tt).
Proof. reflexivity. Qed.

Lemma update_slave p : is_master (pic0 p) = true -> is_master (pic1 p) = false ->
  vpic_update_int_output 1 p = (slave_updated p, Ok tt).
Proof.
  intros Hm Hs. rewrite update_slave_unfold. pic_run. rewrite Hs. unfold slave_updated.
  destruct (int_output (pic1 p)), (raised (pic1 p)); cbn [Bool.eqb negb]; try done;
    rewrite update_master by done; done.
Qed.

Lemma raised_set_int_output b v : raised (set_int_output b v) = raised v.
Proof. done. Qed.

Lemma fields_int_output b v : fields_ok (set_int_output b v) <-> fields_ok v.
Proof. done. Qed.

Lemma line2_bit up v j : 0 <= j ->
  Z.testbit (irr (line2 up v)) j = if j =? 2 then up else Z.testbit (irr v) j.
Proof.
  intros Hj. unfold line2. cbn [set_irr irr]. destruct up;
    rewrite ?Z.lor_spec, ?clear_bit, bit_mask by lia; destruct (j =? 2);
    by rewrite ?orb_true_r, ?orb_false_r, ?andb_false_r, ?andb_true_r.
Qed.

Lemma line2_fields up v : fields_ok v -> fields_ok (line2 up v).
Proof.
  intros (H1 & H2). split; [|done]. cbn [line2 set_irr irr]. destruct up.
  - apply byte_lor; [done|]. by apply byte_mask.
  - by apply byte_clear.
Qed.

(** After [vpic_update_int_output] of the controller [i]. *)
Definition updated (i : nat) p : pics :=
  match i with O => master_updated p | _ => slave_updated p end.

(** The update of the controller [i] restores the invariant when it held but
    for the line of [i]. *)
Lemma update_ok i p : (i < 2)%nat -> wired p -> (i = 0%nat -> int_ok (pic1 p)) ->
  (i = 1%nat -> int_ok (pic0 p)) ->
  vpic_update_int_output i p = (updated i p, Ok tt) /\ pics_ok (updated i p).
Proof.
  intros Hi (F0 & F1 & M0 & M1 & E2 & L2) I1 I0. destruct i as [|[|]]; [| |lia].
  - split; [by apply update_master|]. specialize (I1 eq_refl). done.
  - split; [by apply update_slave|]. specialize (I0 eq_refl). cbn [updated].
    unfold slave_updated.
    destruct (Bool.eqb _ _) eqn:He; [apply eqb_prop in He; done|].
    split; [|done]. repeat (split; [first [done|by apply line2_fields]|]).
    change (Z.testbit (irr (line2 (raised (pic1 p)) (pic0 p))) 2 = raised (pic1 p)).
    by rewrite line2_bit.
Qed.

(** ** Operations on one controller *)

Definition the_pic (i : nat) p : hvm_hw_vpic := match i with O => pic0 p | _ => pic1 p end.

(** What a change of the controller [i] has to leave alone. *)
Definition keeps (i : nat) v v' : Prop :=
  fields_ok v' /\ is_master v' = is_master v /\ int_output v' = int_output v /\
  (i = 0%nat -> Z.testbit (elcr v') 2 = Z.testbit (elcr v) 2 /\
                Z.testbit (irr v') 2 = Z.testbit (irr v) 2).

Lemma the_pic_ok i p : pics_ok p -> fields_ok (the_pic i p) /\ int_ok (the_pic i p).
Proof. intros ((? & ? & _) & ? & ?). by destruct i. Qed.

Lemma vpic_eq i p : (i < 2)%nat -> vpic i p = (p, Ok (the_pic i p)).
Proof. intros Hi. destruct i as [|[|]]; [done|done|lia]. Qed.

Lemma upd_pic_eq i f p : (i < 2)%nat -> upd_pic i f p = (with_pic i (f (the_pic i p)) p, Ok tt).
Proof. intros Hi. destruct i as [|[|]]; [done|done|lia]. Qed.

Lemma keeps_wired i p v : (i < 2)%nat -> pics_ok p -> keeps i (the_pic i p) v ->
  wired (with_pic i v p) /\
  (i = 0%nat -> int_ok (pic1 (with_pic i v p))) /\
  (i = 1%nat -> int_ok (pic0 (with_pic i v p))).
Proof.
  intros Hi ((F0 & F1 & M0 & M1 & E2 & L2) & I0 & I1) (K1 & K2 & K3 & K4).
  destruct i as [|[|]]; [| |lia]; cbn [the_pic] in *; (split; [|done]).
  - destruct (K4 eq_refl) as [K5 K6]. unfold wired. cbn [with_pic pic0 pic1].
    rewrite K2, K5, K6. done.
  - unfold wired. cbn [with_pic pic0 pic1]. rewrite K2, K3. done.
Qed.

(** A change of a controller followed by the update of its line. *)
Lemma touch_ok i f p : (i < 2)%nat -> pics_ok p -> keeps i (the_pic i p) (f (the_pic i p)) ->
  let p' := updated i (with_pic i (f (the_pic i p)) p) in
  (upd_pic i f;; vpic_update_int_output i) p = (p', Ok tt) /\ pics_ok p'.
Proof.
  intros Hi Hok Hk. destruct (keeps_wired i p _ Hi Hok Hk) as (Hw & H1 & H0).
  unfold bind. rewrite upd_pic_eq by done. by apply update_ok.
Qed.

(** A change that leaves the request to deliver alone needs no update. *)
Lemma quiet_ok i v p : (i < 2)%nat -> pics_ok p -> keeps i (the_pic i p) v ->
  raised v = raised (the_pic i p) -> pics_ok (with_pic i v p).
Proof.
  intros Hi Hok Hk Hr. destruct (keeps_wired i p _ Hi Hok Hk) as (Hw & H1 & H0).
  destruct (the_pic_ok i p Hok) as [_ Hint]. unfold int_ok in *.
  destruct Hk as (_ & _ & Hio & _). split; [done|].
  destruct i as [|[|]]; [| |lia]; cbn [with_pic pic0 pic1 the_pic] in *.
  - split; [congruence|by apply H1].
  - split; [by apply H0|congruence].
Qed.

(** The answer only depends on the unmasked requests. *)
Lemma highest_same x v : clear x (imr v) = clear (irr v) (imr v) ->
  vpic_get_highest_priority_irq (set_irr x v) = vpic_get_highest_priority_irq v.
Proof.
  intros Hx. unfold vpic_get_highest_priority_irq.
  cbn [set_irr irr imr isr priority_add special_fully_nested_mode is_master
       special_mask_mode].
  rewrite Hx. reflexivity.
Qed.
