(* ===== verification/VpicOps.v ===== *)
(** * The 8259 controllers: the operations

    What each access, edge and acknowledge cycle does to the controllers and
    that it keeps the invariant of the INT lines. *)

From stdpp Require Import base list numbers.
From Stdlib Require Import ZArith Lia Bool.
From S2P Require Import Prelude Vpic VpicInv.

Open Scope Z_scope.
Open Scope se_scope.

Implicit Types (v : hvm_hw_vpic) (p : pics).

(** ** What the operations keep *)

(** The master's level-triggered line is the slave's. *)
Definition cascade (i : nat) v : Prop := i = 0%nat -> Z.testbit (elcr v) 2 = true.

Lemma the_pic_cascade i p : pics_ok p -> cascade i (the_pic i p).
Proof. intros ((_ & _ & _ & _ & E & _) & _) ->. done. Qed.

Lemma keeps_refl i v : fields_ok v -> keeps i v v.
Proof. intros ?. by repeat (split; [done|]). Qed.
Lemma keeps_trans i v1 v2 v3 : keeps i v1 v2 -> keeps i v2 v3 -> keeps i v1 v3.
Proof.
  intros (_ & A2 & A3 & A4) (B1 & B2 & B3 & B4). split; [done|].
  split; [congruence|]. split; [congruence|]. intros Hi.
  destruct (A4 Hi), (B4 Hi). split; congruence.
Qed.

(** Changes other than to [irr] and [elcr]. *)
Lemma keeps_isr i v x : fields_ok v -> byte x -> keeps i v (set_isr x v).
Proof. intros (? & ? & ? & ? & ? & ?) ?. by repeat (split; [done|]). Qed.
Lemma keeps_imr i v x : fields_ok v -> byte x -> keeps i v (set_imr x v).
Proof. intros (? & ? & ? & ? & ? & ?) ?. by repeat (split; [done|]). Qed.
Lemma keeps_priority i v x : fields_ok v -> keeps i v (set_priority_add (Z.land x 7) v).
Proof.
  intros (? & ? & ? & ? & ? & ?). pose proof (land_7 x) as [? _].
  by repeat (split; [done|]).
Qed.
Lemma keeps_modes i v a b c d e f : fields_ok v -> keeps i v (set_modes a b c d e f v).
Proof. done. Qed.
Lemma keeps_init i v base st : fields_ok v -> 0 <= st < 16 -> keeps i v (set_init base st v).
Proof. intros (? & ? & ? & ? & ? & ?) ?. by repeat (split; [done|]). Qed.
Lemma keeps_irr i v x : fields_ok v -> byte x ->
  (i = 0%nat -> Z.testbit x 2 = Z.testbit (irr v) 2) -> keeps i v (set_irr x v).
Proof. intros (? & ? & ? & ? & ? & ?) ? ?. repeat (split; [done|]). auto. Qed.

Lemma keeps_fields i v v' : keeps i v v' -> fields_ok v'.
Proof. by intros [? _]. Qed.

Lemma intack_keeps i v irq : fields_ok v -> cascade i v -> 0 <= irq < 8 ->
  keeps i v (intack_update irq v).
Proof.
  intros Hf Hc Hirq. unfold intack_update. rewrite u8_mask by done. cbv zeta.
  set (v1 := if _ =? 0 then _ else _).
  assert (keeps i v v1) as Hk.
  { unfold v1. rewrite land_mask_0 by lia. destruct (Z.testbit (elcr v) irq) eqn:He;
      cbn [negb]; [by apply keeps_refl|].
    apply keeps_irr; [done|apply byte_clear, Hf|]. intros Hi. specialize (Hc Hi).
    rewrite clear_bit, bit_mask by lia. destruct (Z.eqb_spec 2 irq) as [<-|]; [congruence|].
    by rewrite andb_true_r. }
  pose proof (keeps_fields _ _ _ Hk) as Hf1. eapply keeps_trans; [exact Hk|].
  destruct (auto_eoi v1); cbn [negb].
  - destruct (rotate_on_auto_eoi v1); [by apply keeps_priority|by apply keeps_refl].
  - apply keeps_isr; [done|]. apply byte_lor; [apply Hf1|by apply byte_mask].
Qed.

Lemma small_init a : 0 <= Z.lor (Z.shiftl (Z.land a 3) 2) 1 < 16.
Proof.
  assert (Z.land a 3 = a mod 4) as -> by (change 3 with (Z.ones 2); apply Z.land_ones; lia).
  assert (a mod 4 = 0 \/ a mod 4 = 1 \/ a mod 4 = 2 \/ a mod 4 = 3) as H by zlia.
  destruct H as [->|[->|[->| ->]]]; done.
Qed.

Lemma icw1_keeps i v val : fields_ok v -> cascade i v -> keeps i v (write_icw1 val v).
Proof.
  intros (F1 & F2 & F3 & F4 & F5 & F6) Hc. split; [|split; [done|split; [done|]]].
  - split; [by apply byte_land|]. split; [apply byte_0|]. split; [apply byte_0|].
    split; [done|]. split; [done|apply small_init].
  - intros Hi. split; [done|].
    change (Z.testbit (Z.land (irr v) (elcr v)) 2 = Z.testbit (irr v) 2).
    by rewrite Z.land_spec, Hc, andb_true_r.
Qed.

Lemma ocw3_keeps i v val : fields_ok v -> keeps i v (write_ocw3 val v).
Proof. intros Hf. by apply keeps_modes. Qed.

Lemma eoi_keeps i v irq (rotate : bool) : fields_ok v ->
  keeps i v (let v := set_isr (clear (isr v) (Z.shiftl 1 irq)) v in
             if rotate then set_priority_add (Z.land (irq + 1) 7) v else v).
Proof.
  intros Hf. assert (keeps i v (set_isr (clear (isr v) (Z.shiftl 1 irq)) v)) as Hk.
  { apply keeps_isr; [done|]. apply byte_clear, Hf. }
  cbv zeta. destruct rotate; [|done]. eapply keeps_trans; [exact Hk|].
  by apply keeps_priority, (keeps_fields i v).
Qed.

Lemma ocw2_keeps i v val : fields_ok v -> keeps i v (write_ocw2 val v).
Proof.
  intros Hf. unfold write_ocw2. cbv zeta.
  repeat (case_match; [|]); try (by apply keeps_refl); try (by apply keeps_modes);
    try (by apply keeps_priority).
  all: first [by apply (eoi_keeps i v _ true)|by apply (eoi_keeps i v _ false)].
Qed.

Lemma icw3_keeps i v : fields_ok v -> keeps i v (write_icw3 v).
Proof.
  intros Hf. unfold write_icw3. apply keeps_init; [done|].
  pose proof (Z.mod_pos_bound (init_state v + 1) 16). case_match; lia.
Qed.

Lemma a1_keeps i v val : fields_ok v -> byte val -> keeps i v (write_a1 val v).
Proof.
  intros Hf Hv. unfold write_a1. cbv zeta. pose proof (Z.mod_pos_bound (init_state v + 1) 16).
  case_match; [by apply keeps_imr|]. case_match; [|case_match; [by apply icw3_keeps|]].
  - assert (keeps i v (set_init (Z.land val 0xf8) ((init_state v + 1) mod 16) v)) as Hk
      by (apply keeps_init; [done|lia]).
    case_match; [done|]. eapply keeps_trans; [exact Hk|].
    by apply icw3_keeps, (keeps_fields i v).
  - eapply keeps_trans; [by apply keeps_modes|]. by apply keeps_init.
Qed.

(** ** The acknowledge cycle *)

(** The controllers after [do_intack]. *)
Definition acked (i : nat) (irq : Z) p : pics :=
  updated i (with_pic i (intack_update irq (the_pic i p)) p).

Lemma do_intack_ok i irq p : (i < 2)%nat -> pics_ok p -> 0 <= irq < 8 ->
  do_intack i irq p = (acked i irq p, Ok tt) /\ pics_ok (acked i irq p).
Proof.
  intros Hi Hok Hirq. apply touch_ok; [done|done|].
  apply intack_keeps; [by apply the_pic_ok|by apply the_pic_cascade|done].
Qed.

Lemma raised_deliverable v : fields_ok v -> raised v = true ->
  deliverable v (vpic_get_highest_priority_irq v).
Proof.
  unfold raised. intros Hf Hr. destruct (highest_spec v Hf) as [H|[H _]]; [done|].
  by rewrite H in Hr.
Qed.

(** The update of the master leaves the slave alone. *)
Lemma acked_slave irq p : pic1 (acked 0 irq p) = pic1 p.
Proof. done. Qed.

(** When the master delivers IR2, the slave has a request. *)
Lemma cascade_request p : pics_ok p -> deliverable (pic0 p) 2 -> raised (pic1 p) = true.
Proof.
  intros ((F0 & F1 & _ & _ & _ & L2) & _ & I1) (_ & Hr & _).
  apply andb_prop in Hr as [Hr _]. unfold int_ok in I1. congruence.
Qed.

(** The number the acknowledge cycle of controller [i] gives, and the state
    after it. *)
Definition intack_irq (i : nat) p : Z :=
  let irq := vpic_get_highest_priority_irq (the_pic i p) in
  match i with
  | O => if irq =? 2 then vpic_get_highest_priority_irq (pic1 p) + 8 else irq
  | _ => irq
  end.

Definition intack_state (i : nat) p : pics :=
  let irq := vpic_get_highest_priority_irq (the_pic i p) in
  match i with
  | O => if irq =? 2
         then acked 1 (vpic_get_highest_priority_irq (pic1 p)) (acked 0 irq p)
         else acked 0 irq p
  | _ => acked i irq p
  end.

Lemma intack_ok i p : (i < 2)%nat -> pics_ok p ->
  if raised (the_pic i p)
  then vpic_intack i p = (intack_state i p, Ok (intack_irq i p)) /\
       pics_ok (intack_state i p) /\ 0 <= intack_irq i p < 16
  else vpic_intack i p = (p, Ok (-1)).
Proof.
  intros Hi Hok. destruct (the_pic_ok i p Hok) as [Hf Hint]. unfold int_ok in Hint.
  destruct (raised (the_pic i p)) eqn:Hr; unfold vpic_intack; unfold bind at 1;
    rewrite vpic_eq, Hint by done; cbn [negb]; [|done].
  pose proof (raised_deliverable _ Hf Hr) as Hd. pose proof Hd as (Hb & _).
  set (irq := vpic_get_highest_priority_irq (the_pic i p)) in *. cbv zeta.
  unfold bind at 1. rewrite (proj2 (Z.ltb_ge irq 0)) by lia. cbn [bug_if]. unfold ret at 1.
  destruct (do_intack_ok i irq p Hi Hok Hb) as [Ha Haok].
  unfold bind at 1. rewrite Ha. unfold intack_state, intack_irq. fold irq.
  assert (is_master (the_pic i p) = match i with O => true | _ => false end) as ->.
  { destruct Hok as ((_ & _ & M0 & M1 & _) & _). by destruct i as [|[|]]; [| |lia]. }
  destruct i as [|[|]]; [| |lia]; rewrite ?andb_false_r;
    [|split; [done|split; [done|lia]]].
  destruct (Z.eqb_spec irq 2) as [H2|H2]; cbn [andb]; [|split; [done|split; [done|lia]]].
  rewrite H2 in *. pose proof (cascade_request p Hok Hd) as Hr1.
  destruct (the_pic_ok 1 p Hok) as [Hf1 _]. cbn [the_pic] in Hf1.
  pose proof (raised_deliverable _ Hf1 Hr1) as (Hb1 & _).
  unfold bind at 1. rewrite vpic_eq by lia. cbn [the_pic]. rewrite acked_slave.
  set (irq1 := vpic_get_highest_priority_irq (pic1 p)) in *.
  unfold bind at 1. rewrite (proj2 (Z.ltb_ge irq1 0)) by lia. cbn [bug_if]. unfold ret at 1.
  destruct (do_intack_ok 1 irq1 _ ltac:(lia) Haok Hb1) as [Hc Hcok].
  unfold bind at 1. rewrite Hc. split; [done|split; [done|lia]].
Qed.

(** ** Port accesses *)

Definition port_write (addr val : Z) : hvm_hw_vpic -> hvm_hw_vpic :=
  if negb (Z.testbit addr 0) then
    if Z.testbit val 4 then write_icw1 val
    else if Z.testbit val 3 then write_ocw3 val
    else write_ocw2 val
  else write_a1 val.

Lemma port_write_keeps i v addr val : fields_ok v -> cascade i v -> byte val ->
  keeps i v (port_write addr val v).
Proof.
  intros Hf Hc Hv. unfold port_write. repeat case_match;
    auto using icw1_keeps, ocw3_keeps, ocw2_keeps, a1_keeps.
Qed.

(** An event appended to the log. *)
Definition logged (e : pic_event) p : pics :=
  {| pic0 := pic0 p; pic1 := pic1 p; i8259_target := i8259_target p;
     pic_log := e :: pic_log p |}.

Lemma ioport_write_ok i addr val p : (i < 2)%nat -> pics_ok p -> byte val ->
  let p' := updated i (with_pic i (port_write addr val (the_pic i p)) p) in
  pics_ok p' /\
  vpic_ioport_write i addr val p =
    (if unmasked addr val (the_pic i p) =? 0 then p' else logged PicUnmask p', Ok tt).
Proof.
  intros Hi Hok Hv p'.
  destruct (touch_ok i (port_write addr val) p Hi Hok) as [He Hok'].
  { apply port_write_keeps; [by apply the_pic_ok|by apply the_pic_cascade|done]. }
  split; [done|]. unfold vpic_ioport_write. unfold bind at 1. rewrite vpic_eq by done.
  fold (port_write addr val). unfold bind in He. unfold bind at 1.
  rewrite upd_pic_eq in * by done. unfold bind at 1. rewrite He. fold p'.
  by destruct (unmasked _ _ _ =? 0).
Qed.

Lemma ioport_read_ok i addr p : (i < 2)%nat -> pics_ok p ->
  exists p' x, vpic_ioport_read i addr p = (p', Ok x) /\ pics_ok p' /\
    (poll (the_pic i p) = false -> p' = p).
Proof.
  intros Hi Hok. unfold vpic_ioport_read. unfold bind at 1. rewrite vpic_eq by done.
  destruct (poll (the_pic i p)).
  - unfold bind at 1. rewrite upd_pic_eq by done.
    match goal with |- context [with_pic i ?w p] => set (w' := w) end.
    destruct (the_pic_ok i p Hok) as [Hf _].
    assert (pics_ok (with_pic i w' p)) as Hok'.
    { apply quiet_ok; [done|done|by apply keeps_modes|done]. }
    pose proof (intack_ok i _ Hi Hok') as Ha.
    destruct (raised _); [destruct Ha as (Ha & ? & _)|]; rewrite Ha;
      eexists _, _; (split; [reflexivity|]); by split.
  - destruct (negb _); eexists _, _; (split; [reflexivity|]); by split.
Qed.

Lemma elcr_ok i p data : (i < 2)%nat -> pics_ok p -> byte data ->
  (i = 0%nat -> Z.testbit data 2 = true) -> pics_ok (with_pic i (set_elcr data (the_pic i p)) p).
Proof.
  intros Hi Hok Hb H2. destruct (the_pic_ok i p Hok) as [(? & ? & ? & ? & ? & ?) _].
  apply quiet_ok; [done|done| |done]. repeat (split; [done|]). intros Hi0. split; [|done].
  pose proof (the_pic_cascade i p Hok Hi0) as Hc. rewrite Hc. by apply H2.
Qed.

(** ** Edges *)

(** A line of the controller after an edge. *)
Definition edge (up : bool) (mask : Z) v : hvm_hw_vpic :=
  set_irr (if up then Z.lor (irr v) mask else clear (irr v) mask) v.

Lemma edge_bit up i j v : 0 <= i -> 0 <= j ->
  Z.testbit (irr (edge up (Z.shiftl 1 i) v)) j = if j =? i then up else Z.testbit (irr v) j.
Proof.
  intros Hi Hj. unfold edge. cbn [set_irr irr]. destruct up;
    rewrite ?Z.lor_spec, ?clear_bit, bit_mask by lia; destruct (j =? i);
    by rewrite ?orb_true_r, ?orb_false_r, ?andb_false_r, ?andb_true_r.
Qed.

(** The controller and the line of an interrupt number. *)
Lemma irq_split irq : 0 <= irq <= 15 ->
  (Z.to_nat (Z.shiftr irq 3) < 2)%nat /\ 0 <= Z.land irq 7 < 8 /\
  (Z.to_nat (Z.shiftr irq 3) = 0%nat -> Z.land irq 7 = irq) /\
  (Z.to_nat (Z.shiftr irq 3) = 1%nat -> Z.land irq 7 + 8 = irq).
Proof.
  intros H. pose proof (land_7 irq) as [? ->]. rewrite Z.shiftr_div_pow2 by lia.
  change (2 ^ 3) with 8. repeat split; try zlia; intros ?; zlia.
Qed.

Definition vpic_irq_edge (up : bool) (irq : Z) : SE pics unit :=
  if up then vpic_irq_positive_edge irq else vpic_irq_negative_edge irq.

(** The controllers after an edge of [irq]. *)
Definition edged (up : bool) (irq : Z) p : pics :=
  let i := Z.to_nat (Z.shiftr irq 3) in
  let v := edge up (Z.shiftl 1 (Z.land irq 7)) (the_pic i p) in
  if Z.testbit (imr (the_pic i p)) (Z.land irq 7) then with_pic i v p
  else updated i (with_pic i v p).

Lemma edge_keeps up irq p : pics_ok p -> 0 <= irq <= 15 -> irq <> 2 ->
  let i := Z.to_nat (Z.shiftr irq 3) in
  keeps i (the_pic i p) (edge up (Z.shiftl 1 (Z.land irq 7)) (the_pic i p)).
Proof.
  intros Hok Hirq Hne i. destruct (irq_split irq Hirq) as (Hi & Hj & H0 & _). fold i in H0.
  destruct (the_pic_ok i p Hok) as [Hf _]. apply keeps_irr; [done| |].
  - pose proof Hf as (? & _). pose proof (byte_mask _ Hj). destruct up; auto with byte.
  - intros Hi0. specialize (H0 Hi0).
    pose proof (edge_bit up (Z.land irq 7) 2 (the_pic i p)) as He.
    unfold edge in He. cbn [set_irr irr] in He. rewrite He by lia.
    destruct (Z.eqb_spec 2 (Z.land irq 7)); [lia|done].
Qed.

Lemma edge_masked up j v : 0 <= j -> Z.testbit (imr v) j = true ->
  raised (edge up (Z.shiftl 1 j) v) = raised v.
Proof.
  intros Hj Hm. unfold raised, edge. rewrite highest_same; [done|].
  apply Z.bits_inj'. intros k Hk. rewrite !clear_bit by done.
  pose proof (edge_bit up j k v Hj Hk) as He. unfold edge in He. cbn [set_irr irr] in He.
  rewrite He. destruct (Z.eqb_spec k j) as [->|]; [|done]. by rewrite Hm, !andb_false_r.
Qed.

Lemma edge_ok up irq p : pics_ok p -> 0 <= irq <= 15 ->
  let p' := if irq =? 2 then p else edged up irq p in
  vpic_irq_edge up irq p = (p', Ok tt) /\ pics_ok p'.
Proof.
  intros Hok Hirq p'. destruct (irq_split irq Hirq) as (Hi & Hj & _).
  assert (vpic_irq_edge up irq =
    (bug_if (15 <? irq);;
     if irq =? 2 then ret tt
     else upd_pic (Z.to_nat (Z.shiftr irq 3)) (edge up (u8 (Z.shiftl 1 (Z.land irq 7))));;
          v <- vpic (Z.to_nat (Z.shiftr irq 3));;
          when (Z.land (imr v) (u8 (Z.shiftl 1 (Z.land irq 7))) =? 0)
            (vpic_update_int_output (Z.to_nat (Z.shiftr irq 3))))) as -> by (by destruct up).
  unfold bind at 1. rewrite (proj2 (Z.ltb_ge 15 irq)) by lia. cbn [bug_if]. unfold ret at 1.
  unfold p'. destruct (Z.eqb_spec irq 2) as [?|Hne]; [done|].
  pose proof (edge_keeps up irq p Hok Hirq Hne) as Hk. cbv zeta in Hk.
  unfold edged. cbv zeta. set (i := Z.to_nat (Z.shiftr irq 3)) in *.
  rewrite u8_mask by done. set (v := edge up _ (the_pic i p)) in *.
  unfold bind at 1. rewrite upd_pic_eq by done. fold v.
  unfold bind at 1. rewrite vpic_eq by done.
  assert (the_pic i (with_pic i v p) = v) as -> by (by destruct i as [|[|]]).
  change (imr v) with (imr (the_pic i p)). rewrite land_mask_0 by lia.
  destruct (keeps_wired i p v Hi Hok Hk) as (Hw & H1 & H0).
  destruct (Z.testbit (imr (the_pic i p)) (Z.land irq 7)) eqn:Hm; cbn [negb when].
  - split; [done|]. apply quiet_ok; [done|done|done|]. apply edge_masked; [lia|done].
  - by apply update_ok.
Qed.

(** ** Everything the domain does to its controllers *)

Inductive pic_op : Type :=
| OpReset
| OpPicIo (write : bool) (port val : Z)
| OpElcrIo (write : bool) (port val : Z)
| OpEdge (up : bool) (irq : Z)
| OpAck (accept : bool).

(** The ports are those of [vpic_init]; byte accesses. *)
Definition op_ok (op : pic_op) : bool :=
  match op with
  | OpPicIo _ port _ =>
      (port =? 0x20) || (port =? 0x21) || (port =? 0xa0) || (port =? 0xa1)
  | OpElcrIo _ port _ => (port =? 0x4d0) || (port =? 0x4d1)
  | OpEdge _ irq => (0 <=? irq) && (irq <=? 15)
  | _ => true
  end.

Definition run_pic (op : pic_op) : SE pics Z :=
  match op with
  | OpReset => vpic_reset;; ret 0
  | OpPicIo write port val => vpic_intercept_pic_io write port 1 val
  | OpElcrIo write port val => vpic_intercept_elcr_io write port 1 val
  | OpEdge up irq => vpic_irq_edge up irq;; ret 0
  | OpAck accept => vpic_ack_pending_irq accept
  end.

Lemma reset_ok p : exists p', vpic_reset p = (p', Ok tt) /\ pics_ok p' /\
  pic0 p' = master_vpic /\ pic1 p' = zero_vpic.
Proof.
  eexists. split; [reflexivity|]. split; [|done].
  repeat split; vm_compute; intuition congruence.
Qed.

Lemma logged_ok e p : pics_ok p -> pics_ok (logged e p).
Proof. done. Qed.

Lemma run_pic_ok op p : pics_ok p -> op_ok op = true ->
  exists p' x, run_pic op p = (p', Ok x) /\ pics_ok p'.
Proof.
  intros Hok Hop. destruct op as [|wr port val|wr port val|up irq|acc]; cbn [run_pic].
  - destruct (reset_ok p) as (p' & He & Hok' & _). unfold bind. rewrite He. by exists p', 0.
  - assert (Z.to_nat (Z.shiftr port 7) < 2)%nat as Hi.
    { cbn [op_ok] in Hop. rewrite !orb_true_iff, !Z.eqb_eq in Hop.
      destruct Hop as [[[->| ->]| ->]| ->]; vm_compute; lia. }
    unfold vpic_intercept_pic_io. change (negb (1 =? 1)) with false. cbv zeta. destruct wr.
    + destruct (ioport_write_ok _ port (u8 val) p Hi Hok (byte_u8 val)) as [Hok' He].
      unfold bind. rewrite He. eexists _, _. split; [reflexivity|].
      case_match; [done|by apply logged_ok].
    + destruct (ioport_read_ok _ port p Hi Hok) as (p' & x & He & Hok' & _).
      unfold bind. rewrite He. by eexists _, _.
  - assert (Z.to_nat (Z.land port 1) < 2)%nat as Hi.
    { cbn [op_ok] in Hop. rewrite orb_true_iff, !Z.eqb_eq in Hop.
      destruct Hop as [->| ->]; vm_compute; lia. }
    unfold vpic_intercept_elcr_io. change (negb (1 =? 1)) with false. cbn [bug_if].
    unfold bind at 1. unfold ret at 1. cbv zeta. unfold bind at 1. rewrite vpic_eq by done.
    destruct wr; [|by eexists _, _]. unfold bind. rewrite upd_pic_eq by done.
    eexists _, _. split; [reflexivity|]. apply elcr_ok; [done|done|apply byte_u8|].
    intros Hi0. rewrite Hi0. cbn [the_pic].
    destruct Hok as ((_ & _ & -> & _) & _). unfold u8.
    rewrite Z.mod_pow2_bits_low, Z.lor_spec by lia. apply orb_true_r.
  - cbn [op_ok] in Hop. apply andb_prop in Hop as [?%Z.leb_le ?%Z.leb_le].
    destruct (edge_ok up irq p Hok) as [He Hok']; [lia|]. unfold bind. rewrite He.
    by eexists _, _.
  - unfold vpic_ack_pending_irq. unfold bind at 1. rewrite vpic_eq by lia. cbn [the_pic].
    destruct (negb acc || negb (int_output (pic0 p))) eqn:Hn; [by eexists _, _|].
    apply orb_false_iff in Hn as [_ Hn]. apply negb_false_iff in Hn.
    pose proof (intack_ok 0 p ltac:(lia) Hok) as Ha. cbn [the_pic] in Ha.
    destruct Hok as (_ & I0 & _). unfold int_ok in I0. rewrite <- I0, Hn in Ha.
    destruct Ha as (Ha & Hok' & Hb). unfold bind at 1. rewrite Ha.
    rewrite (proj2 (Z.eqb_neq _ _)) by lia. unfold bind. rewrite vpic_eq by (apply irq_split; lia).
    by eexists _, _.
Qed.

(** ** Following one controller *)

(** An update changes only the INT line of its controller. *)
Lemma the_pic_updated i q : (i < 2)%nat ->
  the_pic i (updated i q) = set_int_output (raised (the_pic i q)) (the_pic i q).
Proof.
  intros Hi. destruct i as [|[|]]; [done| |lia]. cbn [updated the_pic]. unfold slave_updated.
  destruct (Bool.eqb _ _) eqn:He; [|done]. apply eqb_prop in He.
  by rewrite <- He, set_int_output_same.
Qed.

Lemma the_pic_with i v p : (i < 2)%nat -> the_pic i (with_pic i v p) = v.
Proof. intros Hi. destruct i as [|[|]]; [done|done|lia]. Qed.

(** The controller [i] after a write to its port. *)
Lemma write_pic_eq i addr val p : (i < 2)%nat -> pics_ok p -> byte val ->
  exists p' b, vpic_ioport_write i addr val p = (p', Ok tt) /\ pics_ok p' /\
    the_pic i p' = set_int_output b (port_write addr val (the_pic i p)).
Proof.
  intros Hi Hok Hv. destruct (ioport_write_ok i addr val p Hi Hok Hv) as [Hok' He].
  rewrite He. set (p' := updated i _) in *.
  exists (if unmasked addr val (the_pic i p) =? 0 then p' else logged PicUnmask p').
  eexists. split; [done|].
  assert (forall q, q = p' \/ q = logged PicUnmask p' -> pics_ok q /\ the_pic i q = the_pic i p')
    as Hq by (intros q [->| ->]; [done|split; [by apply logged_ok|by destruct i]]).
  destruct (Hq (if unmasked addr val (the_pic i p) =? 0 then p' else logged PicUnmask p'))
    as [? ->]; [case_match; auto|].
  split; [done|]. unfold p'. by rewrite the_pic_updated, the_pic_with by done.
Qed.

(** A controller with requests on the line [j] only and none in service. *)
Lemma only_request v j : 0 <= j < 8 -> Z.testbit (imr v) j = false -> isr v = 0 ->
  Z.testbit (irr v) j = true ->
  (forall k, 0 <= k < 8 -> k <> j -> Z.testbit (irr v) k = false) -> deliverable v j.
Proof.
  intros Hj Hm Hs Hr Ho. unfold deliverable, requested, holds. rewrite Hr, Hm, Hs.
  split; [done|]. split; [done|]. split; intros k Hk H.
  - destruct (decide (k = j)) as [->|Hne]; [done|]. by rewrite (Ho k Hk Hne) in H.
  - by rewrite Z.testbit_0_l in H.
Qed.

Lemma deliverable_highest v j : fields_ok v -> deliverable v j ->
  vpic_get_highest_priority_irq v = j /\ raised v = true.
Proof.
  intros Hf Hd. destruct (highest_spec v Hf) as [H|[_ H]]; [|by destruct (H j)].
  rewrite (deliverable_unique _ _ _ Hd H). split; [done|]. unfold raised. apply Z.leb_le.
  apply H.
Qed.

(** What [vpic_ack_pending_irq] returns. *)
Lemma ack_eq p : pics_ok p -> int_output (pic0 p) = true ->
  vpic_ack_pending_irq true p =
    (intack_state 0 p,
     Ok (irq_base (the_pic (Z.to_nat (Z.shiftr (intack_irq 0 p) 3)) (intack_state 0 p))
         + Z.land (intack_irq 0 p) 7)) /\
  pics_ok (intack_state 0 p) /\ 0 <= intack_irq 0 p < 16.
Proof.
  intros Hok Hn. unfold vpic_ack_pending_irq. unfold bind at 1. rewrite vpic_eq by lia.
  cbn [the_pic]. rewrite Hn. cbn [negb orb].
  pose proof (intack_ok 0 p ltac:(lia) Hok) as Ha. cbn [the_pic] in Ha.
  pose proof Hok as (_ & I0 & _). unfold int_ok in I0. rewrite <- I0, Hn in Ha.
  destruct Ha as (Ha & Hok' & Hb). unfold bind at 1. rewrite Ha.
  rewrite (proj2 (Z.eqb_neq _ _)) by lia. unfold bind.
  rewrite vpic_eq by (apply irq_split; lia). done.
Qed.
