(* ===== verification/VpicProps.v ===== *)
(** * The 8259 controllers: what the guest and the devices can rely on

    No sequence of port accesses, line edges and acknowledge cycles leads to
    the [BUG_ON]s of the acknowledge cycle or leaves an INT line that does
    not match the requests; the request delivered is the right one, and its
    vector is the one the guest programmed. *)

From stdpp Require Import base list numbers.
From Stdlib Require Import ZArith Lia.
From S2P Require Import Prelude Vpic VpicInv VpicOps.

Open Scope Z_scope.
Open Scope se_scope.

Implicit Types (v : hvm_hw_vpic) (p : pics).

(** The controllers after [vpic_init]. *)
Definition pic_boot (target : option Z) : pics :=
  fst (vpic_init {| pic0 := zero_vpic; pic1 := zero_vpic; i8259_target := target;
                    pic_log := [] |}).

Lemma pic_boot_ok t : pics_ok (pic_boot t).
Proof. repeat split; vm_compute; intuition congruence. Qed.

(** ** Priorities *)

(** [vpic_get_highest_priority_irq] returns the one request that is to be
    delivered, the first in the order of priorities among the unmasked
    requests and ahead of every line in service (but for the exceptions of
    the special fully nested and the special mask mode), and [-1] exactly
    when there is none. *)
Theorem highest_priority_irq_decides v : fields_ok v ->
  (forall irq, 0 <= irq -> (vpic_get_highest_priority_irq v = irq <-> deliverable v irq)) /\
  (vpic_get_highest_priority_irq v = -1 <-> forall irq, ~ deliverable v irq).
Proof.
  intros Hf. destruct (highest_spec v Hf) as [Hd|[He Hn]]; split.
  - intros irq _. split; [by intros <-|]. intros H. by apply (deliverable_unique v).
  - split; [|intros H; by apply H in Hd]. intros He. rewrite He in Hd.
    destruct Hd as [? _]. lia.
  - intros irq Hirq. rewrite He. split; [lia|]. intros H. by apply Hn in H.
  - by split.
Qed.

(** Lines 3 and 6 requested, line 5 in service, line 5 the lowest priority. *)
Definition sample_vpic : hvm_hw_vpic :=
  set_irr 0x48 (set_isr 0x20 (set_priority_add 6 zero_vpic)).

Lemma highest_priority_irq_decides_witness :
  vpic_get_highest_priority_irq sample_vpic = 6 /\
  (forall irq, 0 <= irq ->
     (vpic_get_highest_priority_irq sample_vpic = irq <-> deliverable sample_vpic irq)) /\
  (vpic_get_highest_priority_irq sample_vpic = -1 <->
     forall irq, ~ deliverable sample_vpic irq).
Proof.
  split; [reflexivity|]. apply highest_priority_irq_decides.
  repeat split; vm_compute; intuition congruence.
Defined.

(** ** The lines *)

(** What the domain can do to its controllers, from their initialisation on. *)
Inductive pic_reachable (t : option Z) : pics -> Prop :=
| reach_boot : pic_reachable t (pic_boot t)
| reach_op op p p' x : pic_reachable t p -> op_ok op = true ->
    run_pic op p = (p', Ok x) -> pic_reachable t p'.

(** C30: Whatever sequence of accesses to the registered ports, edges of the
    sixteen lines, acknowledge cycles and resets the domain makes: the master
    and the slave stay what they are, the slave's INT line is IR2 of the
    master, each INT line is up exactly when a request is to be delivered,
    and no operation ends in a [BUG_ON] or outside of the array. *)
Theorem pic_lines_consistent t p : pic_reachable t p ->
  is_master (pic0 p) = true /\ is_master (pic1 p) = false /\
  Z.testbit (irr (pic0 p)) 2 = int_output (pic1 p) /\
  (int_output (pic0 p) = true <-> exists irq, deliverable (pic0 p) irq) /\
  (int_output (pic1 p) = true <-> exists irq, deliverable (pic1 p) irq) /\
  forall op, op_ok op = true -> exists p' x, run_pic op p = (p', Ok x).
Proof.
  intros Hr. assert (pics_ok p) as Hok.
  { induction Hr as [|op q q' x Hr IH Hop He]; [apply pic_boot_ok|].
    destruct (run_pic_ok op q IH Hop) as (? & ? & He' & ?). rewrite He in He'.
    by injection He' as -> ->. }
  pose proof Hok as ((F0 & F1 & M0 & M1 & _ & L) & I0 & I1).
  assert (forall v, fields_ok v -> int_ok v ->
    (int_output v = true <-> exists irq, deliverable v irq)) as Hl.
  { intros v Hf Hi. rewrite Hi. split; [intros H; eexists; by apply raised_deliverable|].
    intros [irq Hd]. by apply (deliverable_highest v irq). }
  repeat (split; [by auto|]). intros op Hop.
  destruct (run_pic_ok op p Hok Hop) as (p' & x & He & _). by exists p', x.
Qed.

Lemma pic_lines_consistent_witness :
  let p := fst (run_pic (OpEdge true 9) (pic_boot (Some 0))) in
  int_output (pic0 p) = true /\ int_output (pic1 p) = true /\
  Z.testbit (irr (pic0 p)) 2 = int_output (pic1 p) /\
  forall op, op_ok op = true -> exists p' x, run_pic op p = (p', Ok x).
Proof.
  split; [reflexivity|]. split; [reflexivity|].
  assert (pic_reachable (Some 0) (fst (run_pic (OpEdge true 9) (pic_boot (Some 0))))) as Hr.
  { apply (reach_op _ (OpEdge true 9) (pic_boot (Some 0)) _ 0);
      [apply reach_boot|reflexivity|reflexivity]. }
  destruct (pic_lines_consistent _ _ Hr) as (_ & _ & HL & _ & _ & Hop).
  split; [exact HL|exact Hop].
Defined.

(** ** The acknowledge cycle *)

(** The in-service bits after line [j] was acknowledged. *)
Definition served v v' (j : Z) : Prop :=
  forall m, 0 <= m -> Z.testbit (isr v') m = Z.testbit (isr v) m || ((m =? j) && negb (auto_eoi v)).

(** The requests after line [j] was acknowledged: an edge is forgotten. *)
Definition forgotten v v' (j : Z) : Prop :=
  forall m, 0 <= m -> Z.testbit (irr v') m =
    if m =? j then Z.testbit (irr v) j && Z.testbit (elcr v) j else Z.testbit (irr v) m.

Lemma intack_update_spec v j : 0 <= j < 8 ->
  served v (intack_update j v) j /\ forgotten v (intack_update j v) j /\
  irq_base (intack_update j v) = irq_base v.
Proof.
  intros Hj. unfold intack_update. rewrite u8_mask by done. cbv zeta.
  rewrite land_mask_0 by lia.
  set (v1 := if negb (Z.testbit (elcr v) j) then set_irr (clear (irr v) (Z.shiftl 1 j)) v
             else v).
  assert (isr v1 = isr v /\ auto_eoi v1 = auto_eoi v /\ irq_base v1 = irq_base v /\
          forgotten v v1 j) as (H1 & H2 & H3 & H4).
  { unfold v1, forgotten. destruct (Z.testbit (elcr v) j) eqn:He; cbn [negb];
      (split; [done|split; [done|split; [done|]]]); intros m Hm.
    - destruct (Z.eqb_spec m j) as [->|]; [by rewrite andb_true_r|done].
    - cbn [set_irr irr]. rewrite clear_bit, bit_mask by lia.
      destruct (m =? j); by rewrite ?andb_false_r, ?andb_true_r. }
  unfold served. rewrite H2, <- H1. destruct (auto_eoi v); cbn [negb].
  - destruct (rotate_on_auto_eoi v1); (split; [|done]); intros m Hm;
      cbn [set_priority_add isr]; by rewrite andb_false_r, orb_false_r.
  - split; [|done]. intros m Hm. cbn [set_isr isr]. rewrite Z.lor_spec, bit_mask by lia.
    by rewrite andb_true_r.
Qed.

(** In the cascade the master's in-service bits are those of its own
    acknowledge. *)
Lemma acked_cascade_served p k :
  served (pic0 p) (pic0 (acked 1 k (acked 0 2 p))) 2.
Proof.
  destruct (intack_update_spec (pic0 p) 2 ltac:(lia)) as [Hs _].
  assert (isr (pic0 (acked 1 k (acked 0 2 p))) = isr (intack_update 2 (pic0 p))) as He.
  { unfold acked at 1. cbn [updated]. unfold slave_updated. by destruct (Bool.eqb _ _). }
  intros m Hm. rewrite He. by apply Hs.
Qed.

Lemma acked_slave_pic k q :
  pic1 (acked 1 k q) = set_int_output (raised (intack_update k (pic1 q))) (intack_update k (pic1 q)).
Proof. apply (the_pic_updated 1). lia. Qed.

(** The vectors the acknowledge cycle returns. *)
Lemma ack_of_deliverable p j : pics_ok p -> deliverable (pic0 p) j -> j <> 2 ->
  vpic_ack_pending_irq true p = (acked 0 j p, Ok (irq_base (pic0 p) + j)) /\
  pics_ok (acked 0 j p).
Proof.
  intros Hok Hd H2. pose proof Hok as ((F0 & _) & I0 & _).
  destruct (deliverable_highest _ _ F0 Hd) as [Hh Hr]. pose proof Hd as (Hj & _).
  destruct (ack_eq p Hok) as (-> & Hok' & _); [by rewrite I0|]. revert Hok'.
  unfold intack_state, intack_irq. cbn [the_pic]. rewrite Hh.
  rewrite (proj2 (Z.eqb_neq j 2)) by done. destruct (irq_split j) as (_ & _ & H0 & _); [lia|].
  assert (Z.to_nat (Z.shiftr j 3) = 0%nat) as Hi0.
  { rewrite Z.shiftr_div_pow2 by lia. change (2 ^ 3) with 8. zlia. }
  rewrite Hi0 in *. rewrite (H0 eq_refl).
  destruct (intack_update_spec (pic0 p) j Hj) as (_ & _ & C). by rewrite <- C.
Qed.

Lemma ack_of_slave p k : pics_ok p -> deliverable (pic0 p) 2 -> deliverable (pic1 p) k ->
  vpic_ack_pending_irq true p = (acked 1 k (acked 0 2 p), Ok (irq_base (pic1 p) + k)) /\
  pics_ok (acked 1 k (acked 0 2 p)).
Proof.
  intros Hok Hd Hk. pose proof Hok as ((F0 & F1 & _) & I0 & _).
  destruct (deliverable_highest _ _ F0 Hd) as [Hh Hr].
  destruct (deliverable_highest _ _ F1 Hk) as [Hh1 _]. pose proof Hk as (Hkb & _).
  destruct (ack_eq p Hok) as (-> & Hok' & _); [by rewrite I0|]. revert Hok'.
  unfold intack_state, intack_irq. cbn [the_pic]. rewrite Hh, Hh1, Z.eqb_refl.
  destruct (irq_split (k + 8)) as (_ & _ & _ & Hs); [lia|].
  assert (Z.to_nat (Z.shiftr (k + 8) 3) = 1%nat) as Hi1.
  { rewrite Z.shiftr_div_pow2 by lia. change (2 ^ 3) with 8. zlia. }
  rewrite Hi1 in *. assert (Z.land (k + 8) 7 = k) as -> by (specialize (Hs eq_refl); lia).
  cbn [the_pic]. rewrite acked_slave_pic, acked_slave. cbn [set_int_output irq_base].
  destruct (intack_update_spec (pic1 p) k Hkb) as (_ & _ & ->). done.
Qed.

(** When the master's INT line is up, the acknowledge cycle returns the
    vector of the request the master is to deliver, or for IR2 that of the
    request the slave is to deliver: the base the guest programmed plus the
    line.  The line is in service afterwards unless automatic EOI is on, and
    an edge-triggered request is forgotten. *)
Theorem ack_returns_programmed_vector p : pics_ok p -> int_output (pic0 p) = true ->
  exists j p', deliverable (pic0 p) j /\ pics_ok p' /\ served (pic0 p) (pic0 p') j /\
    (j <> 2 /\ forgotten (pic0 p) (pic0 p') j /\ pic1 p' = pic1 p /\
       vpic_ack_pending_irq true p = (p', Ok (irq_base (pic0 p) + j)) \/
     j = 2 /\ exists k, deliverable (pic1 p) k /\
       served (pic1 p) (pic1 p') k /\ forgotten (pic1 p) (pic1 p') k /\
       vpic_ack_pending_irq true p = (p', Ok (irq_base (pic1 p) + k))).
Proof.
  intros Hok Hn. pose proof Hok as ((F0 & F1 & _) & I0 & _). unfold int_ok in I0. rewrite Hn in I0.
  pose proof (raised_deliverable _ F0 (eq_sym I0)) as Hd.
  set (j := vpic_get_highest_priority_irq (pic0 p)) in *. pose proof Hd as (Hj & _).
  exists j. destruct (decide (j = 2)) as [H2|H2].
  - clearbody j. subst j. pose proof (raised_deliverable _ F1 (cascade_request p Hok Hd)) as Hk.
    set (k := vpic_get_highest_priority_irq (pic1 p)) in *. pose proof Hk as (Hkb & _).
    pose proof (ack_of_slave p k Hok Hd Hk) as [Ha Hok']. eexists. split; [done|]. split; [exact Hok'|].
    split; [apply acked_cascade_served|]. right. split; [done|]. exists k.
    rewrite acked_slave_pic, acked_slave.
    destruct (intack_update_spec (pic1 p) k Hkb) as (A & B & _).
    split; [done|]. split; [exact A|]. split; [exact B|exact Ha].
  - pose proof (ack_of_deliverable p j Hok Hd H2) as [Ha Hok'].
    destruct (intack_update_spec (pic0 p) j Hj) as (A & B & _). eexists.
    split; [done|]. split; [exact Hok'|]. split; [exact A|]. left.
    split; [done|]. split; [exact B|]. split; [done|exact Ha].
Qed.

(** IRQ 9 raised on controllers programmed with the bases 0x30 and 0x38. *)
Definition programmed : pics :=
  let p := pic_boot (Some 0) in
  {| pic0 := set_init 0x30 0 (pic0 p); pic1 := set_init 0x38 0 (pic1 p);
     i8259_target := Some 0; pic_log := [] |}.

Lemma programmed_ok : pics_ok programmed.
Proof. repeat split; vm_compute; intuition congruence. Qed.

Definition irq9 : pics := fst (vpic_irq_positive_edge 9 programmed).

Lemma ack_returns_programmed_vector_witness :
  snd (vpic_ack_pending_irq true irq9) = Ok 0x39 /\
  exists j p', deliverable (pic0 irq9) j /\ pics_ok p' /\ served (pic0 irq9) (pic0 p') j /\
    (j <> 2 /\ forgotten (pic0 irq9) (pic0 p') j /\ pic1 p' = pic1 irq9 /\
       vpic_ack_pending_irq true irq9 = (p', Ok (irq_base (pic0 irq9) + j)) \/
     j = 2 /\ exists k, deliverable (pic1 irq9) k /\
       served (pic1 irq9) (pic1 p') k /\ forgotten (pic1 irq9) (pic1 p') k /\
       vpic_ack_pending_irq true irq9 = (p', Ok (irq_base (pic1 irq9) + k))).
Proof.
  split; [reflexivity|]. apply ack_returns_programmed_vector; [|reflexivity].
  destruct (edge_ok true 9 programmed programmed_ok) as [_ H]; [lia|exact H].
Defined.

(** ** Initialisation *)

(** The four initialisation words (ICW1 in cascade mode with ICW4) leave
    the controller with the base of ICW2, the modes of ICW4, nothing masked
    or in service, IR7 the lowest priority and no initialisation in
    progress; the requests of level-triggered lines are kept. *)
Theorem initialisation_sequence i icw1 icw2 icw3 icw4 p :
  (i < 2)%nat -> pics_ok p -> byte icw1 -> byte icw2 -> byte icw3 -> byte icw4 ->
  Z.testbit icw1 4 = true -> Z.land icw1 3 = 1 ->
  let v := the_pic i p in
  exists p', (vpic_ioport_write i 0 icw1;; vpic_ioport_write i 1 icw2;;
              vpic_ioport_write i 1 icw3;; vpic_ioport_write i 1 icw4) p = (p', Ok tt) /\
    pics_ok p' /\
    the_pic i p' =
      {| irr := Z.land (irr v) (elcr v); imr := 0; isr := 0;
         irq_base := Z.land icw2 0xf8; init_state := 0; priority_add := 0;
         readsel_isr := false; poll := false; auto_eoi := Z.testbit icw4 1;
         rotate_on_auto_eoi := false; special_fully_nested_mode := Z.testbit icw4 4;
         special_mask_mode := false; is_master := is_master v; elcr := elcr v;
         int_output := raised (the_pic i p') |}.
Proof.
  intros Hi Hok B1 B2 B3 B4 H4 H3 v.
  destruct (write_pic_eq i 0 icw1 p Hi Hok B1) as (p1 & b1 & E1 & Hok1 & V1).
  destruct (write_pic_eq i 1 icw2 p1 Hi Hok1 B2) as (p2 & b2 & E2 & Hok2 & V2).
  destruct (write_pic_eq i 1 icw3 p2 Hi Hok2 B3) as (p3 & b3 & E3 & Hok3 & V3).
  destruct (write_pic_eq i 1 icw4 p3 Hi Hok3 B4) as (p4 & b4 & E4 & Hok4 & V4).
  exists p4. unfold bind. rewrite E1, E2, E3, E4. split; [done|]. split; [done|].
  destruct (the_pic_ok i p4 Hok4) as [_ Hint]. unfold int_ok in Hint. rewrite <- Hint.
  rewrite V4, V3, V2, V1. unfold port_write.
  change (Z.testbit 0 0) with false. change (Z.testbit 1 0) with true. cbn [negb]. rewrite H4.
  unfold write_icw1. rewrite H3. reflexivity.
Qed.

Lemma initialisation_sequence_witness :
  exists p', (vpic_ioport_write 1 0 0x11;; vpic_ioport_write 1 1 0x73;;
              vpic_ioport_write 1 1 0x02;; vpic_ioport_write 1 1 0x03)
      (pic_boot None) = (p', Ok tt) /\ pics_ok p' /\
    irq_base (pic1 p') = 0x70 /\ auto_eoi (pic1 p') = true /\ init_state (pic1 p') = 0.
Proof.
  destruct (initialisation_sequence 1 0x11 0x73 0x02 0x03 (pic_boot None)) as (p' & He & Hok & Hv);
    [lia|apply pic_boot_ok|unfold byte; lia..|reflexivity|reflexivity|].
  exists p'. split; [exact He|]. split; [exact Hok|]. cbn [the_pic] in Hv. rewrite Hv.
  split; [reflexivity|]. split; reflexivity.
Defined.

(** ** From a line to a vector *)

(** Nothing is requested or in service. *)
Definition idle p : Prop :=
  irr (pic0 p) = 0 /\ irr (pic1 p) = 0 /\ isr (pic0 p) = 0 /\ isr (pic1 p) = 0.

Lemma edge_request v j : 0 <= j < 8 -> irr v = 0 -> isr v = 0 ->
  Z.testbit (imr v) j = false -> deliverable (edge true (Z.shiftl 1 j) v) j.
Proof.
  intros Hj H0 Hs Hm. apply only_request; [done|done|done| |].
  - rewrite edge_bit by lia. by rewrite Z.eqb_refl.
  - intros k Hk Hne. rewrite edge_bit, (proj2 (Z.eqb_neq _ _)) by lia.
    by rewrite H0, Z.testbit_0_l.
Qed.

Lemma line2_is_edge v : line2 true v = edge true (Z.shiftl 1 2) v.
Proof. done. Qed.

(** The state after an edge of a line of the slave that nothing held back. *)
Lemma slave_edge_spec irq p : pics_ok p -> idle p -> 8 <= irq <= 15 ->
  Z.testbit (imr (pic0 p)) 2 = false -> Z.testbit (imr (pic1 p)) (irq - 8) = false ->
  let p' := edged true irq p in
  deliverable (pic0 p') 2 /\ deliverable (pic1 p') (irq - 8) /\ pics_ok p' /\
  irq_base (pic0 p') = irq_base (pic0 p) /\ irq_base (pic1 p') = irq_base (pic1 p).
Proof.
  intros Hok (R0 & R1 & S0 & S1) Hirq M2 Mj p'.
  destruct (edge_ok true irq p Hok) as [_ Hok']; [lia|].
  rewrite (proj2 (Z.eqb_neq irq 2)) in Hok' by lia. fold p' in Hok'.
  assert (Z.to_nat (Z.shiftr irq 3) = 1%nat) as Hi.
  { rewrite Z.shiftr_div_pow2 by lia. change (2 ^ 3) with 8. zlia. }
  assert (Z.land irq 7 = irq - 8) as Hj by (rewrite (proj2 (land_7 irq)); zlia).
  pose proof (edge_request (pic1 p) (irq - 8) ltac:(lia) R1 S1 Mj) as Hd.
  assert (pics_ok p) as ((_ & F1 & _ & _ & _ & L2) & _) by done.
  assert (fields_ok (edge true (Z.shiftl 1 (irq - 8)) (pic1 p))) as Hf.
  { destruct F1 as [Hb Hrest]. split; [|exact Hrest].
    apply byte_lor; [done|]. apply byte_mask. lia. }
  destruct (deliverable_highest _ _ Hf Hd) as [_ Hr].
  rewrite R0 in L2. change (Z.testbit 0 2) with false in L2.
  split; [|split; [|split; [done|]]];
    unfold p', edged; rewrite Hi, Hj; cbn [the_pic]; rewrite Mj; cbn [updated];
    unfold slave_updated; cbn [with_pic pic1 pic0]; rewrite Hr;
    change (int_output (edge _ _ (pic1 p))) with (int_output (pic1 p)); rewrite <- L2;
    cbn [Bool.eqb].
  - apply (edge_request (pic0 p) 2); [lia|done|done|done].
  - exact Hd.
  - done.
Qed.

(** The state after an edge of a line of the master that nothing held back. *)
Lemma master_edge_spec irq p : pics_ok p -> idle p -> 0 <= irq <= 7 -> irq <> 2 ->
  Z.testbit (imr (pic0 p)) irq = false ->
  let p' := edged true irq p in
  deliverable (pic0 p') irq /\ pics_ok p' /\ irq_base (pic0 p') = irq_base (pic0 p).
Proof.
  intros Hok (R0 & R1 & S0 & S1) Hirq H2 Mj p'.
  destruct (edge_ok true irq p Hok) as [_ Hok']; [lia|].
  rewrite (proj2 (Z.eqb_neq irq 2)) in Hok' by lia. fold p' in Hok'.
  assert (Z.to_nat (Z.shiftr irq 3) = 0%nat) as Hi.
  { rewrite Z.shiftr_div_pow2 by lia. change (2 ^ 3) with 8. zlia. }
  assert (Z.land irq 7 = irq) as Hj by (rewrite (proj2 (land_7 irq)); zlia).
  split; [|split; [done|]]; unfold p', edged; rewrite Hi, Hj; cbn [the_pic]; rewrite Mj.
  - apply (edge_request (pic0 p) irq); [lia|done|done|done].
  - done.
Qed.

(** On idle controllers, an edge on an unmasked line (through an unmasked
    IR2 for the slave's) is delivered: the next acknowledge cycle returns the
    vector of that line. *)
Theorem edge_is_delivered irq p : pics_ok p -> idle p -> 0 <= irq <= 15 -> irq <> 2 ->
  let i := Z.to_nat (Z.shiftr irq 3) in
  Z.testbit (imr (the_pic i p)) (Z.land irq 7) = false ->
  (i = 1%nat -> Z.testbit (imr (pic0 p)) 2 = false) ->
  snd ((vpic_irq_positive_edge irq;; vpic_ack_pending_irq true) p) =
    Ok (irq_base (the_pic i p) + Z.land irq 7).
Proof.
  intros Hok Hidle Hirq H2 i Hm Hc. destruct (irq_split irq Hirq) as (Hi & Hj & H0 & H1).
  fold i in Hi, H0, H1. destruct (edge_ok true irq p Hok Hirq) as [He _].
  rewrite (proj2 (Z.eqb_neq irq 2)) in He by done. unfold vpic_irq_edge in He.
  unfold bind at 1. rewrite He. clear He.
  destruct i as [|[|]] eqn:Ei; [| |lia]; cbn [the_pic] in *.
  - specialize (H0 eq_refl). rewrite H0 in *.
    destruct (master_edge_spec irq p Hok Hidle) as (Hd & Hok' & Hb); [lia|done|done|].
    destruct (ack_of_deliverable _ irq Hok' Hd H2) as [-> _]. cbn [snd]. by rewrite Hb.
  - specialize (H1 eq_refl). assert (Z.land irq 7 = irq - 8) as Hl by lia. rewrite Hl in *.
    destruct (slave_edge_spec irq p Hok Hidle) as (Hd2 & Hd & Hok' & _ & Hb);
      [lia|by apply Hc|done|].
    destruct (ack_of_slave _ (irq - 8) Hok' Hd2 Hd) as [-> _]. cbn [snd]. by rewrite Hb.
Qed.

Lemma edge_is_delivered_witness :
  snd ((vpic_irq_positive_edge 12;; vpic_ack_pending_irq true) programmed) = Ok 0x3c.
Proof.
  apply (edge_is_delivered 12 programmed);
    [exact programmed_ok|repeat split; reflexivity|lia|lia|reflexivity|reflexivity].
Defined.

(** ** End of interrupt *)

(** Outside of special mask mode a non-specific EOI ends the service of
    the line with the highest priority among those in service, and of no
    other; the requests and the masks stay. *)
Theorem eoi_ends_highest_in_service i j p :
  (i < 2)%nat -> pics_ok p -> special_mask_mode (the_pic i p) = false ->
  let v := the_pic i p in
  0 <= j < 8 -> Z.testbit (isr v) j = true ->
  (forall k, 0 <= k < 8 -> Z.testbit (isr v) k = true ->
     rank (priority_add v) j <= rank (priority_add v) k) ->
  exists p', vpic_ioport_write i 0 0x20 p = (p', Ok tt) /\ pics_ok p' /\
    irr (the_pic i p') = irr v /\ imr (the_pic i p') = imr v /\
    forall m, 0 <= m ->
      Z.testbit (isr (the_pic i p')) m = Z.testbit (isr v) m && negb (m =? j).
Proof.
  intros Hi Hok Hsm v Hj Hs Hmin. destruct (the_pic_ok i p Hok) as [Hf _]. fold v in Hf, Hsm.
  destruct (write_pic_eq i 0 0x20 p Hi Hok) as (p' & b & He & Hok' & Hv); [unfold byte; lia|].
  exists p'. split; [done|]. split; [done|]. fold v in Hv. rewrite Hv.
  change (port_write 0 0x20 v) with (write_ocw2 0x20 v).
  assert (write_ocw2 0x20 v = set_isr (clear (isr v) (Z.shiftl 1 j)) v) as ->.
  { unfold write_ocw2. change (Z.shiftr 0x20 5) with 1. cbn [Z.eqb Pos.eqb orb]. cbv zeta.
    rewrite Hsm. pose proof Hf as (_ & _ & Hb & _ & Hp & _).
    destruct (get_priority_spec v (isr v) Hb Hp) as [[_ H0]|(k & Hk & Hkb & Hpr & Hl & Hkm)].
    { by rewrite H0, Z.testbit_0_l in Hs. }
    pose proof (rank_lt_8 (priority_add v) k).
    rewrite (proj2 (Z.eqb_neq _ _)) by (unfold VPIC_PRIO_NONE; lia). rewrite <- Hl.
    assert (k = j) as ->; [|done]. apply (rank_inj (priority_add v)); [done|done|].
    specialize (Hkm j Hj Hs). specialize (Hmin k Hk Hkb). lia. }
  split; [done|]. split; [done|]. intros m Hm. cbn [set_int_output set_isr isr].
  by rewrite clear_bit, bit_mask by lia.
Qed.

(** IRQ 4 was acknowledged. *)
Definition in_service4 : pics :=
  fst ((vpic_irq_positive_edge 4;; vpic_ack_pending_irq true) programmed).

Lemma in_service4_ok : pics_ok in_service4.
Proof.
  repeat split; vm_compute; intuition congruence.
Qed.

Lemma eoi_ends_highest_in_service_witness :
  exists p', vpic_ioport_write 0 0 0x20 in_service4 = (p', Ok tt) /\ pics_ok p' /\
    isr (pic0 in_service4) = 0x10 /\ Z.testbit (isr (pic0 p')) 4 = false.
Proof.
  destruct (eoi_ends_highest_in_service 0 4 in_service4) as (p' & He & Hok & _ & _ & Hs);
    [lia|exact in_service4_ok|reflexivity|lia|reflexivity| |].
  { intros k Hk. change (isr (the_pic 0 in_service4)) with 16.
    assert (k = 0 \/ k = 1 \/ k = 2 \/ k = 3 \/ k = 4 \/ k = 5 \/ k = 6 \/ k = 7) as Hc by lia.
    destruct Hc as [->|[->|[->|[->|[->|[->|[->| ->]]]]]]]; vm_compute; congruence. }
  exists p'. split; [exact He|]. split; [exact Hok|]. split; [reflexivity|].
  specialize (Hs 4 ltac:(lia)). exact Hs.
Defined.
