(* ===== verification/HvmState.v ===== *)
(** * The interrupt hardware of a domain: its state

    The parts of [struct hvm_domain] and [struct vcpu] that interrupt delivery
    uses: the wires and counters of [struct hvm_irq] (asm-x86/hvm/irq.h), the
    virtual IO-APIC, the registers of the local APICs, the 8259s of Vpic.  A
    pointer to a vcpu or to its local APIC is the vcpu's number.  An access
    outside of an array is [Bug]. *)

From stdpp Require Import base list numbers.
From Stdlib Require Import ZArith Lia.
From S2P Require Import Prelude Vpic.

Open Scope Z_scope.
Open Scope se_scope.

(** ** The local APIC of a vcpu *)

(** What the timer of a local APIC keeps: of [hw], of [pt] and
    [timer_last_update]. *)
Record lapic_timer : Type := {
  timer_divisor : Z;           (** [hw.timer_divisor] *)
  tdt_msr : Z;                 (** [hw.tdt_msr] *)
  pt_irq : Z;                  (** [pt.irq] *)
  timer_last_update : Z
}.

Record vcpu : Type := {
  vl_regs : Z -> Z;            (** the 32-bit register at an offset of [regs->data] *)
  vl_disabled : Z;             (** [hw.disabled] *)
  vl_apic_base_msr : Z;        (** [hw.apic_base_msr] *)
  vl_timer : lapic_timer;
  init_sipi : option (Z * Z);  (** [init_sipi.target] (a vcpu) and [init_sipi.icr] *)
  is_initialised : bool;
  nmi_pending : bool;
  mce_pending : bool;
  evtchn_upcall_pending : bool (** of its [vcpu_info] *)
}.

Definition set_vl_regs (f : Z -> Z) (v : vcpu) : vcpu :=
  {| vl_regs := f; vl_disabled := vl_disabled v;
     vl_apic_base_msr := vl_apic_base_msr v; vl_timer := vl_timer v;
     init_sipi := init_sipi v; is_initialised := is_initialised v;
     nmi_pending := nmi_pending v; mce_pending := mce_pending v;
     evtchn_upcall_pending := evtchn_upcall_pending v |}.
Definition set_vl_disabled (x : Z) (v : vcpu) : vcpu :=
  {| vl_regs := vl_regs v; vl_disabled := x; vl_apic_base_msr := vl_apic_base_msr v;
     vl_timer := vl_timer v; init_sipi := init_sipi v;
     is_initialised := is_initialised v; nmi_pending := nmi_pending v;
     mce_pending := mce_pending v; evtchn_upcall_pending := evtchn_upcall_pending v |}.
Definition set_apic_base_msr (x : Z) (v : vcpu) : vcpu :=
  {| vl_regs := vl_regs v; vl_disabled := vl_disabled v; vl_apic_base_msr := x;
     vl_timer := vl_timer v; init_sipi := init_sipi v;
     is_initialised := is_initialised v; nmi_pending := nmi_pending v;
     mce_pending := mce_pending v; evtchn_upcall_pending := evtchn_upcall_pending v |}.
Definition set_vl_timer (t : lapic_timer) (v : vcpu) : vcpu :=
  {| vl_regs := vl_regs v; vl_disabled := vl_disabled v;
     vl_apic_base_msr := vl_apic_base_msr v; vl_timer := t; init_sipi := init_sipi v;
     is_initialised := is_initialised v; nmi_pending := nmi_pending v;
     mce_pending := mce_pending v; evtchn_upcall_pending := evtchn_upcall_pending v |}.
Definition set_init_sipi (x : option (Z * Z)) (v : vcpu) : vcpu :=
  {| vl_regs := vl_regs v; vl_disabled := vl_disabled v;
     vl_apic_base_msr := vl_apic_base_msr v; vl_timer := vl_timer v; init_sipi := x;
     is_initialised := is_initialised v; nmi_pending := nmi_pending v;
     mce_pending := mce_pending v; evtchn_upcall_pending := evtchn_upcall_pending v |}.
Definition set_is_initialised (b : bool) (v : vcpu) : vcpu :=
  {| vl_regs := vl_regs v; vl_disabled := vl_disabled v;
     vl_apic_base_msr := vl_apic_base_msr v; vl_timer := vl_timer v;
     init_sipi := init_sipi v; is_initialised := b; nmi_pending := nmi_pending v;
     mce_pending := mce_pending v; evtchn_upcall_pending := evtchn_upcall_pending v |}.
Definition set_nmi_pending (b : bool) (v : vcpu) : vcpu :=
  {| vl_regs := vl_regs v; vl_disabled := vl_disabled v;
     vl_apic_base_msr := vl_apic_base_msr v; vl_timer := vl_timer v;
     init_sipi := init_sipi v; is_initialised := is_initialised v; nmi_pending := b;
     mce_pending := mce_pending v; evtchn_upcall_pending := evtchn_upcall_pending v |}.
Definition set_mce_pending (b : bool) (v : vcpu) : vcpu :=
  {| vl_regs := vl_regs v; vl_disabled := vl_disabled v;
     vl_apic_base_msr := vl_apic_base_msr v; vl_timer := vl_timer v;
     init_sipi := init_sipi v; is_initialised := is_initialised v;
     nmi_pending := nmi_pending v; mce_pending := b;
     evtchn_upcall_pending := evtchn_upcall_pending v |}.

Definition set_timer_divisor (x : Z) (t : lapic_timer) : lapic_timer :=
  {| timer_divisor := x; tdt_msr := tdt_msr t; pt_irq := pt_irq t;
     timer_last_update := timer_last_update t |}.
Definition set_tdt_msr (x : Z) (t : lapic_timer) : lapic_timer :=
  {| timer_divisor := timer_divisor t; tdt_msr := x; pt_irq := pt_irq t;
     timer_last_update := timer_last_update t |}.
Definition set_pt_irq (x : Z) (t : lapic_timer) : lapic_timer :=
  {| timer_divisor := timer_divisor t; tdt_msr := tdt_msr t; pt_irq := x;
     timer_last_update := timer_last_update t |}.
Definition set_last_update (x : Z) (t : lapic_timer) : lapic_timer :=
  {| timer_divisor := timer_divisor t; tdt_msr := tdt_msr t; pt_irq := pt_irq t;
     timer_last_update := x |}.

(** ** The IO-APIC *)

Definition VIOAPIC_NUM_PINS : Z := 48.

Record hvm_hw_vioapic : Type := {
  base_address : Z;
  ioregsel : Z;
  ioapic_id : Z;
  redirtbl : list Z            (** [bits] of the 48 entries *)
}.

Definition set_redirtbl (l : list Z) (a : hvm_hw_vioapic) : hvm_hw_vioapic :=
  {| base_address := base_address a; ioregsel := ioregsel a;
     ioapic_id := ioapic_id a; redirtbl := l |}.
Definition set_ioregsel (x : Z) (a : hvm_hw_vioapic) : hvm_hw_vioapic :=
  {| base_address := base_address a; ioregsel := x;
     ioapic_id := ioapic_id a; redirtbl := redirtbl a |}.
Definition set_ioapic_id (x : Z) (a : hvm_hw_vioapic) : hvm_hw_vioapic :=
  {| base_address := base_address a; ioregsel := ioregsel a;
     ioapic_id := x; redirtbl := redirtbl a |}.

(** ** Wires and counters *)

Inductive callback_type : Type :=
| HVMIRQ_callback_none
| HVMIRQ_callback_gsi
| HVMIRQ_callback_pci_intx
| HVMIRQ_callback_vector.

#[export] Instance callback_type_eq_dec : EqDecision callback_type.
Proof. solve_decision. Defined.

Record hvm_irq : Type := {
  pci_intx : Z;                      (** bitmap, device * 4 + INTx *)
  isa_irq : Z;                       (** bitmap of the ISA lines *)
  route : list Z;                    (** [pci_link.route[4]] *)
  callback_via_asserted : bool;
  callback_via_type : callback_type;
  callback_via : Z;                  (** the 32 bits of the union *)
  pci_link_assert_count : list Z;    (** 4 bytes *)
  gsi_assert_count : list Z;         (** 48 bytes *)
  round_robin_prev_vcpu : Z
}.

Definition set_pci_intx (x : Z) (q : hvm_irq) : hvm_irq :=
  {| pci_intx := x; isa_irq := isa_irq q; route := route q;
     callback_via_asserted := callback_via_asserted q;
     callback_via_type := callback_via_type q; callback_via := callback_via q;
     pci_link_assert_count := pci_link_assert_count q;
     gsi_assert_count := gsi_assert_count q;
     round_robin_prev_vcpu := round_robin_prev_vcpu q |}.
Definition set_isa_irq (x : Z) (q : hvm_irq) : hvm_irq :=
  {| pci_intx := pci_intx q; isa_irq := x; route := route q;
     callback_via_asserted := callback_via_asserted q;
     callback_via_type := callback_via_type q; callback_via := callback_via q;
     pci_link_assert_count := pci_link_assert_count q;
     gsi_assert_count := gsi_assert_count q;
     round_robin_prev_vcpu := round_robin_prev_vcpu q |}.
Definition set_route (l : list Z) (q : hvm_irq) : hvm_irq :=
  {| pci_intx := pci_intx q; isa_irq := isa_irq q; route := l;
     callback_via_asserted := callback_via_asserted q;
     callback_via_type := callback_via_type q; callback_via := callback_via q;
     pci_link_assert_count := pci_link_assert_count q;
     gsi_assert_count := gsi_assert_count q;
     round_robin_prev_vcpu := round_robin_prev_vcpu q |}.
Definition set_callback (t : callback_type) (c : Z) (q : hvm_irq) : hvm_irq :=
  {| pci_intx := pci_intx q; isa_irq := isa_irq q; route := route q;
     callback_via_asserted := callback_via_asserted q;
     callback_via_type := t; callback_via := c;
     pci_link_assert_count := pci_link_assert_count q;
     gsi_assert_count := gsi_assert_count q;
     round_robin_prev_vcpu := round_robin_prev_vcpu q |}.
Definition set_link_counts (l : list Z) (q : hvm_irq) : hvm_irq :=
  {| pci_intx := pci_intx q; isa_irq := isa_irq q; route := route q;
     callback_via_asserted := callback_via_asserted q;
     callback_via_type := callback_via_type q; callback_via := callback_via q;
     pci_link_assert_count := l;
     gsi_assert_count := gsi_assert_count q;
     round_robin_prev_vcpu := round_robin_prev_vcpu q |}.
Definition set_gsi_counts (l : list Z) (q : hvm_irq) : hvm_irq :=
  {| pci_intx := pci_intx q; isa_irq := isa_irq q; route := route q;
     callback_via_asserted := callback_via_asserted q;
     callback_via_type := callback_via_type q; callback_via := callback_via q;
     pci_link_assert_count := pci_link_assert_count q;
     gsi_assert_count := l;
     round_robin_prev_vcpu := round_robin_prev_vcpu q |}.
Definition set_round_robin (x : Z) (q : hvm_irq) : hvm_irq :=
  {| pci_intx := pci_intx q; isa_irq := isa_irq q; route := route q;
     callback_via_asserted := callback_via_asserted q;
     callback_via_type := callback_via_type q; callback_via := callback_via q;
     pci_link_assert_count := pci_link_assert_count q;
     gsi_assert_count := gsi_assert_count q;
     round_robin_prev_vcpu := x |}.

(** ** The domain *)

(** What the interrupt hardware does to the rest of the hypervisor. *)
Inductive apic_event : Type :=
| ApicKick (v : Z)                 (** [vcpu_kick(v)] *)
| ApicUnmask                       (** [pt_may_unmask_irq(d, NULL)] *)
| ApicUnmaskPt (all : bool) (v : Z)
    (** [pt_may_unmask_irq(d, &vlapic->pt)]; with [NULL] for [d] when not [all] *)
| ApicRetarget (v : option Z)      (** [pt_adjust_global_vcpu_target(v)] *)
| ApicPtCreate (v delta period irq : Z)
    (** [create_periodic_time] of the timer of [v] *)
| ApicPtDestroy (v : Z)            (** [destroy_periodic_time] *)
| ApicDown (v : Z)                 (** [hvm_vcpu_down(v)] *)
| ApicPause (v : Z)                (** [vcpu_pause(v)], [vcpu_pause_nosync(v)] *)
| ApicUnpause (v : Z)
| ApicTasklet (v : Z)              (** [init_sipi.tasklet] of [v] is scheduled *)
| ApicVcpuReset (v : Z)            (** the rest of [vcpu_reset(v)] *)
| ApicVcpuStart (v cs : Z)         (** the rest of [hvm_vcpu_reset_state(v, cs, 0)] *)
| ApicMsrChanged (v : Z)           (** [vmx_vlapic_msr_changed(v)] *)
| ApicCrash.                       (** [domain_crash(d)] *)

Record hdom : Type := {
  h_pics : pics;
  h_irq : hvm_irq;
  h_ioapic : hvm_hw_vioapic;
  h_vcpus : list vcpu;             (** the vcpus that exist, by number *)
  h_max_vcpus : Z;                 (** entries of [d->vcpu], 0 when it is NULL *)
  h_log : list apic_event          (** newest first *)
}.

Definition set_pics (p : pics) (h : hdom) : hdom :=
  {| h_pics := p; h_irq := h_irq h; h_ioapic := h_ioapic h; h_vcpus := h_vcpus h;
     h_max_vcpus := h_max_vcpus h; h_log := h_log h |}.
Definition set_irqs (q : hvm_irq) (h : hdom) : hdom :=
  {| h_pics := h_pics h; h_irq := q; h_ioapic := h_ioapic h; h_vcpus := h_vcpus h;
     h_max_vcpus := h_max_vcpus h; h_log := h_log h |}.
Definition set_ioapic (a : hvm_hw_vioapic) (h : hdom) : hdom :=
  {| h_pics := h_pics h; h_irq := h_irq h; h_ioapic := a; h_vcpus := h_vcpus h;
     h_max_vcpus := h_max_vcpus h; h_log := h_log h |}.
Definition set_vcpus (l : list vcpu) (h : hdom) : hdom :=
  {| h_pics := h_pics h; h_irq := h_irq h; h_ioapic := h_ioapic h; h_vcpus := l;
     h_max_vcpus := h_max_vcpus h; h_log := h_log h |}.
Definition set_apic_log (l : list apic_event) (h : hdom) : hdom :=
  {| h_pics := h_pics h; h_irq := h_irq h; h_ioapic := h_ioapic h; h_vcpus := h_vcpus h;
     h_max_vcpus := h_max_vcpus h; h_log := l |}.

Definition on_pics {A} (m : SE pics A) : SE hdom A := zoom h_pics set_pics m.
Definition on_irq (f : hvm_irq -> hvm_irq) : SE hdom unit :=
  modify (fun h => set_irqs (f (h_irq h)) h).
Definition on_ioapic (f : hvm_hw_vioapic -> hvm_hw_vioapic) : SE hdom unit :=
  modify (fun h => set_ioapic (f (h_ioapic h)) h).
Definition apic_emit (e : apic_event) : SE hdom unit :=
  modify (fun h => set_apic_log (e :: h_log h) h).

(** ** Arrays *)

(** [l[i]] *)
Definition elem {A} (l : list A) (i : Z) : SE hdom A :=
  if i <? 0 then bug
  else match l !! Z.to_nat i with Some x => ret x | None => bug end.

Definition upd (i : Z) (x : Z) (l : list Z) : list Z := <[Z.to_nat i := x]> l.

(** The vcpu number [i], which exists. *)
Definition the_vcpu (i : Z) : SE hdom vcpu := l <- gets h_vcpus;; elem l i.
Definition upd_vcpu (i : Z) (f : vcpu -> vcpu) : SE hdom unit :=
  modify (fun h => set_vcpus (alter f (Z.to_nat i) (h_vcpus h)) h).

(** [d->vcpu ? d->vcpu[i] : NULL] *)
Definition vcpu_ptr (i : Z) : SE hdom (option Z) :=
  h <- get;;
  if h_max_vcpus h =? 0 then ret None
  else if (i <? 0) || (h_max_vcpus h <=? i) then bug
  else ret (if i <? zlen (h_vcpus h) then Some i else None).

(** [for_each_vcpu]: the numbers from [i] on, [n] of them. *)
Fixpoint for_vcpus (n : nat) (i : Z) (body : Z -> SE hdom unit) : SE hdom unit :=
  match n with
  | O => ret tt
  | S n => body i;; for_vcpus n (i + 1) body
  end.
Definition for_each_vcpu (body : Z -> SE hdom unit) : SE hdom unit :=
  l <- gets h_vcpus;; for_vcpus (length l) 0 body.
