(* ===== verification/Vlapic.v ===== *)
(** * The virtual local APICs: requests, priorities and destinations

    xen/arch/x86/hvm/vlapic.c: the request, in-service and trigger-mode
    bitmaps, the processor priority, the match of an interrupt's destination,
    the choice of the lowest-priority vcpu, the acceptance of 8259 interrupts
    and the acknowledge of a request. *)

From stdpp Require Import base list numbers.
From Stdlib Require Import ZArith Lia.
From S2P Require Import Prelude Vpic HvmState.

Open Scope Z_scope.
Open Scope se_scope.

(** ** Registers *)

Definition APIC_ID : Z := 0x20.
Definition APIC_TASKPRI : Z := 0x80.
Definition APIC_LDR : Z := 0xD0.
Definition APIC_DFR : Z := 0xE0.
Definition APIC_ISR : Z := 0x100.
Definition APIC_TMR : Z := 0x180.
Definition APIC_IRR : Z := 0x200.
Definition APIC_LVT0 : Z := 0x350.
Definition APIC_DFR_FLAT : Z := 0xFFFFFFFF.
Definition APIC_DFR_CLUSTER : Z := 0x0FFFFFFF.
Definition APIC_DEST_NOSHORT : Z := 0.
Definition APIC_DEST_SELF : Z := 0x40000.
Definition APIC_DEST_ALLINC : Z := 0x80000.
Definition APIC_DEST_ALLBUT : Z := 0xC0000.
Definition APIC_DM_EXTINT : Z := 0x700.
Definition APIC_MODE_MASK : Z := 0x700.
Definition APIC_LVT_MASKED : Z := 0x10000.
Definition UINT_MAX : Z := 2 ^ 32 - 1.

Definition vlapic_get_reg (v : vcpu) (reg : Z) : Z := vl_regs v reg.
Definition vlapic_set_reg (reg val : Z) (v : vcpu) : vcpu :=
  set_vl_regs (fun r => if r =? reg then u32 val else vl_regs v r) v.

(** [GET_xAPIC_ID], [GET_xAPIC_LOGICAL_ID] *)
Definition GET_xAPIC_ID (x : Z) : Z := Z.land (Z.shiftr x 24) 0xFF.
Definition VLAPIC_ID (v : vcpu) : Z := GET_xAPIC_ID (vlapic_get_reg v APIC_ID).
Definition vlapic_hw_disabled (v : vcpu) : bool := Z.testbit (vl_disabled v) 0.
Definition vlapic_enabled (v : vcpu) : bool := vl_disabled v =? 0.
(** [MSR_IA32_APICBASE_EXTD] is bit 10. *)
Definition vlapic_x2apic_mode (v : vcpu) : bool := Z.testbit (vl_apic_base_msr v) 10.

(** ** Bitmaps of vectors *)

Definition VEC_POS (v : Z) : Z := v mod 32.
Definition REG_POS (v : Z) : Z := v / 32 * 0x10.

Definition vlapic_test_vector (vec bitmap : Z) (v : vcpu) : bool :=
  Z.testbit (vlapic_get_reg v (bitmap + REG_POS vec)) (VEC_POS vec).
Definition vlapic_set_vector (vec bitmap : Z) (v : vcpu) : vcpu :=
  vlapic_set_reg (bitmap + REG_POS vec)
    (Z.setbit (vlapic_get_reg v (bitmap + REG_POS vec)) (VEC_POS vec)) v.
Definition vlapic_clear_vector (vec bitmap : Z) (v : vcpu) : vcpu :=
  vlapic_set_reg (bitmap + REG_POS vec)
    (Z.clearbit (vlapic_get_reg v (bitmap + REG_POS vec)) (VEC_POS vec)) v.

(** [fls]: one more than the index of the highest bit that is set. *)
Definition fls (x : Z) : Z := if x =? 0 then 0 else Z.log2 x + 1.

(** The loop of [vlapic_find_highest_vector], from [word_offset = n]. *)
Fixpoint highest_word (word : Z -> Z) (n : nat) : nat :=
  match n with
  | O => O
  | S n => if word (Z.of_nat n) =? 0 then highest_word word n else n
  end.

Definition vlapic_find_highest_vector (bitmap : Z) (v : vcpu) : Z :=
  let word o := vlapic_get_reg v (bitmap + o * 0x10) in
  let word_offset := Z.of_nat (highest_word word 8) in
  fls (word word_offset) - 1 + word_offset * 32.

Definition vlapic_find_highest_irr (v : vcpu) : Z := vlapic_find_highest_vector APIC_IRR v.
Definition vlapic_find_highest_isr (v : vcpu) : Z := vlapic_find_highest_vector APIC_ISR v.

(** [vlapic_set_irq]: was the vector not requested before? *)
Definition vlapic_set_irq (i vec : Z) (trig : bool) : SE hdom bool :=
  v <- the_vcpu i;;
  let r := negb (vlapic_test_vector vec APIC_IRR v) in
  upd_vcpu i (vlapic_set_vector vec APIC_IRR);;
  (if trig then upd_vcpu i (vlapic_set_vector vec APIC_TMR) else ret tt);;
  ret r.

(** ** Priorities *)

Definition vlapic_get_ppr (v : vcpu) : Z :=
  let tpr := vlapic_get_reg v APIC_TASKPRI in
  let isr := vlapic_find_highest_isr v in
  let isrv := if negb (isr =? -1) then isr else 0 in
  if Z.land isrv 0xf0 <=? Z.land tpr 0xf0 then Z.land tpr 0xff else Z.land isrv 0xf0.

(** ** Destinations *)

Definition vlapic_match_logical_addr (v : vcpu) (mda : Z) : bool :=
  if vlapic_x2apic_mode v
  then negb (Z.land (vlapic_get_reg v APIC_LDR) mda =? 0)
  else
    let logical_id := GET_xAPIC_ID (vlapic_get_reg v APIC_LDR) in
    let dfr := vlapic_get_reg v APIC_DFR in
    if dfr =? APIC_DFR_FLAT then negb (Z.land logical_id mda =? 0)
    else if dfr =? APIC_DFR_CLUSTER
    then (Z.shiftr logical_id 4 =? Z.shiftr mda 4) &&
         negb (Z.land (Z.land logical_id mda) 0xf =? 0)
    else false.

(** [vlapic_match_dest]; [target] is the local APIC of vcpu [i], [source] the
    number of the sender's vcpu. *)
Definition vlapic_match_dest (i : Z) (target : vcpu) (source : option Z)
    (short_hand dest : Z) (dest_mode : bool) : bool :=
  let dest := u8 dest in
  if short_hand =? APIC_DEST_NOSHORT then
    if dest_mode then vlapic_match_logical_addr target dest
    else (dest =? 0xFF) || (dest =? VLAPIC_ID target)
  else if short_hand =? APIC_DEST_SELF then bool_decide (source = Some i)
  else if short_hand =? APIC_DEST_ALLINC then true
  else if short_hand =? APIC_DEST_ALLBUT then negb (bool_decide (source = Some i))
  else false.

(** The loop of [vlapic_lowest_prio]: [v] runs from the successor of [old]
    round to [old]; [fits] is the match of the destination.  [None] when the
    [fuel] is used up. *)
Fixpoint lowest_prio_loop (fuel : nat) (l : list vcpu) (fits : Z -> vcpu -> bool)
    (old v : Z) (target : option Z) (target_ppr : Z) : option (option Z) :=
  match fuel with
  | O => None
  | S fuel =>
      let v := if v + 1 <? zlen l then v + 1 else 0 in
      match l !! Z.to_nat v with
      | None => None
      | Some vlapic =>
          let ppr := vlapic_get_ppr vlapic in
          let better := fits v vlapic && vlapic_enabled vlapic && (ppr <? target_ppr) in
          let target := if better then Some v else target in
          let target_ppr := if better then ppr else target_ppr in
          if v =? old then Some target
          else lowest_prio_loop fuel l fits old v target target_ppr
      end
  end.

Definition vlapic_lowest_prio (source : option Z) (short_hand dest : Z)
    (dest_mode : bool) : SE hdom (option Z) :=
  old <- gets (fun h => round_robin_prev_vcpu (h_irq h));;
  p <- vcpu_ptr old;;
  match p with
  | None => ret None
  | Some v =>
      l <- gets h_vcpus;;
      match lowest_prio_loop (length l) l
              (fun i vl => vlapic_match_dest i vl source short_hand dest dest_mode)
              old v None UINT_MAX with
      | None => bug
      | Some None => ret None
      | Some (Some t) => on_irq (set_round_robin (u8 t));; ret (Some t)
      end
  end.

(** ** Interrupts of the 8259s *)

(** Fields of [union vioapic_redir_entry]. *)
Definition rte_vector (e : Z) : Z := Z.land e 0xff.
Definition rte_delivery_mode (e : Z) : Z := Z.land (Z.shiftr e 8) 7.
Definition rte_dest_mode (e : Z) : bool := Z.testbit e 11.
Definition rte_remote_irr (e : Z) : bool := Z.testbit e 14.
Definition rte_trig_mode (e : Z) : bool := Z.testbit e 15.
Definition rte_mask (e : Z) : bool := Z.testbit e 16.
Definition rte_dest_id (e : Z) : Z := Z.land (Z.shiftr e 56) 0xff.
Definition set_delivery_status (b : bool) (e : Z) : Z :=
  if b then Z.setbit e 12 else Z.clearbit e 12.
Definition set_remote_irr (b : bool) (e : Z) : Z :=
  if b then Z.setbit e 14 else Z.clearbit e 14.

Definition dest_Fixed : Z := 0.
Definition dest_LowestPrio : Z := 1.
Definition dest_NMI : Z := 4.
Definition dest_ExtINT : Z := 7.

(** [__vlapic_accept_pic_intr]; [redir0] is the entry of pin 0. *)
Definition accepts_pic_intr (redir0 : Z) (v : vcpu) : bool :=
  let lvt0 := vlapic_get_reg v APIC_LVT0 in
  ((rte_delivery_mode redir0 =? dest_ExtINT) && negb (rte_mask redir0) &&
   (rte_dest_id redir0 =? VLAPIC_ID v) && vlapic_enabled v) ||
  (Z.land lvt0 (Z.lor APIC_MODE_MASK APIC_LVT_MASKED) =? APIC_DM_EXTINT) ||
  vlapic_hw_disabled v.

Definition vlapic_accept_pic_intr (i : Z) : SE hdom bool :=
  h <- get;;
  v <- the_vcpu i;;
  if bool_decide (i8259_target (h_pics h) = Some i) then
    e <- elem (redirtbl (h_ioapic h)) 0;; ret (accepts_pic_intr e v)
  else ret false.

Fixpoint first_accepting (redir0 : Z) (l : list vcpu) (i : Z) : option Z :=
  match l with
  | [] => None
  | v :: l => if accepts_pic_intr redir0 v then Some i else first_accepting redir0 l (i + 1)
  end.

Definition set_i8259_target (t : option Z) (p : pics) : pics :=
  {| pic0 := pic0 p; pic1 := pic1 p; i8259_target := t; pic_log := pic_log p |}.

Definition vlapic_adjust_i8259_target : SE hdom unit :=
  h <- get;;
  e <- elem (redirtbl (h_ioapic h)) 0;;
  v <- match first_accepting e (h_vcpus h) 0 with
       | Some i => ret (Some i)
       | None => vcpu_ptr 0
       end;;
  if bool_decide (i8259_target (h_pics h) = v) then ret tt
  else on_pics (modify (set_i8259_target v));; apic_emit (ApicRetarget v).

(** ** The vcpu's side *)

Definition vlapic_has_pending_irq (v : vcpu) : Z :=
  if negb (vlapic_enabled v) then -1
  else
    let irr := vlapic_find_highest_irr v in
    if irr =? -1 then -1
    else
      let isr := vlapic_find_highest_isr v in
      let isr := if negb (isr =? -1) then isr else 0 in
      if Z.land irr 0xf0 <=? Z.land isr 0xf0 then -1 else irr.

Definition vlapic_ack_pending_irq (i vector : Z) : SE hdom bool :=
  upd_vcpu i (vlapic_set_vector vector APIC_ISR);;
  upd_vcpu i (vlapic_clear_vector vector APIC_IRR);;
  ret true.
