(* ===== verification/Vioapic.v ===== *)
(** * The virtual IO-APIC

    xen/arch/x86/hvm/vioapic.c: the guest's accesses to the registers, the
    delivery of an interrupt to the local APICs, the edges of the pins and the
    end of interrupt; and [vlapic_EOI_set] of vlapic.c, which calls it.
    [pit0] is [pit_channel0_enabled()], the state of a timer. *)

From stdpp Require Import base list numbers.
From Stdlib Require Import ZArith Lia.
From S2P Require Import Prelude Vpic HvmState Vlapic.

Open Scope Z_scope.
Open Scope se_scope.

Definition VIOAPIC_VERSION_ID : Z := 0x11.
Definition VIOAPIC_DEFAULT_BASE_ADDRESS : Z := 0xfec00000.
Definition VIOAPIC_MEM_LENGTH : Z := 0x100.
Definition VIOAPIC_REG_SELECT : Z := 0x00.
Definition VIOAPIC_REG_WINDOW : Z := 0x10.
Definition VIOAPIC_REG_APIC_ID : Z := 0x00.
Definition VIOAPIC_REG_VERSION : Z := 0x01.
Definition VIOAPIC_REG_ARB_ID : Z := 0x02.
Definition VCPUID_ANY : Z := 0xFFFF.

(** [hvm_isa_irq_to_gsi] *)
Definition hvm_isa_irq_to_gsi (isa_irq : Z) : Z := if isa_irq =? 0 then 2 else isa_irq.

(** ** Reading *)

(** [(vioapic->ioregsel - 0x10) >> 1] *)
Definition redir_index (sel : Z) : Z := Z.shiftr (u32 (sel - 0x10)) 1.

Definition vioapic_read_indirect (a : hvm_hw_vioapic) : SE hdom Z :=
  let sel := ioregsel a in
  if sel =? VIOAPIC_REG_VERSION then
    ret (Z.lor (Z.shiftl (Z.land (VIOAPIC_NUM_PINS - 1) 0xff) 16)
               (Z.land VIOAPIC_VERSION_ID 0xff))
  else if (sel =? VIOAPIC_REG_APIC_ID) || (sel =? VIOAPIC_REG_ARB_ID) then
    ret (Z.shiftl (Z.land (ioapic_id a) 0xf) 24)
  else if VIOAPIC_NUM_PINS <=? redir_index sel then ret 0
  else
    redir_content <- elem (redirtbl a) (redir_index sel);;
    ret (if Z.testbit sel 0
         then Z.land (Z.shiftr redir_content 32) 0xffffffff
         else Z.land redir_content 0xffffffff).

Definition vioapic_read (addr : Z) : SE hdom Z :=
  a <- gets h_ioapic;;
  let addr := Z.land addr 0xff in
  if addr =? VIOAPIC_REG_SELECT then ret (u32 (ioregsel a))
  else if addr =? VIOAPIC_REG_WINDOW then
    r <- vioapic_read_indirect a;; ret (u32 r)
  else ret 0.

(** [vioapic_range] *)
Definition vioapic_range (addr : Z) (a : hvm_hw_vioapic) : bool :=
  (base_address a <=? addr) && (addr <? u64 (base_address a + VIOAPIC_MEM_LENGTH)).

(** ** Delivery *)

Definition set_entry (irq : Z) (e : Z) : SE hdom unit :=
  on_ioapic (fun a => set_redirtbl (upd irq e (redirtbl a)) a).

(** [vioapic->redirtbl[irq]] *)
Definition entry (irq : Z) : SE hdom Z :=
  a <- gets h_ioapic;; elem (redirtbl a) irq.

(** [ioapic_inj_irq] *)
Definition ioapic_inj_irq (target vector : Z) (trig_mode : bool) (delivery_mode : Z)
  : SE hdom unit :=
  bug_if (negb ((delivery_mode =? dest_Fixed) || (delivery_mode =? dest_LowestPrio)));;
  r <- vlapic_set_irq target vector trig_mode;;
  when r (apic_emit (ApicKick target)).

(** Does vcpu [i] match the destination of an IO-APIC entry? *)
Definition dest_matches (i dest : Z) (dest_mode : bool) : SE hdom bool :=
  v <- the_vcpu i;; ret (vlapic_match_dest i v None 0 dest dest_mode).

Section Deliver.
Context (pit0 : bool).

(** [vioapic_deliver] *)
Definition vioapic_deliver (irq vcpu_id : Z) : SE hdom unit :=
  e <- entry irq;;
  let dest := rte_dest_id e in
  let dest_mode := rte_dest_mode e in
  let delivery_mode := rte_delivery_mode e in
  let vector := rte_vector e in
  let trig_mode := rte_trig_mode e in
  if delivery_mode =? dest_LowestPrio then
    target <- (if (irq =? hvm_isa_irq_to_gsi 0) && pit0 then vcpu_ptr 0
               else if negb (vcpu_id =? VCPUID_ANY) then vcpu_ptr vcpu_id
               else vlapic_lowest_prio None 0 dest dest_mode);;
    match target with
    | Some t => ioapic_inj_irq t vector trig_mode delivery_mode
    | None => ret tt
    end
  else if delivery_mode =? dest_Fixed then
    if (irq =? hvm_isa_irq_to_gsi 0) && pit0 then
      v <- vcpu_ptr 0;;
      match v with
      | Some t => ioapic_inj_irq t vector trig_mode delivery_mode
      | None => ret tt
      end
    else if negb (vcpu_id =? VCPUID_ANY) then
      vcpu_ptr vcpu_id;; ret tt
    else
      for_each_vcpu (fun v =>
        m <- dest_matches v dest dest_mode;;
        when m (ioapic_inj_irq v vector trig_mode delivery_mode))
  else if delivery_mode =? dest_NMI then
    for_each_vcpu (fun i =>
      m <- dest_matches i dest dest_mode;;
      when m (v <- the_vcpu i;;
              upd_vcpu i (set_nmi_pending true);;
              when (negb (nmi_pending v)) (apic_emit (ApicKick i))))
  else ret tt.

(** [vioapic_irq_positive_edge] *)
Definition vioapic_irq_positive_edge (irq vcpu_id : Z) : SE hdom unit :=
  bug_if (negb (irq <? VIOAPIC_NUM_PINS));;
  e <- entry irq;;
  if rte_mask e then ret tt
  else if negb (rte_trig_mode e) then vioapic_deliver irq vcpu_id
  else set_entry irq (set_remote_irr true e);; vioapic_deliver irq vcpu_id.

(** The body of the loop of [vioapic_update_EOI]. *)
Definition eoi_pin (vector gsi : Z) : SE hdom unit :=
  ent <- entry gsi;;
  if negb (rte_vector ent =? vector) then ret tt
  else
    let ent := set_remote_irr false ent in
    set_entry gsi ent;;
    q <- gets h_irq;;
    n <- elem (gsi_assert_count q) gsi;;
    when (rte_trig_mode ent && negb (rte_mask ent) && negb (n =? 0))
      (set_entry gsi (set_remote_irr true ent);; vioapic_deliver gsi VCPUID_ANY).

Fixpoint eoi_pins (vector : Z) (n : nat) (gsi : Z) : SE hdom unit :=
  match n with
  | O => ret tt
  | S n => eoi_pin vector gsi;; eoi_pins vector n (gsi + 1)
  end.

Definition vioapic_update_EOI (vector : Z) : SE hdom unit :=
  eoi_pins vector (Z.to_nat VIOAPIC_NUM_PINS) 0.

(** [vlapic_EOI_set] of vlapic.c *)
Definition vlapic_EOI_set (i : Z) : SE hdom unit :=
  v <- the_vcpu i;;
  let vector := vlapic_find_highest_isr v in
  if vector =? -1 then ret tt
  else
    upd_vcpu i (vlapic_clear_vector vector APIC_ISR);;
    v <- the_vcpu i;;
    upd_vcpu i (vlapic_clear_vector vector APIC_TMR);;
    when (vlapic_test_vector vector APIC_TMR v) (vioapic_update_EOI vector).

(** ** Writing *)

(** The entry after a write of one of its halves; a low half does not change
    the read-only bits. *)
Definition written_entry (ent : Z) (top_word : bool) (val : Z) : Z :=
  if top_word then Z.lor (u32 ent) (Z.shiftl val 32)
  else
    set_remote_irr (rte_remote_irr ent)
      (set_delivery_status false (Z.lor (Z.shiftl (Z.shiftr ent 32) 32) val)).

Definition vioapic_write_redirent (idx : Z) (top_word : bool) (val : Z) : SE hdom unit :=
  let val := u32 val in
  pent <- entry idx;;
  let ent := written_entry pent top_word val in
  let unmasked := negb top_word && rte_mask pent && negb (rte_mask ent) in
  set_entry idx ent;;
  (if idx =? 0 then vlapic_adjust_i8259_target
   else if negb (rte_trig_mode ent) then set_entry idx (set_remote_irr false ent)
   else
     q <- gets h_irq;;
     n <- elem (gsi_assert_count q) idx;;
     when (negb (rte_mask ent) && negb (rte_remote_irr ent) && negb (n =? 0))
       (set_entry idx (set_remote_irr true ent);; vioapic_deliver idx VCPUID_ANY));;
  when ((idx =? 0) || unmasked) (apic_emit ApicUnmask).

Definition vioapic_write_indirect (val : Z) : SE hdom unit :=
  a <- gets h_ioapic;;
  let sel := ioregsel a in
  if sel =? VIOAPIC_REG_VERSION then ret tt
  else if sel =? VIOAPIC_REG_APIC_ID then
    on_ioapic (set_ioapic_id (Z.land (Z.shiftr val 24) 0xf))
  else if sel =? VIOAPIC_REG_ARB_ID then ret tt
  else if VIOAPIC_NUM_PINS <=? redir_index sel then ret tt
  else vioapic_write_redirent (redir_index sel) (Z.testbit sel 0) val.

Definition vioapic_write (addr val : Z) : SE hdom unit :=
  let addr := Z.land addr 0xff in
  if addr =? VIOAPIC_REG_SELECT then on_ioapic (set_ioregsel (u32 val))
  else if addr =? VIOAPIC_REG_WINDOW then vioapic_write_indirect val
  else ret tt.
End Deliver.

(** [vioapic_reset] *)
Definition vioapic_reset : SE hdom unit :=
  on_ioapic (fun _ =>
    {| base_address := VIOAPIC_DEFAULT_BASE_ADDRESS; ioregsel := 0; ioapic_id := 0;
       redirtbl := replicate (Z.to_nat VIOAPIC_NUM_PINS) (Z.setbit 0 16) |}).
