(* ===== verification/HvmIrq.v ===== *)
(** * Distribution of the interrupt wires

    xen/arch/x86/hvm/irq.c, as built for uXen: the wires of the PCI bus and of
    the ISA devices, the PCI-ISA router, the callback interrupt, and the
    interrupt a vcpu takes next.  [pit0] as in Vioapic; [dpci] is NULL (no
    devices are passed through). *)

From stdpp Require Import base list numbers.
From Stdlib Require Import ZArith Lia.
From S2P Require Import Prelude Vpic HvmState Vlapic Vioapic.

Open Scope Z_scope.
Open Scope se_scope.

(** ** Wiring *)

Definition hvm_pci_intx_gsi (dev intx : Z) : Z :=
  Z.land (Z.shiftl dev 2 + Z.shiftr dev 3 + intx) 31 + 16.
Definition hvm_pci_intx_link (dev intx : Z) : Z := Z.land (dev + intx) 3.

(** [gsi_assert_count[gsi]++], giving the old value, and [--], the new one;
    the counters are bytes. *)
Definition gsi_inc (gsi : Z) : SE hdom Z :=
  q <- gets h_irq;;
  n <- elem (gsi_assert_count q) gsi;;
  on_irq (fun q => set_gsi_counts (upd gsi (u8 (n + 1)) (gsi_assert_count q)) q);;
  ret n.
Definition gsi_dec (gsi : Z) : SE hdom Z :=
  q <- gets h_irq;;
  n <- elem (gsi_assert_count q) gsi;;
  on_irq (fun q => set_gsi_counts (upd gsi (u8 (n - 1)) (gsi_assert_count q)) q);;
  ret (u8 (n - 1)).
Definition link_inc (link : Z) : SE hdom Z :=
  q <- gets h_irq;;
  n <- elem (pci_link_assert_count q) link;;
  on_irq (fun q => set_link_counts (upd link (u8 (n + 1)) (pci_link_assert_count q)) q);;
  ret n.
Definition link_dec (link : Z) : SE hdom Z :=
  q <- gets h_irq;;
  n <- elem (pci_link_assert_count q) link;;
  on_irq (fun q => set_link_counts (upd link (u8 (n - 1)) (pci_link_assert_count q)) q);;
  ret (u8 (n - 1)).

Section Irq.
Context (pit0 : bool).

Definition assert_gsi (ioapic_gsi vcpu_id : Z) : SE hdom unit :=
  vioapic_irq_positive_edge pit0 ioapic_gsi vcpu_id.

Definition assert_irq (ioapic_gsi pic_irq vcpu_id : Z) : SE hdom unit :=
  assert_gsi ioapic_gsi vcpu_id;;
  on_pics (vpic_irq_positive_edge pic_irq).

Definition deassert_irq (isa_irq : Z) : SE hdom unit :=
  on_pics (vpic_irq_negative_edge isa_irq).

(** ** PCI wires *)

(** [__hvm_pci_intx_assert] *)
Definition hvm_pci_intx_assert (device intx : Z) : SE hdom unit :=
  bug_if (negb ((device <=? 31) && (intx <=? 3)));;
  q <- gets h_irq;;
  let bit := device * 4 + intx in
  if Z.testbit (pci_intx q) bit then ret tt
  else
    on_irq (fun q => set_pci_intx (Z.setbit (pci_intx q) bit) q);;
    let gsi := hvm_pci_intx_gsi device intx in
    n <- gsi_inc gsi;;
    when (n =? 0) (assert_gsi gsi VCPUID_ANY);;
    let link := hvm_pci_intx_link device intx in
    q <- gets h_irq;;
    isa_irq <- elem (route q) link;;
    n <- link_inc link;;
    when ((n =? 0) && negb (isa_irq =? 0))
      (n <- gsi_inc isa_irq;;
       when (n =? 0) (assert_irq isa_irq isa_irq VCPUID_ANY)).

(** [__hvm_pci_intx_deassert] *)
Definition hvm_pci_intx_deassert (device intx : Z) : SE hdom unit :=
  bug_if (negb ((device <=? 31) && (intx <=? 3)));;
  q <- gets h_irq;;
  let bit := device * 4 + intx in
  if negb (Z.testbit (pci_intx q) bit) then ret tt
  else
    on_irq (fun q => set_pci_intx (Z.clearbit (pci_intx q) bit) q);;
    let gsi := hvm_pci_intx_gsi device intx in
    gsi_dec gsi;;
    let link := hvm_pci_intx_link device intx in
    q <- gets h_irq;;
    isa_irq <- elem (route q) link;;
    n <- link_dec link;;
    when ((n =? 0) && negb (isa_irq =? 0))
      (n <- gsi_dec isa_irq;;
       when (n =? 0) (deassert_irq isa_irq)).

(** ** ISA wires *)

Definition hvm_isa_irq_assert_to_cpu (irq vcpu_id : Z) : SE hdom unit :=
  let gsi := hvm_isa_irq_to_gsi irq in
  bug_if (negb (irq <=? 15));;
  q <- gets h_irq;;
  if Z.testbit (isa_irq q) irq then ret tt
  else
    on_irq (fun q => set_isa_irq (Z.setbit (isa_irq q) irq) q);;
    n <- gsi_inc gsi;;
    when (n =? 0) (assert_irq gsi irq vcpu_id).

Definition hvm_isa_irq_assert (irq : Z) : SE hdom unit :=
  hvm_isa_irq_assert_to_cpu irq VCPUID_ANY.

Definition hvm_isa_irq_deassert (irq : Z) : SE hdom unit :=
  let gsi := hvm_isa_irq_to_gsi irq in
  bug_if (negb (irq <=? 15));;
  q <- gets h_irq;;
  if negb (Z.testbit (isa_irq q) irq) then ret tt
  else
    on_irq (fun q => set_isa_irq (Z.clearbit (isa_irq q) irq) q);;
    n <- gsi_dec gsi;;
    when (n =? 0) (deassert_irq irq).

(** ** The PCI-ISA router *)

Definition hvm_set_pci_link_route (link irq : Z) : SE hdom unit :=
  bug_if (negb ((link <=? 3) && (irq <=? 15)));;
  q <- gets h_irq;;
  old_isa_irq <- elem (route q) link;;
  if old_isa_irq =? irq then ret tt
  else
    on_irq (fun q => set_route (upd link irq (route q)) q);;
    n <- elem (pci_link_assert_count q) link;;
    if n =? 0 then ret tt
    else
      when (negb (old_isa_irq =? 0))
        (n <- gsi_dec old_isa_irq;;
         when (n =? 0) (on_pics (vpic_irq_negative_edge old_isa_irq)));;
      when (negb (irq =? 0))
        (n <- gsi_inc irq;;
         when (n =? 0)
           (vioapic_irq_positive_edge pit0 irq VCPUID_ANY;;
            on_pics (vpic_irq_positive_edge irq))).

(** ** The callback interrupt *)

(** The members [pci.dev] and [pci.intx] of the union. *)
Definition via_dev (c : Z) : Z := c mod 256.
Definition via_intx (c : Z) : Z := c / 256 mod 256.
Definition set_via_pci (dev intx c : Z) : Z := dev + 256 * intx + 65536 * (c / 65536).

Definition via_type_of (via : Z) : callback_type :=
  let via_type := u8 (u8 (Z.shiftr via 56) + 1) in
  if (via_type =? 1) && (via =? 0) then HVMIRQ_callback_none
  else if via_type =? 1 then HVMIRQ_callback_gsi
  else if via_type =? 2 then HVMIRQ_callback_pci_intx
  else if via_type =? 3 then HVMIRQ_callback_vector
  else HVMIRQ_callback_none.

(** [Tear down old callback via.] *)
Definition callback_teardown : SE hdom unit :=
  q <- gets h_irq;;
  when (callback_via_asserted q)
    match callback_via_type q with
    | HVMIRQ_callback_gsi =>
        let gsi := callback_via q in
        n <- gsi_dec gsi;;
        when ((n =? 0) && (gsi <=? 15)) (on_pics (vpic_irq_negative_edge gsi))
    | HVMIRQ_callback_pci_intx =>
        hvm_pci_intx_deassert (via_dev (callback_via q)) (via_intx (callback_via q))
    | _ => ret tt
    end.

(** [Set up new callback via.] *)
Definition callback_setup (via : Z) : SE hdom unit :=
  q <- gets h_irq;;
  match via_type_of via with
  | HVMIRQ_callback_gsi =>
      let gsi := u8 via in
      if (gsi =? 0) || (VIOAPIC_NUM_PINS <=? gsi)
      then on_irq (set_callback HVMIRQ_callback_none gsi)
      else
        on_irq (set_callback HVMIRQ_callback_gsi gsi);;
        when (callback_via_asserted q)
          (n <- gsi_inc gsi;;
           when (n =? 0)
             (vioapic_irq_positive_edge pit0 gsi VCPUID_ANY;;
              when (gsi <=? 15) (on_pics (vpic_irq_positive_edge gsi))))
  | HVMIRQ_callback_pci_intx =>
      let pdev := Z.land (u8 (Z.shiftr via 11)) 31 in
      let pintx := Z.land (u8 via) 3 in
      on_irq (fun q => set_callback HVMIRQ_callback_pci_intx
                         (set_via_pci pdev pintx (callback_via q)) q);;
      when (callback_via_asserted q) (hvm_pci_intx_assert pdev pintx)
  | HVMIRQ_callback_vector => on_irq (set_callback HVMIRQ_callback_vector (u8 via))
  | HVMIRQ_callback_none =>
      on_irq (fun q => set_callback HVMIRQ_callback_none (callback_via q) q)
  end.

Definition hvm_set_callback_via (via : Z) : SE hdom unit :=
  callback_teardown;; callback_setup via.

(** ** The interrupt a vcpu takes *)

Inductive hvm_intack : Type :=
| intack_none
| intack_pic (vector : Z)
| intack_lapic (vector : Z)
| intack_nmi
| intack_mce
| intack_vector (vector : Z).

Definition hvm_vcpu_has_pending_irq (i : Z) : SE hdom hvm_intack :=
  v <- the_vcpu i;;
  q <- gets h_irq;;
  if bool_decide (callback_via_type q = HVMIRQ_callback_vector) && evtchn_upcall_pending v
  then ret (intack_vector (u8 (callback_via q)))
  else if nmi_pending v then ret intack_nmi
  else if mce_pending v then ret intack_mce
  else
    accept <- vlapic_accept_pic_intr i;;
    p <- gets h_pics;;
    if accept && int_output (pic0 p) then ret (intack_pic 0)
    else
      let vector := vlapic_has_pending_irq v in
      if negb (vector =? -1) then ret (intack_lapic (u8 vector)) else ret intack_none.

Definition hvm_vcpu_ack_pending_irq (i : Z) (intack : hvm_intack) : SE hdom hvm_intack :=
  v <- the_vcpu i;;
  match intack with
  | intack_nmi =>
      upd_vcpu i (set_nmi_pending false);;
      ret (if nmi_pending v then intack else intack_none)
  | intack_mce =>
      upd_vcpu i (set_mce_pending false);;
      ret (if mce_pending v then intack else intack_none)
  | intack_pic _ =>
      accept <- vlapic_accept_pic_intr i;;
      vector <- on_pics (vpic_ack_pending_irq accept);;
      ret (if vector =? -1 then intack_none else intack_pic (u8 vector))
  | intack_lapic vector =>
      r <- vlapic_ack_pending_irq i vector;;
      ret (if (r : bool) then intack else intack_none)
  | intack_vector _ => ret intack
  | intack_none => ret intack_none
  end.
End Irq.
