(* ===== verification/VioapicInv.v ===== *)
(** * Lemmas on the local APIC

    The bitmaps of vectors as sets, the highest vector of a bitmap, and the
    relation of a local APIC to one that has received more requests. *)

From stdpp Require Import base list numbers.
From Stdlib Require Import ZArith Lia Bool.
From S2P Require Import Prelude Vpic VpicInv HvmState Vlapic Vioapic.

Open Scope Z_scope.
Open Scope se_scope.

Implicit Types v : vcpu.

(** ** Bits of registers *)

Lemma u32_bit x j : 0 <= j < 32 -> Z.testbit (u32 x) j = Z.testbit x j.
Proof. intros ?. apply Z.mod_pow2_bits_low. lia. Qed.

(** A bit changed within [n] bits. *)
Lemma setbit_fit w b n : 0 <= b < n -> 0 <= w < 2 ^ n -> 0 <= Z.setbit w b < 2 ^ n.
Proof.
  intros Hb [H0 H1]. assert (0 <= Z.setbit w b) as Hs
    by (unfold Z.setbit; apply Z.lor_nonneg; split; [done|apply Z.shiftl_nonneg; lia]).
  split; [done|]. apply Z.bounded_iff_bits_nonneg; [lia|done|]. intros l Hl.
  rewrite Z.setbit_neq by lia. revert l Hl. apply Z.bounded_iff_bits_nonneg; [lia|done|done].
Qed.
Lemma clearbit_fit w b n : 0 <= b < n -> 0 <= w < 2 ^ n -> 0 <= Z.clearbit w b < 2 ^ n.
Proof.
  intros Hb [H0 H1]. assert (0 <= Z.clearbit w b) as Hs
    by (unfold Z.clearbit; apply Z.ldiff_nonneg; by left).
  split; [done|]. apply Z.bounded_iff_bits_nonneg; [lia|done|]. intros l Hl.
  rewrite Z.clearbit_neq by lia. revert l Hl. apply Z.bounded_iff_bits_nonneg; [lia|done|done].
Qed.

Lemma get_set_reg v r x r' :
  vlapic_get_reg (vlapic_set_reg r x v) r' = if r' =? r then u32 x else vlapic_get_reg v r'.
Proof. done. Qed.

Lemma vec_pos_bound vec : 0 <= VEC_POS vec < 32.
Proof. apply Z.mod_pos_bound. lia. Qed.

Lemma reg_pos_bound vec : 0 <= vec < 256 -> 0 <= REG_POS vec < 0x80.
Proof. intros ?. unfold REG_POS. zlia. Qed.

(** Two vectors with the same register and position are the same. *)
Lemma vec_split vec vec' : REG_POS vec = REG_POS vec' -> VEC_POS vec = VEC_POS vec' -> vec = vec'.
Proof. unfold REG_POS, VEC_POS. intros ??. zlia. Qed.

Section Vectors.
Context (bm vec : Z).

Lemma test_set_vector vec' v : vlapic_test_vector vec' bm (vlapic_set_vector vec bm v) =
  (vec' =? vec) || vlapic_test_vector vec' bm v.
Proof.
  unfold vlapic_test_vector, vlapic_set_vector. rewrite get_set_reg.
  pose proof (vec_pos_bound vec). pose proof (vec_pos_bound vec').
  destruct (Z.eqb_spec vec' vec) as [->|Hne].
  - by rewrite Z.eqb_refl, u32_bit, Z.setbit_eq by lia.
  - simpl. destruct (Z.eqb_spec (bm + REG_POS vec') (bm + REG_POS vec)) as [Hr|]; [|done].
    rewrite u32_bit, Hr by lia. apply Z.setbit_neq; [lia|].
    intros Hp. apply Hne, vec_split; [lia|done].
Qed.

Lemma test_clear_vector vec' v : vlapic_test_vector vec' bm (vlapic_clear_vector vec bm v) =
  negb (vec' =? vec) && vlapic_test_vector vec' bm v.
Proof.
  unfold vlapic_test_vector, vlapic_clear_vector. rewrite get_set_reg.
  pose proof (vec_pos_bound vec). pose proof (vec_pos_bound vec').
  destruct (Z.eqb_spec vec' vec) as [->|Hne].
  - by rewrite Z.eqb_refl, u32_bit, Z.clearbit_eq by lia.
  - simpl. destruct (Z.eqb_spec (bm + REG_POS vec') (bm + REG_POS vec)) as [Hr|]; [|done].
    rewrite u32_bit, Hr by lia. apply Z.clearbit_neq.
    intros Hp. apply Hne, vec_split; [lia|done].
Qed.

(** Another bitmap is not affected. *)
Lemma test_set_other vec' bm' v : 0 <= vec < 256 -> 0 <= vec' < 256 ->
  bm' + 0x80 <= bm \/ bm + 0x80 <= bm' ->
  vlapic_test_vector vec' bm' (vlapic_set_vector vec bm v) = vlapic_test_vector vec' bm' v.
Proof.
  intros H1 H2 H3. unfold vlapic_test_vector, vlapic_set_vector. rewrite get_set_reg.
  pose proof (reg_pos_bound vec H1). pose proof (reg_pos_bound vec' H2).
  by rewrite (proj2 (Z.eqb_neq _ _)) by lia.
Qed.
Lemma test_clear_other vec' bm' v : 0 <= vec < 256 -> 0 <= vec' < 256 ->
  bm' + 0x80 <= bm \/ bm + 0x80 <= bm' ->
  vlapic_test_vector vec' bm' (vlapic_clear_vector vec bm v) = vlapic_test_vector vec' bm' v.
Proof.
  intros H1 H2 H3. unfold vlapic_test_vector, vlapic_clear_vector. rewrite get_set_reg.
  pose proof (reg_pos_bound vec H1). pose proof (reg_pos_bound vec' H2).
  by rewrite (proj2 (Z.eqb_neq _ _)) by lia.
Qed.
End Vectors.

(** ** The highest vector *)

(** The registers hold 32 bits. *)
Definition regs_ok v : Prop := forall r, 0 <= vl_regs v r < 2 ^ 32.

Lemma regs_ok_set r x v : regs_ok v -> regs_ok (vlapic_set_reg r x v).
Proof.
  intros H r'. change (0 <= vlapic_get_reg (vlapic_set_reg r x v) r' < 2 ^ 32).
  rewrite get_set_reg. case_match; [|apply H]. unfold u32. apply Z.mod_pos_bound. lia.
Qed.

(** No vector of words [lo] to [n - 1] is set. *)
Lemma highest_word_spec word n :
  let k := highest_word word n in
  (k <= Nat.pred n)%nat /\ (forall j, (k < j < n)%nat -> word (Z.of_nat j) = 0) /\
  (word (Z.of_nat k) = 0 -> forall j, (j < n)%nat -> word (Z.of_nat j) = 0) /\
  (k = 0%nat \/ word (Z.of_nat k) <> 0).
Proof.
  induction n as [|n IH]; cbv zeta in *; simpl.
  { split; [lia|]. split; [intros; lia|]. split; [intros; lia|by left]. }
  destruct (Z.eqb_spec (word (Z.of_nat n)) 0) as [H0|H0].
  - destruct IH as (H1 & H2 & H3 & H4). split; [lia|]. split; [|split; [|done]].
    + intros j Hj. destruct (decide (j = n)) as [->|]; [done|]. apply H2. lia.
    + intros H j Hj. destruct (decide (j = n)) as [->|]; [done|]. apply H3; [done|lia].
  - split; [lia|]. split; [intros; lia|]. split; [done|by right].
Qed.

Lemma no_bit_above x j : 0 <= x -> fls x <= j -> Z.testbit x j = false.
Proof.
  unfold fls. intros Hx. destruct (Z.eqb_spec x 0) as [->|]; [intros; apply Z.bits_0|].
  intros ?. apply Z.bits_above_log2; lia.
Qed.

Lemma test_vector_word v bm vec :
  vlapic_test_vector vec bm v = Z.testbit (vlapic_get_reg v (bm + vec / 32 * 0x10)) (vec mod 32).
Proof. done. Qed.

(** [vlapic_find_highest_vector] gives the largest element of the bitmap, or
    [-1] for an empty one. *)
Lemma find_highest_spec bm v : regs_ok v ->
  let r := vlapic_find_highest_vector bm v in
  (r = -1 /\ forall vec, 0 <= vec < 256 -> vlapic_test_vector vec bm v = false) \/
  (0 <= r < 256 /\ vlapic_test_vector r bm v = true /\
   forall vec, r < vec < 256 -> vlapic_test_vector vec bm v = false).
Proof.
  intros Hr. cbv zeta. set (word := fun o => vlapic_get_reg v (bm + o * 0x10)).
  assert (vlapic_find_highest_vector bm v = fls (word (Z.of_nat (highest_word word 8))) - 1 +
            Z.of_nat (highest_word word 8) * 32) as -> by done.
  destruct (highest_word_spec word 8) as (H1 & H2 & H3 & H4). cbv zeta in *.
  set (k := highest_word word 8) in *. change (Nat.pred 8) with 7%nat in H1.
  assert (forall vec, 0 <= vec < 256 -> vlapic_test_vector vec bm v =
            Z.testbit (word (Z.of_nat (Z.to_nat (vec / 32)))) (vec mod 32)) as Hw.
  { intros vec Hvec. unfold word. rewrite Z2Nat.id by zlia. done. }
  assert (0 <= word (Z.of_nat k) < 2 ^ 32) as Hk by apply Hr.
  unfold fls. destruct (Z.eqb_spec (word (Z.of_nat k)) 0) as [H0|H0].
  - left. destruct H4 as [Hk0|]; [|done].
    split; [rewrite Hk0; lia|]. intros vec Hvec. rewrite Hw, H3, Z.bits_0 by (done || zlia). done.
  - right. assert (0 <= Z.log2 (word (Z.of_nat k)) < 32) as Hl.
    { split; [apply Z.log2_nonneg|]. apply Z.log2_lt_pow2; lia. }
    set (b := Z.log2 _) in *. replace (b + 1 - 1 + Z.of_nat k * 32) with (Z.of_nat k * 32 + b) by lia.
    assert ((Z.of_nat k * 32 + b) / 32 = Z.of_nat k /\ (Z.of_nat k * 32 + b) mod 32 = b) as [D1 D2].
    { split; symmetry; [apply (Z.div_unique _ _ _ b)|apply (Z.mod_unique _ _ (Z.of_nat k))]; lia. }
    split; [lia|]. split.
    + rewrite Hw, D1, D2, Nat2Z.id by lia. apply Z.bit_log2. lia.
    + intros vec Hvec. rewrite Hw by lia. pose proof (Z.div_mod vec 32 ltac:(lia)) as Hd.
      pose proof (Z.mod_pos_bound vec 32 ltac:(lia)) as Hm.
      destruct (decide (Z.to_nat (vec / 32) = k)) as [He|Hne].
      * rewrite He. apply Z.bits_above_log2; [lia|]. fold b. lia.
      * rewrite H2, Z.bits_0; [done|]. lia.
Qed.

(** ** More requests *)

(** [v'] is [v] with more vectors requested. *)
Record grown v v' : Prop := {
  gr_regs : forall r, r < APIC_TMR \/ APIC_IRR + 0x80 <= r -> vl_regs v' r = vl_regs v r;
  gr_irr : forall vec, 0 <= vec < 256 ->
    vlapic_test_vector vec APIC_IRR v = true -> vlapic_test_vector vec APIC_IRR v' = true;
  gr_disabled : vl_disabled v' = vl_disabled v;
  gr_base : vl_apic_base_msr v' = vl_apic_base_msr v;
  gr_ok : regs_ok v -> regs_ok v'
}.

#[export] Instance grown_preorder : PreOrder grown.
Proof.
  split; [by intros v; split|]. intros v1 v2 v3 [A1 A2 A3 A4 A5] [B1 B2 B3 B4 B5].
  split; [|auto|congruence|congruence|auto]. intros r Hr. rewrite B1, A1; auto.
Qed.

Lemma grown_set_vector vec bm v : 0 <= vec < 256 -> bm = APIC_IRR \/ bm = APIC_TMR ->
  grown v (vlapic_set_vector vec bm v).
Proof.
  intros Hv Hbm. pose proof (reg_pos_bound vec Hv).
  split; [| |done|done|intros ?; by apply regs_ok_set].
  - intros r Hr. change (vlapic_get_reg (vlapic_set_vector vec bm v) r = vl_regs v r).
    unfold vlapic_set_vector. rewrite get_set_reg.
    rewrite (proj2 (Z.eqb_neq _ _)); [done|]. unfold APIC_TMR, APIC_IRR in *. lia.
  - intros vec' Hv' Ht. destruct Hbm as [-> | ->].
    + rewrite test_set_vector, Ht. apply orb_true_r.
    + rewrite test_set_other; [done|lia|lia|]. unfold APIC_TMR, APIC_IRR. lia.
Qed.

(** The match of a destination only looks at registers that stay. *)
Lemma grown_match i v v' source sh dest dm : grown v v' ->
  vlapic_match_dest i v' source sh dest dm = vlapic_match_dest i v source sh dest dm.
Proof.
  intros [Hr _ _ Hb _]. unfold vlapic_match_dest, vlapic_match_logical_addr, VLAPIC_ID,
    vlapic_x2apic_mode, vlapic_get_reg.
  rewrite Hb, !Hr; [done|..]; unfold APIC_TMR, APIC_IRR, APIC_LDR, APIC_DFR, APIC_ID; lia.
Qed.

(** * The delivery of an IO-APIC interrupt

    What a delivery leaves as it was, whom it reaches, and that it always
    ends. *)

(** ** Well-formed hardware *)

Record hw_ok (h : hdom) : Prop := {
  hw_pics : pics_ok (h_pics h);
  hw_pins : length (redirtbl (h_ioapic h)) = 48%nat;
  hw_bits : Forall (fun e => 0 <= e < 2 ^ 64) (redirtbl (h_ioapic h));
  hw_vcpus : zlen (h_vcpus h) <= h_max_vcpus h <= 128;
  hw_robin : 0 <= round_robin_prev_vcpu (h_irq h) /\
             (h_max_vcpus h = 0 \/ round_robin_prev_vcpu (h_irq h) < h_max_vcpus h);
  hw_regs : Forall regs_ok (h_vcpus h)
}.

(** What a delivery does not change: only local APICs, the round robin and the
    log do. *)
Record delivery (h h' : hdom) : Prop := {
  dl_pics : h_pics h' = h_pics h;
  dl_irq : h_irq h' = set_round_robin (round_robin_prev_vcpu (h_irq h')) (h_irq h);
  dl_ioapic : h_ioapic h' = h_ioapic h;
  dl_vcpus : length (h_vcpus h') = length (h_vcpus h);
  dl_max : h_max_vcpus h' = h_max_vcpus h;
  dl_grown : forall i v, h_vcpus h !! i = Some v ->
    exists v', h_vcpus h' !! i = Some v' /\ grown v v'
}.

Lemma set_round_robin_same q : q = set_round_robin (round_robin_prev_vcpu q) q.
Proof. by destruct q. Qed.

#[export] Instance delivery_preorder : PreOrder delivery.
Proof.
  split.
  - intros h. split; try done; [apply set_round_robin_same|].
    intros i v Hv. exists v. by split.
  - intros h1 h2 h3 [A1 A2 A3 A4 A5 A6] [B1 B2 B3 B4 B5 B6]. split; try congruence.
    + rewrite B2 at 1. rewrite A2. done.
    + intros i v Hv. destruct (A6 i v Hv) as (v1 & H1 & ?). destruct (B6 i v1 H1) as (v2 & H2 & ?).
      exists v2. split; [done|by etrans].
Qed.

(** ** Steps *)

Lemma wp_elem {A} (l : list A) i (Q : A -> hdom -> Prop) h x :
  0 <= i -> l !! Z.to_nat i = Some x -> Q x h -> wp (elem l i) Q h.
Proof. intros Hi Hx HQ. unfold elem. rewrite (proj2 (Z.ltb_ge i 0)), Hx by done. done. Qed.

Lemma lookup_Z {A} (l : list A) i : 0 <= i < zlen l -> is_Some (l !! Z.to_nat i).
Proof. intros Hi. apply lookup_lt_is_Some_2. unfold zlen in Hi. lia. Qed.

Lemma wp_the_vcpu i (Q : vcpu -> hdom -> Prop) h v :
  0 <= i -> h_vcpus h !! Z.to_nat i = Some v -> Q v h -> wp (the_vcpu i) Q h.
Proof. intros ???. apply wp_bind, wp_gets. by eapply wp_elem. Qed.

Lemma wp_entry irq (Q : Z -> hdom -> Prop) h e :
  0 <= irq -> redirtbl (h_ioapic h) !! Z.to_nat irq = Some e -> Q e h -> wp (entry irq) Q h.
Proof. intros ???. apply wp_bind, wp_gets. by eapply wp_elem. Qed.

Lemma wp_vcpu_ptr i (Q : option Z -> hdom -> Prop) h :
  h_max_vcpus h = 0 \/ 0 <= i < h_max_vcpus h -> zlen (h_vcpus h) <= h_max_vcpus h ->
  Q (if (0 <=? i) && (i <? zlen (h_vcpus h)) then Some i else None) h -> wp (vcpu_ptr i) Q h.
Proof.
  intros Hi Hl HQ. apply wp_bind, wp_get. pose proof (zlen_nonneg (h_vcpus h)).
  destruct (Z.eqb_spec (h_max_vcpus h) 0) as [H0|H0].
  - apply wp_ret. rewrite (proj2 (andb_false_iff _ _)) in HQ; [done|].
    destruct (Z.leb_spec 0 i), (Z.ltb_spec i (zlen (h_vcpus h))); auto. lia.
  - destruct Hi as [Hi|Hi]; [done|].
    rewrite (proj2 (Z.ltb_ge i 0)), (proj2 (Z.leb_gt (h_max_vcpus h) i)) by lia. simpl.
    apply wp_ret. by rewrite (proj2 (Z.leb_le 0 i)) in HQ by lia.
Qed.

(** ** Injection *)

Definition injected (vec : Z) (trig : bool) (v : vcpu) : vcpu :=
  let v := vlapic_set_vector vec APIC_IRR v in
  if trig then vlapic_set_vector vec APIC_TMR v else v.

Definition kick_if (b : bool) (i : Z) (l : list apic_event) : list apic_event :=
  if b then ApicKick i :: l else l.

(** The domain after an injection into vcpu [i], [v] before. *)
Definition after_inj (i vec : Z) (trig : bool) (v : vcpu) (h : hdom) : hdom :=
  set_apic_log (kick_if (negb (vlapic_test_vector vec APIC_IRR v)) i (h_log h))
    (set_vcpus (alter (injected vec trig) (Z.to_nat i) (h_vcpus h)) h).

Lemma inj_eq i vec trig mode h v :
  0 <= i -> h_vcpus h !! Z.to_nat i = Some v -> mode = dest_Fixed \/ mode = dest_LowestPrio ->
  ioapic_inj_irq i vec trig mode h = (after_inj i vec trig v h, Ok tt).
Proof.
  intros Hi Hv Hm. unfold ioapic_inj_irq, bind at 1.
  assert (negb ((mode =? dest_Fixed) || (mode =? dest_LowestPrio)) = false) as ->
    by (by destruct Hm as [-> | ->]).
  cbn [bug_if]. unfold ret at 1. unfold vlapic_set_irq, the_vcpu, elem.
  cbv [bind gets]. rewrite (proj2 (Z.ltb_ge i 0)), Hv by done. cbv [ret upd_vcpu modify].
  unfold after_inj, injected, kick_if, when, apic_emit, modify, ret. cbv zeta.
  destruct trig, (vlapic_test_vector vec APIC_IRR v); cbn [negb h_vcpus set_vcpus];
    rewrite ?list_alter_alter_eq; done.
Qed.

Lemma grown_injected vec trig v : 0 <= vec < 256 -> grown v (injected vec trig v).
Proof.
  intros Hv. unfold injected. cbv zeta. pose proof (grown_set_vector vec APIC_IRR v Hv (or_introl eq_refl)).
  destruct trig; [|done]. etrans; [done|]. apply grown_set_vector; auto.
Qed.

(** A change of one vcpu to one that has grown, and of the log. *)
Lemma delivery_alter h f i l : (forall v, grown v (f v)) ->
  delivery h (set_apic_log l (set_vcpus (alter f (Z.to_nat i) (h_vcpus h)) h)).
Proof.
  intros Hf. split; try done; [apply set_round_robin_same|apply length_alter|].
  intros j v Hj. simpl. rewrite list_lookup_alter. case_decide as Hd; [|exists v; by split].
  subst j. rewrite Hj. exists (f v). by split.
Qed.

Lemma after_inj_delivery i vec trig v h : 0 <= vec < 256 -> delivery h (after_inj i vec trig v h).
Proof. intros Hv. apply delivery_alter. intros v'. by apply grown_injected. Qed.

Lemma rte_vector_bound e : 0 <= rte_vector e < 256.
Proof.
  unfold rte_vector. change 0xff with (Z.ones 8). rewrite Z.land_ones by lia.
  apply (Z.mod_pos_bound e (2 ^ 8)). lia.
Qed.

Lemma delivery_ok h h' : hw_ok h -> delivery h h' ->
  round_robin_prev_vcpu (h_irq h') = round_robin_prev_vcpu (h_irq h) -> hw_ok h'.
Proof.
  intros [A1 A2 A3 A4 A5 A6] [B1 B2 B3 B4 B5 B6] Hr.
  split; rewrite ?B1, ?B3, ?B5, ?Hr; try done; [unfold zlen; by rewrite B4|].
  apply Forall_lookup_2. intros i v' Hv'. apply lookup_lt_Some in Hv' as Hl. rewrite B4 in Hl.
  apply lookup_lt_is_Some_2 in Hl as [v Hv]. destruct (B6 i v Hv) as (v1 & H1 & Hg). simplify_eq.
  apply (gr_ok _ _ Hg). by apply (Forall_lookup_1 _ _ _ _ A6 Hv).
Qed.

(** ** The lowest-priority vcpu *)

(** The steps from [v] to [old] round the list. *)
Definition steps_to (n old v : Z) : Z := if v <? old then old - v else n - v + old.

Lemma lowest_prio_ends l fits old (v : Z) target ppr fuel :
  0 <= old < zlen l -> 0 <= v < zlen l -> steps_to (zlen l) old v <= Z.of_nat fuel ->
  (forall t, target = Some t -> 0 <= t < zlen l) ->
  exists t, lowest_prio_loop fuel l fits old v target ppr = Some t /\
    forall i, t = Some i -> 0 <= i < zlen l.
Proof.
  revert v target ppr. induction fuel as [|fuel IH]; intros v target ppr Ho Hv Hs Ht.
  { unfold steps_to in Hs. destruct (v <? old) eqn:E; lia. }
  simpl. set (v' := if v + 1 <? zlen l then v + 1 else 0).
  assert (0 <= v' < zlen l) as Hv' by (unfold v'; destruct (Z.ltb_spec (v + 1) (zlen l)); lia).
  destruct (lookup_Z l v' Hv') as [vl ->]. cbv zeta.
  set (better := _ && _ && _).
  assert (forall t, (if better then Some v' else target) = Some t -> 0 <= t < zlen l) as Ht'
    by (intros t; destruct better; [by intros [= <-]|apply Ht]).
  destruct (Z.eqb_spec v' old) as [_|Hne]; [eauto|]. apply IH; [done|done| |done].
  unfold steps_to in *. unfold v' in *. destruct (Z.ltb_spec v old), (Z.ltb_spec (v + 1) (zlen l));
    repeat match goal with |- context [?a <? ?b] => destruct (Z.ltb_spec a b) end; lia.
Qed.

Lemma lowest_prio_wp source sh dest dm h : hw_ok h ->
  wp (vlapic_lowest_prio source sh dest dm)
     (fun t h' => hw_ok h' /\ delivery h h' /\ h_vcpus h' = h_vcpus h /\
                  forall i, t = Some i -> 0 <= i < zlen (h_vcpus h)) h.
Proof.
  intros Hok. pose proof Hok as [A1 A2 A3 A4 A5 A6]. unfold vlapic_lowest_prio. wp_step. apply wp_bind.
  apply wp_vcpu_ptr; [lia|lia|]. set (old := round_robin_prev_vcpu (h_irq h)) in *.
  destruct (Z.leb_spec 0 old), (Z.ltb_spec old (zlen (h_vcpus h))); simpl;
    try (apply wp_ret; split; [done|split; [reflexivity|done]]).
  wp_step. destruct (lowest_prio_ends (h_vcpus h)
      (fun i vl => vlapic_match_dest i vl source sh dest dm) old old None UINT_MAX
      (length (h_vcpus h))) as (t & -> & Ht);
    [lia|lia|unfold steps_to, zlen; rewrite Z.ltb_irrefl; lia|done|].
  destruct t as [t|]; [|apply wp_ret; split; [done|split; [reflexivity|done]]].
  apply wp_bind. unfold on_irq. wp_step. apply wp_ret. specialize (Ht t eq_refl).
  assert (u8 t = t) as -> by (unfold u8; apply Z.mod_small; lia).
  split; [|split; [|split; [done|]]].
  - split; try done. simpl. lia.
  - split; try done. intros i v Hv. exists v. by split.
  - by intros i [= <-].
Qed.

(** ** The loops over the vcpus *)

Section Loops.
Context (h0 : hdom) (Hok : hw_ok h0).

Lemma for_vcpus_wp (body : Z -> SE hdom unit) :
  (forall i h, 0 <= i < zlen (h_vcpus h0) -> hw_ok h -> delivery h0 h ->
     wp (body i) (fun _ h' => hw_ok h' /\ delivery h0 h') h) ->
  wp (for_each_vcpu body) (fun _ h' => hw_ok h' /\ delivery h0 h') h0.
Proof.
  intros Hb. apply wp_bind, wp_gets.
  assert (forall n i h, 0 <= i -> i + Z.of_nat n <= zlen (h_vcpus h0) -> hw_ok h -> delivery h0 h ->
    wp (for_vcpus n i body) (fun _ h' => hw_ok h' /\ delivery h0 h') h) as H.
  { clear Hok. induction n as [|n IH]; intros i h Hi Hn H1 H2; [by apply wp_ret|]. simpl. apply wp_bind.
    eapply wp_mono; [apply Hb; [lia|done|done]|]. intros _ h' [??]. apply IH; [lia|lia|done|done]. }
  apply H; [lia|unfold zlen; lia|done|reflexivity].
Qed.
End Loops.

Lemma inj_wp h0 i vec trig mode h : 0 <= vec < 256 -> hw_ok h -> delivery h0 h -> 0 <= i < zlen (h_vcpus h0) ->
  mode = dest_Fixed \/ mode = dest_LowestPrio ->
  wp (ioapic_inj_irq i vec trig mode) (fun _ h' => hw_ok h' /\ delivery h0 h') h.
Proof.
  intros Hvec H1 H2 Hi Hm. destruct (lookup_Z (h_vcpus h) i) as [v Hv];
    [unfold zlen; by rewrite (dl_vcpus _ _ H2)|].
  eapply wp_eq; [apply (inj_eq i vec trig mode h v); [lia|done|done]|]. pose proof (after_inj_delivery i vec trig v h Hvec) as H3.
  split; [|by etrans]. by apply (delivery_ok h).
Qed.

Lemma match_wp h0 i dest dm h (k : bool -> SE hdom unit) :
  hw_ok h -> delivery h0 h -> 0 <= i < zlen (h_vcpus h0) ->
  (forall b, wp (k b) (fun _ h' => hw_ok h' /\ delivery h0 h') h) ->
  wp (bind (dest_matches i dest dm) k) (fun _ h' => hw_ok h' /\ delivery h0 h') h.
Proof.
  intros H1 H2 Hi Hk. destruct (lookup_Z (h_vcpus h) i) as [v Hv];
    [unfold zlen; by rewrite (dl_vcpus _ _ H2)|].
  apply wp_bind, wp_bind. eapply wp_the_vcpu; [lia|exact Hv|]. by apply wp_ret.
Qed.

(** ** Delivery *)

Definition vcpu_target_ok (vcpu_id : Z) (h : hdom) : Prop :=
  vcpu_id = VCPUID_ANY \/ h_max_vcpus h = 0 \/ 0 <= vcpu_id < h_max_vcpus h.

Lemma deliver_wp pit0 irq vcpu_id h : hw_ok h -> 0 <= irq < 48 -> vcpu_target_ok vcpu_id h ->
  wp (vioapic_deliver pit0 irq vcpu_id) (fun _ h' => hw_ok h' /\ delivery h h') h.
Proof.
  intros Hok Hirq Hid. pose proof Hok as [A1 A2 A3 A4 A5 A6]. pose proof rte_vector_bound.
  assert (hw_ok h /\ delivery h h) as Hsame by (split; [done|reflexivity]).
  destruct (lookup_Z (redirtbl (h_ioapic h)) irq) as [e He]; [unfold zlen; lia|].
  unfold vioapic_deliver. apply wp_bind. eapply wp_entry; [lia|exact He|]. cbv zeta.
  assert (forall i mode, mode = dest_Fixed \/ mode = dest_LowestPrio ->
    h_max_vcpus h = 0 \/ 0 <= i < h_max_vcpus h ->
    wp (t <- vcpu_ptr i;; match t with
                          | Some t => ioapic_inj_irq t (rte_vector e) (rte_trig_mode e) mode
                          | None => ret tt
                          end) (fun _ h' => hw_ok h' /\ delivery h h') h) as Hptr.
  { intros i mode Hm Hi. apply wp_bind, wp_vcpu_ptr; [done|lia|].
    destruct (Z.leb_spec 0 i), (Z.ltb_spec i (zlen (h_vcpus h))); simpl; try (by apply wp_ret).
    apply inj_wp; [done|done|reflexivity|lia|done]. }
  assert (h_max_vcpus h = 0 \/ 0 <= 0 < h_max_vcpus h) as H0.
  { pose proof (zlen_nonneg (h_vcpus h)). lia. }
  destruct (Z.eqb_spec (rte_delivery_mode e) dest_LowestPrio) as [Hm|Hm].
  { destruct (_ && pit0); [by apply Hptr; auto|].
    destruct (Z.eqb_spec vcpu_id VCPUID_ANY) as [->|Hne]; cbn [negb].
    - apply wp_bind. eapply wp_mono; [by apply lowest_prio_wp|]. intros t h' (H1 & H2 & H3 & H4).
      destruct t as [t|]; [|by apply wp_ret]. apply inj_wp; auto.
    - apply Hptr; auto. by destruct Hid. }
  destruct (Z.eqb_spec (rte_delivery_mode e) dest_Fixed) as [Hf|Hf].
  { destruct (_ && pit0); [by apply Hptr; auto|].
    destruct (Z.eqb_spec vcpu_id VCPUID_ANY) as [->|Hne]; cbn [negb].
    - apply for_vcpus_wp; [done|]. intros i h' Hi H1 H2. apply match_wp; [done|done|done|].
      intros b. apply wp_when; [|done]. intros _. apply inj_wp; auto.
    - apply wp_bind, wp_vcpu_ptr; [by destruct Hid|lia|]. by apply wp_ret. }
  destruct (Z.eqb_spec (rte_delivery_mode e) dest_NMI) as [Hn|Hn]; [|by apply wp_ret].
  apply for_vcpus_wp; [done|]. intros i h' Hi H1 H2. apply match_wp; [done|done|done|].
  intros b. apply wp_when; [intros _|done].
  destruct (lookup_Z (h_vcpus h') i) as [v Hv]; [unfold zlen; by rewrite (dl_vcpus _ _ H2)|].
  apply wp_bind. eapply wp_the_vcpu; [lia|exact Hv|]. apply wp_bind. unfold upd_vcpu, apic_emit. wp_step.
  pose proof (fun l => delivery_alter h' (set_nmi_pending true) i l ltac:(by intros; split)) as Hd.
  apply wp_when; intros _; [wp_step|]; (split; [|etrans; [exact H2|]]).
  - by eapply (delivery_ok h'); [|apply Hd|].
  - apply Hd.
  - apply (delivery_ok h'); [done| |done]. apply (Hd (h_log h')).
  - apply (Hd (h_log h')).
Qed.
