(* ===== verification/VioapicOps.v ===== *)
(** * The operations of the IO-APIC

    The edge of a pin, the end of interrupt and the guest's writes succeed on
    well-formed hardware, and keep the invariant of the level-triggered pins:
    an unmasked level-triggered pin that is asserted has its Remote IRR set, so
    the end of interrupt will look at it again. *)

From stdpp Require Import base list numbers.
From Stdlib Require Import ZArith Lia Bool.
From S2P Require Import Prelude Vpic HvmState Vlapic Vioapic VpicInv VioapicInv.

Open Scope Z_scope.
Open Scope se_scope.

(** ** The entries *)

Definition bits64 (e : Z) : Prop := 0 <= e < 2 ^ 64.

Lemma bits64_spec e : bits64 e <-> 0 <= e /\ forall j, 64 <= j -> Z.testbit e j = false.
Proof.
  unfold bits64. split.
  - intros He. split; [lia|]. intros j Hj. apply Z.bits_above_log2; [lia|].
    destruct (Z.eq_dec e 0) as [->|]; [simpl; lia|]. apply Z.log2_lt_pow2; [lia|].
    apply Z.lt_le_trans with (2 ^ 64); [lia|]. apply Z.pow_le_mono_r; lia.
  - intros [H0 Hb]. split; [done|]. destruct (Z.eq_dec e 0) as [->|]; [lia|].
    apply Z.log2_lt_pow2; [lia|]. destruct (Z.lt_ge_cases (Z.log2 e) 64) as [|Hge]; [done|].
    specialize (Hb _ Hge). rewrite Z.bit_log2 in Hb by lia. done.
Qed.

Lemma set_remote_irr_bit b e j : 0 <= j ->
  Z.testbit (set_remote_irr b e) j = if j =? 14 then b else Z.testbit e j.
Proof.
  intros Hj. unfold set_remote_irr. destruct (Z.eqb_spec j 14) as [->|Hne]; destruct b.
  - by apply Z.setbit_eq.
  - by apply Z.clearbit_eq.
  - by apply Z.setbit_neq; [lia|auto].
  - by apply Z.clearbit_neq; auto.
Qed.

Lemma remote_irr_set b e : rte_remote_irr (set_remote_irr b e) = b.
Proof. unfold rte_remote_irr. by rewrite set_remote_irr_bit. Qed.
Lemma trig_mode_set b e : rte_trig_mode (set_remote_irr b e) = rte_trig_mode e.
Proof. unfold rte_trig_mode. by rewrite set_remote_irr_bit. Qed.
Lemma mask_set b e : rte_mask (set_remote_irr b e) = rte_mask e.
Proof. unfold rte_mask. by rewrite set_remote_irr_bit. Qed.

Lemma bits64_set b e : bits64 e -> bits64 (set_remote_irr b e).
Proof.
  rewrite !bits64_spec. intros [H0 Hb]. split.
  - unfold set_remote_irr. destruct b; [|unfold Z.clearbit; by apply Z.ldiff_nonneg; left].
    unfold Z.setbit. by apply Z.lor_nonneg.
  - intros j Hj. rewrite set_remote_irr_bit by lia. rewrite (proj2 (Z.eqb_neq j 14)) by lia. auto.
Qed.

(** The fields of a group of bits below or above bit 14. *)
Lemma bits_field b e k n : 0 <= k -> k + 8 <= 14 \/ 14 < k -> n = 7 \/ n = 255 ->
  Z.land (Z.shiftr (set_remote_irr b e) k) n = Z.land (Z.shiftr e k) n.
Proof.
  intros Hk Hr Hn. apply Z.bits_inj'. intros j Hj. rewrite !Z.land_spec, !Z.shiftr_spec by done.
  destruct (Z.lt_ge_cases j 8).
  - rewrite set_remote_irr_bit by lia. by rewrite (proj2 (Z.eqb_neq (j + k) 14)) by lia.
  - assert (Z.testbit n j = false) as ->; [|by rewrite !andb_false_r].
    apply Z.bits_above_log2; [lia|]. destruct Hn as [-> | ->]; simpl; lia.
Qed.
Lemma vector_set b e : rte_vector (set_remote_irr b e) = rte_vector e.
Proof.
  unfold rte_vector. rewrite <- (Z.shiftr_0_r (set_remote_irr b e)), <- (Z.shiftr_0_r e) at 1.
  apply bits_field; lia.
Qed.
Lemma dest_id_set b e : rte_dest_id (set_remote_irr b e) = rte_dest_id e.
Proof. apply bits_field; lia. Qed.
Lemma delivery_mode_set b e : rte_delivery_mode (set_remote_irr b e) = rte_delivery_mode e.
Proof.
  unfold rte_delivery_mode. apply Z.bits_inj'. intros j Hj. rewrite !Z.land_spec, !Z.shiftr_spec by done.
  destruct (Z.lt_ge_cases j 3).
  - rewrite set_remote_irr_bit by lia. by rewrite (proj2 (Z.eqb_neq (j + 8) 14)) by lia.
  - assert (Z.testbit 7 j = false) as ->; [|by rewrite !andb_false_r].
    apply Z.bits_above_log2; simpl; lia.
Qed.
Lemma dest_mode_set b e : rte_dest_mode (set_remote_irr b e) = rte_dest_mode e.
Proof. unfold rte_dest_mode. by rewrite set_remote_irr_bit. Qed.

Create Rewrite HintDb rte.
#[export] Hint Rewrite remote_irr_set trig_mode_set mask_set vector_set dest_id_set
  delivery_mode_set dest_mode_set : rte.

(** ** What an operation of the IO-APIC leaves as it was *)

Record apic_step (h h' : hdom) : Prop := {
  as_pics : pic0 (h_pics h') = pic0 (h_pics h) /\ pic1 (h_pics h') = pic1 (h_pics h);
  as_irq : h_irq h' = set_round_robin (round_robin_prev_vcpu (h_irq h')) (h_irq h);
  as_vcpus : length (h_vcpus h') = length (h_vcpus h);
  as_max : h_max_vcpus h' = h_max_vcpus h;
  as_grown : forall i v, h_vcpus h !! i = Some v ->
    exists v', h_vcpus h' !! i = Some v' /\ grown v v'
}.

#[export] Instance apic_step_preorder : PreOrder apic_step.
Proof.
  split.
  - intros h. split; try done; [apply set_round_robin_same|]. intros i v Hv. exists v. by split.
  - intros h1 h2 h3 [A1 A2 A4 A5 A6] [B1 B2 B4 B5 B6].
    split; [destruct A1, B1; split; congruence| |congruence|congruence|].
    + rewrite B2 at 1. rewrite A2. done.
    + intros i v Hv. destruct (A6 i v Hv) as (v1 & H1 & ?). destruct (B6 i v1 H1) as (v2 & H2 & ?).
      exists v2. split; [done|by etrans].
Qed.

Lemma delivery_step h h' : delivery h h' -> apic_step h h'.
Proof. intros [A1 A2 A3 A4 A5 A6]. split; auto. by rewrite A1. Qed.

(** Another table of entries. *)
Definition with_entry (g e : Z) (h : hdom) : hdom :=
  set_ioapic (set_redirtbl (upd g e (redirtbl (h_ioapic h))) (h_ioapic h)) h.

Lemma wp_set_entry g e (Q : unit -> hdom -> Prop) h : Q tt (with_entry g e h) -> wp (set_entry g e) Q h.
Proof. done. Qed.

Lemma with_entry_step g e h : apic_step h (with_entry g e h).
Proof. split; try done; [apply set_round_robin_same|]. intros i v Hv. exists v. by split. Qed.

Lemma with_entry_ok g e h : hw_ok h -> bits64 e -> hw_ok (with_entry g e h).
Proof.
  intros [A1 A2 A3 A4 A5 A6] He. split; try done; simpl.
  - unfold upd. by rewrite length_insert.
  - by apply Forall_insert.
Qed.

Lemma with_entry_lookup g e h : 0 <= g < 48 -> hw_ok h ->
  redirtbl (h_ioapic (with_entry g e h)) !! Z.to_nat g = Some e.
Proof. intros Hg Hok. simpl. apply list_lookup_insert_eq. rewrite (hw_pins _ Hok). lia. Qed.

Lemma entry_exists h g : hw_ok h -> 0 <= g < 48 ->
  exists e, redirtbl (h_ioapic h) !! Z.to_nat g = Some e /\ bits64 e.
Proof.
  intros Hok Hg. destruct (lookup_Z (redirtbl (h_ioapic h)) g) as [e He].
  { unfold zlen. rewrite (hw_pins _ Hok). lia. }
  exists e. split; [done|]. by apply (Forall_lookup_1 _ _ _ _ (hw_bits _ Hok) He).
Qed.

(** ** Level-triggered pins *)

(** Pin [g] with entry [e] and [n] sources: an unmasked level-triggered pin
    that is asserted waits for an end of interrupt. *)
Definition pin_ok (e n : Z) : Prop :=
  rte_trig_mode e = true -> rte_mask e = false -> n <> 0 -> rte_remote_irr e = true.

Definition level_ok (h : hdom) : Prop := forall g e n, 1 <= g < 48 ->
  redirtbl (h_ioapic h) !! Z.to_nat g = Some e ->
  gsi_assert_count (h_irq h) !! Z.to_nat g = Some n -> pin_ok e n.

Lemma step_counts h h' : apic_step h h' ->
  gsi_assert_count (h_irq h') = gsi_assert_count (h_irq h) /\
  pci_link_assert_count (h_irq h') = pci_link_assert_count (h_irq h).
Proof. intros [_ -> _ _ _]. done. Qed.

Lemma level_delivery h h' : delivery h h' -> level_ok h -> level_ok h'.
Proof.
  intros Hd Hl g e n Hg He Hn. destruct (step_counts _ _ (delivery_step _ _ Hd)) as [Hc _].
  rewrite Hc in Hn. rewrite (dl_ioapic _ _ Hd) in He. by apply (Hl g).
Qed.

(** All other pins are as they should be. *)
Definition level_but (k : Z) (h : hdom) : Prop := forall g e n, 1 <= g < 48 -> g <> k ->
  redirtbl (h_ioapic h) !! Z.to_nat g = Some e ->
  gsi_assert_count (h_irq h) !! Z.to_nat g = Some n -> pin_ok e n.

Lemma level_with_entry k e h : 0 <= k < 48 -> hw_ok h -> level_but k h ->
  (forall n, 1 <= k -> gsi_assert_count (h_irq h) !! Z.to_nat k = Some n -> pin_ok e n) ->
  level_ok (with_entry k e h).
Proof.
  intros Hk Hok Hl He g e' n Hg Hg' Hn. destruct (decide (g = k)) as [->|Hne].
  - rewrite with_entry_lookup in Hg' by done. simplify_eq. by apply He; [lia|].
  - simpl in Hg'. unfold upd in Hg'. rewrite list_lookup_insert_ne in Hg' by lia. by apply (Hl g).
Qed.

(** ** The edge of a pin *)

Lemma positive_edge_kept pit0 g vcpu_id h : hw_ok h -> 0 <= g < 48 -> vcpu_target_ok vcpu_id h ->
  wp (vioapic_irq_positive_edge pit0 g vcpu_id)
     (fun _ h' => hw_ok h' /\ apic_step h h' /\ h_pics h' = h_pics h /\
                  (level_but g h -> level_ok h')) h.
Proof.
  intros Hok Hg Hid. destruct (entry_exists h g Hok Hg) as (e & He & Hb).
  unfold vioapic_irq_positive_edge. apply wp_bind, wp_bug_if.
  { by rewrite (proj2 (Z.ltb_lt g _)) by (unfold VIOAPIC_NUM_PINS; lia). }
  apply wp_bind. eapply wp_entry; [lia|exact He|].
  assert (forall h', delivery h h' -> rte_mask e = true \/ rte_trig_mode e = false ->
            level_but g h -> level_ok h') as Hquiet.
  { intros h' Hd Hq Hl. apply (level_delivery h); [done|]. intros g' e' n Hg' He' Hn.
    destruct (decide (g' = g)) as [->|]; [|by apply (Hl g')]. simplify_eq.
    intros H1 H2 _. destruct Hq; congruence. }
  destruct (rte_mask e) eqn:Em.
  { apply wp_ret. split; [done|]. split; [reflexivity|]. split; [done|]. apply Hquiet; [reflexivity|auto]. }
  destruct (rte_trig_mode e) eqn:Et; cbn [negb].
  - apply wp_bind, wp_set_entry. set (h1 := with_entry g _ h).
    assert (hw_ok h1) as Hok1 by (by apply with_entry_ok, bits64_set).
    eapply wp_mono; [by apply (deliver_wp pit0 g vcpu_id h1)|]. intros _ h' [H1 H2].
    split; [done|]. split; [etrans; [apply with_entry_step|by apply delivery_step]|].
    split; [by rewrite (dl_pics _ _ H2)|]. intros Hl. apply (level_delivery h1); [done|].
    apply level_with_entry; [done|done|done|]. intros n _ _ _ _ _. apply remote_irr_set.
  - eapply wp_mono; [by apply deliver_wp|]. intros _ h' [H1 H2].
    split; [done|]. split; [by apply delivery_step|]. split; [by rewrite (dl_pics _ _ H2)|].
    apply Hquiet; auto.
Qed.

(** ** Whom a fixed-mode delivery reaches *)

(** Every vcpu that matches the destination has [vec] requested. *)
Definition reached (vec dest : Z) (dm : bool) (h : hdom) : Prop := forall i v,
  h_vcpus h !! i = Some v -> vlapic_match_dest (Z.of_nat i) v None 0 dest dm = true ->
  vlapic_test_vector vec APIC_IRR v = true.

(** The vcpus have more requests, and are otherwise as they were. *)
Definition grew (h h' : hdom) : Prop := length (h_vcpus h') = length (h_vcpus h) /\
  forall i v, h_vcpus h !! i = Some v -> exists v', h_vcpus h' !! i = Some v' /\ grown v v'.

Lemma grew_vcpus h h' : h_vcpus h' = h_vcpus h -> grew h h'.
Proof. unfold grew. intros ->. split; [done|]. intros i v Hv. exists v. by split. Qed.
Lemma step_grew h h' : apic_step h h' -> grew h h'.
Proof. by intros [_ _ ? _ ?]. Qed.
Lemma grew_trans h1 h2 h3 : grew h1 h2 -> grew h2 h3 -> grew h1 h3.
Proof.
  intros [A1 A2] [B1 B2]. split; [congruence|]. intros i v Hv. destruct (A2 i v Hv) as (v1 & H1 & ?).
  destruct (B2 i v1 H1) as (v2 & H2 & ?). exists v2. split; [done|by etrans].
Qed.

Lemma reached_grew vec dest dm h h' : 0 <= vec < 256 -> grew h h' ->
  reached vec dest dm h -> reached vec dest dm h'.
Proof.
  intros Hv [Hl Hs] Hr i v' Hi Hm. destruct (h_vcpus h !! i) as [v|] eqn:E.
  - destruct (Hs i v E) as (v1 & H1 & Hg). simplify_eq.
    rewrite (grown_match _ v v' _ _ _ _ Hg) in Hm. apply (gr_irr _ _ Hg); [done|]. by apply (Hr i).
  - apply lookup_ge_None_1 in E. apply lookup_lt_Some in Hi. rewrite Hl in Hi. lia.
Qed.
Lemma reached_step vec dest dm h h' : 0 <= vec < 256 -> apic_step h h' ->
  reached vec dest dm h -> reached vec dest dm h'.
Proof. intros Hv Hs. by apply reached_grew, step_grew. Qed.

(** The vcpus after a fixed-mode delivery. *)
Definition fixed_vcpu (vec : Z) (trig : bool) (dest : Z) (dm : bool) (i : Z) (v : vcpu) : vcpu :=
  if vlapic_match_dest i v None 0 dest dm then injected vec trig v else v.

Section Fixed.
Context (vec dest : Z) (trig dm : bool).

Let body (i : Z) : SE hdom unit :=
  m <- dest_matches i dest dm;; when m (ioapic_inj_irq i vec trig dest_Fixed).

Lemma fixed_body i h v : 0 <= i -> h_vcpus h !! Z.to_nat i = Some v ->
  exists l, body i h =
    (set_apic_log l (set_vcpus (alter (fixed_vcpu vec trig dest dm i) (Z.to_nat i) (h_vcpus h)) h), Ok tt) /\
    (forall e, e ∈ h_log h -> e ∈ l) /\
    (vlapic_match_dest i v None 0 dest dm = true -> vlapic_test_vector vec APIC_IRR v = false ->
     ApicKick i ∈ l).
Proof.
  intros Hi Hv. unfold body, dest_matches, the_vcpu, elem. cbv [bind gets].
  rewrite (proj2 (Z.ltb_ge i 0)), Hv by done. cbv [ret].
  assert (forall f, f v = fixed_vcpu vec trig dest dm i v ->
    alter f (Z.to_nat i) (h_vcpus h) = alter (fixed_vcpu vec trig dest dm i) (Z.to_nat i) (h_vcpus h)) as Hf.
  { intros f Hf. apply list_eq. intros j. rewrite !list_lookup_alter. case_decide; [|done].
    subst. rewrite Hv. simpl. by rewrite Hf. }
  destruct (vlapic_match_dest i v None 0 dest dm) eqn:Em; unfold when.
  - rewrite (inj_eq i vec trig dest_Fixed h v) by auto. unfold after_inj.
    eexists. split; [|split].
    + rewrite (Hf (injected vec trig)); [done|]. unfold fixed_vcpu. by rewrite Em.
    + intros e He. unfold kick_if. case_match; [by apply list_elem_of_further|done].
    + intros _ ->. apply list_elem_of_here.
  - exists (h_log h). split; [|by split]. unfold ret.
    rewrite <- (Hf (fun v => v)) by (unfold fixed_vcpu; by rewrite Em).
    rewrite list_alter_id; [|done]. by destruct h.
Qed.

Lemma fixed_loop n i h : 0 <= i -> i + Z.of_nat n = zlen (h_vcpus h) ->
  wp (for_vcpus n i body) (fun _ h' =>
    (forall j v, h_vcpus h !! j = Some v ->
       h_vcpus h' !! j = Some (if i <=? Z.of_nat j then fixed_vcpu vec trig dest dm (Z.of_nat j) v else v)) /\
    (forall e, e ∈ h_log h -> e ∈ h_log h') /\
    (forall j v, h_vcpus h !! j = Some v -> i <= Z.of_nat j ->
       vlapic_match_dest (Z.of_nat j) v None 0 dest dm = true ->
       vlapic_test_vector vec APIC_IRR v = false -> ApicKick (Z.of_nat j) ∈ h_log h')) h.
Proof.
  revert i h. induction n as [|n IH]; intros i h Hi Hn.
  { apply wp_ret. unfold zlen in Hn. split; [|split; [done|]].
    - intros j v Hj. apply lookup_lt_Some in Hj as Hl. by rewrite (proj2 (Z.leb_gt i (Z.of_nat j))) by lia.
    - intros j v Hj Hij. apply lookup_lt_Some in Hj as Hl. lia. }
  simpl. destruct (lookup_Z (h_vcpus h) i) as [v Hv]; [lia|].
  destruct (fixed_body i h v Hi Hv) as (l & Hb & H1 & H2). apply wp_bind.
  eapply wp_eq; [exact Hb|]. set (h1 := set_apic_log _ _) in *.
  assert (zlen (h_vcpus h1) = zlen (h_vcpus h)) as Hlen by (unfold zlen, h1; simpl; by rewrite length_alter).
  eapply wp_mono; [apply IH; [lia|lia]|]. intros _ h' (B1 & B2 & B3). split; [|split; [by auto|]].
  - intros j w Hj. destruct (decide (Z.of_nat j = i)) as [He|Hne].
    + subst i. rewrite Nat2Z.id in *. assert (w = v) as -> by congruence. rewrite (B1 j (fixed_vcpu vec trig dest dm (Z.of_nat j) v)).
      * by rewrite (proj2 (Z.leb_gt _ _)), Z.leb_refl by lia.
      * unfold h1. simpl. by rewrite Nat2Z.id, list_lookup_alter_eq, Hv.
    + rewrite (B1 j w); [|unfold h1; simpl; by rewrite list_lookup_alter_ne by lia].
      destruct (Z.leb_spec (i + 1) (Z.of_nat j)), (Z.leb_spec i (Z.of_nat j)); lia || done.
  - intros j w Hj Hij Hm Ht. destruct (decide (Z.of_nat j = i)) as [He|Hne].
    + subst i. rewrite Nat2Z.id in *. assert (w = v) as -> by congruence. apply B2. by apply H2.
    + apply (B3 j w); [|lia|done|done]. unfold h1. simpl. by rewrite list_lookup_alter_ne by lia.
Qed.
End Fixed.

(** The delivery through an unmasked fixed-mode pin that is not the timer's. *)
Lemma deliver_fixed_wp pit0 g h e : hw_ok h -> 0 <= g < 48 ->
  redirtbl (h_ioapic h) !! Z.to_nat g = Some e -> rte_delivery_mode e = dest_Fixed ->
  (g =? hvm_isa_irq_to_gsi 0) && pit0 = false ->
  wp (vioapic_deliver pit0 g VCPUID_ANY) (fun _ h' => hw_ok h' /\ delivery h h' /\
    (forall j v, h_vcpus h !! j = Some v -> h_vcpus h' !! j =
       Some (fixed_vcpu (rte_vector e) (rte_trig_mode e) (rte_dest_id e) (rte_dest_mode e) (Z.of_nat j) v)) /\
    (forall j v, h_vcpus h !! j = Some v ->
       vlapic_match_dest (Z.of_nat j) v None 0 (rte_dest_id e) (rte_dest_mode e) = true ->
       vlapic_test_vector (rte_vector e) APIC_IRR v = false -> ApicKick (Z.of_nat j) ∈ h_log h')) h.
Proof.
  intros Hok Hg He Hm Hp.
  assert (vcpu_target_ok VCPUID_ANY h) as Hid by (by left).
  pose proof (deliver_wp pit0 g VCPUID_ANY h Hok Hg Hid) as H1.
  assert (wp (vioapic_deliver pit0 g VCPUID_ANY) (fun _ h' =>
    (forall j v, h_vcpus h !! j = Some v -> h_vcpus h' !! j =
       Some (fixed_vcpu (rte_vector e) (rte_trig_mode e) (rte_dest_id e) (rte_dest_mode e) (Z.of_nat j) v)) /\
    (forall j v, h_vcpus h !! j = Some v ->
       vlapic_match_dest (Z.of_nat j) v None 0 (rte_dest_id e) (rte_dest_mode e) = true ->
       vlapic_test_vector (rte_vector e) APIC_IRR v = false -> ApicKick (Z.of_nat j) ∈ h_log h')) h) as H2.
  { unfold vioapic_deliver. apply wp_bind. eapply wp_entry; [lia|exact He|]. cbv zeta.
    rewrite Hm, Hp. change (dest_Fixed =? dest_LowestPrio) with false. change (dest_Fixed =? dest_Fixed) with true.
    change (VCPUID_ANY =? VCPUID_ANY) with true. cbn [negb]. unfold for_each_vcpu. apply wp_bind, wp_gets.
    eapply wp_mono; [apply (fixed_loop (rte_vector e) (rte_dest_id e) (rte_trig_mode e) (rte_dest_mode e)
                             (length (h_vcpus h)) 0 h); [lia|unfold zlen; lia]|].
    intros _ h' (B1 & _ & B3). split.
    - intros j v Hj. rewrite (B1 j v Hj). by rewrite (proj2 (Z.leb_le 0 (Z.of_nat j))) by lia.
    - intros j v Hj. apply B3; [done|lia]. }
  destruct (wp_inv _ _ _ H1) as (h' & a & E & ? & ?). unfold wp in *. rewrite E in *. by destruct H2.
Qed.

Lemma fixed_reached vec trig dest dm h h' : 0 <= vec < 256 ->
  length (h_vcpus h') = length (h_vcpus h) ->
  (forall j v, h_vcpus h !! j = Some v ->
     h_vcpus h' !! j = Some (fixed_vcpu vec trig dest dm (Z.of_nat j) v)) -> reached vec dest dm h'.
Proof.
  intros Hv Hl H j v' Hj Hm. destruct (h_vcpus h !! j) as [v|] eqn:E.
  - rewrite (H j v E) in Hj. unfold fixed_vcpu in Hj. destruct (vlapic_match_dest _ v _ _ _ _) eqn:Em.
    + simplify_eq. pose proof (grown_set_vector vec APIC_TMR (vlapic_set_vector vec APIC_IRR v) Hv (or_intror eq_refl)) as Hg.
      assert (vlapic_test_vector vec APIC_IRR (vlapic_set_vector vec APIC_IRR v) = true) as H1
        by (by rewrite test_set_vector, Z.eqb_refl).
      unfold injected. cbv zeta. destruct trig; [|done]. by apply (gr_irr _ _ Hg).
    + simplify_eq. congruence.
  - apply lookup_ge_None_1 in E. apply lookup_lt_Some in Hj. lia.
Qed.

(** An edge of pin [g] reaches the vcpus that its entry [e] names: it is unmasked
    and in fixed mode, no single vcpu is asked for and it is not the
    timer's. *)
Definition fires (pit0 : bool) (g vcpu_id : Z) (h : hdom) (e : Z) : Prop :=
  redirtbl (h_ioapic h) !! Z.to_nat g = Some e /\ rte_mask e = false /\ rte_delivery_mode e = dest_Fixed /\
  vcpu_id = VCPUID_ANY /\ (g =? hvm_isa_irq_to_gsi 0) && pit0 = false.
Definition requested (e : Z) (h : hdom) : Prop := reached (rte_vector e) (rte_dest_id e) (rte_dest_mode e) h.

Lemma requested_grew e h h' : grew h h' -> requested e h -> requested e h'.
Proof. apply reached_grew, rte_vector_bound. Qed.

Lemma deliver_requested pit0 g h e : hw_ok h -> 0 <= g < 48 ->
  redirtbl (h_ioapic h) !! Z.to_nat g = Some e -> rte_delivery_mode e = dest_Fixed ->
  (g =? hvm_isa_irq_to_gsi 0) && pit0 = false -> wp (vioapic_deliver pit0 g VCPUID_ANY) (fun _ => requested e) h.
Proof.
  intros Hok Hg He Hm Hp. eapply wp_mono; [by apply (deliver_fixed_wp pit0 g h e)|]. intros _ h' (_ & Hd & H1 & _).
  eapply fixed_reached; [apply rte_vector_bound|apply (as_vcpus _ _ (delivery_step _ _ Hd))|exact H1].
Qed.

Lemma positive_edge_fixed pit0 g vcpu_id h e : hw_ok h -> 0 <= g < 48 -> fires pit0 g vcpu_id h e ->
  wp (vioapic_irq_positive_edge pit0 g vcpu_id) (fun _ => requested e) h.
Proof.
  intros Hok Hg (He & Em & Ed & -> & Hp). pose proof (Forall_lookup_1 _ _ _ _ (hw_bits _ Hok) He) as Hb.
  unfold vioapic_irq_positive_edge. apply wp_bind, wp_bug_if.
  { by rewrite (proj2 (Z.ltb_lt g _)) by (unfold VIOAPIC_NUM_PINS; lia). }
  apply wp_bind. eapply wp_entry; [lia|exact He|]. rewrite Em.
  destruct (rte_trig_mode e) eqn:Et; cbn [negb]; [|by apply deliver_requested].
  apply wp_bind, wp_set_entry. set (h1 := with_entry g _ h).
  assert (hw_ok h1) as Hok1 by (by apply with_entry_ok, bits64_set).
  eapply wp_mono; [apply (deliver_requested pit0 g h1 (set_remote_irr true e)); [done|done|by apply with_entry_lookup|by rewrite delivery_mode_set|done]|].
  intros [] h'. unfold requested. by autorewrite with rte.
Qed.

(** The edge of a pin *)
Lemma positive_edge_wp pit0 g vcpu_id h : hw_ok h -> 0 <= g < 48 -> vcpu_target_ok vcpu_id h ->
  wp (vioapic_irq_positive_edge pit0 g vcpu_id)
     (fun _ h' => hw_ok h' /\ apic_step h h' /\ h_pics h' = h_pics h /\ (level_but g h -> level_ok h') /\
                  (forall e, fires pit0 g vcpu_id h e -> requested e h')) h.
Proof.
  intros Hok Hg Hid. destruct (wp_inv _ _ _ (positive_edge_kept pit0 g vcpu_id h Hok Hg Hid)) as (h' & a & E & H1 & H2 & H3 & H4).
  unfold wp. rewrite E. split_and!; try done. intros e He.
  pose proof (positive_edge_fixed pit0 g vcpu_id h e Hok Hg He) as H5. unfold wp in H5. by rewrite E in H5.
Qed.

(** ** The end of interrupt *)

(** Pin [g] is level-triggered, unmasked, in fixed mode and asserted, and not
    the timer's. *)
Definition level_waiting (pit0 : bool) (h : hdom) (g e n : Z) : Prop :=
  0 <= g < 48 /\ redirtbl (h_ioapic h) !! Z.to_nat g = Some e /\
  gsi_assert_count (h_irq h) !! Z.to_nat g = Some n /\ n <> 0 /\
  rte_trig_mode e = true /\ rte_mask e = false /\ rte_delivery_mode e = dest_Fixed /\
  (g =? hvm_isa_irq_to_gsi 0) && pit0 = false.

(** Two tables that differ in Remote IRR bits only. *)
Definition same_pins (h h' : hdom) : Prop := forall g e,
  redirtbl (h_ioapic h) !! g = Some e -> exists b,
  redirtbl (h_ioapic h') !! g = Some (set_remote_irr b e).

Lemma set_remote_irr_same e : set_remote_irr (rte_remote_irr e) e = e.
Proof.
  apply Z.bits_inj'. intros j Hj. rewrite set_remote_irr_bit by done.
  destruct (Z.eqb_spec j 14) as [->|]; done.
Qed.
Lemma set_remote_irr_twice b b' e : set_remote_irr b (set_remote_irr b' e) = set_remote_irr b e.
Proof.
  apply Z.bits_inj'. intros j Hj. rewrite !set_remote_irr_bit by done. by destruct (j =? 14).
Qed.

#[export] Instance same_pins_preorder : PreOrder same_pins.
Proof.
  split.
  - intros h g e He. exists (rte_remote_irr e). by rewrite set_remote_irr_same.
  - intros h1 h2 h3 A B g e He. destruct (A g e He) as [b1 H1]. destruct (B g _ H1) as [b2 H2].
    exists b2. by rewrite set_remote_irr_twice in H2.
Qed.

Lemma same_pins_delivery h h' : delivery h h' -> same_pins h h'.
Proof. intros Hd g e He. rewrite (dl_ioapic _ _ Hd). exists (rte_remote_irr e). by rewrite set_remote_irr_same. Qed.

Lemma same_pins_with_entry g e b h : 0 <= g -> redirtbl (h_ioapic h) !! Z.to_nat g = Some e ->
  same_pins h (with_entry g (set_remote_irr b e) h).
Proof.
  intros Hg He k e' Hk. simpl. unfold upd. destruct (decide (k = Z.to_nat g)) as [->|Hne].
  - simplify_eq. exists b. apply list_lookup_insert_eq. by apply lookup_lt_Some in He.
  - rewrite list_lookup_insert_ne by done. rewrite Hk. exists (rte_remote_irr e'). by rewrite set_remote_irr_same.
Qed.

Section Eoi.
Context (pit0 : bool) (vector : Z).

(** What has been done for the pins of [P], from [h] to [h']. *)
Record eoi_done (P : Z -> Prop) (h h' : hdom) : Prop := {
  ed_ok : hw_ok h';
  ed_step : apic_step h h';
  ed_pics : h_pics h' = h_pics h;
  ed_pins : same_pins h h';
  ed_level : level_ok h -> level_ok h';
  ed_reached : forall g e n, P g -> level_waiting pit0 h g e n -> rte_vector e = vector ->
    reached vector (rte_dest_id e) (rte_dest_mode e) h'
}.

Lemma waiting_step h h' g e n : apic_step h h' -> same_pins h h' -> level_waiting pit0 h g e n ->
  exists b, level_waiting pit0 h' g (set_remote_irr b e) n.
Proof.
  intros Hs Hp (H1 & H2 & H3 & H4 & H5 & H6 & H7 & H8). destruct (Hp _ _ H2) as [b Hb].
  destruct (step_counts _ _ Hs) as [Hc _]. exists b. unfold level_waiting. autorewrite with rte.
  by rewrite Hc.
Qed.

Lemma eoi_done_trans P P' h1 h2 h3 : eoi_done P h1 h2 -> eoi_done P' h2 h3 ->
  eoi_done (fun g => P g \/ P' g) h1 h3.
Proof.
  intros [A1 A2 A3 A4 A5 A6] [B1 B2 B3 B4 B5 B6].
  split; [done|by etrans|congruence|by etrans|auto|]. intros g e n HP Hw Hv.
  destruct (decide (0 <= vector < 256)) as [Hr|Hr]; [|pose proof (rte_vector_bound e); lia].
  destruct HP as [HP|HP]; [apply (reached_step _ _ _ h2); [done|done|by eapply A6]|].
  destruct (waiting_step h1 h2 g e n A2 A4 Hw) as [b Hb].
  pose proof (B6 g _ n HP Hb) as H. autorewrite with rte in H. auto.
Qed.

(** After the delivery from [h1], which is [h] with another Remote IRR. *)
Lemma eoi_delivered g e n h h1 h' : hw_ok h' -> delivery h1 h' -> apic_step h h1 ->
  h_pics h1 = h_pics h -> same_pins h h1 -> (level_ok h -> level_ok h1) ->
  (forall e' n', level_waiting pit0 h g e' n' -> e' = e /\ n' = n) ->
  (level_waiting pit0 h g e n -> rte_vector e = vector ->
   reached vector (rte_dest_id e) (rte_dest_mode e) h') ->
  eoi_done (eq g) h h'.
Proof.
  intros H1 H2 H3 H4 H5 H6 H7 H8. split; [done| | | | |].
  - etrans; [done|by apply delivery_step].
  - by rewrite (dl_pics _ _ H2).
  - etrans; [done|by apply same_pins_delivery].
  - intros Hl. apply (level_delivery h1); auto.
  - intros g' e' n' <- Hw Hv. destruct (H7 _ _ Hw) as [-> ->]. auto.
Qed.

Lemma eoi_pin_wp g h : hw_ok h -> length (gsi_assert_count (h_irq h)) = 48%nat -> 0 <= g < 48 ->
  wp (eoi_pin pit0 vector g) (fun _ => eoi_done (eq g) h) h.
Proof.
  intros Hok Hlen Hg. destruct (entry_exists h g Hok Hg) as (e & He & Hb).
  unfold eoi_pin. apply wp_bind. eapply wp_entry; [lia|exact He|].
  destruct (Z.eqb_spec (rte_vector e) vector) as [Hv|Hv]; cbn [negb].
  2:{ apply wp_ret. split; [done|reflexivity|done|reflexivity|done|].
      intros g' e' n <- (_ & He' & _) Hv'. congruence. }
  apply wp_bind, wp_set_entry. set (e0 := set_remote_irr false e). set (h1 := with_entry g e0 h).
  assert (hw_ok h1) as Hok1 by (by apply with_entry_ok, bits64_set).
  apply wp_bind, wp_gets. destruct (lookup_Z (gsi_assert_count (h_irq h)) g) as [n Hn]; [unfold zlen; lia|].
  apply wp_bind. eapply wp_elem; [lia|exact Hn|]. unfold e0 at 1 2. autorewrite with rte.
  assert (forall b, pin_ok (set_remote_irr b e) n -> level_ok h -> level_ok (with_entry g (set_remote_irr b e) h)) as Hlev.
  { intros b Hp Hl. apply level_with_entry; [done|done| |].
    - intros g' e' n' Hg' _. by apply Hl.
    - intros n' _ Hn'. by simplify_eq. }
  assert (forall e' n', level_waiting pit0 h g e' n' -> e' = e /\ n' = n) as Hsame.
  { intros e' n' (_ & He' & Hn' & _). by simplify_eq. }
  assert (forall b, with_entry g (set_remote_irr b e0) h1 = with_entry g (set_remote_irr b e) h) as Htwice.
  { intros b. unfold e0, h1, with_entry, set_ioapic, set_redirtbl, upd.
    cbn [h_ioapic redirtbl base_address ioregsel ioapic_id h_pics h_irq h_vcpus h_max_vcpus h_log].
    by rewrite set_remote_irr_twice, list_insert_insert_eq. }
  assert (forall b, same_pins h (with_entry g (set_remote_irr b e) h)) as Hpins
    by (intros b; apply same_pins_with_entry; [lia|done]).
  apply wp_when; intros Hc.
  - apply wp_bind, wp_set_entry. rewrite Htwice. set (h2 := with_entry g _ h).
    assert (hw_ok h2) as Hok2 by (by apply with_entry_ok, bits64_set).
    assert (level_ok h -> level_ok h2) as Hl2 by (apply Hlev; intros _ _ _; apply remote_irr_set).
    destruct (decide (rte_delivery_mode e = dest_Fixed /\ (g =? hvm_isa_irq_to_gsi 0) && pit0 = false))
      as [[Hm Hp]|Hnot].
    + eapply wp_mono; [apply (deliver_fixed_wp pit0 g h2 (set_remote_irr true e)); [done|done| | |done]|].
      * by apply with_entry_lookup.
      * by autorewrite with rte.
      * intros _ h' (B1 & B2 & B3 & _). autorewrite with rte in B3.
        apply (eoi_delivered g e n h h2); [done|done|apply with_entry_step|done|apply Hpins|done|done|].
        intros _ Hv'. rewrite <- Hv'. eapply (fixed_reached _ _ _ _ h2); [apply rte_vector_bound|by apply dl_vcpus|exact B3].
    + eapply wp_mono; [apply deliver_wp; [done|done|by left]|]. intros _ h' (B1 & B2).
      apply (eoi_delivered g e n h h2); [done|done|apply with_entry_step|done|apply Hpins|done|done|].
      intros (_ & _ & _ & _ & _ & _ & ? & ?) _. by destruct Hnot.
  - apply (eoi_delivered g e n h h1); [done|reflexivity|apply with_entry_step|done|apply Hpins| |done|].
    + apply Hlev. intros H1 H2 H3. autorewrite with rte in H1, H2.
      rewrite H1, H2 in Hc. simpl in Hc. by destruct (Z.eqb_spec n 0).
    + intros (_ & _ & _ & Hn0 & H1 & H2 & _) _. rewrite H1, H2 in Hc. simpl in Hc.
      by destruct (Z.eqb_spec n 0).
Qed.

Lemma update_EOI_wp h : hw_ok h -> length (gsi_assert_count (h_irq h)) = 48%nat ->
  wp (vioapic_update_EOI pit0 vector) (fun _ => eoi_done (fun g => 0 <= g < 48) h) h.
Proof.
  intros Hok Hlen. unfold vioapic_update_EOI.
  assert (forall n g h, hw_ok h -> length (gsi_assert_count (h_irq h)) = 48%nat -> 0 <= g ->
    g + Z.of_nat n <= 48 ->
    wp (eoi_pins pit0 vector n g) (fun _ => eoi_done (fun k => g <= k < g + Z.of_nat n) h) h) as H.
  { clear h Hok Hlen. induction n as [|n IH]; intros g h Hok Hlen Hg Hn.
    { apply wp_ret. split; [done|reflexivity|done|reflexivity|done|]. intros k ?? Hk. simpl in Hk. lia. }
    simpl. apply wp_bind. eapply wp_mono; [apply eoi_pin_wp; [done|done|lia]|]. intros [] h1 H1.
    destruct (step_counts _ _ (ed_step _ _ _ H1)) as [Hc _].
    eapply wp_mono; [apply IH; [apply H1|by rewrite Hc|lia|lia]|]. intros [] h2 H2.
    destruct (eoi_done_trans _ _ _ _ _ H1 H2) as [C1 C2 C3 C4 C5 C6]. split; try done.
    intros k e m Hk. apply C6. lia. }
  apply (H 48%nat 0 h); [done|done|lia|lia].
Qed.
End Eoi.

(** ** The guest's writes *)

Lemma u32_bits x j : 0 <= j -> Z.testbit (u32 x) j = (j <? 32) && Z.testbit x j.
Proof.
  intros Hj. unfold u32. destruct (Z.ltb_spec j 32); [by rewrite Z.mod_pow2_bits_low by lia|].
  by rewrite Z.mod_pow2_bits_high by lia.
Qed.

Lemma shiftl_bits x j : 0 <= j -> Z.testbit (Z.shiftl x 32) j = (32 <=? j) && Z.testbit x (j - 32).
Proof.
  intros Hj. rewrite Z.shiftl_spec by done. destruct (Z.leb_spec 32 j); [done|].
  by rewrite Z.testbit_neg_r by lia.
Qed.

(** Bit [j] of an entry after a write of one half: the low half keeps its
    Remote IRR, and has its Delivery Status clear. *)
Lemma written_entry_bit e top val j : 0 <= j -> 0 <= val < 2 ^ 32 ->
  Z.testbit (written_entry e top val) j =
    if top then if j <? 32 then Z.testbit e j else Z.testbit val (j - 32)
    else if 32 <=? j then Z.testbit e j
    else if j =? 12 then false
    else if j =? 14 then Z.testbit e 14
    else Z.testbit val j.
Proof.
  intros Hj Hv. unfold written_entry. destruct top.
  - rewrite Z.lor_spec, u32_bits, shiftl_bits by done.
    destruct (Z.ltb_spec j 32), (Z.leb_spec 32 j); try lia; simpl; by rewrite ?orb_false_r.
  - rewrite set_remote_irr_bit by done. unfold set_delivery_status.
    destruct (Z.leb_spec 32 j).
    + rewrite (proj2 (Z.eqb_neq j 14)) by lia. rewrite Z.clearbit_neq, Z.lor_spec, shiftl_bits by lia.
      rewrite (proj2 (Z.leb_le 32 j)), Z.shiftr_spec by lia. simpl. replace (j - 32 + 32) with j by lia.
      rewrite <- (Z.mod_small val (2 ^ 32)), Z.mod_pow2_bits_high, orb_false_r by lia. done.
    + destruct (Z.eqb_spec j 12) as [->|H12]; [by rewrite Z.clearbit_eq|].
      destruct (Z.eqb_spec j 14) as [->|H14]; [done|].
      rewrite Z.clearbit_neq, Z.lor_spec, shiftl_bits by auto.
      by rewrite (proj2 (Z.leb_gt 32 j)) by lia.
Qed.

Lemma written_entry_ok e top val : bits64 e -> 0 <= val < 2 ^ 32 -> bits64 (written_entry e top val).
Proof.
  intros He Hv. apply bits64_spec. split.
  - unfold written_entry. destruct top.
    + apply Z.lor_nonneg. split; [unfold u32; apply Z.mod_pos_bound; lia|apply Z.shiftl_nonneg; lia].
    + assert (0 <= Z.lor (Z.shiftl (Z.shiftr e 32) 32) val) as H0.
      { apply Z.lor_nonneg. split; [|lia]. apply Z.shiftl_nonneg, Z.shiftr_nonneg. apply He. }
      unfold set_remote_irr, set_delivery_status. unfold Z.clearbit, Z.setbit.
      destruct (rte_remote_irr e); [apply Z.lor_nonneg; split; [|done]|];
        repeat (apply Z.ldiff_nonneg; left); done.
  - apply bits64_spec in He as [_ He]. intros j Hj. rewrite written_entry_bit by (done || lia).
    destruct top; [rewrite (proj2 (Z.ltb_ge j 32)) by lia|rewrite (proj2 (Z.leb_le 32 j)) by lia; auto].
    rewrite <- (Z.mod_small val (2 ^ 32)) by lia. apply Z.mod_pow2_bits_high. lia.
Qed.

(** What a guest's access keeps. *)
Definition access_ok (h h' : hdom) : Prop :=
  hw_ok h' /\ apic_step h h' /\ (level_ok h -> level_ok h').

Lemma access_refl h : hw_ok h -> access_ok h h.
Proof. intros ?. split; [done|]. by split; [reflexivity|]. Qed.

Lemma adjust_target_wp h : hw_ok h -> wp vlapic_adjust_i8259_target (fun _ => access_ok h) h.
Proof.
  intros Hok. pose proof Hok as [A1 A2 A3 A4 A5 A6]. destruct (entry_exists h 0 Hok) as (e & He & _); [lia|].
  unfold vlapic_adjust_i8259_target. wp_step. apply wp_bind. eapply wp_elem; [lia|exact He|].
  apply wp_bind. assert (forall v, wp (if bool_decide (i8259_target (h_pics h) = v) then ret tt
    else on_pics (modify (set_i8259_target v));; apic_emit (ApicRetarget v)) (fun _ => access_ok h) h) as H.
  { intros v. case_match; [by apply wp_ret, access_refl|].
    apply wp_bind, wp_zoom, wp_modify. unfold apic_emit. wp_step. split; [by split|].
    split; [split; try done; [apply set_round_robin_same|intros i w Hw; exists w; by split]|done]. }
  destruct (first_accepting e (h_vcpus h) 0) as [i|]; [by apply wp_ret|].
  pose proof (zlen_nonneg (h_vcpus h)). apply wp_vcpu_ptr; [lia|lia|]. apply H.
Qed.

Lemma access_trans h1 h2 h3 : access_ok h1 h2 -> access_ok h2 h3 -> access_ok h1 h3.
Proof. intros (A1 & A2 & A3) (B1 & B2 & B3). split; [done|]. split; [by etrans|auto]. Qed.

Lemma with_entry_access g e h : hw_ok h -> bits64 e -> 0 <= g < 48 ->
  (forall n, 1 <= g -> gsi_assert_count (h_irq h) !! Z.to_nat g = Some n -> pin_ok e n) ->
  access_ok h (with_entry g e h).
Proof.
  intros Hok He Hg Hp. split; [by apply with_entry_ok|]. split; [apply with_entry_step|].
  intros Hl. apply level_with_entry; [done|done| |done]. intros g' e' n Hg' _. by apply Hl.
Qed.

Lemma delivery_access h h' : hw_ok h' -> delivery h h' -> access_ok h h'.
Proof.
  intros H1 H2. split; [done|]. split; [by apply delivery_step|]. intros Hl. by apply (level_delivery h).
Qed.

Lemma apic_emit_access e h0 h : access_ok h0 h -> wp (apic_emit e) (fun _ => access_ok h0) h.
Proof.
  intros Ha. unfold apic_emit. wp_step. eapply access_trans; [exact Ha|]. destruct Ha as ([A1 A2 A3 A4 A5 A6] & _).
  split; [by split|]. split; [split; try done; [apply set_round_robin_same|intros i v Hv; exists v; by split]|done].
Qed.

Lemma with_entry_twice g e e' h : with_entry g e (with_entry g e' h) = with_entry g e h.
Proof.
  unfold with_entry, set_ioapic, set_redirtbl, upd.
  cbn [h_ioapic redirtbl base_address ioregsel ioapic_id h_pics h_irq h_vcpus h_max_vcpus h_log].
  by rewrite list_insert_insert_eq.
Qed.

(** The part of a write under the lock. *)
Lemma write_redirent_pin pit0 idx e h : hw_ok h -> length (gsi_assert_count (h_irq h)) = 48%nat ->
  0 <= idx < 48 -> bits64 e ->
  wp (if idx =? 0 then vlapic_adjust_i8259_target
      else if negb (rte_trig_mode e) then set_entry idx (set_remote_irr false e)
      else
        q <- gets h_irq;;
        n <- elem (gsi_assert_count q) idx;;
        when (negb (rte_mask e) && negb (rte_remote_irr e) && negb (n =? 0))
          (set_entry idx (set_remote_irr true e);; vioapic_deliver pit0 idx VCPUID_ANY))
     (fun _ => access_ok h) (with_entry idx e h).
Proof.
  intros Hok Hlen Hi He. pose proof (with_entry_ok idx e h Hok He) as Hok1.
  destruct (Z.eqb_spec idx 0) as [->|Hne].
  { eapply wp_mono; [by apply adjust_target_wp|]. intros [] h'. apply access_trans.
    apply with_entry_access; [done|done|done|lia]. }
  destruct (rte_trig_mode e) eqn:Et; cbn [negb].
  2:{ apply wp_set_entry. rewrite with_entry_twice. apply with_entry_access; [done|by apply bits64_set|done|].
      intros n _ _ H1. autorewrite with rte in H1. congruence. }
  destruct (lookup_Z (gsi_assert_count (h_irq h)) idx) as [n Hn]; [unfold zlen; lia|].
  apply wp_bind, wp_gets, wp_bind. eapply wp_elem; [lia|exact Hn|]. apply wp_when; intros Hc.
  - apply wp_bind, wp_set_entry. rewrite with_entry_twice.
    assert (access_ok h (with_entry idx (set_remote_irr true e) h)) as Ha.
    { apply with_entry_access; [done|by apply bits64_set|done|]. intros m _ _ _ _ _. apply remote_irr_set. }
    eapply wp_mono; [apply deliver_wp; [apply Ha|done|by left]|]. intros [] h' [B1 B2].
    eapply access_trans; [exact Ha|by apply delivery_access].
  - apply with_entry_access; [done|done|done|]. intros m _ Hm H1 H2 H3. assert (m = n) as -> by congruence.
    rewrite H2 in Hc. destruct (rte_remote_irr e); [done|]. simpl in Hc. by destruct (Z.eqb_spec n 0).
Qed.

Lemma write_redirent_wp pit0 idx top val h : hw_ok h -> length (gsi_assert_count (h_irq h)) = 48%nat ->
  0 <= idx < 48 -> wp (vioapic_write_redirent pit0 idx top val) (fun _ => access_ok h) h.
Proof.
  intros Hok Hlen Hi. destruct (entry_exists h idx Hok Hi) as (e & He & Hb).
  unfold vioapic_write_redirent. cbv zeta. apply wp_bind. eapply wp_entry; [lia|exact He|].
  set (e' := written_entry e top (u32 val)).
  assert (bits64 e') as Hb' by (apply written_entry_ok; [done|apply u32_range]).
  apply wp_bind, wp_set_entry, wp_bind. eapply wp_mono; [by apply write_redirent_pin|].
  intros [] h' Ha. apply wp_when; intros _; [by apply apic_emit_access|done].
Qed.

(** An entry whose write leaves an asserted level-triggered pin unmasked and
    without Remote IRR is delivered. *)
Lemma write_redirent_requested pit0 idx top val h e n : hw_ok h -> 1 <= idx < 48 ->
  redirtbl (h_ioapic h) !! Z.to_nat idx = Some e -> gsi_assert_count (h_irq h) !! Z.to_nat idx = Some n ->
  let e' := written_entry e top (u32 val) in
  rte_trig_mode e' = true -> rte_mask e' = false -> rte_remote_irr e' = false -> n <> 0 ->
  rte_delivery_mode e' = dest_Fixed -> (idx =? hvm_isa_irq_to_gsi 0) && pit0 = false ->
  wp (vioapic_write_redirent pit0 idx top val) (fun _ => requested e') h.
Proof.
  intros Hok Hi He Hn e' Ht Hm Hr H0 Hd Hp. pose proof (Forall_lookup_1 _ _ _ _ (hw_bits _ Hok) He) as Hb.
  assert (bits64 e') as Hb' by (apply written_entry_ok; [done|apply u32_range]).
  unfold vioapic_write_redirent. cbv zeta. apply wp_bind. eapply wp_entry; [lia|exact He|]. fold e'.
  apply wp_bind, wp_set_entry, wp_bind. rewrite (proj2 (Z.eqb_neq idx 0)), Ht by lia. cbn [negb].
  apply wp_bind, wp_gets, wp_bind. eapply wp_elem; [lia|exact Hn|].
  rewrite Hm, Hr, (proj2 (Z.eqb_neq n 0)) by done. cbn [negb andb when]. apply wp_bind, wp_set_entry.
  rewrite with_entry_twice. set (h1 := with_entry idx _ h).
  eapply wp_mono; [apply (deliver_requested pit0 idx h1 (set_remote_irr true e'))|].
  - by apply with_entry_ok, bits64_set.
  - lia.
  - apply with_entry_lookup; [lia|done].
  - by rewrite delivery_mode_set.
  - done.
  - intros [] h' H. assert (requested e' h') as H' by (revert H; unfold requested; by autorewrite with rte).
    apply wp_when; intros _; [|done]. unfold apic_emit. apply wp_modify. eapply requested_grew; [|exact H'].
    by apply grew_vcpus.
Qed.

Lemma redir_index_nonneg sel : 0 <= redir_index sel.
Proof. apply Z.shiftr_nonneg. apply u32_range. Qed.

Lemma ioapic_write_wp pit0 addr val h : hw_ok h -> length (gsi_assert_count (h_irq h)) = 48%nat ->
  wp (vioapic_write pit0 addr val) (fun _ => access_ok h) h.
Proof.
  intros Hok Hlen. assert (forall a, redirtbl a = redirtbl (h_ioapic h) -> access_ok h (set_ioapic a h)) as Hs.
  { intros a Ha. pose proof Hok as [A1 A2 A3 A4 A5 A6]. split; [split; simpl; by rewrite ?Ha|].
    split; [split; try done; [apply set_round_robin_same|intros i v Hv; exists v; by split]|].
    intros Hl g e n Hg He. simpl in He. rewrite Ha in He. by apply (Hl g). }
  unfold vioapic_write. cbv zeta. case_match; [by apply (Hs (set_ioregsel (u32 val) (h_ioapic h)))|].
  case_match; [|by apply wp_ret, access_refl]. unfold vioapic_write_indirect. apply wp_bind, wp_gets.
  case_match; [by apply wp_ret, access_refl|].
  case_match; [by apply (Hs (set_ioapic_id _ (h_ioapic h)))|].
  case_match; [by apply wp_ret, access_refl|]. destruct (Z.leb_spec VIOAPIC_NUM_PINS (redir_index (ioregsel (h_ioapic h))))
    as [|Hr]; [by apply wp_ret, access_refl|].
  apply write_redirent_wp; [done|done|]. split; [apply redir_index_nonneg|exact Hr].
Qed.
