(* ===== verification/VioapicProps.v ===== *)
(** * Properties of the IO-APIC *)

From stdpp Require Import base list numbers.
From Stdlib Require Import ZArith Lia Bool.
From S2P Require Import Prelude Vpic HvmState Vlapic Vioapic VpicInv VpicOps VioapicInv.
From S2P Require Import VioapicInv VioapicOps.

Open Scope Z_scope.
Open Scope se_scope.

(** ** Delivery *)

(** The edge of an IO-APIC pin in fixed mode (not the timer's while its
    PIT channel runs) reaches exactly the vcpus that match the destination of
    the entry: each of them has the vector requested, with its trigger mode,
    and is kicked if it had not been requested before; the local APIC of every
    other vcpu, the 8259s and the wires are as they were.  The edge of a masked
    pin changes nothing. *)
Theorem fixed_interrupt_reaches_destination pit0 h g e : hw_ok h -> 0 <= g < 48 ->
  redirtbl (h_ioapic h) !! Z.to_nat g = Some e -> rte_delivery_mode e = dest_Fixed ->
  (g =? hvm_isa_irq_to_gsi 0) && pit0 = false ->
  exists h', vioapic_irq_positive_edge pit0 g VCPUID_ANY h = (h', Ok tt) /\
    if rte_mask e then h' = h else
      hw_ok h' /\ apic_step h h' /\ h_pics h' = h_pics h /\
      (forall j v, h_vcpus h !! j = Some v ->
         let m := vlapic_match_dest (Z.of_nat j) v None 0 (rte_dest_id e) (rte_dest_mode e) in
         h_vcpus h' !! j = Some (if m then injected (rte_vector e) (rte_trig_mode e) v else v) /\
         (m = true -> vlapic_test_vector (rte_vector e) APIC_IRR v = false ->
          ApicKick (Z.of_nat j) ∈ h_log h')).
Proof.
  intros Hok Hg He Hm Hp. unfold vioapic_irq_positive_edge, bind at 1.
  rewrite (proj2 (Z.ltb_lt g _)) by (unfold VIOAPIC_NUM_PINS; lia). cbn [negb bug_if]. unfold ret at 1.
  unfold bind at 1. unfold entry, bind, gets, elem. rewrite (proj2 (Z.ltb_ge g 0)), He by lia. unfold ret.
  destruct (rte_mask e) eqn:Em; [by exists h|].
  assert (forall h1, hw_ok h1 -> apic_step h h1 -> h_pics h1 = h_pics h -> h_vcpus h1 = h_vcpus h ->
    redirtbl (h_ioapic h1) !! Z.to_nat g = Some e \/
    redirtbl (h_ioapic h1) !! Z.to_nat g = Some (set_remote_irr true e) ->
    wp (vioapic_deliver pit0 g VCPUID_ANY) (fun _ h' => hw_ok h' /\ apic_step h h' /\ h_pics h' = h_pics h /\
      (forall j v, h_vcpus h !! j = Some v ->
         let m := vlapic_match_dest (Z.of_nat j) v None 0 (rte_dest_id e) (rte_dest_mode e) in
         h_vcpus h' !! j = Some (if m then injected (rte_vector e) (rte_trig_mode e) v else v) /\
         (m = true -> vlapic_test_vector (rte_vector e) APIC_IRR v = false ->
          ApicKick (Z.of_nat j) ∈ h_log h'))) h1) as H.
  { intros h1 O1 S1 P1 V1 E1.
    assert (exists e1, redirtbl (h_ioapic h1) !! Z.to_nat g = Some e1 /\ rte_delivery_mode e1 = dest_Fixed /\
      rte_dest_id e1 = rte_dest_id e /\ rte_dest_mode e1 = rte_dest_mode e /\ rte_vector e1 = rte_vector e /\
      rte_trig_mode e1 = rte_trig_mode e) as (e1 & Q1 & Q2 & Q3 & Q4 & Q5 & Q6).
    { destruct E1 as [E1|E1]; eexists; (split; [exact E1|]); autorewrite with rte; done. }
    eapply wp_mono; [by apply (deliver_fixed_wp pit0 g h1 e1)|]. rewrite Q3, Q4, Q5, Q6, V1.
    intros [] h' (B1 & B2 & B3 & B4). split; [done|]. split; [etrans; [done|by apply delivery_step]|].
    split; [by rewrite (dl_pics _ _ B2)|]. intros j v Hj m. split; [by apply B3|]. by apply B4. }
  destruct (rte_trig_mode e) eqn:Et; cbn [negb].
  - destruct (entry_exists h g Hok Hg) as (e' & He' & Hb).
    assert (e' = e) as -> by congruence.
    destruct (wp_inv _ _ _ (H (with_entry g (set_remote_irr true e) h)
      (with_entry_ok _ _ _ Hok (bits64_set _ _ Hb)) (with_entry_step _ _ _) eq_refl eq_refl
      (or_intror (with_entry_lookup _ _ _ Hg Hok)))) as (h' & [] & E & HQ).
    exists h'. split; [exact E|exact HQ].
  - destruct (wp_inv _ _ _ (H h Hok ltac:(reflexivity) eq_refl eq_refl (or_introl He))) as (h' & [] & E & HQ).
    exists h'. split; [exact E|exact HQ].
Qed.

(** A vcpu whose local APIC has the id [id]. *)
Definition plain_vcpu (id : Z) : vcpu := {|
  vl_regs := fun r => if r =? APIC_ID then Z.shiftl id 24 else if r =? APIC_DFR then APIC_DFR_FLAT else 0;
  vl_disabled := 0; vl_apic_base_msr := 0;
  vl_timer := {| timer_divisor := 2; tdt_msr := 0; pt_irq := 0; timer_last_update := 0 |};
  init_sipi := None; is_initialised := true; nmi_pending := false; mce_pending := false;
  evtchn_upcall_pending := false |}.

(** Pin 7 in fixed mode, vector 0x37 to APIC 2, edge-triggered and unmasked. *)
Definition pin7 : Z := 0x0200000000000037.
Definition two_apics : hdom := {|
  h_pics := {| pic0 := master_vpic; pic1 := zero_vpic; i8259_target := None; pic_log := [] |};
  h_irq := {| pci_intx := 0; isa_irq := 0; route := [0; 0; 0; 0]; callback_via_asserted := false;
              callback_via_type := HVMIRQ_callback_none; callback_via := 0;
              pci_link_assert_count := [0; 0; 0; 0]; gsi_assert_count := replicate 48 0;
              round_robin_prev_vcpu := 0 |};
  h_ioapic := {| base_address := VIOAPIC_DEFAULT_BASE_ADDRESS; ioregsel := 0; ioapic_id := 0;
                 redirtbl := <[7%nat := pin7]> (replicate 48 (Z.setbit 0 16)) |};
  h_vcpus := [plain_vcpu 0; plain_vcpu 2]; h_max_vcpus := 2; h_log := [] |}.

Lemma two_apics_ok : hw_ok two_apics.
Proof.
  split; try done.
  - apply Forall_insert; [apply Forall_replicate; done|done].
  - simpl. lia.
  - apply Forall_cons; [|apply Forall_cons; [|apply Forall_nil]];
      intros r; unfold plain_vcpu; cbn [vl_regs]; repeat case_match; vm_compute; done.
Qed.

Lemma fixed_interrupt_reaches_destination_witness :
  hw_ok two_apics /\ exists h', vioapic_irq_positive_edge true 7 VCPUID_ANY two_apics = (h', Ok tt) /\
    h_vcpus h' !! 0%nat = Some (plain_vcpu 0) /\
    h_vcpus h' !! 1%nat = Some (injected 0x37 false (plain_vcpu 2)) /\ ApicKick 1 ∈ h_log h'.
Proof.
  split; [apply two_apics_ok|].
  destruct (fixed_interrupt_reaches_destination true two_apics 7 pin7 two_apics_ok) as (h' & E & H);
    [lia|done|done|done|]. exists h'. split; [exact E|].
  change (rte_mask pin7) with false in H. destruct H as (_ & _ & _ & H).
  destruct (H 0%nat (plain_vcpu 0) eq_refl) as [H0 _]. destruct (H 1%nat (plain_vcpu 2) eq_refl) as [H1 H2].
  split; [exact H0|]. split; [exact H1|]. by apply H2.
Defined.

(** The edge of the same pin for one vcpu, as [hvm_isa_irq_assert_to_cpu] asks
    for it: in fixed mode nothing is delivered to any vcpu. *)
Theorem targeted_fixed_interrupt_lost pit0 h g e vcpu_id : hw_ok h -> 0 <= g < 48 ->
  redirtbl (h_ioapic h) !! Z.to_nat g = Some e -> rte_delivery_mode e = dest_Fixed ->
  rte_trig_mode e = false -> (g =? hvm_isa_irq_to_gsi 0) && pit0 = false ->
  vcpu_id <> VCPUID_ANY -> 0 <= vcpu_id < h_max_vcpus h ->
  vioapic_irq_positive_edge pit0 g vcpu_id h = (h, Ok tt).
Proof.
  intros Hok Hg He Hm Ht Hp Hne Hid. unfold vioapic_irq_positive_edge, bind at 1.
  rewrite (proj2 (Z.ltb_lt g _)) by (unfold VIOAPIC_NUM_PINS; lia). cbn [negb bug_if]. unfold ret at 1.
  unfold bind at 1. unfold entry at 1. unfold bind, gets, elem. rewrite (proj2 (Z.ltb_ge g 0)), He by lia. unfold ret.
  destruct (rte_mask e); [done|]. rewrite Ht. cbn [negb].
  assert (wp (vioapic_deliver pit0 g vcpu_id) (fun _ h' => h' = h) h) as H.
  { unfold vioapic_deliver. apply wp_bind. eapply wp_entry; [lia|exact He|]. cbv zeta. rewrite Hm, Hp.
    change (dest_Fixed =? dest_LowestPrio) with false. change (dest_Fixed =? dest_Fixed) with true.
    rewrite (proj2 (Z.eqb_neq vcpu_id VCPUID_ANY)) by done. cbn [negb].
    apply wp_bind, wp_vcpu_ptr; [by right|apply Hok|]. by apply wp_ret. }
  destruct (wp_inv _ _ _ H) as (h' & [] & E & ->). exact E.
Qed.

(** ** Registers *)

Lemma adjust_target_ioapic h : hw_ok h ->
  wp vlapic_adjust_i8259_target (fun _ h' => h_ioapic h' = h_ioapic h) h.
Proof.
  intros Hok. unfold vlapic_adjust_i8259_target. wp_step. destruct (entry_exists _ 0 Hok) as (e0 & He0 & _); [lia|].
  apply wp_bind. eapply wp_elem; [lia|exact He0|]. apply wp_bind.
  assert (forall v, wp (if bool_decide (i8259_target (h_pics h) = v) then ret tt
    else on_pics (modify (set_i8259_target v));; apic_emit (ApicRetarget v))
    (fun _ h' => h_ioapic h' = h_ioapic h) h) as Hv by (intros v; by case_match).
  destruct (first_accepting e0 _ 0); [by apply wp_ret|]. pose proof (zlen_nonneg (h_vcpus h)).
  pose proof (hw_vcpus _ Hok). apply wp_vcpu_ptr; [lia|lia|]. apply Hv.
Qed.

(** The entry and the registers after a write. *)
Lemma write_redirent_entry pit0 idx top val h e : hw_ok h -> length (gsi_assert_count (h_irq h)) = 48%nat ->
  0 <= idx < 48 -> redirtbl (h_ioapic h) !! Z.to_nat idx = Some e ->
  wp (vioapic_write_redirent pit0 idx top val) (fun _ h' => hw_ok h' /\ exists b,
    h_ioapic h' = set_redirtbl (upd idx (set_remote_irr b (written_entry e top (u32 val)))
                                  (redirtbl (h_ioapic h))) (h_ioapic h)) h.
Proof.
  intros Hok Hlen Hi He. pose proof (Forall_lookup_1 _ _ _ _ (hw_bits _ Hok) He) as Hb. cbv beta in Hb.
  pose proof (write_redirent_wp pit0 idx top val h Hok Hlen Hi) as Hw.
  assert (wp (vioapic_write_redirent pit0 idx top val) (fun _ h' => exists b,
    h_ioapic h' = h_ioapic (with_entry idx (set_remote_irr b (written_entry e top (u32 val))) h)) h) as H.
  { unfold vioapic_write_redirent. cbv zeta. apply wp_bind. eapply wp_entry; [lia|exact He|].
    set (e' := written_entry e top (u32 val)).
    assert (bits64 e') as Hb' by (apply written_entry_ok; [done|apply u32_range]).
    pose proof (with_entry_ok idx e' h Hok Hb') as Hok1.
    apply wp_bind, wp_set_entry, wp_bind.
    apply (wp_mono _ (fun _ h' => exists b, h_ioapic h' = h_ioapic (with_entry idx (set_remote_irr b e') h))).
    2:{ intros [] h' H. apply wp_when; intros _; [unfold apic_emit; wp_step|]; exact H. }
    assert (h_ioapic (with_entry idx (set_remote_irr (rte_remote_irr e') e') h) = h_ioapic (with_entry idx e' h)) as Hsame
      by (by rewrite set_remote_irr_same).
    destruct (idx =? 0).
    - eapply wp_mono; [by apply adjust_target_ioapic|]. intros [] h' ->. by eexists.
    - destruct (negb (rte_trig_mode e')); [apply wp_set_entry; rewrite with_entry_twice; by eexists|].
      apply wp_bind, wp_gets. destruct (lookup_Z (gsi_assert_count (h_irq h)) idx) as [n Hn]; [unfold zlen; lia|].
      apply wp_bind. eapply wp_elem; [lia|exact Hn|]. apply wp_when; intros _; [|by eexists].
      apply wp_bind, wp_set_entry. rewrite with_entry_twice.
      eapply wp_mono; [apply deliver_wp; [by apply with_entry_ok, bits64_set|done|by left]|].
      intros [] h' [_ D]. rewrite (dl_ioapic _ _ D). by eexists. }
  destruct (wp_inv _ _ _ H) as (h' & [] & E & b & Hb2). unfold wp in *. rewrite E in *.
  split; [apply Hw|]. by exists b.
Qed.

(** The window on the half [top] of the entry [g]. *)
Definition select (g : Z) (top : bool) : Z := 0x10 + 2 * g + Z.b2z top.

Lemma select_spec g top : 0 <= g < 48 -> redir_index (select g top) = g /\
  Z.testbit (select g top) 0 = top /\ 3 <= select g top /\ u32 (select g top) = select g top.
Proof.
  intros Hg. unfold select, redir_index. assert (0 <= Z.b2z top <= 1) by (destruct top; simpl; lia).
  assert (u32 (0x10 + 2 * g + Z.b2z top - 0x10) = 2 * g + Z.b2z top) as -> by (unfold u32; rewrite Z.mod_small; lia).
  repeat split; [| |lia|unfold u32; rewrite Z.mod_small; lia].
  - rewrite Z.shiftr_div_pow2 by lia. change (2 ^ 1) with 2. zlia.
  - replace (0x10 + 2 * g + Z.b2z top) with (2 * (8 + g) + Z.b2z top) by lia. apply Z.testbit_0_r.
Qed.

(** One half of an entry. *)
Definition half (top : bool) (e : Z) : Z :=
  if top then Z.land (Z.shiftr e 32) 0xffffffff else Z.land e 0xffffffff.

Lemma half_bit top e j : 0 <= j ->
  Z.testbit (half top e) j = (j <? 32) && Z.testbit e (if top then j + 32 else j).
Proof.
  intros Hj. unfold half. change 0xffffffff with (Z.ones 32). destruct top;
    rewrite Z.land_spec, Z.testbit_ones_nonneg by lia; rewrite ?Z.shiftr_spec by lia; apply andb_comm.
Qed.

Lemma half_range top e : 0 <= half top e < 2 ^ 32.
Proof.
  unfold half. change 0xffffffff with (Z.ones 32).
  destruct top; rewrite Z.land_ones by lia; apply Z.mod_pos_bound; lia.
Qed.

(** Reading the window. *)
Lemma read_window g top h e : 0 <= g < 48 -> ioregsel (h_ioapic h) = select g top ->
  redirtbl (h_ioapic h) !! Z.to_nat g = Some e -> vioapic_read VIOAPIC_REG_WINDOW h = (h, Ok (half top e)).
Proof.
  intros Hg Hs He. destruct (select_spec g top Hg) as (S1 & S2 & S3 & S4).
  unfold vioapic_read, bind at 1, gets. cbv zeta. change (Z.land VIOAPIC_REG_WINDOW 0xff =? VIOAPIC_REG_SELECT) with false.
  change (Z.land VIOAPIC_REG_WINDOW 0xff =? VIOAPIC_REG_WINDOW) with true. cbv iota.
  unfold vioapic_read_indirect. cbv zeta. rewrite Hs, S1, S2.
  rewrite !(proj2 (Z.eqb_neq (select g top) _)) by (unfold VIOAPIC_REG_VERSION, VIOAPIC_REG_APIC_ID, VIOAPIC_REG_ARB_ID; lia).
  rewrite (proj2 (Z.leb_gt VIOAPIC_NUM_PINS g)) by (unfold VIOAPIC_NUM_PINS; lia). cbn [orb].
  unfold bind, elem. rewrite (proj2 (Z.ltb_ge g 0)), He by lia. unfold ret.
  change (if top then Z.land (Z.shiftr e 32) 0xffffffff else Z.land e 0xffffffff) with (half top e).
  do 2 f_equal. unfold u32. apply Z.mod_small. apply half_range.
Qed.

(** Writing the window and the selector. *)
Lemma write_window pit0 g top val h : 0 <= g < 48 -> ioregsel (h_ioapic h) = select g top ->
  vioapic_write pit0 VIOAPIC_REG_WINDOW val h = vioapic_write_redirent pit0 g top val h.
Proof.
  intros Hg Hs. destruct (select_spec g top Hg) as (S1 & S2 & S3 & S4). unfold vioapic_write. cbv zeta.
  change (Z.land VIOAPIC_REG_WINDOW 0xff =? VIOAPIC_REG_SELECT) with false.
  change (Z.land VIOAPIC_REG_WINDOW 0xff =? VIOAPIC_REG_WINDOW) with true. cbv iota.
  unfold vioapic_write_indirect, bind at 1, gets. rewrite Hs, S1, S2.
  rewrite !(proj2 (Z.eqb_neq (select g top) _)) by (unfold VIOAPIC_REG_VERSION, VIOAPIC_REG_APIC_ID, VIOAPIC_REG_ARB_ID; lia).
  by rewrite (proj2 (Z.leb_gt VIOAPIC_NUM_PINS g)) by (unfold VIOAPIC_NUM_PINS; lia).
Qed.

Lemma write_select pit0 g top h : 0 <= g < 48 ->
  vioapic_write pit0 VIOAPIC_REG_SELECT (select g top) h =
    (set_ioapic (set_ioregsel (select g top) (h_ioapic h)) h, Ok tt).
Proof.
  intros Hg. destruct (select_spec g top Hg) as (_ & _ & _ & S4).
  unfold vioapic_write, on_ioapic, modify. cbv zeta. by rewrite S4.
Qed.

(** The halves of an entry after one of them was written. *)
Lemma written_halves e top val b : let e' := set_remote_irr b (written_entry e top (u32 val)) in
  (forall j, 0 <= j < 32 -> top = true \/ (j <> 12 /\ j <> 14) ->
     Z.testbit (half top e') j = Z.testbit val j) /\
  (top = false -> Z.testbit (half top e') 12 = false) /\
  (forall j, 0 <= j < 32 -> top = false \/ j <> 14 ->
     Z.testbit (half (negb top) e') j = Z.testbit e (if top then j else j + 32)).
Proof.
  intros e'. pose proof (fun j Hj => written_entry_bit e top (u32 val) j Hj (u32_range val)) as Hw.
  assert (forall j, 0 <= j -> j <> 14 -> Z.testbit e' j = Z.testbit (written_entry e top (u32 val)) j) as Hbit.
  { intros j Hj Hne. unfold e'. rewrite set_remote_irr_bit by done. by rewrite (proj2 (Z.eqb_neq j 14)). }
  split; [|split].
  - intros j Hj Hro. rewrite half_bit, (proj2 (Z.ltb_lt j 32)) by lia. cbn [andb]. destruct top.
    + rewrite Hbit, Hw by lia. rewrite (proj2 (Z.ltb_ge (j + 32) 32)) by lia.
      replace (j + 32 - 32) with j by lia. by rewrite u32_bits, (proj2 (Z.ltb_lt j 32)) by lia.
    + destruct Hro as [|[H12 H14]]; [done|]. rewrite Hbit, Hw by lia.
      rewrite (proj2 (Z.leb_gt 32 j)), (proj2 (Z.eqb_neq j 12)), (proj2 (Z.eqb_neq j 14)) by (done || lia).
      by rewrite u32_bits, (proj2 (Z.ltb_lt j 32)) by lia.
  - intros ->. by rewrite half_bit, Hbit, Hw by lia.
  - intros j Hj Hro. rewrite half_bit, (proj2 (Z.ltb_lt j 32)) by lia. cbn [andb]. destruct top; cbn [negb].
    + destruct Hro as [|H14]; [done|]. rewrite Hbit, Hw by lia. by rewrite (proj2 (Z.ltb_lt j 32)) by lia.
    + rewrite Hbit, Hw by lia. by rewrite (proj2 (Z.leb_le 32 (j + 32))) by lia.
Qed.

(** What a guest writes to a redirection entry it reads back.  After
    selecting one half of entry [g] and writing [val] to the window, the window
    reads [val], but that the two read-only bits of the low half (Delivery
    Status, Remote IRR) are not taken from [val] and Delivery Status reads 0;
    the other half, but for Remote IRR, and every other entry are unchanged. *)
Theorem redirection_entry_reads_back pit0 h g top val e :
  hw_ok h -> length (gsi_assert_count (h_irq h)) = 48%nat -> 0 <= g < 48 ->
  redirtbl (h_ioapic h) !! Z.to_nat g = Some e ->
  exists h' r o,
    (vioapic_write pit0 VIOAPIC_REG_SELECT (select g top);;
     vioapic_write pit0 VIOAPIC_REG_WINDOW val) h = (h', Ok tt) /\
    vioapic_read VIOAPIC_REG_WINDOW h' = (h', Ok r) /\
    (forall j, 0 <= j < 32 -> top = true \/ (j <> 12 /\ j <> 14) -> Z.testbit r j = Z.testbit val j) /\
    (top = false -> Z.testbit r 12 = false) /\
    snd ((vioapic_write pit0 VIOAPIC_REG_SELECT (select g (negb top));; vioapic_read VIOAPIC_REG_WINDOW) h') = Ok o /\
    (forall j, 0 <= j < 32 -> top = false \/ j <> 14 ->
       Z.testbit o j = Z.testbit e (if top then j else j + 32)) /\
    (forall k, k <> Z.to_nat g -> redirtbl (h_ioapic h') !! k = redirtbl (h_ioapic h) !! k).
Proof.
  intros Hok Hlen Hg He. set (h1 := set_ioapic (set_ioregsel (select g top) (h_ioapic h)) h).
  assert (hw_ok h1) as Hok1 by (destruct Hok; by split).
  destruct (wp_inv _ _ _ (write_redirent_entry pit0 g top val h1 e Hok1 Hlen Hg He))
    as (h' & [] & E & Hok' & b & Hio).
  destruct (written_halves e top val b) as (H1 & H2 & H3).
  set (e' := set_remote_irr b (written_entry e top (u32 val))) in *.
  assert (redirtbl (h_ioapic h') !! Z.to_nat g = Some e') as He'.
  { rewrite Hio. apply list_lookup_insert_eq. rewrite (hw_pins _ Hok1). lia. }
  exists h', (half top e'), (half (negb top) e').
  split; [|split; [apply (read_window g); [done|by rewrite Hio|done]|]].
  { unfold bind. rewrite write_select by done. fold h1. by rewrite (write_window pit0 g top val h1). }
  split; [done|]. split; [done|]. split; [|split; [done|]].
  - unfold bind. rewrite write_select by done. by rewrite (read_window g (negb top) _ e').
  - intros k Hk. rewrite Hio. cbn [set_redirtbl redirtbl]. unfold upd. by rewrite list_lookup_insert_ne.
Qed.

Lemma redirection_entry_reads_back_witness : hw_ok two_apics /\
  exists h' r o,
    (vioapic_write true VIOAPIC_REG_SELECT (select 7 false);;
     vioapic_write true VIOAPIC_REG_WINDOW 0x1D0FF) two_apics = (h', Ok tt) /\
    vioapic_read VIOAPIC_REG_WINDOW h' = (h', Ok r) /\
    (forall j, 0 <= j < 32 -> false = true \/ (j <> 12 /\ j <> 14) -> Z.testbit r j = Z.testbit 0x1D0FF j) /\
    (false = false -> Z.testbit r 12 = false) /\
    snd ((vioapic_write true VIOAPIC_REG_SELECT (select 7 true);; vioapic_read VIOAPIC_REG_WINDOW) h') = Ok o /\
    (forall j, 0 <= j < 32 -> false = false \/ j <> 14 -> Z.testbit o j = Z.testbit pin7 (j + 32)) /\
    (forall k, k <> Z.to_nat 7 -> redirtbl (h_ioapic h') !! k = redirtbl (h_ioapic two_apics) !! k).
Proof.
  split; [apply two_apics_ok|].
  apply (redirection_entry_reads_back true two_apics 7 false 0x1D0FF pin7 two_apics_ok); [done|lia|done].
Defined.
