(* ===== verification/HvmIrqOps.v ===== *)
(** * What the counters of the interrupt wires count

    The number of wires that assert a link and a GSI as functions of the wires,
    and the invariant that the counters of [struct hvm_irq] have these values. *)

From stdpp Require Import base list sets numbers.
From Stdlib Require Import ZArith Lia Bool.
From S2P Require Import Prelude Vpic VpicInv VpicOps HvmState Vlapic Vioapic HvmIrq VioapicInv VioapicOps.

Open Scope Z_scope.
Open Scope se_scope.

(** ** Counting *)

Fixpoint count (f : Z -> bool) (l : list Z) : Z :=
  match l with
  | [] => 0
  | i :: l => Z.b2z (f i) + count f l
  end.

Lemma count_ext f f' l : (forall i, i ∈ l -> f i = f' i) -> count f l = count f' l.
Proof.
  induction l as [|i l IH]; [done|]. intros H. simpl.
  rewrite (H i) by set_solver. rewrite IH; [done|]. intros j ?. apply H. set_solver.
Qed.

Lemma count_bounds f l : 0 <= count f l <= zlen l.
Proof.
  unfold zlen. induction l as [|i l IH]; simpl; [lia|]. destruct (f i); simpl; lia.
Qed.

Lemma count_none f l : (forall i, i ∈ l -> f i = false) -> count f l = 0.
Proof.
  induction l as [|i l IH]; [done|]. intros H. simpl.
  rewrite (H i), IH by set_solver. done.
Qed.

(** A predicate that changes at one element of the list. *)
Lemma count_flip f f' l b : NoDup l -> b ∈ l -> (forall i, i ∈ l -> i <> b -> f' i = f i) ->
  count f' l = count f l + (Z.b2z (f' b) - Z.b2z (f b)).
Proof.
  induction l as [|i l IH]; [set_solver|]. intros Hn0 Hb H. inversion Hn0 as [|? ? Hi Hn]; subst.
  simpl. destruct (decide (i = b)) as [->|Hne].
  - rewrite (count_ext f' f l); [lia|]. intros j Hj. apply H; [set_solver|]. by intros ->.
  - rewrite IH, (H i); [lia|set_solver|done|done|set_solver|]. intros j ? ?. apply H; set_solver.
Qed.

(** The numbers below [n]. *)
Definition below (n : nat) : list Z := map Z.of_nat (seq 0 n).

Lemma elem_of_below n i : i ∈ below n <-> 0 <= i < Z.of_nat n.
Proof.
  unfold below. rewrite list_elem_of_fmap. setoid_rewrite elem_of_seq. split.
  - intros (k & -> & ?). lia.
  - intros ?. exists (Z.to_nat i). lia.
Qed.
Lemma NoDup_below n : NoDup (below n).
Proof. apply NoDup_fmap_2; [intros ??; lia|apply NoDup_seq]. Qed.
Lemma zlen_below n : zlen (below n) = Z.of_nat n.
Proof. unfold zlen, below. by rewrite length_map, length_seq. Qed.

Lemma count_flip_below n f f' b : 0 <= b < Z.of_nat n ->
  (forall i, 0 <= i < Z.of_nat n -> i <> b -> f' i = f i) ->
  count f' (below n) = count f (below n) + (Z.b2z (f' b) - Z.b2z (f b)).
Proof.
  intros Hb H. apply count_flip; [apply NoDup_below|by apply elem_of_below|].
  intros i Hi. apply H. by apply elem_of_below.
Qed.
Lemma count_below_ext n f f' : (forall i, 0 <= i < Z.of_nat n -> f i = f' i) ->
  count f (below n) = count f' (below n).
Proof. intros H. apply count_ext. intros i Hi. apply H. by apply elem_of_below. Qed.

(** ** The wires of a link and of a GSI *)

(** The GSI and the link of wire [b] of the PCI bus. *)
Definition wire_gsi (b : Z) : Z := hvm_pci_intx_gsi (b / 4) (b mod 4).
Definition wire_link (b : Z) : Z := hvm_pci_intx_link (b / 4) (b mod 4).

Definition link_level (w l : Z) : Z :=
  count (fun b => Z.testbit w b && (wire_link b =? l)) (below 128).
Definition pci_level (w g : Z) : Z :=
  count (fun b => Z.testbit w b && (wire_gsi b =? g)) (below 128).
Definition isa_level (w g : Z) : Z :=
  count (fun i => Z.testbit w i && (hvm_isa_irq_to_gsi i =? g)) (below 16).
(** The links that are asserted and routed to [g]; a route of 0 is none. *)
Definition routed_level (w : Z) (rt : list Z) (g : Z) : Z :=
  count (fun l => (0 <? link_level w l) && negb (g =? 0) && (znth rt l =? g)) (below 4).
Definition callback_level (q : hvm_irq) (g : Z) : Z :=
  Z.b2z (callback_via_asserted q &&
         bool_decide (callback_via_type q = HVMIRQ_callback_gsi) && (callback_via q =? g)).

(** How many sources assert [g]. *)
Definition gsi_level (q : hvm_irq) (g : Z) : Z :=
  pci_level (pci_intx q) g + isa_level (isa_irq q) g +
  routed_level (pci_intx q) (route q) g + callback_level q g.

Lemma link_level_bounds w l : 0 <= link_level w l <= 128.
Proof. apply (count_bounds _ (below 128)). Qed.

(** The parts of a level are not negative. *)
Lemma gsi_level_parts q g :
  0 <= pci_level (pci_intx q) g <= 128 /\ 0 <= isa_level (isa_irq q) g <= 16 /\
  0 <= routed_level (pci_intx q) (route q) g <= 4 /\ 0 <= callback_level q g <= 1.
Proof.
  pose proof (count_bounds (fun b => Z.testbit (pci_intx q) b && (wire_gsi b =? g)) (below 128)).
  pose proof (count_bounds (fun i => Z.testbit (isa_irq q) i && (hvm_isa_irq_to_gsi i =? g)) (below 16)).
  pose proof (count_bounds (fun l => (0 <? link_level (pci_intx q) l) && negb (g =? 0) &&
                                     (znth (route q) l =? g)) (below 4)).
  change (zlen (below 128)) with 128 in *. change (zlen (below 16)) with 16 in *.
  change (zlen (below 4)) with 4 in *. unfold pci_level, isa_level, routed_level, callback_level.
  destruct (callback_via_asserted q && _ && _); cbn [Z.b2z]; lia.
Qed.

Lemma gsi_level_bounds q g : 0 <= gsi_level q g <= 149.
Proof. pose proof (gsi_level_parts q g). unfold gsi_level. lia. Qed.

(** ** The invariant *)

(** Wire [b] of device and pin. *)
Lemma wire_split dev intx : 0 <= dev <= 31 -> 0 <= intx <= 3 ->
  0 <= dev * 4 + intx < 128 /\ (dev * 4 + intx) / 4 = dev /\ (dev * 4 + intx) mod 4 = intx.
Proof. intros ??. zlia. Qed.

Definition callback_ok (q : hvm_irq) : Prop :=
  match callback_via_type q with
  | HVMIRQ_callback_gsi => 0 < callback_via q < 48
  | HVMIRQ_callback_pci_intx =>
      0 <= via_dev (callback_via q) <= 31 /\ 0 <= via_intx (callback_via q) <= 3
  | _ => True
  end.

Record irq_ok (q : hvm_irq) : Prop := {
  io_route : length (route q) = 4%nat /\ Forall (fun r => 0 <= r <= 15) (route q);
  io_links : pci_link_assert_count q = map (link_level (pci_intx q)) (below 4);
  io_gsis : gsi_assert_count q = map (gsi_level q) (below 48);
  io_callback : callback_ok q
}.

Lemma below_lookup n (f : Z -> Z) i : 0 <= i < Z.of_nat n ->
  map f (below n) !! Z.to_nat i = Some (f i).
Proof.
  intros Hi. unfold below. change (map f (map Z.of_nat (seq 0 n))) with (f <$> (Z.of_nat <$> seq 0 n)).
  rewrite !list_lookup_fmap, lookup_seq_lt by lia. simpl. do 2 f_equal. lia.
Qed.

Lemma map_below_ext n (f f' : Z -> Z) : (forall i, 0 <= i < Z.of_nat n -> f i = f' i) ->
  map f (below n) = map f' (below n).
Proof. intros H. apply map_ext_in. intros i Hi. apply H, elem_of_below. by apply list_elem_of_In. Qed.

(** A counter that is changed where the level changes. *)
Lemma upd_below n f f' k : 0 <= k < Z.of_nat n ->
  (forall i, 0 <= i < Z.of_nat n -> i <> k -> f' i = f i) ->
  upd k (f' k) (map f (below n)) = map f' (below n).
Proof.
  intros Hk H. apply list_eq. intros j. unfold upd.
  destruct (decide (j < n)%nat) as [Hj|Hj].
  - rewrite <- (Nat2Z.id j). rewrite (below_lookup n f') by lia.
    destruct (decide (Z.of_nat j = k)) as [->|Hne].
    + rewrite list_lookup_insert_eq; [done|]. unfold below. rewrite !length_map, length_seq. lia.
    + rewrite list_lookup_insert_ne by lia. rewrite below_lookup by lia. f_equal. symmetry. apply H; lia.
  - rewrite !lookup_ge_None_2; [done| |];
      unfold below; rewrite ?length_insert, !length_map, length_seq; lia.
Qed.

(** ** Changes of one wire *)

Lemma link_level_set w b l : 0 <= b < 128 -> Z.testbit w b = false ->
  link_level (Z.setbit w b) l = link_level w l + Z.b2z (wire_link b =? l).
Proof.
  intros Hb Hw. unfold link_level.
  rewrite (count_flip_below 128 (fun c => Z.testbit w c && (wire_link c =? l)) _ b) by
    (done || (intros i Hi Hne; rewrite Z.setbit_neq by lia; done)).
  rewrite Z.setbit_eq, Hw by lia. simpl. lia.
Qed.

Lemma pci_level_set w b g : 0 <= b < 128 -> Z.testbit w b = false ->
  pci_level (Z.setbit w b) g = pci_level w g + Z.b2z (wire_gsi b =? g).
Proof.
  intros Hb Hw. unfold pci_level.
  rewrite (count_flip_below 128 (fun c => Z.testbit w c && (wire_gsi c =? g)) _ b) by
    (done || (intros i Hi Hne; rewrite Z.setbit_neq by lia; done)).
  rewrite Z.setbit_eq, Hw by lia. simpl. lia.
Qed.

Lemma isa_level_set w i g : 0 <= i < 16 -> Z.testbit w i = false ->
  isa_level (Z.setbit w i) g = isa_level w g + Z.b2z (hvm_isa_irq_to_gsi i =? g).
Proof.
  intros Hi Hw. unfold isa_level.
  rewrite (count_flip_below 16 (fun c => Z.testbit w c && (hvm_isa_irq_to_gsi c =? g)) _ i) by
    (done || (intros j Hj Hne; rewrite Z.setbit_neq by lia; done)).
  rewrite Z.setbit_eq, Hw by lia. simpl. lia.
Qed.

Lemma wire_link_bound b : 0 <= wire_link b < 4.
Proof.
  unfold wire_link, hvm_pci_intx_link. change 3 with (Z.ones 2). rewrite Z.land_ones by lia.
  apply (Z.mod_pos_bound _ (2 ^ 2)). lia.
Qed.

Lemma wire_gsi_bound b : 16 <= wire_gsi b < 48.
Proof.
  unfold wire_gsi, hvm_pci_intx_gsi. change 31 with (Z.ones 5). rewrite Z.land_ones by lia.
  pose proof (Z.mod_pos_bound (Z.shiftl (b / 4) 2 + Z.shiftr (b / 4) 3 + b mod 4) (2 ^ 5)). lia.
Qed.

(** A wire that becomes the first one of its link asserts the link's route. *)
Lemma routed_level_set w b rt g : 0 <= b < 128 -> Z.testbit w b = false ->
  routed_level (Z.setbit w b) rt g = routed_level w rt g +
    Z.b2z ((link_level w (wire_link b) =? 0) && negb (g =? 0) && (znth rt (wire_link b) =? g)).
Proof.
  intros Hb Hw. pose proof (wire_link_bound b) as HL. set (L := wire_link b) in *.
  unfold routed_level.
  rewrite (count_flip_below 4 (fun l => (0 <? link_level w l) && negb (g =? 0) && (znth rt l =? g)) _ L); [|lia|].
  - rewrite link_level_set by done. fold L. rewrite Z.eqb_refl. cbn [Z.b2z].
    pose proof (link_level_bounds w L). destruct (Z.ltb_spec 0 (link_level w L + 1)); [|lia].
    destruct (Z.ltb_spec 0 (link_level w L)), (Z.eqb_spec (link_level w L) 0); try lia;
      destruct (negb (g =? 0) && (znth rt L =? g)) eqn:E; simpl; rewrite ?E; simpl; lia.
  - intros i Hi Hne. rewrite link_level_set by done. fold L.
    rewrite (proj2 (Z.eqb_neq L i)) by auto. cbn [Z.b2z]. by rewrite Z.add_0_r.
Qed.

Lemma setbit_clearbit w b : 0 <= b -> Z.testbit w b = true -> Z.setbit (Z.clearbit w b) b = w.
Proof.
  intros Hb Hw. apply Z.bits_inj'. intros j Hj. destruct (decide (j = b)) as [->|Hne].
  - by rewrite Z.setbit_eq.
  - rewrite Z.setbit_neq, Z.clearbit_neq by auto. done.
Qed.

(** A route that changes moves the link's contribution. *)
Lemma routed_level_route w rt l r g : 0 <= l < 4 -> length rt = 4%nat ->
  routed_level w (upd l r rt) g = routed_level w rt g +
    (Z.b2z ((0 <? link_level w l) && negb (g =? 0) && (r =? g)) -
     Z.b2z ((0 <? link_level w l) && negb (g =? 0) && (znth rt l =? g))).
Proof.
  intros Hl Hlen. unfold routed_level.
  rewrite (count_flip_below 4 (fun l => (0 <? link_level w l) && negb (g =? 0) && (znth rt l =? g)) _ l).
  - unfold znth at 2, upd. rewrite list_lookup_insert_eq by lia. done.
  - lia.
  - intros i Hi Hne. unfold znth, upd. by rewrite list_lookup_insert_ne by lia.
Qed.

(** ** Functions with one value changed *)

Definition bump (f : Z -> Z) (k d : Z) (g : Z) : Z := f g + (if g =? k then d else 0).

Lemma bump_at f k d : bump f k d k = f k + d.
Proof. unfold bump. by rewrite Z.eqb_refl. Qed.
Lemma bump_ne f k d g : g <> k -> bump f k d g = f g.
Proof. intros ?. unfold bump. rewrite (proj2 (Z.eqb_neq g k)) by done. lia. Qed.

(** * The operations on the interrupt wires

    The counters and the IO-APIC pins follow the wires: each operation of irq.c
    keeps them together. *)

(** ** Counters *)

(** The domain with other counters of the GSIs, of the links. *)
Definition counted (f : Z -> Z) (h : hdom) : hdom :=
  set_irqs (set_gsi_counts (map f (below 48)) (h_irq h)) h.
Definition linked (lk : Z -> Z) (h : hdom) : hdom :=
  set_irqs (set_link_counts (map lk (below 4)) (h_irq h)) h.

(** The counters of a domain whose other parts changed. *)
Ltac counts_in H :=
  unfold counted, linked in H;
  cbn [h_irq set_irqs set_pics set_gsi_counts gsi_assert_count set_link_counts
       pci_link_assert_count] in H.

(** The counters have the values [f] and [lk], and the pins follow them. *)
Record wires (f lk : Z -> Z) (h : hdom) : Prop := {
  wi_hw : hw_ok h;
  wi_gsis : gsi_assert_count (h_irq h) = map f (below 48);
  wi_links : pci_link_assert_count (h_irq h) = map lk (below 4);
  wi_level : level_ok h
}.

(** The fields of [struct hvm_irq] that are not counters. *)
Record same_wires (q q' : hvm_irq) : Prop := {
  sw_pci : pci_intx q' = pci_intx q;
  sw_isa : isa_irq q' = isa_irq q;
  sw_route : route q' = route q;
  sw_asserted : callback_via_asserted q' = callback_via_asserted q;
  sw_type : callback_via_type q' = callback_via_type q;
  sw_via : callback_via q' = callback_via q
}.

#[export] Instance same_wires_preorder : PreOrder same_wires.
Proof. split; [done|]. intros q1 q2 q3 [] []. split; congruence. Qed.

Lemma same_wires_step h h' : apic_step h h' -> same_wires (h_irq h) (h_irq h').
Proof. intros [_ -> _ _ _]. by split. Qed.

Lemma wires_len f lk h : wires f lk h -> length (gsi_assert_count (h_irq h)) = 48%nat.
Proof. intros [_ -> _ _]. unfold below. by rewrite !length_map. Qed.

(** A change of the domain that leaves the counters. *)
Lemma wires_access f lk h h' : access_ok h h' -> wires f lk h -> wires f lk h'.
Proof.
  intros (H1 & H2 & H3) [A1 A2 A3 A4]. destruct (step_counts _ _ H2) as [C1 C2].
  split; [done|by rewrite C1|by rewrite C2|auto].
Qed.

Lemma wires_irq f lk h q : wires f lk h -> gsi_assert_count q = gsi_assert_count (h_irq h) ->
  pci_link_assert_count q = pci_link_assert_count (h_irq h) ->
  round_robin_prev_vcpu q = round_robin_prev_vcpu (h_irq h) -> wires f lk (set_irqs q h).
Proof.
  intros [[B1 B2 B3 B4 B5 B6] A2 A3 A4] H1 H2 H3.
  split; [split; cbn [h_irq set_irqs]; try rewrite H3; done|exact (eq_trans H1 A2)|exact (eq_trans H2 A3)|].
  intros g e n Hg He Hn. counts_in Hn. rewrite H1 in Hn. by apply (A4 g).
Qed.

Lemma map_below_lookup n (f : Z -> Z) k m : 0 <= k < Z.of_nat n -> map f (below n) !! Z.to_nat k = Some m ->
  m = f k.
Proof. intros Hk H. rewrite below_lookup in H by done. congruence. Qed.

(** ** Edges of the 8259s *)

Lemma pic_edge_wp up i h : hw_ok h -> 0 <= i <= 15 ->
  wp (on_pics (vpic_irq_edge up i)) (fun _ h' => exists p, h' = set_pics p h /\ hw_ok h') h.
Proof.
  intros Hok Hi. destruct (edge_ok up i (h_pics h) (hw_pics _ Hok) Hi) as [He Hp]. cbv zeta in *.
  apply wp_zoom. eapply wp_eq; [exact He|]. eexists. split; [done|].
  destruct Hok as [A1 A2 A3 A4 A5 A6]. by split.
Qed.

Section Ops.
Context (pit0 : bool).

(** ** A source more, a source less *)

(** The edge of GSI [k] and of the 8259 line [pic], if any. *)
Definition gsi_edge (k : Z) (pic : option Z) (vcpu_id : Z) : SE hdom unit :=
  match pic with
  | Some i => vioapic_irq_positive_edge pit0 k vcpu_id;; on_pics (vpic_irq_positive_edge i)
  | None => vioapic_irq_positive_edge pit0 k vcpu_id
  end.

Definition pic_of_gsi (pic : option Z) : Prop := forall i, pic = Some i -> 0 <= i <= 15.

Lemma on_irq_wp g (Q : unit -> hdom -> Prop) h : Q tt (set_irqs (g (h_irq h)) h) -> wp (on_irq g) Q h.
Proof. done. Qed.

(** A counter more. *)
Lemma gsi_count_wp f k (Q : Z -> hdom -> Prop) h : gsi_assert_count (h_irq h) = map f (below 48) ->
  0 <= k < 48 -> 0 <= f k < 255 -> Q (f k) (counted (bump f k 1) h) -> wp (gsi_inc k) Q h.
Proof.
  intros A2 Hk Hf HQ. unfold gsi_inc. apply wp_bind, wp_gets, wp_bind.
  eapply wp_elem; [lia|rewrite A2; by apply below_lookup|]. apply wp_bind, on_irq_wp, wp_ret.
  rewrite A2. assert (u8 (f k + 1) = bump f k 1 k) as -> by (rewrite bump_at; apply Z.mod_small; lia).
  rewrite upd_below; [done|lia|]. intros g Hg Hne. by apply bump_ne.
Qed.
Lemma link_count_wp lk l (Q : Z -> hdom -> Prop) h : pci_link_assert_count (h_irq h) = map lk (below 4) ->
  0 <= l < 4 -> 0 <= lk l < 255 -> Q (lk l) (linked (bump lk l 1) h) -> wp (link_inc l) Q h.
Proof.
  intros A3 Hk Hf HQ. unfold link_inc. apply wp_bind, wp_gets, wp_bind.
  eapply wp_elem; [lia|rewrite A3; by apply below_lookup|]. apply wp_bind, on_irq_wp, wp_ret.
  rewrite A3. assert (u8 (lk l + 1) = bump lk l 1 l) as -> by (rewrite bump_at; apply Z.mod_small; lia).
  rewrite upd_below; [done|lia|]. intros g Hg Hne. by apply bump_ne.
Qed.

Lemma gsi_inc_wp f lk k (Q : Z -> hdom -> Prop) h : wires f lk h -> 0 <= k < 48 -> 0 <= f k < 255 ->
  Q (f k) (counted (bump f k 1) h) -> wp (gsi_inc k) Q h.
Proof. intros Hw. apply gsi_count_wp, Hw. Qed.

Lemma gsi_dec_wp f lk k (Q : Z -> hdom -> Prop) h : wires f lk h -> 0 <= k < 48 -> 0 < f k < 256 ->
  Q (f k - 1) (counted (bump f k (-1)) h) -> wp (gsi_dec k) Q h.
Proof.
  intros [A1 A2 A3 A4] Hk Hf HQ. unfold gsi_dec. apply wp_bind, wp_gets, wp_bind.
  eapply wp_elem; [lia|rewrite A2; by apply below_lookup|]. apply wp_bind, on_irq_wp, wp_ret.
  rewrite A2. assert (u8 (f k - 1) = bump f k (-1) k) as Hu by (rewrite bump_at; apply Z.mod_small; lia).
  rewrite Hu, upd_below; [|lia|intros g Hg Hne; by apply bump_ne].
  rewrite bump_at. done.
Qed.

Lemma counted_hw f h : hw_ok h -> hw_ok (counted f h).
Proof. intros []. by split. Qed.

(** The pins other than that of GSI [k] do not notice. *)
Lemma counted_level f lk k d h : wires f lk h -> 0 <= k < 48 -> level_but k (counted (bump f k d) h).
Proof.
  intros [A1 A2 A3 A4] Hk g e n Hg Hne He Hn. counts_in Hn.
  apply (A4 g e n Hg He). rewrite A2. rewrite below_lookup in Hn |- * by lia. by rewrite bump_ne in Hn.
Qed.

(** The counter of a GSI that stays asserted. *)
Lemma counted_same f lk k d h : wires f lk h -> 0 <= k < 48 -> f k <> 0 -> f k + d <> 0 ->
  wires (bump f k d) lk (counted (bump f k d) h).
Proof.
  intros Hw Hk H0 H1. pose proof Hw as [A1 A2 A3 A4]. split; [by apply counted_hw|done|done|].
  intros g e n Hg He Hn. destruct (decide (g = k)) as [->|Hne]; [|by apply (counted_level f lk k d h Hw Hk g)].
  intros H2 H3 _. apply (A4 k e (f k) Hg He); [|done|done|done]. rewrite A2. by apply below_lookup.
Qed.

(** The edge of a GSI whose counter has become 1. *)
Lemma gsi_edge_wp f lk k pic vcpu_id h : wires f lk h -> 0 <= k < 48 -> f k = 0 ->
  vcpu_target_ok vcpu_id h -> pic_of_gsi pic ->
  wp (gsi_edge k pic vcpu_id)
     (fun _ h' => wires (bump f k 1) lk h' /\ same_wires (h_irq h) (h_irq h') /\ grew h h' /\
        (forall e, fires pit0 k vcpu_id h e -> requested e h'))
     (counted (bump f k 1) h).
Proof.
  intros Hw Hk H0 Hid Hp. pose proof Hw as [A1 A2 A3 A4]. set (h1 := counted (bump f k 1) h).
  assert (forall Q : unit -> hdom -> Prop, (forall h2, hw_ok h2 -> apic_step h1 h2 -> level_ok h2 ->
    grew h h2 -> (forall e, fires pit0 k vcpu_id h e -> requested e h2) -> Q tt h2) ->
    wp (vioapic_irq_positive_edge pit0 k vcpu_id) Q h1) as Hedge.
  { intros Q HQ. eapply wp_mono; [apply positive_edge_wp; [by apply counted_hw|done|done]|].
    intros [] h2 (B1 & B2 & B3 & B4 & B5). apply HQ; try done; [|by apply (step_grew h1)].
    apply B4. by apply (counted_level f lk). }
  assert (forall h2, apic_step h1 h2 -> gsi_assert_count (h_irq h2) = map (bump f k 1) (below 48) /\
    pci_link_assert_count (h_irq h2) = map lk (below 4) /\ same_wires (h_irq h) (h_irq h2)) as Hc.
  { intros h2 B2. destruct (step_counts _ _ B2) as [C1 C2]. split; [exact C1|].
    split; [exact (eq_trans C2 A3)|]. etrans; [|by apply same_wires_step]. done. }
  unfold gsi_edge. destruct pic as [i|].
  - apply wp_bind, Hedge. intros h2 B1 B2 B3 B4 B5.
    destruct (Hc h2 B2) as (C1 & C2 & Hs). eapply wp_mono; [apply (pic_edge_wp true i h2 B1 (Hp i eq_refl))|].
    intros _ h3 (p & -> & D1). by split; [split|].
  - apply Hedge. intros h2 B1 B2 B3 B4 B5. destruct (Hc h2 B2) as (C1 & C2 & Hs). by split; [split|].
Qed.

(** [if (gsi_assert_count[k]++ == 0)] the edge. *)
Lemma raise_wp f lk k pic vcpu_id h : wires f lk h -> 0 <= k < 48 -> 0 <= f k < 255 ->
  vcpu_target_ok vcpu_id h -> pic_of_gsi pic ->
  wp (n <- gsi_inc k;; when (n =? 0) (gsi_edge k pic vcpu_id))
     (fun _ h' => wires (bump f k 1) lk h' /\ same_wires (h_irq h) (h_irq h') /\ grew h h' /\
        (forall e, f k = 0 -> fires pit0 k vcpu_id h e -> requested e h')) h.
Proof.
  intros Hw Hk Hf Hid Hp. apply wp_bind. eapply gsi_inc_wp; [done|done|done|].
  apply wp_when; intros E.
  - apply Z.eqb_eq in E. eapply wp_mono; [by apply gsi_edge_wp|]. intros [] h' (H1 & H2 & H3 & H4). auto.
  - apply Z.eqb_neq in E. split; [|by split; [|split; [apply grew_vcpus|]]]. apply counted_same; [done|done|done|lia].
Qed.

(** A counter that has become 0: the pin of the IO-APIC does not notice. *)
Lemma counted_zero_level f lk k h : wires f lk h -> 0 <= k < 48 -> f k = 1 ->
  level_ok (counted (bump f k (-1)) h).
Proof.
  intros Hw Hk E g e n Hg He Hn. destruct (decide (g = k)) as [->|Hne];
    [|by apply (counted_level f lk k (-1) h Hw Hk g)].
  counts_in Hn. apply map_below_lookup in Hn; [|lia]. rewrite bump_at in Hn. intros _ _ Hz. lia.
Qed.

Lemma counted_zero f lk k h : wires f lk h -> 0 <= k < 48 -> f k = 1 ->
  wires (bump f k (-1)) lk (counted (bump f k (-1)) h).
Proof.
  intros Hw Hk E. pose proof Hw as [A1 A2 A3 A4].
  split; [by apply counted_hw|done|done|by apply (counted_zero_level f lk)].
Qed.

Lemma negative_edge_wp f lk k i h : wires f lk h -> 0 <= k < 48 -> f k = 1 -> 0 <= i <= 15 ->
  wp (on_pics (vpic_irq_negative_edge i))
     (fun _ h' => wires (bump f k (-1)) lk h' /\ same_wires (h_irq h) (h_irq h'))
     (counted (bump f k (-1)) h).
Proof.
  intros Hw Hk E Hi. pose proof Hw as [A1 A2 A3 A4].
  eapply wp_mono; [apply (pic_edge_wp false i _ (counted_hw _ _ A1) Hi)|].
  intros _ h3 (p & -> & D1). split; [|done].
  split; [done|done|done|by apply (counted_zero_level f lk k h)].
Qed.

(** [if (--gsi_assert_count[k] == 0)] the negative edge of the 8259 line [i]. *)
Lemma lower_wp f lk k i h : wires f lk h -> 0 <= k < 48 -> 0 < f k < 256 -> 0 <= i <= 15 ->
  wp (n <- gsi_dec k;; when (n =? 0) (on_pics (vpic_irq_negative_edge i)))
     (fun _ h' => wires (bump f k (-1)) lk h' /\ same_wires (h_irq h) (h_irq h')) h.
Proof.
  intros Hw Hk Hf Hp. apply wp_bind. eapply gsi_dec_wp; [done|done|done|]. apply wp_when; intros E.
  - apply Z.eqb_eq in E. apply negative_edge_wp; [done|done|lia|done].
  - apply Z.eqb_neq in E. split; [|done]. apply counted_same; [done|done|lia|lia].
Qed.

(** [--gsi_assert_count[k]] of a GSI without an 8259 line. *)
Lemma lower_none_wp f lk k h : wires f lk h -> 16 <= k < 48 -> 0 < f k < 256 ->
  wp (gsi_dec k) (fun _ h' => wires (bump f k (-1)) lk h' /\ same_wires (h_irq h) (h_irq h')) h.
Proof.
  intros Hw Hk Hf. eapply gsi_dec_wp; [done|lia|done|].
  split; [|done]. destruct (decide (f k = 1)) as [E|E].
  - apply counted_zero; [done|lia|done].
  - apply counted_same; [done|lia|lia|lia].
Qed.

(** ** Links *)

Lemma linked_wires f lk lk' h : wires f lk h -> wires f lk' (linked lk' h).
Proof. intros [[B1 B2 B3 B4 B5 B6] A2 A3 A4]. by split. Qed.

Lemma link_inc_wp f lk l (Q : Z -> hdom -> Prop) h : wires f lk h -> 0 <= l < 4 -> 0 <= lk l < 255 ->
  Q (lk l) (linked (bump lk l 1) h) -> wp (link_inc l) Q h.
Proof. intros Hw. apply link_count_wp, Hw. Qed.

Lemma link_dec_wp f lk l (Q : Z -> hdom -> Prop) h : wires f lk h -> 0 <= l < 4 -> 0 < lk l < 256 ->
  Q (lk l - 1) (linked (bump lk l (-1)) h) -> wp (link_dec l) Q h.
Proof.
  intros [A1 A2 A3 A4] Hk Hf HQ. unfold link_dec. apply wp_bind, wp_gets, wp_bind.
  eapply wp_elem; [lia|rewrite A3; by apply below_lookup|]. apply wp_bind, on_irq_wp, wp_ret.
  rewrite A3. assert (u8 (lk l - 1) = bump lk l (-1) l) as Hu by (rewrite bump_at; apply Z.mod_small; lia).
  rewrite Hu, upd_below; [|lia|intros g Hg Hne; by apply bump_ne].
  rewrite bump_at. done.
Qed.
End Ops.

(** ** The invariant of the interrupt hardware *)

Record irq_inv (h : hdom) : Prop := {
  iv_hw : hw_ok h;
  iv_irq : irq_ok (h_irq h);
  iv_level : level_ok h
}.

Lemma inv_wires h : irq_inv h -> wires (gsi_level (h_irq h)) (link_level (pci_intx (h_irq h))) h.
Proof. intros [H1 [A1 A2 A3 A4] H3]. by split. Qed.

Lemma wires_inv f lk h : wires f lk h ->
  length (route (h_irq h)) = 4%nat /\ Forall (fun r => 0 <= r <= 15) (route (h_irq h)) ->
  callback_ok (h_irq h) -> (forall g, 0 <= g < 48 -> f g = gsi_level (h_irq h) g) ->
  (forall l, 0 <= l < 4 -> lk l = link_level (pci_intx (h_irq h)) l) -> irq_inv h.
Proof.
  intros [A1 A2 A3 A4] Hr Hc Hf Hl. split; [done| |done]. split; [done| | |done].
  - rewrite A3. by apply map_below_ext.
  - rewrite A2. by apply map_below_ext.
Qed.

Lemma bump_b2z f k g : bump f k 1 g = f g + Z.b2z (k =? g).
Proof. unfold bump. rewrite (Z.eqb_sym k g). by destruct (g =? k). Qed.
Lemma bump_m1 f k g : bump f k (-1) g = f g - Z.b2z (k =? g).
Proof. unfold bump. rewrite (Z.eqb_sym k g). by destruct (g =? k). Qed.

Lemma same_gsi_level q q' g : same_wires q q' -> gsi_level q' g = gsi_level q g.
Proof. intros [H1 H2 H3 H4 H5 H6]. unfold gsi_level, callback_level. by rewrite H1, H2, H3, H4, H5, H6. Qed.

Lemma same_callback q q' : same_wires q q' -> callback_ok q -> callback_ok q'.
Proof. intros [H1 H2 H3 H4 H5 H6]. unfold callback_ok. by rewrite H5, H6. Qed.

(** A wire of the PCI bus more. *)
Lemma gsi_level_pci q b g : 0 <= b < 128 -> Z.testbit (pci_intx q) b = false ->
  gsi_level (set_pci_intx (Z.setbit (pci_intx q) b) q) g =
  gsi_level q g + Z.b2z (wire_gsi b =? g) +
  Z.b2z ((link_level (pci_intx q) (wire_link b) =? 0) && negb (g =? 0) && (znth (route q) (wire_link b) =? g)).
Proof.
  intros Hb Hw. unfold gsi_level, callback_level.
  cbn [set_pci_intx pci_intx isa_irq route callback_via_asserted callback_via_type callback_via].
  rewrite pci_level_set, routed_level_set by done. lia.
Qed.

Lemma gsi_level_isa q i g : 0 <= i < 16 -> Z.testbit (isa_irq q) i = false ->
  gsi_level (set_isa_irq (Z.setbit (isa_irq q) i) q) g =
  gsi_level q g + Z.b2z (hvm_isa_irq_to_gsi i =? g).
Proof.
  intros Hb Hw. unfold gsi_level, callback_level.
  cbn [set_isa_irq pci_intx isa_irq route callback_via_asserted callback_via_type callback_via].
  rewrite isa_level_set by done. lia.
Qed.

(** The route of a link. *)
Lemma route_lookup q l : irq_ok q -> 0 <= l < 4 ->
  route q !! Z.to_nat l = Some (znth (route q) l) /\ 0 <= znth (route q) l <= 15.
Proof.
  intros [[Hlen Hr] _ _ _] Hl. destruct (lookup_Z (route q) l) as [r Hr']; [unfold zlen; lia|].
  unfold znth. rewrite Hr'. split; [done|]. simpl. by apply (Forall_lookup_1 _ _ _ _ Hr Hr').
Qed.

(** A source that is counted makes the level positive. *)
Lemma pci_level_pos w b : 0 <= b < 128 -> Z.testbit w b = true ->
  0 < pci_level w (wire_gsi b) /\ 0 < link_level w (wire_link b).
Proof.
  intros Hb Hw. rewrite <- (setbit_clearbit w b) by (done || lia).
  rewrite pci_level_set, link_level_set by (done || apply Z.clearbit_eq). rewrite !Z.eqb_refl.
  pose proof (count_bounds (fun c => Z.testbit (Z.clearbit w b) c && (wire_gsi c =? wire_gsi b)) (below 128)).
  pose proof (link_level_bounds (Z.clearbit w b) (wire_link b)). unfold pci_level. simpl Z.b2z. lia.
Qed.
