(* ===== verification/HvmIrqRun.v ===== *)
(** * Every operation of irq.c keeps the invariant of the interrupt hardware *)

From stdpp Require Import base list numbers.
From Stdlib Require Import ZArith Lia Bool.
From S2P Require Import Prelude Vpic HvmState Vlapic Vioapic HvmIrq VpicInv VpicOps.
From S2P Require Import VioapicInv VioapicOps HvmIrqOps.

Open Scope Z_scope.
Open Scope se_scope.

(** What an operation leaves: the invariant, and the wires of [q]. *)
Definition becomes (q : hvm_irq) (h : hdom) : Prop := irq_inv h /\ same_wires q (h_irq h).

Lemma becomes_same h q : irq_inv h -> q = h_irq h -> becomes q h.
Proof. intros ? ->. by split. Qed.

(** The invariant from the counters. *)
Lemma becomes_intro f lk q h : wires f lk h -> same_wires q (h_irq h) ->
  length (route q) = 4%nat -> Forall (fun r => 0 <= r <= 15) (route q) -> callback_ok q ->
  (forall g, 0 <= g < 48 -> f g = gsi_level q g) ->
  (forall l, 0 <= l < 4 -> lk l = link_level (pci_intx q) l) -> becomes q h.
Proof.
  intros Hw Hs Hl Hr Hc Hf Hk. split; [|done]. eapply wires_inv; [exact Hw| |by eapply same_callback| |].
  - by rewrite (sw_route _ _ Hs).
  - intros g Hg. rewrite (same_gsi_level q) by done. by apply Hf.
  - intros l Hl'. rewrite (sw_pci _ _ Hs). by apply Hk.
Qed.

(** A route of 0 is none. *)
Lemma b2z_route g x : Z.b2z (negb (g =? 0) && (x =? g)) = if x =? 0 then 0 else Z.b2z (x =? g).
Proof. destruct (Z.eqb_spec g 0), (Z.eqb_spec x g), (Z.eqb_spec x 0); done || lia. Qed.

Lemma set_pci_intx_same q : set_pci_intx (pci_intx q) q = q.
Proof. by destruct q. Qed.
Lemma set_isa_irq_same q : set_isa_irq (isa_irq q) q = q.
Proof. by destruct q. Qed.

Section Run.
Context (pit0 : bool).

(** ** PCI wires *)

Lemma wire_numbers dev intx : 0 <= dev <= 31 -> 0 <= intx <= 3 ->
  0 <= dev * 4 + intx < 128 /\ hvm_pci_intx_gsi dev intx = wire_gsi (dev * 4 + intx) /\
  hvm_pci_intx_link dev intx = wire_link (dev * 4 + intx) /\
  negb ((dev <=? 31) && (intx <=? 3)) = false.
Proof.
  intros Hd Hi. destruct (wire_split dev intx Hd Hi) as (H1 & H2 & H3).
  unfold wire_gsi, wire_link. rewrite H2, H3. repeat (split; [done|]).
  by rewrite (proj2 (Z.leb_le dev 31)), (proj2 (Z.leb_le intx 3)) by lia.
Qed.

Lemma setbit_same w b : 0 <= b -> Z.testbit w b = true -> Z.setbit w b = w.
Proof.
  intros Hb Hw. apply Z.bits_inj'. intros j Hj. destruct (decide (j = b)) as [->|Hne].
  - by rewrite Z.setbit_eq.
  - by rewrite Z.setbit_neq by auto.
Qed.
Lemma clearbit_same w b : 0 <= b -> Z.testbit w b = false -> Z.clearbit w b = w.
Proof.
  intros Hb Hw. apply Z.bits_inj'. intros j Hj. destruct (decide (j = b)) as [->|Hne].
  - by rewrite Z.clearbit_eq.
  - by rewrite Z.clearbit_neq by auto.
Qed.

(** The levels after a wire was asserted; [fire]: the link's route is raised. *)
Lemma assert_levels q b g : 0 <= b < 128 -> Z.testbit (pci_intx q) b = false ->
  let r := znth (route q) (wire_link b) in
  let f1 := bump (gsi_level q) (wire_gsi b) 1 in
  gsi_level (set_pci_intx (Z.setbit (pci_intx q) b) q) g =
    (if (link_level (pci_intx q) (wire_link b) =? 0) && negb (r =? 0) then bump f1 r 1 else f1) g.
Proof.
  intros Hb Hw r f1. rewrite gsi_level_pci by done. fold r. unfold f1.
  destruct (link_level (pci_intx q) (wire_link b) =? 0); cbn [andb].
  - rewrite b2z_route. destruct (r =? 0); cbn [negb]; rewrite !bump_b2z; lia.
  - rewrite bump_b2z. cbn [Z.b2z]. lia.
Qed.

(** The levels after a wire was deasserted. *)
Lemma deassert_levels q b g : 0 <= b < 128 -> Z.testbit (pci_intx q) b = true ->
  let r := znth (route q) (wire_link b) in
  let f1 := bump (gsi_level q) (wire_gsi b) (-1) in
  gsi_level (set_pci_intx (Z.clearbit (pci_intx q) b) q) g =
    (if (link_level (pci_intx q) (wire_link b) - 1 =? 0) && negb (r =? 0) then bump f1 r (-1) else f1) g /\
  link_level (Z.clearbit (pci_intx q) b) g = bump (link_level (pci_intx q)) (wire_link b) (-1) g.
Proof.
  intros Hb Hw r f1. set (q' := set_pci_intx (Z.clearbit (pci_intx q) b) q).
  assert (Z.testbit (pci_intx q') b = false) as Hw' by apply Z.clearbit_eq.
  assert (set_pci_intx (Z.setbit (pci_intx q') b) q' = q) as Hq.
  { unfold q'. cbn [pci_intx set_pci_intx]. rewrite setbit_clearbit by (done || lia). by destruct q. }
  pose proof (assert_levels q' b g Hb Hw') as H. cbv zeta in H. rewrite Hq in H.
  change (route q') with (route q) in H. fold r in H.
  assert (forall l, link_level (pci_intx q) l = link_level (pci_intx q') l + Z.b2z (wire_link b =? l)) as HL.
  { intros l. rewrite <- (link_level_set (pci_intx q') b l) by done. by rewrite <- Hq. }
  rewrite (HL (wire_link b)), Z.eqb_refl. cbn [Z.b2z].
  replace (link_level (pci_intx q') (wire_link b) + 1 - 1) with (link_level (pci_intx q') (wire_link b)) by lia.
  split; [|rewrite bump_m1, (HL g); change (pci_intx q') with (Z.clearbit (pci_intx q) b); lia].
  unfold f1. destruct (_ && _); rewrite ?bump_m1, ?bump_b2z in *; lia.
Qed.

(** The wire's own pin of the IO-APIC had no source: its interrupt is requested. *)
Lemma pci_assert_full dev intx h : irq_inv h -> 0 <= dev <= 31 -> 0 <= intx <= 3 ->
  wp (hvm_pci_intx_assert pit0 dev intx)
     (fun _ h' => becomes (set_pci_intx (Z.setbit (pci_intx (h_irq h)) (dev * 4 + intx)) (h_irq h)) h' /\
        forall e, gsi_level (h_irq h) (hvm_pci_intx_gsi dev intx) = 0 ->
          fires pit0 (hvm_pci_intx_gsi dev intx) VCPUID_ANY h e -> requested e h') h.
Proof.
  intros Hinv Hd Hi. destruct (wire_numbers dev intx Hd Hi) as (Hb & Hg & Hl & Ha).
  pose proof Hinv as [B1 B2 B3]. pose proof B2 as [[R1 R2] _ _ R4].
  unfold hvm_pci_intx_assert. rewrite Ha, Hg, Hl. set (b := dev * 4 + intx) in *.
  apply wp_bind, wp_bug_if; [done|]. apply wp_bind, wp_gets. set (q := h_irq h) in *.
  destruct (Z.testbit (pci_intx q) b) eqn:Eb.
  { apply wp_ret. split; [|intros e H0; destruct (pci_level_pos (pci_intx q) b Hb Eb);
      pose proof (gsi_level_parts q (wire_gsi b)); unfold gsi_level in H0; lia].
    apply becomes_same; [done|]. rewrite setbit_same by (done || lia). apply set_pci_intx_same. }
  set (q1 := set_pci_intx (Z.setbit (pci_intx q) b) q). apply wp_bind, on_irq_wp. cbv zeta.
  pose proof (wires_irq _ _ h q1 (inv_wires h Hinv) eq_refl eq_refl eq_refl) as W1. fold q in W1.
  pose proof (gsi_level_bounds q) as GB. pose proof (link_level_bounds (pci_intx q) (wire_link b)) as LB.
  pose proof (wire_gsi_bound b) as Gb. pose proof (wire_link_bound b) as Lb.
  apply wp_bind_bind. eapply wp_mono.
  { apply (raise_wp pit0 _ _ (wire_gsi b) None VCPUID_ANY _ W1); [lia| |by left|done].
    specialize (GB (wire_gsi b)). lia. }
  intros [] h2 (W2 & S2 & _ & F2). apply wp_bind, wp_gets.
  destruct (route_lookup q (wire_link b) B2 Lb) as [Hrt Hrb]. set (r := znth (route q) (wire_link b)) in *.
  apply wp_bind. eapply wp_elem; [lia|rewrite (sw_route _ _ S2); exact Hrt|].
  apply wp_bind. eapply link_inc_wp; [exact W2|done|lia|].
  pose proof (linked_wires _ _ (bump (link_level (pci_intx q)) (wire_link b) 1) h2 W2) as W3.
  assert (forall l, 0 <= l < 4 -> bump (link_level (pci_intx q)) (wire_link b) 1 l = link_level (pci_intx q1) l) as HL
    by (intros l _; rewrite bump_b2z; symmetry; by apply link_level_set).
  pose proof (fun g => assert_levels q b g Hb Eb) as HG. cbv zeta in HG. fold r q1 in HG.
  apply wp_when; intros Ec; rewrite Ec in HG.
  - apply andb_prop in Ec as [_ E2]. apply negb_true_iff, Z.eqb_neq in E2.
    eapply wp_mono; [apply (raise_wp pit0 _ _ r (Some r) VCPUID_ANY _ W3)|].
    + lia.
    + rewrite bump_ne by lia. specialize (GB r). lia.
    + by left.
    + by intros ? [= <-].
    + intros [] h4 (W4 & S4 & G4 & _). split.
      * eapply (becomes_intro _ _ q1); [exact W4| |done|done|done| |exact HL].
        -- etrans; [exact S2|]. etrans; [|exact S4]. done.
        -- intros g _. by rewrite HG.
      * intros e H0 He. eapply requested_grew; [exact G4|]. by apply (F2 e).
  - split; [|exact F2]. eapply (becomes_intro _ _ q1); [exact W3| |done|done|done| |exact HL].
    + etrans; [exact S2|]. done.
    + intros g _. by rewrite HG.
Qed.

Lemma pci_assert_wp dev intx h : irq_inv h -> 0 <= dev <= 31 -> 0 <= intx <= 3 ->
  wp (hvm_pci_intx_assert pit0 dev intx)
     (fun _ => becomes (set_pci_intx (Z.setbit (pci_intx (h_irq h)) (dev * 4 + intx)) (h_irq h))) h.
Proof. intros Hi Hd Hx. eapply wp_mono; [by apply pci_assert_full|]. by intros [] h' []. Qed.

Lemma pci_deassert_wp dev intx h : irq_inv h -> 0 <= dev <= 31 -> 0 <= intx <= 3 ->
  wp (hvm_pci_intx_deassert dev intx)
     (fun _ => becomes (set_pci_intx (Z.clearbit (pci_intx (h_irq h)) (dev * 4 + intx)) (h_irq h))) h.
Proof.
  intros Hinv Hd Hi. destruct (wire_numbers dev intx Hd Hi) as (Hb & Hg & Hl & Ha).
  pose proof Hinv as [B1 B2 B3]. pose proof B2 as [[R1 R2] _ _ R4].
  unfold hvm_pci_intx_deassert. rewrite Ha, Hg, Hl. set (b := dev * 4 + intx) in *.
  apply wp_bind, wp_bug_if; [done|]. apply wp_bind, wp_gets. set (q := h_irq h) in *.
  destruct (Z.testbit (pci_intx q) b) eqn:Eb; cbn [negb].
  2:{ apply wp_ret, becomes_same; [done|]. rewrite clearbit_same by (done || lia). apply set_pci_intx_same. }
  set (q1 := set_pci_intx (Z.clearbit (pci_intx q) b) q). apply wp_bind, on_irq_wp. cbv zeta.
  pose proof (wires_irq _ _ h q1 (inv_wires h Hinv) eq_refl eq_refl eq_refl) as W1. fold q in W1.
  pose proof (gsi_level_bounds q) as GB. pose proof (link_level_bounds (pci_intx q) (wire_link b)) as LB.
  pose proof (wire_gsi_bound b) as Gb. pose proof (wire_link_bound b) as Lb.
  destruct (pci_level_pos (pci_intx q) b Hb Eb) as [P1 P2].
  assert (0 < gsi_level q (wire_gsi b)) as P3.
  { pose proof (gsi_level_parts q (wire_gsi b)). unfold gsi_level. lia. }
  apply wp_bind. eapply wp_mono.
  { apply (lower_none_wp _ _ (wire_gsi b) _ W1); [lia|specialize (GB (wire_gsi b)); lia]. }
  intros _ h2 [W2 S2]. apply wp_bind, wp_gets.
  destruct (route_lookup q (wire_link b) B2 Lb) as [Hrt Hrb]. set (r := znth (route q) (wire_link b)) in *.
  apply wp_bind. eapply wp_elem; [lia|rewrite (sw_route _ _ S2); exact Hrt|].
  apply wp_bind. eapply link_dec_wp; [exact W2|done|lia|].
  pose proof (linked_wires _ _ (bump (link_level (pci_intx q)) (wire_link b) (-1)) h2 W2) as W3.
  assert (forall l, 0 <= l < 4 -> bump (link_level (pci_intx q)) (wire_link b) (-1) l = link_level (pci_intx q1) l) as HL
    by (intros l _; symmetry; by apply deassert_levels).
  pose proof (fun g => proj1 (deassert_levels q b g Hb Eb)) as HG. cbv zeta in HG. fold r q1 in HG.
  apply wp_when; intros Ec; rewrite Ec in HG.
  - apply andb_prop in Ec as [E1 E2]. apply negb_true_iff, Z.eqb_neq in E2. apply Z.eqb_eq in E1.
    eapply wp_mono; [apply (lower_wp _ _ r r _ W3)|].
    + lia.
    + rewrite bump_ne by lia. pose proof (gsi_level_bounds q1 r) as G1. rewrite HG in G1.
      rewrite !bump_m1, Z.eqb_refl, (proj2 (Z.eqb_neq (wire_gsi b) r)) in G1 by lia. cbn [Z.b2z] in G1. lia.
    + done.
    + intros [] h4 [W4 S4]. eapply (becomes_intro _ _ q1); [exact W4| |done|done|done| |exact HL].
      * etrans; [exact S2|]. etrans; [|exact S4]. done.
      * intros g _. by rewrite HG.
  - eapply (becomes_intro _ _ q1); [exact W3| |done|done|done| |exact HL].
    + etrans; [exact S2|]. done.
    + intros g _. by rewrite HG.
Qed.

(** ** ISA wires *)

Lemma isa_gsi irq : 0 <= irq <= 15 -> 0 <= hvm_isa_irq_to_gsi irq <= 15.
Proof. intros Hi. unfold hvm_isa_irq_to_gsi. destruct (Z.eqb_spec irq 0) as [->|]; lia. Qed.

(** A line that is asserted is a source of its GSI. *)
Lemma isa_level_pos q irq : 0 <= irq <= 15 -> Z.testbit (isa_irq q) irq = true ->
  0 < gsi_level q (hvm_isa_irq_to_gsi irq).
Proof.
  intros Hi Hb. set (q1 := set_isa_irq (Z.clearbit (isa_irq q) irq) q).
  pose proof (gsi_level_isa q1 irq (hvm_isa_irq_to_gsi irq) ltac:(lia) (Z.clearbit_eq _ _)) as H.
  rewrite Z.eqb_refl in H. cbn [Z.b2z] in H. pose proof (gsi_level_bounds q1 (hvm_isa_irq_to_gsi irq)).
  assert (set_isa_irq (Z.setbit (isa_irq q1) irq) q1 = q) as Hq; [|rewrite Hq in H; lia].
  unfold q1. cbn [isa_irq set_isa_irq]. rewrite setbit_clearbit by (done || lia). exact (set_isa_irq_same q).
Qed.

Lemma isa_assert_full irq vcpu_id h : irq_inv h -> 0 <= irq <= 15 -> vcpu_target_ok vcpu_id h ->
  wp (hvm_isa_irq_assert_to_cpu pit0 irq vcpu_id)
     (fun _ h' => becomes (set_isa_irq (Z.setbit (isa_irq (h_irq h)) irq) (h_irq h)) h' /\
        forall e, gsi_level (h_irq h) (hvm_isa_irq_to_gsi irq) = 0 ->
          fires pit0 (hvm_isa_irq_to_gsi irq) vcpu_id h e -> requested e h') h.
Proof.
  intros Hinv Hi Hid. pose proof Hinv as [B1 [[R1 R2] _ _ R4] B3]. pose proof (isa_gsi irq Hi) as Hg.
  unfold hvm_isa_irq_assert_to_cpu. apply wp_bind, wp_bug_if; [by rewrite (proj2 (Z.leb_le irq 15)) by lia|].
  apply wp_bind, wp_gets. set (q := h_irq h) in *. destruct (Z.testbit (isa_irq q) irq) eqn:Eb.
  { apply wp_ret. split; [|intros e H0; pose proof (isa_level_pos q irq Hi Eb); lia].
    apply becomes_same; [done|]. rewrite setbit_same by (done || lia). apply set_isa_irq_same. }
  set (q1 := set_isa_irq (Z.setbit (isa_irq q) irq) q). apply wp_bind, on_irq_wp. cbv zeta.
  pose proof (wires_irq _ _ h q1 (inv_wires h Hinv) eq_refl eq_refl eq_refl) as W1. fold q in W1.
  pose proof (gsi_level_bounds q (hvm_isa_irq_to_gsi irq)).
  eapply wp_mono; [apply (raise_wp pit0 _ _ _ (Some irq) vcpu_id _ W1); [lia|lia|done|by intros ? [= <-]]|].
  intros [] h2 (W2 & S2 & _ & F2). split; [|exact F2].
  eapply (becomes_intro _ _ q1); [exact W2|exact S2|done|done|done| |done].
  intros g Hg'. rewrite bump_b2z. symmetry. apply gsi_level_isa; [lia|done].
Qed.

Lemma isa_assert_wp irq vcpu_id h : irq_inv h -> 0 <= irq <= 15 -> vcpu_target_ok vcpu_id h ->
  wp (hvm_isa_irq_assert_to_cpu pit0 irq vcpu_id)
     (fun _ => becomes (set_isa_irq (Z.setbit (isa_irq (h_irq h)) irq) (h_irq h))) h.
Proof. intros Hi Hr Hv. eapply wp_mono; [by apply isa_assert_full|]. by intros [] h' []. Qed.

Lemma isa_deassert_wp irq h : irq_inv h -> 0 <= irq <= 15 ->
  wp (hvm_isa_irq_deassert irq)
     (fun _ => becomes (set_isa_irq (Z.clearbit (isa_irq (h_irq h)) irq) (h_irq h))) h.
Proof.
  intros Hinv Hi. pose proof Hinv as [B1 [[R1 R2] _ _ R4] B3]. pose proof (isa_gsi irq Hi) as Hg.
  unfold hvm_isa_irq_deassert. apply wp_bind, wp_bug_if; [by rewrite (proj2 (Z.leb_le irq 15)) by lia|].
  apply wp_bind, wp_gets. set (q := h_irq h) in *. destruct (Z.testbit (isa_irq q) irq) eqn:Eb; cbn [negb].
  2:{ apply wp_ret, becomes_same; [done|]. rewrite clearbit_same by (done || lia). apply set_isa_irq_same. }
  set (q1 := set_isa_irq (Z.clearbit (isa_irq q) irq) q). apply wp_bind, on_irq_wp. cbv zeta.
  pose proof (wires_irq _ _ h q1 (inv_wires h Hinv) eq_refl eq_refl eq_refl) as W1. fold q in W1.
  assert (forall g, gsi_level q g = gsi_level q1 g + Z.b2z (hvm_isa_irq_to_gsi irq =? g)) as HG.
  { intros g. rewrite <- (gsi_level_isa q1 irq g) by (lia || apply Z.clearbit_eq). f_equal.
    unfold q1. cbn [isa_irq set_isa_irq]. rewrite setbit_clearbit by (done || lia).
    exact (eq_sym (set_isa_irq_same q)). }
  pose proof (HG (hvm_isa_irq_to_gsi irq)) as H0. rewrite Z.eqb_refl in H0. cbn [Z.b2z] in H0.
  pose proof (gsi_level_bounds q1 (hvm_isa_irq_to_gsi irq)).
  eapply wp_mono; [apply (lower_wp _ _ _ irq _ W1); [lia|lia|done]|].
  intros [] h2 [W2 S2]. eapply (becomes_intro _ _ q1); [exact W2|exact S2|done|done|done| |done].
  intros g Hg'. rewrite bump_m1, (HG g). lia.
Qed.

(** ** The PCI-ISA router *)

Lemma gsi_level_route q l r g : 0 <= l < 4 -> length (route q) = 4%nat ->
  gsi_level (set_route (upd l r (route q)) q) g =
  gsi_level q g + (Z.b2z ((0 <? link_level (pci_intx q) l) && negb (g =? 0) && (r =? g)) -
                   Z.b2z ((0 <? link_level (pci_intx q) l) && negb (g =? 0) && (znth (route q) l =? g))).
Proof.
  intros Hl Hlen. unfold gsi_level, callback_level.
  cbn [set_route pci_intx isa_irq route callback_via_asserted callback_via_type callback_via].
  rewrite routed_level_route by done. lia.
Qed.

Lemma route_set_ok q l r : length (route q) = 4%nat -> Forall (fun r => 0 <= r <= 15) (route q) ->
  0 <= r <= 15 -> length (upd l r (route q)) = 4%nat /\ Forall (fun r => 0 <= r <= 15) (upd l r (route q)).
Proof. intros H1 H2 H3. unfold upd. rewrite length_insert. split; [done|]. by apply Forall_insert. Qed.

Lemma set_route_wp link irq h : irq_inv h -> 0 <= link <= 3 -> 0 <= irq <= 15 ->
  wp (hvm_set_pci_link_route pit0 link irq)
     (fun _ => becomes (set_route (upd link irq (route (h_irq h))) (h_irq h))) h.
Proof.
  intros Hinv Hl Hi. pose proof Hinv as [B1 B2 B3]. pose proof B2 as [[R1 R2] _ _ R4].
  unfold hvm_set_pci_link_route. apply wp_bind, wp_bug_if.
  { by rewrite (proj2 (Z.leb_le link 3)), (proj2 (Z.leb_le irq 15)) by lia. }
  apply wp_bind, wp_gets. set (q := h_irq h) in *.
  destruct (route_lookup q link B2) as [Hrt Hrb]; [lia|]. set (old := znth (route q) link) in *.
  apply wp_bind. eapply wp_elem; [lia|exact Hrt|]. destruct (Z.eqb_spec old irq) as [E|Hne].
  { apply wp_ret, becomes_same; [done|]. unfold upd. rewrite list_insert_id by (by rewrite Hrt, E). by destruct (h_irq h). }
  set (q1 := set_route (upd link irq (route q)) q). apply wp_bind, on_irq_wp.
  pose proof (wires_irq _ _ h q1 (inv_wires h Hinv) eq_refl eq_refl eq_refl) as W1. fold q in W1.
  destruct (route_set_ok q link irq R1 R2 Hi) as [R1' R2'].
  pose proof (fun g => gsi_level_route q link irq g ltac:(lia) R1) as HG. fold old q1 in HG.
  pose proof (link_level_bounds (pci_intx q) link) as LB. pose proof (gsi_level_bounds q) as GB.
  apply wp_bind. eapply wp_elem; [lia|rewrite (io_links _ B2); apply below_lookup; lia|].
  destruct (Z.eqb_spec (link_level (pci_intx q) link) 0) as [E0|E0].
  { apply wp_ret. eapply (becomes_intro _ _ q1); [exact W1|done|done|done|done| |done].
    intros g _. rewrite HG, E0. simpl. lia. }
  assert ((0 <? link_level (pci_intx q) link) = true) as Hpos by (apply Z.ltb_lt; lia).
  set (f1 := if negb (old =? 0) then bump (gsi_level q) old (-1) else gsi_level q).
  assert (forall g, f1 g = gsi_level q g - Z.b2z (negb (g =? 0) && (old =? g))) as Hf1.
  { intros g. unfold f1. rewrite b2z_route. destruct (old =? 0); cbn [negb]; rewrite ?bump_m1; lia. }
  apply wp_bind. apply (wp_mono _ (fun _ h' => wires f1 (link_level (pci_intx q)) h' /\ same_wires q1 (h_irq h'))).
  { apply wp_when; intros Eo; unfold f1; rewrite Eo; [|done]. apply negb_true_iff, Z.eqb_neq in Eo.
    pose proof (HG old) as Ho. rewrite Hpos, (proj2 (Z.eqb_neq old 0)), Z.eqb_refl in Ho by done.
    rewrite (proj2 (Z.eqb_neq irq old)) in Ho by auto. cbn [negb andb Z.b2z] in Ho.
    pose proof (gsi_level_bounds q1 old). specialize (GB old).
    apply (lower_wp _ _ old old _ W1); [lia|lia|done]. }
  intros [] h2 [W2 S2]. apply wp_when; intros Ei.
  - apply negb_true_iff, Z.eqb_neq in Ei. specialize (GB irq).
    eapply wp_mono; [apply (raise_wp pit0 _ _ irq (Some irq) VCPUID_ANY _ W2)|].
    + lia.
    + rewrite Hf1. rewrite (proj2 (Z.eqb_neq old irq)), andb_false_r by done. cbn [Z.b2z]. lia.
    + by left.
    + by intros ? [= <-].
    + intros [] h3 (W3 & S3 & _). eapply (becomes_intro _ _ q1); [exact W3|by etrans|done|done|done| |done].
      intros g _. rewrite bump_b2z, Hf1, HG, Hpos. cbn [andb].
      rewrite (b2z_route g irq), (proj2 (Z.eqb_neq irq 0)) by done. lia.
  - apply negb_false_iff, Z.eqb_eq in Ei. eapply (becomes_intro _ _ q1); [exact W2|exact S2|done|done|done| |done].
    intros g _. rewrite Hf1, HG, Hpos, Ei. cbn [andb]. rewrite (b2z_route g 0). simpl. lia.
Qed.

(** ** The callback interrupt *)

Lemma callback_level_off t c q g : callback_via_asserted q = false \/ t <> HVMIRQ_callback_gsi ->
  callback_level (set_callback t c q) g = 0.
Proof.
  intros H. unfold callback_level. cbn [set_callback callback_via_asserted callback_via_type].
  destruct H as [-> |H]; [done|]. by rewrite (bool_decide_eq_false_2 _ H), andb_false_r.
Qed.

Lemma gsi_level_callback t c q g : gsi_level (set_callback t c q) g =
  gsi_level q g - callback_level q g + callback_level (set_callback t c q) g.
Proof.
  unfold gsi_level. cbn [set_callback pci_intx isa_irq route]. lia.
Qed.

(** The wires without the callback: the state between the two parts. *)
Definition no_callback (q : hvm_irq) (h : hdom) : Prop := exists w,
  wires (fun g => gsi_level (set_callback HVMIRQ_callback_none 0 (set_pci_intx w q)) g) (link_level w) h /\
  same_wires (set_pci_intx w q) (h_irq h) /\
  (callback_via_asserted q = false -> w = pci_intx q).

Lemma wires_ext f f' lk h : wires f lk h -> (forall g, 0 <= g < 48 -> f g = f' g) -> wires f' lk h.
Proof. intros [A1 A2 A3 A4] H. split; try done. rewrite A2. by apply map_below_ext. Qed.

Lemma teardown_wp h : irq_inv h -> wp callback_teardown (fun _ => no_callback (h_irq h)) h.
Proof.
  intros Hinv. pose proof Hinv as [B1 [_ _ _ R4] B3]. pose proof (inv_wires h Hinv) as W.
  unfold callback_teardown. apply wp_bind, wp_gets. set (q := h_irq h) in *.
  assert (forall h', wires (fun g => gsi_level q g - callback_level q g) (link_level (pci_intx q)) h' ->
    same_wires q (h_irq h') -> no_callback q h') as Hno.
  { intros h' W' S'. exists (pci_intx q). rewrite set_pci_intx_same. split; [|done].
    eapply wires_ext; [exact W'|]. intros g _. rewrite gsi_level_callback, callback_level_off by auto. lia. }
  assert ((forall g, callback_level q g = 0) -> no_callback q h) as Hsame.
  { intros H0. apply Hno; [|done]. eapply wires_ext; [exact W|]. intros g _. rewrite H0. lia. }
  apply wp_when; intros Ea; [|apply Hsame; intros g; unfold callback_level; by rewrite Ea].
  unfold callback_ok in R4. destruct (callback_via_type q) eqn:Et;
    try (apply wp_ret, Hsame; intros g; unfold callback_level; by rewrite Ea, Et).
  - assert (forall g, callback_level q g = Z.b2z (callback_via q =? g)) as Hc
      by (intros g; unfold callback_level; by rewrite Ea, Et).
    pose proof (Hc (callback_via q)) as Hk. rewrite Z.eqb_refl in Hk. cbn [Z.b2z] in Hk.
    pose proof (gsi_level_parts q (callback_via q)). pose proof (gsi_level_bounds q (callback_via q)).
    set (k := callback_via q) in *. assert (0 < gsi_level q k) by (unfold gsi_level; lia).
    assert (forall h', wires (bump (gsi_level q) k (-1)) (link_level (pci_intx q)) h' ->
      same_wires q (h_irq h') -> no_callback q h') as Hend.
    { intros h' W' S'. apply Hno; [|done]. eapply wires_ext; [exact W'|]. intros g _. by rewrite bump_m1, Hc. }
    apply wp_bind. eapply gsi_dec_wp; [exact W|lia|lia|]. apply wp_when; intros E.
    + apply andb_prop in E as [E1%Z.eqb_eq E2%Z.leb_le].
      eapply wp_mono; [apply (negative_edge_wp _ _ k k h W); [lia|lia|lia]|].
      intros [] h' [W' S']. by apply Hend.
    + apply Hend; [|done]. destruct (decide (gsi_level q k = 1)) as [E1|E1].
      * rewrite E1 in E. simpl in E. apply Z.leb_gt in E.
        apply counted_zero; [done|lia|done].
      * apply counted_same; [done|lia|lia|lia].
  - destruct R4. eapply wp_mono; [by apply pci_deassert_wp|]. intros [] h' [I' S']. fold q in S'. eexists.
    split; [|split; [exact S'|by rewrite Ea]].
    pose proof (inv_wires h' I') as W'. rewrite (sw_pci _ _ S') in W'. eapply wires_ext; [exact W'|].
    intros g _. rewrite (same_gsi_level _ _ g S'). symmetry. rewrite gsi_level_callback, callback_level_off by auto.
    assert (callback_level (set_pci_intx (Z.clearbit (pci_intx q) (via_dev (callback_via q) * 4 + via_intx (callback_via q))) q) g = 0) as ->; [|lia].
    unfold callback_level. cbn [set_pci_intx callback_via_type callback_via_asserted]. by rewrite Et, andb_false_r.
Qed.

(** The callback that [hvm_set_callback_via] installs. *)
Definition callback_of (via : Z) (old : Z) : callback_type * Z :=
  match via_type_of via with
  | HVMIRQ_callback_gsi =>
      (if (u8 via =? 0) || (VIOAPIC_NUM_PINS <=? u8 via) then HVMIRQ_callback_none
       else HVMIRQ_callback_gsi, u8 via)
  | HVMIRQ_callback_pci_intx =>
      (HVMIRQ_callback_pci_intx,
       set_via_pci (Z.land (u8 (Z.shiftr via 11)) 31) (Z.land (u8 via) 3) old)
  | HVMIRQ_callback_vector => (HVMIRQ_callback_vector, u8 via)
  | HVMIRQ_callback_none => (HVMIRQ_callback_none, old)
  end.

Lemma via_pci dev intx c : 0 <= dev < 256 -> 0 <= intx < 256 ->
  via_dev (set_via_pci dev intx c) = dev /\ via_intx (set_via_pci dev intx c) = intx.
Proof. intros Hd Hi. unfold via_dev, via_intx, set_via_pci. split; zlia. Qed.

Lemma land_small x n : 0 <= n -> 0 <= Z.land x (Z.ones n) < 2 ^ n.
Proof. intros Hn. rewrite Z.land_ones by done. apply Z.mod_pos_bound. by apply Z.pow_pos_nonneg. Qed.

(** The new callback, without sources yet. *)
Lemma install_inv q h t c : no_callback q h -> irq_ok q ->
  callback_via_asserted q = false \/ t <> HVMIRQ_callback_gsi ->
  callback_ok (set_callback t c q) ->
  irq_inv (set_irqs (set_callback t c (h_irq h)) h).
Proof.
  intros (w & W & S & _) [[R1 R2] _ _ _] Ht Hc.
  eapply wires_inv; [apply (wires_irq _ _ h _ W); done| |exact Hc| |].
  - cbn [h_irq set_irqs set_callback route]. by rewrite (sw_route _ _ S).
  - intros g _. cbn [h_irq set_irqs].
    assert (callback_via_asserted (h_irq h) = callback_via_asserted q) as Ha by apply S.
    rewrite !gsi_level_callback, callback_level_off by auto. rewrite callback_level_off by (by rewrite Ha).
    rewrite (same_gsi_level _ _ g S). unfold callback_level at 1 2.
    by rewrite (sw_asserted _ _ S), (sw_type _ _ S), (sw_via _ _ S).
  - intros l _. cbn [h_irq set_irqs set_callback pci_intx]. by rewrite (sw_pci _ _ S).
Qed.

(** What the second part leaves. *)
Definition installed (via : Z) (q : hvm_irq) (h : hdom) : Prop :=
  irq_inv h /\ (callback_via_type (h_irq h), callback_via (h_irq h)) = callback_of via (callback_via q) /\
  isa_irq (h_irq h) = isa_irq q /\ route (h_irq h) = route q /\
  callback_via_asserted (h_irq h) = callback_via_asserted q /\
  (callback_via_asserted q = false -> pci_intx (h_irq h) = pci_intx q).

Lemma install_installed via q h t c : no_callback q h -> irq_ok q ->
  callback_via_asserted q = false \/ t <> HVMIRQ_callback_gsi -> callback_ok (set_callback t c q) ->
  (t, c) = callback_of via (callback_via q) ->
  installed via q (set_irqs (set_callback t c (h_irq h)) h).
Proof.
  intros Hn Hq Ht Hc Hcb. split; [by apply (install_inv q)|]. split; [exact Hcb|].
  destruct Hn as (w & _ & S & Hw). split; [apply S|]. split; [apply S|]. split; [apply S|].
  intros Ha. rewrite <- (Hw Ha). apply S.
Qed.

(** A GSI callback that is asserted. *)
Lemma install_gsi_wp q h k : no_callback q h -> irq_ok q -> callback_via_asserted q = true -> 0 < k < 48 ->
  wp (n <- gsi_inc k;;
      when (n =? 0) (vioapic_irq_positive_edge pit0 k VCPUID_ANY;;
                     when (k <=? 15) (on_pics (vpic_irq_positive_edge k))))
     (fun _ h' => irq_inv h' /\ same_wires (set_callback HVMIRQ_callback_gsi k (h_irq h)) (h_irq h'))
     (set_irqs (set_callback HVMIRQ_callback_gsi k (h_irq h)) h).
Proof.
  intros (w & W & S & _) [[R1 R2] _ _ _] Ha Hk. set (q1 := set_callback HVMIRQ_callback_gsi k (h_irq h)).
  pose proof (wires_irq _ _ h q1 W eq_refl eq_refl eq_refl) as W1.
  set (f := fun g => gsi_level (set_callback HVMIRQ_callback_none 0 (set_pci_intx w q)) g) in *.
  assert (forall h', wires (bump f k 1) (link_level w) h' -> same_wires q1 (h_irq h') ->
    irq_inv h' /\ same_wires q1 (h_irq h')) as Hend.
  { intros h' W' S'. split; [|done]. eapply wires_inv; [exact W'| | | |].
    - rewrite (sw_route _ _ S'). cbn [q1 set_callback route]. by rewrite (sw_route _ _ S).
    - eapply same_callback; [exact S'|]. done.
    - intros g _. rewrite (same_gsi_level _ _ g S'), bump_b2z. unfold f, q1. rewrite !gsi_level_callback.
      rewrite (same_gsi_level _ _ g S), (callback_level_off HVMIRQ_callback_none) by auto.
      assert (callback_level (h_irq h) g = callback_level (set_pci_intx w q) g) as ->
        by (unfold callback_level; by rewrite (sw_asserted _ _ S), (sw_type _ _ S), (sw_via _ _ S)).
      assert (callback_level (set_callback HVMIRQ_callback_gsi k (h_irq h)) g = Z.b2z (k =? g)) as ->; [|lia].
      assert (callback_via_asserted (h_irq h) = true) as Ha' by (rewrite (sw_asserted _ _ S); exact Ha).
      unfold callback_level. cbn [set_callback callback_via_asserted callback_via_type callback_via]. by rewrite Ha'.
    - intros l _. rewrite (sw_pci _ _ S'). cbn [q1 set_callback pci_intx]. by rewrite (sw_pci _ _ S). }
  pose proof (gsi_level_bounds (set_callback HVMIRQ_callback_none 0 (set_pci_intx w q)) k) as GB.
  apply wp_bind. eapply gsi_inc_wp; [exact W1|lia|unfold f; lia|]. apply wp_when; intros E.
  - apply Z.eqb_eq in E. destruct (Z.leb_spec k 15) as [Hle|Hgt].
    + eapply wp_mono; [apply (gsi_edge_wp pit0 _ _ k (Some k) VCPUID_ANY _ W1); [lia|done|by left|intros ? [= <-]; lia]|].
      intros [] h' (W' & S' & _). by apply Hend.
    + apply wp_bind. eapply wp_mono; [apply (gsi_edge_wp pit0 _ _ k None VCPUID_ANY _ W1); [lia|done|by left|done]|].
      intros [] h' (W' & S' & _). apply wp_ret. by apply Hend.
  - apply Z.eqb_neq in E. apply Hend; [|done]. apply counted_same; [done|lia|done|unfold f in *; lia].
Qed.

Lemma setup_wp via q h : no_callback q h -> irq_ok q ->
  callback_via (h_irq h) = callback_via q -> callback_via_asserted (h_irq h) = callback_via_asserted q ->
  wp (callback_setup pit0 via) (fun _ => installed via q) h.
Proof.
  intros Hn Hq Hv Ha. pose proof Hn as (w & W & S & _). unfold callback_setup. apply wp_bind, wp_gets. rewrite Ha.
  pose proof (install_installed via q h) as Hi. unfold callback_of in Hi.
  destruct (via_type_of via) eqn:Et; cbv zeta.
  - apply on_irq_wp. rewrite Hv. apply Hi; [done|done|by right|done|done].
  - destruct ((u8 via =? 0) || (VIOAPIC_NUM_PINS <=? u8 via)) eqn:Eg.
    { apply on_irq_wp. apply Hi; [done|done|by right|done|done]. }
    apply orb_false_iff in Eg as [G1%Z.eqb_neq G2%Z.leb_gt]. unfold VIOAPIC_NUM_PINS in G2.
    assert (0 < u8 via < 48) as Hk by (unfold u8 in *; pose proof (Z.mod_pos_bound via (2 ^ 8)); lia).
    apply wp_bind, on_irq_wp. apply wp_when; intros E.
    + eapply wp_mono; [by apply (install_gsi_wp q)|]. intros [] h' [I' S'].
      split; [done|]. rewrite (sw_type _ _ S'), (sw_via _ _ S'), (sw_isa _ _ S'), (sw_route _ _ S'), (sw_asserted _ _ S').
      split; [|split; [apply S|split; [apply S|split; [exact Ha|by rewrite E]]]]. unfold callback_of. rewrite Et.
      by rewrite (proj2 (Z.eqb_neq _ 0)), (proj2 (Z.leb_gt _ _)) by (done || unfold VIOAPIC_NUM_PINS; lia).
    + apply Hi; [done|done|by left|exact Hk|done].
  - set (d := Z.land (u8 (Z.shiftr via 11)) 31) in *. set (i := Z.land (u8 via) 3) in *.
    assert (0 <= d <= 31 /\ 0 <= i <= 3) as [Hd Hi3].
    { pose proof (land_small (u8 (Z.shiftr via 11)) 5 ltac:(lia)) as L1. pose proof (land_small (u8 via) 2 ltac:(lia)) as L2.
      change (Z.ones 5) with 31 in L1. change (Z.ones 2) with 3 in L2. unfold d, i. lia. }
    destruct (via_pci d i (callback_via q)) as [V1 V2]; [lia|lia|].
    assert (installed via q (set_irqs (set_callback HVMIRQ_callback_pci_intx (set_via_pci d i (callback_via q)) (h_irq h)) h)) as Hin.
    { apply Hi; [done|done|by right| |done]. unfold callback_ok. cbn [set_callback callback_via_type callback_via].
      by rewrite V1, V2. }
    apply wp_bind, on_irq_wp. rewrite Hv. apply wp_when; intros E; [|done].
    destruct Hin as (I1 & I2 & I3 & I4 & I5 & _). eapply wp_mono; [apply pci_assert_wp; [exact I1|done|done]|].
    intros [] h' [I' S']. split; [done|].
    rewrite (sw_type _ _ S'), (sw_via _ _ S'), (sw_isa _ _ S'), (sw_route _ _ S'), (sw_asserted _ _ S').
    split; [exact I2|]. split; [exact I3|]. split; [exact I4|]. split; [exact I5|by rewrite E].
  - apply on_irq_wp. apply Hi; [done|done|by right|done|done].
Qed.

Lemma set_callback_wp via h : irq_inv h ->
  wp (hvm_set_callback_via pit0 via) (fun _ => installed via (h_irq h)) h.
Proof.
  intros Hinv. unfold hvm_set_callback_via. apply wp_bind. eapply wp_mono; [by apply teardown_wp|].
  intros [] h' Hn. pose proof Hn as (w & _ & S & _). apply setup_wp; [done|apply Hinv|apply S|apply S].
Qed.
End Run.
