(* ===== verification/VlapicRegs.v ===== *)
(** * The virtual local APICs: registers, inter-processor interrupts, timer

    The rest of xen/arch/x86/hvm/vlapic.c: what a vcpu reads and writes through
    the MMIO page and the x2APIC registers, the interrupts it sends to other
    vcpus (INIT and SIPI are carried out by a tasklet), the base address
    register, the TSC deadline and the reset.  The periodic timers of vpt.c are
    events of the log; [guest_time], [guest_tsc] and [gtsc_to_gtime] are
    [hvm_get_guest_time], [hvm_get_guest_tsc] and the conversion between them at
    the moment of the access. *)

From stdpp Require Import base list numbers.
From Stdlib Require Import ZArith Lia.
From S2P Require Import Prelude Vpic HvmState Vlapic Vioapic.

Open Scope Z_scope.
Open Scope se_scope.

(** ** Registers *)

Definition APIC_LVR : Z := 0x30.
Definition APIC_PROCPRI : Z := 0xA0.
Definition APIC_EOI : Z := 0xB0.
Definition APIC_SPIV : Z := 0xF0.
Definition APIC_ESR : Z := 0x280.
Definition APIC_ICR : Z := 0x300.
Definition APIC_ICR2 : Z := 0x310.
Definition APIC_LVTT : Z := 0x320.
Definition APIC_LVTTHMR : Z := 0x330.
Definition APIC_LVTPC : Z := 0x340.
Definition APIC_LVT1 : Z := 0x360.
Definition APIC_LVTERR : Z := 0x370.
Definition APIC_TMICT : Z := 0x380.
Definition APIC_TMCCT : Z := 0x390.
Definition APIC_TDCR : Z := 0x3E0.
Definition APIC_SELF_IPI : Z := 0x3F0.

Definition APIC_VECTOR_MASK : Z := 0xff.
Definition APIC_TIMER_MODE_MASK : Z := 0x60000.
Definition APIC_TIMER_MODE_ONESHOT : Z := 0.
Definition APIC_TIMER_MODE_PERIODIC : Z := 0x20000.
Definition APIC_TIMER_MODE_TSC_DEADLINE : Z := 0x40000.
Definition APIC_SEND_PENDING : Z := 0x1000.
Definition APIC_INPUT_POLARITY : Z := 0x2000.
Definition APIC_LVT_REMOTE_IRR : Z := 0x4000.
Definition APIC_LVT_LEVEL_TRIGGER : Z := 0x8000.
Definition APIC_SHORT_MASK : Z := 0xc0000.
Definition APIC_DM_FIXED : Z := 0.
Definition APIC_DM_LOWEST : Z := 0x100.
Definition APIC_DM_SMI : Z := 0x200.
Definition APIC_DM_REMRD : Z := 0x300.
Definition APIC_DM_NMI : Z := 0x400.
Definition APIC_DM_INIT : Z := 0x500.
Definition APIC_DM_STARTUP : Z := 0x600.
Definition APIC_INT_LEVELTRIG : Z := 0x8000.
Definition APIC_INT_ASSERT : Z := 0x4000.
Definition APIC_BUS_CYCLE_NS : Z := 10.
Definition VLAPIC_VERSION : Z := 0x00050014.
Definition VLAPIC_LVT_NUM : nat := 6.
Definition MSR_IA32_APICBASE_MSR : Z := 0x800.
Definition APIC_DEFAULT_PHYS_BASE : Z := 0xfee00000.

Definition X86EMUL_OKAY : Z := 0.
Definition X86EMUL_UNHANDLEABLE : Z := 1.
Definition X86EMUL_RETRY : Z := 3.

Definition LVT_MASK : Z := Z.lor (Z.lor APIC_LVT_MASKED APIC_SEND_PENDING) APIC_VECTOR_MASK.
Definition LINT_MASK : Z :=
  Z.lor (Z.lor (Z.lor (Z.lor LVT_MASK APIC_MODE_MASK) APIC_INPUT_POLARITY)
    APIC_LVT_REMOTE_IRR) APIC_LVT_LEVEL_TRIGGER.
Definition vlapic_lvt_mask : list Z :=
  [Z.lor LVT_MASK APIC_TIMER_MODE_MASK; Z.lor LVT_MASK APIC_MODE_MASK;
   Z.lor LVT_MASK APIC_MODE_MASK; LINT_MASK; LINT_MASK; LVT_MASK].

Definition vlapic_timer_mode (v : vcpu) : Z := Z.land (vlapic_get_reg v APIC_LVTT) APIC_TIMER_MODE_MASK.
Definition vlapic_lvtt_period (v : vcpu) : bool := vlapic_timer_mode v =? APIC_TIMER_MODE_PERIODIC.
Definition vlapic_lvtt_oneshot (v : vcpu) : bool := vlapic_timer_mode v =? APIC_TIMER_MODE_ONESHOT.
Definition vlapic_lvtt_tdt (v : vcpu) : bool := vlapic_timer_mode v =? APIC_TIMER_MODE_TSC_DEADLINE.
Definition vlapic_sw_disabled (v : vcpu) : bool := Z.testbit (vl_disabled v) 1.

(** [MSR_IA32_APICBASE_BASE] extends its sign to all bits from 12 on. *)
Definition vlapic_base_address (v : vcpu) : Z := clear (vl_apic_base_msr v) 0xfff.

Definition set_sw_disabled (b : bool) (v : vcpu) : vcpu :=
  set_vl_disabled (if b then Z.setbit (vl_disabled v) 1 else Z.clearbit (vl_disabled v) 1) v.
Definition set_hw_disabled (b : bool) (v : vcpu) : vcpu :=
  set_vl_disabled (if b then Z.setbit (vl_disabled v) 0 else Z.clearbit (vl_disabled v) 0) v.

(** ** The timer *)

Definition on_timer (i : Z) (f : lapic_timer -> lapic_timer) : SE hdom unit :=
  upd_vcpu i (fun v => set_vl_timer (f (vl_timer v)) v).

Definition set_reg (i reg val : Z) : SE hdom unit := upd_vcpu i (vlapic_set_reg reg val).

(** The divisor that bits 0, 1 and 3 of [val] stand for. *)
Definition tdcr_divisor (val : Z) : Z :=
  Z.shiftl 1 (Z.land (Z.lor (Z.land val 3) (Z.shiftr (Z.land val 8) 1) + 1) 7).

Definition vlapic_set_tdcr (i val : Z) : SE hdom unit :=
  let val := Z.land val 0xb in
  set_reg i APIC_TDCR val;;
  on_timer i (set_timer_divisor (tdcr_divisor val)).

Definition lapic_pt_destroy (i : Z) : SE hdom unit := apic_emit (ApicPtDestroy i).

Section Env.
Context (pit0 : bool) (guest_time guest_tsc : Z) (gtsc_to_gtime : Z -> Z).

(** [create_periodic_time(v, &vlapic->pt, ...)] with the update of
    [timer_last_update] after it. *)
Definition lapic_pt_create (i delta period irq : Z) : SE hdom unit :=
  apic_emit (ApicPtCreate i delta period irq);;
  on_timer i (set_pt_irq (u8 irq));;
  on_timer i (set_last_update guest_time).

(** [vlapic_get_tmcct]; the division is by an [unsigned int]. *)
Definition vlapic_get_tmcct (v : vcpu) : SE hdom Z :=
  let tmict := vlapic_get_reg v APIC_TMICT in
  let cycle := u32 (APIC_BUS_CYCLE_NS * timer_divisor (vl_timer v)) in
  bug_if (cycle =? 0);;
  let counter_passed := u64 (guest_time - timer_last_update (vl_timer v)) / cycle in
  ret (if tmict =? 0 then 0
       else
         let counter_passed := if vlapic_lvtt_period v then counter_passed mod tmict
                               else counter_passed in
         if counter_passed <? tmict then tmict - counter_passed else 0).

(** ** Reading *)

Definition vlapic_read_aligned (v : vcpu) (offset : Z) : SE hdom Z :=
  if offset =? APIC_PROCPRI then ret (vlapic_get_ppr v)
  else if offset =? APIC_TMCCT then
    if negb (vlapic_lvtt_oneshot v) && negb (vlapic_lvtt_period v) then ret 0
    else vlapic_get_tmcct v
  else if (offset =? APIC_TMICT) && negb (vlapic_lvtt_oneshot v) && negb (vlapic_lvtt_period v)
  then ret 0
  else ret (vlapic_get_reg v offset).

(** [vlapic_read]: the value stored, [None] when the domain is crashed. *)
Definition vlapic_read (i address len : Z) : SE hdom (option Z) :=
  v <- the_vcpu i;;
  let offset := u32 (address - vlapic_base_address v) in
  if APIC_TDCR + 3 <? offset then ret (Some 0)
  else
    let alignment := Z.land offset 3 in
    tmp <- vlapic_read_aligned v (clear offset 3);;
    if len =? 1 then ret (Some (u8 (Z.shiftr tmp (8 * alignment))))
    else if (len =? 2) && negb (alignment =? 3) then
      ret (Some (u16 (Z.shiftr tmp (8 * alignment))))
    else if (len =? 4) && (alignment =? 0) then ret (Some (u32 tmp))
    else apic_emit ApicCrash;; ret None.

(** [hvm_x2apic_msr_read]: the content, [None] for the code 1. *)
Definition hvm_x2apic_msr_read (i msr : Z) : SE hdom (option Z) :=
  v <- the_vcpu i;;
  let offset := u32 (Z.shiftl (msr - MSR_IA32_APICBASE_MSR) 4) in
  if negb (vlapic_x2apic_mode v) then ret None
  else
    low <- vlapic_read_aligned v offset;;
    high <- (if offset =? APIC_ICR then vlapic_read_aligned v APIC_ICR2 else ret 0);;
    ret (Some (Z.lor (Z.shiftl high 32) low)).

(** ** Inter-processor interrupts *)

(** [vlapic_schedule_init_sipi_tasklet]; [origin] is the current vcpu. *)
Definition vlapic_schedule_init_sipi_tasklet (origin target icr : Z) : SE hdom Z :=
  o <- the_vcpu origin;;
  match init_sipi o with
  | Some _ => ret X86EMUL_UNHANDLEABLE
  | None =>
      apic_emit (ApicPause origin);;
      upd_vcpu origin (set_init_sipi (Some (target, icr)));;
      apic_emit (ApicTasklet origin);;
      ret X86EMUL_RETRY
  end.

Definition vlapic_accept_irq (origin i icr_low : Z) : SE hdom Z :=
  v <- the_vcpu i;;
  let vector := u8 icr_low in
  let mode := Z.land icr_low APIC_MODE_MASK in
  if (mode =? APIC_DM_FIXED) || (mode =? APIC_DM_LOWEST) then
    when (vlapic_enabled v)
      (upd_vcpu i (vlapic_set_vector vector APIC_IRR);;
       when (negb (vlapic_test_vector vector APIC_IRR v)) (apic_emit (ApicKick i)));;
    ret X86EMUL_OKAY
  else if (mode =? APIC_DM_REMRD) || (mode =? APIC_DM_SMI) then ret X86EMUL_OKAY
  else if mode =? APIC_DM_NMI then
    upd_vcpu i (set_nmi_pending true);;
    when (negb (nmi_pending v)) (apic_emit (ApicKick i));;
    ret X86EMUL_OKAY
  else if mode =? APIC_DM_INIT then
    if (Z.land icr_low (Z.lor APIC_INT_LEVELTRIG APIC_INT_ASSERT) =? APIC_INT_LEVELTRIG) ||
       negb (is_initialised v)
    then ret X86EMUL_OKAY
    else
      apic_emit (ApicDown i);;
      vlapic_schedule_init_sipi_tasklet origin i icr_low
  else if mode =? APIC_DM_STARTUP then
    if is_initialised v then ret X86EMUL_OKAY
    else vlapic_schedule_init_sipi_tasklet origin i icr_low
  else apic_emit ApicCrash;; ret X86EMUL_OKAY.

(** The loop of [vlapic_ipi] over the vcpus from [i] on. *)
Fixpoint ipi_loop (n : nat) (origin icr_low short_hand dest : Z) (dest_mode : bool) (i : Z)
  : SE hdom Z :=
  match n with
  | O => ret X86EMUL_OKAY
  | S n =>
      v <- the_vcpu i;;
      rc <- (if vlapic_match_dest i v (Some origin) short_hand dest dest_mode
             then vlapic_accept_irq origin i icr_low else ret X86EMUL_OKAY);;
      if negb (rc =? X86EMUL_OKAY) then ret rc
      else ipi_loop n origin icr_low short_hand dest dest_mode (i + 1)
  end.

(** [vlapic_ipi]; the sender is the current vcpu. *)
Definition vlapic_ipi (origin icr_low icr_high : Z) : SE hdom Z :=
  o <- the_vcpu origin;;
  let short_hand := Z.land icr_low APIC_SHORT_MASK in
  let dest_mode := Z.testbit icr_low 11 in
  let dest := if vlapic_x2apic_mode o then icr_high else GET_xAPIC_ID icr_high in
  if Z.land icr_low APIC_MODE_MASK =? APIC_DM_LOWEST then
    target <- vlapic_lowest_prio (Some origin) short_hand dest dest_mode;;
    match target with
    | Some t => vlapic_accept_irq origin t icr_low
    | None => ret X86EMUL_OKAY
    end
  else
    l <- gets h_vcpus;;
    ipi_loop (length l) origin icr_low short_hand dest dest_mode 0.

(** ** Writing *)

(** The cases of [vlapic_reg_write]; the result is the code. *)
Definition okay (m : SE hdom unit) : SE hdom Z := m;; ret X86EMUL_OKAY.
Definition unless_x2apic (v : vcpu) (m : SE hdom unit) : SE hdom Z :=
  if vlapic_x2apic_mode v then ret X86EMUL_UNHANDLEABLE else okay m.

(** [lvt_val | APIC_LVT_MASKED] for the [n] entries from [reg] on *)
Fixpoint mask_lvts (n : nat) (reg : Z) (v : vcpu) : vcpu :=
  match n with
  | O => v
  | S n => mask_lvts n (reg + 0x10)
             (vlapic_set_reg reg (Z.lor (vlapic_get_reg v reg) APIC_LVT_MASKED) v)
  end.

Definition write_spiv (i val : Z) : SE hdom unit :=
  set_reg i APIC_SPIV (Z.land val 0x3ff);;
  if negb (Z.testbit val 8) then
    upd_vcpu i (set_sw_disabled true);;
    upd_vcpu i (mask_lvts VLAPIC_LVT_NUM APIC_LVTT)
  else
    upd_vcpu i (set_sw_disabled false);;
    apic_emit (ApicUnmaskPt true i).

Definition write_icr (i val : Z) : SE hdom Z :=
  let val := Z.clearbit val 12 in
  v <- the_vcpu i;;
  rc <- vlapic_ipi i (u32 val) (vlapic_get_reg v APIC_ICR2);;
  when (rc =? X86EMUL_OKAY) (set_reg i APIC_ICR val);;
  ret rc.

(** [case APIC_LVTT] up to the fall-through *)
Definition write_lvtt (i val : Z) : SE hdom unit :=
  v <- the_vcpu i;;
  when (negb (Z.land (vlapic_get_reg v APIC_LVTT) APIC_TIMER_MODE_MASK =?
              Z.land val APIC_TIMER_MODE_MASK))
    (lapic_pt_destroy i;;
     set_reg i APIC_TMICT 0;;
     set_reg i APIC_TMCCT 0;;
     on_timer i (set_tdt_msr 0));;
  on_timer i (set_pt_irq (Z.land val APIC_VECTOR_MASK)).

Definition write_lvt (i offset val : Z) : SE hdom unit :=
  v <- the_vcpu i;;
  let val := if vlapic_sw_disabled v then Z.lor val APIC_LVT_MASKED else val in
  mask <- elem vlapic_lvt_mask (Z.shiftr (offset - APIC_LVTT) 4);;
  let val := Z.land val mask in
  set_reg i offset val;;
  when (offset =? APIC_LVT0) (vlapic_adjust_i8259_target;; apic_emit ApicUnmask);;
  when ((offset =? APIC_LVTT) && negb (Z.testbit val 16)) (apic_emit (ApicUnmaskPt false i)).

(** The period of the timer in nanoseconds. *)
Definition timer_period (v : vcpu) (val : Z) : Z :=
  u64 (APIC_BUS_CYCLE_NS * u32 val * timer_divisor (vl_timer v)).

Definition write_tmict (i val : Z) : SE hdom unit :=
  v <- the_vcpu i;;
  when (vlapic_lvtt_oneshot v || vlapic_lvtt_period v)
    (set_reg i APIC_TMICT val;;
     if val =? 0 then lapic_pt_destroy i
     else
       let period := timer_period v val in
       lapic_pt_create i period (if vlapic_lvtt_period v then period else 0)
         (pt_irq (vl_timer v))).

(** [vlapic_reg_write] *)
Definition vlapic_reg_write (i offset val : Z) : SE hdom Z :=
  v <- the_vcpu i;;
  if offset =? APIC_ID then unless_x2apic v (set_reg i APIC_ID val)
  else if offset =? APIC_TASKPRI then okay (set_reg i APIC_TASKPRI (Z.land val 0xff))
  else if offset =? APIC_EOI then okay (vlapic_EOI_set pit0 i)
  else if offset =? APIC_LDR then unless_x2apic v (set_reg i APIC_LDR (Z.land val 0xff000000))
  else if offset =? APIC_DFR then unless_x2apic v (set_reg i APIC_DFR (Z.lor val 0x0FFFFFFF))
  else if offset =? APIC_SPIV then okay (write_spiv i val)
  else if offset =? APIC_ESR then
    ret (if vlapic_x2apic_mode v && negb (val =? 0) then X86EMUL_UNHANDLEABLE else X86EMUL_OKAY)
  else if offset =? APIC_SELF_IPI then
    if vlapic_x2apic_mode v
    then write_icr i (Z.lor 0x40000 (Z.land val 0xff));; ret X86EMUL_OKAY
    else ret X86EMUL_UNHANDLEABLE
  else if offset =? APIC_ICR then write_icr i val
  else if offset =? APIC_ICR2 then
    okay (set_reg i APIC_ICR2 (if vlapic_x2apic_mode v then val else Z.land val 0xff000000))
  else if offset =? APIC_LVTT then okay (write_lvtt i val;; write_lvt i offset val)
  else if (offset =? APIC_LVTTHMR) || (offset =? APIC_LVTPC) || (offset =? APIC_LVT0) ||
          (offset =? APIC_LVT1) || (offset =? APIC_LVTERR)
  then okay (write_lvt i offset val)
  else if offset =? APIC_TMICT then okay (write_tmict i val)
  else if offset =? APIC_TDCR then okay (vlapic_set_tdcr i (Z.land val 0xb))
  else ret X86EMUL_OKAY.

(** A write of 1 or 2 bytes merged into the register. *)
Definition merged (tmp mask alignment val : Z) : Z :=
  Z.lor (clear tmp (Z.shiftl mask (8 * alignment)))
        (Z.shiftl (Z.land val mask) (8 * alignment)).

(** [vlapic_write]; the domain is crashed after a bad access. *)
Definition vlapic_write (i address len val : Z) : SE hdom Z :=
  v <- the_vcpu i;;
  let offset := u32 (address - vlapic_base_address v) in
  let val := u32 val in
  let alignment := Z.land offset 3 in
  let crash := apic_emit ApicCrash;; ret X86EMUL_OKAY in
  if negb (len =? 4) then
    tmp <- vlapic_read_aligned v (clear offset 3);;
    if len =? 1 then vlapic_reg_write i (clear offset 3) (merged tmp 0xff alignment val)
    else if (len =? 2) && negb (Z.testbit alignment 0) then
      vlapic_reg_write i (clear offset 3) (merged tmp 0xffff alignment val)
    else crash
  else if negb (alignment =? 0) then crash
  else vlapic_reg_write i offset val.

(** [hvm_x2apic_msr_write]: the code. *)
Definition hvm_x2apic_msr_write (i msr msr_content : Z) : SE hdom Z :=
  v <- the_vcpu i;;
  let offset := u32 (Z.shiftl (msr - MSR_IA32_APICBASE_MSR) 4) in
  if negb (vlapic_x2apic_mode v) then ret 1
  else
    r <- (if offset =? APIC_ICR then vlapic_reg_write i APIC_ICR2 (u32 (Z.shiftr msr_content 32))
          else ret 0);;
    if negb (r =? 0) then ret 1
    else
      rc <- vlapic_reg_write i offset (u32 msr_content);;
      ret (Z.b2z (negb (rc =? X86EMUL_OKAY) && negb (rc =? X86EMUL_RETRY))).

Definition vlapic_range (v : vcpu) (addr : Z) : bool :=
  negb (vlapic_hw_disabled v) && (u64 (addr - vlapic_base_address v) <? 4096).

(** ** Reset, the base address register, the TSC deadline *)

Fixpoint zero_regs (n : nat) (reg : Z) (v : vcpu) : vcpu :=
  match n with
  | O => v
  | S n => zero_regs n (reg + 0x10) (vlapic_set_reg reg 0 v)
  end.
Fixpoint masked_regs (n : nat) (reg : Z) (v : vcpu) : vcpu :=
  match n with
  | O => v
  | S n => masked_regs n (reg + 0x10) (vlapic_set_reg reg APIC_LVT_MASKED v)
  end.

(** [vlapic_reset] *)
Definition vlapic_reset (i : Z) : SE hdom unit :=
  set_reg i APIC_ID (Z.shiftl (i * 2) 24);;
  set_reg i APIC_LVR VLAPIC_VERSION;;
  upd_vcpu i (zero_regs 8 APIC_IRR);;
  upd_vcpu i (zero_regs 8 APIC_ISR);;
  upd_vcpu i (zero_regs 8 APIC_TMR);;
  set_reg i APIC_ICR 0;;
  set_reg i APIC_ICR2 0;;
  set_reg i APIC_LDR 0;;
  set_reg i APIC_TASKPRI 0;;
  set_reg i APIC_TMICT 0;;
  set_reg i APIC_TMCCT 0;;
  vlapic_set_tdcr i 0;;
  set_reg i APIC_DFR 0xffffffff;;
  upd_vcpu i (masked_regs VLAPIC_LVT_NUM APIC_LVTT);;
  set_reg i APIC_SPIV 0xff;;
  upd_vcpu i (set_sw_disabled true);;
  lapic_pt_destroy i.

(** The logical identifier of x2APIC mode. *)
Definition x2apic_ldr (id : Z) : Z := Z.lor (Z.shiftl (clear id 0xf) 16) (Z.shiftl 1 (Z.land id 0xf)).

(** [vlapic_msr_set]; [MSR_IA32_APICBASE_ENABLE] is bit 11. *)
Definition vlapic_msr_set (i value : Z) : SE hdom unit :=
  v <- the_vcpu i;;
  when (negb (Bool.eqb (Z.testbit (vl_apic_base_msr v) 11) (Z.testbit value 11)))
    (if Z.testbit value 11 then
       vlapic_reset i;;
       upd_vcpu i (set_hw_disabled false);;
       apic_emit (ApicUnmaskPt true i)
     else
       upd_vcpu i (set_hw_disabled true);;
       apic_emit ApicUnmask);;
  upd_vcpu i (set_apic_base_msr value);;
  v <- the_vcpu i;;
  when (vlapic_x2apic_mode v)
    (set_reg i APIC_LDR (x2apic_ldr (vlapic_get_reg v APIC_ID)));;
  apic_emit (ApicMsrChanged i).

Definition vlapic_tdt_msr_get (v : vcpu) : Z :=
  if negb (vlapic_lvtt_tdt v) then 0 else tdt_msr (vl_timer v).

Definition vlapic_tdt_msr_set (i value : Z) : SE hdom unit :=
  v <- the_vcpu i;;
  if negb (vlapic_lvtt_tdt v) then ret tt
  else if guest_tsc <? value then
    on_timer i (set_tdt_msr value);;
    lapic_pt_create i (gtsc_to_gtime (value - guest_tsc)) 0 (pt_irq (vl_timer v))
  else
    on_timer i (set_tdt_msr 0);;
    if 0 <? value then lapic_pt_create i 0 0 (pt_irq (vl_timer v))
    else lapic_pt_destroy i.

(** [lapic_rearm], after the registers have been loaded *)
Definition lapic_rearm (i : Z) : SE hdom unit :=
  v <- the_vcpu i;;
  let irq := Z.land (vlapic_get_reg v APIC_LVTT) APIC_VECTOR_MASK in
  on_timer i (set_pt_irq irq);;
  if vlapic_lvtt_tdt v then
    when (negb (vlapic_tdt_msr_get v =? 0)) (vlapic_tdt_msr_set i (vlapic_tdt_msr_get v))
  else
    let tmict := vlapic_get_reg v APIC_TMICT in
    when (negb (tmict =? 0))
      (let period := timer_period v tmict in
       lapic_pt_create i period (if vlapic_lvtt_period v then period else 0) irq).

(** The callbacks of the timer. *)
Definition vlapic_pt_cb (i : Z) : SE hdom unit := on_timer i (set_last_update guest_time).
Definition vlapic_tdt_pt_cb (i : Z) : SE hdom unit :=
  on_timer i (set_last_update guest_time);; on_timer i (set_tdt_msr 0).

(** [vlapic_init_sipi_action], the tasklet of [origin]; [vcpu_reset] and
    [hvm_vcpu_reset_state] change [is_initialised]. *)
Definition vlapic_init_sipi_action (origin : Z) : SE hdom unit :=
  o <- the_vcpu origin;;
  match init_sipi o with
  | None => bug
  | Some (target, icr) =>
      apic_emit (ApicPause target);;
      let mode := Z.land icr APIC_MODE_MASK in
      (if mode =? APIC_DM_INIT then
         apic_emit (ApicVcpuReset target);;
         upd_vcpu target (set_is_initialised false);;
         vlapic_reset target
       else if mode =? APIC_DM_STARTUP then
         t <- the_vcpu target;;
         when (negb (is_initialised t))
           (apic_emit (ApicVcpuStart target (Z.shiftl (Z.land icr 0xff) 8));;
            upd_vcpu target (set_is_initialised true))
       else bug);;
      apic_emit (ApicUnpause target);;
      upd_vcpu origin (set_init_sipi None);;
      apic_emit (ApicUnpause origin)
  end.

Definition is_vlapic_lvtpc_enabled (v : vcpu) : bool :=
  vlapic_enabled v && negb (Z.testbit (vlapic_get_reg v APIC_LVTPC) 16).
End Env.
