(* ===== verification/VlapicProps.v ===== *)
(** * Inter-processor interrupts

    Who receives the interrupt that a vcpu sends by writing the interrupt
    command register of its local APIC. *)

From stdpp Require Import base list numbers.
From Stdlib Require Import ZArith Lia Bool.
From S2P Require Import Prelude Vpic HvmState Vlapic Vioapic HvmIrq VpicInv VpicOps VioapicInv.
From S2P Require Import VioapicInv VioapicOps VioapicProps VlapicRegs.

Open Scope Z_scope.
Open Scope se_scope.

(** ** The election of lowest-priority delivery *)

Section Election.
Context (l : list vcpu) (fits : Z -> vcpu -> bool) (old : Z) (Hold : 0 <= old < zlen l).

(** A vcpu that may receive the interrupt. *)
Definition eligible (k : Z) : Prop :=
  0 <= k < zlen l /\ exists v, l !! Z.to_nat k = Some v /\ fits k v = true /\ vlapic_enabled v = true.
Definition ppr_of (k : Z) : Z := match l !! Z.to_nat k with Some v => vlapic_get_ppr v | None => 0 end.

(** The place of [k] in the round that starts after [old]. *)
Definition place (k : Z) : Z := if old <? k then k - old - 1 else k + zlen l - old - 1.

Lemma place_bound k : 0 <= k < zlen l -> 0 <= place k < zlen l.
Proof. unfold place. destruct (Z.ltb_spec old k); lia. Qed.
Lemma place_inj j k : 0 <= j < zlen l -> 0 <= k < zlen l -> place j = place k -> j = k.
Proof. unfold place. destruct (Z.ltb_spec old j), (Z.ltb_spec old k); lia. Qed.

(** [t] has the lowest processor priority of the eligible vcpus among the first
    [c] of the round, and comes first among those of its priority. *)
Definition elected (c : Z) (target : option Z) : Prop :=
  match target with
  | None => forall k, eligible k -> place k < c -> False
  | Some t => eligible t /\ place t < c /\
      forall k, eligible k -> place k < c -> ppr_of t < ppr_of k \/ (ppr_of t = ppr_of k /\ place t <= place k)
  end.

Hypothesis (Hppr : forall k, eligible k -> ppr_of k < UINT_MAX).

Lemma elected_step c target v' vl ppr : elected c target -> 0 <= v' < zlen l -> place v' = c ->
  l !! Z.to_nat v' = Some vl -> ppr = match target with Some t => ppr_of t | None => UINT_MAX end ->
  let better := fits v' vl && vlapic_enabled vl && (vlapic_get_ppr vl <? ppr) in
  elected (c + 1) (if better then Some v' else target) /\
  (if better then vlapic_get_ppr vl else ppr) =
    match (if better then Some v' else target) with Some t => ppr_of t | None => UINT_MAX end.
Proof.
  intros He Hv Hp Hl Hppr' better. assert (ppr_of v' = vlapic_get_ppr vl) as Ev by (unfold ppr_of; by rewrite Hl).
  assert (forall k, eligible k -> place k < c + 1 -> place k < c \/ k = v') as Hsplit.
  { intros k [Hk _] Hc. destruct (Z.eq_dec (place k) c); [right|lia]. apply place_inj; [done|done|lia]. }
  destruct better eqn:Eb; unfold better in Eb; rewrite ?andb_true_iff, ?Z.ltb_lt in Eb.
  - destruct Eb as [[F1 F2] F3]. split; [|by rewrite Ev]. split; [split; [done|by exists vl]|]. split; [lia|].
    intros k Hk Hc. destruct (Hsplit k Hk Hc) as [Hlt| ->]; [left|right; lia].
    destruct target as [t|]; [|by destruct (He k)]. destruct He as (_ & _ & He). specialize (He k Hk Hlt). lia.
  - split; [|done]. assert (eligible v' -> ppr <= ppr_of v') as Hno.
    { intros (_ & v & Hv1 & Hv2 & Hv3). rewrite Hl in Hv1. injection Hv1 as <-. rewrite Hv2, Hv3 in Eb. simpl in Eb.
      apply Z.ltb_ge in Eb. lia. }
    destruct target as [t|].
    + destruct He as (H1 & H2 & H3). split; [done|]. split; [lia|]. intros k Hk Hc.
      destruct (Hsplit k Hk Hc) as [Hlt| ->]; [by apply H3|]. specialize (Hno Hk). lia.
    + intros k Hk Hc. destruct (Hsplit k Hk Hc) as [Hlt| ->]; [by apply (He k)|].
      specialize (Hno Hk). specialize (Hppr v' Hk). lia.
Qed.

Lemma lowest_prio_elects fuel c v target ppr : 0 <= c < zlen l -> zlen l - c <= Z.of_nat fuel ->
  0 <= v < zlen l -> (c = 0 /\ v = old) \/ (0 < c /\ place v = c - 1) -> elected c target ->
  ppr = match target with Some t => ppr_of t | None => UINT_MAX end ->
  exists t, lowest_prio_loop fuel l fits old v target ppr = Some t /\ elected (zlen l) t.
Proof.
  revert c v target ppr. induction fuel as [|fuel IH]; intros c v target ppr Hc Hf Hv Hcv He Hp; [lia|].
  simpl. set (v' := if v + 1 <? zlen l then v + 1 else 0).
  assert (0 <= v' < zlen l) as Hv' by (unfold v'; destruct (Z.ltb_spec (v + 1) (zlen l)); lia).
  assert (place v' = c) as Hpl.
  { unfold v', place in *. destruct (Z.ltb_spec (v + 1) (zlen l)), (Z.ltb_spec old v);
      repeat match goal with |- context [?a <? ?b] => destruct (Z.ltb_spec a b) end; lia. }
  destruct (lookup_Z l v' Hv') as [vl Hl]. rewrite Hl. cbv zeta.
  destruct (elected_step c target v' vl ppr He Hv' Hpl Hl Hp) as [E1 E2].
  destruct (Z.eqb_spec v' old) as [Ho|Ho].
  - eexists. split; [reflexivity|]. replace (zlen l) with (c + 1); [done|]. rewrite <- Hpl, Ho. unfold place.
    rewrite Z.ltb_irrefl. lia.
  - assert (c + 1 < zlen l) as Hlt.
    { revert Hpl. unfold place. destruct (Z.ltb_spec old v'); lia. }
    apply (IH (c + 1)); [lia|lia|done|right; lia|exact E1|exact E2].
Qed.
End Election.

(** ** Who receives the interrupt *)

(** The interrupt of vector [vec] has been requested at the vcpus that [got]
    selects, and nothing else has changed; a vcpu for which it is new is
    kicked. *)
Record received (vec : Z) (got : nat -> vcpu -> bool) (h h' : hdom) : Prop := {
  rc_same : h_pics h' = h_pics h /\ h_ioapic h' = h_ioapic h /\ h_max_vcpus h' = h_max_vcpus h /\
            length (h_vcpus h') = length (h_vcpus h);
  rc_vcpus : forall j w, h_vcpus h !! j = Some w -> h_vcpus h' !! j = Some (if got j w then injected vec false w else w);
  rc_kicks : forall j w, h_vcpus h !! j = Some w -> got j w = true ->
    vlapic_test_vector vec APIC_IRR w = false -> ApicKick (Z.of_nat j) ∈ h_log h'
}.

(** The interrupt at vcpu [t]. *)
Definition after_accept (t vec : Z) (w : vcpu) (h : hdom) : hdom :=
  if vlapic_enabled w then after_inj t vec false w h else h.

Lemma accept_eq origin t icr h w : 0 <= t -> h_vcpus h !! Z.to_nat t = Some w ->
  Z.land icr APIC_MODE_MASK = APIC_DM_FIXED \/ Z.land icr APIC_MODE_MASK = APIC_DM_LOWEST ->
  vlapic_accept_irq origin t icr h = (after_accept t (u8 icr) w h, Ok X86EMUL_OKAY).
Proof.
  intros Ht Hw Hm. unfold vlapic_accept_irq, the_vcpu, elem. cbv [bind gets].
  rewrite (proj2 (Z.ltb_ge t 0)), Hw by done. cbv [ret].
  assert ((Z.land icr APIC_MODE_MASK =? APIC_DM_FIXED) || (Z.land icr APIC_MODE_MASK =? APIC_DM_LOWEST) = true) as ->
    by (apply orb_true_iff; rewrite !Z.eqb_eq; tauto).
  unfold after_accept, when. destruct (vlapic_enabled w); [|done].
  unfold after_inj, injected, kick_if, upd_vcpu, modify, apic_emit, modify, ret. cbv zeta.
  by destruct (vlapic_test_vector (u8 icr) APIC_IRR w).
Qed.

Lemma after_accept_log t vec w h e : e ∈ h_log h -> e ∈ h_log (after_accept t vec w h).
Proof.
  intros He. unfold after_accept. destruct (vlapic_enabled w); [|done]. unfold after_inj, kick_if. simpl.
  destruct (negb _); [by apply list_elem_of_further|done].
Qed.

Lemma after_accept_vcpus t vec w h j : 0 <= t -> h_vcpus h !! Z.to_nat t = Some w ->
  h_vcpus (after_accept t vec w h) !! j =
    if decide (j = Z.to_nat t) then Some (if vlapic_enabled w then injected vec false w else w) else h_vcpus h !! j.
Proof.
  intros Ht Hw. unfold after_accept. destruct (vlapic_enabled w); simpl.
  - rewrite list_lookup_alter. repeat case_decide; try congruence. subst. by rewrite Hw.
  - case_decide; congruence.
Qed.

Section Fixed.
Context (origin icr sh dest : Z) (dm : bool).
Hypothesis (Hmode : Z.land icr APIC_MODE_MASK = APIC_DM_FIXED).

(** The vcpus a fixed-mode interrupt is for. *)
Definition addressed (j : nat) (w : vcpu) : bool :=
  vlapic_match_dest (Z.of_nat j) w (Some origin) sh dest dm && vlapic_enabled w.

Lemma ipi_loop_fixed k t h : 0 <= t -> t + Z.of_nat k = zlen (h_vcpus h) ->
  wp (ipi_loop k origin icr sh dest dm t) (fun rc h' => rc = X86EMUL_OKAY /\ h_irq h' = h_irq h /\
    received (u8 icr) (fun j w => (t <=? Z.of_nat j) && addressed j w) h h' /\
    (forall e, e ∈ h_log h -> e ∈ h_log h')) h.
Proof.
  revert t h. induction k as [|k IH]; intros t h Ht Hk; cbn [ipi_loop].
  { apply wp_ret. split; [done|]. split; [done|]. split; [|done]. split; [done| |].
    - intros j w Hj. apply lookup_lt_Some in Hj as Hlt. unfold zlen in Hk.
      by rewrite (proj2 (Z.leb_gt t (Z.of_nat j))) by lia.
    - intros j w Hj. apply lookup_lt_Some in Hj as Hlt. unfold zlen in Hk.
      by rewrite (proj2 (Z.leb_gt t (Z.of_nat j))) by lia. }
  destruct (lookup_Z (h_vcpus h) t ltac:(lia)) as [w Hw].
  apply wp_bind. eapply wp_the_vcpu; [done|exact Hw|]. apply wp_bind.
  set (m := vlapic_match_dest t w (Some origin) sh dest dm).
  set (h1 := if m then after_accept t (u8 icr) w h else h).
  assert (wp (if m then vlapic_accept_irq origin t icr else ret X86EMUL_OKAY)
            (fun rc h' => rc = X86EMUL_OKAY /\ h' = h1) h) as Hacc.
  { unfold h1. destruct m; [|by apply wp_ret]. eapply wp_eq; [apply accept_eq; [done|exact Hw|by left]|done]. }
  eapply wp_mono; [exact Hacc|]. intros ? ? [-> ->]. clear Hacc.
  change (X86EMUL_OKAY =? X86EMUL_OKAY) with true. cbn [negb].
  assert (h_irq h1 = h_irq h /\ h_pics h1 = h_pics h /\ h_ioapic h1 = h_ioapic h /\ h_max_vcpus h1 = h_max_vcpus h /\
    length (h_vcpus h1) = length (h_vcpus h) /\ (forall e, e ∈ h_log h -> e ∈ h_log h1)) as (S1 & S2 & S3 & S4 & S5 & S6).
  { unfold h1, after_accept. destruct m; [|done]. split_and!; try by destruct (vlapic_enabled w).
    - destruct (vlapic_enabled w); [|done]. apply length_alter.
    - intros e. apply after_accept_log. }
  assert (forall j, h_vcpus h1 !! j = if decide (j = Z.to_nat t)
            then Some (if m && vlapic_enabled w then injected (u8 icr) false w else w) else h_vcpus h !! j) as Hv.
  { intros j. unfold h1. destruct m; [by apply after_accept_vcpus|]. case_decide; [by subst|done]. }
  eapply wp_mono; [apply (IH (t + 1) h1); [lia|unfold zlen in *; rewrite S5; lia]|].
  intros rc h' (-> & R1 & [(R2 & R3 & R4 & R5) R6 R7] & R8).
  split; [done|]. split; [congruence|]. split; [|auto]. split; [split_and!; congruence| |].
  - intros j x Hj. destruct (decide (j = Z.to_nat t)) as [->|Hne].
    + assert (x = w) as -> by congruence. rewrite (R6 _ _ (eq_trans (Hv _) (decide_True _ _ eq_refl))).
      rewrite Z2Nat.id, Z.leb_refl, (proj2 (Z.leb_gt (t + 1) t)) by lia. cbn [andb]. unfold addressed.
      by rewrite Z2Nat.id by lia.
    + rewrite (R6 j x) by (by rewrite Hv, decide_False).
      destruct (Z.leb_spec t (Z.of_nat j)), (Z.leb_spec (t + 1) (Z.of_nat j)); try done; lia.
  - intros j x Hj Hgot Hnew. destruct (decide (j = Z.to_nat t)) as [->|Hne].
    + assert (x = w) as -> by congruence. rewrite Z2Nat.id, Z.leb_refl in Hgot by lia. cbn [andb] in Hgot.
      unfold addressed in Hgot. rewrite Z2Nat.id in Hgot by lia. apply andb_prop in Hgot as [G1 G2].
      apply R8. unfold h1, m, after_accept. rewrite G1, G2. unfold after_inj. simpl. rewrite Hnew.
      rewrite Z2Nat.id by lia. apply list_elem_of_here.
    + apply (R7 j x); [by rewrite Hv, decide_False| |done].
      destruct (Z.leb_spec t (Z.of_nat j)), (Z.leb_spec (t + 1) (Z.of_nat j)); try done; lia.
Qed.
End Fixed.

(** ** The interrupt command register *)

(** The destination in the upper half of the register. *)
Definition ipi_dest (o : vcpu) : Z :=
  let hi := vlapic_get_reg o APIC_ICR2 in if vlapic_x2apic_mode o then hi else GET_xAPIC_ID hi.
Definition ipi_match (i : Z) (o : vcpu) (icr k : Z) (w : vcpu) : bool :=
  vlapic_match_dest k w (Some i) (Z.land icr APIC_SHORT_MASK) (ipi_dest o) (Z.testbit icr 11).

(** Fixed mode: every vcpu that matches and whose local APIC is enabled. *)
Definition fixed_receivers (i : Z) (o : vcpu) (icr : Z) : nat -> vcpu -> bool :=
  addressed i (Z.land icr APIC_SHORT_MASK) (ipi_dest o) (Z.testbit icr 11).
Definition only (t : option Z) (j : nat) (w : vcpu) : bool := bool_decide (t = Some (Z.of_nat j)).

Lemma ipi_fixed i o icr h : 0 <= i -> h_vcpus h !! Z.to_nat i = Some o ->
  Z.land icr APIC_MODE_MASK = APIC_DM_FIXED ->
  wp (vlapic_ipi i icr (vlapic_get_reg o APIC_ICR2)) (fun rc h' => rc = X86EMUL_OKAY /\
    received (u8 icr) (fixed_receivers i o icr) h h' /\ h_irq h' = h_irq h) h.
Proof.
  intros Hi Ho Hm. unfold vlapic_ipi. apply wp_bind. eapply wp_the_vcpu; [done|exact Ho|]. cbv zeta.
  rewrite Hm. change (APIC_DM_FIXED =? APIC_DM_LOWEST) with false. cbv iota. apply wp_bind, wp_gets.
  eapply wp_mono; [apply ipi_loop_fixed; [done|done|unfold zlen; lia]|].
  intros rc h' (-> & R1 & [R2 R3 R4] & _). split; [done|]. split; [|done]. unfold fixed_receivers, ipi_dest.
  cbv zeta. split; [done| |].
  - intros j w Hj. rewrite (R3 j w Hj). by rewrite (proj2 (Z.leb_le 0 (Z.of_nat j))) by lia.
  - intros j w Hj Hg. apply (R4 j w Hj). by rewrite (proj2 (Z.leb_le 0 (Z.of_nat j))) by lia.
Qed.

Lemma received_only t vec w h : 0 <= t -> h_vcpus h !! Z.to_nat t = Some w -> vlapic_enabled w = true ->
  received vec (only (Some t)) h (after_accept t vec w h).
Proof.
  intros Ht Hw He. split.
  - unfold after_accept. rewrite He. unfold after_inj. simpl. by rewrite length_alter.
  - intros j x Hj. rewrite (after_accept_vcpus t vec w h j Ht Hw), He. unfold only.
    case_decide as Hd; case_bool_decide as Hb; simplify_eq; try done; [|lia].
    rewrite Z2Nat.id in Hb by lia. done.
  - intros j x Hj Hg Hnew. apply bool_decide_eq_true in Hg. injection Hg as ->. rewrite Nat2Z.id in Hw.
    assert (x = w) as -> by congruence. unfold after_accept. rewrite He. unfold after_inj. simpl. rewrite Hnew.
    apply list_elem_of_here.
Qed.

Lemma received_robin vec got r h h' : received vec got (set_irqs (set_round_robin r (h_irq h)) h) h' ->
  received vec got h h'.
Proof. by intros []. Qed.

Lemma ipi_lowest i o icr h : hw_ok h -> zlen (h_vcpus h) = h_max_vcpus h ->
  Forall (fun w => vlapic_get_ppr w < UINT_MAX) (h_vcpus h) ->
  0 <= i -> h_vcpus h !! Z.to_nat i = Some o -> Z.land icr APIC_MODE_MASK = APIC_DM_LOWEST ->
  wp (vlapic_ipi i icr (vlapic_get_reg o APIC_ICR2)) (fun rc h' => rc = X86EMUL_OKAY /\ exists t,
    elected (h_vcpus h) (ipi_match i o icr) (round_robin_prev_vcpu (h_irq h)) (zlen (h_vcpus h)) t /\
    received (u8 icr) (only t) h h' /\
    h_irq h' = match t with Some t => set_round_robin t (h_irq h) | None => h_irq h end) h.
Proof.
  intros Hok Hall Hppr Hi Ho Hm. pose proof (hw_robin _ Hok) as [Hr1 Hr2]. pose proof (hw_vcpus _ Hok) as Hmax.
  apply lookup_lt_Some in Ho as Hlt. assert (0 <= round_robin_prev_vcpu (h_irq h) < zlen (h_vcpus h)) as Hold
    by (unfold zlen in *; lia).
  unfold vlapic_ipi. apply wp_bind. eapply wp_the_vcpu; [done|exact Ho|]. cbv zeta.
  rewrite Hm. change (APIC_DM_LOWEST =? APIC_DM_LOWEST) with true. cbv iota. apply wp_bind.
  unfold vlapic_lowest_prio. apply wp_bind, wp_gets, wp_bind, wp_vcpu_ptr; [right; lia|lia|].
  rewrite (proj2 (Z.leb_le 0 _)), (proj2 (Z.ltb_lt _ _)) by lia. cbn [andb]. apply wp_bind, wp_gets.
  destruct (lowest_prio_elects (h_vcpus h) (ipi_match i o icr) _ Hold) with (fuel := length (h_vcpus h)) (c := 0)
    (v := round_robin_prev_vcpu (h_irq h)) (target := None : option Z) (ppr := UINT_MAX) as (t & E & Hel).
  { intros k (_ & v & Hv & _). unfold ppr_of. rewrite Hv. apply (Forall_lookup_1 _ _ _ _ Hppr Hv). }
  { lia. } { unfold zlen. lia. } { done. } { by left. } { intros k [Hk _]. pose proof (place_bound _ _ Hold k Hk). lia. } { done. }
  unfold ipi_match, ipi_dest in E. cbv zeta in E. rewrite E. destruct t as [t|].
  - destruct Hel as ((Ht & w & Hw & Hf & He) & Hel). apply wp_bind. unfold on_irq. apply wp_modify, wp_ret.
    assert (u8 t = t) as -> by (unfold u8; apply Z.mod_small; lia).
    eapply wp_eq; [apply accept_eq; [lia|exact Hw|by right]|]. split; [done|]. exists (Some t).
    split; [split; [by split; [|exists w]|exact Hel]|]. split.
    + eapply received_robin, received_only; [lia|exact Hw|done].
    + unfold after_accept. by rewrite He.
  - apply wp_ret, wp_ret. split; [done|]. exists None. split; [exact Hel|]. split; [|done]. by split.
Qed.

(** C5: a vcpu that writes the command register of its local APIC sends an
    interrupt to the vcpus it names and to no other.  In fixed mode each vcpu
    that matches the shorthand or the destination and whose local APIC is
    enabled has the vector requested, and is kicked if that is new.  In
    lowest-priority mode one of these vcpus has it: the one with the lowest
    processor priority, the first after the last receiver among equals, and
    none only if none is eligible; it becomes the last receiver.  The 8259s, the
    IO-APIC and every other local APIC are as they were; the register holds what
    was written, with the pending bit clear. *)
Theorem ipi_reaches_destination pit0 now h i o val : hw_ok h -> zlen (h_vcpus h) = h_max_vcpus h ->
  Forall (fun w => vlapic_get_ppr w < UINT_MAX) (h_vcpus h) ->
  0 <= i -> h_vcpus h !! Z.to_nat i = Some o -> 0 <= val < 2 ^ 32 ->
  let icr := Z.clearbit val 12 in let mode := Z.land icr APIC_MODE_MASK in
  mode = APIC_DM_FIXED \/ mode = APIC_DM_LOWEST ->
  exists h1 got, vlapic_write pit0 now i (vlapic_base_address o + APIC_ICR) 4 val h =
      (set_vcpus (alter (vlapic_set_reg APIC_ICR icr) (Z.to_nat i) (h_vcpus h1)) h1, Ok X86EMUL_OKAY) /\
    received (u8 icr) got h h1 /\
    (mode = APIC_DM_FIXED -> got = fixed_receivers i o icr /\ h_irq h1 = h_irq h) /\
    (mode = APIC_DM_LOWEST -> exists t, got = only t /\
       elected (h_vcpus h) (ipi_match i o icr) (round_robin_prev_vcpu (h_irq h)) (zlen (h_vcpus h)) t /\
       h_irq h1 = match t with Some t => set_round_robin t (h_irq h) | None => h_irq h end).
Proof.
  intros Hok Hall Hppr Hi Ho Hval icr mode Hm.
  assert (u32 icr = icr) as Hicr.
  { apply u32_small. apply clearbit_fit; [lia|done]. }
  assert (wp (vlapic_ipi i icr (vlapic_get_reg o APIC_ICR2)) (fun rc h' => rc = X86EMUL_OKAY /\ exists got,
    received (u8 icr) got h h' /\ (mode = APIC_DM_FIXED -> got = fixed_receivers i o icr /\ h_irq h' = h_irq h) /\
    (mode = APIC_DM_LOWEST -> exists t, got = only t /\
       elected (h_vcpus h) (ipi_match i o icr) (round_robin_prev_vcpu (h_irq h)) (zlen (h_vcpus h)) t /\
       h_irq h' = match t with Some t => set_round_robin t (h_irq h) | None => h_irq h end)) h) as Hw.
  { destruct Hm as [Hm|Hm].
    - eapply wp_mono; [by apply ipi_fixed|]. intros rc h' (-> & R1 & R2). split; [done|]. eexists.
      split; [exact R1|]. split; [done|]. unfold mode in *. by rewrite Hm.
    - eapply wp_mono; [by apply ipi_lowest|]. intros rc h' (-> & t & R1 & R2 & R3). split; [done|]. exists (only t).
      split; [exact R2|]. split; [unfold mode in *; by rewrite Hm|]. intros _. by exists t. }
  destruct (wp_inv _ _ _ Hw) as (h1 & rc & E & -> & got & R1 & R2 & R3).
  exists h1, got. split; [|done].
  assert (the_vcpu i h = (h, Ok o)) as Hv
    by (unfold the_vcpu, elem; cbv [bind gets]; by rewrite (proj2 (Z.ltb_ge i 0)), Ho by done).
  unfold vlapic_write, bind at 1. rewrite Hv. replace (vlapic_base_address o + APIC_ICR - vlapic_base_address o)
    with APIC_ICR by lia. change (u32 APIC_ICR) with APIC_ICR. cbv zeta.
  change (negb (4 =? 4)) with false. change (negb (Z.land APIC_ICR 3 =? 0)) with false. cbv iota.
  unfold vlapic_reg_write, bind at 1. rewrite Hv.
  change (write_icr i (u32 val) h = (set_vcpus (alter (vlapic_set_reg APIC_ICR icr) (Z.to_nat i) (h_vcpus h1)) h1, Ok X86EMUL_OKAY)).
  assert (u32 val = val) as -> by (unfold u32; by apply Z.mod_small).
  unfold write_icr. cbv zeta. unfold bind at 1. rewrite Hv. fold icr. rewrite Hicr.
  unfold bind at 1. rewrite E. change (X86EMUL_OKAY =? X86EMUL_OKAY) with true.
  unfold set_reg, upd_vcpu, when, bind, modify, ret. done.
Qed.

(** Vcpu 0 sends vector 0x51 to all but itself. *)
Lemma ipi_reaches_destination_witness : hw_ok two_apics /\
  exists h', vlapic_write true 0 0 (vlapic_base_address (plain_vcpu 0) + APIC_ICR) 4 0xC0051 two_apics =
      (h', Ok X86EMUL_OKAY) /\
    h_vcpus h' !! 0%nat = Some (vlapic_set_reg APIC_ICR 0xC0051 (plain_vcpu 0)) /\
    h_vcpus h' !! 1%nat = Some (injected 0x51 false (plain_vcpu 2)) /\ ApicKick 1 ∈ h_log h'.
Proof.
  split; [apply two_apics_ok|].
  destruct (ipi_reaches_destination true 0 two_apics 0 (plain_vcpu 0) 0xC0051 two_apics_ok eq_refl)
    as (h1 & got & E & [_ R1 R2] & F & _); [by repeat constructor|lia|reflexivity|lia|by left|].
  destruct (F eq_refl) as [-> _]. eexists. split; [exact E|]. cbn [h_vcpus set_vcpus h_log].
  pose proof (R1 0%nat (plain_vcpu 0) eq_refl) as H0. pose proof (R1 1%nat (plain_vcpu 2) eq_refl) as H1.
  split; [|split].
  - change (Z.to_nat 0) with 0%nat. rewrite list_lookup_alter_eq, H0. reflexivity.
  - change (Z.to_nat 0) with 0%nat. rewrite list_lookup_alter_ne by done. rewrite H1. reflexivity.
  - apply (R2 1%nat (plain_vcpu 2)); reflexivity.
Defined.

(** ** x2APIC mode *)

(** The logical identifier is computed from the register of the identifier as
    xAPIC mode keeps it, in its upper byte: every vcpu has the identifier 1. *)
Lemma x2apic_logical_ids_equal id : u32 (x2apic_ldr (Z.shiftl id 24)) = 1.
Proof.
  assert (Z.land (Z.shiftl id 24) 0xf = 0) as E.
  { change 0xf with (Z.ones 4). rewrite Z.land_ones, Z.shiftl_mul_pow2 by lia.
    replace (id * 2 ^ 24) with (id * 2 ^ 20 * 2 ^ 4) by lia. by apply Z.mod_mul. }
  unfold x2apic_ldr. rewrite E. change (Z.shiftl 1 0) with 1. apply Z.bits_inj_iff'. intros j Hj.
  rewrite u32_bits by done. rewrite Z.lor_spec, Z.shiftl_spec by done. destruct (Z.ltb_spec j 32) as [Hl|Hl].
  - unfold clear. rewrite Z.land_spec. destruct (Z.ltb_spec j 16); [by rewrite Z.testbit_neg_r by lia|].
    rewrite Z.shiftl_spec by lia. by rewrite (Z.testbit_neg_r id) by lia.
  - symmetry. apply Z.bits_above_log2; [lia|cbn; lia].
Qed.

(** ** The divisor of the timer *)

(** [lapic_load_hidden] takes the divisor as it is in the record; with 0 the
    next read of the current count divides by it. *)
Lemma zero_divisor_stops now v h : timer_divisor (vl_timer v) = 0 -> vlapic_get_tmcct now v h = (h, Bug).
Proof. intros Hd. unfold vlapic_get_tmcct. by rewrite Hd. Qed.
