(* ===== verification/HvmLapic.v ===== *)
(** * The registers of the interrupt hardware fit into their types

    What the operations keep whatever their result: the vector bases of the
    8259s and the registers of the IO-APIC are in the range of their C types,
    the timer of a local APIC has a divisor, and the vcpu of the 8259s and that
    of a pending INIT or SIPI exist. *)

From stdpp Require Import base list numbers.
From Stdlib Require Import ZArith Lia Bool.
From S2P Require Import Prelude Vpic VpicInv VpicOps HvmState Vlapic Vioapic HvmIrq VioapicInv.
From S2P Require Import VioapicOps HvmIrqOps HvmIrqRun VlapicRegs.

Open Scope Z_scope.
Open Scope se_scope.

(** ** The 8259s *)

(** The vector bases, and the vcpu, one of [n], that takes the interrupts. *)
Definition bases_fit (n : Z) (p : pics) : Prop :=
  (byte (irq_base (pic0 p)) /\ byte (irq_base (pic1 p))) /\ forall t, i8259_target p = Some t -> 0 <= t < n.

Section Bases.
Context (n : Z).

(** A change of a controller that keeps its base in range. *)
Definition base_kept (f : hvm_hw_vpic -> hvm_hw_vpic) : Prop :=
  forall v, byte (irq_base v) -> byte (irq_base (f v)).

Lemma upd_pic_bases i f : base_kept f -> preserves (bases_fit n) (upd_pic i f).
Proof.
  intros Hf p [[H0 H1] Ht]. destruct i as [|[|]]; [split; [split; [by apply Hf|done]|done]|split; [split; [done|by apply Hf]|done]|done].
Qed.
Lemma vpic_bases i : preserves (bases_fit n) (vpic i).
Proof. intros p Hp. unfold vpic, bind, get. by destruct (pic_of p i). Qed.
Lemma pic_emit_bases e : preserves (bases_fit n) (pic_emit e).
Proof. by apply preserves_modify. Qed.
#[local] Hint Resolve vpic_bases pic_emit_bases : keep.
#[local] Hint Extern 2 (preserves (bases_fit n) (upd_pic _ _)) => apply upd_pic_bases; by intros ? ? : keep.

Lemma update_int_bases i : preserves (bases_fit n) (vpic_update_int_output i).
Proof. induction i as [|i IH]; cbn [vpic_update_int_output]; cbv zeta; se_keep. Qed.
#[local] Hint Resolve update_int_bases : keep.

Lemma intack_update_base irq : base_kept (intack_update irq).
Proof. intros v Hv. unfold intack_update. cbv zeta. by repeat case_match. Qed.
Lemma intack_bases i : preserves (bases_fit n) (vpic_intack i).
Proof.
  unfold vpic_intack, do_intack. cbv zeta. se_keep; apply upd_pic_bases, intack_update_base.
Qed.
#[local] Hint Resolve intack_bases : keep.

Lemma ocw2_base val : base_kept (write_ocw2 val).
Proof. intros v Hv. unfold write_ocw2. cbv zeta. by repeat case_match. Qed.
Lemma a1_base val : 0 <= val -> base_kept (write_a1 val).
Proof.
  intros Hval v Hv. unfold write_a1, write_icw3. cbv zeta.
  assert (byte (Z.land val 0xf8)) as Hb.
  { apply byte_bits. split; [by apply Z.land_nonneg; left|]. intros j Hj. rewrite Z.land_spec.
    rewrite (Z.bits_above_log2 0xf8 j) by (done || (cbn; lia)). apply andb_false_r. }
  by repeat case_match.
Qed.

Lemma port_write_bases i addr val : 0 <= val -> preserves (bases_fit n) (vpic_ioport_write i addr val).
Proof.
  intros Hval. unfold vpic_ioport_write. se_keep. apply upd_pic_bases.
  repeat case_match; [by intros ? ?|by intros ? ?|apply ocw2_base|by apply a1_base].
Qed.

Lemma pic_io_bases w port val : preserves (bases_fit n) (vpic_intercept_pic_io w port 1 val).
Proof.
  unfold vpic_intercept_pic_io, vpic_ioport_read. cbv zeta. se_keep.
  apply port_write_bases. apply (Z.mod_pos_bound val (2 ^ 8)). lia.
Qed.
Lemma elcr_io_bases port val : preserves (bases_fit n) (vpic_intercept_elcr_io true port 1 val).
Proof. unfold vpic_intercept_elcr_io. cbv zeta. se_keep. Qed.
Lemma edges_bases irq : preserves (bases_fit n) (vpic_irq_positive_edge irq) /\
  preserves (bases_fit n) (vpic_irq_negative_edge irq).
Proof. unfold vpic_irq_positive_edge, vpic_irq_negative_edge. cbv zeta. split; se_keep. Qed.
Lemma ack_bases accept : preserves (bases_fit n) (vpic_ack_pending_irq accept).
Proof. unfold vpic_ack_pending_irq. se_keep. Qed.
End Bases.

(** ** The domain *)

Record timer_ok (t : lapic_timer) : Prop := {
  to_divisor : 0 < timer_divisor t <= 128;
  to_deadline : 0 <= tdt_msr t < 2 ^ 64
}.

(** The local APIC of a vcpu of a domain with [n] vcpus. *)
Record lapic_ok (n : Z) (v : vcpu) : Prop := {
  lo_timer : timer_ok (vl_timer v);
  lo_disabled : 0 <= vl_disabled v < 2 ^ 32;
  lo_base : 0 <= vl_apic_base_msr v < 2 ^ 64;
  lo_sipi : forall t icr, init_sipi v = Some (t, icr) -> 0 <= t < n /\
    (Z.land icr APIC_MODE_MASK = APIC_DM_INIT \/ Z.land icr APIC_MODE_MASK = APIC_DM_STARTUP)
}.

Record regs_fit (n : Z) (h : hdom) : Prop := {
  rf_pics : bases_fit n (h_pics h);
  rf_base : base_address (h_ioapic h) = VIOAPIC_DEFAULT_BASE_ADDRESS;
  rf_select : 0 <= ioregsel (h_ioapic h) < 2 ^ 32;
  rf_id : 0 <= ioapic_id (h_ioapic h) < 2 ^ 32;
  rf_count : zlen (h_vcpus h) = n;
  rf_lapics : Forall (lapic_ok n) (h_vcpus h)
}.

Lemma preserves_zoom {S T A} (I : S -> Prop) (J : T -> Prop) (g : S -> T) sp (m : SE T A) :
  preserves J m -> (forall s, I s -> J (g s)) -> (forall t s, I s -> J t -> I (sp t s)) ->
  preserves I (zoom g sp m).
Proof.
  intros Hm Hg Hs s HI. specialize (Hm (g s) (Hg s HI)). unfold zoom.
  destruct (m (g s)) as [t r]. simpl in *. auto.
Qed.

Section Fit.
Context (n : Z).

Abbreviation fits m := (preserves (regs_fit n) m).

Lemma on_pics_fit {A} (m : SE pics A) : preserves (bases_fit n) m -> fits (on_pics m).
Proof.
  intros Hm. unfold on_pics. eapply preserves_zoom; [exact Hm|by intros ? []|]. intros p h [] Hp. by split.
Qed.
Lemma on_irq_fit g : fits (on_irq g).
Proof. apply preserves_modify. intros h []. by split. Qed.
Lemma upd_vcpu_ok i f : (forall v, lapic_ok n v -> lapic_ok n (f v)) -> fits (upd_vcpu i f).
Proof.
  intros Hf. apply preserves_modify. intros h [? ? ? ? H5 H6]. split; try done.
  - unfold zlen in *. cbn [h_vcpus set_vcpus]. by rewrite length_alter.
  - apply Forall_alter; [done|]. intros v _. apply Hf.
Qed.
(** A change of the registers and the pending events of a vcpu only. *)
Definition lapic_same (f : vcpu -> vcpu) : Prop := forall v, vl_timer (f v) = vl_timer v /\
  vl_disabled (f v) = vl_disabled v /\ vl_apic_base_msr (f v) = vl_apic_base_msr v /\ init_sipi (f v) = init_sipi v.
Lemma same_lapic_ok f v : lapic_same f -> lapic_ok n v -> lapic_ok n (f v).
Proof. intros Hf [A1 A2 A3 A4]. destruct (Hf v) as (H1 & H2 & H3 & H4). split; by rewrite ?H1, ?H2, ?H3, ?H4. Qed.
Lemma upd_vcpu_fit i f : lapic_same f -> fits (upd_vcpu i f).
Proof. intros Hf. apply upd_vcpu_ok. intros v. by apply same_lapic_ok. Qed.
Lemma apic_emit_fit e : fits (apic_emit e).
Proof. apply preserves_modify. intros h []. by split. Qed.
Lemma set_entry_fit g e : fits (set_entry g e).
Proof. apply preserves_modify. intros h []. by split. Qed.
Lemma elem_fit {A} (l : list A) i : fits (elem l i).
Proof. unfold elem. se_keep. Qed.
#[local] Hint Extern 2 (preserves _ (upd_vcpu _ _)) => apply upd_vcpu_fit; by intros ? : keep.
#[local] Hint Resolve on_irq_fit apic_emit_fit set_entry_fit elem_fit : keep.
Lemma the_vcpu_fit i : fits (the_vcpu i).
Proof. unfold the_vcpu. se_keep. Qed.
Lemma entry_fit i : fits (entry i).
Proof. unfold entry. se_keep. Qed.
Lemma vcpu_ptr_fit i : fits (vcpu_ptr i).
Proof. unfold vcpu_ptr. se_keep. Qed.
#[local] Hint Resolve the_vcpu_fit entry_fit vcpu_ptr_fit : keep.
Lemma for_vcpus_fit body k i : (forall j, fits (body j)) -> fits (for_vcpus k i body).
Proof. intros Hb. revert i. induction k as [|k IH]; intros i; cbn [for_vcpus]; se_keep. Qed.
Lemma gsi_counts_fit g : fits (gsi_inc g) /\ fits (gsi_dec g) /\
  fits (link_inc g) /\ fits (link_dec g).
Proof. unfold gsi_inc, gsi_dec, link_inc, link_dec. split_and!; se_keep. Qed.
Lemma gsi_inc_fit g : fits (gsi_inc g).
Proof. apply gsi_counts_fit. Qed.
Lemma gsi_dec_fit g : fits (gsi_dec g).
Proof. apply gsi_counts_fit. Qed.
Lemma link_inc_fit g : fits (link_inc g).
Proof. apply gsi_counts_fit. Qed.
Lemma link_dec_fit g : fits (link_dec g).
Proof. apply gsi_counts_fit. Qed.
#[local] Hint Resolve gsi_inc_fit gsi_dec_fit link_inc_fit link_dec_fit : keep.

(** ** The operations *)

Lemma inj_fit t v tm dm : fits (ioapic_inj_irq t v tm dm).
Proof. unfold ioapic_inj_irq, vlapic_set_irq. cbv zeta. se_keep. Qed.
#[local] Hint Resolve inj_fit : keep.
Lemma lowest_prio_fit s sh dest m : fits (vlapic_lowest_prio s sh dest m).
Proof. unfold vlapic_lowest_prio. se_keep. Qed.
Lemma dest_matches_fit i d m : fits (dest_matches i d m).
Proof. unfold dest_matches. se_keep. Qed.
#[local] Hint Resolve lowest_prio_fit dest_matches_fit : keep.

Section Ops.
Context (pit0 : bool).

Lemma deliver_fit irq v : fits (vioapic_deliver pit0 irq v).
Proof. unfold vioapic_deliver, for_each_vcpu. cbv zeta. se_keep; apply for_vcpus_fit; se_keep. Qed.
#[local] Hint Resolve deliver_fit : keep.
Lemma positive_edge_fit irq v : fits (vioapic_irq_positive_edge pit0 irq v).
Proof. unfold vioapic_irq_positive_edge. se_keep. Qed.
Lemma pic_up_fit irq : fits (on_pics (vpic_irq_positive_edge irq)).
Proof. apply on_pics_fit, edges_bases. Qed.
Lemma pic_down_fit irq : fits (on_pics (vpic_irq_negative_edge irq)).
Proof. apply on_pics_fit, edges_bases. Qed.
#[local] Hint Resolve positive_edge_fit pic_up_fit pic_down_fit : keep.

Lemma eoi_pins_fit vec k g : fits (eoi_pins pit0 vec k g).
Proof. revert g. induction k as [|k IH]; intros g; cbn [eoi_pins]; unfold eoi_pin; cbv zeta; se_keep. Qed.
#[local] Hint Resolve eoi_pins_fit : keep.

Lemma pci_fit d i : fits (hvm_pci_intx_assert pit0 d i) /\ fits (hvm_pci_intx_deassert d i).
Proof.
  unfold hvm_pci_intx_assert, hvm_pci_intx_deassert, assert_gsi, assert_irq, assert_gsi, deassert_irq. cbv zeta.
  split; se_keep.
Qed.
Lemma pci_up_fit d i : fits (hvm_pci_intx_assert pit0 d i).
Proof. apply pci_fit. Qed.
Lemma pci_down_fit d i : fits (hvm_pci_intx_deassert d i).
Proof. apply pci_fit. Qed.
#[local] Hint Resolve pci_up_fit pci_down_fit : keep.

Lemma first_accepting_range e l : forall i t, 0 <= i -> first_accepting e l i = Some t -> 0 <= t < i + zlen l.
Proof.
  induction l as [|v l IH]; intros i t Hi Ht; cbn [first_accepting] in Ht; [done|]. unfold zlen in *. cbn [length].
  destruct (accepts_pic_intr e v); [injection Ht as <-; lia|]. specialize (IH (i + 1) t ltac:(lia) Ht). lia.
Qed.
Lemma adjust_target_fit : fits vlapic_adjust_i8259_target.
Proof.
  apply preserves_bind_get_with. intros h Hh. pose proof (rf_count _ _ Hh) as Hn. apply preserves_bind; [apply elem_fit|]. intros e.
  assert (forall v, (forall t, v = Some t -> 0 <= t < n) -> fits (if bool_decide (i8259_target (h_pics h) = v) then ret tt
    else on_pics (modify (set_i8259_target v));; apic_emit (ApicRetarget v))) as Hset.
  { intros v Hv. case_bool_decide; [apply preserves_ret|]. apply preserves_bind; [|intros _; apply apic_emit_fit].
    apply on_pics_fit, preserves_modify. intros p [Hp _]. by split. }
  destruct (first_accepting e (h_vcpus h) 0) as [t|] eqn:E.
  - refine (Hset (Some t) _). intros ? [= <-]. pose proof (first_accepting_range e (h_vcpus h) 0 t ltac:(lia) E). lia.
  - intros h' Hh'. unfold vcpu_ptr, bind at 1 2, get at 1. destruct (h_max_vcpus h' =? 0); [by apply (Hset None)|].
    destruct (_ || _); [done|]. refine (Hset _ _ h' Hh'). intros t Ht. rewrite (rf_count _ _ Hh') in Ht.
    destruct (Z.ltb_spec 0 n); [injection Ht as <-; lia|done].
Qed.
#[local] Hint Resolve adjust_target_fit : keep.

Lemma on_ioapic_fit g : (forall a, base_address (g a) = base_address a /\
    (0 <= ioregsel a < 2 ^ 32 -> 0 <= ioregsel (g a) < 2 ^ 32) /\
    (0 <= ioapic_id a < 2 ^ 32 -> 0 <= ioapic_id (g a) < 2 ^ 32)) -> fits (on_ioapic g).
Proof.
  intros Hg. apply preserves_modify. intros h [H1 H2 H3 H4 H5 H6]. destruct (Hg (h_ioapic h)) as (G1 & G2 & G3).
  split; cbn [h_pics h_ioapic set_ioapic h_vcpus]; [done|congruence|auto|auto|done|done].
Qed.

Lemma land_15 x : 0 <= Z.land x 0xf < 2 ^ 32.
Proof.
  change 0xf with (Z.ones 4). rewrite Z.land_ones by lia. pose proof (Z.mod_pos_bound x (2 ^ 4)). lia.
Qed.

Lemma write_redirent_fit i top val : fits (vioapic_write_redirent pit0 i top val).
Proof. unfold vioapic_write_redirent. cbv zeta. se_keep. Qed.
#[local] Hint Resolve write_redirent_fit : keep.

Lemma ioapic_write_fit a v : fits (vioapic_write pit0 a v).
Proof.
  unfold vioapic_write, vioapic_write_indirect. cbv zeta. se_keep; apply on_ioapic_fit; intros x; (split; [done|]).
  - split; [|done]. intros _. apply u32_range.
  - split; [done|]. intros _. apply land_15.
Qed.
Lemma ioapic_read_fit a : fits (vioapic_read a).
Proof. unfold vioapic_read, vioapic_read_indirect. cbv zeta. se_keep. Qed.
Lemma accept_pic_fit i : fits (vlapic_accept_pic_intr i).
Proof. unfold vlapic_accept_pic_intr. se_keep. Qed.
#[local] Hint Resolve ioapic_write_fit ioapic_read_fit accept_pic_fit : keep.

Lemma EOI_set_fit i : fits (vlapic_EOI_set pit0 i).
Proof. unfold vlapic_EOI_set, vioapic_update_EOI. cbv zeta. se_keep. Qed.
#[local] Hint Resolve EOI_set_fit : keep.

(** ** The registers of the local APICs *)

Lemma set_reg_fit i r x : fits (set_reg i r x).
Proof. unfold set_reg. se_keep. Qed.
Lemma destroy_fit i : fits (lapic_pt_destroy i).
Proof. unfold lapic_pt_destroy. se_keep. Qed.
#[local] Hint Resolve set_reg_fit destroy_fit : keep.

(** A change of the timer that keeps its divisor. *)
Lemma on_timer_fit i f : (forall t, timer_ok t -> timer_ok (f t)) -> fits (on_timer i f).
Proof. intros Hf. apply upd_vcpu_ok. intros v [H1 ? ? ?]. split; [by apply Hf|done..]. Qed.
#[local] Hint Extern 2 (preserves _ (on_timer _ _)) => apply on_timer_fit; by intros ? [] : keep.

Lemma tdcr_divisor_range val : 0 < tdcr_divisor val <= 128.
Proof.
  unfold tdcr_divisor. set (k := Z.lor _ _ + 1). rewrite Z.shiftl_1_l. change 7 with (Z.ones 3).
  rewrite Z.land_ones by lia. pose proof (Z.mod_pos_bound k (2 ^ 3) ltac:(lia)) as Hk.
  split; [apply Z.pow_pos_nonneg; lia|]. change 128 with (2 ^ 7). apply Z.pow_le_mono_r; lia.
Qed.

(** ** The other operations *)

Lemma isa_up_fit irq v : fits (hvm_isa_irq_assert_to_cpu pit0 irq v).
Proof. unfold hvm_isa_irq_assert_to_cpu, assert_irq, assert_gsi. cbv zeta. se_keep. Qed.
Lemma isa_down_fit irq : fits (hvm_isa_irq_deassert irq).
Proof. unfold hvm_isa_irq_deassert, deassert_irq. cbv zeta. se_keep. Qed.
Lemma route_fit l i : fits (hvm_set_pci_link_route pit0 l i).
Proof. unfold hvm_set_pci_link_route. se_keep. Qed.
Lemma callback_via_fit via : fits (hvm_set_callback_via pit0 via).
Proof. unfold hvm_set_callback_via, callback_teardown, callback_setup. cbv zeta. se_keep. Qed.
Lemma pic_intercepts_fit w port val : fits (on_pics (vpic_intercept_pic_io w port 1 val)) /\
  fits (on_pics (vpic_intercept_elcr_io true port 1 val)).
Proof. split; apply on_pics_fit; [apply pic_io_bases|apply elcr_io_bases]. Qed.
Lemma ack_irq_fit i k : fits (hvm_vcpu_ack_pending_irq i k).
Proof.
  unfold hvm_vcpu_ack_pending_irq, vlapic_ack_pending_irq. se_keep. apply on_pics_fit, ack_bases.
Qed.
End Ops.
End Fit.

(** * The local APICs in the interrupt hardware

    Every access of a vcpu to its local APIC (registers, inter-processor
    interrupts, INIT and SIPI, base address, TSC deadline) succeeds and keeps
    the invariant of the interrupt hardware and its wires. *)

(** ** The vcpus *)

(** The same wires, and the invariant. *)
Definition keeps_inv (h h' : hdom) : Prop := irq_inv h' /\ same_wires (h_irq h) (h_irq h').

Lemma keeps_inv_refl h : irq_inv h -> keeps_inv h h.
Proof. by intros ?. Qed.

Lemma inv_vcpus h l : irq_inv h -> length l = length (h_vcpus h) -> Forall regs_ok l ->
  irq_inv (set_vcpus l h).
Proof.
  intros [[A1 A2 A3 A4 A5 A6] B2 B3] Hl Hr. split; [|done|done]. split; try done.
  unfold zlen in *. simpl. by rewrite Hl.
Qed.

Lemma alter_regs f i l : (forall v, regs_ok v -> regs_ok (f v)) -> Forall regs_ok l ->
  Forall regs_ok (alter f i l).
Proof. intros Hf Hl. apply Forall_alter; [done|]. intros v _. apply Hf. Qed.

Lemma keeps_upd_vcpu i f h0 h : (forall v, regs_ok v -> regs_ok (f v)) -> keeps_inv h0 h ->
  keeps_inv h0 (set_vcpus (alter f (Z.to_nat i) (h_vcpus h)) h).
Proof.
  intros Hf [H1 H2]. split; [|done]. apply inv_vcpus; [done|apply length_alter|].
  apply alter_regs; [done|]. apply H1.
Qed.

Lemma inv_access h h' : irq_inv h -> access_ok h h' -> keeps_inv h h'.
Proof.
  intros Hi Ha. pose proof (wires_access _ _ h h' Ha (inv_wires h Hi)) as W.
  destruct Ha as (H1 & H2 & H3). pose proof (same_wires_step _ _ H2) as S.
  destruct Hi as [B1 [[R1 R2] _ _ R4] B3]. apply (becomes_intro _ _ (h_irq h) h' W); try done.
Qed.

(** An operation of the 8259s. *)
Lemma inv_pics h p : irq_inv h -> pics_ok p -> keeps_inv h (set_pics p h).
Proof. intros [[A1 A2 A3 A4 A5 A6] B2 B3] Hp. split; [|done]. by split; [split| |]. Qed.

Lemma run_pic_wp op h : irq_inv h -> op_ok op = true -> wp (on_pics (run_pic op)) (fun _ => keeps_inv h) h.
Proof.
  intros Hi Hop. destruct (run_pic_ok op (h_pics h) (hw_pics _ (iv_hw _ Hi)) Hop) as (p & r & E & P).
  apply wp_zoom. eapply wp_eq; [exact E|]. by apply inv_pics.
Qed.

Section Lapic.
Context (pit0 : bool).

Lemma EOI_set_wp i h : irq_inv h -> 0 <= i < zlen (h_vcpus h) ->
  wp (vlapic_EOI_set pit0 i) (fun _ => keeps_inv h) h.
Proof.
  intros Hi Hv. destruct (lookup_Z _ _ Hv) as [v Hl]. unfold vlapic_EOI_set.
  apply wp_bind. eapply wp_the_vcpu; [lia|exact Hl|]. cbv zeta. case_match; [by apply wp_ret, keeps_inv_refl|].
  apply wp_bind. unfold upd_vcpu at 1. apply wp_modify. apply wp_bind.
  eapply (wp_the_vcpu i); [lia|cbn [h_vcpus set_vcpus]; rewrite list_lookup_alter_eq, Hl; reflexivity|].
  apply wp_bind. unfold upd_vcpu. apply wp_modify.
  match goal with |- wp _ _ ?s => set (h1 := s) end.
  assert (keeps_inv h h1) as [I1 S1] by (do 2 (apply keeps_upd_vcpu; [intros; by apply regs_ok_set|]); by apply keeps_inv_refl).
  apply wp_when; intros _; [|done].
  eapply wp_mono; [apply update_EOI_wp; [apply I1|apply (wires_len _ _ _ (inv_wires h1 I1))]|].
  intros [] h2 [D1 D2 D3 D4 D5 D6]. destruct (inv_access h1 h2 I1) as [I2 S2]; [by split|].
  split; [done|by etrans].
Qed.

Lemma accept_pic_wp i h : hw_ok h -> 0 <= i < zlen (h_vcpus h) ->
  wp (vlapic_accept_pic_intr i) (fun _ h' => h' = h) h.
Proof.
  intros Hok Hv. destruct (lookup_Z _ _ Hv) as [v Hl]. unfold vlapic_accept_pic_intr.
  apply wp_bind, wp_get, wp_bind. eapply wp_the_vcpu; [lia|exact Hl|]. case_match; [|by apply wp_ret].
  destruct (entry_exists h 0 Hok) as (e & He & _); [lia|]. apply wp_bind. eapply wp_elem; [lia|exact He|]. by apply wp_ret.
Qed.

Lemma ack_wp i k h : irq_inv h -> 0 <= i < zlen (h_vcpus h) ->
  wp (hvm_vcpu_ack_pending_irq i k) (fun _ => keeps_inv h) h.
Proof.
  intros Hi Hv. destruct (lookup_Z _ _ Hv) as [v Hl]. unfold hvm_vcpu_ack_pending_irq.
  pose proof (keeps_inv_refl h Hi) as H0.
  apply wp_bind. eapply wp_the_vcpu; [lia|exact Hl|]. destruct k as [|vec|vec| | |vec];
    try (by apply wp_ret).
  - apply wp_bind. eapply wp_mono; [apply accept_pic_wp; [apply Hi|done]|]. intros acc ? ->.
    apply wp_bind. eapply wp_mono; [by apply (run_pic_wp (OpAck acc))|]. intros r h' H. by apply wp_ret.
  - unfold vlapic_ack_pending_irq, upd_vcpu. apply wp_bind, wp_bind, wp_modify, wp_bind, wp_modify, wp_ret, wp_ret.
    do 2 (apply keeps_upd_vcpu; [intros; by apply regs_ok_set|]). done.
  - unfold upd_vcpu. apply wp_bind, wp_modify, wp_ret. by apply keeps_upd_vcpu.
  - unfold upd_vcpu. apply wp_bind, wp_modify, wp_ret. by apply keeps_upd_vcpu.
Qed.


(** ** Accesses that keep the invariant *)

Section Good.
Context (h0 : hdom) (n : Z).

Definition kept (h : hdom) : Prop := keeps_inv h0 h /\ regs_fit n h.
(** [m] succeeds and keeps the invariant and the wires of [h0]. *)
Definition good {A} (m : SE hdom A) : Prop := forall h, kept h -> wp m (fun _ => kept) h.

Lemma good_ret {A} (a : A) : good (ret a).
Proof. by intros h Hh. Qed.
Lemma good_bind {A B} (m : SE hdom A) (k : A -> SE hdom B) : good m -> (forall a, good (k a)) -> good (bind m k).
Proof. intros Hm Hk h Hh. apply wp_bind. eapply wp_mono; [by apply Hm|]. intros a h' H'. by apply Hk. Qed.
Lemma good_when b m : good m -> good (when b m).
Proof. intros Hm. destruct b; [done|apply good_ret]. Qed.
Lemma good_gets {A} (f : hdom -> A) : good (gets f).
Proof. by intros h Hh. Qed.
(** From what the operation does to the wires and to the registers. *)
Lemma good_parts {A} (m : SE hdom A) : (forall h, kept h -> wp m (fun _ => keeps_inv h0) h) ->
  preserves (regs_fit n) m -> good m.
Proof.
  intros Hm Hp h Hh. specialize (Hm h Hh). specialize (Hp h (proj2 Hh)). unfold wp in *.
  by destruct (m h) as [h' [a| |]].
Qed.
Lemma good_upd i f : (forall v, regs_ok v -> regs_ok (f v)) -> (forall v, lapic_ok n v -> lapic_ok n (f v)) ->
  good (upd_vcpu i f).
Proof.
  intros H1 H2. apply good_parts; [|by apply upd_vcpu_ok]. intros h [Hk _]. by apply keeps_upd_vcpu.
Qed.
Lemma good_emit e : good (apic_emit e).
Proof.
  apply good_parts; [|apply apic_emit_fit]. intros h [[H1 H2] _]. unfold apic_emit. apply wp_modify.
  split; [|done]. destruct H1 as [[A1 A2 A3 A4 A5 A6] B2 B3]. by split; [split| |].
Qed.
Lemma good_vcpu {A} i (k : vcpu -> SE hdom A) : 0 <= i < n ->
  (forall v, regs_ok v -> lapic_ok n v -> good (k v)) -> good (v <- the_vcpu i;; k v).
Proof.
  intros Hi Hk h Hh. pose proof Hh as [[Hin _] Hf]. pose proof (rf_count _ _ Hf) as Hn.
  destruct (lookup_Z (h_vcpus h) i ltac:(lia)) as [v Hl]. apply wp_bind. eapply wp_the_vcpu; [lia|exact Hl|].
  apply Hk; [|exact (Forall_lookup_1 _ _ _ _ (rf_lapics _ _ Hf) Hl)|done].
  exact (Forall_lookup_1 _ _ _ _ (hw_regs _ (iv_hw _ Hin)) Hl).
Qed.

Lemma good_set_reg i r x : good (set_reg i r x).
Proof. apply good_upd; [intros v; apply regs_ok_set|]. intros v []. by split. Qed.
Lemma good_regs i f : (forall v, regs_ok v -> regs_ok (f v)) -> lapic_same f -> good (upd_vcpu i f).
Proof. intros H1 H2. apply good_upd; [done|]. intros v. by apply same_lapic_ok. Qed.
Lemma good_timer i f : (forall t, timer_ok t -> timer_ok (f t)) -> good (on_timer i f).
Proof. intros Hf. apply good_upd; [done|]. intros v [A1 ? ? ?]. split; [by apply Hf|done..]. Qed.
Lemma good_disabled i f : f = set_sw_disabled true \/ f = set_sw_disabled false \/
  f = set_hw_disabled true \/ f = set_hw_disabled false -> good (upd_vcpu i f).
Proof.
  intros Hf. apply good_upd; [by destruct Hf as [->|[->|[->| ->]]]|]. intros v [A1 A2 A3 A4].
  destruct Hf as [->|[->|[->| ->]]]; (split; [done| |done|done]);
    [apply (setbit_fit _ 1 32)|apply (clearbit_fit _ 1 32)|apply (setbit_fit _ 0 32)|apply (clearbit_fit _ 0 32)]; done || lia.
Qed.
Lemma good_EOI i : 0 <= i < n -> good (vlapic_EOI_set pit0 i).
Proof.
  intros Hi. apply good_parts; [|apply EOI_set_fit]. intros h [[H1 H2] Hf]. pose proof (rf_count _ _ Hf) as Hn.
  eapply wp_mono; [apply EOI_set_wp; [done|lia]|]. intros [] h' [K1 K2]. split; [done|by etrans].
Qed.
Lemma good_adjust : good vlapic_adjust_i8259_target.
Proof.
  apply good_parts; [|apply adjust_target_fit]. intros h [[H1 H2] _].
  eapply wp_mono; [apply adjust_target_wp, H1|]. intros [] h' Ha. destruct (inv_access h h' H1 Ha) as [K1 K2].
  split; [done|by etrans].
Qed.
Lemma good_lowest {A} source sh dest dm (k : option Z -> SE hdom A) : good (k None) ->
  (forall t, 0 <= t < n -> good (k (Some t))) -> good (t <- vlapic_lowest_prio source sh dest dm;; k t).
Proof.
  intros H0 Hk h Hh. pose proof Hh as [[H1 H2] Hf]. pose proof (rf_count _ _ Hf) as Hn.
  pose proof (lowest_prio_fit n source sh dest dm h Hf) as Hf'.
  apply wp_bind. pose proof (lowest_prio_wp source sh dest dm h (iv_hw _ H1)) as Hw. unfold wp in Hw |- *.
  destruct (vlapic_lowest_prio source sh dest dm h) as [h' [t| |]]; [|done|done]. cbn [fst] in Hf'.
  destruct Hw as (B1 & B2 & B3 & B4). assert (kept h') as Hh'.
  { split; [|done]. destruct (inv_access h h' H1) as [K1 K2]; [|split; [done|by etrans]].
    apply (delivery_access h h'); [done|done]. }
  destruct t as [t|]; [|by apply H0]. apply Hk; [|done]. rewrite <- Hn. by apply B4.
Qed.

Create HintDb good discriminated.
#[local] Hint Resolve good_ret good_gets good_emit good_set_reg good_EOI good_adjust : good.
#[local] Hint Extern 2 (good (on_timer _ _)) => apply good_timer; by intros ? [] : good.
#[local] Hint Extern 3 (good (upd_vcpu _ _)) => apply good_regs; [by intros ? ?; repeat apply regs_ok_set|by intros ?] : good.
#[local] Hint Extern 2 (good (upd_vcpu _ (set_sw_disabled _))) => apply good_disabled; tauto : good.
#[local] Hint Extern 2 (good (upd_vcpu _ (set_hw_disabled _))) => apply good_disabled; tauto : good.

(** Take an access apart. *)
Ltac lapic_good :=
  repeat first
    [ progress intros
    | solve [eauto with good]
    | match goal with
      | |- good (bind (the_vcpu _) _) => apply good_vcpu; [assumption|]
      | |- good (bind (vlapic_lowest_prio _ _ _ _) _) => apply good_lowest
      | |- good (bind _ _) => apply good_bind
      | |- good (when _ _) => apply good_when
      | |- good (if ?b then _ else _) => destruct b eqn:?
      | |- good (match ?x with _ => _ end) => destruct x eqn:?
      end ].

(** ** Inter-processor interrupts *)

Section Accesses.
Context (i : Z) (Hi : 0 <= i < n).

Lemma good_schedule t icr : 0 <= t < n ->
  (Z.land icr APIC_MODE_MASK = APIC_DM_INIT \/ Z.land icr APIC_MODE_MASK = APIC_DM_STARTUP) ->
  good (vlapic_schedule_init_sipi_tasklet i t icr).
Proof.
  intros Ht Hm. unfold vlapic_schedule_init_sipi_tasklet. lapic_good. apply good_upd; [done|].
  intros v' [? ? ? _]. split; [done..|]. intros ? ? [= <- <-]. done.
Qed.

Lemma good_accept t icr : 0 <= t < n -> good (vlapic_accept_irq i t icr).
Proof.
  intros Ht. unfold vlapic_accept_irq. cbv zeta. lapic_good; apply good_schedule; rewrite ?Z.eqb_eq in *; auto.
Qed.

Lemma good_ipi_loop k icr sh dest dm : forall t, 0 <= t -> t + Z.of_nat k <= n -> good (ipi_loop k i icr sh dest dm t).
Proof.
  induction k as [|k IH]; intros t Ht Hk; cbn [ipi_loop]; [apply good_ret|].
  apply good_vcpu; [lia|]. lapic_good; [apply good_accept; lia|apply IH; lia].
Qed.

Lemma good_ipi lo hi : good (vlapic_ipi i lo hi).
Proof.
  unfold vlapic_ipi. cbv zeta. apply good_vcpu; [done|]. intros v _ _. case_match.
  - lapic_good. by apply good_accept.
  - intros h Hh. apply wp_bind, wp_gets. apply good_ipi_loop; [lia| |done].
    pose proof (rf_count _ _ (proj2 Hh)) as Hn. unfold zlen in Hn. lia.
Qed.
#[local] Hint Resolve good_ipi : good.

(** ** Registers *)

Lemma good_tdcr j val : good (vlapic_set_tdcr j val).
Proof. unfold vlapic_set_tdcr. cbv zeta. lapic_good. apply good_timer. intros t [_ H]. split; [apply tdcr_divisor_range|done]. Qed.
Lemma good_destroy j : good (lapic_pt_destroy j).
Proof. unfold lapic_pt_destroy. lapic_good. Qed.
#[local] Hint Resolve good_tdcr good_destroy : good.
Lemma good_reset j : good (vlapic_reset j).
Proof. unfold vlapic_reset. lapic_good. Qed.
#[local] Hint Resolve good_reset : good.

Lemma good_icr val : good (write_icr i val).
Proof. unfold write_icr. cbv zeta. lapic_good. Qed.

Lemma good_lvt o val : o ∈ [APIC_LVTT; APIC_LVTTHMR; APIC_LVTPC; APIC_LVT0; APIC_LVT1; APIC_LVTERR] ->
  good (write_lvt i o val).
Proof.
  intros Ho. unfold write_lvt. cbv zeta. apply good_vcpu; [done|]. intros v Hr Hv. apply good_bind; [|lapic_good].
  assert (exists m, elem vlapic_lvt_mask (Z.shiftr (o - APIC_LVTT) 4) = ret m) as [m ->]; [|apply good_ret].
  rewrite !elem_of_cons in Ho. destruct Ho as [->|[->|[->|[->|[->|[->|Ho]]]]]]; try (eexists; reflexivity).
  by apply elem_of_nil in Ho.
Qed.

Section Time.
Context (now tsc : Z) (conv : Z -> Z).

Lemma good_create j delta period irq : good (lapic_pt_create now j delta period irq).
Proof. unfold lapic_pt_create. lapic_good. Qed.
#[local] Hint Resolve good_create good_icr : good.

Lemma good_tmcct v : lapic_ok n v -> good (vlapic_get_tmcct now v).
Proof.
  intros [[[D1 D2] _] _ _ _]. unfold vlapic_get_tmcct. cbv zeta. apply good_bind; [|lapic_good].
  intros h Hh. apply wp_bug_if; [|done]. apply Z.eqb_neq. unfold u32, APIC_BUS_CYCLE_NS.
  rewrite Z.mod_small; lia.
Qed.
Lemma good_read_aligned v o : lapic_ok n v -> good (vlapic_read_aligned now v o).
Proof. intros Hv. unfold vlapic_read_aligned. lapic_good. by apply good_tmcct. Qed.
Lemma good_read a l : good (vlapic_read now i a l).
Proof. unfold vlapic_read. cbv zeta. lapic_good. by apply good_read_aligned. Qed.
Lemma good_x2apic_read msr : good (hvm_x2apic_msr_read now i msr).
Proof. unfold hvm_x2apic_msr_read. cbv zeta. lapic_good; by apply good_read_aligned. Qed.

Lemma good_reg_write o val : good (vlapic_reg_write pit0 now i o val).
Proof.
  unfold vlapic_reg_write, unless_x2apic, okay, write_spiv, write_lvtt, write_tmict. cbv zeta.
  lapic_good; apply good_lvt; rewrite ?orb_true_iff, ?Z.eqb_eq in *; rewrite !elem_of_cons; intuition.
Qed.
#[local] Hint Resolve good_reg_write : good.
Lemma good_write a l val : good (vlapic_write pit0 now i a l val).
Proof. unfold vlapic_write. cbv zeta. lapic_good. by apply good_read_aligned. Qed.
Lemma good_x2apic_write msr val : good (hvm_x2apic_msr_write pit0 now i msr val).
Proof. unfold hvm_x2apic_msr_write. cbv zeta. lapic_good. Qed.

(** ** Base address, deadline, callbacks, INIT and SIPI *)

Lemma good_msr_set val : 0 <= val < 2 ^ 64 -> good (vlapic_msr_set i val).
Proof.
  intros Hval. unfold vlapic_msr_set. lapic_good. apply good_upd; [done|]. intros v' [? ? ? ?]. by split.
Qed.
Lemma good_tdt_set val : 0 <= val < 2 ^ 64 -> good (vlapic_tdt_msr_set now tsc conv i val).
Proof. intros Hval. unfold vlapic_tdt_msr_set. lapic_good. Qed.
Lemma good_callbacks : good (vlapic_pt_cb now i) /\ good (vlapic_tdt_pt_cb now i).
Proof. unfold vlapic_pt_cb, vlapic_tdt_pt_cb. split; lapic_good. Qed.

(** The tasklet runs after it has been scheduled. *)
Lemma action_wp h v : kept h -> h_vcpus h !! Z.to_nat i = Some v -> is_Some (init_sipi v) ->
  wp (vlapic_init_sipi_action i) (fun _ => kept) h.
Proof.
  intros Hh Hl [[t icr] Hs]. pose proof Hh as [_ Hf].
  destruct (lo_sipi _ _ (Forall_lookup_1 _ _ _ _ (rf_lapics _ _ Hf) Hl) t icr Hs) as [Ht Hm].
  unfold vlapic_init_sipi_action. apply wp_bind. eapply wp_the_vcpu; [lia|exact Hl|]. rewrite Hs. cbv zeta.
  revert h Hh Hl Hf. intros h Hh _ _.
  assert (good (upd_vcpu i (set_init_sipi None))) as Hnone
    by (apply good_upd; [done|]; intros v' [? ? ? _]; split; [done..|by intros ? ?]).
  refine ((_ : good _) h Hh). destruct Hm as [-> | ->].
  - change (APIC_DM_INIT =? APIC_DM_INIT) with true. cbv iota. lapic_good.
  - change (APIC_DM_STARTUP =? APIC_DM_INIT) with false. change (APIC_DM_STARTUP =? APIC_DM_STARTUP) with true.
    cbv iota. lapic_good.
Qed.
End Time.
End Accesses.
End Good.
End Lapic.
