(* ===== verification/HvmIrqSystem.v ===== *)
(** * The interrupt hardware as a system

    The operations that reach the interrupt hardware of a domain (the wires of
    its devices, the guest's accesses to the IO-APIC, the 8259s and the local
    APICs, inter-processor interrupts included, the ends of interrupts and the
    acknowledges of its vcpus), the states they reach, and the invariant. *)

From stdpp Require Import base list numbers.
From Stdlib Require Import ZArith Lia Bool.
From S2P Require Import Prelude Vpic HvmState Vlapic Vioapic HvmIrq VpicInv VpicOps.
From S2P Require Import VioapicInv VioapicOps HvmIrqOps HvmIrqRun.
From S2P Require Import VlapicRegs HvmLapic.

Open Scope Z_scope.
Open Scope se_scope.

Section System.
Context (pit0 : bool).

Lemma ioapic_read_wp addr h : hw_ok h -> wp (vioapic_read addr) (fun _ h' => h' = h) h.
Proof.
  intros Hok. unfold vioapic_read. apply wp_bind, wp_gets. cbv zeta. case_match; [by apply wp_ret|].
  case_match; [|by apply wp_ret]. apply wp_bind. unfold vioapic_read_indirect. cbv zeta.
  case_match; [by apply wp_ret, wp_ret|]. case_match; [by apply wp_ret, wp_ret|].
  destruct (Z.leb_spec VIOAPIC_NUM_PINS (redir_index (ioregsel (h_ioapic h)))) as [|Hr]; [by apply wp_ret, wp_ret|].
  destruct (entry_exists h (redir_index (ioregsel (h_ioapic h))) Hok) as (e & He & _).
  { split; [apply redir_index_nonneg|exact Hr]. }
  apply wp_bind. eapply wp_elem; [apply redir_index_nonneg|exact He|]. by apply wp_ret, wp_ret.
Qed.

(** ** Operations *)

(** What a vcpu does with its local APIC, and what its timer and its tasklet
    do; [now] and [tsc] are the guest's time and time-stamp counter then, [conv]
    converts the one into the other. *)
Inductive lapic_op : Type :=
| LRead (now addr len : Z)
| LWrite (now addr len val : Z)
| LRdmsr (now msr : Z)
| LWrmsr (now msr val : Z)
| LBase (val : Z)
| LDeadline (now tsc : Z) (conv : Z -> Z) (val : Z)
| LTimer (now : Z)
| LDeadlineTimer (now : Z)
| LInitSipi.

Inductive hop : Type :=
| HPciAssert (dev intx : Z)
| HPciDeassert (dev intx : Z)
| HIsaAssert (irq : Z)
| HIsaAssertTo (irq vcpu : Z)
| HIsaDeassert (irq : Z)
| HRoute (link irq : Z)
| HCallback (via : Z)
| HIoapicWrite (addr val : Z)
| HIoapicRead (addr : Z)
| HPicIo (write : bool) (port val : Z)
| HElcrWrite (port val : Z)
| HEoi (vcpu : Z)
| HAck (vcpu : Z) (k : hvm_intack)
| HLapic (vcpu : Z) (op : lapic_op).

Definition discard {A} (m : SE hdom A) : SE hdom unit := m;; ret tt.

Definition run_lapic (i : Z) (op : lapic_op) : SE hdom unit :=
  match op with
  | LRead now a l => discard (vlapic_read now i a l)
  | LWrite now a l val => discard (vlapic_write pit0 now i a l val)
  | LRdmsr now msr => discard (hvm_x2apic_msr_read now i msr)
  | LWrmsr now msr val => discard (hvm_x2apic_msr_write pit0 now i msr val)
  | LBase val => vlapic_msr_set i val
  | LDeadline now tsc conv val => vlapic_tdt_msr_set now tsc conv i val
  | LTimer now => vlapic_pt_cb now i
  | LDeadlineTimer now => vlapic_tdt_pt_cb now i
  | LInitSipi => vlapic_init_sipi_action i
  end.

Definition run_hop (op : hop) : SE hdom unit :=
  match op with
  | HPciAssert d i => hvm_pci_intx_assert pit0 d i
  | HPciDeassert d i => hvm_pci_intx_deassert d i
  | HIsaAssert i => hvm_isa_irq_assert pit0 i
  | HIsaAssertTo i v => hvm_isa_irq_assert_to_cpu pit0 i v
  | HIsaDeassert i => hvm_isa_irq_deassert i
  | HRoute l i => hvm_set_pci_link_route pit0 l i
  | HCallback via => hvm_set_callback_via pit0 via
  | HIoapicWrite a v => vioapic_write pit0 a v
  | HIoapicRead a => discard (vioapic_read a)
  | HPicIo w p v => discard (on_pics (vpic_intercept_pic_io w p 1 v))
  | HElcrWrite p v => discard (on_pics (vpic_intercept_elcr_io true p 1 v))
  | HEoi v => vlapic_EOI_set pit0 v
  | HAck v k => discard (hvm_vcpu_ack_pending_irq v k)
  | HLapic v a => run_lapic v a
  end.

(** The accesses that reach the handlers: [vlapic_range] selects the MMIO
    accesses, [hvm_msr_read_intercept] and [hvm_msr_write_intercept] the 256
    registers from 0x800 on; so the offset is in the page of the registers.  The
    tasklet of a vcpu runs once it has been scheduled. *)
Definition lapic_op_ok (op : lapic_op) (v : vcpu) : Prop :=
  match op with
  | LRead _ a _ | LWrite _ a _ _ => vlapic_range v a = true
  | LRdmsr _ msr | LWrmsr _ msr _ => MSR_IA32_APICBASE_MSR <= msr <= MSR_IA32_APICBASE_MSR + 0xff
  | LBase val | LDeadline _ _ _ val => 0 <= val < 2 ^ 64
  | LInitSipi => is_Some (init_sipi v)
  | _ => True
  end.

(** The arguments the callers pass: what the assertions of the code ask for,
    and vcpus that exist. *)
Definition hop_ok (op : hop) (h : hdom) : Prop :=
  match op with
  | HPciAssert d i | HPciDeassert d i => 0 <= d <= 31 /\ 0 <= i <= 3
  | HIsaAssert i | HIsaDeassert i => 0 <= i <= 15
  | HIsaAssertTo i v => 0 <= i <= 15 /\ 0 <= v < h_max_vcpus h
  | HRoute l i => 0 <= l <= 3 /\ 0 <= i <= 15
  | HPicIo _ port _ => port = 0x20 \/ port = 0x21 \/ port = 0xa0 \/ port = 0xa1
  | HElcrWrite port _ => port = 0x4d0 \/ port = 0x4d1
  | HEoi v | HAck v _ => 0 <= v < zlen (h_vcpus h)
  | HLapic v a => 0 <= v /\ exists x, h_vcpus h !! Z.to_nat v = Some x /\ lapic_op_ok a x
  | _ => True
  end.

(** What an operation does to the wires. *)
Definition wires_after (op : hop) (q : hvm_irq) : hvm_irq :=
  match op with
  | HPciAssert d i => set_pci_intx (Z.setbit (pci_intx q) (d * 4 + i)) q
  | HPciDeassert d i => set_pci_intx (Z.clearbit (pci_intx q) (d * 4 + i)) q
  | HIsaAssert i | HIsaAssertTo i _ => set_isa_irq (Z.setbit (isa_irq q) i) q
  | HIsaDeassert i => set_isa_irq (Z.clearbit (isa_irq q) i) q
  | HRoute l i => set_route (upd l i (route q)) q
  | HCallback via => let '(t, c) := callback_of via (callback_via q) in set_callback t c q
  | _ => q
  end.

(** The arguments of a callback that is not asserted. *)
Lemma installed_wires via q h : callback_via_asserted q = false -> installed via q h ->
  irq_inv h /\ same_wires (wires_after (HCallback via) q) (h_irq h).
Proof.
  intros Ha (H1 & H2 & H3 & H4 & H5 & H6). split; [done|]. specialize (H6 Ha).
  cbn [wires_after]. destruct (callback_of via (callback_via q)) as [t c]. simplify_eq. by split.
Qed.

Lemma run_hop_fit n op : (forall v a, op <> HLapic v a) -> preserves (regs_fit n) (run_hop op).
Proof.
  intros Hop. destruct op as [d i|d i|i|i v|i|l i|via|a v|a|w p v|p v|v|v k|v a]; cbn [run_hop]; unfold discard.
  - apply pci_up_fit.
  - apply (pci_down_fit n pit0).
  - apply isa_up_fit.
  - apply isa_up_fit.
  - apply isa_down_fit.
  - apply route_fit.
  - apply callback_via_fit.
  - apply ioapic_write_fit.
  - apply preserves_bind; [apply ioapic_read_fit|by intros; apply preserves_ret].
  - apply preserves_bind; [by apply pic_intercepts_fit|by intros; apply preserves_ret].
  - apply preserves_bind; [by apply (pic_intercepts_fit n true)|by intros; apply preserves_ret].
  - apply EOI_set_fit.
  - apply preserves_bind; [apply ack_irq_fit|by intros; apply preserves_ret].
  - by destruct (Hop v a).
Qed.

Lemma good_discard {A} h0 n (m : SE hdom A) : good h0 n m -> good h0 n (discard m).
Proof. intros Hm. apply good_bind; [done|]. intros a. apply good_ret. Qed.

Lemma lapic_wp i op n h : kept h n h -> hop_ok (HLapic i op) h -> wp (run_lapic i op) (fun _ => kept h n) h.
Proof.
  intros Hh Hop. pose proof (rf_count _ _ (proj2 Hh)) as Hn.
  destruct Hop as (Hv & x & Hx & Hop). assert (0 <= i < n) as Hi
    by (apply lookup_lt_Some in Hx; unfold zlen in Hn; lia).
  destruct op; cbn [run_lapic lapic_op_ok] in *.
  - apply good_discard; [by apply good_read|done].
  - apply good_discard; [by apply good_write|done].
  - apply good_discard; [by apply good_x2apic_read|done].
  - apply good_discard; [by apply good_x2apic_write|done].
  - by apply good_msr_set.
  - by apply good_tdt_set.
  - by apply (good_callbacks h n i now).
  - by apply (good_callbacks h n i now).
  - by eapply action_wp.
Qed.

Lemma wired_wp op h : irq_inv h -> callback_via_asserted (h_irq h) = false -> hop_ok op h ->
  (forall v a, op <> HLapic v a) ->
  wp (run_hop op) (fun _ h' => irq_inv h' /\ same_wires (wires_after op (h_irq h)) (h_irq h')) h.
Proof.
  intros Hi Ha Hop Hne. destruct op as [d i|d i|i|i v|i|l i|via|a v|a|w p v|p v|v|v k|v a];
    cbn [run_hop hop_ok wires_after] in *.
  - destruct Hop. by apply pci_assert_wp.
  - destruct Hop. by apply pci_deassert_wp.
  - apply isa_assert_wp; [done|done|by left].
  - destruct Hop. apply isa_assert_wp; [done|done|by right; right].
  - by apply isa_deassert_wp.
  - destruct Hop. by apply set_route_wp.
  - eapply wp_mono; [by apply set_callback_wp|]. intros [] h'. by apply installed_wires.
  - eapply wp_mono; [apply ioapic_write_wp; [apply Hi|apply (wires_len _ _ _ (inv_wires h Hi))]|].
    intros [] h'. by apply inv_access.
  - apply wp_bind. eapply wp_mono; [apply ioapic_read_wp, Hi|]. intros r ? ->. by apply wp_ret.
  - apply wp_bind. eapply wp_mono; [apply (run_pic_wp (OpPicIo w p v) h Hi)|intros r h' H; by apply wp_ret].
    by destruct Hop as [->|[->|[->| ->]]].
  - apply wp_bind. eapply wp_mono; [apply (run_pic_wp (OpElcrIo true p v) h Hi)|intros r h' H; by apply wp_ret].
    by destruct Hop as [->| ->].
  - by apply EOI_set_wp.
  - apply wp_bind. eapply wp_mono; [by apply ack_wp|]. intros r h' H. by apply wp_ret.
  - by destruct (Hne v a).
Qed.

(** Every operation succeeds, does to the wires what it says, and keeps the
    invariant and the ranges of the registers. *)
Lemma hop_wp op n h : irq_inv h -> callback_via_asserted (h_irq h) = false -> regs_fit n h -> hop_ok op h ->
  wp (run_hop op) (fun _ h' => (irq_inv h' /\ same_wires (wires_after op (h_irq h)) (h_irq h')) /\ regs_fit n h') h.
Proof.
  intros Hi Ha Hf Hop. assert ((exists v a, op = HLapic v a) \/ forall v a, op <> HLapic v a) as [(v & a & ->)|Hne]
    by (destruct op; eauto; by right).
  - by apply lapic_wp.
  - pose proof (wired_wp op h Hi Ha Hop Hne) as H1. pose proof (run_hop_fit n op Hne h Hf) as H2.
    unfold wp in *. by destruct (run_hop op h) as [h' [[]| |]].
Qed.

(** ** Reachable states *)

(** The hardware of a new domain: the record is zero, the controllers are
    reset. *)
Definition zero_irq : hvm_irq := {|
  pci_intx := 0; isa_irq := 0; route := [0; 0; 0; 0]; callback_via_asserted := false;
  callback_via_type := HVMIRQ_callback_none; callback_via := 0;
  pci_link_assert_count := [0; 0; 0; 0]; gsi_assert_count := replicate 48 0;
  round_robin_prev_vcpu := 0 |}.

Definition zero_pics : pics :=
  {| pic0 := zero_vpic; pic1 := zero_vpic; i8259_target := None; pic_log := [] |}.

Definition new_domain (l : list vcpu) (max : Z) : hdom :=
  fst ((on_pics vpic_init;; vioapic_reset)
    {| h_pics := zero_pics;
       h_irq := zero_irq;
       h_ioapic := {| base_address := 0; ioregsel := 0; ioapic_id := 0; redirtbl := replicate 48 0 |};
       h_vcpus := l; h_max_vcpus := max; h_log := [] |}).

Inductive hreach : hdom -> Prop :=
| hreach_new l max : zlen l <= max <= 128 -> Forall regs_ok l -> Forall (lapic_ok (zlen l)) l ->
    hreach (new_domain l max)
| hreach_step h op h' : hreach h -> hop_ok op h -> run_hop op h = (h', Ok tt) -> hreach h'.

Lemma new_domain_inv l max : zlen l <= max <= 128 -> Forall regs_ok l -> irq_inv (new_domain l max).
Proof.
  intros Hl Hregs. pose proof (zlen_nonneg l). split.
  - split; try done.
    + apply Forall_replicate. done.
    + simpl. lia.
  - split; try done. split; [done|]. simpl. repeat constructor; lia.
  - intros g e n Hg He Hn. change (gsi_assert_count (h_irq (new_domain l max))) with (replicate 48 0) in Hn.
    apply lookup_replicate_1 in Hn as [-> _]. by intros _ _ ?.
Qed.

Lemma new_domain_fit l max : Forall (lapic_ok (zlen l)) l -> regs_fit (zlen l) (new_domain l max).
Proof. by intros Hl. Qed.

Lemma hreach_all h : hreach h ->
  (irq_inv h /\ callback_via_asserted (h_irq h) = false) /\ regs_fit (zlen (h_vcpus h)) h.
Proof.
  induction 1 as [l max Hl Hregs Hlap|h op h' Hr [[IH1 IH2] IH3] Hop Hrun].
  { split; [split; [by apply new_domain_inv|done]|]. apply new_domain_fit, Hlap. }
  pose proof (hop_wp op _ h IH1 IH2 IH3 Hop) as H. unfold wp in H. rewrite Hrun in H. destruct H as [[H1 H2] H3].
  split; [|by rewrite (rf_count _ _ H3)].
  split; [done|]. rewrite (sw_asserted _ _ H2). destruct op; try done. cbn [wires_after].
  by destruct (callback_of via (callback_via (h_irq h))).
Qed.

Lemma hreach_inv h : hreach h -> irq_inv h /\ callback_via_asserted (h_irq h) = false.
Proof. apply hreach_all. Qed.
Lemma hreach_regs_fit h : hreach h -> regs_fit (zlen (h_vcpus h)) h.
Proof. apply hreach_all. Qed.

(** An operation in a reachable state. *)
Lemma hreach_hop op h : hreach h -> hop_ok op h ->
  exists h', run_hop op h = (h', Ok tt) /\ hreach h' /\ same_wires (wires_after op (h_irq h)) (h_irq h').
Proof.
  intros Hr Hop. destruct (hreach_all h Hr) as [[Hi Ha] Hf].
  destruct (wp_inv _ _ _ (hop_wp op _ h Hi Ha Hf Hop)) as (h' & [] & E & [_ S] & _).
  exists h'. split; [done|]. split; [by eapply hreach_step|done].
Qed.
End System.
