(* ===== verification/HvmIrqProps.v ===== *)
(** * Properties of the interrupt distribution *)

From stdpp Require Import base list numbers.
From Stdlib Require Import ZArith Lia Bool.
From S2P Require Import Prelude Vpic HvmState Vlapic Vioapic HvmIrq VpicInv VpicOps.
From S2P Require Import VioapicInv VioapicOps HvmIrqOps HvmIrqRun.
From S2P Require Import VlapicRegs HvmLapic HvmIrqSystem.

Open Scope Z_scope.
Open Scope se_scope.

(** ** Bounds of the counters *)

Lemma count_mono f f' l : (forall i, f i = true -> f' i = true) -> count f l <= count f' l.
Proof.
  intros H. induction l as [|i l IH]; simpl; [lia|]. specialize (H i).
  destruct (f i), (f' i); simpl; lia || (by specialize (H eq_refl)).
Qed.

Lemma few (sel : Z -> Z) n m k g : (forall j, j ∈ below m -> count (fun i => sel i =? j) (below n) <= k) ->
  0 <= g < Z.of_nat m -> forall w, count (fun i => Z.testbit w i && (sel i =? g)) (below n) <= k.
Proof.
  intros H Hg w. etrans; [|apply (H g); by apply elem_of_below]. apply count_mono.
  intros i Hi. by apply andb_prop in Hi as [_ ?].
Qed.

Lemma all_le (f : Z -> Z) k l : forallb (fun j => f j <=? k) l = true -> forall j, j ∈ l -> f j <= k.
Proof. intros H j Hj. rewrite forallb_forall in H. apply Z.leb_le, H. by apply list_elem_of_In. Qed.

(** The sources of a GSI: PCI wires, ISA lines and the asserted links that are
    routed to it. *)
Definition sources (q : hvm_irq) (g : Z) : Z :=
  pci_level (pci_intx q) g + isa_level (isa_irq q) g + routed_level (pci_intx q) (route q) g.

Lemma sources_level q g : callback_via_asserted q = false -> gsi_level q g = sources q g.
Proof. intros Ha. unfold gsi_level, sources, callback_level. rewrite Ha. cbn [andb Z.b2z]. lia. Qed.

Lemma level_few q g l : 0 <= g < 48 -> 0 <= l < 4 ->
  sources q g <= 10 /\ link_level (pci_intx q) l <= 32.
Proof.
  intros Hg Hl. pose proof (gsi_level_parts q g) as (_ & _ & P3 & P4). unfold sources.
  assert (pci_level (pci_intx q) g <= 4).
  { apply (few wire_gsi 128 48); [|done]. apply all_le. by vm_compute. }
  assert (isa_level (isa_irq q) g <= 2).
  { apply (few hvm_isa_irq_to_gsi 16 48); [|done]. apply all_le. by vm_compute. }
  split; [lia|]. apply (few wire_link 128 4); [|done]. apply all_le. by vm_compute.
Qed.

(** The counters of a record. *)
Definition counters_exact (q : hvm_irq) : Prop :=
  (forall g, 0 <= g < 48 -> gsi_assert_count q !! Z.to_nat g = Some (sources q g) /\ sources q g <= 10) /\
  (forall l, 0 <= l < 4 -> pci_link_assert_count q !! Z.to_nat l = Some (link_level (pci_intx q) l) /\
                           link_level (pci_intx q) l <= 32).

Lemma inv_counters h : irq_inv h -> callback_via_asserted (h_irq h) = false -> counters_exact (h_irq h).
Proof.
  intros [_ [_ H1 H2 _] _] Ha. split.
  - intros g Hg. rewrite H2, below_lookup, sources_level by (done || lia). split; [done|]. by apply (level_few _ g 0).
  - intros l Hl. rewrite H1, below_lookup by lia. split; [done|]. by apply (level_few _ 0 l).
Qed.

(** C35: in every state the interrupt hardware of a domain can reach, by device
    wires, guest accesses to the IO-APIC, the 8259s (any values at all of their
    ports, the edge/level registers included) and the local APICs (inter-processor
    interrupts, INIT and SIPI included), ends of interrupts and acknowledges, an
    operation succeeds and changes exactly the wire, route or callback it is
    about (a wire asserted twice is asserted once); and the counters are what
    they stand for: the counter of a link is the number of its PCI wires that
    are asserted, the counter of a GSI the number of PCI wires, ISA lines and
    asserted links routed to it.  The counters are bytes and never wrap: at
    most 10 sources share a GSI and 32 wires a link.  A guest can install a
    callback, but none is ever asserted (the code that asserts one is not
    compiled in uXen), so that it is never a source.  The operations are those
    the callers perform: devices 0 to 31 with four pins, ISA lines and routes
    up to 15, vcpus that exist ([hop_ok]). *)
Theorem wire_counters_exact pit0 h op : hreach pit0 h -> hop_ok op h ->
  exists h', run_hop pit0 op h = (h', Ok tt) /\
    same_wires (wires_after op (h_irq h)) (h_irq h') /\ counters_exact (h_irq h') /\
    callback_via_asserted (h_irq h') = false.
Proof.
  intros Hr Hop. destruct (hreach_hop pit0 op h Hr Hop) as (h' & E & Hr' & S).
  destruct (hreach_inv pit0 h' Hr') as [Hi Ha]. exists h'. split_and!; [done|done|by apply inv_counters|done].
Qed.

(** A domain with two vcpus in physical mode. *)
Definition idle_vcpu (id : Z) : vcpu := {|
  vl_regs := fun r => if r =? APIC_ID then Z.shiftl id 24 else if r =? APIC_DFR then APIC_DFR_FLAT else 0;
  vl_disabled := 0; vl_apic_base_msr := 0;
  vl_timer := {| timer_divisor := 2; tdt_msr := 0; pt_irq := 0; timer_last_update := 0 |};
  init_sipi := None; is_initialised := true; nmi_pending := false; mce_pending := false;
  evtchn_upcall_pending := false |}.
Definition two_vcpus : hdom := new_domain [idle_vcpu 0; idle_vcpu 2] 2.

Lemma two_vcpus_reach : hreach false two_vcpus.
Proof.
  apply hreach_new; [unfold zlen; simpl; lia| |by repeat constructor].
  apply Forall_cons; [|apply Forall_cons; [|apply Forall_nil]];
    intros r; unfold idle_vcpu; cbn [vl_regs]; repeat case_match; vm_compute; done.
Qed.

(** Device 3, INTA is asserted, link 3 is routed to IRQ 5. *)
Definition after (ops : list hop) (h : hdom) : hdom :=
  fold_left (fun h op => fst (run_hop false op h)) ops h.

Lemma after_reach ops h : hreach false h -> (forall h, Forall (fun op => hop_ok op h) ops) ->
  hreach false (after ops h).
Proof.
  revert h. induction ops as [|op ops IH]; intros h Hr Hok; [done|].
  apply IH; [|intros h'; by apply (Forall_inv_tail (Hok h'))].
  pose proof (Forall_inv (Hok h)) as Ho.
  destruct (hreach_hop false op h Hr Ho) as (h' & E & Hr' & _). by rewrite E.
Qed.

Definition wired5 : hdom := after [HRoute 3 5; HPciAssert 3 0] two_vcpus.
Lemma wired5_reach : hreach false wired5.
Proof.
  apply after_reach; [apply two_vcpus_reach|]. intros h. repeat constructor; simpl; lia.
Qed.

Lemma wire_counters_exact_witness : hreach false wired5 /\
  gsi_assert_count (h_irq wired5) !! 5%nat = Some 1 /\ gsi_assert_count (h_irq wired5) !! 28%nat = Some 1 /\
  exists h', run_hop false (HIsaAssert 5) wired5 = (h', Ok tt) /\
    same_wires (wires_after (HIsaAssert 5) (h_irq wired5)) (h_irq h') /\ counters_exact (h_irq h') /\
    callback_via_asserted (h_irq h') = false.
Proof.
  split; [apply wired5_reach|]. split; [by vm_compute|]. split; [by vm_compute|].
  apply (wire_counters_exact false wired5 (HIsaAssert 5)); [apply wired5_reach|simpl; lia].
Defined.

(** ** Level-triggered pins of the IO-APIC *)

Lemma waiting_same pit0 h h' g e n : h_ioapic h' = h_ioapic h ->
  gsi_assert_count (h_irq h') = gsi_assert_count (h_irq h) ->
  level_waiting pit0 h g e n -> level_waiting pit0 h' g e n.
Proof. unfold level_waiting. by intros -> ->. Qed.

Lemma EOI_set_redelivers pit0 i h v : irq_inv h -> 0 <= i ->
  h_vcpus h !! Z.to_nat i = Some v -> vlapic_find_highest_isr v <> -1 ->
  vlapic_test_vector (vlapic_find_highest_isr v) APIC_TMR v = true ->
  wp (vlapic_EOI_set pit0 i) (fun _ h' => forall g e n, level_waiting pit0 h g e n ->
    rte_vector e = vlapic_find_highest_isr v ->
    reached (rte_vector e) (rte_dest_id e) (rte_dest_mode e) h') h.
Proof.
  intros Hi Hi0 Hl Hne Ht. pose proof (Forall_lookup_1 _ _ _ _ (hw_regs _ (iv_hw _ Hi)) Hl) as Hok.
  set (vec := vlapic_find_highest_isr v) in *. unfold vlapic_EOI_set.
  assert (0 <= vec < 256) as Hvec.
  { destruct (find_highest_spec APIC_ISR v Hok) as [[H _]|[H _]]; [by destruct Hne|exact H]. }
  apply wp_bind. eapply wp_the_vcpu; [done|exact Hl|]. cbv zeta. fold vec.
  rewrite (proj2 (Z.eqb_neq vec (-1))) by done.
  apply wp_bind. unfold upd_vcpu at 1. apply wp_modify. apply wp_bind.
  eapply (wp_the_vcpu i); [done|cbn [h_vcpus set_vcpus]; rewrite list_lookup_alter_eq, Hl; reflexivity|].
  apply wp_bind. unfold upd_vcpu. apply wp_modify.
  match goal with |- wp _ _ ?s => set (h1 := s) end.
  assert (keeps_inv h h1) as [I1 _]
    by (do 2 (apply keeps_upd_vcpu; [intros; by apply regs_ok_set|]); by apply keeps_inv_refl).
  rewrite test_clear_other by (done || unfold APIC_TMR, APIC_ISR; lia). rewrite Ht. cbn [when].
  eapply wp_mono; [apply update_EOI_wp; [apply I1|apply (wires_len _ _ _ (inv_wires h1 I1))]|].
  intros [] h2 H2 g e n Hw Hv. pose proof Hw as (Hg & _).
  rewrite Hv. apply (ed_reached _ _ _ _ _ H2 g e n Hg); [|done]. by apply (waiting_same pit0 h h1).
Qed.

(** The pin of the IO-APIC that a device's wire has of its own. *)
Definition pin_of (op : hop) : option Z :=
  match op with
  | HPciAssert d i => Some (hvm_pci_intx_gsi d i)
  | HIsaAssert i => Some (hvm_isa_irq_to_gsi i)
  | _ => None
  end.

Lemma first_source_requests pit0 h op g e : irq_inv h -> hop_ok op h -> pin_of op = Some g ->
  gsi_level (h_irq h) g = 0 -> fires pit0 g VCPUID_ANY h e -> wp (run_hop pit0 op) (fun _ => requested e) h.
Proof.
  intros Hi Hop Hp H0 Hf. destruct op; simplify_eq/=.
  - destruct Hop. eapply wp_mono; [by apply pci_assert_full|]. intros [] h' [_ Hq]. by apply Hq.
  - eapply wp_mono; [apply (isa_assert_full pit0 irq VCPUID_ANY); [done|done|by left]|].
    intros [] h' [_ H]. by apply H.
Qed.

(** The window register selects entry [idx]. *)
Lemma window_redirent pit0 val h idx top : 0 <= idx < 48 ->
  ioregsel (h_ioapic h) = 0x10 + 2 * idx + Z.b2z top ->
  vioapic_write pit0 VIOAPIC_REG_WINDOW val h = vioapic_write_redirent pit0 idx top val h.
Proof.
  intros Hi Hs. unfold vioapic_write. change (Z.land VIOAPIC_REG_WINDOW 0xff) with VIOAPIC_REG_WINDOW.
  change (VIOAPIC_REG_WINDOW =? VIOAPIC_REG_SELECT) with false. rewrite Z.eqb_refl.
  unfold vioapic_write_indirect. cbv [bind gets]. rewrite Hs.
  assert (0 <= Z.b2z top < 2) as Hb by (by destruct top).
  assert (redir_index (0x10 + 2 * idx + Z.b2z top) = idx) as ->.
  { unfold redir_index, u32. rewrite Z.shiftr_div_pow2 by lia. zlia. }
  assert (Z.testbit (0x10 + 2 * idx + Z.b2z top) 0 = top) as ->.
  { replace (0x10 + 2 * idx + Z.b2z top) with (2 * (8 + idx) + Z.b2z top) by lia. apply Z.testbit_0_r. }
  unfold VIOAPIC_REG_VERSION, VIOAPIC_REG_APIC_ID, VIOAPIC_REG_ARB_ID, VIOAPIC_NUM_PINS.
  rewrite !(proj2 (Z.eqb_neq _ _)), (proj2 (Z.leb_gt _ _)) by lia. done.
Qed.

(** C36: no level-triggered interrupt is lost.  In every reachable state,
    - a device that asserts its PCI wire or ISA line while the wire's own pin of
      the IO-APIC has no source has its interrupt delivered: if the pin's entry
      is unmasked and in fixed mode, every vcpu that matches its destination
      has the vector requested afterwards (the same holds of edge-triggered
      pins);
    - so has a guest's write through the window register that leaves the entry
      of an asserted pin level-triggered, unmasked, in fixed mode and without
      Remote IRR: unmasking a pin delivers what is waiting;
    - an unmasked level-triggered pin that is asserted has its Remote IRR set,
      so that the end of interrupt will look at it again;
    - and when a vcpu ends a level-triggered interrupt (the end of interrupt of
      its highest in-service vector, whose TMR bit is set), every fixed-mode pin
      with that vector that is still asserted is delivered again.
    The delivery parts are about fixed mode, and about interrupts that ask for
    no single vcpu: [hvm_isa_irq_assert_to_cpu] delivers nothing in fixed mode.
    They leave out the PIT's pin 2 while the PIT is active, which goes to vcpu 0
    alone ([pit0]); pin 0, which stands for the 8259s, has no sources of its
    own. *)
Theorem level_interrupt_not_lost pit0 h : hreach pit0 h ->
  (forall op g e, hop_ok op h -> pin_of op = Some g -> sources (h_irq h) g = 0 ->
     fires pit0 g VCPUID_ANY h e -> exists h', run_hop pit0 op h = (h', Ok tt) /\ requested e h') /\
  (forall g e n top val, 1 <= g < 48 -> ioregsel (h_ioapic h) = 0x10 + 2 * g + Z.b2z top ->
     redirtbl (h_ioapic h) !! Z.to_nat g = Some e ->
     gsi_assert_count (h_irq h) !! Z.to_nat g = Some n -> n <> 0 ->
     let e' := written_entry e top (u32 val) in
     rte_trig_mode e' = true -> rte_mask e' = false -> rte_remote_irr e' = false ->
     rte_delivery_mode e' = dest_Fixed -> (g =? hvm_isa_irq_to_gsi 0) && pit0 = false ->
     exists h', run_hop pit0 (HIoapicWrite VIOAPIC_REG_WINDOW val) h = (h', Ok tt) /\ requested e' h') /\
  (forall g e n, 1 <= g < 48 -> redirtbl (h_ioapic h) !! Z.to_nat g = Some e ->
     gsi_assert_count (h_irq h) !! Z.to_nat g = Some n ->
     rte_trig_mode e = true -> rte_mask e = false -> n <> 0 -> rte_remote_irr e = true) /\
  (forall i v, h_vcpus h !! i = Some v -> vlapic_find_highest_isr v <> -1 ->
     vlapic_test_vector (vlapic_find_highest_isr v) APIC_TMR v = true ->
     exists h', vlapic_EOI_set pit0 (Z.of_nat i) h = (h', Ok tt) /\ irq_inv h' /\
       forall g e n, level_waiting pit0 h g e n -> rte_vector e = vlapic_find_highest_isr v ->
         requested e h').
Proof.
  intros Hr. destruct (hreach_inv pit0 h Hr) as [Hi Ha]. split_and!; [| |apply Hi|].
  - intros op g e Hop Hp H0 Hf. rewrite <- sources_level in H0 by done.
    destruct (wp_inv _ _ _ (first_source_requests pit0 h op g e Hi Hop Hp H0 Hf)) as (h' & [] & E & H). eauto.
  - intros g e n top val Hg Hs He Hn H0 e' H1 H2 H3 H4 H5. cbn [run_hop].
    rewrite (window_redirent pit0 val h g top) by (done || lia).
    destruct (wp_inv _ _ _ (write_redirent_requested pit0 g top val h e n (iv_hw _ Hi) Hg He Hn H1 H2 H3 H0 H4 H5))
      as (h' & [] & E & H). eauto.
  - intros i v Hl Hne Ht. apply lookup_lt_Some in Hl as Hlt.
    destruct (wp_inv _ _ _ (EOI_set_wp pit0 (Z.of_nat i) h Hi ltac:(unfold zlen; lia))) as (h' & [] & E & H1 & _).
    exists h'. split; [done|]. split; [done|].
    pose proof (EOI_set_redelivers pit0 (Z.of_nat i) h v Hi ltac:(lia)) as H.
    rewrite Nat2Z.id in H. specialize (H Hl Hne Ht). unfold wp in H. by rewrite E in H.
Qed.

(** Pin 28 level-triggered, fixed, vector 0x41 to APIC 2; its wire is asserted
    and the vcpu has taken the interrupt. *)
Definition in_service : hdom := after
  [HIoapicWrite 0 (0x10 + 2 * 28 + 1); HIoapicWrite 0x10 0x02000000;
   HIoapicWrite 0 (0x10 + 2 * 28); HIoapicWrite 0x10 0x8041;
   HPciAssert 3 0] two_vcpus.

Lemma in_service_reach : hreach false in_service.
Proof.
  apply after_reach; [apply two_vcpus_reach|]. intros h. repeat constructor; simpl; lia.
Qed.

Definition in_service1 : hdom := fst (run_hop false (HAck 1 (intack_lapic 0x41)) in_service).
Lemma in_service1_reach : hreach false in_service1.
Proof.
  eapply hreach_step; [apply in_service_reach| |].
  - instantiate (1 := HAck 1 (intack_lapic 0x41)). simpl. split; [lia|]. by vm_compute.
  - reflexivity.
Qed.

Definition pin28 : Z := 0x020000000000C041.

(** The same pin before its wire is asserted. *)
Definition programmed28 : hdom := after
  [HIoapicWrite 0 (0x10 + 2 * 28 + 1); HIoapicWrite 0x10 0x02000000;
   HIoapicWrite 0 (0x10 + 2 * 28); HIoapicWrite 0x10 0x8041] two_vcpus.
Lemma programmed28_reach : hreach false programmed28.
Proof. apply after_reach; [apply two_vcpus_reach|]. intros h. repeat constructor; simpl; lia. Qed.

Lemma level_interrupt_not_lost_witness :
  (hreach false programmed28 /\
   exists h', run_hop false (HPciAssert 3 0) programmed28 = (h', Ok tt) /\ requested 0x0200000000008041 h') /\
  (hreach false in_service1 /\
   exists h', vlapic_EOI_set false 1 in_service1 = (h', Ok tt) /\ irq_inv h' /\ requested pin28 h').
Proof.
  split.
  - split; [apply programmed28_reach|].
    destruct (level_interrupt_not_lost false programmed28 programmed28_reach) as [H _].
    apply (H (HPciAssert 3 0) 28); [simpl; lia|done|by vm_compute|]. repeat split; by vm_compute.
  - split; [apply in_service1_reach|].
    destruct (level_interrupt_not_lost false in_service1 in_service1_reach) as (_ & _ & _ & H).
    destruct (h_vcpus in_service1 !! 1%nat) as [v|] eqn:Hv; [|exfalso; revert Hv; by vm_compute].
    assert (vlapic_find_highest_isr v = 0x41 /\ vlapic_test_vector 0x41 APIC_TMR v = true) as [H1 H2].
    { revert Hv. vm_compute. intros [= <-]. by vm_compute. }
    rewrite <- H1 in H2 at 1. destruct (H 1%nat v Hv ltac:(by rewrite H1) H2) as (h' & E & I & R).
    exists h'. split; [exact E|]. split; [exact I|]. apply (R 28 pin28 1); [|by rewrite H1].
    repeat split; by vm_compute.
Defined.
