(* ===== verification/HvmSave.v ===== *)
(** * Saving and restoring the emulated hardware: the record stream

    xen/common/hvm/save.c with xen/include/xen/hvm/save.h, and
    xen/arch/x86/hvm/save.c.  A context is a buffer with a cursor; a record is
    a descriptor (type code, instance, length) and its bytes.  The handlers of
    the record types work on the state [D] of the domain and the context.  An
    access outside of the buffer is [Bug]. *)

From stdpp Require Import base list numbers.
From Stdlib Require Import ZArith Lia.
From S2P Require Import Prelude Machine.

Open Scope Z_scope.
Open Scope se_scope.

(** ** The buffer *)

Record hvm_domain_context : Type := {
  cur : Z;
  size : Z;
  data : list Z
}.

Definition set_cur (x : Z) (h : hvm_domain_context) : hvm_domain_context :=
  {| cur := x; size := size h; data := data h |}.
Definition set_data (l : list Z) (h : hvm_domain_context) : hvm_domain_context :=
  {| cur := cur h; size := size h; data := l |}.

(** The bytes of the buffer at [off]. *)
Definition get_bytes (off n : Z) : SE hvm_domain_context (list Z) :=
  l <- gets data;;
  bug_if (negb ((0 <=? off) && (off + n <=? zlen l)));;
  ret (slice off n l).

(** [memcpy(&h->data[off], bs, ...)] *)
Definition put_bytes (off : Z) (bs : list Z) : SE hvm_domain_context unit :=
  l <- gets data;;
  bug_if (negb ((0 <=? off) && (off + zlen bs <=? zlen l)));;
  modify (set_data (take (Z.to_nat off) l ++ bs ++ drop (Z.to_nat (off + zlen bs)) l)).

Record hvm_save_descriptor : Type := {
  typecode : Z;
  instance : Z;
  dlength : Z
}.
Definition sizeof_descriptor : Z := 8.

Definition bytes_of_descriptor (d : hvm_save_descriptor) : list Z :=
  le_bytes 2 (typecode d) ++ le_bytes 2 (instance d) ++ le_bytes 4 (dlength d).
Definition descriptor_of_bytes (l : list Z) : hvm_save_descriptor :=
  {| typecode := field 0 2 l; instance := field 2 2 l; dlength := field 4 4 l |}.

Definition descriptor_at (off : Z) : SE hvm_domain_context hvm_save_descriptor :=
  bs <- get_bytes off sizeof_descriptor;; ret (descriptor_of_bytes bs).

(** [h->size - h->cur], of type [uint32_t] *)
Definition room (h : hvm_domain_context) : Z := u32 (size h - cur h).

(** ** Records *)

Definition hvm_init_entry (tc inst len : Z) : SE hvm_domain_context unit :=
  h <- get;;
  fail_if (room h <? u64 (len + sizeof_descriptor)) (-1);;
  put_bytes (cur h) (bytes_of_descriptor {| typecode := u16 tc; instance := u16 inst;
                                            dlength := u32 len |});;
  modify (fun h => set_cur (u32 (cur h + sizeof_descriptor)) h).

Definition hvm_write_entry (src : list Z) : SE hvm_domain_context unit :=
  h <- get;;
  put_bytes (cur h) src;;
  modify (fun h => set_cur (u32 (cur h + zlen src)) h).

(** [hvm_save_entry]; the bytes [src] of the structure are as long as its type. *)
Definition hvm_save_entry (tc inst : Z) (src : list Z) : SE hvm_domain_context unit :=
  hvm_init_entry tc inst (zlen src);; hvm_write_entry src.

Definition hvm_check_entry (type len : Z) (strict_length : bool)
  : SE hvm_domain_context unit :=
  h <- get;;
  fail_if (room h <? u64 (len + sizeof_descriptor)) (-1);;
  d <- descriptor_at (cur h);;
  fail_if (negb (type =? typecode d) || (len <? dlength d) ||
           (strict_length && negb (len =? dlength d))) (-1);;
  modify (fun h => set_cur (u32 (cur h + sizeof_descriptor)) h).

(** [_hvm_read_entry]: the [dest_len] bytes it stores. *)
Definition hvm_read_entry (dest_len : Z) : SE hvm_domain_context (list Z) :=
  h <- get;;
  d <- descriptor_at (cur h - sizeof_descriptor);;
  bug_if (dest_len <? dlength d);;
  bs <- get_bytes (cur h) (dlength d);;
  modify (fun h => set_cur (u32 (cur h + dlength d)) h);;
  ret (bs ++ replicate (Z.to_nat (dest_len - dlength d)) 0).

(** [_hvm_load_entry] of a type without a compatibility format. *)
Definition hvm_load_entry_ (tc len : Z) (strict : bool) : SE hvm_domain_context (list Z) :=
  hvm_check_entry tc len strict;; hvm_read_entry len.
Definition hvm_load_entry (tc len : Z) : SE hvm_domain_context (list Z) :=
  hvm_load_entry_ tc len true.
Definition hvm_load_entry_zeroextend (tc len : Z) : SE hvm_domain_context (list Z) :=
  hvm_load_entry_ tc len false.

Definition hvm_load_instance : SE hvm_domain_context Z :=
  h <- get;; d <- descriptor_at (cur h);; ret (instance d).

(** ** The whole stream *)

Definition HVM_SAVE_CODE_MAX : Z := 18.
Definition HVM_FILE_MAGIC : Z := 0x54381286.
Definition HVM_FILE_VERSION : Z := 1.
Definition HEADER : Z := 1.
Definition END_CODE : Z := 0.
Definition sizeof_header : Z := 24.

Record hvm_save_header : Type := {
  hdr_magic : Z;
  hdr_version : Z;
  hdr_changeset : Z;
  hdr_cpuid : Z;
  hdr_gtsc_khz : Z
}.
Definition bytes_of_header (h : hvm_save_header) : list Z :=
  le_bytes 4 (hdr_magic h) ++ le_bytes 4 (hdr_version h) ++ le_bytes 8 (hdr_changeset h) ++
  le_bytes 4 (hdr_cpuid h) ++ le_bytes 4 (hdr_gtsc_khz h).
Definition header_of_bytes (l : list Z) : hvm_save_header :=
  {| hdr_magic := field 0 4 l; hdr_version := field 4 4 l; hdr_changeset := field 8 8 l;
     hdr_cpuid := field 16 4 l; hdr_gtsc_khz := field 20 4 l |}.

(** What save.c uses of a domain: [is_dying], [arch.tsc_khz], the number of its
    vcpus; [load_prepare] is what [hvm_load] does to its vcpus and
    [set_rdtsc_exiting] the call for a domain with [arch.vtsc]. *)
Class HvmDomain (D : Type) : Type := {
  dom_is_dying : D -> bool;
  dom_tsc_khz : D -> Z;
  dom_set_tsc_khz : Z -> D -> D;
  dom_vcpus : D -> nat;
  dom_vcpus_down : D -> D;
  dom_rdtsc_exiting : D -> D
}.

Section Stream.
Context {D : Type} `{HD : HvmDomain D}.

(** The domain and the context. *)
Abbreviation hst := (D * hvm_domain_context)%type.

Definition on_ctxt {A} (m : SE hvm_domain_context A) : SE hst A :=
  zoom snd (fun c s => (fst s, c)) m.
Definition on_dom (f : D -> D) : SE hst unit := modify (fun s => (f (fst s), snd s)).

(** An element of [hvm_sr_handlers]; [per_vcpu] is [kind == HVMSR_PER_VCPU]. *)
Record sr_handler : Type := {
  sr_save : option (SE hst unit);
  sr_load : option (SE hst unit);
  sr_size : Z;
  sr_per_vcpu : bool
}.
Definition no_handler : sr_handler :=
  {| sr_save := None; sr_load := None; sr_size := 0; sr_per_vcpu := false |}.

Definition handler_at (handlers : list sr_handler) (tc : Z) : sr_handler :=
  default no_handler (handlers !! Z.to_nat tc).

(** [hvm_register_savevm]; [None] is a failed assertion. *)
Definition hvm_register_savevm (tc : Z) (h : sr_handler) (handlers : list sr_handler)
  : option (list sr_handler) :=
  if (tc <=? HVM_SAVE_CODE_MAX) &&
     negb (bool_decide (is_Some (sr_save (handler_at handlers tc)))) &&
     negb (bool_decide (is_Some (sr_load (handler_at handlers tc))))
  then Some (<[Z.to_nat tc := h]> handlers) else None.

Definition type_size (d : D) (h : sr_handler) : Z :=
  if sr_per_vcpu h then Z.of_nat (dom_vcpus d) * sr_size h else sr_size h.

(** [hvm_save_size] *)
Definition hvm_save_size (handlers : list sr_handler) (d : D) : Z :=
  2 * sizeof_descriptor + sizeof_header +
  foldr (fun h sz => type_size d h + sz) 0 handlers.

(** [arch_hvm_save]; [cpuid_eax] is the [eax] of [cpuid(1)]. *)
Definition arch_hvm_save (changeset cpuid_eax : Z) (d : D) : hvm_save_header :=
  {| hdr_magic := HVM_FILE_MAGIC; hdr_version := HVM_FILE_VERSION;
     hdr_changeset := changeset; hdr_cpuid := cpuid_eax; hdr_gtsc_khz := dom_tsc_khz d |}.

(** The loop of [hvm_save] over the types. *)
Fixpoint save_types (handlers : list sr_handler) : SE hst unit :=
  match handlers with
  | [] => ret tt
  | h :: l =>
      match sr_save h with
      | Some save => r <- code save;; fail_if (negb (r =? 0)) (- EFAULT)
      | None => ret tt
      end;;
      save_types l
  end.

Definition hvm_save (handlers : list sr_handler) (changeset cpuid_eax : Z) : SE hst unit :=
  d <- gets fst;;
  fail_if (dom_is_dying d) (- EINVAL);;
  r <- code (on_ctxt (hvm_save_entry HEADER 0
                        (bytes_of_header (arch_hvm_save changeset cpuid_eax d))));;
  fail_if (negb (r =? 0)) (- EFAULT);;
  save_types handlers;;
  r <- code (on_ctxt (hvm_save_entry END_CODE 0 []));;
  fail_if (negb (r =? 0)) (- EFAULT);;
  h <- gets snd;;
  bug_if (size h <? cur h).

(** [arch_hvm_load]; [vtsc] is [d->arch.vtsc]. *)
Definition arch_hvm_load (vtsc : bool) (hdr : hvm_save_header) : SE hst unit :=
  fail_if (negb (hdr_magic hdr =? HVM_FILE_MAGIC)) (-1);;
  fail_if (negb (hdr_version hdr =? HVM_FILE_VERSION)) (-1);;
  when (negb (hdr_gtsc_khz hdr =? 0)) (on_dom (dom_set_tsc_khz (hdr_gtsc_khz hdr)));;
  when vtsc (on_dom dom_rdtsc_exiting).

(** The loop of [hvm_load]; [fuel] bounds the number of records. *)
Fixpoint load_types (handlers : list sr_handler) (fuel : nat) : SE hst unit :=
  match fuel with
  | O => bug
  | S fuel =>
      h <- gets snd;;
      fail_if (room h <? sizeof_descriptor) (- EINVAL);;
      desc <- on_ctxt (descriptor_at (cur h));;
      if typecode desc =? 0 then ret tt
      else
        fail_if (HVM_SAVE_CODE_MAX <? typecode desc) (- EINVAL);;
        match sr_load (handler_at handlers (typecode desc)) with
        | None => fail (- EINVAL)
        | Some load => load;; load_types handlers fuel
        end
  end.

Definition load_fuel (h : hvm_domain_context) : nat := S (Z.to_nat (size h / 8)).

Definition hvm_load (handlers : list sr_handler) (vtsc : bool) : SE hst unit :=
  d <- gets fst;;
  fail_if (dom_is_dying d) (- EINVAL);;
  bs <- catch (on_ctxt (hvm_load_entry HEADER sizeof_header)) (fun _ => fail (- EINVAL));;
  r <- code (arch_hvm_load vtsc (header_of_bytes bs));;
  fail_if (negb (r =? 0)) (- EINVAL);;
  on_dom dom_vcpus_down;;
  h <- gets snd;;
  load_types handlers (load_fuel h).
End Stream.
