(* ===== verification/HvmStream.v ===== *)
(** * The record stream: records, handlers and the round trip *)

From stdpp Require Import base list numbers.
From Stdlib Require Import ZArith Lia Bool.
From S2P Require Import Prelude Machine HvmSave.

Open Scope Z_scope.
Open Scope se_scope.

(** ** Contexts *)

(** The bytes before and after the cursor. *)
Definition ctx (pre post : list Z) : hvm_domain_context :=
  {| cur := zlen pre; size := zlen (pre ++ post); data := pre ++ post |}.

Definition small (pre post : list Z) : Prop := zlen (pre ++ post) < 2 ^ 32.

Lemma slice_app (pre mid post : list Z) : slice (zlen pre) (zlen mid) (pre ++ mid ++ post) = mid.
Proof.
  unfold slice, zlen. rewrite !Nat2Z.id. by rewrite drop_app_length, take_app_length.
Qed.

Lemma room_ctx pre post : small pre post -> room (ctx pre post) = zlen post.
Proof.
  unfold small, room, ctx. simpl. rewrite zlen_app. intros H.
  pose proof (zlen_nonneg pre). pose proof (zlen_nonneg post). unfold u32. rewrite Z.mod_small; lia.
Qed.

Lemma get_bytes_ctx (c : hvm_domain_context) pre mid post : data c = pre ++ mid ++ post ->
  get_bytes (zlen pre) (zlen mid) c = (c, Ok mid).
Proof.
  intros Hd. unfold get_bytes, bind, gets. rewrite Hd. pose proof (zlen_nonneg pre).
  pose proof (zlen_nonneg post).
  rewrite (proj2 (Z.leb_le 0 _)), (proj2 (Z.leb_le (zlen pre + zlen mid) _)) by (rewrite ?zlen_app; lia).
  cbn [andb negb bug_if]. unfold ret. by rewrite slice_app.
Qed.

Lemma put_bytes_ctx (c : hvm_domain_context) pre old post bs : data c = pre ++ old ++ post ->
  zlen bs = zlen old -> put_bytes (zlen pre) bs c = (set_data (pre ++ bs ++ post) c, Ok tt).
Proof.
  intros Hd Hl. unfold put_bytes, bind, gets. rewrite Hd. pose proof (zlen_nonneg pre).
  pose proof (zlen_nonneg post).
  rewrite (proj2 (Z.leb_le 0 _)), (proj2 (Z.leb_le (zlen pre + zlen bs) _)) by (rewrite ?zlen_app; lia).
  cbn [andb negb bug_if]. unfold ret, modify. do 3 f_equal; [unfold zlen; rewrite Nat2Z.id; apply take_app_length|].
  f_equal. unfold zlen in *. rewrite Hl. rewrite app_assoc.
  replace (Z.to_nat (Z.of_nat (length pre) + Z.of_nat (length old))) with (length (pre ++ old))
    by (rewrite length_app; lia). apply drop_app_length.
Qed.

(** ** Records *)

Definition descriptor_bytes (tc inst len : Z) : list Z :=
  bytes_of_descriptor {| typecode := tc; instance := inst; dlength := len |}.

(** The bytes of a record. *)
Definition record_bytes (tc : Z) (r : Z * list Z) : list Z :=
  descriptor_bytes tc (fst r) (zlen (snd r)) ++ snd r.

Definition code_ok (tc inst : Z) : Prop := 0 <= tc < 2 ^ 16 /\ 0 <= inst < 2 ^ 16.

Lemma zlen_descriptor tc inst len : zlen (descriptor_bytes tc inst len) = 8.
Proof. done. Qed.

Lemma zlen_record tc r : zlen (record_bytes tc r) = 8 + zlen (snd r).
Proof. unfold record_bytes. by rewrite zlen_app, zlen_descriptor. Qed.

Lemma field_le n pre z post : 0 <= z < 256 ^ Z.of_nat n ->
  field (zlen pre) (Z.of_nat n) (pre ++ le_bytes n z ++ post) = z.
Proof.
  intros Hz. unfold field. rewrite <- (zlen_le_bytes n z) at 1. rewrite slice_app, le_val_bytes.
  by apply Z.mod_small.
Qed.

Lemma descriptor_roundtrip tc inst len : code_ok tc inst -> 0 <= len < 2 ^ 32 ->
  descriptor_of_bytes (descriptor_bytes tc inst len) =
    {| typecode := tc; instance := inst; dlength := len |}.
Proof.
  intros [Ht Hi] Hl. unfold descriptor_of_bytes, descriptor_bytes, bytes_of_descriptor.
  cbn [typecode instance dlength]. f_equal.
  - apply (field_le 2 []). done.
  - apply (field_le 2 (le_bytes 2 tc)). done.
  - pose proof (field_le 4 (le_bytes 2 tc ++ le_bytes 2 inst) len [] Hl) as H.
    by rewrite app_nil_r, <- app_assoc in H.
Qed.

Lemma descriptor_at_ctx (c : hvm_domain_context) pre tc inst len post :
  data c = pre ++ descriptor_bytes tc inst len ++ post -> code_ok tc inst -> 0 <= len < 2 ^ 32 ->
  descriptor_at (zlen pre) c = (c, Ok {| typecode := tc; instance := inst; dlength := len |}).
Proof.
  intros Hd Hc Hl. unfold descriptor_at, bind.
  change sizeof_descriptor with (zlen (descriptor_bytes tc inst len)).
  rewrite (get_bytes_ctx c pre (descriptor_bytes tc inst len) post Hd). unfold ret. by rewrite descriptor_roundtrip.
Qed.

Section Records.
Context (tc inst : Z) (bs pre post : list Z).
Context (Hc : code_ok tc inst) (Hs : small pre post).

Let rec := record_bytes tc (inst, bs).

(** Writing a record. *)
Lemma save_entry_ctx : 8 + zlen bs <= zlen post ->
  hvm_save_entry tc inst bs (ctx pre post) =
    (ctx (pre ++ rec) (drop (Z.to_nat (8 + zlen bs)) post), Ok tt).
Proof.
  intros Hr. pose proof (zlen_nonneg bs). pose proof (zlen_nonneg pre).
  pose proof Hs as Hs'. unfold small in Hs'. rewrite zlen_app in Hs'.
  set (n := Z.to_nat (8 + zlen bs)). set (old1 := take 8 post). set (old2 := take (n - 8) (drop 8 post)).
  set (rest := drop n post).
  assert (post = old1 ++ old2 ++ rest) as Hpost.
  { unfold old1, old2, rest. rewrite <- (take_drop 8 post) at 1. f_equal.
    rewrite <- (take_drop (n - 8) (drop 8 post)) at 1. f_equal. rewrite drop_drop. f_equal. lia. }
  assert (zlen old1 = 8 /\ zlen old2 = zlen bs) as [L1 L2].
  { unfold old1, old2, n, zlen in *. rewrite !length_take, length_drop. lia. }
  unfold hvm_save_entry, hvm_init_entry. unfold bind at 1 2. unfold get at 1.
  rewrite room_ctx by done. assert (u64 (zlen bs + sizeof_descriptor) = 8 + zlen bs) as ->
    by (unfold u64, sizeof_descriptor; rewrite Z.mod_small; lia).
  rewrite (proj2 (Z.ltb_ge _ _)) by done. cbn [fail_if]. unfold bind at 1. unfold ret at 1.
  assert (u16 tc = tc /\ u16 inst = inst /\ u32 (zlen bs) = zlen bs) as (-> & -> & ->)
    by (destruct Hc; unfold u16, u32; rewrite !Z.mod_small by lia; done).
  change (bytes_of_descriptor _) with (descriptor_bytes tc inst (zlen bs)).
  unfold bind at 1. change (cur (ctx pre post)) with (zlen pre).
  rewrite (put_bytes_ctx (ctx pre post) pre old1 (old2 ++ rest)) by (cbn; by rewrite ?L1, ?Hpost).
  unfold modify, hvm_write_entry. unfold bind at 1. unfold get.
  set (c1 := set_cur _ _). assert (cur c1 = zlen (pre ++ descriptor_bytes tc inst (zlen bs))) as Hcur.
  { unfold c1. cbn [cur set_cur set_data ctx]. rewrite zlen_app, zlen_descriptor.
    unfold u32, sizeof_descriptor. rewrite Z.mod_small; lia. }
  unfold bind. rewrite Hcur. rewrite (put_bytes_ctx c1 _ old2 rest bs) by
    (done || unfold c1; cbn [data set_cur set_data]; by rewrite <- app_assoc).
  unfold modify. unfold ctx. f_equal. unfold set_cur, set_data. cbn [cur size data]. f_equal.
  - rewrite Hcur. unfold rec, record_bytes. cbn [fst snd]. rewrite !zlen_app, zlen_descriptor.
    unfold u32. rewrite Z.mod_small; lia.
  - unfold c1. cbn [size set_cur set_data ctx]. unfold rec. rewrite Hpost at 1.
    rewrite !zlen_app, zlen_record. cbn [snd]. lia.
  - unfold rec, record_bytes. cbn [fst snd]. by rewrite <- !app_assoc.
Qed.

Lemma save_entry_full : zlen post < 8 + zlen bs < 2 ^ 64 ->
  hvm_save_entry tc inst bs (ctx pre post) = (ctx pre post, Err (-1)).
Proof.
  intros Hr. pose proof (zlen_nonneg bs). unfold hvm_save_entry, hvm_init_entry, bind, get. rewrite room_ctx by done.
  assert (u64 (zlen bs + sizeof_descriptor) = 8 + zlen bs) as ->
    by (unfold u64, sizeof_descriptor; rewrite Z.mod_small; lia).
  by rewrite (proj2 (Z.ltb_lt _ _)) by lia.
Qed.
End Records.

(** Finding the descriptor of a record of exactly this length, or of at most it *)
Lemma check_entry_ctx strict tc inst bs pre post : code_ok tc inst -> small pre (record_bytes tc (inst, bs) ++ post) ->
  hvm_check_entry tc (zlen bs) strict (ctx pre (record_bytes tc (inst, bs) ++ post)) =
    (ctx (pre ++ descriptor_bytes tc inst (zlen bs)) (bs ++ post), Ok tt).
Proof.
  intros Hc Hs. set (rec := record_bytes tc (inst, bs)) in *. set (c := ctx pre (rec ++ post)).
  pose proof (zlen_nonneg bs). pose proof (zlen_nonneg pre). pose proof (zlen_nonneg post).
  assert (zlen rec = 8 + zlen bs) as Hrec by apply zlen_record.
  pose proof Hs as Hs'. unfold small in Hs'. rewrite !zlen_app in Hs'.
  set (desc := descriptor_bytes tc inst (zlen bs)).
  assert (rec ++ post = desc ++ bs ++ post) as Hd by (unfold rec, record_bytes; cbn [fst snd]; by rewrite <- app_assoc).
  unfold hvm_check_entry. unfold bind at 1. unfold get at 1. unfold c at 1.
  rewrite room_ctx by done. assert (u64 (zlen bs + sizeof_descriptor) = 8 + zlen bs) as ->
    by (unfold u64, sizeof_descriptor; rewrite Z.mod_small; lia).
  rewrite (proj2 (Z.ltb_ge _ _)) by (rewrite zlen_app; lia). cbn [fail_if]. unfold bind at 1. unfold ret at 1.
  unfold bind at 1. change (cur c) with (zlen pre). rewrite (descriptor_at_ctx c pre tc inst (zlen bs) (bs ++ post)); [|by unfold c; rewrite Hd|done|lia].
  cbn [typecode dlength]. rewrite !Z.eqb_refl, Z.ltb_irrefl. cbn [negb orb]. rewrite andb_false_r. cbn [fail_if]. unfold bind at 1. unfold ret at 1.
  unfold modify, set_cur, ctx. f_equal. f_equal; cbn [cur size data ctx].
  - unfold desc. rewrite zlen_app, zlen_descriptor. change (cur c) with (zlen pre). unfold u32, sizeof_descriptor. rewrite Z.mod_small; lia.
  - unfold c; cbn [size data ctx]; by rewrite Hd, <- app_assoc.
  - unfold c; cbn [size data ctx]; by rewrite Hd, <- app_assoc.
Qed.

(** Reading a record back *)
Lemma load_entry_ctx strict tc inst bs pre post : code_ok tc inst -> small pre (record_bytes tc (inst, bs) ++ post) ->
  hvm_load_entry_ tc (zlen bs) strict (ctx pre (record_bytes tc (inst, bs) ++ post)) =
    (ctx (pre ++ record_bytes tc (inst, bs)) post, Ok bs).
Proof.
  intros Hc Hs. unfold hvm_load_entry_. unfold bind at 1. rewrite check_entry_ctx by done.
  pose proof Hs as Hs'. unfold small in Hs'. rewrite !zlen_app, zlen_record in Hs'. cbn [snd] in Hs'.
  pose proof (zlen_nonneg bs). pose proof (zlen_nonneg pre). pose proof (zlen_nonneg post).
  set (desc := descriptor_bytes tc inst (zlen bs)). assert (zlen desc = 8) as Ld by apply zlen_descriptor. set (c1 := ctx (pre ++ desc) (bs ++ post)).
  unfold hvm_read_entry. unfold bind at 1. unfold get. change (cur c1) with (zlen (pre ++ desc)). unfold bind at 1.
  replace (zlen (pre ++ desc) - sizeof_descriptor) with (zlen pre) by (rewrite zlen_app; unfold sizeof_descriptor; lia).
  rewrite (descriptor_at_ctx c1 pre tc inst (zlen bs) (bs ++ post)); [|unfold c1; cbn [data ctx]; by rewrite <- app_assoc|done|lia].
  cbn [dlength]. rewrite Z.ltb_irrefl. cbn [bug_if]. unfold bind at 1. unfold ret at 1.
  unfold bind at 1. rewrite (get_bytes_ctx c1 (pre ++ desc) bs post eq_refl). unfold bind, modify, ret.
  rewrite Z.sub_diag. cbn [Z.to_nat replicate]. rewrite app_nil_r. f_equal. unfold c1, ctx, set_cur, record_bytes. cbn [fst snd cur size data]. fold desc. f_equal.
  - rewrite !zlen_app, Ld. unfold u32. rewrite Z.mod_small; lia.
  - by rewrite <- !app_assoc.
  - by rewrite <- !app_assoc.
Qed.

(** * The record stream: what the handlers promise, and the round trip

    [StreamLaws] is the contract between the stream and the handlers of the
    record types; a stream that was written under it is read back record by
    record. *)

(** A record of a stream: its type code, its instance and its bytes. *)
Abbreviation entry := (Z * (Z * list Z))%type.

Definition entry_bytes (e : entry) : list Z := record_bytes (fst e) (snd e).
Definition stream_bytes (l : list entry) : list Z := flat_map entry_bytes l.

Lemma stream_bytes_app l1 l2 : stream_bytes (l1 ++ l2) = stream_bytes l1 ++ stream_bytes l2.
Proof. apply flat_map_app. Qed.

Lemma zlen_entry e : 8 <= zlen (entry_bytes e).
Proof. unfold entry_bytes. rewrite zlen_record. pose proof (zlen_nonneg (snd (snd e))). lia. Qed.

Lemma zlen_stream l : 8 * zlen l <= zlen (stream_bytes l).
Proof.
  induction l as [|e l IH]; [done|]. cbn [stream_bytes flat_map]. fold (stream_bytes l).
  rewrite zlen_app. pose proof (zlen_entry e). unfold zlen in *. simpl length. lia.
Qed.

(** A part of the buffer that was written. *)
Definition after_bytes (bs post : list Z) : list Z := drop (length bs) post.

Lemma small_after pre bs post : small pre post -> zlen bs <= zlen post ->
  small (pre ++ bs) (after_bytes bs post).
Proof.
  unfold small, after_bytes, zlen. rewrite !length_app, length_drop. lia.
Qed.
Lemma zlen_after bs post : zlen bs <= zlen post -> zlen (after_bytes bs post) = zlen post - zlen bs.
Proof. unfold after_bytes, zlen. rewrite length_drop. lia. Qed.
Lemma after_after b1 b2 post : after_bytes b2 (after_bytes b1 post) = after_bytes (b1 ++ b2) post.
Proof. unfold after_bytes. by rewrite drop_drop, length_app. Qed.

Section Laws.
Context {D : Type} `{HD : HvmDomain D}.
Implicit Types (d : D).

(** What the handler [h] of type [tc] does for domains with [I]: it appends
    the records [recs d], which are not longer than it said, and leaves the
    domain; a record [r] that is [loadable] changes the domain by [load1]. *)
Record handler_law (I : D -> Prop) (recs : Z -> D -> list (Z * list Z))
    (loadable : Z -> Z * list Z -> D -> Prop) (load1 : Z -> Z * list Z -> D -> D)
    (tc : Z) (h : sr_handler) : Prop := {
  hl_save : forall d pre post save, sr_save h = Some save -> I d -> small pre post ->
    let bs := stream_bytes (pair tc <$> recs tc d) in
    zlen bs <= zlen post ->
    save (d, ctx pre post) = ((d, ctx (pre ++ bs) (after_bytes bs post)), Ok tt);
  hl_none : forall d, sr_save h = None -> recs tc d = [];
  hl_size : forall d, I d -> zlen (stream_bytes (pair tc <$> recs tc d)) <= type_size d h;
  hl_codes : forall d r, I d -> r ∈ recs tc d -> 1 <= tc <= HVM_SAVE_CODE_MAX /\ code_ok tc (fst r) /\
    is_Some (sr_load h);
  hl_load : forall d pre r post load, sr_load h = Some load -> loadable tc r d -> code_ok tc (fst r) ->
    small pre (record_bytes tc r ++ post) ->
    load (d, ctx pre (record_bytes tc r ++ post)) =
      ((load1 tc r d, ctx (pre ++ record_bytes tc r) post), Ok tt)
}.

(** The contract of a table of handlers. *)
Class StreamLaws (handlers : list sr_handler) : Type := {
  sl_inv : D -> Prop;
  sl_recs : Z -> D -> list (Z * list Z);
  sl_loadable : Z -> Z * list Z -> D -> Prop;
  sl_load : Z -> Z * list Z -> D -> D;
  sl_law : forall i h, handlers !! i = Some h ->
    handler_law sl_inv sl_recs sl_loadable sl_load (Z.of_nat i) h
}.

Section Table.
Context (handlers : list (sr_handler (D := D))) `{HL : !StreamLaws handlers}.

(** The records of the types from [i] on. *)
Fixpoint entries_from (n : nat) (i : nat) (d : D) : list entry :=
  match n with
  | O => []
  | S n => (pair (Z.of_nat i) <$> sl_recs (Z.of_nat i) d) ++ entries_from n (S i) d
  end.
Definition entries (d : D) : list entry := entries_from (length handlers) 0 d.

Definition load_entry (d : D) (e : entry) : D := sl_load (fst e) (snd e) d.
Definition load_entries (l : list entry) (d : D) : D := fold_left load_entry l d.

Fixpoint loadables (l : list entry) (d : D) : Prop :=
  match l with
  | [] => True
  | e :: l => sl_loadable (fst e) (snd e) d /\ loadables l (load_entry d e)
  end.

(** ** Writing *)

Lemma suffix_lookup (l1 : list (sr_handler (D := D))) h l2 : handlers = l1 ++ h :: l2 ->
  handlers !! length l1 = Some h.
Proof. intros ->. by apply list_lookup_middle. Qed.

Lemma save_types_ctx d l2 : sl_inv d -> forall l1 pre post, handlers = l1 ++ l2 -> small pre post ->
  let bs := stream_bytes (entries_from (length l2) (length l1) d) in
  zlen bs <= zlen post ->
  save_types l2 (d, ctx pre post) = ((d, ctx (pre ++ bs) (after_bytes bs post)), Ok tt).
Proof.
  intros Hd. induction l2 as [|h l2 IH]; intros l1 pre post Hl Hs; cbn [length entries_from save_types].
  { intros _. simpl. by rewrite app_nil_r. }
  pose proof (sl_law _ _ (suffix_lookup _ _ _ Hl)) as [L1 L2 _ _ _].
  rewrite stream_bytes_app. set (b1 := stream_bytes (pair _ <$> _)) in *. cbv zeta. rewrite zlen_app. intros Hr.
  set (b2 := stream_bytes (entries_from _ _ _)) in *. pose proof (zlen_nonneg b2).
  assert (forall s, s = (d, ctx (pre ++ b1) (after_bytes b1 post)) -> save_types l2 s =
    ((d, ctx (pre ++ b1 ++ b2) (after_bytes (b1 ++ b2) post)), Ok tt)) as Hrest.
  { intros ? ->. rewrite (IH (l1 ++ [h])); [|by rewrite <- app_assoc|apply small_after; [done|lia]|].
    - rewrite length_app. simpl. rewrite Nat.add_comm. simpl. fold b2. by rewrite <- app_assoc, after_after.
    - rewrite length_app. simpl. rewrite Nat.add_comm. simpl. fold b2. rewrite zlen_after; lia. }
  destruct (sr_save h) as [save|] eqn:Hsave.
  - unfold bind at 1 2. unfold code. fold b1 in L1. rewrite (L1 d pre post save) by (done || fold b1; lia).
    fold b1. cbn. by apply Hrest.
  - unfold bind at 1. unfold ret. apply Hrest. unfold b1. rewrite L2 by done. simpl. by rewrite app_nil_r.
Qed.

Lemma size_entries d l2 : sl_inv d -> forall l1, handlers = l1 ++ l2 ->
  zlen (stream_bytes (entries_from (length l2) (length l1) d)) <=
    foldr (fun h sz => type_size d h + sz) 0 l2.
Proof.
  intros Hd. induction l2 as [|h l2 IH]; intros l1 Hl; cbn [length entries_from foldr]; [done|].
  rewrite stream_bytes_app, zlen_app. pose proof (sl_law _ _ (suffix_lookup _ _ _ Hl)) as [_ _ L3 _ _].
  specialize (IH (l1 ++ [h])). rewrite length_app, Nat.add_comm in IH. simpl in IH.
  rewrite <- app_assoc in IH. specialize (IH Hl). specialize (L3 d Hd). lia.
Qed.

(** ** Reading *)

Definition entry_ok (e : entry) : Prop :=
  1 <= fst e <= HVM_SAVE_CODE_MAX /\ code_ok (fst e) (fst (snd e)) /\
  exists h, handlers !! Z.to_nat (fst e) = Some h /\ is_Some (sr_load h).

Lemma entries_ok d l2 : sl_inv d -> forall l1, handlers = l1 ++ l2 ->
  Forall entry_ok (entries_from (length l2) (length l1) d).
Proof.
  intros Hd. induction l2 as [|h l2 IH]; intros l1 Hl; cbn [length entries_from]; [constructor|].
  pose proof (suffix_lookup _ _ _ Hl) as Hh. pose proof (sl_law _ _ Hh) as [_ _ _ L4 _].
  apply Forall_app. split.
  - apply Forall_forall. intros e He. apply list_elem_of_In, list_elem_of_fmap in He as (r & -> & Hr).
    destruct (L4 d r Hd Hr) as (H1 & H2 & H3). split; [exact H1|]. split; [exact H2|].
    exists h. cbn [fst]. by rewrite Nat2Z.id.
  - specialize (IH (l1 ++ [h])). rewrite length_app, Nat.add_comm in IH. simpl in IH. apply IH.
    by rewrite <- app_assoc.
Qed.

Lemma record_len_bound pre tc r post : small pre (record_bytes tc r ++ post) -> 0 <= zlen (snd r) < 2 ^ 32.
Proof.
  unfold small. rewrite !zlen_app, zlen_record. pose proof (zlen_nonneg pre). pose proof (zlen_nonneg post).
  pose proof (zlen_nonneg (snd r)). lia.
Qed.

(** The descriptor of the record at the cursor. *)
Lemma next_descriptor d pre tc r post : code_ok tc (fst r) -> small pre (record_bytes tc r ++ post) ->
  on_ctxt (descriptor_at (zlen pre)) (d, ctx pre (record_bytes tc r ++ post)) =
    ((d, ctx pre (record_bytes tc r ++ post)),
     Ok {| typecode := tc; instance := fst r; dlength := zlen (snd r) |}).
Proof.
  intros Hc Hs. unfold on_ctxt, zoom. cbn [snd].
  rewrite (descriptor_at_ctx _ pre tc (fst r) (zlen (snd r)) (snd r ++ post)); [done| |done|].
  - cbn [ctx data]. unfold record_bytes. by rewrite <- app_assoc.
  - by apply (record_len_bound pre tc r post).
Qed.

Lemma load_types_ctx l : forall fuel d pre post, (length l < fuel)%nat -> Forall entry_ok l ->
  loadables l d -> small pre (stream_bytes l ++ record_bytes END_CODE (0, []) ++ post) ->
  load_types handlers fuel (d, ctx pre (stream_bytes l ++ record_bytes END_CODE (0, []) ++ post)) =
    ((load_entries l d, ctx (pre ++ stream_bytes l) (record_bytes END_CODE (0, []) ++ post)), Ok tt).
Proof.
  induction l as [|[tc r] l IH]; intros [|fuel] d pre post Hf Hok Hld Hs; simpl length in Hf; try lia;
    cbn [load_types stream_bytes flat_map app] in *; unfold bind at 1; unfold gets; cbn [snd].
  - rewrite room_ctx by done. rewrite (proj2 (Z.ltb_ge _ _)).
    2:{ rewrite zlen_app, zlen_record. pose proof (zlen_nonneg post). unfold sizeof_descriptor. cbn [snd]. change (zlen []) with 0. lia. }
    cbn [fail_if]. unfold bind at 1, ret at 1. unfold bind at 1. change (cur (ctx pre _)) with (zlen pre).
    rewrite next_descriptor by (done || by split). cbn. by rewrite app_nil_r.
  - fold (stream_bytes l) in *. rewrite <- app_assoc in *. unfold entry_bytes in *. cbn [fst snd] in *.
    apply Forall_cons_1 in Hok as [(H1 & H2 & h & Hh & [load Hload]) Hok]. cbn [fst snd] in *.
    destruct Hld as [Hld1 Hld2]. cbn [fst snd] in *. set (rest := stream_bytes l ++ _) in *.
    rewrite room_ctx by done. rewrite (proj2 (Z.ltb_ge _ _)).
    2:{ rewrite zlen_app, zlen_record. pose proof (zlen_nonneg rest). pose proof (zlen_nonneg (snd r)).
        unfold sizeof_descriptor. lia. }
    cbn [fail_if]. unfold bind at 1, ret at 1. unfold bind at 1. change (cur (ctx pre _)) with (zlen pre).
    rewrite next_descriptor by done. cbn [typecode].
    rewrite (proj2 (Z.eqb_neq tc 0)) by lia. rewrite (proj2 (Z.ltb_ge _ _)) by lia. cbn [fail_if].
    unfold bind at 1, ret at 1. unfold handler_at. rewrite Hh. cbn [default from_option id]. rewrite Hload.
    pose proof (sl_law _ _ Hh) as [_ _ _ _ L5]. rewrite Z2Nat.id in L5 by lia.
    unfold bind. rewrite (L5 d pre r rest load) by done.
    assert (pre ++ record_bytes tc r ++ stream_bytes l = (pre ++ record_bytes tc r) ++ stream_bytes l) as ->
      by apply app_assoc.
    apply IH; [lia|done|done|]. unfold small in *. by rewrite <- app_assoc.
Qed.
(** ** The whole stream *)

Definition end_record : list Z := record_bytes END_CODE (0, []).
Definition header_record (hdr : hvm_save_header) : list Z := record_bytes HEADER (0, bytes_of_header hdr).
Definition saved (hdr : hvm_save_header) (d : D) : list Z :=
  header_record hdr ++ stream_bytes (entries d) ++ end_record.

Record header_ok (hdr : hvm_save_header) : Prop := {
  ho_magic : hdr_magic hdr = HVM_FILE_MAGIC;
  ho_version : hdr_version hdr = HVM_FILE_VERSION;
  ho_changeset : 0 <= hdr_changeset hdr < 2 ^ 64;
  ho_cpuid : 0 <= hdr_cpuid hdr < 2 ^ 32;
  ho_khz : 0 <= hdr_gtsc_khz hdr < 2 ^ 32
}.

Lemma zlen_header_bytes hdr : zlen (bytes_of_header hdr) = 24.
Proof. done. Qed.

Lemma header_roundtrip hdr : header_ok hdr -> header_of_bytes (bytes_of_header hdr) = hdr.
Proof.
  intros [H1 H2 H3 H4 H5]. destruct hdr as [m v c i k]. cbn in *. subst.
  unfold header_of_bytes, bytes_of_header. cbn [hdr_magic hdr_version hdr_changeset hdr_cpuid hdr_gtsc_khz].
  f_equal.
  - apply (field_le 8 (le_bytes 4 HVM_FILE_MAGIC ++ le_bytes 4 HVM_FILE_VERSION) c). done.
  - apply (field_le 4 (le_bytes 4 HVM_FILE_MAGIC ++ le_bytes 4 HVM_FILE_VERSION ++ le_bytes 8 c) i). done.
  - pose proof (field_le 4 (le_bytes 4 HVM_FILE_MAGIC ++ le_bytes 4 HVM_FILE_VERSION ++ le_bytes 8 c ++
      le_bytes 4 i) k [] H5) as H. by rewrite app_nil_r in H.
Qed.

Lemma saved_size hdr d : sl_inv d -> zlen (saved hdr d) <= hvm_save_size handlers d.
Proof.
  intros Hd. unfold saved, header_record, end_record. rewrite !zlen_app, !zlen_record. cbn [snd].
  rewrite zlen_header_bytes. change (zlen []) with 0.
  pose proof (size_entries d handlers Hd [] eq_refl). unfold hvm_save_size, entries, sizeof_descriptor, sizeof_header.
  simpl length in *. lia.
Qed.

Lemma save_one d tc inst bs pre post : code_ok tc inst -> small pre post -> 8 + zlen bs <= zlen post ->
  on_ctxt (hvm_save_entry tc inst bs) (d, ctx pre post) =
    ((d, ctx (pre ++ record_bytes tc (inst, bs)) (after_bytes (record_bytes tc (inst, bs)) post)), Ok tt).
Proof.
  intros Hc Hs Hr. unfold on_ctxt, zoom. cbn [snd]. rewrite save_entry_ctx by done.
  unfold after_bytes. cbn [fst]. do 4 f_equal. pose proof (zlen_record tc (inst, bs)) as H.
  unfold zlen in *. cbn [snd] in H. lia.
Qed.

Lemma save_entry_dom d tc inst bs pre post : code_ok tc inst -> small pre post -> 8 + zlen bs <= zlen post ->
  code (on_ctxt (hvm_save_entry tc inst bs)) (d, ctx pre post) =
    ((d, ctx (pre ++ record_bytes tc (inst, bs)) (after_bytes (record_bytes tc (inst, bs)) post)), Ok 0).
Proof. intros Hc Hs Hr. unfold code. by rewrite save_one. Qed.

Lemma hvm_save_ctx cs eax d buf : sl_inv d -> dom_is_dying d = false -> small [] buf ->
  hvm_save_size handlers d <= zlen buf ->
  let out := saved (arch_hvm_save cs eax d) d in
  hvm_save handlers cs eax (d, ctx [] buf) = ((d, ctx out (after_bytes out buf)), Ok tt).
Proof.
  intros Hd Hdy Hs Hsz. set (hdr := arch_hvm_save cs eax d). cbv zeta.
  pose proof (saved_size hdr d Hd) as Hout. unfold saved in *.
  set (b1 := header_record hdr) in *. set (b2 := stream_bytes (entries d)) in *. rewrite !zlen_app in Hout.
  assert (zlen b1 = 32) as H1 by done. assert (zlen end_record = 8) as H3 by done.
  pose proof (zlen_nonneg b2).
  unfold hvm_save. unfold bind at 1, gets at 1. cbn [fst]. rewrite Hdy. cbn [fail_if].
  unfold bind at 1, ret at 1. fold hdr. unfold bind at 1.
  rewrite save_entry_dom by (done || (rewrite zlen_header_bytes; lia)). fold (header_record hdr). fold b1.
  change (negb (0 =? 0)) with false. cbn [fail_if app]. unfold bind at 1, ret at 1. unfold bind at 1.
  assert (small b1 (after_bytes b1 buf)) as Hs1 by (apply (small_after [] b1 buf); [done|lia]).
  pose proof (save_types_ctx d handlers Hd [] b1 (after_bytes b1 buf) eq_refl Hs1) as Hst.
  change (stream_bytes (entries_from _ _ _)) with b2 in Hst. cbv zeta in Hst.
  rewrite Hst, after_after by (rewrite zlen_after; lia).
  assert (small (b1 ++ b2) (after_bytes (b1 ++ b2) buf)) as Hs2
    by (apply (small_after [] (b1 ++ b2) buf); [done|rewrite zlen_app; lia]).
  unfold bind at 1. rewrite save_entry_dom by
    (done || (change (zlen []) with 0; rewrite zlen_after; rewrite zlen_app; lia)).
  fold end_record. rewrite after_after, <- !app_assoc. change (negb (0 =? 0)) with false. cbn [fail_if].
  unfold bind at 1, ret at 1. unfold bind at 1, gets. cbn [snd].
  unfold ctx at 1 2. cbn [size cur]. rewrite (proj2 (Z.ltb_ge _ _)); [done|].
  rewrite (zlen_app (b1 ++ b2 ++ end_record)). pose proof (zlen_nonneg (after_bytes (b1 ++ b2 ++ end_record) buf)). lia.
Qed.

(** The domain the records are loaded into. *)
Definition prepared (vtsc : bool) (hdr : hvm_save_header) (d : D) : D :=
  let d := if hdr_gtsc_khz hdr =? 0 then d else dom_set_tsc_khz (hdr_gtsc_khz hdr) d in
  let d := if vtsc then dom_rdtsc_exiting d else d in
  dom_vcpus_down d.

Lemma load_header hdr vtsc d c : header_ok hdr ->
  arch_hvm_load vtsc hdr (d, c) =
    ((let d := if hdr_gtsc_khz hdr =? 0 then d else dom_set_tsc_khz (hdr_gtsc_khz hdr) d in
      if vtsc then dom_rdtsc_exiting d else d, c), Ok tt).
Proof.
  intros [H1 H2 _ _ _]. unfold arch_hvm_load. rewrite H1, H2, !Z.eqb_refl. cbn [negb fail_if].
  unfold bind, ret, when, on_dom, modify. destruct (hdr_gtsc_khz hdr =? 0), vtsc; done.
Qed.

Lemma load_fuel_enough pre l post : (length l < load_fuel (ctx pre (stream_bytes l ++ post)))%nat.
Proof.
  unfold load_fuel. cbn [size ctx]. rewrite !zlen_app. pose proof (zlen_stream l) as H.
  pose proof (zlen_nonneg pre). pose proof (zlen_nonneg post). unfold zlen in H at 1.
  assert (Z.of_nat (length l) <= (zlen pre + (zlen (stream_bytes l) + zlen post)) / 8)
    by (apply Z.div_le_lower_bound; lia). lia.
Qed.

Lemma hvm_load_ctx vtsc hdr d0 d post : header_ok hdr -> sl_inv d0 -> dom_is_dying d = false ->
  small (saved hdr d0) post -> loadables (entries d0) (prepared vtsc hdr d) ->
  exists c, hvm_load handlers vtsc (d, ctx [] (saved hdr d0 ++ post)) =
    ((load_entries (entries d0) (prepared vtsc hdr d), c), Ok tt).
Proof.
  intros Hh Hd0 Hdy Hs Hld. unfold small, saved in Hs. unfold saved.
  unfold hvm_load. unfold bind at 1, gets at 1. cbn [fst]. rewrite Hdy. cbn [fail_if].
  unfold bind at 1, ret at 1. unfold bind at 1, catch, on_ctxt, zoom. cbn [snd]. rewrite <- !app_assoc.
  change sizeof_header with (zlen (bytes_of_header hdr)). unfold header_record at 1.
  unfold hvm_load_entry. rewrite (load_entry_ctx true HEADER 0 (bytes_of_header hdr) []);
    [|done|unfold small; rewrite <- !app_assoc in Hs; exact Hs].
  cbn [fst app]. fold (header_record hdr). rewrite header_roundtrip by done.
  unfold bind at 1, code. rewrite load_header by done.
  change (negb (0 =? 0)) with false. cbn [fail_if]. unfold bind at 1, ret at 1.
  unfold bind at 1, on_dom, modify. cbn [fst snd]. unfold bind at 1, gets. cbn [snd].
  eexists. unfold end_record at 2.
  pose proof (entries_ok d0 handlers Hd0 [] eq_refl) as Hok.
  apply (load_types_ctx (entries d0)); [apply load_fuel_enough|exact Hok|exact Hld|].
  unfold small. rewrite <- !app_assoc in Hs. exact Hs.
Qed.
End Table.
End Laws.
