(* ===== verification/HvmIrqSave.v ===== *)
(** * Saving and restoring the interrupt hardware

    The handlers of the record types PIC (xen/arch/x86/hvm/vpic.c), IOAPIC
    (vioapic.c), LAPIC and LAPIC_REGS (vlapic.c), PCI_IRQ, ISA_IRQ and PCI_LINK
    (irq.c), on a domain with what save.c uses of it.  The controllers and the
    wires are saved; the counters of the wires are recomputed when they are
    loaded, and the timers of the local APICs are armed again. *)

From stdpp Require Import base list numbers.
From Stdlib Require Import ZArith Lia.
From S2P Require Import Prelude Machine Vpic HvmState Vlapic Vioapic HvmIrq VlapicRegs HvmSave.

Open Scope Z_scope.
Open Scope se_scope.

(** ** The domain *)

Record sdom : Type := {
  sd_hw : hdom;
  sd_dying : bool;                (** [is_dying] *)
  sd_tsc_khz : Z;                 (** [arch.tsc_khz] *)
  sd_rdtsc_exiting : bool;        (** the vcpus exit on RDTSC *)
  sd_down : list bool;            (** [_VPF_down] of the vcpus *)
  sd_sleeps : list nat;           (** calls of [vcpu_sleep_nosync], newest first *)
  sd_link_pad : list Z            (** [pci_link.pad0] *)
}.

Definition set_hw (h : hdom) (d : sdom) : sdom :=
  {| sd_hw := h; sd_dying := sd_dying d; sd_tsc_khz := sd_tsc_khz d;
     sd_rdtsc_exiting := sd_rdtsc_exiting d; sd_down := sd_down d;
     sd_sleeps := sd_sleeps d; sd_link_pad := sd_link_pad d |}.
Definition set_tsc_khz (x : Z) (d : sdom) : sdom :=
  {| sd_hw := sd_hw d; sd_dying := sd_dying d; sd_tsc_khz := x;
     sd_rdtsc_exiting := sd_rdtsc_exiting d; sd_down := sd_down d;
     sd_sleeps := sd_sleeps d; sd_link_pad := sd_link_pad d |}.
Definition set_rdtsc_exiting (d : sdom) : sdom :=
  {| sd_hw := sd_hw d; sd_dying := sd_dying d; sd_tsc_khz := sd_tsc_khz d;
     sd_rdtsc_exiting := true; sd_down := sd_down d;
     sd_sleeps := sd_sleeps d; sd_link_pad := sd_link_pad d |}.
Definition set_link_pad (l : list Z) (d : sdom) : sdom :=
  {| sd_hw := sd_hw d; sd_dying := sd_dying d; sd_tsc_khz := sd_tsc_khz d;
     sd_rdtsc_exiting := sd_rdtsc_exiting d; sd_down := sd_down d;
     sd_sleeps := sd_sleeps d; sd_link_pad := l |}.

(** [if (test_and_set_bit(_VPF_down, ...)) vcpu_sleep_nosync(v)] for every vcpu *)
Definition vcpus_down (d : sdom) : sdom :=
  {| sd_hw := sd_hw d; sd_dying := sd_dying d; sd_tsc_khz := sd_tsc_khz d;
     sd_rdtsc_exiting := sd_rdtsc_exiting d;
     sd_down := map (fun _ => true) (sd_down d);
     sd_sleeps := rev (map fst (filter (fun p => snd p = true) (imap pair (sd_down d)))) ++
                  sd_sleeps d;
     sd_link_pad := sd_link_pad d |}.

#[export] Instance sdom_domain : HvmDomain sdom := {|
  dom_is_dying := sd_dying;
  dom_tsc_khz := sd_tsc_khz;
  dom_set_tsc_khz := set_tsc_khz;
  dom_vcpus := fun d => length (sd_down d);
  dom_vcpus_down := vcpus_down;
  dom_rdtsc_exiting := set_rdtsc_exiting
|}.

Abbreviation sst := (sdom * hvm_domain_context)%type.

Definition on_hw {A} (m : SE hdom A) : SE sst A :=
  zoom (fun s => sd_hw (fst s)) (fun h s => (set_hw h (fst s), snd s)) m.

Definition PIC : Z := 3.
Definition IOAPIC : Z := 4.
Definition LAPIC : Z := 5.
Definition LAPIC_REGS : Z := 6.
Definition PCI_IRQ : Z := 7.
Definition ISA_IRQ : Z := 8.
Definition PCI_LINK : Z := 9.

(** [for (i = i0; i < i0 + n; i++) body(i)] *)
Fixpoint for_from (n : nat) (i : Z) (body : Z -> SE hdom unit) : SE hdom unit :=
  match n with
  | O => ret tt
  | S n => body i;; for_from n (i + 1) body
  end.

(** ** The layout of the controllers *)

Definition sizeof_vpic : Z := 8.

(** [struct hvm_hw_vpic]: two nibbles share byte 4, the flags byte 5.  The
    model has [int_output], which the code sets to 0 and 1, as a boolean. *)
Definition bytes_of_vpic (v : hvm_hw_vpic) : list Z :=
  [irr v; imr v; isr v; irq_base v;
   init_state v + 16 * priority_add v;
   Z.b2z (readsel_isr v) + 2 * Z.b2z (poll v) + 4 * Z.b2z (auto_eoi v) +
   8 * Z.b2z (rotate_on_auto_eoi v) + 16 * Z.b2z (special_fully_nested_mode v) +
   32 * Z.b2z (special_mask_mode v) + 64 * Z.b2z (is_master v);
   elcr v; Z.b2z (int_output v)].

Definition vpic_of_bytes (l : list Z) : hvm_hw_vpic :=
  {| irr := znth l 0; imr := znth l 1; isr := znth l 2; irq_base := znth l 3;
     init_state := znth l 4 mod 16; priority_add := znth l 4 / 16;
     readsel_isr := Z.testbit (znth l 5) 0; poll := Z.testbit (znth l 5) 1;
     auto_eoi := Z.testbit (znth l 5) 2; rotate_on_auto_eoi := Z.testbit (znth l 5) 3;
     special_fully_nested_mode := Z.testbit (znth l 5) 4;
     special_mask_mode := Z.testbit (znth l 5) 5; is_master := Z.testbit (znth l 5) 6;
     elcr := znth l 6; int_output := negb (znth l 7 =? 0) |}.

Definition sizeof_vioapic : Z := 16 + 8 * VIOAPIC_NUM_PINS.

(** [struct hvm_hw_vioapic] *)
Definition bytes_of_vioapic (a : hvm_hw_vioapic) : list Z :=
  le_bytes 8 (base_address a) ++ le_bytes 4 (ioregsel a) ++ le_bytes 4 (ioapic_id a) ++
  flat_map (le_bytes 8) (redirtbl a).

Definition vioapic_of_bytes (l : list Z) : hvm_hw_vioapic :=
  {| base_address := field 0 8 l; ioregsel := field 8 4 l; ioapic_id := field 12 4 l;
     redirtbl := map (fun i => field (16 + 8 * i) 8 l) (seqZ 0 VIOAPIC_NUM_PINS) |}.

Definition sizeof_lapic : Z := 24.

(** [struct hvm_hw_lapic] *)
Definition bytes_of_lapic (v : vcpu) : list Z :=
  le_bytes 8 (vl_apic_base_msr v) ++ le_bytes 4 (vl_disabled v) ++
  le_bytes 4 (timer_divisor (vl_timer v)) ++ le_bytes 8 (tdt_msr (vl_timer v)).

Definition lapic_of_bytes (l : list Z) (v : vcpu) : vcpu :=
  set_apic_base_msr (field 0 8 l)
    (set_vl_disabled (field 8 4 l)
       (set_vl_timer (set_timer_divisor (field 12 4 l) (set_tdt_msr (field 16 8 l) (vl_timer v))) v)).

Definition sizeof_lapic_regs : Z := 1024.

(** [struct hvm_hw_lapic_regs]: the 256 words of the page that are saved. *)
Definition bytes_of_lapic_regs (v : vcpu) : list Z :=
  flat_map (fun i => le_bytes 4 (vl_regs v (4 * i))) (seqZ 0 256).

Definition lapic_regs_of_bytes (l : list Z) (v : vcpu) : vcpu :=
  set_vl_regs (fun r => if (0 <=? r) && (r <? sizeof_lapic_regs) && (r mod 4 =? 0)
                        then field r 4 l else vl_regs v r) v.

(** The time of the guest when its domain is loaded. *)
Record clock : Type := {
  ck_time : Z;             (** [hvm_get_guest_time] *)
  ck_tsc : Z;              (** [hvm_get_guest_tsc] *)
  ck_convert : Z -> Z      (** [gtsc_to_gtime] *)
}.

(** ** Saving *)

Section Save.
Context (pit0 : bool) (ck : clock).

(** [vpic_save] *)
Definition save_pic (i : Z) (v : hvm_hw_vpic) : SE sst unit :=
  catch (on_ctxt (hvm_save_entry PIC i (bytes_of_vpic v))) (fun _ => fail 1).
Definition vpic_save : SE sst unit :=
  p <- gets (fun s => h_pics (sd_hw (fst s)));;
  save_pic 0 (pic0 p);; save_pic 1 (pic1 p).

Definition ioapic_save : SE sst unit :=
  a <- gets (fun s => h_ioapic (sd_hw (fst s)));;
  on_ctxt (hvm_save_entry IOAPIC 0 (bytes_of_vioapic a)).

(** [for_each_vcpu]: a record for each vcpu from number [i] on. *)
Fixpoint save_vcpus (tc : Z) (bytes : vcpu -> list Z) (l : list vcpu) (i : Z) : SE sst unit :=
  match l with
  | [] => ret tt
  | v :: l => on_ctxt (hvm_save_entry tc i (bytes v));; save_vcpus tc bytes l (i + 1)
  end.

Definition lapic_save_hidden : SE sst unit :=
  l <- gets (fun s => h_vcpus (sd_hw (fst s)));; save_vcpus LAPIC bytes_of_lapic l 0.
Definition lapic_save_regs : SE sst unit :=
  l <- gets (fun s => h_vcpus (sd_hw (fst s)));; save_vcpus LAPIC_REGS bytes_of_lapic_regs l 0.

Definition irq_save_pci : SE sst unit :=
  q <- gets (fun s => h_irq (sd_hw (fst s)));;
  let pdev := via_dev (callback_via q) in
  let pintx := via_intx (callback_via q) in
  let asserted := callback_via_asserted q &&
    bool_decide (callback_via_type q = HVMIRQ_callback_pci_intx) in
  when asserted (on_hw (hvm_pci_intx_deassert pdev pintx));;
  q <- gets (fun s => h_irq (sd_hw (fst s)));;
  rc <- code (on_ctxt (hvm_save_entry PCI_IRQ 0 (le_bytes 16 (pci_intx q))));;
  when asserted (on_hw (hvm_pci_intx_assert pit0 pdev pintx));;
  fail_if (negb (rc =? 0)) rc.

Definition irq_save_isa : SE sst unit :=
  q <- gets (fun s => h_irq (sd_hw (fst s)));;
  on_ctxt (hvm_save_entry ISA_IRQ 0 (le_bytes 8 (isa_irq q))).

Definition irq_save_link : SE sst unit :=
  d <- gets fst;;
  on_ctxt (hvm_save_entry PCI_LINK 0 (route (h_irq (sd_hw d)) ++ sd_link_pad d)).

(** ** Loading *)

(** [if (hvm_load_entry(...) != 0) return -EINVAL;] *)
Definition load_or_einval (tc len : Z) : SE sst (list Z) :=
  catch (on_ctxt (hvm_load_entry tc len)) (fun _ => fail (- EINVAL)).

Definition vpic_load : SE sst unit :=
  inst <- on_ctxt hvm_load_instance;;
  fail_if (1 <? inst) (- EINVAL);;
  bs <- load_or_einval PIC sizeof_vpic;;
  on_hw (on_pics (upd_pic (Z.to_nat inst) (fun _ => vpic_of_bytes bs))).

(** [hvm_load_entry] gives its code as it is. *)
Definition ioapic_load : SE sst unit :=
  bs <- on_ctxt (hvm_load_entry IOAPIC sizeof_vioapic);;
  on_hw (on_ioapic (fun _ => vioapic_of_bytes bs)).

(** The vcpu whose local APIC is loaded. *)
Definition load_vcpuid : SE sst Z :=
  vcpuid <- on_ctxt hvm_load_instance;;
  h <- gets (fun s => sd_hw (fst s));;
  fail_if ((h_max_vcpus h <=? vcpuid) || (zlen (h_vcpus h) <=? vcpuid)) (- EINVAL);;
  ret vcpuid.

Definition load_hidden (i : Z) (bs : list Z) : SE hdom unit :=
  upd_vcpu i (lapic_of_bytes bs);; apic_emit (ApicMsrChanged i).

Definition lapic_load_hidden : SE sst unit :=
  i <- load_vcpuid;;
  bs <- catch (on_ctxt (hvm_load_entry_zeroextend LAPIC sizeof_lapic)) (fun _ => fail (- EINVAL));;
  on_hw (load_hidden i bs).

Definition load_regs (i : Z) (bs : list Z) : SE hdom unit :=
  upd_vcpu i (lapic_regs_of_bytes bs);;
  vlapic_adjust_i8259_target;;
  lapic_rearm (ck_time ck) (ck_tsc ck) (ck_convert ck) i.

Definition lapic_load_regs : SE sst unit :=
  i <- load_vcpuid;;
  bs <- load_or_einval LAPIC_REGS sizeof_lapic_regs;;
  on_hw (load_regs i bs).

(** The body of the loops of [irq_load_pci]. *)
Definition count_wire (dev intx : Z) : SE hdom unit :=
  q <- gets h_irq;;
  when (Z.testbit (pci_intx q) (dev * 4 + intx))
    (gsi_inc (hvm_pci_intx_gsi dev intx);;
     link_inc (hvm_pci_intx_link dev intx);;
     ret tt).

(** The counters of the loaded wires. *)
Definition load_pci_wires (bs : list Z) : SE hdom unit :=
  on_irq (set_pci_intx (le_val bs));;
  on_irq (set_link_counts (replicate 4 0));;
  on_irq (set_gsi_counts (replicate 48 0));;
  for_from 32 0 (fun dev => for_from 4 0 (count_wire dev)).

Definition irq_load_pci : SE sst unit :=
  bs <- load_or_einval PCI_IRQ 16;;
  on_hw (load_pci_wires bs).

Definition load_isa_wires (bs : list Z) : SE hdom unit :=
  on_irq (set_isa_irq (le_val bs));;
  for_from 16 0 (fun irq =>
    q <- gets h_irq;;
    when (Z.testbit (isa_irq q) irq) (gsi_inc (hvm_isa_irq_to_gsi irq);; ret tt)).

Definition irq_load_isa : SE sst unit :=
  bs <- load_or_einval ISA_IRQ 8;;
  on_hw (load_isa_wires bs).

(** The sanity check and the counters of the asserted links' routes. *)
Definition load_link_routes (bs : list Z) : SE hdom unit :=
  on_irq (set_route (take 4 bs));;
  for_from 4 0 (fun link =>
    q <- gets h_irq;;
    r <- elem (route q) link;;
    fail_if (15 <? r) (- EINVAL));;
  for_from 4 0 (fun link =>
    q <- gets h_irq;;
    n <- elem (pci_link_assert_count q) link;;
    when (negb (n =? 0))
      (gsi <- elem (route q) link;;
       when (negb (gsi =? 0)) (gsi_inc gsi;; ret tt))).

Definition irq_load_link : SE sst unit :=
  bs <- load_or_einval PCI_LINK 8;;
  modify (fun s => (set_link_pad (drop 4 bs) (fst s), snd s));;
  on_hw (load_link_routes bs).

(** [HVM_REGISTER_SAVE_RESTORE] of [num] records per domain *)
Definition registered (len : Z) (save load : SE sst unit) (num : Z) : sr_handler :=
  {| sr_save := Some save; sr_load := Some load; sr_size := num * (len + sizeof_descriptor);
     sr_per_vcpu := false |}.

(** [HVM_REGISTER_SAVE_RESTORE] of one record per vcpu *)
Definition registered_vcpu (len : Z) (save load : SE sst unit) : sr_handler :=
  {| sr_save := Some save; sr_load := Some load; sr_size := len + sizeof_descriptor;
     sr_per_vcpu := true |}.

(** The table with the seven types registered. *)
Definition irq_handlers : list (sr_handler (D := sdom)) :=
  default [] (
    t ← hvm_register_savevm PIC (registered sizeof_vpic vpic_save vpic_load 2)
          (replicate (Z.to_nat (HVM_SAVE_CODE_MAX + 1)) no_handler);
    t ← hvm_register_savevm IOAPIC (registered sizeof_vioapic ioapic_save ioapic_load 1) t;
    t ← hvm_register_savevm LAPIC (registered_vcpu sizeof_lapic lapic_save_hidden lapic_load_hidden) t;
    t ← hvm_register_savevm LAPIC_REGS
          (registered_vcpu sizeof_lapic_regs lapic_save_regs lapic_load_regs) t;
    t ← hvm_register_savevm PCI_IRQ (registered 16 irq_save_pci irq_load_pci 1) t;
    t ← hvm_register_savevm ISA_IRQ (registered 8 irq_save_isa irq_load_isa 1) t;
    hvm_register_savevm PCI_LINK (registered 8 irq_save_link irq_load_link 1) t).
End Save.
