(* ===== verification/HvmIrqRestore.v ===== *)
(** * Restoring the interrupt hardware: what the load handlers compute

    The counters are the levels of the loaded wires; the controllers read back
    as they were written; the wires of a reachable domain fit into their
    records. *)

From stdpp Require Import base list numbers.
From Stdlib Require Import ZArith Lia Bool.
From S2P Require Import Prelude Machine Vpic VpicInv VpicOps HvmState Vlapic Vioapic HvmIrq.
From S2P Require Import VioapicInv VioapicOps HvmIrqOps HvmIrqRun VlapicRegs HvmLapic HvmIrqSystem.
From S2P Require Import HvmSave HvmStream HvmIrqSave.

Open Scope Z_scope.
Open Scope se_scope.

(** ** Loops *)

Lemma for_from_wp (P : Z -> hdom -> Prop) body n : forall i h, P i h ->
  (forall k h, i <= k < i + Z.of_nat n -> P k h -> wp (body k) (fun _ => P (k + 1)) h) ->
  wp (for_from n i body) (fun _ => P (i + Z.of_nat n)) h.
Proof.
  induction n as [|n IH]; intros i h Hi Hstep; cbn [for_from].
  - apply wp_ret. by rewrite Z.add_0_r.
  - apply wp_bind. eapply wp_mono; [apply Hstep; [lia|done]|]. intros [] h' Hi'.
    replace (i + Z.of_nat (S n)) with (i + 1 + Z.of_nat n) by lia. apply IH; [done|].
    intros k h'' Hk. apply Hstep. lia.
Qed.

Lemma below_succ n : below (S n) = below n ++ [Z.of_nat n].
Proof. unfold below. rewrite seq_S, map_app. done. Qed.
Lemma count_app f l1 l2 : count f (l1 ++ l2) = count f l1 + count f l2.
Proof. induction l1 as [|i l IH]; simpl; [done|]. rewrite IH. lia. Qed.

(** The count of one number more. *)
Lemma count_next f k : 0 <= k ->
  count f (below (Z.to_nat (k + 1))) = count f (below (Z.to_nat k)) + Z.b2z (f k).
Proof.
  intros Hk. replace (Z.to_nat (k + 1)) with (S (Z.to_nat k)) by lia.
  rewrite below_succ, count_app, Z2Nat.id by done. simpl. lia.
Qed.
Lemma count_below_bounds f k : 0 <= k -> 0 <= count f (below (Z.to_nat k)) <= k.
Proof. intros Hk. pose proof (count_bounds f (below (Z.to_nat k))) as H. rewrite zlen_below in H. lia. Qed.

Lemma map_bump (f f' : Z -> Z) n k d : (forall g, f' g = f g + d * Z.b2z (k =? g)) ->
  map (bump f k d) (below n) = map f' (below n).
Proof.
  intros H. apply map_below_ext. intros g _. unfold bump. rewrite H, (Z.eqb_sym k g).
  destruct (g =? k); simpl; lia.
Qed.

(** ** The PCI wires *)

(** The counters after the first [k] wires. *)
Definition gsi_upto (w k g : Z) : Z := count (fun b => Z.testbit w b && (wire_gsi b =? g)) (below (Z.to_nat k)).
Definition link_upto (w k l : Z) : Z := count (fun b => Z.testbit w b && (wire_link b =? l)) (below (Z.to_nat k)).
Definition pci_counted (w k : Z) (q : hvm_irq) : hvm_irq :=
  set_gsi_counts (map (gsi_upto w k) (below 48))
    (set_link_counts (map (link_upto w k) (below 4)) (set_pci_intx w q)).

Lemma upto_next (sel : Z -> Z) w k g : 0 <= k ->
  count (fun b => Z.testbit w b && (sel b =? g)) (below (Z.to_nat (k + 1))) =
  count (fun b => Z.testbit w b && (sel b =? g)) (below (Z.to_nat k)) +
    (if Z.testbit w k then Z.b2z (sel k =? g) else 0).
Proof. intros Hk. rewrite count_next by done. by destruct (Z.testbit w k). Qed.

Lemma count_wire_wp w q h0 dev intx : 0 <= dev <= 31 -> 0 <= intx <= 3 ->
  let k := dev * 4 + intx in
  wp (count_wire dev intx) (fun _ h => h = set_irqs (pci_counted w (k + 1) q) h0)
     (set_irqs (pci_counted w k q) h0).
Proof.
  intros Hd Hi. cbv zeta. destruct (wire_split dev intx Hd Hi) as (Hk & E1 & E2).
  set (k := dev * 4 + intx) in *. unfold count_wire. apply wp_bind, wp_gets.
  change (pci_intx _) with w. fold k.
  assert (hvm_pci_intx_gsi dev intx = wire_gsi k) as -> by (unfold wire_gsi; by rewrite E1, E2).
  assert (hvm_pci_intx_link dev intx = wire_link k) as -> by (unfold wire_link; by rewrite E1, E2).
  pose proof (wire_gsi_bound k). pose proof (wire_link_bound k).
  apply wp_when; intros Hw.
  - pose proof (count_below_bounds (fun b => Z.testbit w b && (wire_gsi b =? wire_gsi k)) k ltac:(lia)).
    pose proof (count_below_bounds (fun b => Z.testbit w b && (wire_link b =? wire_link k)) k ltac:(lia)).
    apply wp_bind. eapply (gsi_count_wp (gsi_upto w k)); [done|lia|unfold gsi_upto; lia|].
    apply wp_bind. eapply (link_count_wp (link_upto w k)); [done|lia|unfold link_upto; lia|].
    apply wp_ret. unfold linked, counted, pci_counted. cbn [h_irq set_irqs]. 
    rewrite (map_bump (gsi_upto w k) (gsi_upto w (k + 1))), (map_bump (link_upto w k) (link_upto w (k + 1))).
    + done.
    + intros l. unfold link_upto. rewrite upto_next, Hw by lia. lia.
    + intros g. unfold gsi_upto. rewrite upto_next, Hw by lia. lia.
  - f_equal. unfold pci_counted.
    rewrite (map_below_ext 48 (gsi_upto w (k + 1)) (gsi_upto w k)), (map_below_ext 4 (link_upto w (k + 1)) (link_upto w k)).
    + done.
    + intros l _. unfold link_upto. rewrite upto_next, Hw by lia. lia.
    + intros g _. unfold gsi_upto. rewrite upto_next, Hw by lia. lia.
Qed.

Definition pci_loaded (w : Z) (q : hvm_irq) : hvm_irq :=
  set_gsi_counts (map (pci_level w) (below 48))
    (set_link_counts (map (link_level w) (below 4)) (set_pci_intx w q)).

Lemma load_pci_wp bs h :
  wp (load_pci_wires bs) (fun _ h' => h' = set_irqs (pci_loaded (le_val bs) (h_irq h)) h) h.
Proof.
  set (w := le_val bs). set (q := h_irq h). unfold load_pci_wires.
  do 3 (apply wp_bind, on_irq_wp). fold w.
  eapply wp_mono; [apply (for_from_wp (fun k h' => h' = set_irqs (pci_counted w (4 * k) q) h))|].
  - unfold pci_counted, set_link_counts. reflexivity.
  - intros dev h' Hd ->. 
    eapply wp_mono; [apply (for_from_wp (fun k h' => h' = set_irqs (pci_counted w (dev * 4 + k) q) h))|].
    + do 2 f_equal. lia.
    + intros intx h' Hi ->. eapply wp_mono; [apply count_wire_wp; lia|]. intros [] ? ->. do 2 f_equal. lia.
    + intros [] ? ->. do 2 f_equal. lia.
  - intros [] ? ->. done.
Qed.

(** ** The ISA wires *)

Definition isa_counted (f : Z -> Z) (w k : Z) (q : hvm_irq) : hvm_irq :=
  set_gsi_counts (map (fun g => f g + count (fun i => Z.testbit w i && (hvm_isa_irq_to_gsi i =? g))
                                        (below (Z.to_nat k))) (below 48)) (set_isa_irq w q).

Lemma isa_gsi_bound i : 0 <= i <= 15 -> 0 <= hvm_isa_irq_to_gsi i < 48.
Proof. intros Hi. unfold hvm_isa_irq_to_gsi. case_match; lia. Qed.

Lemma load_isa_wp bs f h : gsi_assert_count (h_irq h) = map f (below 48) ->
  (forall g, 0 <= f g <= 128) ->
  wp (load_isa_wires bs) (fun _ h' => h' = set_irqs (isa_counted f (le_val bs) 16 (h_irq h)) h) h.
Proof.
  intros Hg Hf. set (w := le_val bs). set (q := h_irq h). unfold load_isa_wires.
  apply wp_bind, on_irq_wp. fold w.
  eapply wp_mono; [apply (for_from_wp (fun k h' => h' = set_irqs (isa_counted f w k q) h))|].
  - f_equal. unfold isa_counted. rewrite (map_below_ext 48 _ f) by (intros g _; simpl; lia).
    fold q in Hg. by rewrite <- Hg.
  - intros k h' Hk ->. apply wp_bind, wp_gets. change (isa_irq _) with w.
    pose proof (isa_gsi_bound k ltac:(lia)) as Hb. apply wp_when; intros Hw.
    + apply wp_bind. eapply (gsi_count_wp _ (hvm_isa_irq_to_gsi k)); [done|done| |].
      * pose proof (count_below_bounds (fun i => Z.testbit w i && (hvm_isa_irq_to_gsi i =? hvm_isa_irq_to_gsi k)) k ltac:(lia)).
        specialize (Hf (hvm_isa_irq_to_gsi k)). lia.
      * apply wp_ret. unfold counted. cbn [h_irq set_irqs]. unfold isa_counted.
        erewrite map_bump; [done|]. intros g. cbv beta. rewrite upto_next, Hw by lia. lia.
    + f_equal. unfold isa_counted. f_equal. apply map_below_ext. intros g _. rewrite upto_next, Hw by lia. lia.
  - intros [] ? ->. done.
Qed.

(** ** The routes *)

Definition routed_upto (lk : Z -> Z) (rt : list Z) (k g : Z) : Z :=
  count (fun l => (0 <? lk l) && negb (g =? 0) && (znth rt l =? g)) (below (Z.to_nat k)).
Definition link_counted (f lk : Z -> Z) (rt : list Z) (k : Z) (q : hvm_irq) : hvm_irq :=
  set_gsi_counts (map (fun g => f g + routed_upto lk rt k g) (below 48)) (set_route rt q).

Lemma route_nth rt l : length rt = 4%nat -> 0 <= l < 4 -> rt !! Z.to_nat l = Some (znth rt l).
Proof.
  intros Hl Hb. unfold znth. destruct (rt !! Z.to_nat l) eqn:E; [done|].
  apply lookup_ge_None_1 in E. lia.
Qed.

Lemma load_link_wp bs f lk h : let rt := take 4 bs in
  gsi_assert_count (h_irq h) = map f (below 48) -> (forall g, 0 <= f g <= 200) ->
  pci_link_assert_count (h_irq h) = map lk (below 4) -> (forall l, 0 <= lk l) ->
  length rt = 4%nat -> Forall (fun r => 0 <= r <= 15) rt ->
  wp (load_link_routes bs) (fun _ h' => h' = set_irqs (link_counted f lk rt 4 (h_irq h)) h) h.
Proof.
  intros rt Hg Hf Hlk Hlk0 Hlen Hrt. set (q := h_irq h) in *. unfold load_link_routes.
  assert (forall l, 0 <= l < 4 -> 0 <= znth rt l <= 15) as Hr
    by (intros l Hl; exact (Forall_lookup_1 _ _ _ _ Hrt (route_nth rt l Hlen Hl))).
  apply wp_bind, on_irq_wp. fold rt. apply wp_bind.
  eapply wp_mono; [apply (for_from_wp (fun _ h' => h' = set_irqs (set_route rt q) h)); [done|]|].
  { intros k h' Hk ->. apply wp_bind, wp_gets, wp_bind. change (route _) with rt.
    eapply wp_elem; [lia|apply route_nth; [done|lia]|]. specialize (Hr k ltac:(lia)). apply wp_fail_if; [apply Z.ltb_ge; lia|done]. }
  intros [] ? ->.
  eapply wp_mono; [apply (for_from_wp (fun k h' => h' = set_irqs (link_counted f lk rt k q) h))|].
  - f_equal. unfold link_counted. rewrite (map_below_ext 48 _ f) by (intros g _; unfold routed_upto; simpl; lia).
    by rewrite <- Hg.
  - intros k h' Hk ->. apply wp_bind, wp_gets, wp_bind.
    change (pci_link_assert_count _) with (pci_link_assert_count q). rewrite Hlk.
    eapply wp_elem; [lia|apply below_lookup; lia|]. change (route _) with rt.
    assert (forall g, routed_upto lk rt (k + 1) g = routed_upto lk rt k g +
      Z.b2z ((0 <? lk k) && negb (g =? 0) && (znth rt k =? g))) as Hnext
      by (intros g; unfold routed_upto; by rewrite count_next by lia).
    assert ((negb (lk k =? 0) && negb (znth rt k =? 0)) = false -> link_counted f lk rt (k + 1) q = link_counted f lk rt k q) as Hskip.
    { intros E. unfold link_counted. f_equal. apply map_below_ext. intros g _. rewrite Hnext. specialize (Hlk0 k).
      destruct (Z.ltb_spec 0 (lk k)), (Z.eqb_spec g 0), (Z.eqb_spec (znth rt k) g),
        (Z.eqb_spec (lk k) 0), (Z.eqb_spec (znth rt k) 0); simpl in *; lia || done. }
    apply wp_when; intros E1.
    + apply wp_bind. eapply wp_elem; [lia|apply route_nth; [done|lia]|]. apply wp_when; intros E2.
      * pose proof (Hr k ltac:(lia)) as Hb. apply wp_bind.
        eapply (gsi_count_wp _ (znth rt k)); [done|lia| |].
        { pose proof (count_below_bounds (fun l => (0 <? lk l) && negb (znth rt k =? 0) && (znth rt l =? znth rt k)) k ltac:(lia)).
          specialize (Hf (znth rt k)). unfold routed_upto. lia. }
        apply wp_ret. unfold counted. cbn [h_irq set_irqs]. unfold link_counted.
        erewrite map_bump; [done|]. intros g. cbv beta. rewrite Hnext. specialize (Hlk0 k).
        destruct (Z.ltb_spec 0 (lk k)), (Z.eqb_spec g 0), (Z.eqb_spec (znth rt k) g); simpl; lia.
      * by rewrite Hskip by (by rewrite E1, E2).
    + by rewrite Hskip by (by rewrite E1).
  - intros [] ? ->. done.
Qed.

(** ** The wires of a reachable domain fit into their records *)

Record wires_fit (q : hvm_irq) : Prop := {
  wf_pci : 0 <= pci_intx q < 2 ^ 128;
  wf_isa : 0 <= isa_irq q < 2 ^ 16
}.

Lemma fit_after op h : hop_ok op h -> wires_fit (h_irq h) -> wires_fit (wires_after op (h_irq h)).
Proof.
  intros Hop [H1 H2]. destruct op as [d i|d i|i|i v|i|l i|via|a v|a|w p v|p v|v|v k|v a]; cbn [hop_ok wires_after] in *;
    try (by split).
  - split; [apply setbit_fit; [lia|done]|done].
  - split; [apply clearbit_fit; [lia|done]|done].
  - split; [done|apply setbit_fit; [lia|done]].
  - split; [done|apply setbit_fit; [lia|done]].
  - split; [done|apply clearbit_fit; [lia|done]].
  - by destruct (callback_of via (callback_via (h_irq h))).
Qed.

Lemma hreach_fit pit0 h : hreach pit0 h -> wires_fit (h_irq h).
Proof.
  induction 1 as [l max Hl Hregs Hlap|h op h' Hr IH Hop Hrun]; [done|].
  destruct (hreach_hop pit0 op h Hr Hop) as (h1 & E & _ & [S1 S2 _ _ _ _]).
  rewrite Hrun in E. injection E as <-.
  destruct (fit_after op h Hop IH) as [F1 F2]. split; [by rewrite S1|by rewrite S2].
Qed.

(** ** The layout of the controllers *)

Lemma flags_bits b0 b1 b2 b3 b4 b5 b6 :
  let f := Z.b2z b0 + 2 * Z.b2z b1 + 4 * Z.b2z b2 + 8 * Z.b2z b3 + 16 * Z.b2z b4 +
           32 * Z.b2z b5 + 64 * Z.b2z b6 in
  Z.testbit f 0 = b0 /\ Z.testbit f 1 = b1 /\ Z.testbit f 2 = b2 /\ Z.testbit f 3 = b3 /\
  Z.testbit f 4 = b4 /\ Z.testbit f 5 = b5 /\ Z.testbit f 6 = b6.
Proof. by destruct b0, b1, b2, b3, b4, b5, b6. Qed.

Lemma vpic_roundtrip v : fields_ok v -> vpic_of_bytes (bytes_of_vpic v) = v.
Proof.
  intros (_ & _ & _ & _ & Hp & Hi). destruct v as [a b c d st pr f0 f1 f2 f3 f4 f5 f6 e o].
  cbn [priority_add init_state] in *. unfold vpic_of_bytes, bytes_of_vpic. unfold znth.
  cbn [irr imr isr irq_base init_state priority_add readsel_isr poll auto_eoi rotate_on_auto_eoi
    special_fully_nested_mode special_mask_mode is_master elcr int_output].
  change (Z.to_nat 0) with 0%nat. change (Z.to_nat 1) with 1%nat. change (Z.to_nat 2) with 2%nat.
  change (Z.to_nat 3) with 3%nat. change (Z.to_nat 4) with 4%nat. change (Z.to_nat 5) with 5%nat.
  change (Z.to_nat 6) with 6%nat. change (Z.to_nat 7) with 7%nat. cbn [lookup list_lookup default from_option id].
  destruct (flags_bits f0 f1 f2 f3 f4 f5 f6) as (-> & -> & -> & -> & -> & -> & ->).
  assert ((st + 16 * pr) mod 16 = st /\ (st + 16 * pr) / 16 = pr) as [-> ->] by zlia.
  f_equal. by destruct o.
Qed.

Lemma zlen_words w l : zlen (flat_map (le_bytes w) l) = Z.of_nat w * zlen l.
Proof.
  induction l as [|x l IH]; [unfold zlen; simpl; lia|]. cbn [flat_map]. rewrite zlen_app, zlen_le_bytes, IH.
  unfold zlen. simpl length. lia.
Qed.

(** An element of an array of words of [w] bytes. *)
Lemma field_word w pre l post i e : l !! i = Some e -> 0 <= e < 256 ^ Z.of_nat w ->
  field (zlen pre + Z.of_nat w * Z.of_nat i) (Z.of_nat w) (pre ++ flat_map (le_bytes w) l ++ post) = e.
Proof.
  intros Hi He. rewrite <- (take_drop_middle l i e Hi), flat_map_app. cbn [flat_map].
  assert (zlen (flat_map (le_bytes w) (take i l)) = Z.of_nat w * Z.of_nat i) as Hz.
  { rewrite zlen_words. apply lookup_lt_Some in Hi. unfold zlen. rewrite length_take. lia. }
  rewrite <- Hz, <- zlen_app, <- !app_assoc, (app_assoc pre). by apply (field_le w).
Qed.

Lemma vioapic_roundtrip a : length (redirtbl a) = 48%nat -> Forall (fun e => 0 <= e < 2 ^ 64) (redirtbl a) ->
  0 <= base_address a < 2 ^ 64 -> 0 <= ioregsel a < 2 ^ 32 -> 0 <= ioapic_id a < 2 ^ 32 ->
  vioapic_of_bytes (bytes_of_vioapic a) = a.
Proof.
  intros Hl He Hb Hs Hi. destruct a as [b s i l]. cbn [base_address ioregsel ioapic_id redirtbl] in *.
  unfold vioapic_of_bytes, bytes_of_vioapic. cbn [base_address ioregsel ioapic_id redirtbl]. f_equal.
  - by apply (field_le 8 []).
  - by apply (field_le 4 (le_bytes 8 b)).
  - rewrite app_assoc. by apply (field_le 4 (le_bytes 8 b ++ le_bytes 4 s)).
  - apply list_eq. intros k. rewrite list_lookup_fmap. destruct (l !! k) as [e|] eqn:Hk.
    + apply lookup_lt_Some in Hk as Hlt. rewrite lookup_seqZ_lt by (unfold VIOAPIC_NUM_PINS; lia).
      cbn [fmap option_fmap option_map]. f_equal. rewrite Z.add_0_l, !app_assoc.
      rewrite <- (app_nil_r (flat_map _ l)), <- !app_assoc, (app_assoc (le_bytes 8 b)), (app_assoc (_ ++ _)).
      apply (field_word 8 ((le_bytes 8 b ++ le_bytes 4 s) ++ le_bytes 4 i) l [] k e); [done|]. by apply (Forall_lookup_1 _ _ _ _ He Hk).
    + apply lookup_ge_None_1 in Hk. rewrite lookup_seqZ_ge by (unfold VIOAPIC_NUM_PINS; lia). done.
Qed.

Lemma zlen_vioapic a : length (redirtbl a) = 48%nat -> zlen (bytes_of_vioapic a) = sizeof_vioapic.
Proof.
  intros Hl. unfold bytes_of_vioapic. rewrite !zlen_app, !zlen_le_bytes.
  rewrite zlen_words. unfold zlen. rewrite Hl. done.
Qed.

(** * Restoring the local APICs: what the load handlers compute

    The state of a local APIC reads back as it was written, and the handlers
    change nothing else than the vcpu they load and the target of the 8259s. *)

(** ** The layout *)

Lemma lapic_roundtrip n v w : lapic_ok n v ->
  let w' := lapic_of_bytes (bytes_of_lapic v) w in
  vl_apic_base_msr w' = vl_apic_base_msr v /\ vl_disabled w' = vl_disabled v /\
  timer_divisor (vl_timer w') = timer_divisor (vl_timer v) /\ tdt_msr (vl_timer w') = tdt_msr (vl_timer v) /\
  vl_regs w' = vl_regs w.
Proof.
  intros [[T1 T2] D B _]. cbv zeta. unfold lapic_of_bytes.
  cbn [vl_apic_base_msr vl_disabled vl_timer vl_regs timer_divisor tdt_msr set_apic_base_msr set_vl_disabled
       set_vl_timer set_timer_divisor set_tdt_msr].
  unfold bytes_of_lapic. split_and!.
  - by apply (field_le 8 []).
  - by apply (field_le 4 (le_bytes 8 (vl_apic_base_msr v))).
  - rewrite app_assoc. apply (field_le 4 (le_bytes 8 (vl_apic_base_msr v) ++ le_bytes 4 (vl_disabled v))). lia.
  - rewrite !app_assoc, <- (app_nil_r (le_bytes 8 (tdt_msr _))).
    by apply (field_le 8 ((le_bytes 8 (vl_apic_base_msr v) ++ le_bytes 4 (vl_disabled v)) ++ le_bytes 4 (timer_divisor (vl_timer v)))).
  - done.
Qed.

Lemma regs_bytes_words v : bytes_of_lapic_regs v = flat_map (le_bytes 4) ((fun i => vl_regs v (4 * i)) <$> seqZ 0 256).
Proof.
  unfold bytes_of_lapic_regs. generalize (seqZ 0 256) as l.
  induction l as [|i l IH]; [done|]. cbn [flat_map fmap list_fmap]. by rewrite IH.
Qed.

Lemma lapic_regs_roundtrip v w r : regs_ok v -> 0 <= r < 1024 -> r mod 4 = 0 ->
  vl_regs (lapic_regs_of_bytes (bytes_of_lapic_regs v) w) r = vl_regs v r.
Proof.
  intros Hv Hr Hm. unfold lapic_regs_of_bytes, sizeof_lapic_regs. cbn [vl_regs set_vl_regs].
  rewrite (proj2 (Z.leb_le 0 r)), (proj2 (Z.ltb_lt r 1024)), (proj2 (Z.eqb_eq _ 0)) by (done || lia). cbn [andb].
  rewrite regs_bytes_words. pose proof (field_word 4 [] ((fun i => vl_regs v (4 * i)) <$> seqZ 0 256) [] (Z.to_nat (r / 4)) (vl_regs v r)) as H.
  rewrite app_nil_l, app_nil_r in H. change (zlen []) with 0 in H. change (Z.of_nat 4) with 4 in H.
  assert (r = 4 * (r / 4)) as E by zlia. rewrite Z2Nat.id, Z.add_0_l, <- E in H by zlia. apply H; [|apply Hv].
  rewrite list_lookup_fmap, lookup_seqZ_lt by zlia. cbn [fmap option_fmap option_map]. f_equal. f_equal. zlia.
Qed.

Lemma lapic_regs_ok v w : regs_ok v -> regs_ok w -> regs_ok (lapic_regs_of_bytes (bytes_of_lapic_regs v) w).
Proof.
  intros Hv Hw r. destruct (decide (0 <= r < 1024 /\ r mod 4 = 0)) as [[H1 H2]|Hn].
  - rewrite lapic_regs_roundtrip by done. apply Hv.
  - unfold lapic_regs_of_bytes, sizeof_lapic_regs. cbn [vl_regs set_vl_regs].
    destruct (Z.leb_spec 0 r), (Z.ltb_spec r 1024), (Z.eqb_spec (r mod 4) 0); cbn [andb]; try apply Hw. lia.
Qed.

Lemma zlen_lapic v : zlen (bytes_of_lapic v) = sizeof_lapic /\ zlen (bytes_of_lapic_regs v) = sizeof_lapic_regs.
Proof.
  split; [done|]. rewrite regs_bytes_words, zlen_words. unfold zlen. by rewrite length_fmap, length_seqZ.
Qed.

(** ** One vcpu *)

(** What loading a local APIC does not change. *)
Record lapic_frame (h h' : hdom) : Prop := {
  lf_pics : exists t, h_pics h' = set_i8259_target t (h_pics h);
  lf_irq : h_irq h' = h_irq h;
  lf_ioapic : h_ioapic h' = h_ioapic h;
  lf_max : h_max_vcpus h' = h_max_vcpus h;
  lf_vcpus : length (h_vcpus h') = length (h_vcpus h)
}.

#[export] Instance lapic_frame_preorder : PreOrder lapic_frame.
Proof.
  split.
  - intros h. split; try done. exists (i8259_target (h_pics h)). by destruct (h_pics h).
  - intros h1 h2 h3 [[t A1] A2 A3 A4 A5] [[t' B1] B2 B3 B4 B5]. split; try congruence.
    exists t'. by rewrite B1, A1.
Qed.

Lemma lapic_frame_ok h h' : hw_ok h -> lapic_frame h h' -> Forall regs_ok (h_vcpus h') -> hw_ok h'.
Proof.
  intros [A1 A2 A3 A4 A5 A6] [[t B1] B2 B3 B4 B5] Hr. split; rewrite ?B1, ?B2, ?B3, ?B4; try done.
  unfold zlen. by rewrite B5.
Qed.

Section One.
Context (i : Z) (w : vcpu) (h : hdom) (Hi : 0 <= i) (Hw : h_vcpus h !! Z.to_nat i = Some w).

(** The domain with the vcpu [w'] in the place of [w], and another log. *)
Definition with_vcpu (w' : vcpu) (lg : list apic_event) : hdom :=
  set_apic_log lg (set_vcpus (<[Z.to_nat i := w']> (h_vcpus h)) h).

Lemma with_vcpu_lookup w' lg : h_vcpus (with_vcpu w' lg) !! Z.to_nat i = Some w'.
Proof. apply list_lookup_insert_eq. by apply lookup_lt_Some in Hw. Qed.
Lemma with_vcpu_same : with_vcpu w (h_log h) = h.
Proof. unfold with_vcpu. rewrite list_insert_id by done. by destruct h. Qed.
Lemma with_start {A} (m : SE hdom A) Q : wp m Q (with_vcpu w (h_log h)) -> wp m Q h.
Proof. by rewrite with_vcpu_same. Qed.

Lemma with_upd f w' lg (Q : unit -> hdom -> Prop) : Q tt (with_vcpu (f w') lg) -> wp (upd_vcpu i f) Q (with_vcpu w' lg).
Proof.
  intros HQ. unfold upd_vcpu. apply wp_modify. unfold with_vcpu in *. cbn [h_vcpus set_vcpus set_apic_log].
  assert (alter f (Z.to_nat i) (<[Z.to_nat i := w']> (h_vcpus h)) = <[Z.to_nat i := f w']> (h_vcpus h)) as ->.
  { apply list_eq. intros j. apply lookup_lt_Some in Hw as Hl. rewrite list_lookup_alter.
    case_decide as Hd; [subst j; by rewrite !list_lookup_insert_eq|by rewrite !list_lookup_insert_ne by done]. }
  done.
Qed.
Lemma with_emit e w' lg (Q : unit -> hdom -> Prop) : Q tt (with_vcpu w' (e :: lg)) -> wp (apic_emit e) Q (with_vcpu w' lg).
Proof. done. Qed.
Lemma with_the w' lg (Q : vcpu -> hdom -> Prop) : Q w' (with_vcpu w' lg) -> wp (the_vcpu i) Q (with_vcpu w' lg).
Proof. intros HQ. eapply wp_the_vcpu; [done|apply with_vcpu_lookup|done]. Qed.

Lemma with_frame w' lg : lapic_frame h (with_vcpu w' lg).
Proof. split; try done; [exists (i8259_target (h_pics h)); by destruct (h_pics h) eqn:E|apply length_insert]. Qed.
End One.

Lemma adjust_only h : hw_ok h -> wp vlapic_adjust_i8259_target (fun _ h' =>
  exists t lg, h' = set_apic_log (lg ++ h_log h) (set_pics (set_i8259_target t (h_pics h)) h)) h.
Proof.
  intros Hok. pose proof Hok as [A1 A2 A3 A4 A5 A6]. destruct (entry_exists h 0 Hok) as (e & He & _); [lia|].
  unfold vlapic_adjust_i8259_target. apply wp_bind, wp_get, wp_bind. eapply wp_elem; [lia|exact He|]. apply wp_bind.
  assert (forall v, wp (if bool_decide (i8259_target (h_pics h) = v) then ret tt
    else on_pics (modify (set_i8259_target v));; apic_emit (ApicRetarget v)) (fun _ h' =>
      exists t lg, h' = set_apic_log (lg ++ h_log h) (set_pics (set_i8259_target t (h_pics h)) h)) h) as H.
  { intros v. case_match.
    - apply wp_ret. exists (i8259_target (h_pics h)), []. by destruct h as [[] ? ? ? ? ?].
    - apply wp_bind, wp_zoom, wp_modify. by exists v, [ApicRetarget v]. }
  destruct (first_accepting e (h_vcpus h) 0) as [i|]; [by apply wp_ret|].
  pose proof (zlen_nonneg (h_vcpus h)). apply wp_vcpu_ptr; [lia|lia|]. apply H.
Qed.

Section Loads.
Context (ck : clock).

(** The deadline that is armed again is still in the future. *)
Definition deadline_after (v : vcpu) : Z :=
  let t := tdt_msr (vl_timer v) in
  if vlapic_lvtt_tdt v && (t <=? ck_tsc ck) then 0 else t.

Definition lvtt_vector (v : vcpu) : Z := Z.land (vlapic_get_reg v APIC_LVTT) APIC_VECTOR_MASK.

Definition rearmed (w : vcpu) (t : lapic_timer) : Prop :=
  timer_divisor t = timer_divisor (vl_timer w) /\ pt_irq t = lvtt_vector w /\ tdt_msr t = deadline_after w.

(** The timer that is created for the vcpu [v], if any: in TSC deadline mode
    with the time that is left to the deadline, 0 when it has passed; in the
    other modes with the period of the initial count. *)
Definition rearm_event (i : Z) (v : vcpu) : option apic_event :=
  let t := tdt_msr (vl_timer v) in
  let tmict := vlapic_get_reg v APIC_TMICT in
  if vlapic_lvtt_tdt v then
    if t =? 0 then None
    else Some (ApicPtCreate i (if ck_tsc ck <? t then ck_convert ck (t - ck_tsc ck) else 0) 0 (lvtt_vector v))
  else if tmict =? 0 then None
  else Some (ApicPtCreate i (timer_period v tmict) (if vlapic_lvtt_period v then timer_period v tmict else 0)
               (lvtt_vector v)).

(** The events [lg] since [h], with [ev] among them. *)
Definition logs (ev : option apic_event) (h h' : hdom) : Prop :=
  exists lg, h_log h' = lg ++ h_log h /\ forall e, ev = Some e -> e ∈ lg.

Lemma lvtt_vector_byte w : u8 (lvtt_vector w) = lvtt_vector w.
Proof.
  unfold lvtt_vector, u8, APIC_VECTOR_MASK. change 0xff with (Z.ones 8). rewrite Z.land_ones by lia.
  apply Z.mod_mod. lia.
Qed.

Lemma rearm_wp i w h : 0 <= i -> h_vcpus h !! Z.to_nat i = Some w -> timer_ok (vl_timer w) ->
  wp (lapic_rearm (ck_time ck) (ck_tsc ck) (ck_convert ck) i) (fun _ h' => exists t lg,
    h' = with_vcpu i h (set_vl_timer t w) lg /\ rearmed w t /\ logs (rearm_event i w) h h') h.
Proof.
  intros Hi Hw [_ [Ht _]]. rewrite <- (with_vcpu_same i w h Hw) at 1. unfold lapic_rearm.
  apply wp_bind. eapply with_the; [done|done|]. cbv zeta. fold (lvtt_vector w). apply wp_bind.
  unfold on_timer at 1. eapply with_upd; [done|]. set (w1 := set_vl_timer _ w).
  assert (forall x, vlapic_lvtt_tdt (set_vl_timer x w) = vlapic_lvtt_tdt w) as Hmode by done.
  assert (forall x w' lg, rearm_event i w = Some x -> logs (rearm_event i w) h (with_vcpu i h w' (x :: lg ++ h_log h))) as Hlog
    by (intros x w' lg ->; exists (x :: lg); split; [done|]; intros ? [= <-]; apply list_elem_of_here).
  assert (forall d p k, (forall t, timer_divisor (d t) = timer_divisor t /\ pt_irq (d t) = pt_irq t /\ tdt_msr (d t) = deadline_after w) ->
    rearm_event i w = Some (ApicPtCreate i p k (lvtt_vector w)) ->
    wp (on_timer i d;; lapic_pt_create (ck_time ck) i p k (lvtt_vector w)) (fun _ h' => exists t lg,
      h' = with_vcpu i h (set_vl_timer t w) lg /\ rearmed w t /\ logs (rearm_event i w) h h') (with_vcpu i h w1 (h_log h))) as Hcreate.
  { intros d p k Hd Hev. apply wp_bind. unfold on_timer at 1. eapply with_upd; [done|].
    unfold lapic_pt_create. apply wp_bind, with_emit, wp_bind. unfold on_timer. eapply with_upd; [done|].
    eapply with_upd; [done|]. rewrite lvtt_vector_byte. destruct (Hd (vl_timer w1)) as (H1 & H2 & H3).
    eexists _, _. split; [reflexivity|]. split; [by split_and!|by apply (Hlog _ _ [])]. }
  assert (rearm_event i w = None -> logs (rearm_event i w) h (with_vcpu i h w1 (h_log h))) as Hnone
    by (intros ->; by exists []).
  unfold rearm_event in Hcreate, Hnone, Hlog |- *.
  destruct (vlapic_lvtt_tdt w) eqn:Em.
  - cbv zeta in *. assert (vlapic_tdt_msr_get w = tdt_msr (vl_timer w)) as -> by (unfold vlapic_tdt_msr_get; by rewrite Em).
    apply wp_when; intros Hz.
    + apply negb_true_iff in Hz. rewrite Hz in *. unfold vlapic_tdt_msr_set. apply wp_bind. eapply with_the; [done|done|]. unfold w1 at 1. rewrite Hmode. cbn [negb].
      change (pt_irq (vl_timer w1)) with (lvtt_vector w). destruct (Z.ltb_spec (ck_tsc ck) (tdt_msr (vl_timer w))) as [Hlt|Hge].
      * apply Hcreate; [|done]. intros t. split_and!; [done|done|]. unfold deadline_after. rewrite Em.
        by rewrite (proj2 (Z.leb_gt _ _)) by lia.
      * assert (0 < tdt_msr (vl_timer w)) as Hpos by (apply Z.eqb_neq in Hz; lia).
        rewrite (proj2 (Z.ltb_lt 0 _)) by done. apply Hcreate; [|done]. intros t. split_and!; [done|done|].
        unfold deadline_after. rewrite Em. by rewrite (proj2 (Z.leb_le _ _)) by lia.
    + apply negb_false_iff in Hz. rewrite Hz in *. eexists _, _. split; [reflexivity|].
      split; [|by apply Hnone]. split_and!; [done|done|].
      unfold deadline_after. apply Z.eqb_eq in Hz. rewrite Hz. by destruct (_ && _).
  - cbv zeta in *. assert (deadline_after w = tdt_msr (vl_timer w)) as Hdl by (unfold deadline_after; by rewrite Em).
    apply wp_when; intros Hz.
    + apply negb_true_iff in Hz. rewrite Hz in *.
      unfold lapic_pt_create. apply wp_bind, with_emit, wp_bind. unfold on_timer. eapply with_upd; [done|].
      eapply with_upd; [done|]. rewrite lvtt_vector_byte. eexists _, _. split; [reflexivity|].
      split; [by split_and!|by apply (Hlog _ _ [])].
    + apply negb_false_iff in Hz. rewrite Hz in *. eexists _, _. split; [reflexivity|].
      split; [by split_and!|by apply Hnone].
Qed.

(** The vcpu [i] has become one with [R], and [ev] was asked for. *)
Definition vcpu_step (i : nat) (R : vcpu -> Prop) (ev : option apic_event) (h h' : hdom) : Prop :=
  lapic_frame h h' /\ hw_ok h' /\ logs ev h h' /\ exists w', R w' /\ h_vcpus h' = <[i := w']> (h_vcpus h).

Lemma vcpu_step_intro i (R : vcpu -> Prop) ev w' h h' : hw_ok h -> lapic_frame h h' -> R w' -> regs_ok w' ->
  logs ev h h' -> h_vcpus h' = <[i := w']> (h_vcpus h) -> vcpu_step i R ev h h'.
Proof.
  intros Hok Hf HR Hr Hlg Hv. split; [done|]. split; [|split; [done|by exists w']]. apply (lapic_frame_ok h); [done|done|].
  rewrite Hv. apply Forall_insert; [apply Hok|done].
Qed.

Definition hidden_loaded (v w w' : vcpu) : Prop := w' = lapic_of_bytes (bytes_of_lapic v) w.
Definition regs_loaded (v w w' : vcpu) : Prop :=
  let w1 := lapic_regs_of_bytes (bytes_of_lapic_regs v) w in
  exists t, w' = set_vl_timer t w1 /\ rearmed w1 t.
Definition regs_event (i : nat) (v w : vcpu) : option apic_event :=
  rearm_event (Z.of_nat i) (lapic_regs_of_bytes (bytes_of_lapic_regs v) w).

Lemma load_hidden_wp i v w h : hw_ok h -> h_vcpus h !! i = Some w ->
  wp (load_hidden (Z.of_nat i) (bytes_of_lapic v)) (fun _ => vcpu_step i (hidden_loaded v w) None h) h.
Proof.
  intros Hok Hw. unfold load_hidden. pose proof Hw as Hw0. rewrite <- (Nat2Z.id i) in Hw0.
  apply (with_start (Z.of_nat i) w h Hw0). apply wp_bind. eapply with_upd; [done|]. apply with_emit.
  eapply vcpu_step_intro; [done|by apply with_frame|reflexivity| |by eexists [_]|unfold with_vcpu; by rewrite Nat2Z.id].
  intros r. apply (Forall_lookup_1 _ _ _ _ (hw_regs _ Hok) Hw).
Qed.

Lemma load_regs_wp i v w h : hw_ok h -> h_vcpus h !! i = Some w -> regs_ok v -> timer_ok (vl_timer w) ->
  wp (load_regs ck (Z.of_nat i) (bytes_of_lapic_regs v)) (fun _ => vcpu_step i (regs_loaded v w) (regs_event i v w) h) h.
Proof.
  intros Hok Hw Hv Ht. unfold load_regs. pose proof Hw as Hw0. rewrite <- (Nat2Z.id i) in Hw0.
  set (w1 := lapic_regs_of_bytes (bytes_of_lapic_regs v) w).
  assert (regs_ok w1) as Hr1 by (apply lapic_regs_ok; [done|apply (Forall_lookup_1 _ _ _ _ (hw_regs _ Hok) Hw)]).
  apply (with_start (Z.of_nat i) w h Hw0). apply wp_bind. eapply with_upd; [done|]. fold w1.
  set (h1 := with_vcpu (Z.of_nat i) h w1 (h_log h)).
  destruct (vcpu_step_intro i (fun w' => w' = w1) None w1 h h1 Hok) as (F1 & Hok1 & _);
    [by apply with_frame|done|done|by exists []|unfold h1, with_vcpu; by rewrite Nat2Z.id|].
  apply wp_bind. eapply wp_mono; [by apply adjust_only|]. intros [] h2 (t & lg & ->). set (h2 := set_apic_log _ _).
  assert (h_vcpus h2 !! Z.to_nat (Z.of_nat i) = Some w1) as Hw2 by (by apply (with_vcpu_lookup (Z.of_nat i) w h)).
  eapply wp_mono; [apply (rearm_wp (Z.of_nat i) w1 h2); [lia|exact Hw2|exact Ht]|].
  intros [] h3 (tm & lg' & -> & Hre & lg2 & L1 & L2).
  apply (vcpu_step_intro i _ _ (set_vl_timer tm w1)); [done| |by exists tm|done| |].
  - etrans; [exact F1|]. etrans; [|apply (with_frame (Z.of_nat i) h2)]. split; try done. by exists t.
  - exists (lg2 ++ lg). split; [rewrite L1; unfold h2; cbn [h_log set_apic_log h1 with_vcpu]; by rewrite app_assoc|].
    intros e He. apply elem_of_app. left. by apply L2.
  - unfold with_vcpu, h2, h1. cbn [h_vcpus set_vcpus set_apic_log set_pics with_vcpu]. rewrite Nat2Z.id.
    apply list_insert_insert_eq.
Qed.

(** ** All vcpus *)

Section All.
Context (part : Z -> vcpu -> SE hdom unit) (ready : vcpu -> vcpu -> Prop) (R : vcpu -> vcpu -> vcpu -> Prop)
  (ev : nat -> vcpu -> vcpu -> option apic_event).
Hypothesis (Hpart : forall i v w h, hw_ok h -> h_vcpus h !! i = Some w -> ready v w ->
  wp (part (Z.of_nat i) v) (fun _ => vcpu_step i (R v w) (ev i v w) h) h).

Fixpoint load_all (l : list vcpu) (i : nat) : SE hdom unit :=
  match l with
  | [] => ret tt
  | v :: l => part (Z.of_nat i) v;; load_all l (S i)
  end.

Lemma load_all_wp l : forall i h, hw_ok h -> (i + length l = length (h_vcpus h))%nat ->
  (forall j v w, l !! j = Some v -> h_vcpus h !! (i + j)%nat = Some w -> ready v w) ->
  wp (load_all l i) (fun _ h' => lapic_frame h h' /\ hw_ok h' /\
    (forall j, (j < i)%nat -> h_vcpus h' !! j = h_vcpus h !! j) /\
    (forall j v w, l !! j = Some v -> h_vcpus h !! (i + j)%nat = Some w ->
       exists w', h_vcpus h' !! (i + j)%nat = Some w' /\ R v w w') /\
    exists lg, h_log h' = lg ++ h_log h /\ forall j v w e, l !! j = Some v -> h_vcpus h !! (i + j)%nat = Some w ->
      ev (i + j) v w = Some e -> e ∈ lg) h.
Proof.
  induction l as [|v l IH]; intros i h Hok Hl Hready; cbn [load_all].
  { apply wp_ret. split; [reflexivity|]. split_and!; [done|done|done|]. by exists []. }
  simpl in Hl. destruct (lookup_lt_is_Some_2 (h_vcpus h) i ltac:(lia)) as [w Hw].
  apply wp_bind. eapply wp_mono; [apply (Hpart i v w); [done|done|]|].
  { apply (Hready 0%nat); [done|]. by rewrite Nat.add_0_r. }
  intros [] h1 (F1 & Hok1 & (lg1 & L1 & L2) & w1 & Hw1 & E1).
  assert (forall j, (S i <= j)%nat -> h_vcpus h1 !! j = h_vcpus h !! j) as Hrest
    by (intros j Hj; rewrite E1; apply list_lookup_insert_ne; lia).
  eapply wp_mono; [apply (IH (S i) h1); [done|rewrite (lf_vcpus _ _ F1); lia|]|].
  { intros j v' w' Hj Hw'. apply (Hready (S j)); [done|]. rewrite <- Hw', <- Hrest by lia. f_equal. lia. }
  intros [] h2 (F2 & Hok2 & Hlow & Hhigh & lg2 & L3 & L4). split; [by etrans|]. split; [done|]. split_and!.
  - intros j Hj. rewrite Hlow, E1 by lia. apply list_lookup_insert_ne. lia.
  - intros [|j] v' w' Hj Hw'.
    + rewrite Nat.add_0_r in *. simplify_eq/=. exists w1. split; [|done]. rewrite Hlow, E1 by lia.
      apply list_lookup_insert_eq. by apply lookup_lt_Some in Hw.
    + replace (i + S j)%nat with (S i + j)%nat in * by lia. apply (Hhigh j v' w'); [done|].
      by rewrite Hrest by lia.
  - exists (lg2 ++ lg1). split; [rewrite L3, L1; apply app_assoc|].
    intros [|j] v' w' e Hj Hw' He; apply elem_of_app.
    + right. rewrite Nat.add_0_r in *. simplify_eq/=. by apply L2.
    + left. replace (i + S j)%nat with (S i + j)%nat in * by lia. apply (L4 j v' w'); [done| |done].
      by rewrite Hrest by lia.
Qed.
End All.

(** ** The local APIC after both records *)

(** The registers, the base address, the enabled state, the divisor and the
    deadline of [v]; a deadline that has passed is cleared. *)
Record lapic_restored (v v' : vcpu) : Prop := {
  lr_regs : forall r, 0 <= r < 1024 -> r mod 4 = 0 -> vl_regs v' r = vl_regs v r;
  lr_base : vl_apic_base_msr v' = vl_apic_base_msr v;
  lr_disabled : vl_disabled v' = vl_disabled v;
  lr_divisor : timer_divisor (vl_timer v') = timer_divisor (vl_timer v);
  lr_irq : pt_irq (vl_timer v') = lvtt_vector v;
  lr_deadline : tdt_msr (vl_timer v') = deadline_after v
}.

Lemma loaded_restored n v w w1 w2 : lapic_ok n v -> regs_ok v -> hidden_loaded v w w1 -> regs_loaded v w1 w2 ->
  lapic_restored v w2.
Proof.
  intros Hv Hr -> (t & -> & R1 & R2 & R3). destruct (lapic_roundtrip n v w Hv) as (H1 & H2 & H3 & H4 & _).
  set (w1 := lapic_of_bytes (bytes_of_lapic v) w) in *. set (w1' := lapic_regs_of_bytes _ w1) in *.
  assert (forall r, 0 <= r < 1024 -> r mod 4 = 0 -> vl_regs w1' r = vl_regs v r) as Hregs
    by (intros r ? ?; by apply lapic_regs_roundtrip).
  assert (vlapic_get_reg w1' APIC_LVTT = vlapic_get_reg v APIC_LVTT) as Hlvtt by (by apply Hregs).
  split; try done.
  - cbn [vl_timer set_vl_timer]. by rewrite R1.
  - cbn [vl_timer set_vl_timer]. rewrite R2. unfold lvtt_vector. by rewrite Hlvtt.
  - cbn [vl_timer set_vl_timer]. rewrite R3. unfold deadline_after, vlapic_lvtt_tdt, vlapic_timer_mode.
    rewrite Hlvtt. change (vl_timer w1') with (vl_timer w1). by rewrite H4.
Qed.

(** The timer is the one [v] had set. *)
Lemma loaded_event n i v w w1 : lapic_ok n v -> regs_ok v -> hidden_loaded v w w1 ->
  regs_event i v w1 = rearm_event (Z.of_nat i) v.
Proof.
  intros Hv Hr ->. destruct (lapic_roundtrip n v w Hv) as (_ & _ & H3 & H4 & _). unfold regs_event.
  set (w1 := lapic_of_bytes (bytes_of_lapic v) w) in *. set (w1' := lapic_regs_of_bytes _ w1) in *.
  assert (forall r, 0 <= r < 1024 -> r mod 4 = 0 -> vlapic_get_reg w1' r = vlapic_get_reg v r) as Hregs
    by (intros r ? ?; by apply lapic_regs_roundtrip).
  unfold rearm_event, lvtt_vector, timer_period, vlapic_lvtt_tdt, vlapic_lvtt_period, vlapic_timer_mode.
  change (vl_timer w1') with (vl_timer w1). by rewrite H3, H4, !Hregs.
Qed.
End Loads.
