(* ===== verification/HvmIrqSaveProps.v ===== *)
(** * The handlers of the interrupt hardware fulfil the contract of the stream *)

From stdpp Require Import base list numbers.
From Stdlib Require Import ZArith Lia Bool.
From S2P Require Import Prelude Machine Vpic VpicInv VpicOps HvmState Vlapic Vioapic HvmIrq VioapicInv.
From S2P Require Import VioapicInv VioapicOps HvmIrqOps HvmIrqRun VlapicRegs HvmLapic HvmIrqSystem HvmIrqProps.
From S2P Require Import HvmSave HvmStream HvmIrqSave HvmIrqRestore.

Open Scope Z_scope.
Open Scope se_scope.

(** ** The contract of the stream *)

(** A vcpu that exists. *)
Definition vcpu_checked (i : Z) (m : SE hdom unit) : SE hdom unit :=
  h <- get;;
  fail_if ((h_max_vcpus h <=? i) || (zlen (h_vcpus h) <=? i)) (- EINVAL);;
  m.

(** What a record does to the hardware it is loaded into. *)
Definition hw_part (ck : clock) (tc : Z) (r : Z * list Z) : SE hdom unit :=
  if tc =? PIC then on_pics (upd_pic (Z.to_nat (fst r)) (fun _ => vpic_of_bytes (snd r)))
  else if tc =? IOAPIC then on_ioapic (fun _ => vioapic_of_bytes (snd r))
  else if tc =? LAPIC then vcpu_checked (fst r) (load_hidden (fst r) (snd r))
  else if tc =? LAPIC_REGS then vcpu_checked (fst r) (load_regs ck (fst r) (snd r))
  else if tc =? PCI_IRQ then load_pci_wires (snd r)
  else if tc =? ISA_IRQ then load_isa_wires (snd r)
  else load_link_routes (snd r).

Definition irq_len (tc : Z) : Z :=
  if tc =? IOAPIC then sizeof_vioapic else if tc =? LAPIC then sizeof_lapic
  else if tc =? LAPIC_REGS then sizeof_lapic_regs else if tc =? PCI_IRQ then 16 else 8.

(** A record for each vcpu. *)
Definition vcpu_recs (bytes : vcpu -> list Z) (l : list vcpu) : list (Z * list Z) :=
  imap (fun i v => (Z.of_nat i, bytes v)) l.

Definition irq_recs (tc : Z) (d : sdom) : list (Z * list Z) :=
  let h := sd_hw d in
  if tc =? PIC then [(0, bytes_of_vpic (pic0 (h_pics h))); (1, bytes_of_vpic (pic1 (h_pics h)))]
  else if tc =? IOAPIC then [(0, bytes_of_vioapic (h_ioapic h))]
  else if tc =? LAPIC then vcpu_recs bytes_of_lapic (h_vcpus h)
  else if tc =? LAPIC_REGS then vcpu_recs bytes_of_lapic_regs (h_vcpus h)
  else if tc =? PCI_IRQ then [(0, le_bytes 16 (pci_intx (h_irq h)))]
  else if tc =? ISA_IRQ then [(0, le_bytes 8 (isa_irq (h_irq h)))]
  else if tc =? PCI_LINK then [(0, route (h_irq h) ++ sd_link_pad d)]
  else [].

Definition irq_type (tc : Z) : bool :=
  (tc =? PIC) || (tc =? IOAPIC) || (tc =? LAPIC) || (tc =? LAPIC_REGS) || (tc =? PCI_IRQ) ||
  (tc =? ISA_IRQ) || (tc =? PCI_LINK).

Definition irq_load1 (ck : clock) (tc : Z) (r : Z * list Z) (d : sdom) : sdom :=
  let d := if tc =? PCI_LINK then set_link_pad (drop 4 (snd r)) d else d in
  set_hw (fst (hw_part ck tc r (sd_hw d))) d.
Definition irq_loadable (ck : clock) (tc : Z) (r : Z * list Z) (d : sdom) : Prop :=
  irq_type tc = true /\ zlen (snd r) = irq_len tc /\ (tc = PIC -> 0 <= fst r <= 1) /\
  snd (hw_part ck tc r (sd_hw d)) = Ok tt.
Definition irq_sinv (d : sdom) : Prop :=
  callback_via_asserted (h_irq (sd_hw d)) = false /\ length (redirtbl (h_ioapic (sd_hw d))) = 48%nat /\
  length (route (h_irq (sd_hw d))) = 4%nat /\ length (sd_link_pad d) = 4%nat /\
  length (h_vcpus (sd_hw d)) = length (sd_down d) /\ (length (sd_down d) <= 128)%nat.

Section Laws.
Context (pit0 : bool) (ck : clock).

Definition irq_handler (tc : Z) : sr_handler (D := sdom) :=
  if tc =? PIC then registered sizeof_vpic vpic_save vpic_load 2
  else if tc =? IOAPIC then registered sizeof_vioapic ioapic_save ioapic_load 1
  else if tc =? LAPIC then registered_vcpu sizeof_lapic lapic_save_hidden lapic_load_hidden
  else if tc =? LAPIC_REGS then registered_vcpu sizeof_lapic_regs lapic_save_regs (lapic_load_regs ck)
  else if tc =? PCI_IRQ then registered 16 (irq_save_pci pit0) irq_load_pci 1
  else if tc =? ISA_IRQ then registered 8 irq_save_isa irq_load_isa 1
  else registered 8 irq_save_link irq_load_link 1.

Lemma irq_handlers_lookup i h : irq_handlers pit0 ck !! i = Some h ->
  (i < 19)%nat /\ h = if irq_type (Z.of_nat i) then irq_handler (Z.of_nat i) else no_handler.
Proof.
  intros H. assert (length (irq_handlers pit0 ck) = 19%nat) as Hl by reflexivity.
  apply lookup_lt_Some in H as Hi. rewrite Hl in Hi. split; [done|].
  do 19 (destruct i as [|i]; [by injection H as <-|]). lia.
Qed.

Lemma irq_type_cases tc : irq_type tc = true ->
  tc = PIC \/ tc = IOAPIC \/ tc = LAPIC \/ tc = LAPIC_REGS \/ tc = PCI_IRQ \/ tc = ISA_IRQ \/ tc = PCI_LINK.
Proof. unfold irq_type, PIC, IOAPIC, LAPIC, LAPIC_REGS, PCI_IRQ, ISA_IRQ, PCI_LINK. lia. Qed.

Lemma irq_recs_none tc d : irq_type tc = false -> irq_recs tc d = [].
Proof.
  unfold irq_type, irq_recs. intros H. do 5 apply orb_false_iff in H as [H ->]. by apply orb_false_iff in H as [-> ->].
Qed.

Lemma elem_vcpu_recs bytes l r : r ∈ vcpu_recs bytes l ->
  exists i v, r = (Z.of_nat i, bytes v) /\ l !! i = Some v.
Proof.
  intros Hr. apply list_elem_of_lookup in Hr as [i Hi]. unfold vcpu_recs in Hi. rewrite list_lookup_imap in Hi.
  destruct (l !! i) as [v|] eqn:E; [|done]. injection Hi as <-. by exists i, v.
Qed.

(** Unfold the records of one type. *)
Ltac irq_cases Ht := destruct (irq_type_cases _ Ht) as [->|[->|[->|[->|[->|[->| ->]]]]]].

(** A record of a type that has one. *)
Lemma zlen_irq_rec tc d r : irq_sinv d -> r ∈ irq_recs tc d -> zlen (snd r) = irq_len tc.
Proof.
  intros (_ & H0 & H1 & H2 & _) Hr. destruct (irq_type tc) eqn:Ht; [|rewrite irq_recs_none in Hr by done; by apply elem_of_nil in Hr].
  irq_cases Ht; cbn [irq_recs] in Hr.
  - by apply elem_of_cons in Hr as [->| ->%list_elem_of_singleton].
  - apply list_elem_of_singleton in Hr as ->. by apply zlen_vioapic.
  - apply elem_vcpu_recs in Hr as (i & v & -> & _). exact (proj1 (zlen_lapic v)).
  - apply elem_vcpu_recs in Hr as (i & v & -> & _). exact (proj2 (zlen_lapic v)).
  - by apply list_elem_of_singleton in Hr as ->.
  - by apply list_elem_of_singleton in Hr as ->.
  - apply list_elem_of_singleton in Hr as ->. cbn [snd]. unfold zlen. rewrite length_app, H1, H2. done.
Qed.

(** The records of vcpus from number [i] on. *)
Lemma save_vcpus_ctx d tc bytes l : code_ok tc 0 -> forall i pre post, Z.of_nat (i + length l) < 2 ^ 16 -> small pre post ->
  let bs := stream_bytes (pair tc <$> imap (fun j v => (Z.of_nat (i + j), bytes v)) l) in zlen bs <= zlen post ->
  save_vcpus tc bytes l (Z.of_nat i) (d, ctx pre post) = ((d, ctx (pre ++ bs) (after_bytes bs post)), Ok tt).
Proof.
  intros [Htc _]. induction l as [|v l IH]; intros i pre post Hi Hs; cbn [save_vcpus].
  { cbv zeta. simpl. intros _. by rewrite app_nil_r. }
  cbn [imap fmap list_fmap stream_bytes flat_map]. unfold entry_bytes at 1. cbn [fst snd]. rewrite Nat.add_0_r.
  set (b1 := record_bytes tc (Z.of_nat i, bytes v)).
  assert (imap ((fun j v => (Z.of_nat (i + j), bytes v)) ∘ S) l = imap (fun j v => (Z.of_nat (S i + j), bytes v)) l) as E
    by (apply imap_ext; intros j w _; simpl; do 2 f_equal; lia).
  fold (@stream_bytes (pair tc <$> imap ((fun j v => (Z.of_nat (i + j), bytes v)) ∘ S) l)). rewrite E.
  cbv zeta. rewrite zlen_app. intros Hr. simpl in Hi.
  assert (zlen b1 = 8 + zlen (bytes v)) as Hb1 by apply zlen_record.
  match type of Hr with zlen b1 + zlen ?b <= _ => pose proof (zlen_nonneg b) end.
  unfold bind. rewrite save_one; [|split; cbn [fst]; [done|lia]|done|lia]. fold b1.
  replace (Z.of_nat i + 1) with (Z.of_nat (S i)) by lia.
  rewrite (IH (S i)); [|lia|apply small_after; [done|lia]|rewrite zlen_after; lia].
  by rewrite after_after, <- app_assoc.
Qed.

Lemma save_pic_ctx d i v pre post : code_ok PIC i -> small pre post -> 16 <= zlen post ->
  let bs := record_bytes PIC (i, bytes_of_vpic v) in
  save_pic i v (d, ctx pre post) = ((d, ctx (pre ++ bs) (after_bytes bs post)), Ok tt).
Proof. intros Hc Hs Hr. unfold save_pic, catch. by rewrite save_one. Qed.

Lemma vpic_save_law d pre post : small pre post ->
  let bs := stream_bytes (pair PIC <$> irq_recs PIC d) in zlen bs <= zlen post ->
  vpic_save (d, ctx pre post) = ((d, ctx (pre ++ bs) (after_bytes bs post)), Ok tt).
Proof.
  intros Hs bs Hr. assert (zlen bs = 32) as Hz by done. unfold vpic_save. unfold bind at 1, gets. cbn [fst].
  set (p := h_pics (sd_hw d)). unfold bind. rewrite save_pic_ctx by (done || lia).
  set (b1 := record_bytes PIC (0, bytes_of_vpic (pic0 p))). assert (zlen b1 = 16) as H1 by done.
  rewrite save_pic_ctx; [|done|apply small_after; [done|lia]|rewrite zlen_after; lia].
  unfold bs. change (irq_recs PIC d) with [(0, bytes_of_vpic (pic0 p)); (1, bytes_of_vpic (pic1 p))].
  cbn [fmap list_fmap stream_bytes flat_map]. unfold entry_bytes. cbn [fst snd]. fold b1.
  by rewrite app_nil_r, <- app_assoc, after_after.
Qed.

(** The bytes of a type with one record. *)
Lemma one_record tc d r : irq_recs tc d = [r] -> stream_bytes (pair tc <$> irq_recs tc d) = record_bytes tc r.
Proof. intros ->. cbn [fmap list_fmap stream_bytes flat_map]. apply app_nil_r. Qed.

Lemma irq_save_law d tc pre post save : sr_save (irq_handler tc) = Some save -> irq_type tc = true ->
  irq_sinv d -> small pre post ->
  let bs := stream_bytes (pair tc <$> irq_recs tc d) in zlen bs <= zlen post ->
  save (d, ctx pre post) = ((d, ctx (pre ++ bs) (after_bytes bs post)), Ok tt).
Proof.
  intros Hsave Ht Hd Hs. pose proof Hd as (Ha & _).
  irq_cases Ht; injection Hsave as <-.
  - by apply vpic_save_law.
  - rewrite (one_record IOAPIC d _ eq_refl). cbv zeta. rewrite zlen_record. cbn [snd]. intros Hr.
    unfold ioapic_save, bind, gets. cbn [fst]. by apply save_one.
  - intros bs Hr. destruct Hd as (_ & _ & _ & _ & Hl & Hmax).
    exact (save_vcpus_ctx d LAPIC bytes_of_lapic (h_vcpus (sd_hw d)) ltac:(done) 0 pre post ltac:(rewrite Hl; lia) Hs Hr).
  - intros bs Hr. destruct Hd as (_ & _ & _ & _ & Hl & Hmax).
    exact (save_vcpus_ctx d LAPIC_REGS bytes_of_lapic_regs (h_vcpus (sd_hw d)) ltac:(done) 0 pre post ltac:(rewrite Hl; lia) Hs Hr).
  - rewrite (one_record PCI_IRQ d _ eq_refl). cbv zeta. rewrite zlen_record. cbn [snd]. intros Hr.
    unfold irq_save_pci. unfold bind at 1, gets at 1. cbn [fst]. rewrite Ha. cbn [andb when].
    unfold bind at 1, ret at 1. unfold bind at 1, gets. cbn [fst].
    unfold bind at 1. rewrite save_entry_dom by done. done.
  - rewrite (one_record ISA_IRQ d _ eq_refl). cbv zeta. rewrite zlen_record. cbn [snd]. intros Hr.
    unfold irq_save_isa, bind, gets. cbn [fst]. by apply save_one.
  - rewrite (one_record PCI_LINK d _ eq_refl). cbv zeta. rewrite zlen_record. cbn [snd]. intros Hr.
    unfold irq_save_link, bind, gets. cbn [fst]. by apply save_one.
Qed.

Lemma load_or_einval_ctx tc bs d pre post inst : code_ok tc inst ->
  small pre (record_bytes tc (inst, bs) ++ post) ->
  load_or_einval tc (zlen bs) (d, ctx pre (record_bytes tc (inst, bs) ++ post)) =
    ((d, ctx (pre ++ record_bytes tc (inst, bs)) post), Ok bs).
Proof.
  intros Hc Hs. unfold load_or_einval, catch, on_ctxt, zoom. cbn [snd]. unfold hvm_load_entry. by rewrite load_entry_ctx by done.
Qed.

Lemma on_hw_ok (m : SE hdom unit) d c : snd (m (sd_hw d)) = Ok tt ->
  on_hw m (d, c) = ((set_hw (fst (m (sd_hw d))) d, c), Ok tt).
Proof. unfold on_hw, zoom. cbn [fst snd]. destruct (m (sd_hw d)) as [h r]. cbn [fst snd]. by intros ->. Qed.

Lemma load_instance_ctx d tc r pre post : code_ok tc (fst r) -> small pre (record_bytes tc r ++ post) ->
  on_ctxt (D := sdom) hvm_load_instance (d, ctx pre (record_bytes tc r ++ post)) =
    ((d, ctx pre (record_bytes tc r ++ post)), Ok (fst r)).
Proof.
  intros Hc Hs. pose proof (next_descriptor d pre tc r post Hc Hs) as H. revert H.
  unfold on_ctxt, zoom, hvm_load_instance. cbn [fst snd]. unfold bind, get. change (cur (ctx pre _)) with (zlen pre).
  destruct (descriptor_at _ _) as [c [a|e|]]; intros [= -> ->]; done.
Qed.

(** The vcpu of the record. *)
Lemma load_vcpuid_ctx d tc r pre post m : code_ok tc (fst r) -> small pre (record_bytes tc r ++ post) ->
  snd (vcpu_checked (fst r) m (sd_hw d)) = Ok tt ->
  load_vcpuid (d, ctx pre (record_bytes tc r ++ post)) = ((d, ctx pre (record_bytes tc r ++ post)), Ok (fst r)) /\
  vcpu_checked (fst r) m (sd_hw d) = m (sd_hw d).
Proof.
  intros Hc Hs. unfold vcpu_checked, load_vcpuid. unfold bind at 1 2, get.
  destruct ((h_max_vcpus (sd_hw d) <=? fst r) || (zlen (h_vcpus (sd_hw d)) <=? fst r)) eqn:E; cbn [fail_if]; [done|].
  intros _. split; [|unfold bind; by rewrite E]. unfold bind at 1. rewrite load_instance_ctx by done. unfold bind, gets. cbn [fst].
  by rewrite E.
Qed.

Lemma irq_load_law d tc r pre post load : sr_load (irq_handler tc) = Some load ->
  irq_loadable ck tc r d -> code_ok tc (fst r) -> small pre (record_bytes tc r ++ post) ->
  load (d, ctx pre (record_bytes tc r ++ post)) =
    ((irq_load1 ck tc r d, ctx (pre ++ record_bytes tc r) post), Ok tt).
Proof.
  destruct r as [inst bs]. intros Hload (Ht & Hl & Hi & Hok) Hc Hs. cbn [fst snd] in *.
  irq_cases Ht; injection Hload as <-; cbn in Hl.
  - unfold vpic_load. unfold bind at 1. rewrite load_instance_ctx by done. cbn [fst].
    specialize (Hi eq_refl). rewrite (proj2 (Z.ltb_ge 1 inst)) by lia. cbn [fail_if].
    unfold bind at 1, ret at 1. unfold bind at 1. unfold sizeof_vpic. rewrite <- Hl, load_or_einval_ctx by done.
    by apply on_hw_ok.
  - unfold ioapic_load. unfold bind at 1, on_ctxt, zoom. cbn [snd].
    unfold hvm_load_entry. rewrite <- Hl, load_entry_ctx by done. by apply on_hw_ok.
  - destruct (load_vcpuid_ctx d LAPIC (inst, bs) pre post (load_hidden inst bs) Hc Hs Hok) as [E1 E2].
    change (hw_part ck LAPIC (inst, bs) (sd_hw d) = load_hidden inst bs (sd_hw d)) in E2. rewrite E2 in Hok.
    unfold lapic_load_hidden. unfold bind at 1. rewrite E1. unfold bind at 1, catch, on_ctxt, zoom. cbn [fst snd].
    unfold hvm_load_entry_zeroextend. rewrite <- Hl, load_entry_ctx by done. unfold irq_load1.
    change (LAPIC =? PCI_LINK) with false. cbv zeta iota. rewrite E2. by apply on_hw_ok.
  - destruct (load_vcpuid_ctx d LAPIC_REGS (inst, bs) pre post (load_regs ck inst bs) Hc Hs Hok) as [E1 E2].
    change (hw_part ck LAPIC_REGS (inst, bs) (sd_hw d) = load_regs ck inst bs (sd_hw d)) in E2. rewrite E2 in Hok.
    unfold lapic_load_regs. unfold bind at 1. rewrite E1. unfold bind at 1. cbn [fst].
    rewrite <- Hl, load_or_einval_ctx by done. unfold irq_load1.
    change (LAPIC_REGS =? PCI_LINK) with false. cbv zeta iota. rewrite E2. by apply on_hw_ok.
  - unfold irq_load_pci. unfold bind at 1. rewrite <- Hl, load_or_einval_ctx by done. by apply on_hw_ok.
  - unfold irq_load_isa. unfold bind at 1. rewrite <- Hl, load_or_einval_ctx by done. by apply on_hw_ok.
  - unfold irq_load_link. unfold bind at 1. rewrite <- Hl, load_or_einval_ctx by done.
    unfold bind, modify. cbn [fst snd]. by apply on_hw_ok.
Qed.

Lemma irq_codes d tc r : irq_sinv d -> irq_type tc = true -> r ∈ irq_recs tc d ->
  1 <= tc <= HVM_SAVE_CODE_MAX /\ code_ok tc (fst r) /\ is_Some (sr_load (irq_handler tc)).
Proof.
  intros (_ & _ & _ & _ & Hl & Hmax) Ht Hr.
  assert (forall (i : nat) v, h_vcpus (sd_hw d) !! i = Some v -> 0 <= Z.of_nat i < 2 ^ 16) as Hcpu
    by (intros i v Hi; apply lookup_lt_Some in Hi; lia).
  irq_cases Ht; cbn [irq_recs] in Hr; try (by apply list_elem_of_singleton in Hr as ->).
  - by apply elem_of_cons in Hr as [->| ->%list_elem_of_singleton].
  - apply elem_vcpu_recs in Hr as (i & v & -> & Hi). split; [done|]. split; [|done]. split; [done|]. by apply (Hcpu i v).
  - apply elem_vcpu_recs in Hr as (i & v & -> & Hi). split; [done|]. split; [|done]. split; [done|]. by apply (Hcpu i v).
Qed.

(** The size of records of equal length. *)
Lemma zlen_equal tc k l : (forall r, r ∈ l -> zlen (snd r) = k) ->
  zlen (stream_bytes (pair tc <$> l)) = zlen l * (k + sizeof_descriptor).
Proof.
  induction l as [|r l IH]; intros Hl; [done|]. cbn [fmap list_fmap stream_bytes flat_map].
  fold (stream_bytes (pair tc <$> l)). rewrite zlen_app. unfold entry_bytes. cbn [fst snd].
  rewrite zlen_record, (Hl r (list_elem_of_here _ _)). unfold list_fmap in IH.
  setoid_rewrite IH; [|intros r' Hr'; apply Hl; by apply list_elem_of_further].
  unfold zlen, sizeof_descriptor. simpl length. lia.
Qed.

Lemma irq_size d tc : irq_sinv d -> irq_type tc = true ->
  zlen (stream_bytes (pair tc <$> irq_recs tc d)) <= type_size d (irq_handler tc).
Proof.
  intros Hd Ht. pose proof (fun r => zlen_irq_rec tc d r Hd) as Hz.
  irq_cases Ht; [done|..].
  - by rewrite (one_record IOAPIC d _ eq_refl), zlen_record, (Hz _ (list_elem_of_here _ _)).
  - rewrite (zlen_equal LAPIC sizeof_lapic) by exact Hz. destruct Hd as (_ & _ & _ & _ & Hl & _).
    change (type_size d (irq_handler LAPIC)) with (Z.of_nat (length (sd_down d)) * (sizeof_lapic + sizeof_descriptor)).
    unfold zlen. change (length (irq_recs LAPIC d)) with (length (vcpu_recs bytes_of_lapic (h_vcpus (sd_hw d)))).
    unfold vcpu_recs. rewrite length_imap, Hl. done.
  - rewrite (zlen_equal LAPIC_REGS sizeof_lapic_regs) by exact Hz. destruct Hd as (_ & _ & _ & _ & Hl & _).
    change (type_size d (irq_handler LAPIC_REGS)) with (Z.of_nat (length (sd_down d)) * (sizeof_lapic_regs + sizeof_descriptor)).
    unfold zlen. change (length (irq_recs LAPIC_REGS d)) with (length (vcpu_recs bytes_of_lapic_regs (h_vcpus (sd_hw d)))).
    unfold vcpu_recs. rewrite length_imap, Hl. done.
  - by rewrite (one_record PCI_IRQ d _ eq_refl), zlen_record, (Hz _ (list_elem_of_here _ _)).
  - by rewrite (one_record ISA_IRQ d _ eq_refl), zlen_record, (Hz _ (list_elem_of_here _ _)).
  - by rewrite (one_record PCI_LINK d _ eq_refl), zlen_record, (Hz _ (list_elem_of_here _ _)).
Qed.

Lemma irq_law i h : irq_handlers pit0 ck !! i = Some h ->
  handler_law irq_sinv irq_recs (irq_loadable ck) (irq_load1 ck) (Z.of_nat i) h.
Proof.
  intros Hh. apply irq_handlers_lookup in Hh as [Hi ->]. set (tc := Z.of_nat i).
  destruct (irq_type tc) eqn:Ht.
  - split.
    + intros d pre post save Hsave Hd Hs. exact (irq_save_law d tc pre post save Hsave Ht Hd Hs).
    + intros d. irq_cases Ht; done.
    + intros d Hd. by apply irq_size.
    + intros d r Hd Hr. by apply (irq_codes d).
    + intros d pre r post load. apply irq_load_law.
  - split; [done|intros d _; by apply irq_recs_none|intros d _; by rewrite irq_recs_none|
      intros d r _; rewrite irq_recs_none by done; by intros ?%elem_of_nil|done].
Qed.

#[export] Instance irq_stream : StreamLaws (irq_handlers pit0 ck) := {|
  sl_inv := irq_sinv; sl_recs := irq_recs; sl_loadable := irq_loadable ck; sl_load := irq_load1 ck;
  sl_law := irq_law
|}.
End Laws.

(** * The round trip of the interrupt hardware

    A domain that is saved and restored has the same interrupt hardware. *)

(** ** Loading a list of records *)

Definition entry_fits (e : entry) : Prop :=
  irq_type (fst e) = true /\ zlen (snd (snd e)) = irq_len (fst e) /\ (fst e = PIC -> 0 <= fst (snd e) <= 1).

Section Parts.
Context (pit0 : bool) (ck : clock).

Fixpoint run_parts (l : list entry) : SE hdom unit :=
  match l with
  | [] => ret tt
  | e :: l => hw_part ck (fst e) (snd e);; run_parts l
  end.

Lemma load1_hw tc r d : sd_hw (irq_load1 ck tc r d) = fst (hw_part ck tc r (sd_hw d)).
Proof. unfold irq_load1. cbv zeta. by destruct (tc =? PCI_LINK). Qed.

Lemma loads_parts l : forall d h', Forall entry_fits l -> run_parts l (sd_hw d) = (h', Ok tt) ->
  loadables (irq_handlers pit0 ck) l d /\ sd_hw (load_entries (irq_handlers pit0 ck) l d) = h'.
Proof.
  induction l as [|e l IH]; intros d h' Hf Hrun; cbn [run_parts] in Hrun; [by injection Hrun as <-|].
  apply Forall_cons_1 in Hf as [(H1 & H2 & H3) Hf]. unfold bind in Hrun.
  pose proof (load1_hw (fst e) (snd e) d) as Hd.
  destruct (hw_part ck (fst e) (snd e) (sd_hw d)) as [h1 [[]| |]] eqn:E; [|done|done]. cbn [fst] in Hd.
  destruct (IH (irq_load1 ck (fst e) (snd e) d) h' Hf) as [L1 L2]; [by rewrite Hd|].
  split; [|exact L2]. split; [|exact L1]. split_and!; [done|done|done|]. by rewrite E.
Qed.

Lemma wp_unbind {A B} (m : SE hdom A) (k : A -> SE hdom B) Q h :
  wp (bind m k) Q h -> wp m (fun a => wp (k a) Q) h.
Proof. unfold wp, bind. by destruct (m h) as [h' [a| |]]. Qed.

Lemma run_parts_app l1 l2 Q h : wp (run_parts l1) (fun _ => wp (run_parts l2) Q) h -> wp (run_parts (l1 ++ l2)) Q h.
Proof.
  revert h. induction l1 as [|e l1 IH]; intros h H; cbn [app run_parts] in *; [exact H|].
  apply wp_bind. apply wp_unbind in H. eapply wp_mono; [exact H|]. intros [] h'. apply IH.
Qed.

(** The records of the vcpus. *)
Definition vcpu_part (tc : Z) (bytes : vcpu -> list Z) (i : Z) (v : vcpu) : SE hdom unit :=
  hw_part ck tc (i, bytes v).
Lemma run_vcpus tc bytes l i h Q : wp (load_all (vcpu_part tc bytes) l i) Q h ->
  wp (run_parts (pair tc <$> imap (fun j v => (Z.of_nat (i + j), bytes v)) l)) Q h.
Proof.
  revert i h. induction l as [|v l IH]; intros i h H; cbn [load_all imap fmap list_fmap run_parts fst snd] in *; [exact H|].
  rewrite Nat.add_0_r. apply wp_bind. apply wp_unbind in H. eapply wp_mono; [exact H|]. intros [] h' H'.
  pose proof (IH (S i) h' H') as HI.
  assert (imap ((fun j v => (Z.of_nat (i + j), bytes v)) ∘ S) l = imap (fun j v => (Z.of_nat (S i + j), bytes v)) l) as E
    by (apply imap_ext; intros j w _; simpl; do 2 f_equal; lia).
  unfold fmap in HI. rewrite <- E in HI. exact HI.
Qed.

Lemma checked_wp i m h (Q : unit -> hdom -> Prop) : i < zlen (h_vcpus h) <= h_max_vcpus h -> wp m Q h ->
  wp (vcpu_checked i m) Q h.
Proof.
  intros Hi Hm. unfold vcpu_checked. apply wp_bind, wp_get, wp_bind. apply wp_fail_if; [|done].
  apply orb_false_iff. split; apply Z.leb_gt; lia.
Qed.
End Parts.

(** ** The round trip *)

Section Restore.
Context (pit0 : bool) (ck : clock) (d : sdom) (Hd : irq_sinv d) (Hi : irq_inv (sd_hw d)) (Hw : wires_fit (h_irq (sd_hw d)))
  (Hr : regs_fit (zlen (h_vcpus (sd_hw d))) (sd_hw d)).

Let h := sd_hw d.
Let q := h_irq h.

(** The levels without the callback. *)
Definition loaded_level (g : Z) : Z := pci_level (pci_intx q) g + isa_level (isa_irq q) g.
(** What the records of the wires make of the record [q2]. *)
Definition restored (q2 : hvm_irq) : hvm_irq :=
  link_counted loaded_level (link_level (pci_intx q)) (route q) 4
    (set_isa_irq (isa_irq q) (pci_loaded (pci_intx q) q2)).

Lemma entries_fit : Forall entry_fits (entries (irq_handlers pit0 ck) d).
Proof.
  apply Forall_forall. intros e He%list_elem_of_In.
  assert (irq_type (fst e) = true /\ snd e ∈ irq_recs (fst e) d /\ (fst e = PIC -> 0 <= fst (snd e) <= 1)) as (H1 & H2 & H3).
  { change (entries (irq_handlers pit0 ck) d) with
      ((pair PIC <$> irq_recs PIC d) ++ (pair IOAPIC <$> irq_recs IOAPIC d) ++ (pair LAPIC <$> irq_recs LAPIC d) ++
       (pair LAPIC_REGS <$> irq_recs LAPIC_REGS d) ++ (pair PCI_IRQ <$> irq_recs PCI_IRQ d) ++
       (pair ISA_IRQ <$> irq_recs ISA_IRQ d) ++ (pair PCI_LINK <$> irq_recs PCI_LINK d) ++ []) in He.
    rewrite !elem_of_app, !list_elem_of_fmap in He.
    destruct He as [(r & -> & H)|[(r & -> & H)|[(r & -> & H)|[(r & -> & H)|[(r & -> & H)|[(r & -> & H)|[(r & -> & H)|H]]]]]]];
      [..|by apply elem_of_nil in H]; (split; [done|]); (split; [exact H|]); try done.
    intros _. cbn [irq_recs] in H. apply elem_of_cons in H as [->| ->%list_elem_of_singleton]; cbn [fst snd]; lia. }
  split; [done|]. split; [by apply (zlen_irq_rec (fst e) d)|done].
Qed.

Lemma restored_pics : vpic_of_bytes (bytes_of_vpic (pic0 (h_pics h))) = pic0 (h_pics h) /\
  vpic_of_bytes (bytes_of_vpic (pic1 (h_pics h))) = pic1 (h_pics h) /\
  vioapic_of_bytes (bytes_of_vioapic (h_ioapic h)) = h_ioapic h.
Proof.
  destruct (iv_hw _ Hi) as [[(P0 & P1 & _) _] A2 A3 _ _ _]. destruct Hr as [_ R1 R2 R3].
  split; [by apply vpic_roundtrip|]. split; [by apply vpic_roundtrip|].
  apply vioapic_roundtrip; try done. unfold h. rewrite R1. done.
Qed.

Lemma wires_roundtrip : le_val (le_bytes 16 (pci_intx q)) = pci_intx q /\
  le_val (le_bytes 8 (isa_irq q)) = isa_irq q /\ take 4 (route q ++ sd_link_pad d) = route q.
Proof.
  destruct Hw as [W1 W2]. fold h q in W1, W2. rewrite !le_val_bytes. split; [by apply Z.mod_small|]. split.
  - apply Z.mod_small. change (256 ^ Z.of_nat 8) with (2 ^ 64). lia.
  - destruct (io_route _ (iv_irq _ Hi)) as [Hl _]. fold h q in Hl. rewrite <- Hl. apply take_app_length.
Qed.

(** The timers of the local APICs have been created since [h1]. *)
Definition timers_set (h1 h3 : hdom) : Prop := exists lg, h_log h3 = lg ++ h_log h1 /\
  forall j v e, h_vcpus h !! j = Some v -> rearm_event ck (Z.of_nat j) v = Some e -> e ∈ lg.

(** The local APICs. *)
Lemma lapics_wp rest (Q : unit -> hdom -> Prop) h1 : hw_ok h1 -> length (h_vcpus h1) = length (h_vcpus h) ->
  (forall h3, lapic_frame h1 h3 -> hw_ok h3 ->
     (forall j v, h_vcpus h !! j = Some v -> exists v', h_vcpus h3 !! j = Some v' /\ lapic_restored ck v v') ->
     timers_set h1 h3 -> wp (run_parts ck rest) Q h3) ->
  wp (run_parts ck ((pair LAPIC <$> irq_recs LAPIC d) ++ (pair LAPIC_REGS <$> irq_recs LAPIC_REGS d) ++ rest)) Q h1.
Proof.
  intros Hok Hlen HQ. set (n := zlen (h_vcpus h)).
  assert (forall j v, h_vcpus h !! j = Some v -> lapic_ok n v /\ regs_ok v) as Hv.
  { intros j v Hj. split; [exact (Forall_lookup_1 _ _ _ _ (rf_lapics _ _ Hr) Hj)|].
    exact (Forall_lookup_1 _ _ _ _ (hw_regs _ (iv_hw _ Hi)) Hj). }
  apply run_parts_app. apply (run_vcpus ck LAPIC bytes_of_lapic (h_vcpus h) 0).
  eapply wp_mono; [apply (load_all_wp (vcpu_part ck LAPIC bytes_of_lapic) (fun _ _ => True) hidden_loaded (fun _ _ _ => None)); [|done|by rewrite Hlen|done]|].
  { intros i v w h' Hok' Hl _. apply checked_wp; [|by apply load_hidden_wp]. apply lookup_lt_Some in Hl.
    pose proof (hw_vcpus _ Hok'). unfold zlen in *. cbn [fst]. lia. }
  intros [] h2 (F1 & Hok2 & _ & H2 & lg2 & Lg2 & _). apply run_parts_app. apply (run_vcpus ck LAPIC_REGS bytes_of_lapic_regs (h_vcpus h) 0).
  eapply wp_mono; [apply (load_all_wp (vcpu_part ck LAPIC_REGS bytes_of_lapic_regs)
      (fun v w => regs_ok v /\ timer_ok (vl_timer w)) (regs_loaded ck) (regs_event ck)); [|done|by rewrite (lf_vcpus _ _ F1), Hlen|]|].
  { intros i v w h' Hok' Hl [Hrv Ht]. apply checked_wp; [|by apply load_regs_wp]. apply lookup_lt_Some in Hl.
    pose proof (hw_vcpus _ Hok'). unfold zlen in *. cbn [fst]. lia. }
  { intros j v w Hj Hw2. destruct (Hv j v Hj) as [L1 L2]. split; [done|]. cbn [Nat.add] in *.
    destruct (lookup_lt_is_Some_2 (h_vcpus h1) j) as [w0 Hw0]; [rewrite Hlen; by apply lookup_lt_Some in Hj|].
    destruct (H2 j v w0 Hj Hw0) as (w' & Hw' & ->). rewrite Hw2 in Hw'. injection Hw' as ->.
    destruct (lapic_roundtrip n v w0 L1) as (_ & _ & E3 & E4 & _). destruct L1 as [[T1 T2] _ _ _].
    split; [by rewrite E3|by rewrite E4]. }
  intros [] h3 (F2 & Hok3 & _ & H3 & lg3 & L3 & E3).
  assert (forall j v, h_vcpus h !! j = Some v -> exists w0, h_vcpus h1 !! j = Some w0) as Hsome
    by (intros j v Hj; apply lookup_lt_is_Some_2; rewrite Hlen; by apply lookup_lt_Some in Hj).
  apply HQ; [by etrans|done| |].
  - intros j v Hj. destruct (Hv j v Hj) as [V1 V2]. destruct (Hsome j v Hj) as [w0 Hw0].
    destruct (H2 j v w0 Hj Hw0) as (w1 & Hw1 & R1). destruct (H3 j v w1 Hj Hw1) as (w2 & Hw2 & R2).
    exists w2. split; [done|]. by eapply loaded_restored.
  - exists (lg3 ++ lg2). split; [rewrite L3, Lg2; apply app_assoc|]. intros j v e Hj He. apply elem_of_app. left.
    destruct (Hv j v Hj) as [V1 V2]. destruct (Hsome j v Hj) as [w0 Hw0]. destruct (H2 j v w0 Hj Hw0) as (w1 & Hw1 & R1).
    apply (E3 j v w1); [done|done|]. exact (eq_trans (loaded_event ck n j v w0 w1 V1 V2 R1) He).
Qed.

(** What has been restored into [h2]. *)
Record restored_hw (h2 h' : hdom) : Prop := {
  rs_hw : hw_ok h';
  rs_pics : pic0 (h_pics h') = pic0 (h_pics h) /\ pic1 (h_pics h') = pic1 (h_pics h);
  rs_ioapic : h_ioapic h' = h_ioapic h;
  rs_irq : h_irq h' = restored (h_irq h2);
  rs_vcpus : length (h_vcpus h') = length (h_vcpus h);
  rs_lapics : forall j v, h_vcpus h !! j = Some v -> exists v', h_vcpus h' !! j = Some v' /\ lapic_restored ck v v';
  rs_timers : timers_set h2 h'
}.

(** The controllers. *)
Lemma controllers_ok h2 : hw_ok h2 ->
  hw_ok (set_ioapic (h_ioapic h) (set_pics {| pic0 := pic0 (h_pics h); pic1 := pic1 (h_pics h);
    i8259_target := i8259_target (h_pics h2); pic_log := pic_log (h_pics h2) |} h2)).
Proof. intros [A1 A2 A3 A4 A5 A6]. destruct (iv_hw _ Hi) as [B1 B2 B3 B4 B5 B6]. by split. Qed.

Lemma parts_run h2 : hw_ok h2 -> length (h_vcpus h2) = length (h_vcpus h) ->
  wp (run_parts ck (entries (irq_handlers pit0 ck) d)) (fun _ => restored_hw h2) h2.
Proof.
  intros Hok Hlen. destruct restored_pics as (B0 & B1 & B2). destruct wires_roundtrip as (B3 & B4 & B5).
  pose proof (fun g => gsi_level_parts q g) as Hp. pose proof (io_route _ (iv_irq _ Hi)) as [Hl Hrt]. fold h q in Hl, Hrt.
  change (entries (irq_handlers pit0 ck) d) with
    ([(PIC, (0, bytes_of_vpic (pic0 (h_pics h)))); (PIC, (1, bytes_of_vpic (pic1 (h_pics h))));
      (IOAPIC, (0, bytes_of_vioapic (h_ioapic h)))] ++
     (pair LAPIC <$> irq_recs LAPIC d) ++ (pair LAPIC_REGS <$> irq_recs LAPIC_REGS d) ++
     [(PCI_IRQ, (0, le_bytes 16 (pci_intx q)));
      (ISA_IRQ, (0, le_bytes 8 (isa_irq q))); (PCI_LINK, (0, route q ++ sd_link_pad d))]).
  apply run_parts_app. cbn [run_parts fst snd]. unfold hw_part. cbn [fst snd].
  apply wp_bind. eapply wp_eq; [reflexivity|]. apply wp_bind. eapply wp_eq; [reflexivity|].
  apply wp_bind. eapply wp_eq; [reflexivity|]. apply wp_ret. rewrite B0, B1, B2.
  apply lapics_wp; [exact (controllers_ok h2 Hok)|exact Hlen|]. intros h3 [[t F1] F2 F3 F4 F5] Hok3 Hlap Htim.
  cbn [run_parts fst snd]. unfold hw_part. cbn [fst snd].
  apply wp_bind. eapply wp_mono; [apply load_pci_wp|]. rewrite B3, F2. intros [] ? ->.
  apply wp_bind. eapply wp_mono; [apply (load_isa_wp _ (pci_level (pci_intx q))); [done|intros g; apply Hp]|].
  rewrite B4. intros [] ? ->. apply wp_bind.
  eapply wp_mono; [apply (load_link_wp _ loaded_level (link_level (pci_intx q)))|].
  - done.
  - intros g. destruct (Hp g) as (H1 & H2 & _). unfold loaded_level. lia.
  - done.
  - intros l. apply link_level_bounds.
  - by rewrite B5.
  - by rewrite B5.
  - intros [] ? ->. rewrite B5. apply wp_ret. destruct Hok3 as [C1 C2 C3 C4 C5 C6]. split.
    + split; try done. rewrite F2 in C5. exact C5.
    + cbn [h_pics set_irqs]. by rewrite F1.
    + exact F3.
    + reflexivity.
    + exact (eq_trans F5 Hlen).
    + exact Hlap.
    + exact Htim.
Qed.

(** ** The restored hardware *)

Lemma restored_counters q2 :
  gsi_assert_count (restored q2) = gsi_assert_count q /\ pci_link_assert_count (restored q2) = pci_link_assert_count q.
Proof.
  destruct (iv_irq _ Hi) as [_ H1 H2 _]. fold h q in H1, H2. rewrite H1, H2. split; [|done].
  change (gsi_assert_count (restored q2)) with
    (map (fun g => loaded_level g + routed_upto (link_level (pci_intx q)) (route q) 4 g) (below 48)).
  apply map_below_ext. intros g _. unfold gsi_level, callback_level, loaded_level.
  destruct Hd as (Ha & _). fold h q in Ha. rewrite Ha. cbn [andb Z.b2z]. rewrite Z.add_0_r. done.
Qed.

Lemma restored_inv h2 h' : irq_inv h2 -> callback_via_asserted (h_irq h2) = false -> restored_hw h2 h' -> irq_inv h'.
Proof.
  intros [_ [Q1 Q2 Q3 Q4] _] Ha2 [S1 [S2 S3] S4 S5 _ _ _]. destruct (restored_counters (h_irq h2)) as [C1 C2].
  destruct Hi as [_ [B1 B2 B3 B4] L1]. fold h in L1. fold h q in B1, B2, B3.
  destruct Hd as (Ha & _). fold h q in Ha.
  assert (forall g, gsi_level (restored (h_irq h2)) g = gsi_level q g) as Hg.
  { intros g. unfold gsi_level, callback_level. change (callback_via_asserted (restored (h_irq h2))) with (callback_via_asserted (h_irq h2)).
    rewrite Ha, Ha2. done. }
  split.
  - done.
  - rewrite S5. split; [done| |rewrite C1, B3; apply map_below_ext; intros g _; by rewrite Hg|done]. by rewrite C2, B2.
  - intros g e n Hgr He Hn. rewrite S5, C1 in Hn. rewrite S4 in He. by apply (L1 g).
Qed.
End Restore.

(** The buffer from its start. *)
Definition rewind (c : hvm_domain_context) : hvm_domain_context := set_cur 0 c.

(** C40: the interrupt hardware of a domain survives saving and restoring
    through the record stream.  A buffer of at least [hvm_save_size] bytes is
    enough for the header, the records of the seven types and the end marker,
    and saving leaves the domain as it was.  Loading the buffer into any domain
    that is not dying and has as many vcpus succeeds and gives it the 8259s, the
    IO-APIC, the PCI and ISA wires and the routes of the saved domain; every
    vcpu has the registers, base address, enabled state, timer divisor and
    deadline of its local APIC, and its timer is created again during the load:
    in TSC deadline mode with the time that is left, and with a delay of 0,
    the deadline being cleared, when it has passed meanwhile; in the other modes
    with the whole period of the initial count.  Although they are not in the
    stream, the counters of every link and GSI are the same.  The invariant of
    the interrupt hardware (counters exact, Remote IRR set on asserted
    level-triggered pins) holds afterwards.  The callback, which is not saved,
    stays the one of the domain that loads. *)
Theorem irq_state_roundtrip pit0 ck vtsc cs eax d d2 buf : hreach pit0 (sd_hw d) -> hreach pit0 (sd_hw d2) ->
  length (sd_down d) = length (h_vcpus (sd_hw d)) -> length (h_vcpus (sd_hw d2)) = length (h_vcpus (sd_hw d)) ->
  sd_dying d = false -> length (sd_link_pad d) = 4%nat -> 0 <= sd_tsc_khz d < 2 ^ 32 ->
  0 <= cs < 2 ^ 64 -> 0 <= eax < 2 ^ 32 -> sd_dying d2 = false ->
  hvm_save_size (irq_handlers pit0 ck) d <= zlen buf < 2 ^ 32 ->
  exists c d2' c2,
    hvm_save (irq_handlers pit0 ck) cs eax (d, {| cur := 0; size := zlen buf; data := buf |}) = ((d, c), Ok tt) /\
    cur c <= hvm_save_size (irq_handlers pit0 ck) d /\ size c = zlen buf /\
    hvm_load (irq_handlers pit0 ck) vtsc (d2, rewind c) = ((d2', c2), Ok tt) /\
    let h := sd_hw d in
    let h' := sd_hw d2' in
    pic0 (h_pics h') = pic0 (h_pics h) /\ pic1 (h_pics h') = pic1 (h_pics h) /\ h_ioapic h' = h_ioapic h /\
    pci_intx (h_irq h') = pci_intx (h_irq h) /\ isa_irq (h_irq h') = isa_irq (h_irq h) /\
    route (h_irq h') = route (h_irq h) /\
    pci_link_assert_count (h_irq h') = pci_link_assert_count (h_irq h) /\
    gsi_assert_count (h_irq h') = gsi_assert_count (h_irq h) /\
    length (h_vcpus h') = length (h_vcpus h) /\
    (forall j v, h_vcpus h !! j = Some v -> exists v', h_vcpus h' !! j = Some v' /\ lapic_restored ck v v') /\
    (exists lg, h_log h' = lg ++ h_log (sd_hw d2) /\
       forall j v e, h_vcpus h !! j = Some v -> rearm_event ck (Z.of_nat j) v = Some e -> e ∈ lg) /\
    irq_inv h'.
Proof.
  intros Hr Hr2 Hdown Hcpus Hdy Hpad Htsc Hcs Heax Hdy2 [Hsz Hbuf].
  pose proof (hreach_fit _ _ Hr) as Hw. pose proof (hreach_regs_fit _ _ Hr) as Hf.
  destruct (hreach_inv _ _ Hr) as [Hi Ha]. destruct (hreach_inv _ _ Hr2) as [Hi2 Ha2].
  assert (irq_sinv d) as Hd.
  { pose proof (hw_vcpus _ (iv_hw _ Hi)) as Hm. split_and!; [done|apply Hi|apply Hi|done|done|unfold zlen in Hm; lia]. }
  set (hdr := arch_hvm_save cs eax d). assert (header_ok hdr) as Hh by by split.
  pose proof (hvm_save_ctx (irq_handlers pit0 ck) cs eax d buf Hd Hdy Hbuf Hsz) as Hsave. cbv zeta in Hsave. fold hdr in Hsave.
  set (out := saved (irq_handlers pit0 ck) hdr d) in *. set (rest := after_bytes out buf) in *.
  pose proof (saved_size (irq_handlers pit0 ck) hdr d Hd) as Hout. fold out in Hout.
  pose proof (small_after [] out buf Hbuf ltac:(lia)) as Hs. fold rest in Hs.
  assert (zlen (out ++ rest) = zlen buf) as Hsize by (rewrite zlen_app; unfold rest; rewrite zlen_after; lia).
  set (d3 := prepared vtsc hdr d2). assert (sd_hw d3 = sd_hw d2) as Hd3
    by (unfold d3, prepared; cbv zeta; by destruct (hdr_gtsc_khz hdr =? 0), vtsc).
  destruct (wp_inv _ _ _ (parts_run pit0 ck d Hi Hw Hf (sd_hw d3) ltac:(rewrite Hd3; apply Hi2) ltac:(by rewrite Hd3)))
    as (h' & [] & Erun & Hrest).
  destruct (loads_parts pit0 ck (entries (irq_handlers pit0 ck) d) d3 h' (entries_fit pit0 ck d Hd) Erun) as [Hl1 Hl2].
  destruct (hvm_load_ctx (HL := irq_stream pit0 ck) (irq_handlers pit0 ck) vtsc hdr d d2 rest Hh Hd Hdy2 Hs Hl1) as [c2 Hload].
  exists (ctx out rest), (load_entries (irq_handlers pit0 ck) (entries (irq_handlers pit0 ck) d) d3), c2.
  split; [exact Hsave|]. split; [exact Hout|]. split; [exact Hsize|]. split; [exact Hload|]. cbv zeta.
  rewrite Hl2. rewrite Hd3 in Hrest. destruct (restored_counters d Hd Hi (h_irq (sd_hw d2))) as [C1 C2].
  pose proof (restored_inv ck d Hd Hi (sd_hw d2) h' Hi2 Ha2 Hrest) as Hinv. destruct Hrest as [_ [P0 P1] P2 P3 P4 P5 P6].
  rewrite P3. split_and!; [done|done|done|reflexivity|reflexivity|reflexivity|exact C2|exact C1|done|done|exact P6|done].
Qed.

(** The domain with device 3 asserted on IRQ 5, and a new one. *)
Definition saved_dom : sdom := {|
  sd_hw := wired5; sd_dying := false; sd_tsc_khz := 2400000; sd_rdtsc_exiting := false;
  sd_down := [false; false]; sd_sleeps := []; sd_link_pad := [0; 0; 0; 0] |}.
Definition new_dom : sdom := {|
  sd_hw := two_vcpus; sd_dying := false; sd_tsc_khz := 3000000; sd_rdtsc_exiting := false;
  sd_down := [true; true]; sd_sleeps := []; sd_link_pad := [0; 0; 0; 0] |}.
Definition some_clock : clock := {| ck_time := 0; ck_tsc := 0; ck_convert := fun x => x |}.

Lemma irq_state_roundtrip_witness : exists c d2' c2,
  hvm_save (irq_handlers false some_clock) 0 0x306a9
    (saved_dom, {| cur := 0; size := zlen (replicate 2664 0); data := replicate 2664 0 |}) = ((saved_dom, c), Ok tt) /\
  hvm_load (irq_handlers false some_clock) true (new_dom, rewind c) = ((d2', c2), Ok tt) /\
  gsi_assert_count (h_irq (sd_hw d2')) !! 5%nat = Some 1 /\ gsi_assert_count (h_irq (sd_hw d2')) !! 28%nat = Some 1.
Proof.
  destruct (irq_state_roundtrip false some_clock true 0 0x306a9 saved_dom new_dom (replicate 2664 0))
    as (c & d2' & c2 & H1 & _ & _ & H2 & _ & _ & _ & _ & _ & _ & _ & H3 & _);
    [apply wired5_reach|apply two_vcpus_reach|reflexivity|reflexivity|done|done|done|done|done|done|by vm_compute|].
  exists c, d2', c2. split; [exact H1|]. split; [exact H2|]. cbn [sd_hw saved_dom] in H3. rewrite H3.
  split; by vm_compute.
Defined.
