(* ===== verification/Vpt.v ===== *)
(** * The virtual platform timers

    xen/arch/x86/hvm/vpt.c: the periodic and one-shot timers behind the PIT, the
    RTC, the HPET and the local APICs, and the guest's time.  The timers of a
    domain are a table: 0 is channel 0 of the PIT, 1 the RTC, 2 to 4 the HPET, 5
    + i the local APIC of vcpu [i]; the list [tm_list] of a vcpu has their
    numbers.  [clk] is the host's clock, [clk n] the value of its [n]-th read.
    The host timer of a [periodic_time] is the deadline it is set to; callbacks,
    kicks and migrations are events of the log. *)

From stdpp Require Import base list numbers.
From Stdlib Require Import ZArith Lia.
From S2P Require Import Prelude Vpic HvmState Vlapic Vioapic HvmIrq VlapicRegs.

Open Scope Z_scope.
Open Scope se_scope.

(** ** Data *)

Definition PTSRC_isa : Z := 1.
Definition PTSRC_lapic : Z := 2.
Definition HPET_TIMER_NUM : nat := 3.
Definition MAX_MISSED_TICKS_PERIOD_MS : Z := 500.
Definition MAX_INJECT_TICKS : Z := 50.

(** Conversion to a signed 64-bit integer. *)
Definition s64 (x : Z) : Z := (x + 2 ^ 63) mod 2 ^ 64 - 2 ^ 63.

Record periodic_time : Type := {
  on_list : bool;
  one_shot : bool;
  irq_issued : bool;
  warned_timeout_too_short : bool;
  collapse_ticks : bool;
  pt_source : Z;
  pt_irqno : Z;                 (** [irq] *)
  pt_vcpu : option Z;
  pending_intr_nr : Z;
  time_done : Z;
  period : Z;
  schedule_period : Z;
  scheduled : Z;
  scheduled_t0 : Z;
  last_plt_gtime : Z;
  timer_set : option Z;         (** the deadline of [timer], while it is set *)
  has_cb : bool                 (** [cb] is not null *)
}.

Record vpt_vcpu : Type := {
  tm_list : list nat;
  v_stime_offset : Z;
  v_guest_time : Z;
  v_blocked : bool              (** [_VPF_blocked] of its [pause_flags] *)
}.

(** [params] of the domain. *)
Record vpt_params : Type := {
  timer_mode : Z;               (** [HVM_PARAM_TIMER_MODE] *)
  vpt_align : Z;                (** [HVM_PARAM_VPT_ALIGN] *)
  vpt_coalesce_ns : Z           (** [HVM_PARAM_VPT_COALESCE_NS] *)
}.

Inductive vpt_event : Type :=
| VptKick (vcpu : Z)
| VptMigrate (timer : nat)
| VptCallback (timer : nat)
| VptException.
#[global] Instance vpt_event_eq_dec : EqDecision vpt_event.
Proof. solve_decision. Defined.

Record vst : Type := {
  vs_hw : hdom;
  vs_pts : list periodic_time;
  vs_vcpus : list vpt_vcpu;
  vs_params : vpt_params;
  pl_stime_offset : Z;
  last_guest_time : Z;
  vs_reads : nat;               (** reads of the host's clock so far *)
  vs_log : list vpt_event       (** newest first *)
}.

Definition set_vs_hw (h : hdom) (s : vst) : vst :=
  {| vs_hw := h; vs_pts := vs_pts s; vs_vcpus := vs_vcpus s; vs_params := vs_params s;
     pl_stime_offset := pl_stime_offset s; last_guest_time := last_guest_time s;
     vs_reads := vs_reads s; vs_log := vs_log s |}.
Definition set_pts (l : list periodic_time) (s : vst) : vst :=
  {| vs_hw := vs_hw s; vs_pts := l; vs_vcpus := vs_vcpus s; vs_params := vs_params s;
     pl_stime_offset := pl_stime_offset s; last_guest_time := last_guest_time s;
     vs_reads := vs_reads s; vs_log := vs_log s |}.
Definition set_vs_vcpus (l : list vpt_vcpu) (s : vst) : vst :=
  {| vs_hw := vs_hw s; vs_pts := vs_pts s; vs_vcpus := l; vs_params := vs_params s;
     pl_stime_offset := pl_stime_offset s; last_guest_time := last_guest_time s;
     vs_reads := vs_reads s; vs_log := vs_log s |}.
Definition set_pl_time (off last : Z) (s : vst) : vst :=
  {| vs_hw := vs_hw s; vs_pts := vs_pts s; vs_vcpus := vs_vcpus s; vs_params := vs_params s;
     pl_stime_offset := off; last_guest_time := last; vs_reads := vs_reads s; vs_log := vs_log s |}.
Definition set_vs_reads (n : nat) (s : vst) : vst :=
  {| vs_hw := vs_hw s; vs_pts := vs_pts s; vs_vcpus := vs_vcpus s; vs_params := vs_params s;
     pl_stime_offset := pl_stime_offset s; last_guest_time := last_guest_time s;
     vs_reads := n; vs_log := vs_log s |}.
Definition set_vs_log (l : list vpt_event) (s : vst) : vst :=
  {| vs_hw := vs_hw s; vs_pts := vs_pts s; vs_vcpus := vs_vcpus s; vs_params := vs_params s;
     pl_stime_offset := pl_stime_offset s; last_guest_time := last_guest_time s;
     vs_reads := vs_reads s; vs_log := l |}.

Definition set_list_flag (b : bool) (pt : periodic_time) : periodic_time :=
  {| on_list := b; one_shot := one_shot pt; irq_issued := irq_issued pt;
     warned_timeout_too_short := warned_timeout_too_short pt; collapse_ticks := collapse_ticks pt;
     pt_source := pt_source pt; pt_irqno := pt_irqno pt; pt_vcpu := pt_vcpu pt;
     pending_intr_nr := pending_intr_nr pt; time_done := time_done pt; period := period pt;
     schedule_period := schedule_period pt; scheduled := scheduled pt;
     scheduled_t0 := scheduled_t0 pt; last_plt_gtime := last_plt_gtime pt;
     timer_set := timer_set pt; has_cb := has_cb pt |}.
(** [pending_intr_nr] and [time_done] *)
Definition set_ticks (n t : Z) (pt : periodic_time) : periodic_time :=
  {| on_list := on_list pt; one_shot := one_shot pt; irq_issued := irq_issued pt;
     warned_timeout_too_short := warned_timeout_too_short pt; collapse_ticks := collapse_ticks pt;
     pt_source := pt_source pt; pt_irqno := pt_irqno pt; pt_vcpu := pt_vcpu pt;
     pending_intr_nr := n; time_done := t; period := period pt;
     schedule_period := schedule_period pt; scheduled := scheduled pt;
     scheduled_t0 := scheduled_t0 pt; last_plt_gtime := last_plt_gtime pt;
     timer_set := timer_set pt; has_cb := has_cb pt |}.
Definition set_pending (n : Z) (pt : periodic_time) : periodic_time := set_ticks n (time_done pt) pt.
Definition set_irq_issued (b : bool) (pt : periodic_time) : periodic_time :=
  {| on_list := on_list pt; one_shot := one_shot pt; irq_issued := b;
     warned_timeout_too_short := warned_timeout_too_short pt; collapse_ticks := collapse_ticks pt;
     pt_source := pt_source pt; pt_irqno := pt_irqno pt; pt_vcpu := pt_vcpu pt;
     pending_intr_nr := pending_intr_nr pt; time_done := time_done pt; period := period pt;
     schedule_period := schedule_period pt; scheduled := scheduled pt;
     scheduled_t0 := scheduled_t0 pt; last_plt_gtime := last_plt_gtime pt;
     timer_set := timer_set pt; has_cb := has_cb pt |}.
Definition set_collapse (b : bool) (pt : periodic_time) : periodic_time :=
  {| on_list := on_list pt; one_shot := one_shot pt; irq_issued := irq_issued pt;
     warned_timeout_too_short := warned_timeout_too_short pt; collapse_ticks := b;
     pt_source := pt_source pt; pt_irqno := pt_irqno pt; pt_vcpu := pt_vcpu pt;
     pending_intr_nr := pending_intr_nr pt; time_done := time_done pt; period := period pt;
     schedule_period := schedule_period pt; scheduled := scheduled pt;
     scheduled_t0 := scheduled_t0 pt; last_plt_gtime := last_plt_gtime pt;
     timer_set := timer_set pt; has_cb := has_cb pt |}.
(** [schedule_period] and [scheduled] *)
Definition set_scheduled (p t : Z) (pt : periodic_time) : periodic_time :=
  {| on_list := on_list pt; one_shot := one_shot pt; irq_issued := irq_issued pt;
     warned_timeout_too_short := warned_timeout_too_short pt; collapse_ticks := collapse_ticks pt;
     pt_source := pt_source pt; pt_irqno := pt_irqno pt; pt_vcpu := pt_vcpu pt;
     pending_intr_nr := pending_intr_nr pt; time_done := time_done pt; period := period pt;
     schedule_period := p; scheduled := t;
     scheduled_t0 := scheduled_t0 pt; last_plt_gtime := last_plt_gtime pt;
     timer_set := timer_set pt; has_cb := has_cb pt |}.
Definition set_last_gtime (t : Z) (pt : periodic_time) : periodic_time :=
  {| on_list := on_list pt; one_shot := one_shot pt; irq_issued := irq_issued pt;
     warned_timeout_too_short := warned_timeout_too_short pt; collapse_ticks := collapse_ticks pt;
     pt_source := pt_source pt; pt_irqno := pt_irqno pt; pt_vcpu := pt_vcpu pt;
     pending_intr_nr := pending_intr_nr pt; time_done := time_done pt; period := period pt;
     schedule_period := schedule_period pt; scheduled := scheduled pt;
     scheduled_t0 := scheduled_t0 pt; last_plt_gtime := t;
     timer_set := timer_set pt; has_cb := has_cb pt |}.
Definition set_deadline (t : option Z) (pt : periodic_time) : periodic_time :=
  {| on_list := on_list pt; one_shot := one_shot pt; irq_issued := irq_issued pt;
     warned_timeout_too_short := warned_timeout_too_short pt; collapse_ticks := collapse_ticks pt;
     pt_source := pt_source pt; pt_irqno := pt_irqno pt; pt_vcpu := pt_vcpu pt;
     pending_intr_nr := pending_intr_nr pt; time_done := time_done pt; period := period pt;
     schedule_period := schedule_period pt; scheduled := scheduled pt;
     scheduled_t0 := scheduled_t0 pt; last_plt_gtime := last_plt_gtime pt;
     timer_set := t; has_cb := has_cb pt |}.
Definition set_pt_vcpu (v : option Z) (pt : periodic_time) : periodic_time :=
  {| on_list := on_list pt; one_shot := one_shot pt; irq_issued := irq_issued pt;
     warned_timeout_too_short := warned_timeout_too_short pt; collapse_ticks := collapse_ticks pt;
     pt_source := pt_source pt; pt_irqno := pt_irqno pt; pt_vcpu := v;
     pending_intr_nr := pending_intr_nr pt; time_done := time_done pt; period := period pt;
     schedule_period := schedule_period pt; scheduled := scheduled pt;
     scheduled_t0 := scheduled_t0 pt; last_plt_gtime := last_plt_gtime pt;
     timer_set := timer_set pt; has_cb := has_cb pt |}.
(** [irq] and [period], for [update_periodic_time] *)
Definition set_rate (irq p : Z) (pt : periodic_time) : periodic_time :=
  {| on_list := on_list pt; one_shot := one_shot pt; irq_issued := irq_issued pt;
     warned_timeout_too_short := warned_timeout_too_short pt; collapse_ticks := collapse_ticks pt;
     pt_source := pt_source pt; pt_irqno := irq; pt_vcpu := pt_vcpu pt;
     pending_intr_nr := pending_intr_nr pt; time_done := time_done pt; period := p;
     schedule_period := schedule_period pt; scheduled := scheduled pt;
     scheduled_t0 := scheduled_t0 pt; last_plt_gtime := last_plt_gtime pt;
     timer_set := timer_set pt; has_cb := has_cb pt |}.

Definition set_tm_list (l : list nat) (v : vpt_vcpu) : vpt_vcpu :=
  {| tm_list := l; v_stime_offset := v_stime_offset v; v_guest_time := v_guest_time v;
     v_blocked := v_blocked v |}.
Definition set_v_times (off t : Z) (v : vpt_vcpu) : vpt_vcpu :=
  {| tm_list := tm_list v; v_stime_offset := off; v_guest_time := t; v_blocked := v_blocked v |}.

Definition hw {A} (m : SE hdom A) : SE vst A := zoom vs_hw set_vs_hw m.
Definition vpt_emit (e : vpt_event) : SE vst unit := modify (fun s => set_vs_log (e :: vs_log s) s).

(** A timer and a vcpu of the domain; a number out of range is [Bug]. *)
Definition the_pt (id : nat) : SE vst periodic_time :=
  l <- gets vs_pts;; match l !! id with Some pt => ret pt | None => bug end.
Definition upd_pt (id : nat) (f : periodic_time -> periodic_time) : SE vst unit :=
  modify (fun s => set_pts (alter f id (vs_pts s)) s).
Definition the_tm (v : Z) : SE vst vpt_vcpu :=
  l <- gets vs_vcpus;;
  match l !! Z.to_nat v with
  | Some tm => bug_if (v <? 0);; ret tm
  | None => bug
  end.
Definition upd_tm (v : Z) (f : vpt_vcpu -> vpt_vcpu) : SE vst unit :=
  modify (fun s => set_vs_vcpus (alter f (Z.to_nat v) (vs_vcpus s)) s).

(** [pt->vcpu], which the code dereferences *)
Definition vcpu_of (pt : periodic_time) : SE vst Z :=
  match pt_vcpu pt with Some v => ret v | None => bug end.

(** [list_del]: the timer is on the list of its vcpu. *)
Definition list_del (id : nat) : SE vst unit :=
  pt <- the_pt id;;
  v <- vcpu_of pt;;
  tm <- the_tm v;;
  bug_if (negb (bool_decide (id ∈ tm_list tm)));;
  upd_tm v (set_tm_list (filter (fun x => x <> id) (tm_list tm))).

(** [list_add]: a timer that is on no list. *)
Definition list_add (id : nat) (v : Z) : SE vst unit :=
  l <- gets vs_vcpus;;
  bug_if (bool_decide (Exists (fun tm => id ∈ tm_list tm) l));;
  tm <- the_tm v;;
  upd_tm v (set_tm_list (id :: tm_list tm)).

(** [list_for_each_entry], over the list as it is at the start *)
Fixpoint for_each (l : list nat) (body : nat -> SE vst unit) : SE vst unit :=
  match l with
  | [] => ret tt
  | id :: l => body id;; for_each l body
  end.

(** ** The clock *)

Section Env.
Context (clk : nat -> Z).

(** [NOW()], which is [get_s_time()]: a signed 64-bit number *)
Definition NOW : SE vst Z :=
  n <- gets vs_reads;; modify (set_vs_reads (S n));; ret (clk n).

Definition hvm_init_guest_time : SE vst unit :=
  now <- NOW;; modify (set_pl_time (s64 (- now)) 0).

Definition hvm_get_guest_time (v : Z) : SE vst Z :=
  t <- NOW;;
  s <- get;;
  let now := u64 (t + pl_stime_offset s) in
  let now := if 0 <? s64 (now - last_guest_time s) then now else u64 (last_guest_time s + 1) in
  modify (set_pl_time (pl_stime_offset s) now);;
  tm <- the_tm v;;
  ret (u64 (now + v_stime_offset tm)).

Definition hvm_set_guest_time (v guest_time : Z) : SE vst unit :=
  t <- hvm_get_guest_time v;;
  upd_tm v (fun tm => set_v_times (s64 (v_stime_offset tm + (guest_time - t))) (v_guest_time tm) tm).

(** ** Modes *)

Definition HVMPTF_DESCHED_TIMER_MASK : Z := 0x1.
Definition HVMPTF_DESCHED_TIMER_stop : Z := 0x1.
Definition HVMPTF_DESCHED_GTIME_MASK : Z := 0x100.
Definition HVMPTF_DESCHED_GTIME_stop : Z := 0x100.
Definition HVMPTF_DESCHED_MTICKS_MASK : Z := 0x30000.
Definition HVMPTF_DESCHED_MTICKS_single : Z := 0.
Definition HVMPTF_DESCHED_MTICKS_replay : Z := 0x10000.
Definition HVMPTF_UNPAUSE_MTICKS_MASK : Z := 0x1000000.
Definition HVMPTF_UNPAUSE_MTICKS_single : Z := 0.

(** [timer_mode_is(d, subparam, m)] *)
Definition mode_is (mask m : Z) (p : vpt_params) : bool := Z.land (timer_mode p) mask =? m.
Definition timer_stop (p : vpt_params) : bool := mode_is HVMPTF_DESCHED_TIMER_MASK HVMPTF_DESCHED_TIMER_stop p.
Definition gtime_stop (p : vpt_params) : bool := mode_is HVMPTF_DESCHED_GTIME_MASK HVMPTF_DESCHED_GTIME_stop p.
Definition mticks_single (p : vpt_params) : bool :=
  mode_is HVMPTF_DESCHED_MTICKS_MASK HVMPTF_DESCHED_MTICKS_single p.
Definition mticks_replay (p : vpt_params) : bool :=
  mode_is HVMPTF_DESCHED_MTICKS_MASK HVMPTF_DESCHED_MTICKS_replay p.
Definition unpause_single (p : vpt_params) : bool :=
  mode_is HVMPTF_UNPAUSE_MTICKS_MASK HVMPTF_UNPAUSE_MTICKS_single p.

(** ** The interrupt of a timer *)

(** [vpic[isa_irq >> 3]] of an [irq] of type [u8] *)
Definition pic_at (isa_irq : Z) : SE vst hvm_hw_vpic := hw (on_pics (vpic (Z.to_nat (Z.shiftr isa_irq 3)))).

(** [pt_irq_vector]; [src_pic] is [src == hvm_intsrc_pic], [src_lapic] the other. *)
Definition pt_irq_vector (pt : periodic_time) (src_pic src_lapic : bool) : SE vst Z :=
  if pt_source pt =? PTSRC_lapic then ret (pt_irqno pt)
  else
    let isa_irq := pt_irqno pt in
    let gsi := hvm_isa_irq_to_gsi isa_irq in
    if src_pic then p <- pic_at isa_irq;; ret (irq_base p + Z.land isa_irq 7)
    else
      bug_if (negb src_lapic);;
      e <- hw (entry gsi);;
      ret (rte_vector e).

Definition pt_irq_masked (pt : periodic_time) : SE vst bool :=
  v <- vcpu_of pt;;
  if pt_source pt =? PTSRC_lapic then
    vl <- hw (the_vcpu v);;
    ret (negb (vlapic_enabled vl) || Z.testbit (vlapic_get_reg vl APIC_LVTT) 16)
  else
    let isa_irq := pt_irqno pt in
    let gsi := hvm_isa_irq_to_gsi isa_irq in
    p <- pic_at isa_irq;;
    unaccepted <- (if Z.testbit (imr p) (Z.land isa_irq 7) then ret true
                   else a <- hw (vlapic_accept_pic_intr v);; ret (negb a));;
    if unaccepted then e <- hw (entry gsi);; ret (rte_mask e) else ret false.

(** ** Missed ticks *)

Definition calculate_pending_ticks (pt : periodic_time) (now : Z) : SE vst Z :=
  if one_shot pt || (now <? scheduled_t0 pt) then ret 0
  else
    let time_passed := u64 (now - scheduled_t0 pt + period pt) in
    if time_passed <=? time_done pt then ret 0
    else
      bug_if (period pt =? 0);;
      ret (u64 (time_passed - time_done pt) / period pt).

(** [pending_ticks] is an [int]. *)
Definition calculate_intr_inject (p : vpt_params) (pt : periodic_time) (pending_ticks : Z) : Z :=
  let inject := u64 (s32 pending_ticks) in
  let max := if mticks_single p then 1
             else if period pt <? schedule_period pt
             then u64 (MAX_INJECT_TICKS * schedule_period pt) / period pt
             else MAX_INJECT_TICKS in
  if max <? inject then max else inject.

(** [scheduled], moved behind [now] *)
Definition next_schedule (now : Z) (pt : periodic_time) : Z :=
  let p := schedule_period pt in
  if scheduled pt <=? now
  then s64 (scheduled pt + u64 ((1 + u64 (now - scheduled pt) / p) * p))
  else scheduled pt.

Definition pt_process_missed_ticks (id : nat) : SE vst unit :=
  pt <- the_pt id;;
  now <- NOW;;
  if one_shot pt then ret tt
  else if now <=? scheduled pt then ret tt
  else
    p <- calculate_pending_ticks pt now;;
    let pending := s64 p in
    prm <- gets vs_params;;
    (if MAX_MISSED_TICKS_PERIOD_MS * 1000000 <? u64 (pending * period pt) then
       upd_pt id (set_ticks (u32 (pending_intr_nr pt + 1)) (u64 (time_done pt + pending * period pt)));;
       vpt_emit VptException
     else
       bug_if (negb (mticks_single prm) && (period pt =? 0) && (0 <? schedule_period pt));;
       let inject := calculate_intr_inject prm pt pending in
       upd_pt id (set_ticks (u32 (pending_intr_nr pt + inject))
                    (u64 (time_done pt + period pt * (if mticks_replay prm then inject else pending)))));;
    bug_if (schedule_period pt =? 0);;
    upd_pt id (fun pt => set_scheduled (schedule_period pt) (next_schedule now pt) pt).

Definition pt_set_timer (id : nat) : SE vst unit := upd_pt id (fun pt => set_deadline (Some (scheduled pt)) pt).
Definition pt_stop_timer (id : nat) : SE vst unit := upd_pt id (set_deadline None).

(** ** Descheduling *)

Definition pt_freeze_time (v : Z) : SE vst unit :=
  p <- gets vs_params;;
  if negb (timer_stop p) then ret tt
  else t <- hvm_get_guest_time v;; upd_tm v (fun tm => set_v_times (v_stime_offset tm) t tm).

Definition pt_thaw_time (v : Z) : SE vst unit :=
  p <- gets vs_params;;
  if negb (gtime_stop p) then ret tt
  else
    tm <- the_tm v;;
    if v_guest_time tm =? 0 then ret tt
    else
      hvm_set_guest_time v (v_guest_time tm);;
      upd_tm v (fun tm => set_v_times (v_stime_offset tm) 0 tm).

Definition pt_save_timer (v : Z) : SE vst unit :=
  tm <- the_tm v;;
  p <- gets vs_params;;
  if v_blocked tm then ret tt
  else if negb (timer_stop p) && negb (gtime_stop p) then ret tt
  else
    for_each (tm_list tm) (fun id => when (timer_stop p) (pt_stop_timer id));;
    pt_freeze_time v.

Definition pt_restore_timer (v : Z) : SE vst unit :=
  tm <- the_tm v;;
  for_each (tm_list tm) (fun id =>
    pt <- the_pt id;;
    when (pending_intr_nr pt =? 0) (pt_process_missed_ticks id;; pt_set_timer id));;
  pt_thaw_time v.

(** ** Expiry *)

(** [pt_timer_fn]; the host timer is no longer set. *)
Definition pt_timer_fn (id : nat) : SE vst unit :=
  pt_stop_timer id;;
  pt <- the_pt id;;
  v <- vcpu_of pt;;
  (if one_shot pt then upd_pt id (fun pt => set_pending (u32 (pending_intr_nr pt + 1)) pt)
   else
     pt_process_missed_ticks id;;
     pt <- the_pt id;;
     when (pending_intr_nr pt =? 0) (pt_set_timer id));;
  vpt_emit (VptKick v).

(** The loop of [pt_update_irq]: the timer that is due first, its time being
    [max_lag]. *)
Fixpoint earliest (l : list nat) (max_lag : Z) (best : option nat) : SE vst (option nat) :=
  match l with
  | [] => ret best
  | id :: l =>
      pt <- the_pt id;;
      if pending_intr_nr pt =? 0 then earliest l max_lag best
      else
        masked <- pt_irq_masked pt;;
        if masked then
          list_del id;;
          upd_pt id (set_list_flag false);;
          earliest l max_lag best
        else
          let due := u64 (last_plt_gtime pt + schedule_period pt) in
          if due <? max_lag then earliest l due (Some id) else earliest l max_lag best
  end.

(** [pt_active] of the PIT: [pit_channel0_enabled] of vioapic.c *)
Definition pt_active (pt : periodic_time) : bool := on_list pt || negb (pending_intr_nr pt =? 0).
Definition pit_active : SE vst bool := pt <- the_pt 0;; ret (pt_active pt).

Definition pt_update_irq (v : Z) : SE vst unit :=
  tm <- the_tm v;;
  e <- earliest (tm_list tm) (2 ^ 64 - 1) None;;
  match e with
  | None => ret tt
  | Some id =>
      upd_pt id (set_irq_issued true);;
      pt <- the_pt id;;
      if pt_source pt =? PTSRC_lapic then hw (vlapic_set_irq v (pt_irqno pt) false);; ret tt
      else
        hw (hvm_isa_irq_deassert (pt_irqno pt));;
        pit0 <- pit_active;;
        hw (hvm_isa_irq_assert pit0 (pt_irqno pt))
  end.

Definition pt_collapse_ticks (v : Z) : SE vst unit :=
  tm <- the_tm v;; for_each (tm_list tm) (fun id => upd_pt id (set_collapse true)).

Definition pt_unpause (v : Z) : SE vst unit :=
  p <- gets vs_params;; when (unpause_single p) (pt_collapse_ticks v).

(** ** Delivery *)

(** The source and the vector of an acknowledged interrupt. *)
Definition intack_source (k : hvm_intack) : bool * bool :=
  match k with intack_pic _ => (true, false) | intack_lapic _ => (false, true) | _ => (false, false) end.
Definition intack_vec (k : hvm_intack) : Z :=
  match k with intack_pic x | intack_lapic x | intack_vector x => x | _ => 0 end.

Fixpoint is_pt_irq (l : list nat) (k : hvm_intack) : SE vst (option nat) :=
  match l with
  | [] => ret None
  | id :: l =>
      pt <- the_pt id;;
      if negb (pending_intr_nr pt =? 0) && irq_issued pt then
        vec <- pt_irq_vector pt (fst (intack_source k)) (snd (intack_source k));;
        if intack_vec k =? vec then ret (Some id) else is_pt_irq l k
      else is_pt_irq l k
  end.

(** The part of [pt_intr_post] for the timer [id]. *)
Definition tick_delivered (id : nat) (v : Z) : SE vst unit :=
  upd_pt id (set_irq_issued false);;
  pt <- the_pt id;;
  p <- gets vs_params;;
  if one_shot pt then
    when (on_list pt) (list_del id);;
    upd_pt id (fun pt => set_pending 0 (set_list_flag false pt))
  else if mticks_single p || collapse_ticks pt then
    t <- hvm_get_guest_time v;;
    upd_pt id (set_last_gtime t);;
    pt_process_missed_ticks id;;
    upd_pt id (fun pt => set_collapse false (set_pending 0 pt));;
    pt_set_timer id
  else
    upd_pt id (fun pt => set_pending (u32 (pending_intr_nr pt - 1))
                           (set_last_gtime (u64 (last_plt_gtime pt + period pt)) pt));;
    pt <- the_pt id;;
    when (pending_intr_nr pt =? 0)
      (pt_process_missed_ticks id;;
       pt <- the_pt id;;
       when (pending_intr_nr pt =? 0) (pt_set_timer id)).

Definition pt_intr_post (v : Z) (k : hvm_intack) : SE vst unit :=
  match k with
  | intack_vector _ => ret tt
  | _ =>
      tm <- the_tm v;;
      e <- is_pt_irq (tm_list tm) k;;
      match e with
      | None => ret tt
      | Some id =>
          tick_delivered id v;;
          pt <- the_pt id;;
          p <- gets vs_params;;
          when (gtime_stop p)
            (t <- hvm_get_guest_time v;;
             when (t <? last_plt_gtime pt) (hvm_set_guest_time v (last_plt_gtime pt)));;
          when (has_cb pt) (vpt_emit (VptCallback id))
      end
  end.

Definition pt_migrate (v : Z) : SE vst unit :=
  tm <- the_tm v;; for_each (tm_list tm) (fun id => vpt_emit (VptMigrate id)).

(** ** Periods *)

Definition align_timer (firsttick period : Z) : Z :=
  if period =? 0 then firsttick
  else s64 (firsttick + (period - 1) - u64 (firsttick - 1) mod period).

Definition schedule_period_of (p : vpt_params) (pt : periodic_time) : Z :=
  if negb (vpt_coalesce_ns p =? 0) && (period pt <? vpt_coalesce_ns p) then vpt_coalesce_ns p else period pt.

Definition pt_update_schedule_period_one (id : nat) : SE vst unit :=
  pt <- the_pt id;;
  p <- gets vs_params;;
  when (negb (one_shot pt))
    (let sp := schedule_period_of p pt in
     upd_pt id (set_scheduled sp (if negb (vpt_align p =? 0) then align_timer (scheduled pt) sp
                                  else scheduled pt))).

Definition pt_update_schedule_period (v : Z) : SE vst unit :=
  tm <- the_tm v;; for_each (tm_list tm) pt_update_schedule_period_one.

Definition update_periodic_time (id : nat) (irq new_period leftover_ticks : Z) : SE vst unit :=
  pt <- the_pt id;;
  bug_if (one_shot pt);;
  v <- vcpu_of pt;;
  pt_process_missed_ticks id;;
  upd_pt id (fun pt => set_ticks (u32 leftover_ticks)
    (u64 (time_done pt - pending_intr_nr pt * period pt + period pt * leftover_ticks)) pt);;
  upd_pt id (fun pt => if pt_irqno pt =? irq then pt else set_irq_issued false (set_rate (u8 irq) (period pt) pt));;
  upd_pt id (fun pt => set_rate (pt_irqno pt) new_period pt);;
  pt_update_schedule_period_one id;;
  pt_set_timer id.

(** ** Creation and destruction *)

Definition destroy_periodic_time (id : nat) : SE vst unit :=
  pt <- the_pt id;;
  match pt_vcpu pt with
  | None => ret tt
  | Some _ =>
      when (on_list pt) (list_del id);;
      upd_pt id (fun pt => set_pending 0 (set_list_flag false pt));;
      pt_stop_timer id
  end.

(** The fields that [create_periodic_time] sets first. *)
Definition created (v delta p irq gtime now : Z) (cb : bool) (pt : periodic_time) : periodic_time :=
  {| on_list := on_list pt; one_shot := p =? 0; irq_issued := false;
     warned_timeout_too_short := warned_timeout_too_short pt; collapse_ticks := false;
     pt_source := pt_source pt; pt_irqno := irq; pt_vcpu := Some v;
     pending_intr_nr := 0; time_done := 0; period := p; schedule_period := p;
     scheduled := s64 (now + delta); scheduled_t0 := scheduled_t0 pt; last_plt_gtime := gtime;
     timer_set := timer_set pt; has_cb := cb |}.
Definition set_warned (pt : periodic_time) : periodic_time :=
  {| on_list := on_list pt; one_shot := one_shot pt; irq_issued := irq_issued pt;
     warned_timeout_too_short := true; collapse_ticks := collapse_ticks pt;
     pt_source := pt_source pt; pt_irqno := pt_irqno pt; pt_vcpu := pt_vcpu pt;
     pending_intr_nr := pending_intr_nr pt; time_done := time_done pt; period := period pt;
     schedule_period := schedule_period pt; scheduled := scheduled pt;
     scheduled_t0 := scheduled_t0 pt; last_plt_gtime := last_plt_gtime pt;
     timer_set := timer_set pt; has_cb := has_cb pt |}.
Definition set_t0 (pt : periodic_time) : periodic_time :=
  {| on_list := on_list pt; one_shot := one_shot pt; irq_issued := irq_issued pt;
     warned_timeout_too_short := warned_timeout_too_short pt; collapse_ticks := collapse_ticks pt;
     pt_source := pt_source pt; pt_irqno := pt_irqno pt; pt_vcpu := pt_vcpu pt;
     pending_intr_nr := pending_intr_nr pt; time_done := time_done pt; period := period pt;
     schedule_period := schedule_period pt; scheduled := scheduled pt;
     scheduled_t0 := scheduled pt; last_plt_gtime := last_plt_gtime pt;
     timer_set := timer_set pt; has_cb := has_cb pt |}.

Definition create_periodic_time (v : Z) (id : nat) (delta p irq : Z) (cb : bool) : SE vst unit :=
  pt <- the_pt id;;
  bug_if (pt_source pt =? 0);;
  destroy_periodic_time id;;
  let short := (p <? 100000) && negb (p =? 0) in
  when short (upd_pt id set_warned);;
  let p := if short then 100000 else p in
  t <- hvm_get_guest_time v;;
  now <- NOW;;
  upd_pt id (created v delta p (u8 irq) t now cb);;
  when (negb (p =? 0))
    (pt_update_schedule_period_one id;;
     prm <- gets vs_params;;
     when ((pt_source pt =? PTSRC_lapic) && (vpt_align prm =? 0))
       (upd_pt id (fun pt => set_scheduled (schedule_period pt) (s64 (scheduled pt + Z.shiftr delta 1)) pt)));;
  upd_pt id set_t0;;
  upd_pt id (set_list_flag true);;
  list_add id v;;
  pt_set_timer id.

(** ** The vcpu of the platform timers *)

Definition pt_adjust_vcpu (id : nat) (v : Z) : SE vst unit :=
  pt <- the_pt id;;
  bug_if (negb (pt_source pt =? PTSRC_isa));;
  match pt_vcpu pt with
  | None => ret tt
  | Some _ =>
      when (on_list pt) (list_del id);;
      upd_pt id (set_list_flag false);;
      upd_pt id (set_pt_vcpu (Some v));;
      when (on_list pt)
        (upd_pt id (set_list_flag true);; list_add id v;; vpt_emit (VptMigrate id))
  end.

Definition PIT_TIMER : nat := 0.
Definition RTC_TIMER : nat := 1.
Definition HPET_TIMERS : list nat := seq 2 HPET_TIMER_NUM.
Definition LAPIC_TIMER (i : Z) : nat := (5 + Z.to_nat i)%nat.

(** [pt_adjust_global_vcpu_target]; [None] is the null pointer. *)
Definition pt_adjust_global_vcpu_target (v : option Z) : SE vst unit :=
  match v with
  | None => ret tt
  | Some v =>
      pt_adjust_vcpu PIT_TIMER v;;
      pt_adjust_vcpu RTC_TIMER v;;
      for_each HPET_TIMERS (fun id => pt_adjust_vcpu id v)
  end.

Definition pt_resume (id : nat) : SE vst unit :=
  pt <- the_pt id;;
  match pt_vcpu pt with
  | None => ret tt
  | Some v =>
      when (negb (pending_intr_nr pt =? 0) && negb (on_list pt))
        (upd_pt id (set_list_flag true);;
         list_add id v;;
         vpt_emit (VptKick v))
  end.

(** [pt_may_unmask_irq]: the timers of the platform when [dom], and that of a
    local APIC. *)
Definition pt_may_unmask_irq (dom : bool) (vlapic_pt : option Z) : SE vst unit :=
  when dom
    (pt_resume PIT_TIMER;; pt_resume RTC_TIMER;; for_each HPET_TIMERS pt_resume);;
  match vlapic_pt with Some i => pt_resume (LAPIC_TIMER i) | None => ret tt end.
End Env.
