(* ===== verification/VptOps.v ===== *)
(** * The platform timers: the invariant

    A timer is on the list of a vcpu exactly when its flag says so, and then on
    the list of its own vcpu, once; what the operations are built from keeps
    this. *)

From stdpp Require Import base list numbers.
From Stdlib Require Import ZArith Lia Bool.
From S2P Require Import Prelude Vpic VpicInv VpicOps HvmState Vlapic Vioapic HvmIrq VioapicInv.
From S2P Require Import VioapicOps HvmIrqOps HvmIrqRun VlapicRegs HvmLapic HvmIrqSystem Vpt.

Open Scope Z_scope.
Open Scope se_scope.

(** ** The invariant *)

(** The vcpu on whose list the timer is. *)
Definition place (pt : periodic_time) : option Z := if on_list pt then pt_vcpu pt else None.

Record pt_ok (n : Z) (id : nat) (pt : periodic_time) : Prop := {
  po_source : pt_source pt = if (id <? 5)%nat then PTSRC_isa else PTSRC_lapic;
  po_irq : 0 <= pt_irqno pt <= if (id <? 5)%nat then 15 else 255;
  po_vcpu : forall v, pt_vcpu pt = Some v -> 0 <= v < n;
  po_list : on_list pt = true -> is_Some (pt_vcpu pt);
  po_timer : is_Some (timer_set pt) -> is_Some (pt_vcpu pt);
  po_period : one_shot pt = false -> is_Some (pt_vcpu pt) -> 0 < period pt /\ 0 < schedule_period pt
}.

(** What the interrupt hardware keeps. *)
Record hw_sound (n : Z) (h : hdom) : Prop := {
  hs_inv : irq_inv h;
  hs_callback : callback_via_asserted (h_irq h) = false;
  hs_fit : regs_fit n h
}.

Definition listed (s : vst) : Prop := forall k tm, vs_vcpus s !! k = Some tm -> NoDup (tm_list tm) /\
  forall id, id ∈ tm_list tm <-> exists pt, vs_pts s !! id = Some pt /\ place pt = Some (Z.of_nat k).

Record vpt_ok (n : Z) (s : vst) : Prop := {
  vo_hw : hw_sound n (vs_hw s);
  vo_vcpus : zlen (vs_vcpus s) = n;
  vo_len : length (vs_pts s) = (5 + Z.to_nat n)%nat;
  vo_pts : forall id pt, vs_pts s !! id = Some pt -> pt_ok n id pt;
  vo_lists : listed s;
  vo_coalesce : 0 <= vpt_coalesce_ns (vs_params s)
}.

Section Ok.
Context (n : Z).

Lemma ok_upd id f pt s : vpt_ok n s -> vs_pts s !! id = Some pt -> pt_ok n id (f pt) -> place (f pt) = place pt ->
  vpt_ok n (set_pts (alter f id (vs_pts s)) s).
Proof.
  intros [A1 A2 A3 A4 A5 A6] Hpt Hok Hpl. split; try done.
  - cbn [vs_pts set_pts]. by rewrite length_alter.
  - intros j x Hx. cbn [vs_pts set_pts] in Hx. rewrite list_lookup_alter in Hx. case_decide as Hd; [|by apply A4].
    subst j. rewrite Hpt in Hx. by injection Hx as <-.
  - intros k tm Hk. destruct (A5 k tm Hk) as [H1 H2]. split; [done|]. intros j. rewrite H2. cbn [vs_pts set_pts].
    rewrite list_lookup_alter. case_decide as Hd; [|done]. subst j. rewrite Hpt. cbn [fmap option_fmap option_map].
    split; intros (x & [= <-] & Hx); eexists; (split; [reflexivity|]); congruence.
Qed.

(** The lists after [id] has left that of vcpu [k], or joined it. *)
Lemma ok_relist id f pt k g s : vpt_ok n s -> vs_pts s !! id = Some pt -> pt_ok n id (f pt) ->
  (forall tm, vs_vcpus s !! k = Some tm -> NoDup (tm_list (g tm)) /\
     forall j, j ∈ tm_list (g tm) <-> ((j <> id /\ j ∈ tm_list tm) \/ (j = id /\ place (f pt) = Some (Z.of_nat k)))) ->
  (forall k' tm, k' <> k -> vs_vcpus s !! k' = Some tm -> (id ∉ tm_list tm) /\ place (f pt) <> Some (Z.of_nat k')) ->
  vpt_ok n (set_pts (alter f id (vs_pts s)) (set_vs_vcpus (alter g k (vs_vcpus s)) s)).
Proof.
  intros [A1 A2 A3 A4 A5 A6] Hpt Hok Hk Hother. split; try done.
  - cbn [vs_vcpus set_pts set_vs_vcpus]. unfold zlen in *. by rewrite length_alter.
  - cbn [vs_pts set_pts]. by rewrite length_alter.
  - intros j x Hx. cbn [vs_pts set_pts] in Hx. rewrite list_lookup_alter in Hx. case_decide as Hd; [|by apply A4].
    subst j. rewrite Hpt in Hx. by injection Hx as <-.
  - intros k' tm Htm. cbn [vs_vcpus vs_pts set_pts set_vs_vcpus] in *. rewrite list_lookup_alter in Htm.
    assert (forall j, (exists x, alter f id (vs_pts s) !! j = Some x /\ place x = Some (Z.of_nat k')) <->
      ((j <> id /\ exists x, vs_pts s !! j = Some x /\ place x = Some (Z.of_nat k')) \/
       (j = id /\ place (f pt) = Some (Z.of_nat k')))) as Halt.
    { intros j. destruct (decide (j = id)) as [Hd|Hd].
      - subst j. rewrite list_lookup_alter_eq, Hpt. cbn [fmap option_fmap option_map]. split.
        + intros (x & [= <-] & Hx). by right.
        + intros [[? _]|[_ Hx]]; [done|]. by exists (f pt).
      - rewrite list_lookup_alter_ne by done. split; [intros Hx; left; done|]. intros [[_ Hx]|[? _]]; done. }
    case_decide as Hd.
    + subst k'. destruct (vs_vcpus s !! k) as [tm0|] eqn:E; [|done]. injection Htm as <-.
      destruct (A5 k tm0 E) as [H1 H2]. destruct (Hk tm0 eq_refl) as [G1 G2]. split; [done|].
      intros j. rewrite G2, Halt, H2. done.
    + destruct (A5 k' tm Htm) as [H1 H2]. destruct (Hother k' tm (not_eq_sym Hd) Htm) as [G1 G2]. split; [done|].
      intros j. rewrite Halt. split.
      * intros Hj. left. split; [|by apply H2]. by intros ->.
      * intros [[_ Hx]|[_ Hx]]; [by apply H2|done].
Qed.

(** ** Timers that leave and join lists *)

Lemma place_some id pt v : pt_ok n id pt -> place pt = Some v -> on_list pt = true /\ pt_vcpu pt = Some v /\ 0 <= v < n.
Proof.
  unfold place. intros Hok Hp. destruct (on_list pt); [|done]. split; [done|]. split; [done|]. by apply (po_vcpu _ _ _ Hok).
Qed.

Lemma on_list_place pt : on_list pt = true -> place pt = pt_vcpu pt.
Proof. unfold place. by intros ->. Qed.

Lemma the_tm_wp v s (Q : vpt_vcpu -> vst -> Prop) : vpt_ok n s -> 0 <= v < n ->
  (forall tm, vs_vcpus s !! Z.to_nat v = Some tm -> Q tm s) -> wp (the_tm v) Q s.
Proof.
  intros Hok Hv HQ. destruct (lookup_Z (vs_vcpus s) v) as [tm Htm]; [by rewrite (vo_vcpus _ _ Hok)|].
  unfold the_tm. apply wp_bind, wp_gets. rewrite Htm. apply wp_bind, wp_bug_if; [apply Z.ltb_ge; lia|]. apply wp_ret. by apply HQ.
Qed.

Lemma the_pt_wp id s (Q : periodic_time -> vst -> Prop) : vpt_ok n s -> (id < 5 + Z.to_nat n)%nat ->
  (forall pt, vs_pts s !! id = Some pt -> pt_ok n id pt -> Q pt s) -> wp (the_pt id) Q s.
Proof.
  intros Hok Hid HQ. destruct (lookup_lt_is_Some_2 (vs_pts s) id) as [pt Hpt]; [rewrite (vo_len _ _ Hok); lia|].
  unfold the_pt. apply wp_bind, wp_gets. rewrite Hpt. apply wp_ret. apply HQ; [done|]. by apply (vo_pts _ _ Hok).
Qed.

Definition without (id : nat) (tm : vpt_vcpu) : vpt_vcpu := set_tm_list (filter (fun x => x <> id) (tm_list tm)) tm.
Definition joined (id : nat) (tm : vpt_vcpu) : vpt_vcpu := set_tm_list (id :: tm_list tm) tm.

(** The timer [id] taken from the list of vcpu [v] and changed by [f], or put
    on it. *)
Definition unlinked (id : nat) (v : Z) (f : periodic_time -> periodic_time) (s : vst) : vst :=
  set_pts (alter f id (vs_pts s)) (set_vs_vcpus (alter (without id) (Z.to_nat v) (vs_vcpus s)) s).
Definition linked_to (id : nat) (v : Z) (f : periodic_time -> periodic_time) (s : vst) : vst :=
  set_pts (alter f id (vs_pts s)) (set_vs_vcpus (alter (joined id) (Z.to_nat v) (vs_vcpus s)) s).

Lemma unlinked_ok id v f pt s : vpt_ok n s -> vs_pts s !! id = Some pt -> place pt = Some v ->
  pt_ok n id (f pt) -> on_list (f pt) = false -> vpt_ok n (unlinked id v f s).
Proof.
  intros Hok Hpt Hpl Hf Hoff. destruct (place_some id pt v (vo_pts _ _ Hok _ _ Hpt) Hpl) as (_ & _ & Hv).
  assert (place (f pt) = None) as Hnone by (unfold place; by rewrite Hoff).
  apply (ok_relist id f pt); [done|done|done| |].
  - intros tm Htm. destruct (vo_lists _ _ Hok _ _ Htm) as [H1 H2]. split.
    + by apply list.NoDup_filter.
    + intros j. cbn [tm_list without set_tm_list]. rewrite list_elem_of_filter, Hnone.
      split; [by left|]. intros [H|[_ H]]; done.
  - intros k' tm Hne Htm. rewrite Hnone. split; [|done]. destruct (vo_lists _ _ Hok _ _ Htm) as [_ H2]. rewrite H2.
    intros (x & Hx & Hp). assert (x = pt) as -> by congruence. rewrite Hpl in Hp. injection Hp as Hp. lia.
Qed.

Lemma linked_ok id v f pt s : vpt_ok n s -> vs_pts s !! id = Some pt -> place pt = None -> 0 <= v < n ->
  pt_ok n id (f pt) -> place (f pt) = Some v -> vpt_ok n (linked_to id v f s).
Proof.
  intros Hok Hpt Hpl Hv Hf Hp. assert (forall k tm, vs_vcpus s !! k = Some tm -> id ∉ tm_list tm) as Hno.
  { intros k tm Htm Hin. apply (vo_lists _ _ Hok _ _ Htm) in Hin as (x & Hx & Hpx).
    assert (x = pt) as -> by congruence. congruence. }
  apply (ok_relist id f pt); [done|done|done| |].
  - intros tm Htm. destruct (vo_lists _ _ Hok _ _ Htm) as [H1 H2]. split.
    + apply list.NoDup_cons. split; [by apply (Hno _ _ Htm)|done].
    + intros j. cbn [tm_list joined set_tm_list]. rewrite elem_of_cons, Hp, Z2Nat.id by lia.
      specialize (Hno _ _ Htm). split; [|intros [[_ H]|[-> _]]; auto]. intros [->|Hj]; [by right|]. left. split; [|done]. by intros ->.
  - intros k' tm Hne Htm. split; [by apply (Hno _ _ Htm)|]. rewrite Hp. intros [= Hk]. lia.
Qed.

Lemma list_del_wp id v pt s (Q : unit -> vst -> Prop) : vpt_ok n s -> vs_pts s !! id = Some pt -> place pt = Some v ->
  Q tt (set_vs_vcpus (alter (without id) (Z.to_nat v) (vs_vcpus s)) s) -> wp (list_del id) Q s.
Proof.
  intros Hok Hpt Hpl HQ. destruct (place_some id pt v (vo_pts _ _ Hok _ _ Hpt) Hpl) as (_ & Hv & Hr).
  unfold list_del. apply wp_bind, wp_bind, wp_gets. rewrite Hpt. apply wp_ret, wp_bind. unfold vcpu_of. rewrite Hv.
  apply wp_ret, wp_bind, (the_tm_wp v); [done|done|]. intros tm Htm. apply wp_bind, wp_bug_if.
  - apply negb_false_iff, bool_decide_eq_true. apply (vo_lists _ _ Hok _ _ Htm). exists pt. split; [done|].
    rewrite Hpl. f_equal. lia.
  - unfold upd_tm. apply wp_modify.
    assert (alter (set_tm_list (filter (fun x => x <> id) (tm_list tm))) (Z.to_nat v) (vs_vcpus s) =
            alter (without id) (Z.to_nat v) (vs_vcpus s)) as ->; [|done].
    apply list_alter_ext; [|done]. intros tm' Htm'. assert (tm' = tm) as -> by congruence. done.
Qed.

Lemma list_add_wp id v tm s (Q : unit -> vst -> Prop) : (forall k tm, vs_vcpus s !! k = Some tm -> id ∉ tm_list tm) ->
  0 <= v -> vs_vcpus s !! Z.to_nat v = Some tm ->
  Q tt (set_vs_vcpus (alter (joined id) (Z.to_nat v) (vs_vcpus s)) s) -> wp (list_add id v) Q s.
Proof.
  intros Hno Hv Htm HQ. unfold list_add. apply wp_bind, wp_gets, wp_bind, wp_bug_if.
  - apply bool_decide_eq_false. intros (x & Hin & Hid)%Exists_exists.
    apply list_elem_of_In, list_elem_of_lookup in Hin as [k Hk]. by apply (Hno _ _ Hk).
  - apply wp_bind. unfold the_tm. apply wp_bind, wp_gets. rewrite Htm. apply wp_bind, wp_bug_if; [by apply Z.ltb_ge|].
    apply wp_ret. unfold upd_tm. apply wp_modify.
    assert (alter (set_tm_list (id :: tm_list tm)) (Z.to_nat v) (vs_vcpus s) =
            alter (joined id) (Z.to_nat v) (vs_vcpus s)) as ->; [|done].
    apply list_alter_ext; [|done]. intros tm' Htm'. assert (tm' = tm) as -> by congruence. done.
Qed.

(** [if (pt->on_list) list_del(&pt->list); ...] *)
Lemma drop_wp id f pt s : vpt_ok n s -> vs_pts s !! id = Some pt -> pt_ok n id (f pt) -> on_list (f pt) = false ->
  wp (when (on_list pt) (list_del id);; upd_pt id f)
     (fun _ s' => vpt_ok n s' /\ vs_pts s' = alter f id (vs_pts s) /\ vs_params s' = vs_params s) s.
Proof.
  intros Hok Hpt Hf Hoff. apply wp_bind. destruct (on_list pt) eqn:Hon; cbn [when].
  - destruct (po_list _ _ _ (vo_pts _ _ Hok _ _ Hpt) Hon) as [v Hv].
    assert (place pt = Some v) as Hpl by (by rewrite on_list_place).
    apply (list_del_wp id v pt); [done|done|done|]. unfold upd_pt. apply wp_modify. split; [|done].
    exact (unlinked_ok id v f pt s Hok Hpt Hpl Hf Hoff).
  - apply wp_ret. unfold upd_pt. apply wp_modify. split; [|done]. apply (ok_upd id f pt); [done|done|done|].
    unfold place. by rewrite Hon, Hoff.
Qed.

(** [pt->on_list = 1; list_add(&pt->list, ...)] *)
Lemma link_wp id v pt s : vpt_ok n s -> vs_pts s !! id = Some pt -> on_list pt = false -> pt_vcpu pt = Some v ->
  wp (upd_pt id (set_list_flag true);; list_add id v)
     (fun _ s' => vpt_ok n s' /\ vs_pts s' = alter (set_list_flag true) id (vs_pts s) /\ vs_params s' = vs_params s) s.
Proof.
  intros Hok Hpt Hoff Hv. pose proof (vo_pts _ _ Hok _ _ Hpt) as Hp. pose proof (po_vcpu _ _ _ Hp v Hv) as Hr.
  assert (place pt = None) as Hpl by (unfold place; by rewrite Hoff).
  apply wp_bind. unfold upd_pt. apply wp_modify.
  destruct (lookup_Z (vs_vcpus s) v) as [tm Htm]; [by rewrite (vo_vcpus _ _ Hok)|].
  apply (list_add_wp id v tm); [|lia|done|].
  - intros k tm' Hk Hin. apply (vo_lists _ _ Hok _ _ Hk) in Hin as (x & Hx & Hpx). congruence.
  - split; [|done]. refine (linked_ok id v (set_list_flag true) pt s Hok Hpt Hpl Hr _ Hv).
    destruct Hp. by split.
Qed.
End Ok.

(** * The platform timers: every operation keeps the invariant *)

Section Ops.
Context (clk : nat -> Z) (n : Z).

(** ** Operations that keep the invariant and the owners of the timers *)

Section Good.
Context (s0 : vst).

Definition same_owner (pt pt' : periodic_time) : Prop :=
  pt_vcpu pt' = pt_vcpu pt /\ one_shot pt' = one_shot pt /\ on_list pt' = on_list pt.
Definition tkept (s : vst) : Prop := vpt_ok n s /\ Forall2 same_owner (vs_pts s0) (vs_pts s).
Definition tgood {A} (m : SE vst A) : Prop := forall s, tkept s -> wp m (fun _ => tkept) s.

(** A timer that has been created. *)
Definition owned (id : nat) : Prop := exists pt, vs_pts s0 !! id = Some pt /\ is_Some (pt_vcpu pt).

Lemma tgood_ret {A} (a : A) : tgood (ret a).
Proof. by intros s Hs. Qed.
Lemma tgood_bind {A B} (m : SE vst A) (k : A -> SE vst B) : tgood m -> (forall a, tgood (k a)) -> tgood (bind m k).
Proof. intros Hm Hk s Hs. apply wp_bind. eapply wp_mono; [by apply Hm|]. intros a s' Hs'. by apply Hk. Qed.
Lemma tgood_when b m : tgood m -> tgood (when b m).
Proof. intros Hm. destruct b; [done|apply tgood_ret]. Qed.
Lemma tgood_gets {A} (f : vst -> A) : tgood (gets f).
Proof. by intros s Hs. Qed.
Lemma tgood_get {B} (k : vst -> SE vst B) : (forall s, tgood (k s)) -> tgood (bind get k).
Proof. intros Hk s Hs. apply wp_bind, wp_get. by apply Hk. Qed.
Lemma tgood_emit e : tgood (vpt_emit e).
Proof. intros s [[] Ho]. unfold vpt_emit. apply wp_modify. by split; [split|]. Qed.
Lemma tgood_NOW : tgood (NOW clk).
Proof.
  intros s [[] Ho]. unfold NOW. apply wp_bind, wp_gets, wp_bind, wp_modify, wp_ret. by split; [split|].
Qed.
Lemma tgood_pl a b : tgood (modify (set_pl_time a b)).
Proof. intros s [[] Ho]. apply wp_modify. by split; [split|]. Qed.

Lemma tgood_tm {B} v (k : vpt_vcpu -> SE vst B) : 0 <= v < n -> (forall tm, tgood (k tm)) -> tgood (bind (the_tm v) k).
Proof. intros Hv Hk s Hs. apply wp_bind, (the_tm_wp n); [apply Hs|done|]. intros tm _. by apply Hk. Qed.

Lemma owner_back s id pt : tkept s -> vs_pts s !! id = Some pt ->
  exists pt0, vs_pts s0 !! id = Some pt0 /\ same_owner pt0 pt.
Proof. intros [Hok Ho] Hpt. destruct (Forall2_lookup_r _ _ _ _ _ Ho Hpt) as (pt0 & H1 & H2). eauto. Qed.
Lemma owner_now s id : tkept s -> owned id -> exists pt, vs_pts s !! id = Some pt /\ is_Some (pt_vcpu pt) /\ pt_ok n id pt.
Proof.
  intros [Hok Ho] (pt0 & H1 & H2). destruct (Forall2_lookup_l _ _ _ _ _ Ho H1) as (pt & H3 & H4 & _ & _).
  exists pt. split; [done|]. split; [by rewrite H4|]. by apply (vo_pts _ _ Hok).
Qed.
Lemma owned_id s id : tkept s -> owned id -> (id < 5 + Z.to_nat n)%nat.
Proof.
  intros Hs Ho. destruct (owner_now s id Hs Ho) as (pt & Hpt & _). apply lookup_lt_Some in Hpt.
  by rewrite (vo_len _ _ (proj1 Hs)) in Hpt.
Qed.

(** The timers on a list have been created. *)
Lemma listed_owned s v tm : tkept s -> vs_vcpus s !! Z.to_nat v = Some tm -> Forall owned (tm_list tm).
Proof.
  intros Hs Htm. apply Forall_forall. intros id Hid%list_elem_of_In.
  apply (vo_lists _ _ (proj1 Hs) _ _ Htm) in Hid as (pt & Hpt & Hpl). destruct (owner_back s id pt Hs Hpt) as (pt0 & H0 & H1 & _ & _).
  exists pt0. split; [done|]. apply (place_some n id) in Hpl as (_ & Hv & _); [|by apply (vo_pts _ _ (proj1 Hs))].
  rewrite <- H1, Hv. by eexists.
Qed.

Lemma owners_alter l0 l id f : (forall pt, l !! id = Some pt -> same_owner pt (f pt)) -> Forall2 same_owner l0 l ->
  Forall2 same_owner l0 (alter f id l).
Proof.
  intros Hf Hl. revert id Hf. induction Hl as [|x y l0 l Hxy Hl IH]; intros [|id] Hf; cbn; constructor; try done.
  - destruct (Hf y eq_refl) as (H1 & H2 & H3). destruct Hxy as (H4 & H5 & H6). split_and!; congruence.
  - apply IH. exact Hf.
Qed.

(** A change of one timer. *)
Lemma tgood_upd_at id f s : tkept s -> (forall pt, vs_pts s !! id = Some pt -> pt_ok n id pt ->
    pt_ok n id (f pt) /\ place (f pt) = place pt /\ same_owner pt (f pt)) ->
  wp (upd_pt id f) (fun _ => tkept) s.
Proof.
  intros [Hok Ho] Hf. unfold upd_pt. apply wp_modify.
  assert (Forall2 same_owner (vs_pts s0) (alter f id (vs_pts s))) as Ho'.
  { apply owners_alter; [|done]. intros pt Hpt. by apply Hf, (vo_pts _ _ Hok). }
  split; [|exact Ho']. destruct (vs_pts s !! id) as [pt|] eqn:E.
  - destruct (Hf pt eq_refl (vo_pts _ _ Hok _ _ E)) as (H1 & H2 & _). by apply (ok_upd n id f pt).
  - assert (alter f id (vs_pts s) = vs_pts s) as ->; [|by destruct s].
    rewrite (list_alter_ext f (fun x => x) _ _ id) by (try done; intros x Hx; congruence). by apply list_alter_id.
Qed.
Lemma tgood_upd id f : (forall pt, pt_ok n id pt -> pt_ok n id (f pt) /\ place (f pt) = place pt /\ same_owner pt (f pt)) ->
  tgood (upd_pt id f).
Proof. intros Hf s Hs. apply tgood_upd_at; [done|]. intros pt _. apply Hf. Qed.

Lemma tgood_set_timer id : owned id -> tgood (pt_set_timer id).
Proof.
  intros Hid s Hs. apply tgood_upd_at; [done|]. intros pt Hpt [A1 A2 A3 A4 A5 A6].
  destruct (owner_now s id Hs Hid) as (pt' & Hpt' & Hv & _). assert (pt' = pt) as -> by congruence.
  split; [by split|done].
Qed.
Lemma tgood_stop_timer id : tgood (pt_stop_timer id).
Proof. apply tgood_upd. intros pt []. split; [|done]. split; try done. by intros [? ?]. Qed.

Lemma tgood_pt {B} id (k : periodic_time -> SE vst B) : owned id ->
  (forall pt, pt_ok n id pt -> is_Some (pt_vcpu pt) -> tgood (k pt)) -> tgood (bind (the_pt id) k).
Proof.
  intros Hid Hk s Hs. destruct (owner_now s id Hs Hid) as (pt & Hpt & Hv & Hp). apply wp_bind, (the_pt_wp n);
    [apply Hs|by apply (owned_id s)|]. intros pt' Hpt' Hp'. assert (pt' = pt) as -> by congruence. by apply Hk.
Qed.

Lemma tgood_upd_tm v f : (forall tm, tm_list (f tm) = tm_list tm) -> tgood (upd_tm v f).
Proof.
  intros Hf s [[A1 A2 A3 A4 A5 A6] Ho]. unfold upd_tm. apply wp_modify. split; [|done]. split; try done.
  - unfold zlen in *. cbn [vs_vcpus set_vs_vcpus]. by rewrite length_alter.
  - intros k tm Hk. cbn [vs_vcpus set_vs_vcpus vs_pts] in *. rewrite list_lookup_alter in Hk. case_decide; [|by apply A5].
    subst k. destruct (vs_vcpus s !! Z.to_nat v) as [tm0|] eqn:E; [|done]. injection Hk as <-. rewrite Hf. by apply A5.
Qed.

Lemma tgood_for_each l body : Forall owned l -> (forall id, owned id -> tgood (body id)) -> tgood (for_each l body).
Proof. intros Hl Hb. induction Hl as [|id l Hid Hl IH]; cbn [for_each]; [apply tgood_ret|]. apply tgood_bind; auto. Qed.

(** The timers of a vcpu. *)
Lemma tgood_list {B} v (k : vpt_vcpu -> SE vst B) : 0 <= v < n ->
  (forall tm, Forall owned (tm_list tm) -> tgood (k tm)) -> tgood (bind (the_tm v) k).
Proof.
  intros Hv Hk s Hs. apply wp_bind, (the_tm_wp n); [apply Hs|done|]. intros tm Htm. apply Hk; [|done].
  by apply (listed_owned s v).
Qed.

(** ** Time and ticks *)

Lemma tgood_get_time v : 0 <= v < n -> tgood (hvm_get_guest_time clk v).
Proof.
  intros Hv. apply tgood_bind; [apply tgood_NOW|]. intros t. apply tgood_get. intros s.
  apply tgood_bind; [apply tgood_pl|]. intros _. apply tgood_tm; [done|]. intros tm. apply tgood_ret.
Qed.
Lemma tgood_set_time v t : 0 <= v < n -> tgood (hvm_set_guest_time clk v t).
Proof.
  intros Hv. apply tgood_bind; [by apply tgood_get_time|]. intros t'. by apply tgood_upd_tm.
Qed.
Lemma tgood_bug_if {B} b (k : unit -> SE vst B) : b = false -> tgood (k tt) -> tgood (bind (bug_if b) k).
Proof. intros -> Hk s Hs. apply wp_bind, wp_bug_if; [done|]. by apply Hk. Qed.
Lemma tgood_bug_if' b : b = false -> tgood (bug_if b).
Proof. intros -> s Hs. by apply wp_bug_if. Qed.

Lemma tgood_ticks id a b : tgood (upd_pt id (set_ticks a b)).
Proof. apply tgood_upd. intros pt []. split; [by split|done]. Qed.

Lemma tgood_pending id pt now : one_shot pt = false -> pt_ok n id pt -> is_Some (pt_vcpu pt) ->
  tgood (calculate_pending_ticks pt now).
Proof.
  intros Ho Hp Hv. destruct (po_period _ _ _ Hp Ho Hv) as [H1 _]. unfold calculate_pending_ticks. rewrite Ho.
  repeat case_match; try apply tgood_ret. apply tgood_bug_if; [apply Z.eqb_neq; lia|apply tgood_ret].
Qed.

Lemma tgood_missed id : owned id -> tgood (pt_process_missed_ticks clk id).
Proof.
  intros Hid. apply tgood_pt; [done|]. intros pt Hp Hv. apply tgood_bind; [apply tgood_NOW|]. intros now.
  destruct (one_shot pt) eqn:Ho; [apply tgood_ret|]. destruct (now <=? scheduled pt); [apply tgood_ret|].
  destruct (po_period _ _ _ Hp Ho Hv) as [H1 H2].
  apply tgood_bind; [by apply (tgood_pending id)|]. intros p. apply tgood_bind; [apply tgood_gets|]. intros prm.
  apply tgood_bind; [|intros _; apply tgood_bug_if; [apply Z.eqb_neq; lia|]].
  - destruct (_ <? _); [apply tgood_bind; [apply tgood_ticks|intros _; apply tgood_emit]|].
    apply tgood_bug_if; [|apply tgood_ticks]. replace (period pt =? 0) with false by (symmetry; apply Z.eqb_neq; lia).
    by rewrite andb_false_r.
  - apply tgood_upd. intros pt' []. split; [by split|done].
Qed.

(** ** Descheduling and expiry *)

Lemma tgood_freeze v : 0 <= v < n -> tgood (pt_freeze_time clk v).
Proof.
  intros Hv. apply tgood_bind; [apply tgood_gets|]. intros p. destruct (negb _); [apply tgood_ret|].
  apply tgood_bind; [by apply tgood_get_time|]. intros t. by apply tgood_upd_tm.
Qed.
Lemma tgood_thaw v : 0 <= v < n -> tgood (pt_thaw_time clk v).
Proof.
  intros Hv. apply tgood_bind; [apply tgood_gets|]. intros p. destruct (negb _); [apply tgood_ret|].
  apply tgood_tm; [done|]. intros tm. destruct (_ =? _); [apply tgood_ret|].
  apply tgood_bind; [by apply tgood_set_time|]. intros _. by apply tgood_upd_tm.
Qed.
Lemma tgood_save v : 0 <= v < n -> tgood (pt_save_timer clk v).
Proof.
  intros Hv. apply tgood_list; [done|]. intros tm Hl. apply tgood_bind; [apply tgood_gets|]. intros p.
  repeat (case_match; [apply tgood_ret|]). apply tgood_bind; [|intros _; by apply tgood_freeze].
  apply tgood_for_each; [done|]. intros id _. apply tgood_when, tgood_stop_timer.
Qed.
Lemma tgood_restore v : 0 <= v < n -> tgood (pt_restore_timer clk v).
Proof.
  intros Hv. apply tgood_list; [done|]. intros tm Hl. apply tgood_bind; [|intros _; by apply tgood_thaw].
  apply tgood_for_each; [done|]. intros id Hid. apply tgood_pt; [done|]. intros pt Hp Hpv. apply tgood_when.
  apply tgood_bind; [by apply tgood_missed|]. intros _. by apply tgood_set_timer.
Qed.
Lemma tgood_fire id : owned id -> tgood (pt_timer_fn clk id).
Proof.
  intros Hid. apply tgood_bind; [apply tgood_stop_timer|]. intros _. apply tgood_pt; [done|]. intros pt Hp [v Hv].
  unfold vcpu_of. rewrite Hv. apply tgood_bind; [apply tgood_ret|]. intros v0.
  apply tgood_bind; [|intros _; apply tgood_emit]. destruct (one_shot pt).
  - apply tgood_upd. intros pt' []. split; [by split|done].
  - apply tgood_bind; [by apply tgood_missed|]. intros _. apply tgood_pt; [done|]. intros pt' _ _.
    apply tgood_when. by apply tgood_set_timer.
Qed.
Lemma tgood_collapse v : 0 <= v < n -> tgood (pt_collapse_ticks v).
Proof.
  intros Hv. apply tgood_list; [done|]. intros tm Hl. apply tgood_for_each; [done|]. intros id _.
  apply tgood_upd. intros pt' []. split; [by split|done].
Qed.
Lemma tgood_unpause v : 0 <= v < n -> tgood (pt_unpause v).
Proof. intros Hv. apply tgood_bind; [apply tgood_gets|]. intros p. by apply tgood_when, tgood_collapse. Qed.
Lemma tgood_migrate v : 0 <= v < n -> tgood (pt_migrate v).
Proof.
  intros Hv. apply tgood_list; [done|]. intros tm Hl. apply tgood_for_each; [done|]. intros id _. apply tgood_emit.
Qed.

(** ** Periods *)

Lemma schedule_period_pos p pt : 0 <= vpt_coalesce_ns p -> 0 < period pt -> 0 < schedule_period_of p pt.
Proof.
  intros Hc Hp. unfold schedule_period_of. destruct (vpt_coalesce_ns p =? 0) eqn:E; [done|]. apply Z.eqb_neq in E.
  cbn [negb andb]. case_match; lia.
Qed.

Lemma tgood_period_one id : owned id -> tgood (pt_update_schedule_period_one id).
Proof.
  intros Hid s Hs. destruct (owner_now s id Hs Hid) as (pt & Hpt & Hv & Hp). apply wp_bind, (the_pt_wp n);
    [apply Hs|by apply (owned_id s)|]. intros pt' Hpt' _. assert (pt' = pt) as -> by congruence.
  apply wp_bind, wp_gets. apply wp_when; [|done]. intros Ho%negb_true_iff. cbv zeta. apply tgood_upd_at; [done|].
  intros pt' Hpt'' Hp'. assert (pt' = pt) as -> by congruence. destruct (po_period _ _ _ Hp Ho Hv) as [H1 H2].
  pose proof (schedule_period_pos _ pt (vo_coalesce _ _ (proj1 Hs)) H1). destruct Hp. split; [by split|done].
Qed.
Lemma tgood_periods v : 0 <= v < n -> tgood (pt_update_schedule_period v).
Proof. intros Hv. apply tgood_list; [done|]. intros tm Hl. apply tgood_for_each; [done|]. apply tgood_period_one. Qed.

Lemma u8_small x : 0 <= x <= 255 -> u8 x = x.
Proof. intros Hx. unfold u8. apply Z.mod_small. lia. Qed.

Lemma tgood_update id irq p k : owned id -> (forall pt, vs_pts s0 !! id = Some pt -> one_shot pt = false) ->
  0 < p -> 0 <= irq <= (if (id <? 5)%nat then 15 else 255) -> tgood (update_periodic_time clk id irq p k).
Proof.
  intros Hid Hper Hp Hirq s Hs. destruct (owner_now s id Hs Hid) as (pt & Hpt & [v Hv] & _).
  destruct (owner_back s id pt Hs Hpt) as (pt0 & H0 & _ & H1 & _). rewrite (Hper pt0 H0) in H1.
  apply wp_bind, (the_pt_wp n); [apply Hs|by apply (owned_id s)|]. intros pt' Hpt' _. assert (pt' = pt) as -> by congruence.
  apply wp_bind, wp_bug_if; [done|]. apply wp_bind. unfold vcpu_of. rewrite Hv. apply wp_ret. revert s Hs Hpt Hpt'.
  cut (tgood (pt_process_missed_ticks clk id;;
    upd_pt id (fun pt => set_ticks (u32 k) (u64 (time_done pt - pending_intr_nr pt * period pt + period pt * k)) pt);;
    upd_pt id (fun pt => if pt_irqno pt =? irq then pt else set_irq_issued false (set_rate (u8 irq) (period pt) pt));;
    upd_pt id (fun pt => set_rate (pt_irqno pt) p pt);; pt_update_schedule_period_one id;; pt_set_timer id));
    [by intros H s Hs _ _; apply H|].
  assert (u8 irq = irq) as Hu by (apply u8_small; case_match; lia). rewrite Hu.
  apply tgood_bind; [by apply tgood_missed|]. intros _. apply tgood_bind; [apply tgood_upd; intros x []; split; [by split|done]|].
  intros _. apply tgood_bind; [apply tgood_upd; intros x Hx; destruct (pt_irqno x =? irq); [done|]; destruct Hx; split; [by split|done]|].
  intros _. apply tgood_bind; [apply tgood_upd; intros x [A1 A2 A3 A4 A5 A6]; split; [|done]; split; try done|intros _].
  - intros Hx Hx'. split; [done|]. by apply A6.
  - apply tgood_bind; [by apply tgood_period_one|]. intros _. by apply tgood_set_timer.
Qed.
End Good.
End Ops.
