(* ===== verification/VptLists.v ===== *)
(** * The platform timers: creation, delivery and the lists

    The operations that move timers between the lists of the vcpus succeed and
    keep the invariant. *)

From stdpp Require Import base list numbers.
From Stdlib Require Import ZArith Lia Bool.
From S2P Require Import Prelude Vpic VpicInv VpicOps HvmState Vlapic Vioapic HvmIrq VioapicInv.
From S2P Require Import VioapicOps HvmIrqOps HvmIrqRun VlapicRegs HvmLapic HvmIrqSystem Vpt VptOps.

Open Scope Z_scope.
Open Scope se_scope.

Section Lists.
Context (clk : nat -> Z) (n : Z).

Lemma tkept_refl s : vpt_ok n s -> tkept n s s.
Proof. intros Hs. split; [done|]. induction (vs_pts s); constructor; done. Qed.

Lemma tgood_ok {A} (m : SE vst A) s : tgood n s m -> vpt_ok n s -> wp m (fun _ => tkept n s) s.
Proof. intros Hm Hs. by apply Hm, tkept_refl. Qed.

Lemma kept_lookup s0 s id pt0 : tkept n s0 s -> vs_pts s0 !! id = Some pt0 ->
  exists pt, vs_pts s !! id = Some pt /\ same_owner pt0 pt /\ pt_ok n id pt.
Proof.
  intros [Hok Ho] H0. destruct (Forall2_lookup_l _ _ _ _ _ Ho H0) as (pt & H1 & H2). exists pt.
  split; [done|]. split; [done|]. by apply (vo_pts _ _ Hok).
Qed.

Lemma off_ok id pt : pt_ok n id pt -> pt_ok n id (set_list_flag false pt).
Proof. intros []. by split. Qed.
Lemma idle_ok id pt : pt_ok n id pt -> pt_ok n id (set_pending 0 (set_list_flag false pt)).
Proof. intros []. by split. Qed.

(** ** Destruction and creation *)

Lemma destroy_wp id s : vpt_ok n s -> (id < 5 + Z.to_nat n)%nat ->
  wp (destroy_periodic_time id) (fun _ s' => vpt_ok n s' /\ exists pt, vs_pts s' !! id = Some pt /\ on_list pt = false) s.
Proof.
  intros Hs Hid. apply wp_bind, (the_pt_wp n); [done|done|]. intros pt Hpt Hp. destruct (pt_vcpu pt) as [v|] eqn:Hv.
  - apply wp_bind_bind. eapply wp_mono; [apply (drop_wp n id _ pt s Hs Hpt); [by apply idle_ok|done]|].
    intros [] s1 (Hok & Hp1 & _). eapply wp_mono; [apply tgood_ok; [apply tgood_stop_timer|done]|].
    intros [] s2 Hk. split; [apply Hk|].
    destruct (kept_lookup s1 s2 id (set_pending 0 (set_list_flag false pt)) Hk) as (pt2 & H2 & (_ & _ & H3) & _);
      [by rewrite Hp1, list_lookup_alter_eq, Hpt|]. by exists pt2.
  - apply wp_ret. split; [done|]. exists pt. split; [done|]. destruct (on_list pt) eqn:E; [|done].
    destruct (po_list _ _ _ Hp E). congruence.
Qed.

Lemma created_ok v delta p irq t now cb id pt : 0 <= v < n -> p = 0 \/ 0 < p ->
  0 <= irq <= (if (id <? 5)%nat then 15 else 255) -> pt_ok n id pt ->
  pt_ok n id (created v delta p irq t now cb pt).
Proof.
  intros Hv Hp Hirq []. split; cbn; try done; eauto; [by intros ? [= <-]|]. intros ?%Z.eqb_neq _. lia.
Qed.

(** The flag of a timer that is on no list set, and the timer on its list. *)
Lemma joins_wp id v pt s (Q : unit -> vst -> Prop) (k : SE vst unit) : vpt_ok n s -> vs_pts s !! id = Some pt ->
  on_list pt = false -> pt_vcpu pt = Some v ->
  (forall s', vpt_ok n s' -> vs_pts s' !! id = Some (set_list_flag true pt) -> wp k Q s') ->
  wp (upd_pt id (set_list_flag true);; list_add id v;; k) Q s.
Proof.
  intros Hs Hpt Hoff Hv Hk. apply wp_bind_bind. eapply wp_mono; [by apply (link_wp n id v pt)|].
  intros [] s' (Hok & Hp & _). apply Hk; [done|]. by rewrite Hp, list_lookup_alter_eq, Hpt.
Qed.

Lemma tgood_settle id src delta s0 : owned s0 id ->
  tgood n s0 (pt_update_schedule_period_one id;;
    prm <- gets vs_params;;
    when ((src =? PTSRC_lapic) && (vpt_align prm =? 0))
      (upd_pt id (fun pt => set_scheduled (schedule_period pt) (s64 (scheduled pt + Z.shiftr delta 1)) pt))).
Proof.
  intros Ho. apply tgood_bind; [by apply tgood_period_one|]. intros _. apply tgood_bind; [apply tgood_gets|].
  intros prm. apply tgood_when, tgood_upd. intros pt []. split; [by split|done].
Qed.

Lemma create_wp v id delta p irq cb s : vpt_ok n s -> (id < 5 + Z.to_nat n)%nat -> 0 <= v < n -> 0 <= p ->
  0 <= irq <= (if (id <? 5)%nat then 15 else 255) ->
  wp (create_periodic_time clk v id delta p irq cb) (fun _ s' => vpt_ok n s' /\
    exists pt, vs_pts s' !! id = Some pt /\ is_Some (pt_vcpu pt) /\ one_shot pt = (p =? 0)) s.
Proof.
  intros Hs Hid Hv Hp Hirq. apply wp_bind, (the_pt_wp n); [done|done|]. intros pt Hpt Hpo.
  apply wp_bind, wp_bug_if. { rewrite (po_source _ _ _ Hpo). by destruct (id <? 5)%nat. }
  apply wp_bind. eapply wp_mono; [by apply destroy_wp|]. intros [] s1 (Hs1 & pt1 & Hpt1 & Hoff1). cbv zeta.
  set (short := (p <? 100000) && negb (p =? 0)). set (p' := if short then 100000 else p).
  apply wp_bind. eapply wp_mono; [apply tgood_ok; [|exact Hs1]|].
  { apply tgood_when, tgood_upd. intros x []. split; [by split|done]. }
  intros [] s2 K2. apply wp_bind. eapply wp_mono; [apply tgood_get_time; [exact Hv|exact K2]|]. intros t s3 K3.
  apply wp_bind. eapply wp_mono; [apply tgood_NOW; exact K3|]. intros now s4 K4.
  destruct (kept_lookup s1 s4 id pt1 K4 Hpt1) as (pt4 & Hpt4 & (_ & _ & Hoff4) & Hp4). rewrite Hoff1 in Hoff4.
  assert (u8 irq = irq) as -> by (apply u8_small; destruct (id <? 5)%nat; lia).
  assert (p' = 0 \/ 0 < p') as Hp' by (unfold p'; destruct short; lia).
  apply wp_bind. unfold upd_pt at 1. apply wp_modify.
  assert (vpt_ok n (set_pts (alter (created v delta p' irq t now cb) id (vs_pts s4)) s4)) as Hs5.
  { apply (ok_upd n id _ pt4); [apply K4|done|by apply created_ok|]. unfold place. cbn. by rewrite Hoff4. }
  revert Hs5. set (s5 := set_pts _ s4). intros Hs5.
  assert (vs_pts s5 !! id = Some (created v delta p' irq t now cb pt4)) as Hpt5
    by (cbn; by rewrite list_lookup_alter_eq, Hpt4).
  assert (owned s5 id) as Ho5 by (eexists; split; [exact Hpt5|by eexists]).
  apply wp_bind. eapply wp_mono; [apply tgood_ok; [apply tgood_when, tgood_settle; exact Ho5|exact Hs5]|].
  intros [] s6 K6. apply wp_bind. eapply wp_mono; [apply (tgood_upd n s5 id set_t0); [|exact K6]|].
  { intros x []. split; [by split|done]. }
  intros [] s7 K7. destruct (kept_lookup s5 s7 id _ K7 Hpt5) as (pt7 & Hpt7 & (Hv7 & Hone7 & Hoff7) & _).
  apply (joins_wp id v pt7); [apply K7|done|by rewrite Hoff7|done|]. intros s8 Hs8 Hpt8.
  eapply wp_mono; [apply tgood_ok; [apply tgood_set_timer|exact Hs8]|].
  { eexists. split; [exact Hpt8|]. cbn. rewrite Hv7. by eexists. }
  intros [] s9 K9. split; [apply K9|]. destruct (kept_lookup s8 s9 id _ K9 Hpt8) as (pt9 & Hpt9 & (Hv9 & Hone9 & _) & _).
  exists pt9. split; [done|]. split; [rewrite Hv9; cbn; rewrite Hv7; by eexists|].
  rewrite Hone9. cbn. rewrite Hone7. cbn. unfold p', short.
  destruct (Z.eqb_spec p 0) as [->|]; [done|]. by destruct (p <? 100000); cbn; [|apply Z.eqb_neq].
Qed.

(** ** The vcpu of a timer *)

Lemma adjust_wp id v s : vpt_ok n s -> (id < 5)%nat -> 0 <= v < n -> wp (pt_adjust_vcpu id v) (fun _ => vpt_ok n) s.
Proof.
  intros Hs Hid Hv. apply wp_bind, (the_pt_wp n); [done|lia|]. intros pt Hpt Hp.
  apply wp_bind, wp_bug_if. { rewrite (po_source _ _ _ Hp). destruct (Nat.ltb_spec id 5); [done|lia]. }
  destruct (pt_vcpu pt) as [w|] eqn:Hw; [|by apply wp_ret].
  apply wp_bind_bind. eapply wp_mono; [apply (drop_wp n id _ pt s Hs Hpt); [by apply off_ok|done]|].
  intros [] s1 (Hs1 & Hp1 & _). set (pt1 := set_list_flag false pt).
  assert (vs_pts s1 !! id = Some pt1) as Hpt1 by (by rewrite Hp1, list_lookup_alter_eq, Hpt).
  apply wp_bind. unfold upd_pt at 1. apply wp_modify.
  assert (vpt_ok n (set_pts (alter (set_pt_vcpu (Some v)) id (vs_pts s1)) s1)) as Hs2.
  { apply (ok_upd n id _ pt1); [done|done| |done]. destruct (off_ok id pt Hp) as [A1 A2 A3 A4 A5 A6]. split; [done|done|by intros ? [= <-]|by eexists|by eexists|].
    intros Ho _. apply A6; [done|]. cbn. rewrite Hw. by eexists. }
  destruct (on_list pt) eqn:Hon; cbn [when]; [|by apply wp_ret].
  apply (joins_wp id v (set_pt_vcpu (Some v) pt1)); [done| |done|done|].
  - cbn [vs_pts set_pts]. by rewrite list_lookup_alter_eq, Hpt1.
  - intros s3 Hs3 _. eapply wp_mono; [apply tgood_ok; [apply tgood_emit|done]|]. by intros [] s4 K; apply K.
Qed.

Lemma for_each_ok l body : (forall id s, id ∈ l -> vpt_ok n s -> wp (body id) (fun _ => vpt_ok n) s) ->
  forall s, vpt_ok n s -> wp (for_each l body) (fun _ => vpt_ok n) s.
Proof.
  intros Hb. induction l as [|id l IH]; intros s Hs; cbn [for_each]; [done|]. apply wp_bind.
  eapply wp_mono; [by apply Hb; [left|]|]. intros [] s' Hs'. apply IH; [|done]. intros j x Hj. apply Hb. by right.
Qed.

Lemma hpet_timers id : id ∈ HPET_TIMERS -> (2 <= id < 5)%nat.
Proof. unfold HPET_TIMERS, HPET_TIMER_NUM. cbn. rewrite !elem_of_cons, elem_of_nil. lia. Qed.

Lemma adjust_global_wp v s : vpt_ok n s -> (forall i, v = Some i -> 0 <= i < n) ->
  wp (pt_adjust_global_vcpu_target v) (fun _ => vpt_ok n) s.
Proof.
  intros Hs Hv. destruct v as [v|]; [|done]. specialize (Hv v eq_refl). unfold pt_adjust_global_vcpu_target.
  apply wp_bind. eapply wp_mono; [apply adjust_wp; [done|unfold PIT_TIMER; lia|done]|]. intros [] s1 Hs1.
  apply wp_bind. eapply wp_mono; [apply adjust_wp; [done|unfold RTC_TIMER; lia|done]|]. intros [] s2 Hs2.
  apply for_each_ok; [|done]. intros id s' Hid%hpet_timers Hs'. apply adjust_wp; [done|lia|done].
Qed.

Lemma resume_wp id s : vpt_ok n s -> (id < 5 + Z.to_nat n)%nat -> wp (pt_resume id) (fun _ => vpt_ok n) s.
Proof.
  intros Hs Hid. apply wp_bind, (the_pt_wp n); [done|done|]. intros pt Hpt Hp.
  destruct (pt_vcpu pt) as [v|] eqn:Hv; [|done]. apply wp_when; [|done]. intros [_ Hoff%negb_true_iff]%andb_true_iff.
  apply (joins_wp id v pt); [done|done|done|done|]. intros s' Hs' _.
  eapply wp_mono; [apply tgood_ok; [apply tgood_emit|done]|]. by intros [] s4 K; apply K.
Qed.

Lemma unmask_wp dom i s : vpt_ok n s -> (forall j, i = Some j -> 0 <= j < n) ->
  wp (pt_may_unmask_irq dom i) (fun _ => vpt_ok n) s.
Proof.
  intros Hs Hi. apply wp_bind. eapply (wp_mono _ (fun _ => vpt_ok n)).
  - apply wp_when; [|done]. intros _.
    apply wp_bind. eapply wp_mono; [apply resume_wp; [done|unfold PIT_TIMER; lia]|]. intros [] s1 Hs1.
    apply wp_bind. eapply wp_mono; [apply resume_wp; [done|unfold RTC_TIMER; lia]|]. intros [] s2 Hs2.
    apply for_each_ok; [|done]. intros id s' Hid%hpet_timers Hs'. apply resume_wp; [done|lia].
  - intros [] s1 Hs1. destruct i as [j|]; [|done]. specialize (Hi j eq_refl). apply resume_wp; [done|]. unfold LAPIC_TIMER. lia.
Qed.

(** ** Delivery *)

(** The vector of the interrupt of a timer. *)
Definition timer_vector (h : hdom) (pic : bool) (pt : periodic_time) : Z :=
  if pt_source pt =? PTSRC_lapic then pt_irqno pt
  else if pic then irq_base (the_pic (Z.to_nat (Z.shiftr (pt_irqno pt) 3)) (h_pics h)) + Z.land (pt_irqno pt) 7
  else rte_vector (default 0 (redirtbl (h_ioapic h) !! Z.to_nat (hvm_isa_irq_to_gsi (pt_irqno pt)))).

Lemma hw_wp {A} (m : SE hdom A) (Q : A -> vst -> Prop) s : wp m (fun a h => h = vs_hw s /\ Q a s) (vs_hw s) -> wp (hw m) Q s.
Proof.
  intros Hm. apply wp_zoom. eapply wp_mono; [exact Hm|]. intros a h [-> HQ]. by destruct s.
Qed.

Lemma isa_irq_range id pt : pt_ok n id pt -> (pt_source pt =? PTSRC_lapic) = false -> 0 <= pt_irqno pt <= 15.
Proof.
  intros Hp Hsrc. pose proof (po_irq _ _ _ Hp) as Hi. rewrite (po_source _ _ _ Hp) in Hsrc. by destruct (id <? 5)%nat.
Qed.

Lemma pic_at_wp irq (Q : hvm_hw_vpic -> vst -> Prop) s : 0 <= irq <= 15 ->
  Q (the_pic (Z.to_nat (Z.shiftr irq 3)) (h_pics (vs_hw s))) s -> wp (pic_at irq) Q s.
Proof.
  intros Hi HQ. unfold pic_at. apply hw_wp, wp_zoom. unfold vpic. apply wp_bind, wp_get.
  assert (Z.to_nat (Z.shiftr irq 3) = 0 \/ Z.to_nat (Z.shiftr irq 3) = 1)%nat as Hk.
  { rewrite Z.shiftr_div_pow2 by lia. change (2 ^ 3) with 8. zlia. }
  destruct Hk as [Hk|Hk]; rewrite Hk in *; cbn [pic_of]; apply wp_ret; (split; [|done]);
    by destruct (vs_hw s).
Qed.

Lemma gsi_entry_wp irq (Q : Z -> vst -> Prop) s : vpt_ok n s -> 0 <= irq <= 15 ->
  Q (default 0 (redirtbl (h_ioapic (vs_hw s)) !! Z.to_nat (hvm_isa_irq_to_gsi irq))) s ->
  wp (hw (entry (hvm_isa_irq_to_gsi irq))) Q s.
Proof.
  intros Hs Hi HQ. assert (0 <= hvm_isa_irq_to_gsi irq < 48) as Hg by (unfold hvm_isa_irq_to_gsi; case_match; lia).
  destruct (entry_exists (vs_hw s) _ (iv_hw _ (hs_inv _ _ (vo_hw _ _ Hs))) Hg) as (e & He & _).
  rewrite He in HQ. apply hw_wp. eapply wp_entry; [lia|exact He|]. done.
Qed.

Lemma vector_wp id pt (pic : bool) (Q : Z -> vst -> Prop) s : vpt_ok n s -> pt_ok n id pt ->
  Q (timer_vector (vs_hw s) pic pt) s -> wp (pt_irq_vector pt pic (negb pic)) Q s.
Proof.
  intros Hs Hp HQ. unfold pt_irq_vector, timer_vector in *. destruct (pt_source pt =? PTSRC_lapic) eqn:E; [done|].
  pose proof (isa_irq_range id pt Hp E) as Hi. cbv zeta. destruct pic.
  - apply wp_bind. by apply pic_at_wp.
  - apply wp_bind, wp_bug_if; [done|]. apply wp_bind. by apply gsi_entry_wp.
Qed.

(** The interrupt [k] is that of the timer: one is pending, it has been
    issued, and the vectors agree. *)
Definition awaits (h : hdom) (k : hvm_intack) (pt : periodic_time) : bool :=
  negb (pending_intr_nr pt =? 0) && irq_issued pt &&
  (intack_vec k =? timer_vector h (fst (intack_source k)) pt).

Definition from_controller (k : hvm_intack) : Prop := intack_source k = (true, false) \/ intack_source k = (false, true).

Definition awaiting (s : vst) (k : hvm_intack) (id : nat) : Prop :=
  exists pt, vs_pts s !! id = Some pt /\ awaits (vs_hw s) k pt = true.

(** [is_pt_irq] finds the first timer of the list that awaits the interrupt. *)
Lemma is_pt_irq_wp k l s : vpt_ok n s -> from_controller k -> Forall (fun id => is_Some (vs_pts s !! id)) l ->
  wp (is_pt_irq l k) (fun r s' => s' = s /\
    match r with
    | Some id => exists l1 l2, l = l1 ++ id :: l2 /\ awaiting s k id /\ Forall (fun j => ~ awaiting s k j) l1
    | None => Forall (fun j => ~ awaiting s k j) l
    end) s.
Proof.
  intros Hs Hk Hl. induction Hl as [|id l [pt Hpt] Hl IH]; cbn [is_pt_irq]; [done|].
  pose proof (vo_pts _ _ Hs _ _ Hpt) as Hp. apply wp_bind, wp_bind, wp_gets. rewrite Hpt. apply wp_ret.
  assert (wp (is_pt_irq l k) (fun r s' => ~ awaiting s k id -> s' = s /\
    match r with
    | Some j => exists l1 l2, id :: l = l1 ++ j :: l2 /\ awaiting s k j /\ Forall (fun j => ~ awaiting s k j) l1
    | None => Forall (fun j => ~ awaiting s k j) (id :: l)
    end) s) as Hrest.
  { eapply wp_mono; [exact IH|]. intros [j|] s' [-> H] Hid; (split; [done|]); [|by constructor].
    destruct H as (l1 & l2 & -> & H1 & H2). exists (id :: l1), l2. split; [done|]. split; [done|]. by constructor. }
  assert (awaits (vs_hw s) k pt = false -> ~ awaiting s k id) as Hno.
  { intros Hf (x & Hx & Ha). congruence. }
  unfold awaits in Hno. destruct (negb (pending_intr_nr pt =? 0) && irq_issued pt) eqn:E; cbn [andb] in Hno.
  - assert (snd (intack_source k) = negb (fst (intack_source k))) as -> by (by destruct Hk as [->| ->]).
    apply wp_bind, (vector_wp id); [done|done|].
    destruct (intack_vec k =? _) eqn:Ev; [|by eapply wp_mono; [exact Hrest|]; intros r s' H; apply H, Hno].
    apply wp_ret. split; [done|]. exists [], l. split; [done|]. split; [|done]. exists pt. split; [done|].
    unfold awaits. by rewrite E, Ev.
  - eapply wp_mono; [exact Hrest|]. intros r s' H. by apply H, Hno.
Qed.
Lemma tgood_issued id b s0 : tgood n s0 (upd_pt id (set_irq_issued b)).
Proof. apply tgood_upd. intros pt []. split; [by split|done]. Qed.

Lemma tick_wp id v s : vpt_ok n s -> 0 <= v < n -> owned s id -> wp (tick_delivered clk id v) (fun _ => vpt_ok n) s.
Proof.
  intros Hs Hv Ho. apply wp_bind. eapply wp_mono; [by apply tgood_ok; [apply tgood_issued|]|]. intros [] s1 K1.
  destruct (owner_now n s s1 id K1 Ho) as (pt & Hpt & Hpv & Hp).
  apply wp_bind, (the_pt_wp n); [apply K1|by apply (owned_id n s s1)|]. intros pt' Hpt' _.
  assert (pt' = pt) as -> by congruence. clear Hpt'. apply wp_bind, wp_gets.
  destruct (one_shot pt) eqn:Hone.
  { eapply wp_mono; [apply (drop_wp n id _ pt s1); [apply K1|done|by apply idle_ok|done]|].
    by intros [] s2 (Hs2 & _). }
  eapply (wp_mono _ (fun _ => tkept n s)); [|by intros [] s2 K2; apply K2].
  generalize (vs_params s1). intros prm. refine ((_ : tgood n s _) s1 K1).
  destruct (_ || _).
  - apply tgood_bind; [by apply tgood_get_time|]. intros t.
    apply tgood_bind; [apply tgood_upd; intros x []; split; [by split|done]|]. intros _.
    apply tgood_bind; [by apply tgood_missed|]. intros _.
    apply tgood_bind; [apply tgood_upd; intros x []; split; [by split|done]|]. intros _. by apply tgood_set_timer.
  - apply tgood_bind; [apply tgood_upd; intros x []; split; [by split|done]|]. intros _.
    apply tgood_pt; [done|]. intros pt1 _ _. apply tgood_when. apply tgood_bind; [by apply tgood_missed|]. intros _.
    apply tgood_pt; [done|]. intros pt2 _ _. by apply tgood_when, tgood_set_timer.
Qed.

Lemma post_wp v k s : vpt_ok n s -> 0 <= v < n -> from_controller k \/ (exists x, k = intack_vector x) ->
  wp (pt_intr_post clk v k) (fun _ => vpt_ok n) s.
Proof.
  intros Hs Hv Hk. unfold pt_intr_post. destruct Hk as [Hk|[x ->]]; [|done].
  assert (wp (tm <- the_tm v;;
    e <- is_pt_irq (tm_list tm) k;;
    match e with
    | None => ret tt
    | Some id =>
        tick_delivered clk id v;; pt <- the_pt id;; p <- gets vs_params;;
        when (gtime_stop p)
          (t <- hvm_get_guest_time clk v;; when (t <? last_plt_gtime pt) (hvm_set_guest_time clk v (last_plt_gtime pt)));;
        when (has_cb pt) (vpt_emit (VptCallback id))
    end) (fun _ => vpt_ok n) s) as H; [|by destruct k].
  apply wp_bind, (the_tm_wp n); [done|done|]. intros tm Htm. pose proof (listed_owned n s s v tm (tkept_refl s Hs) Htm) as Hl.
  apply wp_bind. eapply wp_mono; [apply is_pt_irq_wp; [done|done|]|].
  { refine (Forall_impl _ _ Hl). intros id (pt & Hpt & _). by exists pt. }
  intros [id|] s' [-> Hr]; [|done]. destruct Hr as (l1 & l2 & El & _ & _).
  assert (owned s id) as Ho. { rewrite El in Hl. apply Forall_app in Hl as [_ Hl]. by inversion Hl. }
  pose proof (owned_id n s s id (tkept_refl s Hs) Ho) as Hid.
  apply wp_bind. eapply wp_mono; [by apply tick_wp|]. intros [] s1 Hs1.
  apply wp_bind, (the_pt_wp n); [done|done|]. intros pt _ _. apply wp_bind, wp_gets.
  set (p := vs_params s1). clearbody p. eapply (wp_mono _ (fun _ => tkept n s1)); [|by intros [] s2 K2; apply K2].
  apply tgood_ok; [|done]. apply tgood_bind.
  - apply tgood_when, tgood_bind; [by apply tgood_get_time|]. intros t. by apply tgood_when, tgood_set_time.
  - intros _. apply tgood_when, tgood_emit.
Qed.
End Lists.

(** * The platform timers: the choice of the interrupt

    [pt_update_irq] suspends the timers whose interrupt is masked and raises
    the interrupt of the timer that is due first. *)

(** ** What is chosen *)

(** The interrupt of a timer of vcpu [v] is masked: its local APIC is disabled
    or masks the timer; or neither the 8259s nor the IO-APIC let it through. *)
Definition timer_masked (h : hdom) (v : Z) (pt : periodic_time) : bool :=
  match h_vcpus h !! Z.to_nat v with
  | None => false
  | Some x =>
      if pt_source pt =? PTSRC_lapic then negb (vlapic_enabled x) || Z.testbit (vlapic_get_reg x APIC_LVTT) 16
      else
        (Z.testbit (imr (the_pic (Z.to_nat (Z.shiftr (pt_irqno pt) 3)) (h_pics h))) (Z.land (pt_irqno pt) 7) ||
         negb (bool_decide (i8259_target (h_pics h) = Some v) &&
               accepts_pic_intr (default 0 (redirtbl (h_ioapic h) !! 0%nat)) x)) &&
        rte_mask (default 0 (redirtbl (h_ioapic h) !! Z.to_nat (hvm_isa_irq_to_gsi (pt_irqno pt))))
  end.

(** When a timer with a pending interrupt is due. *)
Definition due (pt : periodic_time) : Z := u64 (last_plt_gtime pt + schedule_period pt).
Definition ticking (pt : periodic_time) : bool := negb (pending_intr_nr pt =? 0).

Definition suspends (h : hdom) (v : Z) (pt : periodic_time) : bool := ticking pt && timer_masked h v pt.
Definition claims (h : hdom) (v : Z) (pt : periodic_time) : bool := ticking pt && negb (timer_masked h v pt).

(** The first of the least, below [max]. *)
Fixpoint first_due (f : nat -> option Z) (l : list nat) (max : Z) (best : option nat) : option nat :=
  match l with
  | [] => best
  | id :: l =>
      match f id with
      | Some d => if d <? max then first_due f l d (Some id) else first_due f l max best
      | None => first_due f l max best
      end
  end.

Lemma first_due_spec f l : forall max best,
  match first_due f l max best with
  | Some id => (best = Some id /\ forall j d, j ∈ l -> f j = Some d -> max <= d) \/
      exists d, id ∈ l /\ f id = Some d /\ d < max /\ forall j d', j ∈ l -> f j = Some d' -> d <= d'
  | None => best = None /\ forall j d, j ∈ l -> f j = Some d -> max <= d
  end.
Proof.
  induction l as [|id l IH]; intros max best; cbn [first_due].
  - destruct best as [id|]; [left|]; (split; [done|]); intros j d Hj; by apply elem_of_nil in Hj.
  - destruct (f id) as [d|] eqn:E; [destruct (Z.ltb_spec d max) as [Hlt|Hge]|].
    + specialize (IH d (Some id)). destruct (first_due f l d (Some id)) as [r|]; [|by destruct IH].
      right. destruct IH as [[[= <-] H]|(e & H1 & H2 & H3 & H4)].
      * exists d. split_and!; [by left|done|done|]. intros j e [->|Hj]%elem_of_cons He; [|by apply (H j)].
        rewrite E in He. injection He as ->. done.
      * exists e. split_and!; [by right|done|lia|]. intros j e' [->|Hj]%elem_of_cons He; [|by apply (H4 j)].
        rewrite E in He. injection He as ->. lia.
    + specialize (IH max best). destruct (first_due f l max best) as [r|].
      * destruct IH as [[-> H]|(e & H1 & H2 & H3 & H4)]; [left|right; exists e]; (split_and!; [try done; try by right..|]).
        -- intros j e' [->|Hj]%elem_of_cons He; [|by apply (H j)]. rewrite E in He. by injection He as ->.
        -- intros j e' [->|Hj]%elem_of_cons He; [|by apply (H4 j)]. rewrite E in He. injection He as ->. lia.
      * destruct IH as [-> H]. split; [done|]. intros j e' [->|Hj]%elem_of_cons He; [|by apply (H j)].
        rewrite E in He. by injection He as ->.
    + specialize (IH max best). destruct (first_due f l max best) as [r|].
      * destruct IH as [[-> H]|(e & H1 & H2 & H3 & H4)]; [left|right; exists e]; (split_and!; [try done; try by right..|]).
        -- intros j e' [->|Hj]%elem_of_cons He; [congruence|by apply (H j)].
        -- intros j e' [->|Hj]%elem_of_cons He; [congruence|by apply (H4 j)].
      * destruct IH as [-> H]. split; [done|]. intros j e' [->|Hj]%elem_of_cons He; [congruence|by apply (H j)].
Qed.

Lemma first_due_ext f g l : (forall id, id ∈ l -> f id = g id) -> forall max best, first_due f l max best = first_due g l max best.
Proof.
  induction l as [|id l IH]; intros Hfg max best; cbn [first_due]; [done|]. rewrite (Hfg id) by (by left).
  assert (forall id, id ∈ l -> f id = g id) as Hl by (intros j Hj; apply Hfg; by right).
  repeat case_match; by apply IH.
Qed.

Section Select.
Context (n : Z).

(** [pt_irq_masked] is that, and changes nothing. *)
Lemma masked_wp id v pt (Q : bool -> vst -> Prop) s : vpt_ok n s -> pt_ok n id pt -> pt_vcpu pt = Some v ->
  Q (timer_masked (vs_hw s) v pt) s -> wp (pt_irq_masked pt) Q s.
Proof.
  intros Hs Hp Hv HQ. pose proof (po_vcpu _ _ _ Hp v Hv) as Hr. pose proof (vo_hw _ _ Hs) as [Hi _ Hf].
  destruct (lookup_Z (h_vcpus (vs_hw s)) v) as [x Hx]; [by rewrite (rf_count _ _ Hf)|].
  unfold timer_masked in HQ. rewrite Hx in HQ. unfold pt_irq_masked, vcpu_of. rewrite Hv. apply wp_bind, wp_ret.
  destruct (pt_source pt =? PTSRC_lapic) eqn:E.
  - apply wp_bind, hw_wp. eapply wp_the_vcpu; [lia|exact Hx|]. by split.
  - pose proof (isa_irq_range n id pt Hp E) as Hirq. cbv zeta. apply wp_bind, pic_at_wp; [done|]. apply wp_bind.
    assert (forall b, Q (b && rte_mask (default 0 (redirtbl (h_ioapic (vs_hw s)) !! Z.to_nat (hvm_isa_irq_to_gsi (pt_irqno pt))))) s ->
      wp (if b then e <- hw (entry (hvm_isa_irq_to_gsi (pt_irqno pt)));; ret (rte_mask e) else ret false) Q s) as Hk.
    { intros [] Hb; [|done]. apply wp_bind, (gsi_entry_wp n); done. }
    destruct (Z.testbit _ _); [by apply wp_ret, (Hk true)|]. cbn [orb] in HQ. apply wp_bind, hw_wp.
    unfold vlapic_accept_pic_intr. apply wp_bind, wp_get, wp_bind. eapply wp_the_vcpu; [lia|exact Hx|].
    case_bool_decide; [|apply wp_ret; split; [done|]; by apply wp_ret, (Hk true)].
    destruct (entry_exists (vs_hw s) 0 (iv_hw _ Hi)) as (e & He & _); [lia|]. apply wp_bind. eapply wp_elem; [lia|exact He|].
    apply wp_ret. split; [done|]. apply wp_ret, (Hk (negb (accepts_pic_intr e x))).
    change (Z.to_nat 0) with 0%nat in He. rewrite He in HQ. exact HQ.
Qed.

(** ** The scan of the list *)

Definition due_in (v : Z) (s : vst) (id : nat) : option Z :=
  match vs_pts s !! id with
  | Some pt => if claims (vs_hw s) v pt then Some (due pt) else None
  | None => None
  end.

(** A timer after the scan of [l]. *)
Definition scanned (h : hdom) (v : Z) (l : list nat) (id : nat) (pt : periodic_time) : periodic_time :=
  if bool_decide (id ∈ l) && suspends h v pt then set_list_flag false pt else pt.

Lemma elem_cons_other (j id : nat) l : j <> id -> bool_decide (j ∈ id :: l) = bool_decide (j ∈ l).
Proof. intros Hne. apply bool_decide_ext. rewrite elem_of_cons. split; [by intros [?|?]|by right]. Qed.

Lemma scan_lookup h v id l (m : list periodic_time) pt : id ∉ l -> m !! id = Some pt -> suspends h v pt = true -> forall j,
  scanned h v l j <$> alter (set_list_flag false) id m !! j = scanned h v (id :: l) j <$> m !! j.
Proof.
  intros Hid Hpt Hsus j. unfold scanned. destruct (decide (j = id)) as [->|Hne].
  - rewrite list_lookup_alter_eq, Hpt. cbn. rewrite (bool_decide_eq_false_2 (id ∈ l)) by done.
    rewrite bool_decide_eq_true_2 by (by left). by rewrite Hsus.
  - rewrite list_lookup_alter_ne by done. apply option_fmap_ext. intros x.
    by rewrite (elem_cons_other j id l).
Qed.
Lemma scan_skip h v id l (m : list periodic_time) pt : m !! id = Some pt -> suspends h v pt = false -> forall j,
  scanned h v l j <$> m !! j = scanned h v (id :: l) j <$> m !! j.
Proof.
  intros Hpt Hsus j. destruct (decide (j = id)) as [->|Hne].
  - rewrite Hpt. cbn. unfold scanned. by rewrite Hsus, !andb_false_r.
  - apply option_fmap_ext. intros x. unfold scanned.
    by rewrite (elem_cons_other j id l).
Qed.

Definition on_its_list (v : Z) (s : vst) (id : nat) : Prop := exists pt, vs_pts s !! id = Some pt /\ place pt = Some v.

Record scan_result (v : Z) (l : list nat) (s s' : vst) : Prop := {
  sr_ok : vpt_ok n s';
  sr_hw : vs_hw s' = vs_hw s;
  sr_pts : forall j, vs_pts s' !! j = scanned (vs_hw s) v l j <$> vs_pts s !! j
}.

Lemma earliest_wp v l : forall max best s, vpt_ok n s -> NoDup l -> Forall (on_its_list v s) l ->
  wp (earliest l max best) (fun r s' => r = first_due (due_in v s) l max best /\ scan_result v l s s') s.
Proof.
  induction l as [|id l IH]; intros max best s Hs Hnd Hl; cbn [earliest first_due].
  - apply wp_ret. split; [done|]. split; [done|done|]. intros j. unfold scanned.
    rewrite bool_decide_eq_false_2 by (by intros ?%elem_of_nil). cbn [andb]. by destruct (vs_pts s !! j).
  - apply list.NoDup_cons in Hnd as [Hid Hnd]. inversion Hl as [|? ? (pt & Hpt & Hpl) Hl']; subst.
    pose proof (vo_pts _ _ Hs _ _ Hpt) as Hp. destruct (place_some n id pt v Hp Hpl) as (Hon & Hv & Hr).
    apply wp_bind, wp_bind, wp_gets. rewrite Hpt. apply wp_ret. unfold due_in at 1. rewrite Hpt.
    assert (forall max best, suspends (vs_hw s) v pt = false -> wp (earliest l max best)
      (fun r s' => r = first_due (due_in v s) l max best /\ scan_result v (id :: l) s s') s) as Hgo.
    { intros m b Hsus. eapply wp_mono; [by apply IH|]. intros r s' [-> [R1 R2 R3]]. split; [done|]. split; [done|done|].
      intros j. rewrite R3. by apply (scan_skip _ _ _ _ _ pt). }
    unfold claims, suspends, ticking in *. destruct (pending_intr_nr pt =? 0) eqn:Hpend; cbn [negb andb] in *; [by apply Hgo|].
    apply wp_bind, (masked_wp id v); [done|done|done|]. destruct (timer_masked (vs_hw s) v pt) eqn:Hm; cbn [negb].
    + apply wp_bind_bind. apply wp_bind, (list_del_wp n id v pt); [done|done|done|]. unfold upd_pt. apply wp_modify.
      match goal with |- wp _ _ ?x => set (s1 := x) end.
      assert (vpt_ok n s1) as Hs1 by (by apply (unlinked_ok n id v _ pt s Hs Hpt Hpl); [apply off_ok|]).
      assert (forall j, j ∈ l -> vs_pts s1 !! j = vs_pts s !! j) as Heq.
      { intros j Hj. cbn. apply list_lookup_alter_ne. by intros ->. }
      eapply wp_mono; [apply (IH max best s1 Hs1 Hnd)|].
      * apply Forall_forall. intros j Hj%list_elem_of_In. unfold on_its_list. rewrite (Heq j Hj).
        rewrite Forall_forall in Hl'. apply Hl'. by apply list_elem_of_In.
      * intros r s' [-> [R1 R2 R3]]. split; [|split; [done|done|]].
        -- apply first_due_ext. intros j Hj. unfold due_in. by rewrite (Heq j Hj).
        -- intros j. rewrite R3. apply (scan_lookup _ _ _ _ _ pt); [done|done|]. unfold suspends, ticking. change (vs_hw s1) with (vs_hw s). by rewrite Hpend, Hm.
    + cbv zeta. fold (due pt). case_match; by apply Hgo.
Qed.
(** ** The interrupt *)

Lemma set_irq_wp v vec h : hw_sound n h -> 0 <= v < n -> wp (vlapic_set_irq v vec false)
  (fun _ h' => hw_sound n h' /\ same_wires (h_irq h) (h_irq h') /\
     exists x, h_vcpus h' !! Z.to_nat v = Some x /\ vlapic_test_vector vec APIC_IRR x = true) h.
Proof.
  intros [Hi Ha Hf] Hv. destruct (lookup_Z (h_vcpus h) v) as [x Hx]; [by rewrite (rf_count _ _ Hf)|].
  unfold vlapic_set_irq. apply wp_bind. eapply wp_the_vcpu; [lia|exact Hx|]. cbv zeta. apply wp_bind.
  assert (kept h n h) as K0 by (by split; [apply keeps_inv_refl|]).
  assert (wp (upd_vcpu v (vlapic_set_vector vec APIC_IRR)) (fun _ => kept h n) h) as K.
  { refine (good_regs h n v _ _ _ h K0); [intros; by apply regs_ok_set|by intros y]. }
  unfold upd_vcpu in *. apply wp_modify. apply wp_bind, wp_ret, wp_ret. destruct K as [[K1 K2] K3]. split_and!.
  - split; [done| |done]. by rewrite (sw_asserted _ _ K2).
  - done.
  - exists (vlapic_set_vector vec APIC_IRR x). cbn [h_vcpus set_vcpus]. rewrite list_lookup_alter_eq, Hx. split; [done|].
    rewrite test_set_vector. by rewrite Z.eqb_refl.
Qed.

Lemma set_clear_bit x i : 0 <= i -> Z.setbit (Z.clearbit x i) i = Z.setbit x i.
Proof.
  intros Hi. apply Z.bits_inj'. intros j Hj. rewrite !Z.setbit_eqb, Z.clearbit_eqb by lia.
  destruct (i =? j); [done|]. cbn [negb orb]. apply andb_true_r.
Qed.

(** An operation of the hardware, and what it does to the wires. *)
Lemma hop_sound pit0 op h : hw_sound n h -> hop_ok op h -> (forall v a, op <> HCallback v /\ op <> HLapic v a) ->
  wp (run_hop pit0 op) (fun _ h' => hw_sound n h' /\ same_wires (wires_after op (h_irq h)) (h_irq h')) h.
Proof.
  intros [Hi Ha Hf] Hop Hne. eapply wp_mono; [by apply (hop_wp pit0 op n)|]. intros [] h' [[H1 H2] H3]. split; [|done].
  split; [done| |done]. rewrite (sw_asserted _ _ H2). destruct op; try done. by destruct (Hne via LInitSipi).
Qed.

(** The interrupt of the timer has been raised. *)
Definition raised (v : Z) (pt : periodic_time) (h h' : hdom) : Prop :=
  if pt_source pt =? PTSRC_lapic then
    same_wires (h_irq h) (h_irq h') /\
    exists x, h_vcpus h' !! Z.to_nat v = Some x /\ vlapic_test_vector (pt_irqno pt) APIC_IRR x = true
  else same_wires (set_isa_irq (Z.setbit (isa_irq (h_irq h)) (pt_irqno pt)) (h_irq h)) (h_irq h').

Lemma ok_hw h s : vpt_ok n s -> hw_sound n h -> vpt_ok n (set_vs_hw h s).
Proof. by intros [] Hh. Qed.

Lemma raise_timer_wp v id pt s : vpt_ok n s -> 0 <= v < n -> pt_ok n id pt ->
  wp (if pt_source pt =? PTSRC_lapic then hw (vlapic_set_irq v (pt_irqno pt) false);; ret tt
      else hw (hvm_isa_irq_deassert (pt_irqno pt));; pit0 <- pit_active;; hw (hvm_isa_irq_assert pit0 (pt_irqno pt)))
    (fun _ s' => vpt_ok n s' /\ vs_pts s' = vs_pts s /\ raised v pt (vs_hw s) (vs_hw s')) s.
Proof.
  intros Hs Hv Hp. pose proof (vo_hw _ _ Hs) as Hh. unfold raised. destruct (pt_source pt =? PTSRC_lapic) eqn:E.
  - apply wp_bind, wp_zoom. eapply wp_mono; [by apply set_irq_wp|]. intros b h (H1 & H2 & H3). apply wp_ret.
    split; [by apply ok_hw|]. done.
  - pose proof (isa_irq_range n id pt Hp E) as Hi. apply wp_bind, wp_zoom.
    eapply wp_mono; [apply (hop_sound false (HIsaDeassert (pt_irqno pt))); [done|done|done]|]. intros [] h1 [H1 S1].
    apply wp_bind, wp_bind, (the_pt_wp n); [by apply ok_hw|lia|]. intros p0 _ _. apply wp_ret, wp_zoom.
    eapply wp_mono; [apply (hop_sound (pt_active p0) (HIsaAssert (pt_irqno pt))); [done|done|done]|]. intros [] h2 [H2 S2].
    split; [by apply ok_hw, H2; apply ok_hw|]. split; [done|]. cbn [vs_hw set_vs_hw]. cbn [wires_after] in S1, S2.
    destruct S1, S2. cbn in *. split; cbn; try congruence. rewrite sw_isa0, sw_isa. apply set_clear_bit. lia.
Qed.

(** ** The choice of a vcpu *)

Definition chosen (v : Z) (s : vst) (l : list nat) : option nat := first_due (due_in v s) l (2 ^ 64 - 1) None.

Lemma update_irq_wp v tm s : vpt_ok n s -> 0 <= v < n -> vs_vcpus s !! Z.to_nat v = Some tm ->
  wp (pt_update_irq v) (fun _ s' => vpt_ok n s' /\
    match chosen v s (tm_list tm) with
    | None => vs_hw s' = vs_hw s /\ forall j, vs_pts s' !! j = scanned (vs_hw s) v (tm_list tm) j <$> vs_pts s !! j
    | Some id => exists pt, vs_pts s !! id = Some pt /\ raised v pt (vs_hw s) (vs_hw s') /\
        vs_pts s' !! id = Some (set_irq_issued true pt) /\
        forall j, j <> id -> vs_pts s' !! j = scanned (vs_hw s) v (tm_list tm) j <$> vs_pts s !! j
    end) s.
Proof.
  intros Hs Hv Htm. destruct (vo_lists _ _ Hs _ _ Htm) as [Hnd Hin]. unfold pt_update_irq.
  apply wp_bind, (the_tm_wp n); [done|done|]. intros tm' Htm'. assert (tm' = tm) as -> by congruence.
  apply wp_bind. eapply wp_mono; [apply (earliest_wp v); [done|done|]|].
  { apply Forall_forall. intros id Hid%list_elem_of_In%Hin. by rewrite Z2Nat.id in Hid by lia. }
  intros r s1 [-> [R1 R2 R3]]. fold (chosen v s (tm_list tm)).
  pose proof (first_due_spec (due_in v s) (tm_list tm) (2 ^ 64 - 1) None) as Hspec. fold (chosen v s (tm_list tm)) in Hspec.
  destruct (chosen v s (tm_list tm)) as [id|]; [|by apply wp_ret].
  destruct Hspec as [[? _]|(d & Hid & Hd & _ & _)]; [done|]. unfold due_in in Hd.
  destruct (vs_pts s !! id) as [pt|] eqn:Hpt; [|done]. destruct (claims (vs_hw s) v pt) eqn:Hc; [|done].
  assert (vs_pts s1 !! id = Some pt) as Hpt1.
  { rewrite R3, Hpt. unfold scanned, suspends. unfold claims in Hc. cbn. apply andb_true_iff in Hc as [_ Hc%negb_true_iff].
    by rewrite Hc, !andb_false_r. }
  apply wp_bind. unfold upd_pt. apply wp_modify.
  pose proof (vo_pts _ _ R1 _ _ Hpt1) as Hp. assert (pt_ok n id (set_irq_issued true pt)) as Hp'. { destruct Hp. by split. }
  assert (vpt_ok n (set_pts (alter (set_irq_issued true) id (vs_pts s1)) s1)) as Hs2 by (by apply (ok_upd n id _ pt)).
  apply wp_bind, (the_pt_wp n); [done|rewrite <- (vo_len _ _ R1); by eapply lookup_lt_Some|]. cbn [vs_pts set_pts].
  rewrite list_lookup_alter_eq, Hpt1. intros ? [= <-] _.
  eapply wp_mono; [by apply (raise_timer_wp v id (set_irq_issued true pt))|]. intros [] s2 (H1 & H2 & H3). split; [done|].
  exists pt. split; [done|]. split. { cbn [vs_hw set_pts] in H3. by rewrite R2 in H3. }
  rewrite H2. cbn [vs_pts set_pts]. rewrite list_lookup_alter_eq, Hpt1. split; [done|]. intros j Hj.
  rewrite list_lookup_alter_ne by done. apply R3.
Qed.
End Select.
