(* ===== verification/VptSystem.v ===== *)
(** * The platform timers as a system

    The operations on the timers of a domain and on the interrupt hardware they
    drive, and the states these reach. *)

From stdpp Require Import base list numbers.
From Stdlib Require Import ZArith Lia Bool.
From S2P Require Import Prelude Vpic VpicInv VpicOps HvmState Vlapic Vioapic HvmIrq VioapicInv.
From S2P Require Import VioapicInv VioapicOps HvmIrqOps HvmIrqRun VlapicRegs HvmLapic HvmIrqSystem Vpt.
From S2P Require Import VptOps VptLists.

Open Scope Z_scope.
Open Scope se_scope.

(** What happens to the timers: the guest's time, the scheduler (a vcpu leaves
    and enters the processor, blocks, is unpaused, moves), the host timers, the
    entry into the guest, the devices that set their timers, and what the rest
    of the hardware does; [VBlock] and [VParam] are the parts of the domain
    that the timers only read. *)
Inductive vop : Type :=
| VInitTime
| VGetTime (v : Z)
| VSetTime (v t : Z)
| VSave (v : Z)
| VRestore (v : Z)
| VFire (id : nat)
| VEntry (v : Z)
| VUnpause (v : Z)
| VPost (v : Z) (k : hvm_intack)
| VMigrateAll (v : Z)
| VPeriods (v : Z)
| VUpdate (id : nat) (irq period leftover : Z)
| VCreate (v : Z) (id : nat) (delta period irq : Z) (cb : bool)
| VDestroy (id : nat)
| VTarget (v : option Z)
| VUnmask (dom : bool) (lapic : option Z)
| VBlock (v : Z) (b : bool)
| VParam (p : vpt_params)
| VHw (op : hop).

Definition set_blocked (b : bool) (v : vpt_vcpu) : vpt_vcpu :=
  {| tm_list := tm_list v; v_stime_offset := v_stime_offset v; v_guest_time := v_guest_time v; v_blocked := b |}.
Definition set_vs_params (p : vpt_params) (s : vst) : vst :=
  {| vs_hw := vs_hw s; vs_pts := vs_pts s; vs_vcpus := vs_vcpus s; vs_params := p;
     pl_stime_offset := pl_stime_offset s; last_guest_time := last_guest_time s;
     vs_reads := vs_reads s; vs_log := vs_log s |}.

Section System.
Context (clk : nat -> Z).

Definition run_vop (op : vop) : SE vst unit :=
  match op with
  | VInitTime => hvm_init_guest_time clk
  | VGetTime v => hvm_get_guest_time clk v;; ret tt
  | VSetTime v t => hvm_set_guest_time clk v t
  | VSave v => pt_save_timer clk v
  | VRestore v => pt_restore_timer clk v
  | VFire id => pt_timer_fn clk id
  | VEntry v => pt_update_irq v
  | VUnpause v => pt_unpause v
  | VPost v k => pt_intr_post clk v k
  | VMigrateAll v => pt_migrate v
  | VPeriods v => pt_update_schedule_period v
  | VUpdate id irq p k => update_periodic_time clk id irq p k
  | VCreate v id delta p irq cb => create_periodic_time clk v id delta p irq cb
  | VDestroy id => destroy_periodic_time id
  | VTarget v => pt_adjust_global_vcpu_target v
  | VUnmask dom i => pt_may_unmask_irq dom i
  | VBlock v b => upd_tm v (set_blocked b)
  | VParam p => modify (set_vs_params p)
  | VHw op => pit0 <- pit_active;; hw (run_hop pit0 op)
  end.

(** The vcpus and timers exist; a host timer fires once it is set; only a
    periodic timer is updated; the acknowledged interrupt comes from a
    controller; ISA interrupts are below 16. *)
Definition vop_ok (n : Z) (op : vop) (s : vst) : Prop :=
  match op with
  | VGetTime v | VSetTime v _ | VSave v | VRestore v | VEntry v | VUnpause v | VMigrateAll v | VPeriods v => 0 <= v < n
  | VPost v k => 0 <= v < n /\ (from_controller k \/ exists x, k = intack_vector x)
  | VFire id => exists pt, vs_pts s !! id = Some pt /\ is_Some (timer_set pt)
  | VUpdate id irq p _ => (exists pt, vs_pts s !! id = Some pt /\ is_Some (pt_vcpu pt) /\ one_shot pt = false) /\
      0 < p /\ 0 <= irq <= (if (id <? 5)%nat then 15 else 255)
  | VCreate v id _ p irq _ => 0 <= v < n /\ (id < 5 + Z.to_nat n)%nat /\ 0 <= p /\
      0 <= irq <= (if (id <? 5)%nat then 15 else 255)
  | VDestroy id => (id < 5 + Z.to_nat n)%nat
  | VTarget v | VUnmask _ v => forall i, v = Some i -> 0 <= i < n
  | VParam p => 0 <= vpt_coalesce_ns p
  | VHw op => hop_ok op (vs_hw s)
  | VInitTime | VBlock _ _ => True
  end.

Section Keep.
Context (n : Z).

Lemma tgood_keeps {A} (m : SE vst A) s : (forall s0, tgood n s0 m) -> vpt_ok n s -> wp m (fun _ => vpt_ok n) s.
Proof. intros Hm Hs. eapply wp_mono; [by apply tgood_ok|]. intros a s' K. apply K. Qed.

Lemma fired_owned id pt s : vpt_ok n s -> vs_pts s !! id = Some pt -> is_Some (timer_set pt) -> owned s id.
Proof.
  intros Hs Hpt Ht. exists pt. split; [done|]. by apply (po_timer _ _ _ (vo_pts _ _ Hs _ _ Hpt)).
Qed.

Lemma any_hop_sound pit0 op h : hw_sound n h -> hop_ok op h -> wp (run_hop pit0 op) (fun _ => hw_sound n) h.
Proof.
  intros [Hi Ha Hf] Hop. eapply wp_mono; [by apply (hop_wp pit0 op n)|]. intros [] h' [[H1 H2] H3].
  split; [done| |done]. rewrite (sw_asserted _ _ H2). destruct op; try done. cbn [wires_after].
  by destruct (callback_of via (callback_via (h_irq h))).
Qed.

(** Every operation succeeds and keeps the invariant. *)
Lemma vop_wp op s : vpt_ok n s -> vop_ok n op s -> wp (run_vop op) (fun _ => vpt_ok n) s.
Proof.
  intros Hs Hop. destruct op as [|v|v t|v|v|id|v|v|v k|v|v|id irq p k|v id delta p irq cb|id|v|dom i|v b|p|op];
    cbn [run_vop vop_ok] in *.
  - apply tgood_keeps; [|done]. intros s0. apply tgood_bind; [apply tgood_NOW|]. intros now. apply tgood_pl.
  - apply tgood_keeps; [|done]. intros s0. apply tgood_bind; [by apply tgood_get_time|]. intros t. apply tgood_ret.
  - apply tgood_keeps; [|done]. intros s0. by apply tgood_set_time.
  - apply tgood_keeps; [|done]. intros s0. by apply tgood_save.
  - apply tgood_keeps; [|done]. intros s0. by apply tgood_restore.
  - destruct Hop as (pt & Hpt & Ht). eapply wp_mono; [apply tgood_ok, Hs; by apply tgood_fire, (fired_owned id pt)|].
    by intros [] s' K; apply K.
  - destruct (lookup_Z (vs_vcpus s) v) as [tm Htm]; [by rewrite (vo_vcpus _ _ Hs)|].
    eapply wp_mono; [by apply (update_irq_wp n v tm)|]. by intros [] s' [H _].
  - apply tgood_keeps; [|done]. intros s0. by apply tgood_unpause.
  - destruct Hop as [Hv Hk]. by apply post_wp.
  - apply tgood_keeps; [|done]. intros s0. by apply tgood_migrate.
  - apply tgood_keeps; [|done]. intros s0. by apply tgood_periods.
  - destruct Hop as ((pt & Hpt & Hv & Ho) & Hp & Hirq). eapply wp_mono; [apply tgood_ok, Hs; apply tgood_update; [by exists pt| |done|done]|].
    + intros x Hx. congruence.
    + by intros [] s' K; apply K.
  - destruct Hop as (Hv & Hid & Hp & Hirq). eapply wp_mono; [by apply create_wp|]. by intros [] s' [H _].
  - eapply wp_mono; [by apply destroy_wp|]. by intros [] s' [H _].
  - by apply adjust_global_wp.
  - by apply unmask_wp.
  - apply tgood_keeps; [|done]. intros s0. by apply tgood_upd_tm.
  - apply wp_modify. by destruct Hs.
  - apply wp_bind, wp_bind, (the_pt_wp n); [done|unfold PIT_TIMER; lia|]. intros p0 _ _. apply wp_ret, wp_zoom.
    eapply wp_mono; [by apply any_hop_sound, Hop; apply (vo_hw _ _ Hs)|]. intros [] h Hh. by apply ok_hw.
Qed.
End Keep.

(** ** Reachable states *)

(** A timer whose device has set its [source]. *)
Definition fresh_pt (id : nat) : periodic_time := {|
  on_list := false; one_shot := false; irq_issued := false; warned_timeout_too_short := false;
  collapse_ticks := false; pt_source := if (id <? 5)%nat then PTSRC_isa else PTSRC_lapic;
  pt_irqno := 0; pt_vcpu := None; pending_intr_nr := 0; time_done := 0; period := 0;
  schedule_period := 0; scheduled := 0; scheduled_t0 := 0; last_plt_gtime := 0; timer_set := None; has_cb := false |}.
Definition fresh_tm : vpt_vcpu := {| tm_list := []; v_stime_offset := 0; v_guest_time := 0; v_blocked := false |}.
Definition new_vst (h : hdom) (p : vpt_params) : vst := {|
  vs_hw := h; vs_pts := fresh_pt <$> seq 0 (5 + length (h_vcpus h)); vs_vcpus := replicate (length (h_vcpus h)) fresh_tm;
  vs_params := p; pl_stime_offset := 0; last_guest_time := 0; vs_reads := 0; vs_log := [] |}.

Inductive vreach (n : Z) : vst -> Prop :=
| vreach_new h p pit0 : hreach pit0 h -> zlen (h_vcpus h) = n -> 0 <= vpt_coalesce_ns p -> vreach n (new_vst h p)
| vreach_step op s s' : vreach n s -> vop_ok n op s -> run_vop op s = (s', Ok tt) -> vreach n s'.

Lemma new_vst_ok n h p : hw_sound n h -> zlen (h_vcpus h) = n -> 0 <= vpt_coalesce_ns p -> vpt_ok n (new_vst h p).
Proof.
  intros Hh Hn Hp. assert (length (h_vcpus h) = Z.to_nat n) as Hlen by (unfold zlen in Hn; lia).
  split; cbn [vs_hw vs_vcpus vs_pts vs_params new_vst]; try done.
  - unfold zlen. rewrite length_replicate. unfold zlen in Hn. lia.
  - by rewrite length_fmap, length_seq, Hlen.
  - intros id pt Hpt. rewrite list_lookup_fmap in Hpt. apply fmap_Some in Hpt as (k & Hk & ->).
    apply lookup_seq in Hk as [-> Hk]. cbn. split; cbn; try done.
    case_match; lia.
  - intros k tm Hk. cbn in Hk. apply lookup_replicate_1 in Hk as [-> _]. split; [constructor|]. intros id.
    split; [by intros ?%elem_of_nil|]. intros (pt & Hpt & Hpl). cbn [vs_pts new_vst] in Hpt. rewrite list_lookup_fmap in Hpt.
    by apply fmap_Some in Hpt as (j & _ & ->).
Qed.

Lemma vreach_ok n s : vreach n s -> vpt_ok n s.
Proof.
  induction 1 as [h p pit0 Hh Hn Hp|op s s' Hr IH Hop Hrun].
  - apply new_vst_ok; [|done|done]. destruct (hreach_all pit0 h Hh) as [[H1 H2] H3]. by rewrite Hn in H3.
  - pose proof (vop_wp n op s IH Hop) as H. unfold wp in H. by rewrite Hrun in H.
Qed.
End System.

(** * The platform timers: who changes a timer

    An operation that does not create or destroy a timer leaves it created and
    in its mode, whatever the operation's result. *)

Section Owner.
Context (clk : nat -> Z) (id : nat) (b : bool).

(** The timer [id] has been created, one-shot or not. *)
Definition created_as (s : vst) : Prop := exists pt, vs_pts s !! id = Some pt /\ is_Some (pt_vcpu pt) /\ one_shot pt = b.

(** A change of a timer that keeps its vcpu and its mode. *)
Definition keeps_mode (f : periodic_time -> periodic_time) : Prop :=
  forall pt, is_Some (pt_vcpu pt) -> is_Some (pt_vcpu (f pt)) /\ one_shot (f pt) = one_shot pt.

Lemma upd_pt_owner j f : keeps_mode f -> preserves created_as (upd_pt j f).
Proof.
  intros Hf. apply preserves_modify. intros s (pt & Hpt & Hv & Ho). unfold created_as. cbn [vs_pts set_pts].
  rewrite list_lookup_alter. case_decide; [|by exists pt]. subst j. rewrite Hpt. exists (f pt). destruct (Hf pt Hv) as [H1 H2].
  split; [done|]. split; [done|congruence].
Qed.
Lemma other_owner j f : j <> id -> preserves created_as (upd_pt j f).
Proof.
  intros Hne. apply preserves_modify. intros s (pt & Hpt & Hv & Ho). exists pt. cbn [vs_pts set_pts].
  by rewrite list_lookup_alter_ne.
Qed.
Lemma mode_owner f : (forall s, vs_pts (f s) = vs_pts s) -> preserves created_as (modify f).
Proof. intros Hf. apply preserves_modify. intros s (pt & Hpt & H). exists pt. by rewrite Hf. Qed.
Lemma hw_owner {A} (m : SE hdom A) : preserves created_as (hw m).
Proof. intros s (pt & Hpt & H). unfold hw, zoom. destruct (m (vs_hw s)) as [h r]. by exists pt. Qed.
#[local] Hint Extern 2 (preserves created_as (upd_pt _ _)) => apply upd_pt_owner; by intros ? ? : keep.
#[local] Hint Extern 2 (preserves created_as (modify _)) => apply mode_owner; by intros ? : keep.
#[local] Hint Resolve hw_owner : keep.

Lemma emit_owner e : preserves created_as (vpt_emit e).
Proof. unfold vpt_emit. se_keep. Qed.
Lemma NOW_owner : preserves created_as (NOW clk).
Proof. unfold NOW. se_keep. Qed.
Lemma the_pt_owner j : preserves created_as (the_pt j).
Proof. unfold the_pt. se_keep. Qed.
Lemma the_tm_owner v : preserves created_as (the_tm v).
Proof. unfold the_tm. se_keep. Qed.
Lemma upd_tm_owner v f : preserves created_as (upd_tm v f).
Proof. unfold upd_tm. se_keep. Qed.
Lemma vcpu_of_owner pt : preserves created_as (vcpu_of pt).
Proof. unfold vcpu_of. se_keep. Qed.
Lemma set_timer_owner j : preserves created_as (pt_set_timer j).
Proof. unfold pt_set_timer. se_keep. Qed.
Lemma stop_timer_owner j : preserves created_as (pt_stop_timer j).
Proof. unfold pt_stop_timer. se_keep. Qed.
#[local] Hint Resolve emit_owner NOW_owner the_pt_owner the_tm_owner upd_tm_owner vcpu_of_owner set_timer_owner stop_timer_owner : keep.
Lemma for_each_owner l body : (forall j, preserves created_as (body j)) -> preserves created_as (for_each l body).
Proof. intros Hb. induction l as [|j l IH]; cbn [for_each]; se_keep. Qed.
Lemma list_ops_owner j v : preserves created_as (list_del j) /\ preserves created_as (list_add j v).
Proof. unfold list_del, list_add. split; se_keep. Qed.
Lemma list_del_owner j : preserves created_as (list_del j).
Proof. apply (list_ops_owner j 0). Qed.
Lemma list_add_owner j v : preserves created_as (list_add j v).
Proof. apply list_ops_owner. Qed.
#[local] Hint Resolve list_del_owner list_add_owner : keep.

Lemma get_time_owner v : preserves created_as (hvm_get_guest_time clk v).
Proof. unfold hvm_get_guest_time. se_keep. Qed.
#[local] Hint Resolve get_time_owner : keep.
Lemma set_time_owner v t : preserves created_as (hvm_set_guest_time clk v t).
Proof. unfold hvm_set_guest_time. se_keep. Qed.
Lemma missed_owner j : preserves created_as (pt_process_missed_ticks clk j).
Proof. unfold pt_process_missed_ticks, calculate_pending_ticks. cbv zeta. se_keep. Qed.
#[local] Hint Resolve set_time_owner missed_owner : keep.
Lemma masked_owner pt : preserves created_as (pt_irq_masked pt).
Proof. unfold pt_irq_masked, pic_at. cbv zeta. se_keep. Qed.
Lemma vector_owner pt a c : preserves created_as (pt_irq_vector pt a c).
Proof. unfold pt_irq_vector, pic_at. cbv zeta. se_keep. Qed.
#[local] Hint Resolve masked_owner vector_owner : keep.
Lemma earliest_owner l max best : preserves created_as (earliest l max best).
Proof. revert max best. induction l as [|j l IH]; intros max best; cbn [earliest]; cbv zeta; se_keep. Qed.
Lemma is_pt_irq_owner l k : preserves created_as (is_pt_irq l k).
Proof. induction l as [|j l IH]; cbn [is_pt_irq]; se_keep. Qed.
Lemma pit_active_owner : preserves created_as pit_active.
Proof. unfold pit_active. se_keep. Qed.
Lemma tick_owner j v : preserves created_as (tick_delivered clk j v).
Proof. unfold tick_delivered. se_keep. Qed.
Lemma period_one_owner j : preserves created_as (pt_update_schedule_period_one j).
Proof. unfold pt_update_schedule_period_one. cbv zeta. se_keep. Qed.
Lemma resume_owner j : preserves created_as (pt_resume j).
Proof. unfold pt_resume. se_keep. Qed.
Lemma adjust_owner j v : preserves created_as (pt_adjust_vcpu j v).
Proof. unfold pt_adjust_vcpu. se_keep. Qed.
Lemma destroy_owner j : preserves created_as (destroy_periodic_time j).
Proof. unfold destroy_periodic_time. se_keep. Qed.
#[local] Hint Resolve earliest_owner is_pt_irq_owner pit_active_owner tick_owner period_one_owner resume_owner adjust_owner destroy_owner : keep.
#[local] Hint Extern 3 (preserves created_as (for_each _ _)) => apply for_each_owner : keep.
#[local] Hint Extern 1 (preserves created_as (upd_pt ?j _)) => apply (other_owner j); done : keep.

Lemma update_owner j irq p k : preserves created_as (update_periodic_time clk j irq p k).
Proof. unfold update_periodic_time. se_keep. apply upd_pt_owner. intros pt Hpt. by destruct (pt_irqno pt =? irq). Qed.
Lemma create_owner v j delta p irq cb : j <> id -> preserves created_as (create_periodic_time clk v j delta p irq cb).
Proof. intros Hne. unfold create_periodic_time. cbv zeta. se_keep. Qed.

Lemma vop_owner op : (forall v delta p irq cb, op <> VCreate v id delta p irq cb) -> preserves created_as (run_vop clk op).
Proof.
  intros Hop. destruct op; cbn [run_vop].
  - unfold hvm_init_guest_time. se_keep.
  - se_keep.
  - se_keep.
  - unfold pt_save_timer, pt_freeze_time. se_keep.
  - unfold pt_restore_timer, pt_thaw_time. se_keep. apply for_each_owner. se_keep.
  - unfold pt_timer_fn. se_keep.
  - unfold pt_update_irq. se_keep.
  - unfold pt_unpause, pt_collapse_ticks. se_keep.
  - unfold pt_intr_post. se_keep.
  - unfold pt_migrate. se_keep.
  - unfold pt_update_schedule_period. se_keep.
  - apply update_owner.
  - apply create_owner. intros ->. by eapply Hop.
  - apply destroy_owner.
  - unfold pt_adjust_global_vcpu_target. se_keep.
  - unfold pt_may_unmask_irq. se_keep.
  - apply upd_tm_owner.
  - se_keep.
  - se_keep.
Qed.
End Owner.
