(* ===== verification/VptTicks.v ===== *)
(** * The platform timers: ticks

    How [pt_process_missed_ticks] accounts for the ticks that have come due,
    and that the ticks delivered in the replaying mode are one per period. *)

From stdpp Require Import base list numbers.
From Stdlib Require Import ZArith Lia Bool.
From S2P Require Import Prelude Vpic HvmState Vlapic Vioapic HvmIrq VpicInv VpicOps.
From S2P Require Import VlapicRegs Vpt VptOps VptLists.

Open Scope Z_scope.
Open Scope se_scope.

(** ** The numbers of ticks *)

(** The ticks of the timer that have come due: one at [scheduled_t0], and one
    every period after it. *)
Definition ticks_until (pt : periodic_time) (now : Z) : Z :=
  if now <? scheduled_t0 pt then 0 else (now - scheduled_t0 pt) / period pt + 1.

(** The most that are made pending at a time. *)
Definition max_inject (p : vpt_params) (pt : periodic_time) : Z :=
  if mticks_single p then 1
  else if period pt <? schedule_period pt then MAX_INJECT_TICKS * schedule_period pt / period pt
  else MAX_INJECT_TICKS.

(** Times below two centuries, periods below two years. *)
Record in_range (now : Z) (pt : periodic_time) : Prop := {
  ir_now : 0 <= now < 2 ^ 62;
  ir_t0 : 0 <= scheduled_t0 pt < 2 ^ 62;
  ir_scheduled : 0 <= scheduled pt < 2 ^ 62;
  ir_period : 0 < period pt < 2 ^ 56;
  ir_schedule : 0 < schedule_period pt < 2 ^ 56;
  ir_done : 0 <= time_done pt < 2 ^ 63;
  ir_pending : 0 <= pending_intr_nr pt < 2 ^ 31
}.

Lemma s64_small x : - 2 ^ 63 <= x < 2 ^ 63 -> s64 x = x.
Proof. intros Hx. unfold s64. rewrite Z.mod_small by lia. lia. Qed.

Lemma div_between a b : 0 < b -> b * (a / b) <= a < b * (a / b) + b.
Proof. intros Hb. pose proof (Z.div_mod a b). pose proof (Z.mod_pos_bound a b Hb). lia. Qed.

(** The ticks that have come due beyond [d]. *)
Definition missed (pt : periodic_time) (now d : Z) : Z := Z.max 0 (ticks_until pt now - d).

Lemma missed_bound pt now d : in_range now pt -> 0 <= d -> 0 <= missed pt now d * period pt < 2 ^ 63.
Proof.
  intros [] Hd. unfold missed, ticks_until. destruct (Z.ltb_spec now (scheduled_t0 pt)); [nia|].
  pose proof (div_between (now - scheduled_t0 pt) (period pt)). pose proof (Z.div_pos (now - scheduled_t0 pt) (period pt)).
  set (q := (now - scheduled_t0 pt) / period pt) in *. nia.
Qed.

Lemma pending_ticks_wp pt now d (Q : Z -> vst -> Prop) s : in_range now pt -> one_shot pt = false ->
  time_done pt = period pt * d -> Q (missed pt now d) s -> wp (calculate_pending_ticks pt now) Q s.
Proof.
  intros [] Ho Hd HQ. unfold calculate_pending_ticks. rewrite Ho. cbn [orb]. assert (0 <= d) as Hd0 by nia.
  unfold missed, ticks_until in HQ. destruct (Z.ltb_spec now (scheduled_t0 pt)) as [|Hle].
  { rewrite Z.max_l in HQ by lia. by apply wp_ret. }
  cbv zeta. rewrite u64_small by lia. rewrite Hd.
  assert ((now - scheduled_t0 pt + period pt) / period pt = (now - scheduled_t0 pt) / period pt + 1) as Hq.
  { replace (now - scheduled_t0 pt + period pt) with (now - scheduled_t0 pt + 1 * period pt) by lia. apply Z.div_add. lia. }
  destruct (Z.leb_spec (now - scheduled_t0 pt + period pt) (period pt * d)) as [Hb|Hb].
  - pose proof (div_between (now - scheduled_t0 pt) (period pt)). rewrite Z.max_l in HQ by nia. by apply wp_ret.
  - apply wp_bind, wp_bug_if; [apply Z.eqb_neq; lia|]. apply wp_ret. rewrite u64_small by nia.
    replace (now - scheduled_t0 pt + period pt - period pt * d) with (now - scheduled_t0 pt + period pt + (- d) * period pt) by lia.
    rewrite Z.div_add, Hq by lia. rewrite Z.max_r in HQ; [exact HQ|].
    pose proof (div_between (now - scheduled_t0 pt) (period pt)). nia.
Qed.

Lemma inject_eq p pt now k : in_range now pt -> 0 <= k < 2 ^ 31 -> calculate_intr_inject p pt k = Z.min k (max_inject p pt).
Proof.
  intros [] Hk. unfold calculate_intr_inject, max_inject. cbv zeta.
  assert (u64 (s32 k) = k) as -> by (unfold s32, u64; rewrite (Z.mod_small (k + _)), Z.mod_small by lia; lia).
  rewrite (u64_small (MAX_INJECT_TICKS * _)) by (unfold MAX_INJECT_TICKS; lia).
  match goal with |- (if ?m <? k then _ else _) = _ => generalize m; intros m' end. case_match; lia.
Qed.

Lemma next_schedule_eq now pt : 0 <= scheduled pt < now -> now < 2 ^ 62 -> 0 < schedule_period pt < 2 ^ 56 ->
  next_schedule now pt = scheduled pt + (1 + (now - scheduled pt) / schedule_period pt) * schedule_period pt /\
  now < next_schedule now pt <= now + schedule_period pt.
Proof.
  intros Hlt Hnow Hp. unfold next_schedule. cbv zeta. rewrite (proj2 (Z.leb_le _ _)) by lia.
  rewrite (u64_small (now - _)) by lia.
  pose proof (div_between (now - scheduled pt) (schedule_period pt)).
  assert (now - scheduled pt < (1 + (now - scheduled pt) / schedule_period pt) * schedule_period pt <=
          now - scheduled pt + schedule_period pt) as Hb by lia.
  rewrite u64_small by lia. rewrite s64_small by lia. lia.
Qed.

(** ** Missed ticks *)

Definition dropped (pt : periodic_time) (now d : Z) : bool :=
  MAX_MISSED_TICKS_PERIOD_MS * 1000000 <? missed pt now d * period pt.
(** The ticks that become pending, and those that count as done. *)
Definition given (p : vpt_params) (pt : periodic_time) (now d : Z) : Z :=
  if dropped pt now d then 1 else Z.min (missed pt now d) (max_inject p pt).
Definition counted (p : vpt_params) (pt : periodic_time) (now d : Z) : Z :=
  if dropped pt now d || negb (mticks_replay p) then missed pt now d else given p pt now d.

(** The timer, with [d] ticks done, after the ticks it missed until [now]. *)
Definition accounted (p : vpt_params) (now d : Z) (pt : periodic_time) : periodic_time :=
  set_scheduled (schedule_period pt)
    (scheduled pt + (1 + (now - scheduled pt) / schedule_period pt) * schedule_period pt)
    (set_ticks (pending_intr_nr pt + given p pt now d) (period pt * (d + counted p pt now d)) pt).

Definition ticks_logged (b : bool) (l : list vpt_event) : list vpt_event := if b then VptException :: l else l.

Lemma max_inject_pos now p pt : in_range now pt -> 1 <= max_inject p pt.
Proof.
  intros []. unfold max_inject, MAX_INJECT_TICKS. destruct (mticks_single p); [lia|].
  destruct (Z.ltb_spec (period pt) (schedule_period pt)); [|lia]. apply Z.div_le_lower_bound; lia.
Qed.

Lemma mode_exclusive p : mticks_single p = true -> mticks_replay p = false.
Proof.
  unfold mticks_single, mticks_replay, mode_is, HVMPTF_DESCHED_MTICKS_single, HVMPTF_DESCHED_MTICKS_replay.
  rewrite Z.eqb_eq, Z.eqb_neq. lia.
Qed.

(** The two halves of [pt_process_missed_ticks]. *)
Lemma give_ticks_wp id pt d now s : let p := vs_params s in let m := missed pt now d in
  vs_pts s !! id = Some pt -> in_range now pt -> time_done pt = period pt * d ->
  wp (if MAX_MISSED_TICKS_PERIOD_MS * 1000000 <? u64 (m * period pt) then
        upd_pt id (set_ticks (u32 (pending_intr_nr pt + 1)) (u64 (time_done pt + m * period pt)));; vpt_emit VptException
      else
        bug_if (negb (mticks_single p) && (period pt =? 0) && (0 <? schedule_period pt));;
        let inject := calculate_intr_inject p pt m in
        upd_pt id (set_ticks (u32 (pending_intr_nr pt + inject))
                     (u64 (time_done pt + period pt * (if mticks_replay p then inject else m)))))
    (fun _ s' => s' = set_vs_log (ticks_logged (dropped pt now d) (vs_log s)) (set_pts
       (alter (set_ticks (pending_intr_nr pt + given p pt now d) (period pt * (d + counted p pt now d))) id (vs_pts s)) s)) s.
Proof.
  intros p m Hpt Hr Hd. pose proof Hr as []. assert (0 <= d) as Hd0 by nia.
  pose proof (missed_bound pt now d Hr Hd0) as Hb. fold m in Hb.
  assert (0 <= m) as Hm0 by (unfold m, missed; lia). rewrite u64_small by lia.
  assert (0 <= period pt * d + period pt * m < 2 ^ 64) as Ht by lia.
  unfold counted, given, dropped. fold m. destruct (Z.ltb_spec (MAX_MISSED_TICKS_PERIOD_MS * 1000000) (m * period pt)) as [Hx|Hx].
  - apply wp_bind. unfold upd_pt, vpt_emit. apply wp_modify, wp_modify. cbn [ticks_logged orb].
    rewrite u32_small, u64_small by lia. f_equal. f_equal. f_equal. f_equal. lia.
  - unfold MAX_MISSED_TICKS_PERIOD_MS in Hx. assert (m <= m * period pt) by nia.
    apply wp_bind, wp_bug_if. { rewrite (proj2 (Z.eqb_neq (period pt) 0)) by lia. by rewrite andb_false_r. }
    cbv zeta. unfold upd_pt. apply wp_modify. rewrite (inject_eq p pt now m) by (done || lia).
    pose proof (max_inject_pos now p pt Hr). set (g := Z.min m (max_inject p pt)) in *. assert (0 <= g <= m) by lia.
    cbn [ticks_logged orb]. rewrite u32_small by lia. rewrite Hd.
    assert (0 <= period pt * d + period pt * g <= period pt * d + period pt * m) by nia.
    rewrite u64_small by (destruct (mticks_replay p); lia).
    replace (period pt * d + period pt * (if mticks_replay p then g else m))
      with (period pt * (d + (if negb (mticks_replay p) then m else g))) by (destruct (mticks_replay p); cbn [negb]; lia).
    by destruct s.
Qed.

Lemma missed_ticks_wp clk id pt d s : let now := clk (vs_reads s) in let p := vs_params s in
  vs_pts s !! id = Some pt -> in_range now pt -> one_shot pt = false -> time_done pt = period pt * d -> scheduled pt < now ->
  wp (pt_process_missed_ticks clk id) (fun _ s' => s' =
    set_vs_log (ticks_logged (dropped pt now d) (vs_log s))
      (set_pts (alter (accounted p now d) id (vs_pts s)) (set_vs_reads (S (vs_reads s)) s))) s.
Proof.
  intros now p Hpt Hr Ho Hd Hlt. pose proof Hr as []. assert (0 <= d) as Hd0 by nia.
  pose proof (missed_bound pt now d Hr Hd0) as Hb. assert (missed pt now d <= missed pt now d * period pt) by (unfold missed in *; nia).
  unfold pt_process_missed_ticks. apply wp_bind. unfold the_pt. apply wp_bind, wp_gets. rewrite Hpt. apply wp_ret, wp_bind.
  unfold NOW. apply wp_bind, wp_gets, wp_bind, wp_modify, wp_ret. fold now. rewrite Ho.
  rewrite (proj2 (Z.leb_gt _ _)) by lia. apply wp_bind, (pending_ticks_wp pt now d); [done|done|done|]. cbv zeta.
  apply wp_bind, wp_gets. rewrite s64_small by (unfold missed in *; lia).
  apply wp_bind. eapply wp_mono; [by apply give_ticks_wp|]. intros [] s1 ->. apply wp_bind, wp_bug_if; [apply Z.eqb_neq; lia|].
  unfold upd_pt. apply wp_modify. cbn [vs_pts set_vs_log set_pts set_vs_reads]. rewrite list_alter_alter_eq.
  unfold set_vs_log, set_pts. cbn. f_equal. apply list_alter_ext; [|done].
  intros y Hy. assert (y = pt) as -> by congruence. cbn. unfold accounted. f_equal.
  refine (proj1 (next_schedule_eq now (set_ticks _ _ pt) _ _ _)); cbn; lia.
Qed.

Lemma no_ticks_wp clk id pt s : vs_pts s !! id = Some pt -> clk (vs_reads s) <= scheduled pt ->
  wp (pt_process_missed_ticks clk id) (fun _ s' => s' = set_vs_reads (S (vs_reads s)) s) s.
Proof.
  intros Hpt Hle. unfold pt_process_missed_ticks. apply wp_bind. unfold the_pt. apply wp_bind, wp_gets. rewrite Hpt.
  apply wp_ret, wp_bind. unfold NOW. apply wp_bind, wp_gets, wp_bind, wp_modify, wp_ret.
  destruct (one_shot pt); [by apply wp_ret|]. rewrite (proj2 (Z.leb_le _ _)) by done. by apply wp_ret.
Qed.

(** ** Ticks replayed *)

Lemma ticks_until_mono pt t t' : 0 < period pt -> t <= t' -> ticks_until pt t <= ticks_until pt t'.
Proof.
  intros Hp Ht. unfold ticks_until. destruct (Z.ltb_spec t (scheduled_t0 pt)), (Z.ltb_spec t' (scheduled_t0 pt)); try lia.
  - pose proof (Z.div_pos (t' - scheduled_t0 pt) (period pt)). lia.
  - pose proof (Z.div_le_mono (t - scheduled_t0 pt) (t' - scheduled_t0 pt) (period pt)). lia.
Qed.

Section Replay.
Context (clk : nat -> Z) (T : Z) (id : nat) (v : Z) (pt0 : periodic_time).

(** The clock up to [T], and a periodic timer that has just been set. *)
Record replay_setting : Prop := {
  rp_clock : forall j, 0 <= clk j <= T;
  rp_bound : T < 2 ^ 61;
  rp_period : 0 < period pt0 < 2 ^ 56;
  rp_schedule : 0 < schedule_period pt0 < 2 ^ 56;
  rp_t0 : 0 <= scheduled_t0 pt0 < 2 ^ 61
}.

(** The timer after [k] ticks: each moved the guest's time of the last tick by
    one period, and those done are the [k] and the ones that are pending. *)
Record paced (k : Z) (pt : periodic_time) : Prop := {
  pc_period : period pt = period pt0;
  pc_schedule : schedule_period pt = schedule_period pt0;
  pc_t0 : scheduled_t0 pt = scheduled_t0 pt0;
  pc_kind : one_shot pt = false /\ collapse_ticks pt = false /\ pt_vcpu pt = Some v;
  pc_last : last_plt_gtime pt = u64 (last_plt_gtime pt0 + period pt0 * k);
  pc_done : time_done pt = period pt0 * (k + pending_intr_nr pt);
  pc_pending : 0 <= pending_intr_nr pt < 2 ^ 31;
  pc_timer : is_Some (timer_set pt) -> pending_intr_nr pt = 0;
  pc_scheduled : 0 <= scheduled pt < 2 ^ 62;
  pc_due : k + pending_intr_nr pt <= ticks_until pt0 T
}.

Definition paced_in (k : Z) (s : vst) : Prop :=
  mticks_replay (vs_params s) = true /\ exists pt, vs_pts s !! id = Some pt /\ paced k pt.

Lemma ticks_bound : replay_setting -> period pt0 * ticks_until pt0 T < 2 ^ 62.
Proof.
  intros []. unfold ticks_until. destruct (Z.ltb_spec T (scheduled_t0 pt0)); [lia|].
  pose proof (div_between (T - scheduled_t0 pt0) (period pt0)). lia.
Qed.

Lemma paced_in_range k pt j : replay_setting -> 0 <= k -> paced k pt -> in_range (clk j) pt.
Proof.
  intros Hs Hk []. pose proof (ticks_bound Hs). destruct Hs. pose proof (rp_clock0 j).
  split; rewrite ?pc_period0, ?pc_schedule0, ?pc_t1, ?pc_done0; try lia. nia.
Qed.

(** The timer after the ticks missed since its host timer was set. *)
Lemma paced_accounted k pt j p : replay_setting -> mticks_replay p = true -> 0 <= k -> paced k pt ->
  pending_intr_nr pt = 0 -> timer_set pt = None -> scheduled pt < clk j -> dropped pt (clk j) k = false ->
  paced k (accounted p (clk j) k pt) /\ timer_set (accounted p (clk j) k pt) = None.
Proof.
  intros Hs Hp Hk Hpt Hpend Htimer Hlt Hdrop. pose proof (paced_in_range k pt j Hs Hk Hpt) as Hr.
  pose proof (next_schedule_eq (clk j) pt) as [Hn1 Hn2]; [destruct Hr; lia|destruct Hr; lia|by destruct Hr|].
  pose proof (max_inject_pos _ p pt Hr) as Hmax. pose proof (missed_bound pt (clk j) k Hr Hk) as Hb.
  assert (0 <= missed pt (clk j) k) as Hm0 by (unfold missed; lia).
  assert (given p pt (clk j) k = Z.min (missed pt (clk j) k) (max_inject p pt)) as Hg by (unfold given; by rewrite Hdrop).
  assert (counted p pt (clk j) k = given p pt (clk j) k) as Hc by (unfold counted; by rewrite Hdrop, Hp).
  unfold dropped, MAX_MISSED_TICKS_PERIOD_MS in Hdrop. apply Z.ltb_ge in Hdrop. rewrite Hn1 in Hn2.
  assert (ticks_until pt (clk j) <= ticks_until pt0 T) as Hmono.
  { destruct Hpt, Hs. replace (ticks_until pt (clk j)) with (ticks_until pt0 (clk j))
      by (unfold ticks_until; by rewrite pc_period0, pc_t1). apply ticks_until_mono; [lia|]. apply rp_clock0. }
  split; [|done]. destruct Hr, Hpt. pose proof (rp_clock Hs j). pose proof (rp_bound Hs).
  assert (missed pt (clk j) k <= missed pt (clk j) k * period pt) by nia.
  split; cbn; rewrite ?Hc, ?Hpend; try done.
  - by rewrite pc_period0, Z.add_0_l.
  - lia.
  - rewrite Htimer. by intros [? ?].
  - lia.
  - unfold missed in Hg. lia.
Qed.
Definition idle_in (k : Z) (s : vst) : Prop :=
  mticks_replay (vs_params s) = true /\ exists pt, vs_pts s !! id = Some pt /\ paced k pt /\ timer_set pt = None.

Lemma paced_process k s pt : replay_setting -> 0 <= k -> mticks_replay (vs_params s) = true ->
  vs_pts s !! id = Some pt -> paced k pt -> pending_intr_nr pt = 0 -> timer_set pt = None ->
  wp (pt_process_missed_ticks clk id)
     (fun _ s' => is_Some (vs_pts s' !! id) /\ ((VptException ∉ vs_log s') -> idle_in k s')) s.
Proof.
  intros Hs Hk Hmode Hpt Hpc Hpend Htimer. destruct (Z.le_gt_cases (clk (vs_reads s)) (scheduled pt)) as [Hle|Hlt].
  - eapply wp_mono; [by apply (no_ticks_wp clk id pt)|]. intros [] s' ->. split; [by exists pt|]. intros _. split; [done|]. by exists pt.
  - pose proof (paced_in_range k pt (vs_reads s) Hs Hk Hpc) as Hr. eapply wp_mono; [apply (missed_ticks_wp clk id pt k); try done|].
    + apply Hpc.
    + destruct Hpc. rewrite pc_done0, pc_period0, Hpend. lia.
    + intros [] s' ->. split. { cbn. rewrite list_lookup_alter_eq, Hpt. by eexists. }
      intros Hlog. cbn [vs_log set_vs_log] in Hlog. destruct (dropped pt (clk (vs_reads s)) k) eqn:Hd.
      { exfalso. apply Hlog. by left. }
      split; [done|]. exists (accounted (vs_params s) (clk (vs_reads s)) k pt). split.
      { cbn. by rewrite list_lookup_alter_eq, Hpt. }
      by apply paced_accounted.
Qed.

Lemma the_pt_eq j pt s (Q : periodic_time -> vst -> Prop) : vs_pts s !! j = Some pt -> Q pt s -> wp (the_pt j) Q s.
Proof. intros Hpt HQ. unfold the_pt. apply wp_bind, wp_gets. rewrite Hpt. by apply wp_ret. Qed.

(** [if ( pt->pending_intr_nr == 0 ) pt_set_timer(...)] *)
Lemma paced_set_timer k s pt : mticks_replay (vs_params s) = true -> vs_pts s !! id = Some pt -> paced k pt ->
  timer_set pt = None ->
  wp (pt <- the_pt id;; when (pending_intr_nr pt =? 0) (pt_set_timer id))
     (fun _ s' => vs_log s' = vs_log s /\ paced_in k s') s.
Proof.
  intros Hmode Hpt Hpc Htimer. apply wp_bind, (the_pt_eq id pt); [done|]. apply wp_when; intros Hp.
  - apply Z.eqb_eq in Hp. unfold pt_set_timer, upd_pt. apply wp_modify. split; [done|]. split; [done|].
    eexists. cbn. rewrite list_lookup_alter_eq, Hpt. split; [done|]. destruct Hpc. by split.
  - split; [done|]. split; [done|]. by exists pt.
Qed.

Lemma set_timer_log s : is_Some (vs_pts s !! id) ->
  wp (pt <- the_pt id;; when (pending_intr_nr pt =? 0) (pt_set_timer id)) (fun _ s' => vs_log s' = vs_log s) s.
Proof.
  intros [pt Hpt]. apply wp_bind, (the_pt_eq id pt); [done|]. apply wp_when; intros _; [|done].
  unfold pt_set_timer, upd_pt. by apply wp_modify.
Qed.

Lemma settle_wp k s pt : replay_setting -> 0 <= k -> mticks_replay (vs_params s) = true ->
  vs_pts s !! id = Some pt -> paced k pt -> pending_intr_nr pt = 0 -> timer_set pt = None ->
  wp (pt_process_missed_ticks clk id;; pt <- the_pt id;; when (pending_intr_nr pt =? 0) (pt_set_timer id))
     (fun _ s' => (VptException ∉ vs_log s') -> paced_in k s') s.
Proof.
  intros Hs Hk Hmode Hpt Hpc Hpend Htimer. apply wp_bind. eapply wp_mono; [by apply (paced_process k s pt)|].
  intros [] s1 [Hsome H1]. destruct (decide (VptException ∈ vs_log s1)) as [Hin|Hout].
  - eapply wp_mono; [by apply set_timer_log|]. intros [] s2 E. by rewrite E.
  - destruct (H1 Hout) as (Hm & pt1 & Hpt1 & Hpc1 & Ht1). eapply wp_mono; [by apply (paced_set_timer k s1 pt1)|].
    by intros [] s2 [_ H].
Qed.

(** The host timer fires. *)
Lemma paced_fire k s pt : replay_setting -> 0 <= k -> mticks_replay (vs_params s) = true ->
  vs_pts s !! id = Some pt -> paced k pt -> is_Some (timer_set pt) ->
  wp (pt_timer_fn clk id) (fun _ s' => (VptException ∉ vs_log s') -> paced_in k s') s.
Proof.
  intros Hs Hk Hmode Hpt Hpc Ht. pose proof (pc_timer _ _ Hpc Ht) as Hpend. unfold pt_timer_fn.
  apply wp_bind. unfold pt_stop_timer, upd_pt at 1. apply wp_modify. set (pt1 := set_deadline None pt).
  assert (paced k pt1) as Hpc1. { destruct Hpc. by split. }
  match goal with |- wp _ _ ?x => set (s1 := x) end.
  assert (vs_pts s1 !! id = Some pt1) as Hpt1 by (cbn; by rewrite list_lookup_alter_eq, Hpt).
  apply wp_bind, (the_pt_eq id pt1); [done|]. apply wp_bind. destruct (pc_kind _ _ Hpc1) as (Ho & _ & Hv).
  unfold vcpu_of. rewrite Hv. apply wp_ret, wp_bind. rewrite Ho.
  eapply wp_mono; [by apply (settle_wp k s1 pt1)|]. intros [] s2 H2. unfold vpt_emit. apply wp_modify. cbn. intros Hlog.
  rewrite not_elem_of_cons in Hlog. by destruct (H2 (proj2 Hlog)) as [H3 H4].
Qed.

(** A tick is delivered. *)
Lemma paced_delivered k s pt : replay_setting -> 0 <= k -> mticks_replay (vs_params s) = true ->
  vs_pts s !! id = Some pt -> paced k pt -> 0 < pending_intr_nr pt ->
  wp (tick_delivered clk id v) (fun _ s' => (VptException ∉ vs_log s') -> paced_in (k + 1) s') s.
Proof.
  intros Hs Hk Hmode Hpt Hpc Hpend. unfold tick_delivered. destruct (pc_kind _ _ Hpc) as (Ho & Hcol & Hv).
  apply wp_bind. unfold upd_pt at 1. apply wp_modify. apply wp_bind, (the_pt_eq id (set_irq_issued false pt)).
  { cbn. by rewrite list_lookup_alter_eq, Hpt. }
  apply wp_bind, wp_gets. cbn [one_shot collapse_ticks set_irq_issued vs_params set_pts]. rewrite Ho, Hcol.
  destruct (mticks_single (vs_params s)) eqn:Hsing; [by rewrite (mode_exclusive _ Hsing) in Hmode|]. cbn [orb].
  apply wp_bind. unfold upd_pt at 1. apply wp_modify. cbn [vs_pts set_pts]. rewrite list_alter_alter_eq.
  match goal with |- context [alter ?f id (vs_pts s)] => set (f1 := f) end.
  assert (paced (k + 1) (f1 pt) /\ timer_set (f1 pt) = None /\ pending_intr_nr (f1 pt) = pending_intr_nr pt - 1) as (Hpc1 & Ht1 & Hp1).
  { assert (timer_set pt = None) as Hnone.
    { destruct (timer_set pt) eqn:E; [|done]. pose proof (pc_timer _ _ Hpc) as Hz. rewrite E in Hz. specialize (Hz ltac:(by eexists)). lia. }
    destruct Hpc. cbn. rewrite u32_small by lia. split; [|done]. split; cbn; try done; rewrite ?u32_small by lia; try lia.
    - rewrite pc_last0, pc_period0. unfold u64. rewrite Zplus_mod_idemp_l. f_equal. lia.
    - rewrite Hnone. by intros [? ?]. }
  match goal with |- wp _ _ ?x => set (s1 := x) end.
  assert (vs_pts s1 !! id = Some (f1 pt)) as Hpt1 by (cbn; by rewrite list_lookup_alter_eq, Hpt).
  apply wp_bind, (the_pt_eq id (f1 pt)); [done|]. apply wp_when; intros Hz.
  - apply Z.eqb_eq in Hz. apply (settle_wp (k + 1) s1 (f1 pt)); try done. lia.
  - intros _. split; [done|]. by exists (f1 pt).
Qed.

(** Firings and deliveries, none of which gives up ticks; [k] counts the
    deliveries. *)
Inductive tick_trace : vst -> Z -> vst -> Prop :=
| trace_start s : tick_trace s 0 s
| trace_fire s k s1 s2 pt : tick_trace s k s1 -> vs_pts s1 !! id = Some pt -> is_Some (timer_set pt) ->
    pt_timer_fn clk id s1 = (s2, Ok tt) -> (VptException ∉ vs_log s2) -> tick_trace s k s2
| trace_deliver s k s1 s2 pt : tick_trace s k s1 -> vs_pts s1 !! id = Some pt -> 0 < pending_intr_nr pt ->
    tick_delivered clk id v s1 = (s2, Ok tt) -> (VptException ∉ vs_log s2) -> tick_trace s (k + 1) s2.

Lemma trace_paced s k s' : replay_setting -> tick_trace s k s' -> paced_in 0 s -> 0 <= k /\ paced_in k s'.
Proof.
  intros Hs. induction 1 as [s|s k s1 s2 pt Ht IH Hpt Htm Hrun Hlog|s k s1 s2 pt Ht IH Hpt Hp Hrun Hlog]; intros H0; [done| |].
  - destruct (IH H0) as (Hk & Hmode & pt' & Hpt' & Hpc). assert (pt' = pt) as -> by congruence.
    pose proof (paced_fire k s1 pt Hs Hk Hmode Hpt Hpc Htm) as W. unfold wp in W. rewrite Hrun in W. auto.
  - destruct (IH H0) as (Hk & Hmode & pt' & Hpt' & Hpc). assert (pt' = pt) as -> by congruence.
    pose proof (paced_delivered k s1 pt Hs Hk Hmode Hpt Hpc Hp) as W. unfold wp in W. rewrite Hrun in W. split; [lia|auto].
Qed.
End Replay.
