(* ===== verification/VptProps.v ===== *)
(** * The platform timers: properties *)

From stdpp Require Import base list numbers.
From Stdlib Require Import ZArith Lia Bool Sorted.
From S2P Require Import Prelude Vpic HvmState Vlapic Vioapic HvmIrq VpicInv VpicOps.
From S2P Require Import VioapicInv VioapicOps HvmIrqOps HvmIrqRun.
From S2P Require Import VlapicRegs HvmLapic HvmIrqSystem HvmIrqProps.
From S2P Require Import Vpt VptOps VptLists VptSystem VptTicks.

Open Scope Z_scope.
Open Scope se_scope.

(** ** The lists *)

(** C15: the lists of the platform timers.  The devices set, change and destroy
    timers, host timers fire, vcpus are descheduled, migrated, unpaused or take
    interrupts, masks change, for any host clock.  If these operations keep the
    conditions of [vop_ok] - the vcpus and timers exist and a host timer fires
    only when it is set; a timer that is created has a period that is not
    negative, a timer that is updated is periodic and is given a period that is
    not 0; the interrupt of a device's timer is an ISA interrupt, at most 15 -
    every operation succeeds: no assertion fails, no list entry is added twice
    or deleted while it is on no list, no period is divided by zero; and in
    every state so reached a timer is on the list of a vcpu exactly when its
    [on_list] flag is set and that vcpu is its own, and no list has it twice.
    The conditions are needed: the HPET does not keep the last two for every
    guest ([hpet_top_bit_period_divides_by_zero], [hpet_route_beyond_isa_fails]
    of TimerProps.v show the failures); the other devices do. *)
Theorem timer_lists_consistent clk n s op : vreach clk n s -> vop_ok n op s ->
  listed s /\ exists s', run_vop clk op s = (s', Ok tt) /\ vreach clk n s'.
Proof.
  intros Hr Hop. pose proof (vreach_ok clk n s Hr) as Hs. split; [apply Hs|].
  destruct (wp_inv _ _ _ (vop_wp clk n op s Hs Hop)) as (s' & [] & E & _). exists s'. split; [done|]. by eapply vreach_step.
Qed.

(** ** The guest's time *)

Fixpoint read_times (clk : nat -> Z) (vs : list Z) : SE vst (list Z) :=
  match vs with
  | [] => ret []
  | v :: vs => t <- hvm_get_guest_time clk v;; l <- read_times clk vs;; ret (t :: l)
  end.

(** The value [hvm_get_guest_time] adds the vcpu's offset to. *)
Definition time_after (clk : nat -> Z) (s : vst) : Z :=
  let now := clk (vs_reads s) + pl_stime_offset s in
  if last_guest_time s <? now then now else last_guest_time s + 1.

Definition after_read (clk : nat -> Z) (s : vst) : vst :=
  set_pl_time (pl_stime_offset s) (time_after clk s) (set_vs_reads (S (vs_reads s)) s).

Lemma get_time_wp clk n v s tm (Q : Z -> vst -> Prop) : vpt_ok n s -> 0 <= v < n -> vs_vcpus s !! Z.to_nat v = Some tm ->
  0 <= clk (vs_reads s) + pl_stime_offset s < 2 ^ 62 -> 0 <= last_guest_time s < 2 ^ 62 + 2 ^ 61 -> 0 <= v_stime_offset tm < 2 ^ 62 ->
  Q (time_after clk s + v_stime_offset tm) (after_read clk s) -> wp (hvm_get_guest_time clk v) Q s.
Proof.
  intros Hs Hv Htm Hc Hl Ho HQ. unfold hvm_get_guest_time. apply wp_bind. unfold NOW.
  apply wp_bind, wp_gets, wp_bind, wp_modify, wp_ret, wp_bind, wp_get. cbn [pl_stime_offset last_guest_time set_vs_reads]. cbv zeta.
  rewrite (u64_small (clk _ + _)), s64_small, (u64_small (last_guest_time s + 1)) by lia. apply wp_bind, wp_modify.
  assert ((if 0 <? clk (vs_reads s) + pl_stime_offset s - last_guest_time s then clk (vs_reads s) + pl_stime_offset s
           else last_guest_time s + 1) = time_after clk s) as ->.
  { unfold time_after. cbv zeta. destruct (Z.ltb_spec 0 (clk (vs_reads s) + pl_stime_offset s - last_guest_time s)),
      (Z.ltb_spec (last_guest_time s) (clk (vs_reads s) + pl_stime_offset s)); lia. }
  apply wp_bind. apply (the_tm_wp n); [by destruct Hs|done|]. intros tm' Htm'. cbn in Htm'.
  assert (tm' = tm) as -> by congruence. apply wp_ret. rewrite u64_small; [done|].
  unfold time_after. cbv zeta. case_match; lia.
Qed.

Lemma read_times_wp clk n off vs : forall s, vpt_ok n s -> Forall (fun v => 0 <= v < n) vs ->
  (forall k, 0 <= clk k + pl_stime_offset s < 2 ^ 62) -> 0 <= last_guest_time s -> last_guest_time s + zlen vs < 2 ^ 62 + 2 ^ 61 ->
  zlen vs <= 2 ^ 61 -> 0 <= off < 2 ^ 62 -> Forall (fun tm => v_stime_offset tm = off) (vs_vcpus s) ->
  wp (read_times clk vs) (fun l _ => length l = length vs /\ StronglySorted Z.lt l /\ Forall (fun t => last_guest_time s + off < t) l) s.
Proof.
  induction vs as [|v vs IH]; intros s Hs Hvs Hc Hl0 Hl1 Hlen Hoff Htms; cbn [read_times].
  { apply wp_ret. split_and!; constructor. }
  apply Forall_cons_iff in Hvs as [Hv Hvs]. destruct (lookup_Z (vs_vcpus s) v) as [tm Htm]; [by rewrite (vo_vcpus _ _ Hs)|].
  pose proof (Forall_lookup_1 _ _ _ _ Htms Htm) as Ho. cbn beta in Ho. unfold zlen in *. cbn [length] in *.
  apply wp_bind, (get_time_wp clk n v s tm); [done|done|done|apply Hc|lia|lia|].
  assert (last_guest_time s < time_after clk s /\ time_after clk s + Z.of_nat (length vs) < 2 ^ 62 + 2 ^ 61) as [H1 H2].
  { unfold time_after. cbv zeta. pose proof (Hc (vs_reads s)). destruct (Z.ltb_spec (last_guest_time s) (clk (vs_reads s) + pl_stime_offset s)); lia. }
  apply wp_bind. eapply wp_mono; [apply (IH (after_read clk s)); try done; cbn; try lia; by destruct Hs|].
  intros l s' (L1 & L2 & L3). apply wp_ret. cbn [length last_guest_time after_read set_pl_time] in *. split_and!.
  - lia.
  - constructor; [done|]. refine (Forall_impl _ _ L3). intros t Ht. lia.
  - constructor; [lia|]. refine (Forall_impl _ _ L3). intros t Ht. lia.
Qed.

(** C18: the guest's time never stands still or goes back.  Whatever the host's
    clock does (it may repeat or step backwards from one read to the next), the
    values that [hvm_get_guest_time] returns, to any vcpus whose offsets agree
    and in any order, increase strictly, as long as the times stay below
    [2^62] nanoseconds. *)
Theorem guest_time_increases clk n s off vs : vreach clk n s -> Forall (fun v => 0 <= v < n) vs ->
  (forall k, 0 <= clk k + pl_stime_offset s < 2 ^ 62) -> 0 <= last_guest_time s < 2 ^ 62 -> zlen vs < 2 ^ 61 ->
  0 <= off < 2 ^ 62 -> Forall (fun tm => v_stime_offset tm = off) (vs_vcpus s) ->
  exists s' l, read_times clk vs s = (s', Ok l) /\ length l = length vs /\ StronglySorted Z.lt l /\
    Forall (fun t => last_guest_time s + off < t) l.
Proof.
  intros Hr Hvs Hc Hl Hlen Hoff Htms. pose proof (vreach_ok clk n s Hr) as Hs.
  destruct (wp_inv _ _ _ (read_times_wp clk n off vs s Hs Hvs Hc ltac:(lia) ltac:(lia) ltac:(lia) Hoff Htms)) as (s' & l & E & H).
  by exists s', l.
Qed.

(** ** Ticks *)

(** C28: a periodic timer whose next tick is overdue accounts for every tick
    exactly.  With [d] ticks done before, [pt_process_missed_ticks] finds the
    ticks that have come due since ([missed]); it makes them pending, up to 1 in
    the single mode, to 50, or to 50 per host period when the ticks are
    coalesced; beyond half a second of them it gives up, makes one pending and
    tells the guest.  All count as done, except in the replaying mode, where
    only those made pending do.  The host timer moves by whole host periods, to
    the first time after now. *)
Theorem missed_ticks_accounted clk n s id pt d : vreach clk n s -> vs_pts s !! id = Some pt -> one_shot pt = false ->
  in_range (clk (vs_reads s)) pt -> time_done pt = period pt * d -> scheduled pt < clk (vs_reads s) ->
  let now := clk (vs_reads s) in
  let m := Z.max 0 (ticks_until pt now - d) in
  let too_many := 500000000 <? m * period pt in
  let most := if mticks_single (vs_params s) then 1
              else if period pt <? schedule_period pt then 50 * schedule_period pt / period pt else 50 in
  let g := if too_many then 1 else Z.min m most in
  exists s' pt', pt_process_missed_ticks clk id s = (s', Ok tt) /\ vs_pts s' !! id = Some pt' /\
    (forall j, j <> id -> vs_pts s' !! j = vs_pts s !! j) /\
    pending_intr_nr pt' = pending_intr_nr pt + g /\
    time_done pt' = period pt * (d + if too_many || negb (mticks_replay (vs_params s)) then m else g) /\
    now < scheduled pt' <= now + schedule_period pt /\ (schedule_period pt | scheduled pt' - scheduled pt) /\
    vs_log s' = (if too_many then [VptException] else []) ++ vs_log s.
Proof.
  intros Hr Hpt Ho Hin Hd Hlt. cbv zeta.
  destruct (wp_inv _ _ _ (missed_ticks_wp clk id pt d s Hpt Hin Ho Hd Hlt)) as (s' & [] & E & ->).
  destruct Hin. pose proof (next_schedule_eq (clk (vs_reads s)) pt) as [N1 N2]; [lia|lia|done|].
  eexists _, _. split; [exact E|]. cbn [vs_pts set_vs_log set_pts]. rewrite list_lookup_alter_eq, Hpt. split; [reflexivity|].
  split; [intros j Hj; by apply list_lookup_alter_ne|]. split; [done|]. split; [done|]. cbn [accounted scheduled set_scheduled].
  rewrite <- N1. split; [done|]. split.
  - rewrite N1. exists (1 + (clk (vs_reads s) - scheduled pt) / schedule_period pt). lia.
  - cbn [vs_log set_vs_log]. unfold ticks_logged, dropped, missed, MAX_MISSED_TICKS_PERIOD_MS.
    change (500 * 1000000) with 500000000. by case_match.
Qed.

(** C32: in the replaying mode the guest gets one tick per period.  From a
    periodic timer that has just been set, after any interleaving of firings of
    its host timer and deliveries of its interrupt in which no ticks are given
    up, and whatever the host's clock (below [T]) does: with [k] ticks
    delivered, the guest's time of the last tick ([last_plt_gtime]) is [k]
    periods after that of the start, the ticks done are the [k] delivered and
    the pending ones, and they are at most those that have come due. *)
Theorem replayed_ticks_one_per_period clk T id v pt0 s k s' : replay_setting clk T pt0 ->
  mticks_replay (vs_params s) = true -> vs_pts s !! id = Some pt0 -> one_shot pt0 = false -> collapse_ticks pt0 = false ->
  pt_vcpu pt0 = Some v -> 0 <= last_plt_gtime pt0 < 2 ^ 64 -> time_done pt0 = 0 -> pending_intr_nr pt0 = 0 ->
  0 <= scheduled pt0 < 2 ^ 62 -> tick_trace clk id v s k s' ->
  exists pt, vs_pts s' !! id = Some pt /\ last_plt_gtime pt = u64 (last_plt_gtime pt0 + period pt0 * k) /\
    time_done pt = period pt0 * (k + pending_intr_nr pt) /\ 0 <= pending_intr_nr pt /\
    k + pending_intr_nr pt <= ticks_until pt0 T.
Proof.
  intros Hset Hmode Hpt Ho Hc Hv Hlast Hdone Hpend Hsch Htr.
  assert (0 <= ticks_until pt0 T) as Hticks.
  { unfold ticks_until. destruct Hset. case_match eqn:E; [lia|]. apply Z.ltb_ge in E.
    pose proof (Z.div_pos (T - scheduled_t0 pt0) (period pt0)). lia. }
  assert (paced T v pt0 0 pt0) as H0.
  { split; rewrite ?Hpend, ?Hdone; try done; [|lia..]. rewrite Z.mul_0_r, Z.add_0_r. by rewrite u64_small. }
  destruct (trace_paced clk T id v pt0 s k s' Hset Htr) as (_ & _ & pt & Hpt' & []); [by split; [|exists pt0]|].
  exists pt. split_and!; try done. lia.
Qed.

(** ** Interrupts *)

(** on the entry into the guest ([pt_update_irq]) the timers of the vcpu
    that have ticks pending and whose interrupt is masked leave its list, with
    their ticks; of the others with ticks pending the one that is due first
    ([last_plt_gtime + schedule_period]) has its interrupt raised, in the local
    APIC or by a pulse on its ISA line, and is the one marked as issued; when
    there is none the interrupt hardware is left as it is. *)
Theorem earliest_timer_interrupts clk n s v tm : vreach clk n s -> 0 <= v < n -> vs_vcpus s !! Z.to_nat v = Some tm ->
  exists s', pt_update_irq v s = (s', Ok tt) /\
    (forall id pt, id ∈ tm_list tm -> vs_pts s !! id = Some pt -> suspends (vs_hw s) v pt = true ->
       vs_pts s' !! id = Some (set_list_flag false pt)) /\
    (((forall id pt, id ∈ tm_list tm -> vs_pts s !! id = Some pt -> claims (vs_hw s) v pt = true -> 2 ^ 64 - 1 <= due pt) /\
      vs_hw s' = vs_hw s) \/
     exists id pt, id ∈ tm_list tm /\ vs_pts s !! id = Some pt /\ claims (vs_hw s) v pt = true /\
       (forall j pt', j ∈ tm_list tm -> vs_pts s !! j = Some pt' -> claims (vs_hw s) v pt' = true -> due pt <= due pt') /\
       raised v pt (vs_hw s) (vs_hw s') /\ vs_pts s' !! id = Some (set_irq_issued true pt)).
Proof.
  intros Hr Hv Htm. pose proof (vreach_ok clk n s Hr) as Hs.
  destruct (wp_inv _ _ _ (update_irq_wp n v tm s Hs Hv Htm)) as (s' & [] & E & _ & H). exists s'. split; [done|].
  pose proof (first_due_spec (due_in v s) (tm_list tm) (2 ^ 64 - 1) None) as Hspec. fold (chosen v s (tm_list tm)) in Hspec.
  assert (forall id pt, id ∈ tm_list tm -> vs_pts s !! id = Some pt -> suspends (vs_hw s) v pt = true ->
    scanned (vs_hw s) v (tm_list tm) id <$> vs_pts s !! id = Some (set_list_flag false pt)) as Hsus.
  { intros id pt Hid Hpt Hsu. rewrite Hpt. cbn. unfold scanned. by rewrite bool_decide_eq_true_2, Hsu by done. }
  assert (forall id pt, vs_pts s !! id = Some pt -> claims (vs_hw s) v pt = true -> due_in v s id = Some (due pt)) as Hdue.
  { intros id pt Hpt Hc. unfold due_in. by rewrite Hpt, Hc. }
  destruct (chosen v s (tm_list tm)) as [id|].
  - destruct H as (pt & Hpt & Hrai & Hid & Hoth). destruct Hspec as [[? _]|(d & Hin & Hd & _ & Hmin)]; [done|].
    unfold due_in in Hd. rewrite Hpt in Hd. destruct (claims (vs_hw s) v pt) eqn:Hc; [|done]. injection Hd as <-. split.
    + intros j pt' Hj Hpt' Hsu. rewrite Hoth; [by apply Hsus|]. intros ->. rewrite Hpt in Hpt'. injection Hpt' as <-.
      unfold suspends, claims in *. destruct (ticking pt), (timer_masked (vs_hw s) v pt); done.
    + right. exists id, pt. split_and!; try done. intros j pt' Hj Hpt' Hc'. apply (Hmin j); [done|by apply Hdue].
  - destruct H as [Hhw Hoth], Hspec as [_ Hmin]. split; [|left; split; [|done]].
    + intros j pt' Hj Hpt' Hsu. rewrite Hoth. by apply Hsus.
    + intros j pt' Hj Hpt' Hc'. apply (Hmin j); [done|by apply Hdue].
Qed.

(** A timer after [pt_resume]. *)
Definition resumed (pt : periodic_time) : periodic_time :=
  match pt_vcpu pt with Some _ => if ticking pt then set_list_flag true pt else pt | None => pt end.

Lemma resumed_twice pt : resumed (resumed pt) = resumed pt.
Proof. unfold resumed, ticking. destruct (pt_vcpu pt) eqn:E, (pending_intr_nr pt =? 0) eqn:E2; cbn; by rewrite ?E, ?E2. Qed.

Lemma resume_pts n id s : vpt_ok n s -> (id < 5 + Z.to_nat n)%nat ->
  wp (pt_resume id) (fun _ s' => vpt_ok n s' /\ vs_pts s' = alter resumed id (vs_pts s)) s.
Proof.
  intros Hs Hid. apply wp_bind, (the_pt_wp n); [done|done|]. intros pt Hpt Hp.
  assert (forall f, f pt = resumed pt -> alter resumed id (vs_pts s) = alter f id (vs_pts s)) as Halt.
  { intros f Hf. apply list_alter_ext; [|done]. intros x Hx. congruence. }
  assert (resumed pt = pt -> vs_pts s = alter resumed id (vs_pts s)) as Hsame.
  { intros Hf. rewrite (Halt (fun x => x)) by done. by rewrite list_alter_id. }
  unfold resumed at 1 in Hsame. unfold ticking in Hsame. destruct (pt_vcpu pt) as [v|] eqn:Hv; [|by split; [|apply Hsame]].
  apply wp_when; intros Hw.
  - apply andb_true_iff in Hw as [Hpend Hoff%negb_true_iff]. apply wp_bind_bind.
    eapply wp_mono; [by apply (link_wp n id v pt)|]. intros [] s' (Hok & Hpts & _). unfold vpt_emit. apply wp_modify.
    split; [by destruct Hok|]. cbn. rewrite Hpts. symmetry. apply Halt. unfold resumed, ticking. by rewrite Hv, Hpend.
  - split; [done|]. apply Hsame. apply andb_false_iff in Hw as [Hpend|Hon%negb_false_iff]; [by rewrite Hpend|].
    destruct (negb _); [|done]. destruct pt; cbn in *; by subst.
Qed.

Lemma resume_all_pts n l s : vpt_ok n s -> Forall (fun id => (id < 5 + Z.to_nat n)%nat) l ->
  wp (for_each l pt_resume) (fun _ s' => vpt_ok n s' /\
    forall j, vs_pts s' !! j = (if bool_decide (j ∈ l) then resumed else id) <$> vs_pts s !! j) s.
Proof.
  intros Hs Hl. revert s Hs. induction Hl as [|i l Hi Hl IH]; intros s Hs; cbn [for_each].
  - apply wp_ret. split; [done|]. intros j. rewrite bool_decide_eq_false_2 by (by intros ?%elem_of_nil). by destruct (vs_pts s !! j).
  - apply wp_bind. eapply wp_mono; [by apply (resume_pts n)|]. intros [] s1 [Hs1 E1].
    eapply wp_mono; [by apply IH|]. intros [] s2 [Hs2 E2]. split; [done|]. intros j. rewrite E2, E1, list_lookup_alter.
    destruct (decide (j = i)) as [->|Hne].
    + rewrite (bool_decide_eq_true_2 (i ∈ i :: l)) by (by left). rewrite decide_True by done. destruct (vs_pts s !! i) as [pt|]; [|done].
      cbn. case_bool_decide; [|done]. by rewrite resumed_twice.
    + rewrite decide_False by done. by rewrite (elem_cons_other j i l).
Qed.

(** The calls of [pt_may_unmask_irq] are one loop. *)
Definition unmask_timers (i : Z) : list nat := [PIT_TIMER; RTC_TIMER] ++ HPET_TIMERS ++ [LAPIC_TIMER i].

Lemma unmask_loop i s : pt_may_unmask_irq true (Some i) s = for_each (unmask_timers i) pt_resume s.
Proof.
  unfold unmask_timers, pt_may_unmask_irq, LAPIC_TIMER. cbn. unfold bind, ret.
  repeat (destruct (pt_resume _ _) as [? [[]| |]]; [|done|done]). done.
Qed.

(** Ticks that a mask has suspended come back.  When the guest may have
    unmasked an interrupt, [pt_may_unmask_irq] leaves every timer of the
    platform, and that of the local APIC, with ticks pending on the list of its
    vcpu, with the ticks it had, so that the next entry into the guest considers
    it; the other timers are as they were. *)
Theorem suspended_timer_resumes clk n s i id pt v : vreach clk n s -> 0 <= i < n -> id ∈ unmask_timers i ->
  vs_pts s !! id = Some pt -> pt_vcpu pt = Some v -> ticking pt = true ->
  exists s' tm, pt_may_unmask_irq true (Some i) s = (s', Ok tt) /\ vs_pts s' !! id = Some (set_list_flag true pt) /\
    vs_vcpus s' !! Z.to_nat v = Some tm /\ id ∈ tm_list tm /\
    forall j, j ∉ unmask_timers i -> vs_pts s' !! j = vs_pts s !! j.
Proof.
  intros Hr Hi Hid Hpt Hv Htick. pose proof (vreach_ok clk n s Hr) as Hs. rewrite unmask_loop.
  assert (Forall (fun id => (id < 5 + Z.to_nat n)%nat) (unmask_timers i)) as Hl.
  { unfold unmask_timers, PIT_TIMER, RTC_TIMER, HPET_TIMERS, HPET_TIMER_NUM, LAPIC_TIMER. cbn [app seq].
    do 6 (constructor; [lia|]). constructor. }
  destruct (wp_inv _ _ _ (resume_all_pts n (unmask_timers i) s Hs Hl)) as (s' & [] & E & Hs' & Hpts).
  pose proof (po_vcpu _ _ _ (vo_pts _ _ Hs _ _ Hpt) v Hv) as Hr'.
  assert (vs_pts s' !! id = Some (set_list_flag true pt)) as Hpt'.
  { rewrite Hpts, bool_decide_eq_true_2, Hpt by done. cbn. unfold resumed. by rewrite Hv, Htick. }
  destruct (lookup_Z (vs_vcpus s') v) as [tm Htm]; [by rewrite (vo_vcpus _ _ Hs')|].
  exists s', tm. split_and!; try done.
  - apply (vo_lists _ _ Hs' _ _ Htm). eexists. split; [exact Hpt'|]. cbn. rewrite Hv, Z2Nat.id by lia. done.
  - intros j Hj. rewrite Hpts, bool_decide_eq_false_2 by done. by destruct (vs_pts s !! j).
Qed.

(** Stopping the guest's time alone is ignored: with [DESCHED_GTIME] at [stop]
    and [DESCHED_TIMER] at [cont], descheduling a vcpu records no time, so its
    offset is the same when it runs again. *)
Lemma gtime_stop_alone_does_not_freeze clk n s v tm : vpt_ok n s -> 0 <= v < n -> vs_vcpus s !! Z.to_nat v = Some tm ->
  gtime_stop (vs_params s) = true -> timer_stop (vs_params s) = false -> v_guest_time tm = 0 ->
  wp (pt_freeze_time clk v;; pt_thaw_time clk v) (fun _ s' => s' = s) s.
Proof.
  intros Hs Hv Htm Hg Ht H0. apply wp_bind. unfold pt_freeze_time. apply wp_bind, wp_gets. rewrite Ht. apply wp_ret.
  unfold pt_thaw_time. apply wp_bind, wp_gets. rewrite Hg. apply wp_bind, (the_tm_wp n); [done|done|]. intros tm' Htm'.
  assert (tm' = tm) as -> by congruence. by rewrite H0.
Qed.

(** ** Witnesses *)

(** A clock that stands at 0 while the timers are set, and is at 3.5 ms later;
    the RTC of a domain with two vcpus ticks every millisecond, and so does the
    local APIC of vcpu 0. *)
Definition late_clock (k : nat) : Z := if (k <? 4)%nat then 0 else 3500000.
Definition replaying : vpt_params := {| timer_mode := 0x10000; vpt_align := 0; vpt_coalesce_ns := 0 |}.
Definition vstep (op : vop) (s : vst) : vst := fst (run_vop late_clock op s).

Definition before_set : vst := new_vst two_vcpus replaying.
Definition rtc_set : vst := vstep (VCreate 0 RTC_TIMER 1000000 1000000 8 false) before_set.
Definition both_set : vst := vstep (VCreate 0 (LAPIC_TIMER 0) 1000000 1000000 0xd1 false) rtc_set.
Definition both_fired : vst := vstep (VFire (LAPIC_TIMER 0)) (vstep (VFire RTC_TIMER) both_set).
Definition rtc_suspended : vst := vstep (VEntry 0) both_fired.

Lemma vstep_reach n op s : vreach late_clock n s -> vop_ok n op s -> vreach late_clock n (vstep op s).
Proof.
  intros Hr Hop. pose proof (vop_wp late_clock n op s (vreach_ok late_clock n s Hr) Hop) as H.
  destruct (wp_inv _ _ _ H) as (s' & [] & E & _). unfold vstep. rewrite E. by eapply vreach_step.
Qed.

Lemma before_set_reach : vreach late_clock 2 before_set.
Proof. apply (vreach_new late_clock 2 two_vcpus replaying false two_vcpus_reach); done. Qed.
Lemma rtc_set_reach : vreach late_clock 2 rtc_set.
Proof. apply vstep_reach; [apply before_set_reach|]. cbn. unfold RTC_TIMER. lia. Qed.
Lemma both_set_reach : vreach late_clock 2 both_set.
Proof. apply vstep_reach; [apply rtc_set_reach|]. cbn. lia. Qed.

Lemma set_timer_of id s : match vs_pts s !! id with Some pt => match timer_set pt with Some _ => true | None => false end | None => false end = true ->
  exists pt, vs_pts s !! id = Some pt /\ is_Some (timer_set pt).
Proof. destruct (vs_pts s !! id) as [pt|] eqn:E; [|done]. destruct (timer_set pt) eqn:E2; [|done]. intros _. exists pt. rewrite E2. eauto. Qed.

Lemma both_fired_reach : vreach late_clock 2 both_fired.
Proof.
  apply vstep_reach; [apply vstep_reach; [apply both_set_reach|]|]; cbn [vop_ok]; apply set_timer_of; by vm_compute.
Qed.
Lemma rtc_suspended_reach : vreach late_clock 2 rtc_suspended.
Proof. apply vstep_reach; [apply both_fired_reach|]. cbn. lia. Qed.

Lemma timer_lists_consistent_witness : listed both_set /\
  exists s', run_vop late_clock (VFire RTC_TIMER) both_set = (s', Ok tt) /\ vreach late_clock 2 s'.
Proof.
  apply (timer_lists_consistent late_clock 2 both_set (VFire RTC_TIMER)); [apply both_set_reach|].
  cbn [vop_ok]. apply set_timer_of. by vm_compute.
Defined.

Lemma guest_time_increases_witness : exists s' l, read_times late_clock [0; 1; 0] before_set = (s', Ok l) /\
  length l = 3%nat /\ StronglySorted Z.lt l.
Proof.
  destruct (guest_time_increases late_clock 2 before_set 0 [0; 1; 0]) as (s' & l & E & L & S & _);
    [apply before_set_reach| | | |unfold zlen; cbn; lia|lia| |by exists s', l].
  - repeat constructor; lia.
  - intros k. change (pl_stime_offset before_set) with 0. unfold late_clock. destruct (k <? 4)%nat; lia.
  - split; [by vm_compute|]. by vm_compute.
  - change (vs_vcpus before_set) with [fresh_tm; fresh_tm]. by repeat constructor.
Defined.

Definition pt_of (id : nat) (s : vst) : periodic_time := default (fresh_pt id) (vs_pts s !! id).
Lemma pt_of_lookup id s : (id < length (vs_pts s))%nat -> vs_pts s !! id = Some (pt_of id s).
Proof. intros Hid. unfold pt_of. by destruct (lookup_lt_is_Some_2 _ _ Hid) as [pt ->]. Qed.

Lemma both_set_in_range : in_range (late_clock (vs_reads both_set)) (pt_of RTC_TIMER both_set).
Proof.
  replace (late_clock (vs_reads both_set)) with 3500000 by (by vm_compute). split.
  - lia.
  - replace (scheduled_t0 (pt_of RTC_TIMER both_set)) with 1000000 by (by vm_compute). lia.
  - replace (scheduled (pt_of RTC_TIMER both_set)) with 1000000 by (by vm_compute). lia.
  - replace (period (pt_of RTC_TIMER both_set)) with 1000000 by (by vm_compute). lia.
  - replace (schedule_period (pt_of RTC_TIMER both_set)) with 1000000 by (by vm_compute). lia.
  - replace (time_done (pt_of RTC_TIMER both_set)) with 0 by (by vm_compute). lia.
  - replace (pending_intr_nr (pt_of RTC_TIMER both_set)) with 0 by (by vm_compute). lia.
Qed.

(** Three ticks of the RTC have come due. *)
Lemma missed_ticks_accounted_witness : exists s' pt', pt_process_missed_ticks late_clock RTC_TIMER both_set = (s', Ok tt) /\
  vs_pts s' !! RTC_TIMER = Some pt' /\ pending_intr_nr pt' = 3 /\ time_done pt' = 3000000 /\ 3500000 < scheduled pt' <= 4500000.
Proof.
  destruct (missed_ticks_accounted late_clock 2 both_set RTC_TIMER (pt_of RTC_TIMER both_set) 0)
    as (s' & pt' & E & H1 & _ & H2 & H3 & H4 & _);
    [apply both_set_reach|by apply pt_of_lookup; vm_compute; lia|by vm_compute|apply both_set_in_range|by vm_compute|by vm_compute|].
  exists s', pt'. split; [exact E|]. split; [exact H1|]. rewrite H2, H3.
  replace (late_clock (vs_reads both_set)) with 3500000 in H4 by (by vm_compute).
  replace (schedule_period (pt_of RTC_TIMER both_set)) with 1000000 in H4 by (by vm_compute).
  split; [by vm_compute|]. split; [by vm_compute|]. lia.
Defined.

Definition ticked : vst := fst (pt_timer_fn late_clock RTC_TIMER both_set).
Definition delivered1 : vst := fst (tick_delivered late_clock RTC_TIMER 0 ticked).
Definition delivered2 : vst := fst (tick_delivered late_clock RTC_TIMER 0 delivered1).

Lemma run_fst {S} (m : SE S unit) s : snd (m s) = Ok tt -> m s = (fst (m s), Ok tt).
Proof. destruct (m s) as [s' r]. by intros [= ->]. Qed.

Lemma two_ticks : tick_trace late_clock RTC_TIMER 0 both_set 2 delivered2.
Proof.
  assert (tick_trace late_clock RTC_TIMER 0 both_set 0 ticked) as H0.
  { apply (trace_fire late_clock RTC_TIMER 0 both_set 0 both_set ticked (pt_of RTC_TIMER both_set) (trace_start _ _ _ both_set)).
    - by apply pt_of_lookup; vm_compute; lia.
    - by vm_compute; eexists.
    - apply (run_fst (pt_timer_fn late_clock RTC_TIMER) both_set). by vm_compute.
    - apply (bool_decide_unpack _). by vm_compute. }
  change 2 with (0 + 1 + 1).
  assert (tick_trace late_clock RTC_TIMER 0 both_set (0 + 1) delivered1) as H1.
  { apply (trace_deliver late_clock RTC_TIMER 0 both_set 0 ticked delivered1 (pt_of RTC_TIMER ticked) H0).
    - by apply pt_of_lookup; vm_compute; lia.
    - by vm_compute.
    - apply (run_fst (tick_delivered late_clock RTC_TIMER 0) ticked). by vm_compute.
    - apply (bool_decide_unpack _). by vm_compute. }
  apply (trace_deliver late_clock RTC_TIMER 0 both_set (0 + 1) delivered1 delivered2 (pt_of RTC_TIMER delivered1) H1).
  - by apply pt_of_lookup; vm_compute; lia.
  - by vm_compute.
  - apply (run_fst (tick_delivered late_clock RTC_TIMER 0) delivered1). by vm_compute.
  - apply (bool_decide_unpack _). by vm_compute.
Qed.

Lemma replayed_ticks_one_per_period_witness : exists pt, vs_pts delivered2 !! RTC_TIMER = Some pt /\
  last_plt_gtime pt = 2000001 /\ 2 + pending_intr_nr pt <= 3.
Proof.
  assert (last_plt_gtime (pt_of RTC_TIMER both_set) = 1) as Hl by (by vm_compute).
  assert (period (pt_of RTC_TIMER both_set) = 1000000) as Hp by (by vm_compute).
  assert (schedule_period (pt_of RTC_TIMER both_set) = 1000000) as Hsp by (by vm_compute).
  assert (scheduled_t0 (pt_of RTC_TIMER both_set) = 1000000) as H0 by (by vm_compute).
  assert (scheduled (pt_of RTC_TIMER both_set) = 1000000) as Hsc by (by vm_compute).
  destruct (replayed_ticks_one_per_period late_clock 3500000 RTC_TIMER 0 (pt_of RTC_TIMER both_set) both_set 2 delivered2)
    as (pt & E & H1 & _ & _ & H2);
    [|by vm_compute| |by vm_compute|by vm_compute|by vm_compute|lia|by vm_compute|by vm_compute|lia|apply two_ticks|].
  - split; rewrite ?Hp, ?Hsp, ?H0; try lia. intros j. unfold late_clock. destruct (j <? 4)%nat; lia.
  - by apply pt_of_lookup; vm_compute; lia.
  - exists pt. split; [exact E|]. rewrite H1, Hl, Hp. split; [by vm_compute|].
    replace (ticks_until (pt_of RTC_TIMER both_set) 3500000) with 3 in H2 by (by vm_compute). exact H2.
Defined.

(** The RTC is suspended, the local APIC interrupts. *)
Lemma earliest_timer_interrupts_witness : exists s', pt_update_irq 0 both_fired = (s', Ok tt) /\
  vs_pts s' !! RTC_TIMER = Some (set_list_flag false (pt_of RTC_TIMER both_fired)).
Proof.
  destruct (vs_vcpus both_fired !! Z.to_nat 0) as [tm|] eqn:Htm; [|exfalso; revert Htm; by vm_compute].
  destruct (earliest_timer_interrupts late_clock 2 both_fired 0 tm) as (s' & E & H & _); [apply both_fired_reach|lia|exact Htm|].
  exists s'. split; [exact E|]. apply H; [|by apply pt_of_lookup; vm_compute; lia|by vm_compute].
  assert (tm_list tm = [5; 1]%nat) as -> by (revert Htm; vm_compute; by intros [= <-]). right. left.
Defined.

Lemma suspended_timer_resumes_witness : exists s' tm, pt_may_unmask_irq true (Some 0) rtc_suspended = (s', Ok tt) /\
  vs_vcpus s' !! 0%nat = Some tm /\ RTC_TIMER ∈ tm_list tm.
Proof.
  destruct (suspended_timer_resumes late_clock 2 rtc_suspended 0 RTC_TIMER (pt_of RTC_TIMER rtc_suspended) 0)
    as (s' & tm & E & _ & H1 & H2 & _);
    [apply rtc_suspended_reach|lia|right; left|by apply pt_of_lookup; vm_compute; lia|by vm_compute|by vm_compute|].
  exists s', tm. split; [exact E|]. split; [exact H1|exact H2].
Defined.
