(* ===== verification/Calendar.v ===== *)
(** * The calendar

    [gmtime] of xen/common/time.c and [mktime] of xen/arch/x86/time.c: the date
    of a number of seconds since 1970, and back. *)

From stdpp Require Import base list numbers.
From Stdlib Require Import ZArith Lia Bool.
From S2P Require Import Prelude.

Open Scope Z_scope.

Record tm : Type := {
  tm_sec : Z;
  tm_min : Z;
  tm_hour : Z;
  tm_mday : Z;
  tm_mon : Z;
  tm_year : Z;
  tm_wday : Z;
  tm_yday : Z;
  tm_isdst : Z
}.

Definition isleap (year : Z) : bool :=
  (year mod 4 =? 0) && (negb (year mod 100 =? 0) || (year mod 400 =? 0)).

Definition mon_lengths (leap : bool) : list Z :=
  [31; if leap then 29 else 28; 31; 30; 31; 30; 31; 31; 30; 31; 30; 31].

Definition SECS_PER_HOUR : Z := 60 * 60.
Definition SECS_PER_DAY : Z := SECS_PER_HOUR * 24.
Definition SECS_PER_400_YEARS : Z := (365 * 303 + 366 * 97) * SECS_PER_DAY.

Definition year_length (y : Z) : Z := if isleap y then 366 else 365.

(** The loops of [gmtime]: times before 1970; whole years, forwards and
    backwards; months.  The fuel is more than the rounds they make. *)
Fixpoint before_1970 (fuel : nat) (y t : Z) : Z * Z :=
  match fuel with
  | O => (y, t)
  | S fuel => if Z.testbit t 39 then before_1970 fuel (y - 400) (u64 (t + SECS_PER_400_YEARS)) else (y, t)
  end.
Fixpoint years_on (fuel : nat) (y days : Z) : Z * Z :=
  match fuel with
  | O => (y, days)
  | S fuel => if year_length y <=? days then years_on fuel (y + 1) (days - year_length y) else (y, days)
  end.
Fixpoint years_back (fuel : nat) (y days : Z) : Z * Z :=
  match fuel with
  | O => (y, days)
  | S fuel => if days <? 0 then years_back fuel (y - 1) (days + year_length (y - 1)) else (y, days)
  end.
Fixpoint months_on (ip : list Z) (m days : Z) : Z * Z :=
  match ip with
  | [] => (m, days)
  | len :: ip => if len <=? days then months_on ip (m + 1) (days - len) else (m, days)
  end.

(** The date [t] seconds after the start of the year [y] *)
Definition date_from (y t : Z) : tm :=
  let days := t / SECS_PER_DAY in
  let rem := t mod SECS_PER_DAY in
  let '(y, days') := years_on (Z.to_nat (days / 365 + 1)) y days in
  let '(y, days') := years_back (Z.to_nat (- days')) y days' in
  let '(m, d) := months_on (mon_lengths (isleap y)) 0 days' in
  {| tm_sec := rem mod SECS_PER_HOUR mod 60; tm_min := rem mod SECS_PER_HOUR / 60; tm_hour := rem / SECS_PER_HOUR;
     tm_mday := d + 1; tm_mon := m; tm_year := y - 1900; tm_wday := (4 + days) mod 7; tm_yday := days'; tm_isdst := -1 |}.

Definition gmtime (t : Z) : tm :=
  let '(y, t) := before_1970 44 1970 t in date_from y (Z.land t (Z.ones 40)).

(** The days of the first part of [mktime], with the year and month moved so
    that February is the last month *)
Definition mktime_days (year mon day : Z) : Z :=
  let m := u32 (mon - 2) in
  let '(m, year) := if s32 m <=? 0 then (u32 (m + 12), u32 (year - 1)) else (m, year) in
  u64 (u32 (year / 4 - year / 100 + year / 400 + u32 (367 * m) / 12 + day) + u32 (year * 365) - 719499).

Definition mktime (year mon day hour min sec : Z) : Z :=
  u64 (((mktime_days year mon day * 24 + hour) * 60 + min) * 60 + sec).

(** The seconds of a date *)
Definition mktime_of (d : tm) : Z := mktime (tm_year d + 1900) (tm_mon d + 1) (tm_mday d) (tm_hour d) (tm_min d) (tm_sec d).

(** ** Years *)

(** The days from the start of 1970 to the start of the year [y] *)
Definition days_to (y : Z) : Z := 365 * (y - 1970) + (y - 1) / 4 - (y - 1) / 100 + (y - 1) / 400 - 477.

Lemma year_step y : days_to (y + 1) = days_to y + year_length y.
Proof.
  unfold days_to, year_length, isleap. replace (y + 1 - 1) with y by lia.
  destruct (Z.eqb_spec (y mod 4) 0), (Z.eqb_spec (y mod 100) 0), (Z.eqb_spec (y mod 400) 0); cbn [negb orb andb]; zlia.
Qed.
Lemma year_length_range y : 365 <= year_length y <= 366.
Proof. unfold year_length. case_match; lia. Qed.

Lemma years_on_spec fuel : forall y days, 0 <= days -> days / 365 < Z.of_nat fuel ->
  let '(y', d) := years_on fuel y days in days_to y' + d = days_to y + days /\ 0 <= d < year_length y' /\ y <= y' <= y + days / 365.
Proof.
  induction fuel as [|fuel IH]; intros y days Hd Hf; [pose proof (Z.div_pos days 365); lia|]. cbn [years_on].
  pose proof (year_length_range y) as Hl. destruct (Z.leb_spec (year_length y) days) as [Hle|Hgt].
  - assert (0 <= (days - year_length y) / 365 <= days / 365 - 1) as Hq by (split; zlia).
    specialize (IH (y + 1) (days - year_length y) ltac:(lia) ltac:(lia)). destruct (years_on fuel (y + 1) (days - year_length y)) as [y' d].
    destruct IH as (H1 & H2 & H3). rewrite year_step in H1. split; [lia|]. split; [done|lia].
  - split; [done|]. split; [lia|]. pose proof (Z.div_pos days 365). lia.
Qed.

(** ** Months *)

(** The days before the month [m] *)
Definition days_before (leap : bool) (m : Z) : Z := foldr Z.add 0 (take (Z.to_nat m) (mon_lengths leap)).

Ltac days_compute :=
  match goal with |- context [days_before ?b ?m] => let v := eval vm_compute in (days_before b m) in change (days_before b m) with v end.

Lemma months_on_spec (leap : bool) d : 0 <= d < (if leap then 366 else 365) ->
  let '(m, r) := months_on (mon_lengths leap) 0 d in
  0 <= m < 12 /\ days_before leap m + r = d /\ exists len : Z, mon_lengths leap !! Z.to_nat m = Some len /\ 0 <= r < len.
Proof.
  intros Hd. unfold mon_lengths. cbn [months_on]. destruct leap; cbv iota in Hd;
    repeat (match goal with |- context [if ?a <=? ?b then _ else _] => destruct (Z.leb_spec a b) end;
      [|split; [lia|]; split; [days_compute; lia|]; eexists; split; [reflexivity|lia]]); lia.
Qed.

(** The leap days before the end of the year [y] *)
Lemma leap_days y : y / 4 - y / 100 + y / 400 = (y - 1) / 4 - (y - 1) / 100 + (y - 1) / 400 + Z.b2z (isleap y).
Proof.
  unfold isleap. destruct (Z.eqb_spec (y mod 4) 0), (Z.eqb_spec (y mod 100) 0), (Z.eqb_spec (y mod 400) 0); cbn [negb orb andb Z.b2z]; zlia.
Qed.
Lemma leap_days_range y : 1969 <= y -> 477 <= y / 4 - y / 100 + y / 400 <= y.
Proof.
  intros Hy. split; [|zlia]. replace y with (1969 + Z.of_nat (Z.to_nat (y - 1969))) by lia. induction (Z.to_nat (y - 1969)) as [|k IH]; [done|].
  rewrite leap_days. replace (1969 + Z.of_nat (S k) - 1) with (1969 + Z.of_nat k) by lia. destruct (isleap (1969 + Z.of_nat (S k))); cbn [Z.b2z]; lia.
Qed.

Lemma u32_of x : 0 <= x < 2 ^ 32 -> u32 x = x.
Proof. apply Z.mod_small. Qed.
Lemma u64_of x : 0 <= x < 2 ^ 64 -> u64 x = x.
Proof. apply Z.mod_small. Qed.

(** January and February belong to the year before. *)
Lemma mktime_early y m d : 1970 <= y < 2 ^ 20 -> m = 0 \/ m = 1 -> 0 <= d < 31 ->
  mktime_days y (m + 1) (d + 1) = days_to y + days_before (isleap y) m + d.
Proof.
  intros Hy Hm Hd. unfold mktime_days, days_to. cbv zeta.
  assert (days_before (isleap y) m = 31 * m) as -> by (destruct Hm as [->| ->]; by destruct (isleap y)).
  assert ((s32 (u32 (m + 1 - 2)) <=? 0) = true) as -> by (destruct Hm as [->| ->]; reflexivity).
  assert (u32 (367 * u32 (u32 (m + 1 - 2) + 12)) / 12 = 336 + 31 * m) as -> by (destruct Hm as [->| ->]; vm_compute; reflexivity).
  pose proof (leap_days_range (y - 1) ltac:(lia)) as Hl. rewrite (u32_of (y - 1)) by lia. set (q := (y - 1) / 4 - (y - 1) / 100 + (y - 1) / 400) in *.
  rewrite !u32_of by lia. rewrite u64_of by lia. lia.
Qed.
Lemma mktime_late y m d : 1970 <= y < 2 ^ 20 -> 2 <= m < 12 -> 0 <= d < 31 ->
  mktime_days y (m + 1) (d + 1) = days_to y + days_before (isleap y) m + d.
Proof.
  intros Hy Hm Hd. unfold mktime_days, days_to. cbv zeta.
  assert (exists k : Z, 0 <= k <= 400 /\ u32 (367 * u32 (m + 1 - 2)) / 12 = k /\ days_before (isleap y) m = k + 29 + Z.b2z (isleap y) /\
    (s32 (u32 (m + 1 - 2)) <=? 0) = false) as (k & Hk & E1 & E2 & E3).
  { assert (m = 2 \/ m = 3 \/ m = 4 \/ m = 5 \/ m = 6 \/ m = 7 \/ m = 8 \/ m = 9 \/ m = 10 \/ m = 11) as Hms by lia.
    exists (u32 (367 * u32 (m + 1 - 2)) / 12). repeat (destruct Hms as [->|Hms]); try subst m;
      (split; [vm_compute; split; discriminate|]; split; [done|]; split; [by destruct (isleap y)|done]). }
  rewrite E3, E1, E2. pose proof (leap_days_range y ltac:(lia)) as Hl. rewrite leap_days in *.
  set (q := (y - 1) / 4 - (y - 1) / 100 + (y - 1) / 400) in *. rewrite !u32_of by lia. rewrite u64_of by lia. lia.
Qed.

(** ** Dates *)

(** The seconds from 1970 to a date of the Gregorian calendar, and its day of the year *)
Definition date_yday (d : tm) : Z := days_before (isleap (tm_year d + 1900)) (tm_mon d) + tm_mday d - 1.
Definition date_seconds (d : tm) : Z :=
  (((days_to (tm_year d + 1900) + date_yday d) * 24 + tm_hour d) * 60 + tm_min d) * 60 + tm_sec d.

Record valid_date (d : tm) : Prop := {
  vd_mon : 0 <= tm_mon d < 12;
  vd_mday : exists len : Z, mon_lengths (isleap (tm_year d + 1900)) !! Z.to_nat (tm_mon d) = Some len /\ 1 <= tm_mday d <= len;
  vd_yday : tm_yday d = date_yday d /\ 0 <= tm_yday d < year_length (tm_year d + 1900);
  vd_hour : 0 <= tm_hour d < 24;
  vd_min : 0 <= tm_min d < 60;
  vd_sec : 0 <= tm_sec d < 60;
  vd_wday : tm_wday d = (4 + date_seconds d / SECS_PER_DAY) mod 7
}.

(** The years since 400 times [k] years before 1970 *)
Lemma days_to_400 k : days_to (1970 - 400 * k) = - 146097 * k.
Proof. unfold days_to. zlia. Qed.

Lemma date_from_spec k t : 0 <= t < 2 ^ 39 -> let d := date_from (1970 - 400 * k) t in
  valid_date d /\ date_seconds d = t - k * SECS_PER_400_YEARS.
Proof.
  intros Ht. unfold date_from. set (days := t / SECS_PER_DAY).
  assert (0 <= days < 6362915) as Hd by (unfold days, SECS_PER_DAY, SECS_PER_HOUR; zlia). assert (0 <= days / 365 < 17433) as Hq by zlia.
  pose proof (years_on_spec (Z.to_nat (days / 365 + 1)) (1970 - 400 * k) days ltac:(lia) ltac:(lia)) as Hy.
  destruct (years_on _ (1970 - 400 * k) days) as [y d]. destruct Hy as (Y1 & Y2 & Y3). replace (Z.to_nat (- d)) with 0%nat by lia. cbn [years_back].
  pose proof (months_on_spec (isleap y) d Y2) as Hm. destruct (months_on _ 0 d) as [m r]. destruct Hm as (M1 & M2 & len & M3 & M4).
  set (rem := t mod SECS_PER_DAY). assert (0 <= rem < 86400) as Hrem by (apply Z.mod_pos_bound; lia). unfold SECS_PER_HOUR. rewrite days_to_400 in Y1.
  assert (t = days * 86400 + rem) as Et by (unfold days, rem; pose proof (Z.div_mod t SECS_PER_DAY); unfold SECS_PER_DAY, SECS_PER_HOUR in *; lia).
  cbv zeta. match goal with |- valid_date ?e /\ _ => assert (date_seconds e = t - k * SECS_PER_400_YEARS) as Es end.
  { unfold date_seconds, date_yday. cbn [tm_year tm_mon tm_mday tm_hour tm_min tm_sec]. replace (y - 1900 + 1900) with y by lia.
    unfold SECS_PER_400_YEARS, SECS_PER_DAY, SECS_PER_HOUR. zlia. }
  split; [|exact Es]. split; rewrite ?Es; unfold date_yday; cbn [tm_year tm_mon tm_mday tm_hour tm_min tm_sec tm_wday tm_yday];
    replace (y - 1900 + 1900) with y by lia; try zlia.
  - exists len. split; [done|lia].
  - unfold SECS_PER_400_YEARS, SECS_PER_DAY, SECS_PER_HOUR in *. clear - Et Hrem. zlia.
Qed.

(** ** Times before 1970 *)

Lemma bit_39 z : - 2 ^ 39 <= z < 2 ^ 39 -> Z.testbit (u64 z) 39 = (z <? 0).
Proof.
  intros Hz. unfold u64. rewrite Z.testbit_mod_pow2 by lia. cbn [Z.ltb Z.compare Pos.compare Pos.compare_cont andb].
  destruct (Z.ltb_spec z 0) as [Hn|Hn].
  - apply Z.testbit_true; [lia|]. zlia.
  - apply Z.testbit_false; [lia|]. zlia.
Qed.

(** The loop moves the time by periods of 400 years into the years from 1970 on;
    its fuel is enough for every time that it is meant for. *)
Lemma before_1970_spec fuel : forall y z, - 2 ^ 39 <= z < 2 ^ 39 -> - Z.of_nat fuel * SECS_PER_400_YEARS <= z ->
  exists k, 0 <= k /\ before_1970 fuel y (u64 z) = (y - 400 * k, z + k * SECS_PER_400_YEARS) /\ 0 <= z + k * SECS_PER_400_YEARS < 2 ^ 39.
Proof.
  induction fuel as [|fuel IH]; intros y z Hz Hf; cbn [before_1970].
  - exists 0. split; [lia|]. rewrite u64_of by lia. split; [f_equal; lia|lia].
  - rewrite bit_39 by done. destruct (Z.ltb_spec z 0) as [Hn|Hn].
    + assert (u64 (u64 z + SECS_PER_400_YEARS) = u64 (z + SECS_PER_400_YEARS)) as ->.
      { unfold u64. by rewrite Zplus_mod_idemp_l. }
      assert (0 < SECS_PER_400_YEARS < 2 ^ 39) as HS by (unfold SECS_PER_400_YEARS, SECS_PER_DAY, SECS_PER_HOUR; lia).
      destruct (IH (y - 400) (z + SECS_PER_400_YEARS)) as (k & Hk & E & Hr); [lia|lia|]. exists (k + 1). rewrite E. split; [lia|]. split; [f_equal; lia|lia].
    + exists 0. rewrite u64_of by lia. split; [lia|]. split; [f_equal; lia|lia].
Qed.

Lemma gmtime_spec t : - 2 ^ 39 <= t < 2 ^ 39 -> valid_date (gmtime (u64 t)) /\ date_seconds (gmtime (u64 t)) = t.
Proof.
  intros Ht. unfold gmtime. destruct (before_1970_spec 44 1970 t Ht) as (k & Hk & -> & Hr).
  { unfold SECS_PER_400_YEARS, SECS_PER_DAY, SECS_PER_HOUR. lia. }
  rewrite Z.land_ones, Z.mod_small by lia. destruct (date_from_spec k _ Hr) as [H1 H2]. split; [done|]. rewrite H2. lia.
Qed.

(** ** Back to seconds *)

Lemma month_lengths_small (b : bool) i (len : Z) : mon_lengths b !! i = Some len -> len <= 31.
Proof. intros H. apply list_elem_of_lookup_2 in H. assert (Forall (fun x => x <= 31) (mon_lengths b)) as Hf by (destruct b; repeat constructor; lia).
  rewrite list.Forall_forall in Hf. by apply Hf. Qed.

(** The year of a date between the starts of two years *)
Lemma year_between d a b : valid_date d -> days_to a * 86400 <= date_seconds d < days_to b * 86400 -> a <= tm_year d + 1900 < b.
Proof.
  intros [_ _ [E Hy] Hh Hm Hs _] Hr. unfold date_seconds in Hr. rewrite <- E in Hr. set (y := tm_year d + 1900) in *. clearbody y.
  pose proof (year_step y) as Hst.
  assert (days_to a < days_to (y + 1) /\ days_to y < days_to b) as [H1 H2] by lia. clear - H1 H2. unfold days_to in *. zlia.
Qed.

Lemma mktime_date d : valid_date d -> 1970 <= tm_year d + 1900 < 2 ^ 20 -> mktime_of d = date_seconds d.
Proof.
  intros [Hmon (len & Hl & Hmd) [Ey Hy] Hh Hm Hs _] Hyr. pose proof (month_lengths_small _ _ _ Hl) as Hlen. unfold mktime_of, mktime, date_seconds.
  assert (mktime_days (tm_year d + 1900) (tm_mon d + 1) (tm_mday d) = days_to (tm_year d + 1900) + date_yday d) as ->.
  { unfold date_yday. rewrite <- (Z.sub_add 1 (tm_mday d)) at 1.
    destruct (Z.lt_ge_cases (tm_mon d) 2) as [Hm2|Hm2]; [rewrite mktime_early by lia|rewrite mktime_late by lia]; lia. }
  rewrite <- Ey. pose proof (leap_days_range (tm_year d + 1899) ltac:(lia)) as Hld. rewrite u64_of; [done|].
  assert (0 <= days_to (tm_year d + 1900) < 2 ^ 30) as Hdt by (unfold days_to; replace (tm_year d + 1900 - 1) with (tm_year d + 1899) by lia; lia).
  pose proof (year_length_range (tm_year d + 1900)). lia.
Qed.
