(* ===== verification/TimerDev.v ===== *)
(** * The timer devices: their state, and the PIT

    xen/arch/x86/hvm/i8254.c: the counters of the PIT, on the platform timers and
    the interrupt hardware of the domain.  [pldom] has the state of the timer
    devices; the operations of the PM timer and of the HPET are in [PmTimer] and
    [Hpet]. *)

From stdpp Require Import base list numbers.
From Stdlib Require Import ZArith Lia.
From S2P Require Import Prelude Vpic HvmState Vlapic Vioapic HvmIrq VlapicRegs Vpt Calendar.

Open Scope Z_scope.
Open Scope se_scope.

(** ** Data *)

Definition SYSTEM_TIME_HZ : Z := 1000000000.
Definition PIT_FREQ : Z := 1193182.

Record hvm_hw_pit_channel : Type := {
  ch_count : Z;
  latched_count : Z;
  count_latched : Z;
  status_latched : bool;
  ch_status : Z;
  read_state : Z;
  write_state : Z;
  write_latch : Z;
  rw_mode : Z;
  ch_mode : Z;
  ch_bcd : Z;
  ch_gate : Z
}.

Record PITState : Type := {
  channels : list hvm_hw_pit_channel;
  speaker_data_on : Z;
  count_load_time : list Z
}.

Record PMTState : Type := {
  tmr_val : Z;
  pm1a_sts : Z;
  pm1a_en : Z;
  pmt_vcpu : option Z;
  last_gtime : Z;
  not_accounted : Z;
  pmt_scale : Z;
  pmt_timer : option Z          (** the deadline of [timer], while it is set *)
}.

Record hpet_timer : Type := { tn_config : Z; tn_cmp : Z; tn_fsb : Z }.

Record hpet_registers : Type := {
  capability : Z;
  hp_config : Z;
  hp_isr : Z;
  mc64 : Z;
  hp_timers : list hpet_timer;
  hp_period : list Z;
  comparator64 : list Z
}.

Record HPETState : Type := {
  hpet : hpet_registers;
  stime_freq : Z;
  hpet_to_ns_scale : Z;
  hpet_to_ns_limit : Z;
  mc_offset : Z
}.

Record RTCState : Type := {
  cmos_data : list Z;
  cmos_index : Z;
  current_tm : tm;
  update_timer : option Z;      (** the deadline of a host timer, while it is set *)
  update_timer2 : option Z;
  next_update_time : Z;
  alarm_timer : option Z;
  start_time : Z;
  check_ticks_since : Z;
  rtc_period : Z;
  pt_dead_ticks : Z;
  use_timer : Z
}.

(** The wall clock: that of the hypervisor, the offset of the domain, and what
    the page shared with the guest has of it *)
Record wallclock : Type := {
  wc_sec : Z;
  wc_nsec : Z;
  time_offset_seconds : Z;
  shared_wc_version : Z;
  shared_wc_sec : Z;
  shared_wc_nsec : Z;
  shared_wc_time_offset : Z
}.

Record pldom : Type := {
  pl_v : vst;
  pl_pit : PITState;
  pl_pmt : PMTState;
  pl_hpet : HPETState;
  pl_rtc : RTCState;
  pl_wall : wallclock;
  pl_crashed : bool             (** [domain_crash] has been called *)
}.

Definition set_pl_v (v : vst) (s : pldom) : pldom :=
  {| pl_v := v; pl_pit := pl_pit s; pl_pmt := pl_pmt s; pl_hpet := pl_hpet s; pl_rtc := pl_rtc s; pl_wall := pl_wall s; pl_crashed := pl_crashed s |}.
Definition set_pl_pit (p : PITState) (s : pldom) : pldom :=
  {| pl_v := pl_v s; pl_pit := p; pl_pmt := pl_pmt s; pl_hpet := pl_hpet s; pl_rtc := pl_rtc s; pl_wall := pl_wall s; pl_crashed := pl_crashed s |}.
Definition set_pl_pmt (p : PMTState) (s : pldom) : pldom :=
  {| pl_v := pl_v s; pl_pit := pl_pit s; pl_pmt := p; pl_hpet := pl_hpet s; pl_rtc := pl_rtc s; pl_wall := pl_wall s; pl_crashed := pl_crashed s |}.
Definition set_pl_hpet (h : HPETState) (s : pldom) : pldom :=
  {| pl_v := pl_v s; pl_pit := pl_pit s; pl_pmt := pl_pmt s; pl_hpet := h; pl_rtc := pl_rtc s; pl_wall := pl_wall s; pl_crashed := pl_crashed s |}.
Definition set_pl_rtc (r : RTCState) (s : pldom) : pldom :=
  {| pl_v := pl_v s; pl_pit := pl_pit s; pl_pmt := pl_pmt s; pl_hpet := pl_hpet s; pl_rtc := r; pl_wall := pl_wall s; pl_crashed := pl_crashed s |}.
Definition set_pl_wall (w : wallclock) (s : pldom) : pldom :=
  {| pl_v := pl_v s; pl_pit := pl_pit s; pl_pmt := pl_pmt s; pl_hpet := pl_hpet s; pl_rtc := pl_rtc s; pl_wall := w; pl_crashed := pl_crashed s |}.
Definition domain_crash : SE pldom unit := modify (fun s =>
  {| pl_v := pl_v s; pl_pit := pl_pit s; pl_pmt := pl_pmt s; pl_hpet := pl_hpet s; pl_rtc := pl_rtc s; pl_wall := pl_wall s; pl_crashed := true |}).

Definition vt {A} (m : SE vst A) : SE pldom A := zoom pl_v set_pl_v m.

(** [pt_global_vcpu_target]; [None] is the null pointer. *)
Definition pt_global_vcpu_target (h : hdom) : option Z :=
  match i8259_target (h_pics h) with
  | Some t => Some t
  | None => if (h_max_vcpus h =? 0) || (zlen (h_vcpus h) =? 0) then None else Some 0
  end.

(** The target, where the code dereferences it *)
Definition the_target : SE pldom Z :=
  s <- get;; match pt_global_vcpu_target (vs_hw (pl_v s)) with Some v => ret v | None => bug end.

Section Env.
Context (clk : nat -> Z).

(** [get_guest_time] of a vcpu of an HVM domain *)
Definition get_guest_time (v : Z) : SE pldom Z := vt (hvm_get_guest_time clk v).

(** ** The PIT *)

Definition RW_STATE_LSB : Z := 1.
Definition RW_STATE_MSB : Z := 2.
Definition RW_STATE_WORD0 : Z := 3.
Definition RW_STATE_WORD1 : Z := 4.

(** [muldiv64]: [mul] and [div] of 64 bits, which traps when the quotient does
    not fit *)
Definition muldiv64 (a b c : Z) : SE pldom Z :=
  bug_if ((c =? 0) || (2 ^ 64 <=? a * b / c));; ret (a * b / c).

Definition the_channel (i : Z) : SE pldom hvm_hw_pit_channel :=
  s <- get;;
  match channels (pl_pit s) !! Z.to_nat i with
  | Some c => bug_if (i <? 0);; ret c
  | None => bug
  end.
Definition the_load_time (i : Z) : SE pldom Z :=
  s <- get;;
  match count_load_time (pl_pit s) !! Z.to_nat i with
  | Some t => bug_if (i <? 0);; ret t
  | None => bug
  end.
Definition on_pit (f : PITState -> PITState) : SE pldom unit := modify (fun s => set_pl_pit (f (pl_pit s)) s).
Definition upd_channel (i : Z) (f : hvm_hw_pit_channel -> hvm_hw_pit_channel) : SE pldom unit :=
  on_pit (fun p => {| channels := alter f (Z.to_nat i) (channels p); speaker_data_on := speaker_data_on p;
                      count_load_time := count_load_time p |}).
Definition set_load_time (i t : Z) : SE pldom unit :=
  on_pit (fun p => {| channels := channels p; speaker_data_on := speaker_data_on p;
                      count_load_time := <[Z.to_nat i := t]> (count_load_time p) |}).
Definition set_speaker (x : Z) : SE pldom unit :=
  on_pit (fun p => {| channels := channels p; speaker_data_on := x; count_load_time := count_load_time p |}).

Definition ch_set_count (n : Z) (c : hvm_hw_pit_channel) : hvm_hw_pit_channel :=
  {| ch_count := n; latched_count := latched_count c; count_latched := count_latched c;
     status_latched := status_latched c; ch_status := ch_status c; read_state := read_state c;
     write_state := write_state c; write_latch := write_latch c; rw_mode := rw_mode c;
     ch_mode := ch_mode c; ch_bcd := ch_bcd c; ch_gate := ch_gate c |}.
(** [latched_count] and [count_latched] *)
Definition ch_set_latch (n l : Z) (c : hvm_hw_pit_channel) : hvm_hw_pit_channel :=
  {| ch_count := ch_count c; latched_count := n; count_latched := l;
     status_latched := status_latched c; ch_status := ch_status c; read_state := read_state c;
     write_state := write_state c; write_latch := write_latch c; rw_mode := rw_mode c;
     ch_mode := ch_mode c; ch_bcd := ch_bcd c; ch_gate := ch_gate c |}.
Definition ch_set_status (b : bool) (x : Z) (c : hvm_hw_pit_channel) : hvm_hw_pit_channel :=
  {| ch_count := ch_count c; latched_count := latched_count c; count_latched := count_latched c;
     status_latched := b; ch_status := x; read_state := read_state c;
     write_state := write_state c; write_latch := write_latch c; rw_mode := rw_mode c;
     ch_mode := ch_mode c; ch_bcd := ch_bcd c; ch_gate := ch_gate c |}.
Definition ch_set_read (x : Z) (c : hvm_hw_pit_channel) : hvm_hw_pit_channel :=
  {| ch_count := ch_count c; latched_count := latched_count c; count_latched := count_latched c;
     status_latched := status_latched c; ch_status := ch_status c; read_state := x;
     write_state := write_state c; write_latch := write_latch c; rw_mode := rw_mode c;
     ch_mode := ch_mode c; ch_bcd := ch_bcd c; ch_gate := ch_gate c |}.
(** [write_state] and [write_latch] *)
Definition ch_set_write (x l : Z) (c : hvm_hw_pit_channel) : hvm_hw_pit_channel :=
  {| ch_count := ch_count c; latched_count := latched_count c; count_latched := count_latched c;
     status_latched := status_latched c; ch_status := ch_status c; read_state := read_state c;
     write_state := x; write_latch := l; rw_mode := rw_mode c;
     ch_mode := ch_mode c; ch_bcd := ch_bcd c; ch_gate := ch_gate c |}.
(** what a control word selects *)
Definition ch_select (access mode bcd : Z) (c : hvm_hw_pit_channel) : hvm_hw_pit_channel :=
  {| ch_count := ch_count c; latched_count := latched_count c; count_latched := count_latched c;
     status_latched := status_latched c; ch_status := ch_status c; read_state := access;
     write_state := access; write_latch := write_latch c; rw_mode := access;
     ch_mode := mode; ch_bcd := bcd; ch_gate := ch_gate c |}.
(** [mode] and [gate] *)
Definition ch_set_gate (mode gate : Z) (c : hvm_hw_pit_channel) : hvm_hw_pit_channel :=
  {| ch_count := ch_count c; latched_count := latched_count c; count_latched := count_latched c;
     status_latched := status_latched c; ch_status := ch_status c; read_state := read_state c;
     write_state := write_state c; write_latch := write_latch c; rw_mode := rw_mode c;
     ch_mode := mode; ch_bcd := ch_bcd c; ch_gate := gate |}.

(** The ticks of the PIT since the counter was loaded *)
Definition pit_elapsed (channel : Z) : SE pldom Z :=
  v <- the_target;;
  t <- get_guest_time v;;
  t0 <- the_load_time channel;;
  muldiv64 (u64 (t - t0)) PIT_FREQ SYSTEM_TIME_HZ.

(** The modes that count down once *)
Definition counts_once (mode : Z) : bool := (mode =? 0) || (mode =? 1) || (mode =? 4) || (mode =? 5).

(** The value of a counter [d] ticks after it was loaded *)
Definition pit_counter (mode count d : Z) : Z :=
  if counts_once mode then Z.land (u64 (count - d)) 0xffff
  else if mode =? 3 then s32 (u64 (count - u64 (2 * d) mod count))
  else s32 (u64 (count - d mod count)).

Definition pit_get_count (channel : Z) : SE pldom Z :=
  c <- the_channel channel;;
  d <- pit_elapsed channel;;
  bug_if (negb (counts_once (ch_mode c)) && (ch_count c =? 0));;
  ret (pit_counter (ch_mode c) (ch_count c) d).

Definition pit_out (mode count d : Z) : bool :=
  if mode =? 1 then d <? count
  else if mode =? 2 then (d mod count =? 0) && negb (d =? 0)
  else if mode =? 3 then d mod count <? Z.shiftr (u32 (count + 1)) 1
  else if (mode =? 4) || (mode =? 5) then d =? count
  else count <=? d.

Definition pit_get_out (channel : Z) : SE pldom bool :=
  c <- the_channel channel;;
  d <- pit_elapsed channel;;
  bug_if (((ch_mode c =? 2) || (ch_mode c =? 3)) && (ch_count c =? 0));;
  ret (pit_out (ch_mode c) (ch_count c) d).

Definition pit_set_gate (channel val : Z) : SE pldom unit :=
  c <- the_channel channel;;
  when (((ch_mode c =? 1) || (ch_mode c =? 5) || (ch_mode c =? 2) || (ch_mode c =? 3)) && (ch_gate c <? val))
    (v <- the_target;; t <- get_guest_time v;; set_load_time channel (s64 t));;
  upd_channel channel (fun c => ch_set_gate (ch_mode c) val c).

Definition pit_get_gate (channel : Z) : SE pldom Z := c <- the_channel channel;; ret (ch_gate c).

(** The callback of the timer of channel 0 *)
Definition pit_time_fired (v : Z) : SE pldom unit := t <- get_guest_time v;; set_load_time 0 (s64 t).

Definition pit_period (val : Z) : Z := u32 (u64 (val * SYSTEM_TIME_HZ + PIT_FREQ / 2) / PIT_FREQ).

(** The timer behind channel 0, at the end of [pit_load_count] *)
Definition load_timer (channel val v : Z) : SE pldom unit :=
  let period := pit_period val in
  if negb (channel =? 0) then ret tt
  else
    c <- the_channel channel;;
    if (ch_mode c =? 2) || (ch_mode c =? 3)
    then vt (create_periodic_time clk v PIT_TIMER period period 0 true)
    else if (ch_mode c =? 1) || (ch_mode c =? 4)
    then vt (create_periodic_time clk v PIT_TIMER period 0 0 true)
    else vt (destroy_periodic_time PIT_TIMER).

Definition pit_load_count (channel val : Z) : SE pldom unit :=
  let val := if val =? 0 then 0x10000 else val in
  _ <- the_channel channel;;
  _ <- the_load_time channel;;
  s <- get;;
  match pt_global_vcpu_target (vs_hw (pl_v s)) with
  | None => set_load_time channel 0;; upd_channel channel (ch_set_count val)
  | Some v =>
      t <- get_guest_time v;;
      set_load_time channel (s64 t);;
      upd_channel channel (ch_set_count val);;
      load_timer channel val v
  end.

Definition pit_latch_count (channel : Z) : SE pldom unit :=
  c <- the_channel channel;;
  when (count_latched c =? 0)
    (n <- pit_get_count channel;; upd_channel channel (fun c => ch_set_latch (u16 n) (rw_mode c) c)).

Definition pit_latch_status (channel : Z) : SE pldom unit :=
  c <- the_channel channel;;
  when (negb (status_latched c))
    (out <- pit_get_out channel;;
     upd_channel channel (fun c => ch_set_status true
       (u8 (Z.lor (Z.lor (Z.shiftl (Z.b2z out) 7) (Z.shiftl (rw_mode c) 4))
                  (Z.lor (Z.shiftl (ch_mode c) 1) (ch_bcd c)))) c)).

(** The read-back command for the channels from [k] on, [n] of them *)
Fixpoint read_back (n : nat) (channel val : Z) : SE pldom unit :=
  match n with
  | O => ret tt
  | S n =>
      when (negb (Z.land val (Z.shiftl 2 channel) =? 0))
        (when (Z.land val 0x20 =? 0) (pit_latch_count channel);;
         when (Z.land val 0x10 =? 0) (pit_latch_status channel));;
      read_back n (channel + 1) val
  end.

Definition pit_ioport_write (addr val : Z) : SE pldom unit :=
  let val := Z.land val 0xff in
  let addr := Z.land addr 3 in
  if addr =? 3 then
    let channel := Z.shiftr val 6 in
    if channel =? 3 then read_back 3 0 val
    else
      let access := Z.land (Z.shiftr val 4) 3 in
      if access =? 0 then pit_latch_count channel
      else
        let mode := Z.land (Z.shiftr val 1) 7 in
        _ <- the_channel channel;;
        upd_channel channel (ch_select access (if 5 <? mode then mode - 4 else mode) (Z.land val 1))
  else
    c <- the_channel addr;;
    if write_state c =? RW_STATE_MSB then pit_load_count addr (Z.shiftl val 8)
    else if write_state c =? RW_STATE_WORD0 then upd_channel addr (ch_set_write RW_STATE_WORD1 val)
    else if write_state c =? RW_STATE_WORD1 then
      pit_load_count addr (Z.lor (write_latch c) (Z.shiftl val 8));;
      upd_channel addr (fun c => ch_set_write RW_STATE_WORD0 (write_latch c) c)
    else pit_load_count addr val.

Definition pit_ioport_read (addr : Z) : SE pldom Z :=
  let addr := Z.land addr 3 in
  c <- the_channel addr;;
  if status_latched c then
    upd_channel addr (ch_set_status false (ch_status c));; ret (ch_status c)
  else if negb (count_latched c =? 0) then
    if count_latched c =? RW_STATE_MSB then
      upd_channel addr (ch_set_latch (latched_count c) 0);; ret (Z.shiftr (latched_count c) 8)
    else if count_latched c =? RW_STATE_WORD0 then
      upd_channel addr (ch_set_latch (latched_count c) RW_STATE_MSB);; ret (Z.land (latched_count c) 0xff)
    else upd_channel addr (ch_set_latch (latched_count c) 0);; ret (Z.land (latched_count c) 0xff)
  else
    n <- pit_get_count addr;;
    if read_state c =? RW_STATE_MSB then ret (Z.land (Z.shiftr n 8) 0xff)
    else if read_state c =? RW_STATE_WORD0 then
      upd_channel addr (ch_set_read RW_STATE_WORD1);; ret (Z.land n 0xff)
    else if read_state c =? RW_STATE_WORD1 then
      upd_channel addr (ch_set_read RW_STATE_WORD0);; ret (Z.land (Z.shiftr n 8) 0xff)
    else ret (Z.land n 0xff).

Definition pit_stop_channel0_irq : SE pldom unit := vt (destroy_periodic_time PIT_TIMER).

(** The loop of [pit_reset] over the channels from [i] on, [n] of them *)
Fixpoint reset_channels (n : nat) (i : Z) : SE pldom unit :=
  match n with
  | O => ret tt
  | S n =>
      upd_channel i (ch_set_gate 0xff (if i =? 2 then 0 else 1));;
      pit_load_count i 0;;
      reset_channels n (i + 1)
  end.

Definition pit_reset : SE pldom unit :=
  vt (destroy_periodic_time PIT_TIMER);;
  vt (upd_pt PIT_TIMER (fun pt =>
    {| on_list := on_list pt; one_shot := one_shot pt; irq_issued := irq_issued pt;
       warned_timeout_too_short := warned_timeout_too_short pt; collapse_ticks := collapse_ticks pt;
       pt_source := PTSRC_isa; pt_irqno := pt_irqno pt; pt_vcpu := pt_vcpu pt;
       pending_intr_nr := pending_intr_nr pt; time_done := time_done pt; period := period pt;
       schedule_period := schedule_period pt; scheduled := scheduled pt;
       scheduled_t0 := scheduled_t0 pt; last_plt_gtime := last_plt_gtime pt;
       timer_set := timer_set pt; has_cb := has_cb pt |}));;
  reset_channels 3 0.

Definition pit_deinit : SE pldom unit := vt (destroy_periodic_time PIT_TIMER).

(** [handle_pit_io]; the value read, if any *)
Definition handle_pit_io (write : bool) (port bytes val : Z) : SE pldom (option Z) :=
  if negb (bytes =? 1) then ret None
  else if write then pit_ioport_write port val;; ret None
  else if negb (Z.land port 3 =? 3) then r <- pit_ioport_read port;; ret (Some r)
  else ret None.

Definition speaker_ioport_write (val : Z) : SE pldom unit :=
  set_speaker (Z.land (Z.shiftr val 1) 1);; pit_set_gate 2 (Z.land val 1).

Definition speaker_ioport_read : SE pldom Z :=
  now <- vt (NOW clk);;
  let refresh_clock := Z.land (Z.shiftr (u32 now) 14) 1 in
  s <- get;;
  gate <- pit_get_gate 2;;
  out <- pit_get_out 2;;
  ret (Z.lor (Z.lor (Z.shiftl (speaker_data_on (pl_pit s)) 1) gate)
             (Z.lor (Z.shiftl (Z.b2z out) 5) (Z.shiftl refresh_clock 4))).

Definition handle_speaker_io (write : bool) (bytes val : Z) : SE pldom (option Z) :=
  bug_if (negb (bytes =? 1));;
  if write then speaker_ioport_write val;; ret None
  else r <- speaker_ioport_read;; ret (Some r).
End Env.
