(* ===== verification/PmTimer.v ===== *)
(** * The PM timer

    xen/arch/x86/hvm/pmtimer.c: the ACPI power management timer and the event
    registers that raise the SCI. *)

From stdpp Require Import base list numbers.
From Stdlib Require Import ZArith Lia.
From S2P Require Import Prelude Vpic HvmState Vlapic Vioapic HvmIrq VlapicRegs Vpt TimerDev.

Open Scope Z_scope.
Open Scope se_scope.

Definition FREQUENCE_PMTIMER : Z := 3579545.
Definition TMR_STS : Z := 2 ^ 0.
Definition GBL_STS : Z := 2 ^ 5.
Definition PWRBTN_STS : Z := 2 ^ 8.
Definition SLPBTN_STS : Z := 2 ^ 9.
Definition SCI_MASK : Z := Z.lor (Z.lor TMR_STS PWRBTN_STS) (Z.lor SLPBTN_STS GBL_STS).
Definition SCI_IRQ : Z := 9.
Definition TMR_VAL_MASK : Z := 0xffffffff.
Definition TMR_VAL_MSB : Z := 0x80000000.
Definition ACPI_PM1A_EVT_BLK_ADDRESS_V0 : Z := 0x1f40.
Definition ACPI_PM1A_EVT_BLK_ADDRESS_V1 : Z := 0xb000.

Definition on_pmt (f : PMTState -> PMTState) : SE pldom unit := modify (fun s => set_pl_pmt (f (pl_pmt s)) s).
Definition set_tmr_val (x : Z) (p : PMTState) : PMTState :=
  {| tmr_val := x; pm1a_sts := pm1a_sts p; pm1a_en := pm1a_en p; pmt_vcpu := pmt_vcpu p;
     last_gtime := last_gtime p; not_accounted := not_accounted p; pmt_scale := pmt_scale p;
     pmt_timer := pmt_timer p |}.
Definition set_pm1a (sts en : Z) (p : PMTState) : PMTState :=
  {| tmr_val := tmr_val p; pm1a_sts := sts; pm1a_en := en; pmt_vcpu := pmt_vcpu p;
     last_gtime := last_gtime p; not_accounted := not_accounted p; pmt_scale := pmt_scale p;
     pmt_timer := pmt_timer p |}.
(** [last_gtime] and [not_accounted] *)
Definition set_accounted (g x : Z) (p : PMTState) : PMTState :=
  {| tmr_val := tmr_val p; pm1a_sts := pm1a_sts p; pm1a_en := pm1a_en p; pmt_vcpu := pmt_vcpu p;
     last_gtime := g; not_accounted := x; pmt_scale := pmt_scale p; pmt_timer := pmt_timer p |}.
(** [scale] and [vcpu] *)
Definition set_pmt_vcpu (scale : Z) (v : option Z) (p : PMTState) : PMTState :=
  {| tmr_val := tmr_val p; pm1a_sts := pm1a_sts p; pm1a_en := pm1a_en p; pmt_vcpu := v;
     last_gtime := last_gtime p; not_accounted := not_accounted p; pmt_scale := scale; pmt_timer := pmt_timer p |}.
Definition set_pmt_timer (t : option Z) (p : PMTState) : PMTState :=
  {| tmr_val := tmr_val p; pm1a_sts := pm1a_sts p; pm1a_en := pm1a_en p; pmt_vcpu := pmt_vcpu p;
     last_gtime := last_gtime p; not_accounted := not_accounted p; pmt_scale := pmt_scale p; pmt_timer := t |}.

(** [s->vcpu], which the code dereferences *)
Definition pmt_the_vcpu : SE pldom Z :=
  s <- get;; match pmt_vcpu (pl_pmt s) with Some v => ret v | None => bug end.

Definition sci_wanted (p : PMTState) : bool := negb (Z.land (Z.land (pm1a_en p) (pm1a_sts p)) SCI_MASK =? 0).

Definition pmt_update_sci : SE pldom unit :=
  p <- gets pl_pmt;;
  _ <- pmt_the_vcpu;;
  if sci_wanted p then vt (pit0 <- pit_active;; hw (hvm_isa_irq_assert pit0 SCI_IRQ))
  else vt (hw (hvm_isa_irq_deassert SCI_IRQ)).

Definition hvm_acpi_power_button : SE pldom unit :=
  on_pmt (fun p => set_pm1a (Z.lor (pm1a_sts p) PWRBTN_STS) (pm1a_en p) p);; pmt_update_sci.
Definition hvm_acpi_sleep_button : SE pldom unit :=
  on_pmt (fun p => set_pm1a (Z.lor (pm1a_sts p) SLPBTN_STS) (pm1a_en p) p);; pmt_update_sci.

Section Env.
Context (clk : nat -> Z).

Definition pmt_update_time : SE pldom unit :=
  p <- gets pl_pmt;;
  v <- pmt_the_vcpu;;
  curr_gtime <- get_guest_time clk v;;
  let tmp := u64 (u64 (curr_gtime - last_gtime p) * pmt_scale p + not_accounted p) in
  let val := Z.land (u32 (tmr_val p + Z.shiftr tmp 32)) TMR_VAL_MASK in
  on_pmt (fun p => set_tmr_val val (set_accounted curr_gtime (u32 tmp) p));;
  when (negb (Z.land val TMR_VAL_MSB =? Z.land (tmr_val p) TMR_VAL_MSB))
    (on_pmt (fun p => set_pm1a (Z.lor (pm1a_sts p) TMR_STS) (pm1a_en p) p);; pmt_update_sci).

(** The time until the most significant bit of the counter flips *)
Definition time_until_flip (val : Z) : Z :=
  let cycles := u32 (TMR_VAL_MSB - Z.land val (TMR_VAL_MSB - 1)) in
  Z.shiftr (u64 (u64 (Z.shiftl 1000000000 23) / FREQUENCE_PMTIMER * cycles)) 23.

Definition pmt_timer_callback : SE pldom unit :=
  pmt_update_time;;
  p <- gets pl_pmt;;
  now <- vt (NOW clk);;
  on_pmt (set_pmt_timer (Some (s64 (now + time_until_flip (tmr_val p) + 1000000)))).

(** One byte of a write to the event registers *)
Definition evt_write_byte (addr byte : Z) (p : PMTState) : PMTState :=
  if addr =? 0 then set_pm1a (Z.ldiff (pm1a_sts p) byte) (pm1a_en p) p
  else if addr =? 1 then set_pm1a (Z.ldiff (pm1a_sts p) (Z.shiftl byte 8)) (pm1a_en p) p
  else if addr =? 2 then set_pm1a (pm1a_sts p) (Z.lor (Z.land (pm1a_en p) 0xff00) byte) p
  else if addr =? 3 then set_pm1a (pm1a_sts p) (Z.lor (Z.land (pm1a_en p) 0xff) (Z.shiftl byte 8)) p
  else p.

Fixpoint evt_write (n : nat) (addr data : Z) (p : PMTState) : PMTState :=
  match n with
  | O => p
  | S n => evt_write n (u32 (addr + 1)) (Z.shiftr data 8) (evt_write_byte addr (Z.land data 0xff) p)
  end.

(** [handle_evt_io]; [v1] is the location of the ports; the value read, if any *)
Definition handle_evt_io (v1 write : bool) (port bytes val : Z) : SE pldom (option Z) :=
  let addr := u32 (port - (if v1 then ACPI_PM1A_EVT_BLK_ADDRESS_V1 else ACPI_PM1A_EVT_BLK_ADDRESS_V0)) in
  if write then
    on_pmt (evt_write (Z.to_nat bytes) addr val);;
    pmt_update_sci;;
    ret None
  else
    p <- gets pl_pmt;;
    let data := Z.lor (pm1a_sts p) (Z.shiftl (pm1a_en p) 16) in
    let data := Z.shiftr data (8 * addr) in
    ret (Some (if bytes =? 1 then Z.land data 0xff else if bytes =? 2 then Z.land data 0xffff else data)).

(** [bytes] bytes of the counter from [offset] on *)
Definition tmr_bytes (val offset bytes : Z) : Z := Z.land (Z.shiftr val (8 * offset)) (Z.ones (8 * bytes)).

(** [handle_pmt_io]; [locked] when another vcpu has the lock, whose update is
    taken over *)
Definition handle_pmt_io (locked write : bool) (port bytes : Z) : SE pldom (Z * option Z) :=
  let offset := Z.land port 3 in
  if 4 <? u32 (bytes + offset) then ret (X86EMUL_OKAY, None)
  else if write then ret (X86EMUL_UNHANDLEABLE, None)
  else
    when (negb locked) pmt_update_time;;
    p <- gets pl_pmt;;
    ret (X86EMUL_OKAY, Some (tmr_bytes (tmr_val p) offset bytes)).

Definition pmtimer_init (v : Z) : SE pldom unit :=
  on_pmt (fun p => set_accounted (last_gtime p) 0
            (set_pmt_vcpu (u64 (Z.shiftl FREQUENCE_PMTIMER 32) / SYSTEM_TIME_HZ) (Some v) p));;
  pmt_timer_callback.

Definition pmtimer_deinit : SE pldom unit := on_pmt (set_pmt_timer None).

Definition pmtimer_reset : SE pldom unit := on_pmt (set_tmr_val 0).
End Env.
