(* ===== verification/Hpet.v ===== *)
(** * The HPET

    xen/arch/x86/hvm/hpet.c: the high precision event timer, a counter and three
    comparators in memory-mapped registers. *)

From stdpp Require Import base list numbers.
From Stdlib Require Import ZArith Lia.
From S2P Require Import Prelude Vpic HvmState Vlapic Vioapic HvmIrq VlapicRegs Vpt TimerDev.

Open Scope Z_scope.
Open Scope se_scope.

Definition HPET_BASE_ADDRESS : Z := 0xfed00000.
Definition HPET_MMAP_SIZE : Z := 1024.
Definition S_TO_NS : Z := 1000000000.
Definition S_TO_FS : Z := 1000000000000000.
Definition STIME_PER_HPET_TICK : Z := 16.
Definition HPET_ID : Z := 0x000.
Definition HPET_CFG : Z := 0x010.
Definition HPET_STATUS : Z := 0x020.
Definition HPET_COUNTER : Z := 0x0f0.
Definition HPET_T0_CFG : Z := 0x100.
Definition HPET_T0_CMP : Z := 0x108.
Definition HPET_T0_ROUTE : Z := 0x110.
Definition HPET_T1_CFG : Z := 0x120.
Definition HPET_T1_CMP : Z := 0x128.
Definition HPET_T1_ROUTE : Z := 0x130.
Definition HPET_T2_CFG : Z := 0x140.
Definition HPET_T2_CMP : Z := 0x148.
Definition HPET_T2_ROUTE : Z := 0x150.
Definition HPET_CFG_ENABLE : Z := 0x001.
Definition HPET_CFG_LEGACY : Z := 0x002.
Definition HPET_TN_INT_TYPE_LEVEL : Z := 0x002.
Definition HPET_TN_ENABLE : Z := 0x004.
Definition HPET_TN_PERIODIC : Z := 0x008.
Definition HPET_TN_PERIODIC_CAP : Z := 0x010.
Definition HPET_TN_SIZE_CAP : Z := 0x020.
Definition HPET_TN_SETVAL : Z := 0x040.
Definition HPET_TN_32BIT : Z := 0x100.
Definition HPET_TN_INT_ROUTE_MASK : Z := 0x3e00.
Definition HPET_TN_INT_ROUTE_SHIFT : Z := 9.
Definition HPET_TN_INT_ROUTE_CAP_SHIFT : Z := 32.
Definition HPET_TN_INT_ROUTE_CAP : Z := Z.shiftl 0x00f00000 HPET_TN_INT_ROUTE_CAP_SHIFT.

Definition flag (x mask : Z) : bool := negb (Z.land x mask =? 0).

(** ** State *)

Definition on_hpet (f : HPETState -> HPETState) : SE pldom unit := modify (fun s => set_pl_hpet (f (pl_hpet s)) s).
Definition on_hregs (f : hpet_registers -> hpet_registers) : SE pldom unit :=
  on_hpet (fun h => {| hpet := f (hpet h); stime_freq := stime_freq h; hpet_to_ns_scale := hpet_to_ns_scale h;
                       hpet_to_ns_limit := hpet_to_ns_limit h; mc_offset := mc_offset h |}).
Definition set_mc_offset (x : Z) : SE pldom unit :=
  on_hpet (fun h => {| hpet := hpet h; stime_freq := stime_freq h; hpet_to_ns_scale := hpet_to_ns_scale h;
                       hpet_to_ns_limit := hpet_to_ns_limit h; mc_offset := x |}).
Definition set_hconfig (x : Z) (r : hpet_registers) : hpet_registers :=
  {| capability := capability r; hp_config := x; hp_isr := hp_isr r; mc64 := mc64 r; hp_timers := hp_timers r;
     hp_period := hp_period r; comparator64 := comparator64 r |}.
Definition set_mc64 (x : Z) (r : hpet_registers) : hpet_registers :=
  {| capability := capability r; hp_config := hp_config r; hp_isr := hp_isr r; mc64 := x; hp_timers := hp_timers r;
     hp_period := hp_period r; comparator64 := comparator64 r |}.
Definition set_comparator (tn : nat) (x : Z) (r : hpet_registers) : hpet_registers :=
  {| capability := capability r; hp_config := hp_config r; hp_isr := hp_isr r; mc64 := mc64 r; hp_timers := hp_timers r;
     hp_period := hp_period r; comparator64 := <[tn := x]> (comparator64 r) |}.
Definition set_hperiod (tn : nat) (x : Z) (r : hpet_registers) : hpet_registers :=
  {| capability := capability r; hp_config := hp_config r; hp_isr := hp_isr r; mc64 := mc64 r; hp_timers := hp_timers r;
     hp_period := <[tn := x]> (hp_period r); comparator64 := comparator64 r |}.
Definition upd_htimer (tn : nat) (f : hpet_timer -> hpet_timer) (r : hpet_registers) : hpet_registers :=
  {| capability := capability r; hp_config := hp_config r; hp_isr := hp_isr r; mc64 := mc64 r;
     hp_timers := alter f tn (hp_timers r); hp_period := hp_period r; comparator64 := comparator64 r |}.
Definition set_tn_config (x : Z) (t : hpet_timer) : hpet_timer := {| tn_config := x; tn_cmp := tn_cmp t; tn_fsb := tn_fsb t |}.
Definition set_tn_cmp (x : Z) (t : hpet_timer) : hpet_timer := {| tn_config := tn_config t; tn_cmp := x; tn_fsb := tn_fsb t |}.
Definition set_tn_fsb (x : Z) (t : hpet_timer) : hpet_timer := {| tn_config := tn_config t; tn_cmp := tn_cmp t; tn_fsb := x |}.

(** An element of an array of the registers; an index out of range is [Bug]. *)
Definition at_tn {A} (l : list A) (tn : nat) : SE pldom A := match l !! tn with Some x => ret x | None => bug end.
Definition hregs : SE pldom hpet_registers := gets (fun s => hpet (pl_hpet s)).
Definition the_htimer (tn : nat) : SE pldom hpet_timer := r <- hregs;; at_tn (hp_timers r) tn.

Definition hpet_enabled (r : hpet_registers) : bool := flag (hp_config r) HPET_CFG_ENABLE.
Definition timer_enabled (t : hpet_timer) : bool := flag (tn_config t) HPET_TN_ENABLE.
Definition timer_is_periodic (t : hpet_timer) : bool := flag (tn_config t) HPET_TN_PERIODIC.
Definition timer_is_32bit (t : hpet_timer) : bool := flag (tn_config t) HPET_TN_32BIT.
Definition timer_level (t : hpet_timer) : bool := flag (tn_config t) HPET_TN_INT_TYPE_LEVEL.
Definition timer_int_route (t : hpet_timer) : Z :=
  Z.shiftr (Z.land (tn_config t) HPET_TN_INT_ROUTE_MASK) HPET_TN_INT_ROUTE_SHIFT.

Definition hpet_tick_to_ns (h : HPETState) (tick : Z) : Z :=
  Z.shiftr (if hpet_to_ns_limit h <? tick then 2 ^ 64 - 1 else u64 (tick * hpet_to_ns_scale h)) 10.

(** The platform timer behind a comparator *)
Definition hpet_pt (tn : nat) : nat := (2 + tn)%nat.

Section Env.
Context (clk : nat -> Z).

Definition guest_time_hpet : SE pldom Z :=
  v <- the_target;; t <- get_guest_time clk v;; ret (t / STIME_PER_HPET_TICK).

(** ** Reading *)

Definition hpet_read_maincounter : SE pldom Z :=
  r <- hregs;;
  if hpet_enabled r then
    t <- guest_time_hpet;;
    h <- gets pl_hpet;;
    ret (u64 (t + mc_offset h))
  else ret (mc64 r).

(** The comparator moved on by the periods that have elapsed at the count [now] *)
Definition moved_comparator (now p cmp : Z) : Z := u64 (cmp + u64 (now + p - 1 - cmp) / p * p).

Definition hpet_get_comparator (tn : nat) : SE pldom Z :=
  r <- hregs;;
  comparator <- at_tn (comparator64 r) tn;;
  t <- the_htimer tn;;
  p <- at_tn (hp_period r) tn;;
  comparator <- (if timer_is_periodic t && negb (p =? 0) then
                   now <- hpet_read_maincounter;;
                   let c := moved_comparator now p comparator in
                   on_hregs (set_comparator tn c);;
                   ret c
                 else ret comparator);;
  let comparator := if timer_is_32bit t then u32 comparator else comparator in
  on_hregs (upd_htimer tn (set_tn_cmp comparator));;
  ret comparator.

(** The timer of a register of the three: its number *)
Definition tn_of (addr base : Z) : nat := Z.to_nat (Z.shiftr (addr - base) 5).

Definition hpet_read64 (addr : Z) : SE pldom Z :=
  let addr := Z.ldiff addr 7 in
  r <- hregs;;
  if addr =? HPET_ID then ret (capability r)
  else if addr =? HPET_CFG then ret (hp_config r)
  else if addr =? HPET_STATUS then ret (hp_isr r)
  else if addr =? HPET_COUNTER then hpet_read_maincounter
  else if (addr =? HPET_T0_CFG) || (addr =? HPET_T1_CFG) || (addr =? HPET_T2_CFG) then
    t <- the_htimer (tn_of addr HPET_T0_CFG);; ret (tn_config t)
  else if (addr =? HPET_T0_CMP) || (addr =? HPET_T1_CMP) || (addr =? HPET_T2_CMP) then
    hpet_get_comparator (tn_of addr HPET_T0_CMP)
  else if (addr =? HPET_T0_ROUTE) || (addr =? HPET_T1_ROUTE) || (addr =? HPET_T2_ROUTE) then
    t <- the_htimer (tn_of addr HPET_T0_ROUTE);; ret (tn_fsb t)
  else ret 0.

(** [hpet_check_access_length]: is the access within a register? *)
Definition hpet_check_access_length (addr len : Z) : bool := (Z.land addr (len - 1) =? 0) && (len <=? 8).

Definition hpet_read (addr length : Z) : SE pldom Z :=
  let addr := Z.land addr (HPET_MMAP_SIZE - 1) in
  if negb (hpet_check_access_length addr length) then ret (2 ^ 64 - 1)
  else
    val <- hpet_read64 addr;;
    ret (if negb (length =? 8) then Z.land (Z.shiftr val (Z.land addr 7 * 8)) (Z.ones (length * 8)) else val).

(** ** Timers *)

Definition hpet_stop_timer (tn : nat) : SE pldom unit :=
  bug_if (HPET_TIMER_NUM <=? tn)%nat;;
  vt (destroy_periodic_time (hpet_pt tn));;
  hpet_get_comparator tn;;
  ret tt.

Definition HPET_TINY_TIME_SPAN (h : HPETState) : Z := Z.shiftr (stime_freq h) 10 / STIME_PER_HPET_TICK.

Definition hpet_irq (r : hpet_registers) (tn : nat) (t : hpet_timer) : Z :=
  if (tn <=? 1)%nat && flag (hp_config r) HPET_CFG_LEGACY then (if (tn =? 0)%nat then 0 else 8)
  else timer_int_route t.

(** The ticks until the comparator [cmp] is reached from [now] *)
Definition ticks_left (h : HPETState) (is_32bit : bool) (cmp now : Z) : Z :=
  let cmp := if is_32bit then u32 cmp else cmp in
  let now := if is_32bit then u32 now else now in
  let diff := u64 (cmp - now) in
  if s64 diff <? 0 then
    if is_32bit && (HPET_TINY_TIME_SPAN h <? u64 (- diff)) then u32 diff else 0
  else diff.

Definition hpet_set_timer (tn : nat) : SE pldom unit :=
  bug_if (HPET_TIMER_NUM <=? tn)%nat;;
  r <- hregs;;
  when ((tn =? 0)%nat && flag (hp_config r) HPET_CFG_LEGACY) pit_stop_channel0_irq;;
  t <- the_htimer tn;;
  when (timer_enabled t)
    (tn_cmp <- hpet_get_comparator tn;;
     cur_tick <- hpet_read_maincounter;;
     h <- gets pl_hpet;;
     let diff := ticks_left h (timer_is_32bit t) tn_cmp cur_tick in
     let irq := hpet_irq r tn t in
     p <- at_tn (hp_period (hpet h)) tn;;
     v <- the_target;;
     vt (create_periodic_time clk v (hpet_pt tn) (hpet_tick_to_ns h diff)
           (if negb (timer_is_periodic t) then 0 else hpet_tick_to_ns h p) irq false)).

(** ** Writing *)

Definition hpet_fixup_reg (new old mask : Z) : Z := Z.lor (Z.land new mask) (Z.ldiff old mask).

(** The timers to stop, to start and to update after a write *)
Record changes : Type := { stop_timers : list nat; start_timers : list nat; update_timers : list nat }.
Definition no_changes : changes := {| stop_timers := []; start_timers := []; update_timers := [] |}.
Definition set_stop (l : list nat) : changes := {| stop_timers := l; start_timers := []; update_timers := [] |}.
Definition set_start (l : list nat) : changes := {| stop_timers := []; start_timers := l; update_timers := [] |}.
Definition set_restart (l : list nat) : changes := {| stop_timers := l; start_timers := l; update_timers := [] |}.

Definition all_timers : list nat := seq 0 HPET_TIMER_NUM.
(** The timers that are enabled, in the order of their numbers *)
Definition enabled_timers (r : hpet_registers) : list nat :=
  filter (fun tn => default false (timer_enabled <$> hp_timers r !! tn) = true) all_timers.

(** The comparators when the counter starts *)
Definition start_comparators (r : hpet_registers) : hpet_registers :=
  {| capability := capability r; hp_config := hp_config r; hp_isr := hp_isr r; mc64 := mc64 r; hp_timers := hp_timers r;
     hp_period := hp_period r;
     comparator64 := (fun t => if timer_is_32bit t then u32 (tn_cmp t) else tn_cmp t) <$> hp_timers r |}.

Definition write_cfg (old_val new_val : Z) : SE pldom changes :=
  on_hregs (set_hconfig (hpet_fixup_reg new_val old_val 0x3));;
  if negb (flag old_val HPET_CFG_ENABLE) && flag new_val HPET_CFG_ENABLE then
    r <- hregs;;
    t <- guest_time_hpet;;
    set_mc_offset (u64 (mc64 r - t));;
    on_hregs start_comparators;;
    ret (set_start (enabled_timers r))
  else if flag old_val HPET_CFG_ENABLE && negb (flag new_val HPET_CFG_ENABLE) then
    t <- guest_time_hpet;;
    h <- gets pl_hpet;;
    on_hregs (set_mc64 (u64 (mc_offset h + t)));;
    ret (set_stop (enabled_timers (hpet h)))
  else ret no_changes.

Definition write_counter (new_val : Z) : SE pldom changes :=
  on_hregs (set_mc64 new_val);;
  r <- hregs;;
  ret (if hpet_enabled r then set_restart (enabled_timers r) else no_changes).

Definition write_tn_cfg (tn : nat) (old_val new_val : Z) : SE pldom changes :=
  _ <- the_htimer tn;;
  on_hregs (upd_htimer tn (set_tn_config (hpet_fixup_reg new_val old_val 0x3f4e)));;
  t <- the_htimer tn;;
  if timer_level t then domain_crash;; ret no_changes
  else
    (if flag new_val HPET_TN_32BIT then
       r <- hregs;;
       p <- at_tn (hp_period r) tn;;
       on_hregs (fun r => set_hperiod tn (u32 p) (upd_htimer tn (fun t => set_tn_cmp (u32 (tn_cmp t)) t) r))
     else ret tt);;
    r <- hregs;;
    ret (if hpet_enabled r then
           if flag new_val HPET_TN_ENABLE then
             if flag (Z.lxor new_val old_val) HPET_TN_PERIODIC then set_restart [tn]
             else if flag new_val HPET_TN_32BIT && negb (flag old_val HPET_TN_32BIT) then set_restart [tn]
             else if negb (flag old_val HPET_TN_ENABLE) then set_start [tn]
             else no_changes
           else if flag old_val HPET_TN_ENABLE then set_stop [tn] else no_changes
         else no_changes).

(** The period a guest may set: at least 100 us, and without the top bit *)
Definition clamped_period (h : HPETState) (is_32bit : bool) (x : Z) : Z :=
  let x := if hpet_tick_to_ns h x <? 100000 then u64 (Z.shiftl 100000 10) / hpet_to_ns_scale h else x in
  Z.land x (Z.shiftr (if is_32bit then 2 ^ 32 - 1 else 2 ^ 64 - 1) 1).

Definition narrowed (t : hpet_timer) (x : Z) : Z := if timer_is_32bit t then u32 x else x.

(** The new comparator or period, in the registers *)
Definition store_cmp (tn : nat) (t : hpet_timer) (h : HPETState) (new_val : Z) : SE pldom unit :=
  on_hregs (upd_htimer tn (set_tn_cmp new_val));;
  new_val <- (if flag (tn_config t) HPET_TN_SETVAL then
                on_hregs (upd_htimer tn (fun t => set_tn_config (Z.ldiff (tn_config t) HPET_TN_SETVAL) t));;
                ret new_val
              else if timer_is_periodic t then
                bug_if ((hpet_tick_to_ns h new_val <? 100000) && (hpet_to_ns_scale h =? 0));;
                _ <- at_tn (hp_period (hpet h)) tn;;
                on_hregs (set_hperiod tn (clamped_period h (timer_is_32bit t) new_val));;
                ret (clamped_period h (timer_is_32bit t) new_val)
              else ret new_val);;
  _ <- at_tn (comparator64 (hpet h)) tn;;
  on_hregs (set_comparator tn new_val).

Definition write_tn_cmp (tn : nat) (new_val : Z) : SE pldom changes :=
  t <- the_htimer tn;;
  h <- gets pl_hpet;;
  store_cmp tn t h (narrowed t new_val);;
  if hpet_enabled (hpet h) && timer_enabled t then
    pt <- vt (the_pt (hpet_pt tn));;
    ret (if negb (timer_is_periodic t) || one_shot pt then set_restart [tn]
         else {| stop_timers := []; start_timers := []; update_timers := [tn] |})
  else ret no_changes.

Fixpoint each_timer (l : list nat) (body : nat -> SE pldom unit) : SE pldom unit :=
  match l with
  | [] => ret tt
  | tn :: l => body tn;; each_timer l body
  end.

Definition hpet_update_timer (tn : nat) : SE pldom unit :=
  h <- gets pl_hpet;;
  when ((tn =? 0)%nat && flag (hp_config (hpet h)) HPET_CFG_LEGACY) pit_stop_channel0_irq;;
  t <- the_htimer tn;;
  p <- at_tn (hp_period (hpet h)) tn;;
  vt (update_periodic_time clk (hpet_pt tn) (hpet_irq (hpet h) tn t) (hpet_tick_to_ns h p) 1).

(** The switch of [hpet_write] *)
Definition hpet_write_reg (addr old_val new_val : Z) : SE pldom changes :=
  let reg := Z.ldiff addr 7 in
  if reg =? HPET_CFG then write_cfg old_val new_val
  else if reg =? HPET_COUNTER then write_counter new_val
  else if (reg =? HPET_T0_CFG) || (reg =? HPET_T1_CFG) || (reg =? HPET_T2_CFG) then
    write_tn_cfg (tn_of addr HPET_T0_CFG) old_val new_val
  else if (reg =? HPET_T0_CMP) || (reg =? HPET_T1_CMP) || (reg =? HPET_T2_CMP) then
    write_tn_cmp (tn_of addr HPET_T0_CMP) new_val
  else if (reg =? HPET_T0_ROUTE) || (reg =? HPET_T1_ROUTE) || (reg =? HPET_T2_ROUTE) then
    _ <- the_htimer (tn_of addr HPET_T0_ROUTE);;
    on_hregs (upd_htimer (tn_of addr HPET_T0_ROUTE) (set_tn_fsb new_val));; ret no_changes
  else ret no_changes.

Definition hpet_apply (ch : changes) : SE pldom unit :=
  each_timer (stop_timers ch) hpet_stop_timer;;
  each_timer (start_timers ch) hpet_set_timer;;
  each_timer (update_timers ch) hpet_update_timer.

(** The register's new value: the bytes written, and the old value around them *)
Definition written (addr length val old_val : Z) : Z :=
  let shift := Z.land addr 7 * 8 in
  if negb (length =? 8)
  then hpet_fixup_reg (u64 (Z.shiftl val shift)) old_val (u64 (Z.shiftl (Z.ones (length * 8)) shift))
  else val.

Definition hpet_write (addr length val : Z) : SE pldom unit :=
  let addr := Z.land addr (HPET_MMAP_SIZE - 1) in
  if negb (hpet_check_access_length addr length) then ret tt
  else
    old_val <- hpet_read64 addr;;
    ch <- hpet_write_reg addr old_val (written addr length val old_val);;
    hpet_apply ch.

(** [hpet_range]; [on] is [HVM_PARAM_HPET_ENABLED] *)
Definition hpet_range (on : bool) (addr : Z) : bool :=
  on && (HPET_BASE_ADDRESS <=? addr) && (addr <? HPET_BASE_ADDRESS + HPET_MMAP_SIZE).

(** ** Life *)

Definition fresh_htimer : hpet_timer := {|
  tn_config := Z.lor (Z.lor HPET_TN_INT_ROUTE_CAP HPET_TN_SIZE_CAP) HPET_TN_PERIODIC_CAP;
  tn_cmp := 2 ^ 64 - 1; tn_fsb := 0 |}.

Definition fresh_hpet : HPETState :=
  let scale := u64 (Z.shiftl (S_TO_NS * STIME_PER_HPET_TICK) 10) / S_TO_NS in
  {| hpet := {| capability := Z.lor 0x8086A201 (u64 (Z.shiftl (S_TO_FS * STIME_PER_HPET_TICK / S_TO_NS) 32));
                hp_config := 0; hp_isr := 0; mc64 := 0; hp_timers := replicate HPET_TIMER_NUM fresh_htimer;
                hp_period := replicate HPET_TIMER_NUM 0; comparator64 := replicate HPET_TIMER_NUM 0 |};
     stime_freq := S_TO_NS; hpet_to_ns_scale := scale; hpet_to_ns_limit := (2 ^ 64 - 1) / scale; mc_offset := 0 |}.

(** A timer cleared by [memset], with its source *)
Definition cleared_pt : periodic_time := {|
  on_list := false; one_shot := false; irq_issued := false; warned_timeout_too_short := false;
  collapse_ticks := false; pt_source := PTSRC_isa; pt_irqno := 0; pt_vcpu := None; pending_intr_nr := 0;
  time_done := 0; period := 0; schedule_period := 0; scheduled := 0; scheduled_t0 := 0; last_plt_gtime := 0;
  timer_set := None; has_cb := false |}.

Definition hpet_init : SE pldom unit :=
  on_hpet (fun _ => fresh_hpet);;
  each_timer all_timers (fun tn => vt (upd_pt (hpet_pt tn) (fun _ => cleared_pt))).

Definition hpet_deinit : SE pldom unit :=
  r <- hregs;;
  when (hpet_enabled r)
    (each_timer all_timers (fun tn => t <- the_htimer tn;; when (timer_enabled t) (hpet_stop_timer tn))).

Definition hpet_reset : SE pldom unit := hpet_deinit;; hpet_init.
End Env.
