(* ===== verification/Rtc.v ===== *)
(** * The real-time clock

    xen/arch/x86/hvm/rtc.c: the registers of the clock, its calendar, the
    periodic, update-ended and alarm interrupts; the wall clock of
    xen/arch/x86/time.c that it shows. *)

From stdpp Require Import base list numbers.
From Stdlib Require Import ZArith Lia.
From S2P Require Import Prelude Vpic HvmState Vlapic Vioapic HvmIrq VlapicRegs Vpt Calendar TimerDev Hpet.

Open Scope Z_scope.
Open Scope se_scope.

Definition USEC_PER_SEC : Z := 1000000.
Definition NS_PER_USEC : Z := 1000.
Definition NS_PER_SEC : Z := 1000000000.
Definition SEC_PER_MIN : Z := 60.
Definition SEC_PER_HOUR : Z := 3600.
Definition MIN_PER_HOUR : Z := 60.
Definition HOUR_PER_DAY : Z := 24.

Definition RTC_CMOS_SIZE : Z := 14.
Definition RTC_SECONDS : Z := 0.
Definition RTC_SECONDS_ALARM : Z := 1.
Definition RTC_MINUTES : Z := 2.
Definition RTC_MINUTES_ALARM : Z := 3.
Definition RTC_HOURS : Z := 4.
Definition RTC_HOURS_ALARM : Z := 5.
Definition RTC_DAY_OF_WEEK : Z := 6.
Definition RTC_DAY_OF_MONTH : Z := 7.
Definition RTC_MONTH : Z := 8.
Definition RTC_YEAR : Z := 9.
Definition RTC_REG_A : Z := 10.
Definition RTC_REG_B : Z := 11.
Definition RTC_REG_C : Z := 12.
Definition RTC_REG_D : Z := 13.
Definition RTC_UIP : Z := 0x80.
Definition RTC_DIV_CTL : Z := 0x70.
Definition RTC_REF_CLCK_4MHZ : Z := 0x00.
Definition RTC_REF_CLCK_1MHZ : Z := 0x10.
Definition RTC_REF_CLCK_32KHZ : Z := 0x20.
Definition RTC_RATE_SELECT : Z := 0x0f.
Definition RTC_SET : Z := 0x80.
Definition RTC_PIE : Z := 0x40.
Definition RTC_DM_BINARY : Z := 0x04.
Definition RTC_24H : Z := 0x02.
Definition RTC_IRQF : Z := 0x80.
Definition RTC_PF : Z := 0x40.
Definition RTC_AF : Z := 0x20.
Definition RTC_UF : Z := 0x10.
Definition RTC_VRT : Z := 0x80.
Definition RTC_IRQ : Z := 8.

(** [rtc_mode_is(s, no_ack)] and [rtc_mode_is(s, strict)] *)
Definition mode_no_ack : bool := true.
Definition mode_strict : bool := false.

(** ** State *)

Definition on_rtc (f : RTCState -> RTCState) : SE pldom unit := modify (fun s => set_pl_rtc (f (pl_rtc s)) s).
Definition set_cmos_data (l : list Z) (r : RTCState) : RTCState :=
  {| cmos_data := l; cmos_index := cmos_index r; current_tm := current_tm r; update_timer := update_timer r;
     update_timer2 := update_timer2 r; next_update_time := next_update_time r; alarm_timer := alarm_timer r;
     start_time := start_time r; check_ticks_since := check_ticks_since r; rtc_period := rtc_period r;
     pt_dead_ticks := pt_dead_ticks r; use_timer := use_timer r |}.
Definition set_cmos_index (i : Z) (r : RTCState) : RTCState :=
  {| cmos_data := cmos_data r; cmos_index := i; current_tm := current_tm r; update_timer := update_timer r;
     update_timer2 := update_timer2 r; next_update_time := next_update_time r; alarm_timer := alarm_timer r;
     start_time := start_time r; check_ticks_since := check_ticks_since r; rtc_period := rtc_period r;
     pt_dead_ticks := pt_dead_ticks r; use_timer := use_timer r |}.
Definition set_current_tm (d : tm) (r : RTCState) : RTCState :=
  {| cmos_data := cmos_data r; cmos_index := cmos_index r; current_tm := d; update_timer := update_timer r;
     update_timer2 := update_timer2 r; next_update_time := next_update_time r; alarm_timer := alarm_timer r;
     start_time := start_time r; check_ticks_since := check_ticks_since r; rtc_period := rtc_period r;
     pt_dead_ticks := pt_dead_ticks r; use_timer := use_timer r |}.
(** [update_timer], [update_timer2], [next_update_time] and [use_timer] *)
Definition set_update (t1 t2 : option Z) (next use : Z) (r : RTCState) : RTCState :=
  {| cmos_data := cmos_data r; cmos_index := cmos_index r; current_tm := current_tm r; update_timer := t1;
     update_timer2 := t2; next_update_time := next; alarm_timer := alarm_timer r;
     start_time := start_time r; check_ticks_since := check_ticks_since r; rtc_period := rtc_period r;
     pt_dead_ticks := pt_dead_ticks r; use_timer := use |}.
Definition set_alarm_timer (t : option Z) (r : RTCState) : RTCState :=
  {| cmos_data := cmos_data r; cmos_index := cmos_index r; current_tm := current_tm r; update_timer := update_timer r;
     update_timer2 := update_timer2 r; next_update_time := next_update_time r; alarm_timer := t;
     start_time := start_time r; check_ticks_since := check_ticks_since r; rtc_period := rtc_period r;
     pt_dead_ticks := pt_dead_ticks r; use_timer := use_timer r |}.
(** [start_time], [check_ticks_since], [period] and [pt_dead_ticks] *)
Definition set_ticking (start since p dead : Z) (r : RTCState) : RTCState :=
  {| cmos_data := cmos_data r; cmos_index := cmos_index r; current_tm := current_tm r; update_timer := update_timer r;
     update_timer2 := update_timer2 r; next_update_time := next_update_time r; alarm_timer := alarm_timer r;
     start_time := start; check_ticks_since := since; rtc_period := p; pt_dead_ticks := dead; use_timer := use_timer r |}.
Definition set_rtc_period (p : Z) (r : RTCState) : RTCState :=
  set_ticking (start_time r) (check_ticks_since r) p (pt_dead_ticks r) r.
Definition set_since (t : Z) (r : RTCState) : RTCState := set_ticking (start_time r) t (rtc_period r) (pt_dead_ticks r) r.
Definition set_dead_ticks (n : Z) (r : RTCState) : RTCState :=
  set_ticking (start_time r) (check_ticks_since r) (rtc_period r) n r.

(** [hw.cmos_data[i]]; an index out of range is [Bug]. *)
Definition cmos (i : Z) : SE pldom Z :=
  r <- gets pl_rtc;; match cmos_data r !! Z.to_nat i with Some x => bug_if (i <? 0);; ret x | None => bug end.
Definition set_cmos (i x : Z) : SE pldom unit :=
  _ <- cmos i;; on_rtc (fun r => set_cmos_data (<[Z.to_nat i := u8 x]> (cmos_data r)) r).
Definition or_cmos (i m : Z) : SE pldom unit := x <- cmos i;; set_cmos i (Z.lor x m).

Definition stop_rtc_timer : SE pldom unit := vt (destroy_periodic_time RTC_TIMER);; on_rtc (set_rtc_period 0).

(** ** The wall clock *)

Section Env.
Context (clk : nat -> Z).

Definition get_localtime : SE pldom Z :=
  now <- vt (NOW clk);;
  w <- gets pl_wall;;
  ret (u64 (wc_sec w + u64 (wc_nsec w + now) / 1000000000 + time_offset_seconds w)).

Definition get_localtime_us : SE pldom Z :=
  now <- vt (NOW clk);;
  w <- gets pl_wall;;
  ret (u64 (u32 (wc_sec w + time_offset_seconds w) * 1000000000 + wc_nsec w + now) / 1000).

Definition update_domain_wallclock_time : SE pldom unit :=
  modify (fun s =>
    let w := pl_wall s in
    set_pl_wall {| wc_sec := wc_sec w; wc_nsec := wc_nsec w; time_offset_seconds := time_offset_seconds w;
                   shared_wc_version := u32 (u32 (Z.lor (u32 (shared_wc_version w + 1)) 1) + 1);
                   shared_wc_sec := u32 (wc_sec w + time_offset_seconds w); shared_wc_nsec := wc_nsec w;
                   shared_wc_time_offset := u32 (time_offset_seconds w) |} s).

(** ** Dates in registers *)

Definition to_bcd (regb a : Z) : Z :=
  if flag regb RTC_DM_BINARY then a else Z.lor (Z.shiftl (Z.quot a 10) 4) (Z.rem a 10).
Definition from_bcd (regb a : Z) : Z :=
  if flag regb RTC_DM_BINARY then a else Z.shiftr a 4 * 10 + Z.land a 0x0f.
Definition convert_hour (regb raw : Z) : Z :=
  let hour := from_bcd regb (Z.land raw 0x7f) in
  if negb (flag regb RTC_24H)
  then Z.rem hour 12 + (if flag raw 0x80 then 12 else 0)
  else hour.

(** The hours register of a date *)
Definition hours_of (regb hour : Z) : Z :=
  if flag regb RTC_24H then u8 (to_bcd regb hour)
  else
    let h := if negb (Z.rem hour 12 =? 0) then Z.rem hour 12 else 12 in
    if 12 <=? hour then Z.lor (u8 (to_bcd regb h)) 0x80 else u8 (to_bcd regb h).

Definition rtc_copy_date : SE pldom unit :=
  r <- gets pl_rtc;;
  let d := current_tm r in
  b <- cmos RTC_REG_B;;
  set_cmos RTC_SECONDS (to_bcd b (tm_sec d));;
  set_cmos RTC_MINUTES (to_bcd b (tm_min d));;
  set_cmos RTC_HOURS (hours_of b (tm_hour d));;
  set_cmos RTC_DAY_OF_WEEK (to_bcd b (tm_wday d));;
  set_cmos RTC_DAY_OF_MONTH (to_bcd b (tm_mday d));;
  set_cmos RTC_MONTH (to_bcd b (tm_mon d + 1));;
  set_cmos RTC_YEAR (to_bcd b (Z.rem (tm_year d) 100)).

(** The current time, in [current_tm] and in the registers *)
Definition rtc_fetch_date : SE pldom unit :=
  t <- get_localtime;; on_rtc (set_current_tm (gmtime t));; rtc_copy_date.

(** The date that the registers show *)
Definition date_of (b sec min hour wday mday mon year : Z) (old : tm) : tm :=
  {| tm_sec := from_bcd b sec; tm_min := from_bcd b min; tm_hour := convert_hour b hour; tm_mday := from_bcd b mday;
     tm_mon := from_bcd b mon - 1; tm_year := from_bcd b year + 100; tm_wday := from_bcd b wday;
     tm_yday := tm_yday old; tm_isdst := tm_isdst old |}.

Definition rtc_set_time : SE pldom unit :=
  b <- cmos RTC_REG_B;;
  sec <- cmos RTC_SECONDS;; min <- cmos RTC_MINUTES;; hour <- cmos RTC_HOURS;; wday <- cmos RTC_DAY_OF_WEEK;;
  mday <- cmos RTC_DAY_OF_MONTH;; mon <- cmos RTC_MONTH;; year <- cmos RTC_YEAR;;
  on_rtc (fun r => set_current_tm (date_of b sec min hour wday mday mon year (current_tm r)) r);;
  update_domain_wallclock_time.

(** ** Interrupts *)

Definition rtc_update_irq : SE pldom unit :=
  c <- cmos RTC_REG_C;;
  if mode_strict && flag c RTC_IRQF then ret tt
  else
    b <- cmos RTC_REG_B;;
    if Z.land (Z.land b c) (Z.lor (Z.lor RTC_PF RTC_AF) RTC_UF) =? 0 then ret tt
    else
      set_cmos RTC_REG_C (Z.lor c RTC_IRQF);;
      when mode_no_ack (vt (hw (hvm_isa_irq_deassert RTC_IRQ)));;
      vt (pit0 <- pit_active;; hw (hvm_isa_irq_assert pit0 RTC_IRQ)).

(** [rtc_pf_callback], the callback of the periodic timer *)
Definition rtc_pf_callback : SE pldom unit :=
  c <- cmos RTC_REG_C;;
  when (negb mode_no_ack && flag c RTC_IRQF)
    (on_rtc (fun r => set_dead_ticks (u8 (pt_dead_ticks r + 1)) r);;
     r <- gets pl_rtc;;
     when (10 <=? pt_dead_ticks r) stop_rtc_timer);;
  or_cmos RTC_REG_C (Z.lor RTC_PF RTC_IRQF).

Definition check_for_pf_ticks : SE pldom unit :=
  r <- gets pl_rtc;;
  b <- cmos RTC_REG_B;;
  if (rtc_period r =? 0) || flag b RTC_PIE then ret tt
  else
    now <- vt (NOW clk);;
    when (negb (Z.quot (s64 (now - start_time r)) (rtc_period r) =?
                Z.quot (s64 (check_ticks_since r - start_time r)) (rtc_period r)))
      (or_cmos RTC_REG_C RTC_PF);;
    on_rtc (set_since now).

(** The period in nanoseconds that the rate of register A selects, if any *)
Definition selected_period (a : Z) : option Z :=
  let code := Z.land a RTC_RATE_SELECT in
  let div := Z.land a RTC_DIV_CTL in
  if (div =? RTC_REF_CLCK_32KHZ) || (div =? RTC_REF_CLCK_1MHZ) || (div =? RTC_REF_CLCK_4MHZ) then
    let code := if (div =? RTC_REF_CLCK_32KHZ) && negb (code =? 0) && (code <=? 2) then code + 7 else code in
    if code =? 0 then None else Some ((Z.shiftl 1 (code - 1) * 1000000000 + 32768 / 2) / 32768)
  else None.

Definition rtc_timer_update : SE pldom unit :=
  on_rtc (set_dead_ticks 0);;
  a <- cmos RTC_REG_A;;
  match selected_period a with
  | None => stop_rtc_timer
  | Some p =>
      r <- gets pl_rtc;;
      if p =? rtc_period r then ret tt
      else
        now <- vt (NOW clk);;
        on_rtc (set_rtc_period p);;
        v <- the_target;;
        prm <- vt (gets vs_params);;
        let delta := if negb (vpt_align prm =? 0) then 0 else s32 (p - Z.rem (s64 (now - start_time r)) p) in
        b <- cmos RTC_REG_B;;
        if flag b RTC_PIE then vt (create_periodic_time clk v RTC_TIMER (u64 delta) p RTC_IRQ true)
        else on_rtc (set_since now)
  end.

(** ** The update-ended interrupt *)

Definition check_update_timer : SE pldom unit :=
  on_rtc (fun r => set_update None None (next_update_time r) (use_timer r) r);;
  c <- cmos RTC_REG_C;;
  b <- cmos RTC_REG_B;;
  if negb (flag c RTC_UF) && negb (flag b RTC_SET) then
    on_rtc (fun r => set_update (update_timer r) (update_timer2 r) (next_update_time r) 1 r);;
    us <- get_localtime_us;;
    let guest_usec := us mod USEC_PER_SEC in
    if USEC_PER_SEC - 244 <=? guest_usec then
      or_cmos RTC_REG_A RTC_UIP;;
      now <- vt (NOW clk);;
      let expire := u64 (now + (USEC_PER_SEC - guest_usec) * NS_PER_USEC) in
      on_rtc (fun r => set_update (update_timer r) (Some (s64 expire)) (next_update_time r) (use_timer r) r)
    else
      now <- vt (NOW clk);;
      let expire := u64 (now + (USEC_PER_SEC - guest_usec - 244) * NS_PER_USEC) in
      on_rtc (fun r => set_update (Some (s64 expire)) (update_timer2 r) expire (use_timer r) r)
  else on_rtc (fun r => set_update (update_timer r) (update_timer2 r) (next_update_time r) 0 r).

(** The host timers *)
Definition rtc_update_timer : SE pldom unit :=
  b <- cmos RTC_REG_B;;
  when (negb (flag b RTC_SET))
    (or_cmos RTC_REG_A RTC_UIP;;
     on_rtc (fun r => set_update (update_timer r) (Some (s64 (next_update_time r + 244000))) (next_update_time r) (use_timer r) r)).

Definition rtc_update_timer2 : SE pldom unit :=
  b <- cmos RTC_REG_B;;
  when (negb (flag b RTC_SET))
    (or_cmos RTC_REG_C RTC_UF;;
     a <- cmos RTC_REG_A;;
     set_cmos RTC_REG_A (Z.ldiff a RTC_UIP);;
     rtc_update_irq;;
     check_update_timer).

(** ** The alarm *)

(** A field of the alarm that matches everything *)
Definition dont_care (x : Z) : bool := Z.land x 0xc0 =? 0xc0.

(** Seconds of the alarm after the start of its minute, minutes after the start
    of its hour *)
Definition plus_sec (ds : bool) (alarm_sec n : Z) : Z := if ds then n + 0 else n + alarm_sec.
Definition plus_min (dm ds : bool) (alarm_min alarm_sec n : Z) : Z :=
  if dm then plus_sec ds alarm_sec n else plus_sec ds alarm_sec (n + alarm_min * SEC_PER_MIN).

(** [next_alarm_sec]: the seconds from the current time to the alarm; [dh], [dm]
    and [ds] say which fields match everything. *)
Definition next_alarm_sec (dh dm ds : bool) (alarm_hour alarm_min alarm_sec cur_hour cur_min cur_sec : Z) : Z :=
  if dh then
    if dm then
      if ds then 1
      else if cur_sec <? alarm_sec then alarm_sec - cur_sec
      else alarm_sec + SEC_PER_MIN - cur_sec
    else if cur_min <? alarm_min then
      plus_sec ds alarm_sec ((alarm_min - cur_min) * SEC_PER_MIN - cur_sec)
    else if cur_min =? alarm_min then
      if ds then 1
      else if cur_sec <? alarm_sec then alarm_sec - cur_sec
      else alarm_sec + (alarm_min + MIN_PER_HOUR - cur_min) * SEC_PER_MIN - cur_sec
    else plus_sec ds alarm_sec ((alarm_min + MIN_PER_HOUR - cur_min) * SEC_PER_MIN - cur_sec)
  else if cur_hour <? alarm_hour then
    plus_min dm ds alarm_min alarm_sec ((alarm_hour - cur_hour) * SEC_PER_HOUR - cur_min * SEC_PER_MIN - cur_sec)
  else
    let tomorrow := (alarm_hour + HOUR_PER_DAY - cur_hour) * SEC_PER_HOUR - cur_min * SEC_PER_MIN - cur_sec in
    if cur_hour =? alarm_hour then
      if dm then
        if ds then 1
        else if cur_sec <? alarm_sec then alarm_sec - cur_sec
        else alarm_sec + SEC_PER_MIN - cur_sec
      else if cur_min <? alarm_min then
        plus_sec ds alarm_sec ((alarm_min - cur_min) * SEC_PER_MIN - cur_sec)
      else if cur_min =? alarm_min then
        if ds then 1
        else if cur_sec <? alarm_sec then alarm_sec - cur_sec
        else tomorrow + (alarm_min * SEC_PER_MIN + alarm_sec)
      else plus_sec ds alarm_sec (tomorrow + alarm_min * SEC_PER_MIN)
    else plus_min dm ds alarm_min alarm_sec tomorrow.

Definition alarm_timer_update : SE pldom unit :=
  on_rtc (set_alarm_timer None);;
  c <- cmos RTC_REG_C;;
  b <- cmos RTC_REG_B;;
  if negb (flag c RTC_AF) && negb (flag b RTC_SET) then
    rtc_fetch_date;;
    asec <- cmos RTC_SECONDS_ALARM;; amin <- cmos RTC_MINUTES_ALARM;; ahour <- cmos RTC_HOURS_ALARM;;
    sec <- cmos RTC_SECONDS;; min <- cmos RTC_MINUTES;; hour <- cmos RTC_HOURS;;
    us <- get_localtime_us;;
    now <- vt (NOW clk);;
    let next_update := u64 ((USEC_PER_SEC - us mod USEC_PER_SEC) * NS_PER_USEC + now) in
    let next := next_alarm_sec (dont_care ahour) (dont_care amin) (dont_care asec)
                  (convert_hour b ahour) (from_bcd b amin) (from_bcd b asec)
                  (convert_hour b hour) (from_bcd b min) (from_bcd b sec) in
    on_rtc (set_alarm_timer (Some (s64 (u64 ((next - 1) * NS_PER_SEC + next_update)))))
  else ret tt.

(** The host timer of the alarm *)
Definition rtc_alarm_cb : SE pldom unit :=
  b <- cmos RTC_REG_B;;
  when (negb (flag b RTC_SET)) (or_cmos RTC_REG_C RTC_AF;; rtc_update_irq;; alarm_timer_update).

(** ** Accesses *)

(** A register of the time *)
Definition is_time_reg (i : Z) : bool :=
  (i =? RTC_SECONDS) || (i =? RTC_MINUTES) || (i =? RTC_HOURS) || (i =? RTC_DAY_OF_WEEK) ||
  (i =? RTC_DAY_OF_MONTH) || (i =? RTC_MONTH) || (i =? RTC_YEAR).
Definition is_alarm_reg (i : Z) : bool := (i =? RTC_SECONDS_ALARM) || (i =? RTC_MINUTES_ALARM) || (i =? RTC_HOURS_ALARM).

Definition write_time_reg (i data : Z) : SE pldom unit :=
  b <- cmos RTC_REG_B;;
  (if flag b RTC_SET then set_cmos i data
   else rtc_fetch_date;; set_cmos i data;; rtc_set_time);;
  alarm_timer_update.

Definition write_reg_a (orig data : Z) : SE pldom unit :=
  set_cmos RTC_REG_A (Z.lor (Z.ldiff data RTC_UIP) (Z.land orig RTC_UIP));;
  when (negb (Z.ldiff (Z.lxor data orig) RTC_UIP =? 0)) rtc_timer_update.

Definition write_reg_b (orig data : Z) : SE pldom unit :=
  (if flag data RTC_SET then
     a <- cmos RTC_REG_A;;
     set_cmos RTC_REG_A (Z.ldiff a RTC_UIP);;
     when (negb (flag orig RTC_SET)) rtc_fetch_date
   else when (flag orig RTC_SET) rtc_set_time);;
  check_for_pf_ticks;;
  set_cmos RTC_REG_B data;;
  rtc_update_irq;;
  when (flag (Z.lxor data orig) RTC_PIE) (stop_rtc_timer;; rtc_timer_update);;
  when (flag (Z.lxor data orig) RTC_SET) check_update_timer;;
  when (negb (Z.land (Z.lxor data orig) (Z.lor (Z.lor RTC_24H RTC_DM_BINARY) RTC_SET) =? 0)) alarm_timer_update.

(** Whether the access is that of the clock *)
Definition rtc_ioport_write (addr data : Z) : SE pldom bool :=
  if Z.land addr 1 =? 0 then
    let data := Z.land data 0x7f in
    on_rtc (set_cmos_index data);; ret (data <? RTC_CMOS_SIZE)
  else
    r <- gets pl_rtc;;
    let i := cmos_index r in
    if RTC_CMOS_SIZE <=? i then ret false
    else
      orig <- cmos i;;
      (if is_alarm_reg i then set_cmos i data;; alarm_timer_update
       else if is_time_reg i then write_time_reg i data
       else if i =? RTC_REG_A then write_reg_a orig data
       else if i =? RTC_REG_B then write_reg_b orig data
       else ret tt);;
      ret true.

Definition update_in_progress : SE pldom bool :=
  b <- cmos RTC_REG_B;;
  if flag b RTC_SET then ret false
  else us <- get_localtime_us;; ret (USEC_PER_SEC - 244 <=? us mod USEC_PER_SEC).

Definition read_reg_a : SE pldom Z :=
  a <- cmos RTC_REG_A;;
  r <- gets pl_rtc;;
  uip <- (if use_timer r =? 0 then update_in_progress else ret false);;
  ret (if uip : bool then Z.lor a RTC_UIP else a).

Definition read_reg_c : SE pldom Z :=
  check_for_pf_ticks;;
  c <- cmos RTC_REG_C;;
  set_cmos RTC_REG_C 0;;
  when (flag c RTC_IRQF) (vt (hw (hvm_isa_irq_deassert RTC_IRQ)));;
  check_update_timer;;
  alarm_timer_update;;
  on_rtc (set_dead_ticks 0);;
  ret c.

Definition read_time_reg (i : Z) : SE pldom Z :=
  b <- cmos RTC_REG_B;;
  when (negb (flag b RTC_SET)) rtc_fetch_date;;
  cmos i.

Definition rtc_ioport_read (addr : Z) : SE pldom Z :=
  if Z.land addr 1 =? 0 then ret 0xff
  else
    r <- gets pl_rtc;;
    let i := cmos_index r in
    if is_time_reg i then read_time_reg i
    else if i =? RTC_REG_A then read_reg_a
    else if i =? RTC_REG_C then read_reg_c
    else cmos i.

(** The result of the access, and the value read *)
Definition handle_rtc_io (write : bool) (port bytes val : Z) : SE pldom (Z * option Z) :=
  if negb (bytes =? 1) then ret (X86EMUL_OKAY, None)
  else if write then
    ok <- rtc_ioport_write port (u8 val);; ret (if ok : bool then X86EMUL_OKAY else X86EMUL_UNHANDLEABLE, None)
  else
    r <- gets pl_rtc;;
    if cmos_index r <? RTC_CMOS_SIZE then x <- rtc_ioport_read port;; ret (X86EMUL_OKAY, Some x)
    else ret (X86EMUL_UNHANDLEABLE, None).

(** ** Start and end *)

Definition rtc_reset : SE pldom unit :=
  stop_rtc_timer;;
  vt (upd_pt RTC_TIMER (fun pt =>
    {| on_list := on_list pt; one_shot := one_shot pt; irq_issued := irq_issued pt;
       warned_timeout_too_short := warned_timeout_too_short pt; collapse_ticks := collapse_ticks pt;
       pt_source := PTSRC_isa; pt_irqno := pt_irqno pt; pt_vcpu := pt_vcpu pt;
       pending_intr_nr := pending_intr_nr pt; time_done := time_done pt; period := period pt;
       schedule_period := schedule_period pt; scheduled := scheduled pt;
       scheduled_t0 := scheduled_t0 pt; last_plt_gtime := last_plt_gtime pt;
       timer_set := timer_set pt; has_cb := has_cb pt |})).

Definition rtc_init : SE pldom unit :=
  rtc_reset;;
  set_cmos RTC_REG_A (Z.lor RTC_REF_CLCK_32KHZ 6);;
  set_cmos RTC_REG_B RTC_24H;;
  set_cmos RTC_REG_C 0;;
  set_cmos RTC_REG_D RTC_VRT.

Definition rtc_init_timers : SE pldom unit :=
  t <- get_localtime;;
  on_rtc (set_current_tm (gmtime t));;
  now <- vt (NOW clk);;
  on_rtc (fun r => set_ticking now (check_ticks_since r) (rtc_period r) (pt_dead_ticks r) r);;
  rtc_copy_date;;
  check_update_timer.

Definition rtc_deinit : SE pldom unit :=
  vt (destroy_periodic_time RTC_TIMER);;
  on_rtc (fun r => set_alarm_timer None (set_update None None (next_update_time r) (use_timer r) r)).

(** ** Changes of the wall clock *)

Definition rtc_update_clock : SE pldom unit := t <- get_localtime;; on_rtc (set_current_tm (gmtime t)).

Definition domain_set_time_offset (offset : Z) : SE pldom unit :=
  modify (fun s => let w := pl_wall s in
    set_pl_wall {| wc_sec := wc_sec w; wc_nsec := wc_nsec w; time_offset_seconds := s32 offset;
                   shared_wc_version := shared_wc_version w; shared_wc_sec := shared_wc_sec w;
                   shared_wc_nsec := shared_wc_nsec w; shared_wc_time_offset := shared_wc_time_offset w |} s);;
  rtc_update_clock;;
  update_domain_wallclock_time.

(** [do_settime], for the one domain *)
Definition do_settime (secs nsecs system_time_base : Z) : SE pldom unit :=
  let x := u64 (u64 (secs * 1000000000) + nsecs - system_time_base) in
  modify (fun s => let w := pl_wall s in
    set_pl_wall {| wc_sec := u32 (x / 1000000000); wc_nsec := x mod 1000000000; time_offset_seconds := time_offset_seconds w;
                   shared_wc_version := shared_wc_version w; shared_wc_sec := shared_wc_sec w;
                   shared_wc_nsec := shared_wc_nsec w; shared_wc_time_offset := shared_wc_time_offset w |} s);;
  update_domain_wallclock_time.
End Env.
