(* ===== verification/TimerDevInv.v ===== *)
(** * The timer devices: the invariant, the PIT and the PM timer

    The counters of the PIT are never zero, the timers behind the HPET's
    comparators exist while these are enabled; every access to the PIT and to the
    PM timer succeeds and keeps this. *)

From stdpp Require Import base list numbers.
From Stdlib Require Import ZArith Lia Bool.
From S2P Require Import Prelude Vpic HvmState Vlapic Vioapic HvmIrq VpicInv VpicOps.
From S2P Require Import VioapicInv VioapicOps HvmIrqOps HvmIrqRun.
From S2P Require Import VlapicRegs HvmLapic HvmIrqSystem Vpt VptOps VptLists VptSystem.
From S2P Require Import TimerDev PmTimer Hpet.

Open Scope Z_scope.
Open Scope se_scope.

(** ** Computations that succeed and keep a property *)

Definition holds {S A} (I : S -> Prop) (m : SE S A) : Prop := forall s, I s -> wp m (fun _ => I) s.

Section Holds.
Context {S : Type} (I : S -> Prop).

Lemma holds_ret {A} (a : A) : holds I (ret a).
Proof. by intros s Hs. Qed.
Lemma holds_bind {A B} (m : SE S A) (k : A -> SE S B) : holds I m -> (forall a, holds I (k a)) -> holds I (bind m k).
Proof. intros Hm Hk s Hs. apply wp_bind. eapply wp_mono; [by apply Hm|]. intros a s' Hs'. by apply Hk. Qed.
Lemma holds_when b m : holds I m -> holds I (when b m).
Proof. intros Hm. destruct b; [done|apply holds_ret]. Qed.
Lemma holds_gets {A} (f : S -> A) : holds I (gets f).
Proof. by intros s Hs. Qed.
Lemma holds_get {B} (k : S -> SE S B) : (forall s, I s -> holds I (k s)) -> holds I (bind get k).
Proof. intros Hk s Hs. apply wp_bind, wp_get. by apply Hk. Qed.
Lemma holds_read {A B} (f : S -> A) (k : A -> SE S B) : (forall s, I s -> holds I (k (f s))) -> holds I (bind (gets f) k).
Proof. intros Hk s Hs. apply wp_bind, wp_gets. by apply Hk. Qed.
Lemma holds_bug_if b : b = false -> holds I (bug_if b).
Proof. intros -> s Hs. by apply wp_bug_if. Qed.
Lemma holds_modify f : (forall s, I s -> I (f s)) -> holds I (modify f).
Proof. intros Hf s Hs. apply wp_modify. by apply Hf. Qed.
(** A computation with a result in [P], and the rest *)
Lemma holds_with {A B} (P : A -> Prop) (m : SE S A) (k : A -> SE S B) :
  (forall s, I s -> wp m (fun a s' => P a /\ I s') s) -> (forall a, P a -> holds I (k a)) -> holds I (bind m k).
Proof. intros Hm Hk s Hs. apply wp_bind. eapply wp_mono; [by apply Hm|]. intros a s' [Ha Hs']. by apply Hk. Qed.
End Holds.

(** ** The invariant *)

Record channel_ok (c : hvm_hw_pit_channel) : Prop := {
  co_count : 1 <= ch_count c <= 0x10000;
  co_latch : 0 <= write_latch c < 2 ^ 8;
  co_latched : 0 <= latched_count c < 2 ^ 16
}.

Record pit_shape (p : PITState) : Prop := {
  ps_channels : length (channels p) = 3%nat;
  ps_times : length (count_load_time p) = 3%nat
}.
Record pit_ok (p : PITState) : Prop := {
  pi_shape : pit_shape p;
  pi_channels : Forall channel_ok (channels p)
}.

Definition route_ok (t : hpet_timer) : Prop := 0 <= timer_int_route t <= 15.

(** The registers of the clock *)
Record rtc_ok (r : RTCState) : Prop := {
  ro_size : length (cmos_data r) = 14%nat;
  ro_bytes : Forall (fun x => 0 <= x < 2 ^ 8) (cmos_data r);
  ro_index : 0 <= cmos_index r < 2 ^ 7;
  ro_period : 0 <= rtc_period r
}.

(** The registers of the HPET, whose interrupts are ISA interrupts *)
Record hpet_shape (h : HPETState) : Prop := {
  hs_timers : length (hp_timers (hpet h)) = 3%nat;
  hs_period : length (hp_period (hpet h)) = 3%nat;
  hs_cmp : length (comparator64 (hpet h)) = 3%nat;
  hs_scale : hpet_to_ns_scale h = 16384;
  hs_limit : hpet_to_ns_limit h = (2 ^ 64 - 1) / 16384;
  hs_positive : Forall (fun p => 0 <= p) (hp_period (hpet h));
  hs_routes : Forall route_ok (hp_timers (hpet h));
  hs_32bit : forall tn t p, hp_timers (hpet h) !! tn = Some t -> timer_is_32bit t = true ->
    hp_period (hpet h) !! tn = Some p -> p < 2 ^ 32
}.

(** The timer behind an enabled comparator: it has been created, and it is
    periodic only with a period *)
Definition backed (tn : nat) (s : pldom) : Prop := exists b, created_as (hpet_pt tn) b (pl_v s) /\
  (b = false -> exists p, hp_period (hpet (pl_hpet s)) !! tn = Some p /\ 0 < p).
Definition live (tn : nat) (s : pldom) : Prop := hpet_enabled (hpet (pl_hpet s)) = true /\
  exists t, hp_timers (hpet (pl_hpet s)) !! tn = Some t /\ timer_enabled t = true.

Record pl_sound (n : Z) (s : pldom) : Prop := {
  pk_v : vpt_ok n (pl_v s);
  pk_n : 0 < n;
  pk_pit : pit_ok (pl_pit s);
  pk_pmt : exists v, pmt_vcpu (pl_pmt s) = Some v /\ 0 <= v < n;
  pk_hpet : hpet_shape (pl_hpet s);
  pk_rtc : rtc_ok (pl_rtc s)
}.
(** All enabled comparators but those of [l] have their timers. *)
Definition owes (l : list nat) (s : pldom) : Prop := forall tn, live tn s -> tn ∈ l \/ backed tn s.
Definition pl_ok (n : Z) (l : list nat) (s : pldom) : Prop := pl_sound n s /\ owes l s.

(** ** What the devices promise each other

    A property of the domain under which the guest's time can be read and the
    interrupt lines be driven; one that also survives the creation of timers
    other than the HPET's; one that covers the PIT, of which [P] holds; one
    that covers the PM timer; one that covers the clock, and not the wall clock. *)
Class TimerClient (n : Z) (I : pldom -> Prop) : Prop := {
  vc_v : forall s, I s -> vpt_ok n (pl_v s);
  vc_n : forall s, I s -> 0 < n;
  vc_quiet : forall s v, I s -> vpt_ok n v -> vs_pts v = vs_pts (pl_v s) -> I (set_pl_v v s)
}.
Class TimerOwner (n : Z) (I : pldom -> Prop) : Prop := {
  to_client :: TimerClient n I;
  to_vt : forall s v, I s -> vpt_ok n v ->
    (forall tn b, (tn < 3)%nat -> created_as (hpet_pt tn) b (pl_v s) -> created_as (hpet_pt tn) b v) -> I (set_pl_v v s)
}.
Class PitClient (P : PITState -> Prop) (I : pldom -> Prop) : Prop := {
  pc_pit : forall s, I s -> P (pl_pit s);
  pc_shape : forall p, P p -> pit_shape p;
  pc_set : forall s p, I s -> P p -> I (set_pl_pit p s)
}.
Class PmtClient (n : Z) (I : pldom -> Prop) : Prop := {
  mc_vcpu : forall s, I s -> exists v, pmt_vcpu (pl_pmt s) = Some v /\ 0 <= v < n;
  mc_set : forall s p, I s -> pmt_vcpu p = pmt_vcpu (pl_pmt s) -> I (set_pl_pmt p s)
}.

Class RtcClient (I : pldom -> Prop) : Prop := {
  rc_rtc : forall s, I s -> rtc_ok (pl_rtc s);
  rc_set : forall s r, I s -> rtc_ok r -> I (set_pl_rtc r s);
  rc_wall : forall s w, I s -> I (set_pl_wall w s)
}.

Lemma pl_ok_vt n l s v : pl_ok n l s -> vpt_ok n v ->
  (forall tn b, (tn < 3)%nat -> created_as (hpet_pt tn) b (pl_v s) -> created_as (hpet_pt tn) b v) -> pl_ok n l (set_pl_v v s).
Proof.
  intros [[H1 H2 H3 H4 H5 H6] Hb] Hv Hk. split; [by split|]. intros tn (He & t & Ht & Hen).
  destruct (Hb tn) as [Hl|(b & Hc & Hp)]; [by split; [|exists t]|by left|]. right. exists b. split; [|done]. apply Hk; [|done].
  apply lookup_lt_Some in Ht. cbn [pl_hpet set_pl_v] in Ht. by rewrite (hs_timers _ H5) in Ht.
Qed.
#[export] Instance pl_ok_timers n l : TimerOwner n (pl_ok n l).
Proof.
  split; [|apply pl_ok_vt]. split; [by intros s [[] _]|by intros s [[] _]|]. intros s v Hs Hv E. apply pl_ok_vt; [done|done|].
  intros tn b _ (pt & H). exists pt. by rewrite E.
Qed.
#[export] Instance pl_ok_pit n l : PitClient pit_ok (pl_ok n l).
Proof. split; [by intros s [[] _]|by intros p []|]. intros s p [[] Hb] Hp. by split; [split|]. Qed.
#[export] Instance pl_ok_pmt n l : PmtClient n (pl_ok n l).
Proof. split; [by intros s [[] _]|]. intros s p [[H1 H2 H3 H4 H5 H6] Hb] Hp. split; [|done]. split; try done. cbn. by rewrite Hp. Qed.
#[export] Instance pl_ok_rtc n l : RtcClient (pl_ok n l).
Proof. split; [by intros s [[] _]| |]; intros s x [[] Hb]; by split; [split|]. Qed.

Section Inv.
Context (clk : nat -> Z) (n : Z).

(** ** The target *)

Lemma target_range h : hw_sound n h -> 0 < n -> exists v, pt_global_vcpu_target h = Some v /\ 0 <= v < n.
Proof.
  intros [Hi _ Hf] Hn. unfold pt_global_vcpu_target. destruct (rf_pics _ _ Hf) as [_ Ht].
  destruct (i8259_target (h_pics h)) as [t|]; [exists t; auto|]. pose proof (rf_count _ _ Hf) as Hc.
  pose proof (hw_vcpus _ (iv_hw _ Hi)) as Hm.
  rewrite (proj2 (Z.eqb_neq (h_max_vcpus h) 0)), (proj2 (Z.eqb_neq (zlen (h_vcpus h)) 0)) by lia. exists 0. split; [done|lia].
Qed.

Lemma the_target_wp s (Q : Z -> pldom -> Prop) : vpt_ok n (pl_v s) -> 0 < n -> (forall v, 0 <= v < n -> Q v s) -> wp the_target Q s.
Proof.
  intros Hv Hn HQ. destruct (target_range _ (vo_hw _ _ Hv) Hn) as (v & E & Hr). unfold the_target.
  apply wp_bind, wp_get. rewrite E. apply wp_ret. by apply HQ.
Qed.

Section Timers.
Context (I : pldom -> Prop) `{HT : !TimerClient n I}.

(** ** Computations on the timers *)

(** A computation that does not change the timers *)
Definition quiet {A} (m : SE vst A) : Prop := forall p, preserves (fun s => vs_pts s = p) m.
Lemma quiet_NOW : quiet (NOW clk).
Proof. intros p s Hs. done. Qed.
Lemma quiet_hw {A} (m : SE hdom A) : quiet (hw m).
Proof. intros p s Hs. unfold hw, zoom. by destruct (m (vs_hw s)). Qed.
Lemma quiet_time v : quiet (hvm_get_guest_time clk v).
Proof.
  intros p. unfold hvm_get_guest_time, the_tm. apply preserves_bind; [apply quiet_NOW|]. intros t. cbv zeta. apply preserves_bind; [apply preserves_get|].
  intros s. apply preserves_bind; [by apply preserves_modify|]. intros _. se_keep.
Qed.
Lemma quiet_pit_active : quiet pit_active.
Proof. intros p. unfold pit_active, the_pt. se_keep. Qed.

Lemma timers_quiet_ok {A} (m : SE vst A) : (forall v, vpt_ok n v -> wp m (fun _ => vpt_ok n) v) -> quiet m -> holds I (vt m).
Proof.
  intros Hm Hq s Hs. apply wp_zoom. specialize (Hm _ (vc_v s Hs)). pose proof (Hq _ (pl_v s) eq_refl) as E. unfold wp in *.
  destruct (m (pl_v s)) as [v [a| |]]; [|done|done]. by apply vc_quiet.
Qed.

Lemma time_ok v : 0 <= v < n -> holds I (get_guest_time clk v).
Proof.
  intros Hv. apply timers_quiet_ok; [|apply quiet_time]. intros s Hs. apply tgood_keeps; [|done]. intros s0. by apply tgood_get_time.
Qed.
Lemma NOW_ok : holds I (vt (NOW clk)).
Proof. apply timers_quiet_ok; [|apply quiet_NOW]. intros s Hs. apply tgood_keeps; [|done]. intros s0. apply tgood_NOW. Qed.
Lemma target_ok {B} (k : Z -> SE pldom B) : (forall v, 0 <= v < n -> holds I (k v)) -> holds I (bind the_target k).
Proof. intros Hk s Hs. apply wp_bind, the_target_wp; [apply (vc_v s Hs)|apply (vc_n s Hs)|]. intros v Hv. by apply Hk. Qed.

Section Owner.
Context `{HO : !TimerOwner n I}.

Lemma vt_at {A} (m : SE vst A) s : I s -> wp m (fun _ => vpt_ok n) (pl_v s) ->
  (forall tn b, (tn < 3)%nat -> preserves (created_as (hpet_pt tn) b) m) -> wp (vt m) (fun _ => I) s.
Proof.
  intros Hs Hm Hown. apply wp_zoom. unfold wp in *.
  assert (forall tn b, (tn < 3)%nat -> created_as (hpet_pt tn) b (pl_v s) -> created_as (hpet_pt tn) b (fst (m (pl_v s)))) as Hk
    by (intros tn b Htn; by apply Hown).
  destruct (m (pl_v s)) as [v [a| |]]; [|done|done]. by apply to_vt.
Qed.
Lemma vt_ok {A} (m : SE vst A) : (forall v, vpt_ok n v -> wp m (fun _ => vpt_ok n) v) ->
  (forall tn b, (tn < 3)%nat -> preserves (created_as (hpet_pt tn) b) m) -> holds I (vt m).
Proof. intros Hm Hown s Hs. apply vt_at; [done| |done]. apply Hm, (vc_v s Hs). Qed.

Lemma create_ok v id delta p irq cb : 0 <= v < n -> (id < 5 + Z.to_nat n)%nat -> 0 <= p ->
  0 <= irq <= (if (id <? 5)%nat then 15 else 255) -> (forall tn, (tn < 3)%nat -> id <> hpet_pt tn) ->
  holds I (vt (create_periodic_time clk v id delta p irq cb)).
Proof.
  intros Hv Hid Hp Hirq Hne. apply vt_ok.
  - intros s Hs. eapply wp_mono; [by apply create_wp|]. by intros [] s' [H _].
  - intros tn b Htn. apply create_owner. by apply Hne.
Qed.
Lemma destroy_ok id : (id < 5 + Z.to_nat n)%nat -> holds I (vt (destroy_periodic_time id)).
Proof.
  intros Hid. apply vt_ok; [|intros; apply (destroy_owner clk)]. intros s Hs. eapply wp_mono; [by apply destroy_wp|]. by intros [] s' [H _].
Qed.

End Owner.

(** ** The PIT: storing *)

Section Store.
Context (P : PITState -> Prop) `{HP : !PitClient P I}.

Lemma on_pit_ok f : (forall p, P p -> P (f p)) -> holds I (on_pit f).
Proof. intros Hf. apply holds_modify. intros s Hs. apply (pc_set s); [done|]. by apply Hf, pc_pit. Qed.

Lemma channel_wp i s (Q : hvm_hw_pit_channel -> pldom -> Prop) : pit_shape (pl_pit s) -> 0 <= i < 3 ->
  (forall c, channels (pl_pit s) !! Z.to_nat i = Some c -> Q c s) -> wp (the_channel i) Q s.
Proof.
  intros Hs Hi HQ. destruct (lookup_lt_is_Some_2 (channels (pl_pit s)) (Z.to_nat i)) as [c Hc]; [rewrite (ps_channels _ Hs); lia|].
  unfold the_channel. apply wp_bind, wp_get. rewrite Hc. apply wp_bind, wp_bug_if; [apply Z.ltb_ge; lia|]. apply wp_ret. by apply HQ.
Qed.
Lemma load_time_wp i s (Q : Z -> pldom -> Prop) : pit_shape (pl_pit s) -> 0 <= i < 3 ->
  (forall t, count_load_time (pl_pit s) !! Z.to_nat i = Some t -> Q t s) -> wp (the_load_time i) Q s.
Proof.
  intros Hs Hi HQ. destruct (lookup_lt_is_Some_2 (count_load_time (pl_pit s)) (Z.to_nat i)) as [t Ht]; [rewrite (ps_times _ Hs); lia|].
  unfold the_load_time. apply wp_bind, wp_get. rewrite Ht. apply wp_bind, wp_bug_if; [apply Z.ltb_ge; lia|]. apply wp_ret. by apply HQ.
Qed.
Lemma any_channel {B} i (k : hvm_hw_pit_channel -> SE pldom B) : 0 <= i < 3 -> (forall c, holds I (k c)) ->
  holds I (bind (the_channel i) k).
Proof. intros Hi Hk s Hs. apply wp_bind, channel_wp; [by apply pc_shape, pc_pit|done|]. intros c Hc. by apply Hk. Qed.
Lemma with_load_time {B} i (k : Z -> SE pldom B) : 0 <= i < 3 -> (forall t, holds I (k t)) ->
  holds I (bind (the_load_time i) k).
Proof. intros Hi Hk s Hs. apply wp_bind, load_time_wp; [by apply pc_shape, pc_pit|done|]. intros t Ht. by apply Hk. Qed.

Lemma pit_period_range val : 0 <= val <= 0x10000 -> 0 <= pit_period val.
Proof. intros Hv. unfold pit_period. apply Z.mod_pos_bound. lia. Qed.

(** The timer behind channel 0 *)
Lemma pit_timer_ok `{HO : !TimerOwner n I} i val v : 0 <= i < 3 -> 1 <= val <= 0x10000 -> 0 <= v < n -> holds I (load_timer clk i val v).
Proof.
  intros Hi Hx Hv. unfold load_timer. cbv zeta. destruct (negb (i =? 0)); [apply holds_ret|].
  apply any_channel; [done|]. intros c. pose proof (pit_period_range val ltac:(lia)).
  assert (forall tn, (tn < 3)%nat -> PIT_TIMER <> hpet_pt tn) as Hne by (intros tn _; unfold PIT_TIMER, hpet_pt; lia).
  assert (PIT_TIMER < 5 + Z.to_nat n)%nat as Hid by (unfold PIT_TIMER; lia).
  repeat case_match; [apply create_ok; (done || cbn; lia)..|by apply destroy_ok].
Qed.
End Store.

(** ** The PIT: accesses *)

Section Pit.
Context `{HP : !PitClient pit_ok I} `{HO : !TimerOwner n I}.

Lemma upd_channel_ok i f : (forall c, channel_ok c -> channel_ok (f c)) -> holds I (upd_channel i f).
Proof.
  intros Hf. apply (on_pit_ok pit_ok). intros p [[H1 H2] H3]. split; [split; [by cbn; rewrite length_alter|done]|].
  apply Forall_alter; [done|]. intros c _. apply Hf.
Qed.
Lemma set_load_time_ok i t : holds I (set_load_time i t).
Proof. apply (on_pit_ok pit_ok). intros p [[H1 H2] H3]. split; [split; [done|by cbn; rewrite length_insert]|done]. Qed.
Lemma set_speaker_ok x : holds I (set_speaker x).
Proof. apply (on_pit_ok pit_ok). intros p [[H1 H2] H3]. by split; [split|]. Qed.

Lemma with_channel {B} i (k : hvm_hw_pit_channel -> SE pldom B) : 0 <= i < 3 ->
  (forall c, channel_ok c -> holds I (k c)) -> holds I (bind (the_channel i) k).
Proof.
  intros Hi Hk s Hs. pose proof (pc_pit s Hs) as Hp. apply wp_bind, channel_wp; [by apply pi_shape|done|]. intros c Hc. apply Hk; [|done].
  exact (Forall_lookup_1 _ _ _ _ (pi_channels _ Hp) Hc).
Qed.

Lemma muldiv_bound a : 0 <= a < 2 ^ 64 -> 0 <= a * PIT_FREQ / SYSTEM_TIME_HZ < 2 ^ 64.
Proof. intros Ha. unfold PIT_FREQ, SYSTEM_TIME_HZ. split; [apply Z.div_pos; lia|]. apply Z.div_lt_upper_bound; lia. Qed.

Lemma u64_range' x : 0 <= u64 x < 2 ^ 64.
Proof. apply Z.mod_pos_bound. lia. Qed.

Lemma elapsed_ok {B} i (k : Z -> SE pldom B) : 0 <= i < 3 -> (forall d, 0 <= d < 2 ^ 64 -> holds I (k d)) ->
  holds I (bind (pit_elapsed clk i) k).
Proof.
  intros Hi Hk. apply (holds_with _ (fun d => 0 <= d < 2 ^ 64)); [|done]. intros s Hs. unfold pit_elapsed.
  apply wp_bind, the_target_wp; [apply (vc_v s Hs)|apply (vc_n s Hs)|]. intros v Hv. apply wp_bind.
  eapply wp_mono; [by apply (time_ok v)|]. intros t s1 Hs1. apply wp_bind, load_time_wp; [by apply pi_shape, (pc_pit s1)|done|]. intros t0 _.
  pose proof (muldiv_bound _ (u64_range' (t - t0))) as Hb. unfold muldiv64. apply wp_bind, wp_bug_if.
  - apply orb_false_iff. split; [done|]. apply Z.leb_gt, Hb.
  - by apply wp_ret.
Qed.

Lemma get_count_ok {B} i (k : Z -> SE pldom B) : 0 <= i < 3 -> (forall x, holds I (k x)) ->
  holds I (bind (pit_get_count clk i) k).
Proof.
  intros Hi Hk. apply holds_bind; [|done]. apply with_channel; [done|]. intros c Hc. apply elapsed_ok; [done|]. intros d _.
  apply holds_bind; [|intros; apply holds_ret]. apply holds_bug_if. destruct Hc.
  rewrite (proj2 (Z.eqb_neq (ch_count c) 0)) by lia. apply andb_false_r.
Qed.
Lemma get_out_ok {B} i (k : bool -> SE pldom B) : 0 <= i < 3 -> (forall x, holds I (k x)) ->
  holds I (bind (pit_get_out clk i) k).
Proof.
  intros Hi Hk. apply holds_bind; [|done]. apply with_channel; [done|]. intros c Hc. apply elapsed_ok; [done|]. intros d _.
  apply holds_bind; [|intros; apply holds_ret]. apply holds_bug_if. destruct Hc.
  rewrite (proj2 (Z.eqb_neq (ch_count c) 0)) by lia. apply andb_false_r.
Qed.

Lemma latch_count_ok i : 0 <= i < 3 -> holds I (pit_latch_count clk i).
Proof.
  intros Hi. apply with_channel; [done|]. intros c Hc. apply holds_when, get_count_ok; [done|]. intros x.
  apply upd_channel_ok. intros c' []. split; [done|done|]. apply Z.mod_pos_bound. lia.
Qed.
Lemma latch_status_ok i : 0 <= i < 3 -> holds I (pit_latch_status clk i).
Proof.
  intros Hi. apply with_channel; [done|]. intros c Hc. apply holds_when, get_out_ok; [done|]. intros x.
  apply upd_channel_ok. by intros c' [].
Qed.
Lemma read_back_ok k : forall i val, 0 <= i -> i + Z.of_nat k <= 3 -> holds I (read_back clk k i val).
Proof.
  induction k as [|k IH]; intros i val Hi Hk; cbn [read_back]; [apply holds_ret|]. apply holds_bind; [|intros _; apply IH; lia].
  apply holds_when, holds_bind; [by apply holds_when, latch_count_ok; lia|]. intros _. by apply holds_when, latch_status_ok; lia.
Qed.

Lemma load_count_ok i val : 0 <= i < 3 -> 0 <= val <= 0x10000 -> holds I (pit_load_count clk i val).
Proof.
  intros Hi Hval. unfold pit_load_count. cbv zeta. set (x := if val =? 0 then 0x10000 else val).
  assert (1 <= x <= 0x10000) as Hx by (unfold x; destruct (Z.eqb_spec val 0); lia).
  apply with_channel; [done|]. intros _ _. apply (with_load_time pit_ok); [done|]. intros _. apply holds_get. intros s Hs.
  destruct (target_range _ (vo_hw _ _ (vc_v s Hs)) (vc_n s Hs)) as (v & -> & Hv).
  apply holds_bind; [by apply time_ok|]. intros t. apply holds_bind; [apply set_load_time_ok|]. intros _.
  apply holds_bind; [by apply upd_channel_ok; intros c []|]. intros _. by apply (pit_timer_ok pit_ok).
Qed.

Lemma land_3 x : 0 <= Z.land x 3 < 4.
Proof. change 3 with (Z.ones 2). rewrite Z.land_ones by lia. apply Z.mod_pos_bound. lia. Qed.
Lemma land_255 x : 0 <= Z.land x 0xff < 2 ^ 8.
Proof. change 0xff with (Z.ones 8). rewrite Z.land_ones by lia. apply Z.mod_pos_bound. lia. Qed.

Lemma below_bits x k : 0 <= k -> 0 <= x -> (forall i, k <= i -> Z.testbit x i = false) -> x < 2 ^ k.
Proof.
  intros Hk Hx Hb. destruct (Z.eq_dec x 0) as [->|Hz]; [apply Z.pow_pos_nonneg; lia|]. apply Z.log2_lt_pow2; [lia|].
  destruct (Z.lt_ge_cases (Z.log2 x) k) as [|Hge]; [done|]. pose proof (Z.bit_log2 x ltac:(lia)) as H. by rewrite Hb in H.
Qed.
Lemma small_bit a k i : 0 <= a < 2 ^ k -> k <= i -> Z.testbit a i = false.
Proof.
  intros Ha Hi. destruct (Z.le_gt_cases 0 k) as [Hk|Hk]; [|rewrite Z.pow_neg_r in Ha; lia].
  rewrite <- (Z.mod_small a (2 ^ k)) by done. by apply Z.mod_pow2_bits_high.
Qed.
Lemma lor_below a b k : 0 <= k -> 0 <= a < 2 ^ k -> 0 <= b < 2 ^ k -> 0 <= Z.lor a b < 2 ^ k.
Proof.
  intros Hk Ha Hb. split; [apply Z.lor_nonneg; lia|]. apply below_bits; [done|apply Z.lor_nonneg; lia|]. intros i Hi.
  by rewrite Z.lor_spec, (small_bit a k), (small_bit b k).
Qed.

Lemma pit_write_ok addr val : holds I (pit_ioport_write clk addr val).
Proof.
  unfold pit_ioport_write. cbv zeta. pose proof (land_3 addr) as Ha. pose proof (land_255 val) as Hv.
  set (a := Z.land addr 3) in *. set (x := Z.land val 0xff) in *. clearbody a x.
  assert (0 <= Z.shiftr x 6 < 4) as Hc by (rewrite Z.shiftr_div_pow2 by lia; change (2 ^ 6) with 64; zlia).
  destruct (Z.eqb_spec a 3) as [->|Hne].
  - destruct (Z.eqb_spec (Z.shiftr x 6) 3); [apply read_back_ok; lia|]. destruct (_ =? 0); [apply latch_count_ok; lia|].
    apply with_channel; [lia|]. intros _ _. apply upd_channel_ok. by intros c [].
  - apply with_channel; [lia|]. intros c Hco.
    assert (0 <= Z.shiftl x 8 <= 0xff00) as Hsh by (rewrite Z.shiftl_mul_pow2 by lia; lia).
    destruct (_ =? RW_STATE_MSB); [apply load_count_ok; lia|].
    destruct (_ =? RW_STATE_WORD0); [by apply upd_channel_ok; intros c' []|].
    destruct (_ =? RW_STATE_WORD1); [|apply load_count_ok; lia].
    apply holds_bind; [apply load_count_ok; [lia|]|intros _; by apply upd_channel_ok; intros c' []].
    destruct Hco as [_ Hl _]. pose proof (lor_below (write_latch c) (Z.shiftl x 8) 16). lia.
Qed.
Lemma pit_read_ok addr : Z.land addr 3 <> 3 -> holds I (pit_ioport_read clk addr).
Proof.
  intros Hne. unfold pit_ioport_read. cbv zeta. pose proof (land_3 addr) as Ha. set (a := Z.land addr 3) in *. clearbody a.
  assert (forall f (x : Z), (forall c, channel_ok c -> channel_ok (f c)) -> holds I (upd_channel a f;; ret x)) as Hupd.
  { intros f x Hf. apply holds_bind; [by apply upd_channel_ok|]. intros _. apply holds_ret. }
  apply with_channel; [lia|]. intros c Hc. destruct (status_latched c); [by apply Hupd; intros c' []|].
  destruct (negb (count_latched c =? 0)).
  - destruct Hc as [_ _ Hl]. repeat case_match; apply Hupd; intros c' []; by split.
  - apply get_count_ok; [lia|]. intros x. repeat case_match; try apply holds_ret; apply Hupd; by intros c' [].
Qed.

Lemma set_gate_ok i val : 0 <= i < 3 -> holds I (pit_set_gate clk i val).
Proof.
  intros Hi. apply with_channel; [done|]. intros c Hc. apply holds_bind; [|intros _; by apply upd_channel_ok; intros c' []].
  apply holds_when, target_ok. intros v Hv. apply holds_bind; [by apply time_ok|]. intros t. apply set_load_time_ok.
Qed.
Lemma time_fired_ok v : 0 <= v < n -> holds I (pit_time_fired clk v).
Proof. intros Hv. apply holds_bind; [by apply time_ok|]. intros t. apply set_load_time_ok. Qed.

Lemma pit_io_ok w port bytes val : holds I (handle_pit_io clk w port bytes val).
Proof.
  unfold handle_pit_io. destruct (negb (bytes =? 1)); [apply holds_ret|]. destruct w.
  - apply holds_bind; [apply pit_write_ok|]. intros _. apply holds_ret.
  - destruct (Z.eqb_spec (Z.land port 3) 3); [apply holds_ret|]. apply holds_bind; [by apply pit_read_ok|]. intros r. apply holds_ret.
Qed.
Lemma speaker_ok w val : holds I (handle_speaker_io clk w 1 val).
Proof.
  unfold handle_speaker_io. apply holds_bind; [by apply holds_bug_if|]. intros _. destruct w.
  - apply holds_bind; [|intros _; apply holds_ret]. apply holds_bind; [apply set_speaker_ok|]. intros _. apply set_gate_ok. lia.
  - apply holds_bind; [|intros r; apply holds_ret]. apply holds_bind; [apply NOW_ok|]. intros now. cbv zeta.
    apply holds_get. intros s Hs. apply holds_bind; [|intros gate; apply get_out_ok; [lia|]; intros out; apply holds_ret].
    apply with_channel; [lia|]. intros c Hc. apply holds_ret.
Qed.

End Pit.

(** ** The PM timer *)

Section Pmt.
Context `{HM : !PmtClient n I}.

Lemma on_pmt_ok f : (forall p, pmt_vcpu (f p) = pmt_vcpu p) -> holds I (on_pmt f).
Proof. intros Hf. apply holds_modify. intros s Hs. by apply (mc_set s). Qed.

Lemma pmt_vcpu_ok {B} (k : Z -> SE pldom B) : (forall v, 0 <= v < n -> holds I (k v)) -> holds I (bind pmt_the_vcpu k).
Proof.
  intros Hk s Hs. destruct (mc_vcpu s Hs) as (v & E & Hv). apply wp_bind. unfold pmt_the_vcpu. apply wp_bind, wp_get.
  rewrite E. apply wp_ret. by apply Hk.
Qed.

Lemma isa_line_ok m irq : (m = hvm_isa_irq_deassert irq \/ exists b, m = hvm_isa_irq_assert b irq) -> 0 <= irq <= 15 ->
  forall s, vpt_ok n s -> wp (hw m) (fun _ => vpt_ok n) s.
Proof.
  intros Hm Hi s Hs. apply wp_zoom. pose proof (vo_hw _ _ Hs) as Hh. destruct Hm as [->|[b ->]].
  - eapply wp_mono; [apply (any_hop_sound n false (HIsaDeassert irq)); done|]. intros [] h H. by apply ok_hw.
  - eapply wp_mono; [apply (any_hop_sound n b (HIsaAssert irq)); done|]. intros [] h H. by apply ok_hw.
Qed.

Lemma sci_ok : holds I pmt_update_sci.
Proof.
  apply holds_bind; [apply holds_gets|]. intros p. apply pmt_vcpu_ok. intros _ _. destruct (sci_wanted p).
  - apply timers_quiet_ok.
    + intros s Hs. apply wp_bind, wp_bind, (the_pt_wp n); [done|lia|]. intros pt _ _. apply wp_ret.
      apply (isa_line_ok _ SCI_IRQ); [by right; eexists|done|done].
    + intros p'. apply preserves_bind; [apply quiet_pit_active|]. intros x. apply quiet_hw.
  - apply timers_quiet_ok; [|apply quiet_hw]. apply (isa_line_ok _ SCI_IRQ); [by left|done].
Qed.

Lemma update_time_ok : holds I (pmt_update_time clk).
Proof.
  apply holds_bind; [apply holds_gets|]. intros p. apply pmt_vcpu_ok. intros v Hv. apply holds_bind; [by apply time_ok|].
  intros t. cbv zeta. apply holds_bind; [by apply on_pmt_ok|]. intros _. apply holds_when, holds_bind; [by apply on_pmt_ok|].
  intros _. apply sci_ok.
Qed.
Lemma pmt_callback_ok : holds I (pmt_timer_callback clk).
Proof.
  apply holds_bind; [apply update_time_ok|]. intros _. apply holds_bind; [apply holds_gets|]. intros p.
  apply holds_bind; [apply NOW_ok|]. intros now. by apply on_pmt_ok.
Qed.
Lemma evt_write_vcpu k : forall addr data p, pmt_vcpu (evt_write k addr data p) = pmt_vcpu p.
Proof. induction k as [|k IH]; intros addr data p; cbn [evt_write]; [done|]. rewrite IH. unfold evt_write_byte. by repeat case_match. Qed.
Lemma evt_io_ok v1 w port bytes val : holds I (handle_evt_io v1 w port bytes val).
Proof.
  unfold handle_evt_io. cbv zeta. destruct w.
  - apply holds_bind; [apply on_pmt_ok; apply evt_write_vcpu|]. intros _. apply holds_bind; [apply sci_ok|]. intros _. apply holds_ret.
  - apply holds_bind; [apply holds_gets|]. intros p. apply holds_ret.
Qed.
Lemma pmt_io_ok locked w port bytes : holds I (handle_pmt_io clk locked w port bytes).
Proof.
  unfold handle_pmt_io. cbv zeta. repeat (case_match; [apply holds_ret|]). apply holds_bind; [apply holds_when, update_time_ok|].
  intros _. apply holds_bind; [apply holds_gets|]. intros p. apply holds_ret.
Qed.
Lemma buttons_ok : holds I hvm_acpi_power_button /\ holds I hvm_acpi_sleep_button.
Proof. split; (apply holds_bind; [by apply on_pmt_ok|]; intros _; apply sci_ok). Qed.
End Pmt.
End Timers.
End Inv.
