(* ===== verification/HpetRegs.v ===== *)
(** * The HPET: every access succeeds

    A guest that leaves the interrupts of the comparators at ISA interrupts and
    sets periods that are not zero cannot make an access to the HPET fail, and
    every enabled comparator keeps its timer. *)

From stdpp Require Import base list numbers.
From Stdlib Require Import ZArith Lia Bool.
From S2P Require Import Prelude Vpic VpicInv VpicOps HvmState Vlapic Vioapic HvmIrq VioapicInv.
From S2P Require Import VioapicOps HvmIrqOps HvmIrqRun VlapicRegs HvmLapic HvmIrqSystem Vpt VptOps.
From S2P Require Import VptLists VptSystem TimerDev PmTimer Hpet TimerDevInv.

Open Scope Z_scope.
Open Scope se_scope.

(** ** What decides which timers run *)

Definition configs (r : hpet_registers) : list Z := tn_config <$> hp_timers r.
Definition same_view (r r' : hpet_registers) : Prop :=
  hp_config r' = hp_config r /\ hp_period r' = hp_period r /\ configs r' = configs r /\
  length (comparator64 r') = length (comparator64 r).

Lemma view_lookup r r' tn t' : same_view r r' -> hp_timers r' !! tn = Some t' ->
  exists t, hp_timers r !! tn = Some t /\ tn_config t = tn_config t'.
Proof.
  intros (_ & _ & Hc & _) Ht. assert (configs r !! tn = Some (tn_config t')) as H.
  { rewrite <- Hc. unfold configs. by rewrite list_lookup_fmap, Ht. }
  unfold configs in H. rewrite list_lookup_fmap in H. apply fmap_Some in H as (t & Ht' & E). eauto.
Qed.

Lemma same_view_sym r r' : same_view r r' -> same_view r' r.
Proof. intros (H1 & H2 & H3 & H4). by repeat split. Qed.

Lemma view_shape h h' : same_view (hpet h) (hpet h') -> hpet_to_ns_scale h' = hpet_to_ns_scale h ->
  hpet_to_ns_limit h' = hpet_to_ns_limit h -> hpet_shape h -> hpet_shape h'.
Proof.
  intros Hv E1 E2 [A1 A2 A3 A4 A5 A6 A7 A8]. pose proof Hv as (V1 & V2 & V3 & V4). split; try congruence.
  - rewrite <- A1. rewrite <- (length_fmap tn_config (hp_timers (hpet h))), <- (length_fmap tn_config). by f_equal.
  - apply Forall_lookup_2. intros tn t' Ht'. destruct (view_lookup _ _ _ _ Hv Ht') as (t & Ht & E).
    pose proof (Forall_lookup_1 _ _ _ _ A7 Ht) as H. unfold route_ok, timer_int_route in *. by rewrite <- E.
  - intros tn t' p Ht' H32 Hp. destruct (view_lookup _ _ _ _ Hv Ht') as (t & Ht & E). rewrite V2 in Hp.
    apply (A8 tn t p); [done| |done]. unfold timer_is_32bit in *. by rewrite E.
Qed.

Lemma view_live s s' tn : same_view (hpet (pl_hpet s)) (hpet (pl_hpet s')) -> live tn s' -> live tn s.
Proof.
  intros Hv (He & t' & Ht' & Hen). destruct (view_lookup _ _ _ _ Hv Ht') as (t & Ht & E). split.
  - unfold hpet_enabled in *. by rewrite <- (proj1 Hv).
  - exists t. split; [done|]. unfold timer_enabled in *. by rewrite E.
Qed.

Lemma alter_configs f tn r : (forall t, tn_config (f t) = tn_config t) -> tn_config <$> alter f tn (hp_timers r) = configs r.
Proof.
  intros Hf. unfold configs. apply list_eq. intros i. rewrite !list_lookup_fmap, list_lookup_alter. case_decide; [|done].
  subst i. destruct (hp_timers r !! tn); [|done]. cbn. by rewrite Hf.
Qed.

Lemma view_cmp tn x r : same_view r (upd_htimer tn (set_tn_cmp x) r).
Proof. repeat split. by apply alter_configs. Qed.
Lemma view_fsb tn x r : same_view r (upd_htimer tn (set_tn_fsb x) r).
Proof. repeat split. by apply alter_configs. Qed.
Lemma view_comparator tn x r : same_view r (set_comparator tn x r).
Proof. repeat split. apply length_insert. Qed.
Lemma view_mc64 x r : same_view r (set_mc64 x r).
Proof. by repeat split. Qed.

Section Inv.
Context (clk : nat -> Z) (n : Z).

Section Owing.
Context (l : list nat).

Lemma on_hregs_ok f : (forall h, hpet_shape h -> same_view (hpet h) (f (hpet h))) -> holds (pl_ok n l) (on_hregs f).
Proof.
  intros Hf. apply holds_modify. intros s [[H1 H2 H3 H4 H5] Hb]. split.
  - split; try done. cbn. apply (view_shape (pl_hpet s)); [by apply Hf|done..].
  - intros tn Hl. apply (view_live s) in Hl; [|by apply Hf]. destruct (Hb tn Hl) as [|(b & Hc & Hp)]; [by left|]. right.
    exists b. split; [done|]. intros E. destruct (Hp E) as (p & Hp1 & Hp2). exists p. split; [|done]. cbn. destruct (Hf (pl_hpet s) H5) as (_ & -> & _).
    done.
Qed.
Lemma set_mc_offset_ok x : holds (pl_ok n l) (set_mc_offset x).
Proof.
  apply holds_modify. intros s [[H1 H2 H3 H4 H5] Hb]. split; [|done]. split; try done. destruct H5. by split.
Qed.

Lemma at_tn_ok {A B} (v : list A) tn (k : A -> SE pldom B) : (tn < length v)%nat ->
  (forall x, v !! tn = Some x -> holds (pl_ok n l) (k x)) -> holds (pl_ok n l) (bind (at_tn v tn) k).
Proof.
  intros Htn Hk s Hs. destruct (lookup_lt_is_Some_2 v tn Htn) as [x Hx]. apply wp_bind. unfold at_tn. rewrite Hx. apply wp_ret.
  by apply Hk.
Qed.
Lemma htimer_ok {B} tn (k : hpet_timer -> SE pldom B) : (tn < 3)%nat ->
  (forall t, route_ok t -> holds (pl_ok n l) (k t)) -> holds (pl_ok n l) (bind (the_htimer tn) k).
Proof.
  intros Htn Hk s Hs. pose proof (pk_hpet _ _ (proj1 Hs)) as Hh.
  destruct (lookup_lt_is_Some_2 (hp_timers (hpet (pl_hpet s))) tn) as [t Ht]; [rewrite (hs_timers _ Hh); lia|].
  apply wp_bind. unfold the_htimer. apply wp_bind, wp_gets. unfold at_tn. rewrite Ht. apply wp_ret. apply Hk; [|done].
  exact (Forall_lookup_1 _ _ _ _ (hs_routes _ Hh) Ht).
Qed.

Lemma hpet_time_ok : holds (pl_ok n l) (guest_time_hpet clk).
Proof. apply (target_ok n (pl_ok n l)). intros v Hv. apply holds_bind; [by apply (time_ok clk n (pl_ok n l))|]. intros t. apply holds_ret. Qed.
Lemma maincounter_ok : holds (pl_ok n l) (hpet_read_maincounter clk).
Proof.
  apply holds_bind; [apply holds_gets|]. intros r. destruct (hpet_enabled r); [|apply holds_ret].
  apply holds_bind; [apply hpet_time_ok|]. intros t. apply holds_bind; [apply holds_gets|]. intros h. apply holds_ret.
Qed.
Lemma comparator_ok tn : (tn < 3)%nat -> holds (pl_ok n l) (hpet_get_comparator clk tn).
Proof.
  intros Htn. apply holds_read. intros s Hs. pose proof (pk_hpet _ _ (proj1 Hs)) as Hh.
  apply at_tn_ok; [rewrite (hs_cmp _ Hh); lia|]. intros c _. apply htimer_ok; [done|]. intros t _.
  apply at_tn_ok; [rewrite (hs_period _ Hh); lia|]. intros p _. apply holds_bind.
  - destruct (_ && _); [|apply holds_ret]. apply holds_bind; [apply maincounter_ok|]. intros now. cbv zeta.
    apply holds_bind; [apply on_hregs_ok; intros h _; apply view_comparator|]. intros _. apply holds_ret.
  - intros c'. cbv zeta. apply holds_bind; [apply on_hregs_ok; intros h _; apply view_cmp|]. intros _. apply holds_ret.
Qed.

Lemma pit_stop_ok : holds (pl_ok n l) pit_stop_channel0_irq.
Proof. apply (destroy_ok clk n (pl_ok n l)). unfold PIT_TIMER. lia. Qed.
Lemma hpet_stop_ok tn : (tn < 3)%nat -> holds (pl_ok n l) (hpet_stop_timer clk tn).
Proof.
  intros Htn. apply holds_bind; [apply holds_bug_if, Nat.leb_gt; unfold HPET_TIMER_NUM; lia|]. intros _.
  apply holds_bind; [apply (destroy_ok clk n (pl_ok n l)); unfold hpet_pt; lia|]. intros _.
  apply holds_bind; [by apply comparator_ok|]. intros c. apply holds_ret.
Qed.

(** The number of the comparator of a register *)
Lemma tn_in_range addr base : (addr = base \/ addr = base + 0x20 \/ addr = base + 0x40) -> (tn_of addr base < 3)%nat.
Proof.
  intros Ha. unfold tn_of. rewrite Z.shiftr_div_pow2 by lia. destruct Ha as [->|[->| ->]].
  - replace (base - base) with 0 by lia. by apply Nat.ltb_lt.
  - replace (base + 0x20 - base) with 0x20 by lia. by apply Nat.ltb_lt.
  - replace (base + 0x40 - base) with 0x40 by lia. by apply Nat.ltb_lt.
Qed.
Lemma one_of_three addr b : (addr =? b) || (addr =? b + 0x20) || (addr =? b + 0x40) = true ->
  addr = b \/ addr = b + 0x20 \/ addr = b + 0x40.
Proof. rewrite !orb_true_iff, !Z.eqb_eq. tauto. Qed.

Lemma read64_ok addr : holds (pl_ok n l) (hpet_read64 clk addr).
Proof.
  unfold hpet_read64. cbv zeta. set (a := Z.ldiff addr 7). clearbody a. apply holds_bind; [apply holds_gets|]. intros r.
  destruct (a =? HPET_ID); [apply holds_ret|]. destruct (a =? HPET_CFG); [apply holds_ret|].
  destruct (a =? HPET_STATUS); [apply holds_ret|]. destruct (a =? HPET_COUNTER); [apply maincounter_ok|].
  destruct ((a =? HPET_T0_CFG) || _ || _) eqn:E1; [apply htimer_ok; [by apply tn_in_range, one_of_three|intros; apply holds_ret]|].
  destruct ((a =? HPET_T0_CMP) || _ || _) eqn:E2; [by apply comparator_ok, tn_in_range, one_of_three|].
  destruct ((a =? HPET_T0_ROUTE) || _ || _) eqn:E3; [|apply holds_ret].
  apply htimer_ok; [by apply tn_in_range, one_of_three|intros; apply holds_ret].
Qed.
Lemma hpet_read_ok addr len : holds (pl_ok n l) (hpet_read clk addr len).
Proof.
  unfold hpet_read. cbv zeta. destruct (negb _); [apply holds_ret|]. apply holds_bind; [apply read64_ok|]. intros v. apply holds_ret.
Qed.
End Owing.
End Inv.

(** * The HPET: writes

    A write to a register of the HPET stops, starts and updates the timers behind
    the comparators; afterwards every enabled comparator has its timer. *)

(** ** Ticks and nanoseconds *)

Lemma tick_zero h : hpet_shape h -> hpet_tick_to_ns h 0 = 0.
Proof. intros Hh. unfold hpet_tick_to_ns. rewrite (hs_limit _ Hh), Z.mul_0_l. reflexivity. Qed.
Lemma tick_nonneg h x : 0 <= hpet_tick_to_ns h x.
Proof. unfold hpet_tick_to_ns. apply Z.shiftr_nonneg. case_match; [lia|]. apply Z.mod_pos_bound. lia. Qed.
Lemma tick_positive h x : hpet_shape h -> 0 < x -> 0 < hpet_tick_to_ns h x.
Proof.
  intros Hh Hx. unfold hpet_tick_to_ns. rewrite (hs_limit _ Hh), (hs_scale _ Hh). destruct (Z.ltb_spec ((2 ^ 64 - 1) / 16384) x) as [|H]; [done|].
  assert (x * 16384 < 2 ^ 64) by (pose proof (Z.mul_div_le (2 ^ 64 - 1) 16384); lia).
  unfold u64. rewrite Z.mod_small by lia. rewrite Z.shiftr_div_pow2 by lia. apply Z.div_str_pos. change (2 ^ 10) with 1024. lia.
Qed.

(** The interrupts of the comparators are ISA interrupts. *)
Lemma hpet_irq_range r tn t : route_ok t -> 0 <= hpet_irq r tn t <= 15.
Proof. intros Ht. unfold hpet_irq. destruct (_ && _); [destruct (tn =? 0)%nat; lia|done]. Qed.

Lemma owes_mono l l' s : (forall x, x ∈ l -> x ∈ l') -> owes l s -> owes l' s.
Proof. intros H Ho tn Hl. destruct (Ho tn Hl); [left; auto|by right]. Qed.
Lemma pl_ok_mono n l l' s : (forall x, x ∈ l -> x ∈ l') -> pl_ok n l s -> pl_ok n l' s.
Proof. intros H [H1 H2]. split; [done|]. by eapply owes_mono. Qed.

Section Write.
Context (clk : nat -> Z) (n : Z).

(** ** Starting a timer *)

Lemma dead_owes tn l s t : hp_timers (hpet (pl_hpet s)) !! tn = Some t -> timer_enabled t = false -> owes (tn :: l) s -> owes l s.
Proof.
  intros Ht Hd Ho i Hl. destruct (Ho i Hl) as [Hin|]; [|by right]. apply elem_of_cons in Hin as [->|]; [|by left].
  destruct Hl as (_ & t' & Ht' & He). rewrite Ht in Ht'. injection Ht' as <-. congruence.
Qed.

Lemma create_backs tn l s v delta p irq : pl_ok n (tn :: l) s -> (tn < 3)%nat -> 0 <= v < n -> 0 <= irq <= 15 -> 0 <= p ->
  (p <> 0 -> exists q, hp_period (hpet (pl_hpet s)) !! tn = Some q /\ 0 < q) ->
  wp (vt (create_periodic_time clk v (hpet_pt tn) delta p irq false)) (fun _ => pl_ok n l) s.
Proof.
  intros Hs Htn Hv Hi Hp Hq. set (m := create_periodic_time clk v (hpet_pt tn) delta p irq false).
  apply wp_zoom. pose proof Hs as [[K1 K2 K3 K4 K5] Ho].
  pose proof (create_wp clk n v (hpet_pt tn) delta p irq false (pl_v s) K1) as Hw.
  destruct (wp_inv _ _ _ (Hw ltac:(unfold hpet_pt; lia) Hv Hp ltac:(unfold hpet_pt; rewrite (proj2 (Nat.ltb_lt _ _)) by lia; done)))
    as (s' & [] & E & H1 & pt & Hpt & Hc & Ho1).
  eapply wp_eq; [exact E|]. split; [by split|]. intros i Hl. destruct (decide (i = tn)) as [->|Hne].
  - right. exists (p =? 0). split; [by exists pt|]. intros Hz. apply Z.eqb_neq in Hz. by apply Hq.
  - destruct (Ho i) as [Hin|(b & Hb & Hpos)]; [by destruct Hl as (A & t & B); split; [|exists t]| |].
    + apply elem_of_cons in Hin as [->|]; [done|by left].
    + right. exists b. split; [|done]. pose proof (create_owner clk (hpet_pt i) b v (hpet_pt tn) delta p irq false) as Hk.
      specialize (Hk ltac:(unfold hpet_pt; lia) _ Hb). fold m in Hk, E. cbn [pl_v set_pl_v]. by rewrite E in Hk.
Qed.

Lemma set_timer_wp tn l s : pl_ok n (tn :: l) s -> (tn < 3)%nat -> wp (hpet_set_timer clk tn) (fun _ => pl_ok n l) s.
Proof.
  intros Hs Htn. apply wp_bind, wp_bug_if; [apply Nat.leb_gt; unfold HPET_TIMER_NUM; lia|]. apply wp_bind, wp_gets.
  set (r := hpet (pl_hpet s)). apply wp_bind. eapply wp_mono; [apply holds_when; [apply pit_stop_ok; exact clk|exact Hs]|].
  intros [] s1 Hs1. pose proof (pk_hpet _ _ (proj1 Hs1)) as Hh.
  destruct (lookup_lt_is_Some_2 (hp_timers (hpet (pl_hpet s1))) tn) as [t Ht]; [rewrite (hs_timers _ Hh); lia|].
  apply wp_bind. unfold the_htimer. apply wp_bind, wp_gets. unfold at_tn at 1. rewrite Ht. apply wp_ret.
  pose proof (Forall_lookup_1 _ _ _ _ (hs_routes _ Hh) Ht) as Hr. apply wp_when.
  2: { intros Hd. split; [apply Hs1|]. by apply (dead_owes tn l _ t), Hs1. }
  intros _. apply wp_bind. eapply wp_mono; [by apply comparator_ok|]. intros c s2 Hs2. apply wp_bind.
  eapply wp_mono; [exact (maincounter_ok clk n _ s2 Hs2)|]. intros now s3 Hs3. apply wp_bind, wp_gets. cbv zeta.
  pose proof (pk_hpet _ _ (proj1 Hs3)) as Hh3.
  destruct (lookup_lt_is_Some_2 (hp_period (hpet (pl_hpet s3))) tn) as [p Hp]; [rewrite (hs_period _ Hh3); lia|].
  pose proof (Forall_lookup_1 _ _ _ _ (hs_positive _ Hh3) Hp) as Hp0. cbn in Hp0.
  apply wp_bind. unfold at_tn. rewrite Hp. apply wp_ret. apply wp_bind, (the_target_wp n); [apply (pk_v _ _ (proj1 Hs3))|apply (pk_n _ _ (proj1 Hs3))|]. intros v Hv.
  apply create_backs; [done|done|done|by apply hpet_irq_range|case_match; [done|apply tick_nonneg]|].
  intros Hnz. exists p. split; [done|]. destruct (negb _); [done|]. destruct (Z.eq_dec p 0) as [->|]; [|lia]. by rewrite tick_zero in Hnz.
Qed.

Lemma each_stop_ok l ts : Forall (fun tn => tn < 3)%nat ts -> holds (pl_ok n l) (each_timer ts (hpet_stop_timer clk)).
Proof.
  induction 1 as [|tn ts Htn _ IH]; cbn [each_timer]; [apply holds_ret|]. apply holds_bind; [by apply hpet_stop_ok|]. by intros _.
Qed.
Lemma each_start_wp ts : forall s, Forall (fun tn => tn < 3)%nat ts -> pl_ok n ts s -> wp (each_timer ts (hpet_set_timer clk)) (fun _ => pl_ok n []) s.
Proof.
  induction ts as [|tn ts IH]; intros s Hts Hs; cbn [each_timer]; [by apply wp_ret|]. apply list.Forall_cons in Hts as [Htn Hts].
  apply wp_bind. eapply wp_mono; [by apply set_timer_wp|]. intros [] s' Hs'. by apply IH.
Qed.

(** ** Updating a running periodic timer *)

Definition updatable (tn : nat) (s : pldom) : Prop := live tn s /\ created_as (hpet_pt tn) false (pl_v s).

Lemma created_same id b b' s : created_as id b s -> created_as id b' s -> b = b'.
Proof. intros (pt & H & _ & <-) (pt' & H' & _ & <-). rewrite H in H'. by injection H' as <-. Qed.

Lemma update_timer_wp tn s : pl_ok n [] s -> updatable tn s -> wp (hpet_update_timer clk tn) (fun _ => pl_ok n []) s.
Proof.
  intros Hs [Hl Hc]. pose proof Hl as (_ & t & Ht & _). pose proof (pk_hpet _ _ (proj1 Hs)) as Hh.
  pose proof (lookup_lt_Some _ _ _ Ht) as Htn. rewrite (hs_timers _ Hh) in Htn.
  destruct (proj2 Hs tn Hl) as [Hin|(b & Hb & Hpos)]; [by apply elem_of_nil in Hin|].
  pose proof (created_same _ _ _ _ Hc Hb) as <-. destruct (Hpos eq_refl) as (p & Hp & Hp0).
  unfold hpet_update_timer. apply wp_bind, wp_gets. apply wp_bind.
  eapply (wp_mono _ (fun _ s1 => pl_ok n [] s1 /\ pl_hpet s1 = pl_hpet s /\ created_as (hpet_pt tn) false (pl_v s1))).
  - apply wp_when; [|done]. intros _. pose proof (pit_stop_ok clk n [] s Hs) as Hw. unfold wp in *.
    assert (preserves (fun s1 => pl_hpet s1 = pl_hpet s /\ created_as (hpet_pt tn) false (pl_v s1)) pit_stop_channel0_irq) as Hk.
    { intros s1 [K1 K2]. unfold pit_stop_channel0_irq, vt, zoom. pose proof (destroy_owner clk (hpet_pt tn) false PIT_TIMER (pl_v s1) K2).
      by destruct (destroy_periodic_time PIT_TIMER (pl_v s1)). }
    specialize (Hk s (conj eq_refl Hc)). by destruct (pit_stop_channel0_irq s) as [s1 []].
  - intros [] s1 (Hs1 & E1 & Hc1). unfold the_htimer. apply wp_bind, wp_bind, wp_gets. rewrite E1. unfold at_tn. rewrite Ht. apply wp_ret.
    rewrite Hp. apply wp_bind, wp_ret.
    pose proof (Forall_lookup_1 _ _ _ _ (hs_routes _ Hh) Ht) as Hr.
    apply (vt_at n (pl_ok n [])); [done| |intros; apply update_owner].
    apply (vop_wp clk n (VUpdate (hpet_pt tn) (hpet_irq (hpet (pl_hpet s)) tn t) (hpet_tick_to_ns (pl_hpet s) p) 1)).
    + apply (pk_v _ _ (proj1 Hs1)).
    + cbn [vop_ok]. split; [exact Hc1|]. split; [by apply tick_positive|]. unfold hpet_pt. rewrite (proj2 (Nat.ltb_lt _ _)) by lia.
      by apply hpet_irq_range.
Qed.

(** ** Changing the registers of one comparator *)

Definition with_regs (h : HPETState) (r : hpet_registers) : HPETState :=
  {| hpet := r; stime_freq := stime_freq h; hpet_to_ns_scale := hpet_to_ns_scale h;
     hpet_to_ns_limit := hpet_to_ns_limit h; mc_offset := mc_offset h |}.

(** The registers [r'] are [r] with the timer and the period of [tn] changed. *)
Record tn_changed (tn : nat) (t' : hpet_timer) (p' : Z) (r r' : hpet_registers) : Prop := {
  tc_config : hp_config r' = hp_config r;
  tc_timers : hp_timers r' = <[tn := t']> (hp_timers r);
  tc_period : hp_period r' = <[tn := p']> (hp_period r);
  tc_cmp : length (comparator64 r') = length (comparator64 r)
}.

Lemma tn_changed_shape tn t' p' h r' : tn_changed tn t' p' (hpet h) r' -> hpet_shape h -> route_ok t' -> 0 <= p' ->
  (timer_is_32bit t' = true -> p' < 2 ^ 32) -> hpet_shape (with_regs h r').
Proof.
  intros [C1 C2 C3 C4] [H1 H2 H3 H4 H5 H6 H7 H8] Hr Hp H32. split; cbn [hpet with_regs hpet_to_ns_scale hpet_to_ns_limit]; [| | |done|done|..].
  - by rewrite C2, length_insert.
  - by rewrite C3, length_insert.
  - by rewrite C4.
  - rewrite C3. by apply Forall_insert.
  - rewrite C2. by apply Forall_insert.
  - intros i t p. rewrite C2, C3. intros Ht Hb Hq. destruct (decide (i = tn)) as [->|Hne].
    + apply list_lookup_insert_Some in Ht as [(_ & <- & _)|[? _]]; [|done]. apply list_lookup_insert_Some in Hq as [(_ & <- & _)|[? _]]; [|done]. auto.
    + rewrite list_lookup_insert_ne in Ht by done. rewrite list_lookup_insert_ne in Hq by done. eauto.
Qed.

Lemma tn_change tn t t' p p' L s r' : pl_ok n [] s -> tn_changed tn t' p' (hpet (pl_hpet s)) r' ->
  hp_timers (hpet (pl_hpet s)) !! tn = Some t -> hp_period (hpet (pl_hpet s)) !! tn = Some p ->
  route_ok t' -> 0 <= p' -> (timer_is_32bit t' = true -> p' < 2 ^ 32) ->
  (tn ∈ L \/ (hpet_enabled (hpet (pl_hpet s)) = true -> timer_enabled t' = true -> timer_enabled t = true /\ (0 < p -> 0 < p'))) ->
  pl_ok n L (set_pl_hpet (with_regs (pl_hpet s) r') s).
Proof.
  intros [[K1 K2 K3 K4 K5] Ho] Hc Ht Hp Hr Hp0 H32 HL. split.
  - split; try done. by apply (tn_changed_shape tn t' p').
  - pose proof Hc as [C1 C2 C3 C4]. intros i (A & ti & B & C). cbn [pl_hpet set_pl_hpet with_regs hpet pl_v] in *.
    unfold hpet_enabled in A. rewrite C1 in A. rewrite C2 in B. destruct (decide (i = tn)) as [->|Hne].
    + destruct HL as [|HL]; [by left|]. apply list_lookup_insert_Some in B as [(_ & -> & _)|[? _]]; [|done]. destruct (HL A C) as [He Hpp].
      destruct (Ho tn) as [Hin|(b & Hb & Hpos)]; [by split; [|exists t]|by apply elem_of_nil in Hin|]. right. exists b. split; [done|].
      intros E. destruct (Hpos E) as (q & Hq & Hq0). exists p'. split; [|apply Hpp; congruence]. cbn. rewrite C3.
      apply list_lookup_insert_eq. by apply lookup_lt_Some in Hp.
    + rewrite list_lookup_insert_ne in B by done.
      destruct (Ho i) as [Hin|(b & Hb & Hpos)]; [by split; [|exists ti]|by apply elem_of_nil in Hin|]. right. exists b. split; [done|].
      intros E. destruct (Hpos E) as (q & Hq & Hq0). exists q. split; [|done]. cbn. by rewrite C3, list_lookup_insert_ne.
Qed.
End Write.

(** * The HPET: the registers

    What a write to each register of the HPET leaves for [hpet_apply]; a write
    as a whole, and the life of the device. *)

(** ** Fields of a register *)

Lemma fixup_land new old m k : Z.land m k = k -> Z.land (hpet_fixup_reg new old m) k = Z.land new k.
Proof.
  intros Hk. apply Z.bits_inj'. intros i Hi. unfold hpet_fixup_reg. rewrite !Z.land_spec, Z.lor_spec, Z.land_spec, Z.ldiff_spec.
  assert (Z.testbit k i = true -> Z.testbit m i = true) as Hm. { rewrite <- Hk, Z.land_spec. by intros [H _]%andb_true_iff. }
  destruct (Z.testbit k i); [rewrite Hm by done|]; by destruct (Z.testbit new i), (Z.testbit old i), (Z.testbit m i).
Qed.
Lemma fixup_flag new old m k : Z.land m k = k -> flag (hpet_fixup_reg new old m) k = flag new k.
Proof. intros Hk. unfold flag. by rewrite fixup_land. Qed.
Lemma ldiff_land x m k : Z.land m k = 0 -> Z.land (Z.ldiff x m) k = Z.land x k.
Proof.
  intros Hk. apply Z.bits_inj'. intros i Hi. rewrite !Z.land_spec, Z.ldiff_spec.
  assert (Z.testbit k i = true -> Z.testbit m i = false) as Hm.
  { intros E. assert (Z.testbit (Z.land m k) i = false) as H by (rewrite Hk; apply Z.bits_0). rewrite Z.land_spec, E in H. by destruct (Z.testbit m i). }
  destruct (Z.testbit k i); [rewrite Hm by done|]; by destruct (Z.testbit x i), (Z.testbit m i).
Qed.

Lemma land_lt_ones x k : 0 <= k -> Z.land x (Z.ones k) < 2 ^ k.
Proof. intros Hk. rewrite Z.land_ones by done. apply Z.mod_pos_bound. lia. Qed.

Lemma alter_insert {A} (f : A -> A) (v : list A) i x : v !! i = Some x -> alter f i v = <[i := f x]> v.
Proof. intros H. apply list_eq. intros j. rewrite list_lookup_alter, list_lookup_insert. apply lookup_lt_Some in H as Hi. by repeat case_decide; simplify_eq; rewrite ?H; try tauto. Qed.

Section Regs.
Context (clk : nat -> Z) (n : Z).

(** ** What a write leaves *)

Record consistent (ch : changes) (s : pldom) : Prop := {
  cn_ok : pl_ok n (start_timers ch) s;
  cn_stop : Forall (fun tn => tn < 3)%nat (stop_timers ch);
  cn_start : Forall (fun tn => tn < 3)%nat (start_timers ch);
  cn_update : Forall (fun tn => stop_timers ch = [] /\ start_timers ch = [] /\ update_timers ch = [tn] /\ updatable tn s) (update_timers ch)
}.
Definition ready (ch : changes) (s : pldom) : Prop := (pl_crashed s = true /\ ch = no_changes) \/ consistent ch s.
Definition sane (s : pldom) : Prop := pl_crashed s = true \/ pl_ok n [] s.

Lemma apply_wp ch s : ready ch s -> wp (hpet_apply clk ch) (fun _ => sane) s.
Proof.
  intros [[Hc ->]|[H1 H2 H3 H4]]; [by left|]. unfold hpet_apply. apply wp_bind. destruct (update_timers ch) as [|tn ts].
  - eapply wp_mono; [by apply each_stop_ok|]. intros [] s1 Hs1. apply wp_bind. eapply wp_mono; [by apply each_start_wp|].
    intros [] s2 Hs2. by right.
  - apply list.Forall_cons in H4 as [(E1 & E2 & E3 & Hu) _]. injection E3 as ->. rewrite E1, E2 in *. cbn [each_timer]. apply wp_ret, wp_bind, wp_ret, wp_bind.
    eapply wp_mono; [by apply update_timer_wp|]. intros [] s' Hs'. by right.
Qed.

Lemma enabled_range r : Forall (fun tn => tn < 3)%nat (enabled_timers r).
Proof. apply list.Forall_forall. intros tn [_ H]%list_elem_of_filter. by apply elem_of_seq in H as [_ H]. Qed.
Lemma enabled_in r tn t : (tn < 3)%nat -> hp_timers r !! tn = Some t -> timer_enabled t = true -> tn ∈ enabled_timers r.
Proof.
  intros Htn Ht He. apply list_elem_of_filter. split; [|apply elem_of_seq; unfold HPET_TIMER_NUM; lia]. by rewrite Ht.
Qed.

Lemma quiet s : pl_ok n [] s -> consistent no_changes s.
Proof. intros Hs. by split. Qed.
Lemma stopping l s : pl_ok n [] s -> Forall (fun tn => tn < 3)%nat l -> consistent (set_stop l) s.
Proof. intros Hs Hl. by split. Qed.
Lemma starting l s : pl_ok n l s -> Forall (fun tn => tn < 3)%nat l -> consistent (set_start l) s.
Proof. intros Hs Hl. by split. Qed.
Lemma restarting l s : pl_ok n l s -> Forall (fun tn => tn < 3)%nat l -> consistent (set_restart l) s.
Proof. intros Hs Hl. by split. Qed.
Lemma more l s : pl_ok n [] s -> pl_ok n l s.
Proof. apply pl_ok_mono. by intros x ?%elem_of_nil. Qed.

(** ** The general configuration *)

Lemma config_set L c s : pl_ok n [] s ->
  (forall tn t, flag c HPET_CFG_ENABLE = true -> hp_timers (hpet (pl_hpet s)) !! tn = Some t -> timer_enabled t = true ->
    tn ∈ L \/ flag (hp_config (hpet (pl_hpet s))) HPET_CFG_ENABLE = true) ->
  pl_ok n L (set_pl_hpet (with_regs (pl_hpet s) (set_hconfig c (hpet (pl_hpet s)))) s).
Proof.
  intros [[K1 K2 K3 K4 K5] Ho] HL. split.
  - split; try done. destruct K5. by split.
  - intros tn (A & t & B & C). destruct (HL tn t A B C) as [|He]; [by left|].
    destruct (Ho tn) as [Hin|Hb]; [by split; [|exists t]|by apply elem_of_nil in Hin|]. by right.
Qed.

Lemma start_view h : hpet_shape h -> same_view (hpet h) (start_comparators (hpet h)).
Proof. intros Hh. repeat split. cbn. by rewrite length_fmap, (hs_timers _ Hh), (hs_cmp _ Hh). Qed.

Lemma write_cfg_wp s new : pl_ok n [] s -> wp (write_cfg clk (hp_config (hpet (pl_hpet s))) new) ready s.
Proof.
  intros Hs. set (old := hp_config (hpet (pl_hpet s))). apply wp_bind, wp_modify.
  pose proof (fixup_flag new old 3 HPET_CFG_ENABLE eq_refl) as Ef. set (c := hpet_fixup_reg new old 3) in *.
  set (s1 := set_pl_hpet _ s). destruct (negb (flag old HPET_CFG_ENABLE) && flag new HPET_CFG_ENABLE) eqn:Eon.
  - assert (pl_ok n (enabled_timers (hpet (pl_hpet s1))) s1) as Hs1.
    { apply config_set; [done|]. intros tn t _ Ht He. left. apply (enabled_in _ tn t); [|done|done].
      apply lookup_lt_Some in Ht. by rewrite (hs_timers _ (pk_hpet _ _ (proj1 Hs))) in Ht. }
    apply wp_bind, wp_gets, wp_bind. set (r := hpet (pl_hpet s1)) in *.
    eapply wp_mono; [exact (hpet_time_ok clk n _ s1 Hs1)|]. intros t s2 Hs2. apply wp_bind.
    eapply wp_mono; [exact (set_mc_offset_ok n _ _ s2 Hs2)|]. intros [] s3 Hs3. apply wp_bind.
    eapply wp_mono; [apply (on_hregs_ok n (enabled_timers r) start_comparators); [apply start_view|exact Hs3]|]. intros [] s4 Hs4.
    apply wp_ret. right. apply starting; [done|apply enabled_range].
  - assert (pl_ok n [] s1) as Hs1.
    { apply config_set; [done|]. intros tn t Hc _ _. right. rewrite Ef in Hc. fold old. rewrite Hc in Eon. by destruct (flag old HPET_CFG_ENABLE). }
    destruct (flag old HPET_CFG_ENABLE && negb _); [|by apply wp_ret; right; apply quiet].
    apply wp_bind. eapply wp_mono; [exact (hpet_time_ok clk n _ s1 Hs1)|]. intros t s2 Hs2. apply wp_bind, wp_gets, wp_bind.
    eapply wp_mono; [apply (on_hregs_ok n [] (set_mc64 _)); [intros h _; apply view_mc64|exact Hs2]|]. intros [] s3 Hs3.
    apply wp_ret. right. apply stopping; [done|apply enabled_range].
Qed.

Lemma write_counter_wp s new : pl_ok n [] s -> wp (write_counter new) ready s.
Proof.
  intros Hs. apply wp_bind. eapply wp_mono; [apply (on_hregs_ok n [] (set_mc64 new)); [intros h _; apply view_mc64|exact Hs]|].
  intros [] s1 Hs1. apply wp_bind, wp_gets, wp_ret. right. case_match; [|by apply quiet]. apply restarting; [by apply more|apply enabled_range].
Qed.

(** ** The configuration of a comparator *)

Lemma lookups s tn : pl_ok n [] s -> (tn < 3)%nat -> exists t p, hp_timers (hpet (pl_hpet s)) !! tn = Some t /\
  hp_period (hpet (pl_hpet s)) !! tn = Some p /\ route_ok t /\ 0 <= p /\ (timer_is_32bit t = true -> p < 2 ^ 32).
Proof.
  intros [Hs _] Htn. pose proof (pk_hpet _ _ Hs) as Hh.
  destruct (lookup_lt_is_Some_2 (hp_timers (hpet (pl_hpet s))) tn) as [t Ht]; [rewrite (hs_timers _ Hh); lia|].
  destruct (lookup_lt_is_Some_2 (hp_period (hpet (pl_hpet s))) tn) as [p Hp]; [rewrite (hs_period _ Hh); lia|].
  exists t, p. split; [done|]. split; [done|]. split; [exact (Forall_lookup_1 _ _ _ _ (hs_routes _ Hh) Ht)|].
  split; [exact (Forall_lookup_1 _ _ _ _ (hs_positive _ Hh) Hp)|]. intros H32. by apply (hs_32bit _ Hh tn t).
Qed.
Lemma htimer_wp tn t s (Q : hpet_timer -> pldom -> Prop) : hp_timers (hpet (pl_hpet s)) !! tn = Some t -> Q t s -> wp (the_htimer tn) Q s.
Proof. intros Ht HQ. unfold the_htimer. apply wp_bind, wp_gets. unfold at_tn. rewrite Ht. by apply wp_ret. Qed.

(** The state after a change of the registers of [tn] *)
Definition changed_to (tn : nat) (t' : hpet_timer) (p' : Z) (s s' : pldom) : Prop :=
  exists r', s' = set_pl_hpet (with_regs (pl_hpet s) r') s /\ tn_changed tn t' p' (hpet (pl_hpet s)) r'.

Definition tn_cfg_result (tn : nat) (old_val new_val : Z) (r : hpet_registers) : changes :=
  if hpet_enabled r then
    if flag new_val HPET_TN_ENABLE then
      if flag (Z.lxor new_val old_val) HPET_TN_PERIODIC then set_restart [tn]
      else if flag new_val HPET_TN_32BIT && negb (flag old_val HPET_TN_32BIT) then set_restart [tn]
      else if negb (flag old_val HPET_TN_ENABLE) then set_start [tn]
      else no_changes
    else if flag old_val HPET_TN_ENABLE then set_stop [tn] else no_changes
  else no_changes.

Lemma narrow_range (b : bool) p : 0 <= p -> 0 <= (if b then u32 p else p) /\ (b = true -> (if b then u32 p else p) < 2 ^ 32).
Proof. intros Hp. destruct b; [|done]. pose proof (Z.mod_pos_bound p (2 ^ 32)). unfold u32. lia. Qed.

Lemma tn_cfg_consistent tn t t' p new s s' : pl_ok n [] s -> (tn < 3)%nat ->
  hp_timers (hpet (pl_hpet s)) !! tn = Some t -> hp_period (hpet (pl_hpet s)) !! tn = Some p ->
  0 <= p -> (timer_is_32bit t = true -> p < 2 ^ 32) ->
  tn_config t' = hpet_fixup_reg new (tn_config t) 0x3f4e -> route_ok t' ->
  changed_to tn t' (if flag new HPET_TN_32BIT then u32 p else p) s s' ->
  consistent (tn_cfg_result tn (tn_config t) new (hpet (pl_hpet s'))) s'.
Proof.
  intros Hs Htn Ht Hp Hp0 H32 Hc Hr (r' & -> & Hch). cbn [pl_hpet set_pl_hpet with_regs hpet].
  assert (forall k, Z.land 0x3f4e k = k -> flag (tn_config t') k = flag new k) as Hf by (intros k Hk; rewrite Hc; by apply fixup_flag).
  assert (timer_is_32bit t' = flag new HPET_TN_32BIT /\ timer_enabled t' = flag new HPET_TN_ENABLE) as [F1 F2] by (split; by apply Hf).
  pose proof (narrow_range (flag new HPET_TN_32BIT) p Hp0) as [N1 N2].
  set (s' := set_pl_hpet _ s). assert (forall L, tn ∈ L -> pl_ok n L s') as Hin.
  { intros L HL. eapply tn_change; try done; [by rewrite F1|by left]. }
  unfold tn_cfg_result. replace (hpet_enabled r') with (hpet_enabled (hpet (pl_hpet s))) by (unfold hpet_enabled; by rewrite (tc_config _ _ _ _ _ Hch)).
  assert ((hpet_enabled (hpet (pl_hpet s)) = true -> timer_enabled t' = true -> timer_enabled t = true /\
    (0 < p -> 0 < (if flag new HPET_TN_32BIT then u32 p else p))) -> pl_ok n [] s') as Hno.
  { intros HL. eapply tn_change; try done; [by rewrite F1|by right]. }
  destruct (hpet_enabled (hpet (pl_hpet s))); [|by apply quiet, Hno].
  assert (Forall (fun tn => tn < 3)%nat [tn]) as Hl by (by apply list.Forall_singleton).
  assert (pl_ok n [tn] s') as H1 by (apply Hin; apply list_elem_of_here). rewrite F2 in Hno.
  destruct (flag new HPET_TN_ENABLE); [|destruct (flag (tn_config t) _); [apply stopping; [by apply Hno|done]|by apply quiet, Hno]].
  destruct (flag (Z.lxor _ _) _); [by apply restarting|]. destruct (flag new HPET_TN_32BIT) eqn:E32; cbn [andb].
  - destruct (flag (tn_config t) HPET_TN_32BIT) eqn:O32; cbn [negb]; [|by apply restarting].
    destruct (flag (tn_config t) HPET_TN_ENABLE) eqn:Eo; cbn [negb]; [|by apply starting]. apply quiet, Hno. intros _ _. split; [done|].
    intros Hpos. specialize (H32 O32). unfold u32. rewrite Z.mod_small by lia. done.
  - destruct (flag (tn_config t) HPET_TN_ENABLE) eqn:Eo; cbn [negb]; [|by apply starting]. by apply quiet, Hno.
Qed.

Lemma write_tn_cfg_wp tn t s new : pl_ok n [] s -> (tn < 3)%nat -> hp_timers (hpet (pl_hpet s)) !! tn = Some t ->
  Z.shiftr (Z.land new HPET_TN_INT_ROUTE_MASK) HPET_TN_INT_ROUTE_SHIFT <= 15 ->
  wp (write_tn_cfg tn (tn_config t) new) ready s.
Proof.
  intros Hs Htn Ht Hr. destruct (lookups s tn Hs Htn) as (t0 & p & Ht0 & Hp & _ & Hp0 & H32). rewrite Ht in Ht0. injection Ht0 as <-.
  set (c := hpet_fixup_reg new (tn_config t) 0x3f4e).
  apply wp_bind, (htimer_wp tn t); [done|]. apply wp_bind, wp_modify. set (s1 := set_pl_hpet _ s).
  assert (hp_timers (hpet (pl_hpet s1)) = <[tn := set_tn_config c t]> (hp_timers (hpet (pl_hpet s)))) as E1 by (by apply alter_insert).
  assert (tn < length (hp_timers (hpet (pl_hpet s))))%nat as Hlen by (by eapply lookup_lt_Some).
  apply wp_bind, (htimer_wp tn (set_tn_config c t)); [rewrite E1; by apply list_lookup_insert_eq|].
  destruct (timer_level _); [by left|]. apply wp_bind.
  assert (forall t', tn_config t' = c -> route_ok t') as Hrt.
  { intros t' Hc. unfold route_ok, timer_int_route. rewrite Hc. unfold c. rewrite fixup_land by done. split; [|done].
    apply Z.shiftr_nonneg, Z.land_nonneg. by right. }
  eapply (wp_mono _ (fun _ s2 => exists t', tn_config t' = c /\ changed_to tn t' (if flag new HPET_TN_32BIT then u32 p else p) s s2)).
  - destruct (flag new HPET_TN_32BIT).
    + apply wp_bind, wp_gets, wp_bind. unfold at_tn. replace (hp_period (hpet (pl_hpet s1)) !! tn) with (Some p) by done. apply wp_ret, wp_modify.
      exists (set_tn_cmp (u32 (tn_cmp t)) (set_tn_config c t)). split; [done|]. eexists. split; [reflexivity|]. split; [done| |done|done].
      cbn [set_hperiod hp_timers upd_htimer]. rewrite (alter_insert _ _ _ (set_tn_config c t)).
      2: { rewrite E1. by apply list_lookup_insert_eq. }
      rewrite E1. apply list_insert_insert_eq.
    + apply wp_ret. exists (set_tn_config c t). split; [done|]. eexists. split; [reflexivity|]. split; [done|done| |done].
      symmetry. by apply list_insert_id.
  - intros [] s2 (t' & Hc & Hch). apply wp_bind, wp_gets, wp_ret. right. by apply (tn_cfg_consistent tn t t' p new s s2); auto.
Qed.

(** ** The comparator *)

Lemma clamped_range h (b : bool) x : 0 <= clamped_period h b x /\ (b = true -> clamped_period h b x < 2 ^ 32).
Proof.
  unfold clamped_period. cbv zeta. set (y := if _ <? _ then _ else _). split; [apply Z.land_nonneg; right; by destruct b|]. intros ->.
  change (Z.shiftr (2 ^ 32 - 1) 1) with (Z.ones 31). pose proof (land_lt_ones y 31). lia.
Qed.

(** The period that a write to the comparator leaves *)
Definition period_after (h : HPETState) (t : hpet_timer) (p new : Z) : Z :=
  if flag (tn_config t) HPET_TN_SETVAL then p
  else if timer_is_periodic t then clamped_period h (timer_is_32bit t) (narrowed t new) else p.

(** A change that leaves the mode of the comparator alone *)
Lemma cmp_changed_wp tn t t' p p' s s' : pl_ok n [] s -> (tn < 3)%nat ->
  hp_timers (hpet (pl_hpet s)) !! tn = Some t -> hp_period (hpet (pl_hpet s)) !! tn = Some p ->
  (forall k, Z.land HPET_TN_SETVAL k = 0 -> Z.land (tn_config t') k = Z.land (tn_config t) k) ->
  route_ok t -> 0 <= p' -> (timer_is_32bit t = true -> p' < 2 ^ 32) -> (0 < p -> 0 < p') -> changed_to tn t' p' s s' -> pl_ok n [] s' /\
  (live tn s -> live tn s').
Proof.
  intros Hs Htn Ht Hp Hk Hr Hp0 H32 Hpos (r' & -> & Hch). pose proof Hch as [C1 C2 C3 C4].
  assert (timer_enabled t' = timer_enabled t) as F1 by (unfold timer_enabled, flag; by rewrite Hk).
  assert (timer_is_32bit t' = timer_is_32bit t) as F2 by (unfold timer_is_32bit, flag; by rewrite Hk). split.
  - eapply tn_change; try done; [|by rewrite F2|right; by rewrite F1]. unfold route_ok, timer_int_route in *. by rewrite Hk.
  - intros (He & t0 & Ht0 & He0). rewrite Ht in Ht0. injection Ht0 as <-. split.
    + cbn. unfold hpet_enabled. by rewrite C1.
    + exists t'. cbn. rewrite C2, F1. split; [|done]. apply list_lookup_insert_eq. by eapply lookup_lt_Some.
Qed.

Lemma store_cmp_wp tn t p s new : pl_ok n [] s -> (tn < 3)%nat ->
  hp_timers (hpet (pl_hpet s)) !! tn = Some t -> hp_period (hpet (pl_hpet s)) !! tn = Some p ->
  wp (store_cmp tn t (pl_hpet s) (narrowed t new))
    (fun _ s' => exists t', (forall k, Z.land HPET_TN_SETVAL k = 0 -> Z.land (tn_config t') k = Z.land (tn_config t) k) /\
      changed_to tn t' (period_after (pl_hpet s) t p new) s s') s.
Proof.
  intros Hs Htn Ht Hp. pose proof (pk_hpet _ _ (proj1 Hs)) as Hh. apply wp_bind, wp_modify.
  set (s1 := set_pl_hpet _ s). assert (hp_timers (hpet (pl_hpet s1)) = <[tn := set_tn_cmp (narrowed t new) t]> (hp_timers (hpet (pl_hpet s)))) as E1
    by (cbn; by rewrite (alter_insert _ _ _ t)).
  assert (tn < length (hp_timers (hpet (pl_hpet s))))%nat as Hlen by (by eapply lookup_lt_Some).
  destruct (lookup_lt_is_Some_2 (comparator64 (hpet (pl_hpet s))) tn) as [c Hc]; [rewrite (hs_cmp _ Hh); lia|].
  unfold period_after. unfold at_tn. rewrite Hc, Hp. destruct (flag (tn_config t) HPET_TN_SETVAL); [|destruct (timer_is_periodic t)].
  - apply wp_bind, wp_bind, wp_modify, wp_ret, wp_bind, wp_ret, wp_modify.
    exists (set_tn_config (Z.ldiff (tn_config t) HPET_TN_SETVAL) (set_tn_cmp (narrowed t new) t)). split; [intros k Hk; by apply ldiff_land|].
    eexists. split; [reflexivity|]. split; [done| |symmetry; by apply list_insert_id|apply length_insert].
    transitivity (alter (fun t => set_tn_config (Z.ldiff (tn_config t) HPET_TN_SETVAL) t) tn (hp_timers (hpet (pl_hpet s1)))); [done|].
    rewrite (alter_insert _ _ _ (set_tn_cmp (narrowed t new) t)).
    2: { rewrite E1. by apply list_lookup_insert_eq. }
    rewrite E1. apply list_insert_insert_eq.
  - apply wp_bind, wp_bind, wp_bug_if; [rewrite (hs_scale _ Hh); apply andb_false_r|]. apply wp_bind, wp_ret, wp_bind, wp_modify, wp_ret, wp_bind, wp_ret, wp_modify.
    exists (set_tn_cmp (narrowed t new) t). split; [done|]. eexists. split; [reflexivity|]. split; [done|exact E1|done|apply length_insert].
  - apply wp_bind, wp_ret, wp_bind, wp_ret, wp_modify.
    exists (set_tn_cmp (narrowed t new) t). split; [done|]. eexists. split; [reflexivity|].
    split; [done|exact E1|symmetry; by apply list_insert_id|apply length_insert].
Qed.

(** The comparator's period stays positive: what a guest has to take care of *)
Lemma write_tn_cmp_wp tn t s new : pl_ok n [] s -> (tn < 3)%nat -> hp_timers (hpet (pl_hpet s)) !! tn = Some t ->
  (flag (tn_config t) HPET_TN_SETVAL = false -> timer_is_periodic t = true ->
   clamped_period (pl_hpet s) (timer_is_32bit t) (narrowed t new) <> 0) ->
  wp (write_tn_cmp tn new) ready s.
Proof.
  intros Hs Htn Ht Hnz. destruct (lookups s tn Hs Htn) as (t0 & p & Ht0 & Hp & Hr & Hp0 & H32). rewrite Ht in Ht0. injection Ht0 as <-.
  unfold write_tn_cmp. apply wp_bind, (htimer_wp tn t); [done|].
  apply wp_bind, wp_gets.
  assert (0 <= period_after (pl_hpet s) t p new /\ (timer_is_32bit t = true -> period_after (pl_hpet s) t p new < 2 ^ 32) /\
    (0 < p -> 0 < period_after (pl_hpet s) t p new)) as (P1 & P2 & P3).
  { unfold period_after. destruct (flag _ _); [done|]. destruct (timer_is_periodic t); [|done].
    pose proof (clamped_range (pl_hpet s) (timer_is_32bit t) (narrowed t new)) as [R1 R2]. split; [done|]. split; [done|]. intros _. specialize (Hnz eq_refl eq_refl). lia. }
  apply wp_bind. eapply wp_mono; [by apply (store_cmp_wp tn t p)|]. intros a s' (t' & Hk & Hch).
  destruct (cmp_changed_wp tn t t' p _ s s' Hs Htn Ht Hp Hk Hr P1 P2 P3 Hch) as [Hs' Hlive].
  destruct (hpet_enabled _ && timer_enabled t) eqn:E; [|by apply wp_ret; right; apply quiet].
  apply andb_true_iff in E as [E1 E2]. assert (live tn s) as Hl by (split; [done|by exists t]).
  apply wp_bind, wp_zoom, (the_pt_wp n); [apply (pk_v _ _ (proj1 Hs'))|unfold hpet_pt; lia|]. intros pt Hpt _. apply wp_ret. right.
  replace (set_pl_v (pl_v s') s') with s' by (by destruct s').
  assert (Forall (fun tn => tn < 3)%nat [tn]) as H1 by (by apply list.Forall_singleton).
  destruct (negb (timer_is_periodic t) || one_shot pt) eqn:E; [apply restarting; [by apply more|done]|].
  apply orb_false_iff in E as [_ Eo]. split; try done. apply list.Forall_singleton. do 3 (split; [done|]). split; [by apply Hlive|].
  destruct (proj2 Hs' tn (Hlive Hl)) as [Hin|(b & Hb & _)]; [by apply elem_of_nil in Hin|].
  destruct Hb as (pt' & Hpt' & Hv & Ho). rewrite Hpt in Hpt'. injection Hpt' as <-. exists pt. done.
Qed.

(** ** Any register *)

Lemma reg_split addr : exists low, 0 <= low < 8 /\ addr = Z.ldiff addr 7 + low.
Proof.
  exists (addr mod 8). split; [apply Z.mod_pos_bound; lia|]. change 7 with (Z.ones 3). rewrite Z.ldiff_ones_r, Z.shiftl_mul_pow2, Z.shiftr_div_pow2 by lia.
  change (2 ^ 3) with 8. pose proof (Z.div_mod addr 8). lia.
Qed.
Lemma tn_of_reg addr base tn : Z.ldiff addr 7 = base + 32 * Z.of_nat tn -> tn_of addr base = tn.
Proof.
  intros E. destruct (reg_split addr) as (low & Hl & Ea). unfold tn_of. rewrite Z.shiftr_div_pow2 by lia. change (2 ^ 5) with 32.
  assert ((addr - base) / 32 = Z.of_nat tn) as -> by (symmetry; apply (Z.div_unique _ _ _ low); lia). apply Nat2Z.id.
Qed.
Lemma which_tn reg base : (reg =? base) || (reg =? base + 0x20) || (reg =? base + 0x40) = true ->
  exists tn, (tn < 3)%nat /\ reg = base + 32 * Z.of_nat tn.
Proof. intros [->|[->| ->]]%one_of_three; [exists 0%nat|exists 1%nat|exists 2%nat]; split; lia. Qed.

(** The guest does not route the interrupt of a comparator beyond the ISA
    interrupts, and does not set a period that the top bit of the mask empties. *)
Definition polite (addr len val : Z) (s : pldom) : Prop :=
  let a := Z.land addr (HPET_MMAP_SIZE - 1) in
  forall tn t, hp_timers (hpet (pl_hpet s)) !! tn = Some t ->
    (Z.ldiff a 7 = HPET_T0_CFG + 32 * Z.of_nat tn ->
       Z.shiftr (Z.land (written a len val (tn_config t)) HPET_TN_INT_ROUTE_MASK) HPET_TN_INT_ROUTE_SHIFT <= 15) /\
    (Z.ldiff a 7 = HPET_T0_CMP + 32 * Z.of_nat tn -> flag (tn_config t) HPET_TN_SETVAL = false -> timer_is_periodic t = true ->
       forall old, clamped_period (pl_hpet s) (timer_is_32bit t) (narrowed t (written a len val old)) <> 0).

Lemma clamped_same h h' b x : hpet_shape h -> hpet_shape h' -> clamped_period h b x = clamped_period h' b x.
Proof.
  intros H H'. unfold clamped_period, hpet_tick_to_ns.
  by rewrite (hs_scale _ H), (hs_limit _ H), (hs_scale _ H'), (hs_limit _ H').
Qed.

Lemma read64_cfg addr s : Z.ldiff addr 7 = HPET_CFG -> hpet_read64 clk addr s = (s, Ok (hp_config (hpet (pl_hpet s)))).
Proof. intros E. unfold hpet_read64. by rewrite E. Qed.
Lemma read64_tn_cfg addr tn t s : (tn < 3)%nat -> Z.ldiff addr 7 = HPET_T0_CFG + 32 * Z.of_nat tn ->
  hp_timers (hpet (pl_hpet s)) !! tn = Some t -> hpet_read64 clk addr s = (s, Ok (tn_config t)).
Proof.
  intros Htn E Ht. transitivity ((t <- the_htimer tn;; ret (tn_config t)) s).
  - unfold hpet_read64. rewrite E. destruct tn as [|[|[|]]]; [done..|lia].
  - unfold the_htimer, hregs, at_tn, bind, gets. by rewrite Ht.
Qed.

(** Reading does not change the configurations. *)
Definition has_configs (c : list Z) (s : pldom) : Prop := configs (hpet (pl_hpet s)) = c.
Lemma vt_configs {A} c (m : SE vst A) : preserves (has_configs c) (vt m).
Proof. intros s Hs. unfold vt, zoom. by destruct (m (pl_v s)). Qed.
Lemma regs_configs c f : (forall r, configs (f r) = configs r) -> preserves (has_configs c) (on_hregs f).
Proof. intros Hf. apply preserves_modify. intros s Hs. unfold has_configs. cbn. by rewrite Hf. Qed.
#[local] Hint Resolve vt_configs : keep.
#[local] Hint Extern 2 (preserves (has_configs _) (on_hregs _)) =>
  apply regs_configs; intros r; first [done | apply alter_configs; done] : keep.
Lemma read64_configs c addr : preserves (has_configs c) (hpet_read64 clk addr).
Proof.
  unfold hpet_read64, hpet_get_comparator, hpet_read_maincounter, guest_time_hpet, the_htimer, hregs, at_tn, the_target, get_guest_time. cbv zeta. se_keep.
Qed.

(** *** What is true of the old value of a register, and of the state it was read in *)
Definition read_ok (addr old : Z) (s : pldom) : Prop :=
  (Z.ldiff addr 7 = HPET_CFG -> old = hp_config (hpet (pl_hpet s))) /\
  (forall tn t, (tn < 3)%nat -> Z.ldiff addr 7 = HPET_T0_CFG + 32 * Z.of_nat tn ->
    hp_timers (hpet (pl_hpet s)) !! tn = Some t -> old = tn_config t).

Lemma read64_wp addr s : pl_ok n [] s -> wp (hpet_read64 clk addr) (fun old s1 => pl_ok n [] s1 /\ read_ok addr old s1 /\
  configs (hpet (pl_hpet s1)) = configs (hpet (pl_hpet s))) s.
Proof.
  intros Hs. pose proof (read64_ok clk n [] addr s Hs) as Hw. pose proof (read64_configs _ addr s eq_refl : configs _ = _) as Hk.
  unfold wp in *. destruct (hpet_read64 clk addr s) as [s1 [old| |]] eqn:E; [|done|done]. split; [done|]. split; [|done]. split.
  - intros Ea. rewrite read64_cfg in E by done. by injection E as <- <-.
  - intros tn t Htn Ea Ht. destruct (lookups s tn Hs Htn) as (t0 & _ & Ht0 & _).
    rewrite (read64_tn_cfg addr tn t0) in E by done. injection E as <- <-. rewrite Ht0 in Ht. by injection Ht as ->.
Qed.

Lemma configs_timer s s1 tn t1 : configs (hpet (pl_hpet s1)) = configs (hpet (pl_hpet s)) -> hp_timers (hpet (pl_hpet s1)) !! tn = Some t1 ->
  exists t, hp_timers (hpet (pl_hpet s)) !! tn = Some t /\ tn_config t1 = tn_config t.
Proof.
  intros Hc Ht. assert (configs (hpet (pl_hpet s)) !! tn = Some (tn_config t1)) as H by (rewrite <- Hc; unfold configs; by rewrite list_lookup_fmap, Ht).
  unfold configs in H. rewrite list_lookup_fmap in H. apply fmap_Some in H as (t & Ht' & E). eauto.
Qed.

(** The guest's care is about the configurations only. *)
Lemma polite_configs addr len val s s1 : pl_ok n [] s -> pl_ok n [] s1 -> configs (hpet (pl_hpet s1)) = configs (hpet (pl_hpet s)) ->
  polite addr len val s -> polite addr len val s1.
Proof.
  intros Hs Hs1 Hc Hpl tn t1 Ht1. destruct (configs_timer _ _ _ _ Hc Ht1) as (t & Ht & E). destruct (Hpl tn t Ht) as [P1 P2]. split.
  - rewrite E. exact P1.
  - intros Ea Hsv Hpe old. rewrite (clamped_same _ (pl_hpet s)); [|apply (pk_hpet _ _ (proj1 Hs1))|apply (pk_hpet _ _ (proj1 Hs))].
    unfold narrowed, timer_is_32bit, timer_is_periodic in *. rewrite E in *. by apply P2.
Qed.

Lemma write_reg_wp addr len val old s : pl_ok n [] s -> polite addr len val s ->
  let a := Z.land addr (HPET_MMAP_SIZE - 1) in read_ok a old s -> wp (hpet_write_reg clk a old (written a len val old)) ready s.
Proof.
  intros Hs Hpl a [R1 R2]. unfold hpet_write_reg. cbv zeta. destruct (Z.eqb_spec (Z.ldiff a 7) HPET_CFG) as [E|_].
  { rewrite (R1 E). by apply write_cfg_wp. }
  destruct (_ =? HPET_COUNTER); [by apply write_counter_wp|].
  destruct ((_ =? HPET_T0_CFG) || _ || _) eqn:E1.
  { apply which_tn in E1 as (tn & Htn & E1). rewrite (tn_of_reg a _ tn E1). destruct (lookups s tn Hs Htn) as (t & _ & Ht & _).
    rewrite (R2 tn t Htn E1 Ht). apply write_tn_cfg_wp; [done|done|done|]. by apply (Hpl tn t Ht). }
  destruct ((_ =? HPET_T0_CMP) || _ || _) eqn:E2.
  { apply which_tn in E2 as (tn & Htn & E2). rewrite (tn_of_reg a _ tn E2). destruct (lookups s tn Hs Htn) as (t & _ & Ht & _).
    apply (write_tn_cmp_wp tn t); [done|done|done|]. intros Hsv Hpe. by apply (Hpl tn t Ht). }
  destruct ((_ =? HPET_T0_ROUTE) || _ || _) eqn:E3; [|by apply wp_ret; right; apply quiet].
  apply which_tn in E3 as (tn & Htn & E3). rewrite (tn_of_reg a _ tn E3). destruct (lookups s tn Hs Htn) as (t & _ & Ht & _).
  apply wp_bind, (htimer_wp tn t); [done|]. apply wp_bind.
  eapply wp_mono; [apply (on_hregs_ok n [] (upd_htimer tn (set_tn_fsb _))); [intros h _; apply view_fsb|exact Hs]|].
  intros [] s1 Hs1. apply wp_ret. right. by apply quiet.
Qed.

(** A write succeeds; unless it crashes the domain, every enabled comparator has its timer. *)
Lemma hpet_write_wp addr len val s : pl_ok n [] s -> polite addr len val s -> wp (hpet_write clk addr len val) (fun _ => sane) s.
Proof.
  intros Hs Hpl. unfold hpet_write. cbv zeta. destruct (negb _); [by apply wp_ret; right|]. apply wp_bind.
  eapply wp_mono; [by apply read64_wp|]. intros old s1 (Hs1 & Hr & Hc). apply wp_bind.
  eapply wp_mono; [apply write_reg_wp; [done|exact (polite_configs _ _ _ s s1 Hs Hs1 Hc Hpl)|done]|]. intros ch s2 Hs2. by apply apply_wp.
Qed.
End Regs.
