(* ===== verification/RtcRun.v ===== *)
(** * The real-time clock: every access succeeds

    The registers of the clock are fourteen bytes and an index of seven bits; no
    access of the guest, no host timer and no change of the wall clock fails or
    breaks this. *)

From stdpp Require Import base list numbers.
From Stdlib Require Import ZArith Lia Bool.
From S2P Require Import Prelude Vpic VpicInv VpicOps HvmState Vlapic Vioapic HvmIrq VioapicInv.
From S2P Require Import VioapicOps HvmIrqOps HvmIrqRun VlapicRegs HvmLapic HvmIrqSystem Vpt VptOps.
From S2P Require Import VptLists VptSystem Calendar TimerDev PmTimer Hpet Rtc TimerDevInv.

Open Scope Z_scope.
Open Scope se_scope.

Lemma selected_period_nonneg a p : selected_period a = Some p -> 0 <= p.
Proof.
  unfold selected_period. cbv zeta. intros H. repeat case_match; simplify_eq; apply Z.div_pos; try lia;
    apply Z.add_nonneg_nonneg; try done; apply Z.mul_nonneg_nonneg; try done; by apply Z.shiftl_nonneg.
Qed.

(** ** The tactic of the clock: the steps of a computation, one after the other *)

Create HintDb rtc.
Ltac rtc_steps :=
  repeat first
    [ progress intros
    | solve [eauto with rtc]
    | match goal with
      | |- holds _ (bind (gets _) _) => apply holds_read
      | |- holds _ (bind _ _) => apply holds_bind
      | |- holds _ (when _ _) => apply holds_when
      | |- holds _ (ret _) => apply holds_ret
      | |- holds _ (if ?b then _ else _) => destruct b eqn:?
      | |- holds _ (match ?x with _ => _ end) => destruct x eqn:?
      end ].

Section Rtc.
Context (clk : nat -> Z) (n : Z) (I : pldom -> Prop).
Context `{HO : !TimerOwner n I} `{HR : !RtcClient I}.

(** ** The registers *)

Lemma on_rtc_ok f : (forall r, rtc_ok r -> rtc_ok (f r)) -> holds I (on_rtc f).
Proof. intros Hf. apply holds_modify. intros s Hs. apply (rc_set s); [done|]. by apply Hf, rc_rtc. Qed.

Lemma cmos_at s i : rtc_ok (pl_rtc s) -> 0 <= i < 14 -> exists x, cmos_data (pl_rtc s) !! Z.to_nat i = Some x /\ 0 <= x < 2 ^ 8.
Proof.
  intros Hr Hi. destruct (lookup_lt_is_Some_2 (cmos_data (pl_rtc s)) (Z.to_nat i)) as [x Hx]; [rewrite (ro_size _ Hr); lia|].
  exists x. split; [done|]. exact (Forall_lookup_1 _ _ _ _ (ro_bytes _ Hr) Hx).
Qed.
Lemma cmos_run s i x : 0 <= i -> cmos_data (pl_rtc s) !! Z.to_nat i = Some x -> cmos i s = (s, Ok x).
Proof. intros Hi Hx. unfold cmos, bind, gets, bug_if, ret. by rewrite Hx, (proj2 (Z.ltb_ge i 0)). Qed.
Lemma cmos_ok i : 0 <= i < 14 -> holds I (cmos i).
Proof.
  intros Hi s Hs. destruct (cmos_at s i (rc_rtc s Hs) Hi) as (x & Hx & _). eapply wp_eq; [apply (cmos_run s i x); [lia|done]|done].
Qed.
Lemma set_cmos_ok i x : 0 <= i < 14 -> holds I (set_cmos i x).
Proof.
  intros Hi. apply holds_bind; [by apply cmos_ok|]. intros _. apply on_rtc_ok. intros r [H1 H2 H3 H4]. split; try done; cbn [cmos_data set_cmos_data].
  - by rewrite length_insert.
  - apply Forall_insert; [done|]. apply Z.mod_pos_bound. lia.
Qed.
Lemma or_cmos_ok i m : 0 <= i < 14 -> holds I (or_cmos i m).
Proof. intros Hi. apply holds_bind; [by apply cmos_ok|]. intros x. by apply set_cmos_ok. Qed.

#[local] Hint Extern 1 (holds _ (cmos _)) => apply cmos_ok; first [lia | done] : rtc.
#[local] Hint Extern 1 (holds _ (set_cmos _ _)) => apply set_cmos_ok; first [lia | done] : rtc.
#[local] Hint Extern 1 (holds _ (or_cmos _ _)) => apply or_cmos_ok; first [lia | done] : rtc.
#[local] Hint Extern 1 (holds _ (on_rtc _)) => apply on_rtc_ok; by intros ? [] : rtc.
#[local] Hint Extern 1 (holds _ (vt (NOW _))) => apply (NOW_ok clk n I) : rtc.
#[local] Hint Extern 1 (holds _ (get)) => apply holds_gets : rtc.

Lemma rtc_stop_ok : holds I stop_rtc_timer.
Proof. apply holds_bind; [apply (destroy_ok clk n I); unfold RTC_TIMER; lia|]. rtc_steps. Qed.
Lemma wall_ok f : holds I (modify (fun s => set_pl_wall (f s) s)).
Proof. apply holds_modify. intros s Hs. by apply rc_wall. Qed.
Lemma localtime_ok : holds I (get_localtime clk).
Proof. unfold get_localtime. rtc_steps. Qed.
Lemma localtime_us_ok : holds I (get_localtime_us clk).
Proof. unfold get_localtime_us. rtc_steps. Qed.
#[local] Hint Resolve rtc_stop_ok wall_ok localtime_ok localtime_us_ok : rtc.

Lemma copy_date_ok : holds I rtc_copy_date.
Proof. unfold rtc_copy_date. rtc_steps. Qed.
#[local] Hint Resolve copy_date_ok : rtc.
Lemma fetch_date_ok : holds I (rtc_fetch_date clk).
Proof. unfold rtc_fetch_date. rtc_steps. Qed.
Lemma set_time_ok : holds I rtc_set_time.
Proof. unfold rtc_set_time. rtc_steps. Qed.
#[local] Hint Resolve fetch_date_ok set_time_ok : rtc.

(** ** Interrupts *)

Lemma rtc_deassert_ok : holds I (vt (hw (hvm_isa_irq_deassert RTC_IRQ))).
Proof. apply (timers_quiet_ok n I); [|apply quiet_hw]. apply (isa_line_ok n _ RTC_IRQ); [by left|done]. Qed.
Lemma rtc_assert_ok : holds I (vt (bind pit_active (fun pit0 => hw (hvm_isa_irq_assert pit0 RTC_IRQ)))).
Proof.
  apply (timers_quiet_ok n I).
  - intros s Hs. apply wp_bind, wp_bind, (the_pt_wp n); [done|lia|]. intros pt _ _. apply wp_ret.
    apply (isa_line_ok n _ RTC_IRQ); [by right; eexists|done|done].
  - intros p. apply preserves_bind; [apply quiet_pit_active|]. intros x. apply quiet_hw.
Qed.
#[local] Hint Resolve rtc_deassert_ok rtc_assert_ok : rtc.

Lemma update_irq_ok : holds I rtc_update_irq.
Proof. unfold rtc_update_irq. rtc_steps. Qed.
Lemma pf_callback_ok : holds I rtc_pf_callback.
Proof. unfold rtc_pf_callback. rtc_steps. Qed.
Lemma pf_ticks_ok : holds I (check_for_pf_ticks clk).
Proof. unfold check_for_pf_ticks. rtc_steps. Qed.
#[local] Hint Resolve update_irq_ok pf_ticks_ok : rtc.

Lemma rtc_create_ok v delta p : 0 <= v < n -> 0 <= p -> holds I (vt (create_periodic_time clk v RTC_TIMER delta p RTC_IRQ true)).
Proof.
  intros Hv Hp. apply (create_ok clk n I); [done|unfold RTC_TIMER; lia|done|done|]. intros tn _. unfold RTC_TIMER, hpet_pt. lia.
Qed.
Lemma timer_update_ok : holds I (rtc_timer_update clk).
Proof.
  unfold rtc_timer_update. apply holds_bind; [rtc_steps|intros _]. apply holds_bind; [rtc_steps|]. intros a.
  destruct (selected_period a) as [p|] eqn:Ep; [|apply rtc_stop_ok]. apply selected_period_nonneg in Ep.
  apply holds_read. intros s Hs. destruct (p =? _); [apply holds_ret|]. apply holds_bind; [rtc_steps|]. intros now.
  apply holds_bind; [apply on_rtc_ok; by intros r []|]. intros _. apply (target_ok n I). intros v Hv.
  apply holds_bind; [apply (timers_quiet_ok n I); [by intros w Hw|by intros ? ? ?]|]. intros prm. apply holds_bind; [rtc_steps|]. intros b.
  destruct (flag b RTC_PIE); [by apply rtc_create_ok|rtc_steps].
Qed.
Lemma check_update_ok : holds I (check_update_timer clk).
Proof. unfold check_update_timer. cbv zeta. rtc_steps. Qed.
#[local] Hint Resolve timer_update_ok check_update_ok : rtc.

Lemma host_update_ok : holds I rtc_update_timer /\ holds I (rtc_update_timer2 clk).
Proof. split; [unfold rtc_update_timer|unfold rtc_update_timer2]; rtc_steps. Qed.
Lemma alarm_update_ok : holds I (alarm_timer_update clk).
Proof. unfold alarm_timer_update. cbv zeta. rtc_steps. Qed.
#[local] Hint Resolve alarm_update_ok : rtc.
Lemma alarm_cb_ok : holds I (rtc_alarm_cb clk).
Proof. unfold rtc_alarm_cb. rtc_steps. Qed.

(** ** Accesses *)

Lemma index_range x : 0 <= Z.land x 0x7f < 2 ^ 7.
Proof. change 0x7f with (Z.ones 7). rewrite Z.land_ones by lia. apply Z.mod_pos_bound. lia. Qed.
Lemma rtc_write_ok addr data : holds I (rtc_ioport_write clk addr data).
Proof.
  unfold rtc_ioport_write. cbv zeta. destruct (Z.land addr 1 =? 0).
  - apply holds_bind; [|intros _; apply holds_ret]. apply on_rtc_ok. intros r []. split; try done. apply index_range.
  - apply holds_read. intros s Hs. destruct (rc_rtc s Hs) as [_ _ Hi _]. destruct (Z.leb_spec RTC_CMOS_SIZE (cmos_index (pl_rtc s))) as [|Hlt]; [apply holds_ret|].
    set (i := cmos_index (pl_rtc s)) in *. clearbody i. unfold RTC_CMOS_SIZE in Hlt. unfold write_time_reg, write_reg_a, write_reg_b. rtc_steps.
Qed.
Lemma rtc_read_ok addr s : I s -> cmos_index (pl_rtc s) < RTC_CMOS_SIZE -> wp (rtc_ioport_read clk addr) (fun _ => I) s.
Proof.
  intros Hs Hlt. unfold rtc_ioport_read. cbv zeta. destruct (Z.land addr 1 =? 0); [by apply wp_ret|]. apply wp_bind, wp_gets.
  destruct (rc_rtc s Hs) as [_ _ Hi _]. set (i := cmos_index (pl_rtc s)) in *. clearbody i. unfold RTC_CMOS_SIZE in Hlt. revert s Hs.
  match goal with |- forall s, I s -> wp ?m _ s => change (holds I m) end.
  unfold read_time_reg, read_reg_a, read_reg_c, update_in_progress. rtc_steps.
Qed.
Lemma rtc_io_ok w port bytes val : holds I (handle_rtc_io clk w port bytes val).
Proof.
  unfold handle_rtc_io. destruct (negb (bytes =? 1)); [apply holds_ret|]. destruct w.
  - apply holds_bind; [apply rtc_write_ok|]. intros ok. apply holds_ret.
  - intros s Hs. apply wp_bind, wp_gets. destruct (Z.ltb_spec (cmos_index (pl_rtc s)) RTC_CMOS_SIZE); [|by apply wp_ret].
    apply wp_bind. eapply wp_mono; [by apply rtc_read_ok|]. intros x s' Hs'. by apply wp_ret.
Qed.

(** ** The wall clock, the start and the end *)

Lemma update_clock_ok : holds I (rtc_update_clock clk).
Proof. unfold rtc_update_clock. rtc_steps. Qed.
Lemma time_offset_ok offset : holds I (domain_set_time_offset clk offset).
Proof. unfold domain_set_time_offset, rtc_update_clock. rtc_steps. Qed.
Lemma settime_ok secs nsecs base : holds I (do_settime secs nsecs base).
Proof. unfold do_settime. cbv zeta. rtc_steps. Qed.
Lemma init_timers_ok : holds I (rtc_init_timers clk).
Proof. unfold rtc_init_timers. rtc_steps. Qed.
End Rtc.

(** * The real-time clock: the alarm

    When the alarm is due, as a search for the next second that matches, and the
    case analysis of rtc.c against it. *)

(** ** The times of a day *)

Definition hour_of (x : Z) : Z := x / 3600 mod 24.
Definition minute_of (x : Z) : Z := x / 60 mod 60.
Definition second_of (x : Z) : Z := x mod 60.

(** Second [x] matches the alarm. *)
Definition alarm_matches (dh dm ds : bool) (ah am asec x : Z) : bool :=
  (dh || (hour_of x =? ah)) && (dm || (minute_of x =? am)) && (ds || (second_of x =? asec)).

(** [k] is the distance from second [x] to the next one that matches. *)
Definition next_match (dh dm ds : bool) (ah am asec x k : Z) : Prop :=
  1 <= k /\ alarm_matches dh dm ds ah am asec (x + k) = true /\
  forall j, 1 <= j < k -> alarm_matches dh dm ds ah am asec (x + j) = false.

Definition clock_time (q h m s : Z) : Z := 86400 * q + 3600 * h + 60 * m + s.

Lemma clock_parts q h m s : 0 <= h < 24 -> 0 <= m < 60 -> 0 <= s < 60 ->
  hour_of (clock_time q h m s) = h /\ minute_of (clock_time q h m s) = m /\ second_of (clock_time q h m s) = s.
Proof. unfold hour_of, minute_of, second_of, clock_time. intros Hh Hm Hs. repeat split; zlia. Qed.

Lemma clock_split x : exists q h m s, x = clock_time q h m s /\ 0 <= h < 24 /\ 0 <= m < 60 /\ 0 <= s < 60.
Proof.
  exists (x / 86400), (hour_of x), (minute_of x), (second_of x). unfold hour_of, minute_of, second_of, clock_time. zlia.
Qed.

Lemma matches_at dh dm ds ah am asec q h m s : 0 <= h < 24 -> 0 <= m < 60 -> 0 <= s < 60 ->
  alarm_matches dh dm ds ah am asec (clock_time q h m s) = (dh || (h =? ah)) && (dm || (m =? am)) && (ds || (s =? asec)).
Proof. intros Hh Hm Hs. destruct (clock_parts q h m s Hh Hm Hs) as (E1 & E2 & E3). unfold alarm_matches. by rewrite E1, E2, E3. Qed.

(** The times at which rtc.c takes the next second for a match although its hour
    or its minute has just ended *)
Definition alarm_glitch (dh dm ds : bool) (ah am asec ch cm cs : Z) : bool :=
  (dh || (ch =? ah)) && negb dm && ds && (cm =? am) && (cs =? 59) ||
  negb dh && (ch =? ah) && dm && (cm =? 59) && (if ds then cs =? 59 else asec <=? cs).

(** The statement on the parts: [k] seconds later is the first match. *)
Lemma next_match_parts dh dm ds ah am asec q h m s k q' h' m' s' :
  1 <= k -> clock_time q h m s + k = clock_time q' h' m' s' -> 0 <= h' < 24 -> 0 <= m' < 60 -> 0 <= s' < 60 ->
  (dh || (h' =? ah)) && (dm || (m' =? am)) && (ds || (s' =? asec)) = true ->
  (forall q1 h1 m1 s1, clock_time q h m s < clock_time q1 h1 m1 s1 < clock_time q' h' m' s' -> 0 <= h1 < 24 -> 0 <= m1 < 60 -> 0 <= s1 < 60 ->
     (dh = true \/ h1 = ah) -> (dm = true \/ m1 = am) -> (ds = true \/ s1 = asec) -> False) ->
  next_match dh dm ds ah am asec (clock_time q h m s) k.
Proof.
  intros Hk E Hh Hm Hs Hyes Hno. split; [done|]. split; [by rewrite E, matches_at|].
  intros j Hj. destruct (clock_split (clock_time q h m s + j)) as (q1 & h1 & m1 & s1 & E1 & R1 & R2 & R3). rewrite E1, matches_at by done.
  apply not_true_iff_false. intros [[Ea Eb]%andb_true_iff Ec]%andb_true_iff. rewrite orb_true_iff, Z.eqb_eq in Ea, Eb, Ec.
  apply (Hno q1 h1 m1 s1); [rewrite <- E1, <- E; lia|done..].
Qed.

Ltac next_at q h m s :=
  apply (next_match_parts _ _ _ _ _ _ _ _ _ _ _ q h m s); unfold clock_time in *;
  [lia|lia|lia|lia|lia|rewrite ?andb_true_iff, ?orb_true_iff, ?Z.eqb_eq; lia|intros; lia].
(** The time after [q], [h], [m], [s], where each part may have reached its end *)
Lemma carry q h m s : 0 <= h <= 24 -> 0 <= m <= 60 -> 0 <= s <= 60 -> exists q' h' m' s',
  clock_time q h m s = clock_time q' h' m' s' /\ 0 <= h' < 24 /\ 0 <= m' < 60 /\ 0 <= s' < 60 /\
  (m < 60 -> s < 60 -> m' = m) /\ (s < 60 -> s' = s) /\ (h < 24 -> m < 60 -> s < 60 -> h' = h) /\ (h < 24 -> m <= 59 -> s <= 60 -> m < 59 \/ s < 60 -> h' = h).
Proof.
  intros Hh Hm Hs. destruct (clock_split (clock_time q h m s)) as (q' & h' & m' & s' & E & ? & ? & ?). exists q', h', m', s'. unfold clock_time in *. lia.
Qed.
Ltac next_carry q h m s :=
  let E := fresh in destruct (carry q h m s) as (? & ? & ? & ? & E & ? & ? & ? & ? & ? & ? & ?); [lia..|];
  match type of E with _ = clock_time ?q' ?h' ?m' ?s' => next_at q' h' m' s' end.

(** The seconds of rtc.c lead to the next match, except at those times. *)
Lemma next_alarm_matches dh dm ds ah am asec q ch cm cs : 0 <= ch < 24 -> 0 <= cm < 60 -> 0 <= cs < 60 ->
  (dh = false -> 0 <= ah < 24) -> (dm = false -> 0 <= am < 60) -> (ds = false -> 0 <= asec < 60) ->
  alarm_glitch dh dm ds ah am asec ch cm cs = false ->
  next_match dh dm ds ah am asec (clock_time q ch cm cs) (next_alarm_sec dh dm ds ah am asec ch cm cs).
Proof.
  intros Hch Hcm Hcs Hah Ham Has Hg.
  unfold next_alarm_sec, plus_min, plus_sec, SEC_PER_MIN, SEC_PER_HOUR, MIN_PER_HOUR, HOUR_PER_DAY. cbv zeta.
  destruct dh, dm, ds; unfold alarm_glitch in Hg; cbn [negb andb orb] in *.
  - next_carry q ch cm (cs + 1).
  - destruct (Z.ltb_spec cs asec); [next_at q ch cm asec|next_carry q ch (cm + 1) asec].
  - destruct (Z.ltb_spec cm am); [next_at q ch am 0|]. destruct (Z.eqb_spec cm am) as [->|]; [next_at q ch am (cs + 1)|next_carry q (ch + 1) am 0].
  - destruct (Z.ltb_spec cm am); [next_at q ch am asec|]. destruct (Z.eqb_spec cm am) as [->|]; [|next_carry q (ch + 1) am asec].
    destruct (Z.ltb_spec cs asec); [next_at q ch am asec|next_carry q (ch + 1) am asec].
  - destruct (Z.ltb_spec ch ah); [next_at q ah 0 0|]. destruct (Z.eqb_spec ch ah) as [->|]; [|next_at (q + 1) ah 0 0].
    next_carry q ah cm (cs + 1).
  - destruct (Z.ltb_spec ch ah); [next_at q ah 0 asec|]. destruct (Z.eqb_spec ch ah) as [->|]; [|next_at (q + 1) ah 0 asec].
    destruct (Z.ltb_spec cs asec); [next_at q ah cm asec|next_at q ah (cm + 1) asec].
  - destruct (Z.ltb_spec ch ah); [next_at q ah am 0|]. destruct (Z.eqb_spec ch ah) as [->|]; [|next_at (q + 1) ah am 0].
    destruct (Z.ltb_spec cm am); [next_at q ah am 0|]. destruct (Z.eqb_spec cm am) as [->|]; [next_at q ah am (cs + 1)|next_at (q + 1) ah am 0].
  - destruct (Z.ltb_spec ch ah); [next_at q ah am asec|]. destruct (Z.eqb_spec ch ah) as [->|]; [|next_at (q + 1) ah am asec].
    destruct (Z.ltb_spec cm am); [next_at q ah am asec|]. destruct (Z.eqb_spec cm am) as [->|]; [|next_at (q + 1) ah am asec].
    destruct (Z.ltb_spec cs asec); [next_at q ah am asec|next_at (q + 1) ah am asec].
Qed.

(** At those times they lead to a second that does not match. *)
Lemma glitch_misses dh dm ds ah am asec q ch cm cs : 0 <= ch < 24 -> 0 <= cm < 60 -> 0 <= cs < 60 -> (ds = false -> 0 <= asec < 60) ->
  alarm_glitch dh dm ds ah am asec ch cm cs = true ->
  alarm_matches dh dm ds ah am asec (clock_time q ch cm cs + next_alarm_sec dh dm ds ah am asec ch cm cs) = false.
Proof.
  intros Hch Hcm Hcs Has Hg. unfold next_alarm_sec, plus_min, plus_sec, SEC_PER_MIN, SEC_PER_HOUR, MIN_PER_HOUR, HOUR_PER_DAY. cbv zeta.
  match goal with |- alarm_matches _ _ _ _ _ _ (_ + ?k) = _ => destruct (clock_split (clock_time q ch cm cs + k)) as (q1 & h1 & m1 & s1 & E & ? & ? & ?) end.
  rewrite E, matches_at by done. unfold alarm_glitch, clock_time in *.
  destruct dh, dm, ds; cbn [negb andb orb] in *; try discriminate Hg; rewrite ?andb_true_iff, ?orb_true_iff, ?andb_false_iff, ?orb_false_iff, ?Z.eqb_eq, ?Z.eqb_neq, ?Z.leb_le in *.
  all: repeat match type of E with context [if ?b then _ else _] => destruct b eqn:? end; try lia.
Qed.

(** At most a day *)
Lemma next_alarm_day dh dm ds ah am asec ch cm cs : 0 <= ch < 24 -> 0 <= cm < 60 -> 0 <= cs < 60 ->
  (dh = false -> 0 <= ah < 24) -> (dm = false -> 0 <= am < 60) -> (ds = false -> 0 <= asec < 60) ->
  1 <= next_alarm_sec dh dm ds ah am asec ch cm cs <= 86400.
Proof.
  intros Hch Hcm Hcs Hah Ham Has. unfold next_alarm_sec, plus_min, plus_sec, SEC_PER_MIN, SEC_PER_HOUR, MIN_PER_HOUR, HOUR_PER_DAY. cbv zeta.
  destruct dh, dm, ds; repeat match goal with |- context [if ?b then _ else _] => destruct b eqn:? end; lia.
Qed.

(** * The real-time clock: what the computations give

    The registers after the date is with_date, the dates that the registers show,
    and the deadline of the alarm, as functions of the time. *)

(** ** Dates in registers *)

Definition bytes_upto (k : nat) : list Z := Z.of_nat <$> seq 0 k.
Lemma bytes_upto_in k x : 0 <= x < Z.of_nat k -> x ∈ bytes_upto k.
Proof. intros Hx. apply list_elem_of_fmap. exists (Z.to_nat x). rewrite elem_of_seq. lia. Qed.
(** A check of all numbers below [k] *)
Lemma by_cases (f : Z -> bool) k x : forallb f (bytes_upto k) = true -> 0 <= x < Z.of_nat k -> f x = true.
Proof. intros H Hx. rewrite forallb_forall in H. apply H. by apply list_elem_of_In, bytes_upto_in. Qed.

Ltac small_cases x k Hx :=
  match goal with |- ?e = true => let f := eval pattern x in e in
    match f with ?F x => apply (by_cases F k x); [by vm_compute|exact Hx] end end.

Lemma bcd_back b a : 0 <= a < 100 -> from_bcd b (u8 (to_bcd b a)) = a.
Proof.
  intros Ha. apply Z.eqb_eq. unfold from_bcd, to_bcd. destruct (flag b RTC_DM_BINARY); small_cases a 100%nat Ha.
Qed.
Lemma hour_back b h : 0 <= h < 24 -> convert_hour b (u8 (hours_of b h)) = h.
Proof.
  intros Hh. apply Z.eqb_eq. unfold convert_hour, hours_of, from_bcd, to_bcd.
  destruct (flag b RTC_DM_BINARY), (flag b RTC_24H); cbn [negb]; small_cases h 24%nat Hh.
Qed.

(** The register [i] of the date [d] *)
Definition date_reg (b : Z) (d : tm) (i : Z) : Z :=
  if i =? RTC_SECONDS then u8 (to_bcd b (tm_sec d))
  else if i =? RTC_MINUTES then u8 (to_bcd b (tm_min d))
  else if i =? RTC_HOURS then u8 (hours_of b (tm_hour d))
  else if i =? RTC_DAY_OF_WEEK then u8 (to_bcd b (tm_wday d))
  else if i =? RTC_DAY_OF_MONTH then u8 (to_bcd b (tm_mday d))
  else if i =? RTC_MONTH then u8 (to_bcd b (tm_mon d + 1))
  else u8 (to_bcd b (Z.rem (tm_year d) 100)).

(** The date in the registers is the date. *)
Lemma date_back b d : valid_date d -> 100 <= tm_year d < 200 ->
  date_of b (date_reg b d RTC_SECONDS) (date_reg b d RTC_MINUTES) (date_reg b d RTC_HOURS) (date_reg b d RTC_DAY_OF_WEEK)
    (date_reg b d RTC_DAY_OF_MONTH) (date_reg b d RTC_MONTH) (date_reg b d RTC_YEAR) d = d.
Proof.
  intros [V1 (len & Vl & V2) _ V4 V5 V6 V7] Hy. pose proof (month_lengths_small _ _ _ Vl) as Hl.
  assert (0 <= tm_wday d < 7) as Hw by (rewrite V7; apply Z.mod_pos_bound; lia).
  unfold date_of, date_reg. cbn [Z.eqb Pos.eqb RTC_SECONDS RTC_MINUTES RTC_HOURS RTC_DAY_OF_WEEK RTC_DAY_OF_MONTH RTC_MONTH RTC_YEAR].
  rewrite !bcd_back, hour_back; try lia.
  - rewrite Z.rem_mod_nonneg by lia. assert (tm_year d mod 100 + 100 = tm_year d) as -> by zlia. rewrite Z.add_simpl_r. by destruct d.
  - rewrite Z.rem_mod_nonneg by lia. apply Z.mod_pos_bound. lia.
Qed.

(** ** Reading the host's clock *)

(** The state after a read of the host's clock *)
Definition tick (s : pldom) : pldom := set_pl_v (set_vs_reads (S (vs_reads (pl_v s))) (pl_v s)) s.

(** The local time, in seconds and in microseconds, at the host's time [now] *)
Definition local_at (w : wallclock) (now : Z) : Z :=
  u64 (wc_sec w + u64 (wc_nsec w + now) / 1000000000 + time_offset_seconds w).
Definition local_us_at (w : wallclock) (now : Z) : Z :=
  u64 (u32 (wc_sec w + time_offset_seconds w) * 1000000000 + wc_nsec w + now) / 1000.

Section Run.
Context (clk : nat -> Z).

(** The host's time of the next read *)
Definition now_of (s : pldom) : Z := clk (vs_reads (pl_v s)).

Lemma now_run s : vt (NOW clk) s = (tick s, Ok (now_of s)).
Proof. done. Qed.
Lemma localtime_run s : get_localtime clk s = (tick s, Ok (local_at (pl_wall s) (now_of s))).
Proof. done. Qed.
Lemma localtime_us_run s : get_localtime_us clk s = (tick s, Ok (local_us_at (pl_wall s) (now_of s))).
Proof. done. Qed.

(** ** The registers after the date is with_date *)

Lemma fourteen {A} (l : list A) : length l = 14%nat -> exists x0 x1 x2 x3 x4 x5 x6 x7 x8 x9 x10 x11 x12 x13,
  l = [x0; x1; x2; x3; x4; x5; x6; x7; x8; x9; x10; x11; x12; x13].
Proof. intros H. do 14 (destruct l as [|? l]; [done|]). destruct l; [|done]. by repeat eexists. Qed.

Definition with_date (b : Z) (d : tm) (l : list Z) : list Z :=
  <[9%nat := date_reg b d RTC_YEAR]> (<[8%nat := date_reg b d RTC_MONTH]> (<[7%nat := date_reg b d RTC_DAY_OF_MONTH]>
  (<[6%nat := date_reg b d RTC_DAY_OF_WEEK]> (<[4%nat := date_reg b d RTC_HOURS]>
  (<[2%nat := date_reg b d RTC_MINUTES]> (<[0%nat := date_reg b d RTC_SECONDS]> l)))))).

Lemma copy_date_run s b : length (cmos_data (pl_rtc s)) = 14%nat -> cmos_data (pl_rtc s) !! 11%nat = Some b ->
  rtc_copy_date s = (set_pl_rtc (set_cmos_data (with_date b (current_tm (pl_rtc s)) (cmos_data (pl_rtc s))) (pl_rtc s)) s, Ok tt).
Proof.
  intros Hl Hb. destruct s as [v pit pmt hp r w cr]. destruct r as [l i d t1 t2 nu al st ct p dt ut]. cbn in Hl, Hb.
  destruct (fourteen l Hl) as (x0 & x1 & x2 & x3 & x4 & x5 & x6 & x7 & x8 & x9 & x10 & x11 & x12 & x13 & ->).
  injection Hb as ->. reflexivity.
Qed.

(** The state after the current date is fetched *)
Definition fetched (b : Z) (s : pldom) : pldom :=
  let d := gmtime (local_at (pl_wall s) (now_of s)) in
  set_pl_rtc (set_cmos_data (with_date b d (cmos_data (pl_rtc s))) (set_current_tm d (pl_rtc s))) (tick s).
Lemma fetch_date_run s b : length (cmos_data (pl_rtc s)) = 14%nat -> cmos_data (pl_rtc s) !! 11%nat = Some b ->
  rtc_fetch_date clk s = (fetched b s, Ok tt).
Proof.
  intros Hl Hb. unfold rtc_fetch_date. unfold bind at 1. rewrite localtime_run. unfold bind at 1. unfold on_rtc, modify.
  rewrite (copy_date_run _ b) by done. by destruct s.
Qed.

Lemma with_date_at b d l i : length l = 14%nat -> is_time_reg i = true -> with_date b d l !! Z.to_nat i = Some (date_reg b d i).
Proof.
  intros Hl Hi. destruct (fourteen l Hl) as (x0 & x1 & x2 & x3 & x4 & x5 & x6 & x7 & x8 & x9 & x10 & x11 & x12 & x13 & ->).
  unfold is_time_reg in Hi. rewrite !orb_true_iff, !Z.eqb_eq in Hi. by repeat destruct Hi as [Hi|Hi]; subst i.
Qed.
Lemma with_date_other b d l i : is_time_reg (Z.of_nat i) = false -> with_date b d l !! i = l !! i.
Proof.
  intros Hi. unfold is_time_reg in Hi. rewrite !orb_false_iff, !Z.eqb_neq in Hi. unfold RTC_SECONDS, RTC_MINUTES, RTC_HOURS, RTC_DAY_OF_WEEK, RTC_DAY_OF_MONTH, RTC_MONTH, RTC_YEAR in Hi.
  unfold with_date. rewrite !list_lookup_insert_ne by lia. done.
Qed.

(** A read of a register of the time *)
Lemma read_time_run s b val i : rtc_ok (pl_rtc s) -> cmos_data (pl_rtc s) !! 11%nat = Some b -> flag b RTC_SET = false ->
  cmos_index (pl_rtc s) = i -> is_time_reg i = true ->
  handle_rtc_io clk false 0x71 1 val s = (fetched b s, Ok (X86EMUL_OKAY, Some (date_reg b (gmtime (local_at (pl_wall s) (now_of s))) i))).
Proof.
  intros Hr Hb Hset Hi Ht. assert (0 <= i < RTC_CMOS_SIZE) as Hlt.
  { unfold is_time_reg in Ht. rewrite !orb_true_iff, !Z.eqb_eq in Ht. repeat destruct Ht as [Ht|Ht]; subst i; by rewrite Ht. }
  unfold handle_rtc_io. cbn [Z.eqb Pos.eqb negb]. unfold bind at 1. unfold gets at 1. rewrite Hi, (proj2 (Z.ltb_lt i RTC_CMOS_SIZE)) by lia.
  unfold bind at 1. unfold rtc_ioport_read. change (Z.land 0x71 1 =? 0) with false. cbv iota. unfold bind at 1. unfold gets at 1. cbv zeta. rewrite Hi, Ht.
  unfold read_time_reg. unfold bind at 1. rewrite (cmos_run s RTC_REG_B b) by done. rewrite Hset. cbn [negb when]. unfold bind at 1.
  rewrite (fetch_date_run s b) by (done || apply Hr). rewrite (cmos_run _ i (date_reg b (gmtime (local_at (pl_wall s) (now_of s))) i)); [done|lia|].
  apply with_date_at; [apply Hr|done].
Qed.

(** ** The alarm *)

Lemma date_hms x : 0 <= x < 2 ^ 39 -> exists q, x = clock_time q (tm_hour (gmtime x)) (tm_min (gmtime x)) (tm_sec (gmtime x)) /\ valid_date (gmtime x).
Proof.
  intros Hx. destruct (gmtime_spec x ltac:(lia)) as [Hv Hs]. rewrite u64_of in Hv, Hs by lia.
  exists (days_to (tm_year (gmtime x) + 1900) + date_yday (gmtime x)). split; [|done]. rewrite <- Hs at 1. unfold date_seconds, clock_time. lia.
Qed.

(** The next second of the clock, as rtc.c computes it *)
Definition next_second (w : wallclock) (us_now now : Z) : Z :=
  u64 ((USEC_PER_SEC - local_us_at w us_now mod USEC_PER_SEC) * NS_PER_USEC + now).

Lemma alarm_run s b c xs xm xh : rtc_ok (pl_rtc s) -> cmos_data (pl_rtc s) !! 11%nat = Some b -> cmos_data (pl_rtc s) !! 12%nat = Some c ->
  cmos_data (pl_rtc s) !! 1%nat = Some xs -> cmos_data (pl_rtc s) !! 3%nat = Some xm -> cmos_data (pl_rtc s) !! 5%nat = Some xh ->
  flag c RTC_AF = false -> flag b RTC_SET = false -> valid_date (gmtime (local_at (pl_wall s) (now_of s))) ->
  exists s', alarm_timer_update clk s = (s', Ok tt) /\ alarm_timer (pl_rtc s') = Some (s64 (u64 (
    (next_alarm_sec (dont_care xh) (dont_care xm) (dont_care xs) (convert_hour b xh) (from_bcd b xm) (from_bcd b xs)
       (tm_hour (gmtime (local_at (pl_wall s) (now_of s)))) (tm_min (gmtime (local_at (pl_wall s) (now_of s))))
       (tm_sec (gmtime (local_at (pl_wall s) (now_of s)))) - 1) * NS_PER_SEC +
    next_second (pl_wall s) (now_of (tick s)) (now_of (tick (tick s)))))).
Proof.
  intros Hr Hb Hc Hxs Hxm Hxh Haf Hset Hd. set (s1 := set_pl_rtc (set_alarm_timer None (pl_rtc s)) s). set (d := gmtime _) in *.
  assert (length (cmos_data (pl_rtc s)) = 14%nat) as Hl by apply Hr.
  unfold alarm_timer_update. unfold bind at 1. change (on_rtc (set_alarm_timer None) s) with (s1, Ok tt). cbv iota.
  unfold bind at 1. rewrite (cmos_run s1 RTC_REG_C c) by done. unfold bind at 1. rewrite (cmos_run s1 RTC_REG_B b) by done. rewrite Haf, Hset. cbn [negb andb].
  unfold bind at 1. rewrite (fetch_date_run s1 b) by done. change (now_of s1) with (now_of s).
  set (s2 := fetched b s1).
  assert (forall i x, is_time_reg i = false -> 0 <= i -> cmos_data (pl_rtc s) !! Z.to_nat i = Some x -> cmos i s2 = (s2, Ok x)) as Hother.
  { intros i x Hi Hpos Hx. apply cmos_run; [done|]. rewrite <- Hx. apply with_date_other. by rewrite Z2Nat.id. }
  assert (forall i, is_time_reg i = true -> 0 <= i -> cmos i s2 = (s2, Ok (date_reg b d i))) as Htime.
  { intros i Hi Hpos. apply cmos_run; [done|]. by apply with_date_at. }
  unfold bind at 1. rewrite (Hother RTC_SECONDS_ALARM xs) by done. unfold bind at 1. rewrite (Hother RTC_MINUTES_ALARM xm) by done.
  unfold bind at 1. rewrite (Hother RTC_HOURS_ALARM xh) by done. unfold bind at 1. rewrite (Htime RTC_SECONDS) by done.
  unfold bind at 1. rewrite (Htime RTC_MINUTES) by done. unfold bind at 1. rewrite (Htime RTC_HOURS) by done.
  unfold bind at 1. rewrite localtime_us_run. unfold bind at 1. rewrite now_run. cbv zeta.
  eexists. split; [reflexivity|]. cbn [alarm_timer pl_rtc set_pl_rtc set_alarm_timer].
  destruct Hd as [_ _ _ D1 D2 D3 _]. unfold date_reg. cbn [Z.eqb Pos.eqb RTC_SECONDS RTC_MINUTES RTC_HOURS].
  rewrite !bcd_back, hour_back by lia. done.
Qed.
End Run.
