(* ===== verification/TimerSystem.v ===== *)
(** * The timer devices: their start

    The order of xen/arch/x86/hvm/hvm.c and xen/common/domain.c:
    [hvm_domain_initialise] starts the guest's time and the clock,
    [hvm_vcpu_initialise] of the first vcpu the PIT, the PM timer and the HPET,
    before [alloc_vcpu] makes that vcpu visible in the domain and starts the host
    timers of the clock. *)

From stdpp Require Import base list numbers.
From Stdlib Require Import ZArith Lia Bool.
From S2P Require Import Prelude Vpic VpicInv VpicOps HvmState Vlapic Vioapic HvmIrq VioapicInv.
From S2P Require Import VioapicOps HvmIrqOps HvmIrqRun VlapicRegs HvmLapic HvmIrqSystem Vpt VptOps.
From S2P Require Import VptLists VptSystem Calendar TimerDev PmTimer Hpet Rtc TimerDevInv HpetRegs RtcRun.

Open Scope Z_scope.
Open Scope se_scope.

(** The memory of the domain, cleared *)
Definition zero_channel : hvm_hw_pit_channel := {|
  ch_count := 0; latched_count := 0; count_latched := 0; status_latched := false; ch_status := 0; read_state := 0;
  write_state := 0; write_latch := 0; rw_mode := 0; ch_mode := 0; ch_bcd := 0; ch_gate := 0 |}.
Definition zero_pit : PITState := {| channels := replicate 3 zero_channel; speaker_data_on := 0; count_load_time := replicate 3 0 |}.
Definition zero_pmt : PMTState := {|
  tmr_val := 0; pm1a_sts := 0; pm1a_en := 0; pmt_vcpu := None; last_gtime := 0; not_accounted := 0; pmt_scale := 0; pmt_timer := None |}.
Definition zero_hpet : HPETState := {|
  hpet := {| capability := 0; hp_config := 0; hp_isr := 0; mc64 := 0;
             hp_timers := replicate HPET_TIMER_NUM {| tn_config := 0; tn_cmp := 0; tn_fsb := 0 |};
             hp_period := replicate HPET_TIMER_NUM 0; comparator64 := replicate HPET_TIMER_NUM 0 |};
  stime_freq := 0; hpet_to_ns_scale := 0; hpet_to_ns_limit := 0; mc_offset := 0 |}.
Definition zero_tm : tm := {|
  tm_sec := 0; tm_min := 0; tm_hour := 0; tm_mday := 0; tm_mon := 0; tm_year := 0; tm_wday := 0; tm_yday := 0; tm_isdst := 0 |}.
Definition zero_rtc : RTCState := {|
  cmos_data := replicate 14 0; cmos_index := 0; current_tm := zero_tm; update_timer := None; update_timer2 := None;
  next_update_time := 0; alarm_timer := None; start_time := 0; check_ticks_since := 0; rtc_period := 0;
  pt_dead_ticks := 0; use_timer := 0 |}.
Definition new_pldom (v : vst) (w : wallclock) : pldom :=
  {| pl_v := v; pl_pit := zero_pit; pl_pmt := zero_pmt; pl_hpet := zero_hpet; pl_rtc := zero_rtc; pl_wall := w; pl_crashed := false |}.

(** What happens before the first vcpu is visible in the domain *)
Definition show_vcpus (l : list vcpu) (s : pldom) : pldom := set_pl_v (set_vs_hw (set_vcpus l (vs_hw (pl_v s))) (pl_v s)) s.
Definition before_vcpu0 {A} (m : SE pldom A) : SE pldom A := fun s =>
  let '(s', r) := m (show_vcpus [] s) in (show_vcpus (h_vcpus (vs_hw (pl_v s))) s', r).

Section Boot.
Context (clk : nat -> Z) (n : Z).

Definition timers_init : SE pldom unit :=
  vt (hvm_init_guest_time clk);;
  rtc_init;;
  before_vcpu0 (pit_reset clk);;
  pmtimer_init clk 0;;
  hpet_init;;
  rtc_init_timers clk.

(** ** While the devices start: the timers are as they were cleared *)

Record booting (s : pldom) : Prop := {
  bo_v : vpt_ok n (pl_v s);
  bo_n : 0 < n;
  bo_pts : forall id, (id < 5)%nat -> vs_pts (pl_v s) !! id = Some cleared_pt;
  bo_target : i8259_target (h_pics (vs_hw (pl_v s))) = None
}.

(** A change of a timer to what it is *)
Lemma upd_same id f pt s : vs_pts s !! id = Some pt -> f pt = pt -> upd_pt id f s = (s, Ok tt).
Proof.
  intros Hpt Hf. unfold upd_pt, modify. rewrite (alter_insert f (vs_pts s) id pt Hpt), Hf, list_insert_id by done. by destruct s.
Qed.
Lemma vt_same {A} (m : SE vst A) a s : m (pl_v s) = (pl_v s, Ok a) -> vt m s = (s, Ok a).
Proof. intros H. unfold vt, zoom. rewrite H. by destruct s. Qed.
Lemma destroy_cleared id s : vs_pts (pl_v s) !! id = Some cleared_pt -> vt (destroy_periodic_time id) s = (s, Ok tt).
Proof. intros H. apply (vt_same _ tt). unfold destroy_periodic_time, the_pt, bind, gets, get. by rewrite H. Qed.

(** ** The PIT *)

Definition reset_channel (gate : Z) (c : hvm_hw_pit_channel) : hvm_hw_pit_channel := ch_set_count 0x10000 (ch_set_gate 0xff gate c).
Definition reset_pit : PITState := {|
  channels := (fun gate => reset_channel gate zero_channel) <$> [1; 1; 0]; speaker_data_on := 0; count_load_time := replicate 3 0 |}.

Lemma load_untargeted i c t s : 0 <= i -> channels (pl_pit s) !! Z.to_nat i = Some c -> count_load_time (pl_pit s) !! Z.to_nat i = Some t ->
  pt_global_vcpu_target (vs_hw (pl_v s)) = None ->
  pit_load_count clk i 0 s = (set_load_time i 0;; upd_channel i (ch_set_count 0x10000)) s.
Proof.
  intros Hi Hc Ht Hn. unfold pit_load_count. cbn [Z.eqb]. unfold bind at 1. unfold the_channel, bind, get, bug_if, ret.
  rewrite Hc, (proj2 (Z.ltb_ge i 0)) by lia. unfold the_load_time, bind, get, bug_if, ret. by rewrite Ht, (proj2 (Z.ltb_ge i 0)), Hn by lia.
Qed.

(** The PIT with one more channel reset *)
Definition with_reset (i : Z) (p : PITState) : PITState := {|
  channels := alter (reset_channel (if i =? 2 then 0 else 1)) (Z.to_nat i) (channels p);
  speaker_data_on := speaker_data_on p; count_load_time := <[Z.to_nat i := 0]> (count_load_time p) |}.
Lemma reset_step k i c t s : 0 <= i -> channels (pl_pit s) !! Z.to_nat i = Some c -> count_load_time (pl_pit s) !! Z.to_nat i = Some t ->
  pt_global_vcpu_target (vs_hw (pl_v s)) = None ->
  reset_channels clk (S k) i s = reset_channels clk k (i + 1) (set_pl_pit (with_reset i (pl_pit s)) s).
Proof.
  intros Hi Hc Ht Hn. cbn [reset_channels]. unfold bind at 1. unfold upd_channel at 1, on_pit, modify. unfold bind at 1.
  erewrite load_untargeted; [|done|cbn; by rewrite list_lookup_alter_eq, Hc|cbn; exact Ht|done].
  unfold bind at 1. unfold set_load_time, upd_channel, on_pit, modify. f_equal. destruct s as [v pit pmt hp rtc w cr]. unfold set_pl_pit, with_reset.
  cbn in *. do 2 f_equal. apply list_eq. intros j. rewrite !list_lookup_alter. destruct (decide (Z.to_nat i = j)) as [<-|]; [|done].
  rewrite decide_True by done. by rewrite Hc.
Qed.

Lemma pit_reset_zero s : pl_pit s = zero_pit -> vs_pts (pl_v s) !! PIT_TIMER = Some cleared_pt ->
  pt_global_vcpu_target (vs_hw (pl_v s)) = None -> pit_reset clk s = (set_pl_pit reset_pit s, Ok tt).
Proof.
  intros Hp Hpt Hn. unfold pit_reset. unfold bind at 1. rewrite (destroy_cleared _ _ Hpt). unfold bind at 1.
  rewrite (vt_same _ tt); [|by apply (upd_same _ _ cleared_pt)]. destruct s as [v pit pmt hp rtc w cr]. cbn in Hp, Hn. subst pit.
  by rewrite (reset_step 2 0 zero_channel 0), (reset_step 1 1 zero_channel 0), (reset_step 0 2 zero_channel 0).
Qed.
Lemma reset_pit_ok : pit_ok reset_pit.
Proof. split; [by split|]. by repeat constructor. Qed.

Lemma show_same s : show_vcpus (h_vcpus (vs_hw (pl_v s))) (show_vcpus [] s) = s.
Proof. by destruct s as [[[]]]. Qed.
Lemma pit_before_vcpu0 s : booting s -> pl_pit s = zero_pit -> before_vcpu0 (pit_reset clk) s = (set_pl_pit reset_pit s, Ok tt).
Proof.
  intros Hs Hp. unfold before_vcpu0. rewrite pit_reset_zero; [|done|by apply (bo_pts _ Hs); unfold PIT_TIMER; lia|].
  - f_equal. by rewrite <- (show_same s) at 3.
  - unfold pt_global_vcpu_target. cbn. rewrite (bo_target _ Hs). by rewrite orb_true_r.
Qed.

(** ** The clock *)

Definition started_cmos : list Z := replicate 10 0 ++ [0x26; 0x02; 0x00; 0x80].
Lemma rtc_init_zero s : booting s -> pl_rtc s = zero_rtc -> rtc_init s = (set_pl_rtc (set_cmos_data started_cmos zero_rtc) s, Ok tt).
Proof.
  intros Hs Hr. assert (vs_pts (pl_v s) !! RTC_TIMER = Some cleared_pt) as Hpt by (apply (bo_pts _ Hs); unfold RTC_TIMER; lia).
  unfold rtc_init, rtc_reset, stop_rtc_timer. unfold bind at 1. unfold bind at 1. unfold bind at 1. rewrite (destroy_cleared _ _ Hpt).
  unfold on_rtc at 1, modify. rewrite Hr. rewrite (vt_same _ tt); [|by apply (upd_same _ _ cleared_pt)]. by destruct s.
Qed.

(** ** All the devices *)

Lemma booting_rtc r s : booting s -> booting (set_pl_rtc r s).
Proof. by intros []. Qed.
Lemma booting_pit p s : booting s -> booting (set_pl_pit p s).
Proof. by intros []. Qed.

Record booted (s : pldom) : Prop := {
  bt_v : vpt_ok n (pl_v s);
  bt_n : 0 < n;
  bt_pts : forall id, (id < 5)%nat -> vs_pts (pl_v s) !! id = Some cleared_pt;
  bt_pit : pit_ok (pl_pit s);
  bt_rtc : rtc_ok (pl_rtc s);
  bt_pmt : exists v, pmt_vcpu (pl_pmt s) = Some v /\ 0 <= v < n
}.
#[local] Instance booted_timers : TimerClient n booted.
Proof. split; [by intros s []|by intros s []|]. intros s v [H1 H2 H3 H4 H5 H6] Hv E. split; try done. cbn. by rewrite E. Qed.
#[local] Instance booted_pmt : PmtClient n booted.
Proof. split; [by intros s []|]. intros s p [] E. split; try done. cbn. by rewrite E. Qed.

Lemma hpet_cleared ts : forall s, (forall tn, tn ∈ ts -> (tn < 3)%nat) -> (forall id, (id < 5)%nat -> vs_pts (pl_v s) !! id = Some cleared_pt) ->
  each_timer ts (fun tn => vt (upd_pt (hpet_pt tn) (fun _ => cleared_pt))) s = (s, Ok tt).
Proof.
  induction ts as [|tn ts IH]; intros s Hts Hs; [done|]. cbn [each_timer]. unfold bind.
  rewrite (vt_same _ tt); [apply IH; [|done]; intros x Hx; apply Hts; by right|].
  apply (upd_same _ _ cleared_pt); [|done]. apply Hs. specialize (Hts tn ltac:(left)). unfold hpet_pt. lia.
Qed.

Lemma fresh_shape : hpet_shape fresh_hpet.
Proof.
  split; [by vm_compute..| | |].
  - by repeat constructor.
  - by repeat constructor.
  - intros tn t p _ _ Hp. apply lookup_replicate_1 in Hp as [-> _]. lia.
Qed.

Lemma hpet_start s : booted s -> wp hpet_init (fun _ => pl_ok n []) s.
Proof.
  intros [H1 H2 H3 H4 H5 H6]. unfold hpet_init. apply wp_bind, wp_modify. eapply wp_eq.
  - apply hpet_cleared; [|done]. intros tn Hin. by apply elem_of_seq in Hin as [_ ?].
  - split; [|intros tn (He & _); by vm_compute in He]. split; try done. apply fresh_shape.
Qed.

(** The guest's time starts: the host's clock is read. *)
Lemma boot_time h p w : hw_sound n h -> zlen (h_vcpus h) = n -> 0 < n -> 0 <= vpt_coalesce_ns p -> i8259_target (h_pics h) = None ->
  exists v, vt (hvm_init_guest_time clk) (new_pldom (new_vst h p) w) = (set_pl_v v (new_pldom (new_vst h p) w), Ok tt) /\
    booting (set_pl_v v (new_pldom (new_vst h p) w)).
Proof.
  intros Hh Hn Hpos Hp Ht. pose proof (new_vst_ok n h p Hh Hn Hp) as H0.
  destruct (wp_inv _ _ _ (vop_wp clk n VInitTime _ H0 ltac:(done))) as (v & [] & E & Hv). cbn [run_vop] in E. exists v. split.
  - unfold vt, zoom. cbn [pl_v new_pldom]. by rewrite E.
  - injection E as <-. split; [done|done| |done]. intros id Hid. change (vs_pts (new_vst h p) !! id = Some cleared_pt). cbn [vs_pts new_vst]. rewrite list_lookup_fmap, lookup_seq_lt by lia.
    cbn [fmap option_fmap option_map]. rewrite Nat.add_0_l. unfold fresh_pt, cleared_pt. by rewrite (proj2 (Nat.ltb_lt id 5)).
Qed.

(** The devices start, and no comparator is enabled. *)
Lemma timers_init_wp h p w : hw_sound n h -> zlen (h_vcpus h) = n -> 0 < n -> 0 <= vpt_coalesce_ns p -> i8259_target (h_pics h) = None ->
  wp timers_init (fun _ s => pl_ok n [] s) (new_pldom (new_vst h p) w).
Proof.
  intros Hh Hn Hpos Hp Ht. destruct (boot_time h p w Hh Hn Hpos Hp Ht) as (v & E & Hb). unfold timers_init. apply wp_bind. eapply wp_eq; [exact E|].
  apply wp_bind. eapply wp_eq; [by apply rtc_init_zero|]. apply wp_bind. eapply wp_eq; [by apply pit_before_vcpu0; [apply booting_rtc|]|].
  apply wp_bind. unfold pmtimer_init. apply wp_bind, wp_modify. eapply wp_mono.
  - apply (pmt_callback_ok clk n booted). destruct Hb as [B1 B2 B3 B4]. split; try done; [apply reset_pit_ok| |by exists 0].
    split; [done|by repeat constructor|done|done].
  - intros [] s Hs. apply wp_bind. eapply wp_mono; [by apply hpet_start|]. intros [] s' Hs'. by apply (init_timers_ok clk n (pl_ok n [])).
Qed.
End Boot.

(** * The timer devices as a system

    The accesses of the guest to the timer devices, what happens to the platform
    timers, and the states these reach from the start of the devices. *)

(** [DFired] is the callback of the PIT's timer, [DPmtTick] the host timer of
    the PM timer; [DRtcTick] is the callback of the clock's timer, [DRtcUpdate],
    [DRtcEnded] and [DRtcAlarm] its host timers, [DRtcClock], [DTimeOffset] and
    [DSetTime] change the wall clock. *)
Inductive dop : Type :=
| DVpt (op : vop)
| DPit (write : bool) (port bytes val : Z)
| DSpeaker (write : bool) (val : Z)
| DFired (v : Z)
| DPmt (locked write : bool) (port bytes : Z)
| DEvt (v1 write : bool) (port bytes val : Z)
| DPmtTick
| DPowerButton
| DSleepButton
| DRtc (write : bool) (port bytes val : Z)
| DRtcTick
| DRtcUpdate
| DRtcEnded
| DRtcAlarm
| DRtcClock
| DTimeOffset (offset : Z)
| DSetTime (secs nsecs base : Z)
| DHpetRead (addr len : Z)
| DHpetWrite (addr len val : Z).

(** A computation whose result is not needed *)
Definition ignore {S A} (m : SE S A) : SE S unit := m;; ret tt.

Section System.
Context (clk : nat -> Z).

Definition run_dop (op : dop) : SE pldom unit :=
  match op with
  | DVpt op => vt (run_vop clk op)
  | DPit w port bytes val => ignore (handle_pit_io clk w port bytes val)
  | DSpeaker w val => ignore (handle_speaker_io clk w 1 val)
  | DFired v => pit_time_fired clk v
  | DPmt locked w port bytes => ignore (handle_pmt_io clk locked w port bytes)
  | DEvt v1 w port bytes val => ignore (handle_evt_io v1 w port bytes val)
  | DPmtTick => pmt_timer_callback clk
  | DPowerButton => hvm_acpi_power_button
  | DSleepButton => hvm_acpi_sleep_button
  | DRtc w port bytes val => ignore (handle_rtc_io clk w port bytes val)
  | DRtcTick => rtc_pf_callback
  | DRtcUpdate => rtc_update_timer
  | DRtcEnded => rtc_update_timer2 clk
  | DRtcAlarm => rtc_alarm_cb clk
  | DRtcClock => rtc_update_clock clk
  | DTimeOffset offset => domain_set_time_offset clk offset
  | DSetTime secs nsecs base => do_settime secs nsecs base
  | DHpetRead addr len => ignore (hpet_read clk addr len)
  | DHpetWrite addr len val => hpet_write clk addr len val
  end.

(** The HPET creates its timers itself; the guest is careful with the HPET. *)
Definition dop_ok (n : Z) (op : dop) (s : pldom) : Prop :=
  match op with
  | DVpt op => vop_ok n op (pl_v s) /\
      (forall v id delta p irq cb, op = VCreate v id delta p irq cb -> forall tn, (tn < 3)%nat -> id <> hpet_pt tn)
  | DFired v => 0 <= v < n
  | DHpetWrite addr len val => polite addr len val s
  | _ => True
  end.

Lemma holds_ignore {S A} (I : S -> Prop) (m : SE S A) : holds I m -> holds I (ignore m).
Proof. intros Hm. apply holds_bind; [done|]. intros a. apply holds_ret. Qed.
Lemma holds_sane n m s : holds (pl_ok n []) m -> pl_ok n [] s -> wp m (fun _ : unit => sane n) s.
Proof. intros Hm Hs. eapply wp_mono; [by apply Hm|]. intros [] s' H. by right. Qed.

(** Every operation succeeds; the domain has its invariant, or it is crashed. *)
Lemma dop_wp n op s : pl_ok n [] s -> dop_ok n op s -> wp (run_dop op) (fun _ => sane n) s.
Proof.
  intros Hs Hop. destruct op; cbn [run_dop dop_ok] in *;
    [|apply holds_sane; [try apply holds_ignore|done]..|].
  - destruct Hop as [Hop Hc]. eapply wp_mono; [apply (vt_at n (pl_ok n [])); [exact Hs| |]|intros [] s' H; by right].
    + apply vop_wp; [apply (pk_v _ _ (proj1 Hs))|done].
    + intros tn b Htn. apply vop_owner. intros v delta p irq cb ->. by eapply Hc.
  - by apply (pit_io_ok clk n (pl_ok n [])).
  - by apply (speaker_ok clk n (pl_ok n [])).
  - by apply (time_fired_ok clk n (pl_ok n [])).
  - by apply (pmt_io_ok clk n (pl_ok n [])).
  - by apply (evt_io_ok n (pl_ok n [])).
  - by apply (pmt_callback_ok clk n (pl_ok n [])).
  - by apply (buttons_ok n (pl_ok n [])).
  - by apply (buttons_ok n (pl_ok n [])).
  - by apply (rtc_io_ok clk n (pl_ok n [])).
  - by apply (pf_callback_ok clk n (pl_ok n [])).
  - by apply (host_update_ok clk n (pl_ok n [])).
  - by apply (host_update_ok clk n (pl_ok n [])).
  - by apply (alarm_cb_ok clk n (pl_ok n [])).
  - by apply (update_clock_ok clk n (pl_ok n [])).
  - by apply (time_offset_ok clk n (pl_ok n [])).
  - by apply (settime_ok (pl_ok n [])).
  - by apply hpet_read_ok.
  - by apply (hpet_write_wp clk n).
Qed.

Lemma wp_ran {S A} (m : SE S A) (Q : A -> S -> Prop) s s' a : wp m Q s -> m s = (s', Ok a) -> Q a s'.
Proof. intros H E. unfold wp in H. by rewrite E in H. Qed.

(** The states that the operations reach, of a domain that has not crashed *)
Inductive dreach (n : Z) : pldom -> Prop :=
| dreach_boot h p w pit0 s : hreach pit0 h -> i8259_target (h_pics h) = None -> zlen (h_vcpus h) = n -> 0 < n -> 0 <= vpt_coalesce_ns p ->
    timers_init clk (new_pldom (new_vst h p) w) = (s, Ok tt) -> dreach n s
| dreach_step op s s' : dreach n s -> pl_crashed s = false -> dop_ok n op s -> run_dop op s = (s', Ok tt) -> dreach n s'.

Lemma dreach_sane n s : dreach n s -> sane n s.
Proof.
  induction 1 as [h p w pit0 s Hh Ht Hn Hpos Hp Hrun|op s s' Hr [IH|IH] Hc Hop Hrun]; [|congruence|].
  - right. destruct (hreach_all pit0 h Hh) as [[H1 H2] H3]. rewrite Hn in H3.
    exact (wp_ran _ _ _ _ _ (timers_init_wp clk n h p w ltac:(by split) Hn Hpos Hp Ht) Hrun).
  - exact (wp_ran _ _ _ _ _ (dop_wp n op s IH Hop) Hrun).
Qed.
Lemma dreach_ok n s : dreach n s -> pl_crashed s = false -> pl_ok n [] s.
Proof. intros Hr Hc. destruct (dreach_sane n s Hr) as [H|H]; [congruence|done]. Qed.
End System.

(** * The timer devices: what an access leaves alone

    Properties of the domain that do not look at the platform timers, at the PIT
    or at the comparators survive the parts of the devices that only change
    these. *)

(** A computation that succeeds and one that keeps a property *)
Lemma wp_keep {S A} (J : S -> Prop) (m : SE S A) Q s : wp m Q s -> preserves J m -> J s -> wp m (fun a s' => Q a s' /\ J s') s.
Proof. intros Hw Hk Hs. specialize (Hk s Hs). unfold wp in *. by destruct (m s) as [s' []]. Qed.

Section Frame.
Context (clk : nat -> Z) (J : pldom -> Prop).

Section Comparators.
(** [J] does not look at the timers, the PIT and the comparators. *)
Context (Jv : forall s v, J s -> J (set_pl_v v s)).

Lemma vt_frame {A} (m : SE vst A) : preserves J (vt m).
Proof. intros s Hs. unfold vt, zoom. destruct (m (pl_v s)) as [v r]. by apply Jv. Qed.
#[local] Hint Resolve vt_frame : keep.
Lemma target_frame : preserves J the_target.
Proof. unfold the_target. se_keep. Qed.
Lemma time_frame v : preserves J (get_guest_time clk v).
Proof. unfold get_guest_time. se_keep. Qed.
#[local] Hint Resolve target_frame time_frame : keep.
Lemma sci_frame : preserves J pmt_update_sci.
Proof. unfold pmt_update_sci, pmt_the_vcpu. se_keep. Qed.
Lemma hpet_time_frame : preserves J (guest_time_hpet clk).
Proof. unfold guest_time_hpet. se_keep. Qed.
#[local] Hint Resolve hpet_time_frame : keep.
Lemma maincounter_frame : preserves J (hpet_read_maincounter clk).
Proof. unfold hpet_read_maincounter, hregs. se_keep. Qed.
#[local] Hint Resolve maincounter_frame : keep.

Context (Jc : forall tn x, preserves J (on_hregs (set_comparator tn x))).
Context (Jt : forall tn x, preserves J (on_hregs (upd_htimer tn (set_tn_cmp x)))).
#[local] Hint Resolve Jc Jt : keep.

Lemma comparator_frame tn : preserves J (hpet_get_comparator clk tn).
Proof. unfold hpet_get_comparator, the_htimer, hregs, at_tn. cbv zeta. se_keep. Qed.
#[local] Hint Resolve comparator_frame : keep.
Lemma read64_frame addr : preserves J (hpet_read64 clk addr).
Proof. unfold hpet_read64, the_htimer, hregs, at_tn. cbv zeta. se_keep. Qed.
Lemma each_frame l body : (forall tn, preserves J (body tn)) -> preserves J (each_timer l body).
Proof. intros Hb. induction l as [|tn l IH]; cbn [each_timer]; se_keep. Qed.
Lemma apply_frame ch : preserves J (hpet_apply clk ch).
Proof.
  unfold hpet_apply. apply preserves_bind; [|intros _; apply preserves_bind; [|intros _]]; apply each_frame; intros tn.
  - unfold hpet_stop_timer. se_keep.
  - unfold hpet_set_timer, the_htimer, hregs, at_tn, pit_stop_channel0_irq. cbv zeta. se_keep.
  - unfold hpet_update_timer, the_htimer, hregs, at_tn, pit_stop_channel0_irq. cbv zeta. se_keep.
Qed.
End Comparators.

(** [J] looks at the PM timer only. *)
Section Others.
Context (Jv : forall s v, J s -> J (set_pl_v v s)) (Jp : forall s p, J s -> J (set_pl_pit p s)).
Context (Jh : forall s h, J s -> J (set_pl_hpet h s)) (Jx : preserves J domain_crash).

Lemma on_pit_frame f : preserves J (on_pit f).
Proof. apply preserves_modify. intros s. apply Jp. Qed.
Lemma on_hpet_frame f : preserves J (on_hpet f).
Proof. apply preserves_modify. intros s. apply Jh. Qed.
Lemma on_hregs_frame f : preserves J (on_hregs f).
Proof. apply on_hpet_frame. Qed.
Lemma chan_frame i f : preserves J (upd_channel i f).
Proof. apply on_pit_frame. Qed.
Lemma load_time_frame i t : preserves J (set_load_time i t).
Proof. apply on_pit_frame. Qed.
#[local] Hint Resolve on_pit_frame on_hpet_frame on_hregs_frame chan_frame load_time_frame Jx target_frame : keep.
#[local] Hint Extern 2 (preserves J _) => first [apply (vt_frame Jv) | apply (time_frame Jv) | apply (hpet_time_frame Jv) | apply (maincounter_frame Jv)] : keep.

Lemma elapsed_frame i : preserves J (pit_elapsed clk i).
Proof. unfold pit_elapsed, the_load_time, muldiv64. se_keep. Qed.
Lemma channel_frame i : preserves J (the_channel i).
Proof. unfold the_channel. se_keep. Qed.
#[local] Hint Resolve elapsed_frame channel_frame : keep.
Lemma count_frame i : preserves J (pit_get_count clk i).
Proof. unfold pit_get_count. se_keep. Qed.
Lemma out_frame i : preserves J (pit_get_out clk i).
Proof. unfold pit_get_out. se_keep. Qed.
#[local] Hint Resolve count_frame out_frame : keep.
Lemma load_frame i val : preserves J (pit_load_count clk i val).
Proof. unfold pit_load_count, load_timer, the_load_time. cbv zeta. se_keep. Qed.
Lemma latch_frame i : preserves J (pit_latch_count clk i) /\ preserves J (pit_latch_status clk i).
Proof. unfold pit_latch_count, pit_latch_status. split; se_keep. Qed.
Lemma read_back_frame k : forall i val, preserves J (read_back clk k i val).
Proof. induction k as [|k IH]; intros i val; cbn [read_back]; se_keep; apply latch_frame. Qed.
#[local] Hint Resolve load_frame read_back_frame : keep.
Lemma pit_io_frame w port bytes val : preserves J (handle_pit_io clk w port bytes val).
Proof. unfold handle_pit_io, pit_ioport_write, pit_ioport_read. cbv zeta. se_keep. apply latch_frame. Qed.
Lemma speaker_frame w bytes val : preserves J (handle_speaker_io clk w bytes val).
Proof. unfold handle_speaker_io, speaker_ioport_write, speaker_ioport_read, set_speaker, pit_set_gate, pit_get_gate. cbv zeta. se_keep. Qed.
Lemma pit_reset_frame : preserves J (pit_reset clk).
Proof. unfold pit_reset. se_keep. generalize 3%nat 0. intros k. induction k as [|k IH]; intros i; cbn [reset_channels]; se_keep. Qed.

Lemma hpet_read_frame addr len : preserves J (hpet_read clk addr len).
Proof. unfold hpet_read. cbv zeta. se_keep. apply read64_frame; [done|intros; apply on_hregs_frame..]. Qed.
Lemma hpet_write_frame addr len val : preserves J (hpet_write clk addr len val).
Proof.
  unfold hpet_write. cbv zeta. destruct (negb _); [apply preserves_ret|]. apply preserves_bind; [apply read64_frame; [done|intros; apply on_hregs_frame..]|]. intros old.
  apply preserves_bind; [|intros ch; apply apply_frame; [done|intros; apply on_hregs_frame..]].
  unfold hpet_write_reg, write_cfg, write_counter, write_tn_cfg, write_tn_cmp, store_cmp, set_mc_offset, the_htimer, hregs, at_tn. cbv zeta. se_keep.
Qed.

(** The clock *)
Context (Jr : forall s r, J s -> J (set_pl_rtc r s)) (Jw : forall s w, J s -> J (set_pl_wall w s)).

Lemma on_rtc_frame f : preserves J (on_rtc f).
Proof. apply preserves_modify. intros s. apply Jr. Qed.
Lemma wall_frame f : preserves J (modify (fun s => set_pl_wall (f s) s)).
Proof. apply preserves_modify. intros s. apply Jw. Qed.
#[local] Hint Resolve on_rtc_frame wall_frame : keep.
Lemma cmos_frame i : preserves J (cmos i).
Proof. unfold cmos. se_keep. Qed.
#[local] Hint Resolve cmos_frame : keep.
Lemma set_cmos_frame i x : preserves J (set_cmos i x).
Proof. unfold set_cmos. se_keep. Qed.
#[local] Hint Resolve set_cmos_frame : keep.
Lemma or_cmos_frame i m : preserves J (or_cmos i m).
Proof. unfold or_cmos. se_keep. Qed.
Lemma rtc_stop_frame : preserves J stop_rtc_timer.
Proof. unfold stop_rtc_timer. se_keep. Qed.
Lemma localtime_frame : preserves J (get_localtime clk).
Proof. unfold get_localtime. se_keep. Qed.
Lemma localtime_us_frame : preserves J (get_localtime_us clk).
Proof. unfold get_localtime_us. se_keep. Qed.
#[local] Hint Resolve or_cmos_frame rtc_stop_frame localtime_frame localtime_us_frame : keep.
Lemma copy_date_frame : preserves J rtc_copy_date.
Proof. unfold rtc_copy_date. cbv zeta. se_keep. Qed.
#[local] Hint Resolve copy_date_frame : keep.
Lemma fetch_date_frame : preserves J (rtc_fetch_date clk).
Proof. unfold rtc_fetch_date. se_keep. Qed.
Lemma set_time_frame : preserves J rtc_set_time.
Proof. unfold rtc_set_time, update_domain_wallclock_time. se_keep. Qed.
Lemma update_irq_frame : preserves J rtc_update_irq.
Proof. unfold rtc_update_irq. se_keep. Qed.
Lemma pf_ticks_frame : preserves J (check_for_pf_ticks clk).
Proof. unfold check_for_pf_ticks. se_keep. Qed.
Lemma timer_update_frame : preserves J (rtc_timer_update clk).
Proof. unfold rtc_timer_update. cbv zeta. se_keep. Qed.
Lemma check_update_frame : preserves J (check_update_timer clk).
Proof. unfold check_update_timer. cbv zeta. se_keep. Qed.
#[local] Hint Resolve fetch_date_frame set_time_frame update_irq_frame pf_ticks_frame timer_update_frame check_update_frame : keep.
Lemma alarm_update_frame : preserves J (alarm_timer_update clk).
Proof. unfold alarm_timer_update. cbv zeta. se_keep. Qed.
#[local] Hint Resolve alarm_update_frame : keep.
Lemma rtc_io_frame w port bytes val : preserves J (handle_rtc_io clk w port bytes val).
Proof.
  unfold handle_rtc_io, rtc_ioport_write, rtc_ioport_read, write_time_reg, write_reg_a, write_reg_b, read_time_reg, read_reg_a, read_reg_c, update_in_progress.
  cbv zeta. se_keep.
Qed.
Lemma rtc_host_frame : preserves J rtc_pf_callback /\ preserves J rtc_update_timer /\ preserves J (rtc_update_timer2 clk) /\ preserves J (rtc_alarm_cb clk).
Proof. unfold rtc_pf_callback, rtc_update_timer, rtc_update_timer2, rtc_alarm_cb. repeat split; se_keep. Qed.
Lemma rtc_init_frame : preserves J rtc_init.
Proof. unfold rtc_init, rtc_reset. se_keep. Qed.
Lemma rtc_init_timers_frame : preserves J (rtc_init_timers clk).
Proof. unfold rtc_init_timers. se_keep. Qed.
End Others.
End Frame.

(** * The PM timer: exactness

    The counter of the PM timer is a function of the guest's time, however often
    and whenever it is read. *)

(** The ticks of a nanosecond as the code has them: a multiple of [1 / 2 ^ 32],
    rounded down. *)
Definition pm_scale : Z := FREQUENCE_PMTIMER * 2 ^ 32 / SYSTEM_TIME_HZ.

(** The ticks until the guest's time [t] in this scale, and the counter then *)
Definition counted_ticks (t : Z) : Z := t * pm_scale / 2 ^ 32.
Definition pm_ticks (t : Z) : Z := counted_ticks t mod 2 ^ 32.

(** The ticks of 3.579545 MHz until [t] *)
Definition acpi_ticks (t : Z) : Z := t * FREQUENCE_PMTIMER / SYSTEM_TIME_HZ.

(** What the rounding of the scale loses: a tick in about 6.05 seconds *)
Lemma scale_lag t : 0 <= t ->
  t / 6100000000 - 1 <= acpi_ticks t - counted_ticks t <= t / 6000000000 + 1.
Proof.
  intros Ht. unfold acpi_ticks, counted_ticks. change pm_scale with 15374028. unfold FREQUENCE_PMTIMER, SYSTEM_TIME_HZ.
  pose proof (Z.div_mod t 6100000000). pose proof (Z.mod_pos_bound t 6100000000).
  pose proof (Z.div_mod t 6000000000). pose proof (Z.mod_pos_bound t 6000000000).
  pose proof (Z.div_mod (t * 3579545) 1000000000). pose proof (Z.mod_pos_bound (t * 3579545) 1000000000).
  pose proof (Z.div_mod (t * 15374028) (2 ^ 32)). pose proof (Z.mod_pos_bound (t * 15374028) (2 ^ 32)). lia.
Qed.

Record pmt_exact (p : PMTState) : Prop := {
  pe_scale : pmt_scale p = pm_scale;
  pe_val : 0 <= tmr_val p < 2 ^ 32;
  pe_rest : 0 <= not_accounted p < 2 ^ 32;
  pe_sum : tmr_val p * 2 ^ 32 + not_accounted p = (last_gtime p * pm_scale) mod 2 ^ 64
}.

Lemma exact_ticks p : pmt_exact p -> tmr_val p = pm_ticks (last_gtime p).
Proof.
  intros [_ H1 H2 H3]. unfold pm_ticks, counted_ticks. set (x := last_gtime p * pm_scale) in *. clearbody x.
  pose proof (Z.div_mod x (2 ^ 64)) as Hx. assert (x = x / 2 ^ 64 * 2 ^ 64 + (tmr_val p * 2 ^ 32 + not_accounted p)) as -> by lia.
  replace (x / 2 ^ 64 * 2 ^ 64 + (tmr_val p * 2 ^ 32 + not_accounted p)) with (not_accounted p + (x / 2 ^ 64 * 2 ^ 32 + tmr_val p) * 2 ^ 32) by lia.
  rewrite Z.div_add, Z.div_small, Z.add_0_l by lia. rewrite Z.add_comm, Z.mod_add by lia. by rewrite Z.mod_small.
Qed.

(** The arithmetic of an update: the ticks are carried over, none is lost. *)
Lemma update_sum v rest g t k : 0 <= v < 2 ^ 32 -> 0 <= rest < 2 ^ 32 -> v * 2 ^ 32 + rest = (g * k) mod 2 ^ 64 ->
  let tmp := u64 (u64 (t - g) * k + rest) in
  Z.land (u32 (v + Z.shiftr tmp 32)) TMR_VAL_MASK * 2 ^ 32 + u32 tmp = (t * k) mod 2 ^ 64.
Proof.
  intros Hv Hr Hs tmp. change TMR_VAL_MASK with (Z.ones 32). rewrite Z.land_ones by lia. unfold u32 at 1. rewrite Z.mod_mod by lia.
  rewrite Z.shiftr_div_pow2 by lia. assert (0 <= tmp < 2 ^ 64) as Ht by (apply Z.mod_pos_bound; lia).
  pose proof (Z.div_mod tmp (2 ^ 32)) as Hd. unfold u32.
  assert ((v + tmp / 2 ^ 32) mod 2 ^ 32 * 2 ^ 32 + tmp mod 2 ^ 32 = (v * 2 ^ 32 + tmp) mod 2 ^ 64) as ->.
  { apply (Z.mod_unique _ _ ((v + tmp / 2 ^ 32) / 2 ^ 32)).
    - left. pose proof (Z.mod_pos_bound (v + tmp / 2 ^ 32) (2 ^ 32)). pose proof (Z.mod_pos_bound tmp (2 ^ 32)). lia.
    - pose proof (Z.div_mod (v + tmp / 2 ^ 32) (2 ^ 32)). lia. }
  pose proof (Z.div_mod (t - g) (2 ^ 64) ltac:(lia)) as E1. pose proof (Z.div_mod (u64 (t - g) * k + rest) (2 ^ 64) ltac:(lia)) as E2.
  pose proof (Z.div_mod (g * k) (2 ^ 64) ltac:(lia)) as E3. rewrite <- Hs in E3. fold (u64 (t - g)) in E1.
  change ((u64 (t - g) * k + rest) mod 2 ^ 64) with tmp in E2.
  set (a := (t - g) / 2 ^ 64) in *. set (b := (u64 (t - g) * k + rest) / 2 ^ 64) in *. set (c := g * k / 2 ^ 64) in *. clearbody tmp a b c.
  replace (v * 2 ^ 32 + tmp) with (t * k + (- (a * k) - b - c) * 2 ^ 64).
  - apply Z.mod_add. lia.
  - assert (u64 (t - g) = t - g - 2 ^ 64 * a) as E4 by lia. rewrite E4 in E2. lia.
Qed.

(** ** The invariant *)

Definition pm_exact (s : pldom) : Prop := pmt_exact (pl_pmt s).
Lemma on_pmt_exact f : (forall p, pmt_exact p -> pmt_exact (f p)) -> preserves pm_exact (on_pmt f).
Proof. intros Hf. apply preserves_modify. intros s. apply Hf. Qed.

Section Exact.
Context (clk : nat -> Z).

Lemma sci_exact : preserves pm_exact pmt_update_sci.
Proof. by apply sci_frame. Qed.
#[local] Hint Resolve sci_exact : keep.
#[local] Hint Extern 2 (preserves pm_exact (on_pmt _)) => apply on_pmt_exact; by intros p [] : keep.
#[local] Hint Extern 2 (preserves pm_exact (vt _)) => by apply vt_frame : keep.

(** What an update stores at the guest's time [t] *)
Lemma updated_exact p t : pmt_exact p ->
  let tmp := u64 (u64 (t - last_gtime p) * pmt_scale p + not_accounted p) in
  pmt_exact (set_tmr_val (Z.land (u32 (tmr_val p + Z.shiftr tmp 32)) TMR_VAL_MASK) (set_accounted t (u32 tmp) p)).
Proof.
  intros [H1 H2 H3 H4] tmp. split; cbn; [done| |apply Z.mod_pos_bound; lia|].
  - change TMR_VAL_MASK with (Z.ones 32). rewrite Z.land_ones by lia. apply Z.mod_pos_bound. lia.
  - unfold tmp. rewrite H1. by apply (update_sum _ _ (last_gtime p)).
Qed.

(** A first part that keeps the stronger property [J] *)
Lemma bind_under {S A B} (J J' : S -> Prop) (m : SE S A) (k : A -> SE S B) s : preserves J m -> (forall s, J s -> J' s) ->
  (forall a s, J s -> J' (fst (k a s))) -> J s -> J' (fst (bind m k s)).
Proof. intros Hm Hi Hk Hs. specialize (Hm s Hs). unfold bind. destruct (m s) as [s' [a| |]]; auto. Qed.

Lemma update_exact : preserves pm_exact (pmt_update_time clk).
Proof.
  unfold pmt_update_time. apply preserves_bind_gets. intros s Hs. set (J := fun s' => pl_pmt s' = pl_pmt s).
  assert (forall s', J s' -> pm_exact s') as HJ by (intros s' E; unfold pm_exact; by rewrite E).
  apply (bind_under J); [unfold pmt_the_vcpu; se_keep|done| |done]. intros v s1 E1.
  apply (bind_under J); [by apply time_frame|done| |done]. intros t s2 E2. cbv zeta.
  match goal with |- pm_exact (fst (bind (on_pmt ?f) ?k s2)) => change (pm_exact (fst (k tt (set_pl_pmt (f (pl_pmt s2)) s2)))) end. cbv beta.
  match goal with |- pm_exact (fst (?m ?x)) => assert (preserves pm_exact m) as Hm by se_keep; apply Hm end.
  unfold pm_exact. cbn [pl_pmt set_pl_pmt]. rewrite E2. apply updated_exact, Hs.
Qed.

Lemma crash_exact : preserves pm_exact domain_crash.
Proof. by apply preserves_modify. Qed.
#[local] Hint Resolve crash_exact : keep.

(** Every operation keeps the counter exact. *)
Lemma dop_exact op : preserves pm_exact (run_dop clk op).
Proof.
  destruct op; cbn [run_dop]; unfold ignore; se_keep.
  - apply pit_io_frame; (done || apply crash_exact).
  - apply speaker_frame; (done || apply crash_exact).
  - unfold pit_time_fired. apply preserves_bind; [by apply time_frame|]. intros t. by apply load_time_frame.
  - unfold handle_pmt_io. cbv zeta. se_keep. apply update_exact.
  - unfold handle_evt_io. cbv zeta. se_keep. apply on_pmt_exact. intros p [H1 H2 H3 H4].
    assert (forall k addr data q, pmt_exact q -> pmt_exact (evt_write k addr data q)) as He; [|by apply He].
    induction k as [|k IH]; intros addr data q Hq; cbn [evt_write]; [done|]. apply IH. unfold evt_write_byte. repeat case_match; by destruct Hq.
  - unfold pmt_timer_callback. se_keep. apply update_exact.
  - unfold hvm_acpi_power_button. se_keep.
  - unfold hvm_acpi_sleep_button. se_keep.
  - apply rtc_io_frame; (done || apply crash_exact).
  - apply (rtc_host_frame clk); (done || apply crash_exact).
  - apply (rtc_host_frame clk); (done || apply crash_exact).
  - apply (rtc_host_frame clk); (done || apply crash_exact).
  - apply (rtc_host_frame clk); (done || apply crash_exact).
  - apply hpet_read_frame; (done || apply crash_exact).
  - apply hpet_write_frame; (done || apply crash_exact).
Qed.

Lemma bind_ran {S A B} (m : SE S A) (k : A -> SE S B) s s' b : bind m k s = (s', Ok b) -> exists s1 a, m s = (s1, Ok a) /\ k a s1 = (s', Ok b).
Proof. unfold bind. destruct (m s) as [s1 [a| |]]; [eauto|done|done]. Qed.
Lemma ran_keeps {S A} (J : S -> Prop) (m : SE S A) s s' a : preserves J m -> m s = (s', Ok a) -> J s -> J s'.
Proof. intros Hm E Hs. specialize (Hm s Hs). by rewrite E in Hm. Qed.

Lemma init_exact v w s : timers_init clk (new_pldom v w) = (s, Ok tt) -> pm_exact s.
Proof.
  intros (s0 & [] & E0 & (s1 & [] & E1 & (s2 & [] & E2 & (s3 & [] & E3 & (s4 & [] & E4 & E5)%bind_ran)%bind_ran)%bind_ran)%bind_ran)%bind_ran.
  set (J := fun s => pl_pmt s = zero_pmt). assert (J s2) as H2.
  { apply (ran_keeps J (before_vcpu0 (pit_reset clk)) s1 s2 tt); [|done|].
    - intros x Hx. unfold before_vcpu0. assert (J (fst (pit_reset clk (show_vcpus [] x)))) as Hr by (by apply pit_reset_frame). by destruct (pit_reset clk (show_vcpus [] x)).
    - apply (ran_keeps J rtc_init s0 s1 tt); [by apply rtc_init_frame|done|]. apply (ran_keeps J _ _ _ _ (vt_frame J (fun _ _ H => H) _) E0 eq_refl). }
  assert (preserves pm_exact hpet_init) as Kh.
  { unfold hpet_init. apply preserves_bind; [by apply on_hpet_frame|]. intros _. apply each_frame. intros tn. by apply vt_frame. }
  assert (preserves pm_exact (pmt_timer_callback clk)) as Kp by (unfold pmt_timer_callback; se_keep; apply update_exact).
  apply bind_ran in E3 as (s2' & [] & [= <-] & E3). apply (ran_keeps pm_exact _ s4 s tt (rtc_init_timers_frame clk pm_exact (fun _ _ H => H) (fun _ _ H => H)) E5).
  apply (ran_keeps pm_exact _ _ _ _ Kh E4), (ran_keeps pm_exact _ _ _ _ Kp E3).
  unfold pm_exact. cbn [pl_pmt set_pl_pmt]. rewrite H2. by split.
Qed.

Lemma dreach_exact n s : dreach clk n s -> pm_exact s.
Proof.
  induction 1 as [h p w pit0 s Hh Ht Hn Hpos Hp Hrun|op s s' Hr IH Hc Hop Hrun]; [by eapply init_exact|].
  exact (ran_keeps _ _ _ _ _ (dop_exact op) Hrun IH).
Qed.

(** The update at the guest's time [t] *)
Lemma update_time_at n s : pl_ok n [] s -> pm_exact s -> exists v t, pmt_vcpu (pl_pmt s) = Some v /\ snd (get_guest_time clk v s) = Ok t /\
  wp (pmt_update_time clk) (fun _ s' => last_gtime (pl_pmt s') = t /\ pm_exact s') s.
Proof.
  intros Hs He. destruct (pk_pmt _ _ (proj1 Hs)) as (v & Ev & Hv). destruct (wp_inv _ _ _ (time_ok clk n (pl_ok n []) v Hv s Hs)) as (s1 & t & E1 & Hs1).
  exists v, t. split; [done|]. split; [by rewrite E1|].
  assert (pl_pmt s1 = pl_pmt s) as Ep by (apply (ran_keeps (fun s' => pl_pmt s' = pl_pmt s) _ s s1 t (time_frame clk (fun s' => pl_pmt s' = pl_pmt s) (fun _ _ H => H) v) E1 eq_refl)).
  apply wp_bind, wp_gets, wp_bind. unfold pmt_the_vcpu. apply wp_bind, wp_get. rewrite Ev. apply wp_ret, wp_bind. eapply wp_eq; [exact E1|]. cbv zeta.
  apply wp_bind, wp_modify. set (f := fun p => _). set (s2 := set_pl_pmt _ s1). assert (pl_ok n [] s2) as Hs2 by (by apply (mc_set s1)).
  assert (last_gtime (pl_pmt s2) = t /\ pm_exact s2) as H2.
  { split; [done|]. unfold pm_exact, s2. cbn [pl_pmt set_pl_pmt]. rewrite Ep. apply updated_exact, He. }
  apply wp_when; [intros _|done]. apply wp_bind, wp_modify. set (s3 := set_pl_pmt _ s2). assert (pl_ok n [] s3) as Hs3 by (by apply (mc_set s2)).
  eapply wp_mono; [apply (wp_keep (fun s' => last_gtime (pl_pmt s') = t /\ pm_exact s') _ _ _ (sci_ok n (pl_ok n []) s3 Hs3))|by intros [] s4 [_ ?]].
  - by apply sci_frame.
  - split; [apply H2|]. destruct H2 as [_ H2]. unfold pm_exact in *. by destruct H2.
Qed.
End Exact.
