(* ===== verification/TimerProps.v ===== *)
(** * The timer devices: the properties *)

From stdpp Require Import base list numbers.
From Stdlib Require Import ZArith Lia Bool.
From S2P Require Import Prelude Vpic HvmState Vlapic Vioapic HvmIrq VpicInv VpicOps.
From S2P Require Import VioapicInv VioapicOps HvmIrqOps HvmIrqRun.
From S2P Require Import VlapicRegs HvmLapic HvmIrqSystem HvmIrqProps Vpt VptOps VptLists VptSystem VptProps.
From S2P Require Import Calendar TimerDev PmTimer Hpet Rtc TimerDevInv HpetRegs RtcRun TimerSystem.

Open Scope Z_scope.
Open Scope se_scope.

(** ** The system of devices *)

(** C8: The timer devices never fail. From the start of the PIT, the PM timer, the HPET
    and the clock, whatever the guest reads and writes at their ports and registers (a write to
    the HPET that keeps the interrupts of the comparators at ISA interrupts and does not
    set a period whose only bit is masked away), whatever happens to the platform timers
    and to the wall clock in between, and for any clock of the host, every access succeeds: no division by a
    zero count, no array index out of range, no failed assertion, no null pointer.
    Afterwards, unless the access has crashed the domain, every enabled comparator of the
    enabled HPET has its platform timer, which is periodic only with a period. *)
Theorem timer_devices_never_fail clk n s op : dreach clk n s -> pl_crashed s = false -> dop_ok n op s ->
  exists s', run_dop clk op s = (s', Ok tt) /\
    (pl_crashed s' = false -> forall tn, live tn s' -> backed tn s').
Proof.
  intros Hr Hc Hop. destruct (wp_inv _ _ _ (dop_wp clk n op s (dreach_ok clk n s Hr Hc) Hop)) as (s' & [] & E & Hs').
  exists s'. split; [done|]. intros Hc' tn Hl. destruct Hs' as [Hx|[_ Ho]]; [congruence|].
  by destruct (Ho tn Hl) as [?%elem_of_nil|].
Qed.

(** The registers of the HPET *)
Definition hpet_typed (h : HPETState) : Prop :=
  length (hp_timers (hpet h)) = 3%nat /\ length (hp_period (hpet h)) = 3%nat /\ length (comparator64 (hpet h)) = 3%nat /\
  hpet_to_ns_scale h = 16384 /\ hpet_to_ns_limit h = (2 ^ 64 - 1) / 16384 /\ Forall (fun p => 0 <= p) (hp_period (hpet h)) /\
  forall tn t p, hp_timers (hpet h) !! tn = Some t -> timer_is_32bit t = true -> hp_period (hpet h) !! tn = Some p -> p < 2 ^ 32.

(** C17: The registers of the timer devices are well formed: the PIT has three channels and
    load times, every count is between 1 and 65536 (so that the counters may divide by
    it), the latches fit their widths; the HPET has three comparators, the conversion
    constants of its start, periods that are not negative and that fit 32 bits for a
    32-bit comparator; the PM timer has 32 bits and a vcpu of the domain; the clock has
    fourteen registers of a byte, an index of seven bits and a period that is not
    negative. This holds in every state of a domain that has not crashed and that is
    reached by any accesses to the ports and registers, except that the guest's writes
    to the HPET ([polite]) route no comparator beyond the ISA interrupts and set no
    period whose only bit is masked away; after other writes the hypervisor can fail
    ([hpet_route_beyond_isa_fails], [hpet_top_bit_period_divides_by_zero]). *)
Theorem device_registers_typed clk n s : dreach clk n s -> pl_crashed s = false ->
  pit_ok (pl_pit s) /\ hpet_typed (pl_hpet s) /\ rtc_ok (pl_rtc s) /\ 0 <= tmr_val (pl_pmt s) < 2 ^ 32 /\
  exists v, pmt_vcpu (pl_pmt s) = Some v /\ 0 <= v < n.
Proof.
  intros Hr Hc. destruct (dreach_ok clk n s Hr Hc) as [[_ _ H3 H4 H5 H6] _]. split; [done|]. split; [destruct H5 as [h1 h2 h3 h4 h5 h6 _ h8]; exact (conj h1 (conj h2 (conj h3 (conj h4 (conj h5 (conj h6 h8))))))|]. split; [done|]. split; [|done].
  apply (pe_val _ (dreach_exact clk n s Hr)).
Qed.

(** ** The PM timer *)

(** C13: The PM timer loses nothing between its updates. However often and whenever it
    was updated before, by reads, by its host timer, in between the other accesses and
    timers of the domain ([dop]; of the writes to the HPET only those that are [polite],
    as in the other properties of the devices), its counter is the guest's time of the last update in
    the code's scale, [pm_ticks]: 15374028 / 2^32 ticks a nanosecond, rounded down, to
    32 bits, with no error carried from one update to the next. So a read of the four
    bytes gives the ticks of the guest's time at the read. The scale is 3.579545 MHz
    rounded down, so that the counter is slow against the ACPI frequency: by a tick in
    6.0 to 6.1 seconds, and at most one tick besides. A reset of the domain, which
    clears the counter, and saving, which counts the ticks since the last update a
    second time, are not among these operations: neither keeps the equation. *)
Theorem pm_timer_exact clk n s port : dreach clk n s -> pl_crashed s = false -> Z.land port 3 = 0 ->
  tmr_val (pl_pmt s) = pm_ticks (last_gtime (pl_pmt s)) /\
  exists v t s', pmt_vcpu (pl_pmt s) = Some v /\ snd (get_guest_time clk v s) = Ok t /\
    handle_pmt_io clk false false port 4 s = (s', Ok (X86EMUL_OKAY, Some (pm_ticks t))) /\
    (0 <= t -> t / 6100000000 - 1 <= acpi_ticks t - counted_ticks t <= t / 6000000000 + 1).
Proof.
  intros Hr Hc Hp. pose proof (dreach_exact clk n s Hr) as He. split; [by apply exact_ticks|].
  destruct (update_time_at clk n s (dreach_ok clk n s Hr Hc) He) as (v & t & Ev & Et & Hw).
  destruct (wp_inv _ _ _ Hw) as (s' & [] & Eu & Hl & He'). exists v, t, s'. split; [done|]. split; [done|]. split; [|apply scale_lag].
  unfold handle_pmt_io. rewrite Hp. cbn [Z.add u32 negb when]. change (4 <? u32 (4 + 0)) with false. cbv iota.
  unfold bind at 1. unfold when. rewrite Eu. unfold bind, gets, ret. rewrite (exact_ticks _ He'), Hl. do 4 f_equal.
  unfold tmr_bytes. rewrite Z.mul_0_r, Z.shiftr_0_r, Z.land_ones by lia. apply Z.mod_small. unfold pm_ticks. apply Z.mod_pos_bound. lia.
Qed.

(** ** The PIT *)

Definition latch_pit (ch x l : Z) (p : PITState) : PITState :=
  {| channels := alter (ch_set_latch x l) (Z.to_nat ch) (channels p); speaker_data_on := speaker_data_on p;
     count_load_time := count_load_time p |}.

Lemma of_three ch : 0 <= ch < 3 -> ch = 0 \/ ch = 1 \/ ch = 2.
Proof. lia. Qed.

Lemma channel_run ch c s : 0 <= ch -> channels (pl_pit s) !! Z.to_nat ch = Some c -> the_channel ch s = (s, Ok c).
Proof. intros Hch Hc. unfold the_channel, bind, get, bug_if, ret. by rewrite Hc, (proj2 (Z.ltb_ge ch 0)) by lia. Qed.

(** A read of a latched count, in the states of the two bytes *)
Lemma read_latched clk ch c s : 0 <= ch < 3 -> channels (pl_pit s) !! Z.to_nat ch = Some c -> status_latched c = false ->
  count_latched c = RW_STATE_WORD0 \/ count_latched c = RW_STATE_MSB ->
  handle_pit_io clk false (0x40 + ch) 1 0 s =
    (set_pl_pit (latch_pit ch (latched_count c) (if count_latched c =? RW_STATE_MSB then 0 else RW_STATE_MSB) (pl_pit s)) s,
     Ok (Some (if count_latched c =? RW_STATE_MSB then Z.shiftr (latched_count c) 8 else Z.land (latched_count c) 0xff))).
Proof.
  intros Hch Hc Hst Hl. unfold handle_pit_io. assert (Z.land (0x40 + ch) 3 = ch) as Ea by (destruct (of_three ch Hch) as [->|[->| ->]]; done).
  rewrite Ea, (proj2 (Z.eqb_neq ch 3)) by lia. unfold pit_ioport_read. rewrite Ea. cbn [negb Z.eqb]. cbv zeta.
  unfold bind at 1. unfold bind at 1. change (negb (1 =? 1)%positive) with false. cbv iota beta. rewrite (channel_run ch c) by (done || lia). rewrite Hst. destruct Hl as [-> | ->]; reflexivity.
Qed.

(** The latch command *)
Lemma latch_command clk ch c s s0 cnt : 0 <= ch < 3 -> channels (pl_pit s) !! Z.to_nat ch = Some c -> count_latched c = 0 -> rw_mode c = RW_STATE_WORD0 ->
  pit_get_count clk ch s = (s0, Ok cnt) -> pl_pit s0 = pl_pit s ->
  handle_pit_io clk true 0x43 1 (Z.shiftl ch 6) s = (set_pl_pit (latch_pit ch (u16 cnt) RW_STATE_WORD0 (pl_pit s)) s0, Ok None).
Proof.
  intros Hch Hc Hl Hrw Hcnt Hp. transitivity ((pit_latch_count clk ch;; ret (None : option Z)) s).
  { destruct (of_three ch Hch) as [->|[->| ->]]; reflexivity. }
  unfold pit_latch_count. unfold bind. rewrite (channel_run ch c) by (done || lia). rewrite Hl. cbn [Z.eqb when]. rewrite Hcnt.
  unfold upd_channel, on_pit, modify, ret, latch_pit. rewrite Hp.
  assert (alter (fun c => ch_set_latch (u16 cnt) (rw_mode c) c) (Z.to_nat ch) (channels (pl_pit s)) =
          alter (ch_set_latch (u16 cnt) RW_STATE_WORD0) (Z.to_nat ch) (channels (pl_pit s))) as ->; [|done].
  apply list_eq. intros i. rewrite !list_lookup_alter. case_decide; [|done]. subst i. rewrite Hc. cbn. by rewrite Hrw.
Qed.

Lemma latched_channel ch x l p c : channels p !! Z.to_nat ch = Some c -> channels (latch_pit ch x l p) !! Z.to_nat ch = Some (ch_set_latch x l c).
Proof. intros H. cbn. by rewrite list_lookup_alter_eq, H. Qed.

Lemma two_bytes x : 0 <= x < 2 ^ 16 -> Z.land x 0xff + 256 * Z.shiftr x 8 = x.
Proof.
  intros Hx. change 0xff with (Z.ones 8). rewrite Z.land_ones, Z.shiftr_div_pow2 by lia. pose proof (Z.div_mod x (2 ^ 8)). lia.
Qed.

(** A latched count of the PIT reads back as one value. When the latch command is
    written for a channel in the mode of two bytes, the count of that moment is kept;
    the next two reads of the channel's port give its low and its high byte, whatever
    the time is at the reads and whatever else has changed in the domain before each of
    them, as long as the PIT is not touched. *)
Theorem pit_latch_reads_back clk n s ch c : dreach clk n s -> pl_crashed s = false -> 0 <= ch < 3 ->
  channels (pl_pit s) !! Z.to_nat ch = Some c -> rw_mode c = RW_STATE_WORD0 -> count_latched c = 0 -> status_latched c = false ->
  exists cnt s1 lo hi p2, snd (pit_get_count clk ch s) = Ok cnt /\ handle_pit_io clk true 0x43 1 (Z.shiftl ch 6) s = (s1, Ok None) /\
    (forall s2, pl_pit s2 = pl_pit s1 -> handle_pit_io clk false (0x40 + ch) 1 0 s2 = (set_pl_pit p2 s2, Ok (Some lo))) /\
    (forall s3, pl_pit s3 = p2 -> exists p3, handle_pit_io clk false (0x40 + ch) 1 0 s3 = (set_pl_pit p3 s3, Ok (Some hi))) /\
    lo + 256 * hi = u16 cnt.
Proof.
  intros Hr Hc Hch Hch0 Hrw Hl Hst. pose proof (dreach_ok clk n s Hr Hc) as Hs.
  destruct (wp_inv _ _ _ (get_count_ok clk n (pl_ok n []) ch ret Hch (fun x => holds_ret _ x) s Hs)) as (s0 & cnt & E & _).
  apply bind_ran in E as (s0' & cnt' & E & [= -> ->]).
  assert (pl_pit s0 = pl_pit s) as Hp by (exact (ran_keeps (fun s' => pl_pit s' = pl_pit s) _ s s0 cnt (count_frame clk (fun s' => pl_pit s' = pl_pit s) (fun _ _ H => H) ch) E eq_refl)).
  assert (0 <= u16 cnt < 2 ^ 16) as Hu by (apply Z.mod_pos_bound; lia). set (p1 := latch_pit ch (u16 cnt) RW_STATE_WORD0 (pl_pit s)).
  pose proof (latched_channel ch (u16 cnt) RW_STATE_WORD0 _ _ Hch0) as H1. fold p1 in H1. set (c1 := ch_set_latch _ _ c) in H1.
  pose proof (latched_channel ch (u16 cnt) RW_STATE_MSB _ _ H1) as H2.
  exists cnt, (set_pl_pit p1 s0), (Z.land (u16 cnt) 0xff), (Z.shiftr (u16 cnt) 8), (latch_pit ch (u16 cnt) RW_STATE_MSB p1).
  split; [by rewrite E|]. split; [by apply (latch_command clk ch c)|]. split; [|split; [|by apply two_bytes]].
  - intros s2 E2. cbn [pl_pit set_pl_pit] in E2. rewrite <- E2 in H1. rewrite (read_latched clk ch c1 s2); [|done|done|done|by left]. by rewrite E2.
  - intros s3 E3. rewrite <- E3 in H2. eexists. rewrite (read_latched clk ch _ s3 Hch H2); [reflexivity|done|by right].
Qed.

(** ** The HPET: the counter *)

Section Counter.
Context (clk : nat -> Z).

(** The guest's time does not depend on the registers. *)
Lemma hpet_time_indep h s : guest_time_hpet clk (set_pl_hpet h s) =
  let '(s', r) := guest_time_hpet clk s in (set_pl_hpet h s', r).
Proof.
  unfold guest_time_hpet, the_target, get_guest_time, vt, zoom, bind, get. cbn [pl_v set_pl_hpet].
  destruct (pt_global_vcpu_target (vs_hw (pl_v s))) as [v|]; [|done]. unfold ret, bug. cbn [pl_v set_pl_hpet]. destruct (hvm_get_guest_time clk v (pl_v s)) as [v0 [t|e|]]; reflexivity.
Qed.
Lemma hpet_time_regs s s0 t : guest_time_hpet clk s = (s0, Ok t) -> pl_hpet s0 = pl_hpet s.
Proof. intros E. exact (ran_keeps (fun s' => pl_hpet s' = pl_hpet s) _ s s0 t (hpet_time_frame clk (fun s' => pl_hpet s' = pl_hpet s) (fun _ _ H => H)) E eq_refl). Qed.

(** The counter's part of the registers *)
Definition counter_part (s : pldom) : Z * Z * Z := (hp_config (hpet (pl_hpet s)), mc64 (hpet (pl_hpet s)), mc_offset (pl_hpet s)).

Lemma apply_counter ch c : preserves (fun s => counter_part s = c) (hpet_apply clk ch).
Proof. apply apply_frame; [done|..]; intros tn x; by apply preserves_modify. Qed.

Lemma write_cfg_off s s0 t val : guest_time_hpet clk s = (s0, Ok t) -> flag (hp_config (hpet (pl_hpet s))) HPET_CFG_ENABLE = true ->
  flag val HPET_CFG_ENABLE = false -> exists s1 ch, write_cfg clk (hp_config (hpet (pl_hpet s))) val s = (s1, Ok ch) /\
  counter_part s1 = (hpet_fixup_reg val (hp_config (hpet (pl_hpet s))) 3, u64 (mc_offset (pl_hpet s) + t), mc_offset (pl_hpet s)).
Proof.
  intros Et Ho Hv. pose proof (hpet_time_regs _ _ _ Et) as Eh. unfold write_cfg. rewrite Ho, Hv. cbn [negb andb].
  unfold on_hregs, on_hpet, bind, modify, gets, ret. rewrite hpet_time_indep, Et. eexists _, _. split; [reflexivity|]. done.
Qed.
Lemma write_cfg_on s s0 t val : guest_time_hpet clk s = (s0, Ok t) -> flag (hp_config (hpet (pl_hpet s))) HPET_CFG_ENABLE = false ->
  flag val HPET_CFG_ENABLE = true -> exists s1 ch, write_cfg clk (hp_config (hpet (pl_hpet s))) val s = (s1, Ok ch) /\
  counter_part s1 = (hpet_fixup_reg val (hp_config (hpet (pl_hpet s))) 3, mc64 (hpet (pl_hpet s)), u64 (mc64 (hpet (pl_hpet s)) - t)).
Proof.
  intros Et Ho Hv. pose proof (hpet_time_regs _ _ _ Et) as Eh. unfold write_cfg. rewrite Ho, Hv. cbn [negb andb].
  unfold set_mc_offset, on_hregs, on_hpet, bind, modify, gets, hregs, ret. cbv beta. unfold gets. rewrite hpet_time_indep, Et. eexists _, _. split; [reflexivity|]. done.
Qed.

(** A write to the general configuration, up to the timers *)
Lemma hpet_write_cfg val s : hpet_write clk HPET_CFG 8 val s = (ch <- write_cfg clk (hp_config (hpet (pl_hpet s))) val;; hpet_apply clk ch) s.
Proof.
  transitivity ((old <- hpet_read64 clk HPET_CFG;; ch <- hpet_write_reg clk HPET_CFG old (written HPET_CFG 8 val old);; hpet_apply clk ch) s); [done|].
  unfold bind at 1. by rewrite (read64_cfg clk HPET_CFG s).
Qed.

Lemma cfg_written n s s1 ch val c : pl_ok n [] s -> write_cfg clk (hp_config (hpet (pl_hpet s))) val s = (s1, Ok ch) -> counter_part s1 = c ->
  exists s', hpet_write clk HPET_CFG 8 val s = (s', Ok tt) /\ counter_part s' = c.
Proof.
  intros Hs E Hc. pose proof (write_cfg_wp clk n s val Hs) as Hw. unfold wp in Hw. rewrite E in Hw.
  destruct (wp_inv _ _ _ (apply_wp clk n ch s1 Hw)) as (s' & [] & Ea & _). exists s'. rewrite hpet_write_cfg. unfold bind. rewrite E. split; [done|].
  exact (ran_keeps _ _ _ _ _ (apply_counter ch c) Ea Hc).
Qed.

Lemma read_counter s : hpet_read clk HPET_COUNTER 8 s = hpet_read_maincounter clk s.
Proof.
  transitivity ((val <- hpet_read_maincounter clk;; ret val) s); [done|]. unfold bind. by destruct (hpet_read_maincounter clk s) as [s' []].
Qed.
End Counter.

(** The counter of the HPET stops and goes on. A write to the general configuration
    that disables the HPET keeps the count of the moment, and every later read gives it,
    at whatever time; a write that enables it lets the counter go on from where it
    stopped: [t2 - t] ticks after the write a read gives the old count plus [t2 - t], in
    64 bits. The state read is any state whose configuration, count and offset are those
    the write left. *)
Theorem hpet_counter_continues clk n s val : dreach clk n s -> pl_crashed s = false ->
  exists t s', snd (guest_time_hpet clk s) = Ok t /\ hpet_write clk HPET_CFG 8 val s = (s', Ok tt) /\
  (hpet_enabled (hpet (pl_hpet s)) = true -> flag val HPET_CFG_ENABLE = false ->
     forall s2, counter_part s2 = counter_part s' -> hpet_read clk HPET_COUNTER 8 s2 = (s2, Ok (u64 (mc_offset (pl_hpet s) + t)))) /\
  (hpet_enabled (hpet (pl_hpet s)) = false -> flag val HPET_CFG_ENABLE = true ->
     forall s2 t2, counter_part s2 = counter_part s' -> snd (guest_time_hpet clk s2) = Ok t2 ->
       snd (hpet_read clk HPET_COUNTER 8 s2) = Ok (u64 (mc64 (hpet (pl_hpet s)) + (t2 - t)))).
Proof.
  intros Hr Hc. pose proof (dreach_ok clk n s Hr Hc) as Hs. destruct (wp_inv _ _ _ (hpet_time_ok clk n [] s Hs)) as (s0 & t & Et & _).
  pose proof (hpet_write_wp clk n HPET_CFG 8 val s Hs ltac:(intros tn u _; split; change (Z.ldiff _ 7) with HPET_CFG; unfold HPET_CFG, HPET_T0_CFG, HPET_T0_CMP; lia)) as Hw.
  destruct (wp_inv _ _ _ Hw) as (s' & [] & Ew & _). exists t, s'. split; [by rewrite Et|]. split; [done|]. split.
  - intros Ho Hv s2 E2. destruct (write_cfg_off clk s s0 t val Et Ho Hv) as (s1 & ch & E1 & C1).
    destruct (cfg_written clk n s s1 ch val _ Hs E1 C1) as (s'' & Ew' & C'). rewrite Ew in Ew'. injection Ew' as <-. rewrite C' in E2. injection E2 as F1 F2 F3.
    rewrite read_counter. unfold hpet_read_maincounter, hregs, bind, gets, hpet_enabled. rewrite F1, fixup_flag, Hv by done. unfold ret. by rewrite F2.
  - intros Ho Hv s2 t2 E2 Et2. destruct (write_cfg_on clk s s0 t val Et Ho Hv) as (s1 & ch & E1 & C1).
    destruct (cfg_written clk n s s1 ch val _ Hs E1 C1) as (s'' & Ew' & C'). rewrite Ew in Ew'. injection Ew' as <-. rewrite C' in E2. injection E2 as F1 F2 F3.
    rewrite read_counter. unfold hpet_read_maincounter, hregs, bind, gets, hpet_enabled. rewrite F1, fixup_flag, Hv by done.
    destruct (guest_time_hpet clk s2) as [s3 r] eqn:E3. cbn in Et2. subst r. unfold ret. cbn. rewrite (hpet_time_regs clk s2 s3 t2 E3), F3.
    unfold u64. rewrite Z.add_mod_idemp_r by lia. do 2 f_equal. lia.
Qed.

(** ** The HPET: the comparators *)

Lemma moved_next now p cmp : 0 < p -> 0 <= cmp <= now + p - 1 -> now + p <= 2 ^ 64 ->
  now <= moved_comparator now p cmp < now + p /\ exists k, 0 <= k /\ moved_comparator now p cmp = cmp + k * p.
Proof.
  intros Hp Hc Hn. unfold moved_comparator. assert (u64 (now + p - 1 - cmp) = now + p - 1 - cmp) as -> by (apply Z.mod_small; lia).
  set (k := (now + p - 1 - cmp) / p). pose proof (Z.div_mod (now + p - 1 - cmp) p ltac:(lia)) as Hd. fold k in Hd.
  pose proof (Z.mod_pos_bound (now + p - 1 - cmp) p Hp) as Hm. assert (0 <= k) as Hk by (apply Z.div_pos; lia).
  assert (0 <= k * p) by (apply Z.mul_nonneg_nonneg; lia).
  assert (u64 (cmp + k * p) = cmp + k * p) as -> by (apply Z.mod_small; lia). split; [lia|]. by exists k.
Qed.

Lemma read_cmp clk tn s : (tn < 3)%nat -> hpet_read clk (HPET_T0_CMP + 32 * Z.of_nat tn) 8 s = hpet_get_comparator clk tn s.
Proof.
  intros Htn. transitivity ((val <- hpet_get_comparator clk tn;; ret val) s); [destruct tn as [|[|[|]]]; [done..|lia]|].
  unfold bind. by destruct (hpet_get_comparator clk tn s) as [s' []].
Qed.

(** The comparator of a periodic timer is the next tick. Reading the comparator of a
    64-bit periodic timer, at the count [now], moves it on by whole periods to the first
    value that is not before [now], in the register and in the answer: [now <= c < now +
    period], a multiple of the period after the old comparator. This is for a comparator
    that is at most a period ahead and a count that does not overflow. *)
Theorem hpet_comparator_is_next_tick clk n s tn t cmp p : dreach clk n s -> pl_crashed s = false ->
  hp_timers (hpet (pl_hpet s)) !! tn = Some t -> comparator64 (hpet (pl_hpet s)) !! tn = Some cmp -> hp_period (hpet (pl_hpet s)) !! tn = Some p ->
  timer_is_periodic t = true -> timer_is_32bit t = false -> p <> 0 ->
  exists now s' c, snd (hpet_read_maincounter clk s) = Ok now /\ hpet_read clk (HPET_T0_CMP + 32 * Z.of_nat tn) 8 s = (s', Ok c) /\
    comparator64 (hpet (pl_hpet s')) !! tn = Some c /\
    (0 <= cmp <= now + p - 1 -> now + p <= 2 ^ 64 -> now <= c < now + p /\ exists k, 0 <= k /\ c = cmp + k * p).
Proof.
  intros Hr Hc Ht Hcmp Hp Hper H32 Hnz. pose proof (dreach_ok clk n s Hr Hc) as Hs. pose proof (pk_hpet _ _ (proj1 Hs)) as Hh.
  pose proof (Forall_lookup_1 _ _ _ _ (hs_positive _ Hh) Hp) as Hp0. cbn in Hp0.
  assert (tn < 3)%nat as Htn by (apply lookup_lt_Some in Ht; by rewrite (hs_timers _ Hh) in Ht).
  destruct (wp_inv _ _ _ (maincounter_ok clk n [] s Hs)) as (s1 & now & En & _).
  assert (pl_hpet s1 = pl_hpet s) as Eh.
  { exact (ran_keeps (fun s' => pl_hpet s' = pl_hpet s) _ s s1 now (maincounter_frame clk (fun s' => pl_hpet s' = pl_hpet s) (fun _ _ H => H)) En eq_refl). }
  rewrite read_cmp by done. unfold hpet_get_comparator, the_htimer, hregs, at_tn, bind, gets, ret. rewrite Hcmp, Ht, Hp, Hper, H32, (proj2 (Z.eqb_neq p 0)) by done.
  cbn [andb negb]. rewrite En. eexists now, _, (moved_comparator now p cmp). split; [done|]. split; [reflexivity|].
  split; [|intros H1 H2; apply moved_next; [lia|done|done]].
  cbn. rewrite Eh. apply list_lookup_insert_eq. apply lookup_lt_Some in Hcmp. done.
Qed.

(** ** Concrete machines *)

(** A host clock that moves by a millisecond from read to read *)
Definition steady_clock (k : nat) : Z := 1000000 * (Z.of_nat k + 1).

(** The 14th of November 2023, 22:13:20, an hour ahead of the host *)
Definition november : wallclock := {|
  wc_sec := 1700000000; wc_nsec := 0; time_offset_seconds := 3600; shared_wc_version := 0; shared_wc_sec := 0; shared_wc_nsec := 0;
  shared_wc_time_offset := 0 |}.
Definition started : pldom := fst (timers_init steady_clock (new_pldom (new_vst two_vcpus replaying) november)).
Definition dstep (op : dop) (s : pldom) : pldom := fst (run_dop steady_clock op s).

Lemma started_reach : dreach steady_clock 2 started.
Proof.
  pose proof (hreach_all false two_vcpus two_vcpus_reach) as [[H1 H2] H3].
  assert (0 <= vpt_coalesce_ns replaying) as Hp by (cbn; lia). assert (hw_sound 2 two_vcpus) as Hh by (split; [exact H1|exact H2|exact H3]).
  pose proof (timers_init_wp steady_clock 2 two_vcpus replaying november Hh eq_refl eq_refl Hp eq_refl) as H.
  destruct (wp_inv _ _ _ H) as (s' & [] & E & _). unfold started. rewrite E.
  exact (dreach_boot steady_clock 2 two_vcpus replaying november false s' two_vcpus_reach eq_refl eq_refl eq_refl Hp E).
Qed.
Lemma dstep_reach op s : dreach steady_clock 2 s -> pl_crashed s = false -> dop_ok 2 op s -> dreach steady_clock 2 (dstep op s).
Proof.
  intros Hr Hc Hop. destruct (wp_inv _ _ _ (dop_wp steady_clock 2 op s (dreach_ok _ 2 s Hr Hc) Hop)) as (s' & [] & E & _).
  unfold dstep. rewrite E. exact (dreach_step steady_clock 2 op s s' Hr Hc Hop E).
Qed.

(** The first comparator of the HPET is made periodic with a period of 62500
    ticks, one millisecond, and the HPET is enabled. *)
Definition configured : pldom := dstep (DHpetWrite HPET_T0_CFG 8 0x4c) started.
Definition first_set : pldom := dstep (DHpetWrite HPET_T0_CMP 8 100000) configured.
Definition period_set : pldom := dstep (DHpetWrite HPET_T0_CMP 8 62500) first_set.
Definition ticking : pldom := dstep (DHpetWrite HPET_CFG 8 1) period_set.

(** A concrete write is polite: the three timers one by one *)
Ltac polite_by_cases :=
  let tn := fresh "tn" in let t := fresh "t" in let Ht := fresh "Ht" in let E := fresh "E" in let H1 := fresh in let H2 := fresh in let old := fresh in
  intros tn t Ht; destruct tn as [|[|[|tn]]];
  [vm_compute in Ht; injection Ht as <-..|exfalso; revert Ht; vm_compute; discriminate];
  (split; intros E; vm_compute in E;
   [first [discriminate E | vm_compute; discriminate]
   |first [discriminate E
          |intros H1; vm_compute in H1; first [discriminate H1
          |intros H2; vm_compute in H2; first [discriminate H2
          |intros old; vm_compute; discriminate]]]]).

Lemma configured_reach : dreach steady_clock 2 configured.
Proof. apply dstep_reach; [apply started_reach|by vm_compute|polite_by_cases]. Qed.
Lemma first_set_reach : dreach steady_clock 2 first_set.
Proof. apply dstep_reach; [apply configured_reach|by vm_compute|polite_by_cases]. Qed.
Lemma period_set_reach : dreach steady_clock 2 period_set.
Proof. apply dstep_reach; [apply first_set_reach|by vm_compute|polite_by_cases]. Qed.
Lemma ticking_reach : dreach steady_clock 2 ticking.
Proof. apply dstep_reach; [apply period_set_reach|by vm_compute|polite_by_cases]. Qed.

Lemma timer_devices_never_fail_witness : exists s', run_dop steady_clock (DHpetWrite HPET_T0_CMP 8 125000) ticking = (s', Ok tt) /\
  (pl_crashed s' = false -> forall tn, live tn s' -> backed tn s').
Proof.
  apply (timer_devices_never_fail steady_clock 2 ticking (DHpetWrite HPET_T0_CMP 8 125000)); [apply ticking_reach|by vm_compute|polite_by_cases].
Defined.

Lemma device_registers_typed_witness : pit_ok (pl_pit ticking) /\ hpet_typed (pl_hpet ticking) /\ rtc_ok (pl_rtc ticking) /\ 0 <= tmr_val (pl_pmt ticking) < 2 ^ 32 /\
  exists v, pmt_vcpu (pl_pmt ticking) = Some v /\ 0 <= v < 2.
Proof. apply (device_registers_typed steady_clock 2 ticking); [apply ticking_reach|by vm_compute]. Defined.

(** Seven milliseconds are 25056 ticks. *)
Lemma pm_timer_exact_witness : exists s', handle_pmt_io steady_clock false false 0x1f48 4 started = (s', Ok (X86EMUL_OKAY, Some 25056)).
Proof.
  destruct (pm_timer_exact steady_clock 2 started 0x1f48) as (_ & v & t & s' & Ev & Et & E & _); [apply started_reach|by vm_compute|done|].
  assert (v = 0) as -> by (revert Ev; vm_compute; congruence). assert (t = 7000000) as -> by (revert Et; vm_compute; congruence).
  exists s'. exact E.
Defined.

(** Channel 0 of the PIT as a rate generator with the count 10000 *)
Definition programmed : pldom :=
  dstep (DPit true 0x40 1 0x27) (dstep (DPit true 0x40 1 0x10) (dstep (DPit true 0x43 1 0x34) started)).
Lemma programmed_reach : dreach steady_clock 2 programmed.
Proof. do 3 (apply dstep_reach; [|by vm_compute|done]). apply started_reach. Qed.

Lemma pit_latch_reads_back_witness : exists cnt s1 lo hi p2, snd (pit_get_count steady_clock 0 programmed) = Ok cnt /\
  handle_pit_io steady_clock true 0x43 1 0 programmed = (s1, Ok None) /\
  handle_pit_io steady_clock false 0x40 1 0 s1 = (set_pl_pit p2 s1, Ok (Some lo)) /\ lo + 256 * hi = u16 cnt.
Proof.
  destruct (channels (pl_pit programmed) !! Z.to_nat 0) as [c|] eqn:Hc; [|exfalso; revert Hc; by vm_compute].
  destruct (pit_latch_reads_back steady_clock 2 programmed 0 c) as (cnt & s1 & lo & hi & p2 & H1 & H2 & H3 & _ & H5);
    [apply programmed_reach|by vm_compute|lia|exact Hc|revert Hc; vm_compute; by intros [= <-]..|].
  exists cnt, s1, lo, hi, p2. split; [exact H1|]. split; [exact H2|]. split; [exact (H3 s1 eq_refl)|exact H5].
Defined.

Lemma hpet_counter_continues_witness : exists t s', snd (guest_time_hpet steady_clock ticking) = Ok t /\
  hpet_write steady_clock HPET_CFG 8 0 ticking = (s', Ok tt) /\
  hpet_read steady_clock HPET_COUNTER 8 s' = (s', Ok (u64 (mc_offset (pl_hpet ticking) + t))).
Proof.
  destruct (hpet_counter_continues steady_clock 2 ticking 0) as (t & s' & H1 & H2 & H3 & _); [apply ticking_reach|by vm_compute|].
  exists t, s'. split; [exact H1|]. split; [exact H2|]. apply H3; by vm_compute.
Defined.

Lemma hpet_comparator_is_next_tick_witness : exists s' c, hpet_read steady_clock HPET_T0_CMP 8 ticking = (s', Ok c) /\ 312500 <= c < 375000.
Proof.
  destruct (hp_timers (hpet (pl_hpet ticking)) !! 0%nat) as [t|] eqn:Ht; [|exfalso; revert Ht; by vm_compute].
  destruct (hpet_comparator_is_next_tick steady_clock 2 ticking 0 t 62500 62500) as (now & s' & c & H1 & H2 & _ & H3);
    [apply ticking_reach|by vm_compute|exact Ht|by vm_compute|by vm_compute|revert Ht; vm_compute; by intros [= <-]..|done|].
  assert (now = 312500) as -> by (revert H1; vm_compute; congruence).
  exists s', c. split; [exact H2|]. destruct H3 as [H3 _]; lia.
Defined.

(** ** What a careless guest can do *)

(** A period with only the top bit is masked to zero; the next tick, when it comes late, divides by it. *)
Definition no_period : pldom := dstep (DVpt (VGetTime 0)) (dstep (DHpetWrite HPET_T0_CMP 8 (2 ^ 63)) ticking).
Lemma hpet_top_bit_period_divides_by_zero : hp_period (hpet (pl_hpet no_period)) !! 0%nat = Some 0 /\
  pl_crashed no_period = false /\ vop_ok 2 (VFire 2) (pl_v no_period) /\ snd (run_dop steady_clock (DVpt (VFire 2)) no_period) = Bug.
Proof. split; [by vm_compute|]. split; [by vm_compute|]. split; [vm_compute; eexists; split; [reflexivity|]; eexists; reflexivity|by vm_compute]. Qed.

(** An interrupt that the comparators offer, above the ISA interrupts *)
Definition routed_20 : pldom :=
  dstep (DVpt (VFire 2)) (dstep (DHpetWrite HPET_CFG 8 1) (dstep (DHpetWrite HPET_T0_CMP 8 1000)
    (dstep (DHpetWrite HPET_T0_CFG 8 (Z.lor (Z.shiftl 20 HPET_TN_INT_ROUTE_SHIFT) HPET_TN_ENABLE)) started))).
Lemma hpet_route_beyond_isa_fails : Z.testbit HPET_TN_INT_ROUTE_CAP (HPET_TN_INT_ROUTE_CAP_SHIFT + 20) = true /\
  pl_crashed routed_20 = false /\ snd (run_dop steady_clock (DVpt (VEntry 0)) routed_20) = Bug.
Proof. by vm_compute. Qed.

(** A comparator more than a period ahead is pulled back, off the grid of the periods. *)
Lemma hpet_comparator_pulled_back : moved_comparator 0 100 1000 = 84.
Proof. by vm_compute. Qed.
