(* ===== verification/RtcProps.v ===== *)
(** * The real-time clock: the interrupt flag and the line

    A source of interrupts that is pending and enabled has set the interrupt flag
    of register C, and the clock raises its line when this happens. *)

From stdpp Require Import base list numbers.
From Stdlib Require Import ZArith Lia Bool.
From S2P Require Import Prelude Vpic VpicInv VpicOps HvmState Vlapic Vioapic HvmIrq VioapicInv VioapicOps.
From S2P Require Import HvmIrqOps HvmIrqRun VlapicRegs HvmLapic HvmIrqSystem HvmIrqProps Vpt VptOps VptLists.
From S2P Require Import VptSystem VptTicks VptProps Calendar TimerDev PmTimer Hpet Rtc TimerDevInv HpetRegs.
From S2P Require Import RtcRun TimerSystem TimerProps.

Open Scope Z_scope.
Open Scope se_scope.

(** The sources that are enabled in [b] and pending in [c] *)
Definition raised (b c : Z) : Z := Z.land (Z.land b c) (Z.lor (Z.lor RTC_PF RTC_AF) RTC_UF).
(** A property of the registers B and C *)
Definition on_bc (Q : option Z -> option Z -> Prop) (s : pldom) : Prop := Q (cmos_data (pl_rtc s) !! 11%nat) (cmos_data (pl_rtc s) !! 12%nat).
Definition flags_ok : pldom -> Prop :=
  on_bc (fun ob oc => forall b c, ob = Some b -> oc = Some c -> raised b c <> 0 -> flag c RTC_IRQF = true).

Lemma flag_lor_r c m k : flag m k = true -> flag (Z.lor c m) k = true.
Proof.
  unfold flag. rewrite !negb_true_iff, !Z.eqb_neq. intros Hm H. apply Hm. rewrite Z.land_lor_distr_l in H. by apply Z.lor_eq_0_iff in H as [_ ?].
Qed.
Lemma flag_lor_l c m k : flag c k = true -> flag (Z.lor c m) k = true.
Proof. rewrite Z.lor_comm. apply flag_lor_r. Qed.
Lemma lor_byte c m : 0 <= c < 2 ^ 8 -> 0 <= m < 2 ^ 8 -> u8 (Z.lor c m) = Z.lor c m.
Proof. intros Hc Hm. apply Z.mod_small. apply (lor_below c m 8); lia. Qed.
(** A pending source that is not enabled raises nothing. *)
Lemma raised_disabled b c m : Z.land b m = 0 -> raised b (Z.lor c m) = raised b c.
Proof. intros H. unfold raised. by rewrite (Z.land_lor_distr_r b c m), H, Z.lor_0_r. Qed.

Section Flags.
Context (clk : nat -> Z).

(** ** What keeps the registers B and C *)

Section Keep.
Context (Q : option Z -> option Z -> Prop).

Lemma flags_vt {A} (m : SE vst A) : preserves (on_bc Q) (vt m).
Proof. by apply vt_frame. Qed.
Lemma flags_wall f : preserves (on_bc Q) (modify (fun s => set_pl_wall (f s) s)).
Proof. by apply preserves_modify. Qed.
Lemma flags_on_rtc f : (forall r, cmos_data (f r) = cmos_data r) -> preserves (on_bc Q) (on_rtc f).
Proof. intros Hf. apply preserves_modify. intros s. unfold on_bc. cbn. by rewrite Hf. Qed.
Lemma flags_cmos i : preserves (on_bc Q) (cmos i).
Proof. unfold cmos. se_keep. Qed.
Lemma flags_set_cmos i x : 0 <= i < 11 \/ i = 13 -> preserves (on_bc Q) (set_cmos i x).
Proof.
  intros Hi. unfold set_cmos. apply preserves_bind; [apply flags_cmos|]. intros _. apply preserves_modify. intros s Hs. unfold on_bc. cbn.
  rewrite !list_lookup_insert_ne by lia. apply Hs.
Qed.
Lemma flags_or_cmos i m : 0 <= i < 11 \/ i = 13 -> preserves (on_bc Q) (or_cmos i m).
Proof. intros Hi. apply preserves_bind; [apply flags_cmos|]. intros x. by apply flags_set_cmos. Qed.
#[local] Hint Resolve flags_vt flags_wall flags_cmos : keep.
#[local] Hint Extern 1 (preserves _ (on_rtc _)) => by apply flags_on_rtc : keep.
#[local] Hint Extern 1 (preserves _ (set_cmos _ _)) => apply flags_set_cmos; first [by left | by right] : keep.
#[local] Hint Extern 1 (preserves _ (or_cmos _ _)) => apply flags_or_cmos; first [by left | by right] : keep.

Lemma flags_fetch : preserves (on_bc Q) (rtc_fetch_date clk).
Proof. unfold rtc_fetch_date, get_localtime, rtc_copy_date. cbv zeta. se_keep. Qed.
Lemma flags_set_time : preserves (on_bc Q) rtc_set_time.
Proof. unfold rtc_set_time, update_domain_wallclock_time. se_keep. Qed.
Lemma flags_timer_update : preserves (on_bc Q) (rtc_timer_update clk).
Proof. unfold rtc_timer_update, stop_rtc_timer, the_target. cbv zeta. se_keep. Qed.
Lemma flags_check_update : preserves (on_bc Q) (check_update_timer clk).
Proof. unfold check_update_timer, get_localtime_us. cbv zeta. se_keep. Qed.
#[local] Hint Resolve flags_fetch flags_set_time flags_timer_update flags_check_update : keep.
Lemma flags_alarm_update : preserves (on_bc Q) (alarm_timer_update clk).
Proof. unfold alarm_timer_update, get_localtime_us. cbv zeta. se_keep. Qed.
#[local] Hint Resolve flags_alarm_update : keep.
Lemma flags_stop : preserves (on_bc Q) stop_rtc_timer.
Proof. unfold stop_rtc_timer. se_keep. Qed.
Lemma flags_localtime_us : preserves (on_bc Q) (get_localtime_us clk).
Proof. unfold get_localtime_us. se_keep. Qed.
End Keep.

(** ** What changes them *)

Lemma cleared_flags : preserves flags_ok (set_cmos RTC_REG_C 0).
Proof.
  unfold set_cmos. apply preserves_bind; [apply flags_cmos|]. intros _. apply preserves_modify. intros s Hs b c. cbn. intros _ Hc.
  assert (c = 0) as ->; [|unfold raised; by rewrite Z.land_0_r].
  change (Pos.to_nat 12) with 12%nat in Hc. destruct (Nat.lt_ge_cases 12 (length (cmos_data (pl_rtc s)))) as [Hl|Hl].
  - rewrite list_lookup_insert_eq in Hc by done. by injection Hc as <-.
  - rewrite list_insert_ge in Hc by done. apply lookup_lt_Some in Hc. lia.
Qed.

Section States.
Context (n : Z).

(** The state of the domain and its flags *)
Definition flagged (s : pldom) : Prop := pl_ok n [] s /\ flags_ok s.
(** A computation that sets the flags right, whatever they were *)
Definition restores {A} (m : SE pldom A) : Prop := forall s, pl_ok n [] s -> wp m (fun _ => flagged) s.

Lemma flagged_keep {A} (m : SE pldom A) : holds (pl_ok n []) m -> preserves flags_ok m -> holds flagged m.
Proof. intros H1 H2 s [Hs Hf]. apply wp_keep; [by apply H1|done|done]. Qed.
Lemma restores_after {A B} (m : SE pldom A) (k : A -> SE pldom B) : holds (pl_ok n []) m -> (forall a, restores (k a)) -> restores (bind m k).
Proof. intros H1 H2 s Hs. apply wp_bind. eapply wp_mono; [by apply H1|]. intros a s' Hs'. by apply H2. Qed.
Lemma restores_then {A B} (m : SE pldom A) (k : A -> SE pldom B) : restores m -> (forall a, holds flagged (k a)) -> restores (bind m k).
Proof. intros H1 H2 s Hs. apply wp_bind. eapply wp_mono; [by apply H1|]. intros a s' Hs'. by apply H2. Qed.
Lemma restores_holds {A} (m : SE pldom A) : restores m -> holds flagged m.
Proof. intros H s [Hs _]. by apply H. Qed.

Lemma set_cmos_run s i x : rtc_ok (pl_rtc s) -> 0 <= i < 14 ->
  set_cmos i x s = (set_pl_rtc (set_cmos_data (<[Z.to_nat i := u8 x]> (cmos_data (pl_rtc s))) (pl_rtc s)) s, Ok tt).
Proof. intros Hr Hi. destruct (cmos_at s i Hr Hi) as (y & Hy & _). unfold set_cmos, bind. by rewrite (cmos_run s i y) by (done || lia). Qed.

(** Register C with more flags, the interrupt flag among them or not *)
Lemma or_c_flagged s m : flagged s -> 0 <= m < 2 ^ 8 ->
  (flag m RTC_IRQF = true \/ forall b, cmos_data (pl_rtc s) !! 11%nat = Some b -> Z.land b m = 0) ->
  wp (or_cmos RTC_REG_C m) (fun _ => flagged) s.
Proof.
  intros [Hs Hf] Hm Hor. pose proof (pk_rtc _ _ (proj1 Hs)) as Hr. destruct (cmos_at s RTC_REG_C Hr ltac:(done)) as (c & Hc & Hcr).
  assert (or_cmos RTC_REG_C m s = (set_pl_rtc (set_cmos_data (<[12%nat := Z.lor c m]> (cmos_data (pl_rtc s))) (pl_rtc s)) s, Ok tt)) as E.
  { unfold or_cmos, bind. rewrite (cmos_run s RTC_REG_C c) by done. rewrite set_cmos_run by done. by rewrite lor_byte. }
  pose proof (or_cmos_ok (pl_ok n []) RTC_REG_C m ltac:(done) s Hs) as Hw. unfold wp in Hw |- *. rewrite E in Hw |- *. split; [done|].
  intros b c' Hb Hc'. cbn in Hb, Hc'. rewrite list_lookup_insert_ne in Hb by done. rewrite list_lookup_insert_eq in Hc' by (rewrite (ro_size _ Hr); lia).
  injection Hc' as <-. intros Hra. destruct Hor as [Hor|Hor]; [by apply flag_lor_r|]. rewrite raised_disabled in Hra by (by apply Hor).
  apply flag_lor_l. by apply (Hf b c).
Qed.

Lemma update_irq_restores : restores rtc_update_irq.
Proof.
  intros s Hs. pose proof (pk_rtc _ _ (proj1 Hs)) as Hr. destruct (cmos_at s RTC_REG_C Hr ltac:(done)) as (c & Hc & Hcr).
  destruct (cmos_at s RTC_REG_B Hr ltac:(done)) as (b & Hb & Hbr). unfold rtc_update_irq. apply wp_bind. eapply wp_eq; [by apply (cmos_run s RTC_REG_C c)|].
  cbn [mode_strict andb]. apply wp_bind. eapply wp_eq; [by apply (cmos_run s RTC_REG_B b)|]. fold (raised b c). destruct (Z.eqb_spec (raised b c) 0) as [E|E].
  - apply wp_ret. split; [done|]. intros b' c' Hb' Hc'. change (Z.to_nat RTC_REG_B) with 11%nat in Hb. change (Z.to_nat RTC_REG_C) with 12%nat in Hc. simplify_eq. done.
  - set (s1 := set_pl_rtc (set_cmos_data (<[12%nat := Z.lor c RTC_IRQF]> (cmos_data (pl_rtc s))) (pl_rtc s)) s).
    assert (set_cmos RTC_REG_C (Z.lor c RTC_IRQF) s = (s1, Ok tt)) as Es by (rewrite set_cmos_run by done; by rewrite lor_byte).
    assert (flagged s1) as H1.
    { pose proof (set_cmos_ok (pl_ok n []) RTC_REG_C (Z.lor c RTC_IRQF) ltac:(done) s Hs) as Hw. unfold wp in Hw. rewrite Es in Hw. split; [done|].
      intros b' c' _ Hc' _. cbn in Hc'. rewrite list_lookup_insert_eq in Hc' by (rewrite (ro_size _ Hr); lia). injection Hc' as <-. by apply flag_lor_r. }
    apply wp_bind. eapply wp_eq; [exact Es|]. revert H1. generalize s1.
    match goal with |- forall x, flagged x -> wp ?m _ x => change (holds flagged m) end.
    apply holds_bind; [apply holds_when|intros _]; (apply flagged_keep; [|apply flags_vt]).
    + apply (rtc_deassert_ok n (pl_ok n [])).
    + apply (rtc_assert_ok n (pl_ok n [])).
Qed.

Lemma pf_ticks_flagged : holds flagged (check_for_pf_ticks clk).
Proof.
  intros s [Hs Hf]. pose proof (pk_rtc _ _ (proj1 Hs)) as Hr. destruct (cmos_at s RTC_REG_B Hr ltac:(done)) as (b & Hb & Hbr).
  unfold check_for_pf_ticks. apply wp_bind, wp_gets, wp_bind. eapply wp_eq; [by apply (cmos_run s RTC_REG_B b)|].
  destruct ((rtc_period (pl_rtc s) =? 0) || flag b RTC_PIE) eqn:Hpie; [by apply wp_ret|]. apply orb_false_iff in Hpie as [_ Hpie].
  apply wp_bind. eapply wp_mono; [exact (wp_keep (fun s' => flags_ok s' /\ cmos_data (pl_rtc s') = cmos_data (pl_rtc s)) _ _ s
    (NOW_ok clk n (pl_ok n []) s Hs) ltac:(intros x Hx; exact Hx) (conj Hf eq_refl))|].
  intros now s1 [Hs1 [Hf1 E1]]. apply wp_bind. eapply wp_mono.
  - apply (wp_when _ _ (fun _ => flagged)); [intros _|by split]. apply or_c_flagged; [by split|done|]. right. intros b' Hb'. rewrite E1 in Hb'.
    change (Z.to_nat RTC_REG_B) with 11%nat in Hb. simplify_eq. unfold flag in Hpie. by apply negb_false_iff, Z.eqb_eq in Hpie.
  - intros [] s2 Hs2. revert s2 Hs2. match goal with |- forall x, flagged x -> wp ?m _ x => change (holds flagged m) end.
    apply flagged_keep; [apply (on_rtc_ok (pl_ok n [])); by intros r []|by apply flags_on_rtc].
Qed.

(** ** The operations of the clock *)

Lemma fl_vt_now : holds flagged (vt (NOW clk)).
Proof. apply flagged_keep; [apply (NOW_ok clk n (pl_ok n []))|apply flags_vt]. Qed.
Lemma fl_cmos i : 0 <= i < 14 -> holds flagged (cmos i).
Proof. intros Hi. apply flagged_keep; [by apply (cmos_ok (pl_ok n []))|apply flags_cmos]. Qed.
Lemma fl_set i x : 0 <= i < 11 -> holds flagged (set_cmos i x).
Proof. intros Hi. apply flagged_keep; [apply (set_cmos_ok (pl_ok n [])); lia|apply flags_set_cmos; by left]. Qed.
Lemma fl_on_rtc f : (forall r, rtc_ok r -> rtc_ok (f r)) -> (forall r, cmos_data (f r) = cmos_data r) -> holds flagged (on_rtc f).
Proof. intros H1 H2. apply flagged_keep; [by apply (on_rtc_ok (pl_ok n []))|by apply flags_on_rtc]. Qed.
Lemma fl_fetch : holds flagged (rtc_fetch_date clk).
Proof. apply flagged_keep; [apply (fetch_date_ok clk n (pl_ok n []))|apply flags_fetch]. Qed.
Lemma fl_set_time : holds flagged rtc_set_time.
Proof. apply flagged_keep; [apply (set_time_ok (pl_ok n []))|apply flags_set_time]. Qed.
Lemma fl_timer_update : holds flagged (rtc_timer_update clk).
Proof. apply flagged_keep; [apply (timer_update_ok clk n (pl_ok n []))|apply flags_timer_update]. Qed.
Lemma fl_check_update : holds flagged (check_update_timer clk).
Proof. apply flagged_keep; [apply (check_update_ok clk n (pl_ok n []))|apply flags_check_update]. Qed.
Lemma fl_alarm_update : holds flagged (alarm_timer_update clk).
Proof. apply flagged_keep; [apply (alarm_update_ok clk n (pl_ok n []))|apply flags_alarm_update]. Qed.
Lemma fl_stop : holds flagged stop_rtc_timer.
Proof. apply flagged_keep; [apply (rtc_stop_ok clk n (pl_ok n []))|apply flags_stop]. Qed.
Lemma fl_deassert : holds flagged (vt (hw (hvm_isa_irq_deassert RTC_IRQ))).
Proof. apply flagged_keep; [apply (rtc_deassert_ok n (pl_ok n []))|apply flags_vt]. Qed.
Lemma fl_localtime_us : holds flagged (get_localtime_us clk).
Proof. apply flagged_keep; [apply (localtime_us_ok clk n (pl_ok n []))|apply flags_localtime_us]. Qed.
Lemma fl_clear_c : holds flagged (set_cmos RTC_REG_C 0).
Proof. apply flagged_keep; [by apply (set_cmos_ok (pl_ok n []))|apply cleared_flags]. Qed.
#[local] Hint Resolve fl_vt_now fl_fetch fl_set_time fl_timer_update fl_check_update fl_alarm_update fl_stop fl_deassert fl_localtime_us fl_clear_c pf_ticks_flagged : rtc.
#[local] Hint Extern 1 (holds _ (cmos _)) => apply fl_cmos; first [lia | done] : rtc.
#[local] Hint Extern 1 (holds _ (set_cmos _ _)) => apply fl_set; first [lia | done] : rtc.
#[local] Hint Extern 1 (holds _ (on_rtc _)) => apply fl_on_rtc; [by intros ? []|done] : rtc.

Lemma fl_write_b orig data : holds flagged (write_reg_b clk orig data).
Proof.
  unfold write_reg_b. apply holds_bind; [rtc_steps|intros _]. apply holds_bind; [rtc_steps|intros _].
  apply restores_holds, restores_after; [by apply (set_cmos_ok (pl_ok n []))|]. intros _. apply restores_then; [apply update_irq_restores|]. rtc_steps.
Qed.
Lemma fl_host : holds flagged rtc_pf_callback /\ holds flagged rtc_update_timer /\ holds flagged (rtc_update_timer2 clk) /\ holds flagged (rtc_alarm_cb clk).
Proof.
  split; [|split; [|split]].
  - unfold rtc_pf_callback. apply holds_bind; [rtc_steps|]. intros c. apply holds_bind; [cbn [mode_no_ack negb andb when]; rtc_steps|]. intros _ s Hs. apply or_c_flagged; [done|done|by left].
  - unfold rtc_update_timer, or_cmos. rtc_steps.
  - unfold rtc_update_timer2. apply holds_bind; [rtc_steps|]. intros b. apply holds_when, restores_holds, restores_after; [by apply (or_cmos_ok (pl_ok n []))|].
    intros _. apply restores_after; [by apply (cmos_ok (pl_ok n []))|]. intros a. apply restores_after; [by apply (set_cmos_ok (pl_ok n []))|]. intros _.
    apply restores_then; [apply update_irq_restores|rtc_steps].
  - unfold rtc_alarm_cb. apply holds_bind; [rtc_steps|]. intros b. apply holds_when, restores_holds, restores_after; [by apply (or_cmos_ok (pl_ok n []))|].
    intros _. apply restores_then; [apply update_irq_restores|rtc_steps].
Qed.

Lemma time_reg_range i : is_time_reg i = true \/ is_alarm_reg i = true -> 0 <= i < 11.
Proof.
  unfold is_time_reg, is_alarm_reg, RTC_SECONDS, RTC_MINUTES, RTC_HOURS, RTC_DAY_OF_WEEK, RTC_DAY_OF_MONTH, RTC_MONTH, RTC_YEAR,
    RTC_SECONDS_ALARM, RTC_MINUTES_ALARM, RTC_HOURS_ALARM. rewrite !orb_true_iff, !Z.eqb_eq. lia.
Qed.
Lemma fl_write addr data : holds flagged (rtc_ioport_write clk addr data).
Proof.
  unfold rtc_ioport_write. cbv zeta. destruct (Z.land addr 1 =? 0).
  - apply holds_bind; [|intros _; apply holds_ret]. apply fl_on_rtc; [|done]. intros r []. split; try done. apply index_range.
  - apply holds_read. intros s [Hs _]. destruct (pk_rtc _ _ (proj1 Hs)) as [_ _ Hi _]. destruct (Z.leb_spec RTC_CMOS_SIZE (cmos_index (pl_rtc s))) as [|Hlt]; [apply holds_ret|].
    set (i := cmos_index (pl_rtc s)) in *. clearbody i. unfold RTC_CMOS_SIZE in Hlt. pose proof (time_reg_range i) as Hrange.
    apply holds_bind; [rtc_steps|]. intros orig. apply holds_bind; [|intros _; apply holds_ret].
    destruct (is_alarm_reg i) eqn:Ea; [specialize (Hrange ltac:(by right)); rtc_steps|].
    destruct (is_time_reg i) eqn:Et; [specialize (Hrange ltac:(by left)); unfold write_time_reg; rtc_steps|].
    destruct (i =? RTC_REG_A); [unfold write_reg_a; rtc_steps|]. destruct (i =? RTC_REG_B); [apply fl_write_b|apply holds_ret].
Qed.
Lemma fl_read addr s : flagged s -> cmos_index (pl_rtc s) < RTC_CMOS_SIZE -> wp (rtc_ioport_read clk addr) (fun _ => flagged) s.
Proof.
  intros Hs Hlt. unfold rtc_ioport_read. cbv zeta. destruct (Z.land addr 1 =? 0); [by apply wp_ret|]. apply wp_bind, wp_gets.
  destruct (pk_rtc _ _ (proj1 (proj1 Hs))) as [_ _ Hi _]. set (i := cmos_index (pl_rtc s)) in *. clearbody i. unfold RTC_CMOS_SIZE in Hlt. revert s Hs.
  match goal with |- forall s, flagged s -> wp ?m _ s => change (holds flagged m) end.
  unfold read_time_reg, read_reg_a, read_reg_c, update_in_progress. rtc_steps.
Qed.
Lemma fl_io w port bytes val : holds flagged (handle_rtc_io clk w port bytes val).
Proof.
  unfold handle_rtc_io. destruct (negb (bytes =? 1)); [apply holds_ret|]. destruct w.
  - apply holds_bind; [apply fl_write|]. intros ok. apply holds_ret.
  - intros s Hs. apply wp_bind, wp_gets. destruct (Z.ltb_spec (cmos_index (pl_rtc s)) RTC_CMOS_SIZE); [|by apply wp_ret].
    apply wp_bind. eapply wp_mono; [by apply fl_read|]. intros x s' Hs'. by apply wp_ret.
Qed.

(** ** A read of register C *)

Lemma pf_ticks_grow b c : preserves (on_bc (fun ob oc => ob = Some b /\ exists c', oc = Some c' /\ Z.land c c' = c /\ 0 <= c' < 2 ^ 8)) (check_for_pf_ticks clk).
Proof.
  unfold check_for_pf_ticks. apply preserves_bind; [se_keep|]. intros r. apply preserves_bind; [apply flags_cmos|]. intros b0. destruct (_ || _); [apply preserves_ret|].
  apply preserves_bind; [apply flags_vt|]. intros now. apply preserves_bind; [|intros _; by apply flags_on_rtc]. apply preserves_when.
  intros s (Hb & c' & Hc & Hsub & Hr). unfold or_cmos, bind. rewrite (cmos_run s RTC_REG_C c') by done. unfold set_cmos, bind. rewrite (cmos_run s RTC_REG_C c') by done.
  unfold on_bc. cbn. change (Pos.to_nat 12) with 12%nat. rewrite list_lookup_insert_ne by done. split; [done|]. exists (Z.lor c' RTC_PF).
  rewrite list_lookup_insert_eq by (by apply lookup_lt_Some in Hc). rewrite lor_byte by done. split; [done|]. split; [|exact (lor_below c' RTC_PF 8 ltac:(lia) Hr ltac:(by vm_compute))].
  rewrite Z.land_lor_distr_r, Hsub. apply Z.bits_inj'. intros i Hi. rewrite Z.lor_spec, Z.land_spec. by destruct (Z.testbit c i).
Qed.

Lemma read_c_wp s b c : flagged s -> cmos_data (pl_rtc s) !! 11%nat = Some b -> cmos_data (pl_rtc s) !! 12%nat = Some c ->
  wp (read_reg_c clk) (fun x s' => Z.land c x = c /\ (raised b x <> 0 -> flag x RTC_IRQF = true) /\ cmos_data (pl_rtc s') !! 12%nat = Some 0) s.
Proof.
  intros Hs Hb Hc. pose proof (pk_rtc _ _ (proj1 (proj1 Hs))) as Hr0. unfold read_reg_c. apply wp_bind.
  eapply wp_mono; [apply (wp_keep _ _ _ _ (pf_ticks_flagged s Hs) (pf_ticks_grow b c))|].
  { split; [done|]. exists c. split; [done|]. split; [apply Z.land_diag|]. exact (Forall_lookup_1 _ _ _ _ (ro_bytes _ Hr0) Hc). }
  intros [] s1 [[Hs1 Hf1] (Hb1 & c' & Hc1 & Hsub & _)]. pose proof (pk_rtc _ _ (proj1 Hs1)) as Hr. apply wp_bind.
  eapply wp_eq; [by apply (cmos_run s1 RTC_REG_C c')|]. apply wp_bind. eapply wp_eq; [by apply set_cmos_run|]. set (s2 := set_pl_rtc _ s1).
  assert (pl_ok n [] s2) as Hs2.
  { pose proof (set_cmos_ok (pl_ok n []) RTC_REG_C 0 ltac:(done) s1 Hs1) as Hw. unfold wp in Hw. by rewrite set_cmos_run in Hw. }
  set (K := on_bc (fun _ oc => oc = Some 0)). assert (K s2) as HK by (unfold K, on_bc; cbn; apply (list_lookup_insert_eq _ 12%nat); rewrite (ro_size _ Hr); lia).
  assert (forall A (m : SE pldom A), holds (pl_ok n []) m -> preserves K m -> holds (fun s => pl_ok n [] s /\ K s) m) as Hkeep.
  { intros A m H1 H2 x [Hx HKx]. apply wp_keep; [by apply H1|done|done]. }
  apply wp_bind. eapply wp_mono; [exact (holds_when _ _ _ (Hkeep _ _ (rtc_deassert_ok n (pl_ok n [])) (flags_vt _ _)) s2 (conj Hs2 HK))|]. intros [] s3 Hs3.
  apply wp_bind. eapply wp_mono; [exact (Hkeep _ _ (check_update_ok clk n (pl_ok n [])) (flags_check_update _) s3 Hs3)|]. intros [] s4 Hs4.
  apply wp_bind. eapply wp_mono; [exact (Hkeep _ _ (alarm_update_ok clk n (pl_ok n [])) (flags_alarm_update _) s4 Hs4)|]. intros [] s5 [_ HK5].
  apply wp_bind, wp_modify, wp_ret. split; [done|]. split; [|exact HK5]. exact (Hf1 b c' Hb1 Hc1).
Qed.
End States.
End Flags.

(** ** The line of the clock *)

(** The sources of GSI 8 besides the clock's own line are the links routed to it. *)
Lemma line_level q : callback_via_asserted q = false ->
  gsi_level (set_isa_irq (Z.clearbit (isa_irq q) RTC_IRQ) q) RTC_IRQ = routed_level (pci_intx q) (route q) RTC_IRQ.
Proof.
  intros Ha. unfold gsi_level, callback_level. cbn [set_isa_irq pci_intx isa_irq route callback_via_asserted]. rewrite Ha. cbn [andb Z.b2z].
  unfold pci_level, isa_level. rewrite !count_none; [lia| |].
  - intros i Hi%elem_of_below. unfold hvm_isa_irq_to_gsi, RTC_IRQ. destruct (Z.eqb_spec i 0) as [->|Hne]; [by rewrite andb_false_r|].
    destruct (Z.eqb_spec i 8) as [->|]; [by rewrite Z.clearbit_eq|by rewrite andb_false_r].
  - intros b _. pose proof (wire_gsi_bound b). rewrite (proj2 (Z.eqb_neq _ _)) by (unfold RTC_IRQ; lia). apply andb_false_r.
Qed.

(** The clock has raised its interrupt, from [h] to [h']: its line is asserted,
    and the vcpus that pin 8 of the IO-APIC names have the vector requested
    (unless a link is routed to IRQ 8 and is asserted, which keeps the pin up). *)
Definition line_raised (h h' : hdom) : Prop :=
  Z.testbit (isa_irq (h_irq h')) RTC_IRQ = true /\
  (routed_level (pci_intx (h_irq h)) (route (h_irq h)) RTC_IRQ = 0 ->
   forall e, fires false RTC_IRQ VCPUID_ANY h e -> requested e h').

Lemma deassert_keeps_ioapic a irq : preserves (fun h => h_ioapic h = a) (hvm_isa_irq_deassert irq).
Proof.
  assert (forall m : SE pics unit, preserves (fun h => h_ioapic h = a) (on_pics m)) as Hp
    by (intros m h Hh; unfold on_pics, zoom; by destruct (m (h_pics h))).
  assert (forall f, preserves (fun h => h_ioapic h = a) (on_irq f)) as Hq by (intros f; by apply preserves_modify).
  unfold hvm_isa_irq_deassert, deassert_irq, gsi_dec, elem. auto with keep. se_keep.
Qed.

(** The pulse of the clock's line *)
Lemma pulse_wp h : irq_inv h -> callback_via_asserted (h_irq h) = false ->
  wp (hvm_isa_irq_deassert RTC_IRQ) (fun _ h1 => forall pit0, wp (hvm_isa_irq_assert pit0 RTC_IRQ) (fun _ => line_raised h) h1) h.
Proof.
  intros Hi Ha.
  eapply wp_mono; [apply (wp_keep (fun h' => h_ioapic h' = h_ioapic h) _ _ _ (isa_deassert_wp RTC_IRQ h Hi ltac:(done)));
                   [apply deassert_keeps_ioapic|done]|].
  intros [] h1 [[I1 S1] E1] pit0. eapply wp_mono; [apply (isa_assert_full pit0 RTC_IRQ VCPUID_ANY h1 I1); [done|by left]|].
  intros [] h2 [[_ S2] F2]. split; [rewrite (sw_isa _ _ S2); by apply Z.setbit_eq|].
  intros H0 e (H1 & H2 & H3 & _). apply F2.
  - rewrite (same_gsi_level _ _ _ S1), line_level by done. exact H0.
  - split; [by rewrite E1|]. done.
Qed.

Section Line.
Context (clk : nat -> Z) (n : Z).

(** What does not touch the interrupt hardware *)
Definition on_hw (H : hdom -> Prop) (s : pldom) : Prop := H (vs_hw (pl_v s)).

Section Hardware.
Context (H : hdom -> Prop).

Lemma hw_vt {A} (m : SE vst A) : preserves (fun v => H (vs_hw v)) m -> preserves (on_hw H) (vt m).
Proof. intros Hm s Hs. unfold vt, zoom. specialize (Hm (pl_v s) Hs). by destruct (m (pl_v s)). Qed.
#[local] Hint Extern 3 (preserves _ (modify _)) => by apply preserves_modify : keep.
Lemma hw_now : preserves (fun v => H (vs_hw v)) (NOW clk).
Proof. unfold NOW. se_keep. Qed.
#[local] Hint Resolve hw_now : keep.
Lemma hw_destroy id : preserves (fun v => H (vs_hw v)) (destroy_periodic_time id).
Proof. unfold destroy_periodic_time, list_del, vcpu_of, the_pt, the_tm, upd_pt, upd_tm, pt_stop_timer. se_keep. Qed.
#[local] Hint Resolve hw_destroy : keep.
Lemma hw_create v id delta p irq cb : preserves (fun v => H (vs_hw v)) (create_periodic_time clk v id delta p irq cb).
Proof.
  unfold create_periodic_time, hvm_get_guest_time, pt_update_schedule_period_one, list_add, pt_set_timer, the_pt, the_tm, upd_pt, upd_tm.
  cbv zeta. se_keep.
Qed.
#[local] Hint Resolve hw_create : keep.
#[local] Hint Extern 2 (preserves _ (vt _)) => apply hw_vt : keep.
Lemma hw_on_rtc f : preserves (on_hw H) (on_rtc f).
Proof. by apply preserves_modify. Qed.
Lemma hw_cmos i : preserves (on_hw H) (cmos i).
Proof. unfold cmos. se_keep. Qed.
#[local] Hint Resolve hw_on_rtc hw_cmos : keep.
Lemma hw_set_cmos i x : preserves (on_hw H) (set_cmos i x).
Proof. unfold set_cmos. se_keep. Qed.
#[local] Hint Resolve hw_set_cmos : keep.
Lemma hw_or_cmos i m : preserves (on_hw H) (or_cmos i m).
Proof. unfold or_cmos. se_keep. Qed.
Lemma hw_fetch : preserves (on_hw H) (rtc_fetch_date clk).
Proof. unfold rtc_fetch_date, get_localtime, rtc_copy_date. cbv zeta. se_keep. Qed.
Lemma hw_set_time : preserves (on_hw H) rtc_set_time.
Proof. unfold rtc_set_time, update_domain_wallclock_time. se_keep. Qed.
#[local] Hint Resolve hw_or_cmos hw_fetch hw_set_time : keep.
Lemma hw_timer_update : preserves (on_hw H) (rtc_timer_update clk).
Proof. unfold rtc_timer_update, stop_rtc_timer, the_target. cbv zeta. se_keep. Qed.
Lemma hw_stop : preserves (on_hw H) stop_rtc_timer.
Proof. unfold stop_rtc_timer. se_keep. Qed.
Lemma hw_check_update : preserves (on_hw H) (check_update_timer clk).
Proof. unfold check_update_timer, get_localtime_us. cbv zeta. se_keep. Qed.
Lemma hw_alarm_update : preserves (on_hw H) (alarm_timer_update clk).
Proof. unfold alarm_timer_update, get_localtime_us. cbv zeta. se_keep. Qed.
Lemma hw_pf_ticks : preserves (on_hw H) (check_for_pf_ticks clk).
Proof. unfold check_for_pf_ticks. se_keep. Qed.
End Hardware.

(** Registers B and C, and a property of the interrupt hardware *)
Definition at_regs (b c : Z) (H : hdom -> Prop) (s : pldom) : Prop :=
  pl_ok n [] s /\ on_bc (fun ob oc => ob = Some b /\ oc = Some c) s /\ on_hw H s.

Lemma at_keep {A} (m : SE pldom A) b c H : holds (pl_ok n []) m -> (forall Q, preserves (on_bc Q) m) -> preserves (on_hw H) m ->
  holds (at_regs b c H) m.
Proof.
  intros H1 H2 H3 s (Hs & Hr & Hh). eapply wp_mono; [apply (wp_keep _ _ _ _ (wp_keep _ _ _ _ (H1 s Hs) (H2 _) Hr) H3 Hh)|].
  intros a s' [[? ?] ?]. by split_and!.
Qed.

Lemma set_c_at b c x H s : at_regs b c H s -> 0 <= x < 2 ^ 8 -> wp (set_cmos RTC_REG_C x) (fun _ => at_regs b x H) s.
Proof.
  intros (Hs & [Hb Hc] & Hh) Hx. pose proof (pk_rtc _ _ (proj1 Hs)) as Hr.
  pose proof (set_cmos_ok (pl_ok n []) RTC_REG_C x ltac:(done) s Hs) as Hw. unfold wp in *. rewrite set_cmos_run in * by done.
  split; [done|]. split; [|done]. unfold on_bc. cbn. change (Z.to_nat RTC_REG_C) with 12%nat.
  rewrite list_lookup_insert_ne, list_lookup_insert_eq by (done || (rewrite (ro_size _ Hr); lia)).
  split; [done|]. f_equal. by apply Z.mod_small.
Qed.
Lemma set_b_at b c x H s : at_regs b c H s -> wp (set_cmos RTC_REG_B x) (fun _ => at_regs (u8 x) c H) s.
Proof.
  intros (Hs & [Hb Hc] & Hh). pose proof (pk_rtc _ _ (proj1 Hs)) as Hr.
  pose proof (set_cmos_ok (pl_ok n []) RTC_REG_B x ltac:(done) s Hs) as Hw. unfold wp in *. rewrite set_cmos_run in * by done.
  split; [done|]. split; [|done]. unfold on_bc. cbn. change (Z.to_nat RTC_REG_B) with 11%nat.
  rewrite list_lookup_insert_eq, list_lookup_insert_ne by (done || (rewrite (ro_size _ Hr); lia)). done.
Qed.
Lemma or_c_at b c m H s : at_regs b c H s -> 0 <= m < 2 ^ 8 -> wp (or_cmos RTC_REG_C m) (fun _ => at_regs b (Z.lor c m) H) s.
Proof.
  intros Ha Hm. pose proof Ha as (Hs & [Hb Hc] & Hh). unfold or_cmos. apply wp_bind. eapply wp_eq; [by apply (cmos_run s RTC_REG_C c)|].
  apply (set_c_at b c); [done|]. apply (lor_below c m 8); [lia| |done].
  exact (Forall_lookup_1 _ _ _ _ (ro_bytes _ (pk_rtc _ _ (proj1 Hs))) Hc).
Qed.

Lemma update_irq_at b c h s : raised b c <> 0 -> at_regs b c (eq h) s ->
  wp rtc_update_irq (fun _ => at_regs b (Z.lor c RTC_IRQF) (line_raised h)) s.
Proof.
  intros Hra Ha. pose proof Ha as (Hs & [Hb Hc] & _). unfold rtc_update_irq. apply wp_bind. eapply wp_eq; [by apply (cmos_run s RTC_REG_C c)|].
  cbn [mode_strict andb]. apply wp_bind. eapply wp_eq; [by apply (cmos_run s RTC_REG_B b)|]. fold (raised b c).
  rewrite (proj2 (Z.eqb_neq _ 0)) by done. apply wp_bind. eapply wp_mono; [apply (set_c_at b c); [done|]|].
  { apply (lor_below c RTC_IRQF 8); [lia| |by vm_compute]. exact (Forall_lookup_1 _ _ _ _ (ro_bytes _ (pk_rtc _ _ (proj1 Hs))) Hc). }
  intros [] s1 (Hs1 & Hr1 & Hh1). unfold on_hw in Hh1. cbn [mode_no_ack when]. set (m := bind _ _).
  assert (holds (pl_ok n []) m) as M1 by (apply holds_bind; [apply (rtc_deassert_ok n (pl_ok n []))|intros _; apply (rtc_assert_ok n (pl_ok n []))]).
  assert (forall Q, preserves (on_bc Q) m) as M2 by (intros Q; apply preserves_bind; [apply flags_vt|intros _; apply flags_vt]).
  pose proof (wp_keep _ _ _ _ (M1 s1 Hs1) (M2 _) Hr1) as M3. destruct (vo_hw _ _ (pk_v _ _ (proj1 Hs1))) as [I1 I2 _].
  assert (wp m (fun _ s' => on_hw (line_raised h) s') s1) as M4.
  { unfold m. apply wp_bind, wp_zoom, wp_zoom. rewrite Hh1. eapply wp_mono; [by apply pulse_wp|]. intros [] h1 H1. apply wp_zoom, wp_bind.
    unfold pit_active, the_pt. apply wp_bind, wp_bind, wp_gets. cbn [pl_v set_pl_v vs_pts set_vs_hw].
    destruct (vs_pts (pl_v s1) !! 0%nat) as [pt|] eqn:E; [|apply lookup_ge_None_1 in E; pose proof (vo_len _ _ (pk_v _ _ (proj1 Hs1))); lia].
    apply wp_ret, wp_ret, wp_zoom. eapply wp_mono; [apply H1|]. intros [] h2 H2. exact H2. }
  unfold wp in *. destruct (m s1) as [s2 [[]| |]]; [|done|done]. destruct M3. by split_and!.
Qed.

(** The host timers of the update and of the alarm *)
Lemma host_raises b c h s op src : at_regs b c (eq h) s -> (op = rtc_update_timer2 clk /\ src = RTC_UF) \/ (op = rtc_alarm_cb clk /\ src = RTC_AF) ->
  flag b RTC_SET = false -> flag b src = true -> wp op (fun _ => at_regs b (Z.lor (Z.lor c src) RTC_IRQF) (line_raised h)) s.
Proof.
  intros Ha Hop Hset Hen. assert (src = RTC_UF \/ src = RTC_AF) as Hsrc by (destruct Hop as [[_ ->]|[_ ->]]; auto).
  assert (raised b (Z.lor c src) <> 0) as Hra.
  { unfold raised, flag in *. apply negb_true_iff, Z.eqb_neq in Hen. intros E. apply Hen. rewrite (Z.land_lor_distr_r b c src), Z.land_lor_distr_l in E.
    apply Z.lor_eq_0_iff in E as [_ E]. rewrite <- E, <- Z.land_assoc. f_equal. by destruct Hsrc as [-> | ->]. }
  pose proof Ha as (Hs & [Hb _] & _). assert (0 <= src < 2 ^ 8) as Hr by (destruct Hsrc as [-> | ->]; by vm_compute).
  destruct Hop as [[-> ->]|[-> ->]]; [unfold rtc_update_timer2|unfold rtc_alarm_cb]; apply wp_bind;
    (eapply wp_eq; [by apply (cmos_run s RTC_REG_B b)|]); rewrite Hset; cbn [negb when]; apply wp_bind;
    (eapply wp_mono; [by apply (or_c_at b c)|]); intros [] s1 H1.
  - apply wp_bind. eapply wp_mono; [apply (at_keep _ _ _ _ (cmos_ok (pl_ok n []) RTC_REG_A ltac:(done)) (fun Q => flags_cmos Q _) (hw_cmos _ _) s1 H1)|].
    intros a s2 H2. apply wp_bind.
    eapply wp_mono; [apply (at_keep _ _ _ _ (set_cmos_ok (pl_ok n []) RTC_REG_A _ ltac:(done)) (fun Q => flags_set_cmos Q RTC_REG_A _ ltac:(by left)) (hw_set_cmos _ _ _) s2 H2)|].
    intros [] s3 H3. apply wp_bind. eapply wp_mono; [by apply update_irq_at|]. intros [] s4 H4.
    by apply (at_keep _ _ _ _ (check_update_ok clk n (pl_ok n [])) (flags_check_update clk) (hw_check_update _)).
  - apply wp_bind. eapply wp_mono; [by apply update_irq_at|]. intros [] s4 H4.
    by apply (at_keep _ _ _ _ (alarm_update_ok clk n (pl_ok n [])) (flags_alarm_update clk) (hw_alarm_update _)).
Qed.
(** A guest that enables a source that is pending *)
Lemma write_b_raises orig data b c h s : at_regs b c (eq h) s -> 0 <= data < 2 ^ 8 -> raised data c <> 0 ->
  wp (write_reg_b clk orig data) (fun _ s' => exists c', Z.land c c' = c /\ flag c' RTC_IRQF = true /\ at_regs data c' (line_raised h) s') s.
Proof.
  intros Ha Hd Hra. unfold write_reg_b. apply wp_bind.
  assert (holds (at_regs b c (eq h)) (if flag data RTC_SET
    then a <- cmos RTC_REG_A;; set_cmos RTC_REG_A (Z.ldiff a RTC_UIP);; when (negb (flag orig RTC_SET)) (rtc_fetch_date clk)
    else when (flag orig RTC_SET) rtc_set_time)) as H0.
  { destruct (flag data RTC_SET).
    - apply holds_bind; [exact (at_keep _ _ _ _ (cmos_ok (pl_ok n []) RTC_REG_A ltac:(done)) (fun Q => flags_cmos Q _) (hw_cmos _ _))|]. intros a.
      apply holds_bind; [exact (at_keep _ _ _ _ (set_cmos_ok (pl_ok n []) RTC_REG_A _ ltac:(done)) (fun Q => flags_set_cmos Q RTC_REG_A _ ltac:(by left)) (hw_set_cmos _ _ _))|].
      intros _. apply holds_when. exact (at_keep _ _ _ _ (fetch_date_ok clk n (pl_ok n [])) (flags_fetch clk) (hw_fetch _)).
    - apply holds_when. exact (at_keep _ _ _ _ (set_time_ok (pl_ok n [])) flags_set_time (hw_set_time _)). }
  eapply wp_mono; [exact (H0 s Ha)|]. intros [] s1 (Hs1 & [Hb1 Hc1] & Hh1). apply wp_bind.
  eapply wp_mono; [apply (wp_keep _ _ _ _ (wp_keep _ _ _ _ (pf_ticks_ok clk n (pl_ok n []) s1 Hs1) (pf_ticks_grow clk b c)
    (conj Hb1 (ex_intro _ c (conj Hc1 (conj (Z.land_diag c) (Forall_lookup_1 _ _ _ _ (ro_bytes _ (pk_rtc _ _ (proj1 Hs1))) Hc1)))))) (hw_pf_ticks _) Hh1)|].
  intros [] s2 [[Hs2 (Hb2 & c' & Hc2 & Hsub & _)] Hh2]. apply wp_bind.
  eapply wp_mono; [apply (set_b_at b c' data (eq h)); by split|]. intros [] s3 H3. assert (u8 data = data) as Hu by (by apply Z.mod_small). cbv beta in H3. rewrite Hu in H3.
  assert (raised data c' <> 0) as Hra'.
  { intros E. apply Hra. unfold raised in *. rewrite <- Hsub. apply Z.bits_inj'. intros j Hj. apply (f_equal (fun x => Z.testbit x j)) in E.
    rewrite !Z.land_spec, Z.testbit_0_l in *. by destruct (Z.testbit data j), (Z.testbit c j), (Z.testbit c' j). }
  apply wp_bind. eapply wp_mono; [by apply update_irq_at|]. intros [] s4 H4. set (c4 := Z.lor c' RTC_IRQF) in *.
  assert (Z.land c c4 = c /\ flag c4 RTC_IRQF = true) as [Hsub4 Hf4].
  { split; [|by apply flag_lor_r]. unfold c4. rewrite Z.land_lor_distr_r, Hsub. apply Z.bits_inj'. intros j Hj. rewrite Z.lor_spec, Z.land_spec. by destruct (Z.testbit c j). }
  apply (wp_mono _ (fun _ => at_regs data c4 (line_raised h))); [|intros [] s5 H5; exists c4; split; [exact Hsub4|split; [exact Hf4|exact H5]]].
  match goal with |- wp ?m _ _ => assert (holds (at_regs data c4 (line_raised h)) m) as H5; [|by apply H5] end.
  apply holds_bind; [apply holds_when, holds_bind; [|intros _]|intros _; apply holds_bind; [apply holds_when|intros _; apply holds_when]].
  - exact (at_keep _ _ _ _ (rtc_stop_ok clk n (pl_ok n [])) flags_stop (hw_stop _)).
  - exact (at_keep _ _ _ _ (timer_update_ok clk n (pl_ok n [])) (flags_timer_update clk) (hw_timer_update _)).
  - exact (at_keep _ _ _ _ (check_update_ok clk n (pl_ok n [])) (flags_check_update clk) (hw_check_update _)).
  - exact (at_keep _ _ _ _ (alarm_update_ok clk n (pl_ok n [])) (flags_alarm_update clk) (hw_alarm_update _)).
Qed.
End Line.

(** ** The system of devices *)

Section System.
Context (clk : nat -> Z).

Lemma flags_crash : preserves flags_ok domain_crash.
Proof. by apply preserves_modify. Qed.
Lemma flags_on_pmt f : preserves flags_ok (on_pmt f).
Proof. by apply preserves_modify. Qed.
Lemma flags_sci : preserves flags_ok pmt_update_sci.
Proof. by apply sci_frame. Qed.
#[local] Hint Resolve flags_crash flags_on_pmt flags_sci : keep.
#[local] Hint Extern 1 (preserves flags_ok (vt _)) => apply flags_vt : keep.
#[local] Hint Extern 1 (preserves flags_ok (on_rtc _)) => by apply flags_on_rtc : keep.
Lemma flags_pmt_time : preserves flags_ok (pmt_update_time clk).
Proof. unfold pmt_update_time, pmt_the_vcpu, get_guest_time. cbv zeta. se_keep. Qed.
#[local] Hint Resolve flags_pmt_time : keep.

(** The operations of the other devices *)
Definition of_clock (op : dop) : bool :=
  match op with DRtc _ _ _ _ | DRtcTick | DRtcUpdate | DRtcEnded | DRtcAlarm => true | _ => false end.

Lemma flags_other op : of_clock op = false -> preserves flags_ok (run_dop clk op).
Proof.
  intros Hop. destruct op; try discriminate Hop; cbn [run_dop]; unfold ignore.
  - apply flags_vt.
  - apply preserves_bind; [apply pit_io_frame; (done || apply flags_crash)|]. se_keep.
  - apply preserves_bind; [apply speaker_frame; (done || apply flags_crash)|]. se_keep.
  - unfold pit_time_fired. apply preserves_bind; [by apply time_frame|]. intros t. by apply load_time_frame.
  - unfold handle_pmt_io. cbv zeta. se_keep.
  - unfold handle_evt_io. cbv zeta. se_keep.
  - unfold pmt_timer_callback. se_keep.
  - unfold hvm_acpi_power_button. se_keep.
  - unfold hvm_acpi_sleep_button. se_keep.
  - unfold rtc_update_clock, get_localtime. se_keep.
  - unfold domain_set_time_offset, rtc_update_clock, get_localtime, update_domain_wallclock_time. se_keep.
  - unfold do_settime, update_domain_wallclock_time. cbv zeta. se_keep.
  - apply preserves_bind; [apply hpet_read_frame; (done || apply flags_crash)|]. se_keep.
  - apply hpet_write_frame; (done || apply flags_crash).
Qed.

Lemma flags_clock n op s s' : of_clock op = true -> pl_ok n [] s -> flags_ok s -> run_dop clk op s = (s', Ok tt) -> flags_ok s'.
Proof.
  intros Hop Hs Hf E. assert (holds (flagged n) (run_dop clk op)) as H.
  { destruct op; try discriminate Hop; cbn [run_dop]; [apply holds_bind; [apply fl_io|intros a; apply holds_ret]|by apply (fl_host clk n)..]. }
  exact (proj2 (wp_ran _ _ _ _ _ (H s (conj Hs Hf)) E)).
Qed.

Lemma flags_pit_start : preserves flags_ok (before_vcpu0 (pit_reset clk)).
Proof.
  intros x Hx. unfold before_vcpu0. assert (flags_ok (fst (pit_reset clk (show_vcpus [] x)))) as Hr by (by apply pit_reset_frame).
  by destruct (pit_reset clk (show_vcpus [] x)).
Qed.
Lemma flags_hpet_start : preserves flags_ok hpet_init.
Proof. unfold hpet_init. apply preserves_bind; [by apply on_hpet_frame|]. intros _. apply each_frame. intros tn. by apply vt_frame. Qed.
Lemma flags_pmt_start : preserves flags_ok (pmtimer_init clk 0).
Proof. unfold pmtimer_init, pmt_timer_callback. se_keep. Qed.
Lemma flags_rtc_start : preserves flags_ok (rtc_init_timers clk).
Proof.
  unfold rtc_init_timers, get_localtime. se_keep; try by apply flags_on_rtc.
  - unfold rtc_copy_date. cbv zeta. se_keep; try apply flags_cmos; apply flags_set_cmos; by left.
  - apply flags_check_update.
Qed.

Lemma flags_front n h p w s0 s1 : hw_sound n h -> zlen (h_vcpus h) = n -> 0 < n -> 0 <= vpt_coalesce_ns p -> i8259_target (h_pics h) = None ->
  vt (hvm_init_guest_time clk) (new_pldom (new_vst h p) w) = (s0, Ok tt) -> rtc_init s0 = (s1, Ok tt) -> flags_ok s1.
Proof.
  intros Hh Hn Hpos Hp Ht E0 E1. destruct (boot_time clk n h p w Hh Hn Hpos Hp Ht) as (v & E & Hb). rewrite E in E0. injection E0 as <-.
  rewrite (rtc_init_zero n _ Hb eq_refl) in E1. injection E1 as <-. intros b c [= <-] [= <-]. done.
Qed.
Lemma flags_boot x s : (forall s0 s1, vt (hvm_init_guest_time clk) x = (s0, Ok tt) -> rtc_init s0 = (s1, Ok tt) -> flags_ok s1) ->
  timers_init clk x = (s, Ok tt) -> flags_ok s.
Proof.
  intros Hfront (s0 & [] & E0 & (s1 & [] & E1 & (s2 & [] & E2 & (s3 & [] & E3 & (s4 & [] & E4 & E5)%bind_ran)%bind_ran)%bind_ran)%bind_ran)%bind_ran.
  apply (ran_keeps _ _ _ _ _ flags_rtc_start E5), (ran_keeps _ _ _ _ _ flags_hpet_start E4), (ran_keeps _ _ _ _ _ flags_pmt_start E3), (ran_keeps _ _ _ _ _ flags_pit_start E2).
  exact (Hfront s0 s1 E0 E1).
Qed.

Lemma dreach_flags n s : dreach clk n s -> flags_ok s.
Proof.
  induction 1 as [h p w pit0 s Hh Ht Hn Hpos Hp Hrun|op s s' Hr IH Hc Hop Hrun].
  - destruct (hreach_all pit0 h Hh) as [[H1 H2] H3]. rewrite Hn in H3. apply (flags_boot _ s (fun s0 s1 => flags_front n h p w s0 s1 ltac:(by split) Hn Hpos Hp Ht) Hrun).
  - destruct (of_clock op) eqn:Eo; [exact (flags_clock n op s s' Eo (dreach_ok clk n s Hr Hc) IH Hrun)|exact (ran_keeps _ _ _ _ _ (flags_other op Eo) Hrun IH)].
Qed.
End System.

(** * The real-time clock: the properties *)

(** ** The calendar *)

(** C19: [gmtime] is the Gregorian calendar, before 1970 as well as after. For every time
    that fits 40 bits with its sign, its loops end within the fuel; the date they give is
    a date of the calendar, with its weekday and its day of the year; the seconds from
    1970 to that date are the time; and from 1970 on [mktime] gives the time back. *)
Theorem gmtime_is_the_calendar t : - 2 ^ 39 <= t < 2 ^ 39 ->
  valid_date (gmtime (u64 t)) /\ date_seconds (gmtime (u64 t)) = t /\ (0 <= t -> mktime_of (gmtime t) = t).
Proof.
  intros Ht. destruct (gmtime_spec t Ht) as [Hv Hs]. split; [done|]. split; [done|]. intros H0. rewrite u64_of in Hv, Hs by lia.
  rewrite mktime_date; [done|done|]. pose proof (year_between (gmtime t) 1970 (2 ^ 20) Hv) as Hy. rewrite Hs in Hy.
  apply Hy. change (days_to 1970) with 0. change (days_to (2 ^ 20)) with 382264992. lia.
Qed.
(** The 29th of February 2000, a Tuesday; and the last second of 1969 *)
Lemma gmtime_is_the_calendar_witness : mktime_of (gmtime 951782400) = 951782400 /\ tm_mday (gmtime 951782400) = 29 /\ tm_wday (gmtime 951782400) = 2 /\
  date_seconds (gmtime (u64 (-1))) = -1 /\ tm_year (gmtime (u64 (-1))) = 69.
Proof.
  split; [apply gmtime_is_the_calendar; lia|]. split; [by vm_compute|]. split; [by vm_compute|].
  split; [apply (gmtime_is_the_calendar (-1)); lia|by vm_compute].
Defined.

(** ** The time in the registers *)

(** C16: The clock shows the local time of the domain. Whatever the guest has written to
    the registers before, and in every mode (binary or BCD, 12 or 24 hours), while the
    registers are not in set mode a read of a register of the time gives the field of the
    date of the current local time; the seven registers together are that date, in the
    years from 2000 to 2099. *)
Theorem rtc_shows_local_time clk n s b t : dreach clk n s -> pl_crashed s = false ->
  cmos_data (pl_rtc s) !! 11%nat = Some b -> flag b RTC_SET = false ->
  snd (get_localtime clk s) = Ok t -> 946684800 <= t < 4102444800 ->
  exists sec min hour wday mday mon year,
    (forall i x val, (i, x) ∈ [(RTC_SECONDS, sec); (RTC_MINUTES, min); (RTC_HOURS, hour); (RTC_DAY_OF_WEEK, wday);
                               (RTC_DAY_OF_MONTH, mday); (RTC_MONTH, mon); (RTC_YEAR, year)] ->
       cmos_index (pl_rtc s) = i -> exists s', handle_rtc_io clk false 0x71 1 val s = (s', Ok (X86EMUL_OKAY, Some x))) /\
    date_of b sec min hour wday mday mon year (gmtime t) = gmtime t.
Proof.
  intros Hr Hc Hb Hset Ht Hrange. pose proof (pk_rtc _ _ (proj1 (dreach_ok clk n s Hr Hc))) as Hok.
  rewrite localtime_run in Ht. injection Ht as Et. destruct (date_hms t ltac:(lia)) as (q & _ & Hv).
  destruct (gmtime_spec t ltac:(lia)) as [_ Hs]. rewrite u64_of in Hs by lia.
  exists (date_reg b (gmtime t) RTC_SECONDS), (date_reg b (gmtime t) RTC_MINUTES), (date_reg b (gmtime t) RTC_HOURS), (date_reg b (gmtime t) RTC_DAY_OF_WEEK),
    (date_reg b (gmtime t) RTC_DAY_OF_MONTH), (date_reg b (gmtime t) RTC_MONTH), (date_reg b (gmtime t) RTC_YEAR). split; [|apply date_back; [exact Hv|]].
  - intros i x val Hin Hi. exists (fetched clk b s). assert (is_time_reg i = true /\ x = date_reg b (gmtime t) i) as [Hreg ->].
    { rewrite !elem_of_cons, elem_of_nil in Hin. repeat destruct Hin as [Hin|Hin]; [injection Hin as -> ->; done..|done]. }
    rewrite (read_time_run clk s b val i) by done. by rewrite Et.
  - pose proof (year_between (gmtime t) 2000 2100 Hv) as Hy. rewrite Hs in Hy.
    change (days_to 2000) with 10957 in Hy. change (days_to 2100) with 47482 in Hy. lia.
Qed.

(** A quarter past eleven in the evening, in BCD and 24 hours *)
Lemma rtc_shows_local_time_witness : exists s', handle_rtc_io steady_clock false 0x71 1 0 (dstep (DRtc true 0x70 1 4) started) = (s', Ok (X86EMUL_OKAY, Some 0x23)).
Proof.
  set (s := dstep (DRtc true 0x70 1 4) started).
  destruct (rtc_shows_local_time steady_clock 2 s 0x02 1700003600) as (sec & min & hour & wday & mday & mon & year & Hread & Hdate);
    [apply dstep_reach; [apply started_reach|by vm_compute|done]|by vm_compute..|lia|].
  destruct (Hread RTC_HOURS hour 0) as (s' & E); [by right; right; left|by vm_compute|]. exists s'.
  assert (snd (handle_rtc_io steady_clock false 0x71 1 0 s) = Ok (X86EMUL_OKAY, Some 0x23)) as E2 by (by vm_compute).
  rewrite E in E2 |- *. cbn [snd] in E2. by rewrite E2.
Defined.

(** ** The alarm *)

(** The wall clock is set, and the clock of the host has not wrapped around. *)
Record clock_sane (w : wallclock) (now : Z) : Prop := {
  cs_sec : 0 <= wc_sec w + time_offset_seconds w < 2 ^ 32;
  cs_base : 0 <= wc_sec w;
  cs_nsec : 0 <= wc_nsec w < 1000000000;
  cs_now : 0 <= now < 2 ^ 62
}.

Lemma sane_local w base now : clock_sane w base -> 0 <= now < 2 ^ 63 -> local_at w now = wc_sec w + time_offset_seconds w + (wc_nsec w + now) / 1000000000.
Proof.
  intros [H1 H2 H3 _] H4. unfold local_at. rewrite (u64_of (wc_nsec w + now)) by lia.
  assert (0 <= (wc_nsec w + now) / 1000000000 < 2 ^ 34) as Hq by zlia. rewrite u64_of; lia.
Qed.
Lemma sane_us w now : clock_sane w now -> local_us_at w now mod USEC_PER_SEC = (wc_nsec w + now) mod 1000000000 / 1000.
Proof.
  intros [H1 H2 H3 H4]. unfold local_us_at, USEC_PER_SEC. rewrite (u32_of (wc_sec w + time_offset_seconds w)) by lia.
  rewrite u64_of by lia. set (a := wc_sec w + time_offset_seconds w) in *. clearbody a. zlia.
Qed.

(** The deadline [k] seconds ahead falls into the first microsecond of its second. *)
Lemma deadline_at w now k : clock_sane w now -> 1 <= k <= 86400 ->
  let D := s64 (u64 ((k - 1) * NS_PER_SEC + next_second w now now)) in
  now < D /\ local_at w D = local_at w now + k /\ (wc_nsec w + D) mod 1000000000 < 1000.
Proof.
  intros Hw Hk D. assert (D = (k - 1) * 1000000000 + ((1000000 - (wc_nsec w + now) mod 1000000000 / 1000) * 1000 + now)) as ->.
  { unfold D, next_second. rewrite (sane_us w now Hw). destruct Hw as [H1 H2 H3 H4]. unfold USEC_PER_SEC, NS_PER_USEC, NS_PER_SEC.
    assert (0 <= (wc_nsec w + now) mod 1000000000 / 1000 < 1000000) as Hu by zlia. rewrite (u64_of (_ * 1000 + now)) by lia. rewrite u64_of by lia. apply s64_small. lia. }
  assert (0 <= (wc_nsec w + now) mod 1000000000 / 1000 < 1000000) as Hu by zlia.
  pose proof (cs_now _ _ Hw) as Hnow. rewrite !(sane_local w now) by (done || lia).
  pose proof (Z.div_mod (wc_nsec w + now) 1000000000 ltac:(lia)) as Ed. pose proof (Z.mod_pos_bound (wc_nsec w + now) 1000000000 ltac:(lia)) as Hm.
  set (f := (wc_nsec w + now) mod 1000000000) in *. set (q := (wc_nsec w + now) / 1000000000) in *. clearbody f q.
  destruct Hw as [H1 H2 H3 H4]. split; [lia|]. zlia.
Qed.

(** The alarm registers are a time of the day, but for the fields that match
    everything. *)
Definition alarm_valid (b xh xm xs : Z) : Prop :=
  (dont_care xh = false -> 0 <= convert_hour b xh < 24) /\ (dont_care xm = false -> 0 <= from_bcd b xm < 60) /\
  (dont_care xs = false -> 0 <= from_bcd b xs < 60).

(** C25: The alarm is set to the next second that matches. With the alarm registers [xh],
    [xm], [xs], outside set mode and with no alarm pending, [alarm_timer_update] sets its
    host timer to the first microsecond of the next second of the local time that matches
    the registers, in every mode and with any of the fields matching everything, as long
    as the current time is not at one of the ends of an hour or a minute that
    [alarm_glitch] names; there the second it is set to does not match. The host's clock
    stands still during the call. *)
Theorem rtc_alarm_is_next_match clk s now b c xh xm xs : rtc_ok (pl_rtc s) ->
  cmos_data (pl_rtc s) !! 11%nat = Some b -> cmos_data (pl_rtc s) !! 12%nat = Some c ->
  cmos_data (pl_rtc s) !! 1%nat = Some xs -> cmos_data (pl_rtc s) !! 3%nat = Some xm -> cmos_data (pl_rtc s) !! 5%nat = Some xh ->
  flag c RTC_AF = false -> flag b RTC_SET = false -> alarm_valid b xh xm xs ->
  (forall k, (k < 3)%nat -> clk (vs_reads (pl_v s) + k)%nat = now) -> clock_sane (pl_wall s) now ->
  exists s' deadline k, alarm_timer_update clk s = (s', Ok tt) /\ alarm_timer (pl_rtc s') = Some deadline /\
    now < deadline /\ (wc_nsec (pl_wall s) + deadline) mod 1000000000 < 1000 /\
    local_at (pl_wall s) deadline = local_at (pl_wall s) now + k /\
    let x := local_at (pl_wall s) now in
    if alarm_glitch (dont_care xh) (dont_care xm) (dont_care xs) (convert_hour b xh) (from_bcd b xm) (from_bcd b xs) (hour_of x) (minute_of x) (second_of x)
    then alarm_matches (dont_care xh) (dont_care xm) (dont_care xs) (convert_hour b xh) (from_bcd b xm) (from_bcd b xs) (x + k) = false
    else next_match (dont_care xh) (dont_care xm) (dont_care xs) (convert_hour b xh) (from_bcd b xm) (from_bcd b xs) x k.
Proof.
  intros Hr Hb Hc Hxs Hxm Hxh Haf Hset (Vh & Vm & Vs) Hclk Hw. set (x := local_at (pl_wall s) now).
  assert (forall k y, (k < 3)%nat -> vs_reads (pl_v y) = (vs_reads (pl_v s) + k)%nat -> now_of clk y = now) as Hnow.
  { intros k y Hk E. unfold now_of. rewrite E. by apply Hclk. }
  assert (now_of clk s = now) as E0 by (apply (Hnow 0%nat); lia).
  assert (now_of clk (tick s) = now) as E1 by (apply (Hnow 1%nat); [lia|cbn; lia]).
  assert (now_of clk (tick (tick s)) = now) as E2 by (apply (Hnow 2%nat); [lia|cbn; lia]).
  assert (0 <= x < 2 ^ 39) as Hx.
  { unfold x. rewrite (sane_local _ now) by (done || (pose proof (cs_now _ _ Hw); lia)). destruct Hw. zlia. }
  destruct (date_hms x Hx) as (q & Eq & Hv). destruct (alarm_run clk s b c xs xm xh Hr Hb Hc Hxs Hxm Hxh Haf Hset) as (s' & Erun & Et).
  { by rewrite E0. }
  rewrite E0, E1, E2 in Et. fold x in Et. set (k := next_alarm_sec _ _ _ _ _ _ _ _ _) in Et. pose proof Hv as [_ _ _ D1 D2 D3 _].
  assert (1 <= k <= 86400) as Hk by (by apply next_alarm_day).
  destruct (deadline_at (pl_wall s) now k Hw Hk) as (B1 & B2 & B3). eexists s', _, k. split; [exact Erun|]. split; [exact Et|].
  split; [exact B1|]. split; [exact B3|]. split; [exact B2|]. cbv zeta. rewrite Eq.
  destruct (clock_parts q (tm_hour (gmtime x)) (tm_min (gmtime x)) (tm_sec (gmtime x)) D1 D2 D3) as (-> & -> & ->).
  destruct (alarm_glitch _ _ _ _ _ _ _ _ _) eqn:Hg; [by apply glitch_misses|by apply next_alarm_matches].
Qed.

(** The alarm at half past seven in the morning *)
Definition alarm_set : pldom :=
  fold_left (fun s '(i, x) => dstep (DRtc true 0x71 1 x) (dstep (DRtc true 0x70 1 i) s)) [(1, 0x00); (3, 0x30); (5, 0x07)] started.
Lemma rtc_alarm_is_next_match_witness : exists s' deadline k, alarm_timer_update (fun _ => 2000000000) alarm_set = (s', Ok tt) /\
  alarm_timer (pl_rtc s') = Some deadline /\ local_at november deadline = local_at november 2000000000 + k /\
  next_match false false false 7 30 0 (local_at november 2000000000) k.
Proof.
  destruct (rtc_alarm_is_next_match (fun _ => 2000000000) alarm_set 2000000000 0x02 0x00 0x07 0x30 0x00) as (s' & D & k & H1 & H2 & _ & _ & H3 & H4);
    [split; [by vm_compute|vm_compute; by repeat constructor|by vm_compute|by vm_compute]|by vm_compute..|by repeat split|done|split; by vm_compute|].
  exists s', D, k. split; [exact H1|]. split; [exact H2|]. split; [exact H3|exact H4].
Defined.

(** ** Interrupts *)

(** The state of the clock and of the interrupt hardware *)
Lemma dreach_at clk n s b c : dreach clk n s -> pl_crashed s = false -> cmos_data (pl_rtc s) !! 11%nat = Some b ->
  cmos_data (pl_rtc s) !! 12%nat = Some c -> at_regs n b c (eq (vs_hw (pl_v s))) s.
Proof. intros Hr Hc Hb Hcc. split; [by apply (dreach_ok clk)|]. by split. Qed.

(** A write of register B *)
Lemma reg_b_written clk n s b c val : dreach clk n s -> pl_crashed s = false -> cmos_data (pl_rtc s) !! 11%nat = Some b ->
  cmos_data (pl_rtc s) !! 12%nat = Some c -> cmos_index (pl_rtc s) = RTC_REG_B -> raised (u8 val) c <> 0 ->
  wp (run_dop clk (DRtc true 0x71 1 val)) (fun _ s' => exists c', Z.land c c' = c /\ flag c' RTC_IRQF = true /\
    at_regs n (u8 val) c' (line_raised (vs_hw (pl_v s))) s') s.
Proof.
  intros Hr Hc Hb Hcc Hi Hra. assert (0 <= u8 val < 2 ^ 8) as Hu by (apply Z.mod_pos_bound; lia).
  pose proof (write_b_raises clk n b (u8 val) b c _ s (dreach_at clk n s b c Hr Hc Hb Hcc) Hu Hra) as Hw.
  cbn [run_dop]. unfold ignore, handle_rtc_io. change (negb (1 =? 1)) with false. cbv iota. apply wp_bind, wp_bind.
  unfold rtc_ioport_write. change (Z.land 0x71 1 =? 0) with false. cbv iota zeta. apply wp_bind, wp_gets. rewrite Hi.
  change (RTC_CMOS_SIZE <=? RTC_REG_B) with false. cbv iota. apply wp_bind. eapply wp_eq; [by apply (cmos_run s RTC_REG_B b)|].
  change (is_alarm_reg RTC_REG_B) with false. change (is_time_reg RTC_REG_B) with false. change (RTC_REG_B =? RTC_REG_A) with false.
  change (RTC_REG_B =? RTC_REG_B) with true. cbv iota. apply wp_bind. eapply wp_mono; [exact Hw|]. intros [] s' H. by apply wp_ret, wp_ret, wp_ret.
Qed.

(** C31: The clock loses no interrupt. In every reachable state (of a guest whose writes to
    the HPET are [polite]) a source (periodic, alarm,
    update ended) that is pending in register C and enabled in register B has set the
    interrupt flag. When the host timer of an update or of the alarm fires while the
    guest is not setting the clock, and the source is enabled, it becomes pending with the
    interrupt flag and the clock raises IRQ 8: its line is asserted, and, if pin 8 of the
    IO-APIC is unmasked and in fixed mode, every vcpu that matches its destination has
    the vector requested (unless a PCI link that is routed to IRQ 8 holds the pin up).
    So does a guest's write of register B that enables a source that is pending. A read
    of register C gives all that was pending, with the interrupt flag if one of the
    sources is enabled, and acknowledges all of it. (The periodic interrupt itself comes
    from a platform timer, which raises IRQ 8 and then sets the flags.) *)
Theorem rtc_interrupt_not_lost clk n s b c : dreach clk n s -> pl_crashed s = false ->
  cmos_data (pl_rtc s) !! 11%nat = Some b -> cmos_data (pl_rtc s) !! 12%nat = Some c ->
  (raised b c <> 0 -> flag c RTC_IRQF = true) /\
  (forall op src, (op = DRtcEnded /\ src = RTC_UF) \/ (op = DRtcAlarm /\ src = RTC_AF) -> flag b RTC_SET = false -> flag b src = true ->
    exists s', run_dop clk op s = (s', Ok tt) /\ cmos_data (pl_rtc s') !! 12%nat = Some (Z.lor (Z.lor c src) RTC_IRQF) /\
      line_raised (vs_hw (pl_v s)) (vs_hw (pl_v s'))) /\
  (cmos_index (pl_rtc s) = RTC_REG_B -> forall val, raised (u8 val) c <> 0 ->
    exists s' c', run_dop clk (DRtc true 0x71 1 val) s = (s', Ok tt) /\ cmos_data (pl_rtc s') !! 12%nat = Some c' /\
      Z.land c c' = c /\ flag c' RTC_IRQF = true /\ line_raised (vs_hw (pl_v s)) (vs_hw (pl_v s'))) /\
  (cmos_index (pl_rtc s) = RTC_REG_C -> forall val, exists s' x, handle_rtc_io clk false 0x71 1 val s = (s', Ok (X86EMUL_OKAY, Some x)) /\
    Z.land c x = c /\ (raised b x <> 0 -> flag x RTC_IRQF = true) /\ cmos_data (pl_rtc s') !! 12%nat = Some 0).
Proof.
  intros Hr Hc Hb Hcc. pose proof (dreach_flags clk n s Hr) as Hf. pose proof (dreach_at clk n s b c Hr Hc Hb Hcc) as Ha.
  split_and!; [by apply (Hf b c)| | |].
  - intros op src Hop Hset Hen.
    assert (wp (run_dop clk op) (fun _ => at_regs n b (Z.lor (Z.lor c src) RTC_IRQF) (line_raised (vs_hw (pl_v s)))) s) as Hw
      by (apply (host_raises clk n b c); [done| |done|done]; destruct Hop as [[-> ->]|[-> ->]]; auto).
    destruct (wp_inv _ _ _ Hw) as (s' & [] & E & (_ & [_ H1] & H2)). by exists s'.
  - intros Hi val Hra. destruct (wp_inv _ _ _ (reg_b_written clk n s b c val Hr Hc Hb Hcc Hi Hra)) as (s' & [] & E & c' & H1 & H2 & (_ & [_ H3] & H4)).
    by exists s', c'.
  - intros Hi val.
    destruct (wp_inv _ _ _ (read_c_wp clk n s b c (conj (dreach_ok clk n s Hr Hc) Hf) Hb Hcc)) as (s' & x & E & H). exists s', x. split; [|exact H].
    unfold handle_rtc_io. cbn [Z.eqb Pos.eqb negb]. unfold bind at 1. unfold gets at 1. rewrite Hi. cbn [Z.ltb Z.compare Pos.compare Pos.compare_cont RTC_REG_C RTC_CMOS_SIZE].
    unfold bind at 1. unfold rtc_ioport_read. change (Z.land 0x71 1 =? 0) with false. cbv iota. unfold bind at 1. unfold gets at 1. cbv zeta. rewrite Hi.
    change (is_time_reg RTC_REG_C) with false. change (RTC_REG_C =? RTC_REG_A) with false. change (RTC_REG_C =? RTC_REG_C) with true. cbv iota. by rewrite E.
Qed.

(** The update-ended interrupt is enabled; the second ends, and register C is selected. *)
Definition update_enabled : pldom := dstep (DRtc true 0x71 1 0x12) (dstep (DRtc true 0x70 1 0x0b) started).
Definition update_ended : pldom := dstep (DRtc true 0x70 1 0x0c) (dstep DRtcEnded update_enabled).
Lemma update_enabled_reach : dreach steady_clock 2 update_enabled.
Proof. do 2 (apply dstep_reach; [|by vm_compute|done]). apply started_reach. Qed.
Lemma update_ended_reach : dreach steady_clock 2 update_ended.
Proof. do 2 (apply dstep_reach; [|by vm_compute|done]). apply update_enabled_reach. Qed.
Lemma rtc_interrupt_not_lost_witness :
  (exists s', run_dop steady_clock DRtcEnded update_enabled = (s', Ok tt) /\
     Z.testbit (isa_irq (h_irq (vs_hw (pl_v s')))) RTC_IRQ = true) /\
  exists s' x, handle_rtc_io steady_clock false 0x71 1 0 update_ended = (s', Ok (X86EMUL_OKAY, Some x)) /\
    flag x RTC_UF = true /\ flag x RTC_IRQF = true.
Proof.
  split.
  - destruct (rtc_interrupt_not_lost steady_clock 2 update_enabled 0x12 0) as (_ & H & _); [apply update_enabled_reach|by vm_compute..|].
    destruct (H DRtcEnded RTC_UF (or_introl (conj eq_refl eq_refl)) ltac:(by vm_compute) ltac:(by vm_compute)) as (s' & E & _ & L & _). exact (ex_intro _ s' (conj E L)).
  - destruct (rtc_interrupt_not_lost steady_clock 2 update_ended 0x12 0x90) as (_ & _ & _ & H); [apply update_ended_reach|by vm_compute..|].
    destruct (H ltac:(by vm_compute) 0) as (s' & x & E & _ & _ & _). exists s', x. split; [exact E|].
    assert (snd (handle_rtc_io steady_clock false 0x71 1 0 update_ended) = Ok (X86EMUL_OKAY, Some 0x90)) as E2 by (by vm_compute).
    rewrite E in E2. injection E2 as ->. split; reflexivity.
Defined.

(** ** What the guest cannot do *)

(** The guest sets the year to 2030, in set mode, and leaves it: the clock goes on
    with the year that it had. *)
Definition set_2030 : pldom :=
  dstep (DRtc true 0x71 1 0x02) (dstep (DRtc true 0x70 1 0x0b) (dstep (DRtc true 0x71 1 0x30) (dstep (DRtc true 0x70 1 0x09)
    (dstep (DRtc true 0x71 1 0x82) (dstep (DRtc true 0x70 1 0x0b) started))))).
Lemma rtc_setting_is_lost : tm_year (current_tm (pl_rtc set_2030)) = 123 /\ time_offset_seconds (pl_wall set_2030) = 3600 /\
  snd (handle_rtc_io steady_clock false 0x71 1 0 (dstep (DRtc true 0x70 1 0x09) set_2030)) = Ok (X86EMUL_OKAY, Some 0x23).
Proof. by vm_compute. Qed.

(** An alarm at any second of minute 13, set in the last second of that minute,
    comes a second later, in minute 14. *)
Lemma rtc_alarm_after_its_minute : next_alarm_sec true false true 0 13 0 23 13 59 = 1 /\
  alarm_matches true false true 0 13 0 (clock_time 0 23 13 59 + 1) = false.
Proof. by vm_compute. Qed.
