(* ===== verification/TimerSave.v ===== *)
(** * Saving and restoring the timer devices

    The handlers of the record types PIT (xen/arch/x86/hvm/i8254.c), RTC (rtc.c),
    HPET (hpet.c) and PMTIMER (pmtimer.c), on the state of the timer devices and
    the context of the record stream.  The registers are saved; the timers behind
    them are set up again when they are loaded. *)

From stdpp Require Import base list numbers.
From Stdlib Require Import ZArith Lia.
From S2P Require Import Prelude Machine Vpic HvmState Vlapic Vioapic HvmIrq VlapicRegs HvmSave Vpt Calendar TimerDev PmTimer Hpet Rtc.

Open Scope Z_scope.
Open Scope se_scope.

(** ** The domain *)

(** With the padding that [struct hvm_hw_pit] and [struct hvm_hw_rtc] carry *)
Record tdom : Type := {
  td : pldom;
  pit_pad0 : Z;
  rtc_pad0 : Z
}.
Definition set_td (p : pldom) (d : tdom) : tdom := {| td := p; pit_pad0 := pit_pad0 d; rtc_pad0 := rtc_pad0 d |}.
Definition set_pit_pad0 (x : Z) (d : tdom) : tdom := {| td := td d; pit_pad0 := x; rtc_pad0 := rtc_pad0 d |}.
Definition set_rtc_pad0 (x : Z) (d : tdom) : tdom := {| td := td d; pit_pad0 := pit_pad0 d; rtc_pad0 := x |}.

Abbreviation tst := (tdom * hvm_domain_context)%type.

Definition on_pl {A} (m : SE pldom A) : SE tst A := zoom (fun s => td (fst s)) (fun p s => (set_td p (fst s), snd s)) m.
Definition on_td (f : tdom -> tdom) : SE tst unit := modify (fun s => (f (fst s), snd s)).

Definition PIT_CODE : Z := 10.
Definition RTC_CODE : Z := 11.
Definition HPET_CODE : Z := 12.
Definition PMTIMER_CODE : Z := 13.

(** ** Layout *)

(** A structure as the list of its fields: their sizes in bytes and their values *)
Definition struct_bytes (l : list (nat * Z)) : list Z := flat_map (fun f => le_bytes (fst f) (snd f)) l.

(** [struct hvm_hw_pit_channel]; the model has [status_latched], which the code
    sets to 0 and 1, as a boolean. *)
Definition channel_fields (c : hvm_hw_pit_channel) : list (nat * Z) :=
  [(4%nat, ch_count c); (2%nat, latched_count c); (1%nat, count_latched c); (1%nat, Z.b2z (status_latched c)); (1%nat, ch_status c);
   (1%nat, read_state c); (1%nat, write_state c); (1%nat, write_latch c); (1%nat, rw_mode c); (1%nat, ch_mode c); (1%nat, ch_bcd c);
   (1%nat, ch_gate c)].
(** The channel at offset [o] *)
Definition channel_of_bytes (l : list Z) (o : Z) : hvm_hw_pit_channel :=
  {| ch_count := field o 4 l; latched_count := field (o + 4) 2 l; count_latched := field (o + 6) 1 l;
     status_latched := negb (field (o + 7) 1 l =? 0); ch_status := field (o + 8) 1 l; read_state := field (o + 9) 1 l;
     write_state := field (o + 10) 1 l; write_latch := field (o + 11) 1 l; rw_mode := field (o + 12) 1 l;
     ch_mode := field (o + 13) 1 l; ch_bcd := field (o + 14) 1 l; ch_gate := field (o + 15) 1 l |}.

Definition sizeof_pit : Z := 56.

(** [struct hvm_hw_pit] *)
Definition pit_fields (p : PITState) (pad : Z) : list (nat * Z) :=
  flat_map channel_fields (channels p) ++ [(4%nat, speaker_data_on p); (4%nat, pad)].
Definition channels_of_bytes (l : list Z) : list hvm_hw_pit_channel := map (channel_of_bytes l) [0; 16; 32].

Definition sizeof_rtc : Z := 16.

(** [struct hvm_hw_rtc] *)
Definition bytes_of_rtc (r : RTCState) (pad : Z) : list Z := cmos_data r ++ [cmos_index r; pad].

Definition sizeof_pmtimer : Z := 8.

(** [struct hvm_hw_pmtimer] *)
Definition pmtimer_fields (p : PMTState) : list (nat * Z) := [(4%nat, tmr_val p); (2%nat, pm1a_sts p); (2%nat, pm1a_en p)].
Definition pmtimer_of_bytes (l : list Z) (p : PMTState) : PMTState :=
  {| tmr_val := field 0 4 l; pm1a_sts := field 4 2 l; pm1a_en := field 6 2 l; pmt_vcpu := pmt_vcpu p; last_gtime := last_gtime p;
     not_accounted := not_accounted p; pmt_scale := pmt_scale p; pmt_timer := pmt_timer p |}.

Definition sizeof_hpet : Z := 1048.

(** [struct hvm_hw_hpet]: the field [cmp] of a timer takes the 64-bit comparator *)
Definition htimer_fields (t : hpet_timer) (cmp : Z) : list (nat * Z) :=
  [(8%nat, tn_config t); (8%nat, cmp); (8%nat, tn_fsb t); (8%nat, 0)].
Definition hpet_fields (r : hpet_registers) : list (nat * Z) :=
  [(8%nat, capability r); (8%nat, 0); (8%nat, hp_config r); (8%nat, 0); (8%nat, hp_isr r); (200%nat, 0); (8%nat, mc64 r); (8%nat, 0)] ++
  concat (zip_with htimer_fields (hp_timers r) (comparator64 r)) ++ [(672%nat, 0)] ++ map (pair 8%nat) (hp_period r).

(** What [hpet_load] makes of the timer of the record at offset [o] *)
Definition htimer_of_bytes (l : list Z) (o : Z) : hpet_timer :=
  let t := {| tn_config := field o 8 l; tn_cmp := field (o + 8) 8 l; tn_fsb := field (o + 16) 8 l |} in
  if timer_is_32bit t then set_tn_cmp (u32 (tn_cmp t)) t else t.
Definition hpet_of_bytes (l : list Z) : hpet_registers :=
  {| capability := field 0 8 l; hp_config := field 16 8 l; hp_isr := field 32 8 l; mc64 := field 240 8 l;
     hp_timers := map (htimer_of_bytes l) [256; 288; 320]; hp_period := map (fun o => field o 8 l) [1024; 1032; 1040];
     comparator64 := map (fun o => field o 8 l) [264; 296; 328] |}.

(** [hvm_load_entry], and the result if it fails *)
Definition load_or (e tc len : Z) : SE tst (list Z) := catch (on_ctxt (hvm_load_entry tc len)) (fun _ => fail e).

Section Env.
Context (clk : nat -> Z).

(** ** The PIT *)

Definition pit_save : SE tst unit :=
  d <- gets fst;; on_ctxt (hvm_save_entry PIT_CODE 0 (struct_bytes (pit_fields (pl_pit (td d)) (pit_pad0 d)))).

(** [pit->pt0.last_plt_gtime = ...] *)
Definition set_plt_gtime (t : Z) (pt : periodic_time) : periodic_time :=
  {| on_list := on_list pt; one_shot := one_shot pt; irq_issued := irq_issued pt;
     warned_timeout_too_short := warned_timeout_too_short pt; collapse_ticks := collapse_ticks pt;
     pt_source := pt_source pt; pt_irqno := pt_irqno pt; pt_vcpu := pt_vcpu pt;
     pending_intr_nr := pending_intr_nr pt; time_done := time_done pt; period := period pt;
     schedule_period := schedule_period pt; scheduled := scheduled pt;
     scheduled_t0 := scheduled_t0 pt; last_plt_gtime := t;
     timer_set := timer_set pt; has_cb := has_cb pt |}.

(** The loop over the channels from [i] on, [n] of them *)
Fixpoint reload_counts (n : nat) (i : Z) : SE pldom unit :=
  match n with
  | O => ret tt
  | S n => c <- the_channel i;; pit_load_count clk i (ch_count c);; reload_counts n (i + 1)
  end.

Definition pit_restart (bs : list Z) : SE pldom unit :=
  on_pit (fun p => {| channels := channels_of_bytes bs; speaker_data_on := field 48 4 bs; count_load_time := count_load_time p |});;
  s <- get;;
  bug_if (zlen (h_vcpus (vs_hw (pl_v s))) =? 0);;
  t <- get_guest_time clk 0;;
  vt (upd_pt PIT_TIMER (set_plt_gtime t));;
  reload_counts 3 0.

Definition pit_load : SE tst unit :=
  bs <- load_or 1 PIT_CODE sizeof_pit;; on_td (set_pit_pad0 (field 52 4 bs));; on_pl (pit_restart bs).

(** ** The clock *)

Definition rtc_save : SE tst unit :=
  d <- gets fst;; on_ctxt (hvm_save_entry RTC_CODE 0 (bytes_of_rtc (pl_rtc (td d)) (rtc_pad0 d))).

Definition rtc_restart (bs : list Z) : SE pldom unit :=
  on_rtc (fun r => set_cmos_index (znth bs 14) (set_cmos_data (take 14 bs) r));;
  rtc_fetch_date clk;;
  rtc_timer_update clk;;
  check_update_timer clk;;
  alarm_timer_update clk.

Definition rtc_load : SE tst unit :=
  on_pl update_domain_wallclock_time;;
  bs <- load_or (- EINVAL) RTC_CODE sizeof_rtc;; on_td (set_rtc_pad0 (znth bs 15));; on_pl (rtc_restart bs).

(** ** The HPET *)

Definition hpet_save : SE tst unit :=
  t <- on_pl (guest_time_hpet clk);;
  h <- gets (fun s => pl_hpet (td (fst s)));;
  on_pl (on_hregs (set_mc64 (u64 (mc_offset h + t))));;
  d <- gets fst;;
  on_ctxt (hvm_save_entry HPET_CODE 0 (struct_bytes (hpet_fields (hpet (pl_hpet (td d)))))).

(** [for ( i ... ) if ( timer_enabled(hp, i) ) hpet_set_timer(hp, i);] *)
Definition hpet_restart (bs : list Z) : SE pldom unit :=
  on_hregs (fun _ => hpet_of_bytes bs);;
  t <- guest_time_hpet clk;;
  r <- hregs;;
  set_mc_offset (u64 (mc64 r - t));;
  when (hpet_enabled r)
    (each_timer all_timers (fun tn => t <- the_htimer tn;; when (timer_enabled t) (hpet_set_timer clk tn))).

(** The bytes at the cursor, which moves behind them *)
Definition take_bytes (len : Z) : SE hvm_domain_context (list Z) :=
  h <- get;; bs <- get_bytes (cur h) len;; modify (fun h => set_cur (u32 (cur h + len)) h);; ret bs.

Definition hpet_load : SE tst unit :=
  catch (on_ctxt (hvm_check_entry HPET_CODE sizeof_hpet true)) (fun _ => fail (- EINVAL));;
  bs <- on_ctxt (take_bytes sizeof_hpet);;
  on_pl (hpet_restart bs).

(** ** The PM timer *)

(** The counter and the status at the time of the vcpu *)
Definition caught_up (guest_time : Z) (p : PMTState) : PMTState :=
  let x := u32 (Z.shiftr (u64 (u64 (guest_time - last_gtime p) * pmt_scale p)) 32) in
  let tmr := if x <? 2 ^ 31 then u32 (tmr_val p + x) else tmr_val p in
  let sts := if negb (Z.land tmr TMR_VAL_MSB =? Z.land (tmr_val p) TMR_VAL_MSB) then Z.lor (pm1a_sts p) TMR_STS else pm1a_sts p in
  {| tmr_val := tmr; pm1a_sts := sts; pm1a_en := pm1a_en p; pmt_vcpu := pmt_vcpu p; last_gtime := last_gtime p;
     not_accounted := not_accounted p; pmt_scale := pmt_scale p; pmt_timer := pmt_timer p |}.

Definition pmtimer_save : SE tst unit :=
  v <- on_pl pmt_the_vcpu;;
  tm <- on_pl (vt (the_tm v));;
  on_pl (on_pmt (caught_up (v_guest_time tm)));;
  d <- gets fst;;
  on_ctxt (hvm_save_entry PMTIMER_CODE 0 (struct_bytes (pmtimer_fields (pl_pmt (td d))))).

Definition pmtimer_restart (bs : list Z) : SE pldom unit :=
  on_pmt (pmtimer_of_bytes bs);;
  v <- pmt_the_vcpu;;
  t <- get_guest_time clk v;;
  on_pmt (set_accounted t 0);;
  pmt_update_sci.

Definition pmtimer_load : SE tst unit :=
  bs <- load_or (- EINVAL) PMTIMER_CODE sizeof_pmtimer;; on_pl (pmtimer_restart bs).

(** ** All of them, in the order of their codes *)

Definition timers_save : SE tst unit := pit_save;; rtc_save;; hpet_save;; pmtimer_save.
Definition timers_load : SE tst unit := pit_load;; rtc_load;; hpet_load;; pmtimer_load.
End Env.
