(* ===== verification/TimerSaveProps.v ===== *)
(** * Saving and restoring the timer devices: the round trip *)

From stdpp Require Import base list numbers.
From Stdlib Require Import ZArith Lia Bool.
From S2P Require Import Prelude Machine Vpic HvmState Vlapic Vioapic HvmIrq VpicInv VpicOps.
From S2P Require Import VioapicInv VioapicOps HvmIrqOps HvmIrqRun.
From S2P Require Import VlapicRegs HvmLapic HvmIrqSystem HvmSave HvmStream Vpt VptOps VptLists VptSystem.
From S2P Require Import Calendar TimerDev PmTimer Hpet Rtc TimerDevInv HpetRegs RtcRun TimerSystem TimerProps.
From S2P Require Import TimerSave.

Open Scope Z_scope.
Open Scope se_scope.

(** ** Fields of a structure *)

Definition sizes (l : list (nat * Z)) : Z := foldr (fun f n => Z.of_nat (fst f) + n) 0 l.
Lemma zlen_struct l : zlen (struct_bytes l) = sizes l.
Proof. induction l as [|[k z] l IH]; [done|]. cbn [struct_bytes flat_map sizes foldr fst snd]. fold (struct_bytes l) (sizes l). by rewrite zlen_app, zlen_le_bytes, IH. Qed.
Lemma struct_bytes_app l1 l2 : struct_bytes (l1 ++ l2) = struct_bytes l1 ++ struct_bytes l2.
Proof. apply flat_map_app. Qed.

(** Every field fits its size. *)
Definition fits (l : list (nat * Z)) : Prop := Forall (fun f => 0 <= snd f < 256 ^ Z.of_nat (fst f)) l.

(** The field at an offset *)
Fixpoint field_of (o : Z) (l : list (nat * Z)) : option (nat * Z) :=
  match l with
  | [] => None
  | f :: l => if o =? 0 then Some f else if o <? Z.of_nat (fst f) then None else field_of (o - Z.of_nat (fst f)) l
  end.
Lemma field_skip pre o k l : 0 <= o -> field (zlen pre + o) k (pre ++ l) = field o k l.
Proof.
  intros Ho. unfold field, slice, zlen. f_equal. f_equal. rewrite Z2Nat.inj_add, Nat2Z.id by lia. by rewrite drop_app_add.
Qed.
Lemma field_find l : forall o k z, fits l -> field_of o l = Some (Z.to_nat k, z) -> 0 <= o -> 0 <= k -> field o k (struct_bytes l) = z.
Proof.
  induction l as [|[j y] l IH]; intros o k z Hf E Ho Hk; [done|]. apply list.Forall_cons in Hf as [Hy Hf]. cbn [field_of fst snd] in E, Hy.
  cbn [struct_bytes flat_map fst snd]. fold (struct_bytes l). destruct (Z.eqb_spec o 0) as [->|Hne].
  - injection E as -> ->. pose proof (field_le (Z.to_nat k) [] z (struct_bytes l) Hy) as H. by rewrite Z2Nat.id in H.
  - destruct (Z.ltb_spec o (Z.of_nat j)); [done|]. replace o with (zlen (le_bytes j y) + (o - Z.of_nat j)) by (rewrite zlen_le_bytes; lia).
    rewrite field_skip by lia. apply IH; [done|done|lia|done].
Qed.
Ltac read_fields Hf := repeat (erewrite field_find; [|exact Hf|reflexivity|done|done]).

(** ** The records of the devices *)

Lemma channels_back p pad : length (channels p) = 3%nat -> fits (pit_fields p pad) ->
  channels_of_bytes (struct_bytes (pit_fields p pad)) = channels p /\ field 48 4 (struct_bytes (pit_fields p pad)) = speaker_data_on p /\
  field 52 4 (struct_bytes (pit_fields p pad)) = pad /\ zlen (struct_bytes (pit_fields p pad)) = sizeof_pit.
Proof.
  destruct p as [l sp ct]. cbn [channels]. intros Hl Hf. do 3 (destruct l as [|? l]; [done|]). destruct l; [|done].
  rewrite zlen_struct. unfold channels_of_bytes. cbn [map]. unfold channel_of_bytes. read_fields Hf. split; [|done].
  by repeat match goal with c : hvm_hw_pit_channel |- _ => destruct c as [? ? ? [] ? ? ? ? ? ? ? ?] end.
Qed.

Lemma rtc_back r pad : length (cmos_data r) = 14%nat -> take 14 (bytes_of_rtc r pad) = cmos_data r /\
  znth (bytes_of_rtc r pad) 14 = cmos_index r /\ znth (bytes_of_rtc r pad) 15 = pad /\ zlen (bytes_of_rtc r pad) = sizeof_rtc.
Proof.
  destruct r as [l i ? ? ? ? ? ? ? ? ? ?]. unfold bytes_of_rtc. cbn [cmos_data cmos_index]. intros Hl.
  do 14 (destruct l as [|? l]; [done|]). by destruct l.
Qed.

Lemma pmtimer_back p q : fits (pmtimer_fields p) -> pmtimer_of_bytes (struct_bytes (pmtimer_fields p)) q =
  {| tmr_val := tmr_val p; pm1a_sts := pm1a_sts p; pm1a_en := pm1a_en p; pmt_vcpu := pmt_vcpu q; last_gtime := last_gtime q;
     not_accounted := not_accounted q; pmt_scale := pmt_scale q; pmt_timer := pmt_timer q |}.
Proof. intros Hf. unfold pmtimer_of_bytes. by read_fields Hf. Qed.

(** The registers of the HPET as they are loaded: the visible comparators are
    those of 64 bits, cut to 32 for a timer of 32 bits. *)
Definition reloaded_timer (t : hpet_timer) (cmp : Z) : hpet_timer := set_tn_cmp (if timer_is_32bit t then u32 cmp else cmp) t.
Definition reloaded (r : hpet_registers) : hpet_registers :=
  {| capability := capability r; hp_config := hp_config r; hp_isr := hp_isr r; mc64 := mc64 r;
     hp_timers := zip_with reloaded_timer (hp_timers r) (comparator64 r); hp_period := hp_period r; comparator64 := comparator64 r |}.
Lemma hpet_back r : length (hp_timers r) = 3%nat -> length (hp_period r) = 3%nat -> length (comparator64 r) = 3%nat -> fits (hpet_fields r) ->
  hpet_of_bytes (struct_bytes (hpet_fields r)) = reloaded r /\ zlen (struct_bytes (hpet_fields r)) = sizeof_hpet.
Proof.
  destruct r as [cap cfg isr mc ts ps cs]. cbn [hp_timers hp_period comparator64]. intros H1 H2 H3 Hf.
  do 3 (destruct ts as [|? ts]; [done|]). destruct ts; [|done]. do 3 (destruct ps as [|? ps]; [done|]). destruct ps; [|done].
  do 3 (destruct cs as [|? cs]; [done|]). destruct cs; [|done]. rewrite zlen_struct. split; [|done].
  unfold hpet_of_bytes. cbn [map]. unfold htimer_of_bytes. cbv zeta. read_fields Hf. unfold reloaded. cbn [zip_with hp_timers comparator64]. f_equal.
  assert (forall t c, (if timer_is_32bit {| tn_config := tn_config t; tn_cmp := c; tn_fsb := tn_fsb t |}
    then set_tn_cmp (u32 c) {| tn_config := tn_config t; tn_cmp := c; tn_fsb := tn_fsb t |}
    else {| tn_config := tn_config t; tn_cmp := c; tn_fsb := tn_fsb t |}) = reloaded_timer t c) as E.
  { intros t c. unfold reloaded_timer. change (timer_is_32bit {| tn_config := tn_config t; tn_cmp := c; tn_fsb := tn_fsb t |}) with (timer_is_32bit t).
    by destruct (timer_is_32bit t). }
  cbn [tn_cmp]. by rewrite !E.
Qed.

Section Restart.
Context (clk : nat -> Z) (n : Z).

(** ** The PIT *)

Lemma plt_gtime_ok t : holds (pl_ok n []) (vt (upd_pt PIT_TIMER (set_plt_gtime t))).
Proof.
  apply (vt_ok n (pl_ok n [])).
  - intros v Hv. apply wp_modify. destruct (lookup_lt_is_Some_2 (vs_pts v) PIT_TIMER) as [pt Hpt].
    { rewrite (vo_len _ _ Hv). unfold PIT_TIMER. lia. }
    apply (ok_upd n PIT_TIMER _ pt); [done|done| |done]. pose proof (vo_pts _ _ Hv _ _ Hpt) as Hok. by destruct Hok.
  - intros tn b Htn s (pt & Hpt & H). exists pt. split; [|done]. cbn. rewrite list_lookup_alter_ne; [done|]. unfold PIT_TIMER, hpet_pt. lia.
Qed.

Lemma load_count_same i c l x : (0 <= i) -> l !! Z.to_nat i = Some c -> 1 <= ch_count c ->
  preserves (fun s => channels (pl_pit s) = l /\ speaker_data_on (pl_pit s) = x) (pit_load_count clk i (ch_count c)).
Proof.
  intros Hi Hc Hpos. unfold pit_load_count. rewrite (proj2 (Z.eqb_neq (ch_count c) 0)) by lia. cbv zeta.
  set (J := fun s => _). assert (forall A (m : SE vst A), preserves J (vt m)) as Kv by (intros A m; by apply vt_frame).
  assert (preserves J (upd_channel i (ch_set_count (ch_count c)))) as Ku.
  { apply preserves_modify. intros s [H1 H2]. split; [|done]. cbn. rewrite H1. apply list_eq. intros j. rewrite list_lookup_alter.
    destruct (decide (Z.to_nat i = j)) as [<-|]; [|done]. rewrite Hc. by destruct c. }
  assert (forall t, preserves J (set_load_time i t)) as Kt by (intros t; by apply preserves_modify).
  unfold the_channel, the_load_time, get_guest_time, load_timer, the_channel. se_keep; auto.
Qed.

Lemma reload_wp l x k : forall i s, pl_ok n [] s -> channels (pl_pit s) = l -> speaker_data_on (pl_pit s) = x -> 0 <= i -> i + Z.of_nat k = 3 ->
  wp (reload_counts clk k i) (fun _ s' => pl_ok n [] s' /\ channels (pl_pit s') = l /\ speaker_data_on (pl_pit s') = x) s.
Proof.
  induction k as [|k IH]; intros i s Hs Hl Hx Hi Hk; cbn [reload_counts]; [by apply wp_ret|].
  pose proof (pk_pit _ _ (proj1 Hs)) as Hp. apply wp_bind, channel_wp; [apply Hp|lia|]. intros c Hc.
  pose proof (Forall_lookup_1 _ _ _ _ (pi_channels _ Hp) Hc) as [Hcnt _ _]. rewrite Hl in Hc. apply wp_bind.
  eapply wp_mono; [apply (wp_keep _ _ _ _ (load_count_ok clk n (pl_ok n []) i (ch_count c) ltac:(lia) ltac:(lia) s Hs) (load_count_same i c l x Hi Hc ltac:(lia)))|].
  - by split.
  - intros [] s1 [Hs1 [H1 H2]]. apply IH; (done || lia).
Qed.

Lemma pit_restart_wp bs l s : pl_ok n [] s -> channels_of_bytes bs = l -> Forall channel_ok l ->
  wp (pit_restart clk bs) (fun _ s' => pl_ok n [] s' /\ channels (pl_pit s') = l /\ speaker_data_on (pl_pit s') = field 48 4 bs) s.
Proof.
  intros Hs El Hl. unfold pit_restart. apply wp_bind, wp_modify. set (s1 := set_pl_pit _ s).
  assert (pl_ok n [] s1) as Hs1.
  { apply (pc_set (P := pit_ok) s); [done|]. pose proof (pk_pit _ _ (proj1 Hs)) as [[P1 P2] P3]. split; [split; [done|done]|]. subst l. exact Hl. }
  apply wp_bind, wp_get, wp_bind, wp_bug_if.
  { apply Z.eqb_neq. pose proof (pk_n _ _ (proj1 Hs1)). pose proof (rf_count _ _ (hs_fit _ _ (vo_hw _ _ (pk_v _ _ (proj1 Hs1))))). lia. }
  set (J := fun s' => channels (pl_pit s') = l /\ speaker_data_on (pl_pit s') = field 48 4 bs). assert (J s1) as HJ by (by split).
  apply wp_bind. eapply wp_mono; [apply (wp_keep J _ _ _ (time_ok clk n (pl_ok n []) 0 ltac:(pose proof (pk_n _ _ (proj1 Hs1)); lia) s1 Hs1)); [by apply time_frame|done]|].
  intros t s2 [Hs2 HJ2]. apply wp_bind. eapply wp_mono; [apply (wp_keep J _ _ _ (plt_gtime_ok t s2 Hs2)); [by apply vt_frame|done]|].
  intros [] s3 [Hs3 [H1 H2]]. by apply reload_wp.
Qed.

(** ** The clock *)

(** The registers other than those of the time; register A up to the flag of an
    update in progress *)
Definition rtc_kept (l : list Z) (i : Z) (r : RTCState) : Prop :=
  cmos_index r = i /\ (forall j, (j < 14)%nat -> is_time_reg (Z.of_nat j) = false -> j <> 10%nat -> cmos_data r !! j = l !! j) /\
  exists a a', l !! 10%nat = Some a /\ cmos_data r !! 10%nat = Some a' /\ (a' = a \/ a' = Z.lor a RTC_UIP).

Section Kept.
Context (l : list Z) (i : Z) (Hbytes : Forall (fun x => 0 <= x < 2 ^ 8) l).
Let J (s : pldom) : Prop := rtc_kept l i (pl_rtc s).

Lemma kept_vt {A} (m : SE vst A) : preserves J (vt m).
Proof. by apply vt_frame. Qed.
Lemma kept_on_rtc f : (forall r, cmos_data (f r) = cmos_data r) -> (forall r, cmos_index (f r) = cmos_index r) -> preserves J (on_rtc f).
Proof. intros H1 H2. apply preserves_modify. intros s (K1 & K2 & K3). unfold J, rtc_kept. cbn. by rewrite H1, H2. Qed.
Lemma kept_cmos j : preserves J (cmos j).
Proof. unfold cmos. se_keep. Qed.
Lemma kept_set_time j x : is_time_reg j = true -> preserves J (set_cmos j x).
Proof.
  intros Hj. unfold set_cmos. apply preserves_bind; [apply kept_cmos|]. intros _. apply preserves_modify. intros s (K1 & K2 & a & a' & A1 & A2 & A3).
  assert (0 <= j < 10) as Hr. { unfold is_time_reg, RTC_SECONDS, RTC_MINUTES, RTC_HOURS, RTC_DAY_OF_WEEK, RTC_DAY_OF_MONTH, RTC_MONTH, RTC_YEAR in Hj. rewrite !orb_true_iff, !Z.eqb_eq in Hj. lia. }
  split; [done|]. cbn [cmos_data set_cmos_data pl_rtc set_pl_rtc]. split.
  - intros k Hk Ht Hne. rewrite list_lookup_insert_ne; [by apply K2|]. intros E. rewrite <- E, Z2Nat.id in Ht by lia. congruence.
  - exists a, a'. split; [done|]. split; [|done]. rewrite list_lookup_insert_ne; [done|lia].
Qed.
Lemma kept_uip : preserves J (or_cmos RTC_REG_A RTC_UIP).
Proof.
  intros s (K1 & K2 & a & a' & A1 & A2 & A3). unfold or_cmos, bind. rewrite (cmos_run s RTC_REG_A a') by done. unfold set_cmos, bind. rewrite (cmos_run s RTC_REG_A a') by done.
  pose proof (Forall_lookup_1 _ _ _ _ Hbytes A1) as Ha. assert (u8 (Z.lor a' RTC_UIP) = Z.lor a RTC_UIP) as E.
  { assert (0 <= Z.lor a RTC_UIP < 2 ^ 8) as Hl by (apply (lor_below a RTC_UIP 8); [lia|done|by vm_compute]).
    destruct A3 as [->| ->]; [|rewrite <- Z.lor_assoc, Z.lor_diag]; by apply Z.mod_small. }
  rewrite E. split; [done|]. cbn [fst on_rtc modify pl_rtc set_pl_rtc cmos_data set_cmos_data]. split.
  - intros k Hk Ht Hne. rewrite list_lookup_insert_ne; [by apply K2|]. intros E'. apply Hne. by rewrite <- E'.
  - exists a, (Z.lor a RTC_UIP). split; [done|]. split; [|by right]. apply (list_lookup_insert_eq _ 10%nat). by apply lookup_lt_Some in A2.
Qed.
#[local] Hint Resolve kept_vt kept_cmos kept_uip : keep.
#[local] Hint Extern 1 (preserves _ (on_rtc _)) => by apply kept_on_rtc : keep.
#[local] Hint Extern 1 (preserves _ (set_cmos _ _)) => by apply kept_set_time : keep.
Lemma kept_fetch : preserves J (rtc_fetch_date clk).
Proof. unfold rtc_fetch_date, get_localtime, rtc_copy_date. cbv zeta. se_keep. Qed.
Lemma kept_timer : preserves J (rtc_timer_update clk).
Proof. unfold rtc_timer_update, stop_rtc_timer, the_target. cbv zeta. se_keep. Qed.
Lemma kept_check : preserves J (check_update_timer clk).
Proof. unfold check_update_timer, get_localtime_us. cbv zeta. se_keep. Qed.
#[local] Hint Resolve kept_fetch : keep.
Lemma kept_alarm : preserves J (alarm_timer_update clk).
Proof. unfold alarm_timer_update, get_localtime_us. cbv zeta. se_keep. Qed.
End Kept.

Lemma rtc_restart_wp bs l i s : pl_ok n [] s -> take 14 bs = l -> znth bs 14 = i -> length l = 14%nat -> Forall (fun x => 0 <= x < 2 ^ 8) l -> 0 <= i < 2 ^ 7 ->
  wp (rtc_restart clk bs) (fun _ s' => pl_ok n [] s' /\ rtc_kept l i (pl_rtc s')) s.
Proof.
  intros Hs El Ei Hlen Hl Hi. unfold rtc_restart. apply wp_bind, wp_modify. set (s1 := set_pl_rtc _ s).
  assert (pl_ok n [] s1) as Hs1. { apply (rc_set s); [done|]. pose proof (pk_rtc _ _ (proj1 Hs)) as []. split; cbn; rewrite ?El, ?Ei; done. }
  assert (rtc_kept l i (pl_rtc s1)) as HJ.
  { split; [done|]. cbn. rewrite El. split; [done|]. destruct (lookup_lt_is_Some_2 l 10) as [a Ha]; [lia|]. exists a, a. auto. }
  set (J := fun s' => rtc_kept l i (pl_rtc s')).
  apply wp_bind. eapply wp_mono; [apply (wp_keep J _ _ _ (fetch_date_ok clk n (pl_ok n []) s1 Hs1)); [apply kept_fetch|done]|]. intros [] s2 [Hs2 H2].
  apply wp_bind. eapply wp_mono; [apply (wp_keep J _ _ _ (timer_update_ok clk n (pl_ok n []) s2 Hs2)); [apply kept_timer|done]|]. intros [] s3 [Hs3 H3].
  apply wp_bind. eapply wp_mono; [apply (wp_keep J _ _ _ (check_update_ok clk n (pl_ok n []) s3 Hs3)); [by apply kept_check|done]|]. intros [] s4 [Hs4 H4].
  apply (wp_keep J _ _ _ (alarm_update_ok clk n (pl_ok n []) s4 Hs4)); [apply kept_alarm|done].
Qed.

(** ** The HPET *)

(** A register file as it was loaded from [r0]: a periodic comparator may have
    moved on by whole periods. *)
Definition timer_kept (r0 r : hpet_registers) (tn : nat) : Prop :=
  exists t0 c0 p t c k, hp_timers r0 !! tn = Some t0 /\ comparator64 r0 !! tn = Some c0 /\ hp_period r0 !! tn = Some p /\
    hp_timers r !! tn = Some t /\ comparator64 r !! tn = Some c /\ tn_config t = tn_config t0 /\ tn_fsb t = tn_fsb t0 /\ 0 <= k /\
    c = u64 (c0 + k * (if timer_is_periodic t0 then p else 0)) /\ tn_cmp t = narrowed t0 c.
Definition hpet_kept (r0 r : hpet_registers) : Prop :=
  capability r = capability r0 /\ hp_config r = hp_config r0 /\ hp_isr r = hp_isr r0 /\ mc64 r = mc64 r0 /\ hp_period r = hp_period r0 /\
  forall tn, (tn < 3)%nat -> timer_kept r0 r tn.

(** What reading a comparator leaves behind *)
Definition moved_to (tn : nat) (t : hpet_timer) (c : Z) (r : hpet_registers) : hpet_registers :=
  upd_htimer tn (set_tn_cmp (narrowed t c)) (set_comparator tn c r).

Lemma kept_move r0 r tn t c p j : hpet_kept r0 r -> (tn < 3)%nat -> hp_timers r !! tn = Some t -> comparator64 r !! tn = Some c ->
  hp_period r !! tn = Some p -> 0 <= j -> hpet_kept r0 (moved_to tn t (u64 (c + j * (if timer_is_periodic t then p else 0))) r).
Proof.
  intros (K1 & K2 & K3 & K4 & K5 & K) Htn Ht Hc Hp Hj. do 5 (split; [done|]). intros i Hi. destruct (decide (i = tn)) as [->|Hne].
  - destruct (K tn Hi) as (t0 & c0 & p0 & t1 & c1 & k & A1 & A2 & A3 & A4 & A5 & A6 & A7 & A8 & A9 & A10).
    rewrite Ht in A4. rewrite Hc in A5. rewrite K5, A3 in Hp. injection A4 as <-. injection A5 as <-. injection Hp as <-.
    assert (timer_is_periodic t = timer_is_periodic t0) as Ep by (unfold timer_is_periodic; by rewrite A6). rewrite Ep.
    set (q := if timer_is_periodic t0 then p0 else 0) in *. eexists t0, c0, p0, _, _, (k + j). do 3 (split; [done|]). cbn [hp_timers comparator64 moved_to upd_htimer set_comparator].
    split; [rewrite list_lookup_alter_eq, Ht; reflexivity|]. split; [apply list_lookup_insert_eq; by apply lookup_lt_Some in Hc|]. do 2 (split; [done|]). split; [lia|].
    split; [|cbn; unfold narrowed, timer_is_32bit; by rewrite A6]. rewrite A9. unfold u64. rewrite Zplus_mod_idemp_l. f_equal. lia.
  - destruct (K i Hi) as (t0 & c0 & p0 & t1 & c1 & k & A). exists t0, c0, p0, t1, c1, k. cbn [hp_timers comparator64 moved_to upd_htimer set_comparator].
    by rewrite list_lookup_alter_ne, list_lookup_insert_ne.
Qed.

Lemma kept_read r0 r tn t c : hpet_kept r0 r -> (tn < 3)%nat -> hp_timers r !! tn = Some t -> comparator64 r !! tn = Some c ->
  upd_htimer tn (set_tn_cmp (narrowed t c)) r = r.
Proof.
  intros (_ & _ & _ & _ & _ & K) Htn Ht Hc. destruct (K tn Htn) as (t0 & c0 & p0 & t1 & c1 & k & A1 & A2 & A3 & A4 & A5 & A6 & A7 & A8 & A9 & A10).
  rewrite Ht in A4. rewrite Hc in A5. injection A4 as <-. injection A5 as <-. destruct r as [? ? ? ? ts ? ?]. unfold upd_htimer. cbn in *. f_equal.
  apply list_eq. intros i. rewrite list_lookup_alter. case_decide as E; [|done]. subst i. rewrite Ht. cbn. f_equal. destruct t. unfold set_tn_cmp. cbn in *. f_equal.
  rewrite A10. unfold narrowed, timer_is_32bit. cbn. by rewrite A6.
Qed.

Section HpetKept.
Context (r0 : hpet_registers) (Hpos : Forall (fun p => 0 <= p) (hp_period r0)).
Let J (s : pldom) : Prop := hpet_kept r0 (hpet (pl_hpet s)).

Lemma comparator_kept tn : (tn < 3)%nat -> preserves J (hpet_get_comparator clk tn).
Proof.
  intros Htn s HJ. pose proof HJ as (_ & _ & _ & _ & K5 & K).
  destruct (K tn Htn) as (t0 & c0 & p & t & c & k & A1 & A2 & A3 & A4 & A5 & A6 & A7 & A8 & A9 & A10). clear K.
  pose proof (Forall_lookup_1 _ _ _ _ Hpos A3) as Hp. cbn in Hp. rewrite <- K5 in A3. set (r := hpet (pl_hpet s)) in *.
  unfold hpet_get_comparator, the_htimer, hregs, gets, bind, get, ret. cbv beta iota. fold r. unfold at_tn, ret.
  rewrite A5. cbv beta iota. fold r. rewrite A4. cbv beta iota. rewrite A3. cbv beta iota.
  destruct (timer_is_periodic t && negb (p =? 0)) eqn:Ep.
  - apply andb_prop in Ep as [Ep Hz]. apply negb_true_iff, Z.eqb_neq in Hz.
    pose proof (maincounter_frame clk (fun s' => hpet (pl_hpet s') = r) ltac:(done) s eq_refl) as E.
    destruct (hpet_read_maincounter clk s) as [s1 [now| |]]; cbn [fst] in E; [|unfold J; cbn [fst]; by rewrite E..].
    cbn. rewrite E. pose proof (kept_move r0 r tn t c p (u64 (now + p - 1 - c) / p) HJ Htn A4 A5 A3) as H. rewrite Ep in H.
    apply H. apply Z.div_pos; [|lia]. apply Z.mod_pos_bound. lia.
  - cbn. change (if timer_is_32bit t then u32 c else c) with (narrowed t c). unfold J. cbn. fold r. by rewrite (kept_read r0 r tn t c HJ Htn A4 A5).
Qed.

Lemma set_timer_kept tn : (tn < 3)%nat -> preserves J (hpet_set_timer clk tn).
Proof.
  intros Htn. unfold hpet_set_timer. pose proof (comparator_kept tn Htn) as Kc.
  assert (preserves J (hpet_read_maincounter clk)) as Km by (by apply maincounter_frame).
  assert (preserves J the_target) as Kt by (by apply target_frame).
  assert (forall A (m : SE vst A), preserves J (vt m)) as Kv by (intros; by apply vt_frame).
  assert (forall A (v : list A) i, preserves J (at_tn v i)) as Ka by (intros A v i; unfold at_tn; case_match; se_keep).
  unfold pit_stop_channel0_irq, the_htimer, hregs. cbv zeta. se_keep; auto.
Qed.

Lemma each_restart_wp ts : forall s, Forall (fun tn => tn < 3)%nat ts -> pl_ok n ts s -> J s ->
  wp (each_timer ts (fun tn => t <- the_htimer tn;; when (timer_enabled t) (hpet_set_timer clk tn))) (fun _ s' => pl_ok n [] s' /\ J s') s.
Proof.
  induction ts as [|tn ts IH]; intros s Hts Hs HJ; cbn [each_timer]; [by apply wp_ret|]. apply list.Forall_cons in Hts as [Htn Hts].
  destruct (lookup_lt_is_Some_2 (hp_timers (hpet (pl_hpet s))) tn) as [t Ht]; [rewrite (hs_timers _ (pk_hpet _ _ (proj1 Hs))); lia|].
  apply wp_bind, wp_bind. apply (htimer_wp tn t); [done|]. apply wp_when.
  - intros _. eapply wp_mono; [apply (wp_keep J _ _ _ (set_timer_wp clk n tn ts s Hs Htn)); [by apply set_timer_kept|done]|]. intros [] s' [H1 H2]. by apply IH.
  - intros Hd. apply IH; [done| |done]. split; [apply Hs|]. by apply (dead_owes tn ts s t), Hs.
Qed.
End HpetKept.

(** The timers do not touch the offset of the counter. *)
Lemma restart_offset o : preserves (fun s => mc_offset (pl_hpet s) = o)
  (each_timer all_timers (fun tn => t <- the_htimer tn;; when (timer_enabled t) (hpet_set_timer clk tn))).
Proof.
  set (J := fun s => _). assert (forall f, preserves J (on_hregs f)) as Kh by (intros f; by apply preserves_modify).
  assert (forall A (m : SE vst A), preserves J (vt m)) as Kv by (intros; by apply vt_frame).
  assert (preserves J the_target /\ preserves J (hpet_read_maincounter clk)) as [K1 K2] by (split; [by apply target_frame|by apply maincounter_frame]).
  assert (forall tn, preserves J (hpet_set_timer clk tn)) as Kt.
  { intros tn. unfold hpet_set_timer, hpet_get_comparator, pit_stop_channel0_irq, the_htimer, hregs, at_tn. cbv zeta. se_keep; auto. }
  apply each_frame. intros tn. unfold the_htimer, hregs, at_tn. se_keep; auto.
Qed.

(** The counter goes on from [c] at the time of the state [s]. *)
Definition counts_from (c : Z) (s s' : pldom) : Prop :=
  exists t, snd (guest_time_hpet clk s) = Ok t /\ mc_offset (pl_hpet s') = u64 (c - t).

Lemma hpet_restart_wp bs r s : pl_ok n [] s -> hpet_of_bytes bs = r -> hpet_shape (with_regs (pl_hpet s) r) -> hpet_kept r r ->
  wp (hpet_restart clk bs) (fun _ s' => pl_ok n [] s' /\ hpet_kept r (hpet (pl_hpet s')) /\ counts_from (mc64 r) s s') s.
Proof.
  intros Hs Er Hr Hk. pose proof (hs_positive _ Hr) as Hpos. cbn in Hpos. unfold hpet_restart. apply wp_bind, wp_modify. set (s1 := set_pl_hpet _ s).
  assert (pl_ok n all_timers s1) as Hs1.
  { destruct Hs as [[K1 K2 K3 K4 K5 K6] _]. split; [split; [done..| |done]|].
    - unfold s1. cbn. by rewrite Er.
    - intros tn (_ & t & Ht & _). left. apply elem_of_seq. apply lookup_lt_Some in Ht. unfold s1 in Ht. cbn [hpet pl_hpet set_pl_hpet] in Ht. rewrite Er in Ht.
      pose proof (hs_timers _ Hr) as E3. cbn in E3. unfold HPET_TIMER_NUM. lia. }
  set (J := fun s' => hpet_kept r (hpet (pl_hpet s'))). assert (J s1) as HJ by (unfold J, s1; cbn; by rewrite Er).
  destruct (wp_inv _ _ _ (wp_keep J _ _ _ (hpet_time_ok clk n all_timers s1 Hs1) (hpet_time_frame clk J (fun _ _ H => H)) HJ)) as (s2 & t & Et & Hs2 & H2).
  assert (snd (guest_time_hpet clk s) = Ok t) as Et0.
  { unfold s1 in Et. rewrite hpet_time_indep in Et. destruct (guest_time_hpet clk s) as [s0 x]. by injection Et as _ ->. }
  apply wp_bind. eapply wp_eq; [exact Et|].
  apply wp_bind, wp_gets. set (o := u64 (mc64 (hpet (pl_hpet s2)) - t)).
  assert (o = u64 (mc64 r - t)) as Eo by (unfold o; destruct H2 as (_ & _ & _ & -> & _); done).
  pose proof (set_mc_offset_ok n all_timers o s2 Hs2) as Hs3. unfold wp, set_mc_offset, on_hpet, modify in Hs3. apply wp_bind, wp_modify.
  set (s3 := set_pl_hpet _ s2) in *. assert (J s3) as H3 by exact H2. assert (mc_offset (pl_hpet s3) = u64 (mc64 r - t)) as H4 by exact Eo. apply wp_when.
  - intros _. eapply wp_mono; [apply (wp_keep (fun s => mc_offset (pl_hpet s) = u64 (mc64 r - t)) _ _ _ (each_restart_wp r Hpos all_timers s3 ltac:(by repeat constructor) Hs3 H3));
      [apply restart_offset|done]|]. intros [] s4 [[A1 A2] A3]. split_and!; [done|done|by exists t].
  - intros Hd. split; [|split; [done|by exists t]]. split; [apply Hs3|]. intros tn [He _]. exfalso. destruct H3 as (_ & E3 & _), H2 as (_ & E2 & _).
    unfold hpet_enabled in *. rewrite E2, <- E3 in Hd. congruence.
Qed.

(** ** The PM timer *)

(** It counts from the time that its vcpu has in the state [s]. *)
Definition ticks_from (s s' : pldom) : Prop :=
  exists v t, pmt_vcpu (pl_pmt s) = Some v /\ snd (get_guest_time clk v s) = Ok t /\ last_gtime (pl_pmt s') = t.

Lemma guest_time_indep v p s : snd (get_guest_time clk v (set_pl_pmt p s)) = snd (get_guest_time clk v s).
Proof. unfold get_guest_time, vt, zoom. cbn [pl_v set_pl_pmt]. by destruct (hvm_get_guest_time clk v (pl_v s)). Qed.

Lemma pmtimer_restart_wp bs x y z s : pl_ok n [] s -> (field 0 4 bs, field 4 2 bs, field 6 2 bs) = (x, y, z) ->
  wp (pmtimer_restart clk bs) (fun _ s' => pl_ok n [] s' /\ (tmr_val (pl_pmt s') = x /\ pm1a_sts (pl_pmt s') = y /\ pm1a_en (pl_pmt s') = z /\
    not_accounted (pl_pmt s') = 0) /\ ticks_from s s') s.
Proof.
  intros Hs E. unfold pmtimer_restart. set (J := fun s' => (tmr_val (pl_pmt s'), pm1a_sts (pl_pmt s'), pm1a_en (pl_pmt s')) = (x, y, z)).
  apply wp_bind, wp_modify. set (s1 := set_pl_pmt _ s). assert (pl_ok n [] s1) as Hs1 by (by apply (mc_set s)). assert (J s1) as HJ1 by done.
  destruct (pk_pmt _ _ (proj1 Hs1)) as (v & Ev & Hv). apply wp_bind. unfold pmt_the_vcpu. apply wp_bind, wp_get. rewrite Ev. apply wp_ret.
  destruct (wp_inv _ _ _ (wp_keep J _ _ _ (time_ok clk n (pl_ok n []) v Hv s1 Hs1) (time_frame clk J (fun _ _ H => H) v) HJ1)) as (s2 & t & Et & Hs2 & H2).
  apply wp_bind. eapply wp_eq; [exact Et|].
  apply wp_bind, wp_modify. set (s3 := set_pl_pmt _ s2). assert (pl_ok n [] s3) as Hs3 by (by apply (mc_set s2)).
  set (J' := fun s' => J s' /\ not_accounted (pl_pmt s') = 0 /\ last_gtime (pl_pmt s') = t). assert (J' s3) as HJ3 by done.
  eapply wp_mono; [apply (wp_keep J' _ _ _ (sci_ok n (pl_ok n []) s3 Hs3)); [by apply sci_frame|done]|].
  intros [] s4 [Hs4 (H4 & H5 & H6)]. split; [done|]. split; [by injection H4|]. exists v, t. split; [exact Ev|]. split; [|done].
  rewrite <- (guest_time_indep v (pl_pmt s1) s). change (set_pl_pmt (pl_pmt s1) s) with s1. by rewrite Et.
Qed.
End Restart.

(** ** What a device's load leaves alone *)

Section Alone.
Context (clk : nat -> Z) (J : pldom -> Prop) (Jv : forall s v, J s -> J (set_pl_v v s)).

Lemma rtc_restart_frame bs : (forall s r, J s -> J (set_pl_rtc r s)) -> preserves J (rtc_restart clk bs).
Proof.
  intros Jr. unfold rtc_restart. apply preserves_bind; [by apply on_rtc_frame|]. intros _. apply preserves_bind; [by apply fetch_date_frame|]. intros _.
  apply preserves_bind; [by apply timer_update_frame|]. intros _. apply preserves_bind; [by apply check_update_frame|]. intros _. by apply alarm_update_frame.
Qed.
Lemma hpet_restart_frame bs : (forall s h, J s -> J (set_pl_hpet h s)) -> preserves J (hpet_restart clk bs).
Proof.
  intros Jh. assert (forall f, preserves J (on_hregs f)) as Kh by (intros f; by apply on_hregs_frame).
  assert (forall tn, preserves J (hpet_set_timer clk tn)) as Kt.
  { intros tn. unfold hpet_set_timer, hpet_get_comparator, pit_stop_channel0_irq, the_htimer, hregs, at_tn. cbv zeta.
    se_keep; auto using vt_frame, target_frame, maincounter_frame. }
  assert (preserves J (each_timer all_timers (fun tn => t <- the_htimer tn;; when (timer_enabled t) (hpet_set_timer clk tn)))) as Ke.
  { apply each_frame. intros tn. unfold the_htimer, hregs, at_tn. se_keep; auto. }
  unfold hpet_restart, set_mc_offset, hregs. se_keep; auto using hpet_time_frame, on_hpet_frame.
Qed.
Lemma pmtimer_restart_frame bs : (forall s p, J s -> J (set_pl_pmt p s)) -> preserves J (pmtimer_restart clk bs).
Proof.
  intros Jm. assert (forall f, preserves J (on_pmt f)) as Km by (intros f; apply preserves_modify; auto).
  unfold pmtimer_restart, pmt_the_vcpu. se_keep; auto using time_frame, sci_frame.
Qed.
End Alone.

(** ** Records of the stream *)

Lemma on_pl_wp {A} (m : SE pldom A) (Q : A -> tst -> Prop) d c : wp m (fun a p => Q a (set_td p d, c)) (td d) -> wp (on_pl m) Q (d, c).
Proof. intros H. by apply wp_zoom. Qed.

Lemma save_wp tc bs d pre post (Q : unit -> tst -> Prop) : code_ok tc 0 -> small pre post -> 8 + zlen bs <= zlen post ->
  Q tt (d, ctx (pre ++ record_bytes tc (0, bs)) (drop (Z.to_nat (8 + zlen bs)) post)) ->
  wp (on_ctxt (hvm_save_entry tc 0 bs)) Q (d, ctx pre post).
Proof. intros Hc Hs Hl HQ. apply wp_zoom. cbn [snd fst]. eapply wp_eq; [by apply save_entry_ctx|done]. Qed.

Lemma load_or_wp e tc bs d pre post len (Q : list Z -> tst -> Prop) : code_ok tc 0 -> small pre (record_bytes tc (0, bs) ++ post) -> len = zlen bs ->
  Q bs (d, ctx (pre ++ record_bytes tc (0, bs)) post) -> wp (load_or e tc len) Q (d, ctx pre (record_bytes tc (0, bs) ++ post)).
Proof.
  intros Hc Hs -> HQ. unfold wp, load_or, catch, on_ctxt, zoom. cbn [snd fst]. unfold hvm_load_entry. by rewrite load_entry_ctx.
Qed.

Lemma take_bytes_ctx bs pre post : small pre (bs ++ post) -> take_bytes (zlen bs) (ctx pre (bs ++ post)) = (ctx (pre ++ bs) post, Ok bs).
Proof.
  intros Hs. unfold take_bytes, bind, get. change (cur (ctx pre (bs ++ post))) with (zlen pre). rewrite (get_bytes_ctx (ctx pre (bs ++ post)) pre bs post eq_refl).
  unfold modify, ret, set_cur, ctx. cbn [cur size data]. unfold small in Hs. rewrite !zlen_app in Hs.
  pose proof (zlen_nonneg bs). pose proof (zlen_nonneg pre). pose proof (zlen_nonneg post). rewrite <- !app_assoc, (zlen_app pre bs). f_equal. f_equal.
  unfold u32. apply Z.mod_small. lia.
Qed.

(** The room left behind a record *)
Lemma small_saved tc bs pre post : small pre post -> 8 + zlen bs <= zlen post ->
  small (pre ++ record_bytes tc (0, bs)) (drop (Z.to_nat (8 + zlen bs)) post) /\ zlen (drop (Z.to_nat (8 + zlen bs)) post) = zlen post - (8 + zlen bs).
Proof.
  intros Hs Hl. pose proof (zlen_nonneg bs). assert (zlen (drop (Z.to_nat (8 + zlen bs)) post) = zlen post - (8 + zlen bs)) as E by (unfold zlen in *; rewrite length_drop; lia).
  split; [|done]. unfold small in *. rewrite !zlen_app in *. rewrite zlen_record, E. cbn [snd]. lia.
Qed.

(** ** Saving *)

(** The values have the widths of their fields. *)
Record fitting (d : tdom) : Prop := {
  ft_pit : fits (pit_fields (pl_pit (td d)) (pit_pad0 d));
  ft_hpet : fits (hpet_fields (hpet (pl_hpet (td d))));
  ft_pmt : fits (pmtimer_fields (pl_pmt (td d)))
}.

Definition timer_records (d : tdom) : list entry :=
  [(PIT_CODE, (0, struct_bytes (pit_fields (pl_pit (td d)) (pit_pad0 d)))); (RTC_CODE, (0, bytes_of_rtc (pl_rtc (td d)) (rtc_pad0 d)));
   (HPET_CODE, (0, struct_bytes (hpet_fields (hpet (pl_hpet (td d)))))); (PMTIMER_CODE, (0, struct_bytes (pmtimer_fields (pl_pmt (td d)))))].
Definition timer_records_size : Z := 1160.

Lemma fits_mc64 r x : fits (hpet_fields r) -> 0 <= x < 2 ^ 64 -> fits (hpet_fields (set_mc64 x r)).
Proof.
  unfold fits, hpet_fields. rewrite !Forall_app. intros [H1 H2] Hx. split; [|exact H2]. repeat apply list.Forall_cons in H1 as [? H1].
  repeat (constructor; [done|]). constructor.
Qed.
Lemma fits_caught_up t p : fits (pmtimer_fields p) -> fits (pmtimer_fields (caught_up t p)).
Proof.
  unfold fits, pmtimer_fields. intros H. apply list.Forall_cons in H as [H1 H]. apply list.Forall_cons in H as [H2 H]. cbn [fst snd] in H1, H2.
  constructor; [|constructor; [|exact H]]; unfold caught_up; cbn [fst snd tmr_val pm1a_sts].
  - case_match; [|done]. apply Z.mod_pos_bound. lia.
  - case_match; [|done]. change (256 ^ Z.of_nat 2) with (2 ^ 16) in *. by apply (lor_below _ TMR_STS 16).
Qed.

(** The domain goes on with the counter it has saved for the HPET, that of the
    HPET's time at the save, and with the PM timer brought up to the time that was
    noted for its vcpu when it was descheduled. *)
Record saved_from (clk : nat -> Z) (d d' : tdom) : Prop := {
  sf_pit : pl_pit (td d') = pl_pit (td d);
  sf_rtc : pl_rtc (td d') = pl_rtc (td d);
  sf_hpet : exists t, snd (guest_time_hpet clk (td d)) = Ok t /\
    hpet (pl_hpet (td d')) = set_mc64 (u64 (mc_offset (pl_hpet (td d)) + t)) (hpet (pl_hpet (td d)));
  sf_pmt : exists v tm, pmt_vcpu (pl_pmt (td d)) = Some v /\ vs_vcpus (pl_v (td d)) !! Z.to_nat v = Some tm /\
    pl_pmt (td d') = caught_up (v_guest_time tm) (pl_pmt (td d));
  sf_pads : pit_pad0 d' = pit_pad0 d /\ rtc_pad0 d' = rtc_pad0 d
}.

(** The count that the guest would have read is the one that is saved, unless the
    counter is halted. *)
Lemma saved_count clk d d' : saved_from clk d d' -> hpet_enabled (hpet (pl_hpet (td d))) = true ->
  snd (hpet_read_maincounter clk (td d)) = Ok (mc64 (hpet (pl_hpet (td d')))).
Proof.
  intros [_ _ (t & Et & Eh) _ _] He. rewrite Eh. unfold hpet_read_maincounter, hregs, bind, gets. rewrite He.
  destruct (guest_time_hpet clk (td d)) as [s0 r] eqn:E. cbn [snd] in Et. subst r. cbn. by rewrite (hpet_time_regs clk (td d) s0 t E), Z.add_comm.
Qed.

(** The counter of the PM timer at the time [g]: at most a tick behind, since the
    fraction of a tick is left out *)
Lemma caught_up_ticks g p : pmt_exact p -> last_gtime p <= g -> (g - last_gtime p) * pm_scale < 2 ^ 63 ->
  exists e, 0 <= e <= 1 /\ tmr_val (caught_up g p) = (counted_ticks g - e) mod 2 ^ 32.
Proof.
  intros Hp Hle Hb. pose proof (exact_ticks p Hp) as Ht. destruct Hp as [Hs Hv _ _]. unfold caught_up. cbn [tmr_val]. rewrite Hs.
  set (l := last_gtime p) in *. change pm_scale with 15374028 in *. unfold u64. rewrite (Z.mod_small (g - l)) by lia.
  rewrite (Z.mod_small ((g - l) * 15374028)) by lia. rewrite Z.shiftr_div_pow2 by lia. set (x := (g - l) * 15374028 / 2 ^ 32).
  assert (0 <= x < 2 ^ 31) as Hx by (unfold x; zlia). unfold u32 at 1. rewrite (Z.mod_small x) by lia. rewrite (proj2 (Z.ltb_lt x _)) by lia.
  exists (counted_ticks g - (counted_ticks l + x)). split.
  - unfold counted_ticks, x. change pm_scale with 15374028. zlia.
  - unfold u32. rewrite Ht. unfold pm_ticks. rewrite Z.add_mod_idemp_l by lia. f_equal. rewrite (Z.mod_small x) by lia. lia.
Qed.

Section Save.
Context (clk : nat -> Z) (n : Z).

Lemma record_sizes d : pl_ok n [] (td d) ->
  zlen (struct_bytes (pit_fields (pl_pit (td d)) (pit_pad0 d))) = sizeof_pit /\ zlen (bytes_of_rtc (pl_rtc (td d)) (rtc_pad0 d)) = sizeof_rtc /\
  zlen (struct_bytes (hpet_fields (hpet (pl_hpet (td d))))) = sizeof_hpet /\ zlen (struct_bytes (pmtimer_fields (pl_pmt (td d)))) = sizeof_pmtimer.
Proof.
  intros [[_ _ [[H1 _] _] _ [H2 H3 H4 _ _ _ _ _] [H5 _ _ _]] _]. rewrite !zlen_struct. repeat split.
  - unfold pit_fields. destruct (channels _) as [|? [|? [|? []]]]; done.
  - unfold bytes_of_rtc. rewrite zlen_app. unfold zlen. by rewrite H5.
  - unfold hpet_fields. destruct (hp_timers _) as [|? [|? [|? []]]]; try done. destruct (comparator64 _) as [|? [|? [|? []]]]; try done.
    by destruct (hp_period _) as [|? [|? [|? []]]].
Qed.

(** Reading the time leaves the times that were noted for the vcpus. *)
Lemma hpet_time_vcpus l : preserves (fun s => vs_vcpus (pl_v s) = l) (guest_time_hpet clk).
Proof.
  assert (forall A (k : SE vst A), preserves (fun v => vs_vcpus v = l) k -> preserves (fun s => vs_vcpus (pl_v s) = l) (vt k)) as Hvt
    by (intros A k Hk s Hs; unfold vt, zoom; specialize (Hk (pl_v s) Hs); by destruct (k (pl_v s))).
  unfold guest_time_hpet, the_target, get_guest_time. se_keep; apply Hvt.
  unfold hvm_get_guest_time, NOW, the_tm. se_keep; by apply preserves_modify.
Qed.

(** The state of the HPET when it has been saved *)
Lemma hpet_save_wp d pre post : pl_ok n [] (td d) -> small pre post -> 8 + sizeof_hpet <= zlen post ->
  wp (hpet_save clk) (fun _ s => exists p t, snd (guest_time_hpet clk (td d)) = Ok t /\ s = (set_td p d, ctx (pre ++ record_bytes HPET_CODE (0, struct_bytes (hpet_fields (hpet (pl_hpet p)))))
      (drop (Z.to_nat (8 + sizeof_hpet)) post)) /\ pl_ok n [] p /\ pl_pit p = pl_pit (td d) /\ pl_rtc p = pl_rtc (td d) /\ pl_pmt p = pl_pmt (td d) /\
      vs_vcpus (pl_v p) = vs_vcpus (pl_v (td d)) /\ hpet (pl_hpet p) = set_mc64 (u64 (mc_offset (pl_hpet (td d)) + t)) (hpet (pl_hpet (td d)))) (d, ctx pre post).
Proof.
  intros Hs Hsm Hroom. unfold hpet_save. apply wp_bind, on_pl_wp.
  set (J := fun s => pl_pit s = pl_pit (td d) /\ pl_rtc s = pl_rtc (td d) /\ pl_hpet s = pl_hpet (td d) /\ pl_pmt s = pl_pmt (td d)).
  pose proof (hpet_time_vcpus (vs_vcpus (pl_v (td d))) (td d) eq_refl) as Hvc.
  destruct (wp_inv _ _ _ (wp_keep J _ _ _ (hpet_time_ok clk n [] (td d) Hs) (hpet_time_frame clk J (fun _ _ H => H)) ltac:(done)))
    as (s1 & t & Et & Hs1 & J1 & J2 & J3 & J4). rewrite Et in Hvc. cbn [fst] in Hvc. eapply wp_eq; [exact Et|]. apply wp_bind, wp_gets. cbn [fst td set_td]. apply wp_bind, on_pl_wp. apply wp_modify. cbn [td set_td]. rewrite J3. set (x := u64 _).
  pose proof (on_hregs_ok n [] (set_mc64 x) (fun h _ => view_mc64 x (hpet h)) s1 Hs1) as Hs2. unfold wp, on_hregs, on_hpet, modify in Hs2. rewrite J3 in Hs2.
  set (p := set_pl_hpet _ s1) in *. apply wp_bind, wp_gets. cbn [fst td set_td]. pose proof (record_sizes (set_td p d) Hs2) as (_ & _ & L3 & _). cbn [td set_td] in L3.
  apply save_wp; [done|done|by rewrite L3|]. exists p, t. rewrite L3. split; [by rewrite Et|]. split; [reflexivity|]. split; [exact Hs2|]. split; [exact J1|]. split; [exact J2|]. split; [exact J4|]. split; [exact Hvc|reflexivity].
Qed.

Lemma pmtimer_save_wp d pre post : pl_ok n [] (td d) -> small pre post -> 8 + sizeof_pmtimer <= zlen post ->
  wp pmtimer_save (fun _ s => exists p v tm, pmt_vcpu (pl_pmt (td d)) = Some v /\ vs_vcpus (pl_v (td d)) !! Z.to_nat v = Some tm /\ s = (set_td p d, ctx (pre ++ record_bytes PMTIMER_CODE (0, struct_bytes (pmtimer_fields (pl_pmt p))))
      (drop (Z.to_nat (8 + sizeof_pmtimer)) post)) /\ pl_ok n [] p /\ pl_pit p = pl_pit (td d) /\ pl_rtc p = pl_rtc (td d) /\ pl_hpet p = pl_hpet (td d) /\ pl_v p = pl_v (td d) /\
      pl_pmt p = caught_up (v_guest_time tm) (pl_pmt (td d))) (d, ctx pre post).
Proof.
  intros Hs Hsm Hroom. unfold pmtimer_save. destruct (pk_pmt _ _ (proj1 Hs)) as (v & Ev & Hv).
  apply wp_bind, on_pl_wp. unfold pmt_the_vcpu. apply wp_bind, wp_get. rewrite Ev. apply wp_ret.
  apply wp_bind, on_pl_wp. cbn [td set_td]. apply wp_zoom. apply (the_tm_wp n); [apply (pk_v _ _ (proj1 Hs))|done|]. intros tm Htm.
  apply wp_bind, on_pl_wp, wp_modify. cbn [td set_td]. set (p := set_pl_pmt _ _). assert (pl_ok n [] p) as Hp by (apply (mc_set (set_pl_v (pl_v (td d)) (td d))); [by destruct (td d)|done]).
  apply wp_bind, wp_gets. cbn [fst td set_td]. apply save_wp; [done|done|done|]. exists p, v, tm. split; [done|]. split; [done|]. by destruct d as [[] ? ?].
Qed.

Lemma timers_save_wp d pre post : pl_ok n [] (td d) -> fitting d -> small pre post -> timer_records_size <= zlen post ->
  wp (timers_save clk) (fun _ s => exists d' post', s = (d', ctx (pre ++ stream_bytes (timer_records d')) post') /\
    small pre (stream_bytes (timer_records d') ++ post') /\ pl_ok n [] (td d') /\ fitting d' /\ saved_from clk d d') (d, ctx pre post).
Proof.
  intros Hs [F1 F2 F3] Hsm Hroom. unfold timer_records_size in Hroom. destruct (record_sizes d Hs) as (L1 & L2 & _ & _). unfold sizeof_pit, sizeof_rtc in *.
  unfold timers_save, pit_save. apply wp_bind, wp_bind, wp_gets. cbn [fst].
  set (b1 := struct_bytes (pit_fields _ _)) in *. destruct (small_saved PIT_CODE b1 pre post Hsm ltac:(lia)) as [S1 Z1].
  apply save_wp; [done|done|lia|]. set (post1 := drop _ post) in *. apply wp_bind. unfold rtc_save. apply wp_bind, wp_gets. cbn [fst].
  set (b2 := bytes_of_rtc _ _) in *. destruct (small_saved RTC_CODE b2 _ post1 S1 ltac:(lia)) as [S2 Z2].
  apply save_wp; [done|done|lia|]. set (post2 := drop _ post1) in *. apply wp_bind.
  eapply wp_mono; [apply hpet_save_wp; [done|done|unfold sizeof_hpet; lia]|]. intros [] ? (p & t & Et & -> & Hp & P1 & P2 & P3 & P0 & P4).
  set (b3 := struct_bytes (hpet_fields _)) in *. assert (zlen b3 = sizeof_hpet) as L3 by apply (record_sizes (set_td p d) Hp).
  destruct (small_saved HPET_CODE b3 _ post2 S2 ltac:(unfold sizeof_hpet in L3; lia)) as [S3 Z3]. rewrite L3 in S3, Z3. unfold sizeof_hpet in *. set (post3 := drop _ post2) in *.
  eapply wp_mono; [apply pmtimer_save_wp; [done|done|unfold sizeof_pmtimer; lia]|]. intros [] ? (q & v & tm & Ev & Etm & -> & Hq & Q1 & Q2 & Q3 & Q0 & Q4). cbn [td set_td] in *.
  set (b4 := struct_bytes (pmtimer_fields _)) in *. assert (zlen b4 = sizeof_pmtimer) as L4 by apply (record_sizes (set_td q d) Hq).
  destruct (small_saved PMTIMER_CODE b4 _ post3 S3 ltac:(unfold sizeof_pmtimer in L4; lia)) as [S4 Z4]. rewrite L4 in S4.
  assert (stream_bytes (timer_records (set_td q d)) = record_bytes PIT_CODE (0, b1) ++ record_bytes RTC_CODE (0, b2) ++ record_bytes HPET_CODE (0, b3) ++ record_bytes PMTIMER_CODE (0, b4)) as E.
  { unfold stream_bytes, timer_records. cbn [flat_map entry_bytes fst snd td set_td pit_pad0 rtc_pad0]. rewrite app_nil_r. unfold entry_bytes. cbn [fst snd]. unfold b1, b2, b3, b4.
    by rewrite Q1, Q2, Q3, P1, P2. }
  exists (set_td q d), (drop (Z.to_nat (8 + sizeof_pmtimer)) post3). rewrite E. split; [f_equal; f_equal; by rewrite <- !app_assoc|].
  split; [unfold small in *; by rewrite <- !app_assoc in *|]. split; [done|]. split; [|split; cbn [td set_td]; [congruence..|exists t; split; [done|congruence]|exists v, tm; split_and!; congruence|done]].
  split; cbn [td set_td pit_pad0].
  - by rewrite Q1, P1.
  - rewrite Q3, P4. apply fits_mc64; [done|apply Z.mod_pos_bound; lia].
  - rewrite Q4, P3. by apply fits_caught_up.
Qed.
End Save.

(** ** Loading *)

Lemma reloaded_lookup r tn t' : hp_timers (reloaded r) !! tn = Some t' ->
  exists t c, hp_timers r !! tn = Some t /\ comparator64 r !! tn = Some c /\ t' = reloaded_timer t c.
Proof. cbn. intros H. apply lookup_zip_with_Some in H as (t & c & E & H1 & H2). eauto. Qed.

Lemma reloaded_shape h h0 : hpet_shape h -> hpet_shape h0 -> hpet_shape (with_regs h0 (reloaded (hpet h))).
Proof.
  intros [A1 A2 A3 A4 A5 A6 A7 A8] [B1 B2 B3 B4 B5 B6 B7 B8]. split; cbn [hpet with_regs hpet_to_ns_scale hpet_to_ns_limit]; [|done..| |].
  - cbn. rewrite length_zip_with. lia.
  - apply Forall_lookup_2. intros tn t' H. destruct (reloaded_lookup _ _ _ H) as (t & c & H1 & _ & ->). exact (Forall_lookup_1 _ _ _ _ A7 H1).
  - intros tn t' p H H32 Hp. destruct (reloaded_lookup _ _ _ H) as (t & c & H1 & _ & ->). by apply (A8 tn t).
Qed.

Lemma reloaded_kept r x : hpet_kept (reloaded r) x -> hpet_kept r x.
Proof.
  intros (K1 & K2 & K3 & K4 & K5 & K). do 5 (split; [done|]). intros tn Htn. destruct (K tn Htn) as (t0 & c0 & p & t & c & k & A1 & A2 & A3 & A).
  destruct (reloaded_lookup _ _ _ A1) as (t1 & c1 & B1 & B2 & ->). exists t1, c0, p, t, c, k. do 3 (split; [done|]). exact A.
Qed.

Lemma fits_lookup l i f : fits l -> l !! i = Some f -> 0 <= snd f < 256 ^ Z.of_nat (fst f).
Proof. intros H E. exact (Forall_lookup_1 _ _ _ _ H E). Qed.

Lemma fits_comparator r tn c : length (hp_timers r) = 3%nat -> fits (hpet_fields r) -> (tn < 3)%nat -> comparator64 r !! tn = Some c -> 0 <= c < 2 ^ 64.
Proof.
  intros Hl Hf Htn Hc. destruct r as [? ? ? ? ts ? cs]. cbn in *. destruct ts as [|t0 [|t1 [|t2 []]]]; [done..| |done].
  assert (exists i, hpet_fields {| capability := capability; hp_config := hp_config; hp_isr := hp_isr; mc64 := mc64; hp_timers := [t0; t1; t2]; hp_period := hp_period; comparator64 := cs |} !! i = Some (8%nat, c)) as [i Hi].
  { exists (9 + 4 * tn)%nat. destruct tn as [|[|[|?]]]; [| | |lia]; destruct cs as [|? cs]; try done; [by injection Hc as ->| |]; destruct cs as [|? cs]; try done; [by injection Hc as ->|];
    destruct cs as [|? cs]; [done|]. by injection Hc as ->. }
  exact (fits_lookup _ _ _ Hf Hi).
Qed.

Lemma reloaded_self h : hpet_shape h -> fits (hpet_fields (hpet h)) -> hpet_kept (reloaded (hpet h)) (reloaded (hpet h)).
Proof.
  intros [A1 A2 A3 _ _ _ _ _] Hf. set (r := hpet h) in *. do 5 (split; [done|]). intros tn Htn.
  destruct (lookup_lt_is_Some_2 (hp_timers r) tn) as [t Ht]; [lia|]. destruct (lookup_lt_is_Some_2 (comparator64 r) tn) as [c Hc]; [lia|].
  destruct (lookup_lt_is_Some_2 (hp_period r) tn) as [p Hp]; [lia|].
  assert (hp_timers (reloaded r) !! tn = Some (reloaded_timer t c)) as Ht' by (cbn; apply lookup_zip_with_Some; eauto).
  exists (reloaded_timer t c), c, p, (reloaded_timer t c), c, 0. do 7 (split; [done|]). split; [done|]. split; [|done].
  rewrite Z.mul_0_l, Z.add_0_r. symmetry. apply Z.mod_small. by apply (fits_comparator r tn).
Qed.

(** What a domain has of the state [d] whose records it has loaded *)
Definition same_pit (d : tdom) (s : pldom) : Prop := channels (pl_pit s) = channels (pl_pit (td d)) /\ speaker_data_on (pl_pit s) = speaker_data_on (pl_pit (td d)).
Definition same_rtc (d : tdom) (s : pldom) : Prop := rtc_kept (cmos_data (pl_rtc (td d))) (cmos_index (pl_rtc (td d))) (pl_rtc s).
Definition same_hpet (d : tdom) (s : pldom) : Prop := hpet_kept (hpet (pl_hpet (td d))) (hpet (pl_hpet s)).
Definition same_pmt (d : tdom) (s : pldom) : Prop :=
  tmr_val (pl_pmt s) = tmr_val (pl_pmt (td d)) /\ pm1a_sts (pl_pmt s) = pm1a_sts (pl_pmt (td d)) /\ pm1a_en (pl_pmt s) = pm1a_en (pl_pmt (td d)) /\
  not_accounted (pl_pmt s) = 0.

Section Load.
Context (clk : nat -> Z) (n m : Z) (d : tdom) (Hd : pl_ok n [] (td d)) (Hf : fitting d).

Lemma pit_load_wp d0 pre post : pl_ok m [] (td d0) -> small pre (entry_bytes (timer_records d !!! 0%nat) ++ post) ->
  wp (pit_load clk) (fun _ s => exists d1, s = (d1, ctx (pre ++ entry_bytes (timer_records d !!! 0%nat)) post) /\ pl_ok m [] (td d1) /\ same_pit d (td d1) /\
    pit_pad0 d1 = pit_pad0 d) (d0, ctx pre (entry_bytes (timer_records d !!! 0%nat) ++ post)).
Proof.
  intros Hs Hsm. destruct (channels_back _ _ (ps_channels _ (pi_shape _ (pk_pit _ _ (proj1 Hd)))) (ft_pit _ Hf)) as (C1 & C2 & C3 & C4).
  unfold pit_load. apply wp_bind. apply load_or_wp; [done|done|by rewrite C4|]. apply wp_bind, wp_modify. cbn [fst snd]. apply on_pl_wp.
  eapply wp_mono; [apply (pit_restart_wp clk m); [done|exact C1|apply (pi_channels _ (pk_pit _ _ (proj1 Hd)))]|].
  intros [] p (Hp & H1 & H2). eexists. split; [reflexivity|]. split; [done|]. split; [exact (conj H1 (eq_trans H2 C2))|exact C3].
Qed.

Lemma rtc_load_wp d0 pre post : pl_ok m [] (td d0) -> small pre (entry_bytes (timer_records d !!! 1%nat) ++ post) -> same_pit d (td d0) ->
  wp (rtc_load clk) (fun _ s => exists d1, s = (d1, ctx (pre ++ entry_bytes (timer_records d !!! 1%nat)) post) /\ pl_ok m [] (td d1) /\ same_pit d (td d1) /\
    same_rtc d (td d1) /\ pit_pad0 d1 = pit_pad0 d0 /\ rtc_pad0 d1 = rtc_pad0 d) (d0, ctx pre (entry_bytes (timer_records d !!! 1%nat) ++ post)).
Proof.
  intros Hs Hsm HJ. pose proof (pk_rtc _ _ (proj1 Hd)) as [R1 R2 R3 _]. destruct (rtc_back (pl_rtc (td d)) (rtc_pad0 d) R1) as (C1 & C2 & C3 & C4).
  unfold rtc_load. apply wp_bind, on_pl_wp, wp_modify. set (p0 := set_pl_wall _ _). assert (pl_ok m [] p0) as Hp0 by (by apply rc_wall).
  apply wp_bind. apply load_or_wp; [done|done|by rewrite C4|]. apply wp_bind, wp_modify. cbn [fst snd]. apply on_pl_wp. cbn [td set_td set_rtc_pad0].
  eapply wp_mono; [apply (wp_keep (same_pit d) _ _ _ (rtc_restart_wp clk m _ _ _ p0 Hp0 C1 C2 R1 R2 R3)); [by apply rtc_restart_frame|done]|].
  intros [] p [[Hp H1] H2]. eexists. split; [reflexivity|]. split; [done|]. split; [done|]. split; [done|]. split; [done|exact C3].
Qed.

Lemma hpet_load_wp d0 pre post : pl_ok m [] (td d0) -> small pre (entry_bytes (timer_records d !!! 2%nat) ++ post) -> same_pit d (td d0) -> same_rtc d (td d0) ->
  wp (hpet_load clk) (fun _ s => exists p, s = (set_td p d0, ctx (pre ++ entry_bytes (timer_records d !!! 2%nat)) post) /\ pl_ok m [] p /\ same_pit d p /\ same_rtc d p /\
    same_hpet d p /\ counts_from clk (mc64 (hpet (pl_hpet (td d)))) (td d0) p) (d0, ctx pre (entry_bytes (timer_records d !!! 2%nat) ++ post)).
Proof.
  intros Hs Hsm HJ1 HJ2. pose proof (pk_hpet _ _ (proj1 Hd)) as Hh. pose proof Hh as [A1 A2 A3 _ _ _ _ _].
  destruct (hpet_back (hpet (pl_hpet (td d))) A1 A2 A3 (ft_hpet _ Hf)) as [C1 C2]. set (bs := struct_bytes (hpet_fields (hpet (pl_hpet (td d))))) in *.
  assert (small (pre ++ descriptor_bytes HPET_CODE 0 (zlen bs)) (bs ++ post)) as Hsm'.
  { revert Hsm. change (entry_bytes _) with (record_bytes HPET_CODE (0, bs)). unfold small, record_bytes. cbn [fst snd]. by rewrite !zlen_app, !Z.add_assoc. }
  unfold hpet_load. apply wp_bind. unfold wp at 1, catch, on_ctxt, zoom. cbn [fst snd]. rewrite <- C2.
  change (entry_bytes (timer_records d !!! 2%nat)) with (record_bytes HPET_CODE (0, bs)) in *. rewrite check_entry_ctx by done.
  apply wp_bind, wp_zoom. cbn [fst snd]. eapply wp_eq; [by apply take_bytes_ctx|]. apply on_pl_wp.
  eapply wp_mono; [apply (wp_keep (fun s => same_pit d s /\ same_rtc d s) _ _ _ (hpet_restart_wp clk m bs _ (td d0) Hs C1 (reloaded_shape _ _ Hh (pk_hpet _ _ (proj1 Hs))) (reloaded_self _ Hh (ft_hpet _ Hf))))|].
  - by apply hpet_restart_frame.
  - done.
  - intros [] p [(Hp & H1 & Ho) [H2 H3]]. exists p. split; [unfold record_bytes; cbn [fst snd]; by rewrite <- app_assoc|].
    do 3 (split; [done|]). split; [by apply reloaded_kept|exact Ho].
Qed.

Lemma pmtimer_load_wp s0 d0 pre post : pl_ok m [] (td d0) -> small pre (entry_bytes (timer_records d !!! 3%nat) ++ post) -> same_pit d (td d0) -> same_rtc d (td d0) ->
  same_hpet d (td d0) -> counts_from clk (mc64 (hpet (pl_hpet (td d)))) s0 (td d0) ->
  wp (pmtimer_load clk) (fun _ s => exists p, s = (set_td p d0, ctx (pre ++ entry_bytes (timer_records d !!! 3%nat)) post) /\ pl_ok m [] p /\ same_pit d p /\ same_rtc d p /\
    (same_hpet d p /\ counts_from clk (mc64 (hpet (pl_hpet (td d)))) s0 p) /\ same_pmt d p /\ ticks_from clk (td d0) p) (d0, ctx pre (entry_bytes (timer_records d !!! 3%nat) ++ post)).
Proof.
  intros Hs Hsm HJ1 HJ2 HJ3 HJ4. unfold pmtimer_load. pose proof (ft_pmt _ Hf) as Hfp.
  apply wp_bind. apply load_or_wp; [done|done|reflexivity|]. apply on_pl_wp. set (bs := struct_bytes _) in *.
  assert ((field 0 4 bs, field 4 2 bs, field 6 2 bs) = (tmr_val (pl_pmt (td d)), pm1a_sts (pl_pmt (td d)), pm1a_en (pl_pmt (td d)))) as E by (unfold bs; by read_fields Hfp).
  eapply wp_mono; [apply (wp_keep (fun s => same_pit d s /\ same_rtc d s /\ same_hpet d s /\ counts_from clk (mc64 (hpet (pl_hpet (td d)))) s0 s) _ _ _ (pmtimer_restart_wp clk m bs _ _ _ (td d0) Hs E)); [by apply pmtimer_restart_frame|done]|].
  intros [] p [(Hp & H1 & H2) (K1 & K2 & K3 & K4)]. exists p. split; [reflexivity|]. split_and!; done.
Qed.
End Load.

(** ** All the devices *)

Record restored (d d1 : tdom) : Prop := {
  rs_pit : same_pit d (td d1);
  rs_rtc : same_rtc d (td d1);
  rs_hpet : same_hpet d (td d1);
  rs_pmt : same_pmt d (td d1);
  rs_pads : pit_pad0 d1 = pit_pad0 d /\ rtc_pad0 d1 = rtc_pad0 d
}.

(** The counters go on from the values that were saved: the HPET from the target's
    time when its record is loaded, the PM timer from its vcpu's time then. *)
Definition resumed (clk : nat -> Z) (d d0 d1 : tdom) (c : hvm_domain_context) : Prop := exists d2 c2 d3 c3,
  (pit_load clk;; rtc_load clk) (d0, c) = ((d2, c2), Ok tt) /\ counts_from clk (mc64 (hpet (pl_hpet (td d)))) (td d2) (td d1) /\
  hpet_load clk (d2, c2) = ((d3, c3), Ok tt) /\ ticks_from clk (td d3) (td d1).

Lemma small_next pre e post : small pre (entry_bytes e ++ post) -> small (pre ++ entry_bytes e) post.
Proof. unfold small. by rewrite !zlen_app, Z.add_assoc. Qed.

Lemma timers_load_wp clk n m d d0 pre post : pl_ok n [] (td d) -> fitting d -> pl_ok m [] (td d0) -> small pre (stream_bytes (timer_records d) ++ post) ->
  wp (timers_load clk) (fun _ s => exists d1, s = (d1, ctx (pre ++ stream_bytes (timer_records d)) post) /\ pl_ok m [] (td d1) /\ restored d d1 /\
      resumed clk d d0 d1 (ctx pre (stream_bytes (timer_records d) ++ post)))
    (d0, ctx pre (stream_bytes (timer_records d) ++ post)).
Proof.
  intros Hd Hf Hs Hsm.
  assert (stream_bytes (timer_records d) = entry_bytes (timer_records d !!! 0%nat) ++ entry_bytes (timer_records d !!! 1%nat) ++ entry_bytes (timer_records d !!! 2%nat) ++ entry_bytes (timer_records d !!! 3%nat)) as E
    by (unfold stream_bytes; cbn [flat_map timer_records]; by rewrite app_nil_r).
  rewrite E in *. clear E. set (e0 := timer_records d !!! 0%nat) in *. set (e1 := timer_records d !!! 1%nat) in *. set (e2 := timer_records d !!! 2%nat) in *.
  set (e3 := timer_records d !!! 3%nat) in *. rewrite <- !app_assoc in *. unfold timers_load.
  destruct (wp_inv _ _ _ (pit_load_wp clk n m d Hd Hf d0 pre (entry_bytes e1 ++ entry_bytes e2 ++ entry_bytes e3 ++ post) Hs Hsm)) as (? & [] & X1 & d1 & -> & H1 & P1 & Pad1).
  apply small_next in Hsm. fold e0 in X1.
  destruct (wp_inv _ _ _ (rtc_load_wp clk n m d Hd d1 _ (entry_bytes e2 ++ entry_bytes e3 ++ post) H1 Hsm P1)) as (? & [] & X2 & d2 & -> & H2 & P2 & R2 & Pad2 & Pad3).
  apply small_next in Hsm. fold e1 in X2.
  destruct (wp_inv _ _ _ (hpet_load_wp clk n m d Hd Hf d2 _ (entry_bytes e3 ++ post) H2 Hsm P2 R2)) as (? & [] & X3 & p3 & -> & H3 & P3 & R3 & T3 & C3).
  apply small_next in Hsm. fold e2 in X3.
  apply wp_bind. eapply wp_eq; [exact X1|]. apply wp_bind. eapply wp_eq; [exact X2|]. apply wp_bind. eapply wp_eq; [exact X3|].
  eapply wp_mono; [by apply (pmtimer_load_wp clk m d Hf (td d2) (set_td p3 d2))|]. fold e3. intros [] ? (p4 & -> & H4 & P4 & R4 & [T4 C4] & M4 & M5).
  exists (set_td p4 (set_td p3 d2)). split; [by rewrite <- !app_assoc|]. split; [done|]. split; [split; [done..|]; cbn; split; [congruence|done]|].
  eexists d2, _, (set_td p3 d2), _. split; [unfold bind; rewrite X1; exact X2|]. by split_and!.
Qed.

(** C39: The timer devices of a domain survive saving and restoring through the record
    stream. In any reachable state (of guests whose writes to the HPET are [polite]), with values of the widths of their fields, a buffer
    with room for 1160 bytes takes the four records; saving leaves the PIT and the clock
    alone. It stores the offset and the time of the HPET at the save as its count, which is
    what the guest would have read at that moment if the HPET is enabled; the count of a
    halted HPET is overwritten by it ([halted_count_overwritten]). It adds to the PM timer
    the ticks until the time noted for its vcpu: if that time is not before the last
    update, and less than 2^31 ticks after it, the counter saved is that of this time, or
    one less.
    Loading them into any domain with timer devices, whatever its state, consumes exactly
    the records and leaves sound devices, the enabled comparators with their timers running:
    the channels of the PIT and its speaker are those that were saved; so are the registers
    of the clock but the time, which is the target's own, and the flag of an update in
    progress; so are the configuration, the status, the count and the periods of the HPET
    and its timers, whose periodic comparators may have moved on by whole periods; so are the
    counter of the PM timer, its status and its mask. The counters go on from there: the
    offset of the HPET is the difference between its count and the target's time when its
    record is loaded, the PM timer starts from the time of its vcpu when its record is. *)
Theorem timer_state_roundtrip clk clk' n m d d0 pre post : dreach clk n (td d) -> pl_crashed (td d) = false -> fitting d ->
  dreach clk' m (td d0) -> pl_crashed (td d0) = false -> small pre post -> timer_records_size <= zlen post ->
  exists d' d1 post', timers_save clk (d, ctx pre post) = ((d', ctx (pre ++ stream_bytes (timer_records d')) post'), Ok tt) /\ saved_from clk d d' /\
    (hpet_enabled (hpet (pl_hpet (td d))) = true -> snd (hpet_read_maincounter clk (td d)) = Ok (mc64 (hpet (pl_hpet (td d'))))) /\
    (forall v tm, pmt_vcpu (pl_pmt (td d)) = Some v -> vs_vcpus (pl_v (td d)) !! Z.to_nat v = Some tm ->
      last_gtime (pl_pmt (td d)) <= v_guest_time tm -> (v_guest_time tm - last_gtime (pl_pmt (td d))) * pm_scale < 2 ^ 63 ->
      exists e, 0 <= e <= 1 /\ tmr_val (pl_pmt (td d')) = (counted_ticks (v_guest_time tm) - e) mod 2 ^ 32) /\
    timers_load clk' (d0, ctx pre (stream_bytes (timer_records d') ++ post')) = ((d1, ctx (pre ++ stream_bytes (timer_records d')) post'), Ok tt) /\
    pl_ok m [] (td d1) /\ restored d' d1 /\ resumed clk' d' d0 d1 (ctx pre (stream_bytes (timer_records d') ++ post')).
Proof.
  intros Hr Hc Hf Hr0 Hc0 Hsm Hroom. pose proof (dreach_ok clk n _ Hr Hc) as Hs. pose proof (dreach_ok clk' m _ Hr0 Hc0) as Hs0.
  destruct (wp_inv _ _ _ (timers_save_wp clk n d pre post Hs Hf Hsm Hroom)) as (? & [] & E & d' & post' & -> & Hsm' & Hs' & Hf' & Hsf).
  destruct (wp_inv _ _ _ (timers_load_wp clk' n m d' d0 pre post' Hs' Hf' Hs0 Hsm')) as (? & [] & E1 & d1 & -> & Hs1 & Hres & Hcnt).
  exists d', d1, post'. split_and!; [done|done|by apply saved_count| |done|done|done|done].
  intros v tm Hv Htm H1 H2. destruct (sf_pmt _ _ _ Hsf) as (v' & tm' & E2 & E3 & ->). simplify_eq.
  by apply caught_up_ticks; [apply (dreach_exact clk n)| |].
Qed.

(** The ticking domain is loaded into one that has just started. *)
Definition ticking_dom : tdom := {| td := ticking; pit_pad0 := 0; rtc_pad0 := 0 |}.
Definition started_dom : tdom := {| td := started; pit_pad0 := 0; rtc_pad0 := 0 |}.
Lemma ticking_fits : fitting ticking_dom.
Proof. split; (apply Forall_forall; intros f Hf; revert f Hf; apply Forall_forall; vm_compute; repeat (constructor; [split; [discriminate|reflexivity]|]); constructor). Qed.

Lemma timer_state_roundtrip_witness : exists d' d1 post',
  timers_save steady_clock (ticking_dom, ctx [] (replicate 1200 0)) = ((d', ctx (stream_bytes (timer_records d')) post'), Ok tt) /\ saved_from steady_clock ticking_dom d' /\
  timers_load steady_clock (started_dom, ctx [] (stream_bytes (timer_records d') ++ post')) = ((d1, ctx (stream_bytes (timer_records d')) post'), Ok tt) /\
  pl_ok 2 [] (td d1) /\ restored d' d1 /\ resumed steady_clock d' started_dom d1 (ctx [] (stream_bytes (timer_records d') ++ post')).
Proof.
  destruct (timer_state_roundtrip steady_clock steady_clock 2 2 ticking_dom started_dom [] (replicate 1200 0))
    as (d' & d1 & post' & H1 & H2 & _ & _ & H3 & H4 & H5); [..|exact (ex_intro _ d' (ex_intro _ d1 (ex_intro _ post' (conj H1 (conj H2 (conj H3 (conj H4 H5)))))))].
  - apply ticking_reach.
  - by vm_compute.
  - apply ticking_fits.
  - apply started_reach.
  - by vm_compute.
  - unfold small. vm_compute. reflexivity.
  - vm_compute. discriminate.
Defined.

(** A counter that is halted is not to change. [hpet_save] stores the count it would have,
    had it gone on: the guest reads another value after a restore, and in the saved
    domain if it goes on. *)
Definition halted : pldom := dstep (DHpetWrite HPET_CFG 8 0) ticking.
Definition after_save (m : SE tst unit) (s : pldom) : pldom := td (fst (fst (m ({| td := s; pit_pad0 := 0; rtc_pad0 := 0 |}, ctx [] (replicate 1200 0))))).
Lemma halted_count_overwritten : hpet_enabled (hpet (pl_hpet halted)) = false /\
  mc64 (hpet (pl_hpet halted)) <> mc64 (hpet (pl_hpet (after_save (hpet_save steady_clock) halted))).
Proof. split; vm_compute; [reflexivity|discriminate]. Qed.

(** [pmtimer_save] adds the ticks since the last update to the counter and does not note
    the time: a second save at the same time adds them once more. *)
Lemma saved_ticks_counted_twice p : last_gtime p = 0 -> pmt_scale p = pm_scale -> tmr_val p = 0 ->
  tmr_val (caught_up 1000000000 (caught_up 1000000000 p)) = 2 * tmr_val (caught_up 1000000000 p).
Proof. destruct p as [? ? ? ? ? ? ? ?]. cbn. intros -> -> ->. by vm_compute. Qed.
