(* ===== verification/HostTimer.v ===== *)
(** * Timers of the hypervisor

    xen/common/timer.c: each processor and each vcpu has a queue of timers, a heap
    ordered by deadline with a linked list for what does not fit, and a list of the
    timers that are not set.  The soft interrupt of a queue runs the functions of
    the timers that are due and asks the host for the next one
    ([reprogram_timer] of xen/uxen/time.c). *)

From stdpp Require Import base list numbers gmap.
From Stdlib Require Import ZArith Lia.
From S2P Require Import Prelude Vpt.

Open Scope Z_scope.
Open Scope se_scope.

(** ** Data *)

Inductive tstatus : Type :=
| TIMER_STATUS_invalid
| TIMER_STATUS_inactive
| TIMER_STATUS_killed
| TIMER_STATUS_in_heap
| TIMER_STATUS_in_list.
#[export] Instance tstatus_eq_dec : EqDecision tstatus.
Proof. solve_decision. Defined.

Definition TIMER_TYPE_cpu : Z := 1.
Definition TIMER_TYPE_vcpu : Z := 2.
Definition TIMER_CPU_status_killed : Z := 0xffff.
Definition TIMER_VCPU_status_killed : Z := 2 ^ 64 - 1.

(** The queues; a vcpu is named by its address. *)
Inductive queue : Type :=
| OnCpu (cpu : Z)
| OnVcpu (vcpu : Z).
#[export] Instance queue_eq_dec : EqDecision queue.
Proof. solve_decision. Defined.
#[export] Instance queue_countable : Countable queue.
Proof.
  apply (inj_countable' (fun q => match q with OnCpu c => inl c | OnVcpu v => inr v end)
    (fun x => match x with inl c => OnCpu c | inr v => OnVcpu v end)). by intros [].
Defined.

(** The union of [struct timer]: which member was stored last. A read of another
    member is [Bug]. [PosInactive q] is a link in the list of [q]; [PosNone]
    is what [memset] and [list_del] leave. *)
Inductive position : Type :=
| PosNone
| PosHeap (heap_offset : Z)
| PosList
| PosInactive (q : queue).

(** [struct timer]; [t_place] is the union of [cpu] and [vcpu]. *)
Record timer : Type := {
  expires : Z;
  t_pos : position;
  t_function : Z;
  t_data : Z;
  t_place : Z;
  t_status : tstatus;
  t_type : Z;
  t_suspended : bool
}.

(** [struct timers], with the words in slot 0 of the heap apart; a slot that was
    not written is [None]. With it the deadline of its processor or vcpu, the bit
    of its soft interrupt, and the ticks for which the host was asked. *)
Record timers : Type := {
  heap_size : Z;
  heap_limit : Z;
  heap_slots : list (option nat);
  tq_list : list nat;
  running : option nat;
  tq_inactive : list nat;
  suspend_time : Z;
  timer_deadline : Z;
  softirq_pending : bool;
  host_ticks : option Z
}.

(** What has happened: a function that was run, with the deadline of its timer and
    the time it was compared with *)
Inductive tevent : Type :=
| Ran (t : nat) (deadline now : Z).

Record tsys : Type := {
  tms : list timer;
  tqs : gmap queue timers;
  t_reads : nat;
  t_log : list tevent
}.

Definition set_expires (x : Z) (t : timer) : timer :=
  {| expires := x; t_pos := t_pos t; t_function := t_function t; t_data := t_data t; t_place := t_place t;
     t_status := t_status t; t_type := t_type t; t_suspended := t_suspended t |}.
Definition set_pos (p : position) (t : timer) : timer :=
  {| expires := expires t; t_pos := p; t_function := t_function t; t_data := t_data t; t_place := t_place t;
     t_status := t_status t; t_type := t_type t; t_suspended := t_suspended t |}.
Definition set_place (x : Z) (t : timer) : timer :=
  {| expires := expires t; t_pos := t_pos t; t_function := t_function t; t_data := t_data t; t_place := x;
     t_status := t_status t; t_type := t_type t; t_suspended := t_suspended t |}.
Definition set_status (x : tstatus) (t : timer) : timer :=
  {| expires := expires t; t_pos := t_pos t; t_function := t_function t; t_data := t_data t; t_place := t_place t;
     t_status := x; t_type := t_type t; t_suspended := t_suspended t |}.
Definition set_suspended (x : bool) (t : timer) : timer :=
  {| expires := expires t; t_pos := t_pos t; t_function := t_function t; t_data := t_data t; t_place := t_place t;
     t_status := t_status t; t_type := t_type t; t_suspended := x |}.

Definition set_heap (sz lim : Z) (l : list (option nat)) (q : timers) : timers :=
  {| heap_size := sz; heap_limit := lim; heap_slots := l; tq_list := tq_list q; running := running q;
     tq_inactive := tq_inactive q; suspend_time := suspend_time q; timer_deadline := timer_deadline q;
     softirq_pending := softirq_pending q; host_ticks := host_ticks q |}.
Definition set_tq_list (l : list nat) (q : timers) : timers :=
  {| heap_size := heap_size q; heap_limit := heap_limit q; heap_slots := heap_slots q; tq_list := l; running := running q;
     tq_inactive := tq_inactive q; suspend_time := suspend_time q; timer_deadline := timer_deadline q;
     softirq_pending := softirq_pending q; host_ticks := host_ticks q |}.
Definition set_running (x : option nat) (q : timers) : timers :=
  {| heap_size := heap_size q; heap_limit := heap_limit q; heap_slots := heap_slots q; tq_list := tq_list q; running := x;
     tq_inactive := tq_inactive q; suspend_time := suspend_time q; timer_deadline := timer_deadline q;
     softirq_pending := softirq_pending q; host_ticks := host_ticks q |}.
Definition set_tq_inactive (l : list nat) (q : timers) : timers :=
  {| heap_size := heap_size q; heap_limit := heap_limit q; heap_slots := heap_slots q; tq_list := tq_list q; running := running q;
     tq_inactive := l; suspend_time := suspend_time q; timer_deadline := timer_deadline q;
     softirq_pending := softirq_pending q; host_ticks := host_ticks q |}.
Definition set_suspend_time (x : Z) (q : timers) : timers :=
  {| heap_size := heap_size q; heap_limit := heap_limit q; heap_slots := heap_slots q; tq_list := tq_list q; running := running q;
     tq_inactive := tq_inactive q; suspend_time := x; timer_deadline := timer_deadline q;
     softirq_pending := softirq_pending q; host_ticks := host_ticks q |}.
Definition set_deadline (x : Z) (q : timers) : timers :=
  {| heap_size := heap_size q; heap_limit := heap_limit q; heap_slots := heap_slots q; tq_list := tq_list q; running := running q;
     tq_inactive := tq_inactive q; suspend_time := suspend_time q; timer_deadline := x;
     softirq_pending := softirq_pending q; host_ticks := host_ticks q |}.
Definition set_softirq (x : bool) (q : timers) : timers :=
  {| heap_size := heap_size q; heap_limit := heap_limit q; heap_slots := heap_slots q; tq_list := tq_list q; running := running q;
     tq_inactive := tq_inactive q; suspend_time := suspend_time q; timer_deadline := timer_deadline q;
     softirq_pending := x; host_ticks := host_ticks q |}.
Definition set_host_ticks (x : option Z) (q : timers) : timers :=
  {| heap_size := heap_size q; heap_limit := heap_limit q; heap_slots := heap_slots q; tq_list := tq_list q; running := running q;
     tq_inactive := tq_inactive q; suspend_time := suspend_time q; timer_deadline := timer_deadline q;
     softirq_pending := softirq_pending q; host_ticks := x |}.

Definition set_tms (l : list timer) (s : tsys) : tsys := {| tms := l; tqs := tqs s; t_reads := t_reads s; t_log := t_log s |}.
Definition set_tqs (m : gmap queue timers) (s : tsys) : tsys := {| tms := tms s; tqs := m; t_reads := t_reads s; t_log := t_log s |}.
Definition set_t_reads (n : nat) (s : tsys) : tsys := {| tms := tms s; tqs := tqs s; t_reads := n; t_log := t_log s |}.
Definition set_t_log (l : list tevent) (s : tsys) : tsys := {| tms := tms s; tqs := tqs s; t_reads := t_reads s; t_log := l |}.

Definition the_timer (t : nat) : SE tsys timer := l <- gets tms;; match l !! t with Some x => ret x | None => bug end.
Definition upd_timer (t : nat) (f : timer -> timer) : SE tsys unit := x <- the_timer t;; modify (fun s => set_tms (<[t := f x]> (tms s)) s).
Definition the_queue (q : queue) : SE tsys timers := m <- gets tqs;; match m !! q with Some x => ret x | None => bug end.
Definition upd_queue (q : queue) (f : timers -> timers) : SE tsys unit := x <- the_queue q;; modify (fun s => set_tqs (<[q := f x]> (tqs s)) s).
Definition expires_of (t : nat) : SE tsys Z := x <- the_timer t;; ret (expires x).

(** ** The heap *)

Definition heap_at (q : queue) (i : Z) : SE tsys nat :=
  ts <- the_queue q;; match heap_slots ts !! Z.to_nat i with Some (Some t) => ret t | _ => bug end.
Definition heap_put (q : queue) (i : Z) (t : nat) : SE tsys unit :=
  ts <- the_queue q;;
  bug_if (negb (i <? zlen (heap_slots ts)));;
  upd_queue q (fun ts => set_heap (heap_size ts) (heap_limit ts) (<[Z.to_nat i := Some t]> (heap_slots ts)) ts).
Definition SET_HEAP_SIZE (q : queue) (sz : Z) : SE tsys unit :=
  upd_queue q (fun ts => set_heap (u16 sz) (heap_limit ts) (heap_slots ts) ts).
Definition heap_offset (t : nat) : SE tsys Z := x <- the_timer t;; match t_pos x with PosHeap i => ret i | _ => bug end.
Definition set_heap_offset (t : nat) (i : Z) : SE tsys unit := upd_timer t (set_pos (PosHeap i)).

(** The loops: [pos] is free, [t] is to be put where they stop. They halve or
    double [pos]; [fuel] bounds the steps. *)
Fixpoint sink (fuel : nat) (q : queue) (sz : Z) (t : nat) (pos : Z) : SE tsys Z :=
  match fuel with
  | O => bug
  | S fuel =>
      let nxt := Z.shiftl pos 1 in
      if nxt <=? sz then
        right <- (if nxt + 1 <=? sz then
                    b <- heap_at q (nxt + 1);; eb <- expires_of b;; a <- heap_at q nxt;; ea <- expires_of a;; ret (eb <? ea)
                  else ret false);;
        let nxt := if right then nxt + 1 else nxt in
        c <- heap_at q nxt;; ec <- expires_of c;; et <- expires_of t;;
        if et <? ec then ret pos
        else heap_put q pos c;; set_heap_offset c pos;; sink fuel q sz t nxt
      else ret pos
  end.
Definition down_heap (q : queue) (pos : Z) : SE tsys unit :=
  ts <- the_queue q;;
  t <- heap_at q pos;;
  pos <- sink (S (Z.to_nat (heap_size ts))) q (heap_size ts) t pos;;
  heap_put q pos t;;
  set_heap_offset t pos.

Fixpoint float (fuel : nat) (q : queue) (t : nat) (pos : Z) : SE tsys Z :=
  match fuel with
  | O => bug
  | S fuel =>
      if 1 <? pos then
        p <- heap_at q (Z.shiftr pos 1);; et <- expires_of t;; ep <- expires_of p;;
        if et <? ep then heap_put q pos p;; set_heap_offset p pos;; float fuel q t (Z.shiftr pos 1)
        else ret pos
      else ret pos
  end.
Definition up_heap (q : queue) (pos : Z) : SE tsys unit :=
  t <- heap_at q pos;;
  pos <- float (S (Z.to_nat pos)) q t pos;;
  heap_put q pos t;;
  set_heap_offset t pos.

Definition remove_from_heap (q : queue) (t : nat) : SE tsys bool :=
  ts <- the_queue q;;
  let sz := heap_size ts in
  pos <- heap_offset t;;
  (if pos =? sz then SET_HEAP_SIZE q (sz - 1)
   else
     last <- heap_at q sz;;
     heap_put q pos last;;
     set_heap_offset last pos;;
     SET_HEAP_SIZE q (sz - 1);;
     up <- (if 1 <? pos then
              c <- heap_at q pos;; ec <- expires_of c;; p <- heap_at q (Z.shiftr pos 1);; ep <- expires_of p;; ret (ec <? ep)
            else ret false);;
     if up : bool then up_heap q pos else down_heap q pos);;
  ret (pos =? 1).

Definition add_to_heap (q : queue) (t : nat) : SE tsys bool :=
  ts <- the_queue q;;
  let sz := heap_size ts in
  if sz =? heap_limit ts then ret false
  else
    SET_HEAP_SIZE q (sz + 1);;
    heap_put q (sz + 1) t;;
    set_heap_offset t (sz + 1);;
    up_heap q (sz + 1);;
    i <- heap_offset t;;
    ret (i =? 1).

(** ** The overflow list *)

(** The walk to [t]; without it the code runs into the end of the list. *)
Fixpoint unlink (t : nat) (l : list nat) : option (list nat) :=
  match l with
  | [] => None
  | c :: l => if (c =? t)%nat then Some l else cons c <$> unlink t l
  end.
Definition is_head (t : nat) (l : list nat) : bool := match l with c :: _ => (c =? t)%nat | [] => false end.
Definition remove_from_list (q : queue) (t : nat) : SE tsys bool :=
  ts <- the_queue q;;
  x <- the_timer t;;
  match t_pos x, unlink t (tq_list ts) with
  | PosList, Some l => upd_queue q (set_tq_list l);; ret (is_head t (tq_list ts))
  | _, _ => bug
  end.

Fixpoint link (e : Z) (t : nat) (l : list nat) : SE tsys (list nat) :=
  match l with
  | [] => ret [t]
  | c :: l' => ec <- expires_of c;; if ec <=? e then r <- link e t l';; ret (c :: r) else ret (t :: l)
  end.
Definition add_to_list (q : queue) (t : nat) : SE tsys bool :=
  ts <- the_queue q;;
  e <- expires_of t;;
  l <- link e t (tq_list ts);;
  upd_timer t (set_pos PosList);;
  upd_queue q (set_tq_list l);;
  ret (is_head t l).

(** ** The list of inactive timers *)

(** [list_add(&t->inactive, ...)] and [list_del(&t->inactive)] *)
Definition inactive_add (t : nat) (q : queue) : SE tsys unit :=
  upd_queue q (fun ts => set_tq_inactive (t :: tq_inactive ts) ts);; upd_timer t (set_pos (PosInactive q)).
Definition inactive_del (t : nat) : SE tsys unit :=
  x <- the_timer t;;
  match t_pos x with
  | PosInactive q =>
      ts <- the_queue q;;
      match unlink t (tq_inactive ts) with
      | Some l => upd_queue q (set_tq_inactive l);; upd_timer t (set_pos PosNone)
      | None => bug
      end
  | _ => bug
  end.

(** ** Timers *)

Definition status_is (x : timer) (st : tstatus) : bool := bool_decide (t_status x = st).

Definition remove_entry (t : nat) (q : queue) : SE tsys bool :=
  x <- the_timer t;;
  rc <- match t_status x with
        | TIMER_STATUS_in_heap => remove_from_heap q t
        | TIMER_STATUS_in_list => remove_from_list q t
        | _ => bug
        end;;
  upd_timer t (set_status TIMER_STATUS_invalid);;
  ret rc.

Definition add_entry (t : nat) (q : queue) : SE tsys bool :=
  x <- the_timer t;;
  bug_if (negb (status_is x TIMER_STATUS_invalid));;
  set_heap_offset t 0;;
  upd_timer t (set_status TIMER_STATUS_in_heap);;
  rc <- add_to_heap q t;;
  i <- heap_offset t;;
  if negb (i =? 0) then ret rc
  else
    upd_timer t (set_status TIMER_STATUS_in_list);;
    add_to_list q t.

(** [cpu_raise_softirq] and [vcpu_raise_softirq]; the event that tells the
    processor of it is left out. *)
Definition raise (q : queue) : SE tsys unit := upd_queue q (set_softirq true).

(** The queue that the type and the place of a timer name *)
Definition queue_of (x : timer) : queue := if t_type x =? TIMER_TYPE_cpu then OnCpu (t_place x) else OnVcpu (t_place x).
Definition own_queue (t : nat) : SE tsys queue :=
  x <- the_timer t;;
  bug_if (negb ((t_type x =? TIMER_TYPE_cpu) || (t_type x =? TIMER_TYPE_vcpu)));;
  ret (queue_of x).

Definition activate_timer (t : nat) : SE tsys unit :=
  x <- the_timer t;;
  bug_if (negb (status_is x TIMER_STATUS_inactive));;
  upd_timer t (set_status TIMER_STATUS_invalid);;
  inactive_del t;;
  q <- own_queue t;;
  b <- add_entry t q;;
  when b (raise q).

Definition deactivate_timer (t : nat) : SE tsys unit :=
  q <- own_queue t;;
  b <- remove_entry t q;;
  when b (raise q);;
  upd_timer t (set_status TIMER_STATUS_inactive);;
  inactive_add t q.

(** The loop of [timer_lock] ends at once when nobody moves the timer. *)
Definition is_killed (x : timer) : bool :=
  t_place x =? (if t_type x =? TIMER_TYPE_cpu then TIMER_CPU_status_killed else TIMER_VCPU_status_killed).
Definition timer_lock (t : nat) : SE tsys bool :=
  own_queue t;; x <- the_timer t;; ret (negb (is_killed x)).

Definition active_timer (t : nat) : SE tsys bool :=
  x <- the_timer t;;
  bug_if (status_is x TIMER_STATUS_invalid);;
  ret (status_is x TIMER_STATUS_in_heap || status_is x TIMER_STATUS_in_list).

Definition vcpu_active_timer (t : nat) (current : Z) : SE tsys bool :=
  x <- the_timer t;;
  bug_if (negb ((t_type x =? TIMER_TYPE_vcpu) && (t_place x =? current)));;
  active_timer t.

(** [memset] and the stores of [init_timer] and [init_vcpu_timer] *)
Definition new_timer (function data place type : Z) : timer :=
  {| expires := 0; t_pos := PosNone; t_function := function; t_data := data; t_place := place;
     t_status := TIMER_STATUS_inactive; t_type := type; t_suspended := false |}.
Definition init_on (t : nat) (function data place type : Z) : SE tsys unit :=
  upd_timer t (fun _ => new_timer function data place type);;
  ok <- timer_lock t;;
  bug_if (negb ok);;
  q <- own_queue t;;
  inactive_add t q.
(** All processor timers are on processor 0. *)
Definition init_timer (t : nat) (function data cpu : Z) : SE tsys unit := init_on t function data 0 TIMER_TYPE_cpu.
Definition init_vcpu_timer (t : nat) (function data vcpu : Z) : SE tsys unit := init_on t function data vcpu TIMER_TYPE_vcpu.

(** [if ( active_timer(timer) ) deactivate_timer(timer);] *)
Definition deactivate_if_active (t : nat) : SE tsys bool :=
  a <- active_timer t;; when a (deactivate_timer t);; ret a.

Definition set_timer (t : nat) (e : Z) : SE tsys unit :=
  ok <- timer_lock t;;
  when ok
    (deactivate_if_active t;;
     upd_timer t (set_expires e);;
     activate_timer t).

Definition advance_timer (t : nat) (e : Z) : SE tsys unit :=
  ok <- timer_lock t;;
  when ok
    (a <- active_timer t;;
     x <- the_timer t;;
     when (negb (a && (e <=? expires x)))
       (deactivate_if_active t;;
        upd_timer t (set_expires e);;
        activate_timer t)).

Definition stop_timer (t : nat) : SE tsys unit :=
  ok <- timer_lock t;;
  when ok (deactivate_if_active t;; ret tt).

Definition migrate_timer (t : nat) (new_cpu : Z) : SE tsys unit :=
  x <- the_timer t;;
  when (negb (t_type x =? TIMER_TYPE_vcpu))
    (bug_if (negb (t_type x =? TIMER_TYPE_cpu));;
     when (negb ((t_place x =? new_cpu) || (t_place x =? TIMER_CPU_status_killed)))
       (active <- deactivate_if_active t;;
        inactive_del t;;
        upd_timer t (set_place new_cpu);;
        inactive_add t (OnCpu new_cpu);;
        when active (activate_timer t))).

Definition migrate_timer_to_vcpu (t : nat) (v : Z) : SE tsys unit :=
  x <- the_timer t;;
  bug_if (negb (t_type x =? TIMER_TYPE_vcpu));;
  active <- deactivate_if_active t;;
  inactive_del t;;
  upd_timer t (set_place v);;
  inactive_add t (OnVcpu v);;
  when active (activate_timer t).

(** [while ( ... running == timer ) cpu_relax();]: the wait for a function that
    runs in the thread that waits would not end. *)
Definition runs (t : nat) (ts : timers) : bool := bool_decide (running ts = Some t).
Definition wait_idle (t : nat) (q : queue) : SE tsys unit := ts <- the_queue q;; bug_if (runs t ts).
Fixpoint wait_all (t : nat) (l : list queue) : SE tsys unit :=
  match l with
  | [] => ret tt
  | q :: l => wait_idle t q;; wait_all t l
  end.

(** [cpu] and [current] are those of the caller, [online] are the processors that
    are online. *)
Definition kill_timer (t : nat) (cpu current : Z) (online : list Z) : SE tsys unit :=
  x <- the_timer t;;
  when (negb (t_type x =? 0))
    ((if t_type x =? TIMER_TYPE_cpu then wait_idle t (OnCpu cpu)
      else bug_if (negb (t_type x =? TIMER_TYPE_vcpu));; wait_idle t (OnVcpu current));;
     ok <- timer_lock t;;
     when ok
       (deactivate_if_active t;;
        inactive_del t;;
        upd_timer t (set_status TIMER_STATUS_killed);;
        if t_type x =? TIMER_TYPE_cpu then
          upd_timer t (set_place TIMER_CPU_status_killed);; wait_all t (OnCpu <$> online)
        else
          upd_timer t (set_place TIMER_VCPU_status_killed);; wait_idle t (queue_of x))).

(** ** What a function may do *)

(** The calls that the function of a timer makes, and everybody else *)
Inductive top : Type :=
| TInit (t : nat) (function data cpu : Z)
| TInitVcpu (t : nat) (function data vcpu : Z)
| TSet (t : nat) (e : Z)
| TAdvance (t : nat) (e : Z)
| TStop (t : nat)
| TMigrate (t : nat) (cpu : Z)
| TMigrateVcpu (t : nat) (vcpu : Z)
| TKill (t : nat) (cpu current : Z) (online : list Z).
Definition run_top (op : top) : SE tsys unit :=
  match op with
  | TInit t f d c => init_timer t f d c
  | TInitVcpu t f d v => init_vcpu_timer t f d v
  | TSet t e => set_timer t e
  | TAdvance t e => advance_timer t e
  | TStop t => stop_timer t
  | TMigrate t c => migrate_timer t c
  | TMigrateVcpu t v => migrate_timer_to_vcpu t v
  | TKill t cpu current online => kill_timer t cpu current online
  end.
Fixpoint run_tops (l : list top) : SE tsys unit :=
  match l with
  | [] => ret tt
  | op :: l => run_top op;; run_tops l
  end.

(** ** The host's timer *)

(** [struct time_scale] *)
Record time_scale : Type := { ts_shift : Z; mul_frac : Z }.

Definition scale_delta (delta : Z) (scale : time_scale) : Z :=
  let delta := if ts_shift scale <? 0 then Z.shiftr delta (- ts_shift scale) else u64 (Z.shiftl delta (ts_shift scale)) in
  u64 (Z.shiftr (delta * mul_frac scale) 32).

Definition STIME_MAX : Z := 2 ^ 63 - 1.
Definition timer_slop : Z := 50000.

Section Env.
(** The host's clock, the scale of its timer, and what the function of a timer
    does in a state *)
Context (clk : nat -> Z) (inv_timer_scale : time_scale) (work : tsys -> nat -> list top).

Definition get_now : SE tsys Z := n <- gets t_reads;; modify (set_t_reads (S n));; ret (clk n).

Definition reprogram_timer (timeout : Z) (q : queue) : SE tsys bool :=
  if timeout =? 0 then ret true
  else
    now <- get_now;;
    let expire := s64 (timeout - now) in
    if expire <=? 0 then ret false
    else
      let ticks := u64 (scale_delta (u64 expire) inv_timer_scale + 1) in
      bug_if (match q with OnCpu c => negb (c =? 0) | OnVcpu _ => false end);;
      upd_queue q (set_host_ticks (Some ticks));;
      ret true.

(** ** The soft interrupt *)

Definition execute_timer (q : queue) (t : nat) : SE tsys unit :=
  upd_timer t (set_status TIMER_STATUS_inactive);;
  inactive_add t q;;
  upd_queue q (set_running (Some t));;
  s <- get;;
  run_tops (work s t);;
  upd_queue q (set_running None).

(** [fn] and the time of its call, for the log *)
Definition note (t : nat) (now : Z) : SE tsys unit :=
  e <- expires_of t;; modify (fun s => set_t_log (t_log s ++ [Ran t e now]) s).

(** [if (now > NOW()) now = NOW();] *)
Definition not_later (now : Z) : SE tsys Z := x <- get_now;; if x <? now then get_now else ret now.

(** The error of a loop that has not come to its end *)
Definition NOT_ENDED : Z := -1.

Fixpoint run_heap (fuel : nat) (q : queue) (now : Z) : SE tsys Z :=
  match fuel with
  | O => fail NOT_ENDED
  | S fuel =>
      ts <- the_queue q;;
      if negb (heap_size ts =? 0) then
        t <- heap_at q 1;; e <- expires_of t;;
        if e <? now then
          note t now;;
          remove_from_heap q t;;
          execute_timer q t;;
          now <- not_later now;;
          run_heap fuel q now
        else ret now
      else ret now
  end.

Fixpoint run_list (fuel : nat) (q : queue) (now : Z) : SE tsys Z :=
  match fuel with
  | O => fail NOT_ENDED
  | S fuel =>
      ts <- the_queue q;;
      match tq_list ts with
      | [] => ret now
      | t :: l =>
          x <- the_timer t;;
          if expires x <? now then
            note t now;;
            match t_pos x with PosList => upd_queue q (set_tq_list l) | _ => bug end;;
            execute_timer q t;;
            now <- not_later now;;
            run_list fuel q now
          else ret now
      end
  end.

(** A larger heap, if there is memory; the slots that are not copied hold no
    timer. *)
Definition grow (q : queue) (memory : bool) : SE tsys unit :=
  ts <- the_queue q;;
  match tq_list ts with
  | [] => ret tt
  | _ =>
      let old_limit := heap_limit ts in
      let new_limit := Z.shiftl (old_limit + 1) 4 - 1 in
      when memory
        (upd_queue q (fun ts => set_heap (heap_size ts) (u16 new_limit)
           (take (Z.to_nat (old_limit + 1)) (heap_slots ts) ++ replicate (Z.to_nat (new_limit - old_limit)) None) ts))
  end.

(** Timers of the list, from [l] on, into the heap *)
Fixpoint requeue (q : queue) (l : list nat) : SE tsys unit :=
  match l with
  | [] => ret tt
  | t :: l =>
      x <- the_timer t;;
      match t_pos x with PosList => ret tt | _ => bug end;;
      upd_timer t (set_status TIMER_STATUS_invalid);;
      add_entry t q;;
      requeue q l
  end.

Definition earliest_deadline (q : queue) : SE tsys Z :=
  ts <- the_queue q;;
  d <- (if negb (heap_size ts =? 0) then t <- heap_at q 1;; expires_of t else ret STIME_MAX);;
  match tq_list ts with
  | [] => ret d
  | t :: _ => e <- expires_of t;; ret (if e <? d then e else d)
  end.

Definition program_next (q : queue) : SE tsys unit :=
  deadline <- earliest_deadline q;;
  let d := if deadline =? STIME_MAX then 0 else s64 (deadline + timer_slop) in
  upd_queue q (set_deadline d);;
  ok <- reprogram_timer d q;;
  when (negb ok) (raise q).

Definition timer_softirq_action (fuel : nat) (q : queue) (memory : bool) : SE tsys unit :=
  grow q memory;;
  now <- get_now;;
  now <- run_heap fuel q now;;
  run_list fuel q now;;
  ts <- the_queue q;;
  upd_queue q (set_tq_list []);;
  requeue q (tq_list ts);;
  program_next q.

(** A pass of [__do_softirq] and [__do_softirq_vcpu] over the bit of the timers *)
Definition do_timer_softirq (fuel : nat) (q : queue) (memory : bool) : SE tsys unit :=
  ts <- the_queue q;;
  when (softirq_pending ts)
    (upd_queue q (set_softirq false);;
     timer_softirq_action fuel q memory).

(** ** Suspension of the host *)

(** [fn] for every timer of the heap from slot [j] on, and of the list *)
Fixpoint iterate_heap (q : queue) (fn : nat -> SE tsys unit) (k : nat) (j : Z) : SE tsys unit :=
  match k with
  | O => ret tt
  | S k => t <- heap_at q j;; fn t;; iterate_heap q fn k (j + 1)
  end.
Fixpoint iterate_list (fn : nat -> SE tsys unit) (l : list nat) : SE tsys unit :=
  match l with
  | [] => ret tt
  | t :: l => fn t;; iterate_list fn l
  end.
Definition iterate_timers (q : queue) (fn : nat -> SE tsys unit) : SE tsys unit :=
  ts <- the_queue q;;
  iterate_heap q fn (Z.to_nat (heap_size ts)) 1;;
  iterate_list fn (tq_list ts).

(** The count of timers, which is only printed, is left out. *)
Definition suspend_one_timer (now : Z) (t : nat) : SE tsys unit :=
  upd_timer t (set_suspended false);;
  a <- active_timer t;;
  when a (upd_timer t (fun x => set_expires (s64 (expires x - now)) (set_suspended true x))).
Definition resume_one_timer (now : Z) (t : nat) : SE tsys unit :=
  x <- the_timer t;;
  when (t_suspended x)
    (upd_timer t (fun x => set_expires (s64 (expires x + now)) (set_suspended false x));;
     if (t_type x =? TIMER_TYPE_cpu) || (t_type x =? TIMER_TYPE_vcpu) then raise (queue_of x) else ret tt).

(** [qs] are the queues of the processors that are online and of the vcpus. *)
Fixpoint suspend_resume_timers (suspend : bool) (qs : list queue) : SE tsys unit :=
  match qs with
  | [] => ret tt
  | q :: qs =>
      now <- get_now;;
      (if suspend then upd_queue q (set_suspend_time now);; iterate_timers q (suspend_one_timer now)
       else iterate_timers q (resume_one_timer now));;
      suspend_resume_timers suspend qs
  end.
Definition suspend_timers : list queue -> SE tsys unit := suspend_resume_timers true.
Definition resume_timers : list queue -> SE tsys unit := suspend_resume_timers false.

(** ** Processors that come and go *)

(** The dummy heap has no slots. *)
Definition init_timers (q : queue) : SE tsys unit :=
  upd_queue q (fun ts => set_heap 0 0 [None] (set_tq_inactive [] ts)).

Fixpoint move_active (fuel : nat) (old : queue) (new_cpu : Z) (notify : bool) : SE tsys bool :=
  match fuel with
  | O => fail NOT_ENDED
  | S fuel =>
      ts <- the_queue old;;
      t <- (if negb (heap_size ts =? 0) then t <- heap_at old 1;; ret (Some t) else ret (head (tq_list ts)));;
      match t with
      | None => ret notify
      | Some t =>
          x <- the_timer t;;
          remove_entry t (OnCpu (t_place x));;
          upd_timer t (set_place new_cpu);;
          b <- add_entry t (OnCpu new_cpu);;
          move_active fuel old new_cpu (notify || b)
      end
  end.
Fixpoint move_inactive (l : list nat) (new_cpu : Z) : SE tsys unit :=
  match l with
  | [] => ret tt
  | t :: l => inactive_del t;; upd_timer t (set_place new_cpu);; inactive_add t (OnCpu new_cpu);; move_inactive l new_cpu
  end.
Definition migrate_timers_from_cpu (old_cpu new_cpu : Z) : SE tsys unit :=
  n <- gets (fun s => length (tms s));;
  notify <- move_active (S n) (OnCpu old_cpu) new_cpu false;;
  ts <- the_queue (OnCpu old_cpu);;
  move_inactive (tq_inactive ts) new_cpu;;
  when notify (raise (OnCpu new_cpu)).
End Env.
