(* ===== verification/HostHeap.v ===== *)
(** * The heap of the hypervisor's timers: order and loops *)

From stdpp Require Import base list numbers gmap.
From Stdlib Require Import ZArith Lia.
From S2P Require Import Prelude HostTimer.

Open Scope Z_scope.
Open Scope se_scope.

(** ** Order

    [k i] is the deadline in slot [i]; slot [i / 2] is the parent of slot [i]. *)

Definition ordered (k : Z -> Z) (sz : Z) : Prop := forall i, 2 <= i <= sz -> k (i / 2) <= k i.

(** Ordered but for slot [pos], whose children are in order with its parent *)
Definition gap (k : Z -> Z) (sz pos : Z) : Prop :=
  (forall i, 2 <= i <= sz -> i <> pos -> i / 2 <> pos -> k (i / 2) <= k i) /\
  (forall i, 2 <= i <= sz -> i / 2 = pos -> 2 <= pos -> k (pos / 2) <= k i).

Definition put (k : Z -> Z) (pos x : Z) (i : Z) : Z := if i =? pos then x else k i.
Lemma put_eq k pos x : put k pos x pos = x.
Proof. unfold put. by rewrite Z.eqb_refl. Qed.
Lemma put_ne k pos x i : i <> pos -> put k pos x i = k i.
Proof. unfold put. intros H. by rewrite (proj2 (Z.eqb_neq _ _) H). Qed.

Lemma half_lt i : 2 <= i -> 1 <= i / 2 < i.
Proof. intros. zlia. Qed.

Section Order.
Context (k : Z -> Z) (sz : Z).

Lemma ordered_gap pos : ordered k sz -> gap k sz pos.
Proof.
  intros H. split; [auto|]. intros i Hi <- Hp. pose proof (half_lt i ltac:(lia)). etrans; [apply H; lia|by apply H].
Qed.
Lemma ordered_less sz' : sz' <= sz -> ordered k sz -> ordered k sz'.
Proof. intros Hle H i Hi. apply H. lia. Qed.
Lemma gap_less sz' pos : sz' <= sz -> gap k sz pos -> gap k sz' pos.
Proof. intros Hle [H1 H2]. split; intros i Hi; [apply H1; lia|apply H2; lia]. Qed.

Lemma top_least i : ordered k sz -> 1 <= i <= sz -> k 1 <= k i.
Proof.
  intros H Hi. assert (0 <= i) as H0 by lia. revert Hi. apply (Z_lt_induction (fun i => 1 <= i <= sz -> k 1 <= k i)); [|done].
  intros j IH Hj. destruct (Z.eq_dec j 1) as [->|]; [done|]. pose proof (half_lt j ltac:(lia)). etrans; [apply (IH (j / 2)); lia|apply H; lia].
Qed.

(** The free slot is filled. *)
Lemma gap_fill pos x : gap k sz pos -> (2 <= pos -> k (pos / 2) <= x) -> (forall i, 2 <= i <= sz -> i / 2 = pos -> x <= k i) ->
  ordered (put k pos x) sz.
Proof.
  intros [H1 H2] Hp Hc i Hi. pose proof (half_lt i ltac:(lia)). destruct (Z.eq_dec i pos) as [->|Hne].
  - rewrite put_eq, put_ne by lia. apply Hp. lia.
  - rewrite (put_ne _ _ _ i) by done. destruct (Z.eq_dec (i / 2) pos) as [E|]; [rewrite E, put_eq; by apply Hc|rewrite put_ne by done; by apply H1].
Qed.

(** The least child [c] moves up. *)
Lemma gap_down pos c : gap k sz pos -> 1 <= pos -> 2 <= c <= sz -> c / 2 = pos -> (forall i, 2 <= i <= sz -> i / 2 = pos -> k c <= k i) ->
  gap (put k pos (k c)) sz c.
Proof.
  intros [H1 H2] Hp Hc Ec Hm. pose proof (half_lt c ltac:(lia)). split; intros i Hi.
  - intros Hic Hi2. pose proof (half_lt i ltac:(lia)). destruct (Z.eq_dec i pos) as [->|Hne].
    + rewrite put_eq, put_ne by lia. apply H2; (done || lia).
    + rewrite (put_ne _ _ _ i) by done. destruct (Z.eq_dec (i / 2) pos) as [E|]; [rewrite E, put_eq; by apply Hm|rewrite put_ne by done; by apply H1].
  - intros E Hc2. pose proof (half_lt i ltac:(lia)). rewrite Ec, put_eq, put_ne by lia. rewrite <- E. apply H1; lia.
Qed.

(** The parent moves down. *)
Lemma gap_up pos : gap k sz pos -> 2 <= pos <= sz -> gap (put k pos (k (pos / 2))) sz (pos / 2).
Proof.
  intros [H1 H2] Hp. pose proof (half_lt pos ltac:(lia)) as Hh. split; intros i Hi.
  - intros Hip Hi2. pose proof (half_lt i ltac:(lia)). assert (i <> pos) as Hne by congruence. rewrite (put_ne _ _ _ i) by done.
    destruct (Z.eq_dec (i / 2) pos) as [E|]; [rewrite E, put_eq; apply H2; (done || lia)|rewrite put_ne by done; by apply H1].
  - intros E Hp2. pose proof (half_lt (pos / 2) ltac:(lia)). rewrite put_ne by lia. assert (k (pos / 2 / 2) <= k (pos / 2)) as Hk by (apply H1; lia).
    destruct (Z.eq_dec i pos) as [->|]; [by rewrite put_eq|]. rewrite put_ne by done. etrans; [exact Hk|]. rewrite <- E. apply H1; lia.
Qed.
Lemma gap_up_children pos x : gap k sz pos -> 2 <= pos <= sz -> x < k (pos / 2) ->
  forall i, 2 <= i <= sz -> i / 2 = pos / 2 -> x <= put k pos (k (pos / 2)) i.
Proof.
  intros [H1 H2] Hp Hx i Hi E. pose proof (half_lt pos ltac:(lia)). destruct (Z.eq_dec i pos) as [->|]; [rewrite put_eq; lia|].
  rewrite put_ne by done. assert (k (i / 2) <= k i) by (apply H1; lia). rewrite E in *. lia.
Qed.
End Order.

Lemma ordered_ext k k' sz : (forall i, 1 <= i <= sz -> k i = k' i) -> ordered k sz -> ordered k' sz.
Proof. intros E H i Hi. pose proof (half_lt i ltac:(lia)). rewrite <- !E by lia. by apply H. Qed.
Lemma gap_ext k k' sz pos : (forall i, 1 <= i <= sz -> i <> pos -> k i = k' i) -> gap k sz pos -> gap k' sz pos.
Proof.
  intros E [H1 H2]. split; intros i Hi.
  - intros Hn Hh. pose proof (half_lt i ltac:(lia)). rewrite <- !E by lia. by apply H1.
  - intros Eh Hp. pose proof (half_lt i ltac:(lia)). pose proof (half_lt pos ltac:(lia)). rewrite <- !E by lia. by apply H2.
Qed.

(** ** Access *)

Definition slot_of (s : tsys) (q : queue) (i : Z) : option nat :=
  match tqs s !! q with Some ts => mjoin (heap_slots ts !! Z.to_nat i) | None => None end.
Definition due (s : tsys) (t : nat) : Z := match tms s !! t with Some x => expires x | None => 0 end.
Definition key (s : tsys) (q : queue) (i : Z) : Z := match slot_of s q i with Some t => due s t | None => 0 end.

Definition with_timer (t : nat) (x : timer) (s : tsys) : tsys := set_tms (<[t := x]> (tms s)) s.
Definition with_queue (q : queue) (ts : timers) (s : tsys) : tsys := set_tqs (<[q := ts]> (tqs s)) s.

Section Access.
Context (s : tsys).

Lemma timer_wp t x (Q : timer -> tsys -> Prop) : tms s !! t = Some x -> Q x s -> wp (the_timer t) Q s.
Proof. intros E HQ. unfold the_timer. apply wp_bind, wp_gets. by rewrite E. Qed.
Lemma upd_timer_wp t x f (Q : unit -> tsys -> Prop) : tms s !! t = Some x -> Q tt (with_timer t (f x) s) -> wp (upd_timer t f) Q s.
Proof. intros E HQ. unfold upd_timer. apply wp_bind, (timer_wp t x); [done|]. by apply wp_modify. Qed.
Lemma queue_wp q ts (Q : timers -> tsys -> Prop) : tqs s !! q = Some ts -> Q ts s -> wp (the_queue q) Q s.
Proof. intros E HQ. unfold the_queue. apply wp_bind, wp_gets. by rewrite E. Qed.
Lemma upd_queue_wp q ts f (Q : unit -> tsys -> Prop) : tqs s !! q = Some ts -> Q tt (with_queue q (f ts) s) -> wp (upd_queue q f) Q s.
Proof. intros E HQ. unfold upd_queue. apply wp_bind, (queue_wp q ts); [done|]. by apply wp_modify. Qed.
Lemma expires_wp t x (Q : Z -> tsys -> Prop) : tms s !! t = Some x -> Q (due s t) s -> wp (expires_of t) Q s.
Proof. intros E HQ. unfold expires_of. apply wp_bind, (timer_wp t x); [done|]. apply wp_ret. unfold due in HQ. by rewrite E in HQ. Qed.
Lemma heap_at_wp q i t (Q : nat -> tsys -> Prop) : slot_of s q i = Some t -> Q t s -> wp (heap_at q i) Q s.
Proof.
  unfold slot_of. intros E HQ. destruct (tqs s !! q) as [ts|] eqn:Eq; [|done]. unfold heap_at. apply wp_bind, (queue_wp q ts); [done|].
  destruct (heap_slots ts !! Z.to_nat i) as [[a|]|]; simplify_eq/=. by apply wp_ret.
Qed.
Lemma heap_put_wp q i t ts (Q : unit -> tsys -> Prop) : tqs s !! q = Some ts -> i < zlen (heap_slots ts) ->
  Q tt (with_queue q (set_heap (heap_size ts) (heap_limit ts) (<[Z.to_nat i := Some t]> (heap_slots ts)) ts) s) -> wp (heap_put q i t) Q s.
Proof.
  intros E Hi HQ. unfold heap_put. apply wp_bind, (queue_wp q ts); [done|]. apply wp_bind, wp_bug_if; [apply negb_false_iff; by apply Z.ltb_lt|].
  by apply (upd_queue_wp q ts).
Qed.
Lemma heap_offset_wp t x i (Q : Z -> tsys -> Prop) : tms s !! t = Some x -> t_pos x = PosHeap i -> Q i s -> wp (heap_offset t) Q s.
Proof. intros E Ep HQ. unfold heap_offset. apply wp_bind, (timer_wp t x); [done|]. by rewrite Ep. Qed.
End Access.

Lemma with_timer_eq t x s : (t < length (tms s))%nat -> tms (with_timer t x s) !! t = Some x.
Proof. intros H. by apply list_lookup_insert_eq. Qed.
Lemma with_timer_ne t t' x s : t <> t' -> tms (with_timer t x s) !! t' = tms s !! t'.
Proof. intros H. by apply list_lookup_insert_ne. Qed.
Lemma with_queue_eq q ts s : tqs (with_queue q ts s) !! q = Some ts.
Proof. apply lookup_insert_eq. Qed.
Lemma with_queue_ne q q' ts s : q <> q' -> tqs (with_queue q ts s) !! q' = tqs s !! q'.
Proof. intros H. by apply lookup_insert_ne. Qed.

(** ** Heap and timers refer to each other

    Slots 1 to [sz] of the heap of [q], but for [hole], hold exactly the timers
    that are in this heap, but for those of [ex]; each of them knows its slot. *)

Definition in_heap_of (q : queue) (x : timer) : Prop := t_status x = TIMER_STATUS_in_heap /\ queue_of x = q.

Record heap_part (ex : list nat) (q : queue) (sz hole : Z) (s : tsys) : Prop := {
  hp_room : exists ts, tqs s !! q = Some ts /\ 0 <= sz < zlen (heap_slots ts);
  hp_slot : forall i, 1 <= i <= sz -> i <> hole -> exists a x, slot_of s q i = Some a /\ tms s !! a = Some x /\ (a ∉ ex) /\
    in_heap_of q x /\ t_pos x = PosHeap i;
  hp_timer : forall a x, tms s !! a = Some x -> a ∉ ex -> in_heap_of q x ->
    exists i, 1 <= i <= sz /\ i <> hole /\ slot_of s q i = Some a /\ t_pos x = PosHeap i
}.

(** What the loops change: slots of the heap, and the positions of its timers *)
Record moved (q : queue) (s s' : tsys) : Prop := {
  mv_clock : t_reads s' = t_reads s /\ t_log s' = t_log s;
  mv_queues : forall q', q' <> q -> tqs s' !! q' = tqs s !! q';
  mv_own : forall ts, tqs s !! q = Some ts -> exists l, tqs s' !! q = Some (set_heap (heap_size ts) (heap_limit ts) l ts) /\
    length l = length (heap_slots ts);
  mv_timers : forall t x, tms s !! t = Some x -> exists p, tms s' !! t = Some (set_pos p x) /\ (p = t_pos x \/ in_heap_of q x);
  mv_count : length (tms s') = length (tms s)
}.

Lemma set_pos_same x : set_pos (t_pos x) x = x.
Proof. by destruct x. Qed.
Lemma set_heap_same ts : set_heap (heap_size ts) (heap_limit ts) (heap_slots ts) ts = ts.
Proof. by destruct ts. Qed.

Lemma moved_refl q s : moved q s s.
Proof.
  split; [done|done| | |done].
  - intros ts E. exists (heap_slots ts). by rewrite set_heap_same.
  - intros t x E. exists (t_pos x). rewrite set_pos_same. auto.
Qed.
Lemma moved_trans q s1 s2 s3 : moved q s1 s2 -> moved q s2 s3 -> moved q s1 s3.
Proof.
  intros [[A1 A1'] A2 A3 A4 A5] [[B1 B1'] B2 B3 B4 B5]. split; [split; congruence| | | |congruence].
  - intros q' Hne. by rewrite B2, A2.
  - intros ts E. destruct (A3 ts E) as (l & E1 & L1). destruct (B3 _ E1) as (l' & E2 & L2). exists l'. split; [exact E2|]. by rewrite L2.
  - intros t x E. destruct (A4 t x E) as (p & E1 & H1). destruct (B4 _ _ E1) as (p' & E2 & H2). exists p'. split; [exact E2|].
    destruct H2 as [->|H2]; [exact H1|right; exact H2].
Qed.

Lemma moved_due q s s' t : moved q s s' -> due s' t = due s t.
Proof.
  intros [_ _ _ H L]. unfold due. destruct (tms s !! t) as [x|] eqn:E.
  - by destruct (H t x E) as (p & -> & _).
  - destruct (tms s' !! t) eqn:E'; [|done]. apply lookup_lt_Some in E'. apply lookup_ge_None in E. lia.
Qed.
Lemma moved_back q s s' t x' : moved q s s' -> tms s' !! t = Some x' -> exists x p, tms s !! t = Some x /\ x' = set_pos p x /\ (p = t_pos x \/ in_heap_of q x).
Proof.
  intros H E'. destruct (lookup_lt_is_Some_2 (tms s) t) as [x E]; [rewrite <- (mv_count _ _ _ H); by apply lookup_lt_Some in E'|].
  destruct (mv_timers _ _ _ H t x E) as (p & E1 & Hp). exists x, p. split; [done|]. split; [congruence|done].
Qed.

(** *** One store *)

Definition stored (q : queue) (pos : Z) (a : nat) (s : tsys) : tsys :=
  match tqs s !! q, tms s !! a with
  | Some ts, Some x => with_timer a (set_pos (PosHeap pos) x)
      (with_queue q (set_heap (heap_size ts) (heap_limit ts) (<[Z.to_nat pos := Some a]> (heap_slots ts)) ts) s)
  | _, _ => s
  end.

Section Stored.
Context (q : queue) (pos : Z) (a : nat) (s : tsys) (ts : timers) (x : timer).
Context (Eq : tqs s !! q = Some ts) (Ea : tms s !! a = Some x) (Hpos : 0 <= pos < zlen (heap_slots ts)).

Lemma store_wp {B} (k : SE tsys B) (Q : B -> tsys -> Prop) : wp k Q (stored q pos a s) -> wp (heap_put q pos a;; set_heap_offset a pos;; k) Q s.
Proof.
  intros HQ. apply wp_bind, (heap_put_wp s q pos a ts); [done|lia|]. apply wp_bind, (upd_timer_wp _ a x); [done|]. unfold stored in HQ. by rewrite Eq, Ea in HQ.
Qed.
Lemma stored_slot i : 0 <= i -> slot_of (stored q pos a s) q i = if i =? pos then Some a else slot_of s q i.
Proof.
  intros Hi. unfold slot_of, stored. rewrite Eq, Ea. unfold with_timer, with_queue, set_tms, set_tqs. cbn [tqs]. rewrite lookup_insert_eq. cbn [heap_slots set_heap].
  destruct (Z.eqb_spec i pos) as [->|Hne]; [rewrite list_lookup_insert_eq by (unfold zlen in Hpos; lia); done|]. rewrite list_lookup_insert_ne by lia. done.
Qed.
Lemma stored_self : tms (stored q pos a s) !! a = Some (set_pos (PosHeap pos) x).
Proof. unfold stored. rewrite Eq, Ea. apply with_timer_eq. by apply lookup_lt_Some in Ea. Qed.
Lemma stored_other b : b <> a -> tms (stored q pos a s) !! b = tms s !! b.
Proof. intros H. unfold stored. rewrite Eq, Ea. by rewrite with_timer_ne. Qed.
Lemma stored_queue : tqs (stored q pos a s) !! q = Some (set_heap (heap_size ts) (heap_limit ts) (<[Z.to_nat pos := Some a]> (heap_slots ts)) ts).
Proof. unfold stored. rewrite Eq, Ea. apply lookup_insert_eq. Qed.
Lemma stored_moved : in_heap_of q x -> moved q s (stored q pos a s).
Proof.
  intros Hx. split.
  - unfold stored. by rewrite Eq, Ea.
  - intros q' Hne. unfold stored. rewrite Eq, Ea. by apply lookup_insert_ne.
  - intros ts' E. rewrite Eq in E. injection E as <-. eexists. split; [apply stored_queue|]. apply length_insert.
  - intros t y E. destruct (decide (t = a)) as [->|Hne]; [|rewrite stored_other by done; exists (t_pos y); rewrite set_pos_same; auto].
    rewrite Ea in E. injection E as <-. rewrite stored_self. eauto.
  - unfold stored. rewrite Eq, Ea. cbn. apply length_insert.
Qed.
Lemma stored_key i : 0 <= i -> in_heap_of q x -> key (stored q pos a s) q i = put (key s q) pos (due s a) i.
Proof.
  intros Hi Hx. unfold key, put. rewrite stored_slot by done. destruct (i =? pos); [by apply (moved_due q), stored_moved|].
  destruct (slot_of s q i); [by apply (moved_due q), stored_moved|done].
Qed.
Lemma stored_room sz : 0 <= sz < zlen (heap_slots ts) -> exists ts', tqs (stored q pos a s) !! q = Some ts' /\ 0 <= sz < zlen (heap_slots ts').
Proof. intros H. eexists. split; [apply stored_queue|]. unfold zlen in *. cbn. by rewrite length_insert. Qed.
End Stored.

(** *** The free slot *)

(** Two slots with the same timer are the same slot. *)
Lemma slot_inj ex q sz hole s i j a : heap_part ex q sz hole s -> 1 <= i <= sz -> i <> hole -> 1 <= j <= sz -> j <> hole ->
  slot_of s q i = Some a -> slot_of s q j = Some a -> i = j.
Proof.
  intros H Hi Hi' Hj Hj' Ei Ej. destruct (hp_slot _ _ _ _ _ H i Hi Hi') as (a1 & x1 & E1 & T1 & _ & _ & P1). destruct (hp_slot _ _ _ _ _ H j Hj Hj') as (a2 & x2 & E2 & T2 & _ & _ & P2).
  congruence.
Qed.

Section Hole.
Context (ex : list nat) (q : queue) (sz : Z).

(** A slot is opened, a timer moves into it from another slot, and the timer
    that was taken out is put into it. *)
Lemma hole_open s pos t : heap_part ex q sz 0 s -> 1 <= pos <= sz -> slot_of s q pos = Some t -> heap_part (t :: ex) q sz pos s.
Proof.
  intros H Hp Et. split; [apply H| |].
  - intros i Hi Hne. destruct (hp_slot _ _ _ _ _ H i Hi ltac:(lia)) as (a & x & E1 & E2 & E3 & E4 & E5). exists a, x. repeat (split; [done|]). split; [|done].
    apply not_elem_of_cons. split; [|done]. intros ->. apply Hne. apply (slot_inj ex q sz 0 s i pos t); (done || lia).
  - intros a x Ea Hex Hx. apply not_elem_of_cons in Hex as [Hne Hex]. destruct (hp_timer _ _ _ _ _ H a x Ea Hex Hx) as (i & Hi & _ & E1 & E2).
    exists i. split; [done|]. split; [|done]. intros ->. congruence.
Qed.

Lemma hole_move s t pos c a : heap_part (t :: ex) q sz pos s -> 1 <= pos <= sz -> 1 <= c <= sz -> c <> pos -> slot_of s q c = Some a ->
  heap_part (t :: ex) q sz c (stored q pos a s).
Proof.
  intros H Hp Hc Hne Ea. destruct (hp_room _ _ _ _ _ H) as (ts & Eq & Hsz). destruct (hp_slot _ _ _ _ _ H c Hc Hne) as (a' & x & E1 & T1 & Hex & Hx & P1).
  rewrite Ea in E1. injection E1 as <-. assert (0 <= pos < zlen (heap_slots ts)) as Hr by lia. split; [by apply (stored_room q pos a s ts x)| |].
  - intros i Hi Hic. rewrite (stored_slot q pos a s ts x) by (done || lia). destruct (Z.eqb_spec i pos) as [->|Hip].
    + eexists a, _. split; [done|]. split; [by apply (stored_self q pos a s ts)|]. done.
    + destruct (hp_slot _ _ _ _ _ H i Hi Hip) as (b & y & B1 & B2 & B3). exists b, y. split; [done|]. rewrite (stored_other q pos a s ts x); [done..|].
      intros ->. apply Hic. by apply (slot_inj (t :: ex) q sz pos s i c a).
  - intros b y Eb Hb Hy. destruct (decide (b = a)) as [->|Hba].
    + rewrite (stored_self q pos a s ts x) in Eb by done. injection Eb as <-. exists pos. split; [done|]. split; [done|]. split; [|done].
      rewrite (stored_slot q pos a s ts x) by (done || lia). by rewrite Z.eqb_refl.
    + rewrite (stored_other q pos a s ts x) in Eb by done. destruct (hp_timer _ _ _ _ _ H b y Eb Hb Hy) as (i & Hi & Hip & Ei & Pi).
      exists i. split; [done|]. split; [intros ->; congruence|]. split; [|done]. rewrite (stored_slot q pos a s ts x) by (done || lia). by rewrite (proj2 (Z.eqb_neq i pos)).
Qed.

Lemma hole_fill s t x pos : heap_part (t :: ex) q sz pos s -> 1 <= pos <= sz -> tms s !! t = Some x -> in_heap_of q x -> (t ∉ ex) ->
  heap_part ex q sz 0 (stored q pos t s).
Proof.
  intros H Hp Et Hx Hex. destruct (hp_room _ _ _ _ _ H) as (ts & Eq & Hsz). assert (0 <= pos < zlen (heap_slots ts)) as Hr by lia.
  split; [by apply (stored_room q pos t s ts x)| |].
  - intros i Hi _. rewrite (stored_slot q pos t s ts x) by (done || lia). destruct (Z.eqb_spec i pos) as [->|Hip].
    + eexists t, _. split; [done|]. split; [by apply (stored_self q pos t s ts)|]. done.
    + destruct (hp_slot _ _ _ _ _ H i Hi Hip) as (b & y & B1 & B2 & B3 & B4). apply not_elem_of_cons in B3 as [Hbt B3]. exists b, y.
      rewrite (stored_other q pos t s ts x) by done. done.
  - intros b y Eb Hb Hy. destruct (decide (b = t)) as [->|Hba].
    + rewrite (stored_self q pos t s ts x) in Eb by done. injection Eb as <-. exists pos. split; [done|]. split; [lia|]. split; [|done].
      rewrite (stored_slot q pos t s ts x) by (done || lia). by rewrite Z.eqb_refl.
    + rewrite (stored_other q pos t s ts x) in Eb by done. destruct (hp_timer _ _ _ _ _ H b y Eb ltac:(by apply not_elem_of_cons) Hy) as (i & Hi & Hip & Ei & Pi).
      exists i. split; [done|]. split; [lia|]. split; [|done]. rewrite (stored_slot q pos t s ts x) by (done || lia). by rewrite (proj2 (Z.eqb_neq i pos)).
Qed.

(** *** The loops *)

(** Reading a deadline of the heap *)
Lemma key_wp {B} hole s i (k : nat -> Z -> SE tsys B) (Q : B -> tsys -> Prop) ex' : heap_part ex' q sz hole s -> 1 <= i <= sz -> i <> hole ->
  (forall a, slot_of s q i = Some a -> key s q i = due s a -> wp (k a (key s q i)) Q s) -> wp (a <- heap_at q i;; e <- expires_of a;; k a e) Q s.
Proof.
  intros H Hi Hne HQ. destruct (hp_slot _ _ _ _ _ H i Hi Hne) as (a & x & E1 & T1 & _). apply wp_bind, (heap_at_wp s q i a); [done|].
  apply wp_bind, (expires_wp s a x); [done|]. assert (key s q i = due s a) as E by (unfold key; by rewrite E1). rewrite <- E. by apply HQ.
Qed.

Definition children_above (s : tsys) (pos e : Z) : Prop := forall i, 2 <= i <= sz -> i / 2 = pos -> e <= key s q i.
Definition parent_below (s : tsys) (pos e : Z) : Prop := 2 <= pos -> key s q (pos / 2) <= e.
Definition has_gap (t : nat) (pos : Z) (s : tsys) : Prop := heap_part (t :: ex) q sz pos s /\ gap (key s q) sz pos /\ 1 <= pos <= sz.
Definition waiting (t : nat) (s : tsys) : Prop := (t ∉ ex) /\ exists x, tms s !! t = Some x /\ in_heap_of q x.

Lemma waiting_moved t s s' : waiting t s -> moved q s s' -> waiting t s'.
Proof. intros [H (x & E & Hx)] Hm. split; [done|]. destruct (mv_timers _ _ _ Hm t x E) as (p & E' & _). by exists (set_pos p x). Qed.

(** A timer of the heap moves into the free slot. *)
Lemma gap_moved t pos c a s : has_gap t pos s -> 1 <= c <= sz -> c <> pos -> slot_of s q c = Some a ->
  exists ts x, tqs s !! q = Some ts /\ tms s !! a = Some x /\ 0 <= pos < zlen (heap_slots ts) /\ moved q s (stored q pos a s) /\
    heap_part (t :: ex) q sz c (stored q pos a s) /\ forall i, 0 <= i -> key (stored q pos a s) q i = put (key s q) pos (key s q c) i.
Proof.
  intros (H & Hg & Hp) Hc Hne Ea. destruct (hp_room _ _ _ _ _ H) as (ts & Eq & Hsz). destruct (hp_slot _ _ _ _ _ H c Hc Hne) as (a' & x & E1 & T1 & _ & Hx & _).
  rewrite Ea in E1. injection E1 as <-. assert (0 <= pos < zlen (heap_slots ts)) as Hr by lia. exists ts, x. do 3 (split; [done|]).
  split; [by apply (stored_moved q pos a s ts x)|]. split; [by apply hole_move|]. intros i Hi. rewrite (stored_key q pos a s ts x) by done. unfold key at 3. by rewrite Ea.
Qed.

Lemma sink_wp t fuel : forall pos s, has_gap t pos s -> waiting t s -> parent_below s pos (due s t) -> (Z.to_nat (sz - pos) < fuel)%nat ->
  wp (sink fuel q sz t pos) (fun pos' s' => has_gap t pos' s' /\ parent_below s' pos' (due s t) /\ children_above s' pos' (due s t) /\ moved q s s') s.
Proof.
  induction fuel as [|fuel IH]; intros pos s Hs Hw Hpar Hf; [lia|]. pose proof Hs as (H & Hg & Hp). cbn [sink]. cbv zeta. rewrite Z.shiftl_mul_pow2 by lia. change (2 ^ 1) with 2.
  destruct (Z.leb_spec (pos * 2) sz) as [Hl|Hl].
  2: { apply wp_ret. split; [done|]. split; [done|]. split; [intros i Hi Ei; zlia|apply moved_refl]. }
  apply wp_bind. assert (forall b : bool, (b = true -> pos * 2 + 1 <= sz /\ key s q (pos * 2 + 1) < key s q (pos * 2)) -> (b = false -> pos * 2 + 1 <= sz -> key s q (pos * 2) <= key s q (pos * 2 + 1)) ->
    wp (c <- heap_at q (if b then pos * 2 + 1 else pos * 2);; ec <- expires_of c;; et <- expires_of t;; if et <? ec then ret pos
        else heap_put q pos c;; set_heap_offset c pos;; sink fuel q sz t (if b then pos * 2 + 1 else pos * 2))
      (fun pos' s' => has_gap t pos' s' /\ parent_below s' pos' (due s t) /\ children_above s' pos' (due s t) /\ moved q s s') s) as Hrest.
  { intros b Hb1 Hb2. set (c := if b then pos * 2 + 1 else pos * 2). assert (1 <= c <= sz /\ c <> pos /\ c / 2 = pos /\ pos < c) as (Hc & Hne & Hc2 & Hlt) by (unfold c; destruct b; [destruct (Hb1 eq_refl)|]; zlia).
    assert (forall i, 2 <= i <= sz -> i / 2 = pos -> key s q c <= key s q i) as Hmin.
    { intros i Hi Ei. assert (i = pos * 2 \/ i = pos * 2 + 1) as [->| ->] by zlia; unfold c; destruct b; [destruct (Hb1 eq_refl); lia|lia|lia|apply Hb2; [done|lia]]. }
    apply (key_wp pos s c _ _ (t :: ex)); [done..|]. intros a Ea Ek. destruct Hw as [Hex (x & Ex & Hx)]. apply wp_bind, (expires_wp s t x); [done|].
    destruct (Z.ltb_spec (due s t) (key s q c)) as [Hd|Hd].
    - apply wp_ret. split; [done|]. split; [done|]. split; [intros i Hi Ei; specialize (Hmin i Hi Ei); lia|apply moved_refl].
    - destruct (gap_moved t pos c a s Hs Hc Hne Ea) as (ts & y & Eq & Ey & Hr & Hm & Hh & Hk). apply (store_wp q pos a s ts y Eq Ey Hr).
      set (s1 := stored q pos a s) in *. assert (due s1 t = due s t) as Ed by (by apply (moved_due q)).
      eapply wp_mono; [apply (IH c s1)|].
      + split; [done|]. split; [|done]. eapply gap_ext; [|apply (gap_down _ sz pos c Hg); [lia|zlia|done|exact Hmin]]. intros i Hi _. symmetry. apply Hk. lia.
      + apply (waiting_moved t s); [split; [done|by exists x]|done].
      + intros _. rewrite Hc2, Hk, put_eq by lia. by rewrite Ed.
      + zlia.
      + rewrite Ed. intros pos' s' (R1 & R2 & R3 & R4). split; [done|]. split; [done|]. split; [done|]. by apply (moved_trans q s s1). }
  destruct (Z.leb_spec (pos * 2 + 1) sz) as [Hr|Hr].
  - apply (key_wp pos s _ _ _ (t :: ex)); [done|lia|lia|]. intros b Eb Ekb. apply (key_wp pos s _ _ _ (t :: ex)); [done|lia|lia|]. intros a Ea Eka. apply wp_ret.
    apply Hrest; [rewrite Z.ltb_lt; done|rewrite Z.ltb_ge; done].
  - apply wp_ret. apply (Hrest false); [done|lia].
Qed.

Lemma float_wp t fuel : forall pos s, has_gap t pos s -> waiting t s -> children_above s pos (due s t) -> (Z.to_nat pos < fuel)%nat ->
  wp (float fuel q t pos) (fun pos' s' => has_gap t pos' s' /\ parent_below s' pos' (due s t) /\ children_above s' pos' (due s t) /\ moved q s s') s.
Proof.
  induction fuel as [|fuel IH]; intros pos s Hs Hw Hch Hf; [lia|]. pose proof Hs as (H & Hg & Hp). cbn [float]. rewrite Z.shiftr_div_pow2 by lia. change (2 ^ 1) with 2.
  destruct (Z.ltb_spec 1 pos) as [Hl|Hl].
  2: { apply wp_ret. split; [done|]. split; [intros Hp2; lia|]. split; [done|apply moved_refl]. }
  pose proof (half_lt pos ltac:(lia)) as Hh. destruct (hp_slot _ _ _ _ _ H (pos / 2) ltac:(lia) ltac:(lia)) as (a & y & Ea & Ey & _). assert (key s q (pos / 2) = due s a) as Ek by (unfold key; by rewrite Ea).
  apply wp_bind, (heap_at_wp s q _ a); [done|]. destruct Hw as [Hex (x & Ex & Hx)]. apply wp_bind, (expires_wp s t x); [done|]. apply wp_bind, (expires_wp s a y); [done|].
  rewrite <- Ek. destruct (Z.ltb_spec (due s t) (key s q (pos / 2))) as [Hd|Hd].
  2: { apply wp_ret. split; [done|]. split; [intros _; lia|]. split; [done|apply moved_refl]. }
  destruct (gap_moved t pos (pos / 2) a s Hs ltac:(lia) ltac:(lia) Ea) as (ts & y' & Eq & Ey' & Hr & Hm & Hh' & Hk). apply (store_wp q pos a s ts y' Eq Ey' Hr).
  set (s1 := stored q pos a s) in *. assert (due s1 t = due s t) as Ed by (by apply (moved_due q)).
  eapply wp_mono; [apply (IH (pos / 2) s1)|].
  - split; [done|]. split; [|lia]. eapply gap_ext; [|apply (gap_up _ sz pos Hg); lia]. intros i Hi _. symmetry. apply Hk. lia.
  - apply (waiting_moved t s); [split; [done|by exists x]|done].
  - intros i Hi Ei. rewrite Hk, Ed by lia. apply (gap_up_children _ sz); (done || lia).
  - lia.
  - rewrite Ed. intros pos' s' (R1 & R2 & R3 & R4). split; [done|]. split; [done|]. split; [done|]. by apply (moved_trans q s s1).
Qed.

(** The timer is put where the loop has stopped. *)
Lemma host_settle_wp t pos s : has_gap t pos s -> waiting t s -> parent_below s pos (due s t) -> children_above s pos (due s t) ->
  wp (heap_put q pos t;; set_heap_offset t pos) (fun _ s' => heap_part ex q sz 0 s' /\ ordered (key s' q) sz /\ moved q s s') s.
Proof.
  intros (H & Hg & Hp) [Hex (x & Ex & Hx)] Hpar Hch. destruct (hp_room _ _ _ _ _ H) as (ts & Eq & Hsz). assert (0 <= pos < zlen (heap_slots ts)) as Hr by lia.
  apply wp_bind, (heap_put_wp s q pos t ts); [done|lia|]. apply (upd_timer_wp _ t x); [done|].
  assert (stored q pos t s = with_timer t (set_pos (PosHeap pos) x) (with_queue q (set_heap (heap_size ts) (heap_limit ts) (<[Z.to_nat pos := Some t]> (heap_slots ts)) ts) s)) as <- by (unfold stored; by rewrite Eq, Ex).
  split; [by apply (hole_fill s t x)|]. split; [|by apply (stored_moved q pos t s ts x)].
  eapply ordered_ext; [|apply (gap_fill (key s q) sz pos (due s t)); [done|exact Hpar|exact Hch]]. intros i Hi. symmetry. apply (stored_key q pos t s ts x); (done || lia).
Qed.

Lemma part_waiting s pos t : heap_part ex q sz 0 s -> 1 <= pos <= sz -> slot_of s q pos = Some t -> waiting t s.
Proof. intros H Hp Et. destruct (hp_slot _ _ _ _ _ H pos Hp ltac:(lia)) as (a & x & E1 & T1 & Hex & Hx & _). rewrite Et in E1. injection E1 as <-. split; [done|]. by exists x. Qed.

Lemma down_heap_wp s pos t ts : heap_part ex q sz 0 s -> tqs s !! q = Some ts -> heap_size ts = sz -> 1 <= pos <= sz -> slot_of s q pos = Some t ->
  gap (key s q) sz pos -> parent_below s pos (due s t) ->
  wp (down_heap q pos) (fun _ s' => heap_part ex q sz 0 s' /\ ordered (key s' q) sz /\ moved q s s') s.
Proof.
  intros H Eq Esz Hp Et Hg Hpar. unfold down_heap. apply wp_bind, (queue_wp s q ts); [done|]. apply wp_bind, (heap_at_wp s q pos t); [done|]. rewrite Esz.
  pose proof (part_waiting s pos t H Hp Et) as Hw. apply wp_bind. eapply wp_mono; [apply sink_wp; [split; [by apply hole_open|done]|done|done|lia]|].
  intros pos' s1 (R1 & R2 & R3 & R4). assert (due s1 t = due s t) as Ed by (by apply (moved_due q)). rewrite <- Ed in R2, R3.
  eapply wp_mono; [apply host_settle_wp; [done|by apply (waiting_moved t s)|done|done]|]. intros [] s2 (S1 & S2 & S3). split; [done|]. split; [done|]. by apply (moved_trans q s s1).
Qed.
Lemma up_heap_wp s pos t : heap_part ex q sz 0 s -> 1 <= pos <= sz -> slot_of s q pos = Some t ->
  gap (key s q) sz pos -> children_above s pos (due s t) ->
  wp (up_heap q pos) (fun _ s' => heap_part ex q sz 0 s' /\ ordered (key s' q) sz /\ moved q s s') s.
Proof.
  intros H Hp Et Hg Hch. unfold up_heap. apply wp_bind, (heap_at_wp s q pos t); [done|].
  pose proof (part_waiting s pos t H Hp Et) as Hw. apply wp_bind. eapply wp_mono; [apply float_wp; [split; [by apply hole_open|done]|done|done|lia]|].
  intros pos' s1 (R1 & R2 & R3 & R4). assert (due s1 t = due s t) as Ed by (by apply (moved_due q)). rewrite <- Ed in R2, R3.
  eapply wp_mono; [apply host_settle_wp; [done|by apply (waiting_moved t s)|done|done]|]. intros [] s2 (S1 & S2 & S3). split; [done|]. split; [done|]. by apply (moved_trans q s s1).
Qed.
End Hole.

(** ** Another size *)

Definition resize (q : queue) (n : Z) (s : tsys) : tsys :=
  match tqs s !! q with Some ts => with_queue q (set_heap n (heap_limit ts) (heap_slots ts) ts) s | None => s end.

Lemma resize_wp q n s ts (Q : unit -> tsys -> Prop) : tqs s !! q = Some ts -> 0 <= n < 2 ^ 16 -> Q tt (resize q n s) -> wp (SET_HEAP_SIZE q n) Q s.
Proof. intros E Hn HQ. unfold SET_HEAP_SIZE. apply (upd_queue_wp s q ts); [done|]. unfold resize in HQ. rewrite E in HQ. unfold u16. by rewrite Z.mod_small. Qed.
Lemma resize_queue q n s ts : tqs s !! q = Some ts -> tqs (resize q n s) !! q = Some (set_heap n (heap_limit ts) (heap_slots ts) ts).
Proof. intros E. unfold resize. rewrite E. apply with_queue_eq. Qed.
Lemma resize_other q n s q' : q' <> q -> tqs (resize q n s) !! q' = tqs s !! q'.
Proof. intros H. unfold resize. destruct (tqs s !! q); [|done]. by rewrite with_queue_ne. Qed.
Lemma resize_rest q n s : tms (resize q n s) = tms s /\ t_reads (resize q n s) = t_reads s /\ t_log (resize q n s) = t_log s.
Proof. unfold resize. by destruct (tqs s !! q). Qed.
Lemma resize_slot q n s q' i : slot_of (resize q n s) q' i = slot_of s q' i.
Proof.
  unfold slot_of. destruct (decide (q' = q)) as [->|Hne]; [|by rewrite resize_other]. destruct (tqs s !! q) as [ts|] eqn:E; [by rewrite (resize_queue q n s ts)|].
  unfold resize. by rewrite E, E.
Qed.
Lemma resize_key q n s q' i : key (resize q n s) q' i = key s q' i.
Proof. unfold key, due. rewrite resize_slot. by rewrite (proj1 (resize_rest q n s)). Qed.
Lemma resize_part ex q sz hole n s : heap_part ex q sz hole s -> heap_part ex q sz hole (resize q n s).
Proof.
  intros [(ts & E & H) H1 H2]. split.
  - eexists. split; [by apply resize_queue|done].
  - intros i. rewrite resize_slot, (proj1 (resize_rest q n s)). apply H1.
  - intros a x. rewrite (proj1 (resize_rest q n s)). intros A B C. destruct (H2 a x A B C) as (i & I1 & I2 & I3 & I4). exists i. by rewrite resize_slot.
Qed.
Lemma resize_moved q n s s' : moved q s s' -> moved q (resize q n s) (resize q n s').
Proof.
  intros [[A1 A1'] A2 A3 A4 A5]. pose proof (resize_rest q n s) as (R1 & R2 & R3). pose proof (resize_rest q n s') as (R1' & R2' & R3'). split.
  - by rewrite R2, R3, R2', R3'.
  - intros q' Hne. by rewrite !resize_other, A2.
  - intros ts Ets. destruct (tqs s !! q) as [ts0|] eqn:E; [|unfold resize in Ets; rewrite E in Ets; congruence]. rewrite (resize_queue q n s ts0 E) in Ets. injection Ets as <-.
    destruct (A3 ts0 eq_refl) as (l & E1 & L1). exists l. by rewrite (resize_queue _ _ _ _ E1).
  - intros t x. rewrite R1, R1'. apply A4.
  - by rewrite R1, R1'.
Qed.

(** ** Removal and addition *)

(** The heap of [q] fits its array and is in order. *)
Definition heap_fits (q : queue) (sz : Z) (s : tsys) : Prop :=
  exists ts, tqs s !! q = Some ts /\ heap_size ts = sz /\ 0 <= sz <= heap_limit ts /\ heap_limit ts < 2 ^ 16 /\ heap_limit ts < zlen (heap_slots ts).
Definition heap_ok (ex : list nat) (q : queue) (sz : Z) (s : tsys) : Prop := heap_part ex q sz 0 s /\ ordered (key s q) sz /\ heap_fits q sz s.

Lemma moved_fits q n s s' ts : tqs s !! q = Some ts -> 0 <= n <= heap_limit ts -> heap_limit ts < 2 ^ 16 -> heap_limit ts < zlen (heap_slots ts) ->
  moved q (resize q n s) s' -> heap_fits q n s'.
Proof.
  intros E H1 H2 H3 Hm. destruct (mv_own _ _ _ Hm _ (resize_queue q n s ts E)) as (l & El & Ll). eexists. split; [exact El|]. cbn in *. unfold zlen in *. rewrite Ll. lia.
Qed.

(** The last timer leaves; the rest of the heap is as it was. *)
Lemma last_part ex q sz s t : heap_part ex q sz 0 s -> 1 <= sz -> slot_of s q sz = Some t -> heap_part (t :: ex) q (sz - 1) 0 s.
Proof.
  intros H Hsz Et. pose proof (hole_open ex q sz s sz t H ltac:(lia) Et) as [(ts & E & Hr) H1 H2]. split.
  - exists ts. split; [done|lia].
  - intros i Hi _. apply H1; lia.
  - intros a x Ea Hex Hx. destruct (H2 a x Ea Hex Hx) as (i & Hi & Hne & Hs & Hpos). exists i. split; [lia|]. split; [lia|done].
Qed.

(** The last timer takes the place of [t]. *)
Lemma swap_part ex q sz s t pos a : heap_part ex q sz 0 s -> 1 <= pos < sz -> slot_of s q pos = Some t -> slot_of s q sz = Some a ->
  heap_part (t :: ex) q (sz - 1) 0 (stored q pos a s).
Proof.
  intros H Hp Et Ea. pose proof (hole_move ex q sz s t pos sz a (hole_open ex q sz s pos t H ltac:(lia) Et) ltac:(lia) ltac:(lia) ltac:(lia) Ea) as [(ts & E & Hr) H1 H2]. split.
  - exists ts. split; [done|lia].
  - intros i Hi _. apply H1; lia.
  - intros b x Eb Hex Hx. destruct (H2 b x Eb Hex Hx) as (i & Hi & Hne & Hs & Hpos). exists i. split; [lia|]. split; [lia|done].
Qed.

(** Order around the slot that the last timer has taken *)
Lemma swap_gap ex q sz s t pos a : heap_part ex q sz 0 s -> ordered (key s q) sz -> 1 <= pos < sz -> slot_of s q pos = Some t -> slot_of s q sz = Some a ->
  exists ts x, tqs s !! q = Some ts /\ tms s !! a = Some x /\ 0 <= pos < zlen (heap_slots ts) /\ moved q s (stored q pos a s) /\
    gap (key (stored q pos a s) q) (sz - 1) pos /\ slot_of (stored q pos a s) q pos = Some a.
Proof.
  intros H Ho Hp Et Ea. assert (has_gap ex q sz t pos s) as Hg by (split; [by apply hole_open; (done || lia)|split; [by apply ordered_gap|lia]]).
  destruct (gap_moved ex q sz t pos sz a s Hg ltac:(lia) ltac:(lia) Ea) as (ts & x & Eq & Ex & Hr & Hm & _ & Hk). exists ts, x. do 4 (split; [done|]).
  split; [|rewrite (stored_slot q pos a s ts x) by (done || lia); by rewrite Z.eqb_refl].
  eapply gap_ext; [|apply (gap_less _ sz (sz - 1) pos); [lia|apply Hg]]. intros i Hi Hne. rewrite Hk, put_ne by lia. done.
Qed.

Lemma remove_from_heap_wp ex q sz s t x : heap_ok ex q sz s -> tms s !! t = Some x -> in_heap_of q x -> t ∉ ex ->
  wp (remove_from_heap q t) (fun b s' => heap_ok (t :: ex) q (sz - 1) s' /\ moved q (resize q (sz - 1) s) s' /\ (b = true <-> slot_of s q 1 = Some t)) s.
Proof.
  intros (H & Ho & ts & Eq & Esz & Hlim & H16 & Hlen) Ex Hx Hex. destruct (hp_timer _ _ _ _ _ H t x Ex Hex Hx) as (pos & Hp & _ & Et & Epos).
  unfold remove_from_heap. apply wp_bind, (queue_wp s q ts); [done|]. cbv zeta. rewrite Esz. apply wp_bind, (heap_offset_wp s t x pos); [done|done|].
  apply wp_bind. apply (wp_mono _ (fun _ s' => heap_part (t :: ex) q (sz - 1) 0 s' /\ ordered (key s' q) (sz - 1) /\ moved q (resize q (sz - 1) s) s')).
  2: { intros [] s' (P1 & P2 & P3). apply wp_ret. split; [|split; [done|]].
    - split; [done|]. split; [done|]. apply (moved_fits q _ s s' ts); (done || lia).
    - rewrite Z.eqb_eq. split; [by intros <-|]. intros E1. apply (slot_inj ex q sz 0 s _ _ t H); (done || lia). }
  destruct (Z.eqb_spec pos sz) as [->|Hne].
  - apply (resize_wp q _ s ts); [done|lia|]. split; [by apply resize_part, last_part; (done || lia)|]. split; [|apply moved_refl].
    eapply ordered_ext; [intros i _; symmetry; apply resize_key|]. by apply (ordered_less _ sz); [lia|].
  - destruct (hp_slot _ _ _ _ _ H sz ltac:(lia) ltac:(lia)) as (a & y & Ea & _). apply wp_bind, (heap_at_wp s q sz a); [done|].
    destruct (swap_gap ex q sz s t pos a H Ho ltac:(lia) Et Ea) as (ts' & y' & Eq' & Ey & Hr & Hm & Hg & Hs1). rewrite Eq in Eq'. injection Eq' as <-.
    apply (store_wp q pos a s ts y' Eq Ey Hr). pose proof (swap_part ex q sz s t pos a H ltac:(lia) Et Ea) as Hpart. set (s1 := stored q pos a s) in *.
    apply wp_bind. eapply (resize_wp q _ s1); [by apply (stored_queue q pos a s ts y')|lia|]. apply (resize_part _ _ _ _ (sz - 1)) in Hpart.
    apply (resize_moved q (sz - 1)) in Hm. set (s2 := resize q (sz - 1) s1) in *. assert (forall i, key s2 q i = key s1 q i) as Ek by (intros; apply resize_key).
    assert (gap (key s2 q) (sz - 1) pos) as Hg2 by (eapply gap_ext; [|exact Hg]; intros; by rewrite Ek). rewrite <- (resize_slot q (sz - 1)) in Hs1. fold s2 in Hs1.
    assert (key s2 q pos = due s2 a) as Eka by (unfold key; by rewrite Hs1).
    apply wp_bind. apply (wp_mono _ (fun (b : bool) s' => s' = s2 /\ (b = true -> 2 <= pos /\ due s2 a < key s2 q (pos / 2)) /\ (b = false -> parent_below q s2 pos (due s2 a)))).
    { destruct (Z.ltb_spec 1 pos) as [Hl|Hl]; [|apply wp_ret; split; [done|]; split; [done|]; intros _ H2; lia]. pose proof (half_lt pos ltac:(lia)).
      rewrite Z.shiftr_div_pow2 by lia. apply (key_wp q (sz - 1) 0 s2 pos _ _ (t :: ex)); [done|lia|lia|]. intros c _ _. apply (key_wp q (sz - 1) 0 s2 (pos / 2) _ _ (t :: ex)); [done|lia|lia|]. intros p _ _.
      apply wp_ret. split; [done|]. rewrite Z.ltb_lt, Z.ltb_ge, Eka. split; [lia|]. intros Hge _. lia. }
    intros up s' (-> & Hup & Hdown). destruct up.
    + destruct (Hup eq_refl) as [Hp2 Hlt]. eapply wp_mono; [apply (up_heap_wp (t :: ex) q (sz - 1) s2 pos a); [done|lia|done|done|]|].
      * intros i Hi Ei. pose proof (proj2 Hg2 i Hi Ei Hp2). lia.
      * intros [] s3 (P1 & P2 & P3). split; [done|]. split; [done|]. by apply (moved_trans q _ s2).
    + eapply wp_mono; [eapply (down_heap_wp (t :: ex) q (sz - 1) s2 pos a); [done|by apply resize_queue, (stored_queue q pos a s ts y')|done|lia|done|done|by apply Hdown]|].
      intros [] s3 (P1 & P2 & P3). split; [done|]. split; [done|]. by apply (moved_trans q _ s2).
Qed.

(** The slot behind the heap is free. *)
Lemma next_part ex q sz s t ts : heap_part (t :: ex) q sz 0 s -> tqs s !! q = Some ts -> sz + 1 < zlen (heap_slots ts) -> heap_part (t :: ex) q (sz + 1) (sz + 1) s.
Proof.
  intros [(ts' & E' & Hr) H1 H2] E Hl. rewrite E in E'. injection E' as <-. split.
  - exists ts. split; [done|lia].
  - intros i Hi Hne. apply H1; lia.
  - intros a x Ea Hex Hx. destruct (H2 a x Ea Hex Hx) as (i & Hi & Hne & Hs & Hpos). exists i. split; [lia|]. split; [lia|done].
Qed.

Lemma add_to_heap_wp ex q sz s t x ts : heap_ok (t :: ex) q sz s -> tqs s !! q = Some ts -> tms s !! t = Some x -> in_heap_of q x -> t ∉ ex ->
  wp (add_to_heap q t) (fun b s' => (sz = heap_limit ts /\ b = false /\ s' = s) \/
    (sz < heap_limit ts /\ heap_ok ex q (sz + 1) s' /\ moved q (resize q (sz + 1) s) s' /\ (b = true <-> slot_of s' q 1 = Some t))) s.
Proof.
  intros (H & Ho & ts' & Eq' & Esz & Hlim & H16 & Hlen) Eq Ex Hx Hex. rewrite Eq in Eq'. injection Eq' as <-.
  unfold add_to_heap. apply wp_bind, (queue_wp s q ts); [done|]. cbv zeta. rewrite Esz. destruct (Z.eqb_spec sz (heap_limit ts)) as [E|Hne]; [apply wp_ret; by left|].
  apply wp_bind, (resize_wp q _ s ts); [done|lia|]. set (s1 := resize q (sz + 1) s). pose proof (resize_queue q (sz + 1) s ts Eq) as Eq1. fold s1 in Eq1.
  assert (tms s1 !! t = Some x) as Ex1 by (unfold s1; by rewrite (proj1 (resize_rest q (sz + 1) s))).
  pose proof (next_part ex q sz s1 t _ (resize_part _ _ _ _ (sz + 1) _ H) Eq1 ltac:(cbn; lia)) as Hn.
  eapply (store_wp q (sz + 1) t s1 _ x Eq1 Ex1); [cbn; lia|]. pose proof (hole_fill ex q (sz + 1) s1 t x (sz + 1) Hn ltac:(lia) Ex1 Hx Hex) as Hp.
  assert (forall i, 0 <= i -> key (stored q (sz + 1) t s1) q i = put (key s q) (sz + 1) (due s t) i) as Hk.
  { intros i Hi. rewrite (stored_key q (sz + 1) t s1 _ x Eq1 Ex1) by (done || cbn; lia). unfold put. destruct (i =? sz + 1); [unfold s1, due; by rewrite (proj1 (resize_rest q (sz + 1) s))|apply resize_key]. }
  pose proof (stored_moved q (sz + 1) t s1 _ x Eq1 Ex1 Hx) as Hm1.
  assert (slot_of (stored q (sz + 1) t s1) q (sz + 1) = Some t) as Hs2 by (rewrite (stored_slot q (sz + 1) t s1 _ x Eq1 Ex1) by (cbn; lia); by rewrite Z.eqb_refl).
  set (s2 := stored q (sz + 1) t s1) in *. apply wp_bind. eapply wp_mono; [apply (up_heap_wp ex q (sz + 1) s2 (sz + 1) t); [done|lia|done| |]|].
  - split; intros i Hi; [intros Hi1 Hi2|intros Hi2; zlia]. pose proof (half_lt i ltac:(lia)). rewrite !Hk, !put_ne by lia. apply Ho. lia.
  - intros i Hi Hi2. zlia.
  - intros [] s3 (P1 & P2 & P3). pose proof (moved_trans q s1 s2 s3 Hm1 P3) as Hm3. destruct (mv_timers _ _ _ Hm3 t x Ex1) as (p & Ex3 & _).
    destruct (hp_timer _ _ _ _ _ P1 t _ Ex3 Hex Hx) as (i & Hi & _ & Ei & Epos). apply wp_bind, (heap_offset_wp s3 t _ i _ Ex3 Epos), wp_ret. right.
    split; [lia|]. split; [split; [done|split; [done|apply (moved_fits q _ s s3 ts); (done || lia)]]|]. split; [done|].
    rewrite Z.eqb_eq. split; [by intros <-|]. intros E1. apply (slot_inj ex q (sz + 1) 0 s3 _ _ t P1); (done || lia).
Qed.
