(* ===== verification/HostTimerInv.v ===== *)
(** * The queues of timers: the invariant and the parts of the operations *)

From stdpp Require Import base list numbers gmap sorting.
From Stdlib Require Import ZArith Lia.
From S2P Require Import Prelude HostTimer HostHeap.

Open Scope Z_scope.
Open Scope se_scope.

(** ** Invariant

    Every timer is in exactly the structure its status says, of the queue its
    type and place say; the timers of [ex] are in none. *)

Definition has (st : tstatus) (q : queue) (ex : list nat) (s : tsys) (t : nat) (x : timer) : Prop :=
  tms s !! t = Some x /\ (t ∉ ex) /\ t_status x = st /\ queue_of x = q.

(** The timer can be found: it is of a type, has not been killed, and its queue
    exists. *)
Record live (x : timer) (s : tsys) : Prop := {
  lv_type : t_type x = TIMER_TYPE_cpu \/ t_type x = TIMER_TYPE_vcpu;
  lv_alive : is_killed x = false;
  lv_queue : is_Some (tqs s !! queue_of x)
}.
Definition timer_ok (x : timer) (s : tsys) : Prop :=
  match t_status x with
  | TIMER_STATUS_invalid => t_type x = 0
  | TIMER_STATUS_inactive => live x s /\ t_pos x = PosInactive (queue_of x)
  | TIMER_STATUS_killed => (t_type x = TIMER_TYPE_cpu \/ t_type x = TIMER_TYPE_vcpu) /\ is_killed x = true
  | TIMER_STATUS_in_heap => live x s
  | TIMER_STATUS_in_list => live x s /\ t_pos x = PosList
  end.

Definition listed (st : tstatus) (q : queue) (l : list nat) (ex : list nat) (s : tsys) : Prop :=
  NoDup l /\ (forall t, t ∈ l -> exists x, has st q ex s t x) /\ (forall t x, has st q ex s t x -> t ∈ l).
Definition by_deadline (s : tsys) (l : list nat) : Prop := StronglySorted (fun a b => due s a <= due s b) l.

Record queue_ok (ex : list nat) (s : tsys) (q : queue) (ts : timers) : Prop := {
  qo_heap : heap_ok ex q (heap_size ts) s;
  qo_list : listed TIMER_STATUS_in_list q (tq_list ts) ex s /\ by_deadline s (tq_list ts);
  qo_inactive : listed TIMER_STATUS_inactive q (tq_inactive ts) ex s
}.
Record sys_ok (ex : list nat) (s : tsys) : Prop := {
  so_queues : forall q ts, tqs s !! q = Some ts -> queue_ok ex s q ts;
  so_timers : forall t x, tms s !! t = Some x -> t ∉ ex -> timer_ok x s;
  so_loose : forall t, t ∈ ex -> exists x, tms s !! t = Some x /\ live x s
}.

(** ** What does not change *)

Definition same_members (st : tstatus) (q : queue) (ex : list nat) (s : tsys) (ex' : list nat) (s' : tsys) : Prop :=
  (forall t x, has st q ex s t x -> exists x', has st q ex' s' t x' /\ t_pos x' = t_pos x /\ expires x' = expires x) /\
  (forall t x', has st q ex' s' t x' -> exists x, has st q ex s t x).

Lemma same_refl st q ex s : same_members st q ex s ex s.
Proof. split; [intros t x H; by exists x|intros t x H; by exists x]. Qed.

Lemma has_due st q ex s ex' s' t : same_members st q ex s ex' s' -> (exists x, has st q ex s t x) -> due s' t = due s t.
Proof. intros [H _] [x Hx]. destruct (H t x Hx) as (x' & [E' _] & _ & E). unfold due. destruct Hx as [E0 _]. by rewrite E', E0. Qed.

Lemma listed_ext st q l ex s ex' s' : same_members st q ex s ex' s' -> listed st q l ex s -> listed st q l ex' s'.
Proof.
  intros [H1 H2] (A & B & C). split; [done|]. split.
  - intros t Ht. destruct (B t Ht) as [x Hx]. destruct (H1 t x Hx) as (x' & Hx' & _). eauto.
  - intros t x' Hx'. destruct (H2 t x' Hx') as [x Hx]. by apply (C t x).
Qed.
Lemma sorted_ext s s' l : (forall t, t ∈ l -> due s' t = due s t) -> by_deadline s l -> by_deadline s' l.
Proof.
  intros E H. unfold by_deadline in *. induction H as [|a l Hs IH Ha]; [constructor|]. constructor.
  - apply IH. intros t Ht. apply E. by right.
  - rewrite !list.Forall_forall in *. intros b Hb. rewrite !E by (by constructor). by apply Ha.
Qed.
Lemma list_ext q l ex s ex' s' : same_members TIMER_STATUS_in_list q ex s ex' s' -> listed TIMER_STATUS_in_list q l ex s /\ by_deadline s l ->
  listed TIMER_STATUS_in_list q l ex' s' /\ by_deadline s' l.
Proof.
  intros H [Hl Hs]. split; [by apply (listed_ext _ q l ex s)|]. apply (sorted_ext s); [|done]. intros t Ht. destruct Hl as (_ & B & _). exact (has_due _ q ex s ex' s' t H (B t Ht)).
Qed.

Lemma heap_ext q sz ex s ex' s' ts ts' : same_members TIMER_STATUS_in_heap q ex s ex' s' -> tqs s !! q = Some ts -> tqs s' !! q = Some ts' ->
  heap_size ts' = heap_size ts -> heap_limit ts' = heap_limit ts -> heap_slots ts' = heap_slots ts -> heap_ok ex q sz s -> heap_ok ex' q sz s'.
Proof.
  intros Hm E E' F1 F2 F3 (Hp & Ho & ts0 & E0 & G). rewrite E in E0. injection E0 as <-.
  assert (forall i, slot_of s' q i = slot_of s q i) as Es by (intros i; unfold slot_of; by rewrite E, E', F3).
  assert (forall i, 1 <= i <= sz -> key s' q i = key s q i) as Ek.
  { intros i Hi. destruct (hp_slot _ _ _ _ _ Hp i Hi ltac:(lia)) as (a & x & A1 & A2 & A3 & [A4 A5] & _). unfold key. rewrite Es, A1. exact (has_due _ q ex s ex' s' a Hm (ex_intro _ x (conj A2 (conj A3 (conj A4 A5))))). }
  split; [split|split].
  - exists ts'. destruct (hp_room _ _ _ _ _ Hp) as (ts0 & E0 & Hr). rewrite E in E0. injection E0 as <-. by rewrite F3.
  - intros i Hi Hne. destruct (hp_slot _ _ _ _ _ Hp i Hi Hne) as (a & x & A1 & A2 & A3 & [A4 A5] & A6).
    destruct (proj1 Hm a x) as (x' & (B1 & B2 & B3 & B4) & B5 & _); [done|]. exists a, x'. rewrite Es. split; [done|]. split; [done|]. split; [done|]. split; [done|congruence].
  - intros a x' A1 A2 [A3 A4]. destruct (proj2 Hm a x') as (x & Hx); [done|]. destruct (proj1 Hm a x Hx) as (x'' & (B1 & _) & B5 & _). destruct Hx as (C1 & C2 & C3 & C4).
    destruct (hp_timer _ _ _ _ _ Hp a x C1 C2 (conj C3 C4)) as (i & Hi & Hne & D1 & D2). exists i. rewrite Es. split; [done|]. split; [done|]. split; [done|congruence].
  - eapply ordered_ext; [|exact Ho]. intros i Hi. symmetry. by apply Ek.
  - exists ts'. rewrite F1, F2, F3. done.
Qed.

(** A queue none of whose structures changes *)
Lemma queue_ext q ex s ex' s' ts ts' : tqs s !! q = Some ts -> tqs s' !! q = Some ts' -> (forall st, same_members st q ex s ex' s') ->
  heap_size ts' = heap_size ts -> heap_limit ts' = heap_limit ts -> heap_slots ts' = heap_slots ts -> tq_list ts' = tq_list ts -> tq_inactive ts' = tq_inactive ts ->
  queue_ok ex s q ts -> queue_ok ex' s' q ts'.
Proof.
  intros E E' Hm F1 F2 F3 F4 F5 [A B C]. split.
  - rewrite F1. by apply (heap_ext q _ ex s ex' s' ts ts').
  - rewrite F4. by apply (list_ext q _ ex s).
  - rewrite F5. by apply (listed_ext _ q _ ex s).
Qed.

Lemma live_ext x s s' : (forall q, is_Some (tqs s !! q) -> is_Some (tqs s' !! q)) -> live x s -> live x s'.
Proof. intros H [A B C]. split; [done|done|by apply H]. Qed.
Lemma timer_ok_ext x s s' : (forall q, is_Some (tqs s !! q) -> is_Some (tqs s' !! q)) -> timer_ok x s -> timer_ok x s'.
Proof. intros H. unfold timer_ok. destruct (t_status x); [done| | | |]; intuition eauto using live_ext. Qed.

Lemma with_queue_some q ts s q' : is_Some (tqs s !! q') -> is_Some (tqs (with_queue q ts s) !! q').
Proof. intros H. destruct (decide (q' = q)) as [->|Hne]; [by rewrite with_queue_eq|by rewrite with_queue_ne]. Qed.

(** *** The rest of a queue *)

Lemma rest_ok ex s q ts ts' : sys_ok ex s -> tqs s !! q = Some ts ->
  heap_size ts' = heap_size ts -> heap_limit ts' = heap_limit ts -> heap_slots ts' = heap_slots ts -> tq_list ts' = tq_list ts -> tq_inactive ts' = tq_inactive ts ->
  sys_ok ex (with_queue q ts' s).
Proof.
  intros [A B C] E F1 F2 F3 F4 F5. assert (forall st q', same_members st q' ex s ex (with_queue q ts' s)) as Hm by (intros st q'; exact (same_refl st q' ex s)). split.
  - intros q' ts1. destruct (decide (q = q')) as [<-|Hne].
    + rewrite with_queue_eq. intros [= <-]. apply (queue_ext q ex s ex _ ts ts'); [done|apply with_queue_eq|done..|by apply A].
    + rewrite with_queue_ne by done. intros E1. apply (queue_ext q' ex s ex _ ts1 ts1); [done|by rewrite with_queue_ne|done..|by apply A].
  - intros t x E1 Hex. eapply timer_ok_ext; [|by apply (B t x)]. intros q'. apply with_queue_some.
  - intros t Ht. destruct (C t Ht) as (x & E1 & Hl). exists x. split; [done|]. eapply live_ext; [|done]. intros q'. apply with_queue_some.
Qed.

(** *** A timer that is in no structure *)

Lemma loose_members st q ex s t x : t ∈ ex -> same_members st q ex s ex (with_timer t x s).
Proof.
  intros Ht. split; intros u y (E & Hu & R); exists y; assert (t <> u) by (intros ->; done).
  - split; [|done]. split; [by rewrite with_timer_ne|done].
  - rewrite with_timer_ne in E by done. done.
Qed.
Lemma loose_ok ex s t x' : sys_ok ex s -> t ∈ ex -> live x' s -> sys_ok ex (with_timer t x' s).
Proof.
  intros [A B C] Ht Hl. split.
  - intros q ts E. apply (queue_ext q ex s ex _ ts ts); try done; [|by apply A]. intros st. by apply loose_members.
  - intros u x E Hu. assert (t <> u) by (intros ->; done). rewrite with_timer_ne in E by done. by apply (timer_ok_ext x s), (B u x).
  - intros u Hu. destruct (decide (t = u)) as [<-|Hne]; [|rewrite with_timer_ne by done; destruct (C u Hu) as (x & E & Hx); exists x; split; [done|by apply (live_ext x s)]].
    destruct (C t Ht) as (x & E & _). exists x'. split; [apply with_timer_eq; by apply lookup_lt_Some in E|by apply (live_ext x' s)].
Qed.

(** ** One timer moves *)

(** All timers but [t] are as they were, up to the positions in the heap of [q];
    of the queues only the structures change, and a soft interrupt may be raised. *)
Record near (t : nat) (q : queue) (s s' : tsys) : Prop := {
  nr_timers : forall u x, u <> t -> tms s !! u = Some x -> exists p, tms s' !! u = Some (set_pos p x) /\ (p = t_pos x \/ in_heap_of q x);
  nr_count : length (tms s') = length (tms s)
}.
Definition same_rest (ts ts' : timers) : Prop :=
  heap_limit ts' = heap_limit ts /\ running ts' = running ts /\ suspend_time ts' = suspend_time ts /\ timer_deadline ts' = timer_deadline ts /\
  host_ticks ts' = host_ticks ts /\ (softirq_pending ts = true -> softirq_pending ts' = true).
Record framed (t : nat) (s s' : tsys) : Prop := {
  fr_clock : t_reads s' = t_reads s /\ t_log s' = t_log s;
  fr_timers : forall u x, u <> t -> tms s !! u = Some x -> exists p, tms s' !! u = Some (set_pos p x) /\ (p = t_pos x \/ t_status x = TIMER_STATUS_in_heap);
  fr_count : length (tms s') = length (tms s);
  fr_queues : forall q ts, tqs s !! q = Some ts -> exists ts', tqs s' !! q = Some ts' /\ same_rest ts ts';
  fr_none : forall q, tqs s !! q = None -> tqs s' !! q = None
}.

Lemma same_rest_refl ts : same_rest ts ts.
Proof. by repeat split. Qed.
Lemma same_rest_trans t1 t2 t3 : same_rest t1 t2 -> same_rest t2 t3 -> same_rest t1 t3.
Proof. intros (A1 & A2 & A3 & A4 & A5 & A6) (B1 & B2 & B3 & B4 & B5 & B6). repeat split; try congruence. auto. Qed.
Lemma framed_refl t s : framed t s s.
Proof.
  split; [done| |done| |done].
  - intros u x _ E. exists (t_pos x). rewrite set_pos_same. auto.
  - intros q ts E. exists ts. split; [done|apply same_rest_refl].
Qed.
Lemma framed_trans t s1 s2 s3 : framed t s1 s2 -> framed t s2 s3 -> framed t s1 s3.
Proof.
  intros [[A1 A1'] A2 A3 A4 A5] [[B1 B1'] B2 B3 B4 B5]. split; [split; congruence| |congruence| |auto].
  - intros u x Hu E. destruct (A2 u x Hu E) as (p & E1 & Hp). destruct (B2 u _ Hu E1) as (p' & E2 & Hp'). exists p'. split; [done|]. cbn in Hp'. destruct Hp' as [->|]; auto.
  - intros q ts E. destruct (A4 q ts E) as (ts1 & E1 & R1). destruct (B4 q ts1 E1) as (ts2 & E2 & R2). exists ts2. split; [done|by apply (same_rest_trans _ ts1)].
Qed.
Lemma framed_some t s s' q : framed t s s' -> is_Some (tqs s !! q) -> is_Some (tqs s' !! q).
Proof. intros H [ts E]. destruct (fr_queues _ _ _ H q ts E) as (ts' & E' & _). by exists ts'. Qed.

Lemma framed_timer t x s : framed t s (with_timer t x s).
Proof.
  split; [done| |apply length_insert|intros q ts E; exists ts; split; [done|apply same_rest_refl]|done].
  intros u y Hu E. exists (t_pos y). rewrite set_pos_same, with_timer_ne by done. auto.
Qed.
Lemma framed_queue t q ts ts' s : tqs s !! q = Some ts -> same_rest ts ts' -> framed t s (with_queue q ts' s).
Proof.
  intros E R. split; [done| |done| |].
  - intros u x _ Eu. exists (t_pos x). rewrite set_pos_same. auto.
  - intros q' ts0 E0. destruct (decide (q = q')) as [<-|Hne]; [rewrite with_queue_eq; exists ts'; split; [done|congruence]|rewrite with_queue_ne by done; exists ts0; split; [done|apply same_rest_refl]].
  - intros q' E0. rewrite with_queue_ne by congruence. done.
Qed.
Lemma framed_moved t q n s s' : is_Some (tqs s !! q) -> moved q (resize q n s) s' -> framed t s s'.
Proof.
  intros [ts E] [[A1 A1'] A2 A3 A4 A5]. pose proof (resize_rest q n s) as (R1 & R2 & R3). rewrite R1, R2, R3 in *. split; [done| |done| |].
  - intros u x _ Eu. destruct (A4 u x Eu) as (p & E' & [Hp|[Hp _]]); exists p; auto.
  - intros q' ts0 E0. destruct (decide (q' = q)) as [->|Hne].
    + destruct (A3 _ (resize_queue q n s ts0 E0)) as (l & El & _). eexists. split; [exact El|]. by repeat split.
    + rewrite A2, resize_other by done. exists ts0. split; [done|apply same_rest_refl].
  - intros q' E0. rewrite A2 by congruence. rewrite resize_other by congruence. done.
Qed.

Lemma near_timer t x s q : near t q s (with_timer t x s).
Proof. split; [|apply length_insert]. intros u y Hu E. exists (t_pos y). rewrite set_pos_same, with_timer_ne by done. auto. Qed.
Lemma near_moved t q n s s' : moved q (resize q n s) s' -> near t q s s'.
Proof. intros [_ _ _ A4 A5]. rewrite (proj1 (resize_rest q n s)) in A4, A5. split; [|done]. intros u x _ E. by apply A4. Qed.
Lemma near_back t q s s' u x' : near t q s s' -> u <> t -> tms s' !! u = Some x' -> exists x p, tms s !! u = Some x /\ x' = set_pos p x /\ (p = t_pos x \/ in_heap_of q x).
Proof.
  intros [H L] Hu E'. destruct (lookup_lt_is_Some_2 (tms s) u) as [x E]; [rewrite <- L; by apply lookup_lt_Some in E'|].
  destruct (H u x Hu E) as (p & E1 & Hp). exists x, p. split; [done|]. split; [congruence|done].
Qed.

(** Structures that the timer neither leaves nor enters *)
Lemma near_members t q st q' ex ex' s s' : near t q s s' -> (st <> TIMER_STATUS_in_heap \/ q' <> q) -> (forall u, u <> t -> u ∈ ex <-> u ∈ ex') ->
  (forall x, ~ has st q' ex s t x) -> (forall x, ~ has st q' ex' s' t x) -> same_members st q' ex s ex' s'.
Proof.
  intros Hn Hne Hex H0 H1. split; intros u x Hu.
  - destruct (decide (u = t)) as [->|Hut]; [by destruct (H0 x)|]. destruct Hu as (A1 & A2 & A3 & A4). destruct (nr_timers _ _ _ _ Hn u x Hut A1) as (p & E & [->|[B1 B2]]).
    + rewrite set_pos_same in E. exists x. split; [|done]. split; [done|]. split; [by rewrite <- Hex|done].
    + destruct Hne; congruence.
  - destruct (decide (u = t)) as [->|Hut]; [by destruct (H1 x)|]. destruct Hu as (A1 & A2 & A3 & A4). destruct (near_back _ _ _ _ u x Hn Hut A1) as (y & p & E & -> & _).
    exists y. split; [done|]. split; [by rewrite Hex|done].
Qed.

(** ** Leaving and entering a structure *)

Lemma cons_iff (t : nat) ex u : u <> t -> u ∈ ex <-> u ∈ t :: ex.
Proof. intros H. rewrite elem_of_cons. intuition congruence. Qed.
Lemma not_has_cons st q t ex s x : ~ has st q (t :: ex) s t x.
Proof. intros (_ & H & _). apply H. by left. Qed.
Lemma has_other st q st' q' ex s t x y : has st q ex s t x -> (st' <> st \/ q' <> q) -> ~ has st' q' ex s t y.
Proof. intros (A1 & _ & A3 & A4) Hne (B1 & _ & B3 & B4). destruct Hne; congruence. Qed.

(** A structure of a queue, by the status of its timers *)
Definition part_ok (st : tstatus) (ex : list nat) (s : tsys) (q : queue) (ts : timers) : Prop :=
  match st with
  | TIMER_STATUS_in_heap => heap_ok ex q (heap_size ts) s
  | TIMER_STATUS_in_list => listed TIMER_STATUS_in_list q (tq_list ts) ex s /\ by_deadline s (tq_list ts)
  | TIMER_STATUS_inactive => listed TIMER_STATUS_inactive q (tq_inactive ts) ex s
  | _ => True
  end.
Definition part_same (st : tstatus) (ts ts' : timers) : Prop :=
  match st with
  | TIMER_STATUS_in_heap => heap_size ts' = heap_size ts /\ heap_limit ts' = heap_limit ts /\ heap_slots ts' = heap_slots ts
  | TIMER_STATUS_in_list => tq_list ts' = tq_list ts
  | TIMER_STATUS_inactive => tq_inactive ts' = tq_inactive ts
  | _ => True
  end.
Lemma parts_ok ex s q ts : queue_ok ex s q ts <-> forall st, part_ok st ex s q ts.
Proof. split; [by intros [A B C] []|]. intros H. split; [exact (H TIMER_STATUS_in_heap)|exact (H TIMER_STATUS_in_list)|exact (H TIMER_STATUS_inactive)]. Qed.
Lemma part_same_refl st ts : part_same st ts ts.
Proof. by destruct st. Qed.
Lemma part_ext st q ex s ex' s' ts ts' : same_members st q ex s ex' s' -> tqs s !! q = Some ts -> tqs s' !! q = Some ts' -> part_same st ts ts' ->
  part_ok st ex s q ts -> part_ok st ex' s' q ts'.
Proof.
  intros Hm E E' Hs H. destruct st; [done| |done| |]; cbn in *.
  - rewrite Hs. by apply (listed_ext _ q _ ex s).
  - destruct Hs as (F1 & F2 & F3). rewrite F1. by apply (heap_ext q _ ex s ex' s' ts ts').
  - rewrite Hs. by apply (list_ext q _ ex s).
Qed.

Lemma change_ok st q ex ex' s s' t ts ts' : sys_ok ex s -> (forall u, u <> t -> u ∈ ex <-> u ∈ ex') ->
  (forall st' q', st' <> st \/ q' <> q -> same_members st' q' ex s ex' s') ->
  tqs s !! q = Some ts -> tqs s' !! q = Some ts' -> (forall q', q' <> q -> tqs s' !! q' = tqs s !! q') ->
  (forall st', st' <> st -> part_same st' ts ts') -> part_ok st ex' s' q ts' -> near t q s s' ->
  (t ∈ ex' -> exists x', tms s' !! t = Some x' /\ live x' s') -> (t ∉ ex' -> forall x', tms s' !! t = Some x' -> timer_ok x' s') -> sys_ok ex' s'.
Proof.
  intros [A B C] Hex Hm E E' Eo Hp Hown Hn Ht1 Ht2.
  assert (forall q', is_Some (tqs s !! q') -> is_Some (tqs s' !! q')) as Hq by (intros q' H; destruct (decide (q' = q)) as [->|Hne]; [by exists ts'|by rewrite Eo]).
  split.
  - intros q' ts1 E1. apply parts_ok. intros st'. destruct (decide (q' = q)) as [->|Hne].
    + rewrite E' in E1. injection E1 as <-. destruct (decide (st' = st)) as [->|Hst]; [done|].
      apply (part_ext st' q ex s ex' s' ts ts'); [apply Hm; by left|done|done|by apply Hp|]. by apply parts_ok, A.
    + rewrite Eo in E1 by done. apply (part_ext st' q' ex s ex' s' ts1 ts1); [apply Hm; by right|done|by rewrite Eo|apply part_same_refl|]. by apply parts_ok, A.
  - intros u x' E1 Hu. destruct (decide (u = t)) as [->|Hut]; [by apply Ht2|]. destruct (near_back _ _ _ _ u x' Hn Hut E1) as (x & p & Ex & -> & Hpos).
    pose proof (B u x Ex ltac:(by rewrite Hex)) as Hx. apply (timer_ok_ext _ s s' Hq). destruct Hpos as [->|[H1 H2]]; [by rewrite set_pos_same|].
    unfold timer_ok in *. change (t_status (set_pos p x)) with (t_status x). rewrite H1 in *. destruct Hx as [X1 X2 X3]. by split.
  - intros u Hu. destruct (decide (u = t)) as [->|Hut]; [by apply Ht1|]. destruct (C u ltac:(by rewrite Hex)) as (x & Ex & Hl). destruct (nr_timers _ _ _ _ Hn u x Hut Ex) as (p & E1 & _).
    exists (set_pos p x). split; [done|]. apply (live_ext _ s s' Hq). destruct Hl as [X1 X2 X3]. by split.
Qed.

(** *** The lists *)

Lemma unlink_spec t l : t ∈ l -> exists l1 l2, l = l1 ++ t :: l2 /\ unlink t l = Some (l1 ++ l2) /\ (is_head t l = true <-> l1 = []).
Proof.
  induction l as [|c l IH]; intros Ht; [by apply elem_of_nil in Ht|]. cbn [unlink is_head]. destruct (Nat.eqb_spec c t) as [->|Hne]; [by exists [], l|].
  apply elem_of_cons in Ht as [->|Ht]; [done|]. destruct (IH Ht) as (l1 & l2 & -> & -> & _). exists (c :: l1), l2. by split; [|split].
Qed.
Lemma sorted_remove s l1 t l2 : by_deadline s (l1 ++ t :: l2) -> by_deadline s (l1 ++ l2).
Proof.
  unfold by_deadline. induction l1 as [|a l1 IH]; cbn; intros H; apply StronglySorted_inv in H as [H1 H2]; [done|].
  constructor; [by apply IH|]. apply Forall_app in H2 as [? [? ?]%list.Forall_cons]. by apply Forall_app.
Qed.
Lemma sorted_insert s l1 t l2 : by_deadline s (l1 ++ l2) -> Forall (fun c => due s c <= due s t) l1 -> Forall (fun c => due s t <= due s c) l2 ->
  by_deadline s (l1 ++ t :: l2).
Proof.
  unfold by_deadline. induction l1 as [|a l1 IH]; cbn; intros H H1 H2; [by constructor|]. apply StronglySorted_inv in H as [Hs Ha]. apply list.Forall_cons in H1 as [Hat H1].
  constructor; [by apply IH|]. apply Forall_app in Ha as [? ?]. apply Forall_app. split; [done|by constructor].
Qed.

Lemma listed_remove st q l1 l2 t ex s s' : listed st q (l1 ++ t :: l2) ex s -> (forall u, u <> t -> tms s' !! u = tms s !! u) ->
  listed st q (l1 ++ l2) (t :: ex) s'.
Proof.
  intros (Hd & H1 & H2) Hs. apply NoDup_app in Hd as (Hd1 & Hd2 & Hd3). apply NoDup_cons in Hd3 as [Hd3 Hd4]. split; [|split].
  - apply NoDup_app. split; [done|]. split; [|done]. intros u Hu Hu2. apply (Hd2 u Hu). by right.
  - intros u Hu. assert (u <> t) as Hne by (intros ->; apply elem_of_app in Hu as [Hu|Hu]; [apply (Hd2 t Hu); by left|done]).
    destruct (H1 u) as (x & A1 & A2 & A3); [rewrite elem_of_app, elem_of_cons in *; tauto|]. exists x. split; [by rewrite Hs|]. split; [by rewrite <- cons_iff|done].
  - intros u x (A1 & A2 & A3). apply not_elem_of_cons in A2 as [Hne A2]. rewrite Hs in A1 by done.
    assert (u ∈ l1 ++ t :: l2) as Hu by (by apply (H2 u x)). rewrite elem_of_app, elem_of_cons in *. tauto.
Qed.
Lemma listed_insert st q l1 l2 t ex s s' x : listed st q (l1 ++ l2) (t :: ex) s -> (forall u, u <> t -> tms s' !! u = tms s !! u) -> has st q ex s' t x ->
  listed st q (l1 ++ t :: l2) ex s'.
Proof.
  intros (Hd & H1 & H2) Hs Ht. assert (t ∉ l1 ++ l2) as Hnt by (intros Hin; destruct (H1 t Hin) as [y Hy]; by apply not_has_cons in Hy). split; [|split].
  - rewrite <- (Permutation_middle l1 l2 t). by constructor.
  - intros u Hu. destruct (decide (u = t)) as [->|Hne]; [by exists x|]. destruct (H1 u) as (y & A1 & A2 & A3); [rewrite elem_of_app, elem_of_cons in *; tauto|].
    apply not_elem_of_cons in A2 as [_ A2]. exists y. split; [by rewrite Hs|done].
  - intros u y (A1 & A2 & A3). destruct (decide (u = t)) as [->|Hne]; [rewrite elem_of_app, elem_of_cons; tauto|]. rewrite Hs in A1 by done.
    assert (u ∈ l1 ++ l2) as Hu by (apply (H2 u y); split; [done|]; split; [by apply not_elem_of_cons|done]). rewrite elem_of_app, elem_of_cons in *. tauto.
Qed.

(** *** Operations *)

Lemma has_live st q ex s t x : sys_ok ex s -> has st q ex s t x -> st <> TIMER_STATUS_invalid -> st <> TIMER_STATUS_killed -> live x s.
Proof.
  intros H (A1 & A2 & A3 & A4) H1 H2. pose proof (so_timers _ _ H t x A1 A2) as Hx. unfold timer_ok in Hx. rewrite A3 in Hx. destruct st; tauto.
Qed.
Lemma live_pos p x s s' t : live x s -> framed t s s' -> live (set_pos p x) s'.
Proof. intros [X1 X2 X3] Hf. split; [done|done|]. exact (framed_some _ _ _ _ Hf X3). Qed.
Lemma near_same t q s s' : (forall u, u <> t -> tms s' !! u = tms s !! u) -> length (tms s') = length (tms s) -> near t q s s'.
Proof. intros H L. split; [|done]. intros u x Hu E. exists (t_pos x). rewrite set_pos_same, H by done. auto. Qed.
Lemma same_members_but t st q ex ex' s s' : (forall u, u <> t -> tms s' !! u = tms s !! u) -> (forall u, u <> t -> u ∈ ex <-> u ∈ ex') ->
  (forall x, ~ has st q ex s t x) -> (forall x, ~ has st q ex' s' t x) -> same_members st q ex s ex' s'.
Proof.
  intros Hs Hex H0 H1. split; intros u x Hu.
  - destruct (decide (u = t)) as [->|Hne]; [by destruct (H0 x)|]. exists x. destruct Hu as (A1 & A2 & A3). split; [|done]. split; [by rewrite Hs|]. split; [by rewrite <- Hex|done].
  - destruct (decide (u = t)) as [->|Hne]; [by destruct (H1 x)|]. exists x. destruct Hu as (A1 & A2 & A3). split; [by rewrite <- Hs|]. split; [by rewrite Hex|done].
Qed.

Section Ops.
Context (ex : list nat) (s : tsys) (t : nat) (x : timer) (q : queue).

Lemma unheap_wp : sys_ok ex s -> has TIMER_STATUS_in_heap q ex s t x ->
  wp (remove_from_heap q t) (fun _ s' => sys_ok (t :: ex) s' /\ framed t s s' /\ exists p, tms s' !! t = Some (set_pos p x)) s.
Proof.
  intros Hs Hx. pose proof Hx as (E & Hex & H1 & H2). pose proof (has_live _ _ _ _ _ _ Hs Hx ltac:(done) ltac:(done)) as Hl. destruct (lv_queue _ _ Hl) as [ts Eq]. rewrite H2 in Eq.
  pose proof (so_queues _ _ Hs q ts Eq) as [Hh _ _]. eapply wp_mono; [apply (remove_from_heap_wp ex q _ s t x Hh E (conj H1 H2) Hex)|].
  intros b s' (K1 & K2 & K3). assert (framed t s s') as Hf by (apply (framed_moved t q _ s s' (ex_intro _ ts Eq) K2)). pose proof (near_moved t q _ s s' K2) as Hn.
  destruct (mv_own _ _ _ K2 _ (resize_queue q _ s ts Eq)) as (l & El & Ll). destruct (mv_timers _ _ _ K2 t x) as (p & Et & _); [by rewrite (proj1 (resize_rest _ _ _))|].
  split; [|split; [done|by exists p]].
  eapply (change_ok TIMER_STATUS_in_heap q ex (t :: ex) s s' t ts _ Hs); [intros u Hu; by apply cons_iff| |done|exact El| | |done|done| |].
  - intros st' q' Hne. apply (near_members t q); [done|tauto|intros u Hu; by apply cons_iff|intros y; by apply (has_other _ _ _ _ _ _ _ x y Hx)|intros y; apply not_has_cons].
  - intros q' Hne. rewrite (mv_queues _ _ _ K2) by done. by rewrite resize_other.
  - by intros [].
  - intros _. exists (set_pos p x). split; [done|]. by apply (live_pos p x s s' t).
  - intros Hn'. exfalso. apply Hn'. by left.
Qed.

Lemma toheap_wp ts : sys_ok (t :: ex) s -> tms s !! t = Some x -> in_heap_of q x -> t ∉ ex -> live x s -> tqs s !! q = Some ts ->
  wp (add_to_heap q t) (fun b s' => (b = false /\ s' = s) \/
    (sys_ok ex s' /\ framed t s s' /\ (exists i, i <> 0 /\ tms s' !! t = Some (set_pos (PosHeap i) x)) /\
     (b = false -> exists u y, has TIMER_STATUS_in_heap q (t :: ex) s' u y /\ due s' u <= due s' t))) s.
Proof.
  intros Hs E Hx Hex Hl Eq. pose proof (so_queues _ _ Hs q ts Eq) as [Hh _ _].
  eapply wp_mono; [apply (add_to_heap_wp ex q _ s t x ts Hh Eq E Hx Hex)|]. intros b s' [(_ & -> & ->)|(K0 & K1 & K2 & K3)]; [by left|right].
  assert (framed t s s') as Hf by (apply (framed_moved t q _ s s' (ex_intro _ ts Eq) K2)). pose proof (near_moved t q _ s s' K2) as Hn.
  destruct (mv_own _ _ _ K2 _ (resize_queue q _ s ts Eq)) as (l & El & Ll). destruct (mv_timers _ _ _ K2 t x) as (p & Et & _); [by rewrite (proj1 (resize_rest _ _ _))|].
  destruct (hp_timer _ _ _ _ _ (proj1 K1) t _ Et Hex Hx) as (i & Hi & _ & Ei & Epos). cbn in Epos. subst p.
  assert (sys_ok ex s') as Hs'.
  { eapply (change_ok TIMER_STATUS_in_heap q (t :: ex) ex s s' t ts _ Hs); [intros u Hu; symmetry; by apply cons_iff| |done|exact El| | |done|done|done|].
    - intros st' q' Hne. apply (near_members t q); [done|tauto|intros u Hu; symmetry; by apply cons_iff|intros y; apply not_has_cons|].
      intros y. apply (has_other TIMER_STATUS_in_heap q _ _ _ _ _ (set_pos (PosHeap i) x)); [|done]. destruct Hx. by repeat split.
    - intros q' Hne. rewrite (mv_queues _ _ _ K2) by done. by rewrite resize_other.
    - by intros [].
    - intros _ y Ey. rewrite Et in Ey. injection Ey as <-. unfold timer_ok. cbn. rewrite (proj1 Hx). by apply (live_pos _ x s s' t). }
  split; [done|]. split; [done|]. split; [exists i; split; [lia|done]|]. intros ->. pose proof K1 as (Hp & Ho & _).
  destruct (hp_slot _ _ _ _ _ Hp 1 ltac:(lia) ltac:(lia)) as (u & y & U1 & U2 & U3 & [U4 U5] & _). exists u, y.
  assert (u <> t) as Hut by (intros ->; by destruct K3 as [_ K3]; specialize (K3 U1)). split; [split; [done|split; [by apply not_elem_of_cons|done]]|].
  pose proof (top_least _ _ i Ho Hi) as Ht. unfold key in Ht. by rewrite U1, Ei in Ht.
Qed.

Lemma unlist_wp : sys_ok ex s -> has TIMER_STATUS_in_list q ex s t x ->
  wp (remove_from_list q t) (fun _ s' => sys_ok (t :: ex) s' /\ framed t s s' /\ tms s' !! t = Some x) s.
Proof.
  intros Hs Hx. pose proof Hx as (E & Hex & H1 & H2). pose proof (has_live _ _ _ _ _ _ Hs Hx ltac:(done) ltac:(done)) as Hl. destruct (lv_queue _ _ Hl) as [ts Eq]. rewrite H2 in Eq.
  pose proof (so_queues _ _ Hs q ts Eq) as [_ [Hli Hso] _]. pose proof (so_timers _ _ Hs t x E Hex) as Hpos. unfold timer_ok in Hpos. rewrite H1 in Hpos. destruct Hpos as [_ Hpos].
  unfold remove_from_list. apply wp_bind, (queue_wp s q ts); [done|]. apply wp_bind, (timer_wp s t x); [done|]. rewrite Hpos.
  destruct (unlink_spec t (tq_list ts)) as (l1 & l2 & El & Eu & _); [by apply (proj2 (proj2 Hli) t x)|]. rewrite Eu. apply wp_bind, (upd_queue_wp s q ts); [done|]. apply wp_ret.
  rewrite El in *. set (s' := with_queue _ _ s). split; [|split; [apply (framed_queue t q ts); [done|by repeat split]|done]].
  eapply (change_ok TIMER_STATUS_in_list q ex (t :: ex) s s' t ts); [done|intros u Hu; by apply cons_iff| |done|apply with_queue_eq| | | | | |].
  - intros st' q' Hne. apply (same_members_but t); [done|intros u Hu; by apply cons_iff|intros y; by apply (has_other _ _ _ _ _ _ _ x y Hx)|intros y; apply not_has_cons].
  - intros q' Hne. exact (with_queue_ne q q' _ _ (not_eq_sym Hne)).
  - by intros [].
  - split; [by apply (listed_remove _ q l1 l2 t ex s)|]. exact (sorted_remove s l1 t l2 Hso).
  - by apply near_same.
  - intros _. exists x. split; [done|]. eapply live_ext; [|done]. intros q'. apply with_queue_some.
  - intros Hn'. exfalso. apply Hn'. by left.
Qed.

Lemma host_link_wp e l (Hl : Forall (fun c => is_Some (tms s !! c)) l) : by_deadline s l ->
  wp (link e t l) (fun r s' => s' = s /\ exists l1 l2, l = l1 ++ l2 /\ r = l1 ++ t :: l2 /\ Forall (fun c => due s c <= e) l1 /\ Forall (fun c => e <= due s c) l2) s.
Proof.
  unfold by_deadline. induction l as [|c l IH]; intros Hso; cbn [link]; [apply wp_ret; split; [done|by exists [], []]|]. apply list.Forall_cons in Hl as [[y Ey] Hl]. apply StronglySorted_inv in Hso as [Hso Hc].
  apply wp_bind, (expires_wp s c y); [done|]. destruct (Z.leb_spec (due s c) e) as [Hle|Hgt].
  - apply wp_bind. eapply wp_mono; [by apply IH|]. intros r s' (-> & l1 & l2 & -> & -> & F1 & F2). apply wp_ret. split; [done|]. exists (c :: l1), l2. split; [done|]. split; [done|]. split; [by constructor|done].
  - apply wp_ret. split; [done|]. exists [], (c :: l). do 3 (split; [done|]). constructor; [lia|]. eapply Forall_impl; [exact Hc|]. intros b Hb. cbn in Hb. lia.
Qed.

Lemma tolist_wp ts : sys_ok (t :: ex) s -> tms s !! t = Some x -> t_status x = TIMER_STATUS_in_list -> queue_of x = q -> t ∉ ex -> live x s -> tqs s !! q = Some ts ->
  wp (add_to_list q t) (fun b s' => sys_ok ex s' /\ framed t s s' /\ tms s' !! t = Some (set_pos PosList x) /\
     (b = false -> exists u y, has TIMER_STATUS_in_list q (t :: ex) s' u y /\ due s' u <= due s' t)) s.
Proof.
  intros Hs E H1 H2 Hex Hl Eq. pose proof (so_queues _ _ Hs q ts Eq) as [_ [Hli Hso] _].
  unfold add_to_list. apply wp_bind, (queue_wp s q ts); [done|]. apply wp_bind, (expires_wp s t x); [done|]. apply wp_bind.
  eapply wp_mono; [apply host_link_wp; [|done]|].
  { apply Forall_forall. intros c Hc. destruct (proj1 (proj2 Hli) c Hc) as (y & Ey & _). by exists y. }
  intros r s0 (-> & l1 & l2 & El & -> & F1 & F2). rewrite El in *.
  apply wp_bind, (upd_timer_wp s t x); [done|]. apply wp_bind, (upd_queue_wp _ q ts); [done|]. apply wp_ret. set (s' := with_queue _ _ _).
  assert (forall u, u <> t -> tms s' !! u = tms s !! u) as Hu by (intros u Hne; by apply list_lookup_insert_ne).
  assert (tms s' !! t = Some (set_pos PosList x)) as Et by (apply list_lookup_insert_eq; by apply lookup_lt_Some in E).
  assert (forall u, due s' u = due s u) as Ed by (intros u; unfold due; destruct (decide (u = t)) as [->|Hne]; [by rewrite Et, E|by rewrite Hu]).
  assert (has TIMER_STATUS_in_list q ex s' t (set_pos PosList x)) as Ht by (split; [done|]; split; [done|]; split; [done|done]).
  assert (forall q', is_Some (tqs s !! q') -> is_Some (tqs s' !! q')) as Hq by (intros q'; exact (with_queue_some q _ (with_timer t (set_pos PosList x) s) q')).
  split; [|split; [|split; [done|]]].
  - eapply (change_ok TIMER_STATUS_in_list q (t :: ex) ex s s' t ts); [done|intros u Hne; symmetry; by apply cons_iff| |done|apply with_queue_eq| | | | |done|].
    + intros st' q' Hne. apply (same_members_but t); [done|intros u Hne'; symmetry; by apply cons_iff|intros y; apply not_has_cons|intros y; by apply (has_other _ _ _ _ _ _ _ _ y Ht)].
    + intros q' Hne. exact (with_queue_ne q q' _ _ (not_eq_sym Hne)).
    + by intros [].
    + split; [by apply (listed_insert _ q l1 l2 t ex s s' (set_pos PosList x))|]. apply (sorted_ext s); [done|]. by apply sorted_insert.
    + apply near_same; [done|apply length_insert].
    + intros _ y Ey. rewrite Et in Ey. injection Ey as <-. unfold timer_ok. cbn. rewrite H1. split; [|done]. apply (live_ext _ s s' Hq). destruct Hl. by split.
  - apply (framed_trans t s (with_timer t (set_pos PosList x) s)); [apply framed_timer|]. apply (framed_queue t q ts); [done|by repeat split].
  - destruct l1 as [|c l1]; [cbn; by rewrite Nat.eqb_refl|]. intros _. apply list.Forall_cons in F1 as [F1 _].
    destruct (proj1 (proj2 Hli) c ltac:(by left)) as (y & Y1 & Y2 & Y3). assert (c <> t) as Hct by (intros ->; apply Y2; by left).
    exists c, y. rewrite !Ed. split; [|done]. split; [by rewrite Hu|done].
Qed.

Lemma inactive_add_wp ts : sys_ok (t :: ex) s -> tms s !! t = Some x -> t_status x = TIMER_STATUS_inactive -> queue_of x = q -> t ∉ ex -> live x s -> tqs s !! q = Some ts ->
  wp (inactive_add t q) (fun _ s' => sys_ok ex s' /\ framed t s s' /\ tms s' !! t = Some (set_pos (PosInactive q) x)) s.
Proof.
  intros Hs E H1 H2 Hex Hl Eq. pose proof (so_queues _ _ Hs q ts Eq) as [_ _ Hli].
  unfold inactive_add. apply wp_bind, (upd_queue_wp s q ts); [done|]. apply (upd_timer_wp _ t x); [done|]. set (s' := with_timer _ _ _).
  assert (forall u, u <> t -> tms s' !! u = tms s !! u) as Hu by (intros u Hne; by apply list_lookup_insert_ne).
  assert (tms s' !! t = Some (set_pos (PosInactive q) x)) as Et by (apply list_lookup_insert_eq; by apply lookup_lt_Some in E).
  assert (has TIMER_STATUS_inactive q ex s' t (set_pos (PosInactive q) x)) as Ht by (split; [done|]; split; [done|]; split; [done|done]).
  assert (forall q', is_Some (tqs s !! q') -> is_Some (tqs s' !! q')) as Hq by (intros q'; apply with_queue_some).
  split; [|split; [|done]].
  - eapply (change_ok TIMER_STATUS_inactive q (t :: ex) ex s s' t ts); [done|intros u Hne; symmetry; by apply cons_iff| |done|apply (with_queue_eq q)| | | | |done|].
    + intros st' q' Hne. apply (same_members_but t); [done|intros u Hne'; symmetry; by apply cons_iff|intros y; apply not_has_cons|intros y; by apply (has_other _ _ _ _ _ _ _ _ y Ht)].
    + intros q' Hne. exact (with_queue_ne q q' _ s (not_eq_sym Hne)).
    + by intros [].
    + by apply (listed_insert _ q [] (tq_inactive ts) t ex s s' (set_pos (PosInactive q) x)).
    + apply near_same; [done|apply length_insert].
    + intros _ y Ey. rewrite Et in Ey. injection Ey as <-. unfold timer_ok. cbn. rewrite H1, <- H2. split; [|done]. apply (live_ext _ s s' Hq). destruct Hl. by split.
  - eapply framed_trans; [apply (framed_queue t q ts); [done|]|apply framed_timer]. by repeat split.
Qed.

Lemma inactive_del_wp : sys_ok ex s -> has TIMER_STATUS_inactive q ex s t x ->
  wp (inactive_del t) (fun _ s' => sys_ok (t :: ex) s' /\ framed t s s' /\ tms s' !! t = Some (set_pos PosNone x)) s.
Proof.
  intros Hs Hx. pose proof Hx as (E & Hex & H1 & H2). pose proof (has_live _ _ _ _ _ _ Hs Hx ltac:(done) ltac:(done)) as Hl. destruct (lv_queue _ _ Hl) as [ts Eq]. rewrite H2 in Eq.
  pose proof (so_queues _ _ Hs q ts Eq) as [_ _ Hli]. pose proof (so_timers _ _ Hs t x E Hex) as Hpos. unfold timer_ok in Hpos. rewrite H1, H2 in Hpos. destruct Hpos as [_ Hpos].
  unfold inactive_del. apply wp_bind, (timer_wp s t x); [done|]. rewrite Hpos. apply wp_bind, (queue_wp s q ts); [done|].
  destruct (unlink_spec t (tq_inactive ts)) as (l1 & l2 & El & Eu & _); [by apply (proj2 (proj2 Hli) t x)|]. rewrite Eu. apply wp_bind, (upd_queue_wp s q ts); [done|].
  apply (upd_timer_wp _ t x); [done|]. rewrite El in *. set (s' := with_timer _ _ _).
  assert (forall u, u <> t -> tms s' !! u = tms s !! u) as Hu by (intros u Hne; by apply list_lookup_insert_ne).
  assert (tms s' !! t = Some (set_pos PosNone x)) as Et by (apply list_lookup_insert_eq; by apply lookup_lt_Some in E).
  split; [|split; [|done]].
  - eapply (change_ok TIMER_STATUS_inactive q ex (t :: ex) s s' t ts); [done|intros u Hne; by apply cons_iff| |done|apply (with_queue_eq q)| | | | | |].
    + intros st' q' Hne. apply (same_members_but t); [done|intros u Hne'; by apply cons_iff|intros y; by apply (has_other _ _ _ _ _ _ _ x y Hx)|intros y; apply not_has_cons].
    + intros q' Hne. exact (with_queue_ne q q' _ s (not_eq_sym Hne)).
    + by intros [].
    + by apply (listed_remove _ q l1 l2 t ex s).
    + apply near_same; [done|apply length_insert].
    + intros _. exists (set_pos PosNone x). split; [done|]. eapply (live_ext _ s); [intros q'; apply with_queue_some|]. destruct Hl. by split.
    + intros Hn'. exfalso. apply Hn'. by left.
  - eapply framed_trans; [apply (framed_queue t q ts); [done|]|apply framed_timer]. by repeat split.
Qed.
End Ops.
