(* ===== verification/HostTimerOps.v ===== *)
(** * The operations on timers keep the queues in order *)

From stdpp Require Import base list numbers gmap.
From Stdlib Require Import ZArith Lia.
From S2P Require Import Prelude HostTimer HostHeap HostTimerInv.

Open Scope Z_scope.
Open Scope se_scope.

(** ** Due timers are not forgotten

    A queue has its soft interrupt pending, or the host was asked for a
    deadline that is early enough for each of its timers. *)

Definition is_active (x : timer) : Prop := t_status x = TIMER_STATUS_in_heap \/ t_status x = TIMER_STATUS_in_list.
Definition covered (ts : timers) (e : Z) : Prop := timer_deadline ts <> 0 /\ timer_deadline ts <= e + timer_slop.
Definition served (q : queue) (ex : list nat) (s : tsys) : Prop := forall ts, tqs s !! q = Some ts -> softirq_pending ts = true \/
  forall t x, tms s !! t = Some x -> t ∉ ex -> is_active x -> queue_of x = q -> covered ts (expires x).

Lemma covered_mono ts e e' : covered ts e -> e <= e' -> covered ts e'.
Proof. unfold covered. lia. Qed.
Lemma covered_rest ts ts' e : same_rest ts ts' -> covered ts e -> covered ts' e.
Proof. intros (_ & _ & _ & E & _) H. unfold covered in *. by rewrite E. Qed.
Lemma served_less q ex ex' s : (forall t, t ∈ ex -> t ∈ ex') -> served q ex s -> served q ex' s.
Proof. intros Hi H ts E. destruct (H ts E) as [?|Hq]; [by left|right]. intros t x Et Hex. apply (Hq t x Et). auto. Qed.
Lemma framed_back t s s' u x' : framed t s s' -> u <> t -> tms s' !! u = Some x' -> exists x p, tms s !! u = Some x /\ x' = set_pos p x.
Proof.
  intros H Hu E'. destruct (lookup_lt_is_Some_2 (tms s) u) as [x E]; [rewrite <- (fr_count _ _ _ H); by apply lookup_lt_Some in E'|].
  destruct (fr_timers _ _ _ H u x Hu E) as (p & E1 & _). exists x, p. split; [done|congruence].
Qed.
Lemma framed_queue_back t s s' q ts' : framed t s s' -> tqs s' !! q = Some ts' -> exists ts, tqs s !! q = Some ts /\ same_rest ts ts'.
Proof.
  intros H E'. destruct (tqs s !! q) as [ts|] eqn:E; [|by rewrite (fr_none _ _ _ H q E) in E']. destruct (fr_queues _ _ _ H q ts E) as (ts1 & E1 & R).
  exists ts. split; [done|congruence].
Qed.
Lemma served_framed q t ex s s' : t ∈ ex -> served q ex s -> framed t s s' -> served q ex s'.
Proof.
  intros Ht H Hf ts' E'. destruct (framed_queue_back _ _ _ _ _ Hf E') as (ts & E & R). destruct (H ts E) as [Hp|Hq]; [left; by apply R|right].
  intros u x' Eu Hu Ha Hqu. destruct (framed_back t s s' u x' Hf) as (x & p & Ex & ->); [intros ->; done|done|]. apply (covered_rest ts ts'); [done|]. by apply (Hq u x).
Qed.

(** Equal up to status and position *)
Definition alike (x x' : timer) : Prop := x' = set_status (t_status x') (set_pos (t_pos x') x).
Lemma alike_refl x : alike x x.
Proof. by destruct x. Qed.
Lemma alike_trans x y z : alike x y -> alike y z -> alike x z.
Proof. unfold alike. intros -> ->. by destruct x. Qed.
Lemma alike_set x p st : alike x (set_status st (set_pos p x)).
Proof. by destruct x. Qed.
Lemma alike_pos x p : alike x (set_pos p x).
Proof. by destruct x. Qed.
Lemma alike_status x st : alike x (set_status st x).
Proof. by destruct x. Qed.
Lemma alike_queue x x' : alike x x' -> queue_of x' = queue_of x.
Proof. intros ->. by destruct x. Qed.
Lemma alike_expires x x' : alike x x' -> expires x' = expires x.
Proof. by intros ->. Qed.
Lemma alike_live x x' s : alike x x' -> live x s -> live x' s.
Proof. intros -> [A B C]. by split. Qed.
Lemma alike_suspended x x' : alike x x' -> t_suspended x' = t_suspended x.
Proof. by intros ->. Qed.

(** The structure of an active timer *)
Definition found (ex : list nat) (s : tsys) (t : nat) (x : timer) : Prop := tms s !! t = Some x /\ (t ∉ ex).

Section Ops.
Context (ex : list nat).

Lemma active_live s t x : sys_ok ex s -> found ex s t x -> is_active x -> live x s.
Proof. intros Hs [E Hex] [H|H]; apply (has_live (t_status x) (queue_of x) ex s t x Hs); (done || by rewrite H). Qed.
Lemma inactive_live s t x : sys_ok ex s -> found ex s t x -> t_status x = TIMER_STATUS_inactive -> live x s.
Proof. intros Hs [E Hex] H; apply (has_live (t_status x) (queue_of x) ex s t x Hs); (done || by rewrite H). Qed.

(** A change of a timer that is in no structure *)
Lemma loose_wp s t x f (Q : unit -> tsys -> Prop) : sys_ok (t :: ex) s -> tms s !! t = Some x -> live (f x) s ->
  (sys_ok (t :: ex) (with_timer t (f x) s) -> framed t s (with_timer t (f x) s) -> tms (with_timer t (f x) s) !! t = Some (f x) -> Q tt (with_timer t (f x) s)) ->
  wp (upd_timer t f) Q s.
Proof.
  intros Hs E Hl HQ. apply (upd_timer_wp s t x); [done|]. apply HQ; [by apply loose_ok; [|left|]|apply framed_timer|]. apply with_timer_eq. by apply lookup_lt_Some in E.
Qed.

Lemma remove_entry_wp s t x : sys_ok ex s -> found ex s t x -> is_active x ->
  wp (remove_entry t (queue_of x)) (fun _ s' => sys_ok (t :: ex) s' /\ framed t s s' /\ exists x', tms s' !! t = Some x' /\ alike x x' /\ t_status x' = TIMER_STATUS_invalid) s.
Proof.
  intros Hs Hx Ha. pose proof (active_live s t x Hs Hx Ha) as Hl. destruct Hx as [E Hex]. unfold remove_entry. apply wp_bind, (timer_wp s t x); [done|]. apply wp_bind.
  apply (wp_mono _ (fun _ s1 => sys_ok (t :: ex) s1 /\ framed t s s1 /\ exists p, tms s1 !! t = Some (set_pos p x))).
  - destruct Ha as [Ha|Ha]; rewrite Ha.
    + by apply unheap_wp.
    + eapply wp_mono; [by apply (unlist_wp ex s t x)|]. intros b s1 (A1 & A2 & A3). split; [done|]. split; [done|]. exists (t_pos x). by rewrite set_pos_same.
  - intros b s1 (A1 & A2 & p & A3). apply wp_bind, (loose_wp s1 t (set_pos p x)); [done|done|destruct (live_pos p x s s1 t Hl A2); by split|]. intros B1 B2 B3. apply wp_ret.
    split; [done|]. split; [by apply (framed_trans t s s1)|]. eexists. split; [exact B3|]. split; [by destruct x|done].
Qed.

(** Another timer of the queue is due before it. *)
Definition preceded (t : nat) (q : queue) (s : tsys) : Prop :=
  exists u y, tms s !! u = Some y /\ (u ∉ t :: ex) /\ is_active y /\ queue_of y = q /\ expires y <= due s t.

Lemma add_entry_wp s t x : sys_ok (t :: ex) s -> tms s !! t = Some x -> t ∉ ex -> t_status x = TIMER_STATUS_invalid -> live x s ->
  wp (add_entry t (queue_of x)) (fun b s' => sys_ok ex s' /\ framed t s s' /\ (exists x', tms s' !! t = Some x' /\ alike x x' /\ is_active x') /\
    (b = false -> preceded t (queue_of x) s')) s.
Proof.
  intros Hs E Hex Hst Hl. destruct (lv_queue _ _ Hl) as [ts Eq]. set (q := queue_of x) in *. unfold add_entry. apply wp_bind, (timer_wp s t x); [done|].
  apply wp_bind, wp_bug_if; [unfold status_is; by rewrite bool_decide_true|]. apply wp_bind, (loose_wp s t x); [done|done|by apply (alike_live x); [apply alike_pos|]|].
  set (s1 := with_timer _ _ _). intros A1 A2 A3. apply wp_bind, (loose_wp s1 t (set_pos (PosHeap 0) x)); [done|exact A3|destruct Hl; by split|]. set (x1 := set_status _ _). set (s2 := with_timer _ _ s1). intros B1 B2 B3.
  assert (live x1 s2) as Hl1 by (destruct Hl; by split). assert (tqs s2 !! q = Some ts) as Eq2 by done. assert (framed t s s2) as Hf2 by (by apply (framed_trans t s s1)).
  assert (in_heap_of q x1) as Hx1 by done. apply wp_bind. eapply wp_mono; [by apply (toheap_wp ex s2 t x1 q ts)|].
  intros b s3 [[-> ->]|(C1 & C2 & (i & Hi & C3) & C4)].
  - apply wp_bind, (heap_offset_wp s2 t x1 0); [done|done|]. cbn [Z.eqb negb]. apply wp_bind, (loose_wp s2 t x1); [done|done|destruct Hl; by split|].
    set (x2 := set_status _ x1). set (s4 := with_timer _ _ s2). intros D1 D2 D3. eapply wp_mono; [apply (tolist_wp ex s4 t x2 q ts); (done || destruct Hl; by split)|].
    intros b s5 (F1 & F2 & F3 & F4). split; [done|]. split; [apply (framed_trans t s s2); [done|]; by apply (framed_trans t s2 s4)|]. split.
    + eexists. split; [exact F3|]. split; [by destruct x|by right].
    + intros Hb. destruct (F4 Hb) as (u & y & (U1 & U2 & U3 & U4) & U5). exists u, y. split; [done|]. split; [done|]. split; [by right|]. split; [done|]. unfold due in U5 at 1. by rewrite U1 in U5.
  - apply wp_bind, (heap_offset_wp s3 t _ i _ C3); [done|]. rewrite (proj2 (Z.eqb_neq i 0) Hi). apply wp_ret. split; [done|]. split; [by apply (framed_trans t s s2)|]. split.
    + eexists. split; [exact C3|]. split; [by destruct x|by left].
    + intros Hb. destruct (C4 Hb) as (u & y & (U1 & U2 & U3 & U4) & U5). exists u, y. split; [done|]. split; [done|]. split; [by left|]. split; [done|]. unfold due in U5 at 1. by rewrite U1 in U5.
Qed.

Lemma host_raise_wp ex' t q s (Q : unit -> tsys -> Prop) : sys_ok ex' s -> is_Some (tqs s !! q) ->
  (forall s', sys_ok ex' s' -> framed t s s' -> tms s' = tms s -> (exists ts, tqs s' !! q = Some ts /\ softirq_pending ts = true) -> Q tt s') -> wp (raise q) Q s.
Proof.
  intros Hs [ts E] HQ. apply (upd_queue_wp s q ts); [done|]. apply HQ; [by apply (rest_ok _ s q ts)| |done|].
  - apply (framed_queue t q ts); [done|]. by repeat split.
  - eexists. split; [apply with_queue_eq|done].
Qed.
Lemma own_queue_wp s t x (Q : queue -> tsys -> Prop) : tms s !! t = Some x -> live x s -> Q (queue_of x) s -> wp (own_queue t) Q s.
Proof.
  intros E Hl HQ. unfold own_queue. apply wp_bind, (timer_wp s t x); [done|]. apply wp_bind, wp_bug_if; [|by apply wp_ret].
  apply negb_false_iff, orb_true_iff. destruct (lv_type _ _ Hl) as [->| ->]; auto.
Qed.
Lemma live_framed x s s' t : live x s -> framed t s s' -> live x s'.
Proof. intros [A B C] Hf. split; [done|done|exact (framed_some _ _ _ _ Hf C)]. Qed.

Lemma deactivate_wp s t x : sys_ok ex s -> found ex s t x -> is_active x ->
  wp (deactivate_timer t) (fun _ s' => sys_ok ex s' /\ framed t s s' /\ exists x', tms s' !! t = Some x' /\ alike x x' /\ t_status x' = TIMER_STATUS_inactive) s.
Proof.
  intros Hs Hx Ha. pose proof (active_live s t x Hs Hx Ha) as Hl. pose proof Hx as [E Hex]. unfold deactivate_timer. apply wp_bind, (own_queue_wp s t x); [done|done|].
  apply wp_bind. eapply wp_mono; [by apply remove_entry_wp|]. intros b s1 (A1 & A2 & x1 & A3 & A4 & A5).
  assert (live x1 s1) as Hl1 by (apply (alike_live x); [done|by apply (live_framed x s s1 t)]). rewrite <- (alike_queue x x1 A4) in *.
  apply wp_bind. apply (wp_mono _ (fun _ s2 => sys_ok (t :: ex) s2 /\ framed t s1 s2 /\ tms s2 = tms s1)).
  { apply wp_when; [|intros _; split; [done|]; split; [apply framed_refl|done]]. intros _. apply (host_raise_wp (t :: ex) t); [done|apply Hl1|]. by intros s2 H1 H2 H3 _. }
  intros [] s2 (B1 & B2 & B3). rewrite <- B3 in A3. apply wp_bind, (loose_wp s2 t x1); [done|done|destruct (live_framed x1 s1 s2 t Hl1 B2); by split|].
  set (s3 := with_timer _ _ _). intros C1 C2 C3. assert (framed t s s3) as Hf by (apply (framed_trans t s s2); [by apply (framed_trans t s s1)|done]).
  assert (live (set_status TIMER_STATUS_inactive x1) s3) as Hl3 by (apply (live_framed _ s1 s3 t); [destruct Hl1; by split|by apply (framed_trans t s1 s2)]).
  destruct (lv_queue _ _ Hl3) as [ts Eq]. eapply wp_mono; [by apply (inactive_add_wp ex s3 t _ _ ts C1 C3)|].
  intros [] s4 (D1 & D2 & D3). split; [done|]. split; [by apply (framed_trans t s s3)|]. eexists. split; [exact D3|]. split; [|done].
  apply (alike_trans _ x1); [done|by destruct x1].
Qed.

Lemma inactive_del_run s t x q ts l : tms s !! t = Some x -> t_pos x = PosInactive q -> tqs s !! q = Some ts -> unlink t (tq_inactive ts) = Some l ->
  inactive_del t s = (with_timer t (set_pos PosNone x) (with_queue q (set_tq_inactive l ts) s), Ok tt).
Proof.
  intros E Hpos Eq El. apply wp_run. unfold inactive_del. apply wp_bind, (timer_wp s t x); [done|]. rewrite Hpos. apply wp_bind, (queue_wp s q ts); [done|]. rewrite El.
  apply wp_bind, (upd_queue_wp s q ts); [done|]. by apply (upd_timer_wp _ t x).
Qed.

(** The order of [activate_timer]: the status is changed before the timer leaves
    the list. *)
Lemma del_status_wp {B} s t x st (k : SE tsys B) (Q : B -> tsys -> Prop) : sys_ok ex s -> found ex s t x -> t_status x = TIMER_STATUS_inactive ->
  (forall s', sys_ok (t :: ex) s' -> framed t s s' -> tms s' !! t = Some (set_status st (set_pos PosNone x)) -> wp k Q s') ->
  wp (upd_timer t (set_status st);; inactive_del t;; k) Q s.
Proof.
  intros Hs Hx Hst HQ. pose proof (inactive_live s t x Hs Hx Hst) as Hl. destruct Hx as [E Hex]. pose proof (so_timers _ _ Hs t x E Hex) as Hpos. unfold timer_ok in Hpos. rewrite Hst in Hpos. destruct Hpos as [_ Hpos].
  pose proof (inactive_del_wp ex s t x (queue_of x) Hs ltac:(done)) as Hw. destruct (lv_queue _ _ Hl) as [ts Eq].
  destruct (unlink_spec t (tq_inactive ts)) as (l1 & l2 & _ & Eu & _). { destruct (qo_inactive _ _ _ _ (so_queues _ _ Hs _ ts Eq)) as (_ & _ & H). by apply (H t x). }
  unfold wp in Hw. rewrite (inactive_del_run s t x _ ts _ E Hpos Eq Eu) in Hw. set (s1 := with_timer _ _ _) in Hw. destruct Hw as (A1 & A2 & A3).
  apply wp_bind, (upd_timer_wp s t x); [done|]. apply wp_bind. eapply wp_eq; [eapply (inactive_del_run _ t (set_status st x)); [apply with_timer_eq; by apply lookup_lt_Some in E|exact Hpos|exact Eq|exact Eu]|].
  set (s2 := with_timer _ _ (with_queue _ _ _)). assert (s2 = with_timer t (set_status st (set_pos PosNone x)) s1) as ->.
  { unfold s2, s1, with_timer, with_queue, set_tms, set_tqs. cbn. f_equal. by rewrite !list_insert_insert_eq. }
  apply HQ.
  - apply loose_ok; [done|by left|]. destruct (live_framed x s s1 t Hl A2). by split.
  - by apply (framed_trans t s s1); [|apply framed_timer].
  - apply with_timer_eq. by apply lookup_lt_Some in A3.
Qed.

Lemma activate_wp s t x : sys_ok ex s -> found ex s t x -> t_status x = TIMER_STATUS_inactive ->
  wp (activate_timer t) (fun _ s' => sys_ok ex s' /\ framed t s s' /\ (exists x', tms s' !! t = Some x' /\ alike x x' /\ is_active x') /\
    (forall q, served q (t :: ex) s -> served q ex s')) s.
Proof.
  intros Hs Hx Hst. pose proof (inactive_live s t x Hs Hx Hst) as Hl. pose proof Hx as [E Hex]. unfold activate_timer. apply wp_bind, (timer_wp s t x); [done|].
  apply wp_bind, wp_bug_if; [unfold status_is; by rewrite bool_decide_true|]. apply (del_status_wp s t x); [done..|]. intros s1 A1 A2 A3. set (x1 := set_status _ _) in A3.
  assert (live x1 s1) as Hl1 by (destruct (live_framed x s s1 t Hl A2); by split). apply wp_bind, (own_queue_wp s1 t x1); [done|done|]. apply wp_bind.
  eapply wp_mono; [by apply (add_entry_wp s1 t x1)|]. intros b s2 (B1 & B2 & (x2 & B3 & B4 & B5) & B6). assert (framed t s s2) as Hf by (by apply (framed_trans t s s1)).
  assert (alike x x2) as Ha by (apply (alike_trans _ x1); [by destruct x|done]).
  apply wp_when.
  - intros Hb. apply (host_raise_wp ex t); [done|by apply (framed_some t s1 s2), Hl1|]. intros s3 C1 C2 C3 (ts & C4 & C5). split; [done|]. split; [by apply (framed_trans t s s2)|]. rewrite C3. split; [by exists x2|].
    intros q' Hserved ts' E'. destruct (decide (q' = queue_of x1)) as [->|Hne]; [left; congruence|].
    pose proof (served_framed q' t (t :: ex) s s3 ltac:(by left) Hserved ltac:(by apply (framed_trans t s s2))) as Hs3. destruct (Hs3 ts' E') as [?|Hq]; [by left|right].
    intros u y Eu Hu Hay Hqy. apply (Hq u y Eu); [|done|done]. apply not_elem_of_cons. split; [|done]. intros ->. rewrite C3, B3 in Eu. injection Eu as <-. apply Hne. by rewrite <- Hqy, (alike_queue x1 x2).
  - intros Hb. split; [done|]. split; [done|]. split; [by exists x2|]. intros q' Hserved ts' E'.
    pose proof (served_framed q' t (t :: ex) s s2 ltac:(by left) Hserved Hf) as Hs2. destruct (Hs2 ts' E') as [?|Hq]; [by left|right].
    intros u y Eu Hu Hay Hqy. destruct (decide (u = t)) as [->|Hne]; [|apply (Hq u y Eu); [by apply not_elem_of_cons|done|done]].
    rewrite B3 in Eu. injection Eu as <-. destruct (B6 Hb) as (v & z & V1 & V2 & V3 & V4 & V5). apply (covered_mono _ (expires z)); [|unfold due in V5; by rewrite B3 in V5].
    apply (Hq v z); [done|done|done|]. by rewrite V4, <- Hqy, (alike_queue x1 x2).
Qed.
End Ops.

(** ** Timers that enter and leave the system *)

Definition idle (x : timer) : Prop := t_status x = TIMER_STATUS_invalid \/ t_status x = TIMER_STATUS_killed.
Lemma idle_not_has st q ex s t x y : tms s !! t = Some x -> idle x -> st <> TIMER_STATUS_invalid -> st <> TIMER_STATUS_killed -> ~ has st q ex s t y.
Proof. intros E [H|H] H1 H2 (A1 & _ & A3 & _); congruence. Qed.

Lemma parts_change ex ex' s s' t q ts : (forall u, u <> t -> tms s' !! u = tms s !! u) -> (forall u, u <> t -> u ∈ ex <-> u ∈ ex') ->
  (forall st y, st <> TIMER_STATUS_invalid -> st <> TIMER_STATUS_killed -> ~ has st q ex s t y) -> (forall st y, st <> TIMER_STATUS_invalid -> st <> TIMER_STATUS_killed -> ~ has st q ex' s' t y) ->
  tqs s !! q = Some ts -> tqs s' !! q = Some ts -> queue_ok ex s q ts -> queue_ok ex' s' q ts.
Proof.
  intros Hs Hex H0 H1 E E' H. apply parts_ok. intros st. pose proof (proj1 (parts_ok _ _ _ _) H st) as Hp. destruct st; [done| |done| |];
    (apply (part_ext _ q ex s ex' s' ts ts); [apply (same_members_but t); auto|done|done|apply part_same_refl|done]).
Qed.

Lemma adopt_ok ex s t x x' : sys_ok ex s -> found ex s t x -> idle x -> live x' s -> sys_ok (t :: ex) (with_timer t x' s).
Proof.
  intros [A B C] [E Hex] Hi Hl. assert (forall u, u <> t -> tms (with_timer t x' s) !! u = tms s !! u) as Hu by (intros u Hne; by rewrite with_timer_ne). split.
  - intros q ts Eq. apply (parts_change ex (t :: ex) s _ t); [done|intros u Hne; by apply cons_iff|intros st y; by apply (idle_not_has st q ex s t x)|intros st y _ _; apply not_has_cons|done|done|by apply A].
  - intros u y Ey Hne. apply not_elem_of_cons in Hne as [Hne Hnex]. rewrite Hu in Ey by done. by apply (timer_ok_ext y s), (B u y).
  - intros u Hin. destruct (decide (u = t)) as [->|Hne]; [exists x'; split; [apply with_timer_eq; by apply lookup_lt_Some in E|by apply (live_ext x' s)]|].
    apply elem_of_cons in Hin as [->|Hin]; [done|]. rewrite Hu by done. destruct (C u Hin) as (y & Ey & Hy). exists y. split; [done|by apply (live_ext y s)].
Qed.
Lemma retire_ok ex s t x x' : sys_ok (t :: ex) s -> t ∉ ex -> tms s !! t = Some x -> t_status x' = TIMER_STATUS_killed -> timer_ok x' s -> sys_ok ex (with_timer t x' s).
Proof.
  intros [A B C] Hex E Hst Hok. assert (forall u, u <> t -> tms (with_timer t x' s) !! u = tms s !! u) as Hu by (intros u Hne; by rewrite with_timer_ne).
  assert (tms (with_timer t x' s) !! t = Some x') as Et by (apply with_timer_eq; by apply lookup_lt_Some in E). split.
  - intros q ts Eq. apply (parts_change (t :: ex) ex s _ t); [done|intros u Hne; symmetry; by apply cons_iff|intros st y _ _; apply not_has_cons|intros st y; apply (idle_not_has st q ex _ t x'); [done|by right]|done|done|by apply A].
  - intros u y Ey Hne. destruct (decide (u = t)) as [->|Hut]; [rewrite Et in Ey; injection Ey as <-; by apply (timer_ok_ext x' s)|]. rewrite Hu in Ey by done. apply (timer_ok_ext y s); [done|]. apply (B u y Ey). by apply not_elem_of_cons.
  - intros u Hin. assert (u <> t) as Hut by (intros ->; done). rewrite Hu by done. destruct (C u ltac:(by right)) as (y & Ey & Hy). exists y. split; [done|by apply (live_ext y s)].
Qed.

(** A timer that is not set changes its deadline. *)
Lemma inactive_ok ex s t x x' : sys_ok ex s -> found ex s t x -> t_status x = TIMER_STATUS_inactive -> t_status x' = TIMER_STATUS_inactive -> t_pos x' = t_pos x ->
  t_type x' = t_type x -> t_place x' = t_place x -> sys_ok ex (with_timer t x' s).
Proof.
  intros Hs Hx Hst Hst' Hpos Hty Hpl. pose proof (inactive_live ex s t x Hs Hx Hst) as Hl. destruct Hx as [E Hex]. assert (queue_of x' = queue_of x) as Hq by (unfold queue_of; by rewrite Hty, Hpl).
  assert (tms (with_timer t x' s) !! t = Some x') as Et by (apply with_timer_eq; by apply lookup_lt_Some in E). assert (forall u, u <> t -> tms (with_timer t x' s) !! u = tms s !! u) as Hu by (intros u Hne; by rewrite with_timer_ne).
  destruct (lv_queue _ _ Hl) as [ts Eq]. pose proof (so_queues _ _ Hs _ ts Eq) as [_ _ (D1 & D2 & D3)].
  apply (change_ok TIMER_STATUS_inactive (queue_of x) ex ex s _ t ts ts Hs); [done| |done|done|done|intros; apply part_same_refl| |by apply near_timer|done|].
  - intros st' q' Hne. apply (same_members_but t); [done|done|intros y; by apply (has_other TIMER_STATUS_inactive (queue_of x) _ _ ex s t x y)|].
    intros y. apply (has_other TIMER_STATUS_inactive (queue_of x) _ _ _ _ _ x'); [|done]. by repeat split.
  - split; [done|]. split.
    + intros u Hin. destruct (decide (u = t)) as [->|Hne]; [exists x'; by repeat split|]. destruct (D2 u Hin) as (y & Y1 & Y2). exists y. split; [by rewrite Hu|done].
    + intros u y (Y1 & Y2 & Y3). destruct (decide (u = t)) as [->|Hne]; [apply (D3 t x); by repeat split|]. rewrite Hu in Y1 by done. by apply (D3 u y).
  - intros _ y Ey. rewrite Et in Ey. injection Ey as <-. pose proof (so_timers _ _ Hs t x E Hex) as Ht. unfold timer_ok in *. rewrite Hst in Ht. rewrite Hst', Hpos, Hq.
    destruct Ht as [[L1 L2 L3] L4]. split; [|done]. split; [by rewrite Hty|unfold is_killed in *; by rewrite Hpl, Hty|]. rewrite Hq. exact L3.
Qed.

Lemma served_inactive q t ex s x : served q (t :: ex) s -> tms s !! t = Some x -> ~ is_active x -> served q ex s.
Proof.
  intros H E Hn ts Eq. destruct (H ts Eq) as [?|Hq]; [by left|right]. intros u y Eu Hu Ha Hqy. apply (Hq u y Eu); [|done|done]. apply not_elem_of_cons. split; [|done]. intros ->. congruence.
Qed.
Lemma not_active_status x st : t_status x = st -> st = TIMER_STATUS_inactive \/ st = TIMER_STATUS_killed -> ~ is_active x.
Proof. intros E [->| ->] [H|H]; congruence. Qed.

(** ** The operations *)

Definition typed (x : timer) : Prop := t_type x = TIMER_TYPE_cpu \/ t_type x = TIMER_TYPE_vcpu.

Section Calls.
Context (ex : list nat).

Lemma status_cases s t x : sys_ok ex s -> found ex s t x -> typed x ->
  (is_killed x = true /\ t_status x = TIMER_STATUS_killed) \/ (live x s /\ (t_status x = TIMER_STATUS_inactive \/ is_active x)).
Proof.
  intros Hs [E Hex] Ht. pose proof (so_timers _ _ Hs t x E Hex) as H. unfold timer_ok in H. unfold is_active. destruct (t_status x) eqn:Est; [|tauto..].
  destruct Ht as [Ht|Ht]; rewrite Ht in H; discriminate.
Qed.
Lemma active_timer_wp s t x (Q : bool -> tsys -> Prop) : tms s !! t = Some x -> t_status x <> TIMER_STATUS_invalid ->
  (forall b, (b = true <-> is_active x) -> Q b s) -> wp (active_timer t) Q s.
Proof.
  intros E Hst HQ. unfold active_timer. apply wp_bind, (timer_wp s t x); [done|]. apply wp_bind, wp_bug_if; [unfold status_is; by rewrite bool_decide_false|]. apply wp_ret, HQ.
  unfold status_is, is_active. rewrite orb_true_iff, !bool_decide_eq_true. done.
Qed.
Lemma lock_wp s t x (Q : bool -> tsys -> Prop) : tms s !! t = Some x -> typed x -> Q (negb (is_killed x)) s -> wp (timer_lock t) Q s.
Proof.
  intros E Ht HQ. unfold timer_lock, own_queue. apply wp_bind, wp_bind, (timer_wp s t x); [done|]. apply wp_bind, wp_bug_if.
  - apply negb_false_iff, orb_true_iff. destruct Ht as [->| ->]; auto.
  - apply wp_ret. apply wp_bind, (timer_wp s t x); [done|]. by apply wp_ret.
Qed.

(** What an operation on [t] leaves alone *)
Record keeps (t : nat) (s s' : tsys) : Prop := {
  kp_ok : sys_ok ex s';
  kp_frame : framed t s s';
  kp_served : forall q, served q ex s -> served q ex s'
}.
Lemma host_keeps_refl t s : sys_ok ex s -> keeps t s s.
Proof. intros H. split; [done|apply framed_refl|done]. Qed.
Lemma keeps_still t s s' x : sys_ok ex s' -> framed t s s' -> tms s' !! t = Some x -> ~ is_active x -> keeps t s s'.
Proof.
  intros Hs Hf E Ha. split; [done|done|]. intros q' H. apply (served_inactive q' t ex s' x); [|done|done]. apply (served_framed q' t (t :: ex) s s'); [by left| |done].
  apply (served_less q' ex); [|done]. intros u Hu. by right.
Qed.

Lemma deactivate_if_active_wp s t x : sys_ok ex s -> found ex s t x -> live x s -> t_status x = TIMER_STATUS_inactive \/ is_active x ->
  wp (deactivate_if_active t) (fun a s' => sys_ok ex s' /\ framed t s s' /\ (exists x', tms s' !! t = Some x' /\ alike x x' /\ t_status x' = TIMER_STATUS_inactive) /\
    (a = true <-> is_active x)) s.
Proof.
  intros Hs Hx Hl Hst. unfold deactivate_if_active. apply wp_bind, (active_timer_wp s t x); [apply Hx|intros H; destruct Hst as [Hst|[Hst|Hst]]; congruence|]. intros a Ha. apply wp_bind, wp_when.
  - intros ->. eapply wp_mono; [apply deactivate_wp; [done|done|by apply Ha]|]. intros [] s' (A1 & A2 & A3). by apply wp_ret.
  - intros ->. apply wp_ret. split; [done|]. split; [apply framed_refl|]. split; [|done]. exists x. split; [apply Hx|]. split; [apply alike_refl|].
    destruct Hst as [|Hst]; [done|]. apply Ha in Hst. done.
Qed.

(** A live timer is set to [e]. *)
Lemma host_rearm_wp s t x e : sys_ok ex s -> found ex s t x -> live x s -> t_status x = TIMER_STATUS_inactive \/ is_active x ->
  wp (deactivate_if_active t;; upd_timer t (set_expires e);; activate_timer t)
    (fun _ s' => keeps t s s' /\ exists x', tms s' !! t = Some x' /\ alike (set_expires e x) x' /\ is_active x') s.
Proof.
  intros Hs Hx Hl Hst. pose proof Hx as [E Hex]. apply wp_bind. eapply wp_mono; [by apply (deactivate_if_active_wp s t x)|]. intros a s1 (A1 & A2 & (x1 & A3 & A4 & A5) & _).
  apply wp_bind, (upd_timer_wp s1 t x1); [done|]. set (s2 := with_timer _ _ _). assert (sys_ok ex s2) as B1 by (by apply (inactive_ok ex s1 t x1)).
  assert (tms s2 !! t = Some (set_expires e x1)) as B2 by (apply with_timer_eq; by apply lookup_lt_Some in A3). assert (framed t s s2) as B3 by (by apply (framed_trans t s s1); [|apply framed_timer]).
  eapply wp_mono; [by apply (activate_wp ex s2 t (set_expires e x1))|]. intros [] s3 (C1 & C2 & (x3 & C3 & C4 & C5) & C6). split.
  - split; [done|by apply (framed_trans t s s2)|]. intros q' H. apply C6. apply (served_framed q' t (t :: ex) s s2); [by left| |done]. apply (served_less q' ex); [|done]. intros u Hu. by right.
  - exists x3. split; [done|]. split; [|done]. apply (alike_trans _ (set_expires e x1)); [|done]. rewrite A4. by destruct x.
Qed.

Lemma host_set_timer_wp s t x e : sys_ok ex s -> found ex s t x -> typed x ->
  wp (set_timer t e) (fun _ s' => keeps t s s' /\ exists x', tms s' !! t = Some x' /\
    if is_killed x then x' = x else alike (set_expires e x) x' /\ is_active x') s.
Proof.
  intros Hs Hx Ht. pose proof Hx as [E Hex]. unfold set_timer. apply wp_bind, (lock_wp s t x); [done|done|]. apply wp_when.
  - intros Hk. apply negb_true_iff in Hk. destruct (status_cases s t x Hs Hx Ht) as [[? _]|[Hl Hst]]; [congruence|]. rewrite Hk. by apply host_rearm_wp.
  - intros Hk. apply negb_false_iff in Hk. rewrite Hk. split; [by apply host_keeps_refl|by exists x].
Qed.

Lemma advance_timer_wp s t x e : sys_ok ex s -> found ex s t x -> typed x ->
  wp (advance_timer t e) (fun _ s' => keeps t s s' /\ exists x', tms s' !! t = Some x' /\
    (x' = x \/ alike (set_expires e x) x' /\ is_active x')) s.
Proof.
  intros Hs Hx Ht. pose proof Hx as [E Hex]. unfold advance_timer. apply wp_bind, (lock_wp s t x); [done|done|]. apply wp_when.
  - intros Hk. apply negb_true_iff in Hk. destruct (status_cases s t x Hs Hx Ht) as [[? _]|[Hl Hst]]; [congruence|].
    apply wp_bind, (active_timer_wp s t x); [done|intros H; destruct Hst as [Hst|[Hst|Hst]]; congruence|]. intros a Ha. apply wp_bind, (timer_wp s t x); [done|]. apply wp_when.
    + intros _. eapply wp_mono; [by apply host_rearm_wp|]. intros [] s' (A1 & x' & A2 & A3). split; [done|]. exists x'. auto.
    + intros _. split; [by apply host_keeps_refl|]. exists x. auto.
  - intros _. split; [by apply host_keeps_refl|]. exists x. auto.
Qed.

Lemma stop_timer_wp s t x : sys_ok ex s -> found ex s t x -> typed x ->
  wp (stop_timer t) (fun _ s' => keeps t s s' /\ exists x', tms s' !! t = Some x' /\ alike x x' /\ ~ is_active x') s.
Proof.
  intros Hs Hx Ht. pose proof Hx as [E Hex]. unfold stop_timer. apply wp_bind, (lock_wp s t x); [done|done|]. destruct (status_cases s t x Hs Hx Ht) as [[Hk Hst]|[Hl Hst]].
  - rewrite Hk. split; [by apply host_keeps_refl|]. exists x. split; [done|]. split; [apply alike_refl|]. apply (not_active_status x _ Hst). by right.
  - rewrite (lv_alive _ _ Hl). apply wp_bind. eapply wp_mono; [by apply (deactivate_if_active_wp s t x)|]. intros a s1 (A1 & A2 & (x1 & A3 & A4 & A5) & _). apply wp_ret.
    assert (~ is_active x1) as Hna by (apply (not_active_status x1 _ A5); by left). split; [by apply (keeps_still t s s1 x1)|by exists x1].
Qed.

(** An inactive timer goes to another queue, and is set there again. *)
Lemma move_wp s t x new (active : bool) : sys_ok ex s -> found ex s t x -> t_status x = TIMER_STATUS_inactive ->
  is_killed (set_place new x) = false -> is_Some (tqs s !! queue_of (set_place new x)) ->
  wp (inactive_del t;; upd_timer t (set_place new);; inactive_add t (queue_of (set_place new x));; when active (activate_timer t))
    (fun _ s' => sys_ok ex s' /\ framed t s s' /\ (forall q, served q (t :: ex) s -> served q ex s') /\
      exists x', tms s' !! t = Some x' /\ alike (set_place new x) x' /\ (if active then is_active x' else t_status x' = TIMER_STATUS_inactive)) s.
Proof.
  intros Hs Hx Hst Hk [ts Eq]. pose proof (inactive_live ex s t x Hs Hx Hst) as Hl. pose proof Hx as [E Hex]. set (q := queue_of (set_place new x)) in *.
  apply wp_bind. eapply wp_mono; [by apply (inactive_del_wp ex s t x (queue_of x))|]. intros [] s1 (A1 & A2 & A3). destruct (fr_queues _ _ _ A2 q ts Eq) as (ts1 & Eq1 & _).
  assert (live (set_place new (set_pos PosNone x)) s1) as Hl1 by (split; [apply Hl|exact Hk|exists ts1; exact Eq1]).
  apply wp_bind, (loose_wp ex s1 t (set_pos PosNone x)); [done|done|done|]. set (s2 := with_timer _ _ _). intros B1 B2 B3.
  apply wp_bind. eapply wp_mono; [apply (inactive_add_wp ex s2 t _ q ts1 B1 B3); [done|done|done|by apply (live_framed _ s1 s2 t)|done]|]. intros [] s3 (C1 & C2 & C3).
  assert (framed t s s3) as Hf by (apply (framed_trans t s s2); [by apply (framed_trans t s s1)|done]). set (x3 := set_pos _ _) in C3.
  assert (alike (set_place new x) x3) as Ha by (by destruct x). destruct active.
  - eapply wp_mono; [by apply (activate_wp ex s3 t x3)|]. intros [] s4 (D1 & D2 & (x4 & D3 & D4 & D5) & D6). split; [done|]. split; [by apply (framed_trans t s s3)|]. split.
    + intros q' H. apply D6. by apply (served_framed q' t (t :: ex) s s3); [left| |].
    + exists x4. split; [done|]. split; [by apply (alike_trans _ x3)|done].
  - split; [done|]. split; [done|]. split; [|by exists x3]. intros q' H. apply (served_inactive q' t ex s3 x3); [by apply (served_framed q' t (t :: ex) s s3); [left| |]|done|].
    apply (not_active_status x3 TIMER_STATUS_inactive); [done|by left].
Qed.

(** Moved if alive, and still set if it was set *)
Definition moved_to (new : Z) (x x' : timer) : Prop := alike (set_place new x) x' /\ (is_active x' <-> is_active x).

Lemma deactivate_move_wp s t x new : sys_ok ex s -> found ex s t x -> live x s -> t_status x = TIMER_STATUS_inactive \/ is_active x ->
  is_killed (set_place new x) = false -> is_Some (tqs s !! queue_of (set_place new x)) ->
  wp (active <- deactivate_if_active t;; inactive_del t;; upd_timer t (set_place new);; inactive_add t (queue_of (set_place new x));; when active (activate_timer t))
    (fun _ s' => keeps t s s' /\ exists x', tms s' !! t = Some x' /\ moved_to new x x') s.
Proof.
  intros Hs Hx Hl Hst Hk Hq. pose proof Hx as [E Hex]. apply wp_bind. eapply wp_mono; [by apply (deactivate_if_active_wp s t x)|]. intros a s1 (A1 & A2 & (x1 & A3 & A4 & A5) & A6).
  assert (queue_of (set_place new x1) = queue_of (set_place new x)) as Eq by (rewrite A4; by destruct x). rewrite <- Eq in *.
  assert (is_killed (set_place new x1) = false) as Hk1 by (rewrite A4; by destruct x).
  eapply wp_mono; [apply (move_wp s1 t x1 new a A1); [by split|done|done|by apply (framed_some t s s1)]|]. intros [] s2 (B1 & B2 & B3 & x2 & B4 & B5 & B6). split.
  - split; [done|by apply (framed_trans t s s1)|]. intros q' H. apply B3. apply (served_framed q' t (t :: ex) s s1); [by left| |done]. apply (served_less q' ex); [|done]. intros u Hu. by right.
  - exists x2. split; [done|]. split; [apply (alike_trans _ (set_place new x1)); [rewrite A4; by destruct x|done]|]. rewrite <- A6. destruct a; [done|].
    split; [|done]. intros H. exfalso. exact (not_active_status x2 _ B6 ltac:(by left) H).
Qed.

Lemma migrate_timer_wp s t x new : sys_ok ex s -> found ex s t x -> typed x -> is_Some (tqs s !! OnCpu new) -> new <> TIMER_CPU_status_killed ->
  wp (migrate_timer t new) (fun _ s' => keeps t s s' /\ exists x', tms s' !! t = Some x' /\ (x' = x \/ moved_to new x x')) s.
Proof.
  intros Hs Hx Ht Hq Hnk. pose proof Hx as [E Hex]. unfold migrate_timer. apply wp_bind, (timer_wp s t x); [done|].
  assert (keeps t s s /\ exists x', tms s !! t = Some x' /\ (x' = x \/ moved_to new x x')) as Hnop by (split; [by apply host_keeps_refl|eauto]).
  destruct Ht as [Ht|Ht]; rewrite Ht; cbn [Z.eqb negb TIMER_TYPE_cpu TIMER_TYPE_vcpu Pos.eqb when]; [|exact Hnop].
  apply wp_bind, wp_bug_if; [done|]. apply wp_when; [|intros _; exact Hnop]. intros Hc. apply negb_true_iff, orb_false_iff in Hc as [Hc1 Hc2]. apply Z.eqb_neq in Hc1. apply Z.eqb_neq in Hc2.
  destruct (status_cases s t x Hs Hx (or_introl Ht)) as [[Hk _]|[Hl Hst]]; [unfold is_killed in Hk; rewrite Ht, Z.eqb_refl in Hk; by apply Z.eqb_eq in Hk|].
  assert (queue_of (set_place new x) = OnCpu new) as Eq by (unfold queue_of; cbn; by rewrite Ht). rewrite <- Eq in *.
  assert (is_killed (set_place new x) = false) as Hk by (unfold is_killed; cbn; rewrite Ht, Z.eqb_refl; by apply Z.eqb_neq).
  eapply wp_mono; [by apply (deactivate_move_wp s t x new)|]. intros [] s' (A1 & x' & A2 & A3). split; [done|]. exists x'. auto.
Qed.
Lemma migrate_vcpu_wp s t x v : sys_ok ex s -> found ex s t x -> t_type x = TIMER_TYPE_vcpu -> is_killed x = false -> is_Some (tqs s !! OnVcpu v) -> v <> TIMER_VCPU_status_killed ->
  wp (migrate_timer_to_vcpu t v) (fun _ s' => keeps t s s' /\ exists x', tms s' !! t = Some x' /\ moved_to v x x') s.
Proof.
  intros Hs Hx Ht Hkx Hq Hnk. pose proof Hx as [E Hex]. unfold migrate_timer_to_vcpu. apply wp_bind, (timer_wp s t x); [done|]. apply wp_bind, wp_bug_if; [by rewrite Ht|].
  destruct (status_cases s t x Hs Hx (or_intror Ht)) as [[Hk _]|[Hl Hst]]; [congruence|].
  assert (queue_of (set_place v x) = OnVcpu v) as Eq by (unfold queue_of; cbn; by rewrite Ht). rewrite <- Eq in *.
  assert (is_killed (set_place v x) = false) as Hk by (unfold is_killed; cbn; rewrite Ht; by apply Z.eqb_neq). by apply (deactivate_move_wp s t x v).
Qed.

(** *** Killing *)

Definition not_running (t : nat) (s : tsys) : Prop := forall q ts, tqs s !! q = Some ts -> running ts <> Some t.
Lemma not_running_framed t u s s' : not_running t s -> framed u s s' -> not_running t s'.
Proof. intros H Hf q ts' E'. destruct (framed_queue_back _ _ _ _ _ Hf E') as (ts & E & R). destruct R as (_ & -> & _). by apply (H q). Qed.
Lemma wait_idle_wp t q s (Q : unit -> tsys -> Prop) : not_running t s -> is_Some (tqs s !! q) -> Q tt s -> wp (wait_idle t q) Q s.
Proof. intros H [ts E] HQ. unfold wait_idle. apply wp_bind, (queue_wp s q ts); [done|]. apply wp_bug_if; [|done]. unfold runs. apply bool_decide_eq_false. by apply (H q). Qed.
Lemma wait_all_wp t l s : not_running t s -> Forall (fun q => is_Some (tqs s !! q)) l -> wp (wait_all t l) (fun _ s' => s' = s) s.
Proof. intros H. induction 1 as [|q l Hq _ IH]; cbn [wait_all]; [by apply wp_ret|]. apply wp_bind. by apply wait_idle_wp. Qed.

(** The caller is on an existing processor and vcpu. *)
Definition caller_ok (cpu current : Z) (online : list Z) (s : tsys) : Prop :=
  is_Some (tqs s !! OnCpu cpu) /\ is_Some (tqs s !! OnVcpu current) /\ Forall (fun c => is_Some (tqs s !! OnCpu c)) online.

Lemma kill_timer_wp s t x cpu current online : sys_ok ex s -> found ex s t x -> typed x -> not_running t s -> caller_ok cpu current online s ->
  wp (kill_timer t cpu current online) (fun _ s' => keeps t s s' /\ exists x', tms s' !! t = Some x' /\ t_status x' = TIMER_STATUS_killed /\ is_killed x' = true /\ typed x') s.
Proof.
  intros Hs Hx Ht Hr (Hc1 & Hc2 & Hc3). pose proof Hx as [E Hex]. unfold kill_timer. apply wp_bind, (timer_wp s t x); [done|]. apply wp_when; [|intros H; destruct Ht as [Ht|Ht]; by rewrite Ht in H]. intros _.
  apply wp_bind. apply (wp_mono _ (fun _ s' => s' = s)).
  { destruct Ht as [Ht|Ht]; rewrite Ht; cbn [Z.eqb TIMER_TYPE_cpu TIMER_TYPE_vcpu Pos.eqb negb]; [by apply wait_idle_wp|]. apply wp_bind, wp_bug_if; [done|]. by apply wait_idle_wp. }
  intros [] ? ->. apply wp_bind, (lock_wp s t x); [done|done|]. destruct (status_cases s t x Hs Hx Ht) as [[Hk Hst]|[Hl Hst]].
  { rewrite Hk. split; [by apply host_keeps_refl|by exists x]. }
  rewrite (lv_alive _ _ Hl). apply wp_bind. eapply wp_mono; [by apply (deactivate_if_active_wp s t x)|]. intros a s1 (A1 & A2 & (x1 & A3 & A4 & A5) & _).
  apply wp_bind. eapply wp_mono; [by apply (inactive_del_wp ex s1 t x1 (queue_of x1))|]. intros [] s2 (B1 & B2 & B3). assert (framed t s s2) as Hf2 by (by apply (framed_trans t s s1)).
  apply wp_bind, (upd_timer_wp s2 t (set_pos PosNone x1)); [exact B3|]. set (x2 := set_status _ _). set (s3 := with_timer _ _ _).
  assert (tms s3 !! t = Some x2) as Et by (apply with_timer_eq; by apply lookup_lt_Some in B3). assert (t_type x2 = t_type x) as Ety by (unfold x2; rewrite A4; by destruct x).
  assert (forall new, is_killed (set_place new x2) = true -> keeps t s (with_timer t (set_place new x2) s3) /\
    exists x', tms (with_timer t (set_place new x2) s3) !! t = Some x' /\ t_status x' = TIMER_STATUS_killed /\ is_killed x' = true /\ typed x') as Hend.
  { intros new Hk. assert (tms (with_timer t (set_place new x2) s3) !! t = Some (set_place new x2)) as E4 by (apply with_timer_eq; by apply lookup_lt_Some in Et).
    assert (typed (set_place new x2)) as Hty by (unfold typed; cbn [t_type set_place]; by rewrite Ety). split; [|by exists (set_place new x2)].
    assert (with_timer t (set_place new x2) s3 = with_timer t (set_place new x2) s2) as E5 by (unfold s3, with_timer, set_tms; cbn; by rewrite list_insert_insert_eq).
    apply (keeps_still t s _ (set_place new x2)); [|by rewrite E5; apply (framed_trans t s s2); [|apply framed_timer]|done|apply (not_active_status _ TIMER_STATUS_killed); [done|by right]].
    rewrite E5. by apply (retire_ok ex s2 t (set_pos PosNone x1)). }
  assert (forall new, framed t s (with_timer t (set_place new x2) s3)) as Hf4.
  { intros new. apply (framed_trans t s s2); [done|]. apply (framed_trans t s2 s3); apply framed_timer. }
  destruct Ht as [Ht|Ht]; rewrite Ht; cbn [Z.eqb TIMER_TYPE_cpu TIMER_TYPE_vcpu Pos.eqb].
  - apply wp_bind, (upd_timer_wp s3 t x2); [done|]. eapply wp_mono; [apply wait_all_wp; [by apply (not_running_framed t t s)|]|].
    + apply list.Forall_fmap. eapply Forall_impl; [exact Hc3|]. intros c Hc. cbn. exact (framed_some t s _ _ (Hf4 TIMER_CPU_status_killed) Hc).
    + intros [] ? ->. apply Hend. unfold is_killed. cbn [t_type t_place set_place]. by rewrite Ety, Ht.
  - apply wp_bind, (upd_timer_wp s3 t x2); [done|]. apply wait_idle_wp; [by apply (not_running_framed t t s)|exact (framed_some t s _ _ (Hf4 TIMER_VCPU_status_killed) (lv_queue _ _ Hl))|].
    apply Hend. unfold is_killed. cbn [t_type t_place set_place]. by rewrite Ety, Ht.
Qed.

(** *** New timers *)

Lemma init_wp s t x f d place type : sys_ok ex s -> found ex s t x -> idle x -> live (new_timer f d place type) s ->
  wp (init_on t f d place type) (fun _ s' => keeps t s s' /\ exists x', tms s' !! t = Some x' /\ alike (new_timer f d place type) x' /\ t_status x' = TIMER_STATUS_inactive) s.
Proof.
  intros Hs Hx Hi Hl. pose proof Hx as [E Hex]. set (x1 := new_timer f d place type) in *. unfold init_on. apply wp_bind, (upd_timer_wp s t x); [done|]. fold x1. set (s1 := with_timer t x1 s).
  assert (sys_ok (t :: ex) s1) as A1 by (by apply (adopt_ok ex s t x)). assert (tms s1 !! t = Some x1) as A2 by (apply with_timer_eq; by apply lookup_lt_Some in E).
  apply wp_bind, (lock_wp s1 t x1); [done|apply Hl|]. rewrite (lv_alive _ _ Hl). apply wp_bind, wp_bug_if; [done|]. assert (live x1 s1) as Hl1 by (destruct Hl; by split).
  apply wp_bind, (own_queue_wp s1 t x1); [done|done|]. destruct (lv_queue _ _ Hl1) as [ts Eq]. eapply wp_mono; [by apply (inactive_add_wp ex s1 t x1 _ ts A1 A2)|].
  intros [] s2 (B1 & B2 & B3). assert (framed t s s2) as Hf by (apply (framed_trans t s s1); [apply framed_timer|done]). split.
  - apply (keeps_still t s s2 _ B1 Hf B3). apply (not_active_status _ TIMER_STATUS_inactive); [done|by left].
  - eexists. split; [exact B3|]. split; [apply alike_pos|done].
Qed.
End Calls.
