(* ===== verification/HostTimerRun.v ===== *)
(** * The soft interrupt of the timers *)

From stdpp Require Import base list numbers gmap sorting.
From Stdlib Require Import ZArith Lia.
From S2P Require Import Prelude HostTimer HostHeap HostTimerInv HostTimerOps.

Open Scope Z_scope.
Open Scope se_scope.

(** ** Correctness of loops with fuel

    The computation does not stop the hypervisor; it satisfies [Q] if it
    comes to its end, which it does if [T]. *)

Definition gwp {S A} (T : Prop) (m : SE S A) (Q : A -> S -> Prop) (s : S) : Prop :=
  match m s with
  | (s', Ok a) => Q a s'
  | (_, Err _) => ~ T
  | (_, Bug) => False
  end.
Lemma gwp_wp {S A} T (m : SE S A) Q s : wp m Q s -> gwp T m Q s.
Proof. unfold wp, gwp. by destruct (m s) as [s' [a| |]]. Qed.
Lemma gwp_bind {S A B} T (m : SE S A) (k : A -> SE S B) Q s : gwp T m (fun a => gwp T (k a) Q) s -> gwp T (bind m k) Q s.
Proof. unfold gwp, bind. by destruct (m s) as [s' []]. Qed.
Lemma gwp_mono {S A} T (m : SE S A) (Q Q' : A -> S -> Prop) s : gwp T m Q s -> (forall a s', Q a s' -> Q' a s') -> gwp T m Q' s.
Proof. unfold gwp. destruct (m s) as [s' []]; eauto. Qed.
Lemma gwp_total {S A} (T : Prop) (m : SE S A) Q s : T -> gwp T m Q s -> wp m Q s.
Proof. unfold gwp, wp. destruct (m s) as [s' []]; [done|by intros HT H; apply H|done]. Qed.
(** A first part that always comes to its end *)
Lemma gwp_step {S A B} T (m : SE S A) (k : A -> SE S B) Q s : wp m (fun a => gwp T (k a) Q) s -> gwp T (bind m k) Q s.
Proof. intros H. by apply gwp_bind, gwp_wp. Qed.

(** The same, for a last part that stops the hypervisor only if [B] *)
Definition bwp {S A} (T B : Prop) (m : SE S A) (Q : A -> S -> Prop) (s : S) : Prop :=
  match m s with
  | (s', Ok a) => Q a s'
  | (_, Err _) => ~ T
  | (_, Bug) => B
  end.
Lemma bwp_wp {S A} T B (m : SE S A) Q s : wp m Q s -> bwp T B m Q s.
Proof. unfold wp, bwp. by destruct (m s) as [s' [a| |]]. Qed.
Lemma bwp_bind {S A A'} T B (m : SE S A) (k : A -> SE S A') Q s : gwp T m (fun a => bwp T B (k a) Q) s -> bwp T B (bind m k) Q s.
Proof. unfold gwp, bwp, bind. by destruct (m s) as [s' []]. Qed.
Lemma bwp_last {S A A'} T B (m : SE S A) (k : A -> SE S A') Q s : bwp T B m (fun a => wp (k a) Q) s -> bwp T B (bind m k) Q s.
Proof. unfold bwp, wp, bind. destruct (m s) as [s' [a| |]]; [|done|done]. by destruct (k a s') as [s'' []]. Qed.
Lemma bwp_step {S A A'} T B (m : SE S A) (k : A -> SE S A') Q s : wp m (fun a => bwp T B (k a) Q) s -> bwp T B (bind m k) Q s.
Proof. intros H. by apply bwp_bind, gwp_wp. Qed.
Lemma bwp_mono {S A} T B (m : SE S A) (Q Q' : A -> S -> Prop) s : bwp T B m Q s -> (forall a s', Q a s' -> Q' a s') -> bwp T B m Q' s.
Proof. unfold bwp. destruct (m s) as [s' []]; eauto. Qed.
Lemma bwp_weaken {S A} (T T' B : Prop) (m : SE S A) Q s : (T -> T') -> bwp T' B m Q s -> bwp T B m Q s.
Proof. unfold bwp. destruct (m s) as [s' []]; auto. Qed.
Lemma bwp_total {S A} (T B : Prop) (m : SE S A) Q s : T -> ~ B -> bwp T B m Q s -> wp m Q s.
Proof. unfold bwp, wp. destruct (m s) as [s' []]; [done|by intros HT _ H; apply H|done]. Qed.

(** ** Counting *)

Lemma filter_le {A} (P : A -> Prop) `{HP : !forall x, Decision (P x)} (l l' : list A) : length l' = length l ->
  (forall i x', l' !! i = Some x' -> P x' -> exists x, l !! i = Some x /\ P x) -> (length (filter P l') <= length (filter P l))%nat.
Proof.
  revert l. induction l' as [|a' l' IH]; intros [|a l] Hl H; [done..|]. cbn in Hl. assert (length (filter P l') <= length (filter P l))%nat as IH' by (apply IH; [lia|intros i; apply (H (S i))]).
  rewrite !filter_cons. destruct (decide (P a')) as [Ha'|]; [|case_decide; cbn; lia]. destruct (H 0%nat a' eq_refl Ha') as (x & E & Hx). cbn in E. injection E as ->. rewrite decide_True by done. cbn. lia.
Qed.
Lemma filter_lt {A} (P : A -> Prop) `{HP : !forall x, Decision (P x)} (l l' : list A) i x x' : length l' = length l ->
  (forall i x', l' !! i = Some x' -> P x' -> exists x, l !! i = Some x /\ P x) -> l !! i = Some x -> P x -> l' !! i = Some x' -> ~ P x' ->
  (length (filter P l') < length (filter P l))%nat.
Proof.
  revert l i. induction l' as [|a' l' IH]; intros [|a l] i Hl H Ex Hx Ex' Hx'; [done..|]. cbn in Hl. assert (forall j y', l' !! j = Some y' -> P y' -> exists y, l !! j = Some y /\ P y) as H' by (intros j; apply (H (S j))).
  destruct i as [|i]; cbn in Ex, Ex'.
  - injection Ex as ->. injection Ex' as ->. pose proof (filter_le P l l' ltac:(lia) H'). rewrite !filter_cons, (decide_True _ _ Hx), (decide_False _ _ Hx'). cbn. lia.
  - specialize (IH l i ltac:(lia) H' Ex Hx Ex' Hx'). rewrite !filter_cons. destruct (decide (P a')) as [Ha'|]; [|case_decide; cbn; lia].
    destruct (H 0%nat a' eq_refl Ha') as (y & E & Hy). cbn in E. injection E as ->. rewrite decide_True by done. cbn. lia.
Qed.

#[export] Instance is_active_dec x : Decision (is_active x).
Proof. unfold is_active. apply _. Defined.

(** The timers that are set to a time before [n0] *)
Definition overdue (n0 : Z) (x : timer) : Prop := is_active x /\ expires x < n0.
#[export] Instance overdue_dec n0 x : Decision (overdue n0 x).
Proof. unfold overdue. apply _. Defined.
Definition pend (n0 : Z) (s : tsys) : nat := length (filter (overdue n0) (tms s)).

(** No timer has been set to a [bad] time that was not set to one before. *)
Definition calm (bad : Z -> Prop) (s s' : tsys) : Prop := forall t x', tms s' !! t = Some x' -> is_active x' -> bad (expires x') ->
  exists x, tms s !! t = Some x /\ is_active x /\ bad (expires x).

Lemma calm_same bad s s' : tms s' = tms s -> calm bad s s'.
Proof. intros E t x'. rewrite E. by exists x'. Qed.
Lemma calm_trans bad s1 s2 s3 : calm bad s1 s2 -> calm bad s2 s3 -> calm bad s1 s3.
Proof. intros H1 H2 t x' E Ha Hb. destruct (H2 t x' E Ha Hb) as (x & Ex & Hx & Hbx). by apply (H1 t x). Qed.
Lemma calm_one bad t s s' : framed t s s' ->
  (forall x', tms s' !! t = Some x' -> is_active x' -> bad (expires x') -> exists x, tms s !! t = Some x /\ is_active x /\ bad (expires x)) -> calm bad s s'.
Proof.
  intros Hf Hc i x' E Ha Hb. destruct (decide (i = t)) as [->|Hne]; [by apply (Hc x')|]. destruct (framed_back t s s' i x' Hf Hne E) as (x & p & Ex & ->). by exists x.
Qed.
Lemma pend_le n0 s s' : length (tms s') = length (tms s) -> calm (fun e => e < n0) s s' -> (pend n0 s' <= pend n0 s)%nat.
Proof. intros Hl Hc. apply filter_le; [done|]. intros i x' E [Ha Hb]. exact (Hc i x' E Ha Hb). Qed.
Lemma pend_lt n0 t s s' x x' : length (tms s') = length (tms s) -> calm (fun e => e < n0) s s' -> tms s !! t = Some x -> overdue n0 x -> tms s' !! t = Some x' -> ~ overdue n0 x' ->
  (pend n0 s' < pend n0 s)%nat.
Proof. intros Hl Hc E Ho E' Ho'. apply (filter_lt _ _ _ t x x'); try done. intros i y E1 [Ha Hb]. exact (Hc i y E1 Ha Hb). Qed.

(** Times that the arithmetic of the soft interrupt does not wrap *)
Definition in_range (e : Z) : Prop := 0 <= e <= STIME_MAX - timer_slop.
Definition sane (s : tsys) : Prop := forall t x, tms s !! t = Some x -> is_active x -> in_range (expires x).
Lemma calm_sane s s' : calm (fun e => ~ in_range e) s s' -> sane s -> sane s'.
Proof.
  intros Hc Hs t x' E Ha. destruct (decide (0 <= expires x' <= STIME_MAX - timer_slop)) as [|Hn]; [done|]. destruct (Hc t x' E Ha Hn) as (x & Ex & Hx & Hb). destruct Hb. by apply (Hs t x).
Qed.

(** ** Calls *)

Definition subject (op : top) : nat :=
  match op with
  | TInit t _ _ _ | TInitVcpu t _ _ _ | TSet t _ | TAdvance t _ | TStop t | TMigrate t _ | TMigrateVcpu t _ | TKill t _ _ _ => t
  end.
Definition armed (op : top) : option Z := match op with TSet _ e | TAdvance _ e => Some e | _ => None end.

(** The rules of the interface (xen/timer.h): [init_timer] for a new or a killed
    timer, the other calls for one that was initialised; times in range; places that
    exist; no wait for a function that is running. *)
Definition top_ok (op : top) (s : tsys) : Prop := (forall e, armed op = Some e -> in_range e) /\
  exists x, tms s !! subject op = Some x /\
  match op with
  | TInit _ _ _ _ => idle x /\ is_Some (tqs s !! OnCpu 0)
  | TInitVcpu _ _ _ v => idle x /\ is_Some (tqs s !! OnVcpu v) /\ v <> TIMER_VCPU_status_killed
  | TSet _ _ | TAdvance _ _ | TStop _ => typed x
  | TMigrate _ c => typed x /\ is_Some (tqs s !! OnCpu c) /\ c <> TIMER_CPU_status_killed
  | TMigrateVcpu _ v => t_type x = TIMER_TYPE_vcpu /\ is_killed x = false /\ is_Some (tqs s !! OnVcpu v) /\ v <> TIMER_VCPU_status_killed
  | TKill t cpu current online => typed x /\ not_running t s /\ caller_ok cpu current online s
  end.

Lemma run_top_wp op s : sys_ok [] s -> top_ok op s ->
  wp (run_top op) (fun _ s' => keeps [] (subject op) s s' /\ forall bad, (forall e, armed op = Some e -> ~ bad e) -> calm bad s s') s.
Proof.
  intros Hs (_ & x & E & Hop). assert (found [] s (subject op) x) as Hx by (split; [done|apply not_elem_of_nil]).
  assert (forall s' x', keeps [] (subject op) s s' -> tms s' !! subject op = Some x' -> ~ is_active x' -> forall bad, calm bad s s') as Hstill.
  { intros s' x' [_ Hf _] E' Hn bad. apply (calm_one bad _ s s' Hf). intros y E'' Hy. rewrite E' in E''. by injection E'' as <-. }
  assert (forall s' x' e, keeps [] (subject op) s s' -> tms s' !! subject op = Some x' -> alike (set_expires e x) x' -> forall bad : Z -> Prop, ~ bad e -> calm bad s s') as Hset.
  { intros s' x' e [_ Hf _] E' Ha bad Hn. apply (calm_one bad _ s s' Hf). intros y E'' _. rewrite E' in E''. injection E'' as <-. by rewrite (alike_expires _ _ Ha). }
  assert (forall s' x' new, keeps [] (subject op) s s' -> tms s' !! subject op = Some x' -> moved_to new x x' -> forall bad, calm bad s s') as Hmove.
  { intros s' x' new [_ Hf _] E' [Ha Hi] bad. apply (calm_one bad _ s s' Hf). intros y E'' Hy. rewrite E' in E''. injection E'' as <-. rewrite (alike_expires _ _ Ha). exists x. by rewrite <- Hi. }
  assert (forall s', keeps [] (subject op) s s' -> tms s' !! subject op = Some x -> forall bad, calm bad s s') as Hsame.
  { intros s' [_ Hf _] E' bad. apply (calm_one bad _ s s' Hf). intros y E''. rewrite E' in E''. injection E'' as <-. by exists x. }
  destruct op as [t f d c|t f d v|t e|t e|t|t c|t v|t cpu current online]; cbn [run_top subject armed] in *.
  - eapply wp_mono; [apply (init_wp [] s t x); [done|done|apply Hop|split; [by left|done|apply Hop]]|]. intros [] s' (A & x' & A1 & _ & A2). split; [done|]. intros bad _. apply (Hstill s' x' A A1). by apply (not_active_status x' _ A2); left.
  - destruct Hop as (H1 & H2 & H3). eapply wp_mono; [apply (init_wp [] s t x); [done|done|done|split; [by right| |done]]|].
    + unfold is_killed. cbn. by apply Z.eqb_neq.
    + intros [] s' (A & x' & A1 & _ & A2). split; [done|]. intros bad _. apply (Hstill s' x' A A1). by apply (not_active_status x' _ A2); left.
  - eapply wp_mono; [by apply (host_set_timer_wp [] s t x)|]. intros [] s' (A & x' & A1 & A2). split; [done|]. intros bad Hn. destruct (is_killed x) eqn:Hk; [subst x'; by apply Hsame|].
    apply (Hset s' x' e A A1 (proj1 A2)). by apply Hn.
  - eapply wp_mono; [by apply (advance_timer_wp [] s t x)|]. intros [] s' (A & x' & A1 & [->|[A2 _]]); (split; [done|]; intros bad Hn); [by apply Hsame|].
    apply (Hset s' x' e A A1 A2). by apply Hn.
  - eapply wp_mono; [by apply (stop_timer_wp [] s t x)|]. intros [] s' (A & x' & A1 & _ & A2). split; [done|]. intros bad _. by apply (Hstill s' x').
  - destruct Hop as (H1 & H2 & H3). eapply wp_mono; [by apply (migrate_timer_wp [] s t x)|]. intros [] s' (A & x' & A1 & [->|A2]); (split; [done|]; intros bad _); [by apply Hsame|].
    by apply (Hmove s' x' c).
  - destruct Hop as (H1 & H2 & H3 & H4). eapply wp_mono; [by apply (migrate_vcpu_wp [] s t x)|]. intros [] s' (A & x' & A1 & A2). split; [done|]. intros bad _. by apply (Hmove s' x' v).
  - destruct Hop as (H1 & H2 & H3). eapply wp_mono; [by apply (kill_timer_wp [] s t x)|]. intros [] s' (A & x' & A1 & A2 & _). split; [done|]. intros bad _. apply (Hstill s' x' A A1). by apply (not_active_status x' _ A2); right.
Qed.

Fixpoint tops_ok (l : list top) (s : tsys) : Prop :=
  match l with
  | [] => True
  | op :: l => top_ok op s /\ tops_ok l (fst (run_top op s))
  end.

Lemma tops_range l : forall s op e, tops_ok l s -> op ∈ l -> armed op = Some e -> in_range e.
Proof.
  induction l as [|op' l IH]; intros s op e Hl Hin; [by apply elem_of_nil in Hin|]. destruct Hl as [Ho Hl]. apply elem_of_cons in Hin as [->|Hin]; [apply Ho|by apply (IH _ op e Hl)].
Qed.

(** What a function leaves alone: the clock and the log, which timers and queues
    there are, and what the host was asked for *)
Record same_world (s s' : tsys) : Prop := {
  sw_clock : t_reads s' = t_reads s /\ t_log s' = t_log s;
  sw_count : length (tms s') = length (tms s);
  sw_queues : forall q ts, tqs s !! q = Some ts -> exists ts', tqs s' !! q = Some ts' /\ same_rest ts ts';
  sw_none : forall q, tqs s !! q = None -> tqs s' !! q = None
}.
Lemma same_world_refl s : same_world s s.
Proof. split; [done|done| |done]. intros q ts E. exists ts. split; [done|apply same_rest_refl]. Qed.
Lemma same_world_trans s1 s2 s3 : same_world s1 s2 -> same_world s2 s3 -> same_world s1 s3.
Proof.
  intros [[A1 A2] A3 A4 A5] [[B1 B2] B3 B4 B5]. split; [split; congruence|congruence| |auto]. intros q ts E. destruct (A4 q ts E) as (ts2 & E2 & K2). destruct (B4 q ts2 E2) as (ts3 & E3 & K3).
  exists ts3. split; [done|by apply (same_rest_trans _ ts2)].
Qed.
Lemma sw_some s s' q : same_world s s' -> is_Some (tqs s !! q) -> is_Some (tqs s' !! q).
Proof. intros H [ts E]. destruct (sw_queues _ _ H q ts E) as (ts' & E' & _). by exists ts'. Qed.
Lemma framed_world t s s' : framed t s s' -> same_world s s'.
Proof. by intros []. Qed.

Lemma run_tops_wp l : forall s, sys_ok [] s -> tops_ok l s ->
  wp (run_tops l) (fun _ s' => sys_ok [] s' /\ (forall q, served q [] s -> served q [] s') /\ same_world s s' /\
    (forall bad : Z -> Prop, (forall op e, op ∈ l -> armed op = Some e -> ~ bad e) -> calm bad s s') /\
    (forall t, (forall op, op ∈ l -> subject op = t) -> framed t s s')) s.
Proof.
  induction l as [|op l IH]; intros s Hs Hl; cbn [run_tops].
  { apply wp_ret. split; [done|]. split; [done|]. split; [apply same_world_refl|]. split; [intros bad _; by apply calm_same|]. intros t _. apply framed_refl. }
  destruct Hl as [Hop Hl]. apply wp_bind. pose proof (run_top_wp op s Hs Hop) as Hw. destruct (wp_inv _ _ _ Hw) as (s1 & [] & E1 & [A1 A2 A3] & A4). eapply wp_eq; [exact E1|]. rewrite E1 in Hl. cbn in Hl.
  eapply wp_mono; [by apply IH|]. intros [] s2 (B1 & B2 & B3 & B4 & B5). split; [done|]. split; [auto|]. split; [by apply (same_world_trans _ s1); [apply (framed_world (subject op))|]|]. split.
  - intros bad Hn. apply (calm_trans bad _ s1); [apply A4; intros e; apply Hn; by left|]. apply B4. intros op' e Hin. apply Hn. by right.
  - intros t Ht. rewrite (Ht op ltac:(by left)) in A2. apply (framed_trans t s s1); [done|]. apply B5. intros op' Hin. apply Ht. by right.
Qed.

(** ** The function of a timer *)

(** The functions keep to the rules of the interface. *)
Class WorkRules (work : tsys -> nat -> list top) : Prop := work_ok : forall s t, sys_ok [] s -> tops_ok (work s t) s.
(** From the clock's [r]th reading on they set no timer to a time before [n0]; they
    only touch the timer they are called for. *)
Definition forward (work : tsys -> nat -> list top) (r : nat) (n0 : Z) : Prop := forall s t op e, (r <= t_reads s)%nat -> op ∈ work s t -> armed op = Some e -> n0 <= e.
Definition own_only (work : tsys -> nat -> list top) : Prop := forall s t op, op ∈ work s t -> subject op = t.

Lemma served_rest q q' ex ts ts' s : tqs s !! q = Some ts -> timer_deadline ts' = timer_deadline ts -> softirq_pending ts' = softirq_pending ts ->
  served q' ex s -> served q' ex (with_queue q ts' s).
Proof.
  intros E E1 E2 H ts1. destruct (decide (q' = q)) as [->|Hne].
  - rewrite with_queue_eq. intros [= <-]. destruct (H ts E) as [Hp|Hp]; [left; congruence|right]. intros t x Et Hex Ha Hq. specialize (Hp t x Et Hex Ha Hq). unfold covered in *. by rewrite E1.
  - rewrite with_queue_ne by done. apply H.
Qed.
Lemma world_queue q ts ts' s : tqs s !! q = Some ts -> same_rest ts ts' -> same_world s (with_queue q ts' s).
Proof.
  intros E K. split; [done|done| |].
  - intros q' ts1 E1. destruct (decide (q = q')) as [<-|Hne]; [rewrite with_queue_eq; exists ts'; split; [done|congruence]|]. rewrite with_queue_ne by done. exists ts1. split; [done|apply same_rest_refl].
  - intros q' E1. rewrite with_queue_ne by congruence. done.
Qed.

Section Softirq.
Context (clk : nat -> Z) (scale : time_scale) (work : tsys -> nat -> list top) `{HW : !WorkRules work}.

(** The state after the function has run, from the states before it *)
Lemma running_world q t s s2 s4 ts2 ts4 : same_world s s2 -> tqs s2 !! q = Some ts2 -> same_world (with_queue q (set_running (Some t) ts2) s2) s4 -> tqs s4 !! q = Some ts4 ->
  (forall ts, tqs s !! q = Some ts -> running ts = None) -> same_world s (with_queue q (set_running None ts4) s4).
Proof.
  intros H1 E2 H2 E4 Hr. split.
  - destruct (sw_clock _ _ H1), (sw_clock _ _ H2). cbn in *. split; congruence.
  - cbn. rewrite (sw_count _ _ H2). apply (sw_count _ _ H1).
  - intros q0 ts0 E0. destruct (sw_queues _ _ H1 q0 ts0 E0) as (ts2' & E2' & R). destruct (decide (q = q0)) as [<-|Hne].
    + rewrite E2 in E2'. injection E2' as <-. destruct (sw_queues _ _ H2 q _ (with_queue_eq q _ s2)) as (ts4' & E4' & R'). rewrite E4 in E4'. injection E4' as <-. eexists. split; [apply with_queue_eq|].
      destruct R as (R1 & R3 & R4 & R5 & R6 & R7), R' as (Q1 & Q3 & Q4 & Q5 & Q6 & Q7). cbn in *. repeat split; cbn; try congruence; [|auto]. symmetry. by apply Hr.
    + destruct (sw_queues _ _ H2 q0 ts2') as (ts4' & E4' & R'); [by rewrite with_queue_ne|]. exists ts4'. split; [by rewrite with_queue_ne|by apply (same_rest_trans _ ts2')].
  - intros q0 E0. pose proof (sw_none _ _ H1 q0 E0) as E1. assert (q <> q0) as Hne by congruence. rewrite with_queue_ne by done. apply (sw_none _ _ H2). by rewrite with_queue_ne.
Qed.
Lemma world_framed t s s' : same_world s s' ->
  (forall u x, u <> t -> tms s !! u = Some x -> exists p, tms s' !! u = Some (set_pos p x) /\ (p = t_pos x \/ t_status x = TIMER_STATUS_in_heap)) -> framed t s s'.
Proof. intros []. by split. Qed.

Lemma execute_wp s t x q : sys_ok [t] s -> tms s !! t = Some x -> live x s -> queue_of x = q -> (forall ts, tqs s !! q = Some ts -> running ts = None) ->
  wp (execute_timer work q t) (fun _ s' => sys_ok [] s' /\ (forall q', served q' [t] s -> served q' [] s') /\ same_world s s' /\
    (forall bad : Z -> Prop, (forall s1 op e, t_reads s1 = t_reads s -> op ∈ work s1 t -> armed op = Some e -> ~ bad e) -> calm bad s s' /\
      forall x', tms s' !! t = Some x' -> is_active x' -> ~ bad (expires x')) /\
    (sane s -> sane s') /\
    (own_only work -> framed t s s')) s.
Proof.
  intros Hs E Hl Hq Hrun. unfold execute_timer. apply wp_bind, (loose_wp [] s t x); [done|done|destruct Hl; by split|]. set (x1 := set_status _ _). set (s1 := with_timer _ _ _). intros A1 A2 A3.
  assert (live x1 s1) as Hl1 by (destruct Hl; by split). assert (queue_of x1 = q) as Hq1 by done. destruct (lv_queue _ _ Hl1) as [ts Eq]. rewrite Hq1 in Eq.
  apply wp_bind. eapply wp_mono; [apply (inactive_add_wp [] s1 t x1 q ts); (done || apply not_elem_of_nil)|]. intros [] s2 (B1 & B2 & B3). set (x2 := set_pos _ _) in B3.
  assert (framed t s s2) as Hf2 by (by apply (framed_trans t s s1)). assert (~ is_active x2) as Hna by (apply (not_active_status x2 TIMER_STATUS_inactive); [done|by left]).
  assert (forall bad, calm bad s s2) as Hc2 by (intros bad; apply (calm_one bad t); [done|]; intros y Ey Hy; rewrite B3 in Ey; by injection Ey as <-).
  destruct (fr_queues _ _ _ B2 q ts Eq) as (ts2 & Eq2 & R2). apply wp_bind, (upd_queue_wp s2 q ts2); [done|]. set (s3 := with_queue _ _ s2).
  assert (sys_ok [] s3) as C1 by (by apply (rest_ok [] s2 q ts2)). apply wp_bind, wp_get. pose proof (work_ok s3 t C1) as Hwk. apply wp_bind. eapply wp_mono; [by apply run_tops_wp|].
  intros [] s4 (D1 & D2 & D3 & D4 & D5). destruct (sw_some _ _ q D3) as [ts4 Eq4]; [eexists; apply with_queue_eq|]. apply (upd_queue_wp s4 q ts4); [done|]. set (s5 := with_queue _ _ s4).
  assert (same_world s s5) as HW5 by (apply (running_world q t s s2 s4 ts2); [by apply (framed_world t)|done..]).
  split; [by apply (rest_ok [] s4 q ts4)|]. split; [|split; [|split; [|split]]].
  - intros q' H. apply (served_rest q q' [] ts4); [done..|]. apply D2, (served_rest q q' [] ts2); [done..|]. apply (served_inactive q' t [] s2 x2); [|done|done]. apply (served_framed q' t [t] s s2); [by left|done|done].
  - done.
  - intros bad Hb. assert (t_reads s3 = t_reads s) as Er by (exact (proj1 (fr_clock _ _ _ Hf2))). pose proof (D4 bad (fun op e => Hb s3 op e Er)) as Hc4. split; [apply (calm_trans bad _ s2); [done|exact Hc4]|].
    intros x' Ex' Ha Hbad. destruct (Hc4 t x' Ex' Ha Hbad) as (y & Ey & Hy & _). change (tms s2 !! t = Some y) in Ey. congruence.
  - apply calm_sane, (calm_trans _ _ s2); [done|]. apply D4. intros op e Hin Ha Hb. apply Hb. by apply (tops_range (work s3 t) s3 op).
  - intros Hown. apply (world_framed t s s5 HW5). assert (framed t s3 s4) as F by (apply D5; intros op; apply Hown).
    intros u y Hu Ey. destruct (fr_timers _ _ _ Hf2 u y Hu Ey) as (p & Ep & Hp). destruct (fr_timers _ _ _ F u _ Hu Ep) as (p' & Ep' & Hp'). exists p'. split; [done|]. cbn in Hp'. destruct Hp' as [->|]; auto.
Qed.

(** *** One function after the other *)

Lemma sys_ok_rest ex s s' : sys_ok ex s -> tms s' = tms s -> tqs s' = tqs s -> sys_ok ex s'.
Proof.
  intros [A B C] E1 E2. assert (forall st q, same_members st q ex s ex s') as Hm by (intros st q; unfold same_members, has; rewrite E1; apply same_refl).
  assert (forall q, is_Some (tqs s !! q) -> is_Some (tqs s' !! q)) as Hq by (intros q; by rewrite E2). split.
  - intros q ts E. rewrite E2 in E. apply (queue_ext q ex s ex s' ts ts); try done; [by rewrite E2|by apply A].
  - intros t x E Hex. rewrite E1 in E. by apply (timer_ok_ext x s), (B t x).
  - intros t Ht. rewrite E1. destruct (C t Ht) as (x & E & Hx). exists x. split; [done|by apply (live_ext x s)].
Qed.

(** A time that was read from the clock; functions run when their timers are due. *)
Definition clock_read (now : Z) (s : tsys) : Prop := exists k, (k < t_reads s)%nat /\ now = clk k.
Definition timely (s : tsys) : Prop := forall t d now, Ran t d now ∈ t_log s -> d < now /\ clock_read now s.

Lemma clock_read_mono now s s' : (t_reads s <= t_reads s')%nat -> clock_read now s -> clock_read now s'.
Proof. intros H (k & Hk & E). exists k. split; [lia|done]. Qed.
Lemma timely_mono s s' : t_log s' = t_log s -> (t_reads s <= t_reads s')%nat -> timely s -> timely s'.
Proof. intros E Hr H t d now Hin. rewrite E in Hin. destruct (H t d now Hin) as [H1 H2]. split; [done|by apply (clock_read_mono now s)]. Qed.

(** The host was asked, at a time before the deadline, for the ticks until it. *)
Definition ticks_for (d now : Z) : Z := u64 (scale_delta (u64 (d - now)) scale + 1).
Definition asked (q : queue) (s : tsys) : Prop := forall ts, tqs s !! q = Some ts -> softirq_pending ts = true \/ timer_deadline ts = 0 \/
  exists now, clock_read now s /\ now < timer_deadline ts /\ host_ticks ts = Some (ticks_for (timer_deadline ts) now).

(** The sizes of the heaps that [timer_softirq_action] allocates *)
Definition limits (s : tsys) : Prop := forall q ts, tqs s !! q = Some ts -> heap_limit ts ∈ [0; 15; 255; 4095; 65535].
(** Between the calls *)
Definition none_running (s : tsys) : Prop := forall q ts, tqs s !! q = Some ts -> running ts = None.

Lemma world_back s s' q ts' : same_world s s' -> tqs s' !! q = Some ts' -> exists ts, tqs s !! q = Some ts /\ same_rest ts ts'.
Proof.
  intros H E'. destruct (tqs s !! q) as [ts|] eqn:E; [|by rewrite (sw_none _ _ H q E) in E']. destruct (sw_queues _ _ H q ts E) as (ts1 & E1 & R). exists ts. split; [done|congruence].
Qed.
Lemma world_limits s s' : same_world s s' -> limits s -> limits s'.
Proof. intros H Hl q ts' E'. destruct (world_back s s' q ts' H E') as (ts & E & R & _). rewrite R. by apply (Hl q). Qed.
Lemma world_idle s s' : same_world s s' -> none_running s -> none_running s'.
Proof. intros H Hl q ts' E'. destruct (world_back s s' q ts' H E') as (ts & E & _ & R & _). rewrite R. by apply (Hl q). Qed.
Lemma world_asked q s s' : same_world s s' -> asked q s -> asked q s'.
Proof.
  intros H Ha ts' E'. destruct (world_back s s' q ts' H E') as (ts & E & _ & _ & _ & R1 & R2 & R3). destruct (Ha ts E) as [Hp|[Hd|(now & Hn & Hlt & Ht)]]; [auto|rewrite R1; auto|].
  right. right. exists now. rewrite R1, R2. split; [|done]. apply (clock_read_mono now s); [|done]. by rewrite (proj1 (sw_clock _ _ H)).
Qed.

(** What holds of every queue between the calls, but for the deadlines *)
Record steady_state (s : tsys) : Prop := {
  ss_ok : sys_ok [] s;
  ss_sane : sane s;
  ss_limits : limits s;
  ss_idle : none_running s;
  ss_timely : timely s
}.

(** The queue [q], from the state [s0] on, at the time [n0] *)
Context (q : queue) (s0 : tsys) (n0 : Z).

(** The functions set no timer to the past, and the clock does not go back. *)
Definition steady : Prop := forward work (t_reads s0) n0 /\ forall k, (t_reads s0 <= k)%nat -> n0 <= clk k.

Definition due_in (s : tsys) (t : nat) : Prop := exists x, tms s !! t = Some x /\ queue_of x = q /\ overdue n0 x.
(** The timers [r] have run, the others that were due are still to run. *)
Definition track (s : tsys) : Prop := exists r, t_log s = t_log s0 ++ map (fun t => Ran t (due s0 t) n0) r /\ NoDup r /\
  (forall t, t ∈ r -> due_in s0 t) /\ (forall t, due_in s t <-> due_in s0 t /\ t ∉ r) /\ (forall t, due_in s t -> due s t = due s0 t).

Record loop_inv (now : Z) (s : tsys) : Prop := {
  li_state : steady_state s;
  li_queue : is_Some (tqs s !! q);
  li_now : clock_read now s;
  li_others : forall q', q' <> q -> (served q' [] s0 -> served q' [] s) /\ (asked q' s0 -> asked q' s);
  li_reads : (t_reads s0 <= t_reads s)%nat;
  li_steady : steady -> now = n0;
  li_track : steady -> own_only work -> track s
}.

Lemma not_later_wp now s : wp (not_later clk now) (fun now' s' => tms s' = tms s /\ tqs s' = tqs s /\ t_log s' = t_log s /\ (t_reads s <= t_reads s')%nat /\
  (clock_read now s -> clock_read now' s') /\ (steady -> (t_reads s0 <= t_reads s)%nat -> now = n0 -> now' = n0)) s.
Proof.
  unfold not_later, get_now. apply wp_bind, wp_bind, wp_gets. apply wp_bind, wp_modify, wp_ret. destruct (Z.ltb_spec (clk (t_reads s)) now) as [Hlt|Hge].
  - apply wp_bind, wp_gets, wp_bind, wp_modify, wp_ret. cbn. do 3 (split; [done|]). split; [lia|]. split; [intros _; exists (S (t_reads s)); split; [cbn; lia|done]|].
    intros [_ Hc] Hr ->. specialize (Hc (t_reads s) Hr). lia.
  - apply wp_ret. cbn. do 3 (split; [done|]). split; [lia|]. split; [|done]. intros (k & Hk & E). exists k. split; [cbn; lia|done].
Qed.

Lemma due_in_framed t s s' : framed t s s' -> forall u, u <> t -> due_in s' u <-> due_in s u.
Proof.
  intros Hf u Hu. split.
  - intros (x' & E & Hq & Ho). destruct (framed_back t s s' u x' Hf Hu E) as (x & p & Ex & ->). by exists x.
  - intros (x & E & Hq & Ho). destruct (fr_timers _ _ _ Hf u x Hu E) as (p & E' & _). by exists (set_pos p x).
Qed.
Lemma due_framed t s s' u : framed t s s' -> u <> t -> due s' u = due s u.
Proof.
  intros Hf Hu. unfold due. destruct (tms s !! u) as [x|] eqn:E; [by destruct (fr_timers _ _ _ Hf u x Hu E) as (p & -> & _)|].
  destruct (tms s' !! u) eqn:E'; [|done]. apply lookup_ge_None in E. apply lookup_lt_Some in E'. rewrite (fr_count _ _ _ Hf) in E'. lia.
Qed.
Lemma due_in_same s s' t : tms s' = tms s -> due_in s' t <-> due_in s t.
Proof. intros E. unfold due_in. by rewrite E. Qed.
Lemma due_same s s' t : tms s' = tms s -> due s' t = due s t.
Proof. intros E. unfold due. by rewrite E. Qed.

(** The log has the timer [t], and its function has run. *)
Lemma track_run s s1 s2 t : track s -> due_in s t -> tms s1 = tms s -> t_log s1 = t_log s ++ [Ran t (due s t) n0] -> framed t s1 s2 -> ~ due_in s2 t -> track s2.
Proof.
  intros (r & T1 & T2 & T3 & T4 & T5) Ht E1 E2 Hf Hn. pose proof (proj1 (T4 t) Ht) as [Ht0 Htr].
  assert (forall u, u <> t -> due_in s2 u <-> due_in s u) as Hu by (intros u Hne; by rewrite (due_in_framed t s1 s2 Hf u Hne), (due_in_same s s1 u E1)).
  exists (r ++ [t]). split; [|split; [|split; [|split]]].
  - rewrite (proj2 (fr_clock _ _ _ Hf)), E2, T1, map_app, <- app_assoc. cbn. by rewrite (T5 t Ht).
  - apply NoDup_app. split; [done|]. split; [|apply NoDup_singleton]. intros u Hur Hut. apply list_elem_of_singleton in Hut. by subst.
  - intros u Hur. apply elem_of_app in Hur as [Hur|Hur]; [by apply T3|]. apply list_elem_of_singleton in Hur. by subst.
  - intros u. rewrite not_elem_of_app, list_elem_of_singleton. destruct (decide (u = t)) as [->|Hne]; [tauto|]. rewrite (Hu u Hne), T4. tauto.
  - intros u Hd. destruct (decide (u = t)) as [->|Hne]; [done|]. rewrite (due_framed t s1 s2 u Hf Hne), (due_same s s1 u E1). apply T5. by rewrite <- Hu.
Qed.
Lemma track_same s s' : tms s' = tms s -> t_log s' = t_log s -> track s -> track s'.
Proof.
  intros E1 E2 (r & T1 & T2 & T3 & T4 & T5). exists r. rewrite E2. do 3 (split; [done|]). split; [intros t; by rewrite (due_in_same s s' t E1)|].
  intros t. rewrite (due_in_same s s' t E1), (due_same s s' t E1). apply T5.
Qed.

(** The clock is read once more. *)
Lemma steady_state_read s s' : tms s' = tms s -> tqs s' = tqs s -> t_log s' = t_log s -> (t_reads s <= t_reads s')%nat -> steady_state s -> steady_state s'.
Proof.
  intros E1 E2 E3 Hr [A1 A2 A3 A4 A5]. split; [by apply (sys_ok_rest [] s)|intros t x; rewrite E1; apply A2|intros q' ts; rewrite E2; apply A3|intros q' ts; rewrite E2; apply A4|by apply (timely_mono s)].
Qed.
Lemma asked_read q' s s' : tqs s' = tqs s -> (t_reads s <= t_reads s')%nat -> asked q' s -> asked q' s'.
Proof.
  intros E Hr H ts. rewrite E. intros Ets. destruct (H ts Ets) as [?|[?|(n & N1 & N2)]]; [auto|auto|]. right. right. exists n. split; [by apply (clock_read_mono n s)|done].
Qed.
Lemma loop_inv_read now now' s s' : tms s' = tms s -> tqs s' = tqs s -> t_log s' = t_log s -> (t_reads s <= t_reads s')%nat -> clock_read now' s' -> (steady -> now' = n0) ->
  loop_inv now s -> loop_inv now' s'.
Proof.
  intros E1 E2 E3 Hr Hn Hst [A1 A2 A3 A4 A5 A6 A7]. split; [by apply (steady_state_read s)|by rewrite E2|done| |lia|done|intros H1 H2; apply (track_same s); auto].
  intros q' Hne. destruct (A4 q' Hne) as [B1 B2]. split; [intros H ts; rewrite E1, E2; by apply B1|intros H; by apply (asked_read q' s); auto].
Qed.

(** A timer is due: it has left its structure, its function is run and the clock
    is read. *)
Definition alone (t : nat) (s s' : tsys) : Prop := forall u x', u <> t -> tms s' !! u = Some x' -> exists x p, tms s !! u = Some x /\ x' = set_pos p x.

Section Fire.
Context (now : Z) (s s2 : tsys) (t : nat) (x : timer) (p : position).
Context (HI : loop_inv now s) (E : tms s !! t = Some x) (Eq : queue_of x = q) (Ha : is_active x) (Hlt : expires x < now).
Let s1 : tsys := set_t_log (t_log s ++ [Ran t (expires x) now]) s.
Context (Hs2 : sys_ok [t] s2) (Hf : framed t s1 s2) (E2 : tms s2 !! t = Some (set_pos p x)).

Lemma fired_calm bad : calm bad s1 s2.
Proof. apply (calm_one bad t); [done|]. intros y Ey _ Hb. rewrite E2 in Ey. injection Ey as <-. by exists x. Qed.

Lemma fire_wp : wp (execute_timer work q t) (fun _ s' => loop_inv now s' /\ (steady -> (pend n0 s' < pend n0 s)%nat) /\
    (steady -> own_only work -> ~ due_in s' t /\ alone t s s') /\ t_log s' = t_log s ++ [Ran t (expires x) now]) s2.
Proof.
  destruct HI as [[A1 A2 A3 A4 A5] Hq Hnow Ho Hr Hs Ht]. assert (same_world s1 s2) as HW2 by (by apply (framed_world t)).
  assert (live (set_pos p x) s2) as Hl by (apply (live_framed _ s1 s2 t); [|done]; destruct (active_live [] s t x A1 ltac:(split; [done|apply not_elem_of_nil]) Ha); by split).
  eapply wp_mono; [apply (execute_wp s2 t _ q Hs2 E2 Hl Eq); intros ts; by apply (world_idle s1 s2)|]. intros [] s3 (C1 & C2 & C3 & C4 & C5 & C6).
  assert (same_world s1 s3) as HW3 by (by apply (same_world_trans _ s2)). pose proof (sw_clock _ _ HW3) as [K1 K2]. cbn in K1, K2.
  assert (steady -> calm (fun e => e < n0) s2 s3 /\ forall x', tms s3 !! t = Some x' -> is_active x' -> ~ expires x' < n0) as C4'.
  { intros H. apply (C4 (fun e => e < n0)). intros s' op e Er Hin Harm. rewrite (proj1 (sw_clock _ _ HW2)) in Er. cbn in Er. pose proof (proj1 H s' t op e ltac:(lia) Hin Harm). lia. }
  assert (steady -> ~ due_in s3 t) as Hnd by (intros H (y & Ey & _ & Hy1 & Hy2); exact (proj2 (C4' H) y Ey Hy1 Hy2)). split; [split|split; [|split; [|done]]].
  - split; [done|apply C5, (calm_sane s1); [apply fired_calm|done]|by apply (world_limits s1 s3)|by apply (world_idle s1 s3)|].
    intros u d n Hin. rewrite K2 in Hin. apply elem_of_app in Hin as [Hin|Hin]; [destruct (A5 u d n Hin) as [H1 H2]|apply list_elem_of_singleton in Hin; injection Hin as -> -> ->];
      (split; [done|]; apply (clock_read_mono _ s); [lia|done]).
  - by apply (sw_some s1 s3 q HW3).
  - apply (clock_read_mono now s); [lia|done].
  - intros q' Hne. destruct (Ho q' Hne) as [Ho1 Ho2]. split; [|intros H; apply (world_asked q' s1 s3 HW3); by apply Ho2].
    intros H. apply C2, (served_framed q' t [t] s1 s2); [by left| |done]. apply (served_less q' []); [intros u Hu; by apply elem_of_nil in Hu|by apply Ho1].
  - lia.
  - done.
  - intros H Hown. apply (track_run s s1 s3 t (Ht H Hown)); [exists x; pose proof (Hs H); subst; done|done|cbn; unfold due; rewrite E; by rewrite (Hs H)|by apply (framed_trans t s1 s2), C6|by apply Hnd].
  - intros H. pose proof (Hs H) as En. apply (Nat.lt_le_trans _ (pend n0 s2)); [|apply (pend_le n0 s1 s2); [apply Hf|apply fired_calm]].
    destruct (lookup_lt_is_Some_2 (tms s3) t) as [x3 E3]; [rewrite (sw_count _ _ C3); by apply lookup_lt_Some in E2|].
    apply (pend_lt n0 t s2 s3 (set_pos p x) x3); [apply C3|apply (C4' H)|done|split; [done|cbn; lia]|done|]. intros [H1 H2]. exact (proj2 (C4' H) x3 E3 H1 H2).
  - intros H Hown. split; [by apply Hnd|]. intros u x' Hu Ex'. exact (framed_back t s1 s3 u x' (framed_trans t s1 s2 s3 Hf (C6 Hown)) Hu Ex').
Qed.

(** [execute_timer(ts, t); if (now > NOW()) now = NOW();] *)
Lemma fire_next {B} T (k : Z -> SE tsys B) Q :
  (forall now' s', loop_inv now' s' -> (steady -> (pend n0 s' < pend n0 s)%nat) -> (steady -> own_only work -> ~ due_in s' t /\ alone t s s') ->
    t_log s' = t_log s ++ [Ran t (expires x) now] -> gwp T (k now') Q s') ->
  gwp T (execute_timer work q t;; n <- not_later clk now;; k n) Q s2.
Proof.
  intros H. apply gwp_step. eapply wp_mono; [apply fire_wp|]. intros [] s3 (A1 & A2 & A3 & A4). apply gwp_step. eapply wp_mono; [apply not_later_wp|].
  intros now' s4 (D1 & D2 & D3 & D4 & D5 & D6). pose proof A1 as [_ _ L1 _ L2 L3 _]. apply H.
  - apply (loop_inv_read now now' s3); auto.
  - intros Hst. unfold pend. rewrite D1. by apply A2.
  - intros Hst Hown. destruct (A3 Hst Hown) as [B1 B2]. rewrite (due_in_same s3 s4 t D1). split; [done|]. intros u x'. rewrite D1. apply B2.
  - congruence.
Qed.
End Fire.

Lemma gwp_weaken {A} (T T' : Prop) (m : SE tsys A) Q s : (T -> T') -> gwp T' m Q s -> gwp T m Q s.
Proof. unfold gwp. destruct (m s) as [s' []]; auto. Qed.
Lemma note_wp now s t x (Q : unit -> tsys -> Prop) : tms s !! t = Some x -> Q tt (set_t_log (t_log s ++ [Ran t (expires x) now]) s) -> wp (note t now) Q s.
Proof. intros E HQ. unfold note. apply wp_bind, (expires_wp s t x); [done|]. apply wp_modify. unfold due. by rewrite E. Qed.

(** The first timer of the heap *)
Lemma heap_top s ts : sys_ok [] s -> tqs s !! q = Some ts -> heap_size ts <> 0 -> exists t x, slot_of s q 1 = Some t /\ has TIMER_STATUS_in_heap q [] s t x /\
  forall u y, has TIMER_STATUS_in_heap q [] s u y -> expires x <= expires y.
Proof.
  intros Hs Eq Hne. pose proof (so_queues _ _ Hs q ts Eq) as [(Hp & Ho & ts0 & E0 & _ & Hsz & _) _ _]. destruct (hp_slot _ _ _ _ _ Hp 1 ltac:(lia) ltac:(lia)) as (t & x & A1 & A2 & A3 & [A4 A5] & _).
  exists t, x. split; [done|]. split; [done|]. intros u y (U1 & U2 & U3). destruct (hp_timer _ _ _ _ _ Hp u y U1 U2 U3) as (i & Hi & _ & Ei & _). pose proof (top_least _ _ i Ho Hi) as Ht.
  unfold key in Ht. rewrite A1, Ei in Ht. unfold due in Ht. by rewrite A2, U1 in Ht.
Qed.
Lemma heap_empty s ts : sys_ok [] s -> tqs s !! q = Some ts -> heap_size ts = 0 -> forall u y, ~ has TIMER_STATUS_in_heap q [] s u y.
Proof.
  intros Hs Eq Hz u y (U1 & U2 & U3). pose proof (so_queues _ _ Hs q ts Eq) as [(Hp & _) _ _]. destruct (hp_timer _ _ _ _ _ Hp u y U1 U2 U3) as (i & Hi & _). lia.
Qed.

Definition past (st : tstatus) (now : Z) (s : tsys) : Prop := forall t x, has st q [] s t x -> now <= expires x.

(** The functions that have run since [s1] have run in the order of their deadlines,
    which are before those of the timers that are still to run. *)
Definition deadline_of (e : tevent) : Z := match e with Ran _ d _ => d end.
Definition in_order (st : tstatus) (s1 s : tsys) : Prop := exists ev, t_log s = t_log s1 ++ ev /\ StronglySorted (fun a b => deadline_of a <= deadline_of b) ev /\
  forall e t x, e ∈ ev -> has st q [] s t x -> expires x < n0 -> deadline_of e <= expires x.

Lemma in_order_start st s : in_order st s s.
Proof. exists []. split; [by rewrite app_nil_r|]. split; [constructor|]. intros e t x He. by apply elem_of_nil in He. Qed.
Lemma sorted_snoc (ev : list tevent) e : StronglySorted (fun a b => deadline_of a <= deadline_of b) ev -> (forall a, a ∈ ev -> deadline_of a <= deadline_of e) ->
  StronglySorted (fun a b => deadline_of a <= deadline_of b) (ev ++ [e]).
Proof.
  intros Hs He. induction Hs as [|a ev Hs IH Ha]; cbn; [repeat constructor|]. constructor; [apply IH; intros b Hb; apply He; by right|]. apply Forall_app. split; [done|]. apply list.Forall_singleton. apply He. by left.
Qed.
Lemma in_order_fire st s1 s s' t x now : st = TIMER_STATUS_in_heap \/ st = TIMER_STATUS_in_list -> in_order st s1 s -> has st q [] s t x -> (forall u y, has st q [] s u y -> expires x <= expires y) -> expires x < n0 ->
  alone t s s' -> ~ due_in s' t -> t_log s' = t_log s ++ [Ran t (expires x) now] -> in_order st s1 s'.
Proof.
  intros Hst (ev & E1 & E2 & E3) Hx Hmin Hd Hal Hnd El. exists (ev ++ [Ran t (expires x) now]). split; [by rewrite El, E1, app_assoc|]. split; [apply sorted_snoc; [done|]; intros a Ha; by apply (E3 a t x)|].
  intros e u y' He (U1 & U2 & U3 & U4) Hlt. assert (u <> t) as Hut by (intros ->; apply Hnd; exists y'; split; [done|]; split; [done|]; split; [unfold is_active; by rewrite U3|done]).
  destruct (Hal u y' Hut U1) as (y & p & Ey & ->). assert (has st q [] s u y) as Hy by (by split). apply elem_of_app in He as [He|He]; [by apply (E3 e u y)|]. apply list_elem_of_singleton in He as ->. by apply (Hmin u y).
Qed.

Lemma run_heap_wp s1 fuel : forall now s, loop_inv now s -> (steady -> own_only work -> in_order TIMER_STATUS_in_heap s1 s) ->
  gwp (steady /\ (pend n0 s < fuel)%nat) (run_heap clk work fuel q now) (fun now' s' => loop_inv now' s' /\ past TIMER_STATUS_in_heap now' s' /\ (steady -> (pend n0 s' <= pend n0 s)%nat) /\
    (steady -> own_only work -> in_order TIMER_STATUS_in_heap s1 s')) s.
Proof.
  induction fuel as [|fuel IH]; intros now s HI Hio; cbn [run_heap]; [unfold gwp; cbn; lia|]. pose proof HI as [[Hs _ _ _ _] [ts Eq] _ _ _ _ _]. apply gwp_step, (queue_wp s q ts); [done|].
  destruct (Z.eqb_spec (heap_size ts) 0) as [Hz|Hnz]; cbn [negb].
  { apply gwp_wp, wp_ret. split; [done|]. split; [|by split]. intros u y H. by apply (heap_empty s ts Hs Eq Hz) in H. }
  destruct (heap_top s ts Hs Eq Hnz) as (t & x & T1 & T2 & T3). pose proof T2 as (E & _ & H1 & H2). apply gwp_step, (heap_at_wp s q 1 t); [done|]. apply gwp_step, (expires_wp s t x); [done|].
  unfold due. rewrite E. destruct (Z.ltb_spec (expires x) now) as [Hlt|Hge].
  - apply gwp_step, (note_wp now s t x); [done|]. set (sn := set_t_log _ s). apply gwp_step. eapply wp_mono; [apply (unheap_wp [] sn t x q); [by apply (sys_ok_rest [] s)|done]|].
    intros _ s2 (A1 & A2 & p & A3). apply (fire_next now s s2 t x p HI E H2 (or_introl H1) Hlt A1 A2 A3). intros now' s' B1 B2 B3 B4.
    apply (gwp_weaken _ (steady /\ (pend n0 s' < fuel)%nat)); [intros [Hst Hf]; split; [done|specialize (B2 Hst); lia]|]. eapply gwp_mono; [apply IH; [done|]|].
    + intros Hst Hown. destruct (B3 Hst Hown) as [F1 F2]. apply (in_order_fire _ s1 s s' t x now); auto. rewrite <- (li_steady _ _ HI Hst). exact Hlt.
    + intros now'' s'' (C1 & C2 & C3 & C4). split; [done|]. split; [done|]. split; [|done]. intros Hst. specialize (B2 Hst). specialize (C3 Hst). lia.
  - apply gwp_wp, wp_ret. split; [done|]. split; [|by split]. intros u y Hu. specialize (T3 u y Hu). lia.
Qed.

Lemma past_alone st t s s' : alone t s s' -> ~ due_in s' t -> st = TIMER_STATUS_in_heap \/ st = TIMER_STATUS_in_list -> past st n0 s -> past st n0 s'.
Proof.
  intros Hal Hn Hst Hp u x' Hu. destruct (decide (u = t)) as [->|Hne].
  - destruct Hu as (U1 & _ & U3 & U4). destruct (Z.le_gt_cases n0 (expires x')) as [|Hlt]; [done|]. destruct Hn. exists x'. split; [done|]. split; [done|]. split; [|lia]. unfold is_active. rewrite U3. done.
  - destruct Hu as (U1 & U2 & U3 & U4). destruct (Hal u x' Hne U1) as (x & p & Ex & ->). exact (Hp u x (conj Ex (conj U2 (conj U3 U4)))).
Qed.

(** The head of the list leaves it. *)
Lemma pop_ok s t l ts x : sys_ok [] s -> tqs s !! q = Some ts -> tq_list ts = t :: l -> has TIMER_STATUS_in_list q [] s t x -> 
  sys_ok [t] (with_queue q (set_tq_list l ts) s) /\ framed t s (with_queue q (set_tq_list l ts) s) /\ tms (with_queue q (set_tq_list l ts) s) !! t = Some x /\ t_pos x = PosList.
Proof.
  intros Hs Eq El Hx. pose proof Hx as (E & Hex & H1 & _). pose proof (so_timers _ _ Hs t x E Hex) as Hpos. unfold timer_ok in Hpos. rewrite H1 in Hpos. destruct Hpos as [_ Hpos].
  pose proof (unlist_wp [] s t x q Hs Hx) as Hw. assert (wp (remove_from_list q t) (fun _ s' => s' = with_queue q (set_tq_list l ts) s) s) as Hr.
  { unfold remove_from_list. apply wp_bind, (queue_wp s q ts); [done|]. apply wp_bind, (timer_wp s t x); [done|]. rewrite Hpos, El. cbn [unlink]. rewrite Nat.eqb_refl. apply wp_bind, (upd_queue_wp s q ts); [done|]. by apply wp_ret. }
  unfold wp in Hw, Hr. destruct (remove_from_list q t s) as [s' [b| |]]; [|done..]. subst s'. destruct Hw as (A & B & C). auto.
Qed.
Lemma list_head s ts t l : sys_ok [] s -> tqs s !! q = Some ts -> tq_list ts = t :: l -> exists x, has TIMER_STATUS_in_list q [] s t x /\
  forall u y, has TIMER_STATUS_in_list q [] s u y -> expires x <= expires y.
Proof.
  intros Hs Eq El. pose proof (so_queues _ _ Hs q ts Eq) as [_ [(_ & L1 & L2) Hso] _]. rewrite El in *. destruct (L1 t ltac:(by left)) as [x Hx]. exists x. split; [done|]. intros u y Hu.
  apply StronglySorted_inv in Hso as [_ Hso]. rewrite list.Forall_forall in Hso. pose proof (L2 u y Hu) as Hin. destruct Hx as (E & _), Hu as (U1 & _).
  apply elem_of_cons in Hin as [->|Hin]; [rewrite E in U1; injection U1 as <-; lia|]. specialize (Hso u Hin). unfold due in Hso. by rewrite E, U1 in Hso.
Qed.

Lemma run_list_wp s1 fuel : forall now s, loop_inv now s -> (steady -> own_only work -> past TIMER_STATUS_in_heap n0 s /\ in_order TIMER_STATUS_in_list s1 s) ->
  gwp (steady /\ (pend n0 s < fuel)%nat) (run_list clk work fuel q now)
    (fun now' s' => loop_inv now' s' /\ past TIMER_STATUS_in_list now' s' /\ (steady -> own_only work -> past TIMER_STATUS_in_heap n0 s' /\ in_order TIMER_STATUS_in_list s1 s')) s.
Proof.
  induction fuel as [|fuel IH]; intros now s HI Hp; cbn [run_list]; [unfold gwp; cbn; lia|]. pose proof HI as [[Hs _ _ _ _] [ts Eq] _ _ _ _ _]. apply gwp_step, (queue_wp s q ts); [done|].
  destruct (tq_list ts) as [|t l] eqn:El.
  { apply gwp_wp, wp_ret. split; [done|]. split; [|done]. intros u y H. pose proof (so_queues _ _ Hs q ts Eq) as [_ [(_ & _ & L2) _] _]. apply L2 in H. rewrite El in H. by apply elem_of_nil in H. }
  destruct (list_head s ts t l Hs Eq El) as (x & T2 & T3). pose proof T2 as (E & _ & H1 & H2). apply gwp_step, (timer_wp s t x); [done|].
  destruct (Z.ltb_spec (expires x) now) as [Hlt|Hge].
  - apply gwp_step, (note_wp now s t x); [done|]. set (sn := set_t_log _ s). destruct (pop_ok sn t l ts x) as (A1 & A2 & A3 & ->); [by apply (sys_ok_rest [] s)|done..|].
    apply gwp_step, (upd_queue_wp sn q ts); [done|]. rewrite <- (set_pos_same x) in A3. apply (fire_next now s _ t x (t_pos x) HI E H2 (or_intror H1) Hlt A1 A2 A3). intros now' s' B1 B2 B3 B4.
    apply (gwp_weaken _ (steady /\ (pend n0 s' < fuel)%nat)); [intros [Hst Hf]; split; [done|specialize (B2 Hst); lia]|]. apply IH; [done|].
    intros Hst Hown. destruct (B3 Hst Hown) as [C1 C2]. destruct (Hp Hst Hown) as [P1 P2]. split; [apply (past_alone _ t s s'); auto|]. apply (in_order_fire _ s1 s s' t x now); auto. rewrite <- (li_steady _ _ HI Hst). exact Hlt.
  - apply gwp_wp, wp_ret. split; [done|]. split; [|done]. intros u y Hu. specialize (T3 u y Hu). lia.
Qed.
End Softirq.
