(* ===== verification/HostTimerSoftirq.v ===== *)
(** * The soft interrupt of the timers: the whole of [timer_softirq_action] *)

From stdpp Require Import base list numbers gmap sorting.
From Stdlib Require Import ZArith Lia.
From S2P Require Import Prelude Vpt HostTimer HostHeap HostTimerInv HostTimerOps HostTimerRun.

Open Scope Z_scope.
Open Scope se_scope.

(** ** A larger heap *)

Lemma grown_limit lim : lim ∈ [0; 15; 255; 4095; 65535] -> let new := Z.shiftl (lim + 1) 4 - 1 in
  u16 new ∈ [0; 15; 255; 4095; 65535] /\ lim <= u16 new <= new.
Proof. intros H. repeat (apply elem_of_cons in H as [->|H]; [vm_compute; split; [set_solver|split; congruence]|]). by apply elem_of_nil in H. Qed.

(** A heap with the same timers in another array *)
Lemma array_ok s q ts lim slots : sys_ok [] s -> tqs s !! q = Some ts -> heap_size ts <= lim < 2 ^ 16 -> lim < zlen slots ->
  (forall i, 1 <= i <= heap_size ts -> slots !! Z.to_nat i = heap_slots ts !! Z.to_nat i) -> sys_ok [] (with_queue q (set_heap (heap_size ts) lim slots ts) s).
Proof.
  intros Hs Eq Hlim Hlen Hsl. pose proof (so_queues _ _ Hs q ts Eq) as [(Hp & Ho & ts0 & E0 & _ & Hsz & _) Hl Hi]. rewrite Eq in E0. injection E0 as <-. set (s' := with_queue _ _ s).
  assert (forall i, 1 <= i <= heap_size ts -> slot_of s' q i = slot_of s q i) as Es by (intros i Hr; unfold slot_of, s'; rewrite with_queue_eq, Eq; cbn; by rewrite Hsl).
  pose proof Hs as [A B C]. split; [|intros t x E Hex; eapply timer_ok_ext; [|by apply (B t x)]; intros q'; apply with_queue_some|intros t Ht; by apply elem_of_nil in Ht].
  intros q' ts1. destruct (decide (q = q')) as [<-|Hne].
  - unfold s'. rewrite with_queue_eq. intros [= <-]. split; [|done|done]. cbn [heap_size set_heap]. split; [split|split].
    + exists (set_heap (heap_size ts) lim slots ts). split; [apply with_queue_eq|cbn; lia].
    + intros i Hr Hne. destruct (hp_slot _ _ _ _ _ Hp i Hr Hne) as (a & x & A1 & A2). exists a, x. fold s'. by rewrite (Es i Hr).
    + intros a x A1 A2 A3. destruct (hp_timer _ _ _ _ _ Hp a x A1 A2 A3) as (i & Hr & Hne & D). exists i. fold s'. by rewrite (Es i Hr).
    + apply (ordered_ext (key s q)); [|done]. intros i Hr. unfold key. fold s'. by rewrite (Es i Hr).
    + exists (set_heap (heap_size ts) lim slots ts). split; [apply with_queue_eq|cbn; lia].
  - unfold s'. rewrite with_queue_ne by done. intros E1. apply (queue_ext q' [] s [] s' ts1 ts1); [done|by unfold s'; rewrite with_queue_ne|intros st; exact (same_refl st q' [] s)|done..|by apply A].
Qed.

(** The timers, the log and the deadlines are as they were. *)
Record resized (q : queue) (s s' : tsys) : Prop := {
  rz_rest : tms s' = tms s /\ t_log s' = t_log s /\ t_reads s' = t_reads s;
  rz_others : forall q', q' <> q -> tqs s' !! q' = tqs s !! q';
  rz_own : exists ts lim slots, tqs s !! q = Some ts /\ tqs s' !! q = Some (set_heap (heap_size ts) lim slots ts)
}.

Lemma grow_wp clk s q ts memory : steady_state clk s -> tqs s !! q = Some ts -> wp (grow q memory) (fun _ s' => steady_state clk s' /\ resized q s s') s.
Proof.
  intros Hst Eq. pose proof Hst as [A1 A2 A3 A4 A5]. unfold grow. apply wp_bind, (queue_wp s q ts); [done|].
  assert (steady_state clk s /\ resized q s s) as Hsame.
  { split; [done|]. split; [done|done|]. exists ts, (heap_limit ts), (heap_slots ts). by rewrite set_heap_same. }
  destruct (tq_list ts); [by apply wp_ret|]. apply wp_when; [|done]. intros _. apply (upd_queue_wp s q ts); [done|].
  pose proof (so_queues _ _ A1 q ts Eq) as [(_ & _ & ts0 & E0 & _ & Hsz & Hlim & Hlen) _ _]. rewrite Eq in E0. injection E0 as <-. pose proof (grown_limit _ (A3 q ts Eq)) as [G1 G2].
  set (new := Z.shiftl (heap_limit ts + 1) 4 - 1) in *. assert (0 <= u16 new < 2 ^ 16) as G3 by (apply Z.mod_pos_bound; lia). set (slots := take _ _ ++ _).
  assert (zlen slots = new + 1) as Hl by (unfold slots, zlen in *; rewrite length_app, length_replicate, length_take; lia).
  split.
  - split; [|done| | |done].
    + apply array_ok; [done|done|lia|lia|]. intros i Hi. unfold slots. rewrite lookup_app_l by (rewrite length_take; unfold zlen in *; lia). rewrite lookup_take. by rewrite decide_True by lia.
    + intros q' ts'. destruct (decide (q = q')) as [<-|Hne]; [rewrite with_queue_eq; intros [= <-]; exact G1|rewrite with_queue_ne by done; apply A3].
    + intros q' ts'. destruct (decide (q = q')) as [<-|Hne]; [rewrite with_queue_eq; intros [= <-]; exact (A4 q ts Eq)|rewrite with_queue_ne by done; apply A4].
  - split; [done|intros q' Hne; by rewrite with_queue_ne|]. eexists ts, _, _. split; [done|apply with_queue_eq].
Qed.

(** ** The list is put into the heap *)

(** No timer of [q] is in its list any more; those of the list are in no structure. *)
Lemma drop_list_ok s q ts : sys_ok [] s -> tqs s !! q = Some ts -> sys_ok (tq_list ts) (with_queue q (set_tq_list [] ts) s).
Proof.
  intros Hs Eq. pose proof (so_queues _ _ Hs q ts Eq) as [_ [(L0 & L1 & L2) _] _]. pose proof Hs as [A B C]. set (s' := with_queue _ _ s).
  assert (forall st q', st <> TIMER_STATUS_in_list \/ q' <> q -> same_members st q' [] s (tq_list ts) s') as Hm.
  { intros st q' Hne. split; intros t x (T1 & T2 & T3 & T4); exists x; [split; [|done]|]; (split; [done|]; split; [|done]); [|apply not_elem_of_nil].
    intros Hin. destruct (L1 t Hin) as (y & Y1 & _ & Y3 & Y4). rewrite T1 in Y1. injection Y1 as <-. destruct Hne; congruence. }
  split.
  - intros q' ts1 E1. apply parts_ok. intros st. destruct (decide (q' = q)) as [->|Hne].
    + unfold s' in E1. rewrite with_queue_eq in E1. injection E1 as <-. destruct (decide (st = TIMER_STATUS_in_list)) as [->|Hst].
      * cbn. split; [|constructor]. split; [constructor|]. split; [intros t Ht; by apply elem_of_nil in Ht|]. intros t x (T1 & T2 & T3 & T4). destruct T2. apply (L2 t x). split; [done|]. split; [apply not_elem_of_nil|done].
      * apply (part_ext st q [] s _ s' ts); [apply Hm; by left|done|apply with_queue_eq|by destruct st|]. by apply parts_ok, A.
    + unfold s' in E1. rewrite with_queue_ne in E1 by done. apply (part_ext st q' [] s _ s' ts1 ts1); [apply Hm; by right|done|unfold s'; by rewrite with_queue_ne|apply part_same_refl|]. by apply parts_ok, A.
  - intros t x E Hex. eapply timer_ok_ext; [|apply (B t x E), not_elem_of_nil]. intros q'. apply with_queue_some.
  - intros t Ht. destruct (L1 t Ht) as (x & Hx). exists x. split; [apply Hx|]. eapply live_ext; [intros q'; apply with_queue_some|]. by apply (has_live _ _ _ _ _ _ Hs Hx).
Qed.

(** Timers change their structures, not their deadlines. *)
Definition rehomed (s s' : tsys) : Prop := forall t x', tms s' !! t = Some x' -> exists x, tms s !! t = Some x /\ alike x x' /\ (is_active x' <-> is_active x).
Lemma rehomed_refl s : rehomed s s.
Proof. intros t x E. exists x. split; [done|]. split; [apply alike_refl|done]. Qed.
Lemma rehomed_trans s1 s2 s3 : rehomed s1 s2 -> rehomed s2 s3 -> rehomed s1 s3.
Proof.
  intros H1 H2 t x3 E3. destruct (H2 t x3 E3) as (x2 & E2 & A2 & I2). destruct (H1 t x2 E2) as (x1 & E1 & A1 & I1). exists x1. split; [done|]. split; [by apply (alike_trans _ x2)|]. by rewrite I2.
Qed.
Lemma rehomed_served q s s' : same_world s s' -> rehomed s s' -> served q [] s -> served q [] s'.
Proof.
  intros Hw Hr H ts' E'. destruct (world_back s s' q ts' Hw E') as (ts & E & R). destruct (H ts E) as [Hp|Hq]; [left; by apply R|right].
  intros t x' Et Hex Ha Hqx. destruct (Hr t x' Et) as (x & Ex & Hal & Hi). apply (covered_rest ts); [done|]. rewrite (alike_expires x x' Hal). apply (Hq t x Ex Hex); [by apply Hi|by rewrite <- (alike_queue x x' Hal)].
Qed.
Lemma rehomed_sane s s' : rehomed s s' -> sane s -> sane s'.
Proof. intros Hr H t x' Et Ha. destruct (Hr t x' Et) as (x & Ex & Hal & Hi). rewrite (alike_expires x x' Hal). apply (H t x Ex). by apply Hi. Qed.
Lemma framed_rehomed t s s' x x' : framed t s s' -> tms s !! t = Some x -> tms s' !! t = Some x' -> alike x x' -> is_active x -> is_active x' -> rehomed s s'.
Proof.
  intros Hf E E' Hal Ha Ha' u y' Ey'. destruct (decide (u = t)) as [->|Hne]; [rewrite E' in Ey'; injection Ey' as <-; by exists x|].
  destruct (framed_back t s s' u y' Hf Hne Ey') as (y & p & Ey & ->). exists y. split; [done|]. split; [apply alike_pos|done].
Qed.

Lemma requeue_wp q l : forall s, NoDup l -> sys_ok l s -> (forall t, t ∈ l -> exists x, tms s !! t = Some x /\ queue_of x = q /\ t_pos x = PosList /\ t_status x = TIMER_STATUS_in_list) ->
  wp (requeue q l) (fun _ s' => sys_ok [] s' /\ same_world s s' /\ rehomed s s') s.
Proof.
  induction l as [|t l IH]; intros s Hd Hs Hl; cbn [requeue]; [apply wp_ret; split; [done|]; split; [apply same_world_refl|apply rehomed_refl]|].
  destruct (Hl t ltac:(by left)) as (x & E & <- & Hpos & Hst). destruct (so_loose _ _ Hs t ltac:(by left)) as (y & Ey & Hlx). rewrite E in Ey. injection Ey as <-. apply NoDup_cons in Hd as [Hnt Hd].
  apply wp_bind, (timer_wp s t x); [done|]. apply wp_bind. rewrite Hpos. apply wp_ret. apply wp_bind, (loose_wp l s t x); [done|done|by apply (alike_live x); [apply alike_status|]|].
  set (x1 := set_status _ x). set (s1 := with_timer _ _ _). intros A1 A2 A3. assert (live x1 s1) as Hl1 by (destruct Hlx; by split). apply wp_bind. change (queue_of x) with (queue_of x1).
  eapply wp_mono; [by apply (add_entry_wp l s1 t x1)|]. intros _ s2 (B1 & B2 & (x2 & B3 & B4 & B5) & _). assert (framed t s s2) as Hf by (by apply (framed_trans t s s1)).
  assert (rehomed s s2) as Hr by (apply (framed_rehomed t s s2 x x2); [done|done|done|by apply (alike_trans _ x1); [apply alike_status|]|by right|done]).
  eapply wp_mono; [apply IH; [done|done|]|].
  - intros u Hu. destruct (Hl u ltac:(by right)) as (z & Ez & H1 & H2 & H3). assert (u <> t) as Hut by (intros ->; done). destruct (fr_timers _ _ _ Hf u z Hut Ez) as (p & Ep & [->|Hh]); [|congruence].
    exists (set_pos (t_pos z) z). by rewrite set_pos_same in *.
  - intros [] s3 (C1 & C2 & C3). split; [done|]. split; [apply (same_world_trans _ s2); [by apply (framed_world t)|done]|by apply (rehomed_trans _ s2)].
Qed.

Lemma requeue_all_wp {A} (T B : Prop) s q ts (k : SE tsys A) Q : sys_ok [] s -> tqs s !! q = Some ts ->
  (forall s', sys_ok [] s' -> same_world s s' -> rehomed s s' -> bwp T B k Q s') -> bwp T B (upd_queue q (set_tq_list []);; requeue q (tq_list ts);; k) Q s.
Proof.
  intros Hs Eq HQ. pose proof (so_queues _ _ Hs q ts Eq) as [_ [(L0 & L1 & L2) _] _]. apply bwp_step, (upd_queue_wp s q ts); [done|].
  apply bwp_step. eapply wp_mono; [apply requeue_wp; [done|by apply drop_list_ok|]|].
  - intros t Ht. destruct (L1 t Ht) as (x & X1 & X2 & X3 & X4). exists x. pose proof (so_timers _ _ Hs t x X1 X2) as Hx. unfold timer_ok in Hx. rewrite X3 in Hx. by destruct Hx.
  - intros [] s' (A1 & A2 & A3). apply HQ; [done| |done]. apply (same_world_trans _ _ _ (world_queue q ts (set_tq_list [] ts) s Eq ltac:(by repeat split)) A2).
Qed.

(** ** The next deadline *)

Lemma host_earliest_wp s q ts : sys_ok [] s -> tqs s !! q = Some ts ->
  wp (earliest_deadline q) (fun d s' => s' = s /\ (forall t x, tms s !! t = Some x -> is_active x -> queue_of x = q -> d <= expires x) /\
    (d = STIME_MAX \/ exists t x, tms s !! t = Some x /\ is_active x /\ queue_of x = q /\ d = expires x)) s.
Proof.
  intros Hs Eq. pose proof (so_queues _ _ Hs q ts Eq) as [_ [(_ & _ & L2) _] _]. unfold earliest_deadline. apply wp_bind, (queue_wp s q ts); [done|]. apply wp_bind.
  assert (forall t x st, tms s !! t = Some x -> t_status x = st -> queue_of x = q -> has st q [] s t x) as Hhas by (intros t x st H1 H2 H3; split; [done|]; split; [apply not_elem_of_nil|done]).
  apply (wp_mono _ (fun d s' => s' = s /\ (forall t x, has TIMER_STATUS_in_heap q [] s t x -> d <= expires x) /\
    (d = STIME_MAX \/ exists t x, tms s !! t = Some x /\ is_active x /\ queue_of x = q /\ d = expires x))).
  - destruct (Z.eqb_spec (heap_size ts) 0) as [Hz|Hnz]; cbn [negb].
    + apply wp_ret. split; [done|]. split; [|by left]. intros t x H. by apply (heap_empty q s ts Hs Eq Hz) in H.
    + destruct (heap_top q s ts Hs Eq Hnz) as (t & x & T1 & T2 & T3). pose proof T2 as (X1 & _ & X3 & X4). apply wp_bind, (heap_at_wp s q 1 t); [done|]. apply (expires_wp s t x); [done|]. unfold due. rewrite X1.
      split; [done|]. split; [done|]. right. exists t, x. split; [done|]. split; [by left|done].
  - intros d ? (-> & H1 & H2). destruct (tq_list ts) as [|t l] eqn:El.
    + apply wp_ret. split; [done|]. split; [|done]. intros t x Et [Ha|Ha] Hq; [by apply (H1 t x), Hhas|]. pose proof (L2 t x (Hhas t x _ Et Ha Hq)) as Hin. by apply elem_of_nil in Hin.
    + destruct (list_head q s ts t l Hs Eq El) as (x & X1 & X2). pose proof X1 as (Y1 & _ & Y3 & Y4). apply wp_bind, (expires_wp s t x); [done|]. apply wp_ret. unfold due. rewrite Y1. split; [done|]. split.
      * intros u y Eu [Ha|Ha] Hq; [pose proof (H1 u y (Hhas u y _ Eu Ha Hq))|pose proof (X2 u y (Hhas u y _ Eu Ha Hq))]; destruct (Z.ltb_spec (expires x) d); lia.
      * destruct (Z.ltb_spec (expires x) d); [|done]. right. exists t, x. split; [done|]. split; [by right|done].
Qed.

(** What a change of the deadline leaves alone *)
Record replanned (q : queue) (s s' : tsys) : Prop := {
  rp_rest : tms s' = tms s /\ t_log s' = t_log s /\ (t_reads s <= t_reads s')%nat;
  rp_others : forall q', q' <> q -> tqs s' !! q' = tqs s !! q';
  rp_own : forall ts, tqs s !! q = Some ts -> exists ts', tqs s' !! q = Some ts' /\ heap_size ts' = heap_size ts /\ heap_limit ts' = heap_limit ts /\ heap_slots ts' = heap_slots ts /\
    tq_list ts' = tq_list ts /\ tq_inactive ts' = tq_inactive ts /\ running ts' = running ts
}.

Section Program.
Context (clk : nat -> Z) (scale : time_scale).

Lemma replanned_state q s s' : replanned q s s' -> is_Some (tqs s !! q) -> steady_state clk s -> steady_state clk s'.
Proof.
  intros [(R1 & R2 & R3) R4 R5] [ts E] [A1 A2 A3 A4 A5]. destruct (R5 ts E) as (ts' & E' & F1 & F2 & F3 & F4 & F5 & F6).
  assert (forall q' ts1, tqs s' !! q' = Some ts1 -> exists ts0, tqs s !! q' = Some ts0 /\ heap_limit ts1 = heap_limit ts0 /\ running ts1 = running ts0) as Hq.
  { intros q' ts1 E1. destruct (decide (q' = q)) as [->|Hne]; [rewrite E' in E1; injection E1 as <-; by exists ts|]. rewrite R4 in E1 by done. by exists ts1. }
  split.
  - apply (sys_ok_rest [] (with_queue q ts' s)); [by apply (rest_ok [] s q ts)|done|]. apply map_eq. intros q'. destruct (decide (q = q')) as [<-|Hne]; [by rewrite with_queue_eq|]. rewrite with_queue_ne by done. by apply R4.
  - intros t x. rewrite R1. apply A2.
  - intros q' ts1 E1. destruct (Hq q' ts1 E1) as (ts0 & E0 & -> & _). by apply (A3 q').
  - intros q' ts1 E1. destruct (Hq q' ts1 E1) as (ts0 & E0 & _ & ->). by apply (A4 q').
  - by apply (timely_mono clk s).
Qed.
Lemma replanned_trans q s1 s2 s3 : replanned q s1 s2 -> replanned q s2 s3 -> replanned q s1 s3.
Proof.
  intros [(A1 & A2 & A3) A4 A5] [(B1 & B2 & B3) B4 B5]. split; [split; [congruence|]; split; [congruence|lia]|intros q' Hne; by rewrite B4, A4|].
  intros ts E. destruct (A5 ts E) as (ts2 & E2 & F). destruct (B5 ts2 E2) as (ts3 & E3 & G). exists ts3. split; [done|]. destruct F as (? & ? & ? & ? & ? & ?), G as (? & ? & ? & ? & ? & ?). repeat split; congruence.
Qed.
Lemma replanned_queue q ts ts' s : tqs s !! q = Some ts -> heap_size ts' = heap_size ts -> heap_limit ts' = heap_limit ts -> heap_slots ts' = heap_slots ts ->
  tq_list ts' = tq_list ts -> tq_inactive ts' = tq_inactive ts -> running ts' = running ts -> replanned q s (with_queue q ts' s).
Proof.
  intros E F1 F2 F3 F4 F5 F6. split; [done|intros q' Hne; by rewrite with_queue_ne|]. intros ts0 E0. rewrite E in E0. injection E0 as <-. exists ts'. split; [apply with_queue_eq|done].
Qed.

(** The queues that [reprogram_timer] knows *)
Definition programmable (q : queue) : Prop := match q with OnCpu c => c = 0 | OnVcpu _ => True end.
(** The clock is a positive [s_time_t]. *)
Context (Hclk : forall k, 0 <= clk k <= STIME_MAX).

Lemma program_next_wp T s q ts : sys_ok [] s -> sane s -> tqs s !! q = Some ts ->
  bwp T (~ programmable q) (program_next clk scale q) (fun _ s' => replanned q s s' /\ served q [] s' /\ asked clk scale q s') s.
Proof.
  intros Hs Hsane Eq. unfold program_next. apply bwp_step. eapply wp_mono; [by apply (host_earliest_wp s q ts)|]. intros d ? (-> & D1 & D2).
  apply bwp_step, (upd_queue_wp s q ts); [done|]. set (dl := if _ =? _ then _ else _). set (ts1 := set_deadline dl ts). set (s1 := with_queue q ts1 s).
  assert (dl = 0 /\ (forall t x, tms s !! t = Some x -> is_active x -> queue_of x <> q) \/ dl = d + timer_slop /\ in_range d) as Hdl.
  { unfold dl, in_range, STIME_MAX, timer_slop in *. destruct D2 as [->|(t & x & X1 & X2 & X3 & ->)].
    - left. rewrite Z.eqb_refl. split; [done|]. intros t x X1 X2 X3. pose proof (D1 t x X1 X2 X3). pose proof (Hsane t x X1 X2) as Hr. unfold in_range, STIME_MAX, timer_slop in Hr. lia.
    - right. pose proof (Hsane t x X1 X2) as Hr. unfold in_range, STIME_MAX, timer_slop in Hr. destruct (Z.eqb_spec (expires x) (2 ^ 63 - 1)); [lia|]. split; [|lia]. unfold s64. rewrite Z.mod_small; lia. }
  assert (replanned q s s1) as HR1 by (by apply (replanned_queue q ts)). assert (tqs s1 !! q = Some ts1) as Eq1 by apply with_queue_eq.
  assert (forall s' ts', replanned q s s' -> tqs s' !! q = Some ts' -> timer_deadline ts' = dl -> served q [] s') as Hserved.
  { intros s' ts' [(R1 & _) _ _] E' Ed ts0 E0. rewrite E' in E0. injection E0 as <-. right. intros t x. rewrite R1. intros Et _ Ha Hq. unfold covered. rewrite Ed. destruct Hdl as [[-> Hn]|[-> Hr]]; [by destruct (Hn t x Et Ha Hq)|].
    pose proof (D1 t x Et Ha Hq). unfold in_range, timer_slop in *. lia. }
  apply bwp_last. unfold reprogram_timer. destruct (Z.eqb_spec dl 0) as [Hz|Hnz].
  { apply bwp_wp, wp_ret. split; [done|]. split; [by apply (Hserved s1 ts1)|]. intros ts0 E0. rewrite Eq1 in E0. injection E0 as <-. auto. }
  apply bwp_step. unfold get_now. apply wp_bind, wp_gets, wp_bind, wp_modify, wp_ret. set (s2 := set_t_reads _ s1). set (now := clk (t_reads s1)). pose proof (Hclk (t_reads s1)) as Hnow. fold now in Hnow.
  destruct Hdl as [[? _]|[Edl Hr]]; [done|]. unfold in_range, STIME_MAX, timer_slop in *. assert (s64 (dl - now) = dl - now) as -> by (unfold s64; rewrite Z.mod_small; lia).
  assert (replanned q s1 s2) as HR2 by (split; [cbn; split; [done|]; split; [done|lia]|done|intros ts0 E0; by exists ts0]).
  destruct (Z.leb_spec (dl - now) 0) as [Hle|Hgt].
  - apply bwp_wp, wp_ret. cbn [negb when]. apply (upd_queue_wp s2 q ts1); [done|]. set (s3 := with_queue q _ s2). split; [|split].
    + apply (replanned_trans q s s1); [done|]. apply (replanned_trans q s1 s2); [done|]. by apply (replanned_queue q ts1).
    + intros ts0 E0. unfold s3 in E0. rewrite with_queue_eq in E0. injection E0 as <-. by left.
    + intros ts0 E0. unfold s3 in E0. rewrite with_queue_eq in E0. injection E0 as <-. by left.
  - destruct (match q with OnCpu c => negb (c =? 0) | OnVcpu _ => false end) eqn:Hpr.
    { unfold bwp, bind. cbn. destruct q as [c|]; [|done]. cbn. by apply negb_true_iff, Z.eqb_neq in Hpr. }
    apply bwp_wp. apply wp_bind, wp_bug_if; [done|]. apply wp_bind, (upd_queue_wp s2 q ts1); [done|]. apply wp_ret. cbn [negb when]. apply wp_ret. set (s3 := with_queue q _ s2).
    assert (replanned q s s3) as HR3 by (apply (replanned_trans q s s1); [done|]; apply (replanned_trans q s1 s2); [done|]; by apply (replanned_queue q ts1)).
    split; [done|]. split; [by eapply Hserved; [|apply with_queue_eq|]|]. intros ts0 E0. unfold s3 in E0. rewrite with_queue_eq in E0. injection E0 as <-. right. right. exists now. cbn. split; [exists (t_reads s1); split; [cbn; lia|done]|].
    split; [lia|done].
Qed.
End Program.

(** ** The soft interrupt *)

Section Action.
Context (clk : nat -> Z) (scale : time_scale) (work : tsys -> nat -> list top) `{HW : !WorkRules work}.
Context (Hclk : forall k, 0 <= clk k <= STIME_MAX).

(** The timers of [q] that are due are run once each, those from the heap in the
    order of their deadlines, then those from the list in this order. *)
Definition ran_all (q : queue) (n0 : Z) (s s' : tsys) : Prop := exists r1 r2, t_log s' = t_log s ++ map (fun t => Ran t (due s t) n0) (r1 ++ r2) /\ NoDup (r1 ++ r2) /\
  (forall t, t ∈ r1 ++ r2 <-> due_in q n0 s t) /\ by_deadline s r1 /\ by_deadline s r2.

(** What a soft interrupt of [q] achieves from the state [s] *)
Record handled (q : queue) (s s' : tsys) : Prop := {
  hd_state : steady_state clk s';
  hd_own : served q [] s' /\ asked clk scale q s';
  hd_others : forall q', q' <> q -> (served q' [] s -> served q' [] s') /\ (asked clk scale q' s -> asked clk scale q' s');
  hd_reads : (t_reads s <= t_reads s')%nat;
  hd_queue : is_Some (tqs s' !! q);
  hd_ran : steady clk work s (clk (t_reads s)) -> own_only work -> ran_all q (clk (t_reads s)) s s'
}.

Lemma resized_served q q' s s' : resized q s s' -> (served q' [] s -> served q' [] s') /\ (asked clk scale q' s -> asked clk scale q' s').
Proof.
  intros [(R1 & R2 & R3) R4 (ts & lim & slots & E & E')]. assert (forall ts1, tqs s' !! q' = Some ts1 -> exists ts0, tqs s !! q' = Some ts0 /\
    softirq_pending ts1 = softirq_pending ts0 /\ timer_deadline ts1 = timer_deadline ts0 /\ host_ticks ts1 = host_ticks ts0) as Hq.
  { intros ts1 E1. destruct (decide (q' = q)) as [->|Hne]; [rewrite E' in E1; injection E1 as <-; by exists ts|rewrite R4 in E1 by done; by exists ts1]. }
  split; intros H ts1 E1; destruct (Hq ts1 E1) as (ts0 & E0 & K1 & K2 & K3); rewrite K1; unfold covered; rewrite K2; [rewrite R1; by apply H|].
  rewrite K3. unfold clock_read. rewrite R3. by apply H.
Qed.

(** The state in which the first loop begins *)
Lemma begin_inv q s s1 : steady_state clk s1 -> resized q s s1 -> loop_inv clk scale work q s (clk (t_reads s)) (clk (t_reads s)) (set_t_reads (S (t_reads s)) s1).
Proof.
  intros H1 Hr. pose proof Hr as [(R1 & R2 & R3) R4 (ts & lim & slots & E & E')]. split.
  - apply (steady_state_read clk s1); [done..|cbn; lia|done].
  - cbn. rewrite E'. by eexists.
  - exists (t_reads s). split; [cbn; lia|done].
  - intros q' _. destruct (resized_served q q' s s1 Hr) as [A B]. split; [exact A|]. intros H. apply (asked_read clk scale q' s1); [done|cbn; lia|auto].
  - cbn. lia.
  - done.
  - intros _ _. exists []. cbn. rewrite R2, app_nil_r. split; [done|]. split; [constructor|]. split; [intros t Ht; by apply elem_of_nil in Ht|].
    split; [intros t; rewrite (due_in_same q (clk (t_reads s)) s (set_t_reads (S (t_reads s)) s1) t R1); split; [intros H; split; [done|apply not_elem_of_nil]|by intros [? _]]|]. intros t _. by apply due_same.
Qed.

Lemma events_sorted s n0 r : StronglySorted (fun a b => deadline_of a <= deadline_of b) (map (fun t => Ran t (due s t) n0) r) -> by_deadline s r.
Proof.
  unfold by_deadline. induction r as [|t r IH]; cbn; intros H; [constructor|]. apply StronglySorted_inv in H as [H1 H2]. constructor; [by apply IH|]. apply list.Forall_forall. intros u Hu.
  apply (proj1 (Forall_forall _ _) H2 (Ran u (due s u) n0)). by apply (list_elem_of_fmap_2 (fun t => Ran t (due s t) n0)).
Qed.

(** After the loops nothing that was due is left. *)
Lemma track_end q n0 s s1 s' : track q s n0 s' -> past q TIMER_STATUS_in_heap n0 s' -> past q TIMER_STATUS_in_list n0 s' ->
  in_order q n0 TIMER_STATUS_in_heap s s1 -> in_order q n0 TIMER_STATUS_in_list s1 s' -> ran_all q n0 s s'.
Proof.
  intros (r & T1 & T2 & T3 & T4 & T5) Hh Hl (e1 & E1 & S1 & _) (e2 & E2 & S2 & _). rewrite E1, <- app_assoc in E2. rewrite E2 in T1. apply app_inv_head in T1. symmetry in T1.
  apply map_eq_app in T1 as (r1 & r2 & -> & <- & <-). exists r1, r2. split; [rewrite E2; by rewrite map_app|]. split; [done|]. split; [|split; by apply (events_sorted s n0)].
  intros t. split; [apply T3|]. intros Hd. destruct (decide (t ∈ r1 ++ r2)) as [|Hn]; [done|].
  destruct (proj2 (T4 t) (conj Hd Hn)) as (x & X1 & X2 & [X3|X3] & X4); [specialize (Hh t x)|specialize (Hl t x)]; unfold has in *; pose proof (not_elem_of_nil t); intuition lia.
Qed.

Lemma host_action_wp fuel q memory s : steady_state clk s -> is_Some (tqs s !! q) ->
  bwp (steady clk work s (clk (t_reads s)) /\ (pend (clk (t_reads s)) s < fuel)%nat) (~ programmable q) (timer_softirq_action clk scale work fuel q memory) (fun _ s' => handled q s s') s.
Proof.
  intros Hst [ts Eq]. unfold timer_softirq_action. apply bwp_step. eapply wp_mono; [by apply (grow_wp clk s q ts)|]. intros [] s1 (A1 & A2). pose proof A2 as [(R1 & R2 & R3) _ _].
  apply bwp_step. unfold get_now. apply wp_bind, wp_gets, wp_bind, wp_modify, wp_ret. rewrite R3. pose proof (begin_inv q s s1 A1 A2) as HI. set (n0 := clk (t_reads s)) in *. set (s2 := set_t_reads _ s1) in *.
  assert (pend n0 s2 = pend n0 s) as Ep by (unfold pend; cbn; by rewrite R1). rewrite <- Ep. apply bwp_bind. eapply gwp_mono; [apply (run_heap_wp clk scale work q s n0 s fuel n0 s2 HI)|].
  { intros _ _. exists []. split; [cbn; by rewrite R2, app_nil_r|]. split; [constructor|]. intros e t x He. by apply elem_of_nil in He. }
  intros now s3 (B1 & B2 & B3 & B4). apply (bwp_weaken _ (steady clk work s n0 /\ (pend n0 s3 < fuel)%nat)); [intros [H1 H2]; split; [done|specialize (B3 H1); lia]|].
  apply bwp_bind. eapply gwp_mono; [apply (run_list_wp clk scale work q s n0 s3 fuel now s3 B1)|].
  { intros H _. split; [by rewrite <- (li_steady _ _ _ _ _ _ _ _ B1 H)|apply in_order_start]. }
  intros now' s4 (C1 & C2 & C3). pose proof C1 as [L1 [ts4 Eq4] L2 L3 L4 L5 L6]. pose proof L1 as [S1 S2 S3 S4 S5]. apply bwp_step, (queue_wp s4 q ts4); [done|].
  apply (requeue_all_wp _ _ s4 q ts4); [done|done|]. intros s5 D1 D2 D3. destruct (sw_queues _ _ D2 q ts4 Eq4) as (ts5 & Eq5 & _).
  assert (steady_state clk s5) as Hs5.
  { split; [done|by apply (rehomed_sane s4)|by apply (world_limits s4)|by apply (world_idle s4)|]. destruct (sw_clock _ _ D2) as [K1 K2]. apply (timely_mono clk s4); [done|lia|done]. }
  eapply bwp_mono; [by apply (program_next_wp clk scale Hclk _ s5 q ts5); [..|apply Hs5|]|]. intros [] s6 (F1 & F2 & F3). pose proof F1 as [(G1 & G2 & G3) G4 G5]. destruct (sw_clock _ _ D2) as [K1 K2]. split.
  - by apply (replanned_state clk q s5); [|exists ts5|].
  - done.
  - intros q' Hne. destruct (L3 q' Hne) as [M1 M2]. split.
    + intros H ts6. rewrite G4 by done. rewrite G1. apply (rehomed_served q' s4 s5 D2 D3). by apply M1.
    + intros H. pose proof (world_asked clk scale q' s4 s5 D2 (M2 H)) as H5. intros ts6. rewrite G4 by done. intros E6. destruct (H5 ts6 E6) as [?|[?|(n & N1 & N2)]]; [auto|auto|]. right. right. exists n. split; [by apply (clock_read_mono clk n s5)|done].
  - lia.
  - destruct (G5 ts5 Eq5) as (ts6 & E6 & _). by exists ts6.
  - intros H Hown. assert (ran_all q n0 s s4) as (r1 & r2 & Q1 & Q2); [|exists r1, r2; rewrite G2, K2; done]. destruct (C3 H Hown) as [P1 P2]. apply (track_end q n0 s s3); [by apply L6|done|by rewrite <- (L5 H)|by apply B4|done].
Qed.
End Action.
