(* ===== verification/HostTimerHost.v ===== *)
(** * Timers when the host sleeps, and when processors come and go *)

From stdpp Require Import base list numbers gmap sorting.
From Stdlib Require Import ZArith Lia.
From S2P Require Import Prelude Vpt HostTimer HostHeap HostTimerInv HostTimerOps HostTimerRun HostTimerSoftirq.

Open Scope Z_scope.
Open Scope se_scope.

(** ** Walks over the timers of a queue *)

(** The timers [l] of [q] have been changed by [f]; with [up] the soft interrupt
    was raised. *)
Record touched (q : queue) (f : timer -> timer) (up : bool) (l : list nat) (s s' : tsys) : Prop := {
  tc_rest : t_reads s' = t_reads s /\ t_log s' = t_log s;
  tc_count : length (tms s') = length (tms s);
  tc_timers : forall t, tms s' !! t = (if decide (t ∈ l) then f <$> tms s !! t else tms s !! t);
  tc_others : forall q', q' <> q -> tqs s' !! q' = tqs s !! q';
  tc_own : forall ts, tqs s !! q = Some ts -> tqs s' !! q = Some (set_softirq (softirq_pending ts || (up && negb (bool_decide (l = [])))) ts)
}.

Lemma set_softirq_same ts : set_softirq (softirq_pending ts) ts = ts.
Proof. by destruct ts. Qed.

Lemma touched_nil q f up s : touched q f up [] s s.
Proof. split; [done|done|intros t; by rewrite decide_False by apply not_elem_of_nil|done|]. intros ts E. cbn. by rewrite andb_false_r, orb_false_r, set_softirq_same. Qed.
Lemma touched_cons q f up t l s1 s2 s3 : t ∉ l -> touched q f up [t] s1 s2 -> touched q f up l s2 s3 -> touched q f up (t :: l) s1 s3.
Proof.
  intros Hn [[A1 A2] A3 A4 A5 A6] [[B1 B2] B3 B4 B5 B6]. split; [split; congruence|congruence| |intros q' Hne; by rewrite B5, A5|].
  - intros u. rewrite B4, A4. destruct (decide (u = t)) as [->|Hne].
    + rewrite decide_False by done. by rewrite !decide_True by (rewrite elem_of_cons; tauto).
    + rewrite (decide_False (P := u ∈ [t])) by (rewrite list_elem_of_singleton; tauto). destruct (decide (u ∈ l)); [rewrite decide_True|rewrite decide_False]; (done || rewrite elem_of_cons; tauto).
  - intros ts E. rewrite (B6 _ (A6 ts E)). cbn. f_equal. destruct up, (softirq_pending ts), l; done.
Qed.
Lemma touched_slot q f up l s s' i : touched q f up l s s' -> is_Some (tqs s !! q) -> slot_of s' q i = slot_of s q i.
Proof. intros H [ts E]. unfold slot_of. by rewrite E, (tc_own _ _ _ _ _ _ H ts E). Qed.

Section Walk.
Context (q : queue) (f : timer -> timer) (up : bool) (fn : nat -> SE tsys unit) (good : timer -> Prop).
Context (Hfn : forall s t x ts, tms s !! t = Some x -> good x -> tqs s !! q = Some ts -> wp (fn t) (fun _ s' => touched q f up [t] s s') s).

Lemma walk_list_wp l : forall s, NoDup l -> is_Some (tqs s !! q) -> (forall t, t ∈ l -> exists x, tms s !! t = Some x /\ good x) ->
  wp (iterate_list fn l) (fun _ s' => touched q f up l s s') s.
Proof.
  induction l as [|t l IH]; intros s Hd [ts E] Hg; cbn [iterate_list]; [apply wp_ret, touched_nil|]. apply NoDup_cons in Hd as [Hn Hd]. destruct (Hg t ltac:(by left)) as (x & Ex & Hx).
  apply wp_bind. eapply wp_mono; [by apply (Hfn s t x ts)|]. intros [] s1 H1. eapply wp_mono; [apply IH; [done|eexists; exact (tc_own _ _ _ _ _ _ H1 ts E)|]|].
  - intros u Hu. rewrite (tc_timers _ _ _ _ _ _ H1). rewrite decide_False by (rewrite list_elem_of_singleton; by intros ->). apply Hg. by right.
  - intros [] s2 H2. by apply (touched_cons q f up t l s s1).
Qed.
Lemma walk_heap_wp l : forall s j, 0 <= j -> NoDup l -> is_Some (tqs s !! q) -> (forall t, t ∈ l -> exists x, tms s !! t = Some x /\ good x) ->
  (forall i t, l !! i = Some t -> slot_of s q (j + Z.of_nat i) = Some t) -> wp (iterate_heap q fn (length l) j) (fun _ s' => touched q f up l s s') s.
Proof.
  induction l as [|t l IH]; intros s j Hj Hd Hq Hg Hs; cbn [iterate_heap length]; [apply wp_ret, touched_nil|]. apply NoDup_cons in Hd as [Hn Hd]. destruct (Hg t ltac:(by left)) as (x & Ex & Hx).
  apply wp_bind, (heap_at_wp s q j t); [rewrite <- (Hs 0%nat t eq_refl); f_equal; lia|]. destruct Hq as [ts E].
  apply wp_bind. eapply wp_mono; [by apply (Hfn s t x ts)|]. intros [] s1 H1. eapply wp_mono; [apply IH; [lia|done|eexists; exact (tc_own _ _ _ _ _ _ H1 ts E)| |]|].
  - intros u Hu. rewrite (tc_timers _ _ _ _ _ _ H1). rewrite decide_False by (rewrite list_elem_of_singleton; by intros ->). apply Hg. by right.
  - intros i u Hi. rewrite (touched_slot q f up [t] s s1) by eauto. rewrite <- (Hs (S i) u Hi). f_equal. lia.
  - intros [] s2 H2. by apply (touched_cons q f up t l s s1).
Qed.
End Walk.

(** The timers in the heap, in the order of its slots *)
Lemma heap_members q s ts : sys_ok [] s -> tqs s !! q = Some ts -> exists l, length l = Z.to_nat (heap_size ts) /\ NoDup l /\
  (forall i t, l !! i = Some t -> slot_of s q (1 + Z.of_nat i) = Some t) /\ (forall t, t ∈ l <-> exists x, has TIMER_STATUS_in_heap q [] s t x).
Proof.
  intros Hs Eq. pose proof (so_queues _ _ Hs q ts Eq) as [(Hp & _ & ts0 & E0 & _ & Hsz & _) _ _]. rewrite Eq in E0. injection E0 as <-.
  set (l := map (fun i => default 0%nat (slot_of s q (1 + Z.of_nat i))) (seq 0 (Z.to_nat (heap_size ts)))).
  assert (forall i t, l !! i = Some t -> 1 <= 1 + Z.of_nat i <= heap_size ts /\ slot_of s q (1 + Z.of_nat i) = Some t) as Hl.
  { intros i t Hi. unfold l in Hi. apply list_lookup_fmap_Some in Hi as (n & -> & Hn). apply lookup_seq in Hn as [-> Hn]. cbn in *. destruct (hp_slot _ _ _ _ _ Hp (1 + Z.of_nat i) ltac:(lia) ltac:(lia)) as (a & x & A1 & _). rewrite A1. split; [lia|done]. }
  exists l. split; [unfold l; by rewrite length_map, length_seq|]. split; [|split; [intros i t Hi; by apply Hl|]].
  - apply NoDup_alt. intros i j t Hi Hj. apply Hl in Hi as [Hi1 Hi2], Hj as [Hj1 Hj2]. pose proof (slot_inj [] q (heap_size ts) 0 s _ _ t Hp Hi1 ltac:(lia) Hj1 ltac:(lia) Hi2 Hj2). lia.
  - intros t. split.
    + intros Ht. apply list_elem_of_lookup in Ht as [i Hi]. apply Hl in Hi as [Hi1 Hi2]. destruct (hp_slot _ _ _ _ _ Hp _ Hi1 ltac:(lia)) as (a & x & A1 & A2 & A3 & [A4 A5] & _). rewrite Hi2 in A1. injection A1 as <-. by exists x.
    + intros (x & X1 & X2 & X3 & X4). destruct (hp_timer _ _ _ _ _ Hp t x X1 X2 (conj X3 X4)) as (i & Hi & _ & Ei & _). apply list_elem_of_lookup. exists (Z.to_nat (i - 1)). unfold l.
      rewrite list_lookup_fmap, lookup_seq_lt by lia. cbn. f_equal. replace (1 + Z.of_nat (Z.to_nat (i - 1))) with i by lia. by rewrite Ei.
Qed.

Definition member (q : queue) (x : timer) : Prop := is_active x /\ queue_of x = q.
#[export] Instance member_dec q x : Decision (member q x).
Proof. unfold member. apply _. Defined.
Definition on_members (q : queue) (f : timer -> timer) (l : list timer) : list timer := map (fun x => if decide (member q x) then f x else x) l.

Lemma iterate_wp q f up fn (good : timer -> Prop) s ts :
  (forall s t x ts, tms s !! t = Some x -> good x -> tqs s !! q = Some ts -> wp (fn t) (fun _ s' => touched q f up [t] s s') s) ->
  sys_ok [] s -> tqs s !! q = Some ts -> (forall t x, tms s !! t = Some x -> member q x -> good x) ->
  wp (iterate_timers q fn) (fun _ s' => tms s' = on_members q f (tms s) /\ t_reads s' = t_reads s /\ t_log s' = t_log s /\
    exists b, tqs s' = <[q := set_softirq (softirq_pending ts || b) ts]> (tqs s) /\ (b = true \/ up = false \/ forall t x, tms s !! t = Some x -> ~ member q x)) s.
Proof.
  intros Hfn Hs Eq Hg. destruct (heap_members q s ts Hs Eq) as (lh & L1 & L2 & L3 & L4). pose proof (so_queues _ _ Hs q ts Eq) as [_ [(M1 & M2 & M3) _] _].
  assert (forall t, t ∈ lh -> exists x, tms s !! t = Some x /\ t_status x = TIMER_STATUS_in_heap /\ queue_of x = q) as Hh by (intros t Ht; apply L4 in Ht as (x & X1 & _ & X3); by exists x).
  assert (forall t, t ∈ tq_list ts -> exists x, tms s !! t = Some x /\ t_status x = TIMER_STATUS_in_list /\ queue_of x = q) as Hl by (intros t Ht; apply M2 in Ht as (x & X1 & _ & X3); by exists x).
  assert (forall t, t ∈ lh -> t ∉ tq_list ts) as Hdis by (intros t Ht Ht'; destruct (Hh t Ht) as (x & X1 & X2 & _), (Hl t Ht') as (y & Y1 & Y2 & _); congruence).
  unfold iterate_timers. apply wp_bind, (queue_wp s q ts); [done|]. rewrite <- L1. apply wp_bind. eapply wp_mono; [apply (walk_heap_wp q f up fn good Hfn lh s 1); [lia|done|by exists ts| |done]|].
  { intros t Ht. destruct (Hh t Ht) as (x & X1 & X2 & X3). exists x. split; [done|]. apply (Hg t x X1). split; [by left|done]. }
  intros [] s1 H1. eapply wp_mono; [apply (walk_list_wp q f up fn good Hfn (tq_list ts) s1 M1); [eexists; exact (tc_own _ _ _ _ _ _ H1 ts Eq)|]|].
  { intros t Ht. rewrite (tc_timers _ _ _ _ _ _ H1), decide_False by (intros Ht'; by apply (Hdis t)). destruct (Hl t Ht) as (x & X1 & X2 & X3). exists x. split; [done|]. apply (Hg t x X1). split; [by right|done]. }
  intros [] s2 H2. destruct (tc_rest _ _ _ _ _ _ H1) as [R1 R2], (tc_rest _ _ _ _ _ _ H2) as [Q1 Q2].
  assert (forall t x, tms s !! t = Some x -> member q x <-> t ∈ lh \/ t ∈ tq_list ts) as Hm.
  { intros t x E. split.
    - intros [[Ha|Ha] Hq]; [left; apply L4; exists x|right; apply (M3 t x)]; (split; [done|]; split; [apply not_elem_of_nil|done]).
    - intros [Ht|Ht]; [destruct (Hh t Ht) as (y & Y1 & Y2 & Y3)|destruct (Hl t Ht) as (y & Y1 & Y2 & Y3)]; rewrite E in Y1; injection Y1 as <-; (split; [|done]); [by left|by right]. }
  split; [|split; [congruence|split; [congruence|]]].
  - apply list_eq. intros t. rewrite (tc_timers _ _ _ _ _ _ H2), (tc_timers _ _ _ _ _ _ H1). unfold on_members. rewrite list_lookup_fmap. destruct (tms s !! t) as [x|] eqn:E; [|by repeat case_decide].
    cbn. pose proof (Hm t x E) as Hmt. destruct (decide (t ∈ tq_list ts)) as [H|H], (decide (t ∈ lh)) as [H'|H']; [by destruct (Hdis t)|..]; cbn; case_decide; try done; tauto.
  - pose proof (tc_own _ _ _ _ _ _ H2 _ (tc_own _ _ _ _ _ _ H1 ts Eq)) as E2. cbn in E2. exists ((up && negb (bool_decide (lh = []))) || (up && negb (bool_decide (tq_list ts = [])))). split.
    + apply map_eq. intros q'. destruct (decide (q = q')) as [<-|Hne]; [rewrite lookup_insert_eq, E2; f_equal; by rewrite orb_assoc|]. by rewrite lookup_insert_ne, (tc_others _ _ _ _ _ _ H2), (tc_others _ _ _ _ _ _ H1).
    + destruct up; [|auto]. cbn. destruct lh; [|by left]. destruct (tq_list ts); [|by left]. right. right. intros t x E Hx. apply (Hm t x E) in Hx as [Hx|Hx]; by apply elem_of_nil in Hx.
Qed.

(** ** Deadlines that move together *)

(** Only the deadline and the mark of a timer change. *)
Definition redated (x x' : timer) : Prop := x' = set_expires (expires x') (set_suspended (t_suspended x') x).
Lemma redated_refl x : redated x x.
Proof. by destruct x. Qed.
Lemma redated_same x x' : redated x x' -> t_status x' = t_status x /\ queue_of x' = queue_of x /\ t_pos x' = t_pos x /\ t_type x' = t_type x /\ is_killed x' = is_killed x.
Proof. by intros ->. Qed.

(** The timers of [q] are moved by [d]; the other queues are left alone. *)
Record shifted (q : queue) (d : Z) (s s' : tsys) : Prop := {
  sh_count : length (tms s') = length (tms s);
  sh_timers : forall t x, tms s !! t = Some x -> exists x', tms s' !! t = Some x' /\ redated x x' /\ (is_active x -> expires x' = expires x + (if decide (queue_of x = q) then d else 0));
  sh_queues : forall q' ts', tqs s' !! q' = Some ts' -> exists ts, tqs s !! q' = Some ts /\ heap_size ts' = heap_size ts /\ heap_limit ts' = heap_limit ts /\ heap_slots ts' = heap_slots ts /\
    tq_list ts' = tq_list ts /\ tq_inactive ts' = tq_inactive ts;
  sh_some : forall q', is_Some (tqs s !! q') -> is_Some (tqs s' !! q')
}.

Section Shift.
Context (q : queue) (d : Z) (s s' : tsys) (Hsh : shifted q d s s') (Hs : sys_ok [] s).

Definition offset_of (q' : queue) : Z := if decide (q' = q) then d else 0.

Lemma shift_back t x' : tms s' !! t = Some x' -> exists x, tms s !! t = Some x /\ redated x x' /\ (is_active x -> expires x' = expires x + offset_of (queue_of x)).
Proof.
  intros E'. destruct (lookup_lt_is_Some_2 (tms s) t) as [x E]; [rewrite <- (sh_count _ _ _ _ Hsh); by apply lookup_lt_Some in E'|].
  destruct (sh_timers _ _ _ _ Hsh t x E) as (x1 & E1 & R1 & D1). rewrite E' in E1. injection E1 as <-. by exists x.
Qed.
Lemma shift_has st q' t x' : has st q' [] s' t x' -> exists x, has st q' [] s t x /\ t_pos x' = t_pos x.
Proof.
  intros (E & _ & H1 & H2). destruct (shift_back t x' E) as (x & Ex & R & _). destruct (redated_same x x' R) as (R1 & R2 & R3 & _). exists x. split; [|done]. split; [done|]. split; [apply not_elem_of_nil|split; congruence].
Qed.
Lemma has_shift st q' t x : has st q' [] s t x -> exists x', has st q' [] s' t x' /\ t_pos x' = t_pos x.
Proof.
  intros (E & _ & H1 & H2). destruct (sh_timers _ _ _ _ Hsh t x E) as (x' & E' & R & _). destruct (redated_same x x' R) as (R1 & R2 & R3 & _). exists x'. split; [|done]. split; [done|]. split; [apply not_elem_of_nil|split; congruence].
Qed.
Lemma shift_due st q' t x : st = TIMER_STATUS_in_heap \/ st = TIMER_STATUS_in_list -> has st q' [] s t x -> due s' t = due s t + offset_of q'.
Proof.
  intros Hst (E & _ & H1 & H2). destruct (sh_timers _ _ _ _ Hsh t x E) as (x' & E' & _ & D). unfold due. rewrite E, E'. rewrite <- H2. apply D. unfold is_active. destruct Hst; subst; auto.
Qed.

Lemma shift_listed st q' l : listed st q' l [] s -> listed st q' l [] s'.
Proof.
  intros (A & B & C). split; [done|]. split.
  - intros t Ht. destruct (B t Ht) as [x Hx]. destruct (has_shift _ _ _ _ Hx) as (x' & Hx' & _). by exists x'.
  - intros t x' Hx'. destruct (shift_has _ _ _ _ Hx') as (x & Hx & _). by apply (C t x).
Qed.
Lemma shift_sorted l q' : (forall t, t ∈ l -> due s' t = due s t + offset_of q') -> by_deadline s l -> by_deadline s' l.
Proof.
  intros E H. unfold by_deadline in *. induction H as [|a l Hso IH Ha]; [constructor|]. constructor; [apply IH; intros t Ht; apply E; by right|].
  rewrite !list.Forall_forall in *. intros b Hb. rewrite !E by (by constructor). specialize (Ha b Hb). lia.
Qed.

Lemma shift_heap q' ts ts' : tqs s !! q' = Some ts -> tqs s' !! q' = Some ts' -> heap_size ts' = heap_size ts -> heap_limit ts' = heap_limit ts -> heap_slots ts' = heap_slots ts ->
  heap_ok [] q' (heap_size ts) s -> heap_ok [] q' (heap_size ts) s'.
Proof.
  intros E E' F1 F2 F3 (Hp & Ho & ts0 & E0 & G). rewrite E in E0. injection E0 as <-. assert (forall i, slot_of s' q' i = slot_of s q' i) as Es by (intros i; unfold slot_of; by rewrite E, E', F3).
  assert (forall i, 1 <= i <= heap_size ts -> key s' q' i = key s q' i + offset_of q') as Ek.
  { intros i Hi. destruct (hp_slot _ _ _ _ _ Hp i Hi ltac:(lia)) as (a & x & A1 & A2 & A3 & [A4 A5] & _). unfold key. rewrite Es, A1. apply (shift_due TIMER_STATUS_in_heap q' a x); [by left|done]. }
  split; [split|split].
  - exists ts'. rewrite F3. destruct (hp_room _ _ _ _ _ Hp) as (ts0 & E0 & H). split; [done|]. congruence.
  - intros i Hi Hne. destruct (hp_slot _ _ _ _ _ Hp i Hi Hne) as (a & x & A1 & A2 & A3 & [A4 A5] & A6). destruct (has_shift TIMER_STATUS_in_heap q' a x) as (x' & (B1 & B2 & B3 & B4) & B5); [done|].
    exists a, x'. rewrite Es. split; [done|]. split; [done|]. split; [done|]. split; [done|congruence].
  - intros a x' A1 A2 [A3 A4]. destruct (shift_has TIMER_STATUS_in_heap q' a x') as (x & (B1 & B2 & B3 & B4) & B5); [done|]. destruct (hp_timer _ _ _ _ _ Hp a x B1 B2 (conj B3 B4)) as (i & Hi & Hne & D1 & D2).
    exists i. rewrite Es. split; [done|]. split; [done|]. split; [done|congruence].
  - intros i Hi. rewrite !Ek; [specialize (Ho i Hi); lia|lia|]. pose proof (half_lt i ltac:(lia)). lia.
  - exists ts'. by rewrite F1, F2, F3.
Qed.

Lemma shift_ok : sys_ok [] s'.
Proof.
  pose proof Hs as [A B C]. split; [| |intros t Ht; by apply elem_of_nil in Ht].
  - intros q' ts' E'. destruct (sh_queues _ _ _ _ Hsh q' ts' E') as (ts & E & F1 & F2 & F3 & F4 & F5). pose proof (A q' ts E) as [Q1 [Q2 Q3] Q4]. split.
    + rewrite F1. by apply (shift_heap q' ts ts').
    + rewrite F4. split; [by apply shift_listed|]. apply (shift_sorted _ q'); [|done]. intros t Ht. destruct Q2 as (_ & L1 & _). destruct (L1 t Ht) as [x Hx]. apply (shift_due TIMER_STATUS_in_list q' t x); [by right|done].
    + rewrite F5. by apply shift_listed.
  - intros t x' E' Hex. destruct (shift_back t x' E') as (x & E & R & _). destruct (redated_same x x' R) as (R1 & R2 & R3 & R4 & R5). apply (timer_ok_ext _ s s' (sh_some _ _ _ _ Hsh)).
    pose proof (B t x E Hex) as Hx. assert (live x s -> live x' s) as Hl by (intros [L1 L2 L3]; split; congruence). unfold timer_ok in *. rewrite R1, R2, R3, R4, R5. destruct (t_status x); intuition.
Qed.
End Shift.

(** ** The host goes to sleep and wakes up *)

Section Sleep.
Context (clk : nat -> Z).

(** A deadline becomes the time that is left of it, and a deadline again. *)
Definition sign (suspend : bool) : Z := if suspend then -1 else 1.
Definition redate (suspend : bool) (a : Z) (x : timer) : timer := set_expires (expires x + sign suspend * a) (set_suspended suspend x).
Definition redate_by (suspend : bool) (w : queue -> option Z) (x : timer) : timer :=
  if decide (is_active x) then match w (queue_of x) with Some a => redate suspend a x | None => x end else x.
(** The times at which the queues are handled *)
Fixpoint times (qs : list queue) (n : nat) (q : queue) : option Z :=
  match qs with
  | [] => None
  | q' :: qs => if decide (q = q') then Some (clk n) else times qs (S n) q
  end.
(** A queue that has been handled *)
Definition dozed (ts ts' : timers) : Prop :=
  heap_size ts' = heap_size ts /\ heap_limit ts' = heap_limit ts /\ heap_slots ts' = heap_slots ts /\ tq_list ts' = tq_list ts /\ tq_inactive ts' = tq_inactive ts /\
  running ts' = running ts /\ timer_deadline ts' = timer_deadline ts /\ host_ticks ts' = host_ticks ts /\ (softirq_pending ts = true -> softirq_pending ts' = true).
Lemma dozed_refl ts : dozed ts ts.
Proof. by repeat split. Qed.
Lemma dozed_trans t1 t2 t3 : dozed t1 t2 -> dozed t2 t3 -> dozed t1 t3.
Proof. unfold dozed. intuition congruence. Qed.

Definition fits (x : Z) : Prop := - 2 ^ 63 <= x < 2 ^ 63.
Definition ready (suspend : bool) (q : queue) (a : Z) (x : timer) : Prop := fits (expires x + sign suspend * a) /\ (suspend = false -> t_suspended x = true) /\ is_active x /\ typed x /\ queue_of x = q.

Lemma s64_fits x : fits x -> s64 x = x.
Proof. unfold fits, s64. intros H. rewrite Z.mod_small; lia. Qed.

Lemma suspend_one_wp q now s t x ts : tms s !! t = Some x -> ready true q now x -> tqs s !! q = Some ts ->
  wp (suspend_one_timer now t) (fun _ s' => touched q (redate true now) false [t] s s') s.
Proof.
  intros E (Hf & _ & Ha & _) Eq. pose proof (lookup_lt_Some _ _ _ E) as Hlt. unfold suspend_one_timer. apply wp_bind, (upd_timer_wp s t x); [done|]. set (s1 := with_timer _ _ s).
  assert (tms s1 !! t = Some (set_suspended false x)) as E1 by (by apply with_timer_eq). apply wp_bind, (active_timer_wp s1 t (set_suspended false x)); [done|destruct Ha as [Ha|Ha]; cbn; congruence|].
  intros b Hb. replace b with true by (symmetry; by apply Hb). apply (upd_timer_wp s1 t (set_suspended false x)); [done|]. split.
  - done.
  - cbn. by rewrite !length_insert.
  - intros u. cbn. rewrite list_insert_insert_eq. destruct (decide (u ∈ [t])) as [->%list_elem_of_singleton|Hu].
    + rewrite list_lookup_insert_eq by done. rewrite E. cbn. do 2 f_equal. unfold redate. cbn. rewrite s64_fits; [f_equal; lia|]. unfold sign in Hf. by replace (expires x - now) with (expires x + -1 * now) by lia.
    + rewrite list_elem_of_singleton in Hu. by rewrite list_lookup_insert_ne.
  - done.
  - intros ts0 E0. cbn. by rewrite orb_false_r, set_softirq_same.
Qed.

Lemma resume_one_wp q now s t x ts : tms s !! t = Some x -> ready false q now x -> tqs s !! q = Some ts ->
  wp (resume_one_timer now t) (fun _ s' => touched q (redate false now) true [t] s s') s.
Proof.
  intros E (Hf & Hsus & Ha & Hty & Hq) Eq. pose proof (lookup_lt_Some _ _ _ E) as Hlt. unfold resume_one_timer. apply wp_bind, (timer_wp s t x); [done|]. rewrite (Hsus eq_refl). cbn [when].
  apply wp_bind, (upd_timer_wp s t x); [done|]. assert ((t_type x =? TIMER_TYPE_cpu) || (t_type x =? TIMER_TYPE_vcpu) = true) as -> by (destruct Hty as [->| ->]; done). rewrite Hq.
  set (s1 := with_timer _ _ s). apply (upd_queue_wp s1 q ts); [done|]. split.
  - done.
  - cbn. by rewrite length_insert.
  - intros u. cbn. destruct (decide (u ∈ [t])) as [->%list_elem_of_singleton|Hu].
    + rewrite list_lookup_insert_eq by done. rewrite E. cbn. do 2 f_equal. unfold redate. cbn. rewrite s64_fits; [f_equal; lia|]. unfold sign in Hf. by replace (expires x + now) with (expires x + 1 * now) by lia.
    + rewrite list_elem_of_singleton in Hu. by rewrite list_lookup_insert_ne.
  - intros q' Hne. by rewrite with_queue_ne.
  - intros ts0 E0. rewrite Eq in E0. injection E0 as <-. rewrite with_queue_eq. cbn. by rewrite orb_true_r.
Qed.

Definition at_only (q : queue) (a : Z) (q' : queue) : option Z := if decide (q' = q) then Some a else None.
Lemma redate_members b q a l : map (redate_by b (at_only q a)) l = on_members q (redate b a) l.
Proof.
  apply map_ext. intros x. unfold redate_by, at_only, member. destruct (decide (is_active x)), (decide (queue_of x = q)), (decide (is_active x /\ queue_of x = q)); tauto.
Qed.
Lemma redate_redated b w x : redated x (redate_by b w x).
Proof. unfold redate_by. destruct (decide (is_active x)); [|apply redated_refl]. destruct (w (queue_of x)); [by destruct x|apply redated_refl]. Qed.

(** The timers of [s] that are handled now *)
Definition all_ready (b : bool) (w : queue -> option Z) (s : tsys) : Prop := forall t x a, tms s !! t = Some x -> is_active x -> w (queue_of x) = Some a ->
  fits (expires x + sign b * a) /\ (b = false -> t_suspended x = true).

(** What a round leaves of the state *)
Record slept (b : bool) (w : queue -> option Z) (s s' : tsys) : Prop := {
  sl_timers : tms s' = map (redate_by b w) (tms s);
  sl_log : t_log s' = t_log s;
  sl_reads : (t_reads s <= t_reads s')%nat;
  sl_queues : forall q ts, tqs s !! q = Some ts -> exists ts', tqs s' !! q = Some ts' /\ dozed ts ts' /\
    (b = false -> is_Some (w q) -> softirq_pending ts' = true \/ forall t x, tms s !! t = Some x -> ~ member q x);
  sl_none : forall q, tqs s !! q = None -> tqs s' !! q = None
}.
Lemma slept_back b w s s' q ts' : slept b w s s' -> tqs s' !! q = Some ts' -> exists ts, tqs s !! q = Some ts /\ dozed ts ts'.
Proof.
  intros H E'. destruct (tqs s !! q) as [ts|] eqn:E; [|by rewrite (sl_none _ _ _ _ H q E) in E']. destruct (sl_queues _ _ _ _ H q ts E) as (ts1 & E1 & D & _). exists ts. split; [done|congruence].
Qed.
Lemma slept_shifted b q a s s' : slept b (at_only q a) s s' -> shifted q (sign b * a) s s'.
Proof.
  intros H. split.
  - rewrite (sl_timers _ _ _ _ H). apply length_map.
  - intros t x E. exists (redate_by b (at_only q a) x). split; [rewrite (sl_timers _ _ _ _ H), list_lookup_fmap, E; done|]. split; [apply redate_redated|].
    intros Ha. unfold redate_by, at_only. rewrite decide_True by done. destruct (decide (queue_of x = q)); cbn; lia.
  - intros q' ts' E'. destruct (slept_back b _ s s' q' ts' H E') as (ts & E & F1 & F2 & F3 & F4 & F5 & _). by exists ts.
  - intros q' [ts E]. destruct (sl_queues _ _ _ _ H q' ts E) as (ts' & E' & _). by exists ts'.
Qed.

Lemma sleep_queue_wp b q now s ts : sys_ok [] s -> tqs s !! q = Some ts -> all_ready b (at_only q now) s ->
  wp (if b then upd_queue q (set_suspend_time now);; iterate_timers q (suspend_one_timer now) else iterate_timers q (resume_one_timer now))
    (fun _ s' => slept b (at_only q now) s s' /\ t_reads s' = t_reads s /\ sys_ok [] s') s.
Proof.
  intros Hs Eq Hr.
  assert (forall t x, tms s !! t = Some x -> member q x -> ready b q now x) as Hready.
  { intros t x E [Ha Hq]. destruct (Hr t x now E Ha) as [R1 R2]; [unfold at_only; by rewrite decide_True|]. destruct (active_live [] s t x Hs (conj E (not_elem_of_nil t)) Ha) as [L _ _]. split; [done|]. split; [done|]. split; [done|]. by split. }
  assert (forall ts1 s1 s', tqs s1 = <[q := ts1]> (tqs s) -> tms s1 = tms s -> t_reads s1 = t_reads s -> t_log s1 = t_log s -> dozed ts ts1 ->
    tms s' = on_members q (redate b now) (tms s1) /\ t_reads s' = t_reads s1 /\ t_log s' = t_log s1 /\
      (exists c, tqs s' = <[q := set_softirq (softirq_pending ts1 || c) ts1]> (tqs s1) /\ (c = true \/ negb b = false \/ forall t x, tms s1 !! t = Some x -> ~ member q x)) ->
    slept b (at_only q now) s s' /\ t_reads s' = t_reads s /\ sys_ok [] s') as Hend.
  { intros ts1 s1 s' Q1 Q2 Q3 Q4 Q5 (B1 & B2 & B3 & c & B4 & B5). assert (slept b (at_only q now) s s') as Hsl.
    { split; [by rewrite redate_members, <- Q2|congruence|by rewrite B2, Q3| |].
      - intros q' ts0 E0. rewrite B4, Q1, insert_insert_eq. destruct (decide (q = q')) as [<-|Hne].
        + rewrite lookup_insert_eq. rewrite Eq in E0. injection E0 as <-. eexists. split; [done|]. split; [apply (dozed_trans _ ts1); [done|]; repeat split; cbn; intros ->; done|].
          intros -> _. cbn. destruct B5 as [->|[?|B5]]; [left; by rewrite orb_true_r|done|right; by rewrite Q2 in B5].
        + rewrite lookup_insert_ne by done. exists ts0. split; [done|]. split; [apply dozed_refl|]. intros _ [a Ha]. unfold at_only in Ha. rewrite decide_False in Ha by congruence. done.
      - intros q' E0. rewrite B4, Q1, insert_insert_eq, lookup_insert_ne by congruence. done. }
    split; [done|]. split; [congruence|]. by apply (shift_ok q (sign b * now) s s'); [apply slept_shifted|]. }
  destruct b.
  - apply wp_bind, (upd_queue_wp s q ts); [done|]. set (s1 := with_queue _ _ s). assert (sys_ok [] s1) as Hs1 by (by apply (rest_ok [] s q ts)).
    eapply wp_mono; [apply (iterate_wp q (redate true now) false (suspend_one_timer now) (ready true q now) s1 (set_suspend_time now ts)); [by apply suspend_one_wp|done|apply with_queue_eq|done]|].
    intros [] s' H. by apply (Hend (set_suspend_time now ts) s1).
  - eapply wp_mono; [apply (iterate_wp q (redate false now) true (resume_one_timer now) (ready false q now) s ts); [by apply resume_one_wp|done|done|done]|].
    intros [] s' H. apply (Hend ts s); try done. by rewrite insert_id.
Qed.

Lemma times_notin qs : forall n q, q ∉ qs -> times qs n q = None.
Proof. induction qs as [|q' qs IH]; intros n q Hn; cbn; [done|]. apply not_elem_of_cons in Hn as [Hne Hn]. rewrite decide_False by done. by apply IH. Qed.
Lemma times_in qs : forall n q, q ∈ qs -> is_Some (times qs n q).
Proof. induction qs as [|q' qs IH]; intros n q Hin; [by apply elem_of_nil in Hin|]. cbn. destruct (decide (q = q')); [by eexists|]. apply elem_of_cons in Hin as [->|Hin]; [done|by apply IH]. Qed.
Lemma redate_active b w x : is_active (redate_by b w x) <-> is_active x.
Proof. unfold is_active. destruct (redated_same _ _ (redate_redated b w x)) as (-> & _). done. Qed.
Lemma redate_queue b w x : queue_of (redate_by b w x) = queue_of x.
Proof. by destruct (redated_same _ _ (redate_redated b w x)) as (_ & -> & _). Qed.
Lemma redate_later b q qs n x : q ∉ qs -> redate_by b (times qs (S n)) (redate_by b (at_only q (clk n)) x) = redate_by b (times (q :: qs) n) x.
Proof.
  intros Hq. unfold redate_by at 1 3. rewrite redate_queue. destruct (decide (is_active x)) as [Ha|Hn].
  - rewrite decide_True by (by apply redate_active). unfold redate_by, at_only. rewrite decide_True by done. cbn. destruct (decide (queue_of x = q)) as [->|Hne]; [by rewrite times_notin|done].
  - rewrite decide_False by (by rewrite redate_active). unfold redate_by. by rewrite decide_False.
Qed.
Lemma member_redate b w q x : member q (redate_by b w x) <-> member q x.
Proof. unfold member. by rewrite redate_active, redate_queue. Qed.

Lemma slept_next b q qs n s s2 s3 : q ∉ qs -> slept b (at_only q (clk n)) s s2 -> slept b (times qs (S n)) s2 s3 -> slept b (times (q :: qs) n) s s3.
Proof.
  intros Hq [A1 A2 A3 A4 A5] [B1 B2 B3 B4 B5]. split; [|congruence|lia| |auto].
  - rewrite B1, A1, map_map. apply map_ext. intros x. by apply redate_later.
  - intros q' ts E. destruct (A4 q' ts E) as (ts2 & E2 & D2 & P2). destruct (B4 q' ts2 E2) as (ts3 & E3 & D3 & P3). exists ts3. split; [done|]. split; [by apply (dozed_trans _ ts2)|].
    intros Hb [a Ha]. cbn in Ha. destruct (decide (q' = q)) as [->|Hne].
    + destruct P2 as [P2|P2]; [done|unfold at_only; by rewrite decide_True| |by right]. left. destruct D3 as (_ & _ & _ & _ & _ & _ & _ & _ & D3). by apply D3.
    + destruct P3 as [P3|P3]; [done|by exists a|by left|right]. intros t x Et Hm. apply (P3 t (redate_by b (at_only q (clk n)) x)); [by rewrite A1, list_lookup_fmap, Et|by apply member_redate].
Qed.

Lemma sleep_wp b qs : forall s, NoDup qs -> Forall (fun q => is_Some (tqs s !! q)) qs -> sys_ok [] s -> all_ready b (times qs (t_reads s)) s ->
  wp (suspend_resume_timers clk b qs) (fun _ s' => slept b (times qs (t_reads s)) s s' /\ sys_ok [] s' /\ t_reads s' = (t_reads s + length qs)%nat) s.
Proof.
  induction qs as [|q qs IH]; intros s Hd Hq Hs Hr; cbn [suspend_resume_timers].
  { apply wp_ret. split; [|split; [done|cbn; lia]]. split; [|done|done| |done].
    - rewrite <- (map_id (tms s)) at 1. apply map_ext. intros x. unfold redate_by. cbn. by case_decide.
    - intros q ts E. exists ts. split; [done|]. split; [apply dozed_refl|]. intros _ [a Ha]. done. }
  apply NoDup_cons in Hd as [Hn Hd]. apply list.Forall_cons in Hq as [[ts Eq] Hq]. apply wp_bind. unfold get_now. apply wp_bind, wp_gets, wp_bind, wp_modify, wp_ret. set (s1 := set_t_reads _ s). set (n := t_reads s) in *.
  apply wp_bind. eapply wp_mono; [apply (sleep_queue_wp b q (clk n) s1 ts); [by apply (sys_ok_rest [] s)|done|]|].
  { intros t x a E Ha Hw. apply (Hr t x a E Ha). cbn. unfold at_only in Hw. by destruct (decide (queue_of x = q)). }
  intros [] s2 (A1 & A2 & A3). assert (t_reads s2 = S n) as Er by done. assert (slept b (at_only q (clk n)) s s2) as A1' by (destruct A1 as [B1 B2 B3 B4 B5]; split; try done; cbn in B3; lia).
  eapply wp_mono; [apply IH; [done| |done|]|].
  - eapply Forall_impl; [exact Hq|]. intros q' [ts' E']. destruct (sl_queues _ _ _ _ A1' q' ts' E') as (ts2 & E2 & _). by exists ts2.
  - rewrite Er. intros t x2 a E2 Ha Hw. rewrite (sl_timers _ _ _ _ A1'), list_lookup_fmap in E2. destruct (tms s !! t) as [x|] eqn:E; [|done]. cbn in E2. injection E2 as <-. rewrite redate_queue in Hw. rewrite redate_active in Ha.
    assert (queue_of x <> q) as Hne by (intros Hx; rewrite Hx, times_notin in Hw by done; done). unfold redate_by, at_only. rewrite decide_True by done. rewrite decide_False by done.
    apply (Hr t x a E Ha). cbn. by rewrite decide_False.
  - rewrite Er. intros [] s3 (B1 & B2 & B3). split; [by apply (slept_next b q qs n s s2)|]. split; [done|]. rewrite B3. cbn. lia.
Qed.

(** Nothing else happens between [suspend_timers] and [resume_timers]. *)
Definition sleep (qs : list queue) : SE tsys unit := suspend_timers clk qs;; resume_timers clk qs.

(** A timer has as long to go when the host wakes up as when it went to sleep. *)
Definition after_sleep (qs : list queue) (n : nat) (x : timer) : timer :=
  if decide (is_active x) then
    match times qs n (queue_of x), times qs (n + length qs) (queue_of x) with
    | Some a, Some b => set_expires (expires x - a + b) (set_suspended false x)
    | _, _ => x
    end
  else x.
Definition sleep_in_range (qs : list queue) (s : tsys) : Prop := forall t x, tms s !! t = Some x -> is_active x -> in_range (expires (after_sleep qs (t_reads s) x)).

Lemma times_both qs n m q : (exists a b, times qs n q = Some a /\ times qs m q = Some b) \/ (times qs n q = None /\ times qs m q = None).
Proof.
  destruct (decide (q ∈ qs)) as [Hin|Hn]; [left|right; by rewrite !times_notin]. destruct (times_in qs n q Hin) as [a Ha], (times_in qs m q Hin) as [b Hb]. by exists a, b.
Qed.
Lemma redate_twice qs n m x : redate_by false (times qs m) (redate_by true (times qs n) x) =
  (if decide (is_active x) then match times qs n (queue_of x), times qs m (queue_of x) with Some a, Some b => set_expires (expires x - a + b) (set_suspended false x) | _, _ => x end else x).
Proof.
  unfold redate_by at 1. rewrite redate_queue. destruct (decide (is_active x)) as [Ha|Hn]; [rewrite decide_True by (by apply redate_active)|rewrite decide_False by (by rewrite redate_active)]; unfold redate_by;
    [rewrite decide_True by done|by rewrite decide_False].
  destruct (times_both qs n m (queue_of x)) as [(a & b & -> & ->)|[-> ->]]; [|done]. unfold redate, sign. cbn. destruct x; unfold set_expires, set_suspended; cbn. f_equal. lia.
Qed.

Lemma times_nth qs : forall n i q, NoDup qs -> qs !! i = Some q -> times qs n q = Some (clk (n + i)).
Proof.
  induction qs as [|q' qs IH]; intros n i q Hd Hi; [done|]. apply NoDup_cons in Hd as [Hn Hd]. cbn. destruct i as [|i]; cbn in Hi; [injection Hi as ->; rewrite decide_True by done; by rewrite Nat.add_0_r|].
  rewrite decide_False by (intros ->; by apply list_elem_of_lookup_2 in Hi). rewrite (IH (S n) i q Hd Hi). f_equal. f_equal. lia.
Qed.
Lemma times_clk qs : forall n q a, times qs n q = Some a -> exists k, a = clk k.
Proof. induction qs as [|q' qs IH]; intros n q a; cbn; [done|]. destruct (decide (q = q')); [intros [= <-]; by exists n|apply IH]. Qed.

Lemma after_sleep_redated qs n x : redated x (after_sleep qs n x).
Proof. unfold after_sleep. case_decide; [|apply redated_refl]. destruct (times qs n (queue_of x)), (times qs (n + length qs) (queue_of x)); try apply redated_refl. by destruct x. Qed.
Lemma after_sleep_active qs n x : is_active (after_sleep qs n x) <-> is_active x.
Proof. unfold is_active. by destruct (redated_same _ _ (after_sleep_redated qs n x)) as (-> & _). Qed.
Lemma after_sleep_queue qs n x : queue_of (after_sleep qs n x) = queue_of x.
Proof. by destruct (redated_same _ _ (after_sleep_redated qs n x)) as (_ & -> & _). Qed.

Context (scale : time_scale).

(** Both rounds *)
Section Rounds.
Context (qs : list queue) (n : nat) (s s1 s2 : tsys) (B : slept true (times qs n) s s1) (C : slept false (times qs (n + length qs)) s1 s2).

Lemma rounds_timers : tms s2 = map (after_sleep qs n) (tms s).
Proof. rewrite (sl_timers _ _ _ _ C), (sl_timers _ _ _ _ B), map_map. apply map_ext. intros x. apply redate_twice. Qed.
Lemma rounds_back t x2 : tms s2 !! t = Some x2 -> exists x, tms s !! t = Some x /\ x2 = after_sleep qs n x.
Proof. rewrite rounds_timers, list_lookup_fmap. destruct (tms s !! t) as [x|]; [|done]. cbn. intros [= <-]. by exists x. Qed.
Lemma rounds_queue q ts2 : tqs s2 !! q = Some ts2 -> exists ts, tqs s !! q = Some ts /\ dozed ts ts2.
Proof.
  intros E2. destruct (slept_back _ _ _ _ q ts2 C E2) as (ts1 & E1 & D1). destruct (slept_back _ _ _ _ q ts1 B E1) as (ts & E & D). exists ts. split; [done|by apply (dozed_trans _ ts1)].
Qed.
Lemma rounds_some q : is_Some (tqs s2 !! q) <-> is_Some (tqs s !! q).
Proof.
  split; [intros [ts2 E2]; destruct (rounds_queue q ts2 E2) as (ts & E & _); by exists ts|]. intros [ts E].
  destruct (sl_queues _ _ _ _ B q ts E) as (ts1 & E1 & _). destruct (sl_queues _ _ _ _ C q ts1 E1) as (ts2 & E2 & _). by exists ts2.
Qed.
Lemma rounds_log : t_log s2 = t_log s.
Proof. by rewrite (sl_log _ _ _ _ C), (sl_log _ _ _ _ B). Qed.
Lemma rounds_reads : (t_reads s <= t_reads s2)%nat.
Proof. pose proof (sl_reads _ _ _ _ B). pose proof (sl_reads _ _ _ _ C). lia. Qed.

Lemma rounds_asked q : asked clk scale q s -> asked clk scale q s2.
Proof.
  intros H ts2 E2. destruct (rounds_queue q ts2 E2) as (ts & E & D). destruct D as (_ & _ & _ & _ & _ & _ & -> & -> & Hp). destruct (H ts E) as [?|[?|(k & K1 & K2)]]; [auto|auto|].
  right. right. exists k. split; [apply (clock_read_mono clk k s); [apply rounds_reads|done]|done].
Qed.
(** The soft interrupt of a queue with timers is raised. *)
Lemma rounds_raised q ts2 : q ∈ qs -> tqs s2 !! q = Some ts2 -> softirq_pending ts2 = true \/ forall t x, tms s2 !! t = Some x -> ~ member q x.
Proof.
  intros Hin E2. destruct (slept_back _ _ _ _ q ts2 C E2) as (ts1 & E1 & _). destruct (sl_queues _ _ _ _ C q ts1 E1) as (ts2' & E2' & _ & P). rewrite E2 in E2'. injection E2' as <-.
  destruct (P eq_refl (times_in qs _ q Hin)) as [?|P']; [by left|right]. intros t x2 Et2 Hm. rewrite (sl_timers _ _ _ _ C), list_lookup_fmap in Et2. destruct (tms s1 !! t) as [x1|] eqn:Ex1; [|done].
  cbn in Et2. injection Et2 as <-. apply member_redate in Hm. exact (P' t x1 Ex1 Hm).
Qed.
Lemma rounds_served q : served q [] s -> served q [] s2.
Proof.
  intros H ts2 E2. destruct (decide (q ∈ qs)) as [Hin|Hout].
  - destruct (rounds_raised q ts2 Hin E2) as [?|P]; [by left|right]. intros t x Et _ Ha Hq. by destruct (P t x Et).
  - destruct (rounds_queue q ts2 E2) as (ts & E & D). destruct (H ts E) as [Hp|Hc]; [left; by apply D|right]. intros t x2 Et2 _ Ha Hqx. destruct (rounds_back t x2 Et2) as (x & Ex & ->).
    rewrite after_sleep_queue in Hqx. rewrite after_sleep_active in Ha. assert (after_sleep qs n x = x) as -> by (unfold after_sleep; rewrite decide_True by done; by rewrite Hqx, (times_notin qs n q Hout)).
    unfold covered. destruct D as (_ & _ & _ & _ & _ & _ & -> & _). exact (Hc t x Ex (not_elem_of_nil t) Ha Hqx).
Qed.
Lemma rounds_state : steady_state clk s -> sys_ok [] s2 -> (forall t x, tms s !! t = Some x -> is_active x -> in_range (expires (after_sleep qs n x))) -> steady_state clk s2.
Proof.
  intros [A1 A2 A3 A4 A5] Hs Hr. split; [done| | | |].
  - intros t x2 E2 Ha. destruct (rounds_back t x2 E2) as (x & E & ->). apply (Hr t x E). by apply (after_sleep_active qs n).
  - intros q ts2 E2. destruct (rounds_queue q ts2 E2) as (ts & E & _ & D & _). rewrite D. by apply (A3 q).
  - intros q ts2 E2. destruct (rounds_queue q ts2 E2) as (ts & E & _ & _ & _ & _ & _ & D & _). rewrite D. by apply (A4 q).
  - apply (timely_mono clk s); [apply rounds_log|apply rounds_reads|done].
Qed.
End Rounds.

Context (Hclk : forall k, 0 <= clk k <= STIME_MAX).

Lemma sleep_wake_wp qs s : NoDup qs -> Forall (fun q => is_Some (tqs s !! q)) qs -> steady_state clk s -> sleep_in_range qs s ->
  wp (sleep qs) (fun _ s' => steady_state clk s' /\ tms s' = map (after_sleep qs (t_reads s)) (tms s) /\ t_log s' = t_log s /\ (forall q, is_Some (tqs s' !! q) <-> is_Some (tqs s !! q)) /\
    (forall q, (served q [] s -> served q [] s') /\ (asked clk scale q s -> asked clk scale q s')) /\
    forall q ts, q ∈ qs -> tqs s' !! q = Some ts -> softirq_pending ts = true \/ forall t x, tms s' !! t = Some x -> ~ member q x) s.
Proof.
  intros Hd Hq Hst Hr. pose proof Hst as [A1 A2 _ _ _]. set (n := t_reads s). unfold sleep. apply wp_bind. eapply wp_mono; [apply (sleep_wp true qs s Hd Hq A1)|].
  { intros t x a E Ha Hw. split; [|done]. destruct (times_clk _ _ _ _ Hw) as [k ->]. pose proof (Hclk k). pose proof (A2 t x E Ha) as Hx. unfold fits, in_range, sign, STIME_MAX, timer_slop in *. lia. }
  fold n. intros [] s1 (B1 & B2 & B3). fold n in B3. eapply wp_mono; [apply (sleep_wp false qs s1 Hd); [|done|]|].
  - eapply Forall_impl; [exact Hq|]. intros q [ts E]. destruct (sl_queues _ _ _ _ B1 q ts E) as (ts1 & E1 & _). by exists ts1.
  - rewrite B3. intros t x1 b E1 Ha Hw. rewrite (sl_timers _ _ _ _ B1), list_lookup_fmap in E1. destruct (tms s !! t) as [x|] eqn:E; [|done]. cbn in E1. injection E1 as <-. rewrite redate_active in Ha. rewrite redate_queue in Hw.
    pose proof (Hr t x E Ha) as Hx. unfold after_sleep in Hx. rewrite decide_True in Hx by done. fold n in Hx. destruct (times_both qs n (n + length qs) (queue_of x)) as [(a & b' & Ea & Eb)|[_ ?]]; [|congruence].
    rewrite Eb in Hw. injection Hw as ->. rewrite Ea, Eb in Hx. unfold redate_by. rewrite decide_True, Ea by done. cbn. split; [|done]. unfold fits, in_range, STIME_MAX, timer_slop in *. cbn in Hx. lia.
  - intros [] s2 (C1 & C2 & _). rewrite B3 in C1. split; [by apply (rounds_state qs n s s1 s2)|]. split; [by apply (rounds_timers qs n s s1)|]. split; [by apply (rounds_log qs n s s1)|]. split; [by apply (rounds_some qs n s s1)|].
    split; [intros q; split; [by apply (rounds_served qs n s s1)|by apply (rounds_asked qs n s s1)]|]. intros q ts. by apply (rounds_raised qs n s1 s2).
Qed.
End Sleep.

(** * Timers of processors and vcpus that come and go *)

(** ** A timer that is brought to another queue *)

(** The same timers are set, to the same times. *)
Definition undisturbed (s s' : tsys) : Prop := forall t x', tms s' !! t = Some x' -> exists x, tms s !! t = Some x /\ expires x' = expires x /\ (is_active x' <-> is_active x).
Lemma undisturbed_refl s : undisturbed s s.
Proof. intros t x E. by exists x. Qed.
Lemma undisturbed_trans s1 s2 s3 : undisturbed s1 s2 -> undisturbed s2 s3 -> undisturbed s1 s3.
Proof. intros H1 H2 t x E. destruct (H2 t x E) as (y & Ey & E1 & A1). destruct (H1 t y Ey) as (z & Ez & E2 & A2). exists z. split; [done|]. split; [congruence|]. by rewrite A1. Qed.
Lemma undisturbed_sane s s' : undisturbed s s' -> sane s -> sane s'.
Proof. intros H Hs t x' E Ha. destruct (H t x' E) as (x & Ex & -> & Hi). apply (Hs t x Ex). by apply Hi. Qed.
Lemma framed_undisturbed t s s' x x' : framed t s s' -> tms s !! t = Some x -> tms s' !! t = Some x' -> expires x' = expires x -> (is_active x' <-> is_active x) -> undisturbed s s'.
Proof.
  intros Hf E E' He Hi u y' Ey'. destruct (decide (u = t)) as [->|Hne]; [rewrite E' in Ey'; injection Ey' as <-; by exists x|].
  destruct (framed_back t s s' u y' Hf Hne Ey') as (y & p & Ey & ->). by exists y.
Qed.

(** A timer that another one precedes is covered with it. *)
Lemma served_joined q t s x : served q [t] s -> tms s !! t = Some x -> (queue_of x = q -> preceded [] t q s) -> served q [] s.
Proof.
  intros H E Hp ts Eq. destruct (H ts Eq) as [?|Hq]; [by left|right]. intros u y Eu Hu Ha Hqy. destruct (decide (u = t)) as [->|Hne]; [|apply (Hq u y Eu); [by rewrite list_elem_of_singleton|done|done]].
  rewrite E in Eu. injection Eu as <-. destruct (Hp Hqy) as (v & z & V1 & V2 & V3 & V4 & V5). apply (covered_mono _ (expires z)); [by apply (Hq v z)|]. unfold due in V5. by rewrite E in V5.
Qed.

Section Move.
Context (old new : Z) (Hne : old <> new) (Hnk : new <> TIMER_CPU_status_killed).

(** The timers that are set on the old processor *)
Definition remaining (s : tsys) : nat := length (filter (member (OnCpu old)) (tms s)).

(** One turn of the first loop *)
Lemma move_one_wp {B} s t x (k : bool -> SE tsys B) Q : sys_ok [] s -> tms s !! t = Some x -> member (OnCpu old) x -> is_Some (tqs s !! OnCpu new) ->
  (forall b s', sys_ok [] s' -> same_world s s' -> undisturbed s s' -> (remaining s' < remaining s)%nat -> (forall q, q <> OnCpu new -> served q [] s -> served q [] s') ->
    (b = false -> served (OnCpu new) [] s -> served (OnCpu new) [] s') -> wp (k b) Q s') ->
  wp (y <- the_timer t;; remove_entry t (OnCpu (t_place y));; upd_timer t (set_place new);; b <- add_entry t (OnCpu new);; k b) Q s.
Proof.
  intros Hs E [Ha Hq] Hnew Hk. pose proof (active_live [] s t x Hs (conj E (not_elem_of_nil t)) Ha) as Hl. assert (t_type x = TIMER_TYPE_cpu /\ t_place x = old) as [Hty Hpl].
  { unfold queue_of in Hq. destruct (lv_type _ _ Hl) as [Ht|Ht]; rewrite Ht in Hq; [|discriminate]. by injection Hq. }
  apply wp_bind, (timer_wp s t x); [done|]. rewrite Hpl, <- Hq. apply wp_bind. eapply wp_mono; [by apply (remove_entry_wp [] s t x Hs (conj E (not_elem_of_nil t)))|].
  intros _ s1 (A1 & A2 & x1 & A3 & A4 & A5). set (x2 := set_place new x1). assert (t_type x1 = TIMER_TYPE_cpu) as Hty1 by (rewrite A4; by destruct x).
  assert (queue_of x2 = OnCpu new) as Hq2 by (unfold queue_of; cbn; by rewrite Hty1). assert (live x2 s1) as Hl2.
  { split; [left; exact Hty1|unfold is_killed; cbn; rewrite Hty1; by apply Z.eqb_neq|rewrite Hq2; by apply (framed_some t s s1)]. }
  apply wp_bind, (loose_wp [] s1 t x1); [done|done|done|]. fold x2. set (s2 := with_timer _ _ s1). intros B1 B2 B3. rewrite <- Hq2. apply wp_bind.
  eapply wp_mono; [apply (add_entry_wp [] s2 t x2); [done|done|apply not_elem_of_nil|done|by apply (live_framed x2 s1 s2 t)]|]. intros b s3 (C1 & C2 & (x3 & C3 & C4 & C5) & C6).
  assert (framed t s s3) as Hf by (apply (framed_trans t s s2); [by apply (framed_trans t s s1)|done]). assert (queue_of x3 = OnCpu new) as Hq3 by (by rewrite (alike_queue x2 x3)).
  assert (forall q, served q [] s -> served q [t] s3) as Hsv by (intros q H; apply (served_framed q t [t] s s3); [by left| |done]; apply (served_less q []); [|done]; intros u Hu; by apply elem_of_nil in Hu).
  apply Hk; [done|by apply (framed_world t)| | | |].
  - apply (framed_undisturbed t s s3 x x3); [done..| |done]. rewrite (alike_expires x2 x3 C4). exact (alike_expires x x1 A4).
  - apply (filter_lt _ _ _ t x x3); [apply Hf| |done|done|done|intros [_ H]; congruence]. intros u y' Ey' [Hay Hqy]. assert (u <> t) as Hu by (intros ->; congruence).
    destruct (framed_back t s s3 u y' Hf Hu Ey') as (y & p & Ey & ->). by exists y.
  - intros q Hqn H. apply (served_joined q t s3 x3); [by apply Hsv|done|]. intros Hx. congruence.
  - intros -> H. apply (served_joined _ t s3 x3); [by apply Hsv|done|]. intros _. rewrite <- Hq2. by apply C6.
Qed.

Lemma move_active_wp fuel : forall s notify, sys_ok [] s -> is_Some (tqs s !! OnCpu old) -> is_Some (tqs s !! OnCpu new) -> (remaining s < fuel)%nat ->
  wp (move_active fuel (OnCpu old) new notify) (fun b s' => sys_ok [] s' /\ same_world s s' /\ undisturbed s s' /\ remaining s' = 0%nat /\ (forall q, q <> OnCpu new -> served q [] s -> served q [] s') /\
    (notify = true -> b = true) /\ (b = false -> served (OnCpu new) [] s -> served (OnCpu new) [] s')) s.
Proof.
  induction fuel as [|fuel IH]; intros s notify Hs [ts Eq] Hnew Hfuel; [lia|]. cbn [move_active]. apply wp_bind, (queue_wp s (OnCpu old) ts); [done|]. apply wp_bind.
  apply (wp_mono _ (fun o s' => s' = s /\ match o with Some t => exists x, tms s !! t = Some x /\ member (OnCpu old) x | None => forall t x, tms s !! t = Some x -> ~ member (OnCpu old) x end)).
  { destruct (Z.eqb_spec (heap_size ts) 0) as [Hz|Hnz]; cbn [negb].
    - apply wp_ret. split; [done|]. destruct (tq_list ts) as [|t l] eqn:El; cbn.
      + intros t x Et [[Ha|Ha] Hq]; [by destruct (heap_empty (OnCpu old) s ts Hs Eq Hz t x); split; [|split; [apply not_elem_of_nil|]]|].
        pose proof (so_queues _ _ Hs _ ts Eq) as [_ [(_ & _ & L2) _] _]. assert (t ∈ tq_list ts) as Hin by (apply (L2 t x); split; [done|]; split; [apply not_elem_of_nil|done]). rewrite El in Hin. by apply elem_of_nil in Hin.
      + destruct (list_head (OnCpu old) s ts t l Hs Eq El) as (x & (X1 & _ & X3 & X4) & _). exists x. split; [done|]. split; [by right|done].
    - destruct (heap_top (OnCpu old) s ts Hs Eq Hnz) as (t & x & T1 & (X1 & _ & X3 & X4) & _). apply wp_bind, (heap_at_wp s _ 1 t); [done|]. apply wp_ret. split; [done|]. exists x. split; [done|]. split; [by left|done]. }
  intros [t|] ? (-> & Ho).
  - destruct Ho as (x & Ex & Hm). apply (move_one_wp s t x); [done..|]. intros b s1 A1 A2 A3 A4 A5 A6. eapply wp_mono; [apply (IH s1 (notify || b) A1); [by apply (sw_some s s1); [|exists ts]|by apply (sw_some s s1)|lia]|].
    intros b' s2 (B1 & B2 & B3 & B4 & B5 & B6 & B7). split; [done|]. split; [by apply (same_world_trans _ s1)|]. split; [by apply (undisturbed_trans _ s1)|]. split; [done|]. split; [auto|]. split; [intros ->; by apply B6|].
    intros -> H. apply B7; [done|]. apply A6; [|done]. destruct b; [|done]. rewrite orb_true_r in B6. by specialize (B6 eq_refl).
  - apply wp_ret. split; [done|]. split; [apply same_world_refl|]. split; [apply undisturbed_refl|]. split; [|by repeat split]. unfold remaining. destruct (filter (member (OnCpu old)) (tms s)) as [|x l] eqn:Ef; [done|].
    assert (x ∈ filter (member (OnCpu old)) (tms s)) as Hin by (rewrite Ef; by left). apply list_elem_of_filter in Hin as [Hm Hin]. apply list_elem_of_lookup in Hin as [t Et]. by destruct (Ho t x Et).
Qed.

(** What is on the old processor was there before. *)
Definition leaves (l : list nat) (s s' : tsys) : Prop := forall t x', tms s' !! t = Some x' -> queue_of x' = OnCpu old -> (t ∉ l) /\ exists x, tms s !! t = Some x /\ queue_of x = OnCpu old /\ t_status x' = t_status x.

Lemma move_inactive_wp l : forall s, NoDup l -> sys_ok [] s -> is_Some (tqs s !! OnCpu new) -> (forall t, t ∈ l -> exists x, has TIMER_STATUS_inactive (OnCpu old) [] s t x) ->
  wp (move_inactive l new) (fun _ s' => sys_ok [] s' /\ same_world s s' /\ undisturbed s s' /\ (forall q, served q [] s -> served q [] s') /\ leaves l s s') s.
Proof.
  induction l as [|t l IH]; intros s Hd Hs Hnew Hl; cbn [move_inactive].
  { apply wp_ret. split; [done|]. split; [apply same_world_refl|]. split; [apply undisturbed_refl|]. split; [done|]. intros t x' E Hq. split; [apply not_elem_of_nil|by exists x']. }
  apply NoDup_cons in Hd as [Hnt Hd]. destruct (Hl t ltac:(by left)) as (x & Hx). pose proof Hx as (E & _ & Hst & Hq). pose proof (inactive_live [] s t x Hs (conj E (not_elem_of_nil t)) Hst) as Hlx.
  assert (t_type x = TIMER_TYPE_cpu) as Hty by (unfold queue_of in Hq; destruct (lv_type _ _ Hlx) as [Ht|Ht]; [done|rewrite Ht in Hq; discriminate]).
  apply wp_bind. eapply wp_mono; [by apply (inactive_del_wp [] s t x (OnCpu old))|]. intros [] s1 (A1 & A2 & A3). set (x2 := set_place new (set_pos PosNone x)).
  assert (queue_of x2 = OnCpu new) as Hq2 by (unfold queue_of; cbn; by rewrite Hty).
  assert (live x2 s1) as Hl2 by (split; [by left|unfold is_killed; cbn; rewrite Hty; by apply Z.eqb_neq|rewrite Hq2; by apply (framed_some t s s1)]).
  apply wp_bind, (loose_wp [] s1 t (set_pos PosNone x)); [done|done|done|]. fold x2. set (s2 := with_timer _ _ s1). intros B1 B2 B3. destruct (framed_some t s s1 _ A2 Hnew) as [ts Eq].
  apply wp_bind. eapply wp_mono; [apply (inactive_add_wp [] s2 t x2 (OnCpu new) ts B1 B3); [done|done|apply not_elem_of_nil|by apply (live_framed x2 s1 s2 t)|done]|]. intros [] s3 (C1 & C2 & C3). set (x3 := set_pos _ x2) in C3.
  assert (framed t s s3) as Hf by (apply (framed_trans t s s2); [by apply (framed_trans t s s1)|done]). assert (~ is_active x3 /\ ~ is_active x) as [Hn3 Hnx] by (split; (eapply not_active_status; [|by left]); done).
  eapply wp_mono; [apply IH; [done|done|by apply (framed_some t s s3)|]|].
  - intros u Hu. destruct (Hl u ltac:(by right)) as (y & Ey & _ & Y2 & Y3). assert (u <> t) as Hut by (intros ->; done). destruct (fr_timers _ _ _ Hf u y Hut Ey) as (p & Ep & _). exists (set_pos p y). split; [done|]. split; [apply not_elem_of_nil|done].
  - intros [] s4 (D1 & D2 & D3 & D4 & D5). split; [done|]. split; [by apply (same_world_trans _ s3); [apply (framed_world t)|]|]. split; [apply (undisturbed_trans _ s3); [by apply (framed_undisturbed t s s3 x x3)|done]|]. split.
    + intros q H. apply D4, (served_inactive q t [] s3 x3); [|done|done]. apply (served_framed q t [t] s s3); [by left| |done]. apply (served_less q []); [|done]. intros u Hu. by apply elem_of_nil in Hu.
    + intros u y' Ey' Hy'. destruct (D5 u y' Ey' Hy') as (F1 & y & Ey & F2 & F3). assert (u <> t) as Hut by (intros ->; rewrite C3 in Ey; injection Ey as <-; change (queue_of x2 = OnCpu old) in F2; congruence).
      split; [by apply not_elem_of_cons|]. destruct (framed_back t s s3 u y Hf Hut Ey) as (z & p & Ez & ->). by exists z.
Qed.

Lemma migrate_from_wp s : sys_ok [] s -> is_Some (tqs s !! OnCpu old) -> is_Some (tqs s !! OnCpu new) ->
  wp (migrate_timers_from_cpu old new) (fun _ s' => sys_ok [] s' /\ same_world s s' /\ undisturbed s s' /\ (forall q, served q [] s -> served q [] s') /\
    forall t x, tms s' !! t = Some x -> queue_of x = OnCpu old -> idle x) s.
Proof.
  intros Hs Hold Hnew. unfold migrate_timers_from_cpu. apply wp_bind, wp_gets. apply wp_bind. eapply wp_mono; [apply (move_active_wp (S (length (tms s))) s false Hs Hold Hnew)|].
  { unfold remaining. pose proof (length_filter (member (OnCpu old)) (tms s)). lia. }
  intros b s1 (A1 & A2 & A3 & A4 & A5 & _ & A7). destruct (sw_some s s1 _ A2 Hold) as [ts Eq]. apply wp_bind, (queue_wp s1 _ ts); [done|]. pose proof (so_queues _ _ A1 _ ts Eq) as [_ _ (L1 & L2 & L3)].
  apply wp_bind. eapply wp_mono; [apply (move_inactive_wp (tq_inactive ts) s1 L1 A1); [by apply (sw_some s s1)|done]|]. intros [] s2 (B1 & B2 & B3 & B4 & B5).
  assert (forall t x, tms s2 !! t = Some x -> queue_of x = OnCpu old -> idle x) as Hidle.
  { intros t x E Hq. destruct (B5 t x E Hq) as (F1 & y & Ey & F2 & F3). assert (~ member (OnCpu old) y) as Hnm.
    { intros Hm. unfold remaining in A4. apply length_zero_iff_nil in A4. assert (y ∈ filter (member (OnCpu old)) (tms s1)) as Hin by (apply list_elem_of_filter; split; [done|]; by apply list_elem_of_lookup_2 in Ey). rewrite A4 in Hin. by apply elem_of_nil in Hin. }
    unfold idle. rewrite F3. destruct (t_status y) eqn:Es; [by left| |by right| |]; exfalso; [apply F1, (L3 t y); split; [done|]; split; [apply not_elem_of_nil|done]|..]; apply Hnm; (split; [|done]); [by left|by right]. }
  assert (same_world s s2) as HW2 by (by apply (same_world_trans _ s1)). assert (undisturbed s s2) as HU by (by apply (undisturbed_trans _ s1)). apply wp_when.
  - intros ->. apply (host_raise_wp [] 0%nat); [done|by apply (sw_some s s2)|]. intros s3 C1 C2 C3 (ts3 & C4 & C5). split; [done|]. split; [by apply (same_world_trans _ s2); [|apply (framed_world 0%nat)]|].
    split; [apply (undisturbed_trans _ s2); [done|]; intros t x; rewrite C3; by exists x|]. split; [|intros t x; rewrite C3; apply Hidle].
    intros q H. destruct (decide (q = OnCpu new)) as [->|Hq]; [intros ts' E'; left; congruence|]. specialize (B4 q (A5 q Hq H)). intros ts' E'. destruct (framed_queue_back _ _ _ _ _ C2 E') as (ts2 & E2 & R). destruct (B4 ts2 E2) as [Hp|Hc]; [left; by apply R|right].
    intros t x. rewrite C3. intros Et Hex Ha Hqx. apply (covered_rest ts2); [done|]. by apply (Hc t x).
  - intros ->. split; [done|]. split; [done|]. split; [done|]. split; [|done]. intros q H. apply B4. destruct (decide (q = OnCpu new)) as [->|Hq]; [by apply A7|by apply A5].
Qed.
End Move.

(** ** A new vcpu *)

Definition zero_timers : timers :=
  {| heap_size := 0; heap_limit := 0; heap_slots := []; tq_list := []; running := None; tq_inactive := []; suspend_time := 0; timer_deadline := 0; softirq_pending := false; host_ticks := None |}.
(** [alloc_vcpu_struct] clears the vcpu, [init_timers] makes its queue. *)
Definition new_vcpu (v : Z) : SE tsys unit := modify (with_queue (OnVcpu v) zero_timers);; init_timers (OnVcpu v).

Lemma fresh_queue s v : sys_ok [] s -> tqs s !! OnVcpu v = None -> forall st t x, has st (OnVcpu v) [] s t x -> st = TIMER_STATUS_invalid \/ st = TIMER_STATUS_killed.
Proof.
  intros Hs Eq st t x Hx. destruct (decide (st = TIMER_STATUS_invalid)); [by left|]. destruct (decide (st = TIMER_STATUS_killed)); [by right|]. destruct (has_live _ _ _ _ _ _ Hs Hx) as [_ _ [ts L]]; [done|done|]. destruct Hx as (_ & _ & _ & Hq). congruence.
Qed.

Lemma new_vcpu_wp clk scale s v : steady_state clk s -> tqs s !! OnVcpu v = None ->
  wp (new_vcpu v) (fun _ s' => steady_state clk s' /\ tms s' = tms s /\ t_log s' = t_log s /\ is_Some (tqs s' !! OnVcpu v) /\ (forall q, q <> OnVcpu v -> tqs s' !! q = tqs s !! q) /\
    (forall q, served q [] s -> served q [] s') /\ (forall q, asked clk scale q s -> asked clk scale q s')) s.
Proof.
  intros [A1 A2 A3 A4 A5] Eq. unfold new_vcpu, init_timers. apply wp_bind, wp_modify. apply (upd_queue_wp _ _ zero_timers); [apply with_queue_eq|]. set (ts := set_heap _ _ _ _). set (s' := with_queue _ _ _).
  assert (forall q, q <> OnVcpu v -> tqs s' !! q = tqs s !! q) as Hq by (intros q Hne; unfold s'; by rewrite !with_queue_ne). assert (tqs s' !! OnVcpu v = Some ts) as E' by apply with_queue_eq.
  assert (forall q, is_Some (tqs s !! q) -> is_Some (tqs s' !! q)) as Hsome by (intros q [t0 E0]; destruct (decide (q = OnVcpu v)) as [->|Hne]; [by exists ts|rewrite Hq by done; by exists t0]).
  assert (forall P : timers -> Prop, P ts -> (forall q t0, tqs s !! q = Some t0 -> P t0) -> forall q t0, tqs s' !! q = Some t0 -> P t0) as Hall.
  { intros P H1 H2 q t0 E0. destruct (decide (q = OnVcpu v)) as [->|Hne]; [congruence|]. rewrite Hq in E0 by done. by apply (H2 q). }
  pose proof (fresh_queue s v A1 Eq) as Hfresh. split; [split|split; [done|split; [done|split; [by exists ts|split; [done|split]]]]].
  - pose proof A1 as [S1 S2 S3]. split; [|intros t x E Hex; apply (timer_ok_ext x s s' Hsome); by apply (S2 t x)|intros t Ht; by apply elem_of_nil in Ht].
    intros q t0 E0. destruct (decide (q = OnVcpu v)) as [->|Hne].
    + rewrite E' in E0. injection E0 as <-. assert (forall st, st <> TIMER_STATUS_invalid -> st <> TIMER_STATUS_killed -> listed st (OnVcpu v) [] [] s') as Hli.
      { intros st H1 H2. split; [constructor|]. split; [intros t Ht; by apply elem_of_nil in Ht|]. intros t x Hx. by destruct (Hfresh st t x Hx). }
      split; [|split; [by apply Hli|constructor]|by apply Hli]. split; [split|split].
      * exists ts. by split.
      * intros i Hi. cbn in Hi. lia.
      * intros a x E Hex [H1 H2]. destruct (Hfresh TIMER_STATUS_in_heap a x); [|done..]. by split.
      * intros i Hi. cbn in Hi. lia.
      * exists ts. by repeat split.
    + rewrite Hq in E0 by done. apply (queue_ext q [] s [] s' t0 t0); [done|by rewrite Hq|intros st; exact (same_refl st q [] s)|done..|by apply S1].
  - done.
  - intros q. apply (Hall (fun t0 => heap_limit t0 ∈ _)); [by left|done].
  - intros q. apply (Hall (fun t0 => running t0 = None)); done.
  - done.
  - intros q H ts0 E0. destruct (decide (q = OnVcpu v)) as [->|Hne]; [right|rewrite Hq in E0 by done; by apply H]. intros t x Et _ Ha Hqx. destruct (Hfresh (t_status x) t x) as [Hf|Hf]; [|destruct Ha; congruence..].
    split; [done|]. split; [apply not_elem_of_nil|done].
  - intros q H ts0 E0. destruct (decide (q = OnVcpu v)) as [->|Hne]; [right; left; by rewrite E' in E0; injection E0 as <-|rewrite Hq in E0 by done; by apply H].
Qed.
