(* ===== verification/HostTimerProps.v ===== *)
(** * The timers of the hypervisor as a system, and what they promise *)

From stdpp Require Import base list numbers gmap sorting.
From Stdlib Require Import ZArith Lia.
From S2P Require Import Prelude Vpt HostTimer HostHeap HostTimerInv HostTimerOps HostTimerRun HostTimerSoftirq HostTimerHost.

Open Scope Z_scope.
Open Scope se_scope.

(** ** Steps

    Calls of the interface, the host's timer ([do_run_idle_thread],
    [check_vcpu_timer_interrupt]), the soft interrupts, sleep of the host,
    processors that go and vcpus that come *)

(** The clock is a positive [s_time_t]. *)
Class HostClock (clk : nat -> Z) : Prop := clock_ok : forall k, 0 <= clk k <= STIME_MAX.

(** Memory for timers, not initialised; the processors [cpus] have come up. *)
Definition blank : timer :=
  {| expires := 0; t_pos := PosNone; t_function := 0; t_data := 0; t_place := 0; t_status := TIMER_STATUS_invalid; t_type := 0; t_suspended := false |}.
Definition empty_queue : timers := set_heap 0 0 [None] zero_timers.
Definition boot (n : nat) (cpus : list Z) : tsys :=
  {| tms := replicate n blank; tqs := list_to_map ((fun c => (OnCpu c, empty_queue)) <$> cpus); t_reads := 0; t_log := [] |}.

Section System.
Context (clk : nat -> Z) (scale : time_scale) (work : tsys -> nat -> list top).

Inductive host_step : tsys -> tsys -> Prop :=
| HCall s op s' : top_ok op s -> run_top op s = (s', Ok tt) -> host_step s s'
| HTick s q s' : is_Some (tqs s !! q) -> raise q s = (s', Ok tt) -> host_step s s'
| HSoftirq s fuel q memory s' : is_Some (tqs s !! q) -> do_timer_softirq clk scale work fuel q memory s = (s', Ok tt) -> host_step s s'
| HSleep s qs s' : NoDup qs -> Forall (fun q => is_Some (tqs s !! q)) qs -> sleep_in_range clk qs s -> sleep clk qs s = (s', Ok tt) -> host_step s s'
| HCpuDead s old new s' : old <> new -> new <> TIMER_CPU_status_killed -> is_Some (tqs s !! OnCpu old) -> is_Some (tqs s !! OnCpu new) ->
    migrate_timers_from_cpu old new s = (s', Ok tt) -> host_step s s'
| HNewVcpu s v s' : tqs s !! OnVcpu v = None -> new_vcpu v s = (s', Ok tt) -> host_step s s'.

Inductive host_reach (n : nat) (cpus : list Z) : tsys -> Prop :=
| HBoot : host_reach n cpus (boot n cpus)
| HStep s s' : host_reach n cpus s -> host_step s s' -> host_reach n cpus s'.

(** *** The invariant *)

Record host_ok (s : tsys) : Prop := {
  ho_state : steady_state clk s;
  ho_served : forall q, served q [] s;
  ho_asked : forall q, asked clk scale q s
}.

Lemma boot_queue n cpus q ts : tqs (boot n cpus) !! q = Some ts -> ts = empty_queue.
Proof. cbn. intros E. apply elem_of_list_to_map_2 in E. apply list_elem_of_fmap in E as (c & [= _ ->] & _). done. Qed.
Lemma boot_timer n cpus t x : tms (boot n cpus) !! t = Some x -> x = blank.
Proof. cbn. intros E. by apply lookup_replicate in E as [-> _]. Qed.
Lemma boot_ok n cpus : host_ok (boot n cpus).
Proof.
  assert (forall st q t x, has st q [] (boot n cpus) t x -> st = TIMER_STATUS_invalid) as Hno by (intros st q t x (E & _ & <- & _); by rewrite (boot_timer n cpus t x E)).
  assert (forall st q, st <> TIMER_STATUS_invalid -> listed st q [] [] (boot n cpus)) as Hli.
  { intros st q Hst. split; [constructor|]. split; [intros t Ht; by apply elem_of_nil in Ht|]. intros t x Hx. by apply Hno in Hx. }
  split; [split|..].
  - split; [|intros t x E _; by rewrite (boot_timer n cpus t x E)|intros t Ht; by apply elem_of_nil in Ht]. intros q ts E. pose proof (boot_queue n cpus q ts E) as ->.
    split; [|split; [by apply Hli|constructor]|by apply Hli]. split; [split|split].
    + by exists empty_queue.
    + intros i Hi. cbn in Hi. lia.
    + intros a x Ea Hex [H1 H2]. by specialize (Hno TIMER_STATUS_in_heap q a x (conj Ea (conj Hex (conj H1 H2)))).
    + intros i Hi. cbn in Hi. lia.
    + by exists empty_queue.
  - intros t x E Ha. rewrite (boot_timer n cpus t x E) in Ha. by destruct Ha.
  - intros q ts E. rewrite (boot_queue n cpus q ts E). by left.
  - intros q ts E. by rewrite (boot_queue n cpus q ts E).
  - intros t d now Hin. by apply elem_of_nil in Hin.
  - intros q ts _. right. intros t x E _ Ha. rewrite (boot_timer n cpus t x E) in Ha. by destruct Ha.
  - intros q ts E. right. left. by rewrite (boot_queue n cpus q ts E).
Qed.

(** A step that leaves the clock and the log *)
Lemma world_ok s s' : host_ok s -> same_world s s' -> sys_ok [] s' -> sane s' -> (forall q, served q [] s -> served q [] s') -> host_ok s'.
Proof.
  intros [[A1 A2 A3 A4 A5] A6 A7] Hw Hs Hsa Hse. destruct (sw_clock _ _ Hw) as [K1 K2]. split; [split; [done|done|by apply (world_limits s)|by apply (world_idle s)|apply (timely_mono clk s); [done|lia|done]]|auto|].
  intros q. by apply (world_asked clk scale q s).
Qed.
Lemma call_ok s op : host_ok s -> top_ok op s -> wp (run_top op) (fun _ s' => host_ok s') s.
Proof.
  intros Hs Hop. pose proof (ho_state _ Hs) as [A1 A2 _ _ _]. eapply wp_mono; [by apply run_top_wp|]. intros [] s' ([B1 B2 B3] & B4).
  apply (world_ok s); [done|by apply (framed_world (subject op))|done| |done]. apply (calm_sane s); [|done]. apply B4. intros e He Hn. apply Hn. by apply (proj1 Hop).
Qed.
Lemma tick_ok s q : host_ok s -> is_Some (tqs s !! q) -> wp (raise q) (fun _ s' => host_ok s') s.
Proof.
  intros Hs Hq. pose proof (ho_state _ Hs) as [A1 A2 _ _ _]. apply (host_raise_wp [] 0%nat); [done|done|]. intros s' B1 B2 B3 _. apply (world_ok s); [done|by apply (framed_world 0%nat)|done|intros t x; rewrite B3; apply A2|].
  intros q' H ts' E'. destruct (framed_queue_back _ _ _ _ _ B2 E') as (ts & E & R). destruct (H ts E) as [Hp|Hc]; [left; by apply R|right]. intros t x. rewrite B3. intros Et Hex Ha Hqx. apply (covered_rest ts); [done|]. by apply (Hc t x).
Qed.
Lemma dead_ok s old new : host_ok s -> old <> new -> new <> TIMER_CPU_status_killed -> is_Some (tqs s !! OnCpu old) -> is_Some (tqs s !! OnCpu new) ->
  wp (migrate_timers_from_cpu old new) (fun _ s' => host_ok s') s.
Proof.
  intros Hs H1 H2 H3 H4. pose proof (ho_state _ Hs) as [A1 A2 _ _ _]. eapply wp_mono; [by apply migrate_from_wp|]. intros [] s' (B1 & B2 & B3 & B4 & _). apply (world_ok s); try done. by apply (undisturbed_sane s).
Qed.
Lemma vcpu_ok s v : host_ok s -> tqs s !! OnVcpu v = None -> wp (new_vcpu v) (fun _ s' => host_ok s') s.
Proof. intros [A1 A2 A3] E. eapply wp_mono; [by apply (new_vcpu_wp clk scale)|]. intros [] s' (B1 & _ & _ & _ & _ & B2 & B3). split; auto. Qed.

Context `{HC : !HostClock clk} `{HW : !WorkRules work}.

Lemma sleep_ok s qs : host_ok s -> NoDup qs -> Forall (fun q => is_Some (tqs s !! q)) qs -> sleep_in_range clk qs s -> wp (sleep clk qs) (fun _ s' => host_ok s') s.
Proof. intros [A1 A2 A3] H1 H2 H3. eapply wp_mono; [by apply (sleep_wake_wp clk scale clock_ok)|]. intros [] s' (B1 & _ & _ & _ & B2 & _). split; [done|intros q; by apply B2|intros q; by apply B2]. Qed.

(** A pass over the soft interrupt that is pending *)
Definition softirq_ends (q : queue) (fuel : nat) (s : tsys) : Prop := steady clk work s (clk (t_reads s)) /\ (pend (clk (t_reads s)) s < fuel)%nat.
Lemma softirq_wp s fuel q memory ts : host_ok s -> tqs s !! q = Some ts ->
  bwp (softirq_ends q fuel s) (~ programmable q) (do_timer_softirq clk scale work fuel q memory) (fun _ s' => host_ok s' /\
    (softirq_pending ts = true -> steady clk work s (clk (t_reads s)) -> own_only work -> ran_all q (clk (t_reads s)) s s')) s.
Proof.
  intros [A1 A2 A3] Eq. unfold do_timer_softirq. apply bwp_step, (queue_wp s q ts); [done|]. destruct (softirq_pending ts) eqn:Hp; cbn [when].
  - apply bwp_step, (upd_queue_wp s q ts); [done|]. set (s1 := with_queue _ _ s). assert (replanned q s s1) as HR by (by apply (replanned_queue q ts)).
    assert (steady_state clk s1) as Hs1 by (by apply (replanned_state clk q s); [|exists ts|]). eapply bwp_mono; [exact (host_action_wp clk scale work clock_ok fuel q memory s1 Hs1 (ex_intro _ _ (with_queue_eq q _ s)))|].
    intros [] s' [B1 [B2 B3] B4 _ _ B5]. split; [|by intros _]. split; [done|..].
    + intros q'. destruct (decide (q' = q)) as [->|Hne]; [done|]. apply (B4 q' Hne). intros ts'. unfold s1. rewrite with_queue_ne by done. apply A2.
    + intros q'. destruct (decide (q' = q)) as [->|Hne]; [done|]. apply (B4 q' Hne). intros ts'. unfold s1. rewrite with_queue_ne by done. apply A3.
  - apply bwp_wp, wp_ret. split; [by split|done].
Qed.

Lemma host_step_ok s s' : host_ok s -> host_step s s' -> host_ok s'.
Proof.
  intros Hs Hst. destruct Hst as [s op s' H E|s q s' H E|s fuel q memory s' [ts H] E|s qs s' H1 H2 H3 E|s old new s' H1 H2 H3 H4 E|s v s' H E].
  - pose proof (call_ok s op Hs H) as Hw. unfold wp in Hw. by rewrite E in Hw.
  - pose proof (tick_ok s q Hs H) as Hw. unfold wp in Hw. by rewrite E in Hw.
  - pose proof (softirq_wp s fuel q memory ts Hs H) as Hw. unfold bwp in Hw. rewrite E in Hw. apply Hw.
  - pose proof (sleep_ok s qs Hs H1 H2 H3) as Hw. unfold wp in Hw. by rewrite E in Hw.
  - pose proof (dead_ok s old new Hs H1 H2 H3 H4) as Hw. unfold wp in Hw. by rewrite E in Hw.
  - pose proof (vcpu_ok s v Hs H) as Hw. unfold wp in Hw. by rewrite E in Hw.
Qed.
Lemma reach_ok n cpus s : host_reach n cpus s -> host_ok s.
Proof. induction 1 as [|s s' _ IH Hst]; [apply boot_ok|by apply (host_step_ok s)]. Qed.
End System.

(** ** Properties *)

Section Properties.
Context (clk : nat -> Z) (scale : time_scale) (work : tsys -> nat -> list top) `{HC : !HostClock clk} `{HW : !WorkRules work}.


(** C20: No timer is forgotten and none runs early. In every reachable state each timer
    that is set belongs to a queue whose soft interrupt is pending, or whose
    deadline is at most the timer's own plus the slop, and for that deadline the
    host was asked at a time before it, for the ticks that [scale_delta] gives for
    the time until it. Every function that was ever run was run for a deadline
    earlier than a time that was read from the clock. *)
Theorem host_timer_not_forgotten n cpus s : host_reach clk scale work n cpus s ->
  (forall t x, tms s !! t = Some x -> is_active x -> exists ts, tqs s !! queue_of x = Some ts /\
    (softirq_pending ts = true \/
     timer_deadline ts <= expires x + timer_slop /\
     exists now, clock_read clk now s /\ now < timer_deadline ts /\ host_ticks ts = Some (ticks_for scale (timer_deadline ts) now))) /\
  (forall t d now, Ran t d now ∈ t_log s -> d < now /\ clock_read clk now s).
Proof.
  intros Hr. destruct (reach_ok clk scale work n cpus s Hr) as [[A1 _ _ _ A5] A6 A7]. split; [|exact A5]. intros t x E Ha.
  destruct (lv_queue _ _ (active_live [] s t x A1 (conj E (not_elem_of_nil t)) Ha)) as [ts Eq]. exists ts. split; [done|].
  destruct (A6 _ ts Eq) as [|Hc]; [by left|]. destruct (A7 _ ts Eq) as [|[Hz|Hh]]; [by left|by destruct (Hc t x E (not_elem_of_nil t) Ha eq_refl)|]. right. split; [|done]. by apply (Hc t x E (not_elem_of_nil t)).
Qed.

(** C26: A soft interrupt ends, and runs what is due. From any reachable state, if the
    clock does not go back and the functions set no timer to the past, the pass
    over the pending soft interrupt of the queue of processor 0 or of a vcpu (the
    queues that [reprogram_timer] knows; for another one its assertion fails when a deadline
    is left) comes to its end within as many turns as there are overdue timers. If each function only touches its own timer,
    the functions that are run are exactly those of the timers of the queue that
    were overdue when it began, each of them once, in at most two runs (the heap,
    then the list) that follow the order of the deadlines. *)
Theorem softirq_runs_due_timers n cpus s q ts memory fuel : host_reach clk scale work n cpus s -> tqs s !! q = Some ts -> programmable q -> softirq_pending ts = true ->
  steady clk work s (clk (t_reads s)) -> (pend (clk (t_reads s)) s < fuel)%nat ->
  exists s', do_timer_softirq clk scale work fuel q memory s = (s', Ok tt) /\ host_reach clk scale work n cpus s' /\
    (own_only work -> exists r1 r2, t_log s' = t_log s ++ map (fun t => Ran t (due s t) (clk (t_reads s))) (r1 ++ r2) /\ NoDup (r1 ++ r2) /\
      (forall t, t ∈ r1 ++ r2 <-> due_in q (clk (t_reads s)) s t) /\ by_deadline s r1 /\ by_deadline s r2).
Proof.
  intros Hr Eq Hpr Hp Hst Hf. pose proof (reach_ok clk scale work n cpus s Hr) as Hs.
  destruct (wp_inv _ _ _ (bwp_total _ _ _ _ _ (conj Hst Hf) (fun Hn => Hn Hpr) (softirq_wp clk scale work s fuel q memory ts Hs Eq))) as (s' & [] & E & _ & H).
  exists s'. split; [done|]. split; [|intros Hown; by apply H]. apply (HStep _ _ _ _ _ s); [done|]. apply (HSoftirq _ _ _ s fuel q memory); [by exists ts|done].
Qed.

(** C33: Sleep does not use up the time of a timer. When the host sleeps and wakes up in
    a reachable state, and the new deadlines do not overflow, every timer that is
    set in one of the queues has exactly as long to go from the moment its queue is
    resumed as it had from the moment it was suspended, and the soft interrupt of
    its queue is pending; all other timers are as they were. *)
Theorem sleep_keeps_remaining_time n cpus s qs : host_reach clk scale work n cpus s -> NoDup qs -> Forall (fun q => is_Some (tqs s !! q)) qs -> sleep_in_range clk qs s ->
  exists s', (suspend_timers clk qs;; resume_timers clk qs) s = (s', Ok tt) /\
    (forall i q t x, qs !! i = Some q -> tms s !! t = Some x -> is_active x -> queue_of x = q -> exists e ts,
      tms s' !! t = Some (set_expires e (set_suspended false x)) /\ e - clk (t_reads s + length qs + i) = expires x - clk (t_reads s + i) /\
      tqs s' !! q = Some ts /\ softirq_pending ts = true) /\
    (forall t x, tms s !! t = Some x -> ~ is_active x \/ queue_of x ∉ qs -> tms s' !! t = Some x).
Proof.
  intros Hr Hd Hq Hg. destruct (reach_ok clk scale work n cpus s Hr) as [Hst _ _]. destruct (wp_inv _ _ _ (sleep_wake_wp clk scale clock_ok qs s Hd Hq Hst Hg)) as (s' & [] & E & _ & Et & _ & Hsome & _ & Hup).
  exists s'. split; [exact E|]. split.
  - intros i q t x Hi Ex Ha Hqx. pose proof (list_elem_of_lookup_2 _ _ _ Hi) as Hin. assert (is_Some (tqs s' !! q)) as [ts Eq] by (apply Hsome; exact (proj1 (Forall_forall _ _) Hq q Hin)).
    assert (after_sleep clk qs (t_reads s) x = set_expires (expires x - clk (t_reads s + i) + clk (t_reads s + length qs + i)) (set_suspended false x)) as Ea.
    { unfold after_sleep. rewrite decide_True by done. by rewrite Hqx, (times_nth clk qs (t_reads s) i q Hd Hi), (times_nth clk qs (t_reads s + length qs) i q Hd Hi). }
    assert (tms s' !! t = Some (after_sleep clk qs (t_reads s) x)) as Ex' by (by rewrite Et, list_lookup_fmap, Ex). eexists _, ts. rewrite Ex', Ea. split; [done|]. split; [lia|]. split; [done|].
    destruct (Hup q ts Hin Eq) as [|Hn]; [done|]. exfalso. apply (Hn t _ Ex'). split; [by apply after_sleep_active|by rewrite after_sleep_queue].
  - intros t x Ex Hor. rewrite Et, list_lookup_fmap, Ex. cbn. f_equal. unfold after_sleep. case_decide; [|done]. destruct Hor as [|Hn]; [done|]. by rewrite (times_notin clk qs _ _ Hn).
Qed.
End Properties.

(** ** An example: a periodic function, a processor and a vcpu *)

Definition demo_clk (k : nat) : Z := Z.min (1000 * Z.of_nat k) (2 ^ 40).
Definition demo_scale : time_scale := {| ts_shift := 0; mul_frac := 2 ^ 31 |}.
#[export] Instance typed_dec x : Decision (typed x).
Proof. unfold typed. apply _. Defined.
Definition demo_work (s : tsys) (t : nat) : list top :=
  match tms s !! t with
  | Some x => if bool_decide (typed x) then [TSet t (demo_clk (t_reads s) + 5000000)] else []
  | None => []
  end.

#[export] Instance demo_clock : HostClock demo_clk.
Proof. intros k. unfold demo_clk, STIME_MAX. lia. Qed.
#[export] Instance demo_rules : WorkRules demo_work.
Proof.
  intros s t Hs. unfold demo_work. destruct (tms s !! t) as [x|] eqn:E; [|done]. case_bool_decide as Ht; [|done]. split; [|done]. split.
  - intros e [= <-]. pose proof (demo_clock (t_reads s)). unfold in_range, demo_clk, STIME_MAX, timer_slop in *. lia.
  - by exists x.
Qed.
Lemma demo_calls s t op : op ∈ demo_work s t -> op = TSet t (demo_clk (t_reads s) + 5000000).
Proof. unfold demo_work. destruct (tms s !! t); [|by intros ?%elem_of_nil]. case_bool_decide; [by intros ->%list_elem_of_singleton|by intros ?%elem_of_nil]. Qed.
Lemma demo_steady s : steady demo_clk demo_work s (demo_clk (t_reads s)).
Proof.
  split; [|intros k Hk; unfold demo_clk; lia]. intros s' t op e Hr Hin. rewrite (demo_calls s' t op Hin). intros [= <-]. unfold demo_clk. lia.
Qed.
Lemma demo_own : own_only demo_work.
Proof. intros s t op Hin. by rewrite (demo_calls s t op Hin). Qed.

(** A timer of processor 0 and one of a vcpu are set; after a first soft interrupt
    the host's timer has fired. *)
Definition demo1 : tsys := fst (new_vcpu 7 (boot 2 [0])).
Definition demo2 : tsys := fst (run_top (TInit 0 1 0 0) demo1).
Definition demo3 : tsys := fst (run_top (TInitVcpu 1 2 0 7) demo2).
Definition demo4 : tsys := fst (run_top (TSet 0 500) demo3).
Definition demo5 : tsys := fst (run_top (TSet 1 9000) demo4).
Definition demo6 : tsys := fst (do_timer_softirq demo_clk demo_scale demo_work 5 (OnCpu 0) true demo5).
Definition demo : tsys := fst (raise (OnCpu 0) demo6).

Lemma demo6_reach : host_reach demo_clk demo_scale demo_work 2 [0] demo6.
Proof.
  apply (HStep _ _ _ _ _ demo5); [|apply (HSoftirq _ _ _ demo5 5 (OnCpu 0) true); [by eexists; vm_compute|by vm_compute]].
  apply (HStep _ _ _ _ _ demo4); [|apply (HCall _ _ _ demo4 (TSet 1 9000)); [|by vm_compute]].
  2: { split; [intros e [= <-]; by vm_compute|]. eexists. split; [vm_compute; reflexivity|by right]. }
  apply (HStep _ _ _ _ _ demo3); [|apply (HCall _ _ _ demo3 (TSet 0 500)); [|by vm_compute]].
  2: { split; [intros e [= <-]; by vm_compute|]. eexists. split; [vm_compute; reflexivity|by left]. }
  apply (HStep _ _ _ _ _ demo2); [|apply (HCall _ _ _ demo2 (TInitVcpu 1 2 0 7)); [|by vm_compute]].
  2: { split; [done|]. eexists. split; [vm_compute; reflexivity|]. split; [by left|]. split; [by eexists; vm_compute|done]. }
  apply (HStep _ _ _ _ _ demo1); [|apply (HCall _ _ _ demo1 (TInit 0 1 0 0)); [|by vm_compute]].
  2: { split; [done|]. eexists. split; [vm_compute; reflexivity|]. split; [by left|by eexists; vm_compute]. }
  apply (HStep _ _ _ _ _ (boot 2 [0])); [apply HBoot|]. by apply (HNewVcpu _ _ _ _ 7); vm_compute.
Qed.
Lemma demo_reach : host_reach demo_clk demo_scale demo_work 2 [0] demo.
Proof. apply (HStep _ _ _ _ _ demo6); [exact demo6_reach|]. apply (HTick _ _ _ demo6 (OnCpu 0)); [by eexists; vm_compute|by vm_compute]. Qed.

(** Processor 0 goes and its timer moves to processor 1: the soft interrupt that moving
    it raised there fails the assertion of [reprogram_timer]. *)
Definition other1 : tsys := fst (run_top (TInit 0 1 0 0) (boot 1 [0; 1])).
Definition other2 : tsys := fst (run_top (TSet 0 9000) other1).
Definition other3 : tsys := fst (migrate_timers_from_cpu 0 1 other2).
Lemma other_processor_stops : host_reach demo_clk demo_scale demo_work 1 [0; 1] other3 /\
  snd (do_timer_softirq demo_clk demo_scale demo_work 5 (OnCpu 1) true other3) = Bug.
Proof.
  split; [|by vm_compute]. apply (HStep _ _ _ _ _ other2); [|apply (HCpuDead _ _ _ other2 0 1); [done|done|by eexists; vm_compute|by eexists; vm_compute|by vm_compute]].
  apply (HStep _ _ _ _ _ other1); [|apply (HCall _ _ _ other1 (TSet 0 9000)); [|by vm_compute]].
  2: { split; [intros e [= <-]; by vm_compute|]. eexists. split; [vm_compute; reflexivity|by left]. }
  apply (HStep _ _ _ _ _ (boot 1 [0; 1])); [apply HBoot|]. apply (HCall _ _ _ (boot 1 [0; 1]) (TInit 0 1 0 0)); [|by vm_compute].
  split; [done|]. eexists. split; [vm_compute; reflexivity|]. split; [by left|by eexists; vm_compute].
Qed.

Lemma host_timer_not_forgotten_witness : exists ts now, tqs demo6 !! OnCpu 0 = Some ts /\ softirq_pending ts = false /\ timer_deadline ts <= 500 + timer_slop /\
  now < timer_deadline ts /\ host_ticks ts = Some (ticks_for demo_scale (timer_deadline ts) now).
Proof.
  destruct (host_timer_not_forgotten demo_clk demo_scale demo_work 2 [0] demo6 demo6_reach) as [H _].
  destruct (H 0%nat _ ltac:(vm_compute; reflexivity) ltac:(by left)) as (ts & E & [Hp|(H1 & now & _ & H2 & H3)]).
  - exfalso. vm_compute in E. injection E as <-. discriminate Hp.
  - exists ts, now. split; [exact E|]. split; [vm_compute in E; by injection E as <-|]. split; [exact H1|]. by split.
Defined.
Lemma softirq_runs_due_timers_witness : exists s' r, do_timer_softirq demo_clk demo_scale demo_work 2 (OnCpu 0) true demo = (s', Ok tt) /\ t_log s' = map (fun t => Ran t (due demo t) 2000) r /\ 0%nat ∈ r.
Proof.
  destruct (softirq_runs_due_timers demo_clk demo_scale demo_work 2 [0] demo (OnCpu 0) (default zero_timers (tqs demo !! OnCpu 0)) true 2%nat demo_reach) as (s' & E & _ & H).
  - vm_compute. reflexivity.
  - done.
  - by vm_compute.
  - exact (demo_steady demo).
  - vm_compute. lia.
  - destruct (H demo_own) as (r1 & r2 & H1 & _ & H2 & _). exists s', (r1 ++ r2). split; [exact E|]. split; [exact H1|]. apply H2. eexists. split; [vm_compute; reflexivity|]. split; [done|]. split; [by left|by vm_compute].
Defined.
Lemma sleep_keeps_remaining_time_witness : exists s' ts, (suspend_timers demo_clk [OnCpu 0];; resume_timers demo_clk [OnCpu 0]) demo = (s', Ok tt) /\
  due s' 0 - demo_clk 3 = due demo 0 - demo_clk 2 /\ tqs s' !! OnCpu 0 = Some ts /\ softirq_pending ts = true.
Proof.
  destruct (sleep_keeps_remaining_time demo_clk demo_scale demo_work 2 [0] demo [OnCpu 0] demo_reach) as (s' & E & H & _).
  - apply NoDup_singleton.
  - apply list.Forall_singleton. by eexists; vm_compute.
  - intros [|[|t]] x Ex _; [| |by vm_compute in Ex]; vm_compute in Ex; injection Ex as <-; by vm_compute.
  - destruct (H 0%nat (OnCpu 0) 0%nat _ eq_refl ltac:(vm_compute; reflexivity) ltac:(by left) eq_refl) as (e & ts & H1 & H2 & H3 & H4). exists s', ts. split; [exact E|]. split; [|by split]. unfold due at 1. rewrite H1. exact H2.
Defined.
