(* ===== verification/SimpleTree.v ===== *)
(** * The index tree of the swap image format

    src/dm/block-swap/simpletree.c and simpletree.h: a B-tree in one piece of memory
    that is filled by a sorted sequence of insertions, finished, and then only
    searched.  The image format of the device model (dubtree.c) keeps one per
    level and maps it from a file. *)

From stdpp Require Import base list numbers.
From Stdlib Require Import ZArith Lia.
From S2P Require Import Prelude.

Open Scope Z_scope.
Open Scope se_scope.

(** ** Data *)

Definition SIMPLETREE_NODESIZE : Z := 0x8000.
(** The widths of the nodes; [simpletree_shape] are those of the code. *)
Class Shape : Type := { SIMPLETREE_INNER_M : nat; SIMPLETREE_LEAF_M : nat }.
Definition simpletree_shape : Shape := {| SIMPLETREE_INNER_M := Z.to_nat 3275; SIMPLETREE_LEAF_M := Z.to_nat 2200 |}.

(** Numbers of nodes ([node_t]); 0 is the meta node and stands for none. *)
Abbreviation node_t := nat.

Record SimpleTreeValue : Type := { chunk : Z; offset : Z; size : Z }.

(** A member or an element that has not been stored is [None]. [mn_user] is what follows the
    structure in its node. *)
Record SimpleTreeMetaNode : Type := {
  root : option node_t;
  first : option node_t;
  maxLevel : option nat;
  mn_magic : option Z;
  num_nodes : nat;
  user_size : option Z;
  mn_user : list Z
}.
Record SimpleTreeInnerNode : Type := { in_count : nat; in_keys : list (option Z); children : list node_t }.
Record SimpleTreeLeafNode : Type := { ln_count : nat; next : node_t; ln_keys : list (option Z); ln_values : list (option SimpleTreeValue) }.

(** [struct SimpleTreeNode]: its type and the member of the union, memory that
    [realloc] has returned, or bytes of user data *)
Inductive node : Type :=
| NodeFresh
| NodeMeta (mn : SimpleTreeMetaNode)
| NodeInner (n : SimpleTreeInnerNode)
| NodeLeaf (n : SimpleTreeLeafNode)
| NodeUser (bytes : list Z).

(** [struct SimpleTree]; the members [magic] and [size] are never read. *)
Record SimpleTree : Type := { nodes : list node_t; prev : node_t; mem : list node }.
Record SimpleTreeIterator : Type := { it_index : nat; it_node : node_t }.

Definition set_nodes (l : list node_t) (st : SimpleTree) : SimpleTree := {| nodes := l; prev := prev st; mem := mem st |}.
Definition set_prev (p : node_t) (st : SimpleTree) : SimpleTree := {| nodes := nodes st; prev := p; mem := mem st |}.
Definition set_mem (m : list node) (st : SimpleTree) : SimpleTree := {| nodes := nodes st; prev := prev st; mem := m |}.

Definition set_root (x : option node_t) (m : SimpleTreeMetaNode) : SimpleTreeMetaNode :=
  {| root := x; first := first m; maxLevel := maxLevel m; mn_magic := mn_magic m; num_nodes := num_nodes m; user_size := user_size m; mn_user := mn_user m |}.
Definition set_first (x : option node_t) (m : SimpleTreeMetaNode) : SimpleTreeMetaNode :=
  {| root := root m; first := x; maxLevel := maxLevel m; mn_magic := mn_magic m; num_nodes := num_nodes m; user_size := user_size m; mn_user := mn_user m |}.
Definition set_maxLevel (x : option nat) (m : SimpleTreeMetaNode) : SimpleTreeMetaNode :=
  {| root := root m; first := first m; maxLevel := x; mn_magic := mn_magic m; num_nodes := num_nodes m; user_size := user_size m; mn_user := mn_user m |}.
Definition set_mn_magic (x : option Z) (m : SimpleTreeMetaNode) : SimpleTreeMetaNode :=
  {| root := root m; first := first m; maxLevel := maxLevel m; mn_magic := x; num_nodes := num_nodes m; user_size := user_size m; mn_user := mn_user m |}.
Definition set_num_nodes (x : nat) (m : SimpleTreeMetaNode) : SimpleTreeMetaNode :=
  {| root := root m; first := first m; maxLevel := maxLevel m; mn_magic := mn_magic m; num_nodes := x; user_size := user_size m; mn_user := mn_user m |}.
Definition set_user_size (x : option Z) (m : SimpleTreeMetaNode) : SimpleTreeMetaNode :=
  {| root := root m; first := first m; maxLevel := maxLevel m; mn_magic := mn_magic m; num_nodes := num_nodes m; user_size := x; mn_user := mn_user m |}.
Definition set_mn_user (x : list Z) (m : SimpleTreeMetaNode) : SimpleTreeMetaNode :=
  {| root := root m; first := first m; maxLevel := maxLevel m; mn_magic := mn_magic m; num_nodes := num_nodes m; user_size := user_size m; mn_user := x |}.
Definition set_next (x : node_t) (n : SimpleTreeLeafNode) : SimpleTreeLeafNode :=
  {| ln_count := ln_count n; next := x; ln_keys := ln_keys n; ln_values := ln_values n |}.

(** ** Access to the nodes *)

Definition meta_of (l : list node) : option SimpleTreeMetaNode := match l !! 0%nat with Some (NodeMeta m) => Some m | _ => None end.
Definition the_meta : SE SimpleTree SimpleTreeMetaNode := l <- gets mem;; match meta_of l with Some m => ret m | None => bug end.
Definition upd_node (n : node_t) (x : node) : SE SimpleTree unit :=
  l <- gets mem;; bug_if (negb (n <? length l)%nat);; modify (fun st => set_mem (<[n := x]> (mem st)) st).
Definition upd_meta (f : SimpleTreeMetaNode -> SimpleTreeMetaNode) : SE SimpleTree unit := m <- the_meta;; upd_node 0%nat (NodeMeta (f m)).
Definition the_inner (n : node_t) : SE SimpleTree SimpleTreeInnerNode := l <- gets mem;; match l !! n with Some (NodeInner x) => ret x | _ => bug end.
Definition the_leaf (n : node_t) : SE SimpleTree SimpleTreeLeafNode := l <- gets mem;; match l !! n with Some (NodeLeaf x) => ret x | _ => bug end.
Definition stored {A} (o : option A) : SE SimpleTree A := match o with Some x => ret x | None => bug end.

(** Stores to elements of arrays; [st->nodes] has 16. *)
Definition put_at {A} (l : list A) (i : nat) (x : A) : SE SimpleTree (list A) := bug_if (negb (i <? length l)%nat);; ret (<[i := x]> l).
Definition level_node (i : nat) : SE SimpleTree node_t := l <- gets nodes;; match l !! i with Some n => ret n | None => bug end.
Definition set_level (i : nat) (n : node_t) : SE SimpleTree unit := l <- gets nodes;; l <- put_at l i n;; modify (set_nodes l).

(** ** Construction *)

(** What [realloc] adds is not cleared.  It is taken to succeed, which the code
    does not check; [2 * n] is an [int], whose overflow is [Bug]. *)
Definition realloc_nodes (n : nat) (l : list node) : list node := take n l ++ replicate (n - length l) NodeFresh.
Definition fresh_meta (n : nat) : SimpleTreeMetaNode :=
  {| root := None; first := None; maxLevel := None; mn_magic := None; num_nodes := n; user_size := None; mn_user := [] |}.
Definition alloc_node : SE SimpleTree node_t :=
  l <- gets mem;;
  n <- (match l with [] => ret 0%nat | _ => m <- the_meta;; ret (num_nodes m) end);;
  when (Z.land (Z.of_nat n - 1) (Z.of_nat n) =? 0)
    (bug_if (2 ^ 30 <=? Z.of_nat n);;
     modify (fun st => set_mem (realloc_nodes (if (n =? 0)%nat then 1%nat else (2 * n)%nat) (mem st)) st);;
     if (n =? 0)%nat then upd_node 0%nat (NodeMeta (fresh_meta 0)) else upd_meta (set_num_nodes n));;
  upd_meta (fun m => set_num_nodes (S (num_nodes m)) m);;
  ret n.

Section Build.
Context `{Shape}.

Definition create_inner_node : SE SimpleTree node_t :=
  o <- alloc_node;;
  upd_node o (NodeInner {| in_count := 0; in_keys := replicate SIMPLETREE_INNER_M None; children := replicate (S SIMPLETREE_INNER_M) 0%nat |});;
  ret o.
Definition create_leaf_node : SE SimpleTree node_t :=
  o <- alloc_node;;
  upd_node o (NodeLeaf {| ln_count := 0; next := 0%nat; ln_keys := replicate SIMPLETREE_LEAF_M None;
                          ln_values := replicate SIMPLETREE_LEAF_M None |});;
  ret o.

Definition SIMPLETREE_MAGIC : Z := 0xfedeabe0.
Definition simpletree_init : SE SimpleTree unit :=
  modify (fun _ => {| nodes := replicate 16 0%nat; prev := 0%nat; mem := [] |});;
  alloc_node;;
  upd_meta (fun m => set_mn_magic (Some SIMPLETREE_MAGIC) (set_first (Some 0%nat) (set_maxLevel (Some 0%nat) m))).

(** A new handle for the tree in [m] *)
Definition simpletree_open (m : list node) : SE SimpleTree unit :=
  modify (fun _ => {| nodes := replicate 16 0%nat; prev := 0%nat; mem := m |});;
  mn <- the_meta;;
  magic <- stored (mn_magic mn);;
  bug_if (negb (magic =? SIMPLETREE_MAGIC)).

(** The 48-bit key of [SimpleTreeInternalKey] *)
Definition internal_key (key : Z) : Z := key mod 2 ^ 48.

(** [fuel] bounds the levels, of which [nodes] has 16. *)
Fixpoint simpletree_insert_inner (fuel : nat) (level : nat) (key : Z) : SE SimpleTree unit :=
  match fuel with
  | O => bug
  | S fuel =>
      n <- level_node level;;
      when (n =? 0)%nat
        (o <- create_inner_node;;
         set_level level o;;
         m <- the_meta;;
         top <- stored (maxLevel m);;
         when (top <? level)%nat (upd_meta (set_maxLevel (Some level))));;
      n <- level_node level;;
      x <- the_inner n;;
      child <- level_node (level - 1);;
      ks <- put_at (in_keys x) (in_count x) (Some key);;
      cs <- put_at (children x) (in_count x) child;;
      upd_node n (NodeInner {| in_count := S (in_count x); in_keys := ks; children := cs |});;
      when (S (in_count x) =? SIMPLETREE_INNER_M)%nat
        (simpletree_insert_inner fuel (S level) key;;
         set_level level 0%nat)
  end.

Definition simpletree_insert_leaf (key : Z) (value : SimpleTreeValue) : SE SimpleTree unit :=
  n <- level_node 0%nat;;
  when (n =? 0)%nat
    (o <- create_leaf_node;;
     set_level 0%nat o;;
     p <- gets prev;;
     if negb (p =? 0)%nat then x <- the_leaf p;; upd_node p (NodeLeaf (set_next o x))
     else upd_meta (set_first (Some o)));;
  n <- level_node 0%nat;;
  x <- the_leaf n;;
  ks <- put_at (ln_keys x) (ln_count x) (Some key);;
  vs <- put_at (ln_values x) (ln_count x) (Some value);;
  upd_node n (NodeLeaf {| ln_count := S (ln_count x); next := next x; ln_keys := ks; ln_values := vs |});;
  when (S (ln_count x) =? SIMPLETREE_LEAF_M)%nat
    (simpletree_insert_inner 16 1 key;;
     n <- level_node 0%nat;;
     modify (set_prev n);;
     set_level 0%nat 0%nat).

Definition simpletree_insert (key : Z) (v : SimpleTreeValue) : SE SimpleTree unit := simpletree_insert_leaf (internal_key key) v.

(** A sequence of insertions *)
Fixpoint simpletree_insert_all (l : list (Z * SimpleTreeValue)) : SE SimpleTree unit :=
  match l with
  | [] => ret tt
  | (key, v) :: l => simpletree_insert key v;; simpletree_insert_all l
  end.

(** The nearest ancestor, from level [j] on [k] levels up *)
Fixpoint adopt (n : node_t) (j k : nat) : SE SimpleTree unit :=
  match k with
  | O => ret tt
  | S k =>
      p <- level_node j;;
      if negb (p =? 0)%nat then
        x <- the_inner p;;
        cs <- put_at (children x) (in_count x) n;;
        upd_node p (NodeInner {| in_count := in_count x; in_keys := in_keys x; children := cs |})
      else adopt n (S j) k
  end.
Fixpoint tie_up (i k : nat) : SE SimpleTree unit :=
  match k with
  | O => ret tt
  | S k =>
      n <- level_node i;;
      when (negb (n =? 0)%nat) (adopt n (S i) (S k));;
      tie_up (S i) k
  end.
Definition simpletree_finish : SE SimpleTree unit :=
  m <- the_meta;;
  magic <- stored (mn_magic m);;
  bug_if (negb (magic =? SIMPLETREE_MAGIC));;
  top <- stored (maxLevel m);;
  tie_up 0 top;;
  n <- level_node top;;
  upd_meta (set_root (Some n)).

(** ** Search *)

Definition less_than (a b : Z) : bool := a <? b.
(** [f] and [len] are the part that is left; [fuel] bounds the halvings. *)
Fixpoint lower_bound_from (fuel : nat) (keys : list (option Z)) (f len : nat) (key : Z) : SE SimpleTree nat :=
  match fuel with
  | O => bug
  | S fuel =>
      if (len =? 0)%nat then ret f
      else
        let half := Nat.div2 len in
        match keys !! (f + half)%nat with
        | Some (Some middle) =>
            if less_than middle key then lower_bound_from fuel keys (f + half + 1) (len - half - 1) key
            else lower_bound_from fuel keys f half key
        | _ => bug
        end
  end.
Definition lower_bound (keys : list (option Z)) (len : nat) (key : Z) : SE SimpleTree nat := lower_bound_from (S len) keys 0 len key.

(** The iterator is only stored to when a leaf is reached. *)
Fixpoint find_from (fuel : nat) (n : node_t) (needle : Z) : SE SimpleTree (option SimpleTreeIterator) :=
  match fuel with
  | O => bug
  | S fuel =>
      if (n =? 0)%nat then ret None
      else
        l <- gets mem;;
        match l !! n with
        | Some (NodeInner x) =>
            pos <- lower_bound (in_keys x) (in_count x) needle;;
            match children x !! pos with Some c => find_from fuel c needle | None => bug end
        | Some (NodeLeaf x) =>
            pos <- lower_bound (ln_keys x) (ln_count x) needle;;
            bug_if (negb (pos <? SIMPLETREE_LEAF_M)%nat);;
            if (pos <? ln_count x)%nat then ret (Some {| it_index := pos; it_node := n |}) else ret None
        | _ => bug
        end
  end.
(** A tree has at most 16 levels. *)
Definition simpletree_find (key : Z) : SE SimpleTree (option SimpleTreeIterator) :=
  m <- the_meta;; n <- stored (root m);; find_from 17 n (internal_key key).
End Build.

(** ** Iteration *)

Definition simpletree_begin : SE SimpleTree SimpleTreeIterator := m <- the_meta;; n <- stored (first m);; ret {| it_index := 0%nat; it_node := n |}.
Definition simpletree_next (it : SimpleTreeIterator) : SE SimpleTree SimpleTreeIterator :=
  x <- the_leaf (it_node it);;
  ret (if (S (it_index it) =? ln_count x)%nat then {| it_index := 0%nat; it_node := next x |} else {| it_index := S (it_index it); it_node := it_node it |}).
Definition simpletree_at_end (it : SimpleTreeIterator) : bool := (it_node it =? 0)%nat.
Definition simpletree_read (it : SimpleTreeIterator) : SE SimpleTree (Z * SimpleTreeValue) :=
  x <- the_leaf (it_node it);;
  match ln_keys x !! it_index it, ln_values x !! it_index it with
  | Some (Some k), Some (Some v) => ret (k, v)
  | _, _ => bug
  end.

(** The loop over what is left, as the clients of the tree write it *)
Fixpoint entries_from (fuel : nat) (it : SimpleTreeIterator) : SE SimpleTree (list (Z * SimpleTreeValue)) :=
  match fuel with
  | O => bug
  | S fuel =>
      if simpletree_at_end it then ret []
      else
        r <- simpletree_read it;;
        it <- simpletree_next it;;
        rest <- entries_from fuel it;;
        ret (r :: rest)
  end.

(** ** User data *)

(** The offset of [u.mn], and [sizeof(SimpleTreeMetaNode)] *)
Definition META_OFFSET : Z := 4.
Definition sizeof_meta : Z := 24.

(** Small data follow the meta node in its own node. A copy beyond the end of that
    node is [Bug]. *)
Fixpoint user_nodes (fuel : nat) (data : list Z) : SE SimpleTree unit :=
  match fuel with
  | O => bug
  | S fuel =>
      match data with
      | [] => ret tt
      | _ =>
          let take_ := take (Z.to_nat SIMPLETREE_NODESIZE) data in
          n <- alloc_node;;
          upd_node n (NodeUser (take_ ++ replicate (Z.to_nat SIMPLETREE_NODESIZE - length take_) 0));;
          user_nodes fuel (drop (Z.to_nat SIMPLETREE_NODESIZE) data)
      end
  end.
Definition simpletree_set_user (data : list Z) : SE SimpleTree unit :=
  let sz := zlen data in
  upd_meta (set_user_size (Some (u32 sz)));;
  if sz <=? SIMPLETREE_NODESIZE - sizeof_meta then
    bug_if (SIMPLETREE_NODESIZE <? META_OFFSET + sizeof_meta + sz);;
    upd_meta (set_mn_user data)
  else user_nodes (S (length data)) (take (Z.to_nat (s32 sz)) data).

(** What can be read from the address that is returned: the nodes follow each
    other in memory. *)
Fixpoint user_bytes (l : list node) : list Z :=
  match l with
  | NodeUser b :: l => b ++ user_bytes l
  | _ => []
  end.
Definition simpletree_get_user : SE SimpleTree (list Z) :=
  m <- the_meta;;
  sz <- stored (user_size m);;
  if sz <=? SIMPLETREE_NODESIZE - sizeof_meta then ret (mn_user m)
  else
    l <- gets mem;;
    let n := Z.of_nat (num_nodes m) - u32 (sz + SIMPLETREE_NODESIZE - 1) / SIMPLETREE_NODESIZE in
    bug_if (n <? 0);;
    ret (user_bytes (drop (Z.to_nat n) l)).

(** ** Images *)

Definition simpletree_get_nodes_size : SE SimpleTree Z := m <- the_meta;; ret (SIMPLETREE_NODESIZE * Z.of_nat (num_nodes m)).
(** What [dubtree_insert] writes to the file of a tree, from a sorted sequence of
    entries and the table of chunks *)
Definition write_tree `{Shape} (es : list (Z * SimpleTreeValue)) (ud : list Z) : SE SimpleTree (list node) :=
  simpletree_init;;
  simpletree_insert_all es;;
  simpletree_finish;;
  simpletree_set_user ud;;
  sz <- simpletree_get_nodes_size;;
  l <- gets mem;;
  ret (take (Z.to_nat (sz / SIMPLETREE_NODESIZE)) l).
