(* ===== verification/SimpleTreeBuild.v ===== *)
(** * The index tree: what a state of the memory represents *)

From Stdlib Require Import ZArith Lia.
From stdpp Require Import base list numbers.
From S2P Require Import Prelude SimpleTree.

Open Scope Z_scope.
Open Scope se_scope.

(** ** Representation

    The leaves of a tree are given from left to right, each with its number and
    its entries. *)

Abbreviation entry := (Z * SimpleTreeValue)%type.
Abbreviation leaf := (node_t * list entry)%type.
Definition entries (ls : list leaf) : list entry := concat ls.*2.
Arguments entries : simpl never.
Definition last_key (ls : list leaf) : option Z := fst <$> list.last (entries ls).

(** An array of which a part has been stored *)
Definition filled {A} (m : nat) (l : list A) : list (option A) := (Some <$> l) ++ replicate (m - length l) None.
Definition padded (m : nat) (l : list node_t) : list node_t := l ++ replicate (m - length l) 0%nat.

(** A child of an inner node: its number, its largest key, its leaves *)
Record kid : Type := Kid { k_node : node_t; k_key : Z; k_leaves : list leaf }.

(** The nodes up to the links between leaves *)
Definition core (x : node) : node := match x with NodeLeaf l => NodeLeaf (set_next 0%nat l) | _ => x end.
Definition next_of (x : node) : option node_t := match x with NodeLeaf l => Some (next l) | _ => None end.

(** Shapes that make a tree *)
Class Wide `{Shape} : Prop := { leaf_wide : (1 <= SIMPLETREE_LEAF_M)%nat; inner_wide : (2 <= SIMPLETREE_INNER_M)%nat }.

Section Trees.
Context `{Shape}.
Implicit Types (m : list node) (n o e : node_t) (k c : nat) (ls : list leaf) (es : list entry).

Definition width k : nat := match k with O => SIMPLETREE_LEAF_M | S _ => SIMPLETREE_INNER_M end.

Definition leaf_node es (nx : node_t) : node :=
  NodeLeaf {| ln_count := length es; next := nx; ln_keys := filled SIMPLETREE_LEAF_M es.*1; ln_values := filled SIMPLETREE_LEAF_M es.*2 |}.
(** [e] is the child behind the last key. *)
Definition inner_node (ks : list kid) e : node :=
  NodeInner {| in_count := length ks; in_keys := filled SIMPLETREE_INNER_M (k_key <$> ks);
               children := padded (S SIMPLETREE_INNER_M) ((k_node <$> ks) ++ [e]) |}.

(** A node of level [k] with [c] entries or children, all of them full *)
Fixpoint tree m k c n e ls : Prop :=
  match k with
  | O => exists es, ls = [(n, es)] /\ length es = c /\ e = 0%nat /\ core <$> m !! n = Some (leaf_node es 0%nat)
  | S k =>
      exists ks, length ks = c /\ core <$> m !! n = Some (inner_node ks e) /\ ls = concat (k_leaves <$> ks) /\
        Forall (fun d => tree m k (width k) (k_node d) 0%nat (k_leaves d) /\ last_key (k_leaves d) = Some (k_key d)) ks
  end.

(** The node that is being filled at a level, if there is one *)
Definition open_node m k n e ls : Prop := (n = 0%nat /\ e = 0%nat /\ ls = []) \/ (n <> 0%nat /\ exists c, (0 < c < width k)%nat /\ tree m k c n e ls).

(** The nodes of the levels from [k] on; the higher ones hold the smaller keys. *)
Fixpoint spine m k (nds : list node_t) ls : Prop :=
  match nds with
  | [] => ls = []
  | n :: nds => exists l1 l2, ls = l1 ++ l2 /\ spine m (S k) nds l1 /\ open_node m k n 0%nat l2
  end.

(** Full nodes do not change, but for the links of leaves. *)
Definition closed (x : node) : Prop :=
  match x with
  | NodeLeaf l => ln_count l = SIMPLETREE_LEAF_M
  | NodeInner i => in_count i = SIMPLETREE_INNER_M
  | _ => False
  end.
Definition grows m m' : Prop := forall n x, m !! n = Some x -> closed x -> core <$> m' !! n = Some (core x).

(** Consecutive leaves are linked. *)
Definition chain m (ids : list node_t) : Prop :=
  forall i a, ids !! i = Some a -> m !! a ≫= next_of = Some (default 0%nat (ids !! S i)).

(** The memory: its size is a power of two, the nodes that are not in use are
    behind the others. *)
Record heap_ok m (mt : SimpleTreeMetaNode) : Prop := {
  ho_meta : m !! 0%nat = Some (NodeMeta mt);
  ho_pow : exists p, length m = (2 ^ p)%nat;
  ho_used : (1 <= num_nodes mt <= length m)%nat;
  ho_tight : (length m < 2 * num_nodes mt)%nat;
  ho_fresh : forall i, (num_nodes mt <= i < length m)%nat -> m !! i = Some NodeFresh
}.

Definition distinct (l : list node_t) : Prop := forall i j n, l !! i = Some n -> l !! j = Some n -> n <> 0%nat -> i = j.
Definition below (num : nat) (l : list node_t) : Prop := Forall (fun n => (n < num)%nat) l.
Definition height k (nds : list node_t) (top : nat) : Prop :=
  (forall i n, nds !! i = Some n -> n <> 0%nat -> (k + i <= top)%nat) /\
  ((top < k)%nat \/ exists n, n <> 0%nat /\ nds !! (top - k)%nat = Some n).

(** ** Lemmas on the representation *)

Lemma entries_app l1 l2 : entries (l1 ++ l2) = entries l1 ++ entries l2.
Proof. unfold entries. by rewrite fmap_app, concat_app. Qed.
Lemma entries_concat (l : list (list leaf)) : entries (concat l) = concat (entries <$> l).
Proof. induction l as [|x l IH]; [done|]. cbn. rewrite entries_app. by f_equal. Qed.

Lemma closed_core x : closed (core x) <-> closed x.
Proof. by destruct x. Qed.
Lemma core_core x : core (core x) = core x.
Proof. by destruct x. Qed.

Lemma grows_refl m : grows m m.
Proof. intros n x E _. by rewrite E. Qed.
Lemma grows_trans m1 m2 m3 : grows m1 m2 -> grows m2 m3 -> grows m1 m3.
Proof.
  intros H1 H2 n x E C. specialize (H1 n x E C). destruct (m2 !! n) as [y|] eqn:E2; [|done]. simpl in H1.
  injection H1 as E'. rewrite (H2 n y E2); [by rewrite E'|]. apply closed_core. by rewrite E', closed_core.
Qed.
Lemma grows_insert m n x y : m !! n = Some y -> ~ closed y -> grows m (<[n := x]> m).
Proof.
  intros E C i z Ez Cz. destruct (decide (i = n)) as [->|Hi]; [simplify_eq; done|].
  rewrite list_lookup_insert_ne by done. by rewrite Ez.
Qed.

Lemma leaf_closed es nx : closed (leaf_node es nx) <-> length es = SIMPLETREE_LEAF_M.
Proof. done. Qed.

(** A tree only depends on its nodes. *)
Lemma tree_grows m m' k : grows m m' -> forall n ls, tree m k (width k) n 0%nat ls -> tree m' k (width k) n 0%nat ls.
Proof.
  intros G. induction k as [|k IH]; intros n ls.
  - intros (es & -> & L & _ & E). exists es. repeat split; [done|]. destruct (m !! n) as [x|] eqn:Ex; [|done].
    simpl in E. injection E as E. rewrite (G n x Ex); [by rewrite E|]. apply closed_core. rewrite E. exact L.
  - intros (ks & L & E & -> & F). exists ks. split_and!; [done| |done|].
    + destruct (m !! n) as [x|] eqn:Ex; [|done]. simpl in E. injection E as E. rewrite (G n x Ex); [by rewrite E|].
      apply closed_core. rewrite E. exact L.
    + eapply Forall_impl; [|exact F]. intros d [T K]. by split; [apply IH|].
Qed.
Lemma tree_same m m' k c n e ls :
  grows m m' -> core <$> m' !! n = core <$> m !! n -> tree m k c n e ls -> tree m' k c n e ls.
Proof.
  intros G E. destruct k as [|k].
  - intros (es & -> & L & Ee & E'). exists es. repeat split; [done|done|]. by rewrite E.
  - intros (ks & L & E' & -> & F). exists ks. split_and!; [done|by rewrite E|done|].
    eapply Forall_impl; [|exact F]. intros d [T K]. by split; [eapply tree_grows|].
Qed.
Lemma tree_lookup m k c n e ls : tree m k c n e ls -> exists x, m !! n = Some x /\
  match k, x with
  | O, NodeLeaf l => ln_count l = c
  | S _, NodeInner i => in_count i = c
  | _, _ => False
  end.
Proof.
  destruct k as [|k].
  - intros (es & -> & <- & _ & E). destruct (m !! n) as [x|]; [|done]. exists x. split; [done|].
    simpl in E. injection E as E. destruct x; by inversion E.
  - intros (ks & <- & E & _). destruct (m !! n) as [x|]; [|done]. exists x. split; [done|].
    simpl in E. injection E as E. destruct x; by inversion E.
Qed.
Lemma tree_not_closed m k c n e ls x : tree m k c n e ls -> (c < width k)%nat -> m !! n = Some x -> ~ closed x.
Proof. intros T L E. destruct (tree_lookup _ _ _ _ _ _ T) as (y & E' & C). destruct k, x; simplify_eq/=; lia. Qed.

Lemma tree_full_size m k n e ls : tree m k (width k) n e ls -> length (entries ls) = (SIMPLETREE_LEAF_M * SIMPLETREE_INNER_M ^ k)%nat.
Proof.
  revert n e ls. induction k as [|k IH]; intros n e ls.
  - intros (es & -> & L & _). unfold entries. cbn. by rewrite app_nil_r, Nat.mul_1_r.
  - intros (ks & L & _ & -> & F). cbn [width] in L.
    assert (length (entries (concat (k_leaves <$> ks))) = length ks * (SIMPLETREE_LEAF_M * SIMPLETREE_INNER_M ^ k))%nat as ->.
    { clear L. induction F as [|d ks [T _] F IHF]; [done|]. cbn. rewrite entries_app, length_app, IHF, (IH _ _ _ T). lia. }
    rewrite L, Nat.pow_succ_r'. lia.
Qed.
End Trees.

(** * The index tree: insertion keeps the representation *)

(** ** Arrays *)

Lemma length_filled {A} m (l : list A) : (length l <= m)%nat -> length (filled m l) = m.
Proof. intros L. unfold filled. rewrite length_app, length_fmap, length_replicate. lia. Qed.
Lemma lookup_filled {A} m (l : list A) i : (i < length l)%nat -> filled m l !! i = Some (l !! i).
Proof.
  intros L. unfold filled. rewrite lookup_app_l by (rewrite length_fmap; lia). rewrite list_lookup_fmap.
  destruct (l !! i) eqn:E; [done|]. apply lookup_ge_None in E. lia.
Qed.
Lemma filled_snoc {A} m (l : list A) x : (length l < m)%nat -> <[length l := Some x]> (filled m l) = filled m (l ++ [x]).
Proof.
  intros L. unfold filled. rewrite insert_app_r_alt by (rewrite length_fmap; lia). rewrite length_fmap, Nat.sub_diag.
  rewrite fmap_app, <- app_assoc, length_app. f_equal. destruct (m - length l)%nat as [|j] eqn:E; [lia|].
  simpl. do 2 f_equal. lia.
Qed.
Lemma length_padded m l : (length l <= m)%nat -> length (padded m l) = m.
Proof. intros L. unfold padded. rewrite length_app, length_replicate. lia. Qed.
Lemma padded_zero m l : (length l < m)%nat -> padded m (l ++ [0%nat]) = padded m l.
Proof.
  intros L. unfold padded. rewrite length_app, <- app_assoc. f_equal. destruct (m - length l)%nat as [|j] eqn:E; [lia|].
  simpl. f_equal. f_equal. simpl. lia.
Qed.
Lemma padded_set m l e x : (length l < m)%nat -> <[length l := x]> (padded m (l ++ [e])) = padded m (l ++ [x]).
Proof.
  intros L. unfold padded. rewrite <- !app_assoc, !length_app. rewrite insert_app_r_alt by lia. by rewrite Nat.sub_diag.
Qed.

(** ** Primitives *)

Ltac st_simpl := unfold set_mem, set_nodes, set_prev; cbn [nodes prev mem].

Section Primitives.
Implicit Types (st : SimpleTree) (mt : SimpleTreeMetaNode).

Lemma wp_upd_node n x (Q : unit -> SimpleTree -> Prop) st :
  (n < length (mem st))%nat -> Q tt (set_mem (<[n := x]> (mem st)) st) -> wp (upd_node n x) Q st.
Proof. intros L HQ. unfold upd_node. wp_step. wp_step. apply wp_bug_if; [|by wp_step]. by apply negb_false_iff, Nat.ltb_lt. Qed.
Lemma wp_the_meta mt (Q : SimpleTreeMetaNode -> SimpleTree -> Prop) st :
  mem st !! 0%nat = Some (NodeMeta mt) -> Q mt st -> wp the_meta Q st.
Proof. intros E HQ. unfold the_meta. wp_step. unfold meta_of. rewrite E. done. Qed.
Lemma wp_upd_meta mt f (Q : unit -> SimpleTree -> Prop) st :
  mem st !! 0%nat = Some (NodeMeta mt) -> Q tt (set_mem (<[0%nat := NodeMeta (f mt)]> (mem st)) st) -> wp (upd_meta f) Q st.
Proof.
  intros E HQ. unfold upd_meta. wp_step. eapply wp_the_meta; [done|]. apply wp_upd_node; [|done]. by eapply lookup_lt_Some.
Qed.
Lemma wp_the_leaf n x (Q : SimpleTreeLeafNode -> SimpleTree -> Prop) st :
  mem st !! n = Some (NodeLeaf x) -> Q x st -> wp (the_leaf n) Q st.
Proof. intros E HQ. unfold the_leaf. wp_step. by rewrite E. Qed.
Lemma wp_the_inner n x (Q : SimpleTreeInnerNode -> SimpleTree -> Prop) st :
  mem st !! n = Some (NodeInner x) -> Q x st -> wp (the_inner n) Q st.
Proof. intros E HQ. unfold the_inner. wp_step. by rewrite E. Qed.
Lemma wp_put_at {A} (l : list A) i x (Q : list A -> SimpleTree -> Prop) st :
  (i < length l)%nat -> Q (<[i := x]> l) st -> wp (put_at l i x) Q st.
Proof. intros L HQ. unfold put_at. wp_step. apply wp_bug_if; [|by wp_step]. by apply negb_false_iff, Nat.ltb_lt. Qed.
Lemma wp_level_node i n (Q : nat -> SimpleTree -> Prop) st :
  nodes st !! i = Some n -> Q n st -> wp (level_node i) Q st.
Proof. intros E HQ. unfold level_node. wp_step. by rewrite E. Qed.
Lemma wp_set_level i n (Q : unit -> SimpleTree -> Prop) st :
  (i < length (nodes st))%nat -> Q tt (set_nodes (<[i := n]> (nodes st)) st) -> wp (set_level i n) Q st.
Proof. intros L HQ. unfold set_level. wp_step. wp_step. apply wp_put_at; [done|]. by wp_step. Qed.
Lemma wp_stored {A} (o : option A) x (Q : A -> SimpleTree -> Prop) st : o = Some x -> Q x st -> wp (stored o) Q st.
Proof. by intros ->. Qed.
End Primitives.

(** ** Allocation *)

Lemma land_pred_pow2 n : (0 < n)%nat -> Z.land (Z.of_nat n - 1) (Z.of_nat n) = 0 -> exists p, n = (2 ^ p)%nat.
Proof.
  intros L E. set (q := Z.log2 (Z.of_nat n)). assert (0 <= q) by apply Z.log2_nonneg.
  destruct (Z.log2_spec (Z.of_nat n)) as [L1 L2]; [lia|]. fold q in L1, L2.
  destruct (Z.eq_dec (Z.of_nat n) (2 ^ q)) as [E'|N].
  - exists (Z.to_nat q). apply Nat2Z.inj. rewrite Nat2Z.inj_pow, Z2Nat.id by lia. done.
  - exfalso. assert (0 < 2 ^ q) by lia. assert (Z.testbit (Z.land (Z.of_nat n - 1) (Z.of_nat n)) q = true) as T; [|by rewrite E, Z.bits_0 in T].
    rewrite Z.land_spec. apply andb_true_iff. split; [|apply Z.bit_log2; lia].
    assert (Z.log2 (Z.of_nat n - 1) = q) as <-; [|apply Z.bit_log2; lia]. apply Z.log2_unique; lia.
Qed.
Lemma pow2_land p : Z.land (Z.of_nat (2 ^ p) - 1) (Z.of_nat (2 ^ p)) = 0.
Proof.
  rewrite Nat2Z.inj_pow. change (Z.of_nat 2) with 2. apply Z.bits_inj'. intros i Hi. rewrite Z.land_spec, Z.bits_0.
  rewrite Z.pow2_bits_eqb by lia. destruct (Z.eqb_spec (Z.of_nat p) i) as [<-|]; [|apply andb_false_r].
  replace (2 ^ Z.of_nat p - 1) with (Z.ones (Z.of_nat p)) by (rewrite Z.ones_equiv; lia).
  by rewrite Z.ones_spec_high by lia.
Qed.

Section Alloc.
Implicit Types (st : SimpleTree) (mt : SimpleTreeMetaNode) (m : list node).

(** The nodes that are in use, other than the meta node, stay. *)
Definition keeps m m' : Prop := forall i x, i <> 0%nat -> m !! i = Some x -> x <> NodeFresh -> m' !! i = Some x.

Lemma heap_insert m mt n x : heap_ok m mt -> (0 < n < num_nodes mt)%nat -> heap_ok (<[n := x]> m) mt.
Proof.
  intros [E P U T F] L. split; [by rewrite list_lookup_insert_ne by lia|by rewrite length_insert..|].
  rewrite length_insert. intros i Hi. rewrite list_lookup_insert_ne by lia. auto.
Qed.
Lemma heap_meta m mt mt' : heap_ok m mt -> num_nodes mt' = num_nodes mt -> heap_ok (<[0%nat := NodeMeta mt']> m) mt'.
Proof.
  intros [E P U T F] L. split; rewrite ?length_insert, ?L; try done; [rewrite list_lookup_insert_eq by lia; done|].
  intros i Hi. rewrite list_lookup_insert_ne by lia. auto.
Qed.
Lemma keeps_meta m x : keeps m (<[0%nat := x]> m).
Proof. intros i y Hi E _. by rewrite list_lookup_insert_ne by lia. Qed.

(** The next node is taken into use. *)
Lemma heap_take m mt mt' : heap_ok m mt -> (num_nodes mt < length m)%nat -> num_nodes mt' = S (num_nodes mt) ->
  heap_ok (<[0%nat := NodeMeta mt']> m) mt'.
Proof.
  intros [E P U T F] L E'. split; rewrite ?length_insert, ?E'; try done; try lia; [rewrite list_lookup_insert_eq by lia; done|].
  intros i Hi. rewrite list_lookup_insert_ne by lia. apply F. lia.
Qed.
Lemma heap_grow m mt p : heap_ok m mt -> num_nodes mt = (2 ^ p)%nat ->
  let m' := realloc_nodes (2 * num_nodes mt) m in
  m' !! 0%nat = Some (NodeMeta mt) /\ (exists p, length m' = (2 ^ p)%nat) /\ length m' = (2 * num_nodes mt)%nat /\
  keeps m m' /\ (forall i, (num_nodes mt <= i < length m')%nat -> m' !! i = Some NodeFresh).
Proof.
  intros [E P U T F] Ep m'. assert (m' = m ++ replicate (2 * num_nodes mt - length m) NodeFresh) as Em.
  { unfold m', realloc_nodes. by rewrite take_ge by lia. }
  assert (length m' = 2 * num_nodes mt)%nat as Lm by (rewrite Em, length_app, length_replicate; lia).
  split_and!; [|exists (S p); rewrite Lm, Ep; simpl; lia|done| |].
  - rewrite Em, lookup_app_l; [done|lia].
  - intros i x Hi Ex _. rewrite Em. by apply lookup_app_l_Some.
  - intros i Hi. rewrite Lm in Hi. rewrite Em. destruct (decide (i < length m)%nat).
    + rewrite lookup_app_l by done. apply F. lia.
    + rewrite lookup_app_r by lia. apply lookup_replicate_2. lia.
Qed.

Lemma wp_alloc st mt (Q : nat -> SimpleTree -> Prop) :
  heap_ok (mem st) mt -> Z.of_nat (num_nodes mt) < 2 ^ 30 ->
  (forall m', heap_ok m' (set_num_nodes (S (num_nodes mt)) mt) -> m' !! num_nodes mt = Some NodeFresh -> keeps (mem st) m' ->
    Q (num_nodes mt) (set_mem m' st)) ->
  wp alloc_node Q st.
Proof.
  intros Hh B HQ. pose proof Hh as [E P U T F]. unfold alloc_node. wp_step. wp_step.
  apply wp_mono with (Q := fun a s' => a = num_nodes mt /\ s' = st).
  { destruct (mem st) as [|z l] eqn:El; [done|]. wp_step. apply (wp_the_meta mt); [by rewrite El|]. by wp_step. }
  intros ? ? [-> ->]. wp_step. apply wp_when.
  - intros G%Z.eqb_eq. destruct (land_pred_pow2 (num_nodes mt)) as [p Ep]; [lia|done|].
    destruct (heap_grow _ _ p Hh Ep) as (E1 & P1 & L1 & K1 & F1). wp_step. apply wp_bug_if; [by apply Z.leb_gt|].
    wp_step. destruct (Nat.eqb_spec (num_nodes mt) 0) as [|_]; [lia|]. apply (wp_upd_meta mt); [done|]. cbn [mem set_mem].
    wp_step. eapply wp_upd_meta; [cbn [mem set_mem]; rewrite list_lookup_insert_eq by lia; reflexivity|]. cbn [mem set_mem].
    wp_step. rewrite list_insert_insert_eq. apply HQ.
    + split; rewrite ?length_insert; cbn [num_nodes set_num_nodes]; try done; try lia; [rewrite list_lookup_insert_eq by lia; done|].
      intros i Hi. rewrite list_lookup_insert_ne by lia. apply F1. lia.
    + rewrite list_lookup_insert_ne by lia. apply F1. lia.
    + intros i x Hi Ex N. rewrite list_lookup_insert_ne by lia. by apply K1.
  - intros G%Z.eqb_neq. assert (num_nodes mt < length (mem st))%nat as L.
    { destruct P as [p Ep]. destruct (decide (num_nodes mt = length (mem st))) as [E'|]; [|lia].
      exfalso. apply G. rewrite E', Ep. apply pow2_land. }
    wp_step. eapply wp_upd_meta; [exact E|]. wp_step. apply HQ.
    + eapply heap_take; [exact Hh|done|done].
    + rewrite list_lookup_insert_ne by lia. apply F. lia.
    + apply keeps_meta.
Qed.
End Alloc.

(** ** New nodes *)

Section Insert.
Context `{Shape, !Wide}.
Implicit Types (st : SimpleTree) (mt : SimpleTreeMetaNode) (m : list node).

(** What the creation of the node [x] does to the memory *)
Record new_node m mt m' (x : node) : Prop := {
  cr_heap : heap_ok m' (set_num_nodes (S (num_nodes mt)) mt);
  cr_node : m' !! num_nodes mt = Some x;
  cr_keeps : keeps m m'
}.

Lemma keeps_grows m m' mt : heap_ok m mt -> keeps m m' -> grows m m'.
Proof.
  intros Hh K i x E C. destruct (decide (i = 0%nat)) as [->|Hi].
  - rewrite (ho_meta _ _ Hh) in E. by simplify_eq.
  - rewrite (K i x); [done..|]. by intros ->.
Qed.
Lemma fresh_below m mt n x : heap_ok m mt -> m !! n = Some x -> x <> NodeFresh -> (n < num_nodes mt)%nat.
Proof.
  intros Hh E N. destruct (decide (n < num_nodes mt)%nat); [done|]. pose proof (lookup_lt_Some _ _ _ E).
  rewrite (ho_fresh _ _ Hh) in E by lia. by simplify_eq.
Qed.
Lemma created_upd m mt m' x : heap_ok m mt -> heap_ok m' (set_num_nodes (S (num_nodes mt)) mt) -> keeps m m' ->
  new_node m mt (<[num_nodes mt := x]> m') x.
Proof.
  intros Hh Hh' K. pose proof (ho_used _ _ Hh) as U. pose proof (ho_used _ _ Hh') as U'. cbn [num_nodes set_num_nodes] in U'. split.
  - apply heap_insert; [done|]. cbn [num_nodes set_num_nodes]. lia.
  - rewrite list_lookup_insert_eq by lia. done.
  - intros i y Hi Ey Ny. pose proof (fresh_below _ _ _ _ Hh Ey Ny). rewrite list_lookup_insert_ne by lia. by apply K.
Qed.

Lemma leaf_node_nil : leaf_node [] 0%nat = NodeLeaf {| ln_count := 0; next := 0%nat; ln_keys := replicate SIMPLETREE_LEAF_M None;
  ln_values := replicate SIMPLETREE_LEAF_M None |}.
Proof. unfold leaf_node, filled. simpl. by rewrite Nat.sub_0_r. Qed.
Lemma inner_node_nil : inner_node [] 0%nat = NodeInner {| in_count := 0; in_keys := replicate SIMPLETREE_INNER_M None;
  children := replicate (S SIMPLETREE_INNER_M) 0%nat |}.
Proof. unfold inner_node, filled, padded. simpl. by rewrite !Nat.sub_0_r. Qed.

Lemma wp_create_leaf st mt (Q : nat -> SimpleTree -> Prop) :
  heap_ok (mem st) mt -> Z.of_nat (num_nodes mt) < 2 ^ 30 ->
  (forall m', new_node (mem st) mt m' (leaf_node [] 0%nat) -> Q (num_nodes mt) (set_mem m' st)) -> wp create_leaf_node Q st.
Proof.
  intros Hh B HQ. unfold create_leaf_node. wp_step. eapply wp_alloc; [done|done|]. intros m' Hh' E K. wp_step.
  apply wp_upd_node; [by eapply lookup_lt_Some|]. wp_step. pose proof (created_upd _ _ _ (leaf_node [] 0%nat) Hh Hh' K) as C.
  rewrite <- leaf_node_nil. by apply HQ.
Qed.
Lemma wp_create_inner st mt (Q : nat -> SimpleTree -> Prop) :
  heap_ok (mem st) mt -> Z.of_nat (num_nodes mt) < 2 ^ 30 ->
  (forall m', new_node (mem st) mt m' (inner_node [] 0%nat) -> Q (num_nodes mt) (set_mem m' st)) -> wp create_inner_node Q st.
Proof.
  intros Hh B HQ. unfold create_inner_node. wp_step. eapply wp_alloc; [done|done|]. intros m' Hh' E K. wp_step.
  apply wp_upd_node; [by eapply lookup_lt_Some|]. wp_step. pose proof (created_upd _ _ _ (inner_node [] 0%nat) Hh Hh' K) as C.
  rewrite <- inner_node_nil. by apply HQ.
Qed.

(** ** Levels *)

Record levels m mt k (nds : list node_t) (ls : list leaf) : Prop := {
  lv_len : (k + length nds = 16)%nat;
  lv_spine : spine m k nds ls;
  lv_distinct : distinct nds;
  lv_below : below (num_nodes mt) nds;
  lv_height : exists top, maxLevel mt = Some top /\ height k nds top /\ (k <= S top)%nat
}.

Lemma spine_same m m' nds : grows m m' -> (forall n, n ∈ nds -> n <> 0%nat -> core <$> m' !! n = core <$> m !! n) ->
  forall k ls, spine m k nds ls -> spine m' k nds ls.
Proof.
  intros G. induction nds as [|n nds IH]; intros E k ls; [done|]. intros (l1 & l2 & -> & S & O).
  exists l1, l2. split_and!; [done|apply IH; [|done]; intros; apply E; [by right|done]|].
  destruct O as [O|(N & c & L & T)]; [by left|]. right. split; [done|]. exists c. split; [done|].
  eapply tree_same; [done|apply E; [by left|done]|done].
Qed.
Lemma spine_lookup m nds : forall k ls i n, spine m k nds ls -> nds !! i = Some n -> n <> 0%nat ->
  exists c l, (0 < c < width (k + i))%nat /\ tree m (k + i) c n 0%nat l.
Proof.
  induction nds as [|x nds IH]; intros k ls i n; [done|]. intros (l1 & l2 & -> & S & O). destruct i as [|i]; simpl.
  - intros [= ->] N. destruct O as [[? _]|(_ & c & L & T)]; [done|]. exists c, l2. by rewrite Nat.add_0_r.
  - intros E N. rewrite <- Nat.add_succ_comm. by eapply IH.
Qed.
Lemma spine_keeps m m' mt k nds ls : heap_ok m mt -> keeps m m' -> spine m k nds ls -> spine m' k nds ls.
Proof.
  intros Hh K S. eapply spine_same; [by eapply keeps_grows| |done]. intros n [i Hi]%list_elem_of_lookup N.
  destruct (spine_lookup _ _ _ _ _ _ S Hi N) as (c & l & L & T). destruct (tree_lookup _ _ _ _ _ _ T) as (x & E & C).
  rewrite E, (K n x); [done..|]. intros ->. by destruct (k + i)%nat.
Qed.

Lemma distinct_cons n nds : distinct nds -> below n nds -> distinct (n :: nds).
Proof.
  intros D B [|i] [|j] x; simpl; [done| | |].
  - intros [= ->] E N. pose proof (Forall_lookup_1 _ _ _ _ B E). simpl in *. lia.
  - intros E [= ->] N. pose proof (Forall_lookup_1 _ _ _ _ B E). simpl in *. lia.
  - intros E E' N. f_equal. by eapply D.
Qed.
Lemma distinct_tail n nds : distinct (n :: nds) -> distinct nds.
Proof. intros D i j x E E' N. assert (S i = S j) by (by eapply D). lia. Qed.
Lemma distinct_zero nds : distinct nds -> distinct (0%nat :: nds).
Proof. intros D [|i] [|j] x; simpl; [done|by intros [= <-] ?|by intros ? [= <-]|]. intros E E' N. f_equal. by eapply D. Qed.
Lemma distinct_head n nds x : distinct (n :: nds) -> n <> 0%nat -> x ∈ nds -> x <> n.
Proof. intros D N [i Hi]%list_elem_of_lookup ->. by assert (0 = S i)%nat by (by eapply D). Qed.
Lemma below_mono a b nds : (a <= b)%nat -> below a nds -> below b nds.
Proof. intros L B. eapply Forall_impl; [|exact B]. simpl. lia. Qed.

Lemma height_new k n nds top : height k (0%nat :: nds) top -> (k <= S top)%nat -> n <> 0%nat -> height k (n :: nds) (max top k).
Proof.
  intros [A E] L N. split.
  - intros [|i] x; simpl; [lia|]. intros Ex Nx. specialize (A (S i) x Ex Nx). lia.
  - right. destruct (decide (top < k)%nat).
    + exists n. by replace (max top k - k)%nat with 0%nat by lia.
    + destruct E as [|(x & Nx & Ex)]; [lia|]. exists x. split; [done|]. replace (max top k) with top by lia.
      by destruct (top - k)%nat; simplify_eq/=.
Qed.
Lemma height_tail k n nds top : height k (n :: nds) top -> (k <= top)%nat -> height (S k) nds top.
Proof.
  intros [A E] L. split.
  - intros i x Ex Nx. specialize (A (S i) x Ex Nx). lia.
  - destruct (decide (top < S k)%nat); [by left|]. right. destruct E as [|(x & Nx & Ex)]; [lia|]. exists x. split; [done|].
    by replace (top - k)%nat with (S (top - S k)) in Ex by lia.
Qed.
Lemma height_zero k nds top : height (S k) nds top -> (S k <= top)%nat -> height k (0%nat :: nds) top.
Proof.
  intros [A E] L. split.
  - intros [|i] x; simpl; [by intros [= <-]|]. intros Ex Nx. specialize (A i x Ex Nx). lia.
  - right. destruct E as [|(x & Nx & Ex)]; [lia|]. exists x. split; [done|]. by replace (top - k)%nat with (S (top - S k)) by lia.
Qed.

(** ** One level of an insertion *)

(** The node of the level is there and has room. *)
Record ready m mt k n (nds : list node_t) (l1 l2 : list leaf) : Prop := {
  rd_len : (k + S (length nds) = 16)%nat;
  rd_nonzero : n <> 0%nat;
  rd_node : exists c, (c < width k)%nat /\ tree m k c n 0%nat l2;
  rd_spine : spine m (S k) nds l1;
  rd_distinct : distinct (n :: nds);
  rd_below : below (num_nodes mt) (n :: nds);
  rd_height : exists top, maxLevel mt = Some top /\ height k (n :: nds) top /\ (k <= top)%nat
}.
(** What an operation on inner nodes may do *)
Record moved m mt m' mt' : Prop := {
  mv_heap : heap_ok m' mt';
  mv_grows : grows m m';
  mv_leaves : forall i l, m !! i = Some (NodeLeaf l) -> m' !! i = Some (NodeLeaf l);
  mv_meta : exists num top, mt' = set_maxLevel (Some top) (set_num_nodes num mt) /\ (num_nodes mt <= num)%nat
}.

Lemma tree_moved_trans m1 mt1 m2 mt2 m3 mt3 : moved m1 mt1 m2 mt2 -> moved m2 mt2 m3 mt3 -> moved m1 mt1 m3 mt3.
Proof.
  intros [H1 G1 L1 (n1 & t1 & -> & N1)] [H2 G2 L2 (n2 & t2 & -> & N2)]. split; [done|by eapply grows_trans|by auto|].
  exists n2, t2. split; [done|]. simpl in N2. lia.
Qed.

Lemma levels_ready m mt k n nds ls : levels m mt k (n :: nds) ls -> n <> 0%nat -> exists l1 l2, ls = l1 ++ l2 /\ ready m mt k n nds l1 l2.
Proof.
  intros [L (l1 & l2 & -> & S & [[? _]|(_ & c & Lc & T)]) D B (top & Et & Ht & Lt)] N; [done|]. exists l1, l2. split; [done|].
  split; [done|done|exists c; split; [lia|done]|done|done|done|]. exists top. split_and!; [done|done|].
  destruct Ht as [A _]. specialize (A 0%nat n eq_refl N). lia.
Qed.

Lemma wp_ensure_inner st mt k lo n nds ls (Q : unit -> SimpleTree -> Prop) :
  nodes st = lo ++ n :: nds -> length lo = S k -> heap_ok (mem st) mt -> levels (mem st) mt (S k) (n :: nds) ls ->
  Z.of_nat (num_nodes mt) < 2 ^ 30 ->
  (forall m' mt' n' l1 l2, ls = l1 ++ l2 -> ready m' mt' (S k) n' nds l1 l2 -> moved (mem st) mt m' mt' ->
    (num_nodes mt' <= S (num_nodes mt))%nat -> Q tt {| nodes := lo ++ n' :: nds; prev := prev st; mem := m' |}) ->
  wp (when (n =? 0)%nat
        (o <- create_inner_node;;
         set_level (S k) o;;
         m <- the_meta;;
         top <- stored (maxLevel m);;
         when (top <? S k)%nat (upd_meta (set_maxLevel (Some (S k)))))) Q st.
Proof.
  destruct st as [nl pv m]. cbn [nodes mem prev]. intros -> Ll Hh Lv B HQ. apply wp_when.
  - intros ->%Nat.eqb_eq. destruct Lv as [L (l1 & l2 & -> & Sp & [(_ & _ & ->)|[? _]]) D Bl (top & Et & Ht & Lt)]; [|done].
    wp_step. eapply wp_create_inner; [done|done|]. intros m' [Hh' E K]. cbn [mem] in *. st_simpl.
    pose proof (ho_used _ _ Hh) as U. wp_step. apply wp_set_level; [cbn [nodes]; rewrite length_app; simpl; lia|]. st_simpl.
    replace (<[S k := num_nodes mt]> (lo ++ 0%nat :: nds)) with (lo ++ num_nodes mt :: nds).
    2:{ rewrite insert_app_r_alt by lia. by rewrite <- Ll, Nat.sub_diag. }
    wp_step. eapply wp_the_meta; [cbn [mem]; exact (ho_meta _ _ Hh')|]. wp_step. apply (wp_stored _ top); [done|].
    set (mt' := set_maxLevel (Some (max top (S k))) (set_num_nodes (S (num_nodes mt)) mt)).
    assert (forall m2, heap_ok m2 mt' -> keeps m' m2 -> Q tt {| nodes := lo ++ num_nodes mt :: nds; prev := pv; mem := m2 |}) as HQ'.
    { intros m2 Hh2 K2. assert (keeps m m2) as K'.
      { intros i x Hi Ex Nx. apply K2; [done|by apply K|done]. }
      apply (HQ m2 mt' _ l1 []); [done| | |done].
      - split; [simpl in *; lia|lia| | | | |].
        + exists 0%nat. pose proof inner_wide. split; [simpl; lia|]. exists []. split_and!; [done| |done|by constructor].
          rewrite (K2 (num_nodes mt) (inner_node [] 0%nat)); [done|lia|done|done].
        + eapply spine_keeps; [exact Hh|exact K'|exact Sp].
        + apply distinct_cons; [by eapply distinct_tail|by inversion Bl].
        + constructor; [simpl; lia|]. eapply below_mono; [|by inversion Bl]. simpl. lia.
        + exists (max top (S k)). split; [done|]. split; [|lia]. eapply height_new; [done|lia|lia].
      - split; [done|by eapply keeps_grows| |].
        + intros i l El. apply K'; [|done|done]. intros ->. rewrite (ho_meta _ _ Hh) in El. done.
        + exists (S (num_nodes mt)), (max top (S k)). split; [done|]. lia. }
    apply wp_when.
    + intros G%Nat.ltb_lt. eapply wp_upd_meta; [cbn [mem]; exact (ho_meta _ _ Hh')|]. st_simpl.
      apply HQ'; [|apply keeps_meta]. replace (set_maxLevel (Some (S k)) (set_num_nodes (S (num_nodes mt)) mt)) with mt' by (unfold mt'; do 2 f_equal; lia).
      by eapply heap_meta.
    + intros G%Nat.ltb_ge. apply HQ'; [|by intros i x]. unfold mt'. replace (max top (S k)) with top by lia.
      rewrite <- Et. by destruct mt.
  - intros N%Nat.eqb_neq. destruct (levels_ready _ _ _ _ _ _ Lv N) as (l1 & l2 & -> & R). apply (HQ m mt n l1 l2); [done|done| |lia].
    split; [done|apply grows_refl|done|]. destruct (rd_height _ _ _ _ _ _ _ R) as (top & Et & _). exists (num_nodes mt), top. split; [|done].
    rewrite <- Et. by destruct mt.
Qed.

(** A child is stored. *)
Lemma ready_fill m mt k n nds l1 l2 (d : kid) : heap_ok m mt -> ready m mt (S k) n nds l1 l2 ->
  tree m k (width k) (k_node d) 0%nat (k_leaves d) -> last_key (k_leaves d) = Some (k_key d) ->
  exists ks, (length ks < SIMPLETREE_INNER_M)%nat /\ m !! n = Some (inner_node ks 0%nat) /\
    let m' := <[n := inner_node (ks ++ [d]) 0%nat]> m in
    moved m mt m' mt /\ spine m' (S (S k)) nds l1 /\ tree m' (S k) (S (length ks)) n 0%nat (l2 ++ k_leaves d).
Proof.
  intros Hh [L N (c & Lc & (ks & <- & E & -> & F)) Sp D B (top & Et & Ht & Lt)] T K. exists ks.
  assert (m !! n = Some (inner_node ks 0%nat)) as En.
  { unfold inner_node in *. destruct (m !! n) as [[]|]; simpl in E; congruence. }
  assert (grows m (<[n := inner_node (ks ++ [d]) 0%nat]> m)) as G by (eapply grows_insert; [exact En|simpl in *; lia]).
  split; [done|]. split; [done|]. cbv zeta. split_and!.
  - split; [apply heap_insert; [done|]; apply Forall_cons_1 in B; lia|done| |].
    + intros i l Ei. rewrite list_lookup_insert_ne; [done|]. intros ->. rewrite En in Ei. done.
    + exists (num_nodes mt), top. split; [|done]. rewrite <- Et. by destruct mt.
  - eapply spine_same; [done| |done]. intros x Hx Nx. pose proof (distinct_head _ _ _ D N Hx).
    by rewrite list_lookup_insert_ne by done.
  - exists (ks ++ [d]). split_and!; [rewrite length_app; simpl; lia| | |].
    + rewrite list_lookup_insert_eq; [done|]. by eapply lookup_lt_Some.
    + rewrite fmap_app, concat_app. simpl. by rewrite app_nil_r.
    + apply Forall_app. split; [|constructor; [split; [by eapply tree_grows|done]|constructor]].
      eapply Forall_impl; [|exact F]. intros x [Tx Kx]. by split; [eapply tree_grows|].
Qed.

Lemma last_key_app l1 l2 key : last_key l2 = Some key -> last_key (l1 ++ l2) = Some key.
Proof.
  unfold last_key. rewrite entries_app, last_app. intros E. by destruct (list.last (entries l2)).
Qed.

Definition capacity : nat := (SIMPLETREE_LEAF_M * SIMPLETREE_INNER_M ^ 15)%nat.
Lemma below_capacity m k n e ls l1 : tree m k (width k) n e ls -> (length (entries (l1 ++ ls)) < capacity)%nat -> (k < 15)%nat.
Proof.
  intros T L. rewrite entries_app, length_app, (tree_full_size _ _ _ _ _ T) in L. unfold capacity in L. pose proof leaf_wide. pose proof inner_wide.
  destruct (decide (k < 15)%nat); [done|]. exfalso.
  assert (SIMPLETREE_INNER_M ^ 15 <= SIMPLETREE_INNER_M ^ k)%nat by (apply Nat.pow_le_mono_r; lia). nia.
Qed.

Lemma inner_snoc ks (d : kid) : (length ks < SIMPLETREE_INNER_M)%nat ->
  NodeInner {| in_count := S (length ks); in_keys := <[length ks := Some (k_key d)]> (filled SIMPLETREE_INNER_M (k_key <$> ks));
               children := <[length ks := k_node d]> (padded (S SIMPLETREE_INNER_M) ((k_node <$> ks) ++ [0%nat])) |} =
  inner_node (ks ++ [d]) 0%nat.
Proof.
  intros L. unfold inner_node. rewrite !fmap_app, length_app. simpl. do 2 f_equal.
  - lia.
  - rewrite <- (length_fmap k_key ks). apply filled_snoc. rewrite length_fmap. lia.
  - rewrite <- (length_fmap k_node ks). rewrite padded_set by (rewrite length_fmap; lia). rewrite padded_zero; [done|].
    rewrite length_app, length_fmap. simpl. lia.
Qed.

(** ** Insertion into the inner nodes *)

Lemma wp_insert_inner fuel : forall k lo child nds ls lc key st mt (Q : unit -> SimpleTree -> Prop),
  (17 <= fuel + S k)%nat -> (k < 15)%nat -> nodes st = lo ++ nds -> length lo = S k -> lo !! k = Some child ->
  heap_ok (mem st) mt -> levels (mem st) mt (S k) nds ls -> Z.of_nat (num_nodes mt) + 15 < 2 ^ 30 + Z.of_nat k ->
  tree (mem st) k (width k) child 0%nat lc -> last_key lc = Some key -> (length (entries (ls ++ lc)) < capacity)%nat ->
  (forall m' mt' nds' top, levels m' mt' (S k) nds' (ls ++ lc) -> moved (mem st) mt m' mt' ->
    (num_nodes mt' + S k <= num_nodes mt + 16)%nat -> maxLevel mt' = Some top -> (S k <= top)%nat ->
    Q tt {| nodes := lo ++ nds'; prev := prev st; mem := m' |}) ->
  wp (simpletree_insert_inner fuel (S k) key) Q st.
Proof.
  induction fuel as [|fuel IH]; intros k lo child nds ls lc key [nl pv m] mt Q Lf Lk; [lia|]. cbn [nodes mem prev].
  intros -> Ll Ec Hh Lv B T K C HQ. destruct nds as [|n nds]; [pose proof (lv_len _ _ _ _ _ Lv); simpl in *; lia|].
  cbn [simpletree_insert_inner]. wp_step. apply (wp_level_node _ n); [cbn [nodes]; rewrite <- Ll; by apply list_lookup_middle|].
  wp_step. eapply wp_ensure_inner; [done|done|exact Hh|exact Lv|lia|]. cbn [mem prev].
  intros m1 mt1 n1 l1 l2 -> R Mv L1. clear Lv.
  wp_step. apply (wp_level_node _ n1); [cbn [nodes]; rewrite <- Ll; by apply list_lookup_middle|].
  pose proof (tree_grows _ _ _ (mv_grows _ _ _ _ Mv) _ _ T) as T1.
  destruct (ready_fill _ _ _ _ _ _ _ (Kid child key lc) (mv_heap _ _ _ _ Mv) R T1 K) as (ks & Lks & En & Mv2 & Sp & Tn).
  cbn [k_node k_key k_leaves] in *. wp_step. eapply wp_the_inner; [exact En|]. cbn [in_count in_keys children].
  wp_step. apply (wp_level_node _ child); [cbn [nodes]; rewrite Nat.sub_succ, Nat.sub_0_r; rewrite lookup_app_l by lia; done|].
  wp_step. apply wp_put_at; [rewrite length_filled by (rewrite length_fmap; lia); lia|].
  wp_step. apply wp_put_at; [rewrite length_padded by (rewrite length_app, length_fmap; simpl; lia); lia|].
  wp_step. apply wp_upd_node; [by eapply lookup_lt_Some|]. st_simpl.
  pose proof (inner_snoc ks (Kid child key lc) Lks) as Es. cbn [k_key k_node] in Es. rewrite Es. clear Es.
  pose proof (tree_moved_trans _ _ _ _ _ _ Mv Mv2) as Mv'. destruct R as [Rl Rn _ _ Rd Rb (top & Et & Ht & Lt)].
  cbv zeta in *. set (m2 := <[n1 := _]> m1) in *. apply wp_when.
  - intros Ef%Nat.eqb_eq. rewrite Ef in Tn. pose proof (below_capacity _ (S k) _ _ _ l1 Tn ltac:(by rewrite app_assoc)) as Lk'.
    wp_step. eapply (IH (S k) (lo ++ [n1]) n1 nds l1 (l2 ++ lc)); cbn [nodes mem prev].
    + lia.
    + lia.
    + by rewrite <- app_assoc.
    + rewrite length_app. simpl. lia.
    + rewrite <- Ll. by apply list_lookup_middle.
    + exact (mv_heap _ _ _ _ Mv2).
    + split; [simpl in *; lia|done|by eapply distinct_tail|by inversion Rb|]. exists top. split_and!; [done|by eapply height_tail|lia].
    + lia.
    + exact Tn.
    + by apply last_key_app.
    + by rewrite app_assoc.
    + intros m3 mt3 nds3 top3 Lv3 Mv3 L3 E3 H3. apply wp_set_level; [cbn [nodes]; rewrite !length_app; simpl; lia|]. st_simpl.
      rewrite <- app_assoc. rewrite insert_app_r_alt by lia. rewrite Ll, Nat.sub_diag. cbn [app insert list_insert].
      eapply (HQ m3 mt3 (0%nat :: nds3) top3); [|by eapply tree_moved_trans|lia|done|lia].
      destruct Lv3 as [Ll3 S3 D3 B3 (top' & E' & H' & _)]. split; [simpl in *; lia| |by apply distinct_zero| |].
      * exists (l1 ++ l2 ++ lc), []. split_and!; [by rewrite app_nil_r, app_assoc|done|by left].
      * constructor; [|done]. pose proof (ho_used _ _ (mv_heap _ _ _ _ Mv3)). lia.
      * exists top3. assert (top' = top3) as -> by congruence. split_and!; [done|by apply height_zero|lia].
  - intros Nf%Nat.eqb_neq. apply (HQ m2 mt1 (n1 :: nds) top); [|done|lia|done|done].
    split; [done| |done|done|exists top; split_and!; [done|done|lia]].
    exists l1, (l2 ++ lc). split_and!; [by rewrite app_assoc|done|]. right. split; [done|]. exists (S (length ks)). split; [simpl; lia|done].
Qed.

(** ** Links of the leaves *)

Lemma chain_leaf m ids i a : chain m ids -> ids !! i = Some a -> exists x, m !! a = Some (NodeLeaf x) /\ next x = default 0%nat (ids !! S i).
Proof.
  intros C E. specialize (C i a E). destruct (m !! a) as [y|]; [|done]. simpl in C. destruct y as [| | |x|]; try done.
  exists x. by injection C as ->.
Qed.
Lemma chain_below m mt ids a : heap_ok m mt -> chain m ids -> a ∈ ids -> (0 < a < num_nodes mt)%nat.
Proof.
  intros Hh C [i Hi]%list_elem_of_lookup. destruct (chain_leaf _ _ _ _ C Hi) as (x & Ex & _). split; [|by eapply fresh_below].
  destruct a; [|lia]. rewrite (ho_meta _ _ Hh) in Ex. done.
Qed.
Lemma chain_same m m' ids : (forall a, a ∈ ids -> m' !! a ≫= next_of = m !! a ≫= next_of) -> chain m ids -> chain m' ids.
Proof. intros E C i a Ha. rewrite E; [by apply C|by eapply list_elem_of_lookup_2]. Qed.
Lemma chain_moved m mt m' mt' ids : moved m mt m' mt' -> chain m ids -> chain m' ids.
Proof.
  intros [_ _ K _] C. eapply chain_same; [|done]. intros a [i Hi]%list_elem_of_lookup. destruct (chain_leaf _ _ _ _ C Hi) as (x & Ex & _).
  by rewrite Ex, (K _ _ Ex).
Qed.
(** A leaf is linked to the last one. *)
Lemma chain_snoc m m' ids o : chain m ids -> NoDup ids -> m' !! o ≫= next_of = Some 0%nat ->
  (forall a, a ∈ ids -> Some a <> list.last ids -> m' !! a ≫= next_of = m !! a ≫= next_of) ->
  (forall a, list.last ids = Some a -> m' !! a ≫= next_of = Some o) -> chain m' (ids ++ [o]).
Proof.
  intros C ND Eo Es Ep i a Ha. apply lookup_app_Some in Ha as [Ha|[L Ha]].
  - pose proof (lookup_lt_Some _ _ _ Ha) as Li. destruct (decide (S i = length ids)) as [El|Nl].
    + rewrite (Ep a) by (rewrite last_lookup; by rewrite <- El). rewrite lookup_app_r by lia. by rewrite El, Nat.sub_diag.
    + rewrite Es; [|by eapply list_elem_of_lookup_2|].
      * rewrite lookup_app_l by lia. by apply C.
      * rewrite last_lookup. intros E. assert (i = pred (length ids)); [|lia]. by eapply NoDup_lookup.
  - apply list_lookup_singleton_Some in Ha as [Hi <-]. rewrite Eo. rewrite lookup_app_r by lia.
    by replace (S i - length ids)%nat with 1%nat by lia.
Qed.

(** A link does not change what is represented. *)
Lemma relink m p x o : m !! p = Some (NodeLeaf x) -> forall n, core <$> <[p := NodeLeaf (set_next o x)]> m !! n = core <$> m !! n.
Proof.
  intros E n. destruct (decide (n = p)) as [->|N]; [|by rewrite list_lookup_insert_ne].
  rewrite list_lookup_insert_eq by (by eapply lookup_lt_Some). by rewrite E.
Qed.
Lemma core_grows m m' : (forall n, core <$> m' !! n = core <$> m !! n) -> grows m m'.
Proof. intros E n x Ex _. by rewrite E, Ex. Qed.
Lemma core_levels m m' mt mt' k nds ls : (forall n, core <$> m' !! n = core <$> m !! n) -> maxLevel mt' = maxLevel mt ->
  (num_nodes mt <= num_nodes mt')%nat -> levels m mt k nds ls -> levels m' mt' k nds ls.
Proof.
  intros E Et Ln [L S D B Ht]. split; [done| |done|by eapply below_mono|by rewrite Et].
  eapply spine_same; [by apply core_grows| |done]. auto.
Qed.
Lemma keeps_levels m m' mt mt' k nds ls : heap_ok m mt -> keeps m m' -> maxLevel mt' = maxLevel mt ->
  (num_nodes mt <= num_nodes mt')%nat -> levels m mt k nds ls -> levels m' mt' k nds ls.
Proof. intros Hh K Et Ln [L S D B Ht]. split; [done|by eapply spine_keeps|done|by eapply below_mono|by rewrite Et]. Qed.

(** ** Insertion into the leaves *)

(** The state between two insertions: [es] are the entries so far, [ls] their
    leaves, [n] is the leaf that is being filled. *)
Record building st (es : list entry) mt (n : node_t) (nds : list node_t) (l1 l2 : list leaf) : Prop := {
  bd_nodes : nodes st = n :: nds;
  bd_heap : heap_ok (mem st) mt;
  bd_levels : levels (mem st) mt 1 nds l1;
  bd_leaf : open_node (mem st) 0 n 0%nat l2;
  bd_entries : entries (l1 ++ l2) = es;
  bd_chain : chain (mem st) (l1 ++ l2).*1;
  bd_nodup : NoDup (l1 ++ l2).*1;
  bd_prev : n = 0%nat -> prev st = default 0%nat (list.last (l1 ++ l2).*1);
  bd_first : first mt = Some (default 0%nat (head (l1 ++ l2).*1));
  bd_magic : mn_magic mt = Some SIMPLETREE_MAGIC;
  bd_num : (num_nodes mt <= 1 + 16 * length es)%nat
}.

(** The leaf is there and has room. *)
Record leaf_ready m mt n (nds : list node_t) (l1 : list leaf) (es : list entry) : Prop := {
  lr_node : m !! n = Some (leaf_node es 0%nat);
  lr_room : (length es < SIMPLETREE_LEAF_M)%nat;
  lr_heap : heap_ok m mt;
  lr_levels : levels m mt 1 nds l1;
  lr_chain : chain m (l1.*1 ++ [n]);
  lr_nodup : NoDup (l1.*1 ++ [n]);
  lr_first : first mt = Some (default 0%nat (head (l1.*1 ++ [n])));
  lr_magic : mn_magic mt = Some SIMPLETREE_MAGIC
}.

Lemma open_leaf m n ls : open_node m 0 n 0%nat ls -> n <> 0%nat ->
  exists es, ls = [(n, es)] /\ (0 < length es < SIMPLETREE_LEAF_M)%nat /\ core <$> m !! n = Some (leaf_node es 0%nat).
Proof. intros [[? _]|(_ & c & L & es & -> & <- & _ & E)] N; [done|]. by exists es. Qed.

Lemma chain_last_leaf m ids n es : chain m (ids ++ [n]) -> core <$> m !! n = Some (leaf_node es 0%nat) -> m !! n = Some (leaf_node es 0%nat).
Proof.
  intros C E. destruct (chain_leaf m _ (length ids) n C) as (x & Ex & Nx); [by apply list_lookup_middle|].
  rewrite Ex in *. simpl in E. injection E as E1 E2 E3. rewrite lookup_app_r in Nx by lia.
  replace (S (length ids) - length ids)%nat with 1%nat in Nx by lia. simpl in Nx. destruct x; simpl in *. unfold leaf_node. by subst.
Qed.

Lemma ensured_link m mt m' nds l1 p x : heap_ok m mt -> new_node m mt m' (leaf_node [] 0%nat) -> levels m mt 1 nds l1 ->
  chain m l1.*1 -> NoDup l1.*1 -> list.last l1.*1 = Some p -> m' !! p = Some (NodeLeaf x) -> first mt = Some (default 0%nat (head l1.*1)) ->
  mn_magic mt = Some SIMPLETREE_MAGIC ->
  leaf_ready (<[p := NodeLeaf (set_next (num_nodes mt) x)]> m') (set_num_nodes (S (num_nodes mt)) mt) (num_nodes mt) nds l1 [].
Proof.
  intros Hh [Hh' E K] Lv C ND El Ex Ef Em. pose proof leaf_wide. set (o := num_nodes mt) in *.
  assert (forall a, a ∈ l1.*1 -> (0 < a < o)%nat) as Bl by (intros a Ha; by eapply chain_below).
  assert (p ∈ l1.*1) as Hp by (apply last_Some_elem_of; done). pose proof (Bl p Hp).
  assert (<[p := NodeLeaf (set_next o x)]> m' !! o = Some (leaf_node [] 0%nat)) as Eo by (rewrite list_lookup_insert_ne by lia; done).
  split; [done|simpl; lia|by apply heap_insert; simpl; [|lia]| | | | |done].
  - eapply core_levels; [by apply relink|done|done|]. eapply keeps_levels; [exact Hh|done|done| |done]. simpl. lia.
  - eapply (chain_snoc m); [done|done|by rewrite Eo| |].
    + intros a Ha Na. rewrite list_lookup_insert_ne by congruence. pose proof (Bl a Ha). apply list_elem_of_lookup in Ha as [i Hi].
      destruct (chain_leaf _ _ _ _ C Hi) as (y & Ey & _). rewrite Ey, (K a (NodeLeaf y)); [done|lia|done|done].
    + intros a Ea. assert (a = p) as -> by congruence. rewrite list_lookup_insert_eq by (by eapply lookup_lt_Some). done.
  - apply list.NoDup_app. split_and!; [done| |apply NoDup_singleton]. intros a Ha ->%list_elem_of_singleton. specialize (Bl _ Ha). lia.
  - cbn [first set_num_nodes]. rewrite Ef. by destruct l1.
Qed.
Lemma ensured_first m mt m' nds : heap_ok m mt -> new_node m mt m' (leaf_node [] 0%nat) -> levels m mt 1 nds [] ->
  mn_magic mt = Some SIMPLETREE_MAGIC ->
  let mt' := set_first (Some (num_nodes mt)) (set_num_nodes (S (num_nodes mt)) mt) in
  leaf_ready (<[0%nat := NodeMeta mt']> m') mt' (num_nodes mt) nds [] [].
Proof.
  intros Hh [Hh' E K] Lv Em. pose proof leaf_wide. set (o := num_nodes mt) in *. pose proof (ho_used _ _ Hh).
  assert (forall x, <[0%nat := x]> m' !! o = Some (leaf_node [] 0%nat)) as Eo by (intros x; rewrite list_lookup_insert_ne by lia; done).
  split; [done|simpl; lia|by eapply heap_meta| | |apply NoDup_singleton|done|done].
  - eapply keeps_levels; [exact Hh'|apply keeps_meta|done|done|]. eapply keeps_levels; [exact Hh|done|done| |done]. simpl. lia.
  - intros [|i] a; [|done]. intros [= <-]. by rewrite Eo.
Qed.

Lemma wp_ensure_leaf st es mt n nds l1 l2 (Q : unit -> SimpleTree -> Prop) :
  building st es mt n nds l1 l2 -> Z.of_nat (num_nodes mt) < 2 ^ 30 ->
  (forall m' mt' n' es0, leaf_ready m' mt' n' nds l1 es0 -> entries l1 ++ es0 = es -> (num_nodes mt' <= S (num_nodes mt))%nat ->
    Q tt {| nodes := n' :: nds; prev := prev st; mem := m' |}) ->
  wp (when (n =? 0)%nat
        (o <- create_leaf_node;;
         set_level 0%nat o;;
         p <- gets prev;;
         if negb (p =? 0)%nat then x <- the_leaf p;; upd_node p (NodeLeaf (set_next o x))
         else upd_meta (set_first (Some o)))) Q st.
Proof.
  destruct st as [nl pv m]. intros [En Hh Lv O Ee C ND Ep Ef Em Bn] B HQ. cbn [nodes mem prev] in *. subst nl. apply wp_when.
  - intros ->%Nat.eqb_eq. destruct O as [(_ & _ & ->)|[? _]]; [|done]. rewrite app_nil_r in *. wp_step.
    eapply wp_create_leaf; [exact Hh|done|]. cbn [mem]. intros m' Cr. st_simpl. wp_step. apply wp_set_level; [simpl; lia|]. st_simpl.
    cbn [insert list_insert]. wp_step. wp_step. cbn [prev]. specialize (Ep eq_refl).
    destruct (list.last l1.*1) as [p|] eqn:El; simpl in Ep; subst pv.
    + assert (p ∈ l1.*1) as Hp by (by apply last_Some_elem_of). pose proof (chain_below _ _ _ _ Hh C Hp).
      destruct (Nat.eqb_spec p 0) as [|_]; [lia|]. cbn [negb]. apply list_elem_of_lookup in Hp as [i Hi].
      destruct (chain_leaf _ _ _ _ C Hi) as (x & Ex & _). assert (m' !! p = Some (NodeLeaf x)) as Ex' by (apply (cr_keeps _ _ _ _ Cr); [lia|done|done]).
      wp_step. eapply wp_the_leaf; [exact Ex'|]. apply wp_upd_node; [by eapply lookup_lt_Some|]. st_simpl.
      eapply HQ; [by eapply (ensured_link m)|by rewrite app_nil_r|done].
    + cbn [Nat.eqb negb]. apply last_None in El. apply fmap_nil_inv in El. subst l1.
      eapply wp_upd_meta; [exact (ho_meta _ _ (cr_heap _ _ _ _ Cr))|]. st_simpl.
      eapply HQ; [by apply (ensured_first m)|done|done].
  - intros N%Nat.eqb_neq. destruct (open_leaf _ _ _ O N) as (es0 & -> & L & E). rewrite fmap_app in *. cbn [fmap list_fmap fst] in *.
    apply (HQ m mt n es0); [|rewrite entries_app in Ee; unfold entries in Ee at 2; simpl in Ee; rewrite app_nil_r in Ee; exact Ee|lia].
    split; [by eapply chain_last_leaf|lia|done..].
Qed.

Lemma leaf_snoc es key v : (length es < SIMPLETREE_LEAF_M)%nat ->
  NodeLeaf {| ln_count := S (length es); next := 0%nat; ln_keys := <[length es := Some key]> (filled SIMPLETREE_LEAF_M es.*1);
              ln_values := <[length es := Some v]> (filled SIMPLETREE_LEAF_M es.*2) |} = leaf_node (es ++ [(key, v)]) 0%nat.
Proof.
  intros L. unfold leaf_node. rewrite !fmap_app, length_app. simpl. do 2 f_equal.
  - lia.
  - rewrite <- (length_fmap fst es). apply filled_snoc. rewrite length_fmap. lia.
  - rewrite <- (length_fmap snd es). apply filled_snoc. rewrite length_fmap. lia.
Qed.

(** An entry is stored; the other nodes and the links stay. *)
Lemma leaf_fill m mt n nds l1 es es' : leaf_ready m mt n nds l1 es ->
  let m' := <[n := leaf_node es' 0%nat]> m in
  heap_ok m' mt /\ levels m' mt 1 nds l1 /\ chain m' (l1.*1 ++ [n]) /\ core <$> m' !! n = Some (leaf_node es' 0%nat).
Proof.
  intros [E Lr Hh Lv C ND Ef Em] m'. assert (0 < n < num_nodes mt)%nat as Bn by (eapply chain_below; [done|done|by apply elem_of_app; right; constructor]).
  pose proof (lookup_lt_Some _ _ _ E) as Ln. split_and!.
  - by apply heap_insert.
  - destruct Lv as [L S D B Ht]. split; [done| |done|done|done]. eapply spine_same; [| |done].
    + eapply grows_insert; [exact E|]. rewrite leaf_closed. lia.
    + intros x [i Hi]%list_elem_of_lookup Nx. destruct (spine_lookup _ _ _ _ _ _ S Hi Nx) as (c & l & _ & T).
      destruct (tree_lookup _ _ _ _ _ _ T) as (y & Ey & Cy). simpl in Cy. unfold m'. rewrite list_lookup_insert_ne; [done|].
      intros ->. rewrite E in Ey. injection Ey as <-. done.
  - eapply chain_same; [|exact C]. intros a _. unfold m'. destruct (decide (a = n)) as [->|N]; [|by rewrite list_lookup_insert_ne].
    rewrite list_lookup_insert_eq by done. by rewrite E.
  - unfold m'. by rewrite list_lookup_insert_eq.
Qed.

Definition under (es : list entry) : Prop := (length es < capacity)%nat /\ 16 * Z.of_nat (length es) + 2 < 2 ^ 30.

Lemma entries_leaf n es : entries [(n, es)] = es.
Proof. unfold entries. simpl. by rewrite app_nil_r. Qed.

Lemma wp_insert_leaf st es mt n nds l1 l2 key v (Q : unit -> SimpleTree -> Prop) :
  building st es mt n nds l1 l2 -> under (es ++ [(key, v)]) ->
  (forall st' mt' n' nds' l1' l2', building st' (es ++ [(key, v)]) mt' n' nds' l1' l2' -> Q tt st') ->
  wp (simpletree_insert_leaf key v) Q st.
Proof.
  intros Bd [Cap Bz] HQ. pose proof (bd_num _ _ _ _ _ _ _ Bd) as Bn. rewrite length_app in Cap, Bz. simpl in Cap, Bz.
  unfold simpletree_insert_leaf. wp_step. apply (wp_level_node _ n); [by rewrite (bd_nodes _ _ _ _ _ _ _ Bd)|]. wp_step.
  eapply wp_ensure_leaf; [exact Bd|lia|]. intros m1 mt1 n1 es0 R <- L1. pose proof (leaf_fill _ _ _ _ _ _ (es0 ++ [(key, v)]) R) as (Hh & Lv & C & E).
  destruct R as [En Lr Hh1 _ _ ND Ef Em]. rewrite length_app in *. assert (0 < n1 < num_nodes mt1)%nat as Bn1 by (eapply chain_below; [exact Hh|exact C|by apply elem_of_app; right; constructor]).
  wp_step. apply (wp_level_node _ n1); [done|]. wp_step. eapply wp_the_leaf; [exact En|]. cbn [ln_count ln_keys ln_values next].
  wp_step. apply wp_put_at; [rewrite length_filled by (rewrite length_fmap; lia); lia|]. wp_step. apply wp_put_at; [rewrite length_filled by (rewrite length_fmap; lia); lia|].
  wp_step. apply wp_upd_node; [by eapply lookup_lt_Some|]. st_simpl. rewrite leaf_snoc by done. set (m2 := <[n1 := _]> m1) in *.
  rewrite <- app_assoc in HQ. set (es' := es0 ++ [(key, v)]) in *. assert (length es' = S (length es0)) as Le by (unfold es'; rewrite length_app; simpl; lia).
  apply wp_when.
  - intros Efull%Nat.eqb_eq. wp_step.
    eapply (wp_insert_inner 16 0 [n1] n1 nds l1 [(n1, es')]); cbn [nodes mem prev]; [lia|lia|done|done|done|exact Hh|exact Lv|lia| | | |].
    + exists es'. split_and!; [done|simpl; lia|done|done].
    + unfold last_key. rewrite entries_leaf. unfold es'. by rewrite last_snoc.
    + rewrite entries_app, entries_leaf, length_app. lia.
    + intros m3 mt3 nds3 top3 Lv3 Mv3 L3 E3 H3. wp_step. apply (wp_level_node _ n1); [done|]. wp_step. wp_step. apply wp_set_level; [simpl; lia|]. st_simpl.
      cbn [insert list_insert]. destruct (mv_meta _ _ _ _ Mv3) as (num & top & Emt & _).
      assert ((l1 ++ [(n1, es')]).*1 = l1.*1 ++ [n1]) as Ei by by rewrite fmap_app. eapply (HQ _ mt3 0%nat nds3 (l1 ++ [(n1, es')]) []).
      split; cbn [nodes mem prev]; rewrite ?app_nil_r, ?Ei; [done|exact (mv_heap _ _ _ _ Mv3)|done|by left| |by eapply chain_moved|done| | | |].
      * by rewrite entries_app, entries_leaf.
      * intros _. by rewrite last_snoc.
      * rewrite Emt. done.
      * rewrite Emt. done.
      * rewrite length_app. simpl in *. lia.
  - intros Nf%Nat.eqb_neq. assert ((l1 ++ [(n1, es')]).*1 = l1.*1 ++ [n1]) as Ei by by rewrite fmap_app.
    eapply (HQ _ mt1 n1 nds l1 [(n1, es')]). split; cbn [nodes mem prev]; rewrite ?Ei; try done.
    + right. split; [lia|]. exists (length es'). split; [simpl; lia|]. by exists es'.
    + by rewrite entries_app, entries_leaf.
    + lia.
    + rewrite length_app. simpl in *. lia.
Qed.
End Insert.
