(* ===== verification/SimpleTreeFind.v ===== *)
(** * The index tree: the finished tree, search and iteration *)

From Stdlib Require Import ZArith Lia.
From stdpp Require Import base list numbers sorting.
From S2P Require Import Prelude SimpleTree SimpleTreeBuild.

Open Scope Z_scope.
Open Scope se_scope.

Section Finish.
Context `{Shape, !Wide}.
Implicit Types (st : SimpleTree) (mt : SimpleTreeMetaNode) (m : list node) (os nds : list node_t) (ls : list leaf).

(** ** From the empty tree *)

Lemma spine_zeros m n : forall k, spine m k (replicate n 0%nat) [].
Proof. induction n as [|n IH]; intros k; [done|]. exists [], []. split_and!; [done|apply IH|by left]. Qed.

Lemma wp_init st (Q : unit -> SimpleTree -> Prop) :
  (forall st' mt n nds l1 l2, building st' [] mt n nds l1 l2 -> Q tt st') -> wp simpletree_init Q st.
Proof.
  intros HQ. eapply wp_eq; [reflexivity|]. apply (HQ _ {| root := None; first := Some 0%nat; maxLevel := Some 0%nat; mn_magic := Some SIMPLETREE_MAGIC;
    num_nodes := 1; user_size := None; mn_user := [] |} 0%nat (replicate 15 0%nat) [] []). split; try done.
  - split; [done|by exists 0%nat|simpl; lia|simpl; lia|simpl; lia].
  - split; [done|apply (spine_zeros _ 15)| | |].
    + intros i j x [Ei _]%lookup_replicate_1. by subst.
    + apply Forall_replicate. simpl. lia.
    + exists 0%nat. split_and!; [done| |done]. split; [|left; lia]. intros i x [Ei _]%lookup_replicate_1. by subst.
  - by left.
  - constructor.
Qed.

Definition in_48 (es : list entry) : Prop := Forall (fun e => 0 <= e.1 < 2 ^ 48) es.
Lemma under_app es1 es2 : under (es1 ++ es2) -> under es1.
Proof. unfold under. rewrite length_app. lia. Qed.

Lemma wp_insert_all l : forall st es mt n nds l1 l2 (Q : unit -> SimpleTree -> Prop),
  building st es mt n nds l1 l2 -> in_48 l -> under (es ++ l) ->
  (forall st' mt' n' nds' l1' l2', building st' (es ++ l) mt' n' nds' l1' l2' -> Q tt st') ->
  wp (simpletree_insert_all l) Q st.
Proof.
  induction l as [|[key v] l IH]; intros st es mt n nds l1 l2 Q Bd B48 U HQ.
  - rewrite app_nil_r in HQ. wp_step. by eapply HQ.
  - apply Forall_cons in B48 as [Hk B48]. simpl in Hk. cbn [simpletree_insert_all]. wp_step. unfold simpletree_insert.
    replace (internal_key key) with key by (unfold internal_key; rewrite Z.mod_small; lia).
    replace (es ++ (key, v) :: l) with ((es ++ [(key, v)]) ++ l) in * by by rewrite <- app_assoc.
    eapply wp_insert_leaf; [exact Bd|by eapply under_app|]. intros st' mt' n' nds' l1' l2' Bd'. by eapply IH.
Qed.

(** ** The finished tree

    The nodes [os] are not full: the first is the root, each other one the child
    behind the last key of the one before. *)

Fixpoint otree m b os ls : Prop :=
  match os with
  | [] => ls = []
  | n :: os =>
      exists k c l1 l2, ls = l1 ++ l2 /\ (k < b)%nat /\ n <> 0%nat /\ (0 < c < width k)%nat /\
        tree m k c n (hd 0%nat os) l1 /\ otree m k os l2
  end.

Lemma otree_weaken m b b' os ls : (b <= b')%nat -> otree m b os ls -> otree m b' os ls.
Proof. destruct os as [|n os]; [done|]. intros L (k & c & l1 & l2 & -> & Lk & R). exists k, c, l1, l2. split_and!; [done|lia|apply R..]. Qed.
Lemma otree_same m m' : grows m m' -> forall os b ls, (forall n, n ∈ os -> core <$> m' !! n = core <$> m !! n) -> otree m b os ls -> otree m' b os ls.
Proof.
  intros G. induction os as [|n os IH]; intros b ls E; [done|]. intros (k & c & l1 & l2 & -> & Lk & N & Lc & T & O).
  exists k, c, l1, l2. split_and!; [done|done|done|lia|lia| |].
  - eapply tree_same; [done|apply E; by left|done].
  - apply IH; [|done]. intros x Hx. apply E. by right.
Qed.

(** The levels from [k] on before the node of level [k] is tied up: the first of
    them that has a node has got the child [hd 0 os]. *)
Fixpoint tied m k nds os ls : Prop :=
  match nds with
  | [] => otree m k os ls
  | n :: nds =>
      (n = 0%nat /\ tied m (S k) nds os ls) \/
      (n <> 0%nat /\ exists l1 l2 l3 c, ls = l1 ++ l2 ++ l3 /\ spine m (S k) nds l1 /\ (0 < c < width k)%nat /\
        tree m k c n (hd 0%nat os) l2 /\ otree m k os l3)
  end.

Lemma spine_tied m nds : forall k ls, spine m k nds ls -> tied m k nds [] ls.
Proof.
  induction nds as [|n nds IH]; intros k ls; [done|]. intros (l1 & l2 & -> & S & [(-> & _ & ->)|(N & c & L & T)]).
  - left. split; [done|]. rewrite app_nil_r. by apply IH.
  - right. split; [done|]. exists l1, l2, [], c. rewrite app_nil_r. split_and!; [done|done|lia|lia|done|done].
Qed.
Lemma spine_all_zero m nds : forall k ls, (forall i x, nds !! i = Some x -> x = 0%nat) -> spine m k nds ls -> ls = [].
Proof.
  induction nds as [|n nds IH]; intros k ls Z; [done|]. intros (l1 & l2 & -> & S & O).
  rewrite (IH (Datatypes.S k) l1); [|by intros i x Hx; apply (Z (Datatypes.S i) x)|done].
  destruct O as [(_ & _ & ->)|[N _]]; [done|]. by destruct N; apply (Z 0%nat).
Qed.
Lemma tied_root m k n nds os ls : (forall i x, nds !! i = Some x -> x = 0%nat) -> tied m k (n :: nds) os ls -> n <> 0%nat ->
  otree m (S k) (n :: os) ls.
Proof.
  intros Z [[? _]|(N & l1 & l2 & l3 & c & -> & S & L & T & O)] N2; [done|]. rewrite (spine_all_zero _ _ _ _ Z S).
  exists k, c, l2, l3. split_and!; [done|lia|done|lia|lia|done|done].
Qed.
Lemma tied_empty m nds : forall k os ls, (forall i x, nds !! i = Some x -> x = 0%nat) -> tied m k nds os ls -> otree m (k + length nds) os ls.
Proof.
  induction nds as [|n nds IH]; intros k os ls Z; [simpl; by rewrite Nat.add_0_r|]. intros [[_ T]|[N _]].
  - simpl. rewrite <- Nat.add_succ_comm. apply IH; [|done]. intros i x Hx. by apply (Z (S i) x).
  - destruct N. by apply (Z 0%nat).
Qed.

(** A node of a level gets another child behind its last key. *)
Lemma tree_adopt m k c n e e' ls : tree m (S k) c n e ls -> (c < SIMPLETREE_INNER_M)%nat ->
  exists ks, length ks = c /\ m !! n = Some (inner_node ks e) /\ tree (<[n := inner_node ks e']> m) (S k) c n e' ls.
Proof.
  intros (ks & <- & E & -> & F) L. exists ks. split; [done|]. assert (m !! n = Some (inner_node ks e)) as En.
  { unfold inner_node in *. destruct (m !! n) as [[]|]; simpl in E; congruence. }
  split; [done|]. exists ks. split_and!; [done| |done|].
  - by rewrite list_lookup_insert_eq by (by eapply lookup_lt_Some).
  - eapply Forall_impl; [exact F|]. intros d [T K]. split; [|done]. eapply tree_grows; [|exact T].
    eapply grows_insert; [exact En|]. simpl. lia.
Qed.

Lemma moved_insert m mt n ks e top : heap_ok m mt -> m !! n = Some (inner_node ks e) -> (length ks < SIMPLETREE_INNER_M)%nat ->
  maxLevel mt = Some top -> forall x, moved m mt (<[n := x]> m) mt.
Proof.
  intros Hh E L Et x. assert (n < num_nodes mt)%nat by (by eapply fresh_below). split.
  - apply heap_insert; [done|]. split; [|done]. destruct n; [|lia]. rewrite (ho_meta _ _ Hh) in E. done.
  - eapply grows_insert; [exact E|]. simpl. lia.
  - intros i l Ei. rewrite list_lookup_insert_ne; [done|]. intros ->. rewrite E in Ei. done.
  - exists (num_nodes mt), top. split; [|done]. rewrite <- Et. by destruct mt.
Qed.

Lemma wp_adopt n os top : forall nds k j lo st mt l1 l2 (Q : unit -> SimpleTree -> Prop),
  nodes st = lo ++ nds -> length lo = S j -> heap_ok (mem st) mt -> maxLevel mt = Some top -> distinct nds ->
  spine (mem st) (S j) nds l1 -> otree (mem st) (S j) (n :: os) l2 -> (forall x, x ∈ n :: os -> x ∉ nds) ->
  (exists i x, (i < k)%nat /\ nds !! i = Some x /\ x <> 0%nat) ->
  (forall m', moved (mem st) mt m' mt -> tied m' (S j) nds (n :: os) (l1 ++ l2) -> Q tt (set_mem m' st)) ->
  wp (adopt n (S j) k) Q st.
Proof.
  induction nds as [|p nds IH]; intros k j lo st mt l1 l2 Q En Ll Hh Et D Sp O Dj (i & x & Li & Ex & Nx) HQ; [done|].
  destruct k as [|k]; [lia|]. cbn [adopt]. wp_step. apply (wp_level_node _ p); [rewrite En, <- Ll; by apply list_lookup_middle|].
  destruct Sp as (l3 & l4 & -> & Sp & Op). destruct (Nat.eqb_spec p 0) as [->|Np]; cbn [negb].
  - destruct Op as [(_ & _ & ->)|[? _]]; [|done]. rewrite app_nil_r in *. eapply (IH k (S j) (lo ++ [0%nat])); [by rewrite <- app_assoc| |exact Hh|exact Et| | | | | |].
    + rewrite length_app. simpl. lia.
    + by eapply distinct_tail.
    + exact Sp.
    + eapply otree_weaken; [|exact O]. lia.
    + intros y Hy Hn. apply (Dj y Hy). by right.
    + destruct i as [|i]; [by simplify_eq/=|]. exists i, x. split_and!; [lia|done|done].
    + intros m' Mv T. apply HQ; [done|]. by left.
  - destruct Op as [[? _]|(_ & c & Lc & T)]; [done|]. destruct (tree_adopt _ _ _ _ _ n _ T) as (ks & Lks & Ep & T'); [simpl in Lc; lia|].
    wp_step. eapply wp_the_inner; [exact Ep|]. cbn [in_count in_keys children]. wp_step.
    apply wp_put_at; [rewrite length_padded by (rewrite length_app, length_fmap; simpl in *; lia); simpl in *; lia|].
    apply wp_upd_node; [by eapply lookup_lt_Some|].
    rewrite <- (length_fmap k_node ks) at 2. rewrite padded_set by (rewrite length_fmap; simpl in *; lia).
    pose proof (moved_insert _ _ _ _ _ top Hh Ep ltac:(simpl in *; lia) Et (inner_node ks n)) as Mv.
    apply HQ; [exact Mv|]. right. split; [done|]. exists l3, l4, l2, c. rewrite app_assoc. split_and!; [done| |lia|lia|done|].
    + eapply spine_same; [exact (mv_grows _ _ _ _ Mv)| |exact Sp]. intros y Hy Ny. pose proof (distinct_head _ _ _ D Np Hy).
      by rewrite list_lookup_insert_ne by done.
    + eapply otree_same; [exact (mv_grows _ _ _ _ Mv)| |exact O]. intros y Hy. rewrite list_lookup_insert_ne; [done|].
      intros ->. apply (Dj _ Hy). by left.
Qed.

Lemma tree_moved_refl m mt top : heap_ok m mt -> maxLevel mt = Some top -> moved m mt m mt.
Proof. intros Hh Et. split; [done|apply grows_refl|done|]. exists (num_nodes mt), top. split; [|done]. rewrite <- Et. by destruct mt. Qed.

Lemma wp_tie_up top k : forall i lo nds os st mt ls r (Q : unit -> SimpleTree -> Prop),
  nodes st = lo ++ nds -> length lo = i -> (i + k = top)%nat -> length (nodes st) = 16%nat -> heap_ok (mem st) mt -> maxLevel mt = Some top ->
  distinct nds -> tied (mem st) i nds os ls -> (forall x, x ∈ os -> x ∉ nds) ->
  nds !! k = Some r -> (r <> 0%nat \/ k = 0%nat /\ os = []) -> (forall j x, (k < j)%nat -> nds !! j = Some x -> x = 0%nat) ->
  (forall m' os', moved (mem st) mt m' mt -> otree m' 16 os' ls -> hd 0%nat os' = r -> Q tt (set_mem m' st)) ->
  wp (tie_up i k) Q st.
Proof.
  induction k as [|k IH]; intros i lo nds os st mt ls r Q En Ll Ei L16 Hh Et D T Dj Er Hr Z HQ.
  - destruct nds as [|n nds]; [done|]. injection Er as ->. cbn [tie_up]. wp_step. rewrite En, length_app in L16. simpl in L16.
    assert (forall j x, nds !! j = Some x -> x = 0%nat) as Z' by (intros j x Hx; apply (Z (S j) x); [lia|done]).
    destruct st as [nl pv m]. cbn [mem] in *. destruct (decide (r = 0%nat)) as [->|Nr].
    + destruct Hr as [|[_ ->]]; [done|]. apply (HQ m []); [by eapply tree_moved_refl| |done]. eapply (otree_weaken _ _ 16); [|apply (tied_empty m (0%nat :: nds) i); [|exact T]].
      * simpl. lia.
      * intros [|j] x; simpl; [congruence|apply Z'].
    + apply (HQ m (r :: os)); [by eapply tree_moved_refl| |done]. eapply (otree_weaken _ (S i) 16); [lia|]. by eapply tied_root.
  - destruct nds as [|n nds]; [done|]. simpl in Er. destruct Hr as [Nr|[? _]]; [|done]. cbn [tie_up]. wp_step.
    apply (wp_level_node _ n); [rewrite En, <- Ll; by apply list_lookup_middle|].
    assert (forall j x, (k < j)%nat -> nds !! j = Some x -> x = 0%nat) as Z' by (intros j x Lj Hx; apply (Z (S j) x); [lia|done]).
    assert (nodes st = (lo ++ [n]) ++ nds) as En' by by rewrite <- app_assoc. wp_step. apply wp_when.
    + intros Nn%negb_true_iff%Nat.eqb_neq. destruct T as [[? _]|(_ & l1 & l2 & l3 & c & -> & Sp & Lc & T & O)]; [done|].
      eapply (wp_adopt n os top nds (S k) i (lo ++ [n]) st mt l1 (l2 ++ l3)); [done|rewrite length_app; simpl; lia|exact Hh|exact Et|by eapply distinct_tail|exact Sp| | | |].
      * exists i, c, l2, l3. split_and!; [done|lia|done|lia|lia|done|done].
      * intros x [->|Hx]%elem_of_cons Hn; [by pose proof (distinct_head _ _ _ D Nn Hn)|]. apply (Dj x Hx). by right.
      * exists k, r. split_and!; [lia|done|done].
      * intros m' Mv T'. eapply (IH (S i) (lo ++ [n]) nds (n :: os)); [done|rewrite length_app; simpl; lia|lia|done|exact (mv_heap _ _ _ _ Mv)|exact Et|by eapply distinct_tail|exact T'| |exact Er|by left|done|].
        -- intros x [->|Hx]%elem_of_cons Hn; [by pose proof (distinct_head _ _ _ D Nn Hn)|]. apply (Dj x Hx). by right.
        -- intros m2 os2 Mv2 O2 H2. apply (HQ m2 os2); [by eapply tree_moved_trans|done|done].
    + intros ->%negb_false_iff%Nat.eqb_eq. destruct T as [[_ T]|[? _]]; [|done].
      eapply (IH (S i) (lo ++ [0%nat]) nds os); [done|rewrite length_app; simpl; lia|lia|done|exact Hh|exact Et|by eapply distinct_tail|exact T| |exact Er|by left|done|done].
      intros x Hx Hn. apply (Dj x Hx). by right.
Qed.

(** The finished tree; the meta node may get user data afterwards. *)
Record finished m (ls : list leaf) : Prop := {
  fi_root : exists os mt, m !! 0%nat = Some (NodeMeta mt) /\ mn_magic mt = Some SIMPLETREE_MAGIC /\
    root mt = Some (hd 0%nat os) /\ first mt = Some (default 0%nat (head ls.*1)) /\ otree m 16 os ls;
  fi_chain : chain m ls.*1
}.

Lemma building_distinct st es mt n nds l1 l2 : building st es mt n nds l1 l2 -> distinct (n :: nds).
Proof.
  intros [_ _ [L S D B _] O _ _ _ _ _ _ _]. destruct (decide (n = 0%nat)) as [->|Nn]; [by apply distinct_zero|].
  intros [|i] [|j] x; simpl; [done| | |intros E E' N; f_equal; by eapply D].
  all: intros E1 E2 N; exfalso; simplify_eq; destruct (open_leaf _ _ _ O Nn) as (es0 & _ & _ & Ec).
  - destruct (spine_lookup _ _ _ _ _ _ S E2 N) as (c & l & _ & T). destruct (tree_lookup _ _ _ _ _ _ T) as (y & Ey & Cy).
    rewrite Ey in Ec. simpl in Cy. by destruct y.
  - destruct (spine_lookup _ _ _ _ _ _ S E1 N) as (c & l & _ & T). destruct (tree_lookup _ _ _ _ _ _ T) as (y & Ey & Cy).
    rewrite Ey in Ec. simpl in Cy. by destruct y.
Qed.

Lemma otree_keeps m m' mt : heap_ok m mt -> keeps m m' -> forall os b ls, otree m b os ls -> otree m' b os ls.
Proof.
  intros Hh K. induction os as [|n os IH]; intros b ls; [done|]. intros (k & c & l1 & l2 & -> & Lk & N & Lc & T & O).
  exists k, c, l1, l2. split_and!; [done|done|done|lia|lia| |by apply IH]. eapply tree_same; [by eapply keeps_grows| |done].
  destruct (tree_lookup _ _ _ _ _ _ T) as (x & Ex & Cx). rewrite Ex, (K n x); [done..|]. intros ->. by destruct k.
Qed.
Lemma chain_keeps m m' mt ids : heap_ok m mt -> keeps m m' -> chain m ids -> chain m' ids.
Proof.
  intros Hh K C. eapply chain_same; [|done]. intros a Ha. pose proof (chain_below _ _ _ _ Hh C Ha). apply list_elem_of_lookup in Ha as [i Hi].
  destruct (chain_leaf _ _ _ _ C Hi) as (x & Ex & _). by rewrite Ex, (K a (NodeLeaf x)) by (done || lia).
Qed.
(** Changes of the meta node that leave the tree alone, and new nodes *)
Lemma finished_keeps m m' mt mt' ls : heap_ok m mt -> keeps m m' -> m' !! 0%nat = Some (NodeMeta mt') -> mn_magic mt' = mn_magic mt ->
  root mt' = root mt -> first mt' = first mt -> finished m ls -> finished m' ls.
Proof.
  intros Hh K E Em Er Ef [(os & mt0 & E0 & M0 & R0 & F0 & O) C]. rewrite (ho_meta _ _ Hh) in E0. injection E0 as <-.
  split; [|by eapply chain_keeps]. exists os, mt'. rewrite Em, Er, Ef. split_and!; [done..|by eapply otree_keeps].
Qed.

Lemma building_height st es mt n nds l1 l2 : building st es mt n nds l1 l2 ->
  exists top r, maxLevel mt = Some top /\ (n :: nds) !! top = Some r /\ (r <> 0%nat \/ top = 0%nat) /\
    (forall j x, (top < j)%nat -> (n :: nds) !! j = Some x -> x = 0%nat).
Proof.
  intros [_ _ [L _ _ _ (top & Et & [A E] & _)] _ _ _ _ _ _ _ _]. exists top.
  assert (forall j x, (top < j)%nat -> (n :: nds) !! j = Some x -> x = 0%nat) as Z.
  { intros [|j] x Lj; simpl; [lia|]. intros Ex. destruct (decide (x = 0%nat)); [done|]. specialize (A j x Ex). lia. }
  destruct (decide (top = 0%nat)) as [->|Nt]; [exists n; split_and!; [done|done|by right|done]|].
  destruct E as [|(x & Nx & Ex)]; [lia|]. exists x. split_and!; [done| |by left|done].
  destruct top as [|top]; [done|]. by rewrite Nat.sub_succ, Nat.sub_0_r in Ex.
Qed.

Lemma wp_finish st es mt n nds l1 l2 (Q : unit -> SimpleTree -> Prop) : building st es mt n nds l1 l2 ->
  (forall m' mt', finished m' (l1 ++ l2) -> heap_ok m' mt' -> num_nodes mt' = num_nodes mt -> Q tt (set_mem m' st)) ->
  wp simpletree_finish Q st.
Proof.
  intros Bd HQ. pose proof (building_distinct _ _ _ _ _ _ _ Bd) as D. destruct (building_height _ _ _ _ _ _ _ Bd) as (top & r & Et & Er & Hr & Z).
  destruct Bd as [En Hh Lv O Ee C ND Ep Ef Em Bn]. unfold simpletree_finish. wp_step. eapply wp_the_meta; [exact (ho_meta _ _ Hh)|].
  wp_step. apply (wp_stored _ SIMPLETREE_MAGIC); [done|]. wp_step. apply wp_bug_if; [by rewrite Z.eqb_refl|].
  wp_step. apply (wp_stored _ top); [done|]. wp_step.
  eapply (wp_tie_up top top 0 [] (n :: nds) []); [done|done|done| |exact Hh|done|done| | |exact Er| |exact Z|].
  - rewrite En. pose proof (lv_len _ _ _ _ _ Lv). simpl in *. lia.
  - apply spine_tied. exists l1, l2. split_and!; [done|exact (lv_spine _ _ _ _ _ Lv)|done].
  - by intros x ?%elem_of_nil.
  - destruct Hr; [by left|by right].
  - intros m' os' Mv Ot Ho. wp_step. apply (wp_level_node _ r); [unfold set_mem; simpl; by rewrite En|].
    eapply wp_upd_meta; [exact (ho_meta _ _ (mv_heap _ _ _ _ Mv))|]. unfold set_mem. cbn [mem nodes prev].
    pose proof (mv_heap _ _ _ _ Mv) as Hh'. eapply (HQ _ (set_root (Some r) mt)); [|by eapply heap_meta|done]. split.
    + exists os', (set_root (Some r) mt). split_and!; [|done|by rewrite Ho|done|eapply otree_keeps; [exact Hh'|apply keeps_meta|done]].
      apply list_lookup_insert_eq. pose proof (ho_used _ _ Hh'). lia.
    + eapply chain_keeps; [exact Hh'|apply keeps_meta|]. by eapply chain_moved.
Qed.
End Finish.

(** ** Binary search *)

Definition rank (ks : list Z) (needle : Z) (pos : nat) : Prop :=
  (pos <= length ks)%nat /\ (forall i a, ks !! i = Some a -> (i < pos)%nat -> a < needle) /\
  (forall i a, ks !! i = Some a -> (pos <= i)%nat -> needle <= a).
Definition ascending (ks : list Z) : Prop := forall i j a b, (i <= j)%nat -> ks !! i = Some a -> ks !! j = Some b -> a <= b.

Lemma wp_lower_bound_from w ks needle : ascending ks -> forall fuel f len st (Q : nat -> SimpleTree -> Prop),
  (len < fuel)%nat -> (f + len <= length ks)%nat -> (forall i a, ks !! i = Some a -> (i < f)%nat -> a < needle) ->
  (forall i a, ks !! i = Some a -> (f + len <= i)%nat -> needle <= a) ->
  (forall pos, rank ks needle pos -> Q pos st) -> wp (lower_bound_from fuel (filled w ks) f len needle) Q st.
Proof.
  intros A. induction fuel as [|fuel IH]; intros f len st Q Lf L Lo Hi HQ; [lia|]. cbn [lower_bound_from].
  destruct (Nat.eqb_spec len 0) as [->|N].
  - wp_step. apply HQ. split_and!; [lia|done|]. intros i a E Li. eapply Hi; [done|lia].
  - set (half := Nat.div2 len). assert (half < len)%nat by (apply Nat.lt_div2; lia).
    rewrite lookup_filled by lia. destruct (lookup_lt_is_Some_2 ks (f + half)) as [b Eb]; [lia|]. rewrite Eb. unfold less_than.
    destruct (Z.ltb_spec b needle) as [Lb|Lb].
    + apply IH; [lia|lia| |intros i a E Li; eapply Hi; [done|lia]|done]. intros i a E Li.
      assert (a <= b); [|lia]. eapply (A i (f + half)%nat); [lia|done|done].
    + apply IH; [lia|lia|done| |done]. intros i a E Li. assert (b <= a); [|lia]. eapply (A (f + half)%nat i); [lia|done|done].
Qed.
Lemma wp_lower_bound w ks needle st (Q : nat -> SimpleTree -> Prop) : ascending ks ->
  (forall pos, rank ks needle pos -> Q pos st) -> wp (lower_bound (filled w ks) (length ks) needle) Q st.
Proof.
  intros A HQ. apply wp_lower_bound_from; [done|lia|lia|intros; lia| |done]. intros i a E%lookup_lt_Some. lia.
Qed.

(** ** Search *)

(** The first entry that is not below [needle]: its leaf and its index there *)
Fixpoint seek (needle : Z) (ls : list leaf) : option SimpleTreeIterator :=
  match ls with
  | [] => None
  | (n, es) :: ls =>
      match list_find (fun e : entry => needle <= e.1) es with
      | Some (i, _) => Some {| it_index := i; it_node := n |}
      | None => seek needle ls
      end
  end.
Definition lower (needle : Z) (es : list entry) : Prop := Forall (fun e : entry => e.1 < needle) es.

Lemma seek_skip needle l1 l2 : lower needle (entries l1) -> seek needle (l1 ++ l2) = seek needle l2.
Proof.
  induction l1 as [|[n es] l1 IH]; [done|]. change (entries ((n, es) :: l1)) with (es ++ entries l1). intros [L1 L2]%Forall_app. simpl.
  replace (list_find (fun e : entry => needle <= e.1) es) with (@None (nat * entry)); [by apply IH|].
  symmetry. apply list_find_None. eapply Forall_impl; [exact L1|]. simpl. lia.
Qed.
Lemma seek_hit needle l1 l2 e : e ∈ entries l1 -> needle <= e.1 -> seek needle (l1 ++ l2) = seek needle l1.
Proof.
  intros He Le. induction l1 as [|[n es] l1 IH]; [by apply elem_of_nil in He|]. simpl.
  destruct (list_find (fun e : entry => needle <= e.1) es) as [[i x]|] eqn:E; [done|]. apply IH.
  change (entries ((n, es) :: l1)) with (es ++ entries l1) in He. apply elem_of_app in He as [He|He]; [|done].
  apply list_find_None in E. rewrite Forall_forall in E. by destruct (E e He).
Qed.
Lemma seek_leaf needle n es pos : rank es.*1 needle pos -> seek needle [(n, es)] =
  if decide (pos < length es)%nat then Some {| it_index := pos; it_node := n |} else None.
Proof.
  intros (L & Lo & Hi). simpl. rewrite length_fmap in L. destruct (decide (pos < length es)%nat) as [Lp|Lp].
  - destruct (lookup_lt_is_Some_2 es pos Lp) as [e Ee]. replace (list_find (fun e : entry => needle <= e.1) es) with (Some (pos, e)); [done|].
    symmetry. apply list_find_Some. split_and!; [done|eapply Hi; [by rewrite list_lookup_fmap, Ee|done]|].
    intros j x Ex Lj. assert (x.1 < needle); [|lia]. eapply Lo; [by rewrite list_lookup_fmap, Ex|done].
  - replace (list_find (fun e : entry => needle <= e.1) es) with (@None (nat * entry)); [done|]. symmetry. apply list_find_None, Forall_lookup.
    intros j x Ex. assert (x.1 < needle); [|lia]. eapply Lo; [by rewrite list_lookup_fmap, Ex|]. apply lookup_lt_Some in Ex. lia.
Qed.

(** Sorted entries *)
Definition sorted (es : list entry) : Prop := StronglySorted Z.le es.*1.
Lemma sorted_app es1 es2 : sorted (es1 ++ es2) -> sorted es1 /\ sorted es2 /\ (forall a b, a ∈ es1 -> b ∈ es2 -> a.1 <= b.1).
Proof.
  unfold sorted. rewrite fmap_app. intros S. apply StronglySorted_app in S as (S1 & S2 & S3). split_and!; [done|done|].
  intros a b Ha Hb. apply S1; by apply list_elem_of_fmap_2.
Qed.
Lemma sorted_ascending es : sorted es -> ascending es.*1.
Proof.
  intros S. unfold sorted in S. induction S as [|k ks S IH F]; [done|]. intros [|i] [|j] a b L E1 E2; simpl in *; simplify_eq; [lia| |lia|].
  - rewrite Forall_lookup in F. by apply (F j).
  - apply (IH i j); [lia|done|done].
Qed.
Lemma sorted_last ls key : sorted (entries ls) -> last_key ls = Some key -> forall e, e ∈ entries ls -> e.1 <= key.
Proof.
  unfold last_key. intros S E e He. destruct (list.last (entries ls)) as [x|] eqn:El; [|done]. simpl in E. injection E as <-.
  apply last_Some in El as [l' El]. rewrite El in *. apply elem_of_app in He as [He|He].
  - apply sorted_app in S as (_ & _ & S). apply S; [done|by constructor].
  - apply list_elem_of_singleton in He as ->. done.
Qed.
Lemma last_key_elem ls key : last_key ls = Some key -> exists e, e ∈ entries ls /\ e.1 = key.
Proof.
  unfold last_key. intros E. destruct (list.last (entries ls)) as [x|] eqn:El; [|done]. exists x. split; [by apply last_Some_elem_of|].
  by injection E.
Qed.

(** ** Children of an inner node *)

Definition keyed (ks : list kid) : Prop := Forall (fun d => last_key (k_leaves d) = Some (k_key d)) ks.
Definition leaves_of (ks : list kid) : list leaf := concat (k_leaves <$> ks).

Lemma leaves_of_app ks1 ks2 : leaves_of (ks1 ++ ks2) = leaves_of ks1 ++ leaves_of ks2.
Proof. unfold leaves_of. by rewrite fmap_app, concat_app. Qed.
Lemma key_elem ks d : keyed ks -> d ∈ ks -> exists e, e ∈ entries (leaves_of ks) /\ e.1 = k_key d.
Proof.
  intros K [i Hi]%list_elem_of_lookup. pose proof (Forall_lookup_1 _ _ _ _ K Hi) as Kd. apply take_drop_middle in Hi.
  destruct (last_key_elem _ _ Kd) as (e & He & Ek). exists e. split; [|done]. rewrite <- Hi, leaves_of_app, entries_app. apply elem_of_app. right.
  change (leaves_of (d :: drop (S i) ks)) with (k_leaves d ++ leaves_of (drop (S i) ks)). rewrite entries_app. apply elem_of_app. by left.
Qed.
Lemma keyed_ascending ks : keyed ks -> sorted (entries (leaves_of ks)) -> ascending (k_key <$> ks).
Proof.
  intros K. induction K as [|d ks Kd K IH]; [done|]. change (leaves_of (d :: ks)) with (k_leaves d ++ leaves_of ks). rewrite entries_app.
  intros (S1 & S2 & S3)%sorted_app. intros [|i] [|j] a b L E1 E2; simpl in *; simplify_eq; [lia| |lia|by eapply (IH S2 i j); [lia| |]].
  rewrite list_lookup_fmap in E2. destruct (ks !! j) as [d'|] eqn:Ej; [|done]. simpl in E2. injection E2 as <-.
  destruct (last_key_elem _ _ Kd) as (x & Hx & <-). destruct (key_elem ks d' K) as (y & Hy & <-); [by eapply list_elem_of_lookup_2|]. by apply S3.
Qed.
Lemma keyed_lower needle ks : keyed ks -> sorted (entries (leaves_of ks)) -> (forall i a, (k_key <$> ks) !! i = Some a -> a < needle) ->
  lower needle (entries (leaves_of ks)).
Proof.
  intros K. induction K as [|d ks Kd K IH]; [by constructor|]. change (leaves_of (d :: ks)) with (k_leaves d ++ leaves_of ks). rewrite entries_app.
  intros (S1 & S2 & _)%sorted_app Lo. apply Forall_app. split; [|apply IH; [done|intros i a E; by apply (Lo (S i))]].
  apply Forall_forall. intros e He. pose proof (sorted_last _ _ S1 Kd e He). specialize (Lo 0%nat _ eq_refl). lia.
Qed.
Lemma keyed_seek needle ks pos l2 : keyed ks -> sorted (entries (leaves_of ks)) -> rank (k_key <$> ks) needle pos -> (pos < length ks)%nat ->
  exists d, ks !! pos = Some d /\ needle <= k_key d /\ seek needle (leaves_of ks ++ l2) = seek needle (k_leaves d) /\ sorted (entries (k_leaves d)).
Proof.
  intros K S (_ & Lo & Hi) L. destruct (lookup_lt_is_Some_2 ks pos L) as [d Ed]. exists d. split; [done|].
  assert (needle <= k_key d) as Ld by (eapply Hi; [by rewrite list_lookup_fmap, Ed|done]). split; [done|].
  pose proof (Forall_lookup_1 _ _ _ _ K Ed) as Kd. pose proof (take_drop_middle _ _ _ Ed) as Eks. rewrite <- Eks in K, S |- *.
  rewrite leaves_of_app in S |- *. change (leaves_of (d :: drop (Datatypes.S pos) ks)) with (k_leaves d ++ leaves_of (drop (Datatypes.S pos) ks)) in S |- *.
  rewrite !entries_app in S. apply sorted_app in S as (S1 & S2 & _). apply sorted_app in S2 as (S2 & _). split; [|done].
  apply Forall_app in K as [K _]. rewrite <- !app_assoc. rewrite seek_skip.
  - destruct (last_key_elem _ _ Kd) as (e & He & Ek). eapply seek_hit; [exact He|lia].
  - apply keyed_lower; [done|done|]. intros i a E. rewrite fmap_take in E. apply lookup_take_Some in E as [E Li]. by eapply Lo.
Qed.

Section Find.
Context `{Shape, !Wide}.
Implicit Types (st : SimpleTree) (m : list node) (n : node_t) (os : list node_t) (ls : list leaf).

Lemma core_leaf m n es : core <$> m !! n = Some (leaf_node es 0%nat) -> exists nx, m !! n = Some (leaf_node es nx).
Proof.
  intros E. destruct (m !! n) as [[| | |x|]|]; try done. simpl in E. injection E as E1 E2 E3. exists (next x).
  destruct x; simpl in *. unfold leaf_node. by subst.
Qed.
Lemma core_inner m n ks e : core <$> m !! n = Some (inner_node ks e) -> m !! n = Some (inner_node ks e).
Proof. intros E. unfold inner_node in *. destruct (m !! n) as [[]|]; simpl in E; congruence. Qed.

Lemma wp_find_leaf fuel n es (needle : Z) st (Q : option SimpleTreeIterator -> SimpleTree -> Prop) :
  n <> 0%nat -> core <$> mem st !! n = Some (leaf_node es 0%nat) -> sorted es ->
  (length es < SIMPLETREE_LEAF_M \/ (length es <= SIMPLETREE_LEAF_M /\ exists e, e ∈ es /\ (needle <= e.1)%Z))%nat ->
  Q (seek needle [(n, es)]) st -> wp (find_from (S fuel) n needle) Q st.
Proof.
  intros N E S L HQ. destruct (core_leaf _ _ _ E) as [nx En]. unfold leaf_node in En. cbn [find_from]. destruct (Nat.eqb_spec n 0); [done|]. wp_step. wp_step.
  rewrite En. wp_step. cbn [ln_count ln_keys]. rewrite <- (length_fmap fst es). apply wp_lower_bound; [by apply sorted_ascending|].
  intros pos R. wp_step. apply wp_bug_if.
  - apply negb_false_iff, Nat.ltb_lt. pose proof R as (Lp & Lo & _). rewrite length_fmap in Lp. destruct L as [L|(L & e & He & Le)]; [lia|].
    destruct (decide (pos < length es)%nat); [lia|]. apply list_elem_of_lookup in He as [i Hi]. pose proof (lookup_lt_Some _ _ _ Hi).
    assert (e.1 < needle); [|lia]. eapply Lo; [by rewrite list_lookup_fmap, Hi|lia].
  - rewrite (seek_leaf _ _ _ _ R) in HQ. rewrite length_fmap. destruct (decide (pos < length es)%nat) as [Lp|Lp].
    + by rewrite (proj2 (Nat.ltb_lt _ _) Lp).
    + by rewrite (proj2 (Nat.ltb_ge _ _)) by lia.
Qed.

Lemma child_lookup ks e i : (length ks <= SIMPLETREE_INNER_M)%nat -> (i <= length ks)%nat ->
  padded (S SIMPLETREE_INNER_M) ((k_node <$> ks) ++ [e]) !! i = match ks !! i with Some d => Some (k_node d) | None => Some e end.
Proof.
  intros L Li. unfold padded. rewrite lookup_app_l by (rewrite length_app, length_fmap; simpl; lia).
  destruct (ks !! i) as [d|] eqn:E.
  - rewrite lookup_app_l by (rewrite length_fmap; by eapply lookup_lt_Some). by rewrite list_lookup_fmap, E.
  - apply lookup_ge_None in E. assert (i = length ks) as -> by lia. rewrite lookup_app_r by (rewrite length_fmap; lia). by rewrite length_fmap, Nat.sub_diag.
Qed.

Lemma tree_keyed m k ks : Forall (fun d => tree m k (width k) (k_node d) 0%nat (k_leaves d) /\ last_key (k_leaves d) = Some (k_key d)) ks -> keyed ks.
Proof. intros F. eapply Forall_impl; [exact F|]. by intros d [_ ?]. Qed.
Lemma tree_nonzero m mt k c n e ls : m !! 0%nat = Some (NodeMeta mt) -> tree m k c n e ls -> n <> 0%nat.
Proof. intros E T ->. destruct (tree_lookup _ _ _ _ _ _ T) as (x & Ex & Cx). rewrite E in Ex. injection Ex as <-. by destruct k. Qed.

(** A full tree that holds an entry that is large enough *)
Lemma wp_find_full needle mt st : mem st !! 0%nat = Some (NodeMeta mt) ->
  forall k fuel n ls key (Q : option SimpleTreeIterator -> SimpleTree -> Prop),
  tree (mem st) k (width k) n 0%nat ls -> sorted (entries ls) -> last_key ls = Some key -> needle <= key -> (k < fuel)%nat ->
  Q (seek needle ls) st -> wp (find_from fuel n needle) Q st.
Proof.
  intros E0. induction k as [|k IH]; intros fuel n ls key Q T S Kl Le Lf HQ; (destruct fuel as [|fuel]; [lia|]);
    pose proof (tree_nonzero _ _ _ _ _ _ _ E0 T) as N; destruct (last_key_elem _ _ Kl) as (e & He & Ek).
  - destruct T as (es & -> & Lw & _ & E). rewrite entries_leaf in *. eapply wp_find_leaf; [done|done|done| |done].
    right. simpl in Lw. split; [lia|]. exists e. split; [done|lia].
  - destruct T as (ks & Lw & E & -> & F). simpl in Lw. pose proof (tree_keyed _ _ _ F) as K. fold (leaves_of ks) in *.
    cbn [find_from]. destruct (Nat.eqb_spec n 0); [done|]. wp_step. wp_step. rewrite (core_inner _ _ _ _ E). unfold inner_node. wp_step. cbn [in_count in_keys children].
    rewrite <- (length_fmap k_key ks). apply wp_lower_bound; [by apply keyed_ascending|]. intros pos R. pose proof R as (Lp & Lo & _). rewrite length_fmap in Lp.
    destruct (decide (pos < length ks)%nat) as [Lt|].
    + destruct (keyed_seek _ _ _ [] K S R Lt) as (d & Ed & Ld & Es & Sd). rewrite child_lookup by lia. rewrite Ed. rewrite app_nil_r in Es. rewrite Es in HQ.
      destruct (Forall_lookup_1 _ _ _ _ F Ed) as [Td Kd]. eapply IH; [exact Td|done|exact Kd|done|lia|done].
    + exfalso. assert (lower needle (entries (leaves_of ks))) as Lw'.
      { apply keyed_lower; [done|done|]. intros i a Ei. eapply Lo; [done|]. apply lookup_lt_Some in Ei. rewrite length_fmap in Ei. lia. }
      unfold lower in Lw'. rewrite Forall_forall in Lw'. specialize (Lw' e He). lia.
Qed.

Lemma wp_find_open needle mt st : mem st !! 0%nat = Some (NodeMeta mt) ->
  forall os b fuel ls (Q : option SimpleTreeIterator -> SimpleTree -> Prop),
  otree (mem st) b os ls -> sorted (entries ls) -> (b < fuel)%nat -> Q (seek needle ls) st -> wp (find_from fuel (hd 0%nat os) needle) Q st.
Proof.
  intros E0. induction os as [|n os IH]; intros b fuel ls Q O S Lf HQ; (destruct fuel as [|fuel]; [lia|]).
  - simpl in O. subst ls. cbn [find_from hd]. by rewrite Nat.eqb_refl.
  - destruct O as (k & c & l1 & l2 & -> & Lk & N & Lc & T & O). cbn [hd]. destruct k as [|k].
    + destruct T as (es & -> & <- & Ho & E). assert (l2 = []) as ->.
      { destruct os; [done|]. destruct O as (? & ? & ? & ? & _ & ? & _). lia. }
      rewrite app_nil_r in *. rewrite entries_leaf in *. eapply wp_find_leaf; [done|done|done| |done]. left. simpl in Lc. lia.
    + destruct T as (ks & <- & E & -> & F). simpl in Lc. pose proof (tree_keyed _ _ _ F) as K. fold (leaves_of ks) in *.
      rewrite entries_app in S. apply sorted_app in S as (S1 & S2 & _).
      cbn [find_from]. destruct (Nat.eqb_spec n 0); [done|]. wp_step. wp_step. rewrite (core_inner _ _ _ _ E). unfold inner_node. wp_step. cbn [in_count in_keys children].
      rewrite <- (length_fmap k_key ks). apply wp_lower_bound; [by apply keyed_ascending|]. intros pos R. pose proof R as (Lp & Lo & _). rewrite length_fmap in Lp.
      rewrite child_lookup by lia. destruct (decide (pos < length ks)%nat) as [Lt|].
      * destruct (keyed_seek _ _ _ l2 K S1 R Lt) as (d & Ed & Ld & Es & Sd). rewrite Ed. rewrite Es in HQ.
        destruct (Forall_lookup_1 _ _ _ _ F Ed) as [Td Kd]. eapply wp_find_full; [done|exact Td|done|exact Kd|done|lia|done].
      * rewrite lookup_ge_None_2 by lia. rewrite seek_skip in HQ; [by eapply IH; [exact O|done|lia|]|].
        apply keyed_lower; [done|done|]. intros i a Ei. eapply Lo; [done|]. apply lookup_lt_Some in Ei. rewrite length_fmap in Ei. lia.
Qed.

Lemma wp_find key ls st (Q : option SimpleTreeIterator -> SimpleTree -> Prop) : finished (mem st) ls -> sorted (entries ls) ->
  Q (seek (internal_key key) ls) st -> wp (simpletree_find key) Q st.
Proof.
  intros [(os & mt & E & _ & R & _ & O) _] S HQ. unfold simpletree_find. wp_step. eapply wp_the_meta; [exact E|]. wp_step.
  eapply wp_stored; [exact R|]. eapply wp_find_open; [exact E|exact O|done|lia|done].
Qed.

(** ** Iteration *)

Definition leaves_ok m ls : Prop := Forall (fun l : leaf => l.2 <> [] /\ core <$> m !! l.1 = Some (leaf_node l.2 0%nat)) ls.

Lemma tree_leaves m k : forall c n e ls, tree m k c n e ls -> (0 < c)%nat -> leaves_ok m ls.
Proof.
  induction k as [|k IH]; intros c n e ls.
  - intros (es & -> & <- & _ & E) L. constructor; [|constructor]. split; [|done]. simpl. intros ->. simpl in L. lia.
  - intros (ks & _ & _ & -> & F) _. induction F as [|d ks [T _] F IHF]; [constructor|]. apply Forall_app. split; [|done].
    eapply IH; [exact T|]. destruct k; simpl; [pose proof leaf_wide|pose proof inner_wide]; lia.
Qed.
Lemma otree_leaves m : forall os b ls, otree m b os ls -> leaves_ok m ls.
Proof.
  induction os as [|n os IH]; intros b ls; [by intros ->; constructor|]. intros (k & c & l1 & l2 & -> & _ & _ & Lc & T & O).
  apply Forall_app. split; [eapply tree_leaves; [exact T|lia]|by eapply IH].
Qed.
Lemma finished_leaves m ls : finished m ls -> leaves_ok m ls.
Proof. intros [(os & mt & _ & _ & _ & _ & O) _]. by eapply otree_leaves. Qed.
Lemma finished_chain_nonzero m ls a : finished m ls -> a ∈ ls.*1 -> a <> 0%nat.
Proof.
  intros [(os & mt & E & _) C] [i Hi]%list_elem_of_lookup ->. destruct (chain_leaf _ _ _ _ C Hi) as (x & Ex & _). congruence.
Qed.

Lemma finished_next m l1 n es l2 : finished m (l1 ++ (n, es) :: l2) -> m !! n = Some (leaf_node es (default 0%nat (head l2.*1))).
Proof.
  intros F. pose proof (finished_leaves _ _ F) as Lo. apply Forall_app in Lo as [_ [[_ E] _]%Forall_cons]. simpl in E.
  destruct (core_leaf _ _ _ E) as [nx En]. destruct (chain_leaf m (l1 ++ (n, es) :: l2).*1 (length l1) n (fi_chain _ _ F)) as (x & Ex & Nx).
  { rewrite fmap_app. rewrite lookup_app_r by (rewrite length_fmap; lia). by rewrite length_fmap, Nat.sub_diag. }
  rewrite En in Ex. unfold leaf_node in Ex. injection Ex as Ex. subst x. cbn [next] in Nx. rewrite Nx in En.
  rewrite En. f_equal. f_equal. rewrite fmap_app. rewrite lookup_app_r by (rewrite length_fmap; lia). rewrite length_fmap.
  replace (S (length l1) - length l1)%nat with 1%nat by lia. simpl. by destruct l2.
Qed.

(** The iterator [it] has the entries [r] before it. *)
Definition points m (it : SimpleTreeIterator) (r : list entry) : Prop :=
  (it_node it = 0%nat /\ r = []) \/
  exists l1 es l2, finished m (l1 ++ (it_node it, es) :: l2) /\ (it_index it < length es)%nat /\ r = drop (it_index it) es ++ entries l2.

Lemma points_leaf m l1 n es l2 : finished m (l1 ++ (n, es) :: l2) -> points m {| it_index := 0%nat; it_node := n |} (es ++ entries l2).
Proof.
  intros F. right. exists l1, es, l2. split_and!; [done| |done]. pose proof (finished_leaves _ _ F) as Lo.
  apply Forall_app in Lo as [_ [[Ne _] _]%Forall_cons]. simpl in *. destruct es; [done|]. simpl. lia.
Qed.
Lemma points_begin m ls : finished m ls -> points m {| it_index := 0%nat; it_node := default 0%nat (head ls.*1) |} (entries ls).
Proof. intros F. destruct ls as [|[n es] ls]; [by left|]. exact (points_leaf m [] n es ls F). Qed.

Lemma points_end m it : points m it [] -> simpletree_at_end it = true.
Proof.
  intros [[E _]|(l1 & es & l2 & _ & L & E)]; unfold simpletree_at_end; [by rewrite E|]. symmetry in E. apply app_nil in E as [E _].
  apply (f_equal length) in E. rewrite length_drop in E. simpl in E. lia.
Qed.
Lemma points_cons st it k v r : points (mem st) it ((k, v) :: r) ->
  simpletree_at_end it = false /\ simpletree_read it st = (st, Ok (k, v)) /\
  exists it', simpletree_next it st = (st, Ok it') /\ points (mem st) it' r.
Proof.
  destruct it as [i n]. intros [[_ ?]|(l1 & es & l2 & F & Li & E)]; [done|]. cbn [it_node it_index] in *.
  assert (n <> 0%nat) as N by (eapply finished_chain_nonzero; [exact F|]; rewrite fmap_app; apply elem_of_app; right; by constructor).
  split; [by apply Nat.eqb_neq|]. pose proof (finished_next _ _ _ _ _ F) as En. unfold leaf_node in En.
  destruct (lookup_lt_is_Some_2 es i Li) as [e Ei]. rewrite (drop_S _ _ _ Ei) in E. cbn [app] in E. injection E as <- ->.
  unfold simpletree_read, simpletree_next, the_leaf, gets, bind, ret. cbn [it_node it_index]. rewrite En. cbn [ln_keys ln_values ln_count next]. split.
  - rewrite !lookup_filled by (rewrite length_fmap; lia). by rewrite !list_lookup_fmap, Ei.
  - eexists. split; [reflexivity|]. destruct (Nat.eqb_spec (S i) (length es)) as [Ee|Ne].
    + rewrite drop_ge by lia. cbn [app]. destruct l2 as [|[n2 es2] l2]; [by left|]. eapply (points_leaf _ (l1 ++ [(n, es)])). by rewrite <- app_assoc.
    + right. exists l1, es, l2. cbn [it_node it_index]. split_and!; [done|lia|done].
Qed.

Lemma wp_entries_from fuel : forall r it st (Q : list entry -> SimpleTree -> Prop), points (mem st) it r -> (length r < fuel)%nat ->
  Q r st -> wp (entries_from fuel it) Q st.
Proof.
  induction fuel as [|fuel IH]; intros r it st Q P L HQ; [lia|]. cbn [entries_from]. destruct r as [|[k v] r].
  - by rewrite (points_end _ _ P).
  - destruct (points_cons _ _ _ _ _ P) as (-> & Er & it' & En & P'). simpl in L. wp_step. eapply wp_eq; [exact Er|]. wp_step. eapply wp_eq; [exact En|].
    wp_step. eapply IH; [exact P'|lia|]. by wp_step.
Qed.

(** The loop from the beginning *)
Lemma wp_begin ls st (Q : SimpleTreeIterator -> SimpleTree -> Prop) : finished (mem st) ls ->
  (forall it, points (mem st) it (entries ls) -> Q it st) -> wp simpletree_begin Q st.
Proof.
  intros F HQ. pose proof F as [(os & mt & E & _ & _ & Ef & _) _]. unfold simpletree_begin. wp_step. eapply wp_the_meta; [exact E|].
  wp_step. eapply wp_stored; [exact Ef|]. wp_step. apply HQ. by apply points_begin.
Qed.

(** ** What a search finds *)

Definition at_least (needle : Z) (es : list entry) : list entry := filter (fun e : entry => needle <= e.1) es.

Lemma lower_at_least needle es : lower needle es -> at_least needle es = [].
Proof. intros L. induction L as [|e es Le L IH]; [done|]. unfold at_least in *. rewrite filter_cons_False by lia. done. Qed.
Lemma upper_at_least needle es : Forall (fun e : entry => needle <= e.1) es -> at_least needle es = es.
Proof. intros L. induction L as [|e es Le L IH]; [done|]. unfold at_least in *. rewrite filter_cons_True by done. by rewrite IH. Qed.

Lemma seek_at_least needle ls : sorted (entries ls) ->
  match seek needle ls with
  | None => at_least needle (entries ls) = []
  | Some it => exists l1 es l2, ls = l1 ++ (it_node it, es) :: l2 /\ (it_index it < length es)%nat /\
                 at_least needle (entries ls) = drop (it_index it) es ++ entries l2
  end.
Proof.
  induction ls as [|[n es] ls IH]; [done|]. change (entries ((n, es) :: ls)) with (es ++ entries ls). intros S. cbn [seek].
  pose proof (sorted_app _ _ S) as (S1 & S2 & S3). unfold at_least. rewrite filter_app.
  destruct (list_find (fun e : entry => needle <= e.1) es) as [[i x]|] eqn:E.
  - apply list_find_Some in E as (Ei & Lx & Lo). exists [], es, ls. cbn [it_node it_index]. pose proof (lookup_lt_Some _ _ _ Ei). split_and!; [done|done|].
    rewrite <- (take_drop i es) at 1. rewrite filter_app, <- app_assoc. fold (at_least needle (take i es)). rewrite lower_at_least.
    + cbn [app]. f_equal; apply upper_at_least; apply Forall_forall.
      * intros e He. apply list_elem_of_lookup in He as [j Hj]. rewrite lookup_drop in Hj.
        assert (x.1 <= e.1); [|lia]. apply (sorted_ascending _ S1 i (i + j)%nat); [lia|by rewrite list_lookup_fmap, Ei|by rewrite list_lookup_fmap, Hj].
      * intros e He. assert (x.1 <= e.1); [|lia]. apply S3; [by eapply list_elem_of_lookup_2|done].
    + apply Forall_lookup. intros j y Hj. apply lookup_take_Some in Hj as [Hj Lj]. specialize (Lo j y Hj Lj). lia.
  - apply list_find_None in E. fold (at_least needle es). rewrite (lower_at_least needle es) by (eapply Forall_impl; [exact E|]; simpl; lia).
    cbn [app]. fold (at_least needle (entries ls)). specialize (IH S2). destruct (seek needle ls) as [it|]; [|done].
    destruct IH as (l1 & es' & l2 & -> & Li & Ea). exists ((n, es) :: l1), es', l2. by split_and!.
Qed.

Lemma wp_find_points key ls st (Q : option SimpleTreeIterator -> SimpleTree -> Prop) : finished (mem st) ls -> sorted (entries ls) ->
  (forall r, match r with
             | None => at_least (internal_key key) (entries ls) = []
             | Some it => points (mem st) it (at_least (internal_key key) (entries ls)) /\ at_least (internal_key key) (entries ls) <> []
             end -> Q r st) ->
  wp (simpletree_find key) Q st.
Proof.
  intros F S HQ. eapply wp_find; [exact F|done|]. apply HQ. pose proof (seek_at_least (internal_key key) ls S) as E.
  destruct (seek (internal_key key) ls) as [[i n]|]; [|done]. destruct E as (l1 & es & l2 & -> & Li & ->). cbn [it_node it_index] in *. split.
  - right. by exists l1, es, l2.
  - intros [E _]%app_nil. apply (f_equal length) in E. rewrite length_drop in E. simpl in E. lia.
Qed.
End Find.
