(* ===== verification/SimpleTreeProps.v ===== *)
(** * The index tree: user data, images, and what a reader finds in them *)

From Stdlib Require Import ZArith Lia.
From stdpp Require Import base list numbers sorting.
From S2P Require Import Prelude SimpleTree SimpleTreeBuild SimpleTreeFind.

Open Scope Z_scope.
Open Scope se_scope.

(** ** User data *)

Definition block_size : nat := Z.to_nat SIMPLETREE_NODESIZE.
Lemma block_size_pos : (0 < block_size)%nat.
Proof. unfold block_size. change 0%nat with (Z.to_nat 0). by apply Z2Nat.inj_lt. Qed.
Lemma block_size_Z : Z.of_nat block_size = SIMPLETREE_NODESIZE.
Proof. unfold block_size. by rewrite Z2Nat.id. Qed.
Lemma block_size_def : Z.to_nat SIMPLETREE_NODESIZE = block_size.
Proof. done. Qed.
#[local] Opaque block_size.

(** The nodes that hold [data] *)
Fixpoint blocks (fuel : nat) (data : list Z) : list (list Z) :=
  match fuel with
  | O => []
  | S fuel =>
      match data with
      | [] => []
      | _ => (take block_size data ++ replicate (block_size - length (take block_size data)) 0) :: blocks fuel (drop block_size data)
      end
  end.

Lemma blocks_data fuel : forall data, (length data < fuel)%nat -> take (length data) (concat (blocks fuel data)) = data.
Proof.
  pose proof block_size_pos. induction fuel as [|fuel IH]; intros data L; [lia|]. destruct data as [|b data]; [done|]. cbn [blocks concat].
  set (d := b :: data) in *. destruct (decide (length d <= block_size)%nat) as [Ls|Ls].
  - rewrite (take_ge d block_size) by lia. rewrite <- app_assoc, take_app_length. done.
  - assert (length (take block_size d) = block_size) as Lt by (rewrite length_take; lia). rewrite Lt, Nat.sub_diag. cbn [replicate]. rewrite app_nil_r.
    rewrite take_app_ge by lia. rewrite Lt. rewrite <- length_drop. rewrite IH by (rewrite length_drop; lia). apply take_drop.
Qed.
Lemma blocks_length fuel : forall data, (length data < fuel)%nat ->
  Z.of_nat (length (blocks fuel data)) = (zlen data + SIMPLETREE_NODESIZE - 1) / SIMPLETREE_NODESIZE.
Proof.
  pose proof block_size_pos. pose proof block_size_Z as Ez. unfold SIMPLETREE_NODESIZE in *. unfold zlen.
  induction fuel as [|fuel IH]; intros data L; [lia|]. destruct data as [|b data]; [done|]. cbn [blocks length].
  set (d := b :: data) in *. rewrite Nat2Z.inj_succ. destruct (decide (length d <= block_size)%nat) as [Ls|Ls].
  - rewrite drop_ge by lia. assert (length d = S (length data)) by done. destruct fuel; cbn [blocks length]; change (Z.succ (Z.of_nat 0)) with 1; zlia.
  - rewrite IH by (rewrite length_drop; lia). rewrite length_drop, Nat2Z.inj_sub by lia. assert (length d = S (length data)) by done. zlia.
Qed.

Section User.
Context `{Shape, !Wide}.
Implicit Types (st : SimpleTree) (mt : SimpleTreeMetaNode) (m : list node).

Lemma set_num_nodes_twice a b mt : set_num_nodes a (set_num_nodes b mt) = set_num_nodes a mt.
Proof. done. Qed.

Lemma wp_user_nodes fuel : forall data st mt (Q : unit -> SimpleTree -> Prop),
  (length data < fuel)%nat -> heap_ok (mem st) mt -> Z.of_nat (num_nodes mt) + Z.of_nat (length (blocks fuel data)) < 2 ^ 30 ->
  (forall m', heap_ok m' (set_num_nodes (num_nodes mt + length (blocks fuel data)) mt) -> keeps (mem st) m' ->
    (forall j b, blocks fuel data !! j = Some b -> m' !! (num_nodes mt + j)%nat = Some (NodeUser b)) -> Q tt (set_mem m' st)) ->
  wp (user_nodes fuel data) Q st.
Proof.
  pose proof block_size_pos. induction fuel as [|fuel IH]; intros data st mt Q L Hh B HQ; [lia|]. destruct data as [|c data].
  - cbn [user_nodes]. wp_step. destruct st as [nl pv m]. apply (HQ m); [|by intros i x|done]. cbn [blocks length]. rewrite Nat.add_0_r. by destruct mt.
  - set (d := c :: data) in *. cbn [user_nodes]. fold d. cbv zeta. rewrite block_size_def. set (b0 := take block_size d ++ replicate (block_size - length (take block_size d)) 0).
    change (blocks (S fuel) d) with (b0 :: blocks fuel (drop block_size d)) in HQ, B. cbn [length] in HQ, B.
    change (match d with [] => ret tt | _ => ?x end) with x.
    wp_step. eapply wp_alloc; [exact Hh|lia|]. intros m1 Hh1 E1 K1. wp_step. apply wp_upd_node; [by eapply lookup_lt_Some|].
    pose proof (created_upd _ _ _ (NodeUser b0) Hh Hh1 K1) as [Hh2 E2 K2].
    unfold set_mem. cbn [mem nodes prev] in *. set (m2 := <[num_nodes mt := _]> m1) in *.
    eapply (IH _ {| nodes := nodes st; prev := prev st; mem := m2 |}); [|exact Hh2| |]; cbn [mem num_nodes set_num_nodes].
    + rewrite length_drop. simpl in L. unfold d in *. simpl. lia.
    + lia.
    + intros m3 Hh3 K3 E3. unfold set_mem. cbn [nodes prev]. apply (HQ m3).
      * rewrite set_num_nodes_twice in Hh3. by rewrite <- Nat.add_succ_comm.
      * intros i x Hi Ex Nx. apply K3; [done|by apply K2|done].
      * intros [|j] b; simpl.
        -- intros [= <-]. rewrite Nat.add_0_r. apply K3; [pose proof (ho_used _ _ Hh); lia|exact E2|done].
        -- intros Eb. rewrite <- Nat.add_succ_comm. by apply E3.
Qed.

(** The copy of small data stays in the node; see [set_user_overruns]. *)
Definition user_fits (ud : list Z) : Prop := ~ (SIMPLETREE_NODESIZE - META_OFFSET - sizeof_meta < zlen ud <= SIMPLETREE_NODESIZE - sizeof_meta).
Definition user_ok (img : list node) (ud : list Z) : Prop :=
  forall st, mem st = img -> wp simpletree_get_user (fun b s => s = st /\ take (length ud) b = ud) st.

Lemma user_bytes_blocks bl : user_bytes (NodeUser <$> bl) = concat bl.
Proof. induction bl as [|b bl IH]; [done|]. cbn. by rewrite <- IH. Qed.

Lemma user_small img mt ud : img !! 0%nat = Some (NodeMeta mt) -> user_size mt = Some (u32 (zlen ud)) -> mn_user mt = ud ->
  zlen ud <= SIMPLETREE_NODESIZE - sizeof_meta -> user_ok img ud.
Proof.
  intros E Eu Em L st <-. pose proof (zlen_nonneg ud). unfold SIMPLETREE_NODESIZE, sizeof_meta in *. rewrite u32_small in Eu by lia.
  unfold simpletree_get_user. wp_step. eapply wp_the_meta; [exact E|]. wp_step. eapply wp_stored; [exact Eu|].
  rewrite (proj2 (Z.leb_le _ _)) by (unfold SIMPLETREE_NODESIZE, sizeof_meta; lia). wp_step. rewrite Em. split; [done|]. by apply take_ge.
Qed.
Lemma user_large m mt num ud : let bl := blocks (S (length ud)) ud in
  heap_ok m mt -> num_nodes mt = (num + length bl)%nat -> user_size mt = Some (u32 (zlen ud)) -> zlen ud < 2 ^ 30 -> SIMPLETREE_NODESIZE - sizeof_meta < zlen ud ->
  (forall j b, bl !! j = Some b -> m !! (num + j)%nat = Some (NodeUser b)) -> user_ok (take (num_nodes mt) m) ud.
Proof.
  intros bl Hh En Eu Lz Ls Eb st Es. pose proof (blocks_length (S (length ud)) ud ltac:(lia)) as Lb. fold bl in Lb.
  assert (u32 (zlen ud + SIMPLETREE_NODESIZE - 1) / SIMPLETREE_NODESIZE = Z.of_nat (length bl)) as Lb'.
  { rewrite Lb. rewrite u32_small; [done|]. unfold SIMPLETREE_NODESIZE, sizeof_meta in *. lia. }
  pose proof (ho_used _ _ Hh) as U. unfold simpletree_get_user. wp_step. eapply wp_the_meta; [rewrite Es; rewrite lookup_take_lt by lia; exact (ho_meta _ _ Hh)|].
  wp_step. eapply wp_stored; [exact Eu|]. pose proof (zlen_nonneg ud). rewrite u32_small by lia.
  rewrite (proj2 (Z.leb_gt _ _)) by lia. wp_step. wp_step. rewrite Lb', Es, En. replace (Z.of_nat (num + length bl) - Z.of_nat (length bl)) with (Z.of_nat num) by lia.
  wp_step. apply wp_bug_if; [apply Z.ltb_ge; lia|]. wp_step. split; [done|]. rewrite Nat2Z.id.
  replace (drop num (take (num + length bl) m)) with (NodeUser <$> bl); [rewrite user_bytes_blocks; apply blocks_data; lia|].
  apply list_eq. intros j. rewrite lookup_drop, list_lookup_fmap. destruct (bl !! j) as [b|] eqn:Ej.
  - pose proof (lookup_lt_Some _ _ _ Ej). rewrite lookup_take_lt by lia. by rewrite (Eb j b Ej).
  - apply lookup_ge_None in Ej. symmetry. apply lookup_ge_None. rewrite length_take. lia.
Qed.

Lemma wp_set_user st ls mt ud (Q : unit -> SimpleTree -> Prop) : finished (mem st) ls -> heap_ok (mem st) mt -> user_fits ud ->
  Z.of_nat (num_nodes mt) + zlen ud < 2 ^ 30 ->
  (forall m' mt', heap_ok m' mt' -> finished m' ls -> user_ok (take (num_nodes mt') m') ud -> Q tt (set_mem m' st)) ->
  wp (simpletree_set_user ud) Q st.
Proof.
  intros F Hh Fit B HQ. pose proof (zlen_nonneg ud). unfold simpletree_set_user. wp_step. eapply wp_upd_meta; [exact (ho_meta _ _ Hh)|].
  set (mt1 := set_user_size (Some (u32 (zlen ud))) mt). pose proof (heap_meta _ _ mt1 Hh eq_refl) as Hh1. set (m1 := <[0%nat := NodeMeta mt1]> (mem st)) in *.
  assert (keeps (mem st) m1) as K1 by apply keeps_meta. assert (finished m1 ls) as F1 by (eapply finished_keeps; [exact Hh|done|exact (ho_meta _ _ Hh1)|done..]).
  destruct (Z.leb_spec (zlen ud) (SIMPLETREE_NODESIZE - sizeof_meta)) as [L|L].
  - wp_step. apply wp_bug_if; [apply Z.ltb_ge; unfold user_fits in Fit; lia|]. eapply wp_upd_meta; [exact (ho_meta _ _ Hh1)|].
    set (mt2 := set_mn_user ud mt1). pose proof (heap_meta _ _ mt2 Hh1 eq_refl) as Hh2. pose proof (ho_used _ _ Hh2) as U. apply (HQ _ mt2); [exact Hh2| |].
    + eapply finished_keeps; [exact Hh1|apply keeps_meta|exact (ho_meta _ _ Hh2)|done..].
    + eapply user_small; [rewrite lookup_take_lt by lia; exact (ho_meta _ _ Hh2)|done|done|done].
  - rewrite s32_small by lia. unfold zlen at 1. rewrite Nat2Z.id, firstn_all. eapply (wp_user_nodes _ ud _ mt1); [lia|exact Hh1| |].
    + rewrite blocks_length by lia. unfold SIMPLETREE_NODESIZE in *. unfold mt1. cbn [num_nodes set_user_size]. zlia.
    + intros m2 Hh2 K2 Eb. eapply (HQ m2); [exact Hh2| |].
      * eapply finished_keeps; [exact Hh1|exact K2|exact (ho_meta _ _ Hh2)|done..].
      * eapply (user_large m2 _ (num_nodes mt1)); [exact Hh2|done|done|lia|done|exact Eb].
Qed.

(** ** Images *)

Definition writable (es : list entry) (ud : list Z) : Prop :=
  in_48 es /\ (length es < capacity)%nat /\ 16 * Z.of_nat (length es) + zlen ud + 2 < 2 ^ 30 /\ user_fits ud.

Lemma keeps_take m mt : heap_ok m mt -> keeps m (take (num_nodes mt) m).
Proof. intros Hh i x Hi Ex Nx. pose proof (fresh_below _ _ _ _ Hh Ex Nx). by rewrite lookup_take_lt. Qed.

Lemma wp_write_tree es ud st (Q : list node -> SimpleTree -> Prop) : writable es ud ->
  (forall img ls st', finished img ls -> entries ls = es -> user_ok img ud -> Q img st') -> wp (write_tree es ud) Q st.
Proof.
  intros (B48 & Cap & Bz & Fit) HQ. pose proof (zlen_nonneg ud). unfold write_tree. wp_step. apply wp_init. intros st1 mt1 n1 nds1 l1 l1' Bd1. wp_step.
  eapply (wp_insert_all es _ []); [exact Bd1|done|split; simpl; lia|]. cbn [app]. intros st2 mt2 n2 nds2 l2 l2' Bd2. pose proof (bd_num _ _ _ _ _ _ _ Bd2) as Bn.
  pose proof (bd_entries _ _ _ _ _ _ _ Bd2) as Ee. wp_step. eapply wp_finish; [exact Bd2|]. intros m3 mt3 F3 Hh3 En3. wp_step.
  eapply (wp_set_user (set_mem m3 st2)); [exact F3|exact Hh3|done|rewrite En3; lia|]. intros m4 mt4 Hh4 F4 U4. unfold set_mem. cbn [mem nodes prev].
  wp_step. unfold simpletree_get_nodes_size. wp_step. eapply wp_the_meta; [exact (ho_meta _ _ Hh4)|]. wp_step. wp_step. wp_step. cbn [mem].
  replace (SIMPLETREE_NODESIZE * Z.of_nat (num_nodes mt4) / SIMPLETREE_NODESIZE) with (Z.of_nat (num_nodes mt4)) by (unfold SIMPLETREE_NODESIZE; zlia).
  rewrite Nat2Z.id. pose proof (ho_used _ _ Hh4) as U. eapply HQ; [|exact Ee|exact U4].
  eapply (finished_keeps m4 _ mt4 mt4); [exact Hh4|by apply keeps_take|rewrite lookup_take_lt by lia; exact (ho_meta _ _ Hh4)|done..].
Qed.

Lemma wp_open img ls st (Q : unit -> SimpleTree -> Prop) : finished img ls ->
  (forall st', mem st' = img -> Q tt st') -> wp (simpletree_open img) Q st.
Proof.
  intros [(os & mt & E & M & _) _] HQ. unfold simpletree_open. wp_step. wp_step. wp_step. eapply wp_the_meta; [exact E|]. wp_step. eapply wp_stored; [exact M|].
  apply wp_bug_if; [by rewrite Z.eqb_refl|]. by apply HQ.
Qed.
End User.

(** ** Shapes *)

(** The widths of the code: a node fits its place in memory, and the levels are
    never the limit. *)
Lemma simpletree_shape_fits : let _ := simpletree_shape in
  4 + 8 + (6 + 8) * Z.of_nat SIMPLETREE_LEAF_M <= SIMPLETREE_NODESIZE /\
  4 + 4 + 6 * Z.of_nat SIMPLETREE_INNER_M + 4 * (Z.of_nat SIMPLETREE_INNER_M + 1) <= SIMPLETREE_NODESIZE.
Proof. cbv zeta. unfold SIMPLETREE_LEAF_M, SIMPLETREE_INNER_M, simpletree_shape, SIMPLETREE_NODESIZE. rewrite !Z2Nat.id; lia. Qed.
#[export] Instance simpletree_wide : @Wide simpletree_shape.
Proof. split; unfold SIMPLETREE_LEAF_M, SIMPLETREE_INNER_M, simpletree_shape; lia. Qed.
Lemma simpletree_capacity (es : list entry) : 16 * Z.of_nat (length es) < 2 ^ 30 -> (length es < @capacity simpletree_shape)%nat.
Proof.
  intros L. apply Nat2Z.inj_lt. unfold capacity. rewrite Nat2Z.inj_mul, Nat2Z.inj_pow.
  unfold SIMPLETREE_LEAF_M, SIMPLETREE_INNER_M, simpletree_shape. rewrite !Z2Nat.id by lia.
  change (2200 * 3275 ^ Z.of_nat 15) with (2200 * 3275 ^ 15). lia.
Qed.

(** Small widths, for runs *)
#[local] Instance small_shape : Shape := {| SIMPLETREE_INNER_M := 2; SIMPLETREE_LEAF_M := 3 |}.
#[local] Instance small_wide : Wide.
Proof. split; simpl; lia. Qed.
Definition value (n : Z) : SimpleTreeValue := {| chunk := 1; offset := n; size := 16 |}.
Definition some_entries : list entry := (fun k => (2 * k, value k)) <$> seqZ 1 40.

(** User data of some sizes is copied past the end of the meta node, over the type
    of the first leaf or the end of the allocation. *)
Lemma set_user_overruns (ud : list Z) st mt : mem st !! 0%nat = Some (NodeMeta mt) ->
  SIMPLETREE_NODESIZE - META_OFFSET - sizeof_meta < zlen ud <= SIMPLETREE_NODESIZE - sizeof_meta -> snd (simpletree_set_user ud st) = Bug.
Proof.
  intros E L. unfold simpletree_set_user, upd_meta, the_meta, upd_node, bind, gets, ret, modify, bug_if. rewrite (proj2 (Z.leb_le (zlen ud) _)) by lia.
  unfold meta_of. rewrite E. rewrite (proj2 (Nat.ltb_lt 0 (length (mem st)))) by (by eapply lookup_lt_Some). cbn [negb].
  by rewrite (proj2 (Z.ltb_lt _ _)) by lia.
Qed.

(** C29: An image of an index tree, written by sorted insertions, [simpletree_finish]
    and [simpletree_set_user], reads back: after [simpletree_open] the iterator
    gives the entries in the order of their insertion, each once, and
    [simpletree_get_user] the user data; no store goes beyond an array and no
    assertion fails.  The bounds are on the number of nodes, which an [int]
    counts, on the 16 levels, and on the sizes of user data that
    [set_user_overruns] shows. *)
Theorem tree_image_reads_back `{Shape, !Wide} (es : list entry) (ud : list Z) (st : SimpleTree) : writable es ud ->
  exists img st', write_tree es ud st = (st', Ok img) /\
    forall st2, wp (simpletree_open img;; it <- simpletree_begin;; l <- entries_from (S (length es)) it;; b <- simpletree_get_user;; ret (l, b))
                   (fun r _ => r.1 = es /\ take (length ud) r.2 = ud) st2.
Proof.
  intros W. destruct (wp_inv (write_tree es ud) (fun img _ => exists ls, finished img ls /\ entries ls = es /\ user_ok img ud) st) as (st' & img & E & ls & F & <- & U).
  { apply wp_write_tree; [done|]. eauto. }
  exists img, st'. split; [exact E|]. intros st2. wp_step. eapply wp_open; [exact F|]. intros st3 <-. wp_step. eapply wp_begin; [exact F|]. intros it P.
  wp_step. eapply wp_entries_from; [exact P|lia|]. wp_step. eapply wp_mono; [by apply U|]. intros b s [-> Eb]. by wp_step.
Qed.
Lemma tree_image_reads_back_witness : exists img st', write_tree some_entries [7; 8] {| nodes := []; prev := 0%nat; mem := [] |} = (st', Ok img).
Proof.
  destruct (tree_image_reads_back some_entries [7; 8] {| nodes := []; prev := 0%nat; mem := [] |}) as (img & st' & E & _); [|by exists img, st'].
  split_and!; [apply (bool_decide_eq_true_1 _); vm_compute; reflexivity|apply Nat.ltb_lt; vm_compute; reflexivity|vm_compute; reflexivity|intros [L1 L2]; vm_compute in L1; discriminate].
Defined.

(** C34: Search in an image whose entries are sorted: [simpletree_find] answers whether there is
    an entry that is not below the key (cut to 48 bits), and iteration from where
    it points gives exactly the entries that are not below it.  So the binary
    search and the descent through nodes of different depth are right, with
    equal keys and for every key. *)
Theorem tree_find_first `{Shape, !Wide} (es : list entry) (ud : list Z) (st : SimpleTree) : writable es ud -> sorted es ->
  exists img st', write_tree es ud st = (st', Ok img) /\
    forall st2 key, wp (simpletree_open img;; r <- simpletree_find key;;
                        match r with None => ret None | Some it => l <- entries_from (S (length es)) it;; ret (Some l) end)
                       (fun r _ => r = if decide (at_least (internal_key key) es = []) then None else Some (at_least (internal_key key) es)) st2.
Proof.
  intros W S. destruct (wp_inv (write_tree es ud) (fun img _ => exists ls, finished img ls /\ entries ls = es) st) as (st' & img & E & ls & F & <-).
  { apply wp_write_tree; [done|]. eauto. }
  exists img, st'. split; [exact E|]. intros st2 key. wp_step. eapply wp_open; [exact F|]. intros st3 <-. wp_step. eapply wp_find_points; [exact F|done|].
  intros [it|] Hr; [|by rewrite decide_True]. destruct Hr as [P N]. rewrite decide_False by done. wp_step. eapply wp_entries_from; [exact P| |by wp_step].
  apply Nat.lt_succ_r. apply length_filter.
Qed.
Lemma tree_find_first_witness : exists img st', write_tree some_entries [] {| nodes := []; prev := 0%nat; mem := [] |} = (st', Ok img).
Proof.
  destruct (tree_find_first some_entries [] {| nodes := []; prev := 0%nat; mem := [] |}) as (img & st' & E & _); [| |by exists img, st'].
  - split_and!; [apply (bool_decide_eq_true_1 _); vm_compute; reflexivity|apply Nat.ltb_lt; vm_compute; reflexivity|vm_compute; reflexivity|intros [L1 L2]; vm_compute in L1; discriminate].
  - apply Sorted_StronglySorted; [intros a b c; lia|]. apply (bool_decide_eq_true_1 _). vm_compute. reflexivity.
Defined.
