(* ===== verification/DubTree.v ===== *)
(** * Lookup of blocks in the levels of a swap image

    src/dm/block-swap/dubtree.c: the part of [dubtree_find] that looks the keys
    up.  The levels are index trees, the youngest data are in the first one. *)

From Stdlib Require Import ZArith Lia.
From stdpp Require Import base list numbers sorting.
From S2P Require Import Prelude SimpleTree SimpleTreeBuild SimpleTreeFind SimpleTreeProps.

Open Scope Z_scope.
Open Scope se_scope.

(** ** Data *)

Definition DUBTREE_MAX_LEVELS : nat := 16.
(** [struct source] *)
Record source : Type := { chunk_id : Z; src_offset : Z; src_size : Z }.
Definition no_source : source := {| chunk_id := 0; src_offset := 0; src_size := 0 |}.

(** The local variables of [dubtree_find] that the search changes *)
Record lookup_state : Type := { sources : list source; versions : list Z; missing : Z; relevant : list bool }.

(** The offset of [chunk_ids] in [struct UserData] *)
Definition CHUNK_IDS : Z := 32.
(** A read beyond the user data is [Bug]. *)
Definition get_chunk_id (ud : list Z) (chunk : Z) : SE SimpleTree Z :=
  bug_if ((chunk <? 1) || (zlen ud <? CHUNK_IDS + 8 * chunk));;
  ret (field (CHUNK_IDS + 8 * (chunk - 1)) 8 ud).

(** ** Search *)

Definition set_found (i : nat) (idx : nat) (s : source) (ls : lookup_state) : lookup_state :=
  {| sources := <[idx := s]> (sources ls); versions := <[idx := 1]> (versions ls); missing := missing ls - 1; relevant := <[i := true]> (relevant ls) |}.

(** The loop over the entries of the tree of level [i], from [it] on *)
Fixpoint scan_entries (fuel : nat) (i : nat) (start num_keys : Z) (cud : list Z) (it : SimpleTreeIterator) (ls : lookup_state) : SE SimpleTree lookup_state :=
  match fuel with
  | O => bug
  | S fuel =>
      if (missing ls =? 0) || simpletree_at_end it then ret ls
      else
        k <- simpletree_read it;;
        let block := k.1 in
        let idx := s32 (u64 (block - start)) in
        if u64 (start + num_keys) <=? block then ret ls
        else
          bug_if (idx <? 0);;
          match versions ls !! Z.to_nat idx with
          | None => bug
          | Some b =>
              ls <- (if b =? 0 then
                       cid <- get_chunk_id cud (chunk k.2);;
                       ret (set_found i (Z.to_nat idx) {| chunk_id := cid; src_offset := offset k.2; src_size := size k.2 |} ls)
                     else ret ls);;
              it <- simpletree_next it;;
              scan_entries fuel i start num_keys cud it ls
          end
  end.

Section Scan.
Context `{Shape}.

(** [trees] are the levels, mapped into memory; [fuel] bounds the entries of one. *)
Fixpoint scan_levels (fuel : nat) (i : nat) (start num_keys : Z) (trees : list (option (list node))) (ls : lookup_state) : SE SimpleTree lookup_state :=
  match trees with
  | [] => ret ls
  | None :: trees => scan_levels fuel (S i) start num_keys trees ls
  | Some mem :: trees =>
      simpletree_open mem;;
      r <- simpletree_find start;;
      ls <- (match r with
             | Some it => cud <- simpletree_get_user;; scan_entries fuel i start num_keys cud it ls
             | None => ret ls
             end);;
      scan_levels fuel (S i) start num_keys trees ls
  end.

(** The keys [start], [start + 1], ... of which [map] is not set are looked up. *)
Definition dubtree_lookup (fuel : nat) (start : Z) (map : list Z) (trees : list (option (list node))) : SE SimpleTree lookup_state :=
  scan_levels fuel 0 start (zlen map) trees
    {| sources := replicate (length map) no_source; versions := map;
       missing := zlen (filter (fun b => b = 0) map); relevant := replicate DUBTREE_MAX_LEVELS false |}.
End Scan.

(** ** What is found

    [resolve levels key] is the source of [key] in the first level that has it. *)

Definition source_of (ud : list Z) (v : SimpleTreeValue) : source :=
  {| chunk_id := field (CHUNK_IDS + 8 * (chunk v - 1)) 8 ud; src_offset := offset v; src_size := size v |}.
Fixpoint lookup_key (key : Z) (es : list entry) : option SimpleTreeValue :=
  match es with
  | [] => None
  | (k, v) :: es => if k =? key then Some v else lookup_key key es
  end.
Fixpoint resolve (levels : list (option (list entry * list Z))) (key : Z) : option source :=
  match levels with
  | [] => None
  | None :: levels => resolve levels key
  | Some (es, ud) :: levels =>
      match lookup_key key es with
      | Some v => Some (source_of ud v)
      | None => resolve levels key
      end
  end.

(** ** The loop over entries as a function of the entries *)

Fixpoint scan_pure (i : nat) (start num : Z) (ud : list Z) (r : list entry) (ls : lookup_state) : lookup_state :=
  match r with
  | [] => ls
  | (k, v) :: r =>
      if missing ls =? 0 then ls
      else if start + num <=? k then ls
      else
        let idx := Z.to_nat (k - start) in
        scan_pure i start num ud r (if bool_decide (versions ls !! idx = Some 0) then set_found i idx (source_of ud v) ls else ls)
  end.

(** The chunk of a value is in the table. *)
Definition refers (ud : list Z) (e : entry) : Prop := 1 <= chunk e.2 /\ CHUNK_IDS + 8 * chunk e.2 <= zlen ud.

Lemma scan_length i start num ud r : forall ls, length (versions (scan_pure i start num ud r ls)) = length (versions ls).
Proof.
  induction r as [|[k v] r IH]; intros ls; [done|]. simpl. destruct (missing ls =? 0); [done|]. destruct (_ <=? k); [done|].
  rewrite IH. case_bool_decide; [|done]. simpl. by rewrite length_insert.
Qed.

Lemma field_take off n l k : 0 <= off -> 0 <= n -> off + n <= Z.of_nat k -> field off n (take k l) = field off n l.
Proof.
  intros H1 H2 H3. unfold field, slice. f_equal.  rewrite skipn_firstn_comm. rewrite take_take. f_equal. lia.
Qed.

Section Scanning.
Context `{Shape, !Wide}.
Implicit Types (st : SimpleTree).

Lemma wp_scan_entries i start num ud cud fuel : forall r it ls st (Q : lookup_state -> SimpleTree -> Prop),
  take (length ud) cud = ud -> points (mem st) it r -> (length r < fuel)%nat -> 0 <= start < 2 ^ 48 -> num < 2 ^ 31 ->
  Forall (fun e : entry => start <= e.1 < 2 ^ 48 /\ refers ud e) r -> zlen (versions ls) = num ->
  Q (scan_pure i start num ud r ls) st -> wp (scan_entries fuel i start num cud it ls) Q st.
Proof.
  induction fuel as [|fuel IH]; intros r it ls st Q Eud P Lf Hs Hn Fr Lv HQ; [lia|]. cbn [scan_entries]. destruct r as [|[k v] r].
  { rewrite (points_end _ _ P), orb_true_r. by wp_step. }
  destruct (points_cons _ _ _ _ _ P) as (-> & Er & it' & En & P'). rewrite orb_false_r. cbn [scan_pure] in HQ.
  destruct (missing ls =? 0); [by wp_step|]. wp_step. eapply wp_eq; [exact Er|]. cbn [fst snd]. apply Forall_cons in Fr as [[Hk [R1 R2]] Fr]. cbn [fst snd] in *.
  pose proof (zlen_nonneg (versions ls)). rewrite (u64_small (start + num)) by lia. destruct (Z.leb_spec (start + num) k) as [|Lk]; [by wp_step|].
  rewrite u64_small, s32_small by lia. wp_step. apply wp_bug_if; [apply Z.ltb_ge; lia|].
  destruct (lookup_lt_is_Some_2 (versions ls) (Z.to_nat (k - start))) as [b Eb]; [unfold zlen in *; lia|]. rewrite Eb in HQ |- *. simpl in Lf. wp_step.
  apply wp_mono with (Q := fun ls' s => s = st /\ ls' = if bool_decide (Some b = Some 0) then set_found i (Z.to_nat (k - start)) (source_of ud v) ls else ls).
  - destruct (Z.eqb_spec b 0) as [->|Nb].
    + wp_step. unfold get_chunk_id. wp_step. assert (zlen ud <= zlen cud) as Lc by (unfold zlen; rewrite <- Eud, length_take; lia). apply wp_bug_if.
      * apply orb_false_iff. split; apply Z.ltb_ge; lia.
      * wp_step. wp_step. split; [done|]. rewrite bool_decide_eq_true_2 by done. unfold source_of. do 2 f_equal. rewrite <- Eud at 1.
        symmetry. apply field_take; unfold CHUNK_IDS, zlen in *; lia.
    + wp_step. split; [done|]. rewrite bool_decide_eq_false_2 by congruence. done.
  - intros ls' ? [-> El]. wp_step. eapply wp_eq; [exact En|]. eapply IH; [done|exact P'|lia|done|done|done| |by rewrite El].
    rewrite El. case_bool_decide; [|done]. unfold zlen. simpl. by rewrite length_insert.
Qed.
End Scanning.

(** ** What the loops have done *)

Abbreviation unset := (fun b : Z => b = 0).

(** [ls'] is [ls] with the keys that [f] knows, of those that were not set. *)
Record after (start : Z) (f : Z -> option source) (ls ls' : lookup_state) : Prop := {
  af_versions : length (versions ls') = length (versions ls);
  af_sources : length (sources ls') = length (sources ls);
  af_missing : missing ls' = zlen (filter unset (versions ls'));
  af_old : forall idx b, versions ls !! idx = Some b -> b <> 0 \/ f (start + Z.of_nat idx) = None ->
    versions ls' !! idx = Some b /\ sources ls' !! idx = sources ls !! idx;
  af_new : forall idx s, versions ls !! idx = Some 0 -> f (start + Z.of_nat idx) = Some s ->
    versions ls' !! idx = Some 1 /\ sources ls' !! idx = Some s
}.
Definition counted (ls : lookup_state) : Prop := missing ls = zlen (filter unset (versions ls)) /\ length (sources ls) = length (versions ls).

Lemma after_counted start f ls ls' : counted ls -> after start f ls ls' -> counted ls'.
Proof. intros [_ L] [L1 L2 M _ _]. split; [done|congruence]. Qed.
Lemma after_none start f ls : counted ls -> (forall idx, versions ls !! idx = Some 0 -> f (start + Z.of_nat idx) = None) -> after start f ls ls.
Proof. intros [M L] N. split; try done. intros idx s E E'. by rewrite (N idx E) in E'. Qed.
Lemma after_ext start f g ls ls' : (forall key, f key = g key) -> after start f ls ls' -> after start g ls ls'.
Proof. intros E [L1 L2 M O N]. split; try done; intros idx; rewrite <- E; [apply O|apply N]. Qed.
Lemma after_trans start f g ls1 ls2 ls3 : after start f ls1 ls2 -> after start g ls2 ls3 ->
  after start (fun key => match f key with Some s => Some s | None => g key end) ls1 ls3.
Proof.
  intros [L1 L2 M O N] [L1' L2' M' O' N']. split; [congruence|congruence|done| |].
  - intros idx b E D. destruct (O idx b E) as [E2 <-]; [destruct D as [|D]; [by left|right; by destruct (f _)]|].
    apply O'; [done|]. destruct D as [|D]; [by left|right; by destruct (f _)].
  - intros idx s E D. destruct (f (start + Z.of_nat idx)) as [s'|] eqn:Ef.
    + injection D as ->. destruct (N idx s E Ef) as [E2 <-]. by apply O'; [|left].
    + destruct (O idx 0 E (or_intror Ef)) as [E2 _]. by apply N'.
Qed.

Lemma unset_found l idx : l !! idx = Some 0 -> zlen (filter unset (<[idx := 1]> l)) = zlen (filter unset l) - 1.
Proof.
  intros E. pose proof (lookup_lt_Some _ _ _ E). apply take_drop_middle in E. rewrite <- E at 2. rewrite insert_take_drop by done.
  rewrite !filter_app, !filter_cons. rewrite decide_False by done. rewrite decide_True by done. rewrite !zlen_app. unfold zlen. simpl. lia.
Qed.
Lemma none_unset l idx : zlen (filter unset l) = 0 -> l !! idx <> Some 0.
Proof.
  intros Z E. assert (0 ∈ filter unset l) as He by (apply list_elem_of_filter; split; [done|by eapply list_elem_of_lookup_2]).
  unfold zlen in Z. destruct (filter unset l); [by apply elem_of_nil in He|]. simpl in Z. lia.
Qed.

Lemma after_found i start idx s ls : counted ls -> versions ls !! idx = Some 0 -> 
  after start (fun key => if key =? start + Z.of_nat idx then Some s else None) ls (set_found i idx s ls).
Proof.
  intros [M L] E. pose proof (lookup_lt_Some _ _ _ E). split; simpl; rewrite ?length_insert; [done|done|by rewrite unset_found, M| |].
  - intros j b Ej D. destruct (decide (j = idx)) as [->|N]; [|by rewrite !list_lookup_insert_ne].
    destruct D as [D|D]; [congruence|]. by rewrite Z.eqb_refl in D.
  - intros j s' Ej D. destruct (Z.eqb_spec (start + Z.of_nat j) (start + Z.of_nat idx)); [|done]. assert (j = idx) as -> by lia. injection D as ->.
    rewrite !list_lookup_insert_eq; [done|lia|done].
Qed.

Lemma lookup_key_above key es : Forall (fun e : entry => key < e.1) es -> lookup_key key es = None.
Proof. induction 1 as [|[k v] es L F IH]; [done|]. simpl in *. by rewrite (proj2 (Z.eqb_neq _ _)) by lia. Qed.

Lemma scan_after i start num ud r : forall ls, counted ls -> zlen (versions ls) = num -> sorted r -> Forall (fun e : entry => start <= e.1) r ->
  after start (fun key => source_of ud <$> lookup_key key r) ls (scan_pure i start num ud r ls).
Proof.
  induction r as [|[k v] r IH]; intros ls C Lv S F; [by apply after_none|]. cbn [scan_pure]. apply Forall_cons in F as [Lk F]. simpl in Lk.
  pose proof (sorted_app [(k, v)] r S) as (_ & S' & Sk). assert (Forall (fun e : entry => k <= e.1) r) as Fk.
  { apply Forall_forall. intros e He. apply (Sk (k, v) e); [by constructor|done]. }
  destruct (Z.eqb_spec (missing ls) 0) as [M|M].
  { apply after_none; [done|]. intros idx E. destruct C as [C _]. rewrite M in C. by apply (none_unset _ idx) in E. }
  destruct (Z.leb_spec (start + num) k) as [L|L].
  { apply after_none; [done|]. intros idx E%lookup_lt_Some. unfold zlen in Lv. rewrite lookup_key_above; [done|]. constructor; [simpl; lia|].
    eapply Forall_impl; [exact Fk|]. simpl. lia. }
  set (idx := Z.to_nat (k - start)). assert (start + Z.of_nat idx = k) as Ei by lia.
  destruct (bool_decide_reflect (versions ls !! idx = Some 0)) as [E|E].
  - pose proof (after_found i start idx (source_of ud v) ls C E) as A. eapply after_ext; [|eapply after_trans; [exact A|apply IH; [by eapply after_counted| |done|done]]].
    + intros key. simpl. rewrite Ei. rewrite (Z.eqb_sym key k). by destruct (k =? key).
    + unfold zlen. simpl. by rewrite length_insert.
  - specialize (IH ls C Lv S' F). destruct IH as [L1 L2 M' O N]. split; [done|done|done| |].
    + intros j b Ej D. apply O; [done|]. destruct D as [D|D]; [by left|]. simpl in D. by destruct (k =? start + Z.of_nat j); [|right].
    + intros j s Ej D. apply N; [done|]. simpl in D. destruct (Z.eqb_spec k (start + Z.of_nat j)); [|done].
      assert (j = idx) as -> by lia. done.
Qed.

Lemma lookup_at_least start key es : start <= key -> lookup_key key (at_least start es) = lookup_key key es.
Proof.
  intros L. induction es as [|[k v] es IH]; [done|]. unfold at_least in *. rewrite filter_cons. simpl. case_decide; simpl.
  - by rewrite IH.
  - rewrite IH. by rewrite (proj2 (Z.eqb_neq _ _)) by lia.
Qed.
Lemma at_least_forall (P : entry -> Prop) start es : Forall P es -> Forall (fun e => start <= e.1 /\ P e) (at_least start es).
Proof. intros F. apply Forall_forall. intros e [L He]%list_elem_of_filter. split; [done|]. rewrite Forall_forall in F. by apply F. Qed.
Lemma at_least_sorted start es : sorted es -> sorted (at_least start es).
Proof.
  unfold sorted, at_least. induction es as [|e es IH]; [done|]. intros S. inversion S as [|? ? S' F]; subst. rewrite filter_cons. case_decide; [|by apply IH].
  simpl. constructor; [by apply IH|]. apply Forall_forall. intros k [x [-> [_ Hx]%list_elem_of_filter]]%list_elem_of_fmap.
  rewrite Forall_forall in F. apply F. by apply list_elem_of_fmap_2.
Qed.

(** ** Levels *)

Section Levels.
Context `{Shape, !Wide}.
Implicit Types (st : SimpleTree).

(** The level has no tree, or the image of one whose values refer to chunks of
    its table. *)
Definition level_ok (img : option (list node)) (level : option (list entry * list Z)) : Prop :=
  match img, level with
  | None, None => True
  | Some m, Some (es, ud) => writable es ud /\ sorted es /\ Forall (refers ud) es /\ exists st st', write_tree es ud st = (st', Ok m)
  | _, _ => False
  end.

Lemma level_tree m es ud : level_ok (Some m) (Some (es, ud)) -> exists ls, finished m ls /\ entries ls = es /\ user_ok m ud.
Proof.
  intros (W & _ & _ & st & st' & E). assert (wp (write_tree es ud) (fun img _ => exists ls, finished img ls /\ entries ls = es /\ user_ok img ud) st) as Hw.
  { apply wp_write_tree; [done|]. eauto. }
  unfold wp in Hw. by rewrite E in Hw.
Qed.

Lemma wp_scan_levels fuel start num trees levels : Forall2 level_ok trees levels -> 0 <= start < 2 ^ 48 -> num < 2 ^ 31 ->
  (forall es ud, Some (es, ud) ∈ levels -> (length es < fuel)%nat) -> forall i ls st (Q : lookup_state -> SimpleTree -> Prop),
  counted ls -> zlen (versions ls) = num -> (forall ls' st', after start (resolve levels) ls ls' -> Q ls' st') ->
  wp (scan_levels fuel i start num trees ls) Q st.
Proof.
  intros F Hs Hn. induction F as [|img level trees levels Hl F IH]; intros Lf i ls st Q C Lv HQ.
  { cbn [scan_levels]. wp_step. apply HQ. by apply after_none. }
  assert (forall es ud, Some (es, ud) ∈ levels -> (length es < fuel)%nat) as Lf' by (intros es ud He; apply (Lf es ud); by right).
  destruct img as [m|], level as [[es ud]|]; try done; cbn [scan_levels].
  2:{ apply IH; [done|done|done|]. exact HQ. }
  destruct (level_tree _ _ _ Hl) as (tl & Ft & Ee & U). destruct Hl as ((B48 & _) & S & R & _). wp_step. eapply wp_open; [exact Ft|]. intros st1 E1.
  assert (internal_key start = start) as Ek by (unfold internal_key; apply Z.mod_small; lia).
  wp_step. eapply (wp_find_points start tl); [by rewrite E1|by rewrite Ee|]. rewrite Ek, Ee. intros r Hr. wp_step.
  apply wp_mono with (Q := fun ls' _ => after start (fun key => source_of ud <$> lookup_key key (at_least start es)) ls ls').
  - destruct r as [it|]; [|wp_step; rewrite Hr; by apply after_none]. destruct Hr as [P _]. wp_step. eapply wp_mono; [by apply U|]. intros cud s [-> Eu].
    pose proof (at_least_forall _ start es R) as R'. pose proof (at_least_forall _ start es B48) as B'.
    eapply wp_scan_entries; [exact Eu|exact P| |done|done| |done|].
    + eapply Nat.le_lt_trans; [apply length_filter|]. apply (Lf es ud). by left.
    + apply Forall_forall. intros e He. rewrite Forall_forall in R', B'. destruct (R' e He), (B' e He). split; [lia|done].
    + apply scan_after; [done|done|by apply at_least_sorted|]. eapply Forall_impl; [exact R'|]. by intros e [? _].
  - intros ls1 s A. apply IH; [done|by eapply after_counted|unfold zlen in *; by rewrite (af_versions _ _ _ _ A)|]. intros ls2 st2 A2. apply HQ.
    destruct (after_trans _ _ _ _ _ _ A A2) as [L1 L2 M O N]. split; [done|done|done| |].
    + intros idx b E D. apply O; [done|]. rewrite lookup_at_least by lia. simpl in D. by destruct (lookup_key _ es).
    + intros idx s' E D. apply N; [done|]. rewrite lookup_at_least by lia. simpl in D. by destruct (lookup_key _ es).
Qed.
End Levels.

(** ** Claim *)

(** C27: A lookup finds the youngest data.  For the levels of an image, each empty or
    the image of a sorted index tree, and keys [start], [start + 1], ... below 2^48: a key that the caller
    has not set yet gets the chunk, offset and size of its entry in the first
    level that has one, and its mark; a key that no level has stays unset and
    without a source, and those the caller had set are left alone.  [missing] is
    the number of keys that are still unset.  So the search per tree, the end of
    the loops at the last key or when nothing is missing, and the table of
    chunks in the user data implement the map that the levels stand for. *)
Theorem dubtree_lookup_youngest `{Shape, !Wide} fuel start (map : list Z) trees levels (st : SimpleTree) :
  Forall2 level_ok trees levels -> (forall es ud, Some (es, ud) ∈ levels -> (length es < fuel)%nat) ->
  0 <= start < 2 ^ 48 -> zlen map < 2 ^ 31 ->
  wp (dubtree_lookup fuel start map trees)
     (fun ls _ => missing ls = zlen (filter unset (versions ls)) /\
        forall idx b, map !! idx = Some b ->
          let s := resolve levels (start + Z.of_nat idx) in
          if b =? 0 then sources ls !! idx = Some (default no_source s) /\ versions ls !! idx = Some (match s with Some _ => 1 | None => 0 end)
          else sources ls !! idx = Some no_source /\ versions ls !! idx = Some b) st.
Proof.
  intros F Lf Hs Hn. unfold dubtree_lookup. eapply wp_scan_levels; [exact F|done|done|exact Lf| |done|].
  { split; [done|]. cbn [sources versions]. by rewrite length_replicate. }
  intros ls st' [L1 L2 M O N]. cbn [sources versions] in *. split; [done|]. intros idx b E. pose proof (lookup_lt_Some _ _ _ E) as Li. cbv zeta.
  assert (replicate (length map) no_source !! idx = Some no_source) as Er by (by apply lookup_replicate_2).
  destruct (Z.eqb_spec b 0) as [->|Nb].
  - destruct (resolve levels (start + Z.of_nat idx)) as [s|] eqn:Es.
    + destruct (N idx s E Es) as [E1 E2]. by split.
    + destruct (O idx 0 E (or_intror Es)) as [E1 E2]. split; [by rewrite E2|done].
  - destruct (O idx b E (or_introl Nb)) as [E1 E2]. split; [by rewrite E2|done].
Qed.

#[local] Instance narrow_shape : Shape := {| SIMPLETREE_INNER_M := 2; SIMPLETREE_LEAF_M := 2 |}.
#[local] Instance narrow_wide : Wide.
Proof. split; simpl; lia. Qed.
Definition chunk_table (id : Z) : list Z := replicate 32 0 ++ le_bytes 8 id.
Definition image_of (es : list entry) (ud : list Z) : list node :=
  match snd (write_tree es ud {| nodes := []; prev := 0%nat; mem := [] |}) with Ok m => m | _ => [] end.
Definition young : list entry := (fun k => (k, value k)) <$> [3; 5; 6].
Definition old : list entry := (fun k => (k, value (100 + k))) <$> seqZ 0 8.

Lemma level_run es ud : bool_decide (in_48 es) = true -> (length es <? capacity)%nat = true -> (16 * zlen es + zlen ud + 2 <? 2 ^ 30) = true ->
  (zlen ud <=? SIMPLETREE_NODESIZE - META_OFFSET - sizeof_meta) = true -> bool_decide (Sorted Z.le es.*1) = true ->
  forallb (fun e => (1 <=? chunk e.2) && (CHUNK_IDS + 8 * chunk e.2 <=? zlen ud)) es = true ->
  match snd (write_tree es ud {| nodes := []; prev := 0%nat; mem := [] |}) with Ok _ => true | _ => false end = true ->
  level_ok (Some (image_of es ud)) (Some (es, ud)).
Proof.
  intros H1%bool_decide_eq_true_1 H2%Nat.ltb_lt H3%Z.ltb_lt H4%Z.leb_le H5%bool_decide_eq_true_1 H6 H7. unfold image_of.
  split_and!; [split_and!; [done|done|done|intros [? _]; lia]| | |].
  - apply Sorted_StronglySorted; [intros a b c; lia|done].
  - apply Forall_forall. intros e He. rewrite forallb_forall in H6. apply list_elem_of_In in He. specialize (H6 e He).
    apply andb_prop in H6 as [?%Z.leb_le ?%Z.leb_le]. by split.
  - exists {| nodes := []; prev := 0%nat; mem := [] |}. destruct (write_tree es ud _) as [st' r]. simpl in *. exists st'. by destruct r.
Qed.

Lemma dubtree_lookup_youngest_witness :
  wp (dubtree_lookup 100 4 [0; 0; 7; 0; 0] [None; Some (image_of young (chunk_table 11)); Some (image_of old (chunk_table 22))])
     (fun ls _ => sources ls !! 1%nat = Some {| chunk_id := 11; src_offset := 5; src_size := 16 |} /\
                  sources ls !! 3%nat = Some {| chunk_id := 22; src_offset := 107; src_size := 16 |} /\
                  versions ls !! 2%nat = Some 7 /\ versions ls !! 4%nat = Some 0) {| nodes := []; prev := 0%nat; mem := [] |}.
Proof.
  eapply wp_mono; [apply (dubtree_lookup_youngest 100 4 [0; 0; 7; 0; 0] _ [None; Some (young, chunk_table 11); Some (old, chunk_table 22)])|].
  - constructor; [done|]. constructor; [by apply level_run; vm_compute|]. constructor; [by apply level_run; vm_compute|]. constructor.
  - intros es ud He. repeat (apply elem_of_cons in He as [He|He]; [simplify_eq; vm_compute; lia|]). by apply elem_of_nil in He.
  - lia.
  - vm_compute. reflexivity.
  - intros ls s [_ H]. pose proof (H 1%nat 0 eq_refl) as H1. pose proof (H 2%nat 7 eq_refl) as H2. pose proof (H 3%nat 0 eq_refl) as H3. pose proof (H 4%nat 0 eq_refl) as H4.
    vm_compute in H1, H2, H3, H4. destruct H1, H2, H3, H4. split_and!; assumption.
Defined.
