(* ===== verification/LruCache.v ===== *)
(** * The cache of open chunks

    src/dm/block-swap/lrucache.h: a tree of bits over the lines, whose path names
    the line that is to be evicted next. *)

From Stdlib Require Import ZArith Lia.
From stdpp Require Import base list numbers.
From S2P Require Import Prelude.

Open Scope Z_scope.
Open Scope se_scope.

(** ** Data *)

Record LruCacheLine : Type := { key : Z; value : Z; users : Z; del : Z; dirty : Z }.
Definition no_line : LruCacheLine := {| key := 0; value := 0; users := 0; del := 0; dirty := 0 |}.
(** Numbers of lines and nodes are [nat]; up to 30 levels they fit an [int]. *)
Record LruCache : Type := { log_lines : nat; bits : list Z; lines : list LruCacheLine }.

Definition set_bits (l : list Z) (fc : LruCache) : LruCache := {| log_lines := log_lines fc; bits := l; lines := lines fc |}.
Definition get_bit (i : nat) : SE LruCache Z := l <- gets bits;; match l !! i with Some b => ret b | None => bug end.
Definition put_bit (i : nat) (b : Z) : SE LruCache unit :=
  l <- gets bits;; bug_if (negb (i <? length l)%nat);; modify (set_bits (<[i := b]> l)).

(** ** Operations *)

Definition lru_cache_innner_nodes (fc : LruCache) : nat := (2 ^ log_lines fc - 1)%nat.

(** [a] and [b]: the allocations succeed. *)
Definition lru_cache_init (n : nat) (a b : bool) : SE LruCache unit :=
  modify (fun fc => {| log_lines := n; bits := if a then replicate (2 ^ n - 1) 0 else []; lines := lines fc |});;
  fail_if (negb a) (-1);;
  modify (fun fc => {| log_lines := n; bits := if b then bits fc else []; lines := if b then replicate (2 ^ n) no_line else [] |});;
  fail_if (negb b) (-1).
Definition lru_cache_clear : SE LruCache unit :=
  modify (fun fc => {| log_lines := log_lines fc; bits := replicate (2 ^ log_lines fc - 1) 0; lines := replicate (2 ^ log_lines fc) no_line |}).

Fixpoint evict_path (k : nat) (child : nat) : SE LruCache nat :=
  match k with
  | O => ret child
  | S k =>
      let parent := child in
      b <- get_bit parent;;
      put_bit parent (Z.lxor b 1);;
      evict_path k (2 * parent + 1 + Z.to_nat b)%nat
  end.
Definition lru_cache_evict_line : SE LruCache nat :=
  fc <- get;;
  child <- evict_path (log_lines fc) 0%nat;;
  ret (child - lru_cache_innner_nodes fc)%nat.

(** [fuel] bounds the levels. *)
Fixpoint touch_path (fuel : nat) (child : nat) : SE LruCache unit :=
  if (child =? 0)%nat then ret tt
  else
    match fuel with
    | O => bug
    | S fuel =>
        let parent := Nat.div2 (child - 1) in
        put_bit parent (if (child =? 2 * parent + 1)%nat then 1 else 0);;
        touch_path fuel parent
    end.
Definition lru_cache_touch_line (line : nat) : SE LruCache LruCacheLine :=
  fc <- get;;
  bug_if (negb (line <? 2 ^ log_lines fc)%nat);;
  touch_path (log_lines fc) (line + lru_cache_innner_nodes fc)%nat;;
  match lines fc !! line with Some cl => ret cl | None => bug end.

(** [n] evictions *)
Fixpoint lru_cache_evictions (n : nat) : SE LruCache (list nat) :=
  match n with
  | O => ret []
  | S n => x <- lru_cache_evict_line;; l <- lru_cache_evictions n;; ret (x :: l)
  end.

(** ** The tree *)

Inductive ptree : Type :=
| PLeaf (n : nat)
| PNode (b : bool) (l r : ptree).

Fixpoint pevict (t : ptree) : nat * ptree :=
  match t with
  | PLeaf n => (n, PLeaf n)
  | PNode true l r => let '(n, r) := pevict r in (n, PNode false l r)
  | PNode false l r => let '(n, l) := pevict l in (n, PNode true l r)
  end.
Fixpoint pevicts (k : nat) (t : ptree) : list nat * ptree :=
  match k with
  | O => ([], t)
  | S k => let '(n, t) := pevict t in let '(l, t) := pevicts k t in (n :: l, t)
  end.
Fixpoint leaves (t : ptree) : list nat := match t with PLeaf n => [n] | PNode _ l r => leaves l ++ leaves r end.
Fixpoint perfect (h : nat) (t : ptree) : Prop :=
  match h, t with
  | O, PLeaf _ => True
  | S h, PNode _ l r => perfect h l /\ perfect h r
  | _, _ => False
  end.
(** The leaf that the path of opposite bits leads to *)
Fixpoint coldest (t : ptree) : nat := match t with PLeaf n => n | PNode b l r => if b then coldest l else coldest r end.

(** Two evictions of a node are one of each of its children. *)
Lemma pevicts_double k : forall b l r, exists out,
  pevicts (2 * k) (PNode b l r) = (out, PNode b (pevicts k l).2 (pevicts k r).2) /\
  out ≡ₚ (pevicts k l).1 ++ (pevicts k r).1 /\
  ((0 < k)%nat -> list.last out = list.last (pevicts k (if b then l else r)).1).
Proof.
  induction k as [|k IH]; intros b l r; [exists []; split_and!; [done|done|lia]|].
  replace (2 * S k)%nat with (S (S (2 * k))) by lia. cbn [pevicts].
  destruct (pevict l) as [nl l'] eqn:El, (pevict r) as [nr r'] eqn:Er. destruct (IH b l' r') as (out & E & P & La).
  assert (forall (x y : nat) (o : list nat), list.last out = list.last o -> list.last (x :: y :: out) = list.last (y :: o)) as Lc.
  { intros x y o Eo. rewrite !last_cons, Eo. by destruct (list.last o). }
  assert (list.last out = list.last (pevicts k (if b then l' else r')).1) as La'.
  { destruct k; [|apply La; lia]. simpl in E. injection E as <-. by destruct b. }
  destruct b; cbn [pevict]; rewrite ?El, ?Er; cbn [pevict]; rewrite ?El, ?Er, E; destruct (pevicts k l') as [ol tl], (pevicts k r') as [or tr]; cbn [fst snd] in *.
  - exists (nr :: nl :: out). split_and!; [done| |intros _; by apply Lc]. rewrite P. simpl. rewrite <- (Permutation_middle ol or nr). by constructor.
  - exists (nl :: nr :: out). split_and!; [done| |intros _; by apply Lc]. rewrite P. simpl. rewrite <- (Permutation_middle ol or nr). by constructor.
Qed.

(** As many evictions as there are lines evict each once, the coldest one last,
    and lead back to the same tree. *)
Lemma pevicts_round h : forall t, perfect h t ->
  (pevicts (2 ^ h) t).1 ≡ₚ leaves t /\ (pevicts (2 ^ h) t).2 = t /\ list.last (pevicts (2 ^ h) t).1 = Some (coldest t).
Proof.
  induction h as [|h IH]; intros [n|b l r] Pf; try done. destruct Pf as [Pl Pr]. rewrite Nat.pow_succ_r'.
  destruct (pevicts_double (2 ^ h) b l r) as (out & -> & P & La). destruct (IH l Pl) as (P1 & T1 & L1), (IH r Pr) as (P2 & T2 & L2).
  cbn [fst snd]. rewrite T1, T2. split_and!; [rewrite P; simpl; by rewrite P1, P2|done|].
  rewrite La by (pose proof (Nat.pow_nonzero 2 h); lia). simpl. by destruct b.
Qed.

(** ** The bits as a tree *)

Fixpoint view (l : list Z) (h p : nat) : ptree :=
  match h with
  | O => PLeaf p
  | S h => PNode (bool_decide (l !! p = Some 1)) (view l h (2 * p + 1)) (view l h (2 * p + 2))
  end.
(** The nodes below [p] *)
Fixpoint in_sub (h p i : nat) : Prop :=
  match h with
  | O => False
  | S h => i = p \/ in_sub h (2 * p + 1) i \/ in_sub h (2 * p + 2) i
  end.

Lemma in_sub_range h : forall p i, in_sub h p i -> exists d, (2 ^ d * (p + 1) <= i + 1 < 2 ^ d * (p + 2) /\ d < h)%nat.
Proof.
  induction h as [|h IH]; intros p i; [done|]. intros [->|[(d & R & L)%IH|(d & R & L)%IH]].
  - exists 0%nat. simpl. lia.
  - exists (S d). rewrite Nat.pow_succ_r'. nia.
  - exists (S d). rewrite Nat.pow_succ_r'. nia.
Qed.
Lemma in_sub_self h p : ~ in_sub h (2 * p + 1) p /\ ~ in_sub h (2 * p + 2) p.
Proof.
  split; intros (d & R & _)%in_sub_range; pose proof (Nat.pow_nonzero 2 d); nia.
Qed.
Lemma in_sub_disjoint h p i : in_sub h (2 * p + 1) i -> in_sub h (2 * p + 2) i -> False.
Proof.
  intros (d & R & _)%in_sub_range (e & R' & _)%in_sub_range. pose proof (Nat.pow_nonzero 2 d). pose proof (Nat.pow_nonzero 2 e).
  destruct (Nat.lt_trichotomy d e) as [L|[->|L]]; [|nia|].
  - replace e with (S d + (e - S d))%nat in R' by lia. rewrite Nat.pow_add_r, Nat.pow_succ_r' in R'. pose proof (Nat.pow_nonzero 2 (e - S d)). nia.
  - replace d with (S e + (d - S e))%nat in R by lia. rewrite Nat.pow_add_r, Nat.pow_succ_r' in R. pose proof (Nat.pow_nonzero 2 (d - S e)). nia.
Qed.

Lemma view_ext l l' h : forall p, (forall i, in_sub h p i -> l' !! i = l !! i) -> view l' h p = view l h p.
Proof.
  induction h as [|h IH]; intros p E; [done|]. simpl. rewrite (E p) by (by left). f_equal; apply IH; intros i Hi; apply E; [by right; left|by right; right].
Qed.
Lemma view_perfect l h : forall p, perfect h (view l h p).
Proof. induction h as [|h IH]; intros p; [done|]. by split. Qed.
Lemma view_leaves l h : forall p, leaves (view l h p) = seq (2 ^ h * (p + 1) - 1) (2 ^ h).
Proof.
  induction h as [|h IH]; intros p; [simpl; f_equal; lia|]. cbn [view leaves]. rewrite !IH. rewrite Nat.pow_succ_r'. pose proof (Nat.pow_nonzero 2 h).
  replace (2 * 2 ^ h)%nat with (2 ^ h + 2 ^ h)%nat by lia. rewrite seq_app. f_equal; f_equal; nia.
Qed.

(** ** Eviction *)

Definition bit_ok (b : Z) : Prop := b = 0 \/ b = 1.
Record cache_ok (fc : LruCache) : Prop := {
  co_bits : length (bits fc) = (2 ^ log_lines fc - 1)%nat;
  co_bit : Forall bit_ok (bits fc);
  co_lines : length (lines fc) = (2 ^ log_lines fc)%nat
}.
Definition tree_of (fc : LruCache) : ptree := view (bits fc) (log_lines fc) 0.

Lemma in_sub_root k i : in_sub k 0 i -> (i < 2 ^ k - 1)%nat.
Proof.
  intros (d & R & L)%in_sub_range. assert (2 ^ S d <= 2 ^ k)%nat by (apply Nat.pow_le_mono_r; lia). rewrite Nat.pow_succ_r' in *. lia.
Qed.

(** One step down *)
Definition child_of (p : nat) (d : bool) : nat := if d then (2 * p + 2)%nat else (2 * p + 1)%nat.
Lemma child_of_other h p d i : in_sub h (child_of p d) i -> in_sub h (child_of p (negb d)) i -> False.
Proof. destruct d; intros H1 H2; [exact (in_sub_disjoint _ _ _ H2 H1)|exact (in_sub_disjoint _ _ _ H1 H2)]. Qed.
Lemma child_of_self h p d : ~ in_sub h (child_of p d) p.
Proof. destruct (in_sub_self h p). by destruct d. Qed.
Lemma pevict_node b l r : pevict (PNode b l r) =
  let '(n, t) := pevict (if b then r else l) in (n, PNode (negb b) (if b then l else t) (if b then t else r)).
Proof. by destruct b. Qed.
Lemma view_node l h p d : l !! p = Some (Z.b2z d) -> view l (S h) p = PNode d (view l h (child_of p false)) (view l h (child_of p true)).
Proof. intros E. cbn [view]. f_equal. rewrite E. by destruct d. Qed.

Lemma evict_view h p d (l l' : list Z) : let l1 := <[p := Z.b2z (negb d)]> l in
  l !! p = Some (Z.b2z d) -> (forall i, ~ in_sub h (child_of p d) i -> l' !! i = l1 !! i) ->
  view l' h (child_of p d) = (pevict (view l1 h (child_of p d))).2 ->
  pevict (view l (S h) p) = ((pevict (view l1 h (child_of p d))).1, view l' (S h) p).
Proof.
  intros l1 E E' V. pose proof (lookup_lt_Some _ _ _ E) as L.
  assert (forall c, view l1 h (child_of p c) = view l h (child_of p c)) as V1.
  { intros c. apply view_ext. intros i Hi. apply list_lookup_insert_ne. intros ->. by apply child_of_self in Hi. }
  assert (l' !! p = Some (Z.b2z (negb d))) as Ep by (rewrite E' by apply child_of_self; by apply list_lookup_insert_eq).
  assert (view l' h (child_of p (negb d)) = view l h (child_of p (negb d))) as V2.
  { rewrite <- V1. apply view_ext. intros i Hi. apply E'. intros Hi'. by eapply child_of_other. }
  rewrite (view_node _ _ _ _ E), (view_node _ _ _ _ Ep), pevict_node, (V1 d) in *.
  destruct d; cbn [negb] in *; rewrite V, V2; by destruct (pevict _).
Qed.

(** After an eviction the bits on the path to the line point away from it, as a
    use would set them. *)

Definition parent_of (c : nat) : nat := Nat.div2 (c - 1).
Fixpoint climb (h c : nat) : nat := match h with O => c | S h => climb h (parent_of c) end.
Fixpoint away (l : list Z) (h c : nat) : Prop :=
  match h with
  | O => True
  | S h => l !! parent_of c = Some (if (c =? 2 * parent_of c + 1)%nat then 1 else 0) /\ away l h (parent_of c)
  end.
Lemma climb_S h : forall c, climb (S h) c = parent_of (climb h c).
Proof. induction h as [|h IH]; intros c; [done|]. change (climb (S (S h)) c) with (climb (S h) (parent_of c)). by rewrite IH. Qed.
Lemma away_S l h : forall c, away l h c -> (let q := climb h c in l !! parent_of q = Some (if (q =? 2 * parent_of q + 1)%nat then 1 else 0)) -> away l (S h) c.
Proof. induction h as [|h IH]; intros c A E; [by split|]. destruct A as [A1 A2]. split; [done|]. by apply IH. Qed.
Lemma parent_child p d : parent_of (child_of p d) = p.
Proof. unfold parent_of, child_of. destruct d; [replace (2 * p + 2 - 1)%nat with (S (2 * p)) by lia; by rewrite Nat.div2_succ_double|].
  replace (2 * p + 1 - 1)%nat with (2 * p)%nat by lia. by rewrite Nat.div2_double. Qed.
Lemma child_left p d : (child_of p d =? 2 * parent_of (child_of p d) + 1)%nat = negb d.
Proof. rewrite parent_child. unfold child_of. destruct d; [apply Nat.eqb_neq; lia|apply Nat.eqb_refl]. Qed.

Lemma wp_evict_path h : forall p fc (Q : nat -> LruCache -> Prop), (forall i, in_sub h p i -> (i < length (bits fc))%nat) -> Forall bit_ok (bits fc) ->
  (forall l', length l' = length (bits fc) -> Forall bit_ok l' -> (forall i, ~ in_sub h p i -> l' !! i = bits fc !! i) ->
    view l' h p = (pevict (view (bits fc) h p)).2 -> away l' h (pevict (view (bits fc) h p)).1 -> climb h (pevict (view (bits fc) h p)).1 = p ->
    Q (pevict (view (bits fc) h p)).1 (set_bits l' fc)) ->
  wp (evict_path h p) Q fc.
Proof.
  induction h as [|h IH]; intros p fc Q L F HQ; [by wp_step; destruct fc; apply (HQ bits0)|]. cbn [evict_path].
  assert (p < length (bits fc))%nat as Lp by (apply L; by left). destruct (lookup_lt_is_Some_2 (bits fc) p Lp) as [b Eb].
  assert (exists d, b = Z.b2z d) as [d ->]. { destruct (Forall_lookup_1 _ _ _ _ F Eb) as [->| ->]; [by exists false|by exists true]. }
  set (l1 := <[p := Z.b2z (negb d)]> (bits fc)). assert (length l1 = length (bits fc)) as L1 by apply length_insert.
  assert (forall i, in_sub h (child_of p d) i -> in_sub (S h) p i) as Sub by (intros i Hi; right; destruct d; [by right|by left]).
  wp_step. unfold get_bit. wp_step. wp_step. rewrite Eb. wp_step. wp_step. unfold put_bit. wp_step. wp_step. wp_step. apply wp_bug_if; [by apply negb_false_iff, Nat.ltb_lt|]. wp_step.
  replace (Z.lxor (Z.b2z d) 1) with (Z.b2z (negb d)) by by destruct d. fold l1.
  replace (2 * p + 1 + Z.to_nat (Z.b2z d))%nat with (child_of p d) by (unfold child_of; destruct d; simpl; lia).
  apply IH; unfold set_bits; cbn [bits log_lines lines]; [intros i Hi; rewrite L1; by apply L, Sub|apply Forall_insert; [done|destruct d; [by left|by right]]|].
  intros l' L' F' E' V' Aw Cl. pose proof (evict_view h p d (bits fc) l' Eb E' V') as Ev. fold l1 in Ev.
  assert ((pevict (view l1 h (child_of p d))).1 = (pevict (view (bits fc) (S h) p)).1) as Ex by by rewrite Ev. rewrite Ex in *.
  apply (HQ l'); [congruence|done| |by rewrite Ev| |by rewrite climb_S, Cl, parent_child].
  - intros i Ni. rewrite E' by (intros Hi; by apply Ni, Sub). apply list_lookup_insert_ne. intros ->. apply Ni. by left.
  - apply away_S; [done|]. cbv zeta. rewrite Cl, child_left, parent_child, E' by apply child_of_self.
    unfold l1. rewrite list_lookup_insert_eq by done. by destruct d.
Qed.

Lemma wp_evict_line fc (Q : nat -> LruCache -> Prop) : cache_ok fc ->
  (forall fc', cache_ok fc' -> log_lines fc' = log_lines fc -> tree_of fc' = (pevict (tree_of fc)).2 ->
    Q ((pevict (tree_of fc)).1 - (2 ^ log_lines fc - 1))%nat fc') ->
  wp lru_cache_evict_line Q fc.
Proof.
  intros [Lb Fb Ll] HQ. unfold lru_cache_evict_line. wp_step. wp_step. apply wp_evict_path; [|done|].
  - intros i Hi. rewrite Lb. by apply in_sub_root.
  - intros l' L' F' _ V _ _. wp_step. apply HQ; [|done|done]. split; unfold set_bits; cbn [bits log_lines lines]; [congruence|done|done].
Qed.
Lemma wp_evictions n : forall fc (Q : list nat -> LruCache -> Prop), cache_ok fc ->
  (forall fc', Q ((fun x => x - (2 ^ log_lines fc - 1))%nat <$> (pevicts n (tree_of fc)).1) fc') ->
  wp (lru_cache_evictions n) Q fc.
Proof.
  induction n as [|n IH]; intros fc Q C HQ; [exact (HQ fc)|]. cbn [lru_cache_evictions]. wp_step. apply wp_evict_line; [done|].
  intros fc' C' El Et. wp_step. apply IH; [done|]. intros fc2. wp_step. rewrite El, Et. specialize (HQ fc2). cbn [pevicts] in HQ.
  destruct (pevict (tree_of fc)) as [x t]. cbn [fst snd] in *. by destruct (pevicts n t).
Qed.

(** ** Use of a line *)

Lemma wp_touch_path k leaf fuel : forall j child fc (Q : unit -> LruCache -> Prop),
  (j + fuel = k)%nat -> (2 ^ fuel <= child + 1 < 2 * 2 ^ fuel)%nat -> length (bits fc) = (2 ^ k - 1)%nat -> Forall bit_ok (bits fc) ->
  coldest (view (bits fc) j child) = leaf ->
  (forall l', length l' = length (bits fc) -> Forall bit_ok l' -> coldest (view l' k 0) = leaf -> Q tt (set_bits l' fc)) ->
  wp (touch_path fuel child) Q fc.
Proof.
  induction fuel as [|fuel IH]; intros j child fc Q Ej Lc Lb Fb Cl HQ.
  - simpl in Lc. assert (child = 0%nat) as -> by lia. simpl. wp_step. destruct fc. apply (HQ bits0); [done|done|]. by replace k with j by lia.
  - rewrite Nat.pow_succ_r' in Lc. pose proof (Nat.pow_nonzero 2 fuel). cbn [touch_path]. destruct (Nat.eqb_spec child 0) as [|_]; [lia|].
    set (p := Nat.div2 (child - 1)). assert (exists d, child = child_of p d) as [d Ed].
    { pose proof (Nat.div2_odd (child - 1)) as O. fold p in O. unfold child_of. destruct (Nat.odd (child - 1)); [exists true|exists false]; simpl in *; lia. }
    assert (2 ^ fuel <= p + 1 < 2 * 2 ^ fuel)%nat as Lp by (unfold child_of in Ed; destruct d; lia).
    assert (p < length (bits fc))%nat as Lp'. { rewrite Lb. assert (2 ^ S fuel <= 2 ^ k)%nat by (apply Nat.pow_le_mono_r; lia). rewrite Nat.pow_succ_r' in *. lia. }
    wp_step. unfold put_bit. wp_step. wp_step. wp_step. apply wp_bug_if; [by apply negb_false_iff, Nat.ltb_lt|]. wp_step.
    replace (if (child =? 2 * p + 1)%nat then 1 else 0) with (Z.b2z (negb d)).
    2:{ unfold child_of in Ed. destruct d; [by rewrite (proj2 (Nat.eqb_neq _ _)) by lia|by rewrite (proj2 (Nat.eqb_eq _ _)) by lia]. }
    set (l1 := <[p := _]> (bits fc)). apply (IH (S j)); unfold set_bits; cbn [bits log_lines lines]; [lia|lia|unfold l1; by rewrite length_insert|apply Forall_insert; [done|destruct d; [by left|by right]]| |].
    + rewrite (view_node l1 j p (negb d)) by (by apply list_lookup_insert_eq). rewrite <- Cl, Ed.
      assert (view l1 j (child_of p d) = view (bits fc) j (child_of p d)) as <-; [|by destruct d].
      apply view_ext. intros i Hi. apply list_lookup_insert_ne. intros ->. by apply child_of_self in Hi.
    + intros l' L' F' C'. apply HQ; [|done|done]. rewrite L'. unfold l1. by rewrite length_insert.
Qed.

Lemma wp_touch_same fuel : forall child fc (Q : unit -> LruCache -> Prop), (2 ^ fuel <= child + 1 < 2 * 2 ^ fuel)%nat ->
  away (bits fc) fuel child -> Q tt fc -> wp (touch_path fuel child) Q fc.
Proof.
  induction fuel as [|fuel IH]; intros child fc Q Lc A HQ.
  - simpl in Lc. assert (child = 0%nat) as -> by lia. by simpl.
  - rewrite Nat.pow_succ_r' in Lc. pose proof (Nat.pow_nonzero 2 fuel). destruct A as [E A]. cbn [touch_path]. destruct (Nat.eqb_spec child 0) as [|_]; [lia|].
    fold (parent_of child). wp_step. unfold put_bit. wp_step. wp_step. wp_step. apply wp_bug_if; [apply negb_false_iff, Nat.ltb_lt; by eapply lookup_lt_Some|]. wp_step.
    rewrite list_insert_id by done. assert (set_bits (bits fc) fc = fc) as -> by by destruct fc. apply IH; [|done|done].
    unfold parent_of. pose proof (Nat.div2_odd (child - 1)) as O. destruct (Nat.odd (child - 1)); simpl in O; lia.
Qed.
Lemma pevict_leaf t : (pevict t).1 ∈ leaves t.
Proof.
  induction t as [n|[] l IHl r IHr]; simpl; [by constructor| |].
  - destruct (pevict r). apply elem_of_app. by right.
  - destruct (pevict l). apply elem_of_app. by left.
Qed.
Lemma tree_of_leaf fc x : x ∈ leaves (tree_of fc) -> (2 ^ log_lines fc - 1 <= x < 2 * 2 ^ log_lines fc - 1)%nat.
Proof. unfold tree_of. rewrite view_leaves, Nat.add_0_l, Nat.mul_1_r. intros [? ?]%elem_of_seq. lia. Qed.

(** The use of the line that was evicted changes nothing more. *)
Lemma wp_evict_touch fc (Q : nat * LruCacheLine -> LruCache -> Prop) : cache_ok fc ->
  (forall fc' line cl, cache_ok fc' -> log_lines fc' = log_lines fc -> lines fc' = lines fc -> tree_of fc' = (pevict (tree_of fc)).2 ->
    (line + (2 ^ log_lines fc - 1))%nat = (pevict (tree_of fc)).1 -> lines fc !! line = Some cl -> Q (line, cl) fc') ->
  wp (line <- lru_cache_evict_line;; cl <- lru_cache_touch_line line;; ret (line, cl)) Q fc.
Proof.
  intros [Lb Fb Ll] HQ. pose proof (tree_of_leaf fc _ (pevict_leaf (tree_of fc))) as Lx. unfold lru_cache_evict_line. wp_step. wp_step. wp_step.
  apply wp_evict_path; [intros i Hi; rewrite Lb; by apply in_sub_root|done|]. fold (tree_of fc). set (x := (pevict (tree_of fc)).1) in *.
  intros l' L' F' _ V Aw _. wp_step. unfold lru_cache_innner_nodes. wp_step. unfold lru_cache_touch_line. wp_step. wp_step. wp_step.
  unfold set_bits. cbn [log_lines lines bits]. apply wp_bug_if; [apply negb_false_iff, Nat.ltb_lt; lia|]. wp_step. unfold lru_cache_innner_nodes. cbn [log_lines].
  replace (x - (2 ^ log_lines fc - 1) + (2 ^ log_lines fc - 1))%nat with x by lia. apply wp_touch_same; [lia|done|].
  destruct (lookup_lt_is_Some_2 (lines fc) (x - (2 ^ log_lines fc - 1))) as [cl Ecl]; [lia|]. rewrite Ecl. wp_step. wp_step.
  apply HQ; [split; cbn [bits lines log_lines]; [by rewrite L'|done|done]|done|done|done|lia|done].
Qed.

Lemma empty_cache_ok n : cache_ok {| log_lines := n; bits := replicate (2 ^ n - 1) 0; lines := replicate (2 ^ n) no_line |}.
Proof. split; cbn [bits lines log_lines]; [by rewrite length_replicate| |by rewrite length_replicate]. apply Forall_replicate. by left. Qed.
Lemma lru_cache_init_ok n fc : wp (lru_cache_init n true true) (fun _ fc => cache_ok fc) fc.
Proof. apply empty_cache_ok. Qed.
Lemma lru_cache_clear_ok fc : wp lru_cache_clear (fun _ fc => cache_ok fc) fc.
Proof. apply empty_cache_ok. Qed.

(** ** Claim *)

(** C38: The cache evicts fairly.  As many evictions as the cache has lines, from any state of its bits, evict each line
    exactly once; and a line that is touched before them is the last one.  So a
    line that is in use is never the next to go, in a cache of more than one
    line, and no line is spared for longer than a round.  *)
Theorem touched_line_evicted_last (fc : LruCache) (line : nat) : cache_ok fc -> (line < 2 ^ log_lines fc)%nat ->
  wp (lru_cache_touch_line line;; lru_cache_evictions (2 ^ log_lines fc))
     (fun l _ => l ≡ₚ seq 0 (2 ^ log_lines fc) /\ list.last l = Some line) fc.
Proof.
  intros [Lb Fb Ll] L. set (k := log_lines fc) in *. pose proof (Nat.pow_nonzero 2 k). wp_step. unfold lru_cache_touch_line. wp_step. wp_step. wp_step.
  apply wp_bug_if; [by apply negb_false_iff, Nat.ltb_lt|]. wp_step. unfold lru_cache_innner_nodes. fold k.
  apply (wp_touch_path k (line + (2 ^ k - 1)) k 0); [lia|lia|done|done|done|]. intros l' L' F' C'.
  destruct (lookup_lt_is_Some_2 (lines fc) line) as [cl ->]; [lia|]. wp_step.
  apply wp_evictions; [split; unfold set_bits; cbn [bits lines log_lines]; [by rewrite L'|done|done]|]. intros fc'. unfold tree_of, set_bits. cbn [bits log_lines]. fold k.
  destruct (pevicts_round k (view l' k 0) (view_perfect _ _ _)) as (P & _ & La). split.
  - rewrite P, view_leaves, Nat.add_0_l, Nat.mul_1_r. assert ((fun x => (x - (2 ^ k - 1))%nat) <$> seq (2 ^ k - 1) (2 ^ k) = seq 0 (2 ^ k)) as ->; [|done].
    apply list_eq. intros i. rewrite list_lookup_fmap. destruct (decide (i < 2 ^ k)%nat).
    + rewrite !lookup_seq_lt by done. simpl. f_equal. lia.
    + by rewrite !lookup_seq_ge by lia.
  - rewrite fmap_last, La, C'. simpl. f_equal. lia.
Qed.
Lemma touched_line_evicted_last_witness :
  wp (lru_cache_touch_line 5;; lru_cache_evictions 8) (fun l _ => l ≡ₚ seq 0 8 /\ list.last l = Some 5%nat)
     {| log_lines := 3; bits := [1; 0; 0; 1; 1; 0; 1]; lines := replicate 8 no_line |}.
Proof.
  apply (touched_line_evicted_last {| log_lines := 3; bits := [1; 0; 0; 1; 1; 0; 1]; lines := replicate 8 no_line |} 5).
  - split; [done| |done]. repeat constructor; by (left + right).
  - simpl. lia.
Defined.
