(* ===== verification/HashTable.v ===== *)
(** * The hash table of the swap images

    src/dm/block-swap/hashtable.c: a table with three hash functions, in which an
    insertion pushes out what is in its place. *)

From Stdlib Require Import ZArith Lia.
From stdpp Require Import base list numbers gmap.
From S2P Require Import Prelude.

Open Scope Z_scope.
Open Scope se_scope.

(** ** Data *)

Definition CUCKOO_HASHES : nat := 3.
Record HashEntry : Type := { present : bool; level : nat; e_key : Z; e_value : Z }.
Definition no_entry : HashEntry := {| present := false; level := 0; e_key := 0; e_value := 0 |}.
(** A table without an allocator of its own; where its memory comes from is left out,
    it is taken to be there.  [bits] and [load] are [int]s in the code, whose products do not
    overflow below 2^29 places. *)
Record HashTable : Type := { table : list HashEntry; tbits : nat; seed : Z; load : Z }.

Definition set_table (x : list HashEntry) (h : HashTable) : HashTable := {| table := x; tbits := tbits h; seed := seed h; load := load h |}.
Definition set_seed (x : Z) (h : HashTable) : HashTable := {| table := table h; tbits := tbits h; seed := x; load := load h |}.
Definition set_load (x : Z) (h : HashTable) : HashTable := {| table := table h; tbits := tbits h; seed := seed h; load := x |}.
Definition double_table (h : HashTable) : HashTable :=
  {| table := take (2 ^ tbits h) (table h ++ [no_entry]) ++ replicate (2 ^ tbits h) no_entry; tbits := S (tbits h); seed := seed h; load := load h |}.

Definition slot (i : nat) : SE HashTable HashEntry := t <- gets table;; match t !! i with Some e => ret e | None => bug end.
Definition put_slot (i : nat) (e : HashEntry) : SE HashTable unit :=
  t <- gets table;; bug_if (negb (i <? length t)%nat);; modify (set_table (<[i := e]> t)).

(** The tables of random numbers are an argument. *)
Class Noise : Type := { hashtable_noise : nat -> Z -> Z }.

Section Hash.
Context `{Noise}.

(** Of [n] bytes *)
Fixpoint get_hash_from (n : nat) (i : Z) (noise : Z -> Z) (x h : Z) : Z :=
  match n with
  | O => h
  | S n => get_hash_from n (i + 1) noise (Z.shiftr x 8) (Z.lxor h (noise (0x100 * i + Z.land x 0xff)))
  end.
Definition get_hash (noise : Z -> Z) (x : Z) : Z := get_hash_from 8 0 noise x 0.
Definition hash_n (h : HashTable) (x : Z) (lev : nat) : nat :=
  Z.to_nat (Z.land (get_hash (hashtable_noise lev) (Z.lxor (seed h) x)) (2 ^ Z.of_nat (tbits h) - 1)).

(** ** Insertion *)

Definition at_level (lev : nat) (e : HashEntry) : HashEntry := {| present := true; level := lev; e_key := e_key e; e_value := e_value e |}.
Definition next_level (lev : nat) : nat := if (lev =? CUCKOO_HASHES - 1)%nat then 0%nat else S lev.

(** The element that is pushed out last, if there is one *)
Fixpoint insert_from (n : nat) (bounce : HashEntry) : SE HashTable (option HashEntry) :=
  match n with
  | O => ret (Some bounce)
  | S n =>
      h <- get;;
      let hash := hash_n h (e_key bounce) (level bounce) in
      found <- slot hash;;
      put_slot hash bounce;;
      if negb (present found) then ret None
      else insert_from n (at_level (next_level (level found)) found)
  end.
Definition insert (bounce : HashEntry) : SE HashTable (option HashEntry) :=
  h <- get;; insert_from (5 * tbits h) (at_level 0 bounce).

Definition NOT_ENDED : Z := -1000.

(** The pass over the table, from index [i] on [n] entries *)
Fixpoint replace_from (n i : nat) : SE HashTable (option HashEntry) :=
  match n with
  | O => ret None
  | S n =>
      bounce <- slot i;;
      h <- get;;
      if present bounce && negb (hash_n h (e_key bounce) (level bounce) =? i)%nat then
        put_slot i {| present := false; level := level bounce; e_key := e_key bounce; e_value := e_value bounce |};;
        r <- insert bounce;;
        match r with Some e => ret (Some e) | None => replace_from n (S i) end
      else replace_from n (S i)
  end.
(** [fuel] bounds the retries. *)
Fixpoint rebuild_from (fuel : nat) (retries : Z) (bounce : HashEntry) : SE HashTable unit :=
  match fuel with
  | O => fail NOT_ENDED
  | S fuel =>
      h <- get;;
      let full := 4 * 2 ^ Z.of_nat (tbits h) <=? 5 * load h in
      let grow := full || (5 <? retries) in
      when grow (modify double_table);;
      modify (fun h => set_seed (u64 (6364136223846793005 * seed h + 1442695040888963407)) h);;
      r <- insert bounce;;
      match r with
      | Some e => rebuild_from fuel (if grow then 0 else retries + 1) e
      | None =>
          h <- get;;
          r <- replace_from (2 ^ tbits h) 0;;
          match r with
          | Some e => rebuild_from fuel (if grow then 0 else retries + 1) e
          | None => ret tt
          end
      end
  end.
Definition rebuild (fuel : nat) (bounce : HashEntry) : SE HashTable unit := rebuild_from fuel 0 bounce.

Definition hashtable_init : SE HashTable unit := modify (fun _ => {| table := []; tbits := 0; seed := 0; load := 0 |}).
Definition hashtable_clear : SE HashTable unit := hashtable_init.
Definition hashtable_insert (fuel : nat) (key value : Z) : SE HashTable unit :=
  let bounce := {| present := false; level := 0; e_key := key; e_value := value |} in
  modify (fun h => set_load (load h + 1) h);;
  h <- get;;
  if (tbits h =? 0)%nat then rebuild fuel bounce
  else
    r <- insert bounce;;
    match r with Some e => rebuild fuel e | None => ret tt end.

(** ** Search and removal *)

(** The index of the entry *)
Fixpoint find_levels (n i : nat) (key : Z) : SE HashTable (option nat) :=
  match n with
  | O => ret None
  | S n =>
      h <- get;;
      let hash := hash_n h key i in
      found <- slot hash;;
      if (e_key found =? key) && present found then ret (Some hash) else find_levels n (S i) key
  end.
Definition hashtable_find_entry (key : Z) : SE HashTable (option nat) :=
  h <- get;;
  if (tbits h =? 0)%nat then ret None else find_levels CUCKOO_HASHES 0 key.
Definition hashtable_find (key : Z) : SE HashTable (option Z) :=
  r <- hashtable_find_entry key;;
  match r with
  | Some i => e <- slot i;; ret (Some (e_value e))
  | None => ret None
  end.
Definition hashtable_delete_entry (i : nat) : SE HashTable unit :=
  e <- slot i;;
  put_slot i {| present := false; level := 0; e_key := e_key e; e_value := e_value e |};;
  modify (fun h => set_load (load h - 1) h);;
  h <- get;;
  when (load h =? 0) hashtable_clear.
Definition hashtable_delete (key : Z) : SE HashTable unit :=
  r <- hashtable_find_entry key;;
  match r with Some i => hashtable_delete_entry i | None => ret tt end.
End Hash.

(** ** Contents *)

Definition kv (e : HashEntry) : Z * Z := (e_key e, e_value e).
Definition held (e : HashEntry) : list (Z * Z) := if present e then [kv e] else [].
Definition contents (t : list HashEntry) : list (Z * Z) := concat (held <$> t).
Definition pushed (r : option HashEntry) : list (Z * Z) := match r with Some e => [kv e] | None => [] end.

Lemma contents_app t1 t2 : contents (t1 ++ t2) = contents t1 ++ contents t2.
Proof. unfold contents. by rewrite fmap_app, concat_app. Qed.
Lemma contents_insert t i e f : t !! i = Some f -> contents (<[i := e]> t) ++ held f ≡ₚ held e ++ contents t.
Proof.
  intros E. pose proof (lookup_lt_Some _ _ _ E). apply take_drop_middle in E. rewrite <- E at 2. rewrite insert_take_drop by done.
  rewrite !contents_app. change (contents (e :: drop (S i) t)) with (held e ++ contents (drop (S i) t)).
  change (contents (f :: drop (S i) t)) with (held f ++ contents (drop (S i) t)). rewrite <- !app_assoc.
  rewrite (Permutation_app_comm (contents (drop (S i) t)) (held f)). rewrite !(Permutation_app_swap_app (contents (take i t))). by rewrite (Permutation_app_swap_app (held e) (held f)).
Qed.
Lemma contents_elem t i e : t !! i = Some e -> present e = true -> kv e ∈ contents t.
Proof.
  intros E P. apply take_drop_middle in E. rewrite <- E, contents_app. apply elem_of_app. right.
  change (contents (e :: drop (S i) t)) with (held e ++ contents (drop (S i) t)). unfold held. rewrite P. by constructor.
Qed.
Lemma elem_contents t x : x ∈ contents t -> exists i e, t !! i = Some e /\ present e = true /\ kv e = x.
Proof.
  induction t as [|e t IH]; [by intros ?%elem_of_nil|]. change (contents (e :: t)) with (held e ++ contents t). intros [Hx|Hx]%elem_of_app.
  - unfold held in Hx. destruct (present e) eqn:P; [|by apply elem_of_nil in Hx]. apply list_elem_of_singleton in Hx as ->. by exists 0%nat, e.
  - destruct (IH Hx) as (i & f & Ef & Pf & Kf). by exists (S i), f.
Qed.
Lemma contents_empty n : contents (replicate n no_entry) = [].
Proof. induction n as [|n IH]; [done|]. exact IH. Qed.

(** ** Insertion and reconstruction *)

Section Proofs.
Context `{Noise}.
Implicit Types (h : HashTable) (t : list HashEntry) (e : HashEntry).

Definition sized h : Prop := (0 < tbits h)%nat /\ length (table h) = (2 ^ tbits h)%nat.
Definition placed h i e : Prop := present e = true -> hash_n h (e_key e) (level e) = i.
Definition levels_ok t : Prop := Forall (fun e => (level e < CUCKOO_HASHES)%nat) t.

Lemma hash_n_lt h x lev : (hash_n h x lev < 2 ^ tbits h)%nat.
Proof.
  unfold hash_n. apply Nat2Z.inj_lt. rewrite Nat2Z.inj_pow. change (Z.of_nat 2) with 2. set (y := get_hash _ _).
  replace (2 ^ Z.of_nat (tbits h) - 1) with (Z.ones (Z.of_nat (tbits h))) by (rewrite Z.ones_equiv; lia).
  rewrite Z.land_ones by lia. pose proof (Z.mod_pos_bound y (2 ^ Z.of_nat (tbits h)) ltac:(lia)). lia.
Qed.
Lemma wp_slot i e (Q : HashEntry -> HashTable -> Prop) h : table h !! i = Some e -> Q e h -> wp (slot i) Q h.
Proof. intros E HQ. unfold slot. wp_step. wp_step. by rewrite E. Qed.
Lemma wp_put_slot i e (Q : unit -> HashTable -> Prop) h : (i < length (table h))%nat -> Q tt (set_table (<[i := e]> (table h)) h) -> wp (put_slot i e) Q h.
Proof. intros L HQ. unfold put_slot. wp_step. wp_step. wp_step. apply wp_bug_if; [by apply negb_false_iff, Nat.ltb_lt|]. by wp_step. Qed.

(** The slots that changed hold entries that are in their place. *)
Definition changed h t t' : Prop := forall i, t' !! i = t !! i \/ exists e, t' !! i = Some e /\ placed h i e.

Lemma wp_insert_from n : forall b h (Q : option HashEntry -> HashTable -> Prop), sized h -> present b = true -> (level b < CUCKOO_HASHES)%nat -> levels_ok (table h) ->
  (forall r t', length t' = length (table h) -> levels_ok t' -> contents t' ++ pushed r ≡ₚ kv b :: contents (table h) -> changed h (table h) t' ->
    Q r (set_table t' h)) ->
  wp (insert_from n b) Q h.
Proof.
  induction n as [|n IH]; intros b h Q [Hb Hl] Pb Lb Lv HQ.
  - cbn [insert_from]. wp_step. destruct h as [t0 b0 s0 l0]. apply (HQ (Some b) t0); [done|done| |by intros i; left]. by rewrite Permutation_app_comm.
  - cbn [insert_from]. wp_step. wp_step. set (i := hash_n h (e_key b) (level b)). assert (i < length (table h))%nat as Li by (rewrite Hl; apply hash_n_lt).
    destruct (lookup_lt_is_Some_2 _ _ Li) as [f Ef]. wp_step. eapply wp_slot; [exact Ef|]. wp_step. apply wp_put_slot; [done|].
    pose proof (contents_insert (table h) i b f Ef) as Pc. unfold held at 2 in Pc. rewrite Pb in Pc. set (t1 := <[i := b]> (table h)) in *.
    assert (levels_ok t1) as Lv1 by (by apply Forall_insert). assert (length t1 = length (table h)) as L1 by apply length_insert.
    assert (changed h (table h) t1) as Ch1.
    { intros j. destruct (decide (j = i)) as [->|N]; [|left; by apply list_lookup_insert_ne]. right. exists b. split; [by apply list_lookup_insert_eq|done]. }
    destruct (present f) eqn:Pf; cbn [negb].
    + apply IH; unfold set_table; cbn [table tbits seed load].
      * split; cbn [tbits table]; [done|by rewrite L1].
      * done.
      * unfold at_level, next_level. cbn [level]. pose proof (Forall_lookup_1 _ _ _ _ Lv Ef) as Lf. simpl in Lf. unfold CUCKOO_HASHES in *.
        destruct (Nat.eqb_spec (level f) (3 - 1)); lia.
      * done.
      * intros r t' L' Lv' P' Ch'. apply (HQ r t'); [congruence|done| |].
        -- rewrite P'. change (kv (at_level (next_level (level f)) f)) with (kv f). unfold held in Pc. rewrite Pf in Pc. rewrite <- Pc. by rewrite Permutation_app_comm.
        -- intros j. destruct (Ch' j) as [E'|(e & E' & Pl)]; [|right; by exists e]. rewrite E'. apply Ch1.
    + wp_step. apply (HQ None t1); [done|done| |done]. unfold held in Pc. rewrite Pf in Pc. exact Pc.
Qed.
Lemma wp_insert b h (Q : option HashEntry -> HashTable -> Prop) : sized h -> levels_ok (table h) ->
  (forall r t', length t' = length (table h) -> levels_ok t' -> contents t' ++ pushed r ≡ₚ kv b :: contents (table h) -> changed h (table h) t' ->
    Q r (set_table t' h)) ->
  wp (insert b) Q h.
Proof. intros S L HQ. unfold insert. wp_step. wp_step. apply wp_insert_from; [done|done|unfold CUCKOO_HASHES; simpl; lia|done|done]. Qed.

Lemma placed_seed h h' i e : tbits h' = tbits h -> seed h' = seed h -> placed h i e -> placed h' i e.
Proof. intros E1 E2 P Pe. unfold hash_n. rewrite E1, E2. by apply P. Qed.

Lemma wp_replace_from n : forall i h (Q : option HashEntry -> HashTable -> Prop), sized h -> levels_ok (table h) -> (i + n = 2 ^ tbits h)%nat ->
  (forall j e, (j < i)%nat -> table h !! j = Some e -> placed h j e) ->
  (forall r t', length t' = length (table h) -> levels_ok t' -> contents t' ++ pushed r ≡ₚ contents (table h) ->
    (r = None -> forall j e, t' !! j = Some e -> placed h j e) -> Q r (set_table t' h)) ->
  wp (replace_from n i) Q h.
Proof.
  induction n as [|n IH]; intros i h Q S Lv Ei Pl HQ.
  - cbn [replace_from]. wp_step. destruct h as [t0 b0 s0 l0]. apply (HQ None t0); [done|done|by rewrite app_nil_r|]. intros _ j e Ej. apply Pl; [|done].
    apply lookup_lt_Some in Ej as Lj. destruct S as [_ S]. simpl in *. lia.
  - pose proof S as [Sb Sl]. cbn [replace_from]. assert (i < length (table h))%nat as Li by lia. destruct (lookup_lt_is_Some_2 _ _ Li) as [e Ee].
    wp_step. eapply wp_slot; [exact Ee|]. wp_step. wp_step. destruct (present e && _) eqn:Cnd.
    + apply andb_prop in Cnd as [Pe Ne]. set (e0 := {| present := false; level := level e; e_key := e_key e; e_value := e_value e |}).
      wp_step. apply wp_put_slot; [done|]. set (t1 := <[i := e0]> (table h)).
      pose proof (contents_insert (table h) i e0 e Ee) as Pc. unfold held in Pc. rewrite Pe in Pc. cbn [present e0 app] in Pc. fold t1 in Pc.
      wp_step. apply wp_insert; unfold set_table; cbn [table tbits seed load].
      * split; cbn [table tbits]; [done|unfold t1; by rewrite length_insert].
      * apply Forall_insert; [done|]. exact (Forall_lookup_1 _ _ _ _ Lv Ee).
      * intros r t' L' Lv' P' Ch'. unfold t1 in L'. rewrite length_insert in L'. assert (contents t' ++ pushed r ≡ₚ contents (table h)) as P2.
        { rewrite P', <- Pc. by rewrite Permutation_app_comm. }
        destruct r as [b|]; [wp_step; apply (HQ (Some b) t'); done|].
        apply IH; unfold set_table; cbn [table tbits seed load]; [split; cbn [table tbits]; [done|congruence]|done|lia| |].
        -- intros j x Lj Ex. destruct (Ch' j) as [E'|(y & Ey & Py)].
           ++ rewrite E' in Ex. destruct (decide (j = i)) as [->|N].
              ** unfold t1 in Ex. rewrite list_lookup_insert_eq in Ex by done. injection Ex as <-. intros Q0. discriminate.
              ** unfold t1 in Ex. rewrite list_lookup_insert_ne in Ex by done. eapply placed_seed; [| |apply (Pl j x); [lia|done]]; done.
           ++ assert (x = y) as -> by congruence. done.
        -- intros r2 t2 L2 Lv2 P3 N2. apply (HQ r2 t2); [congruence|done| |done]. rewrite P3. by rewrite app_nil_r in P2.
    + apply IH; [done|done|lia| |done]. intros j x Lj Ex. destruct (decide (j = i)) as [->|N]; [|apply Pl; [lia|done]].
      assert (x = e) as -> by congruence. intros Pe. rewrite Pe in Cnd. simpl in Cnd. apply negb_false_iff, Nat.eqb_eq in Cnd. done.
Qed.

(** A computation that does not end in [Bug], and ends as [Q] says if it ends. *)
Definition ends {A} (m : SE HashTable A) (Q : A -> HashTable -> Prop) h : Prop :=
  match m h with
  | (h', Ok a) => Q a h'
  | (_, Err e) => e = NOT_ENDED
  | (_, Bug) => False
  end.
Lemma ends_bind {A B} (m : SE HashTable A) (k : A -> SE HashTable B) Q h : wp m (fun a => ends (k a) Q) h -> ends (bind m k) Q h.
Proof. unfold wp, ends, bind. by destruct (m h) as [h' []]. Qed.
Lemma ends_ret {A} (a : A) (Q : A -> HashTable -> Prop) h : Q a h -> ends (ret a) Q h.
Proof. done. Qed.

(** Every entry is in its place. *)
Record settled h : Prop := {
  se_sized : sized h;
  se_levels : levels_ok (table h);
  se_placed : forall i e, table h !! i = Some e -> placed h i e
}.
Definition growable h : Prop := (tbits h = 0%nat /\ table h = [] /\ 1 <= load h) \/ sized h.

Lemma double_sized h : growable h -> levels_ok (table h) ->
  sized (double_table h) /\ levels_ok (table (double_table h)) /\ contents (table (double_table h)) = contents (table h).
Proof.
  intros G Lv. assert (levels_ok [no_entry]) as L0 by (constructor; [simpl; unfold CUCKOO_HASHES; lia|constructor]).
  assert (exists t, take (2 ^ tbits h) (table h ++ [no_entry]) = t /\ length t = (2 ^ tbits h)%nat /\ contents t = contents (table h)) as (t & E & L & C).
  { destruct G as [(E0 & Et & _)|[_ Sl]]; [rewrite E0, Et; by exists [no_entry]|]. exists (table h). by rewrite <- Sl, take_app_length. }
  unfold double_table. rewrite E. split_and!; cbn [table tbits].
  - split; cbn [table tbits]; [lia|]. rewrite length_app, length_replicate, L. simpl. lia.
  - apply Forall_app. split; [|by apply Forall_replicate; simpl; unfold CUCKOO_HASHES; lia]. rewrite <- E. apply Forall_take, Forall_app. by split.
  - by rewrite contents_app, contents_empty, app_nil_r.
Qed.

Lemma ends_rebuild_from fuel : forall retries b h, growable h -> levels_ok (table h) ->
  ends (rebuild_from fuel retries b) (fun _ h' => settled h' /\ load h' = load h /\ contents (table h') ≡ₚ kv b :: contents (table h)) h.
Proof.
  induction fuel as [|fuel IH]; intros retries b h G Lv; [done|]. cbn [rebuild_from]. apply ends_bind. wp_step. apply ends_bind.
  set (grow := (4 * 2 ^ Z.of_nat (tbits h) <=? 5 * load h) || (5 <? retries)).
  apply wp_mono with (Q := fun _ h1 => sized h1 /\ levels_ok (table h1) /\ load h1 = load h /\ contents (table h1) = contents (table h)).
  { apply wp_when; intros Eg.
    - wp_step. destruct (double_sized h G Lv) as (S1 & L1 & C1). done.
    - destruct G as [(E0 & Et & El)|S]; [|done]. exfalso. unfold grow in Eg. apply orb_false_iff in Eg as [Eg _]. rewrite E0 in Eg. apply Z.leb_gt in Eg. simpl in Eg. lia. }
  intros _ h1 (S1 & L1 & Ld1 & C1). apply ends_bind. wp_step. apply ends_bind. set (h2 := set_seed _ h1).
  assert (sized h2) as S2 by done. apply wp_insert; [done|done|]. intros r t' Lt Lv' P' _. cbn [table set_seed h2] in P', Lt. rewrite C1 in P'.
  assert (sized (set_table t' h2)) as S3 by (destruct S2; split; cbn [table tbits set_table]; [done|by rewrite Lt]).
  assert (forall e h3, sized h3 -> levels_ok (table h3) -> load h3 = load h -> contents (table h3) ++ [kv e] ≡ₚ kv b :: contents (table h) ->
    ends (rebuild_from fuel (if grow then 0 else retries + 1) e) (fun _ h' => settled h' /\ load h' = load h /\ contents (table h') ≡ₚ kv b :: contents (table h)) h3) as Again.
  { intros e h3 S L Ld P. pose proof (IH (if grow then 0 else retries + 1) e h3 (or_intror S) L) as R. unfold ends in R |- *.
    destruct (rebuild_from fuel _ e h3) as [h' [[]| |]]; [|done|done]. destruct R as (R1 & R2 & R3). split_and!; [done|congruence|].
    rewrite R3, <- P. by rewrite Permutation_app_comm. }
  destruct r as [e|]; [by apply Again|]. cbn [pushed] in P'. rewrite app_nil_r in P'. apply ends_bind. wp_step. apply ends_bind.
  apply wp_replace_from; [done|done|done|intros; lia|]. intros r t2 L2 Lv2 P2 N2. cbn [table set_table] in P2, L2.
  assert (sized (set_table t2 (set_table t' h2))) as S4 by (destruct S3; split; cbn [table tbits set_table] in *; [done|by rewrite L2]).
  destruct r as [e|]; [apply Again; [done|done|done|by rewrite <- P']|]. cbn [pushed] in P2. rewrite app_nil_r in P2. apply ends_ret. split_and!; [|done|].
  - split; [done|done|]. intros i e Ei. eapply placed_seed; [| |by apply (N2 eq_refl)]; done.
  - cbn [table set_table]. by rewrite P2.
Qed.

(** ** The map *)

(** [m] is what the table stands for. *)
Record stands_for h (m : gmap Z Z) : Prop := {
  sf_shape : (h = {| table := []; tbits := 0; seed := 0; load := 0 |}) \/ settled h;
  sf_load : load h = Z.of_nat (size m);
  sf_contents : contents (table h) ≡ₚ map_to_list m
}.

Lemma stands_lookup h m key v : stands_for h m -> m !! key = Some v <-> (key, v) ∈ contents (table h).
Proof. intros [_ _ P]. rewrite P. by rewrite elem_of_map_to_list. Qed.
Lemma wp_find_levels key h m n : settled h -> stands_for h m -> forall i (Q : option nat -> HashTable -> Prop), (i + n = CUCKOO_HASHES)%nat ->
  (forall lev j e, (lev < i)%nat -> table h !! j = Some e -> present e = true -> e_key e = key -> level e <> lev) ->
  (forall j e, table h !! j = Some e -> present e = true -> e_key e = key -> Q (Some j) h) -> (m !! key = None -> Q None h) ->
  wp (find_levels n i key) Q h.
Proof.
  intros S Sf. induction n as [|n IH]; intros i Q Ei No HS HN; cbn [find_levels].
  - wp_step. apply HN. destruct (m !! key) as [v|] eqn:E; [|done]. exfalso. apply (stands_lookup _ _ _ _ Sf) in E.
    destruct (elem_contents _ _ E) as (j & e & Ej & Pe & Ek). injection Ek as Ek _. pose proof (Forall_lookup_1 _ _ _ _ (se_levels _ S) Ej) as Lj. simpl in Lj.
    apply (No (level e) j e); [lia|done|done|done|done].
  - wp_step. wp_step. destruct (se_sized _ S) as [_ Sl]. pose proof (hash_n_lt h key i) as Lh. rewrite <- Sl in Lh. destruct (lookup_lt_is_Some_2 _ _ Lh) as [f Ef].
    wp_step. eapply wp_slot; [exact Ef|]. destruct ((e_key f =? key) && present f) eqn:C.
    + apply andb_prop in C as [Ek%Z.eqb_eq Pf]. wp_step. by apply (HS _ f).
    + apply IH; [lia| |done|done]. intros lev j e Ll Ej Pe Ek Elev. destruct (decide (lev = i)) as [->|Nl]; [|by apply (No lev j e); [lia|..]].
      pose proof (se_placed _ S j e Ej Pe) as Hp. rewrite Ek, Elev in Hp. rewrite Hp in Ef. assert (f = e) as -> by congruence.
      by rewrite Ek, Z.eqb_refl, Pe in C.
Qed.
Lemma wp_find_entry key h m (Q : option nat -> HashTable -> Prop) : stands_for h m ->
  (forall j e, settled h -> table h !! j = Some e -> present e = true -> e_key e = key -> Q (Some j) h) -> (m !! key = None -> Q None h) ->
  wp (hashtable_find_entry key) Q h.
Proof.
  intros Sf HS HN. unfold hashtable_find_entry. wp_step. wp_step. destruct (sf_shape _ _ Sf) as [-> |S].
  - cbn [tbits Nat.eqb]. wp_step. apply HN. destruct (m !! key) as [v|] eqn:E; [|done]. apply (stands_lookup _ _ _ _ Sf) in E. by apply elem_of_nil in E.
  - destruct (se_sized _ S) as [Sb _]. rewrite (proj2 (Nat.eqb_neq _ _)) by lia. eapply wp_find_levels; [done|exact Sf|done|intros; lia| |done]. intros j e. by apply HS.
Qed.

Lemma stands_insert h h' m key v : stands_for h m -> m !! key = None -> settled h' -> load h' = load h + 1 ->
  contents (table h') ≡ₚ (key, v) :: contents (table h) -> stands_for h' (<[key := v]> m).
Proof.
  intros Sf N S L P. split; [by right| |].
  - rewrite L, (sf_load _ _ Sf), map_size_insert_None by done. lia.
  - rewrite P, (sf_contents _ _ Sf). by rewrite map_to_list_insert.
Qed.
Lemma ends_insert fuel key v h m : stands_for h m -> m !! key = None -> ends (hashtable_insert fuel key v) (fun _ h' => stands_for h' (<[key := v]> m)) h.
Proof.
  intros Sf N. unfold hashtable_insert. apply ends_bind. wp_step. apply ends_bind. wp_step. set (h1 := set_load (load h + 1) h).
  pose proof (sf_load _ _ Sf) as Ld. set (b := {| present := false; level := 0; e_key := key; e_value := v |}).
  assert (forall e h2, growable h2 -> levels_ok (table h2) -> load h2 = load h + 1 -> kv e :: contents (table h2) ≡ₚ (key, v) :: contents (table h) ->
    ends (rebuild fuel e) (fun _ h' => stands_for h' (<[key := v]> m)) h2) as Re.
  { intros e h2 G L Ld2 P. pose proof (ends_rebuild_from fuel 0 e h2 G L) as R. unfold rebuild. unfold ends in R |- *.
    destruct (rebuild_from fuel 0 e h2) as [h' [[]| |]]; [|done|done]. destruct R as (R1 & R2 & R3). eapply stands_insert; [done|done|done|congruence|by rewrite R3]. }
  destruct (sf_shape _ _ Sf) as [-> |S].
  - cbn [tbits set_load Nat.eqb h1]. apply Re; [left; cbn; split_and!; [done|done|lia]|constructor|done|done].
  - destruct (se_sized _ S) as [Sb Sl]. cbn [tbits set_load h1]. rewrite (proj2 (Nat.eqb_neq _ _)) by lia. apply ends_bind. apply wp_insert; [done|exact (se_levels _ S)|].
    intros r t' Lt Lv' P' Ch. cbn [table set_load h1] in Lt, P', Ch. assert (sized (set_table t' h1)) as S2 by (split; cbn [table tbits set_table]; [done|by rewrite Lt]).
    destruct r as [e|].
    + apply Re; [by right|done|done|]. etransitivity; [|exact P']. cbn [pushed table set_table]. by rewrite Permutation_app_comm.
    + cbn [pushed] in P'. rewrite app_nil_r in P'. apply ends_ret. eapply stands_insert; [done|done| |done|done]. split; [done|done|].
      intros i e Ei. cbn [table set_table] in Ei. destruct (Ch i) as [E|(x & Ex & Px)].
      * eapply placed_seed; [| |apply (se_placed _ S i e)]; [done|done|congruence].
      * assert (e = x) as -> by congruence. eapply placed_seed; [| |exact Px]; done.
Qed.

(** An insertion whose first place is free ends, without a retry. *)
Lemma insert_free_ends fuel key v h e : sized h -> table h !! hash_n h key 0 = Some e -> present e = false ->
  exists h', hashtable_insert fuel key v h = (h', Ok tt).
Proof.
  intros [Sb Sl] E P. unfold hashtable_insert, bind at 1, modify, bind at 1, get. cbn [tbits set_load]. rewrite (proj2 (Nat.eqb_neq _ _)) by lia.
  unfold insert, bind at 1, bind at 1, get. cbn [tbits set_load]. destruct (5 * tbits h)%nat as [|n] eqn:En; [lia|]. cbn [insert_from e_key level at_level].
  unfold bind at 1, get, bind at 1, slot, bind at 1, gets. cbn [table set_load]. change (hash_n (set_load (load h + 1) h) key 0) with (hash_n h key 0). rewrite E. cbn [ret].
  unfold ret at 1, bind at 1, put_slot, bind at 1, gets, bind at 1, bug_if. cbn [table set_load]. rewrite (proj2 (Nat.ltb_lt _ _)) by (by eapply lookup_lt_Some).
  cbn [negb]. unfold ret at 1, modify. rewrite P. cbn [negb]. by eexists.
Qed.

Lemma wp_delete key h m : stands_for h m -> wp (hashtable_delete key) (fun _ h' => stands_for h' (base.delete key m)) h.
Proof.
  intros Sf. unfold hashtable_delete. wp_step. eapply wp_find_entry; [exact Sf| |].
  - intros j e S Ej Pe Ek. assert (m !! key = Some (e_value e)) as Em.
    { apply (stands_lookup _ _ _ _ Sf). rewrite <- Ek. by apply (contents_elem _ j). }
    pose proof (lookup_lt_Some _ _ _ Ej) as Lj. unfold hashtable_delete_entry. wp_step. eapply wp_slot; [exact Ej|]. wp_step. apply wp_put_slot; [done|].
    set (e0 := {| present := false; level := 0; e_key := e_key e; e_value := e_value e |}). set (t1 := <[j := e0]> (table h)).
    pose proof (contents_insert (table h) j e0 e Ej) as P. unfold held in P. rewrite Pe in P. cbn [present e0 app] in P. fold t1 in P.
    assert (contents t1 ≡ₚ map_to_list (base.delete key m)) as P1.
    { apply (Permutation_cons_inv (a := kv e)). rewrite Permutation_cons_append, P, (sf_contents _ _ Sf). unfold kv. rewrite Ek. symmetry. by apply map_to_list_delete. }
    wp_step. wp_step. wp_step. unfold set_load, set_table. cbn [table tbits seed load].
    assert (load h - 1 = Z.of_nat (size (base.delete key m))) as Ls.
    { rewrite map_size_delete_Some by eauto. rewrite (sf_load _ _ Sf). assert (0 < size m)%nat; [|lia]. destruct (size m) eqn:E; [|lia]. apply map_size_empty_inv in E. by rewrite E, lookup_empty in Em. }
    apply wp_when.
    + intros E0%Z.eqb_eq. unfold hashtable_clear, hashtable_init. wp_step. assert (base.delete key m = ∅) as -> by (apply map_size_empty_inv; lia).
      split; [by left|done|]. cbn [table]. by rewrite map_to_list_empty.
    + intros _. split; [right|done|done]. destruct S as [[Sb Sl] Lv Pl]. split; cbn [table].
      * split; cbn [table tbits]; [done|unfold t1; by rewrite length_insert].
      * apply Forall_insert; [done|]. simpl. unfold CUCKOO_HASHES. lia.
      * intros i x. unfold t1. destruct (decide (i = j)) as [->|Ni]; [rewrite list_lookup_insert_eq by done; intros [= <-] Px; discriminate|].
        rewrite list_lookup_insert_ne by done. intros Ex. eapply placed_seed; [| |by apply Pl]; done.
  - intros N. wp_step. by rewrite delete_id.
Qed.
End Proofs.

(** ** Claim *)

(** C6: The hash table is a map, whatever its tables of random numbers are.  A table
    that stands for the map [m] (every entry in the place that one of its three
    hashes gives): [hashtable_find] answers as [m] does and changes nothing;
    [hashtable_delete] removes the key, also when the table becomes empty and is
    cleared; [hashtable_insert] of a key that it does not have adds it and loses nothing,
    however often entries push each other out and the table is hashed again or
    doubled.  Whether the retries end depends on the random numbers: the model
    counts them, and the other outcome is that they have not ended; an insertion
    whose first place is free always ends. *)
Theorem hashtable_is_map `{Noise} (h : HashTable) (m : gmap Z Z) : stands_for h m ->
  (forall key, wp (hashtable_find key) (fun r h' => r = m !! key /\ h' = h) h) /\
  (forall key, wp (hashtable_delete key) (fun _ h' => stands_for h' (base.delete key m)) h) /\
  (forall fuel key v, m !! key = None -> ends (hashtable_insert fuel key v) (fun _ h' => stands_for h' (<[key := v]> m)) h) /\
  (forall fuel key v e, sized h -> table h !! hash_n h key 0 = Some e -> present e = false -> exists h', hashtable_insert fuel key v h = (h', Ok tt)).
Proof.
  intros Sf. split_and!.
  - intros key. unfold hashtable_find. wp_step. eapply wp_find_entry; [exact Sf| |intros N; by wp_step].
    intros j e S Ej Pe Ek. wp_step. eapply wp_slot; [exact Ej|]. wp_step. split; [|done]. symmetry. apply (stands_lookup _ _ _ _ Sf). rewrite <- Ek. by apply (contents_elem _ j).
  - intros key. by apply wp_delete.
  - intros fuel key v N. by apply ends_insert.
  - intros fuel key v e. apply insert_free_ends.
Qed.

#[local] Instance some_noise : Noise := {| hashtable_noise := fun lev x => Z.of_nat (S lev) * (x + 1) * 40503 |}.
Definition fresh_table : HashTable := {| table := []; tbits := 0; seed := 0; load := 0 |}.
Fixpoint inserts (l : list (Z * Z)) : SE HashTable unit :=
  match l with [] => ret tt | (k, v) :: l => hashtable_insert 20 k v;; inserts l end.
Definition some_pairs : list (Z * Z) := (fun k => (k, 10 * k)) <$> seqZ 1 12.
Lemma fresh_table_empty : stands_for fresh_table ∅.
Proof. split; [by left|done|]. simpl. by rewrite map_to_list_empty. Qed.
(** Twelve insertions, with tables that are doubled and hashed again *)
Lemma inserts_end : snd (inserts some_pairs fresh_table) = Ok tt /\ tbits (fst (inserts some_pairs fresh_table)) = 4%nat.
Proof. split; vm_compute; reflexivity. Qed.
Lemma hashtable_is_map_witness : ends (hashtable_insert 20 1 10) (fun _ h' => stands_for h' (<[1 := 10]> ∅)) fresh_table /\ snd (hashtable_insert 20 1 10 fresh_table) = Ok tt.
Proof.
  split; [|vm_compute; reflexivity]. destruct (hashtable_is_map fresh_table ∅ fresh_table_empty) as (_ & _ & Hi & _). apply Hi. by rewrite lookup_empty.
Defined.
