(* ===== verification/ChunkCache.v ===== *)
(** * Open chunks of a swap image

    src/dm/block-swap/dubtree.c: [__get_chunk], [__put_chunk] and [__free_chunk] keep
    the files of chunks open in the lines of the cache; the hash table
    finds the line of a chunk. *)

From Stdlib Require Import ZArith Lia.
From stdpp Require Import base list numbers gmap.
From S2P Require Import Prelude LruCache.

Open Scope Z_scope.
Open Scope se_scope.

(** ** The files of the host *)

Definition DUBTREE_INVALID_HANDLE : Z := -1.
(** What opening a file returns, from the number of calls before, the handles
    that are open, the chunk, whether it is to be created and the number of the directory *)
Class FileEnv : Type := { os_open : nat -> gmap Z Z -> Z -> bool -> nat -> option Z }.
(** A new handle is valid and none that is open. *)
Class FileEnvOk `{FileEnv} : Prop := {
  os_open_fresh : forall t o chunk dirty fb h, os_open t o chunk dirty fb = Some h -> o !! h = None /\ h <> DUBTREE_INVALID_HANDLE
}.

(** ** Data *)

(** The members of [DubTree] that the cache uses; the hash table [ht] as the map it
    stands for, the handles that are open with the chunks they were opened for, the
    chunks whose files have been removed, the number of calls to the host *)
Record DubTree : Type := { lru : LruCache; ht : gmap Z nat; fallbacks : nat; opened : gmap Z Z; unlinked : list Z; calls : nat }.

Definition set_lru (x : LruCache) (t : DubTree) : DubTree :=
  {| lru := x; ht := ht t; fallbacks := fallbacks t; opened := opened t; unlinked := unlinked t; calls := calls t |}.
Definition set_ht (x : gmap Z nat) (t : DubTree) : DubTree :=
  {| lru := lru t; ht := x; fallbacks := fallbacks t; opened := opened t; unlinked := unlinked t; calls := calls t |}.
Definition set_opened (x : gmap Z Z) (t : DubTree) : DubTree :=
  {| lru := lru t; ht := ht t; fallbacks := fallbacks t; opened := x; unlinked := unlinked t; calls := calls t |}.
Definition add_unlinked (x : Z) (t : DubTree) : DubTree :=
  {| lru := lru t; ht := ht t; fallbacks := fallbacks t; opened := opened t; unlinked := x :: unlinked t; calls := calls t |}.
Definition count_call (t : DubTree) : DubTree :=
  {| lru := lru t; ht := ht t; fallbacks := fallbacks t; opened := opened t; unlinked := unlinked t; calls := S (calls t) |}.

Definition on_lru {A} (m : SE LruCache A) : SE DubTree A := zoom lru set_lru m.
Definition the_line (l : nat) : SE DubTree LruCacheLine := t <- get;; match lines (lru t) !! l with Some cl => ret cl | None => bug end.
Definition put_line (l : nat) (cl : LruCacheLine) : SE DubTree unit :=
  modify (fun t => set_lru {| log_lines := log_lines (lru t); bits := bits (lru t); lines := <[l := cl]> (lines (lru t)) |} t).
Definition set_users (n : Z) (cl : LruCacheLine) : LruCacheLine := {| key := key cl; value := value cl; users := n; del := del cl; dirty := dirty cl |}.
Definition set_del (n : Z) (cl : LruCacheLine) : LruCacheLine := {| key := key cl; value := value cl; users := users cl; del := n; dirty := dirty cl |}.

(** ** Files *)

(** A handle that is not open is [Bug]; the invalid handle is not a file. *)
Definition dubtree_close_file (f : Z) : SE DubTree unit :=
  when (negb (f =? DUBTREE_INVALID_HANDLE))
    (t <- get;;
     match opened t !! f with
     | Some _ => modify (set_opened (base.delete f (opened t)))
     | None => bug
     end).
(** The file may be in another directory, or gone: that it is truncated, and that
    removing it can fail, is left out. *)
Definition unlink_chunk (chunk_id f : Z) : SE DubTree unit :=
  modify (add_unlinked chunk_id);;
  dubtree_close_file f.

Section Cache.
Context `{FileEnv}.

(** The loop over the directories, of which [k] are left *)
Fixpoint open_chunk (k fb : nat) (chunk_id : Z) (dirty : bool) : SE DubTree (option Z) :=
  match k with
  | O => ret None
  | S k =>
      t <- get;;
      modify count_call;;
      match os_open (calls t) (opened t) chunk_id (dirty && (fb =? 0)%nat) fb with
      | Some f => modify (set_opened (<[f := chunk_id]> (opened t)));; ret (Some f)
      | None => open_chunk k (S fb) chunk_id dirty
      end
  end.

(** The next line without users; [fuel] bounds the lines that are tried. *)
Fixpoint free_line (fuel : nat) : SE LruCache nat :=
  match fuel with
  | O => bug
  | S fuel =>
      r <- (line <- lru_cache_evict_line;; cl <- lru_cache_touch_line line;; ret (line, cl));;
      if users r.2 =? 0 then ret r.1 else free_line fuel
  end.

Definition __get_chunk (chunk_id : Z) (dirty : bool) : SE DubTree (option (Z * nat)) :=
  t <- get;;
  match ht t !! chunk_id with
  | Some line =>
      cl <- on_lru (lru_cache_touch_line line);;
      put_line line (set_users (users cl + 1) cl);;
      ret (Some (value cl, line))
  | None =>
      f <- open_chunk (fallbacks t) 0 chunk_id dirty;;
      match f with
      | None => ret None
      | Some f =>
          line <- on_lru (free_line (2 ^ log_lines (lru t)));;
          cl <- the_line line;;
          when (negb (key cl =? 0))
            (modify (fun t => set_ht (base.delete (key cl) (ht t)) t);;
             dubtree_close_file (value cl));;
          put_line line {| key := chunk_id; value := f; users := 1; del := del cl; dirty := LruCache.dirty cl |};;
          modify (fun t => set_ht (<[chunk_id := line]> (ht t)) t);;
          ret (Some (f, line))
      end
  end.

Definition __put_chunk (f : Z) (line : nat) : SE DubTree unit :=
  cl <- the_line line;;
  put_line line (set_users (users cl - 1) cl);;
  when ((users cl =? 1) && negb (del cl =? 0))
    (bug_if (negb (value cl =? f));;
     modify (fun t => set_ht (base.delete (key cl) (ht t)) t);;
     put_line line no_line;;
     unlink_chunk (key cl) (value cl)).

Definition __free_chunk (chunk_id : Z) : SE DubTree unit :=
  t <- get;;
  match ht t !! chunk_id with
  | Some line =>
      cl <- the_line line;;
      if 0 <? users cl then put_line line (set_del 1 cl)
      else
        modify (fun t => set_ht (base.delete (key cl) (ht t)) t);;
        put_line line {| key := 0; value := 0; users := users cl; del := del cl; dirty := LruCache.dirty cl |};;
        unlink_chunk chunk_id (value cl)
  | None => unlink_chunk chunk_id DUBTREE_INVALID_HANDLE
  end.
End Cache.

(** ** The invariant

    [held] are the references that have been handed out: handle, line, chunk. *)

Abbreviation reference := (Z * nat * Z)%type.
Definition uses (l : nat) (held : list reference) : Z := zlen (filter (fun r : reference => r.1.2 = l) held).

Record cached (t : DubTree) (held : list reference) : Prop := {
  ca_lru : cache_ok (lru t);
  ca_ht : forall c l, ht t !! c = Some l <-> c <> 0 /\ exists cl, lines (lru t) !! l = Some cl /\ key cl = c;
  ca_users : forall l cl, lines (lru t) !! l = Some cl -> users cl = uses l held;
  ca_open : forall l cl, lines (lru t) !! l = Some cl -> key cl <> 0 -> opened t !! value cl = Some (key cl) /\ value cl <> DUBTREE_INVALID_HANDLE;
  ca_only : forall h c, opened t !! h = Some c -> c <> 0 /\ exists l cl, lines (lru t) !! l = Some cl /\ key cl = c /\ value cl = h;
  ca_held : forall f l c, (f, l, c) ∈ held -> c <> 0 /\ exists cl, lines (lru t) !! l = Some cl /\ key cl = c /\ value cl = f
}.
(** A line that is marked for deletion has users. *)
Definition marked (t : DubTree) : Prop := forall l cl, lines (lru t) !! l = Some cl -> users cl = 0 -> del cl = 0.

Definition with_line (l : nat) (cl : LruCacheLine) (t : DubTree) : DubTree :=
  set_lru {| log_lines := log_lines (lru t); bits := bits (lru t); lines := <[l := cl]> (lines (lru t)) |} t.

Lemma uses_cons l r held : uses l (r :: held) = (if decide (r.1.2 = l) then 1 else 0) + uses l held.
Proof. unfold uses. rewrite filter_cons. destruct (decide (r.1.2 = l)); unfold zlen; cbn [length]; lia. Qed.
Lemma uses_app l h1 h2 : uses l (h1 ++ h2) = uses l h1 + uses l h2.
Proof. unfold uses. by rewrite filter_app, zlen_app. Qed.
Lemma uses_zero l held f c : uses l held = 0 -> (f, l, c) ∈ held -> False.
Proof.
  unfold uses. intros Z He. assert ((f, l, c) ∈ filter (fun r : reference => r.1.2 = l) held) as Hf by (by apply list_elem_of_filter).
  destruct (filter _ held); [by apply elem_of_nil in Hf|]. unfold zlen in Z. simpl in Z. lia.
Qed.

Section Invariant.
Implicit Types (t : DubTree) (held : list reference) (cl : LruCacheLine).

Lemma key_line t held l1 l2 c1 c2 : cached t held -> lines (lru t) !! l1 = Some c1 -> lines (lru t) !! l2 = Some c2 -> key c1 <> 0 -> key c1 = key c2 -> l1 = l2.
Proof.
  intros C E1 E2 N E. assert (ht t !! key c1 = Some l1) as H1 by (apply (proj2 (ca_ht _ _ C _ _)); eauto).
  assert (ht t !! key c1 = Some l2) as H2 by (apply (proj2 (ca_ht _ _ C _ _)); split; [done|]; exists c2; by rewrite E). congruence.
Qed.
Lemma value_line t held l1 l2 c1 c2 : cached t held -> lines (lru t) !! l1 = Some c1 -> lines (lru t) !! l2 = Some c2 -> key c1 <> 0 -> key c2 <> 0 ->
  value c1 = value c2 -> l1 = l2.
Proof.
  intros C E1 E2 N1 N2 E. destruct (ca_open _ _ C _ _ E1 N1) as [O1 _], (ca_open _ _ C _ _ E2 N2) as [O2 _].
  eapply key_line; [done|done|done|done|]. congruence.
Qed.
Lemma cache_ok_line fc l cl : cache_ok fc -> cache_ok {| log_lines := log_lines fc; bits := bits fc; lines := <[l := cl]> (lines fc) |}.
Proof. intros [L F E]. split; cbn [bits lines log_lines]; [done|done|by rewrite length_insert]. Qed.

(** The bits of the cache *)
Lemma cached_lru t held fc : cached t held -> cache_ok fc -> lines fc = lines (lru t) -> cached (set_lru fc t) held.
Proof. intros [C1 C2 C3 C4 C5 C6] Ok E. split; unfold set_lru; cbn [lru ht opened]; rewrite ?E; done. Qed.

(** A line changes, but for its chunk and its file. *)
Lemma cached_line t held held' l cl cl' : cached t held -> lines (lru t) !! l = Some cl -> key cl' = key cl -> value cl' = value cl ->
  (forall j, j <> l -> uses j held' = uses j held) -> users cl' = uses l held' ->
  (forall f j c, (f, j, c) ∈ held' -> (f, j, c) ∈ held \/ j = l /\ c = key cl /\ f = value cl /\ c <> 0) -> cached (with_line l cl' t) held'.
Proof.
  intros [C1 C2 C3 C4 C5 C6] El Ek Ev Eu Eu' Hh. pose proof (lookup_lt_Some _ _ _ El) as Ll. split; unfold with_line, set_lru; cbn [lru ht opened lines].
  - by apply cache_ok_line.
  - intros c j. rewrite C2. destruct (decide (j = l)) as [->|N]; [|by rewrite list_lookup_insert_ne]. rewrite list_lookup_insert_eq by done.
    split; intros (Nc & x & Ex & <-); (split; [done|]); simplify_eq; eauto.
  - intros j x. destruct (decide (j = l)) as [->|N]; [|rewrite list_lookup_insert_ne by done; rewrite Eu by done; apply C3].
    rewrite list_lookup_insert_eq by done. by intros [= <-].
  - intros j x. destruct (decide (j = l)) as [->|N]; [|rewrite list_lookup_insert_ne by done; apply C4].
    rewrite list_lookup_insert_eq by done. intros [= <-]. rewrite Ek, Ev. by apply (C4 l).
  - intros h c Hc. destruct (C5 h c Hc) as (Nc & j & x & Ex & Kx & Vx). split; [done|]. destruct (decide (j = l)) as [->|N].
    + exists l, cl'. rewrite list_lookup_insert_eq by done. simplify_eq. by rewrite Ek, Ev.
    + exists j, x. by rewrite list_lookup_insert_ne.
  - intros f j c He. assert (c <> 0 /\ exists x, lines (lru t) !! j = Some x /\ key x = c /\ value x = f) as (Nc & x & Ex & Kx & Vx).
    { destruct (Hh _ _ _ He) as [He'|(-> & -> & -> & Nc)]; [by apply C6|]. split; [done|]. by exists cl. }
    split; [done|]. destruct (decide (j = l)) as [->|N].
    + exists cl'. rewrite list_lookup_insert_eq by done. simplify_eq. by rewrite Ek, Ev.
    + exists x. by rewrite list_lookup_insert_ne.
Qed.

(** A line without users becomes empty. *)
Definition cleared (l : nat) (cl cl' : LruCacheLine) t : DubTree :=
  set_opened (base.delete (value cl) (opened t)) (with_line l cl' (set_ht (base.delete (key cl) (ht t)) t)).
Lemma cached_clear t held l cl cl' : cached t held -> lines (lru t) !! l = Some cl -> users cl = 0 -> key cl <> 0 -> key cl' = 0 -> users cl' = 0 ->
  cached (cleared l cl cl' t) held.
Proof.
  intros C El Eu Nk Ek Eu'. pose proof (lookup_lt_Some _ _ _ El) as Ll. pose proof C as [C1 C2 C3 C4 C5 C6].
  assert (uses l held = 0) as Uz by (by rewrite <- (C3 l cl El)). split; unfold cleared, with_line, set_lru, set_opened, set_ht; cbn [lru ht opened lines].
  - by apply cache_ok_line.
  - intros c j. destruct (decide (c = key cl)) as [->|N].
    + rewrite lookup_delete_eq. split; [done|]. intros (_ & x & Ex & Kx). destruct (decide (j = l)) as [->|Nj].
      * rewrite list_lookup_insert_eq in Ex by done. simplify_eq. congruence.
      * rewrite list_lookup_insert_ne in Ex by done. destruct Nj. symmetry. by eapply (key_line t held l j cl x).
    + rewrite lookup_delete_ne by done. rewrite C2. destruct (decide (j = l)) as [->|Nj]; [|by rewrite list_lookup_insert_ne].
      rewrite list_lookup_insert_eq by done. split; intros (Nc & x & Ex & Kx); simplify_eq; congruence.
  - intros j x. destruct (decide (j = l)) as [->|N]; [|rewrite list_lookup_insert_ne by done; apply C3].
    rewrite list_lookup_insert_eq by done. intros [= <-]. congruence.
  - intros j x Ex Nx. destruct (decide (j = l)) as [->|N]; [rewrite list_lookup_insert_eq in Ex by done; simplify_eq; congruence|].
    rewrite list_lookup_insert_ne in Ex by done. destruct (C4 j x Ex Nx) as [O V]. split; [|done]. rewrite lookup_delete_ne; [done|].
    intros E. destruct N. symmetry. by eapply (value_line t held l j cl x).
  - intros h c Hc. apply lookup_delete_Some in Hc as [Nh Hc]. destruct (C5 h c Hc) as (Nc & j & x & Ex & Kx & Vx). split; [done|].
    exists j, x. rewrite list_lookup_insert_ne; [done|]. intros ->. simplify_eq.
  - intros f j c He. destruct (C6 f j c He) as (Nc & x & Ex & Kx & Vx). split; [done|]. exists x. rewrite list_lookup_insert_ne; [done|].
    intros ->. by eapply uses_zero.
Qed.

(** An empty line takes a chunk. *)
Definition filled_with (l : nat) (cl' : LruCacheLine) t : DubTree :=
  set_opened (<[value cl' := key cl']> (opened t)) (with_line l cl' (set_ht (<[key cl' := l]> (ht t)) t)).
Lemma cached_fill t held l cl cl' : cached t held -> lines (lru t) !! l = Some cl -> key cl = 0 -> key cl' <> 0 -> users cl' = 1 ->
  ht t !! key cl' = None -> opened t !! value cl' = None -> value cl' <> DUBTREE_INVALID_HANDLE ->
  cached (filled_with l cl' t) ((value cl', l, key cl') :: held).
Proof.
  intros C El Ek Nk Eu Eh Eo Nv. pose proof (lookup_lt_Some _ _ _ El) as Ll. pose proof C as [C1 C2 C3 C4 C5 C6].
  assert (forall f c, (f, l, c) ∈ held -> False) as Nh. { intros f c (Nc & x & Ex & Kx & _)%C6. simplify_eq; congruence. }
  assert (forall j x, lines (lru t) !! j = Some x -> key x = key cl' -> False) as Nkey.
  { intros j x Ex Kx. assert (ht t !! key cl' = Some j) as E by (apply (proj2 (C2 _ _)); eauto). congruence. }
  assert (uses l held = 0) as Uz.
  { unfold uses. destruct (filter (fun r : reference => r.1.2 = l) held) as [|[[f j] c] rest] eqn:E; [done|]. exfalso.
    assert ((f, j, c) ∈ filter (fun r : reference => r.1.2 = l) held) as He by (rewrite E; by constructor). apply list_elem_of_filter in He as [Hl He].
    simpl in Hl. subst j. by eapply Nh. }
  split; unfold filled_with, with_line, set_lru, set_opened, set_ht; cbn [lru ht opened lines].
  - by apply cache_ok_line.
  - intros c j. destruct (decide (c = key cl')) as [->|N].
    + rewrite lookup_insert_eq. split; [intros [= <-]; split; [done|]; exists cl'; by rewrite list_lookup_insert_eq|]. intros (_ & x & Ex & Kx).
      destruct (decide (j = l)) as [->|Nj]; [done|]. rewrite list_lookup_insert_ne in Ex by done. by destruct (Nkey j x).
    + rewrite lookup_insert_ne by done. rewrite C2. destruct (decide (j = l)) as [->|Nj]; [|by rewrite list_lookup_insert_ne].
      rewrite list_lookup_insert_eq by done. split; intros (Nc & x & Ex & Kx); simplify_eq; congruence.
  - intros j x. rewrite uses_cons. cbn [fst snd]. destruct (decide (l = j)) as [<-|N].
    + rewrite list_lookup_insert_eq by done. intros [= <-]. lia.
    + rewrite list_lookup_insert_ne by done. intros Ex. rewrite (C3 j x Ex). lia.
  - intros j x Ex Nx. destruct (decide (j = l)) as [->|N]; [rewrite list_lookup_insert_eq in Ex by done; simplify_eq; by rewrite lookup_insert_eq|].
    rewrite list_lookup_insert_ne in Ex by done. destruct (C4 j x Ex Nx) as [O V]. split; [|done]. rewrite lookup_insert_ne; [done|]. congruence.
  - intros h c Hc. apply lookup_insert_Some in Hc as [[<- <-]|[Nh' Hc]].
    + split; [done|]. exists l, cl'. by rewrite list_lookup_insert_eq.
    + destruct (C5 h c Hc) as (Nc & j & x & Ex & Kx & Vx). split; [done|]. exists j, x. rewrite list_lookup_insert_ne; [done|]. intros ->. simplify_eq; congruence.
  - intros f j c He. apply elem_of_cons in He as [[= -> -> ->]|He].
    + split; [done|]. exists cl'. by rewrite list_lookup_insert_eq.
    + destruct (C6 f j c He) as (Nc & x & Ex & Kx & Vx). split; [done|]. exists x. rewrite list_lookup_insert_ne; [done|]. intros ->. by eapply Nh.
Qed.
End Invariant.

(** ** A line without users *)

Lemma exists_free (ls : list LruCacheLine) held : (forall l cl, ls !! l = Some cl -> users cl = uses l held) -> (length held < length ls)%nat ->
  exists l cl, ls !! l = Some cl /\ users cl = 0.
Proof.
  intros U L. destruct (decide (Exists (fun cl => users cl = 0) ls)) as [E|N].
  - apply Exists_exists in E as (cl & He & Ez). apply list_elem_of_lookup in He as [l Hl]. by exists l, cl.
  - exfalso. assert (seq 0 (length ls) ⊆+ held.*1.*2) as Sub.
    { apply NoDup_submseteq; [apply NoDup_seq|]. intros l [_ Hl]%elem_of_seq. destruct (lookup_lt_is_Some_2 ls l Hl) as [cl El].
      destruct (filter (fun r : reference => r.1.2 = l) held) as [|r rest] eqn:E.
      - destruct N. apply Exists_exists. exists cl. split; [by eapply list_elem_of_lookup_2|]. rewrite (U l cl El). unfold uses. by rewrite E.
      - assert (r ∈ filter (fun r : reference => r.1.2 = l) held) as Hr by (rewrite E; by constructor). apply list_elem_of_filter in Hr as [<- Hr].
        by apply list_elem_of_fmap_2, list_elem_of_fmap_2. }
    apply submseteq_length in Sub. rewrite length_seq, !length_fmap in Sub. lia.
Qed.

Lemma wp_free_line n : forall fc (Q : nat -> LruCache -> Prop), cache_ok fc ->
  (exists l cl, (l + (2 ^ log_lines fc - 1))%nat ∈ (pevicts n (tree_of fc)).1 /\ lines fc !! l = Some cl /\ users cl = 0) ->
  (forall fc' l cl, cache_ok fc' -> log_lines fc' = log_lines fc -> lines fc' = lines fc -> lines fc !! l = Some cl -> users cl = 0 -> Q l fc') -> wp (free_line n) Q fc.
Proof.
  induction n as [|n IH]; intros fc Q C (l & cl & Hl & El & Eu) HQ; [by apply elem_of_nil in Hl|]. cbn [free_line]. apply wp_bind. apply wp_evict_touch; [done|].
  intros fc' l' cl' C' Eg Els Et Ex Ecl. cbn [fst snd]. destruct (Z.eqb_spec (users cl') 0) as [E0|N0]; [wp_step; by eapply HQ|].
  apply IH; [done| |by rewrite Eg, Els]. exists l, cl. rewrite Eg, Els. split; [|done]. cbn [pevicts] in Hl. rewrite Et.
  destruct (pevict (tree_of fc)) as [x tr]. cbn [fst snd] in *. destruct (pevicts n tr) as [o tr'] eqn:Ep. cbn [fst] in *. apply elem_of_cons in Hl as [Hl|Hl]; [|done].
  exfalso. assert (l = l') as -> by lia. congruence.
Qed.
Lemma wp_next_free fc held (Q : nat -> LruCache -> Prop) : cache_ok fc -> (forall l cl, lines fc !! l = Some cl -> users cl = uses l held) ->
  (length held < 2 ^ log_lines fc)%nat ->
  (forall fc' l cl, cache_ok fc' -> log_lines fc' = log_lines fc -> lines fc' = lines fc -> lines fc !! l = Some cl -> users cl = 0 -> Q l fc') ->
  wp (free_line (2 ^ log_lines fc)) Q fc.
Proof.
  intros C U L HQ. apply wp_free_line; [done| |done]. rewrite <- (co_lines _ C) in L. destruct (exists_free _ _ U L) as (l & cl & El & Eu).
  exists l, cl. split; [|done]. destruct (pevicts_round (log_lines fc) (tree_of fc) (view_perfect _ _ _)) as (P & _). rewrite P. unfold tree_of.
  rewrite view_leaves, Nat.add_0_l, Nat.mul_1_r. apply elem_of_seq. apply lookup_lt_Some in El. rewrite (co_lines _ C) in El. lia.
Qed.

(** ** The operations *)

Section Operations.
Context `{FileEnv, !FileEnvOk}.
Implicit Types (t : DubTree) (held : list reference) (cl : LruCacheLine).

Lemma cached_same t t' held : lru t' = lru t -> ht t' = ht t -> opened t' = opened t -> cached t held -> cached t' held.
Proof. intros E1 E2 E3 [C1 C2 C3 C4 C5 C6]. split; rewrite ?E1, ?E2, ?E3; done. Qed.

Lemma wp_open_chunk k : forall fb chunk dirty t (Q : option Z -> DubTree -> Prop),
  (forall t', lru t' = lru t -> ht t' = ht t -> opened t' = opened t -> unlinked t' = unlinked t -> Q None t') ->
  (forall f t', opened t !! f = None -> f <> DUBTREE_INVALID_HANDLE -> lru t' = lru t -> ht t' = ht t -> opened t' = <[f := chunk]> (opened t) ->
    unlinked t' = unlinked t -> Q (Some f) t') ->
  wp (open_chunk k fb chunk dirty) Q t.
Proof.
  induction k as [|k IH]; intros fb chunk dirty t Q HN HS; [by apply HN|]. cbn [open_chunk]. wp_step. wp_step. wp_step.
  destruct (os_open _ _ _ _ _) as [f|] eqn:E.
  - destruct (os_open_fresh _ _ _ _ _ _ E) as [E1 E2]. wp_step. wp_step. by apply HS.
  - apply IH; [intros t' E1 E2 E3 E4; by apply HN|intros f t' F1 F2 E1 E2 E3 E4; by apply HS].
Qed.

Lemma touch_same line fc cl (Q : LruCacheLine -> LruCache -> Prop) : cache_ok fc -> lines fc !! line = Some cl ->
  (forall fc', cache_ok fc' -> lines fc' = lines fc -> log_lines fc' = log_lines fc -> Q cl fc') -> wp (lru_cache_touch_line line) Q fc.
Proof.
  intros [Lb Fb Ll] E HQ. pose proof (lookup_lt_Some _ _ _ E) as Li. rewrite Ll in Li. unfold lru_cache_touch_line. wp_step. wp_step. wp_step.
  apply wp_bug_if; [by apply negb_false_iff, Nat.ltb_lt|]. wp_step. unfold lru_cache_innner_nodes. pose proof (Nat.pow_nonzero 2 (log_lines fc)).
  apply (wp_touch_path (log_lines fc) (line + (2 ^ log_lines fc - 1)) (log_lines fc) 0); [lia|lia|done|done|done|]. intros l' L' F' _.
  rewrite E. wp_step. apply HQ; [|done|done]. split; unfold set_bits; cbn [bits lines log_lines]; [by rewrite L'|done|done].
Qed.

(** The unlinked chunks that are new have no reference left. *)
Definition no_longer_held (held : list reference) (t t' : DubTree) : Prop :=
  forall c, c ∈ unlinked t' -> c ∈ unlinked t \/ forall f l, (f, l, c) ∉ held.

Lemma marked_insert t fc line cl : marked t -> lines fc = lines (lru t) -> (users cl = 0 -> del cl = 0) ->
  forall j x, <[line := cl]> (lines fc) !! j = Some x -> users x = 0 -> del x = 0.
Proof.
  intros M E D j x Ex. rewrite E in Ex. apply list_lookup_insert_Some in Ex as [(-> & <- & _)|[_ Ex]]; [done|]. by apply (M j).
Qed.

(** The line [line] without users is given to [chunk], opened as [f]. *)
Lemma cached_replace t held fc line cl chunk f d : cached t held -> cache_ok fc -> lines fc = lines (lru t) -> lines (lru t) !! line = Some cl -> users cl = 0 ->
  chunk <> 0 -> ht t !! chunk = None -> opened t !! f = None -> f <> DUBTREE_INVALID_HANDLE ->
  let cl' := {| key := chunk; value := f; users := 1; del := del cl; dirty := d |} in
  forall t', lru t' = {| log_lines := log_lines fc; bits := bits fc; lines := <[line := cl']> (lines fc) |} ->
  ht t' = <[chunk := line]> (if key cl =? 0 then ht t else base.delete (key cl) (ht t)) ->
  opened t' = (if key cl =? 0 then <[f := chunk]> (opened t) else base.delete (value cl) (<[f := chunk]> (opened t))) ->
  cached t' ((f, line, chunk) :: held).
Proof.
  intros C Ok Els El Eu Nc Eh Ef Nf cl' t' E1 E2 E3. pose proof (cached_lru t held fc C Ok Els) as C0. pose proof (lookup_lt_Some _ _ _ El) as Ll.
  assert (lines (lru (set_lru fc t)) !! line = Some cl) as El0 by (unfold set_lru; cbn [lru]; by rewrite Els).
  destruct (Z.eqb_spec (key cl) 0) as [K|K].
  - pose proof (cached_fill _ _ line cl cl' C0 El0 K Nc eq_refl Eh Ef Nf) as C1. eapply cached_same; [| | |exact C1]; [exact E1|exact E2|exact E3].
  - set (cl0 := {| key := 0; value := 0; users := 0; del := 0; dirty := 0 |}).
    pose proof (cached_clear _ _ line cl cl0 C0 El0 Eu K eq_refl eq_refl) as C1.
    assert (opened t !! value cl = Some (key cl)) as Ov by (by apply (ca_open _ _ C line)).
    assert (cached (filled_with line cl' (cleared line cl cl0 (set_lru fc t))) ((f, line, chunk) :: held)) as C2.
    { apply (cached_fill _ _ line cl0 cl' C1); [|done|done|done| |unfold cleared, set_opened; cbn [opened value cl']; by rewrite lookup_delete_ne by congruence|done].
      - unfold cleared, with_line, set_opened, set_lru, set_ht. cbn [lru lines]. apply list_lookup_insert_eq. by rewrite Els.
      - unfold cleared, with_line, set_opened, set_lru, set_ht. cbn [ht key cl']. by rewrite lookup_delete_None; right. }
    eapply cached_same; [| | |exact C2]; [rewrite E1|rewrite E2|rewrite E3]; unfold filled_with, cleared, with_line, set_opened, set_lru, set_ht; cbn [lru ht opened lines log_lines bits key value cl'].
    + by rewrite list_insert_insert_eq.
    + done.
    + apply delete_insert_ne. congruence.
Qed.

Lemma get_chunk_ok t held chunk dirty : cached t held -> marked t -> chunk <> 0 -> (length held < 2 ^ log_lines (lru t))%nat ->
  wp (__get_chunk chunk dirty) (fun r t' => log_lines (lru t') = log_lines (lru t) /\ marked t' /\ unlinked t' = unlinked t /\
    match r with Some (f, l) => cached t' ((f, l, chunk) :: held) | None => cached t' held /\ opened t' = opened t /\ ht t !! chunk = None end) t.
Proof.
  intros C M Nc L. unfold __get_chunk. wp_step. wp_step. destruct (ht t !! chunk) as [line|] eqn:Eh.
  - destruct (proj1 (ca_ht _ _ C _ _) Eh) as (_ & cl & El & Ek). wp_step. apply wp_zoom. eapply touch_same; [exact (ca_lru _ _ C)|exact El|].
    intros fc' C' Els Eg. wp_step. wp_step. wp_step. wp_step. fold (with_line line (set_users (users cl + 1) cl) (set_lru fc' t)).
    pose proof (cached_lru t held fc' C C' Els) as C1. split_and!; [done| |done|].
    + intros j x. unfold with_line, set_lru. cbn [lru lines]. rewrite Els. intros Ex Ux. destruct (decide (j = line)) as [->|N].
      * rewrite list_lookup_insert_eq in Ex by (by eapply lookup_lt_Some). simplify_eq. unfold set_users in Ux. simpl in Ux. rewrite (ca_users _ _ C _ _ El) in Ux.
        unfold uses in Ux. pose proof (zlen_nonneg (filter (fun r : reference => r.1.2 = line) held)). lia.
      * rewrite list_lookup_insert_ne in Ex by done. by apply (M j).
    + apply (cached_line _ held _ _ cl); [done|unfold set_lru; cbn [lru]; by rewrite Els|done|done| | |].
      * intros j Nj. rewrite uses_cons. cbn [fst snd]. rewrite decide_False by congruence. lia.
      * rewrite uses_cons. cbn [fst snd]. rewrite decide_True by done. unfold set_users. simpl. rewrite (ca_users _ _ C _ _ El). lia.
      * intros f j c [[= -> -> ->]|He]%elem_of_cons; [right; by rewrite Ek|by left].
  - wp_step. apply wp_open_chunk.
    + intros t1 E1 E2 E3 E4. wp_step. split_and!; [by rewrite E1|intros j x; rewrite E1; apply M|done|by eapply cached_same|done|done].
    + intros f t1 Ef Nf E1 E2 E3 E4. wp_step. apply wp_zoom. rewrite E1. eapply (wp_next_free _ held); [exact (ca_lru _ _ C)|exact (ca_users _ _ C)|exact L|].
      intros fc' line cl C' Eg Els El Eu. pose proof (M line cl El Eu) as Ed. wp_step. unfold the_line. wp_step. wp_step.
      unfold set_lru at 1. cbn [lru lines]. rewrite Els, El. wp_step. wp_step.
      apply wp_mono with (Q := fun _ s => lru s = fc' /\ unlinked s = unlinked t /\ ht s = (if key cl =? 0 then ht t else base.delete (key cl) (ht t)) /\
        opened s = (if key cl =? 0 then <[f := chunk]> (opened t) else base.delete (value cl) (<[f := chunk]> (opened t)))).
      * destruct (Z.eqb_spec (key cl) 0) as [K|K]; cbn [negb when]; [by wp_step; unfold set_lru; cbn [lru ht opened unlinked]|].
        destruct (ca_open _ _ C line cl El K) as [Ov Nv]. wp_step. wp_step. unfold dubtree_close_file. rewrite (proj2 (Z.eqb_neq _ _) Nv). cbn [negb when]. wp_step. wp_step.
        unfold set_ht, set_lru. cbn [opened ht lru unlinked]. rewrite E3, lookup_insert_ne, Ov by congruence. wp_step. unfold set_opened. cbn [opened ht lru unlinked].
        by rewrite E2, E4.
      * intros _ s (F1 & F2 & F3 & F4). wp_step. unfold put_line. wp_step. wp_step. wp_step. wp_step. unfold set_ht, set_lru. cbn [lru log_lines unlinked].
        rewrite F1, F2. split_and!; [done| |done|].
        -- cbv beta. intros j x. cbn [lru lines]. apply (marked_insert t); [done|done|done].
        -- eapply (cached_replace t held fc' line cl chunk f (LruCache.dirty cl)); cbn [lru ht opened]; rewrite ?F1, ?F3, ?F4; done.
Qed.

Lemma held_found t held f l c : cached t held -> (f, l, c) ∈ held -> ht t !! c = Some l.
Proof. intros C He. destruct (ca_held _ _ C _ _ _ He) as (Nc & cl & El & Ek & _). apply (proj2 (ca_ht _ _ C _ _)). eauto. Qed.

(** The file of an empty line is removed. *)
Lemma wp_unlink_clear t held l cl cl' (Q : unit -> DubTree -> Prop) : cached t held -> lines (lru t) !! l = Some cl -> users cl = 0 -> key cl <> 0 ->
  key cl' = 0 -> users cl' = 0 ->
  (forall t', cached t' held -> lru t' = lru (with_line l cl' t) -> no_longer_held held t t' -> Q tt t') ->
  wp (unlink_chunk (key cl) (value cl)) Q (with_line l cl' (set_ht (base.delete (key cl) (ht t)) t)).
Proof.
  intros C El Eu Nk Ek Eu' HQ. destruct (ca_open _ _ C l cl El Nk) as [Ov Nv]. pose proof (cached_clear _ _ l cl cl' C El Eu Nk Ek Eu') as C'.
  unfold unlink_chunk. wp_step. wp_step. unfold dubtree_close_file. rewrite (proj2 (Z.eqb_neq _ _) Nv). cbn [negb when]. wp_step. wp_step.
  unfold add_unlinked, with_line, set_lru, set_ht. cbn [opened]. rewrite Ov. wp_step. apply HQ.
  - eapply cached_same; [| | |exact C']; done.
  - done.
  - intros c. unfold set_opened. cbn [unlinked]. intros [->|Hc]%elem_of_cons; [|by left]. right. intros f j He. pose proof (held_found _ _ _ _ _ C' He) as E.
    unfold cleared, with_line, set_opened, set_lru, set_ht in E. cbn [ht] in E. by rewrite lookup_delete_eq in E.
Qed.

Lemma put_chunk_ok t h1 f l c h2 : cached t (h1 ++ (f, l, c) :: h2) -> marked t ->
  wp (__put_chunk f l) (fun _ t' => log_lines (lru t') = log_lines (lru t) /\ marked t' /\ cached t' (h1 ++ h2) /\ no_longer_held (h1 ++ h2) t t') t.
Proof.
  intros C M. destruct (ca_held _ _ C f l c) as (Nc & cl & El & Ek & Ev); [apply elem_of_app; right; by constructor|].
  assert (forall j, uses j (h1 ++ (f, l, c) :: h2) = (if decide (l = j) then 1 else 0) + uses j (h1 ++ h2)) as U.
  { intros j. rewrite !uses_app, uses_cons. cbn [fst snd]. lia. }
  pose proof (ca_users _ _ C l cl El) as Eu. rewrite U, decide_True in Eu by done. set (cl1 := set_users (users cl - 1) cl).
  assert (cached (with_line l cl1 t) (h1 ++ h2)) as C1.
  { apply (cached_line _ _ _ _ cl _ C El); [done|done| | |].
    - intros j Nj. rewrite U. rewrite decide_False by congruence. lia.
    - unfold cl1, set_users. cbn [users]. lia.
    - intros f' j c' He. left. apply elem_of_app in He as [He|He]; apply elem_of_app; [by left|right; by right]. }
  pose proof (lookup_lt_Some _ _ _ El) as Ll. unfold __put_chunk. wp_step. unfold the_line. wp_step. wp_step. rewrite El. wp_step. wp_step. unfold put_line at 1. wp_step.
  fold cl1. fold (with_line l cl1 t). apply wp_when.
  - intros [Hu Hd]%andb_prop. apply Z.eqb_eq in Hu. wp_step. apply wp_bug_if; [by rewrite Ev, Z.eqb_refl|]. wp_step. wp_step. unfold put_line. wp_step. wp_step.
    change (key cl) with (key cl1). change (value cl) with (value cl1). 
    assert (lines (lru (with_line l cl1 t)) !! l = Some cl1) as El1 by (unfold with_line, set_lru; cbn [lru lines]; by apply list_lookup_insert_eq).
    eapply (wp_unlink_clear (with_line l cl1 t) _ l cl1 no_line); [exact C1|done|unfold cl1, set_users; cbn [users]; lia|unfold cl1, set_users; cbn [key]; congruence|done|done|].
    intros t' C' E' N'. split_and!; [by rewrite E'| |done|done]. intros j x. rewrite E'. unfold with_line, set_lru. cbn [lru lines]. rewrite list_insert_insert_eq.
    by apply (marked_insert t).
  - intros Hb. split_and!; [done| |done|by intros x; left]. intros j x. unfold with_line, set_lru. cbn [lru lines]. apply (marked_insert t); [done|done|].
    unfold cl1, set_users. cbn [users del]. intros Hu. apply andb_false_iff in Hb as [Hb|Hb]; [apply Z.eqb_neq in Hb; lia|].
    by apply negb_false_iff, Z.eqb_eq in Hb.
Qed.

Lemma free_chunk_ok t held chunk : cached t held -> marked t ->
  wp (__free_chunk chunk) (fun _ t' => log_lines (lru t') = log_lines (lru t) /\ marked t' /\ cached t' held /\ no_longer_held held t t') t.
Proof.
  intros C M. unfold __free_chunk. wp_step. wp_step. destruct (ht t !! chunk) as [l|] eqn:Eh.
  - destruct (proj1 (ca_ht _ _ C _ _) Eh) as (Nc & cl & El & Ek). pose proof (ca_users _ _ C l cl El) as Eu.
    wp_step. unfold the_line. wp_step. wp_step. rewrite El. wp_step. destruct (Z.ltb_spec 0 (users cl)) as [Lu|Lu].
    + unfold put_line. wp_step. fold (with_line l (set_del 1 cl) t). split_and!; [done| | |by intros x; left].
      * intros j x. unfold with_line, set_lru. cbn [lru lines]. apply (marked_insert t); [done|done|]. unfold set_del. cbn [users]. lia.
      * apply (cached_line _ held _ _ cl); [done|done|done|done|done|done|by left].
    + assert (users cl = 0) as Eu0. { unfold uses in Eu. pose proof (zlen_nonneg (filter (fun r : reference => r.1.2 = l) held)). lia. }
      wp_step. wp_step. unfold put_line. wp_step. wp_step. rewrite <- Ek.
      eapply (wp_unlink_clear t held l cl); [exact C|done|done|congruence|done|done|]. intros t' C' E' N'. split_and!; [by rewrite E'| |done|done].
      intros j x. rewrite E'. unfold with_line, set_lru. cbn [lru lines]. apply (marked_insert t); [done|done|]. intros _. by apply (M l cl).
  - unfold unlink_chunk. wp_step. wp_step. unfold dubtree_close_file. rewrite Z.eqb_refl. cbn [negb when]. wp_step. split_and!; [done|done|by apply (cached_same t)|].
    intros c. unfold add_unlinked. cbn [unlinked]. intros [->|Hc]%elem_of_cons; [|by left]. right. intros f j He.
    pose proof (held_found _ _ _ _ _ C He). congruence.
Qed.
End Operations.

(** ** Any use of the cache *)

Section System.
Context `{FileEnv, !FileEnvOk}.

(** After [dubtree_init], with 2^[n] lines *)
Definition empty_cache (n k : nat) : DubTree :=
  {| lru := {| log_lines := n; bits := replicate (2 ^ n - 1) 0; lines := replicate (2 ^ n) no_line |};
     ht := ∅; fallbacks := k; opened := ∅; unlinked := []; calls := 0 |}.

(** Clients take references while there are fewer than lines, give back those they
    hold, and free chunks at any time. *)
Inductive used : DubTree -> list reference -> Prop :=
| used_empty n k : used (empty_cache n k) []
| used_get t held chunk dirty t' r :
    used t held -> chunk <> 0 -> (length held < 2 ^ log_lines (lru t))%nat -> __get_chunk chunk dirty t = (t', Ok r) ->
    used t' (match r with Some (f, l) => (f, l, chunk) :: held | None => held end)
| used_put t h1 f l c h2 t' : used t (h1 ++ (f, l, c) :: h2) -> __put_chunk f l t = (t', Ok tt) -> used t' (h1 ++ h2)
| used_free t held chunk t' : used t held -> __free_chunk chunk t = (t', Ok tt) -> used t' held.

Lemma cached_empty n k : cached (empty_cache n k) [].
Proof.
  split; cbn [lru ht opened empty_cache lines].
  - apply empty_cache_ok.
  - intros c l. rewrite lookup_empty. split; [done|]. intros (Nc & cl & [-> _]%lookup_replicate_1 & E). by destruct Nc.
  - intros l cl [-> _]%lookup_replicate_1. done.
  - intros l cl [-> _]%lookup_replicate_1. done.
  - intros h c. by rewrite lookup_empty.
  - intros f l c He. by apply elem_of_nil in He.
Qed.
Lemma used_cached t held : used t held -> cached t held /\ marked t.
Proof.
  induction 1 as [n k|t held chunk dirty t' r _ [C M] Nc L E|t h1 f l c h2 t' _ [C M] E|t held chunk t' _ [C M] E].
  - split; [apply cached_empty|]. intros l cl [-> _]%lookup_replicate_1. done.
  - pose proof (get_chunk_ok t held chunk dirty C M Nc L) as W. unfold wp in W. rewrite E in W. destruct W as (_ & M' & _ & W). split; [|done]. destruct r as [[f l]|]; [done|by destruct W].
  - pose proof (put_chunk_ok t h1 f l c h2 C M) as W. unfold wp in W. rewrite E in W. by destruct W as (_ & M' & C' & _).
  - pose proof (free_chunk_ok t held chunk C M) as W. unfold wp in W. rewrite E in W. by destruct W as (_ & M' & C' & _).
Qed.
End System.

(** ** Claim *)

(** C37: The file of a chunk stays open while the chunk is in use.  In every state
    that clients can reach by taking chunks (while they hold fewer references than
    there are lines, and of any number but 0, which
    [alloc_chunk] does not give: a line with the key 0 counts as empty), returning and
    freeing them: a handle that a client holds is open and is the file of its chunk, every open handle is in the line that
    the table gives for its chunk, so that none is lost and none is open twice (a file that nobody uses any more
    stays open until its line is needed or its chunk is freed); taking a
    chunk succeeds or finds no file, and ends under these conditions, although it looks for a line without
    users in a loop without bound; returning and freeing succeed (no file is closed twice, no
    assertion fails), and a file is only removed when nobody holds its
    chunk. *)
Theorem chunk_cache_safe `{FileEnv, !FileEnvOk} (t : DubTree) (held : list reference) : used t held ->
  (forall f l c, (f, l, c) ∈ held -> opened t !! f = Some c) /\
  (forall h c, opened t !! h = Some c -> exists l cl, ht t !! c = Some l /\ lines (lru t) !! l = Some cl /\ value cl = h) /\
  (forall chunk dirty, chunk <> 0 -> (length held < 2 ^ log_lines (lru t))%nat ->
     wp (__get_chunk chunk dirty) (fun r t' => match r with Some (f, _) => opened t' !! f = Some chunk | None => opened t' = opened t /\ ht t !! chunk = None end) t) /\
  (forall h1 f l c h2, held = h1 ++ (f, l, c) :: h2 -> wp (__put_chunk f l) (fun _ t' => no_longer_held (h1 ++ h2) t t') t) /\
  (forall chunk, wp (__free_chunk chunk) (fun _ t' => no_longer_held held t t') t).
Proof.
  intros R. destruct (used_cached _ _ R) as [C M].
  assert (forall t' held' f l c, cached t' held' -> (f, l, c) ∈ held' -> opened t' !! f = Some c) as Ho.
  { intros t' held' f l c C' He. destruct (ca_held _ _ C' _ _ _ He) as (Nc & cl & El & <- & <-). by apply (ca_open _ _ C' l). }
  split_and!.
  - intros f l c. by apply Ho.
  - intros h c Hc. destruct (ca_only _ _ C h c Hc) as (Nc & l & cl & El & Ek & Ev). exists l, cl. split_and!; [|done|done].
    apply (proj2 (ca_ht _ _ C _ _)). eauto.
  - intros chunk dirty Nc L. eapply wp_mono; [by apply (get_chunk_ok t held chunk dirty)|]. intros [[f l]|] t' (_ & _ & _ & C'); [|by destruct C'].
    eapply Ho; [exact C'|by constructor].
  - intros h1 f l c h2 ->. eapply wp_mono; [by apply (put_chunk_ok t h1 f l c h2)|]. by intros _ t' (_ & _ & _ & ?).
  - intros chunk. eapply wp_mono; [by apply (free_chunk_ok t held chunk)|]. by intros _ t' (_ & _ & _ & ?).
Qed.

(** A host that finds every chunk in the second directory *)
Definition new_handle (o : gmap Z Z) : Z := 1 + foldr (fun p m => Z.max p.1 m) 0 (map_to_list o).
#[local] Instance some_files : FileEnv := {| os_open := fun _ o _ _ fb => if (fb =? 1)%nat then Some (new_handle o) else None |}.
#[local] Instance some_files_ok : FileEnvOk.
Proof.
  split. intros t o chunk dirty fb h. simpl. destruct (fb =? 1)%nat; [|done]. intros [= <-]. unfold new_handle.
  assert (forall l : list (Z * Z), 0 <= foldr (fun p m => Z.max p.1 m) 0 l /\ forall p, p ∈ l -> p.1 <= foldr (fun p m => Z.max p.1 m) 0 l) as Hm.
  { induction l as [|x l [IH1 IH2]]; [split; [done|]; intros p Hp; by apply elem_of_nil in Hp|]. simpl. split; [lia|].
    intros p [->|Hp]%elem_of_cons; [lia|]. specialize (IH2 p Hp). lia. }
  destruct (Hm (map_to_list o)) as [H1 H2]. split; [|unfold DUBTREE_INVALID_HANDLE; lia]. destruct (o !! _) as [c|] eqn:E; [|done].
  apply elem_of_map_to_list in E. specialize (H2 _ E). simpl in H2. lia.
Qed.
Definition one_get : DubTree := (__get_chunk 7 false (empty_cache 1 2)).1.
Lemma chunk_cache_safe_witness : opened one_get !! 1 = Some 7.
Proof.
  destruct (chunk_cache_safe one_get [(1, 0%nat, 7)]) as [Hh _]; [|apply (Hh 1 0%nat 7); by constructor].
  apply (used_get (empty_cache 1 2) [] 7 false one_get (Some (1, 0%nat))); [apply used_empty|done|simpl; lia|vm_compute; reflexivity].
Defined.
